(* ===== verification/_CoqProject ===== *)
-Q . S2P
Prelude.v
BTree.v
Text.v
F64.v
Knowledge.v
Literals.v
Syntax.v
Analysis.v
Journal.v
Scenario.v
World.v
Program.v
Compile.v
Reparse.v
Formatting.v
Deploy.v
DeployFacts.v
Cpu.v
Construct.v
Exec.v
Isa.v
Frame.v
Behaviour.v
Vm.v
Lua.v
Simulator.v
Tick.v
Safety.v
Control.v
Schema.v
Evaluator.v
EvaluatorFacts.v
ScriptDriver.v
ScriptDriverFacts.v
Load.v
Runner.v
RunnerFacts.v
TestRun.v
TestRunFacts.v
Replay.v
History.v
HistoryFacts.v
TimeTravel.v
Environment.v
EnvironmentFacts.v
Editor.v
EditorFacts.v
RenameFacts.v
Proposal.v
ProposalFacts.v
Debugger.v
Session.v
SessionFacts.v
SessionSafety.v
Protocol.v
ProtocolFacts.v
LuaSandbox.v
LuaSandboxFacts.v
LuaMock.v
CommandLine.v
Commands.v
