(* ===== verification/Prelude.v ===== *)
(** * Stationeers Toolkit: a verification development

    The repository is a toolkit for IC10, the assembly language of the processors in the
    game Stationeers.  Its Rust crates parse, check, format and build IC10 sources, run
    whole scenarios of devices, networks and programs tick by tick, test them, and debug
    them back and forth, and serve editors.  This library models those crates as
    executable definitions and proves what makes them correct.

    ** The program and its model

    A source text goes through [ic10-core] (tokens, lines, declarations, analysis,
    formatting) and is built for the game by [ic10-build] or compiled by [ic10-sim] to
    the tables a processor runs on.  A scenario file becomes a world of devices and
    networks and one runtime per program; the scheduler gives the runtimes their turns
    within a tick, and behaviours move items between ticks.  Every access is recorded in
    a journal.  [ic10-runner] runs scenarios against test files: stimuli, scripted
    drivers that react to recorded writes, assertions.  [ic10-dap] runs a scenario under
    a debugger and goes back in time.  [ic10-lsp] serves the features of an editor, checks
    programs against the scenarios they run in and proposes scenarios for them.

    Each file models one part; a definition names its source in its comment.

    - Foundations: [Prelude] (outcomes of Rust calls, the state and error monad,
      machine-width integers, the relations [keeps] and [safe] with their tactics),
      [BTree] (ordered maps), [Text] (UTF-8 strings as bytes), [F64] (binary64).
    - ic10-data/src/lib.rs: [Knowledge].
    - ic10-core/src/lib.rs, analysis.rs, formatting.rs: [Literals], [Syntax],
      [Analysis], [Reparse] (theory of written lines), [Formatting].
    - ic10-sim/src/journal.rs: [Journal]; scenario.rs: [Scenario]; world.rs: [World];
      program.rs: [Program], [Compile]; behaviour.rs: [Behaviour]; vm.rs: [Vm];
      lua.rs: [Lua].
    - ic10-build/src/lib.rs: [Deploy], with its proofs in [DeployFacts].
    - ic10-sim/src/simulator.rs: [Cpu] (a processor and its operands), [Exec] (every
      instruction), [Construct] and [Load] (from a scenario to a simulation),
      [Simulator] (the scheduler and ticks), [Control] (checkpoints, hashes, edits,
      replay of recorded writes).  [Isa], [Frame], [Tick] and [Safety] hold the proofs.
    - ic10-sim/src/context.rs: [Environment], with its proofs in [EnvironmentFacts];
      the sandbox of lua.rs: [LuaSandbox], [LuaSandboxFacts]; lua_mock.rs: [LuaMock].
    - ic10-runner/src/schema.rs: [Schema]; evaluator.rs: [Evaluator], [EvaluatorFacts];
      script_driver.rs: [ScriptDriver], [ScriptDriverFacts]; runner.rs: [Runner] and
      [TestRun], [RunnerFacts] and [TestRunFacts]; main.rs: [CommandLine] (arguments and
      [build]) and [Commands] ([test], [check], [sim] and the reports).
    - ic10-dap/src/main.rs: [TraceHistory] is [History], with its proofs in [Replay],
      [HistoryFacts] and [TimeTravel]; breakpoints are [Debugger]; the adapter, its runner
      and its requests are [Session], [SessionFacts] and [SessionSafety]; the messages on
      the wire are [Protocol] and [ProtocolFacts].
    - ic10-lsp/src/main.rs: [Editor], [EditorFacts] and [RenameFacts];
      environment_proposal.rs: [Proposal], [ProposalFacts].

    A struct is a [Record], an enum an [Inductive], a function a [Definition] or a
    [Fixpoint] with the branches of the source.  A method that changes its receiver is a
    computation of the monad [M S E A := S → outcome E A * S]: an error leaves the state
    as it is at that point, and a panic ([unwrap], an index out of range, an arithmetic
    overflow where [Build] checks for it) is the outcome [Panic], which nothing catches.
    Integers are [Z] with the wrap-around of their width written out where the source
    computes with them; indices that are only looked up are [nat].  A [BTreeMap] is the
    list of its entries in key order, since the program hashes and walks maps in order.
    A message is the list of its pieces, as numbers are printed by [FloatDisplay].

    ** What the theorems show

    - Execution.  A tick always completes ([world_tick_completes]); steps go in the order
      of the schedule ([scheduler_step_in_order]); no instruction and no tick panics or
      leaves the invariant of the state ([simulation_never_panics],
      [execute_operation_safe], [loaded_simulation_runs] from the scenario on); the
      instructions do what independent descriptions say ([alu_instructions_correct],
      [comparison_branch_correct]).
    - World.  Construction gives a well-formed world
      ([build_well_formed], [built_cpu_well_formed]); fields read back
      ([field_read_after_write]); items move whole or not at all ([move_slot_atomic]);
      scheduled edits run when they are due ([tick_start_runs_due]).
    - Language.  Tokens are slices of their line ([tokenize_correct]); the analysis finds
      exactly the unreachable lines and the circular declarations
      ([unreachable_code_exact], [symbol_cycles_exact]); compiling keeps the document
      ([compile_holds_document]); formatting is idempotent and keeps the program; a
      readable build fetches the instructions of its source at the corresponding places
      ([readable_build_fetches], [readable_build_relocates], [build_outcomes]).
    - State.  Checkpoints restore ([restore_snapshot]); recorded edits replay
      ([edit_replays]); the journal is read once and in order ([journal_cursor]).
    - Tests.  Expressions have the value of their structure ([evaluation_follows_structure]),
      evaluation ends ([evaluation_ends]), assignments read back
      ([assignment_reads_back]); the scripted drivers run what is due and keep their queue
      ([pump_keeps_order]); a test file is loaded exactly when it is within its bounds
      ([load_accepts]); a case always reaches a result ([scenario_case_ends]), and one
      that passed met its specification ([passed_case_met]); every run of a file has one result and a seed of its own
      ([file_runs_completely]), and the debugger reruns the same case
      ([debugged_case_is_run]).
    - Debugging.  [Replay] proves of everything the scheduler runs that it has the same
      result and effects when it runs again in a state that differs in the past of its
      journal; [TimeTravel] states a debugged simulation as a relation between a history,
      the states it went through and the present one, and proves that every retained
      state is reached again ([time_travel]) and that recording stays within its limits
      ([recording_is_bounded]).  On top of it, a step back undoes a step
      ([step_back_undoes_step]), breakpoints stop ([breakpoint_stops]), a turn of the
      runner keeps the history ([turn_keeps_history]), whatever is requested keeps the
      session usable ([session_keeps_checkpoints]), and a stream of messages is served
      whatever pieces it is read in ([stream_serves_requests]).  Where the program loses
      a state (a stop recorded after a tick has passed) an example shows it.
    - Editors.  The index of environments holds the known scenarios ([index_holds_known]);
      what the editor accepts of a device runs in the world ([accepted_access_runs]) and
      is what it offers ([offered_fields_accepted]); a rename keeps the program
      ([rename_keeps_program]); the quick fix proposes the nearest instruction
      ([closest_instruction_nearest]); a proposed environment has the devices a program
      needs ([proposal_meets_program]).
    - Lua.  A run of modules stays inside its roots ([module_run_confined]); the mock of
      programs is replayed by its seed ([mock_replays]).

    Where a theorem says what the code means by a table of instructions or operators, the
    table is written out beside it and does not come from the code: the branches in
    [DeployFacts], the uses of devices in [ProposalFacts], the operators in
    [EvaluatorFacts], the results of instructions in [Isa].

    Theorems on executions are stated for states that satisfy an invariant
    ([Safety.sim_ok]), which construction establishes and every operation keeps; a state
    that evaluates is given with every theorem that has a hypothesis, in its witness.

    ** Fuel and bounds

    Loops that are not structural run on fuel, and the fuel is proved to be enough:
    [Simulator.tick_fuel] counts the steps the slots of a tick are allowed
    ([Tick.step_until_tick_spec]); [Evaluator] and [Analysis] use the length of the text
    and the number of names or edges; [Runner.case_fuel] the ticks that are left of a
    case; [ScriptDriver] its limits on cascades and actions; [LuaSandbox.module_fuel] the
    bytes of sources a run may read; [Protocol.header_fuel] the bytes that are left of the
    stream; [Commands.sim_fuel] the ticks that are asked for; [History.memory_fuel] the
    number of checkpoints and [History.replay_fuel] the ticks to a record.  Where a
    theorem bounds a counter it is by the width of its type: ticks and sequence numbers
    by [U64_MAX], symbols by 2^32.  [Build] says whether the crate is built with overflow
    checks; the theorems on panics are about release builds.

    ** Not modelled

    - Code outside the repository is an argument or a class: the decimal parser and
      printer of [f64] and the transcendental functions ([FloatDisplay], [Libm]), serde's
      JSON, SHA-256, the file system and paths, the Lua interpreter ([LuaEngine]), the
      sizes of allocations.  The game data are an argument ([KnowledgeBase]).
    - The interpreter of Lua: a chunk is a finite tree of the modules it requires, its
      values and the locals that are read through it are arguments.  Theorems on ticks
      that speak of panics are for scenarios without Lua programs.
    - Of the debug adapter, the requests that only render the state as JSON (threads,
      stacks, scopes, variables, the topology view and its overlay, the exported trace);
      of the language server, the registration of its features, notifications and the
      texts of hovers.  The decoding of arguments is serde's.
    - The extension (TypeScript), the mods of the game (C#), the generated data. *)

From stdpp Require Export base option list strings gmap pretty.
From Stdlib Require Export ZArith Lia ZifyBool.
From Stdlib Require Import Sorting.Sorted.

#[global] Set Default Proof Using "Type".

(** ** Outcomes

    A Rust call returns [Result<A, E>] or panics.  [Panic] is kept apart from
    [Err] because a panic is never a value the caller can handle. *)
Inductive outcome (E A : Type) : Type :=
  | Ok (a : A)
  | Err (e : E)
  | Panic.
Arguments Ok {E A} a.
Arguments Err {E A} e.
Arguments Panic {E A}.

Definition is_ok {E A} (r : outcome E A) : bool :=
  match r with Ok _ => true | _ => false end.

(** The [Option] a caller obtains with [.ok()]: a panic still unwinds. *)
Definition outcome_map {E A B} (f : A → B) (r : outcome E A) : outcome E B :=
  match r with Ok a => Ok (f a) | Err e => Err e | Panic => Panic end.

Definition outcome_bind {E A B} (r : outcome E A) (k : A → outcome E B) : outcome E B :=
  match r with Ok a => k a | Err e => Err e | Panic => Panic end.

Definition ok_or {E A} (o : option A) (e : E) : outcome E A :=
  match o with Some a => Ok a | None => Err e end.

#[export] Instance outcome_mret {E} : MRet (outcome E) := λ A a, Ok a.
#[export] Instance outcome_mbind {E} : MBind (outcome E) := λ A B k r, outcome_bind r k.
#[export] Instance outcome_fmap {E} : FMap (outcome E) := λ A B f r, outcome_map f r.

(** ** State and error

    A Rust function over [&mut] state keeps the writes it made before it
    returned [Err]; the state is therefore returned beside every outcome. *)
Definition M (S E A : Type) : Type := S → outcome E A * S.

#[export] Instance M_mret {S E} : MRet (M S E) := λ A a s, (Ok a, s).
#[export] Instance M_mbind {S E} : MBind (M S E) := λ A B k m s,
  match m s with
  | (Ok a, s') => k a s'
  | (Err e, s') => (Err e, s')
  | (Panic, s') => (Panic, s')
  end.

Section monad.
Context {S E : Type}.

Definition throw {A} (e : E) : M S E A := λ s, (Err e, s).
Definition panic {A} : M S E A := λ s, (Panic, s).
Definition gets {A} (f : S → A) : M S E A := λ s, (Ok (f s), s).
Definition modify (f : S → S) : M S E () := λ s, (Ok (), f s).
Definition lift {A} (r : outcome E A) : M S E A := λ s, (r, s).
(** [get f]: a checked access, [None] being the Rust panic of an index. *)
Definition get_or_panic {A} (f : S → option A) : M S E A := λ s,
  match f s with Some a => (Ok a, s) | None => (Panic, s) end.
(** [attempt m]: the [Result] itself as a value, for [.ok()] and [.is_ok()]. *)
Definition attempt {A} (m : M S E A) : M S E (option A) := λ s,
  match m s with
  | (Ok a, s') => (Ok (Some a), s')
  | (Err _, s') => (Ok None, s')
  | (Panic, s') => (Panic, s')
  end.
Definition when (b : bool) (m : M S E ()) : M S E () := if b then m else mret ().

Fixpoint for_each {A} (f : A → M S E ()) (l : list A) : M S E () :=
  match l with
  | [] => mret ()
  | a :: l' => f a ≫= λ _, for_each f l'
  end.
End monad.

(** [m] started in a state of [I] never panics, ends in a state of [I], and a
    value it returns satisfies [Q]. *)
Definition safe {S E A} (I : S → Prop) (m : M S E A) (Q : A → Prop) : Prop :=
  ∀ s, I s →
    match m s with
    | (Ok a, s') => I s' ∧ Q a
    | (Err _, s') => I s'
    | (Panic, _) => False
    end.

Definition any {A} : A → Prop := λ _, True.

Create HintDb sim discriminated.

(** The first step of a computation that returned. *)
Lemma bind_run {S E A B} (m : M S E A) (k : A → M S E B) s a s' :
  m s = (Ok a, s') → (m ≫= k) s = k a s'.
Proof. intros H. unfold mbind, M_mbind. by rewrite H. Qed.

Lemma bind_gets {S E A B} (f : S → A) (k : A → M S E B) s : (gets f ≫= k) s = k (f s) s.
Proof. done. Qed.

Lemma bind_modify {S E B} (f : S → S) (k : () → M S E B) s : (modify f ≫= k) s = k () (f s).
Proof. done. Qed.

Lemma bind_lift_Ok {S E A B} (a : A) (k : A → M S E B) s : (lift (Ok a) ≫= k) s = k a s.
Proof. done. Qed.

Lemma bind_lift_Some {S E A B} (a : A) (e : E) (k : A → M S E B) s : (lift (ok_or (Some a) e) ≫= k) s = k a s.
Proof. done. Qed.

Lemma bind_err {S E A B} (m : M S E A) (k : A → M S E B) s e s' :
  m s = (Err e, s') → (m ≫= k) s = (Err e, s').
Proof. intros H. unfold mbind, M_mbind. by rewrite H. Qed.

Section safe.
Context {S E : Type} (I : S → Prop).
Implicit Types (A B : Type).

Lemma safe_ret A (a : A) (Q : A → Prop) : Q a → safe (E:=E) I (mret a) Q.
Proof. intros HQ s Hs. by split. Qed.

Lemma safe_bind A B (m : M S E A) (k : A → M S E B) P Q :
  safe I m P → (∀ a, P a → safe I (k a) Q) → safe I (m ≫= k) Q.
Proof.
  intros Hm Hk s Hs. unfold mbind, M_mbind. specialize (Hm s Hs).
  destruct (m s) as [[a|e|] s']; [|done..].
  destruct Hm as [Hs' HP]. by apply (Hk a HP).
Qed.

Lemma safe_weaken A (m : M S E A) (P Q : A → Prop) :
  safe I m P → (∀ a, P a → Q a) → safe I m Q.
Proof.
  intros Hm HPQ s Hs. specialize (Hm s Hs).
  destruct (m s) as [[a|e|] s']; [|done..]. naive_solver.
Qed.

Lemma safe_any A (m : M S E A) P : safe I m P → safe I m any.
Proof. intros Hm. eapply safe_weaken; [done|]. done. Qed.

Lemma safe_throw A (e : E) (Q : A → Prop) : safe I (throw e) Q.
Proof. by intros s Hs. Qed.

Lemma safe_lift_ok_or A (o : option A) (e : E) (Q : A → Prop) :
  (∀ a, o = Some a → Q a) → safe I (lift (ok_or o e)) Q.
Proof. intros HQ s Hs. destruct o; simpl; naive_solver. Qed.

Lemma safe_lift_any A (o : option A) (e : E) : safe I (lift (ok_or o e)) any.
Proof. by apply safe_lift_ok_or. Qed.

Lemma safe_modify (f : S → S) : (∀ s, I s → I (f s)) → safe (E:=E) I (modify f) any.
Proof. intros Hf s Hs. by split; [apply Hf|]. Qed.

Lemma safe_gets A (f : S → A) (Q : A → Prop) :
  (∀ s, I s → Q (f s)) → safe (E:=E) I (gets f) Q.
Proof. intros HQ s Hs. simpl. auto. Qed.

Lemma safe_get_or_panic A (f : S → option A) (Q : A → Prop) :
  (∀ s, I s → ∃ a, f s = Some a ∧ Q a) → safe (E:=E) I (get_or_panic f) Q.
Proof.
  intros HQ s Hs. unfold get_or_panic. destruct (HQ s Hs) as (a & -> & ?). done.
Qed.

Lemma safe_attempt A (m : M S E A) P :
  safe I m P → safe I (attempt m) (λ o, ∀ a, o = Some a → P a).
Proof.
  intros Hm s Hs. unfold attempt. specialize (Hm s Hs).
  destruct (m s) as [[a|e|] s']; naive_solver.
Qed.

Lemma safe_when b (m : M S E ()) : safe I m any → safe I (when b m) any.
Proof. destruct b; [done|]. intros _. by apply safe_ret. Qed.

Lemma safe_for_each A (f : A → M S E ()) l :
  (∀ a, a ∈ l → safe I (f a) any) → safe I (for_each f l) any.
Proof.
  induction l as [|a l IH]; intros Hf; simpl; [by apply safe_ret|].
  eapply safe_bind; [apply Hf; left|]. intros _ _. apply IH. intros. apply Hf. by right.
Qed.
End safe.

#[export] Hint Resolve safe_throw : sim.

(** [safe_step] peels the head of a monadic program off a [safe] goal. *)
Ltac safe_step :=
  lazymatch goal with
  | |- safe _ (mret _) _ => apply safe_ret; try done
  | |- safe _ (throw _) _ => apply safe_throw
  | |- safe _ (mbind _ _) _ => eapply safe_bind; [|intros ? ?; cbv beta]
  | |- safe _ (when _ _) _ => apply safe_when
  | |- safe _ (if ?b then _ else _) _ => destruct b eqn:?
  | |- safe _ (match ?x with _ => _ end) _ => destruct x eqn:?
  | |- safe _ (let _ := _ in _) _ => cbv zeta
  end.

(** ** Machine integers

    A value of a w-bit type is the integer it denotes; an operation that wraps
    names its reduction. *)
Definition U8_MAX : Z := 2 ^ 8 - 1.
Definition U32_MAX : Z := 2 ^ 32 - 1.
Definition U64_MAX : Z := 2 ^ 64 - 1.
Definition I32_MIN : Z := - 2 ^ 31.
Definition I32_MAX : Z := 2 ^ 31 - 1.
Definition I64_MIN : Z := - 2 ^ 63.
Definition I64_MAX : Z := 2 ^ 63 - 1.

(** [z as u64] and the narrower unsigned casts from an integer type. *)
Definition wrap_u (w z : Z) : Z := z mod 2 ^ w.
(** [z as i64] and the narrower signed casts from an integer type. *)
Definition wrap_i (w z : Z) : Z := (z + 2 ^ (w - 1)) mod 2 ^ w - 2 ^ (w - 1).

Lemma wrap_u_range w z : (0 ≤ w)%Z → (0 ≤ wrap_u w z < 2 ^ w)%Z.
Proof. intros Hw. apply Z.mod_pos_bound. by apply Z.pow_pos_nonneg. Qed.

Lemma wrap_u_small w z : (0 ≤ z < 2 ^ w)%Z → wrap_u w z = z.
Proof. intros Hz. by apply Z.mod_small. Qed.

Lemma wrap_i_range w z :
  (0 < w)%Z → (- 2 ^ (w - 1) ≤ wrap_i w z < 2 ^ (w - 1))%Z.
Proof.
  intros Hw. unfold wrap_i.
  pose proof (Z.mod_pos_bound (z + 2 ^ (w - 1)) (2 ^ w)).
  assert (2 ^ w = 2 * 2 ^ (w - 1))%Z as E by (rewrite <- Z.pow_succ_r by lia; f_equal; lia).
  assert (0 < 2 ^ (w - 1))%Z by (apply Z.pow_pos_nonneg; lia). lia.
Qed.

Lemma wrap_i_small w z :
  (0 < w)%Z → (- 2 ^ (w - 1) ≤ z < 2 ^ (w - 1))%Z → wrap_i w z = z.
Proof.
  intros Hw Hz. unfold wrap_i.
  assert (2 ^ w = 2 * 2 ^ (w - 1))%Z as E by (rewrite <- Z.pow_succ_r by lia; f_equal; lia).
  rewrite Z.mod_small; lia.
Qed.

Create Rewrite HintDb wrap.
#[export] Hint Rewrite wrap_u_small wrap_i_small using (cbn in *; lia) : wrap.

(** Whether the crate was built with overflow checks: arithmetic that overflows
    panics in a debug build and wraps in a release build. *)
Class Build := { overflow_checks : bool }.

Section arithmetic.
Context `{Build}.

Definition on_overflow {E A} (a : A) : outcome E A := if overflow_checks then Panic else Ok a.

(** [a + b] on [u64] *)
Definition add_u64 {E} (a b : Z) : outcome E Z :=
  if (a + b <=? U64_MAX)%Z then Ok (a + b)%Z else on_overflow (wrap_u 64 (a + b)).
(** [a + b] on [i64] *)
Definition add_i64 {E} (a b : Z) : outcome E Z :=
  if ((I64_MIN <=? a + b)%Z && (a + b <=? I64_MAX)%Z)%bool then Ok (a + b)%Z else on_overflow (wrap_i 64 (a + b)).
(** [a << s] on [u64] with a [u32] shift *)
Definition shl_u64 {E} (a s : Z) : outcome E Z :=
  if (s <? 64)%Z then Ok (wrap_u 64 (Z.shiftl a s)) else on_overflow (wrap_u 64 (Z.shiftl a (s mod 64)%Z)).
(** [a >> s] on [u64] with a [u32] shift *)
Definition shr_u64 {E} (a s : Z) : outcome E Z :=
  if (s <? 64)%Z then Ok (Z.shiftr a s) else on_overflow (Z.shiftr a (s mod 64)%Z).
End arithmetic.

(** Little-endian bytes of an unsigned integer: [to_le_bytes]. *)
Fixpoint le_bytes (n : nat) (z : Z) : list Z :=
  match n with
  | O => []
  | S n' => (z mod 256)%Z :: le_bytes n' (z / 256)%Z
  end.

Lemma le_bytes_length n z : length (le_bytes n z) = n.
Proof. revert z; induction n as [|n IH]; intros z; simpl; [done|]. by rewrite IH. Qed.

(** ** Lists *)
Section lists.
Context {A B : Type}.

(** [iter().enumerate()] *)
Definition enumerate (l : list A) : list (nat * A) := zip (seq 0 (length l)) l.

(** [iter().find_map] *)
Fixpoint find_map (f : A → option B) (l : list A) : option B :=
  match l with
  | [] => None
  | a :: l' => match f a with Some b => Some b | None => find_map f l' end
  end.

(** [iter().position] *)
Fixpoint position (f : A → bool) (l : list A) : option nat :=
  match l with
  | [] => None
  | a :: l' => if f a then Some 0 else S <$> position f l'
  end.

Lemma find_map_Some f l b :
  find_map f l = Some b → ∃ i a, l !! i = Some a ∧ f a = Some b.
Proof.
  induction l as [|a l IH]; simpl; [done|]. destruct (f a) eqn:E.
  - intros [= <-]. by exists 0, a.
  - intros H. destruct (IH H) as (i & a' & ? & ?). by exists (S i), a'.
Qed.

Lemma find_map_None f l : find_map f l = None ↔ ∀ a, a ∈ l → f a = None.
Proof.
  induction l as [|a l IH]; simpl; [set_solver|]. destruct (f a) eqn:E.
  - split; [done|]. intros H. rewrite H in E; [done|left].
  - rewrite IH. set_solver.
Qed.
End lists.

(** [slice::sort_by], which is stable: an element goes after those it is not before. *)
Section sort.
Context {A : Type} (before : A → A → bool).

Fixpoint insert_by (a : A) (l : list A) : list A :=
  match l with
  | [] => [a]
  | b :: l' => if before a b then a :: l else b :: insert_by a l'
  end.

Definition sort_by (l : list A) : list A := foldl (λ sorted a, insert_by a sorted) [] l.

Lemma insert_by_permutation a l : insert_by a l ≡ₚ a :: l.
Proof. induction l as [|b l IH]; [done|]. cbn [insert_by]. case_match; [done|]. rewrite IH. apply Permutation_swap. Qed.

Lemma sort_by_permutation l : sort_by l ≡ₚ l.
Proof.
  unfold sort_by. induction l as [|a l IH] using rev_ind; [done|]. rewrite foldl_app. cbn [foldl].
  by rewrite insert_by_permutation, IH, Permutation_cons_append.
Qed.

(** In the order of a key that [before] compares. *)
Lemma sort_by_sorted (R : A → A → Prop) `{!Transitive R} l :
  (∀ a b, before a b = true → R a b) → (∀ a b, before a b = false → R b a) → StronglySorted R (sort_by l).
Proof.
  intros Hbefore Hafter.
  assert (∀ a l, StronglySorted R l → StronglySorted R (insert_by a l)) as Hinsert.
  { clear l. intros a l. induction 1 as [|b l Hl IH Hb]; cbn [insert_by]; [by repeat constructor|]. destruct (before a b) eqn:E.
    - constructor; [by constructor|]. apply Hbefore in E. constructor; [done|]. eapply Forall_impl; [exact Hb|]. intros c. by transitivity b.
    - constructor; [exact IH|]. rewrite insert_by_permutation. constructor; [by apply Hafter|done]. }
  unfold sort_by. induction l as [|a l IH] using rev_ind; [constructor|]. rewrite foldl_app. by apply Hinsert.
Qed.
End sort.

(** [Option::is_some] *)
Definition is_some {A} (o : option A) : bool := match o with Some _ => true | None => false end.

(** [iter().find] *)
Definition find_first {A} (f : A → bool) (l : list A) : option A :=
  find_map (λ a, if f a then Some a else None) l.

Lemma find_first_Some {A} (f : A → bool) l a :
  find_first f l = Some a → a ∈ l ∧ f a = true.
Proof.
  intros (i & b & Hi & Hb)%find_map_Some. destruct (f b) eqn:E; simplify_eq.
  split; [|done]. by eapply list_elem_of_lookup_2.
Qed.

Lemma find_first_None {A} (f : A → bool) l : find_first f l = None → ∀ a, a ∈ l → f a = false.
Proof.
  unfold find_first. induction l as [|b l IH]; [by intros _ a ?%elem_of_nil|]. simpl. destruct (f b) eqn:E; [done|].
  intros Hn a [->|Hin]%elem_of_cons; [done|by apply IH].
Qed.

Lemma find_first_app {A} (f : A → bool) l k :
  find_first f (l ++ k) = match find_first f l with Some a => Some a | None => find_first f k end.
Proof. unfold find_first. induction l as [|a l IH]; simpl; [done|]. by destruct (f a). Qed.

Lemma elem_of_rev {A} (a : A) l : a ∈ rev l ↔ a ∈ l.
Proof. by rewrite !list_elem_of_In, <-in_rev. Qed.

Lemma find_first_is_Some {A} (f : A → bool) l a :
  a ∈ l → f a = true → is_Some (find_first f l).
Proof.
  intros Ha Hf. destruct (find_first f l) eqn:E; [eauto|].
  apply find_map_None with (a:=a) in E; [|done]. by rewrite Hf in E.
Qed.

Lemma filter_id {A} (P : A → Prop) `{∀ a, Decision (P a)} (l : list A) :
  Forall P l → filter P l = l.
Proof. induction 1 as [|a l Ha _ IH]; [done|]. by rewrite filter_cons, decide_True, IH. Qed.

Lemma filter_none {A} (P : A → Prop) `{∀ a, Decision (P a)} (l : list A) :
  Forall (λ a, ¬ P a) l → filter P l = [].
Proof. induction 1 as [|a l Ha _ IH]; [done|]. by rewrite filter_cons, decide_False, IH. Qed.

(** ** Running a computation on a part of the state *)
Definition zoom {S T E A} (get : S → T) (put : T → S → S) (m : M T E A) : M S E A := λ s,
  let '(r, t) := m (get s) in (r, put t s).

Lemma safe_zoom {S T E A} (I : S → Prop) (J : T → Prop) (get : S → T) (put : T → S → S)
    (m : M T E A) Q :
  (∀ s, I s → J (get s)) → (∀ s t, I s → J t → I (put t s)) →
  safe J m Q → safe I (zoom get put m) Q.
Proof.
  intros Hget Hput Hm s Hs. unfold zoom. specialize (Hm _ (Hget _ Hs)).
  destruct (m (get s)) as [[a|e|] t]; naive_solver.
Qed.

(** A fold that can fail: [for x in l { acc = step(acc, x)?; }]. *)
Fixpoint fold_outcome {E A B} (step : A → B → outcome E A) (acc : A) (l : list B) : outcome E A :=
  match l with
  | [] => Ok acc
  | b :: l' => acc' ← step acc b; fold_outcome step acc' l'
  end.

(** An index the code has just checked, or one whose failure is a panic. *)
Definition expect {E A} (o : option A) : outcome E A :=
  match o with Some a => Ok a | None => Panic end.

Lemma fold_outcome_ind {E A B} (P : A → Prop) (step : A → B → outcome E A) acc l r :
  (∀ a b a', b ∈ l → P a → step a b = Ok a' → P a') →
  P acc → fold_outcome step acc l = Ok r → P r.
Proof.
  revert acc. induction l as [|b l IH]; simpl; intros acc Hstep Hacc.
  - by intros [= <-].
  - destruct (step acc b) as [a'| |] eqn:Hb; simpl; try done.
    apply IH.
    + intros a c a'' Hc. apply Hstep. by right.
    + eapply Hstep; [left|done|done].
Qed.

(** Case analysis of an [outcome] program that returned. *)
Lemma outcome_bind_Ok {E A B} (r : outcome E A) (k : A → outcome E B) b :
  r ≫= k = Ok b → ∃ a, r = Ok a ∧ k a = Ok b.
Proof. destruct r; simpl; naive_solver. Qed.

Lemma ok_or_Ok {E A} (o : option A) (e : E) a : ok_or o e = Ok a → o = Some a.
Proof. destruct o; simpl; naive_solver. Qed.

Lemma expect_Ok {E A} (o : option A) a : @expect E A o = Ok a → o = Some a.
Proof. destruct o; simpl; naive_solver. Qed.

Ltac outcome_inv :=
  repeat match goal with
  | H : (_ ≫= _) = Ok _ |- _ => apply outcome_bind_Ok in H as (? & ? & ?)
  | H : ok_or _ _ = Ok _ |- _ => apply ok_or_Ok in H
  | H : expect _ = Ok _ |- _ => apply expect_Ok in H
  | H : (if ?b then _ else _) = Ok _ |- _ => destruct b eqn:?
  | H : (let '(_, _) := ?p in _) = Ok _ |- _ => destruct p eqn:?
  | H : Err _ = Ok _ |- _ => discriminate H
  | H : Panic = Ok _ |- _ => discriminate H
  | H : Ok _ = Ok _ |- _ => injection H as H
  end.

(** ** Maps that stop at the first error *)

(** [iter.map(f).collect::<Result<Vec<_>, _>>()] *)
Fixpoint map_outcome {E A B} (f : A → outcome E B) (l : list A) : outcome E (list B) :=
  match l with
  | [] => Ok []
  | a :: l' => b ← f a; l'' ← map_outcome f l'; Ok (b :: l'')
  end.

Lemma map_outcome_length {E A B} (f : A → outcome E B) l l' : map_outcome f l = Ok l' → length l' = length l.
Proof.
  revert l'. induction l as [|a l IH]; simpl; intros l' Hm; [by injection Hm as <-|].
  apply outcome_bind_Ok in Hm as (b & _ & (l2 & Hl2 & [= <-])%outcome_bind_Ok). simpl. f_equal. by apply IH.
Qed.

Lemma map_outcome_elem {E A B} (f : A → outcome E B) l l' :
  map_outcome f l = Ok l' → Forall2 (λ a b, f a = Ok b) l l'.
Proof.
  revert l'. induction l as [|a l IH]; simpl; intros l' Hm; [by injection Hm as <-|].
  apply outcome_bind_Ok in Hm as (b & Hb & (l2 & Hl2 & [= <-])%outcome_bind_Ok). constructor; [done|]. by apply IH.
Qed.

Lemma map_outcome_no_panic {E A B} (f : A → outcome E B) l : (∀ a, a ∈ l → f a ≠ Panic) → map_outcome f l ≠ Panic.
Proof.
  induction l as [|a l IH]; intros Hf; [done|]. cbn [map_outcome].
  assert (f a ≠ Panic) as Ha by (apply Hf; left). assert (map_outcome f l ≠ Panic) as Hl by (apply IH; intros; apply Hf; by right).
  destruct (f a); [|done|done]. cbn. destruct (map_outcome f l); done.
Qed.

Lemma map_outcome_Err {E A B} (f : A → outcome E B) l e : map_outcome f l = Err e → ∃ a, f a = Err e.
Proof.
  induction l as [|a l IH]; [done|]. cbn [map_outcome]. destruct (f a) as [b|e'|] eqn:Ha; cbn; [|intros [= ->]; eauto|done].
  destruct (map_outcome f l); cbn; [done| |done]. intros [= ->]. by apply IH.
Qed.

(** ** Lists with their indices *)

Lemma lookup_enumerate {A} (l : list A) i : enumerate l !! i = (λ a, (i, a)) <$> l !! i.
Proof.
  unfold enumerate. destruct (l !! i) as [a|] eqn:Ha; simpl.
  - apply lookup_zip_Some. split; [|done]. apply lookup_lt_Some in Ha. by apply lookup_seq_lt.
  - apply lookup_ge_None in Ha. apply lookup_ge_None. rewrite length_zip, length_seq. lia.
Qed.

Lemma enumerate_length {A} (l : list A) : length (enumerate l) = length l.
Proof. unfold enumerate. rewrite length_zip, length_seq. lia. Qed.
