(* ===== verification/BTree.v ===== *)
(** * Ordered maps

    [std::collections::BTreeMap] as the list of its entries in key order.  The
    order matters: the simulator hashes, copies and searches maps in iteration
    order.  A key type is an instance of [RustOrd], the laws of [Ord] the map
    relies on; the laws of the map follow from them. *)

From S2P Require Import Prelude.
From Stdlib Require Import String Ascii Sorting.Sorted.
Local Open Scope Z_scope.

Class RustOrd (K : Type) := {
  rcmp : K → K → comparison;
  rcmp_eq a b : rcmp a b = Eq ↔ a = b;
  rcmp_antisym a b : rcmp b a = CompOpp (rcmp a b);
  rcmp_trans a b c : rcmp a b = Lt → rcmp b c = Lt → rcmp a c = Lt;
}.

(** A derived [Ord] on a struct compares field by field. *)
Definition cmp_then (c d : comparison) : comparison :=
  match c with Eq => d | _ => c end.

Fixpoint string_cmp (a b : string) : comparison :=
  match a, b with
  | EmptyString, EmptyString => Eq
  | EmptyString, _ => Lt
  | _, EmptyString => Gt
  | String x a', String y b' =>
      cmp_then (Ascii.compare x y) (string_cmp a' b')
  end.

Definition BTreeMap (K V : Type) : Type := list (K * V).

Section btree.
Context {K V : Type} `{RustOrd K}.
Implicit Types (m : BTreeMap K V) (k : K) (v : V).

Fixpoint bt_get k m : option V :=
  match m with
  | [] => None
  | (k', v) :: m' => match rcmp k k' with Eq => Some v | _ => bt_get k m' end
  end.

Definition bt_contains_key k m : bool :=
  match bt_get k m with Some _ => true | None => false end.

Fixpoint bt_insert k v m : BTreeMap K V :=
  match m with
  | [] => [(k, v)]
  | (k', v') :: m' =>
      match rcmp k k' with
      | Lt => (k, v) :: m
      | Eq => (k, v) :: m'
      | Gt => (k', v') :: bt_insert k v m'
      end
  end.

Fixpoint bt_remove k m : BTreeMap K V :=
  match m with
  | [] => []
  | (k', v') :: m' =>
      match rcmp k k' with Eq => m' | _ => (k', v') :: bt_remove k m' end
  end.

(** [collect()] of a sequence of entries: a later entry replaces an earlier one. *)
Definition bt_collect (l : list (K * V)) : BTreeMap K V :=
  foldl (λ m '(k, v), bt_insert k v m) [] l.

Definition bt_keys m : list K := m.*1.
Definition bt_values m : list V := m.*2.

(** [range(k..).next()] *)
Definition bt_first_from k m : option (K * V) :=
  find_first (λ e, match rcmp k e.1 with Gt => false | _ => true end) m.

(** [range(..=k)] *)
Definition bt_range_to k m : BTreeMap K V :=
  filter (λ e, rcmp e.1 k ≠ Gt) m.

Definition bt_lt (a b : K * V) : Prop := rcmp a.1 b.1 = Lt.
Definition bt_sorted m : Prop := StronglySorted bt_lt m.

Lemma rcmp_refl k : rcmp k k = Eq.
Proof. by apply rcmp_eq. Qed.

Lemma rcmp_gt_lt a b : rcmp a b = Gt ↔ rcmp b a = Lt.
Proof. rewrite (rcmp_antisym a b). by destruct (rcmp a b). Qed.

Lemma bt_get_insert_eq k v m : bt_get k (bt_insert k v m) = Some v.
Proof.
  induction m as [|[k' v'] m IH]; simpl; [by rewrite rcmp_refl|].
  destruct (rcmp k k') eqn:E; simpl; rewrite ?rcmp_refl, ?E; done.
Qed.

Lemma bt_get_insert_ne k k2 v m : k ≠ k2 → bt_get k2 (bt_insert k v m) = bt_get k2 m.
Proof.
  intros Hne. assert (rcmp k2 k ≠ Eq) as Hk by (by rewrite rcmp_eq; congruence).
  induction m as [|[k' v'] m IH]; simpl.
  - by destruct (rcmp k2 k).
  - destruct (rcmp k k') eqn:E; simpl.
    + apply rcmp_eq in E as ->. by destruct (rcmp k2 k').
    + by destruct (rcmp k2 k).
    + by rewrite IH.
Qed.

Lemma bt_get_insert k k2 v m :
  bt_get k2 (bt_insert k v m) =
    match rcmp k2 k with Eq => Some v | _ => bt_get k2 m end.
Proof.
  destruct (rcmp k2 k) eqn:E.
  - apply rcmp_eq in E as ->. apply bt_get_insert_eq.
  - apply bt_get_insert_ne. intros ->. by rewrite rcmp_refl in E.
  - apply bt_get_insert_ne. intros ->. by rewrite rcmp_refl in E.
Qed.

Lemma bt_get_elem k v m : bt_get k m = Some v → (k, v) ∈ m.
Proof.
  induction m as [|[k' v'] m IH]; simpl; [done|].
  destruct (rcmp k k') eqn:E; intros Hg; [|by right; apply IH..].
  apply rcmp_eq in E as ->. simplify_eq. left.
Qed.

Lemma bt_insert_elem k v m e : e ∈ bt_insert k v m → e = (k, v) ∨ e ∈ m.
Proof.
  induction m as [|[k' v'] m IH]; simpl; [set_solver|].
  destruct (rcmp k k'); set_solver.
Qed.

Lemma bt_remove_elem k m e : e ∈ bt_remove k m → e ∈ m.
Proof.
  induction m as [|[k' v'] m IH]; simpl; [done|]. destruct (rcmp k k'); set_solver.
Qed.

Lemma bt_sorted_insert k v m : bt_sorted m → bt_sorted (bt_insert k v m).
Proof.
  unfold bt_sorted. induction m as [|[k' v'] m IH]; simpl; intros Hs.
  { repeat constructor. }
  apply StronglySorted_inv in Hs as [Hs Hall].
  destruct (rcmp k k') eqn:E.
  - apply rcmp_eq in E as ->. by constructor.
  - constructor; [by constructor|]. constructor; [done|].
    eapply Forall_impl; [done|]. intros [k2 v2]. unfold bt_lt; simpl. by apply rcmp_trans.
  - constructor; [by apply IH|]. apply Forall_forall. intros e He.
    destruct (bt_insert_elem _ _ _ _ He) as [->|He'].
    + by apply rcmp_gt_lt.
    + by eapply Forall_forall in Hall.
Qed.

Lemma bt_sorted_remove k m : bt_sorted m → bt_sorted (bt_remove k m).
Proof.
  unfold bt_sorted. induction m as [|[k' v'] m IH]; simpl; [done|].
  intros [Hs Hall]%StronglySorted_inv. destruct (rcmp k k'); [done|..];
    (constructor; [by apply IH|]; apply Forall_forall; intros e He%bt_remove_elem;
     by eapply Forall_forall in Hall).
Qed.

Lemma bt_sorted_collect l : bt_sorted (bt_collect l).
Proof.
  unfold bt_collect. assert (bt_sorted []) as Hn by constructor.
  revert Hn. generalize (@nil (K * V)). induction l as [|[k v] l IH]; intros m Hm; simpl; [done|].
  by apply IH, bt_sorted_insert.
Qed.

Lemma bt_get_lt k m : Forall (λ e, rcmp k e.1 = Lt) m → bt_get k m = None.
Proof. induction 1 as [|[k' v'] m Hk _ IH]; simpl in *; [done|]. by rewrite Hk. Qed.

Lemma bt_get_remove_eq k m : bt_sorted m → bt_get k (bt_remove k m) = None.
Proof.
  unfold bt_sorted. induction m as [|[k' v'] m IH]; simpl; [done|].
  intros [Hs Hall]%StronglySorted_inv. destruct (rcmp k k') eqn:E; simpl; rewrite ?E; auto.
  apply rcmp_eq in E as ->. by apply bt_get_lt.
Qed.

Lemma bt_get_remove_ne k k2 m : k ≠ k2 → bt_get k2 (bt_remove k m) = bt_get k2 m.
Proof.
  intros Hne. induction m as [|[k' v'] m IH]; simpl; [done|].
  destruct (rcmp k k') eqn:E; simpl; [|by rewrite IH..].
  apply rcmp_eq in E as ->. destruct (rcmp k2 k') eqn:E2; [|done..].
  apply rcmp_eq in E2. congruence.
Qed.

Lemma bt_elem_get k v m : bt_sorted m → (k, v) ∈ m → bt_get k m = Some v.
Proof.
  unfold bt_sorted. induction m as [|[k' v'] m IH]; [set_solver|].
  intros [Hs Hall]%StronglySorted_inv [Heq|Hin]%elem_of_cons; simpl.
  - simplify_eq. by rewrite rcmp_refl.
  - eapply Forall_forall in Hall as Hlt; [|done]. unfold bt_lt in Hlt; simpl in Hlt.
    rewrite (rcmp_antisym k' k), Hlt. simpl. auto.
Qed.

(** Two sorted maps with the same lookups are the same map. *)
Lemma bt_eq m1 m2 :
  bt_sorted m1 → bt_sorted m2 → (∀ k, bt_get k m1 = bt_get k m2) → m1 = m2.
Proof.
  unfold bt_sorted. revert m2. induction m1 as [|[k v] m1 IH]; intros [|[k' v'] m2] H1 H2 Hg.
  - done.
  - specialize (Hg k'). simpl in Hg. by rewrite rcmp_refl in Hg.
  - specialize (Hg k). simpl in Hg. by rewrite rcmp_refl in Hg.
  - apply StronglySorted_inv in H1 as [S1 A1], H2 as [S2 A2].
    assert (k = k') as <-.
    { pose proof (Hg k) as Hk. pose proof (Hg k') as Hk'. simpl in Hk, Hk'.
      rewrite rcmp_refl in Hk, Hk'. destruct (rcmp k k') eqn:E; [by apply rcmp_eq|..].
      - rewrite bt_get_lt in Hk; [done|]. eapply Forall_impl; [exact A2|].
        intros [k2 v2]. unfold bt_lt; simpl. by apply rcmp_trans.
      - apply rcmp_gt_lt in E. rewrite E, bt_get_lt in Hk'; [done|].
        eapply Forall_impl; [exact A1|]. intros [k2 v2]. unfold bt_lt; simpl. by apply rcmp_trans. }
    pose proof (Hg k) as Hk. simpl in Hk. rewrite rcmp_refl in Hk. simplify_eq. f_equal.
    apply IH; [done..|]. intros k2. specialize (Hg k2). simpl in Hg.
    destruct (rcmp k2 k) eqn:E; [|done..]. apply rcmp_eq in E as ->.
    by rewrite !bt_get_lt.
Qed.

Lemma bt_insert_insert k v v' m : bt_insert k v (bt_insert k v' m) = bt_insert k v m.
Proof.
  induction m as [|[k' w] m IH]; simpl; [by rewrite rcmp_refl|].
  destruct (rcmp k k') eqn:E; simpl; rewrite ?rcmp_refl, ?E; [done..|]. by rewrite IH.
Qed.

Lemma bt_insert_id k v m : bt_sorted m → bt_get k m = Some v → bt_insert k v m = m.
Proof.
  intros Hs Hg. apply bt_eq; [by apply bt_sorted_insert|done|].
  intros k2. rewrite bt_get_insert. destruct (rcmp k2 k) eqn:E; [|done..].
  by apply rcmp_eq in E as ->.
Qed.

Lemma bt_contains_key_true k m : bt_contains_key k m = true ↔ is_Some (bt_get k m).
Proof.
  unfold bt_contains_key, is_Some. destruct (bt_get k m); split; try done; eauto.
  by intros [? ?].
Qed.

Lemma bt_first_from_Some k m k' v :
  bt_first_from k m = Some (k', v) → (k', v) ∈ m ∧ rcmp k k' ≠ Gt.
Proof.
  intros [Hin Hc]%find_first_Some. split; [done|]. simpl in Hc. by destruct (rcmp k k').
Qed.
End btree.

#[export] Program Instance Z_RustOrd : RustOrd Z := {| rcmp := Z.compare |}.
Next Obligation. apply Z.compare_eq_iff. Qed.
Next Obligation. apply Z.compare_antisym. Qed.
Next Obligation. apply Z.lt_trans. Qed.

Lemma ascii_cmp_eq x y : Ascii.compare x y = Eq ↔ x = y.
Proof.
  split; [apply Ascii.compare_eq_iff|]. intros ->. unfold Ascii.compare. apply N.compare_refl.
Qed.

Lemma ascii_cmp_trans x y z :
  Ascii.compare x y = Lt → Ascii.compare y z = Lt → Ascii.compare x z = Lt.
Proof. unfold Ascii.compare. rewrite !N.compare_lt_iff. apply N.lt_trans. Qed.

#[export] Program Instance string_RustOrd : RustOrd string := {| rcmp := string_cmp |}.
Next Obligation.
  induction a as [|x a IH]; intros [|y b]; simpl; try done.
  unfold cmp_then. destruct (Ascii.compare x y) eqn:E; split; try done.
  - intros ->%IH. by apply ascii_cmp_eq in E as ->.
  - intros [= -> ->]. by apply IH.
  - intros [= -> ->]. by rewrite (proj2 (ascii_cmp_eq y y) eq_refl) in E.
  - intros [= -> ->]. by rewrite (proj2 (ascii_cmp_eq y y) eq_refl) in E.
Qed.
Next Obligation.
  induction a as [|x a IH]; intros [|y b]; simpl; try done.
  rewrite Ascii.compare_antisym, IH. by destruct (Ascii.compare x y).
Qed.
Next Obligation.
  induction a as [|x a IH]; intros [|y b] [|z c]; simpl; try done.
  unfold cmp_then. intros H1 H2.
  destruct (Ascii.compare x y) eqn:E1; try done;
    destruct (Ascii.compare y z) eqn:E2; try done.
  - apply ascii_cmp_eq in E1 as ->. rewrite E2. by eapply IH.
  - apply ascii_cmp_eq in E1 as ->. by rewrite E2.
  - apply ascii_cmp_eq in E2 as ->. by rewrite E1.
  - by rewrite (ascii_cmp_trans x y z).
Qed.

(** Tuples compare lexicographically, as a derived [Ord] does. *)
#[export] Program Instance pair_RustOrd {A B} `{RustOrd A} `{RustOrd B} : RustOrd (A * B) :=
  {| rcmp a b := cmp_then (rcmp a.1 b.1) (rcmp a.2 b.2) |}.
Next Obligation.
  intros A B HA HB [a1 a2] [b1 b2]; simpl. unfold cmp_then.
  destruct (rcmp a1 b1) eqn:E; [apply rcmp_eq in E as ->; rewrite rcmp_eq; split; congruence|..];
    (split; [done|]; intros [= -> ->]; by rewrite (proj2 (rcmp_eq b1 b1) eq_refl) in E).
Qed.
Next Obligation.
  intros A B HA HB [a1 a2] [b1 b2]; simpl. rewrite (rcmp_antisym a1 b1), (rcmp_antisym a2 b2).
  by destruct (rcmp a1 b1).
Qed.
Next Obligation.
  intros A B HA HB [a1 a2] [b1 b2] [c1 c2]; simpl. unfold cmp_then. intros H1 H2.
  destruct (rcmp a1 b1) eqn:E1; try done; destruct (rcmp b1 c1) eqn:E2; try done.
  - apply rcmp_eq in E1 as ->. rewrite E2. by eapply rcmp_trans.
  - apply rcmp_eq in E1 as ->. by rewrite E2.
  - apply rcmp_eq in E2 as ->. by rewrite E1.
  - by rewrite (rcmp_trans a1 b1 c1).
Qed.

(** *** Collected maps with text keys *)

Lemma bt_collect_elem {V} (l : list (string * V)) e : e ∈ bt_collect l → e ∈ l.
Proof.
  unfold bt_collect. assert (∀ m, e ∈ foldl (λ m '(k, v), bt_insert k v m) m l → e ∈ m ∨ e ∈ l) as H.
  { induction l as [|[k v] l IH]; intros m; [by left|]. cbn [foldl]. intros [Hm|Hl]%IH; [|by right; right].
    apply bt_insert_elem in Hm as [->|]; [right; left|by left]. }
  intros He. apply H in He as [He|]; [by apply not_elem_of_nil in He|done].
Qed.

Lemma bt_collect_is_Some {V} (l : list (string * V)) k : k ∈ l.*1 → is_Some (bt_get k (bt_collect l)).
Proof.
  unfold bt_collect. assert (∀ m, is_Some (bt_get k m) ∨ k ∈ l.*1 → is_Some (bt_get k (foldl (λ m '(k, v), bt_insert k v m) m l))) as H.
  { induction l as [|[k' v] l IH]; intros m; [by intros [?|?%not_elem_of_nil]|]. cbn [foldl fmap list_fmap fst]. intros Hk. apply IH.
    destruct (decide (k' = k)) as [->|Hne]; [left; rewrite bt_get_insert_eq; eauto|].
    rewrite bt_get_insert_ne by done. set_solver. }
  intros Hk. apply H. by right.
Qed.
