(* ===== verification/Text.v ===== *)
(** * Rust strings

    A [str] is its UTF-8 bytes, as a [string].  The methods of [str] the crates
    call are defined here byte for byte; [chars] groups the bytes of one
    character, so that offsets are byte offsets as in the source. *)

From S2P Require Import Prelude BTree.
From Stdlib Require Import String Ascii.
Local Open Scope string_scope.
Local Open Scope Z_scope.

#[global] Arguments String.append : simpl nomatch.

Definition byte_of (a : ascii) : Z := Z.of_N (N_of_ascii a).
Definition byte (z : Z) : ascii := ascii_of_N (Z.to_N z).

Definition of_bytes (l : list Z) : string :=
  foldr (λ b s, String (byte b) s) "" l.
Fixpoint bytes (s : string) : list Z :=
  match s with
  | "" => []
  | String a s' => byte_of a :: bytes s'
  end.

(** The characters a Rocq string literal cannot hold. *)
Definition DQUOTE : string := of_bytes [34].
Definition NEWLINE : string := of_bytes [10].
Definition RETURN : string := of_bytes [13].
Definition TAB : string := of_bytes [9].
Definition BACKSLASH : string := of_bytes [92].

Definition slen (s : string) : Z := Z.of_nat (String.length s).

(** [str::strip_prefix], [starts_with], [strip_suffix], [ends_with] *)
Fixpoint strip_prefix (p s : string) : option string :=
  match p, s with
  | "", _ => Some s
  | String a p', String b s' => if Ascii.eqb a b then strip_prefix p' s' else None
  | _, _ => None
  end.

Definition starts_with (p s : string) : bool :=
  match strip_prefix p s with Some _ => true | None => false end.

Fixpoint strip_suffix (p s : string) : option string :=
  if String.eqb s p then Some ""
  else match s with
       | "" => None
       | String a s' => String a <$> strip_suffix p s'
       end.

Definition ends_with (p s : string) : bool :=
  match strip_suffix p s with Some _ => true | None => false end.

(** [str::contains] *)
Fixpoint str_contains (p s : string) : bool :=
  starts_with p s ||
  match s with "" => false | String _ s' => str_contains p s' end.

(** [str::split_once] on an ASCII character *)
Fixpoint split_once (c : ascii) (s : string) : option (string * string) :=
  match s with
  | "" => None
  | String a s' =>
      if Ascii.eqb a c then Some ("", s')
      else match split_once c s' with
           | Some (l, r) => Some (String a l, r)
           | None => None
           end
  end.

(** [str::trim_start_matches] on an ASCII character *)
Fixpoint trim_start_matches (c : ascii) (s : string) : string :=
  match s with
  | "" => ""
  | String a s' => if Ascii.eqb a c then trim_start_matches c s' else s
  end.

Definition is_ascii_upper (z : Z) : bool := (65 <=? z) && (z <=? 90).
Definition is_ascii_lower (z : Z) : bool := (97 <=? z) && (z <=? 122).
Definition is_ascii_digit (z : Z) : bool := (48 <=? z) && (z <=? 57).
Definition is_ascii_alphabetic (z : Z) : bool := is_ascii_upper z || is_ascii_lower z.
Definition is_ascii_alphanumeric (z : Z) : bool := is_ascii_alphabetic z || is_ascii_digit z.

Definition ascii_lower (a : ascii) : ascii :=
  let z := byte_of a in if is_ascii_upper z then byte (z + 32) else a.

Fixpoint to_ascii_lowercase (s : string) : string :=
  match s with
  | "" => ""
  | String a s' => String (ascii_lower a) (to_ascii_lowercase s')
  end.

Definition eq_ignore_ascii_case (a b : string) : bool :=
  String.eqb (to_ascii_lowercase a) (to_ascii_lowercase b).

Definition is_ascii (s : string) : bool := forallb (λ b, b <? 128) (bytes s).

(** ** Characters *)
Definition is_continuation (a : ascii) : bool :=
  let z := byte_of a in (128 <=? z) && (z <? 192).

(** The continuation bytes before the first character, and the characters. *)
Fixpoint chars_from (s : string) : string * list string :=
  match s with
  | "" => ("", [])
  | String a s' =>
      let '(p, cs) := chars_from s' in
      if is_continuation a then (String a p, cs) else ("", String a p :: cs)
  end.

(** [str::chars], each character as the string of its bytes *)
Definition chars (s : string) : list string :=
  match chars_from s with
  | ("", cs) => cs
  | (p, cs) => p :: cs
  end.

Fixpoint char_offsets (offset : nat) (cs : list string) : list (nat * string) :=
  match cs with
  | [] => []
  | c :: cs' => (offset, c) :: char_offsets (offset + String.length c)%nat cs'
  end.

(** [str::char_indices] *)
Definition char_indices (s : string) : list (nat * string) := char_offsets 0 (chars s).

Definition concat_strings (l : list string) : string := foldr String.append "" l.

(** The characters with the Unicode property [White_Space]. *)
Definition whitespace_chars : list string :=
  of_bytes <$> ([[9]; [10]; [11]; [12]; [13]; [32]; [194; 133]; [194; 160]; [225; 154; 128]]
    ++ ((λ b, [226; 128; b]) <$> [128; 129; 130; 131; 132; 133; 134; 135; 136; 137; 138])
    ++ [[226; 128; 168]; [226; 128; 169]; [226; 128; 175]; [226; 129; 159]; [227; 128; 128]])%list.

(** [char::is_whitespace] *)
Definition is_whitespace (c : string) : bool := existsb (String.eqb c) whitespace_chars.

Fixpoint drop_ws (cs : list string) : list string :=
  match cs with
  | [] => []
  | c :: cs' => if is_whitespace c then drop_ws cs' else cs
  end.

(** [str::trim_start], [trim_end], [trim] *)
Definition trim_start (s : string) : string := concat_strings (drop_ws (chars s)).
Definition trim_end (s : string) : string :=
  concat_strings (rev (drop_ws (rev (chars s)))).
Definition trim (s : string) : string := trim_end (trim_start s).

(** [&s[start..end]] *)
Definition slice (start stop : nat) (s : string) : string :=
  String.substring start (stop - start) s.

(** [str::split_inclusive('\n')] *)
Fixpoint split_inclusive_nl (s : string) : list string :=
  match s with
  | "" => []
  | String a s' =>
      if byte_of a =? 10 then String a "" :: split_inclusive_nl s'
      else match split_inclusive_nl s' with
           | [] => [String a ""]
           | l :: ls => String a l :: ls
           end
  end.

(** [str::split] on an ASCII character: always at least one piece *)
Fixpoint split_char (c : ascii) (s : string) : list string :=
  match s with
  | "" => [""]
  | String a s' =>
      if Ascii.eqb a c then "" :: split_char c s'
      else match split_char c s' with
           | [] => [String a ""]
           | l :: ls => String a l :: ls
           end
  end.

(** [str::repeat] *)
Fixpoint str_repeat (n : nat) (s : string) : string :=
  match n with O => "" | S n' => s +:+ str_repeat n' s end.

(** [join] *)
Fixpoint join (sep : string) (l : list string) : string :=
  match l with
  | [] => ""
  | [s] => s
  | s :: l' => s +:+ sep +:+ join sep l'
  end.

(** ** Integers in text *)
Definition digit_value (a : ascii) : option Z :=
  let z := byte_of a in
  if is_ascii_digit z then Some (z - 48)
  else if is_ascii_lower z then Some (z - 87)
  else if is_ascii_upper z then Some (z - 55)
  else None.

Fixpoint digits_value (radix acc : Z) (s : string) : option Z :=
  match s with
  | "" => Some acc
  | String a s' =>
      match digit_value a with
      | Some d => if d <? radix then digits_value radix (acc * radix + d) s' else None
      | None => None
      end
  end.

(** A non-empty run of digits. *)
Definition parse_digits (radix : Z) (s : string) : option Z :=
  match s with "" => None | _ => digits_value radix 0 s end.

Definition in_range (lo hi : Z) (o : option Z) : option Z :=
  match o with
  | Some z => if (lo <=? z) && (z <=? hi) then Some z else None
  | None => None
  end.

(** [str::parse::<u8>] and the wider unsigned types: an optional [+], then at
    least one digit, with no overflow. *)
Definition parse_unsigned (max : Z) (s : string) : option Z :=
  in_range 0 max (parse_digits 10 (match strip_prefix "+" s with Some r => r | None => s end)).

(** [i64::from_str_radix] *)
Definition i64_from_str_radix (radix : Z) (s : string) : option Z :=
  in_range I64_MIN I64_MAX
    (match strip_prefix "-" s with
     | Some r => Z.opp <$> parse_digits radix r
     | None => parse_digits radix (match strip_prefix "+" s with Some r => r | None => s end)
     end).

Definition parse_usize (s : string) : option Z := parse_unsigned U64_MAX s.
Definition parse_u64 (s : string) : option Z := parse_unsigned U64_MAX s.
Definition parse_u8 (s : string) : option Z := parse_unsigned U8_MAX s.

(** [Display] of an integer. *)
Definition show (z : Z) : string := pretty z.

(** ** Lemmas *)
Lemma concat_chars_from s :
  let '(p, cs) := chars_from s in p +:+ concat_strings cs = s.
Proof.
  induction s as [|a s IH]; simpl; [done|]. destruct (chars_from s) as [p cs].
  unfold concat_strings in *. destruct (is_continuation a); simpl; by rewrite <-IH.
Qed.

(** Splitting into characters loses nothing. *)
Lemma concat_chars s : concat_strings (chars s) = s.
Proof.
  unfold chars. pose proof (concat_chars_from s) as H.
  destruct (chars_from s) as [[|a p] cs]; done.
Qed.

Lemma strip_prefix_Some p s r : strip_prefix p s = Some r → s = p +:+ r.
Proof.
  revert s. induction p as [|a p IH]; intros [|b s]; simpl; try (by intros; simplify_eq).
  destruct (Ascii.eqb a b) eqn:E; [|done]. apply Ascii.eqb_eq in E as ->.
  by intros ->%IH.
Qed.

Lemma strip_prefix_app p r : strip_prefix p (p +:+ r) = Some r.
Proof. induction p as [|a p IH]; simpl; [done|]. by rewrite Ascii.eqb_refl. Qed.

Lemma split_inclusive_concat s : concat_strings (split_inclusive_nl s) = s.
Proof.
  induction s as [|a s IH]; simpl; [done|]. destruct (byte_of a =? 10); simpl.
  - by rewrite IH.
  - destruct (split_inclusive_nl s); simpl in *; by rewrite <-IH.
Qed.

Lemma in_range_Some lo hi o z : in_range lo hi o = Some z → lo ≤ z ≤ hi.
Proof.
  destruct o as [z'|]; simpl; [|done].
  destruct ((lo <=? z') && (z' <=? hi)) eqn:E; [|done]. intros [= <-]. lia.
Qed.

Lemma parse_unsigned_range max s z : parse_unsigned max s = Some z → 0 ≤ z ≤ max.
Proof. apply in_range_Some. Qed.
