(* ===== verification/F64.v ===== *)
(** * Binary64 arithmetic

    Rust's [f64] on the executable IEEE 754 formalisation of the standard
    library ([SpecFloat], no axioms).  A NaN carries no sign or payload here:
    Rust leaves both unspecified for the result of arithmetic.  The functions of
    [f64] whose precision Rust leaves unspecified ([sin], [exp], [powf], ...) are
    the fields of the class [Libm]. *)

From S2P Require Import Prelude BTree Text.
From Stdlib Require Export SpecFloat.
Local Open Scope string_scope.
Local Open Scope Z_scope.

Definition f64 : Type := spec_float.
Definition PREC : Z := 53.
Definition EMAX : Z := 1024.

#[export] Instance f64_eq_dec : EqDecision f64.
Proof. solve_decision. Defined.

Definition f_nan : f64 := S754_nan.
Definition f_inf : f64 := S754_infinity false.
Definition f_neg_inf : f64 := S754_infinity true.
Definition f_zero : f64 := S754_zero false.
Definition f_neg_zero : f64 := S754_zero true.

Definition f_valid (x : f64) : Prop := valid_binary PREC EMAX x = true.

(** [z as f64] *)
Definition f_of_Z (z : Z) : f64 := binary_normalize PREC EMAX z 0 false.
Definition f_one : f64 := f_of_Z 1.

Definition f_add : f64 → f64 → f64 := SFadd PREC EMAX.
Definition f_sub : f64 → f64 → f64 := SFsub PREC EMAX.
Definition f_mul : f64 → f64 → f64 := SFmul PREC EMAX.
Definition f_div : f64 → f64 → f64 := SFdiv PREC EMAX.
Definition f_sqrt : f64 → f64 := SFsqrt PREC EMAX.
Definition f_neg : f64 → f64 := SFopp.
Definition f_abs : f64 → f64 := SFabs.

Definition f_eq : f64 → f64 → bool := SFeqb.
Definition f_lt : f64 → f64 → bool := SFltb.
Definition f_le : f64 → f64 → bool := SFleb.
Definition f_ne (a b : f64) : bool := negb (f_eq a b).
Definition f_gt (a b : f64) : bool := f_lt b a.
Definition f_ge (a b : f64) : bool := f_le b a.

Definition f_is_nan (x : f64) : bool := match x with S754_nan => true | _ => false end.
Definition f_is_finite (x : f64) : bool :=
  match x with S754_nan | S754_infinity _ => false | _ => true end.
Definition f_sign (x : f64) : bool :=
  match x with
  | S754_nan => false
  | S754_zero s | S754_infinity s | S754_finite s _ _ => s
  end.

(** [f64::max], [f64::min]: a NaN operand gives the other operand.  On zeros of
    opposite sign Rust allows either result; the second operand is returned. *)
Definition f_max (a b : f64) : f64 :=
  if f_is_nan a then b else if f_is_nan b then a else if f_lt b a then a else b.
Definition f_min (a b : f64) : f64 :=
  if f_is_nan a then b else if f_is_nan b then a else if f_lt a b then a else b.

(** [f64::clamp] with bounds that are not NaN *)
Definition f_clamp (x lo hi : f64) : f64 :=
  let x := if f_lt x lo then lo else x in if f_gt x hi then hi else x.

(** [f64::signum] *)
Definition f_signum (x : f64) : f64 :=
  if f_is_nan x then f_nan else if f_sign x then f_neg f_one else f_one.

(** An integral value with the sign of the operand it was rounded from. *)
Definition f_of_Z_signed (s : bool) (z : Z) : f64 :=
  if z =? 0 then S754_zero s else binary_normalize PREC EMAX z 0 s.

Definition magnitude_floor (m : positive) (e : Z) : Z :=
  if 0 <=? e then Z.shiftl (Zpos m) e else Z.shiftr (Zpos m) (- e).

Definition is_integral (m : positive) (e : Z) : bool :=
  (0 <=? e) || (Z.shiftl (Z.shiftr (Zpos m) (- e)) (- e) =? Zpos m).

(** The integer part, towards zero, of a finite value. *)
Definition trunc_Z (x : f64) : Z :=
  match x with
  | S754_finite s m e => SpecFloat.cond_Zopp s (magnitude_floor m e)
  | _ => 0
  end.

Definition f_trunc (x : f64) : f64 :=
  match x with
  | S754_finite s m e => f_of_Z_signed s (trunc_Z x)
  | _ => x
  end.

Definition f_floor (x : f64) : f64 :=
  match x with
  | S754_finite s m e =>
      f_of_Z_signed s (trunc_Z x - (if s && negb (is_integral m e) then 1 else 0))
  | _ => x
  end.

Definition f_ceil (x : f64) : f64 :=
  match x with
  | S754_finite s m e =>
      f_of_Z_signed s (trunc_Z x + (if negb s && negb (is_integral m e) then 1 else 0))
  | _ => x
  end.

(** [f64::round]: half away from zero *)
Definition f_round (x : f64) : f64 :=
  match x with
  | S754_finite s m e =>
      f_of_Z_signed s (SpecFloat.cond_Zopp s
        (if 0 <=? e then Z.shiftl (Zpos m) e
         else Z.shiftr (2 * Zpos m + Z.shiftl 1 (- e)) (- e + 1)))
  | _ => x
  end.

Definition f_fract (x : f64) : f64 := f_sub x (f_trunc x).

(** [a % b]: the exact remainder of the truncated quotient, signed as [a] *)
Definition f_rem (a b : f64) : f64 :=
  match a, b with
  | S754_nan, _ | _, S754_nan | S754_infinity _, _ | _, S754_zero _ => f_nan
  | _, S754_infinity _ | S754_zero _, _ => a
  | S754_finite sa ma ea, S754_finite _ mb eb =>
      let e := Z.min ea eb in
      let r := Z.shiftl (Zpos ma) (ea - e) mod Z.shiftl (Zpos mb) (eb - e) in
      if r =? 0 then S754_zero sa
      else binary_normalize PREC EMAX (SpecFloat.cond_Zopp sa r) e sa
  end.

(** [x as T] for an integer type with the bounds [lo] and [hi]: towards zero,
    saturating, NaN to 0 *)
Definition f_cast (lo hi : Z) (x : f64) : Z :=
  match x with
  | S754_nan | S754_zero _ => 0
  | S754_infinity s => if s then lo else hi
  | S754_finite _ _ _ => Z.max lo (Z.min hi (trunc_Z x))
  end.

Definition to_i32 : f64 → Z := f_cast I32_MIN I32_MAX.
Definition to_i64 : f64 → Z := f_cast I64_MIN I64_MAX.
Definition to_u32 : f64 → Z := f_cast 0 U32_MAX.
Definition to_u64 : f64 → Z := f_cast 0 U64_MAX.
Definition to_usize : f64 → Z := f_cast 0 U64_MAX.

(** [f64::to_bits], the quiet NaN standing for every NaN *)
Definition to_bits (x : f64) : Z :=
  let sign (s : bool) := if s then 2 ^ 63 else 0 in
  match x with
  | S754_nan => 2047 * 2 ^ 52 + 2 ^ 51
  | S754_zero s => sign s
  | S754_infinity s => sign s + 2047 * 2 ^ 52
  | S754_finite s m e =>
      if Zpos m <? 2 ^ 52 then sign s + Zpos m
      else sign s + (e + 1075) * 2 ^ 52 + (Zpos m - 2 ^ 52)
  end.

(** [f64::from_bits] *)
Definition from_bits (b : Z) : f64 :=
  let s := 2 ^ 63 <=? b in
  let rest := b mod 2 ^ 63 in
  let ex := rest / 2 ^ 52 in
  let frac := rest mod 2 ^ 52 in
  if ex =? 2047 then (if frac =? 0 then S754_infinity s else S754_nan)
  else match (if ex =? 0 then frac else frac + 2 ^ 52) with
       | Zpos m => S754_finite s m (if ex =? 0 then -1074 else ex - 1075)
       | _ => S754_zero s
       end.

(** ** [str::parse::<f64>] *)

(** The digits at the front of a string: their value, their number, the rest. *)
Fixpoint take_digits (acc count : Z) (s : string) : Z * Z * string :=
  match s with
  | String a s' =>
      if is_ascii_digit (byte_of a)
      then take_digits (acc * 10 + (byte_of a - 48)) (count + 1) s'
      else (acc, count, s)
  | "" => (acc, count, s)
  end.

(** The nearest double to [n * 10 ^ e], ties to even.  A power of ten beyond the
    range of the format is decided without computing it. *)
Definition f_of_decimal (s : bool) (n e : Z) : f64 :=
  match n with
  | Zpos p =>
      if 310 <? e then S754_infinity s
      else if Z.log2 (Zpos p) + 3 * e <? -1100 then S754_zero s
      else if 0 <=? e
           then binary_normalize PREC EMAX (SpecFloat.cond_Zopp s (n * 10 ^ e)) 0 s
           else SFdiv PREC EMAX (S754_finite s p 0) (S754_finite false (Z.to_pos (10 ^ (- e))) 0)
  | _ => S754_zero s
  end.

Definition parse_sign (s : string) : bool * string :=
  match strip_prefix "-" s with
  | Some r => (true, r)
  | None => (false, match strip_prefix "+" s with Some r => r | None => s end)
  end.

Definition parse_exponent (s : string) : option Z :=
  match s with
  | "" => Some 0
  | String c r =>
      if String.eqb (to_ascii_lowercase (String c "")) "e" then
        let '(neg, r) := parse_sign r in
        let '(v, n, rest) := take_digits 0 0 r in
        if (0 <? n) && String.eqb rest "" then Some (if neg : bool then - v else v) else None
      else None
  end.

Definition parse_f64 (s : string) : option f64 :=
  let '(neg, r) := parse_sign s in
  let word := to_ascii_lowercase r in
  if String.eqb word "nan" then Some f_nan
  else if String.eqb word "inf" || String.eqb word "infinity" then Some (S754_infinity neg)
  else
    let '(v, n, r) := take_digits 0 0 r in
    let '(v, n, k, r) :=
      match strip_prefix "." r with
      | Some r' => let '(v', n', r'') := take_digits v 0 r' in (v', n + n', n', r'')
      | None => (v, n, 0, r)
      end in
    if n =? 0 then None
    else e ← parse_exponent r; Some (f_of_decimal neg v (e - k)).

(** ** Functions of unspecified precision *)
Class Libm := {
  f_powf : f64 → f64 → f64;
  f_atan2 : f64 → f64 → f64;
  f_acos : f64 → f64;
  f_asin : f64 → f64;
  f_atan : f64 → f64;
  f_cos : f64 → f64;
  f_exp : f64 → f64;
  f_ln : f64 → f64;
  f_sin : f64 → f64;
  f_tan : f64 → f64;
}.

(** ** Messages

    A Rust error string is built by [format!] from text, integers and floating
    point numbers.  The pieces are kept; [render] gives the text for a given
    [Display] of [f64]. *)
Inductive piece :=
  | PS (s : string)
  | PZ (z : Z)
  | PF (x : f64).
Definition message : Type := list piece.

#[export] Instance piece_eq_dec : EqDecision piece.
Proof. solve_decision. Defined.

Definition render (display : f64 → string) (m : message) : string :=
  concat_strings ((λ p, match p with PS s => s | PZ z => show z | PF x => display x end) <$> m).

(** ** Lemmas *)
Lemma f_cast_range lo hi x : lo ≤ 0 ≤ hi → lo ≤ f_cast lo hi x ≤ hi.
Proof. intros H. destruct x as [?|[]| |? ? ?]; simpl; lia. Qed.

Lemma to_usize_nonneg x : 0 ≤ to_usize x.
Proof. apply (f_cast_range 0 U64_MAX x). unfold U64_MAX. lia. Qed.

Lemma digits2_pos_size m : SpecFloat.digits2_pos m = Pos.size m.
Proof. induction m; simpl; congruence. Qed.

Lemma digits_bounds m :
  2 ^ (Zpos (SpecFloat.digits2_pos m) - 1) ≤ Zpos m < 2 ^ Zpos (SpecFloat.digits2_pos m).
Proof.
  rewrite digits2_pos_size.
  assert (Zpos (Pos.size m) = Z.log2 (Zpos m) + 1) as -> by (by destruct m; simpl; lia).
  replace (Z.log2 (Zpos m) + 1 - 1) with (Z.log2 (Zpos m)) by lia.
  rewrite Z.add_1_r. by apply Z.log2_spec.
Qed.

(** The exponent of a valid double is fixed by its mantissa. *)
Lemma valid_finite s m e :
  f_valid (S754_finite s m e) →
  (e = -1074 ∧ Zpos m < 2 ^ 53) ∨ (-1074 < e ≤ 971 ∧ 2 ^ 52 ≤ Zpos m < 2 ^ 53).
Proof.
  unfold f_valid; simpl. unfold bounded, canonical_mantissa.
  intros [Hc Hb]%andb_prop. apply Z.eqb_eq in Hc. apply Zle_is_le_bool in Hb.
  unfold SpecFloat.fexp, SpecFloat.emin, PREC, EMAX in *.
  pose proof (digits_bounds m) as [Hlo Hhi].
  set (d := Zpos (SpecFloat.digits2_pos m)) in *.
  destruct (decide (e = -1074)) as [->|Hne].
  - left. split; [done|]. eapply Z.lt_le_trans; [exact Hhi|]. apply Z.pow_le_mono_r; lia.
  - right. assert (d = 53) as Hd by lia. rewrite Hd in *. simpl in Hlo. lia.
Qed.

Lemma from_bits_fields (s : bool) ex frac :
  0 ≤ ex < 2048 → 0 ≤ frac < 2 ^ 52 →
  from_bits ((if s then 2 ^ 63 else 0) + ex * 2 ^ 52 + frac) =
    if ex =? 2047 then (if frac =? 0 then S754_infinity s else S754_nan)
    else match (if ex =? 0 then frac else frac + 2 ^ 52) with
         | Zpos m => S754_finite s m (if ex =? 0 then -1074 else ex - 1075)
         | _ => S754_zero s
         end.
Proof.
  change (2 ^ 52) with 4503599627370496. intros He Hf. unfold from_bits.
  change (2 ^ 52) with 4503599627370496. change (2 ^ 63) with (2048 * 4503599627370496).
  set (b := _ + frac).
  assert ((2048 * 4503599627370496 <=? b) = s) as ->.
  { subst b. destruct s; [apply Z.leb_le|apply Z.leb_gt]; lia. }
  assert (b mod (2048 * 4503599627370496) = ex * 4503599627370496 + frac) as ->.
  { subst b. symmetry. apply Z.mod_unique with (if s then 1 else 0); destruct s; lia. }
  rewrite Z.add_comm, Z.div_add, Z.mod_add, Z.div_small, Z.mod_small by lia. done.
Qed.

Lemma from_to_bits x : f_valid x → from_bits (to_bits x) = x.
Proof.
  destruct x as [s|s| |s m e]; [by destruct s..|done|].
  intros Hv%valid_finite. unfold to_bits.
  destruct (Z.ltb_spec (Zpos m) (2 ^ 52)) as [Hm|Hm].
  - destruct Hv as [[-> _]|]; [|lia].
    replace (Zpos m) with (0 * 2 ^ 52 + Zpos m) by lia. rewrite Z.add_assoc.
    by rewrite from_bits_fields by lia.
  - rewrite from_bits_fields by lia.
    destruct (Z.eqb_spec (e + 1075) 2047), (Z.eqb_spec (e + 1075) 0); try lia.
    replace (Zpos m - 2 ^ 52 + 2 ^ 52) with (Zpos m) by lia. f_equal. lia.
Qed.

Lemma to_bits_range x : f_valid x → 0 ≤ to_bits x < 2 ^ 64.
Proof.
  destruct x as [s|s| |s m e]; [by destruct s..|done|].
  intros Hv%valid_finite. unfold to_bits. change (2 ^ 64) with (4096 * 2 ^ 52).
  change (2 ^ 63) with (2048 * 2 ^ 52).
  destruct (Z.ltb_spec (Zpos m) (2 ^ 52)); destruct s; lia.
Qed.

(** Equal bits are the same double. *)
Lemma to_bits_inj x y : f_valid x → f_valid y → to_bits x = to_bits y → x = y.
Proof. intros Hx Hy H. by rewrite <-(from_to_bits x), <-(from_to_bits y), H. Qed.

(** *** Exact conversion of small integers *)

Lemma iter_xO_value m d : Zpos (Pos.iter xO m d) = Zpos m * 2 ^ Zpos d.
Proof.
  induction d as [|d IH] using Pos.peano_ind; [simpl; lia|].
  rewrite Pos.iter_succ, Pos2Z.inj_succ, Z.pow_succ_r by lia. lia.
Qed.

Lemma iter_xO_digits m d :
  Zpos (SpecFloat.digits2_pos (Pos.iter xO m d)) = Zpos (SpecFloat.digits2_pos m) + Zpos d.
Proof.
  induction d as [|d IH] using Pos.peano_ind; [simpl; lia|]. rewrite Pos.iter_succ. simpl. lia.
Qed.

(** Rounding leaves a mantissa of 53 digits alone. *)
Lemma round_aux_exact s m e :
  -1074 ≤ e ≤ 971 → Zpos (SpecFloat.digits2_pos m) = 53 →
  binary_round_aux PREC EMAX s (Zpos m) e loc_Exact = S754_finite s m e.
Proof.
  intros He Hd. unfold binary_round_aux, shr_fexp, SpecFloat.fexp, emin, PREC, EMAX. simpl.
  rewrite Hd.
  assert (Z.max (53 + e - 53) (3 - 1024 - 53) - e = 0) as -> by lia. simpl.
  rewrite Hd.
  assert (Z.max (53 + e - 53) (3 - 1024 - 53) - e = 0) as -> by lia. simpl.
  destruct (Z.leb_spec e (1024 - 53)); [done|lia].
Qed.

(** A positive integer below [2 ^ 53] is a double: same value, shifted mantissa. *)
Lemma f_of_pos_exact p :
  Zpos p < 2 ^ 53 →
  ∃ m e, f_of_Z (Zpos p) = S754_finite false m e ∧ -52 ≤ e ≤ 0 ∧ Zpos m = Zpos p * 2 ^ (- e)
         ∧ 2 ^ 52 ≤ Zpos m < 2 ^ 53.
Proof.
  intros Hp. pose proof (digits_bounds p) as [Hlo Hhi].
  remember (Zpos (SpecFloat.digits2_pos p)) as d eqn:Hd.
  assert (d ≤ 53) as Hd53.
  { destruct (Z.le_gt_cases d 53); [done|]. exfalso.
    assert (2 ^ 53 ≤ 2 ^ (d - 1)) by (apply Z.pow_le_mono_r; lia). lia. }
  unfold f_of_Z, binary_normalize, binary_round, shl_align. rewrite <-Hd.
  replace (SpecFloat.fexp PREC EMAX (d + 0)) with (d - 53)
    by (unfold SpecFloat.fexp, emin, PREC, EMAX; lia).
  replace (d - 53 - 0) with (d - 53) by lia.
  destruct (d - 53) as [|k|k] eqn:Ek; [|lia|].
  - assert (d = 53) as -> by lia.
    exists p, 0. rewrite (round_aux_exact false p 0) by lia. simpl in Hlo.
    change (- 0) with 0. split_and!; [done|lia..].
  - exists (Pos.iter xO p k), (Z.neg k).
    assert (Z.pos (SpecFloat.digits2_pos (Pos.iter xO p k)) = 53) as Hk
      by (rewrite iter_xO_digits; lia).
    assert (-1074 ≤ Z.neg k ≤ 971) as Hr by lia.
    rewrite (round_aux_exact false (Pos.iter xO p k) (Z.neg k) Hr Hk).
    rewrite iter_xO_value. change (- Z.neg k) with (Zpos k). split_and!; [done|lia|lia|lia| |].
    + replace (2 ^ 52) with (2 ^ (d - 1) * 2 ^ Zpos k); [nia|].
      rewrite <-Z.pow_add_r by lia. f_equal. lia.
    + replace (2 ^ 53) with (2 ^ d * 2 ^ Zpos k); [nia|].
      rewrite <-Z.pow_add_r by lia. f_equal. lia.
Qed.

Lemma f_of_Z_valid z : 0 ≤ z < 2 ^ 53 → f_valid (f_of_Z z).
Proof.
  destruct z as [|p|p]; [done| |lia]. intros [_ Hp].
  destruct (f_of_pos_exact p Hp) as (m & e & -> & He & _ & Hlo & Hhi).
  unfold f_valid, valid_binary, bounded, canonical_mantissa, SpecFloat.fexp, emin, PREC, EMAX.
  pose proof (digits_bounds m) as [Hl Hh].
  set (d := Zpos (SpecFloat.digits2_pos m)) in *.
  assert (d = 53) as ->.
  { destruct (Z.lt_trichotomy d 53) as [?|[?|?]]; [|done|].
    - assert (2 ^ d ≤ 2 ^ 52) by (apply Z.pow_le_mono_r; lia). lia.
    - assert (2 ^ 53 ≤ 2 ^ (d - 1)) by (apply Z.pow_le_mono_r; lia). lia. }
  apply andb_true_intro. split; [apply Z.eqb_eq; lia|apply Z.leb_le; lia].
Qed.

Lemma trunc_Z_of_Z z : 0 ≤ z < 2 ^ 53 → trunc_Z (f_of_Z z) = z.
Proof.
  destruct z as [|p|p]; [done| |lia]. intros [_ Hp].
  destruct (f_of_pos_exact p Hp) as (m & e & -> & He & Hm & _). simpl.
  unfold magnitude_floor. destruct (Z.leb_spec 0 e).
  - assert (e = 0) as -> by lia. simpl in *. rewrite Z.shiftl_0_r. lia.
  - rewrite Z.shiftr_div_pow2, Hm by lia. apply Z.div_mul. apply Z.pow_nonzero; lia.
Qed.

Lemma f_cast_of_Z lo hi z :
  0 ≤ z < 2 ^ 53 → lo ≤ z ≤ hi → f_cast lo hi (f_of_Z z) = z.
Proof.
  intros Hz Hr. pose proof (trunc_Z_of_Z z Hz) as Ht.
  destruct z as [|p|p]; [done| |lia].
  destruct (f_of_pos_exact p) as (m & e & E & _); [lia|]. rewrite E in *. simpl in *. lia.
Qed.

Lemma f_of_Z_finite z : 0 ≤ z < 2 ^ 53 → f_is_finite (f_of_Z z) = true.
Proof.
  destruct z as [|p|p]; [done| |lia]. intros [_ Hp].
  by destruct (f_of_pos_exact p Hp) as (m & e & -> & _).
Qed.

Lemma f_of_Z_nonneg z : 0 ≤ z < 2 ^ 53 → f_lt (f_of_Z z) f_zero = false.
Proof.
  destruct z as [|p|p]; [done| |lia]. intros [_ Hp].
  by destruct (f_of_pos_exact p Hp) as (m & e & -> & _).
Qed.

(** [f_trunc] leaves the truncated value unchanged when it is small. *)
Lemma to_usize_trunc_of_Z z : 0 ≤ z < 2 ^ 53 → to_usize (f_trunc (f_of_Z z)) = z.
Proof.
  intros Hz. destruct z as [|p|p]; [done| |lia].
  destruct (f_of_pos_exact p) as (m & e & E & _); [lia|].
  pose proof (trunc_Z_of_Z (Zpos p) Hz) as Ht. rewrite E in *.
  unfold f_trunc. rewrite Ht. unfold f_of_Z_signed. simpl Z.eqb. cbv iota.
  change (binary_normalize PREC EMAX (Zpos p) 0 false) with (f_of_Z (Zpos p)).
  apply f_cast_of_Z; [done|]. unfold U64_MAX. lia.
Qed.
