(* ===== verification/Knowledge.v ===== *)
(** * The game data tables

    [crates/ic10-data]: the typed view of the generated Stationpedia data.  The
    tables themselves are JSON embedded at build time, so a [KnowledgeBase] is an
    argument of every definition that reads one; the lookups are defined here.
    A [serde_json::Value] is kept as the three observations the crates make of it. *)

From S2P Require Import Prelude BTree Text F64.
Local Open Scope string_scope.
Local Open Scope Z_scope.

(** [serde_json::Value] through [as_f64], [as_i64] and [as_str]. *)
Record json_value := {
  as_f64 : option f64;
  as_i64 : option Z;
  as_str : option string;
}.

(** Source: [crates/ic10-data/src/lib.rs] [Operand] *)
Record OperandData := {
  od_label : string;
  od_operand_type : string;
  od_display : string;
}.

(** Source: [crates/ic10-data/src/lib.rs] [Instruction] *)
Record Instruction := {
  in_category : string;
  in_syntax : string;
  in_description : string;
  in_deprecated : bool;
  in_operands : list OperandData;
}.

(** Source: [crates/ic10-data/src/lib.rs] [Constant] *)
Record Constant := {
  co_value : json_value;
  co_description : string;
}.

(** Source: [crates/ic10-data/src/lib.rs] [EnumValue] *)
Record EnumValue := {
  ev_value : json_value;
  ev_deprecated : bool;
  ev_description : string;
}.

(** Source: [crates/ic10-data/src/lib.rs] [EnumListing] *)
Record EnumListing := {
  el_display_name : string;
  el_values : BTreeMap string EnumValue;
}.

(** Source: [crates/ic10-data/src/lib.rs] [Architecture] *)
Record Architecture := {
  ar_numeric_storage : string;
  ar_general_registers : string;
  ar_return_address_register : string;
  ar_stack_pointer_register : string;
  ar_stack_size : Z;
  ar_device_pins : string;
  ar_base_device : string;
  ar_maximum_program_lines : Z;
  ar_maximum_instructions_per_tick : Z;
  ar_tick_seconds : f64;
}.

(** Source: [crates/ic10-data/src/lib.rs] [LanguageReference] *)
Record LanguageReference := {
  la_schema_version : Z;
  la_game_version : string;
  la_architecture : Architecture;
  la_instructions : BTreeMap string Instruction;
  la_constants : BTreeMap string Constant;
  la_enums : BTreeMap string EnumListing;
}.

(** Source: [crates/ic10-data/src/lib.rs] [LogicAccess] *)
Record LogicAccess := {
  ac_read : bool;
  ac_write : bool;
}.

(** Source: [crates/ic10-data/src/lib.rs] [DeviceSlot] *)
Record DeviceSlot := {
  ds_name : string;
  ds_slot_type : string;
  ds_class : option json_value;
  ds_hash : option Z;
  ds_logic_types : BTreeMap string LogicAccess;
}.

(** Source: [crates/ic10-data/src/lib.rs] [DeviceConnection] *)
Record DeviceConnection := {
  dc_connection_type : json_value;
  dc_role : json_value;
}.

(** Source: [crates/ic10-data/src/lib.rs] [DeviceMemory] *)
Record DeviceMemory := {
  dm_size : option Z;
  dm_access : option json_value;
}.

(** Source: [crates/ic10-data/src/lib.rs] [Device] *)
Record DeviceData := {
  dd_prefab_name : string;
  dd_prefab_hash : Z;
  dd_display_name : string;
  dd_description : string;
  dd_image : option string;
  dd_logic_types : BTreeMap string LogicAccess;
  dd_slots : BTreeMap string DeviceSlot;
  dd_modes : BTreeMap string json_value;
  dd_connections : list DeviceConnection;
  dd_memory : option DeviceMemory;
}.

(** Source: [crates/ic10-data/src/lib.rs] [DeviceReference] *)
Record DeviceTables := {
  dt_schema_version : Z;
  dt_game_version : string;
  dt_devices : BTreeMap string DeviceData;
  dt_other_logicables : BTreeMap string DeviceData;
}.

(** Source: [crates/ic10-data/src/lib.rs] [ResourceGas] *)
Record ResourceGas := {
  rg_gas_type : string;
  rg_quantity : f64;
  rg_temperature : f64;
}.

(** Source: [crates/ic10-data/src/lib.rs] [Resource] *)
Record Resource := {
  re_prefab_name : string;
  re_prefab_hash : Z;
  re_display_name : string;
  re_description : string;
  re_image : option string;
  re_kind : string;
  re_slot_class : option string;
  re_slot_class_value : option Z;
  re_sorting_class : option string;
  re_sorting_class_value : option Z;
  re_max_quantity : option f64;
  re_reagents : BTreeMap string f64;
  re_gases : list ResourceGas;
}.

(** Source: [crates/ic10-data/src/lib.rs] [Reagent] *)
Record Reagent := {
  ra_name : string;
  ra_id : Z;
  ra_hash : Z;
  ra_unit : string;
  ra_is_organic : bool;
  ra_sources : BTreeMap string f64;
}.

(** Source: [crates/ic10-data/src/lib.rs] [ResourceReference] *)
Record ResourceReference := {
  rr_schema_version : Z;
  rr_game_version : string;
  rr_resources : BTreeMap string Resource;
  rr_reagents : BTreeMap string Reagent;
}.

(** Source: [crates/ic10-data/src/lib.rs] [InstructionEvidence] *)
Record InstructionEvidence := {
  ie_kind : string;
  ie_path : string;
  ie_syntax : string;
  ie_operands : list OperandData;
}.

(** Source: [crates/ic10-data/src/lib.rs] [InstructionConformance] *)
Record InstructionConformance := {
  ic_status : string;
  ic_source_game_version : string;
  ic_evidence : InstructionEvidence;
  ic_fixtures : list string;
  ic_known_deviations : list string;
  ic_device_behaviours : list string;
}.

(** Source: [crates/ic10-data/src/lib.rs] [ConformanceMatrix] *)
Record ConformanceMatrix := {
  cm_schema_version : Z;
  cm_game_version : string;
  cm_instructions : BTreeMap string InstructionConformance;
}.

(** Source: [crates/ic10-data/src/lib.rs] [HoverColor] *)
Record HoverColor := {
  hc_value : Z;
  hc_foreground : string;
  hc_background : string;
}.

(** Source: [crates/ic10-data/src/lib.rs] [HoverOverrides] *)
Record HoverOverrides := {
  ho_schema_version : Z;
  ho_colors : BTreeMap string HoverColor;
  ho_keywords : list string;
}.

(** Source: [crates/ic10-data/src/lib.rs] [KnowledgeBase] *)
Record KnowledgeBase := {
  kb_language : LanguageReference;
  kb_devices : DeviceTables;
  kb_resources : ResourceReference;
  kb_hover : HoverOverrides;
  kb_conformance : ConformanceMatrix;
}.

Definition option_or {A} (a b : option A) : option A :=
  match a with Some _ => a | None => b end.

(** Source: [crates/ic10-data/src/lib.rs] [instruction] *)
Definition instruction (kb : KnowledgeBase) (name : string) : option Instruction :=
  bt_get name (la_instructions (kb_language kb)).

(** Source: [crates/ic10-data/src/lib.rs] [device_by_name] *)
Definition device_by_name (kb : KnowledgeBase) (name : string) : option DeviceData :=
  option_or (bt_get name (dt_devices (kb_devices kb)))
            (bt_get name (dt_other_logicables (kb_devices kb))).

(** Source: [crates/ic10-data/src/lib.rs] [all_devices] *)
Definition all_devices (kb : KnowledgeBase) : list DeviceData :=
  (bt_values (dt_devices (kb_devices kb)) ++ bt_values (dt_other_logicables (kb_devices kb)))%list.

(** Source: [crates/ic10-data/src/lib.rs] [device_by_hash] *)
Definition device_by_hash (kb : KnowledgeBase) (prefab_hash : Z) : option DeviceData :=
  find_first (λ device, dd_prefab_hash device =? prefab_hash) (all_devices kb).

(** Source: [crates/ic10-data/src/lib.rs] [enum_value] *)
Definition enum_value (kb : KnowledgeBase) (name : string) : option (string * EnumValue) :=
  find_map (λ '(enum_name, listing),
              (λ value, (enum_name, value)) <$> bt_get name (el_values listing))
           (la_enums (kb_language kb)).

(** Source: [crates/ic10-data/src/lib.rs] [resource_by_name] *)
Definition resource_by_name (kb : KnowledgeBase) (name : string) : option Resource :=
  bt_get name (rr_resources (kb_resources kb)).

(** Source: [crates/ic10-data/src/lib.rs] [resource_by_hash] *)
Definition resource_by_hash (kb : KnowledgeBase) (prefab_hash : Z) : option Resource :=
  find_first (λ resource, re_prefab_hash resource =? prefab_hash)
             (bt_values (rr_resources (kb_resources kb))).

(** Source: [crates/ic10-data/src/lib.rs] [reagent_by_name] *)
Definition reagent_by_name (kb : KnowledgeBase) (name : string) : option Reagent :=
  bt_get name (rr_reagents (kb_resources kb)).

(** Source: [crates/ic10-data/src/lib.rs] [reagent_by_hash] *)
Definition reagent_by_hash (kb : KnowledgeBase) (hash : Z) : option Reagent :=
  find_first (λ reagent, ra_hash reagent =? hash) (bt_values (rr_reagents (kb_resources kb))).

(** Source: [crates/ic10-data/src/lib.rs] [counts] *)
Definition counts (matrix : ConformanceMatrix) : BTreeMap string Z :=
  foldl (λ counts entry,
           bt_insert (ic_status entry)
             (default 0 (bt_get (ic_status entry) counts) + 1) counts)
        [] (bt_values (cm_instructions matrix)).

(** ** Concrete tables for evaluation

    Tables of the shape of the embedded data, small enough to evaluate on. *)
Definition json_int (z : Z) : json_value :=
  {| as_f64 := Some (f_of_Z z); as_i64 := Some z; as_str := None |}.
Definition json_str (s : string) : json_value :=
  {| as_f64 := None; as_i64 := None; as_str := Some s |}.

Definition instruction_of (operands : list string) : Instruction :=
  {| in_category := ""; in_syntax := ""; in_description := ""; in_deprecated := false;
     in_operands := (λ t, {| od_label := ""; od_operand_type := t; od_display := t |}) <$> operands |}.

Definition enum_of (values : list (string * Z)) : EnumListing :=
  {| el_display_name := "";
     el_values := bt_collect ((λ '(n, z),
       (n, {| ev_value := json_int z; ev_deprecated := false; ev_description := "" |})) <$> values) |}.

Definition connection_of (t : string) : DeviceConnection :=
  {| dc_connection_type := json_str t; dc_role := json_str "None" |}.

Definition slot_of (fields : list string) : DeviceSlot :=
  {| ds_name := ""; ds_slot_type := ""; ds_class := None; ds_hash := None;
     ds_logic_types := bt_collect ((λ f, (f, {| ac_read := true; ac_write := false |})) <$> fields) |}.

Definition device_of (name : string) (hash : Z) (fields : list (string * bool * bool))
    (slots : list (string * list string)) (connections : list string) (memory : option Z) : DeviceData :=
  {| dd_prefab_name := name; dd_prefab_hash := hash; dd_display_name := name; dd_description := "";
     dd_image := None;
     dd_logic_types := bt_collect ((λ '(f, r, w), (f, {| ac_read := r; ac_write := w |})) <$> fields);
     dd_slots := bt_collect ((λ '(s, fs), (s, slot_of fs)) <$> slots);
     dd_modes := []; dd_connections := connection_of <$> connections;
     dd_memory := (λ n, {| dm_size := Some n; dm_access := None |}) <$> memory |}.

Definition kb_of (lines budget : Z) (instructions : list (string * list string))
    (constants : list (string * Z)) (enums : list (string * list (string * Z)))
    (devices : list DeviceData) : KnowledgeBase :=
  {| kb_language := {|
       la_schema_version := 1; la_game_version := "0.2.6403.27689";
       la_architecture := {|
         ar_numeric_storage := "float64"; ar_general_registers := "r0-r15";
         ar_return_address_register := "ra"; ar_stack_pointer_register := "sp";
         ar_stack_size := 512; ar_device_pins := "d0-d5"; ar_base_device := "db";
         ar_maximum_program_lines := lines; ar_maximum_instructions_per_tick := budget;
         ar_tick_seconds := f_of_decimal false 5 (-1) |};
       la_instructions := bt_collect ((λ '(n, ops), (n, instruction_of ops)) <$> instructions);
       la_constants := bt_collect ((λ '(n, z), (n, {| co_value := json_int z; co_description := "" |})) <$> constants);
       la_enums := bt_collect ((λ '(n, vs), (n, enum_of vs)) <$> enums) |};
     kb_devices := {| dt_schema_version := 1; dt_game_version := "0.2.6403.27689";
       dt_devices := bt_collect ((λ d, (dd_prefab_name d, d)) <$> devices); dt_other_logicables := [] |};
     kb_resources := {| rr_schema_version := 1; rr_game_version := "0.2.6403.27689";
       rr_resources := []; rr_reagents := [] |};
     kb_hover := {| ho_schema_version := 1; ho_colors := []; ho_keywords := [] |};
     kb_conformance := {| cm_schema_version := 1; cm_game_version := "0.2.6403.27689"; cm_instructions := [] |} |}.

(** The instructions of the embedded table [data/generated/instructions.json] with
    the types of their operands. *)
Definition generated_instructions : list (string * list string) :=
  [
    ("abs", ["r?"; "r?|num"]); ("acos", ["r?"; "r?|num"]); ("add", ["r?"; "r?|num"; "r?|num"]);
    ("alias", ["str"; "r?|d?"]); ("and", ["r?"; "r?|num"; "r?|num"]); ("asin", ["r?"; "r?|num"]);
    ("atan", ["r?"; "r?|num"]); ("atan2", ["r?"; "r?|num"; "r?|num"]);
    ("bap", ["r?|num"; "r?|num"; "r?|num"; "r?|num"]); ("bapal", ["r?|num"; "r?|num"; "r?|num"; "r?|num"]);
    ("bapz", ["r?|num"; "r?|num"; "r?|num"]); ("bapzal", ["r?|num"; "r?|num"; "r?|num"]);
    ("bdns", ["d?|r?|id"; "r?|num"]); ("bdnsal", ["d?|r?|id"; "r?|num"]);
    ("bdnvl", ["d?|r?|id"; "logicType"; "r?|num"]); ("bdnvs", ["d?|r?|id"; "logicType"; "r?|num"]);
    ("bdse", ["d?|r?|id"; "r?|num"]); ("bdseal", ["d?|r?|id"; "r?|num"]); ("beq", ["r?|num"; "r?|num"; "r?|num"]);
    ("beqal", ["r?|num"; "r?|num"; "r?|num"]); ("beqz", ["r?|num"; "r?|num"]); ("beqzal", ["r?|num"; "r?|num"]);
    ("bge", ["r?|num"; "r?|num"; "r?|num"]); ("bgeal", ["r?|num"; "r?|num"; "r?|num"]);
    ("bgez", ["r?|num"; "r?|num"]); ("bgezal", ["r?|num"; "r?|num"]); ("bgt", ["r?|num"; "r?|num"; "r?|num"]);
    ("bgtal", ["r?|num"; "r?|num"; "r?|num"]); ("bgtz", ["r?|num"; "r?|num"]); ("bgtzal", ["r?|num"; "r?|num"]);
    ("ble", ["r?|num"; "r?|num"; "r?|num"]); ("bleal", ["r?|num"; "r?|num"; "r?|num"]);
    ("blez", ["r?|num"; "r?|num"]); ("blezal", ["r?|num"; "r?|num"]); ("blt", ["r?|num"; "r?|num"; "r?|num"]);
    ("bltal", ["r?|num"; "r?|num"; "r?|num"]); ("bltz", ["r?|num"; "r?|num"]); ("bltzal", ["r?|num"; "r?|num"]);
    ("bna", ["r?|num"; "r?|num"; "r?|num"; "r?|num"]); ("bnaal", ["r?|num"; "r?|num"; "r?|num"; "r?|num"]);
    ("bnan", ["r?|num"; "r?|num"]); ("bnaz", ["r?|num"; "r?|num"; "r?|num"]);
    ("bnazal", ["r?|num"; "r?|num"; "r?|num"]); ("bne", ["r?|num"; "r?|num"; "r?|num"]);
    ("bneal", ["r?|num"; "r?|num"; "r?|num"]); ("bnez", ["r?|num"; "r?|num"]); ("bnezal", ["r?|num"; "r?|num"]);
    ("brap", ["r?|num"; "r?|num"; "r?|num"; "r?|num"]); ("brapz", ["r?|num"; "r?|num"; "r?|num"]);
    ("brdns", ["d?|r?|id"; "r?|num"]); ("brdse", ["d?|r?|id"; "r?|num"]); ("breq", ["r?|num"; "r?|num"; "r?|num"]);
    ("breqz", ["r?|num"; "r?|num"]); ("brge", ["r?|num"; "r?|num"; "r?|num"]); ("brgez", ["r?|num"; "r?|num"]);
    ("brgt", ["r?|num"; "r?|num"; "r?|num"]); ("brgtz", ["r?|num"; "r?|num"]);
    ("brle", ["r?|num"; "r?|num"; "r?|num"]); ("brlez", ["r?|num"; "r?|num"]);
    ("brlt", ["r?|num"; "r?|num"; "r?|num"]); ("brltz", ["r?|num"; "r?|num"]);
    ("brna", ["r?|num"; "r?|num"; "r?|num"; "r?|num"]); ("brnan", ["r?|num"; "r?|num"]);
    ("brnaz", ["r?|num"; "r?|num"; "r?|num"]); ("brne", ["r?|num"; "r?|num"; "r?|num"]);
    ("brnez", ["r?|num"; "r?|num"]); ("ceil", ["r?"; "r?|num"]); ("clamp", ["r?"; "r?|num"; "r?|num"; "r?|num"]);
    ("clr", ["d?"]); ("clrd", ["r?|num"]); ("cos", ["r?"; "r?|num"]); ("define", ["str"; "num"]);
    ("div", ["r?"; "r?|num"; "r?|num"]); ("exp", ["r?"; "r?|num"]); ("ext", ["r?"; "r?|num"; "r?|num"; "r?|num"]);
    ("floor", ["r?"; "r?|num"]); ("get", ["r?"; "d?|r?|id"; "r?|num"]); ("getd", ["r?"; "r?|id"; "r?|num"]);
    ("hcf", []); ("ins", ["r?"; "r?|num"; "r?|num"; "r?|num"]); ("j", ["int"]); ("jal", ["int"]); ("jr", ["int"]);
    ("l", ["r?"; "d?|r?|id"; "logicType"]); ("label", ["d?"; "str"]);
    ("lb", ["r?"; "deviceHash"; "logicType"; "batchMode"]);
    ("lbn", ["r?"; "deviceHash"; "nameHash"; "logicType"; "batchMode"]);
    ("lbns", ["r?"; "deviceHash"; "nameHash"; "slotIndex"; "logicSlotType"; "batchMode"]);
    ("lbs", ["r?"; "deviceHash"; "slotIndex"; "logicSlotType"; "batchMode"]); ("ld", ["r?"; "r?|id"; "logicType"]);
    ("lerp", ["r?"; "r?|num"; "r?|num"; "r?|num"]); ("log", ["r?"; "r?|num"]);
    ("lr", ["r?"; "d?|r?|id"; "reagentMode"; "int"]); ("ls", ["r?"; "d?|r?|id"; "slotIndex"; "logicSlotType"]);
    ("max", ["r?"; "r?|num"; "r?|num"]); ("min", ["r?"; "r?|num"; "r?|num"]); ("mod", ["r?"; "r?|num"; "r?|num"]);
    ("move", ["r?"; "r?|num"]); ("mul", ["r?"; "r?|num"; "r?|num"]); ("nor", ["r?"; "r?|num"; "r?|num"]);
    ("not", ["r?"; "r?|num"]); ("or", ["r?"; "r?|num"; "r?|num"]); ("peek", ["r?"]); ("poke", ["r?|num"; "r?|num"]);
    ("pop", ["r?"]); ("pow", ["r?"; "r?|num"; "r?|num"]); ("push", ["r?|num"]);
    ("put", ["d?|r?|id"; "r?|num"; "r?|num"]); ("putd", ["r?|id"; "r?|num"; "r?|num"]); ("rand", ["r?"]);
    ("rmap", ["r?"; "d?"; "r?|num"]); ("rol", ["r?"; "r?|num"; "r?|num"]); ("ror", ["r?"; "r?|num"; "r?|num"]);
    ("round", ["r?"; "r?|num"]); ("s", ["d?|r?|id"; "logicType"; "r?|num"]);
    ("sap", ["r?"; "r?|num"; "r?|num"; "r?|num"]); ("sapz", ["r?"; "r?|num"; "r?|num"]);
    ("sb", ["deviceHash"; "logicType"; "r?|num"]); ("sbn", ["deviceHash"; "nameHash"; "logicType"; "r?|num"]);
    ("sbs", ["deviceHash"; "slotIndex"; "logicSlotType"; "r?|num"]); ("sd", ["r?|id"; "logicType"; "r?|num"]);
    ("sdns", ["r?"; "d?|r?|id"]); ("sdse", ["r?"; "d?|r?|id"]); ("select", ["r?"; "r?|num"; "r?|num"; "r?|num"]);
    ("seq", ["r?"; "r?|num"; "r?|num"]); ("seqz", ["r?"; "r?|num"]); ("sge", ["r?"; "r?|num"; "r?|num"]);
    ("sgez", ["r?"; "r?|num"]); ("sgn", ["r?"; "r?|num"]); ("sgt", ["r?"; "r?|num"; "r?|num"]);
    ("sgtz", ["r?"; "r?|num"]); ("sin", ["r?"; "r?|num"]); ("sla", ["r?"; "r?|num"; "r?|num"]);
    ("sle", ["r?"; "r?|num"; "r?|num"]); ("sleep", ["r?|num"]); ("slez", ["r?"; "r?|num"]);
    ("sll", ["r?"; "r?|num"; "r?|num"]); ("slt", ["r?"; "r?|num"; "r?|num"]); ("sltz", ["r?"; "r?|num"]);
    ("sna", ["r?"; "r?|num"; "r?|num"; "r?|num"]); ("snan", ["r?"; "r?|num"]); ("snanz", ["r?"; "r?|num"]);
    ("snaz", ["r?"; "r?|num"; "r?|num"]); ("sne", ["r?"; "r?|num"; "r?|num"]); ("snez", ["r?"; "r?|num"]);
    ("sqrt", ["r?"; "r?|num"]); ("sra", ["r?"; "r?|num"; "r?|num"]); ("srl", ["r?"; "r?|num"; "r?|num"]);
    ("ss", ["d?|r?|id"; "slotIndex"; "logicSlotType"; "r?|num"]); ("sub", ["r?"; "r?|num"; "r?|num"]);
    ("tan", ["r?"; "r?|num"]); ("trunc", ["r?"; "r?|num"]); ("xor", ["r?"; "r?|num"; "r?|num"]); ("yield", [])
  ].
