(* ===== verification/Literals.v ===== *)
(** * Literals and names

    The self-contained classifiers of [crates/ic10-core]: the [HASH] and [STR]
    macros with the CRC-32 and the packing they denote, numeric literals,
    identifiers, registers and absolute branches. *)

From S2P Require Import Prelude BTree Text F64.
From Stdlib Require Import Ascii.
Local Open Scope string_scope.
Local Open Scope Z_scope.

(** Source: [crates/ic10-core/src/lib.rs] [LiteralMacroKind] *)
Inductive LiteralMacroKind := MacroHash | MacroString.

(** Source: [crates/ic10-core/src/lib.rs] [LiteralMacro] *)
Record LiteralMacro := {
  lm_kind : LiteralMacroKind;
  lm_value : string;
}.

(** Source: [crates/ic10-core/src/lib.rs] [PackedStringError] *)
Inductive PackedStringError :=
  | NonAscii
  | TooLong (length : Z).

Definition MAX_PACKED_STRING_BYTES : Z := 6.

(** The character an escape sequence stands for. *)
Definition unescape (c : string) : string :=
  if String.eqb c "n" then NEWLINE
  else if String.eqb c "r" then RETURN
  else if String.eqb c "t" then TAB
  else c.

(** Source: [crates/ic10-core/src/lib.rs] [decode_macro_string] *)
Fixpoint decode_macro_chars (characters : list string) : option string :=
  match characters with
  | [] => Some ""
  | c :: rest =>
      if String.eqb c BACKSLASH then
        match rest with
        | [] => None
        | escaped :: rest' => String.append (unescape escaped) <$> decode_macro_chars rest'
        end
      else if String.eqb c DQUOTE then None
      else String.append c <$> decode_macro_chars rest
  end.

(** Source: [crates/ic10-core/src/lib.rs] [decode_macro_string] *)
Definition decode_macro_string (value : string) : option string :=
  decode_macro_chars (chars value).

(** The text between [prefix] and the closing quote and parenthesis. *)
Definition macro_body (prefix token : string) : option string :=
  strip_prefix (prefix +:+ "(" +:+ DQUOTE) token ≫= strip_suffix (DQUOTE +:+ ")").

(** Source: [crates/ic10-core/src/lib.rs] [parse_literal_macro] *)
Definition parse_literal_macro (token : string) : option LiteralMacro :=
  '(kind, encoded) ←
    match macro_body "HASH" token with
    | Some value => Some (MacroHash, value)
    | None =>
        match macro_body "STR" token with
        | Some value => Some (MacroString, value)
        | None => None
        end
    end;
  (λ value, {| lm_kind := kind; lm_value := value |}) <$> decode_macro_string encoded.

(** One bit of the reflected CRC-32 division. *)
Definition crc_bit (checksum : Z) : Z :=
  if Z.land checksum 1 =? 1
  then Z.lxor (Z.shiftr checksum 1) 0xEDB88320
  else Z.shiftr checksum 1.

Definition crc_byte (checksum byte : Z) : Z := Nat.iter 8 crc_bit (Z.lxor checksum byte).

(** Source: [crates/ic10-core/src/lib.rs] [stationeers_crc32] *)
Definition stationeers_crc32 (value : string) : Z :=
  Z.lxor (foldl crc_byte U32_MAX (bytes value)) U32_MAX.

(** Source: [crates/ic10-core/src/lib.rs] [pack_stationeers_string] *)
Definition pack_stationeers_string (value : string) : outcome PackedStringError Z :=
  if negb (is_ascii value) then Err NonAscii
  else if MAX_PACKED_STRING_BYTES <? slen value then Err (TooLong (slen value))
  else Ok (foldl (λ packed byte, Z.lor (wrap_u 64 (Z.shiftl packed 8)) byte) 0 (bytes value)).

(** Source: [crates/ic10-core/src/lib.rs] [is_absolute_branch] *)
Definition is_absolute_branch (mnemonic : string) : bool :=
  existsb (String.eqb mnemonic) ["j"; "jal"]
  || (starts_with "b" mnemonic && negb (starts_with "br" mnemonic)
      && negb (existsb (String.eqb mnemonic) ["bdse"; "bdns"; "bdnvl"; "bdnvs"])).

(** A character of one byte, as a number; [-1] for any other. *)
Definition char_byte (c : string) : Z :=
  match c with String a "" => byte_of a | _ => -1 end.

(** Source: [crates/ic10-core/src/lib.rs] [is_identifier] *)
Definition is_identifier (value : string) : bool :=
  match chars value with
  | first :: rest =>
      (is_ascii_alphabetic (char_byte first) || String.eqb first "_")
      && forallb (λ c, is_ascii_alphanumeric (char_byte c) || String.eqb c "_") rest
  | [] => false
  end.

(** Source: [crates/ic10-core/src/lib.rs] [is_register] *)
Definition is_register (value : string) : bool :=
  let direct := trim_start_matches (byte 114) value in
  existsb (String.eqb value) ["ra"; "sp"]
  || (negb (String.eqb direct "") && (slen direct <? slen value)
      && match parse_u8 direct with Some number => number <=? 17 | None => false end).

Definition first_prefix (prefixes : list string) (s : string) : option string :=
  find_map (λ p, strip_prefix p s) prefixes.

(** Source: [crates/ic10-core/src/analysis.rs] [parse_numeric_literal] *)
Definition parse_numeric_literal (value : string) : option f64 :=
  let lower := to_ascii_lowercase value in
  if String.eqb lower "nan" then Some f_nan
  else if existsb (String.eqb lower) ["pinf"; "inf"; "+inf"; "infinity"; "+infinity"] then Some f_inf
  else if existsb (String.eqb lower) ["ninf"; "-inf"; "-infinity"] then Some f_neg_inf
  else
    let '(negative, unsigned) :=
      match strip_prefix "-" value with Some r => (true, r) | None => (false, value) end in
    let signed integer := if negative : bool then f_neg (f_of_Z integer) else f_of_Z integer in
    match first_prefix ["$"; "0x"; "0X"] unsigned with
    | Some hex => signed <$> i64_from_str_radix 16 hex
    | None =>
        match first_prefix ["%"; "0b"; "0B"] unsigned with
        | Some binary => signed <$> i64_from_str_radix 2 binary
        | None => parse_f64 value
        end
    end.

(** ** Packed strings *)

(** The specification of packing: the bytes read as a big-endian number. *)
Definition big_endian (l : list Z) : Z := foldl (λ acc b, acc * 256 + b) 0 l.

Fixpoint big_endian_digits (n : nat) (z : Z) : list Z :=
  match n with
  | O => []
  | S n' => (big_endian_digits n' (z / 256) ++ [z mod 256])%list
  end.

Lemma byte_of_range a : 0 ≤ byte_of a < 256.
Proof.
  destruct a as [[] [] [] [] [] [] [] []]; vm_compute; split; congruence.
Qed.

Lemma bytes_range s : Forall (λ b, 0 ≤ b < 256) (bytes s).
Proof. induction s; simpl; constructor; auto using byte_of_range. Qed.

Lemma bytes_length s : Z.of_nat (length (bytes s)) = slen s.
Proof. unfold slen. induction s; simpl; lia. Qed.

Lemma big_endian_app l b : big_endian (l ++ [b]) = big_endian l * 256 + b.
Proof. unfold big_endian. by rewrite foldl_app. Qed.

Lemma big_endian_bound l :
  Forall (λ b, 0 ≤ b < 256) l → 0 ≤ big_endian l < 256 ^ Z.of_nat (length l).
Proof.
  induction l as [|b l IH] using rev_ind; [done|].
  intros [Hl Hb]%Forall_app. rewrite Forall_singleton in Hb. specialize (IH Hl).
  rewrite big_endian_app, length_app. simpl length.
  replace (Z.of_nat (length l + 1)) with (Z.succ (Z.of_nat (length l))) by lia.
  rewrite Z.pow_succ_r by lia. lia.
Qed.

Lemma big_endian_digits_correct l :
  Forall (λ b, 0 ≤ b < 256) l → big_endian_digits (length l) (big_endian l) = l.
Proof.
  induction l as [|b l IH] using rev_ind; [done|].
  intros [Hl Hb]%Forall_app. rewrite Forall_singleton in Hb.
  rewrite length_app. simpl length. rewrite Nat.add_1_r. simpl.
  rewrite big_endian_app. rewrite Z.add_comm, Z.div_add, Z.mod_add by lia.
  rewrite Z.div_small, Z.mod_small, Z.add_0_l by lia. by rewrite IH.
Qed.

Lemma land_shift_byte packed b : 0 ≤ b < 256 → Z.land (Z.shiftl packed 8) b = 0.
Proof.
  intros Hb. apply Z.bits_inj'. intros n Hn. rewrite Z.land_spec, Z.bits_0.
  destruct (Z.ltb_spec n 8); [by rewrite Z.shiftl_spec_low by lia|].
  replace (Z.testbit b n) with false; [by rewrite andb_false_r|]. symmetry.
  destruct (decide (b = 0)) as [->|]; [apply Z.bits_0|].
  apply Z.bits_above_log2; [lia|]. apply Z.log2_lt_pow2; [lia|].
  apply Z.lt_le_trans with (2 ^ 8); [lia|]. apply Z.pow_le_mono_r; lia.
Qed.

Lemma lor_shift_byte packed b : 0 ≤ b < 256 → Z.lor (Z.shiftl packed 8) b = packed * 256 + b.
Proof.
  intros Hb. pose proof (land_shift_byte packed b Hb) as H.
  rewrite <-Z.lxor_lor, <-Z.add_nocarry_lxor by done. by rewrite Z.shiftl_mul_pow2 by lia.
Qed.

Lemma pack_fold l acc n :
  Forall (λ b, 0 ≤ b < 256) l → 0 ≤ acc < 256 ^ Z.of_nat n → (n + length l ≤ 7)%nat →
  foldl (λ packed byte, Z.lor (wrap_u 64 (Z.shiftl packed 8)) byte) acc l
  = foldl (λ acc b, acc * 256 + b) acc l.
Proof.
  revert acc n. induction l as [|b l IH]; intros acc n Hl Hacc Hn; simpl in *; [done|].
  apply Forall_cons in Hl as [Hb Hl].
  assert (0 ≤ acc < 256 ^ 6).
  { split; [lia|]. eapply Z.lt_le_trans; [apply Hacc|]. apply Z.pow_le_mono_r; lia. }
  rewrite wrap_u_small by (rewrite Z.shiftl_mul_pow2 by lia; lia).
  rewrite lor_shift_byte by done. apply (IH _ (S n)); [done| |lia].
  rewrite Nat2Z.inj_succ, Z.pow_succ_r by lia. lia.
Qed.

(** [C] A packed [STR] literal is the big-endian number of its bytes. *)
Lemma pack_big_endian value :
  is_ascii value = true → slen value ≤ MAX_PACKED_STRING_BYTES →
  pack_stationeers_string value = Ok (big_endian (bytes value)).
Proof.
  intros Ha Hl. unfold pack_stationeers_string. rewrite Ha. simpl.
  destruct (Z.ltb_spec MAX_PACKED_STRING_BYTES (slen value)); [lia|]. f_equal.
  rewrite <-bytes_length in Hl. unfold MAX_PACKED_STRING_BYTES in *.
  apply (pack_fold _ 0 0); [apply bytes_range|simpl; lia|lia].
Qed.

Lemma of_bytes_bytes s : of_bytes (bytes s) = s.
Proof.
  unfold of_bytes. induction s as [|a s IH]; simpl; [done|]. rewrite IH. f_equal.
  unfold byte, byte_of. by rewrite N2Z.id, ascii_N_embedding.
Qed.

(** ** The CRC-32 *)

Definition u32_range (z : Z) : Prop := 0 ≤ z < 2 ^ 32.

Lemma u32_testbit z : u32_range z → ∀ n, 32 ≤ n → Z.testbit z n = false.
Proof.
  intros [H0 H1] n Hn. destruct (decide (z = 0)) as [->|]; [apply Z.bits_0|].
  apply Z.bits_above_log2; [done|]. apply Z.log2_lt_pow2; [lia|].
  eapply Z.lt_le_trans; [exact H1|]. apply Z.pow_le_mono_r; lia.
Qed.

Lemma u32_of_bits z : 0 ≤ z → (∀ n, 32 ≤ n → Z.testbit z n = false) → u32_range z.
Proof.
  intros Hz Hb. split; [done|]. destruct (decide (z = 0)) as [->|]; [done|].
  apply Z.log2_lt_pow2; [lia|]. destruct (Z.lt_ge_cases (Z.log2 z) 32) as [|Hl]; [done|].
  specialize (Hb _ Hl). rewrite Z.bit_log2 in Hb by lia. done.
Qed.

Lemma u32_lxor a b : u32_range a → u32_range b → u32_range (Z.lxor a b).
Proof.
  intros Ha Hb. apply u32_of_bits; [apply Z.lxor_nonneg; split; intros; [apply Hb|apply Ha]|].
  intros n Hn. by rewrite Z.lxor_spec, (u32_testbit a), (u32_testbit b).
Qed.

Lemma u32_shiftr a : u32_range a → u32_range (Z.shiftr a 1).
Proof.
  intros Ha. apply u32_of_bits; [apply Z.shiftr_nonneg, Ha|].
  intros n Hn. rewrite Z.shiftr_spec by lia. apply u32_testbit; [done|lia].
Qed.

Lemma u32_byte b : 0 ≤ b < 256 → u32_range b.
Proof. unfold u32_range. lia. Qed.

Lemma crc_bit_range c : u32_range c → u32_range (crc_bit c).
Proof.
  intros Hc. unfold crc_bit. destruct (Z.land c 1 =? 1).
  - apply u32_lxor; [by apply u32_shiftr|]. unfold u32_range. lia.
  - by apply u32_shiftr.
Qed.

Lemma land_1_testbit c : (Z.land c 1 =? 1) = Z.testbit c 0.
Proof.
  rewrite Z.bit0_odd. change 1 with (Z.ones 1) at 1. rewrite Z.land_ones by lia.
  rewrite Z.pow_1_r, Zmod_odd. by destruct (Z.odd c).
Qed.

(** The bit shifted out can be read off the result: the division step loses nothing. *)
Lemma crc_bit_low c : u32_range c → Z.testbit (crc_bit c) 31 = Z.testbit c 0.
Proof.
  intros Hc. unfold crc_bit. rewrite land_1_testbit. destruct (Z.testbit c 0).
  - rewrite Z.lxor_spec, Z.shiftr_spec, u32_testbit by (done || lia). done.
  - by rewrite Z.shiftr_spec, u32_testbit by (done || lia).
Qed.

Lemma crc_bit_inj c d : u32_range c → u32_range d → crc_bit c = crc_bit d → c = d.
Proof.
  intros Hc Hd Heq.
  assert (Z.testbit c 0 = Z.testbit d 0) as H0.
  { by rewrite <-crc_bit_low, Heq, crc_bit_low. }
  assert (Z.shiftr c 1 = Z.shiftr d 1) as Hs.
  { unfold crc_bit in Heq. rewrite !land_1_testbit, H0 in Heq.
    destruct (Z.testbit d 0); [|done].
    apply (f_equal (λ z, Z.lxor z 0xEDB88320)) in Heq.
    by rewrite !Z.lxor_assoc, Z.lxor_nilpotent, !Z.lxor_0_r in Heq. }
  apply Z.bits_inj'. intros n Hn. destruct (decide (n = 0)) as [->|]; [done|].
  apply (f_equal (λ z, Z.testbit z (n - 1))) in Hs.
  rewrite !Z.shiftr_spec in Hs by lia. by replace (n - 1 + 1) with n in Hs by lia.
Qed.

Lemma crc_byte_range c b : u32_range c → 0 ≤ b < 256 → u32_range (crc_byte c b).
Proof.
  intros Hc Hb. unfold crc_byte. apply Nat.iter_invariant; [|by apply u32_lxor, u32_byte].
  intros; by apply crc_bit_range.
Qed.

Lemma crc_iter_inj n c d :
  u32_range c → u32_range d → Nat.iter n crc_bit c = Nat.iter n crc_bit d → c = d.
Proof.
  revert c d. induction n as [|n IH]; intros c d Hc Hd; simpl; [done|].
  intros Heq. apply IH; [done..|]. apply crc_bit_inj; [..|done];
    apply Nat.iter_invariant; auto using crc_bit_range.
Qed.

Lemma lxor_cancel_l c x y : Z.lxor c x = Z.lxor c y → x = y.
Proof.
  intros H. apply (f_equal (Z.lxor c)) in H.
  by rewrite <-!Z.lxor_assoc, Z.lxor_nilpotent, !Z.lxor_0_l in H.
Qed.

Lemma crc_byte_inj_l c d b :
  u32_range c → u32_range d → 0 ≤ b < 256 → crc_byte c b = crc_byte d b → c = d.
Proof.
  intros Hc Hd Hb Heq. apply crc_iter_inj in Heq; [|by apply u32_lxor, u32_byte..].
  rewrite !(Z.lxor_comm _ b) in Heq. by apply lxor_cancel_l in Heq.
Qed.

Lemma crc_byte_inj_r c b b' :
  u32_range c → 0 ≤ b < 256 → 0 ≤ b' < 256 → crc_byte c b = crc_byte c b' → b = b'.
Proof.
  intros Hc Hb Hb' Heq. apply crc_iter_inj in Heq; [|by apply u32_lxor, u32_byte..].
  by apply lxor_cancel_l in Heq.
Qed.

Lemma crc_fold_range l c :
  Forall (λ b, 0 ≤ b < 256) l → u32_range c → u32_range (foldl crc_byte c l).
Proof. intros Hl. revert c. induction Hl; intros c Hc; simpl; auto using crc_byte_range. Qed.

Lemma crc_fold_inj l c d :
  Forall (λ b, 0 ≤ b < 256) l → u32_range c → u32_range d →
  foldl crc_byte c l = foldl crc_byte d l → c = d.
Proof.
  intros Hl. revert c d. induction Hl as [|b l Hb Hl IH]; intros c d Hc Hd; simpl; [done|].
  intros Heq. apply IH in Heq; auto using crc_byte_range. by apply crc_byte_inj_l in Heq.
Qed.

Lemma u32_max_range : u32_range U32_MAX.
Proof. unfold u32_range, U32_MAX. lia. Qed.

Lemma bytes_app s t : bytes (s +:+ t) = (bytes s ++ bytes t)%list.
Proof. induction s; simpl; [done|]. by f_equal. Qed.

(** ** Decoding escapes *)

(** A character is a byte that is not a continuation byte and its continuation bytes. *)
Definition char_ok (c : string) : Prop :=
  match c with
  | "" => False
  | String a p => is_continuation a = false ∧ forallb (λ b, (128 <=? b) && (b <? 192)) (bytes p) = true
  end.

(** What a [str] guarantees of its first byte. *)
Definition str_ok (s : string) : Prop :=
  match s with "" => True | String a _ => is_continuation a = false end.

(** The text a literal macro is written with. *)
Definition escape_char (c : string) : list string :=
  if String.eqb c BACKSLASH then [BACKSLASH; BACKSLASH]
  else if String.eqb c DQUOTE then [BACKSLASH; DQUOTE]
  else if String.eqb c NEWLINE then [BACKSLASH; "n"]
  else if String.eqb c RETURN then [BACKSLASH; "r"]
  else if String.eqb c TAB then [BACKSLASH; "t"]
  else [c].

Definition escape_macro (value : string) : string :=
  concat_strings (chars value ≫= escape_char).

Lemma string_app_nil_r s : s +:+ "" = s.
Proof. induction s as [|a s IH]; simpl; [done|]. by rewrite IH. Qed.

Lemma string_app_assoc a b c : (a +:+ b) +:+ c = a +:+ (b +:+ c).
Proof. induction a as [|x a IH]; simpl; [done|]. by rewrite IH. Qed.

Lemma chars_from_cont p s :
  forallb (λ b, (128 <=? b) && (b <? 192)) (bytes p) = true →
  chars_from (p +:+ s) = (p +:+ (chars_from s).1, (chars_from s).2).
Proof.
  induction p as [|a p IH]; simpl; [by destruct (chars_from s)|].
  intros [Ha Hp]%andb_prop. rewrite IH by done. unfold is_continuation. by rewrite Ha.
Qed.

Lemma chars_from_concat cs : Forall char_ok cs → chars_from (concat_strings cs) = ("", cs).
Proof.
  induction 1 as [|c cs Hc _ IH]; [done|]. destruct c as [|a p]; simpl in *; [done|].
  destruct Hc as [Ha Hp]. rewrite chars_from_cont, Ha, IH by done. simpl.
  by rewrite string_app_nil_r.
Qed.

Lemma chars_concat cs : Forall char_ok cs → chars (concat_strings cs) = cs.
Proof. intros H. unfold chars. by rewrite chars_from_concat. Qed.

Lemma chars_from_ok s :
  Forall char_ok (chars_from s).2
  ∧ forallb (λ b, (128 <=? b) && (b <? 192)) (bytes (chars_from s).1) = true.
Proof.
  induction s as [|a s [IH1 IH2]]; simpl; [done|].
  destruct (chars_from s) as [p cs]; simpl in *.
  destruct (is_continuation a) eqn:Ha; simpl; split; try done.
  - unfold is_continuation in Ha. by rewrite Ha.
  - by constructor.
Qed.

Lemma chars_ok s : str_ok s → Forall char_ok (chars s).
Proof.
  destruct s as [|a s]; [done|]. intros Ha. unfold chars.
  pose proof (chars_from_ok (String a s)) as [H _]. simpl in *.
  destruct (chars_from s) as [p cs]. rewrite Ha in *. by simpl in *.
Qed.

Lemma escape_char_ok c : char_ok c → Forall char_ok (escape_char c).
Proof.
  intros Hc. unfold escape_char. repeat case_match; repeat constructor; done.
Qed.

Lemma decode_escape_char c rest :
  decode_macro_chars (escape_char c ++ rest)%list = String.append c <$> decode_macro_chars rest.
Proof.
  unfold escape_char.
  destruct (String.eqb_spec c BACKSLASH) as [->|]; [done|].
  destruct (String.eqb_spec c DQUOTE) as [->|]; [done|].
  destruct (String.eqb_spec c NEWLINE) as [->|]; [done|].
  destruct (String.eqb_spec c RETURN) as [->|]; [done|].
  destruct (String.eqb_spec c TAB) as [->|]; [done|]. simpl.
  by rewrite (proj2 (String.eqb_neq c BACKSLASH)), (proj2 (String.eqb_neq c DQUOTE)).
Qed.

Lemma decode_escape_chars cs :
  decode_macro_chars (cs ≫= escape_char) = Some (concat_strings cs).
Proof.
  induction cs as [|c cs IH]; [done|]. by rewrite bind_cons, decode_escape_char, IH.
Qed.

Lemma decode_escape value : str_ok value → decode_macro_string (escape_macro value) = Some value.
Proof.
  intros Hv. unfold decode_macro_string, escape_macro.
  rewrite chars_concat, decode_escape_chars, concat_chars; [done|].
  apply Forall_bind. eapply Forall_impl; [by apply chars_ok|]. by apply escape_char_ok.
Qed.

Lemma strip_suffix_unfold p s :
  strip_suffix p s =
    if String.eqb s p then Some ""
    else match s with "" => None | String a s' => String a <$> strip_suffix p s' end.
Proof. by destruct s. Qed.

Lemma slength_app s t : (String.length (s +:+ t) = String.length s + String.length t)%nat.
Proof. induction s as [|a s IH]; simpl; [done|]. by rewrite IH. Qed.

Lemma strip_suffix_app s p : p ≠ "" → strip_suffix p (s +:+ p) = Some s.
Proof.
  intros Hp. induction s as [|a s IH]; rewrite strip_suffix_unfold.
  - change ("" +:+ p) with p. by rewrite String.eqb_refl.
  - change (String a s +:+ p) with (String a (s +:+ p)).
    destruct (String.eqb_spec (String a (s +:+ p)) p) as [E|_]; [|by rewrite IH].
    exfalso. apply (f_equal String.length) in E. simpl in E. rewrite slength_app in E. lia.
Qed.

(** ** Properties *)

(** A [STR] literal denotes the big-endian number of its bytes, and the
    conversion of that number to a register value loses nothing: the text is
    recovered from the register. *)
Theorem packed_string_roundtrip (value : string) (packed : Z) :
  pack_stationeers_string value = Ok packed →
  of_bytes (big_endian_digits (String.length value) (to_u64 (f_of_Z packed))) = value.
Proof.
  unfold pack_stationeers_string. destruct (is_ascii value) eqn:Ha; simpl; [|done].
  destruct (Z.ltb_spec MAX_PACKED_STRING_BYTES (slen value)) as [|Hl]; [done|]. intros [= <-].
  pose proof (bytes_range value) as Hr. pose proof (bytes_length value) as Hn.
  unfold MAX_PACKED_STRING_BYTES, slen in *.
  rewrite (pack_fold _ 0 0) by (done || lia). fold (big_endian (bytes value)).
  pose proof (big_endian_bound _ Hr) as Hb.
  assert (256 ^ Z.of_nat (length (bytes value)) ≤ 256 ^ 6) by (apply Z.pow_le_mono_r; lia).
  unfold to_u64. rewrite f_cast_of_Z by (unfold U64_MAX; lia).
  replace (String.length value) with (length (bytes value)) by lia.
  by rewrite big_endian_digits_correct, of_bytes_bytes.
Qed.

Lemma packed_string_roundtrip_witness :
  pack_stationeers_string "Hello!" = Ok 0x48656C6C6F21
  ∧ of_bytes (big_endian_digits 6 (to_u64 (f_of_Z 0x48656C6C6F21))) = "Hello!".
Proof.
  split; [vm_compute; reflexivity|].
  apply (packed_string_roundtrip "Hello!"). vm_compute. reflexivity.
Defined.

(** Names of one length that differ in exactly one byte have different
    hashes, and every hash is a 32-bit value. *)
Theorem crc32_distinguishes (prefix suffix : string) (a b : ascii) :
  a ≠ b →
  stationeers_crc32 (prefix +:+ String a suffix) ≠ stationeers_crc32 (prefix +:+ String b suffix)
  ∧ 0 ≤ stationeers_crc32 (prefix +:+ String a suffix) < 2 ^ 32.
Proof.
  intros Hab. pose proof (bytes_range prefix) as Hp. pose proof (bytes_range suffix) as Hs.
  pose proof (crc_fold_range _ _ Hp u32_max_range) as Hr.
  unfold stationeers_crc32. rewrite !bytes_app. simpl. rewrite !foldl_app. simpl. split.
  - intros Heq. rewrite !(Z.lxor_comm _ U32_MAX) in Heq. apply lxor_cancel_l in Heq.
    apply crc_fold_inj in Heq; [|auto using crc_byte_range, byte_of_range..].
    apply crc_byte_inj_r in Heq; [|done|apply byte_of_range..]. apply Hab.
    rewrite <-(ascii_N_embedding a), <-(ascii_N_embedding b). unfold byte_of in Heq. f_equal. lia.
  - apply u32_lxor; [|apply u32_max_range].
    auto using crc_fold_range, crc_byte_range, byte_of_range.
Qed.

Lemma crc32_distinguishes_witness :
  stationeers_crc32 "Iron" = 3628224418
  ∧ stationeers_crc32 "Iron" ≠ stationeers_crc32 "Icon".
Proof.
  split; [vm_compute; reflexivity|].
  apply (crc32_distinguishes "I" "on" "r"%char "c"%char). discriminate.
Defined.

(** A literal macro written with its text escaped decodes to that text. *)
Theorem literal_macro_roundtrip (value : string) :
  str_ok value →
  parse_literal_macro ("HASH" +:+ "(" +:+ DQUOTE +:+ escape_macro value +:+ DQUOTE +:+ ")")
    = Some {| lm_kind := MacroHash; lm_value := value |}
  ∧ parse_literal_macro ("STR" +:+ "(" +:+ DQUOTE +:+ escape_macro value +:+ DQUOTE +:+ ")")
    = Some {| lm_kind := MacroString; lm_value := value |}.
Proof.
  intros Hv.
  assert (∀ name, macro_body name (name +:+ "(" +:+ DQUOTE +:+ escape_macro value +:+ DQUOTE +:+ ")")
                  = Some (escape_macro value)) as Hbody.
  { intros name. unfold macro_body.
    replace (name +:+ "(" +:+ DQUOTE +:+ escape_macro value +:+ DQUOTE +:+ ")")
      with ((name +:+ "(" +:+ DQUOTE) +:+ (escape_macro value +:+ (DQUOTE +:+ ")")))
      by (by rewrite !string_app_assoc).
    rewrite strip_prefix_app. by apply strip_suffix_app. }
  unfold parse_literal_macro. split.
  - rewrite (Hbody "HASH"). simpl. by rewrite decode_escape.
  - change (macro_body "HASH" _) with (@None string). rewrite (Hbody "STR"). simpl.
    by rewrite decode_escape.
Qed.

Lemma literal_macro_roundtrip_witness :
  parse_literal_macro ("HASH" +:+ "(" +:+ DQUOTE +:+ "A" +:+ BACKSLASH +:+ DQUOTE +:+ "#B" +:+ DQUOTE +:+ ")")
    = Some {| lm_kind := MacroHash; lm_value := "A" +:+ DQUOTE +:+ "#B" |}.
Proof. apply (literal_macro_roundtrip ("A" +:+ DQUOTE +:+ "#B")). vm_compute. reflexivity. Defined.
