(* ===== verification/Syntax.v ===== *)
(** * The line-oriented parser

    [crates/ic10-core/src/lib.rs]: tokens with their byte spans, the classification
    of a line, and the declarations ([collect_declarations]) with the diagnostics
    they raise.  Offsets are byte offsets, as [nat]; line numbers are [Z]. *)

From S2P Require Import Prelude BTree Text F64 Knowledge Literals.
From Stdlib Require Import Sorting.Sorted.
Local Open Scope string_scope.
Local Open Scope Z_scope.

(** Source: [crates/ic10-core/src/lib.rs] [Span] *)
Record Span := { start : nat; stop : nat }.

#[export] Instance span_eq_dec : EqDecision Span.
Proof. solve_decision. Defined.

(** Source: [crates/ic10-core/src/lib.rs] [contains] *)
Definition span_contains (s : Span) (offset : nat) : bool :=
  (start s <=? offset)%nat && (offset <=? stop s)%nat.

(** Source: [crates/ic10-core/src/lib.rs] [Token] *)
Record Token := { text : string; span : Span }.

(** Source: [crates/ic10-core/src/lib.rs] [LineKind] *)
Inductive LineKind :=
  | LineEmpty
  | LineLabel (name : Token)
  | LineInstruction (mnemonic : Token) (operands : list Token).

(** Source: [crates/ic10-core/src/lib.rs] [ParsedLine] *)
Record ParsedLine := {
  pl_number : Z;
  pl_span : Span;
  pl_code_span : Span;
  pl_comment_span : option Span;
  pl_kind : LineKind;
}.

(** Source: [crates/ic10-core/src/lib.rs] [SymbolKind] *)
Inductive SymbolKind := SymLabel | SymDefine | SymAlias.

#[export] Instance symbol_kind_eq_dec : EqDecision SymbolKind.
Proof. solve_decision. Defined.

(** Source: [crates/ic10-core/src/lib.rs] [Symbol] *)
Record Symbol := {
  sy_name : string;
  sy_kind : SymbolKind;
  sy_span : Span;
  sy_value : option string;
  sy_value_span : option Span;
  sy_declaration_line : Z;
}.

(** Source: [crates/ic10-core/src/lib.rs] [SymbolOccurrence] *)
Record SymbolOccurrence := {
  so_name : string;
  so_kind : SymbolKind;
  so_span : Span;
  so_declaration : bool;
}.

(** Source: [crates/ic10-core/src/lib.rs] [Severity] *)
Inductive Severity := SevError | SevWarning | SevInformation | SevHint.

#[export] Instance severity_eq_dec : EqDecision Severity.
Proof. solve_decision. Defined.

(** Source: [crates/ic10-core/src/lib.rs] [Diagnostic] *)
Record Diagnostic := {
  di_span : Span;
  di_severity : Severity;
  di_code : string;
  di_message : string;
  di_unnecessary : bool;
}.

(** Source: [crates/ic10-core/src/lib.rs] [UnusedDiagnosticLevel] *)
Inductive UnusedDiagnosticLevel := UnusedOff | UnusedHint | UnusedWarning.

#[export] Instance unused_eq_dec : EqDecision UnusedDiagnosticLevel.
Proof. solve_decision. Defined.

(** Source: [crates/ic10-core/src/lib.rs] [ProgramBudget] *)
Record ProgramBudget := {
  pb_physical_lines : Z;
  pb_program_lines : Z;
  pb_maximum_program_lines : Z;
  pb_estimated_operations_per_tick : option Z;
  pb_maximum_operations_per_tick : Z;
}.

(** ** Lexing *)

Fixpoint comment_start_from (quoted escaped : bool) (l : list (nat * string)) : option nat :=
  match l with
  | [] => None
  | (index, c) :: l' =>
      if escaped then comment_start_from quoted false l'
      else if String.eqb c BACKSLASH && quoted then comment_start_from quoted true l'
      else if String.eqb c DQUOTE then comment_start_from (negb quoted) escaped l'
      else if String.eqb c "#" && negb quoted then Some index
      else comment_start_from quoted escaped l'
  end.

(** Source: [crates/ic10-core/src/lib.rs] [comment_start] *)
Definition comment_start (line : string) : option nat :=
  comment_start_from false false (char_indices line).

Definition token_at (code : string) (base first last : nat) : Token :=
  {| text := slice first last code;
     span := {| start := base + first; stop := base + last |} |}.

Fixpoint tokenize_from (code : string) (base : nat) (token_start : option nat)
    (quoted escaped : bool) (l : list (nat * string)) : list Token :=
  match l with
  | [] =>
      match token_start with
      | Some first => [token_at code base first (String.length code)]
      | None => []
      end
  | (index, c) :: l' =>
      if is_whitespace c && negb quoted then
        match token_start with
        | Some first =>
            token_at code base first index :: tokenize_from code base None quoted escaped l'
        | None => tokenize_from code base None quoted escaped l'
        end
      else
        let token_start := Some (default index token_start) in
        if escaped then tokenize_from code base token_start quoted false l'
        else if String.eqb c BACKSLASH && quoted then tokenize_from code base token_start quoted true l'
        else if String.eqb c DQUOTE then tokenize_from code base token_start (negb quoted) escaped l'
        else tokenize_from code base token_start quoted escaped l'
  end.

(** Source: [crates/ic10-core/src/lib.rs] [tokenize] *)
Definition tokenize (code : string) (base_offset : nat) : list Token :=
  tokenize_from code base_offset None false false (char_indices code).

(** Source: [crates/ic10-core/src/lib.rs] [classify_line] *)
Definition classify_line (tokens : list Token) : LineKind :=
  match tokens with
  | [] => LineEmpty
  | first :: rest =>
      match rest, strip_suffix ":" (text first) with
      | [], Some name =>
          LineLabel {| text := name;
                       span := {| start := start (span first);
                                  stop := pred (stop (span first)) |} |}
      | _, _ => LineInstruction first rest
      end
  end.

(** A line without its terminator. *)
Definition line_text (line_with_ending : string) : string :=
  let line := default line_with_ending (strip_suffix NEWLINE line_with_ending) in
  default line (strip_suffix RETURN line).

(** One iteration of the loop over [split_inclusive('\n')].
    Source: [crates/ic10-core/src/lib.rs] [parse_with_options] lines 246-272 *)
Definition parse_line (line_number : Z) (offset : nat) (line_with_ending : string) : ParsedLine :=
  let text := line_text line_with_ending in
  let line_end := (offset + String.length text)%nat in
  let comment_relative := comment_start text in
  let code := slice 0 (default (String.length text) comment_relative) text in
  {| pl_number := line_number;
     pl_span := {| start := offset; stop := line_end |};
     pl_code_span := {| start := offset; stop := offset + String.length code |};
     pl_comment_span := (λ first, {| start := offset + first; stop := line_end |}) <$> comment_relative;
     pl_kind := classify_line (tokenize code offset) |}.

Fixpoint parse_lines_from (line_number : Z) (offset : nat) (l : list string) : list ParsedLine :=
  match l with
  | [] => []
  | line :: l' =>
      parse_line line_number offset line
        :: parse_lines_from (line_number + 1) (offset + String.length line)%nat l'
  end.

Definition empty_line (number : Z) (offset : nat) : ParsedLine :=
  let here := {| start := offset; stop := offset |} in
  {| pl_number := number; pl_span := here; pl_code_span := here;
     pl_comment_span := None; pl_kind := LineEmpty |}.

(** Source: [crates/ic10-core/src/lib.rs] [parse_with_options] lines 235-290 *)
Definition parse_lines (source : string) : list ParsedLine :=
  let lines := parse_lines_from 0 0 (split_inclusive_nl source) in
  if String.eqb source "" then (lines ++ [empty_line 0 0])%list
  else if ends_with NEWLINE source
       then (lines ++ [empty_line (Z.of_nat (length lines)) (String.length source)])%list
       else lines.

(** ** Declarations *)

Definition quote (s : string) : string := "`" +:+ s +:+ "`".

Definition diagnostic (sp : Span) (severity : Severity) (code message : string) : Diagnostic :=
  {| di_span := sp; di_severity := severity; di_code := code; di_message := message;
     di_unnecessary := false |}.

Abbreviation Symbols := (BTreeMap string Symbol).

(** Source: [crates/ic10-core/src/lib.rs] [insert_symbol] *)
Definition insert_symbol (symbol : Symbol) (symbols : Symbols) (diagnostics : list Diagnostic) :
    Symbols * list Diagnostic :=
  match bt_get (sy_name symbol) symbols with
  | Some previous =>
      (symbols,
       diagnostics ++
         [diagnostic (sy_span symbol) SevWarning "duplicate-symbol"
            (quote (sy_name symbol) +:+ " is already defined at byte offset "
             +:+ show (Z.of_nat (start (sy_span previous))) +:+ ".")])%list
  | None => (bt_insert (sy_name symbol) symbol symbols, diagnostics)
  end.

(** The diagnostics one operand raises. *)
Definition literal_macro_diagnostics (operand : Token) : list Diagnostic :=
  match parse_literal_macro (text operand) with
  | None =>
      if starts_with "HASH(" (text operand) || starts_with "STR(" (text operand) then
        [diagnostic (span operand) SevError "malformed-literal-macro"
           (quote (text operand) +:+ " must use a quoted literal such as `"
            +:+ (if starts_with "STR(" (text operand) then "STR" else "HASH")
            +:+ "(" +:+ DQUOTE +:+ "text" +:+ DQUOTE +:+ ")`.")]
      else []
  | Some literal =>
      match lm_kind literal with
      | MacroHash => []
      | MacroString =>
          match pack_stationeers_string (lm_value literal) with
          | Ok _ | Panic => []
          | Err NonAscii =>
              [diagnostic (span operand) SevError "non-ascii-string-literal"
                 "`STR` supports ASCII characters only because each character occupies one byte."]
          | Err (TooLong length) =>
              [diagnostic (span operand) SevError "string-literal-too-long"
                 ("`STR` supports at most " +:+ show MAX_PACKED_STRING_BYTES
                  +:+ " characters; this literal has " +:+ show length +:+ ".")]
          end
      end
  end.

(** Source: [crates/ic10-core/src/lib.rs] [analyze_literal_macros] *)
Definition analyze_literal_macros (operands : list Token) (diagnostics : list Diagnostic) :
    list Diagnostic :=
  (diagnostics ++ (operands ≫= literal_macro_diagnostics))%list.

(** The end of the last operand, or of the mnemonic. *)
Definition operands_end (mnemonic : Token) (operands : list Token) : nat :=
  match last operands with Some operand => stop (span operand) | None => stop (span mnemonic) end.

Definition operand_count_message (mnemonic : string) (expected provided : nat) : string :=
  quote mnemonic +:+ " expects " +:+ show (Z.of_nat expected) +:+ " operand"
  +:+ (if (expected =? 1)%nat then "" else "s") +:+ ", but " +:+ show (Z.of_nat provided) +:+ " "
  +:+ (if (provided =? 1)%nat then "was" else "were") +:+ " provided.".

Definition declared_kind (mnemonic : string) : option SymbolKind :=
  if String.eqb mnemonic "define" then Some SymDefine
  else if String.eqb mnemonic "alias" then Some SymAlias
  else None.

(** The [LineKind::Label] arm.
    Source: [crates/ic10-core/src/lib.rs] [collect_declarations] lines 454-478 *)
Definition declare_label (number : Z) (name : Token) (st : Symbols * list Diagnostic) :
    Symbols * list Diagnostic :=
  let '(symbols, diagnostics) := st in
  if negb (is_identifier (text name)) then
    (symbols,
     diagnostics ++ [diagnostic (span name) SevError "invalid-label"
                       (quote (text name) +:+ " is not a valid label name.")])%list
  else
    insert_symbol
      {| sy_name := text name; sy_kind := SymLabel; sy_span := span name; sy_value := None;
         sy_value_span := None; sy_declaration_line := number |}
      symbols diagnostics.

(** The [LineKind::Instruction] arm.
    Source: [crates/ic10-core/src/lib.rs] [collect_declarations] lines 479-553 *)
Definition declare_instruction (kb : KnowledgeBase) (number : Z) (mnemonic : Token)
    (operands : list Token) (st : Symbols * list Diagnostic) : Symbols * list Diagnostic :=
  let '(symbols, diagnostics) := st in
  let diagnostics := analyze_literal_macros operands diagnostics in
  match instruction kb (text mnemonic) with
  | None =>
      (symbols,
       diagnostics ++ [diagnostic (span mnemonic) SevError "unknown-instruction"
                         ("Unknown IC10 instruction " +:+ quote (text mnemonic) +:+ ".")])%list
  | Some instruction =>
      let diagnostics :=
        if in_deprecated instruction
        then (diagnostics ++ [diagnostic (span mnemonic) SevHint "deprecated-instruction"
                                (quote (text mnemonic) +:+ " is deprecated.")])%list
        else diagnostics in
      let diagnostics :=
        if negb (length operands =? length (in_operands instruction))%nat
        then (diagnostics ++
                [diagnostic {| start := start (span mnemonic); stop := operands_end mnemonic operands |}
                   SevError "operand-count"
                   (operand_count_message (text mnemonic) (length (in_operands instruction))
                      (length operands))])%list
        else diagnostics in
      match declared_kind (text mnemonic), operands with
      | Some kind, name :: values =>
          if negb (is_identifier (text name)) then
            (symbols,
             diagnostics ++ [diagnostic (span name) SevError "invalid-symbol"
                               (quote (text name) +:+ " is not a valid symbol name.")])%list
          else
            insert_symbol
              {| sy_name := text name; sy_kind := kind; sy_span := span name;
                 sy_value := text <$> head values; sy_value_span := span <$> head values;
                 sy_declaration_line := number |}
              symbols diagnostics
      | _, _ => (symbols, diagnostics)
      end
  end.

(** Source: [crates/ic10-core/src/lib.rs] [collect_declarations] *)
Definition collect_declarations (kb : KnowledgeBase) (lines : list ParsedLine)
    (st : Symbols * list Diagnostic) : Symbols * list Diagnostic :=
  foldl (λ st line,
    match pl_kind line with
    | LineEmpty => st
    | LineLabel name => declare_label (pl_number line) name st
    | LineInstruction mnemonic operands =>
        declare_instruction kb (pl_number line) mnemonic operands st
    end) st lines.

(** ** Correctness of the tokenizer *)

(** The characters of a line that are not blanks outside quotes. *)
Fixpoint kept_chars (quoted escaped : bool) (cs : list string) : list string :=
  match cs with
  | [] => []
  | c :: cs' =>
      if is_whitespace c && negb quoted then kept_chars quoted escaped cs'
      else
        c :: (if escaped then kept_chars quoted false cs'
              else if String.eqb c BACKSLASH && quoted then kept_chars quoted true cs'
              else if String.eqb c DQUOTE then kept_chars (negb quoted) escaped cs'
              else kept_chars quoted escaped cs')
  end.

(** Tokens in order, apart, each the slice of the code its span names. *)
Definition tokens_ok (code : string) (base : nat) (tokens : list Token) : Prop :=
  Forall (λ t, ∃ a b, a < b ≤ String.length code ∧ t = token_at code base a b)%nat tokens
  ∧ StronglySorted (λ t u, stop (span t) < start (span u))%nat tokens.

Lemma substring_length s a n :
  (a + n ≤ String.length s)%nat → String.length (String.substring a n s) = n.
Proof.
  revert a n. induction s as [|c s IH]; intros [|a] [|n]; simpl; try lia.
  - intros H. by rewrite (IH 0%nat n) by lia.
  - intros H. by rewrite IH by lia.
  - intros H. by rewrite IH by lia.
Qed.

Lemma substring_split s a n k :
  (a + n + k ≤ String.length s)%nat →
  String.substring a (n + k) s = String.substring a n s +:+ String.substring (a + n) k s.
Proof.
  revert a n. induction s as [|c s IH]; intros a n; simpl; intros H.
  - destruct a, n, k; simpl in *; (done || lia).
  - destruct a as [|a]; [|apply (IH a n); lia]. simpl in *.
    destruct n as [|n]; [done|]. simpl.
    rewrite (IH 0%nat n) by lia. done.
Qed.

Lemma slice_split a b c s :
  (a ≤ b ≤ c)%nat → (c ≤ String.length s)%nat → slice a c s = slice a b s +:+ slice b c s.
Proof.
  intros Hab Hc. unfold slice.
  replace (c - a)%nat with ((b - a) + (c - b))%nat by lia.
  rewrite substring_split by lia. by replace (a + (b - a))%nat with b by lia.
Qed.

Lemma substring_0_app s t : String.substring 0 (String.length s) (s +:+ t) = s.
Proof. induction s as [|c s IH]; simpl; [by destruct t|]. by rewrite IH. Qed.

Lemma slice_mid pre c post :
  slice (String.length pre) (String.length pre + String.length c) (pre +:+ (c +:+ post)) = c.
Proof.
  unfold slice. replace (_ + _ - _)%nat with (String.length c) by lia.
  induction pre as [|a pre IH]; simpl; [apply substring_0_app|apply IH].
Qed.

Lemma slice_empty a s : slice a a s = "".
Proof.
  unfold slice. rewrite Nat.sub_diag. revert a. induction s as [|c s IH]; intros [|a]; done || apply IH.
Qed.

(** The loop started after [pre], with a token open at [ts]. *)
Definition loop_state (code pre : string) (cs : list string) (ts : option nat) : Prop :=
  code = pre +:+ concat_strings cs ∧ Forall char_ok cs
  ∧ ∀ f, ts = Some f → (f < String.length pre)%nat.

Definition open_text (code : string) (o : nat) (ts : option nat) : string :=
  match ts with Some f => slice f o code | None => "" end.

Lemma char_ok_length c : char_ok c → (0 < String.length c)%nat.
Proof. destruct c; simpl; [done|lia]. Qed.

Lemma loop_state_next code pre c cs ts :
  loop_state code pre (c :: cs) ts →
  loop_state code (pre +:+ c) cs (Some (default (String.length pre) ts))
  ∧ loop_state code (pre +:+ c) cs None
  ∧ open_text code (String.length (pre +:+ c)) (Some (default (String.length pre) ts))
    = open_text code (String.length pre) ts +:+ c.
Proof.
  intros (Hcode & Hcs & Hf). apply Forall_cons in Hcs as [Hc Hcs].
  pose proof (char_ok_length _ Hc) as Hl. simpl in Hcode. split_and!.
  - split_and!; [by rewrite string_app_assoc|done|]. intros f [= <-]. rewrite slength_app.
    destruct ts as [g|]; simpl; [specialize (Hf _ eq_refl)|]; lia.
  - split_and!; [by rewrite string_app_assoc|done|done].
  - rewrite slength_app. subst code.
    assert (String.length pre + String.length c
            ≤ String.length (pre +:+ (c +:+ concat_strings cs)))%nat by (rewrite !slength_app; lia).
    destruct ts as [g|]; simpl; [|apply slice_mid].
    specialize (Hf _ eq_refl). rewrite (slice_split g (String.length pre)) by lia.
    f_equal. apply slice_mid.
Qed.

Lemma tokenize_from_text code base cs : ∀ pre ts quoted escaped,
  loop_state code pre cs ts →
  concat_strings (text <$> tokenize_from code base ts quoted escaped
                             (char_offsets (String.length pre) cs))
  = open_text code (String.length pre) ts +:+ concat_strings (kept_chars quoted escaped cs).
Proof.
  induction cs as [|c cs IH]; intros pre ts quoted escaped Hst.
  - destruct Hst as (-> & _ & _). simpl. rewrite string_app_nil_r.
    destruct ts; simpl; rewrite ?string_app_nil_r; done.
  - pose proof (loop_state_next _ _ _ _ _ Hst) as (Hopen & Hnone & Htext). simpl.
    rewrite <-slength_app. destruct (is_whitespace c && negb quoted).
    + destruct ts as [f|]; simpl; by rewrite IH.
    + destruct escaped, (String.eqb c BACKSLASH && quoted), (String.eqb c DQUOTE); simpl;
        (rewrite IH by done; rewrite Htext; by rewrite string_app_assoc).
Qed.

Lemma tokenize_from_ok code base cs : ∀ pre ts quoted escaped,
  loop_state code pre cs ts →
  tokens_ok code base (tokenize_from code base ts quoted escaped
                         (char_offsets (String.length pre) cs))
  ∧ Forall (λ t, base + default (String.length pre) ts ≤ start (span t))%nat
           (tokenize_from code base ts quoted escaped (char_offsets (String.length pre) cs)).
Proof.
  induction cs as [|c cs IH]; intros pre ts quoted escaped Hst.
  - destruct Hst as (-> & _ & Hf). simpl. rewrite string_app_nil_r.
    destruct ts as [f|]; [|by split; [split|]; constructor].
    specialize (Hf _ eq_refl). split; [split|]; (constructor; [|constructor]); simpl.
    + exists f, (String.length pre). split; [lia|done].
    + constructor.
    + lia.
  - pose proof (loop_state_next _ _ _ _ _ Hst) as (Hopen & Hnone & _).
    destruct Hst as (Hcode & Hcs & Hf). apply Forall_cons in Hcs as [Hc _].
    pose proof (char_ok_length _ Hc) as Hl. simpl. rewrite <-slength_app.
    assert (String.length pre + String.length c ≤ String.length code)%nat as Hlen
      by (subst code; simpl; rewrite !slength_app; lia).
    destruct (is_whitespace c && negb quoted).
    + destruct (IH _ _ quoted escaped Hnone) as [[H1 H2] H3]. simpl in H3.
      set (tail := tokenize_from _ _ None _ _ _) in *.
      rewrite slength_app in H3. destruct ts as [f|]; simpl.
      * specialize (Hf _ eq_refl). split; [split|]; constructor; try done; simpl; try lia.
        -- exists f, (String.length pre). split; [lia|done].
        -- eapply Forall_impl; [exact H3|]. simpl. lia.
        -- eapply Forall_impl; [exact H3|]. simpl. lia.
      * split; [done|]. eapply Forall_impl; [exact H3|]. simpl. lia.
    + destruct escaped, (String.eqb c BACKSLASH && quoted), (String.eqb c DQUOTE);
        apply (IH _ _ _ _ Hopen).
Qed.

(** The tokens of a line are the maximal runs of its characters outside
    unquoted blanks: each token is the slice of the line its span names, the spans
    follow one another without touching, and together the tokens hold exactly the
    characters that are not unquoted blanks. *)
Theorem tokenize_correct (code : string) (base : nat) :
  str_ok code →
  tokens_ok code base (tokenize code base)
  ∧ concat_strings (text <$> tokenize code base)
    = concat_strings (kept_chars false false (chars code)).
Proof.
  intros Hok.
  assert (loop_state code "" (chars code) None) as Hst.
  { split_and!; [simpl; by rewrite concat_chars|by apply chars_ok|done]. }
  split.
  - apply (tokenize_from_ok code base (chars code) "" None false false Hst).
  - apply (tokenize_from_text code base (chars code) "" None false false Hst).
Qed.

Lemma tokenize_correct_witness :
  let code := "  move r0 HASH(" +:+ DQUOTE +:+ "A B" +:+ DQUOTE +:+ ")" in
  tokens_ok code 10 (tokenize code 10)
  ∧ text <$> tokenize code 10 = ["move"; "r0"; "HASH(" +:+ DQUOTE +:+ "A B" +:+ DQUOTE +:+ ")"].
Proof.
  split; [|vm_compute; reflexivity]. apply tokenize_correct. vm_compute. reflexivity.
Defined.
