(* ===== verification/Analysis.v ===== *)
(** * Document analysis

    [crates/ic10-core/src/analysis.rs]: the checks a parsed document goes through:
    symbol cycles, operand kinds, prefab access, unused symbols, control flow,
    straight-line register and stack use, and the budget; and [Document::parse],
    which runs them.  Each pass returns the diagnostics it appends.  A loop that
    follows names runs on fuel; its completeness is a lemma below it. *)

From S2P Require Import Prelude BTree Text F64 Knowledge Literals Syntax.
Local Open Scope string_scope.
Local Open Scope Z_scope.

(** Source: [crates/ic10-core/src/analysis.rs] [OperandKind] *)
Inductive OperandKind :=
  | KRegister | KRegisterOrNumber | KDeviceRegisterOrId | KLogicType | KDeviceHash | KLogicSlotType
  | KSlotIndex | KBatchMode | KInteger | KRegisterOrId | KDevice | KNameHash | KString | KNumber
  | KRegisterOrDevice | KReagentMode.

(** Source: [crates/ic10-core/src/analysis.rs] [from_generated] *)
Definition from_generated (value : string) : option OperandKind :=
  bt_get value
    (bt_collect
      [("r?", KRegister); ("r?|num", KRegisterOrNumber); ("d?|r?|id", KDeviceRegisterOrId);
       ("logicType", KLogicType); ("deviceHash", KDeviceHash); ("logicSlotType", KLogicSlotType);
       ("slotIndex", KSlotIndex); ("batchMode", KBatchMode); ("int", KInteger);
       ("r?|id", KRegisterOrId); ("d?", KDevice); ("nameHash", KNameHash); ("str", KString);
       ("num", KNumber); ("r?|d?", KRegisterOrDevice); ("reagentMode", KReagentMode)]).

(** Source: [crates/ic10-core/src/analysis.rs] [description] *)
Definition kind_description (kind : OperandKind) : string :=
  match kind with
  | KRegister => "a writable register"
  | KRegisterOrNumber => "a register or numeric value"
  | KDeviceRegisterOrId => "a device, register, or reference id"
  | KLogicType => "a logic type"
  | KDeviceHash => "a device hash"
  | KLogicSlotType => "a slot logic type"
  | KSlotIndex => "a non-negative slot index"
  | KBatchMode => "a batch mode"
  | KInteger => "an integer or branch label"
  | KRegisterOrId => "a register or reference id"
  | KDevice => "a device reference"
  | KNameHash => "a name hash"
  | KString => "an identifier"
  | KNumber => "a numeric value"
  | KRegisterOrDevice => "a register or device reference"
  | KReagentMode => "a reagent mode"
  end.

(** Source: [crates/ic10-core/src/lib.rs] [AnalysisOptions] *)
Record AnalysisOptions := { ao_unused : UnusedDiagnosticLevel }.

(** Source: [crates/ic10-core/src/lib.rs] [AnalysisOptions::default] *)
Definition default_options : AnalysisOptions := {| ao_unused := UnusedHint |}.

(** Source: [crates/ic10-core/src/analysis.rs] [AnalysisResult] *)
Record AnalysisResult := {
  an_diagnostics : list Diagnostic;
  an_occurrences : list SymbolOccurrence;
  an_budget : ProgramBudget;
}.

(** The unnecessary-code marker on a diagnostic. *)
Definition unnecessary (d : Diagnostic) : Diagnostic :=
  {| di_span := di_span d; di_severity := di_severity d; di_code := di_code d;
     di_message := di_message d; di_unnecessary := true |}.

(** ** Following names *)

(** The loop of [resolve_symbol_value]; the outer [None] is a loop cut short. *)
Fixpoint follow_symbols (fuel : nat) (symbols : Symbols) (seen : gset string) (current : string) :
    option (option string) :=
  match fuel with
  | O => None
  | S fuel' =>
      match bt_get current symbols with
      | None => Some (Some current)
      | Some symbol =>
          if decide (current ∈ seen) then Some None
          else match sy_value symbol with
               | None => Some None
               | Some next => follow_symbols fuel' symbols ({[current]} ∪ seen) next
               end
      end
  end.

(** Source: [crates/ic10-core/src/analysis.rs] [resolve_symbol_value] *)
Definition resolve_symbol_value (token : string) (symbols : Symbols) : option string :=
  default None (follow_symbols (S (length symbols)) symbols ∅ token).

(** Source: [crates/ic10-core/src/analysis.rs] [resolves_to_register] *)
Definition resolves_to_register (token : string) (symbols : Symbols) : bool :=
  is_register token
  || match resolve_symbol_value token symbols with
     | Some value => negb (String.eqb value token) && is_register value
     | None => false
     end.

(** Source: [crates/ic10-core/src/analysis.rs] [resolves_to_device] *)
Definition resolves_to_device (token : string) (symbols : Symbols) : bool :=
  let value := default token (resolve_symbol_value token symbols) in
  let base := match split_once (byte 58) value with Some (base, _) => base | None => value end in
  String.eqb base "db"
  || match strip_prefix "d" base ≫= parse_u8 with Some number => number <=? 5 | None => false end
  || match strip_prefix "d" base with Some rest => is_register rest | None => false end.

(** A token that is a number on its own. *)
Definition is_number_token (kb : KnowledgeBase) (token : string) : bool :=
  match parse_numeric_literal token with Some _ => true | None => false end
  || match parse_literal_macro token with Some _ => true | None => false end
  || bt_contains_key token (la_constants (kb_language kb))
  || match enum_value kb token with Some _ => true | None => false end.

Fixpoint number_chain (fuel : nat) (symbols : Symbols) (kb : KnowledgeBase) (seen : gset string)
    (token : string) : option bool :=
  match fuel with
  | O => None
  | S fuel' =>
      if is_number_token kb token then Some true
      else match bt_get token symbols with
           | None => Some false
           | Some symbol =>
               if bool_decide (sy_kind symbol = SymLabel) || bool_decide (token ∈ seen) then Some false
               else match sy_value symbol with
                    | None => Some false
                    | Some value => number_chain fuel' symbols kb ({[token]} ∪ seen) value
                    end
           end
  end.

(** Source: [crates/ic10-core/src/analysis.rs] [resolves_to_number] *)
Definition resolves_to_number (token : string) (symbols : Symbols) (kb : KnowledgeBase) : bool :=
  default false (number_chain (S (length symbols)) symbols kb ∅ token).

(** The body of [resolve_number], with its recursive call as an argument. *)
Definition resolve_number_with (again : string → option f64) (token : string) (symbols : Symbols)
    (kb : KnowledgeBase) : option f64 :=
  match parse_numeric_literal token with
  | Some value => Some value
  | None =>
      match parse_literal_macro token with
      | Some literal =>
          match lm_kind literal with
          | MacroHash => Some (f_of_Z (stationeers_crc32 (lm_value literal)))
          | MacroString =>
              match pack_stationeers_string (lm_value literal) with
              | Ok value => Some (f_of_Z value)
              | _ => None
              end
          end
      | None =>
          match bt_get token (la_constants (kb_language kb)) with
          | Some constant =>
              option_or (as_f64 (co_value constant)) (as_str (co_value constant) ≫= parse_numeric_literal)
          | None =>
              match enum_value kb token with
              | Some (_, value) => as_f64 (ev_value value)
              | None =>
                  resolved ← resolve_symbol_value token symbols;
                  if String.eqb resolved token then None else again resolved
              end
          end
      end
  end.

(** The recursive call is made on the end of a chain, which no symbol continues, so
    it makes none itself ([resolve_number_unfold]).
    Source: [crates/ic10-core/src/analysis.rs] [resolve_number] *)
Definition resolve_number (token : string) (symbols : Symbols) (kb : KnowledgeBase) : option f64 :=
  resolve_number_with
    (λ resolved, resolve_number_with (λ _, None) resolved symbols kb) token symbols kb.

(** Source: [crates/ic10-core/src/analysis.rs] [resolved_direct_register] *)
Definition resolved_direct_register (token : string) (symbols : Symbols) : option string :=
  let resolved := default token (resolve_symbol_value token symbols) in
  if is_register resolved && negb (starts_with "rr" resolved) then Some resolved else None.

(** ** Occurrences and cycles *)

(** [sort_by_key] of the start of the span *)
Definition sort_occurrences (l : list SymbolOccurrence) : list SymbolOccurrence :=
  sort_by (λ a b, (start (so_span a) <? start (so_span b))%nat) l.

Definition occurrence_of (symbol : Symbol) (sp : Span) (declaration : bool) : SymbolOccurrence :=
  {| so_name := sy_name symbol; so_kind := sy_kind symbol; so_span := sp; so_declaration := declaration |}.

Definition operand_occurrence (symbols : Symbols) (operand : Token) : option SymbolOccurrence :=
  symbol ← bt_get (text operand) symbols;
  if bool_decide (span operand = sy_span symbol) then None
  else Some (occurrence_of symbol (span operand) false).

(** Source: [crates/ic10-core/src/analysis.rs] [collect_occurrences] *)
Definition collect_occurrences (lines : list ParsedLine) (symbols : Symbols) : list SymbolOccurrence :=
  sort_occurrences
    (((λ symbol, occurrence_of symbol (sy_span symbol) true) <$> bt_values symbols)
     ++ (lines ≫= λ line,
           match pl_kind line with
           | LineInstruction _ operands => omap (operand_occurrence symbols) operands
           | _ => []
           end))%list.

(** Whether the chain from [current] comes back to a name it has left. *)
Fixpoint chain_repeats (fuel : nat) (symbols : Symbols) (seen : gset string) (current : Symbol) : option bool :=
  match fuel with
  | O => None
  | S fuel' =>
      match sy_value current ≫= λ next_name, bt_get next_name symbols with
      | None => Some false
      | Some next =>
          if decide (sy_name current ∈ seen) then Some true
          else chain_repeats fuel' symbols ({[sy_name current]} ∪ seen) next
      end
  end.

(** Source: [crates/ic10-core/src/analysis.rs] [validate_symbol_cycles] *)
Definition validate_symbol_cycles (symbols : Symbols) : list Diagnostic :=
  bt_values symbols ≫= λ symbol,
    if default false (chain_repeats (S (S (length symbols))) symbols ∅ symbol)
    then [diagnostic (default (sy_span symbol) (sy_value_span symbol)) SevError "symbol-cycle"
            (quote (sy_name symbol) +:+ " is part of a circular alias or define chain.")]
    else [].

(** ** Operands *)

Definition enum_listing (kb : KnowledgeBase) (enum_name : string) : BTreeMap string EnumValue :=
  match bt_get enum_name (la_enums (kb_language kb)) with Some listing => el_values listing | None => [] end.

(** Source: [crates/ic10-core/src/analysis.rs] [enum_contains] *)
Definition enum_contains (kb : KnowledgeBase) (enum_name token : string) : bool :=
  bt_contains_key token (enum_listing kb enum_name).

(** Source: [crates/ic10-core/src/analysis.rs] [enum_names] *)
Definition enum_names (kb : KnowledgeBase) (enum_name : string) : list string :=
  bt_keys (enum_listing kb enum_name).

Definition is_whole (value : f64) : bool := f_eq (f_fract value) f_zero.

Definition holds {A} (p : A → bool) (o : option A) : bool :=
  match o with Some a => p a | None => false end.

(** Source: [crates/ic10-core/src/analysis.rs] [operand_is_valid] *)
Definition operand_is_valid (token : string) (kind : OperandKind) (symbols : Symbols) (kb : KnowledgeBase) : bool :=
  let register := resolves_to_register token symbols in
  let number := resolves_to_number token symbols kb in
  match kind with
  | KRegister => register
  | KRegisterOrNumber | KNumber | KRegisterOrId => register || number
  | KDeviceRegisterOrId => resolves_to_device token symbols || register || number
  | KLogicType => number || enum_contains kb "LogicType" token
  | KLogicSlotType => number || enum_contains kb "LogicSlotType" token
  | KBatchMode => number || enum_contains kb "LogicBatchMethod" token
  | KReagentMode => number || enum_contains kb "LogicReagentMode" token
  | KDeviceHash | KNameHash => number || holds (λ _, true) (parse_literal_macro token)
  | KSlotIndex => register || holds (λ value, f_ge value f_zero && is_whole value) (resolve_number token symbols kb)
  | KInteger =>
      register
      || holds (λ symbol, bool_decide (sy_kind symbol = SymLabel)) (bt_get token symbols)
      || holds is_whole (resolve_number token symbols kb)
  | KDevice => resolves_to_device token symbols
  | KString => is_identifier token
  | KRegisterOrDevice => register || resolves_to_device token symbols
  end.

(** Source: [crates/ic10-core/src/analysis.rs] [looks_incomplete] *)
Definition looks_incomplete (token : string) (kind : OperandKind) (symbols : Symbols) (kb : KnowledgeBase) : bool :=
  String.eqb token ""
  || existsb (String.eqb token) ["r"; "rr"; "d"; "dr"; "+"; "-"; "$"; "%"]
  || (starts_with "HASH(" token && negb (ends_with ")" token))
  || (starts_with "STR(" token && negb (ends_with ")" token))
  || existsb (λ candidate, starts_with token candidate)
       (bt_keys symbols ++ bt_keys (la_constants (kb_language kb))
        ++ match kind with
           | KLogicType => enum_names kb "LogicType"
           | KLogicSlotType => enum_names kb "LogicSlotType"
           | KBatchMode => enum_names kb "LogicBatchMethod"
           | KReagentMode => enum_names kb "LogicReagentMode"
           | _ => []
           end)%list.

(** Source: [crates/ic10-core/src/analysis.rs] [is_branch] *)
Definition is_branch (mnemonic : string) : bool :=
  String.eqb mnemonic "jr" || is_absolute_branch mnemonic || starts_with "br" mnemonic.

(** Source: [crates/ic10-core/src/analysis.rs] [is_unconditional_branch] *)
Definition is_unconditional_branch (mnemonic : string) : bool :=
  existsb (String.eqb mnemonic) ["j"; "jr"].

(** Source: [crates/ic10-core/src/analysis.rs] [is_link_branch] *)
Definition is_link_branch (mnemonic : string) : bool :=
  String.eqb mnemonic "jal" || ends_with "al" mnemonic.

(** The check of one operand against its generated type. *)
Definition operand_diagnostics (symbols : Symbols) (kb : KnowledgeBase) (operand : Token) (generated : OperandData) :
    list Diagnostic :=
  match from_generated (od_operand_type generated) with
  | None =>
      [diagnostic (span operand) SevError "unsupported-operand-kind"
         ("The generated operand type " +:+ quote (od_operand_type generated) +:+ " has no validator.")]
  | Some kind =>
      if operand_is_valid (text operand) kind symbols kb || looks_incomplete (text operand) kind symbols kb
      then []
      else [diagnostic (span operand) SevError "invalid-operand"
              (quote (od_label generated) +:+ " expects " +:+ kind_description kind +:+ "; "
               +:+ quote (text operand) +:+ " is not valid here.")]
  end.

Definition undefined_label_diagnostics (symbols : Symbols) (kb : KnowledgeBase) (mnemonic : string)
    (operands : list Token) : list Diagnostic :=
  match last operands with
  | Some target =>
      if is_branch mnemonic && is_identifier (text target) && negb (bt_contains_key (text target) symbols)
         && negb (bt_contains_key (text target) (la_constants (kb_language kb)))
         && negb (is_register (text target))
      then [diagnostic (span target) SevWarning "undefined-label"
              ("No label or define named " +:+ quote (text target) +:+ " exists.")]
      else []
  | None => []
  end.

(** Source: [crates/ic10-core/src/analysis.rs] [validate_operands] *)
Definition validate_operands (lines : list ParsedLine) (symbols : Symbols) (kb : KnowledgeBase) : list Diagnostic :=
  lines ≫= λ line,
    match pl_kind line with
    | LineInstruction mnemonic operands =>
        match instruction kb (text mnemonic) with
        | Some instruction =>
            ((zip operands (in_operands instruction) ≫= λ '(operand, generated),
                operand_diagnostics symbols kb operand generated)
             ++ undefined_label_diagnostics symbols kb (text mnemonic) operands)%list
        | None => []
        end
    | _ => []
    end.

(** The positions of the prefab hash, the slot and the field of a batch
    instruction, and whether it writes. *)
Definition batch_shape (mnemonic : string) : option (nat * option nat * nat * bool) :=
  bt_get mnemonic
    (bt_collect
      [("lb", (1, None, 2, false)); ("lbn", (1, None, 3, false)); ("lbs", (1, Some 2, 3, false));
       ("lbns", (1, Some 3, 4, false)); ("sb", (0, None, 1, true)); ("sbn", (0, None, 2, true));
       ("sbs", (0, Some 1, 2, true))])%nat.

Definition known_number (symbols : Symbols) (kb : KnowledgeBase) (operands : list Token) (index : nat) : option f64 :=
  operands !! index ≫= λ token, resolve_number (text token) symbols kb.

Definition filter_option {A} (p : A → bool) (o : option A) : option A :=
  match o with Some a => if p a then Some a else None | None => None end.

(** The access the field has, once the fields it belongs to are known. *)
Definition field_diagnostics (device : DeviceData) (fields : BTreeMap string LogicAccess) (field : Token)
    (write : bool) : list Diagnostic :=
  let name := dd_display_name device +:+ " (" +:+ quote (dd_prefab_name device) +:+ ")" in
  match bt_get (text field) fields with
  | None =>
      [diagnostic (span field) SevError "unsupported-prefab-logic-type"
         (name +:+ " does not expose logic type " +:+ quote (text field) +:+ ".")]
  | Some access =>
      if (write && negb (ac_write access)) || (negb write && negb (ac_read access))
      then [diagnostic (span field) SevError
              (if write then "read-only-prefab-logic-type" else "write-only-prefab-logic-type")
              (quote (text field) +:+ " is not " +:+ (if write then "writable" else "readable")
               +:+ " on " +:+ name +:+ ".")]
      else []
  end.

(** Source: [crates/ic10-core/src/analysis.rs] [validate_known_batch_access] lines 281-375 *)
Definition batch_diagnostics (symbols : Symbols) (kb : KnowledgeBase) (mnemonic : string) (operands : list Token) :
    list Diagnostic :=
  default [] (
    '(hash_index, slot_index, field_index, write) ← batch_shape mnemonic;
    hash ← to_i32 <$> filter_option
             (λ value, f_is_finite value && is_whole value && f_ge value (f_of_Z I32_MIN) && f_le value (f_of_Z I32_MAX))
             (known_number symbols kb operands hash_index);
    device ← device_by_hash kb hash;
    field ← operands !! field_index;
    if negb (enum_contains kb "LogicType" (text field)) then None
    else
      match slot_index with
      | None => Some (field_diagnostics device (dd_logic_types device) field write)
      | Some slot_index =>
          slot ← to_i64 <$> filter_option (λ value, f_is_finite value && is_whole value && f_ge value f_zero)
                              (known_number symbols kb operands slot_index);
          match bt_get (show slot) (dd_slots device) with
          | Some metadata => Some (field_diagnostics device (ds_logic_types metadata) field write)
          | None =>
              token ← operands !! slot_index;
              Some [diagnostic (span token) SevError "unsupported-prefab-slot"
                      (dd_display_name device +:+ " (" +:+ quote (dd_prefab_name device) +:+ ") has no slot "
                       +:+ quote (show slot) +:+ ".")]
          end
      end).

(** Source: [crates/ic10-core/src/analysis.rs] [validate_known_batch_access] lines 271-280 *)
Definition validate_known_batch_access (lines : list ParsedLine) (symbols : Symbols) (kb : KnowledgeBase) :
    list Diagnostic :=
  lines ≫= λ line,
    match pl_kind line with
    | LineInstruction mnemonic operands => batch_diagnostics symbols kb (text mnemonic) operands
    | _ => []
    end.

(** ** Unused symbols *)

Definition unused_severity (options : AnalysisOptions) : option Severity :=
  match ao_unused options with
  | UnusedOff => None
  | UnusedHint => Some SevHint
  | UnusedWarning => Some SevWarning
  end.

Definition kind_name (kind : SymbolKind) : string :=
  match kind with SymLabel => "label" | SymDefine => "define" | SymAlias => "alias" end.

(** Source: [crates/ic10-core/src/analysis.rs] [add_unused_symbol_diagnostics] *)
Definition add_unused_symbol_diagnostics (symbols : Symbols) (occurrences : list SymbolOccurrence)
    (options : AnalysisOptions) : list Diagnostic :=
  match unused_severity options with
  | None => []
  | Some severity =>
      bt_values symbols ≫= λ symbol,
        if starts_with "_" (sy_name symbol)
           || existsb (λ o, String.eqb (so_name o) (sy_name symbol) && negb (so_declaration o)) occurrences
        then []
        else [unnecessary (diagnostic (sy_span symbol) severity ("unused-" +:+ kind_name (sy_kind symbol))
                ("The " +:+ kind_name (sy_kind symbol) +:+ " " +:+ quote (sy_name symbol) +:+ " is never used."))]
  end.

(** ** Control flow *)

(** Source: [crates/ic10-core/src/analysis.rs] [branch_target] *)
Definition branch_target (line : Z) (mnemonic token : string) (symbols : Symbols) (kb : KnowledgeBase) : option Z :=
  match filter_option (λ symbol, bool_decide (sy_kind symbol = SymLabel)) (bt_get token symbols) with
  | Some symbol => Some (sy_declaration_line symbol)
  | None =>
      value ← resolve_number token symbols kb;
      if negb (f_is_finite value) || negb (is_whole value) then None
      else in_range 0 U64_MAX
             (Some (if String.eqb mnemonic "jr" || starts_with "br" mnemonic then line + to_i64 value
                    else to_i64 value))
  end.

Definition tests_of_two : BTreeMap string (f64 → f64 → bool) :=
  bt_collect [("eq", f_eq); ("ne", f_ne); ("gt", f_gt); ("ge", f_ge); ("lt", f_lt); ("le", f_le)].

Definition tests_of_one : BTreeMap string (f64 → bool) :=
  bt_collect [("eqz", λ a, f_eq a f_zero); ("nez", λ a, f_ne a f_zero); ("gtz", λ a, f_gt a f_zero);
              ("gez", λ a, f_ge a f_zero); ("ltz", λ a, f_lt a f_zero); ("lez", λ a, f_le a f_zero);
              ("nan", f_is_nan)].

(** Source: [crates/ic10-core/src/analysis.rs] [constant_branch_result] *)
Definition constant_branch_result (mnemonic : string) (operands : list Token) (symbols : Symbols)
    (kb : KnowledgeBase) : option bool :=
  stem ← option_or (strip_prefix "br" mnemonic) (strip_prefix "b" mnemonic);
  let name := default stem (strip_suffix "al" stem) in
  values ← mapM (λ operand, resolve_number (text operand) symbols kb) (removelast operands);
  match values with
  | [a; b] => (λ test, test a b) <$> bt_get name tests_of_two
  | [a] => (λ test, test a) <$> bt_get name tests_of_one
  | _ => None
  end.

(** Source: [crates/ic10-core/src/analysis.rs] [is_tick_boundary] *)
Definition is_tick_boundary (line : ParsedLine) : bool :=
  match pl_kind line with
  | LineInstruction mnemonic _ => existsb (String.eqb (text mnemonic)) ["yield"; "sleep"; "hcf"]
  | _ => false
  end.

Definition next_line (lines : list ParsedLine) (index : nat) : list nat :=
  if (S index <? length lines)%nat then [S index] else [].

(** What a branch resolves to, whether or not there is such a line. *)
Definition branch_destination (symbols : Symbols) (kb : KnowledgeBase) (index : nat) (mnemonic : Token)
    (operands : list Token) : option Z :=
  last operands ≫= λ operand, branch_target (Z.of_nat index) (text mnemonic) (text operand) symbols kb.

(** The line a branch goes to, when it is known and exists. *)
Definition branch_line (lines : list ParsedLine) (symbols : Symbols) (kb : KnowledgeBase) (index : nat)
    (mnemonic : Token) (operands : list Token) : option nat :=
  Z.to_nat <$> filter_option (λ target, target <? Z.of_nat (length lines))
                 (branch_destination symbols kb index mnemonic operands).

(** The successors of a line.
    Source: [crates/ic10-core/src/analysis.rs] [analyze_control_flow] lines 664-731 *)
Definition line_edges (lines : list ParsedLine) (symbols : Symbols) (kb : KnowledgeBase) (index : nat)
    (line : ParsedLine) : list nat :=
  let next := next_line lines index in
  match pl_kind line with
  | LineInstruction mnemonic operands =>
      if String.eqb (text mnemonic) "hcf" then []
      else if negb (is_branch (text mnemonic)) then next
      else
        (match branch_line lines symbols kb index mnemonic operands with Some target => [target] | None => [] end
         ++ if negb (is_unconditional_branch (text mnemonic)) || is_link_branch (text mnemonic)
            then next else [])%list
  | _ => next
  end.

(** Whether a branch may go anywhere. *)
Definition dynamic_branch (lines : list ParsedLine) (symbols : Symbols) (kb : KnowledgeBase) (index : nat)
    (line : ParsedLine) : bool :=
  match pl_kind line with
  | LineInstruction mnemonic operands =>
      negb (String.eqb (text mnemonic) "hcf") && is_branch (text mnemonic)
      && match branch_line lines symbols kb index mnemonic operands with
         | Some _ => false
         | None =>
             holds (λ operand, resolves_to_register (text operand) symbols
                      || holds (λ symbol, bool_decide (sy_kind symbol = SymAlias)) (bt_get (text operand) symbols))
               (last operands)
         end
  | _ => false
  end.

(** The diagnostics on one branch. *)
Definition branch_diagnostics (lines : list ParsedLine) (symbols : Symbols) (kb : KnowledgeBase) (index : nat)
    (mnemonic : Token) (operands : list Token) : list Diagnostic :=
  (match filter_option (λ target, Z.of_nat (length lines) <=? target)
           (branch_destination symbols kb index mnemonic operands), last operands with
   | Some target, Some operand =>
       [diagnostic (span operand) SevError "invalid-branch-target"
          ("Branch destination " +:+ show target +:+ " is outside this " +:+ show (Z.of_nat (length lines))
           +:+ "-line program.")]
   | _, _ => []
   end
   ++ match branch_line lines symbols kb index mnemonic operands with
      | Some target =>
          if is_unconditional_branch (text mnemonic) && (target <=? index)%nat
             && negb (existsb is_tick_boundary (take (S index - target) (drop target lines)))
          then [diagnostic (span mnemonic) SevWarning "tight-loop"
                  ("This loop has no yield or sleep and can consume the "
                   +:+ show (ar_maximum_instructions_per_tick (la_architecture (kb_language kb)))
                   +:+ " operation per-tick budget.")]
          else []
      | None => []
      end
   ++ match constant_branch_result (text mnemonic) operands symbols kb with
      | Some constant =>
          [diagnostic (span mnemonic) SevHint "constant-branch"
             ("This branch condition is always " +:+ (if constant then "true" else "false")
              +:+ " for the supplied constants.")]
      | None => []
      end)%list.

(** The breadth-first search: a line is marked when it leaves the queue; [None] is a
    search cut short.
    Source: [crates/ic10-core/src/analysis.rs] [analyze_control_flow] lines 750-758 *)
Fixpoint mark_reachable (fuel : nat) (edges : list (list nat)) (reachable : list bool) (queue : list nat) :
    option (list bool) :=
  match queue with
  | [] => Some reachable
  | index :: queue' =>
      match fuel with
      | O => None
      | S fuel' =>
          if default false (reachable !! index) then mark_reachable fuel' edges reachable queue'
          else mark_reachable fuel' edges (<[index := true]> reachable)
                 (queue' ++ default [] (edges !! index))
      end
  end.

(** The queue gains each list of successors at most once. *)
Definition search_fuel (edges : list (list nat)) : nat := S (length (mjoin edges)).

Definition reachable_lines (edges : list (list nat)) : list bool :=
  default [] (mark_reachable (search_fuel edges) edges (replicate (length edges) false) [0%nat]).

Definition unreachable_diagnostics (severity : Severity) (lines : list ParsedLine) (reachable : list bool) :
    list Diagnostic :=
  zip lines reachable ≫= λ '(line, reached),
    match pl_kind line with
    | LineEmpty => []
    | _ => if reached : bool then []
           else [unnecessary (diagnostic (pl_code_span line) severity "unreachable-code"
                   "This line cannot be reached from the program entry point.")]
    end.

(** The lines of a callee up to its return, its next call or the next label.
    Source: [crates/ic10-core/src/analysis.rs] [analyze_return_address_clobbering] lines 1038-1071 *)
Fixpoint clobber_diagnostics (symbols : Symbols) (target : Z) (saved : bool) (lines : list ParsedLine) :
    list Diagnostic :=
  match lines with
  | [] => []
  | nested :: rest =>
      match pl_kind nested with
      | LineEmpty => clobber_diagnostics symbols target saved rest
      | LineLabel _ =>
          if negb (pl_number nested =? target) then [] else clobber_diagnostics symbols target saved rest
      | LineInstruction mnemonic operands =>
          let on_ra := holds (λ operand, holds (String.eqb "ra") (resolved_direct_register (text operand) symbols))
                         (head operands) in
          if String.eqb (text mnemonic) "push" && on_ra then clobber_diagnostics symbols target true rest
          else if is_link_branch (text mnemonic) && negb saved then
            [diagnostic (span mnemonic) SevWarning "return-address-clobber"
               "This nested call can overwrite `ra`; save `ra` before calling and restore it before returning."]
          else if String.eqb (text mnemonic) "j" && on_ra then []
          else clobber_diagnostics symbols target saved rest
      end
  end.

(** Source: [crates/ic10-core/src/analysis.rs] [analyze_return_address_clobbering] *)
Definition analyze_return_address_clobbering (lines : list ParsedLine) (symbols : Symbols) (kb : KnowledgeBase) :
    list Diagnostic :=
  enumerate lines ≫= λ '(caller_line, line),
    match pl_kind line with
    | LineInstruction mnemonic operands =>
        if is_link_branch (text mnemonic) then
          match branch_line lines symbols kb caller_line mnemonic operands with
          | Some target => clobber_diagnostics symbols (Z.of_nat target) false (drop target lines)
          | None => []
          end
        else []
    | _ => []
    end.

Definition program_edges (lines : list ParsedLine) (symbols : Symbols) (kb : KnowledgeBase) : list (list nat) :=
  (λ '(index, line), line_edges lines symbols kb index line) <$> enumerate lines.

(** Source: [crates/ic10-core/src/analysis.rs] [analyze_control_flow] *)
Definition analyze_control_flow (lines : list ParsedLine) (symbols : Symbols) (kb : KnowledgeBase)
    (options : AnalysisOptions) : list Diagnostic :=
  match lines with
  | [] => []
  | _ =>
      ((enumerate lines ≫= λ '(index, line),
          match pl_kind line with
          | LineInstruction mnemonic operands =>
              if negb (String.eqb (text mnemonic) "hcf") && is_branch (text mnemonic)
              then branch_diagnostics lines symbols kb index mnemonic operands else []
          | _ => []
          end)
       ++ analyze_return_address_clobbering lines symbols kb
       ++ if existsb (λ '(index, line), dynamic_branch lines symbols kb index line) (enumerate lines) then []
          else match unused_severity options with
               | None => []
               | Some severity =>
                   unreachable_diagnostics severity lines (reachable_lines (program_edges lines symbols kb))
               end)%list
  end.

(** ** Straight-line values *)

Record ValueState := {
  vs_written : gset string;
  vs_unread_writes : BTreeMap string Span;
  vs_entry_block : bool;
  vs_stack_pointer : option Z;
}.

(** A label or a branch ends what is known. *)
Definition leave_block (s : ValueState) : ValueState :=
  {| vs_written := vs_written s; vs_unread_writes := []; vs_entry_block := false; vs_stack_pointer := None |}.

Definition with_stack_pointer (p : option Z) (s : ValueState) : ValueState :=
  {| vs_written := vs_written s; vs_unread_writes := vs_unread_writes s; vs_entry_block := vs_entry_block s;
     vs_stack_pointer := p |}.

(** One register operand.
    Source: [crates/ic10-core/src/analysis.rs] [analyze_straight_line_values] lines 876-913 *)
Definition register_use (symbols : Symbols) (instruction : Instruction) (index : nat) (operand : Token)
    (s : ValueState) : ValueState * list Diagnostic :=
  match resolved_direct_register (text operand) symbols with
  | None => (s, [])
  | Some register =>
      if holds (λ o, String.eqb (od_operand_type o) "r?") (in_operands instruction !! index) then
        ({| vs_written := {[register]} ∪ vs_written s;
            vs_unread_writes := bt_insert register (span operand) (vs_unread_writes s);
            vs_entry_block := vs_entry_block s; vs_stack_pointer := vs_stack_pointer s |},
         match bt_get register (vs_unread_writes s) with
         | Some previous =>
             [unnecessary (diagnostic previous SevHint "unused-register-write"
                ("This value written to " +:+ quote register +:+ " is overwritten before it is read."))]
         | None => []
         end)
      else
        let unread := bt_remove register (vs_unread_writes s) in
        if vs_entry_block s && negb (existsb (String.eqb register) ["sp"; "ra"])
           && negb (bool_decide (register ∈ vs_written s))
        then
          ({| vs_written := {[register]} ∪ vs_written s; vs_unread_writes := unread;
              vs_entry_block := vs_entry_block s; vs_stack_pointer := vs_stack_pointer s |},
           [diagnostic (span operand) SevHint "register-before-write"
              (quote register +:+ " is read before this program writes to it.")])
        else
          ({| vs_written := vs_written s; vs_unread_writes := unread;
              vs_entry_block := vs_entry_block s; vs_stack_pointer := vs_stack_pointer s |}, [])
  end.

Definition register_uses (symbols : Symbols) (instruction : Instruction) (operands : list Token) (s : ValueState) :
    ValueState * list Diagnostic :=
  foldl (λ '(s, ds) '(index, operand),
           let '(s', ds') := register_use symbols instruction index operand s in (s', ds ++ ds')%list)
    (s, []) (enumerate operands).

Definition division_diagnostics (symbols : Symbols) (kb : KnowledgeBase) (mnemonic : string) (operands : list Token) :
    list Diagnostic :=
  match last operands with
  | Some divisor =>
      if existsb (String.eqb mnemonic) ["div"; "mod"]
         && holds (λ value, f_eq value f_zero) (resolve_number (text divisor) symbols kb)
      then [diagnostic (span divisor) SevError "division-by-zero" "The divisor is statically zero."]
      else []
  | None => []
  end.

Definition address_diagnostics (symbols : Symbols) (kb : KnowledgeBase) (stack_size : Z) (instruction : Instruction)
    (mnemonic : string) (operands : list Token) : list Diagnostic :=
  match position (λ o, String.eqb (od_label o) "address") (in_operands instruction) ≫= λ i, operands !! i with
  | Some address =>
      if holds (λ value, negb (is_whole value) || f_lt value f_zero
                  || (String.eqb mnemonic "poke" && f_ge value (f_of_Z stack_size)))
           (resolve_number (text address) symbols kb)
      then [diagnostic (span address) SevError "invalid-address"
              (if String.eqb mnemonic "poke"
               then "Stack address must be an integer from 0 through " +:+ show (stack_size - 1) +:+ "."
               else "A device memory address must be a non-negative integer.")]
      else []
  | None => []
  end.

(** The stack pointer a program starts from is 0, and known until the first label
    or branch.
    Source: [crates/ic10-core/src/analysis.rs] [analyze_straight_line_values] lines 954-1006 *)
Definition stack_use (symbols : Symbols) (kb : KnowledgeBase) (stack_size : Z) (mnemonic : Token)
    (operands : list Token) (pointer : option Z) : option Z * list Diagnostic :=
  let name := text mnemonic in
  if String.eqb name "move" && holds (λ operand, String.eqb (text operand) "sp") (head operands) then
    (to_i64 <$> filter_option is_whole (known_number symbols kb operands 1), [])
  else if String.eqb name "push" then
    match pointer with
    | Some p =>
        if stack_size <=? p
        then (pointer, [diagnostic (span mnemonic) SevError "stack-overflow"
                          ("This push exceeds the " +:+ show stack_size +:+ "-value IC10 stack.")])
        else (Some (p + 1), [])
    | None => (None, [])
    end
  else if String.eqb name "pop" then
    match pointer with
    | Some p =>
        if p <=? 0
        then (pointer, [diagnostic (span mnemonic) SevError "stack-underflow"
                          "This pop reads below the start of the IC10 stack."])
        else (Some (p - 1), [])
    | None => (None, [])
    end
  else if String.eqb name "peek" then
    (pointer, if bool_decide (pointer = Some 0)
              then [diagnostic (span mnemonic) SevError "stack-underflow" "This peek reads an empty IC10 stack."]
              else [])
  else (pointer, []).

(** Source: [crates/ic10-core/src/analysis.rs] [analyze_straight_line_values] lines 853-1007 *)
Definition line_values (symbols : Symbols) (kb : KnowledgeBase) (stack_size : Z) (line : ParsedLine) (s : ValueState) :
    ValueState * list Diagnostic :=
  match pl_kind line with
  | LineEmpty => (s, [])
  | LineLabel _ => (leave_block s, [])
  | LineInstruction mnemonic operands =>
      if existsb (String.eqb (text mnemonic)) ["alias"; "define"] then (s, [])
      else match instruction kb (text mnemonic) with
           | None => (s, [])
           | Some instruction =>
               let s := if is_branch (text mnemonic) then leave_block s else s in
               let '(s, uses) := register_uses symbols instruction operands s in
               let '(pointer, stack) := stack_use symbols kb stack_size mnemonic operands (vs_stack_pointer s) in
               (with_stack_pointer pointer s,
                uses ++ division_diagnostics symbols kb (text mnemonic) operands
                ++ address_diagnostics symbols kb stack_size instruction (text mnemonic) operands ++ stack)%list
           end
  end.

(** Source: [crates/ic10-core/src/analysis.rs] [analyze_straight_line_values] lines 841-852 *)
Definition analyze_straight_line_values (lines : list ParsedLine) (symbols : Symbols) (kb : KnowledgeBase) :
    list Diagnostic :=
  let stack_size := ar_stack_size (la_architecture (kb_language kb)) in
  (foldl (λ '(s, ds) line,
            let '(s', ds') := line_values symbols kb stack_size line s in (s', ds ++ ds')%list)
     ({| vs_written := ∅; vs_unread_writes := []; vs_entry_block := true; vs_stack_pointer := Some 0 |}, [])
     lines).2.

(** ** Budget *)

(** The longest run of operations between two tick boundaries, from a run of
    [current] operations on. *)
Fixpoint longest_run (current maximum : Z) (lines : list ParsedLine) : Z :=
  match lines with
  | [] => maximum
  | line :: rest =>
      match pl_kind line with
      | LineInstruction mnemonic _ =>
          if existsb (String.eqb (text mnemonic)) ["alias"; "define"] then longest_run current maximum rest
          else
            let current := Z.min (current + 1) U32_MAX in
            let maximum := Z.max maximum current in
            if existsb (String.eqb (text mnemonic)) ["yield"; "sleep"] then longest_run 0 maximum rest
            else if String.eqb (text mnemonic) "hcf" then maximum
            else longest_run current maximum rest
      | _ => longest_run current maximum rest
      end
  end.

Definition is_branch_line (line : ParsedLine) : bool :=
  match pl_kind line with LineInstruction mnemonic _ => is_branch (text mnemonic) | _ => false end.

(** Source: [crates/ic10-core/src/analysis.rs] [estimate_operations] *)
Definition estimate_operations (lines : list ParsedLine) : option Z :=
  if existsb is_branch_line lines then None else Some (longest_run 0 0 lines).

Definition is_empty_line (line : ParsedLine) : bool :=
  match pl_kind line with LineEmpty => true | _ => false end.

Definition physical_line_count (lines : list ParsedLine) : nat :=
  match lines, last lines with
  | [line], _ =>
      if bool_decide (pl_span line = {| start := 0; stop := 0 |}) && is_empty_line line then 0
      else if (start (pl_span line) =? stop (pl_span line))%nat && is_empty_line line then 0 else 1
  | _, Some line =>
      if (start (pl_span line) =? stop (pl_span line))%nat && is_empty_line line
      then pred (length lines) else length lines
  | _, None => 0
  end.

(** Source: [crates/ic10-core/src/analysis.rs] [analyze] *)
Definition analyze (lines : list ParsedLine) (symbols : Symbols) (kb : KnowledgeBase) (options : AnalysisOptions) :
    AnalysisResult :=
  let occurrences := collect_occurrences lines symbols in
  let architecture := la_architecture (kb_language kb) in
  let physical_lines := physical_line_count lines in
  let maximum := ar_maximum_program_lines architecture in
  {| an_diagnostics :=
       (validate_symbol_cycles symbols
        ++ validate_operands lines symbols kb
        ++ validate_known_batch_access lines symbols kb
        ++ add_unused_symbol_diagnostics symbols occurrences options
        ++ analyze_control_flow lines symbols kb options
        ++ analyze_straight_line_values lines symbols kb
        ++ match lines !! Z.to_nat maximum with
           | Some line =>
               if maximum <? Z.of_nat physical_lines
               then [diagnostic (pl_span line) SevWarning "program-too-long"
                       ("IC10 programs are limited to " +:+ show maximum +:+ " physical lines; this document has "
                        +:+ show (Z.of_nat physical_lines) +:+ ".")]
               else []
           | None => []
           end)%list;
     an_occurrences := occurrences;
     an_budget := {|
       pb_physical_lines := Z.of_nat physical_lines;
       pb_program_lines := Z.of_nat (length (filter (λ line, is_empty_line line = false) (take physical_lines lines)));
       pb_maximum_program_lines := maximum;
       pb_estimated_operations_per_tick := estimate_operations lines;
       pb_maximum_operations_per_tick := ar_maximum_instructions_per_tick architecture |} |}.

(** ** Documents *)

(** Source: [crates/ic10-core/src/lib.rs] [Document] *)
Record Document := {
  do_source : string;
  do_lines : list ParsedLine;
  do_symbols : Symbols;
  do_occurrences : list SymbolOccurrence;
  do_diagnostics : list Diagnostic;
  do_budget : ProgramBudget;
}.

(** Source: [crates/ic10-core/src/lib.rs] [parse_with_options] *)
Definition parse_with_options (source : string) (kb : KnowledgeBase) (options : AnalysisOptions) : Document :=
  let lines := parse_lines source in
  let '(symbols, diagnostics) := collect_declarations kb lines ([], []) in
  let analysis := analyze lines symbols kb options in
  {| do_source := source; do_lines := lines; do_symbols := symbols;
     do_occurrences := an_occurrences analysis;
     do_diagnostics := (diagnostics ++ an_diagnostics analysis)%list;
     do_budget := an_budget analysis |}.

(** Source: [crates/ic10-core/src/lib.rs] [parse] *)
Definition parse (source : string) (kb : KnowledgeBase) : Document :=
  parse_with_options source kb default_options.

(** Source: [crates/ic10-core/src/lib.rs] [symbol] *)
Definition document_symbol (d : Document) (name : string) : option Symbol := bt_get name (do_symbols d).

(** Source: [crates/ic10-core/src/lib.rs] [occurrences_for] *)
Definition occurrences_for (d : Document) (name : string) : list SymbolOccurrence :=
  filter (λ o, so_name o = name) (do_occurrences d).

(** Source: [crates/ic10-core/src/lib.rs] [symbol_occurrence_at_offset] *)
Definition symbol_occurrence_at_offset (d : Document) (offset : nat) : option SymbolOccurrence :=
  find_first (λ o, span_contains (so_span o) offset) (do_occurrences d).

(** Source: [crates/ic10-core/src/lib.rs] [line_at_offset] *)
Definition line_at_offset (d : Document) (offset : nat) : option ParsedLine :=
  find_first (λ line, span_contains (pl_span line) offset) (do_lines d).

(** Source: [crates/ic10-core/src/lib.rs] [token_at_offset] *)
Definition token_at_offset (d : Document) (offset : nat) : option Token :=
  line ← line_at_offset d offset;
  match pl_kind line with
  | LineEmpty => None
  | LineLabel name => if span_contains (span name) offset then Some name else None
  | LineInstruction mnemonic operands =>
      if span_contains (span mnemonic) offset then Some mnemonic
      else find_first (λ token, span_contains (span token) offset) operands
  end.

(** Source: [crates/ic10-core/src/lib.rs] [instruction_at_offset] *)
Definition instruction_at_offset (d : Document) (offset : nat) : option (Token * list Token) :=
  line ← line_at_offset d offset;
  match pl_kind line with LineInstruction mnemonic operands => Some (mnemonic, operands) | _ => None end.

(** ** Chains of names

    A loop over names remembers the names it has left.  It leaves each at most once,
    so fuel for every symbol and one more step is enough. *)

Section deterministic.
Context {A : Type} (R : relation A) (functional : ∀ x y z, R x y → R x z → y = z).
Set Default Proof Using "Type*".

Lemma loop_unrolls x y v : tc R x y → (∀ z, ¬ R v z) → rtc R x v → rtc R y v.
Proof.
  intros Hxy Hv. induction Hxy as [x y Hxy|x z y Hxz _ IH]; intros Hr;
    (apply rtc_inv in Hr as [<-|(w & Hw & Hr)]; [by destruct (Hv _ ltac:(eassumption))|]).
  - by rewrite (functional _ _ _ Hxy Hw).
  - apply IH. by rewrite (functional _ _ _ Hxz Hw).
Qed.

Lemma ending_chain_has_no_loop x v : rtc R x v → (∀ y, ¬ R v y) → ¬ tc R x x.
Proof.
  induction 1 as [v|x y v Hxy Hr IH]; intros Hv Hloop.
  - inversion Hloop; naive_solver.
  - apply IH; [done|]. assert (rtc R y x) as Hyx.
    { inversion Hloop as [? ? H1|? z ? H1 H2]; subst; rewrite (functional _ _ _ Hxy H1); [done|by apply tc_rtc]. }
    by eapply tc_rtc_l; [exact Hyx|apply tc_once].
Qed.
End deterministic.

(** A symbol's value is the next name of its chain. *)
Definition name_step (symbols : Symbols) (a b : string) : Prop :=
  ∃ symbol, bt_get a symbols = Some symbol ∧ sy_value symbol = Some b.

Definition symbol_step (symbols : Symbols) (a b : Symbol) : Prop :=
  (sy_value a ≫= λ name, bt_get name symbols) = Some b.

(** A chain that comes back has no end. *)
Definition endless (symbols : Symbols) (a : Symbol) : Prop :=
  ¬ ∃ b, rtc (symbol_step symbols) a b ∧ ∀ c, ¬ symbol_step symbols b c.

(** Every symbol is stored under its name, once. *)
Definition symbols_wf (symbols : Symbols) : Prop :=
  bt_sorted symbols ∧ ∀ k s, bt_get k symbols = Some s → sy_name s = k.

Lemma name_step_functional symbols a b c : name_step symbols a b → name_step symbols a c → b = c.
Proof. intros (s & Hs & Hb) (t & Ht & Hc). congruence. Qed.

Lemma symbol_step_functional symbols a b c : symbol_step symbols a b → symbol_step symbols a c → b = c.
Proof. unfold symbol_step. congruence. Qed.

Definition names {V} (symbols : BTreeMap string V) : gset string := list_to_set (bt_keys symbols).

Lemma size_list_to_set (l : list string) : (size (list_to_set l : gset string) ≤ length l)%nat.
Proof.
  induction l as [|k l IH]; [done|]. cbn [list_to_set length]. rewrite size_union_alt, size_singleton.
  assert (size (list_to_set l ∖ {[k]} : gset string) ≤ size (list_to_set l : gset string))%nat
    by (apply subseteq_size; set_solver). lia.
Qed.

Lemma names_room {V} (symbols : BTreeMap string V) (seen : gset string) current s :
  bt_get current symbols = Some s → seen ⊆ names symbols → current ∉ seen →
  {[current]} ∪ seen ⊆ names symbols ∧ size ({[current]} ∪ seen) = S (size seen)
  ∧ (size seen < length symbols)%nat.
Proof.
  intros Hs Hsub Hnin. apply bt_get_elem in Hs.
  assert ({[current]} ∪ seen ⊆ names symbols) as Hin.
  { unfold names, bt_keys. intros k [->%elem_of_singleton|]%elem_of_union; [|set_solver].
    apply elem_of_list_to_set, list_elem_of_fmap. by exists (current, s). }
  assert (size ({[current]} ∪ seen) = S (size seen)) as Hsize
    by (rewrite size_union by set_solver; by rewrite size_singleton).
  split_and!; [done..|]. pose proof (subseteq_size _ _ Hin). pose proof (size_list_to_set (bt_keys symbols)).
  unfold names, bt_keys in *. rewrite length_fmap in *. lia.
Qed.

(** ** Values of names *)

Lemma follow_symbols_ends fuel symbols : ∀ seen current,
  seen ⊆ names symbols → (length symbols < fuel + size seen)%nat →
  follow_symbols fuel symbols seen current ≠ None.
Proof.
  induction fuel as [|fuel IH]; intros seen current Hsub Hfuel; simpl.
  { pose proof (subseteq_size _ _ Hsub). pose proof (size_list_to_set (bt_keys symbols)).
    unfold names, bt_keys in *. rewrite length_fmap in *. lia. }
  case_match eqn:Hs; [|done]. case_decide as Hin; [done|]. case_match; [|done].
  destruct (names_room _ _ _ _ Hs Hsub Hin) as (? & ? & ?). apply IH; [done|lia].
Qed.

Lemma follow_symbols_spec fuel symbols : ∀ seen current r,
  (∀ k, k ∈ seen → tc (name_step symbols) k current) →
  follow_symbols fuel symbols seen current = Some r →
  ∀ v, r = Some v ↔ rtc (name_step symbols) current v ∧ bt_get v symbols = None.
Proof.
  induction fuel as [|fuel IH]; intros seen current r Hseen; simpl; [done|].
  assert (∀ v, bt_get v symbols = None → ∀ z, ¬ name_step symbols v z) as Hend
    by (intros v Hv z (? & ? & ?); congruence).
  destruct (bt_get current symbols) as [s|] eqn:Hs.
  - case_decide as Hin; [|destruct (sy_value s) as [next|] eqn:Hv].
    + intros [= <-] v. split; [done|]. intros [Hr Hn]. exfalso.
      by eapply ending_chain_has_no_loop; [apply name_step_functional|exact Hr|auto|auto].
    + assert (name_step symbols current next) as Hstep by (by exists s).
      assert (∀ k, k ∈ {[current]} ∪ seen → tc (name_step symbols) k next) as Hseen'.
      { intros k [->%elem_of_singleton|Hk]%elem_of_union; [by apply tc_once|].
        by eapply tc_r; [apply Hseen|]. }
      intros Hf v. rewrite (IH _ _ _ Hseen' Hf v). split; intros [Hr Hn]; (split; [|done]).
      * by eapply rtc_l.
      * apply rtc_inv in Hr as [<-|(y & Hy & Hr)]; [congruence|].
        by rewrite (name_step_functional _ _ _ _ Hstep Hy).
    + intros [= <-] v. split; [done|]. intros [Hr Hn].
      apply rtc_inv in Hr as [<-|(y & (t & Ht & Hy) & _)]; congruence.
  - intros [= <-] v. split; [by intros [= <-]; split; [constructor|]|]. intros [Hr Hn].
    apply rtc_inv in Hr as [<-|(y & Hy & _)]; [done|]. by destruct (Hend _ Hs _ Hy).
Qed.

(** A name resolves to the end of its chain, a name nothing is declared under. *)
Lemma resolve_symbol_value_spec token symbols v :
  resolve_symbol_value token symbols = Some v
  ↔ rtc (name_step symbols) token v ∧ bt_get v symbols = None.
Proof.
  unfold resolve_symbol_value.
  pose proof (follow_symbols_ends (S (length symbols)) symbols ∅ token) as Hends.
  destruct (follow_symbols _ _ _ _) as [r|] eqn:Hf; [|by destruct Hends; [set_solver|lia|]].
  simpl. apply (follow_symbols_spec _ _ _ _ _) with (2:=Hf). set_solver.
Qed.

Lemma resolve_number_unfold token symbols kb :
  resolve_number token symbols kb
  = resolve_number_with (λ resolved, resolve_number resolved symbols kb) token symbols kb.
Proof.
  unfold resolve_number at 1, resolve_number_with at 1 3. repeat case_match; try done.
  destruct (resolve_symbol_value token symbols) as [v|] eqn:Hv; [|done]. simpl.
  apply resolve_symbol_value_spec in Hv as [_ Hv]. case_match; [done|].
  unfold resolve_number, resolve_number_with. repeat (case_match; try done).
  assert (resolve_symbol_value v symbols = Some v) as ->
    by (apply resolve_symbol_value_spec; by split; [constructor|]).
  simpl. by rewrite String.eqb_refl.
Qed.

(** ** Cycles *)

Lemma endless_step symbols a b : symbol_step symbols a b → endless symbols a ↔ endless symbols b.
Proof.
  intros Hab. unfold endless. split; intros Hn (c & Hr & Hc); apply Hn.
  - exists c. split; [by eapply rtc_l|done].
  - apply rtc_inv in Hr as [<-|(d & Hd & Hr)]; [by destruct (Hc _ Hab)|]. exists c. split; [|done].
    by rewrite (symbol_step_functional _ _ _ _ Hab Hd).
Qed.

Lemma chain_repeats_spec fuel symbols : symbols_wf symbols → ∀ seen current,
  bt_get (sy_name current) symbols = Some current → seen ⊆ names symbols →
  (∀ k, k ∈ seen → ∃ s, bt_get k symbols = Some s ∧ tc (symbol_step symbols) s current) →
  (length symbols < fuel + size seen)%nat →
  ∃ b, chain_repeats fuel symbols seen current = Some b ∧ (b = true ↔ endless symbols current).
Proof.
  intros [_ Hwf]. induction fuel as [|fuel IH]; intros seen current Hcur Hsub Hseen Hfuel; simpl.
  { pose proof (subseteq_size _ _ Hsub). pose proof (size_list_to_set (bt_keys symbols)).
    unfold names, bt_keys in *. rewrite length_fmap in *. lia. }
  destruct (sy_value current ≫= λ name, bt_get name symbols) as [next|] eqn:Hnext.
  - assert (symbol_step symbols current next) as Hstep by done.
    assert (bt_get (sy_name next) symbols = Some next) as Hget.
    { apply bind_Some in Hnext as (name & _ & Hname). by rewrite (Hwf _ _ Hname). }
    case_decide as Hin.
    + exists true. split; [done|]. split; [|done]. intros _ (c & Hr & Hc).
      destruct (Hseen _ Hin) as (s & Hs & Htc). assert (s = current) as -> by congruence.
      by eapply ending_chain_has_no_loop; [apply symbol_step_functional|..].
    + destruct (names_room _ _ _ _ Hcur Hsub Hin) as (? & ? & ?).
      destruct (IH ({[sy_name current]} ∪ seen) next) as (b & Hb & Hiff); [done|done| |lia|].
      * intros k [->%elem_of_singleton|Hk]%elem_of_union; [by exists current; split; [|apply tc_once]|].
        destruct (Hseen _ Hk) as (s & Hs & Htc). exists s. split; [done|]. by eapply tc_r.
      * exists b. split; [done|]. by rewrite Hiff, (endless_step _ _ _ Hstep).
  - exists false. split; [done|]. split; [done|]. intros Hend. exfalso. apply Hend. exists current.
    split; [constructor|]. unfold symbol_step. congruence.
Qed.

Lemma declare_wf kb line st :
  symbols_wf st.1 →
  symbols_wf (match pl_kind line with
    | LineEmpty => st
    | LineLabel name => declare_label (pl_number line) name st
    | LineInstruction mnemonic operands => declare_instruction kb (pl_number line) mnemonic operands st
    end).1.
Proof.
  assert (∀ s st ds, symbols_wf st → symbols_wf (insert_symbol s st ds).1) as Hins.
  { intros s m ds [Hsort Hwf]. unfold insert_symbol. case_match; [done|]. simpl.
    split; [by apply bt_sorted_insert|]. intros k t. destruct (decide (k = sy_name s)) as [->|Hne].
    - rewrite bt_get_insert_eq. by intros [= <-].
    - rewrite bt_get_insert_ne by done. apply Hwf. }
  intros Hst. destruct st as [symbols ds]. unfold declare_label, declare_instruction.
  repeat case_match; simplify_eq/=; auto.
Qed.

Lemma collect_declarations_wf kb lines st :
  symbols_wf st.1 → symbols_wf (collect_declarations kb lines st).1.
Proof.
  unfold collect_declarations. revert st. induction lines as [|line lines IH]; intros st Hst; [done|].
  simpl. apply IH. by apply declare_wf.
Qed.

Lemma parse_symbols source kb options :
  do_symbols (parse_with_options source kb options) = (collect_declarations kb (parse_lines source) ([], [])).1.
Proof. unfold parse_with_options. by destruct (collect_declarations _ _ _). Qed.

Lemma parse_symbols_wf source kb options : symbols_wf (do_symbols (parse_with_options source kb options)).
Proof. rewrite parse_symbols. apply collect_declarations_wf. split; [constructor|done]. Qed.

Definition cycle_diagnostic (symbol : Symbol) : Diagnostic :=
  diagnostic (default (sy_span symbol) (sy_value_span symbol)) SevError "symbol-cycle"
    (quote (sy_name symbol) +:+ " is part of a circular alias or define chain.").

(** C29.  An alias or define is reported as circular exactly when its chain never
    ends, and a document without such reports has only chains that end: the search
    itself always ends. *)
Theorem symbol_cycles_exact (source : string) (kb : KnowledgeBase) (options : AnalysisOptions) :
  let symbols := do_symbols (parse_with_options source kb options) in
  (∀ symbol, symbol ∈ bt_values symbols → endless symbols symbol →
     cycle_diagnostic symbol ∈ do_diagnostics (parse_with_options source kb options))
  ∧ (∀ d, d ∈ validate_symbol_cycles symbols →
     ∃ symbol, symbol ∈ bt_values symbols ∧ endless symbols symbol ∧ d = cycle_diagnostic symbol).
Proof.
  intros symbols. pose proof (parse_symbols_wf source kb options) as Hwf. fold symbols in Hwf.
  assert (∀ symbol, symbol ∈ bt_values symbols → ∃ b,
    chain_repeats (S (S (length symbols))) symbols ∅ symbol = Some b ∧ (b = true ↔ endless symbols symbol)) as Hspec.
  { intros symbol Hin. apply list_elem_of_fmap in Hin as ([k s] & -> & Hin). cbn [snd].
    apply bt_elem_get in Hin; [|apply Hwf]. apply chain_repeats_spec; [done| |set_solver..|lia].
    by rewrite (proj2 Hwf _ _ Hin). }
  split.
  - intros symbol Hin Hend. assert (cycle_diagnostic symbol ∈ validate_symbol_cycles symbols) as Hd.
    { unfold validate_symbol_cycles. apply list_elem_of_bind. exists symbol. split; [|done].
      destruct (Hspec _ Hin) as (b & -> & Hb). simpl. rewrite (proj2 Hb Hend). by left. }
    revert Hd. unfold symbols, parse_with_options. destruct (collect_declarations _ _ _) as [m ds]. simpl. set_solver.
  - intros d Hd. apply list_elem_of_bind in Hd as (symbol & Hd & Hin). exists symbol. split; [done|].
    destruct (Hspec _ Hin) as (b & Heq & Hb). rewrite Heq in Hd. simpl in Hd.
    destruct b; [|by apply not_elem_of_nil in Hd]. apply list_elem_of_singleton in Hd. split; [by apply Hb|done].
Qed.

(** ** Reachability *)

(** The weight of the lines not marked yet: the queue can still grow by it. *)
Definition unmarked_weight (edges : list (list nat)) (marked : list bool) : nat :=
  sum_list (zip_with (λ es (m : bool), if m then 0 else length es)%nat edges marked).

Lemma unmarked_weight_mark edges marked i es :
  edges !! i = Some es → marked !! i = Some false →
  (unmarked_weight edges (<[i := true]> marked) + length es = unmarked_weight edges marked)%nat.
Proof.
  unfold unmarked_weight. revert marked i. induction edges as [|e edges IH]; intros [|m marked] [|i]; try done; simpl.
  - intros [= ->] [= ->]. simpl. lia.
  - intros He Hm. rewrite <-(IH _ _ He Hm). lia.
Qed.

Lemma unmarked_weight_start edges :
  unmarked_weight edges (replicate (length edges) false) = length (mjoin edges).
Proof. unfold unmarked_weight. induction edges; simpl; [done|]. rewrite length_app. by f_equal. Qed.

Definition follows_edge (edges : list (list nat)) (i j : nat) : Prop :=
  ∃ es, edges !! i = Some es ∧ j ∈ es.

Lemma mark_reachable_spec edges :
  (∀ i j, follows_edge edges i j → (j < length edges)%nat) → ∀ fuel marked queue,
  length marked = length edges → Forall (λ i, i < length edges)%nat queue →
  (length queue + unmarked_weight edges marked ≤ fuel)%nat →
  (∀ i, marked !! i = Some true ∨ i ∈ queue → rtc (follows_edge edges) 0%nat i) →
  (∀ i j, marked !! i = Some true → follows_edge edges i j → marked !! j = Some true ∨ j ∈ queue) →
  marked !! 0%nat = Some true ∨ 0%nat ∈ queue →
  ∃ reached, mark_reachable fuel edges marked queue = Some reached ∧ length reached = length edges
    ∧ ∀ i, reached !! i = Some true ↔ rtc (follows_edge edges) 0%nat i.
Proof.
  intros Hrange. induction fuel as [|fuel IH]; intros marked [|index queue] Hlen Hq Hfuel Hsound Hclosed Hstart;
    simpl in *; try lia.
  1, 2: exists marked; split_and!; [done..|]; intros i; split; [by auto|];
    revert i; apply rtc_ind_r; [set_solver|]; intros i j _ Hij Hi;
    destruct (Hclosed _ _ Hi Hij); [done|set_solver].
  apply Forall_cons in Hq as [Hi Hq].
  destruct (lookup_lt_is_Some_2 marked index ltac:(lia)) as [m Hm].
  destruct (lookup_lt_is_Some_2 edges index Hi) as [es Hes].
  rewrite Hm, Hes. destruct m; simpl.
  - apply IH; [done..|lia| | |].
    + intros i [|]; apply Hsound; [by left|by right; right].
    + intros i j Hmi Hij. destruct (Hclosed _ _ Hmi Hij) as [|[->|]%elem_of_cons]; auto.
    + destruct Hstart as [|[<-|]%elem_of_cons]; auto.
  - pose proof (unmarked_weight_mark _ _ _ _ Hes Hm).
    apply IH.
    + by rewrite length_insert.
    + apply Forall_app. split; [done|]. apply Forall_forall. intros j Hj. apply (Hrange index). by exists es.
    + rewrite length_app. lia.
    + intros i [[(<- & _)|(_ & Hmi)]%list_lookup_insert_Some|[Hj|Hj]%elem_of_app].
      * apply Hsound. right. left.
      * apply Hsound. by left.
      * apply Hsound. right. by right.
      * eapply rtc_r; [apply Hsound; right; left|]. by exists es.
    + intros i j [(<- & _)|(Hne & Hmi)]%list_lookup_insert_Some Hij.
      * destruct Hij as (es' & Hes' & Hj). simplify_eq. set_solver.
      * destruct (decide (index = j)) as [<-|]; [left; apply list_lookup_insert_eq; lia|].
        destruct (Hclosed _ _ Hmi Hij) as [|[->|]%elem_of_cons]; [|done|set_solver].
        left. by rewrite list_lookup_insert_ne.
    + destruct (decide (index = 0%nat)) as [->|]; [left; apply list_lookup_insert_eq; lia|].
      destruct Hstart as [|[Heq|]%elem_of_cons]; [left; by rewrite list_lookup_insert_ne|congruence|set_solver].
Qed.

(** Control can pass from line [i] to line [j]. *)
Definition flows (lines : list ParsedLine) (symbols : Symbols) (kb : KnowledgeBase) (i j : nat) : Prop :=
  ∃ line, lines !! i = Some line ∧ j ∈ line_edges lines symbols kb i line.

Lemma program_edges_lookup lines symbols kb i :
  program_edges lines symbols kb !! i = line_edges lines symbols kb i <$> lines !! i.
Proof. unfold program_edges. rewrite list_lookup_fmap, lookup_enumerate. by destruct (lines !! i). Qed.

Lemma program_edges_length lines symbols kb : length (program_edges lines symbols kb) = length lines.
Proof. unfold program_edges, enumerate. rewrite length_fmap, length_zip, length_seq. lia. Qed.

Lemma line_edges_range lines symbols kb i line j :
  lines !! i = Some line → j ∈ line_edges lines symbols kb i line → (j < length lines)%nat.
Proof.
  intros Hline%lookup_lt_Some.
  assert (∀ k, k ∈ next_line lines i → (k < length lines)%nat) as Hnext.
  { intros k. unfold next_line. destruct (Nat.ltb_spec (S i) (length lines)); [|set_solver].
    by intros ->%list_elem_of_singleton. }
  unfold line_edges. destruct (pl_kind line); [by auto..|].
  case_match; [set_solver|]. case_match; [by auto|]. intros [Hj|Hj]%elem_of_app.
  - unfold branch_line, filter_option in Hj. repeat case_match; simplify_eq/=; try set_solver.
    apply list_elem_of_singleton in Hj as ->. lia.
  - case_match; [by auto|set_solver].
Qed.

Lemma follows_edge_flows lines symbols kb i j :
  follows_edge (program_edges lines symbols kb) i j ↔ flows lines symbols kb i j.
Proof.
  unfold follows_edge, flows. rewrite program_edges_lookup. split.
  - intros (es & Hes & Hj). apply fmap_Some in Hes as (line & Hline & ->). eauto.
  - intros (line & Hline & Hj). exists (line_edges lines symbols kb i line). by rewrite Hline.
Qed.

Lemma rtc_follows_edge_flows lines symbols kb i j :
  rtc (follows_edge (program_edges lines symbols kb)) i j ↔ rtc (flows lines symbols kb) i j.
Proof.
  split; (induction 1; [constructor|]; eapply rtc_l; [|done]); by apply follows_edge_flows.
Qed.

(** The search ends, and marks the lines control can reach. *)
Lemma reachable_lines_spec lines symbols kb :
  lines ≠ [] →
  let reached := reachable_lines (program_edges lines symbols kb) in
  length reached = length lines ∧ ∀ i, reached !! i = Some true ↔ rtc (flows lines symbols kb) 0%nat i.
Proof.
  intros Hne. set (edges := program_edges lines symbols kb).
  assert (0 < length lines)%nat by (destruct lines; [done|simpl; lia]).
  assert (length edges = length lines) as Hlen by apply program_edges_length.
  destruct (mark_reachable_spec edges) with (fuel:=search_fuel edges)
    (marked:=replicate (length edges) false) (queue:=[0%nat]) as (reached & Hr & Hl & Hspec).
  - intros i j (line & Hline & Hj)%follows_edge_flows. rewrite Hlen. by eapply line_edges_range.
  - by rewrite length_replicate.
  - constructor; [lia|constructor].
  - rewrite unmarked_weight_start. unfold search_fuel. simpl. lia.
  - intros i [[? _]%lookup_replicate_1| ->%list_elem_of_singleton]; [done|constructor].
  - intros i j [? _]%lookup_replicate_1. done.
  - right. left.
  - simpl. unfold reachable_lines. rewrite Hr. simpl. split; [lia|]. intros i.
    rewrite Hspec. apply rtc_follows_edge_flows.
Qed.

(** No diagnostic of the list has the code. *)
Definition code_free (code : string) (ds : list Diagnostic) : Prop := Forall (λ d, di_code d ≠ code) ds.

Lemma code_free_bind {A} code (f : A → list Diagnostic) l :
  (∀ a, code_free code (f a)) → code_free code (l ≫= f).
Proof. intros H. apply Forall_forall. intros d (a & Hd & _)%list_elem_of_bind.
  specialize (H a). unfold code_free in H. rewrite Forall_forall in H. by apply H.
Qed.

Lemma code_free_fold {A S} code (f : S → A → S * list Diagnostic) l : ∀ s ds,
  (∀ s a, code_free code (f s a).2) → code_free code ds →
  code_free code (foldl (λ '(s, ds) a, let '(s', ds') := f s a in (s', ds ++ ds')%list) (s, ds) l).2.
Proof.
  induction l as [|a l IH]; intros s ds Hf Hds; [done|]. simpl. pose proof (Hf s a) as Ha.
  destruct (f s a) as [s' ds']. apply IH; [done|]. by apply Forall_app.
Qed.

Ltac code_free :=
  repeat first
    [ progress intros
    | apply code_free_bind
    | apply Forall_nil; exact I
    | apply Forall_cons; split; [simpl; repeat case_match; discriminate|]
    | apply Forall_app; split
    | progress unfold default, id
    | case_match ].

(** The diagnostics of every pass but the last of [analyze_control_flow]. *)
Lemma declarations_code_free kb lines st :
  code_free "unreachable-code" st.2 → code_free "unreachable-code" (collect_declarations kb lines st).2.
Proof.
  unfold collect_declarations. revert st. induction lines as [|line lines IH]; intros [symbols ds] Hst; [done|].
  simpl in *. apply IH. assert (∀ s ds, code_free "unreachable-code" ds →
    code_free "unreachable-code" (insert_symbol s symbols ds).2) as Hins.
  { intros s ds' Hds. unfold insert_symbol. case_match; simpl; [|done]. by code_free. }
  assert (∀ op, code_free "unreachable-code" (literal_macro_diagnostics op)) as Hlit.
  { intros op. unfold literal_macro_diagnostics. by code_free. }
  case_match; [done|..]; unfold declare_label, declare_instruction.
  - case_match; simpl; [by code_free|by apply Hins].
  - repeat case_match; simplify_eq/=; code_free; try done; first [apply Hlit|apply Hins; code_free; first [apply Hlit|done]].
Qed.

Lemma cycles_code_free symbols : code_free "unreachable-code" (validate_symbol_cycles symbols).
Proof. unfold validate_symbol_cycles. by code_free. Qed.

Lemma operands_code_free lines symbols kb : code_free "unreachable-code" (validate_operands lines symbols kb).
Proof. unfold validate_operands, operand_diagnostics, undefined_label_diagnostics. by code_free. Qed.

Lemma batch_code_free lines symbols kb : code_free "unreachable-code" (validate_known_batch_access lines symbols kb).
Proof.
  unfold validate_known_batch_access. apply code_free_bind. intros line. case_match; [by code_free..|].
  unfold batch_diagnostics. destruct (batch_shape _) as [[[[hi si] fi] w]|]; [|by code_free]. simpl.
  destruct (to_i32 <$> _) as [hash|]; simpl; [|by code_free].
  destruct (device_by_hash kb hash) as [device|]; simpl; [|by code_free].
  destruct (operands !! fi) as [field|]; simpl; [|by code_free].
  case_match; [by code_free|]. destruct si as [si|]; simpl; [|unfold field_diagnostics; by code_free].
  destruct (to_i64 <$> _); simpl; [|by code_free]. case_match; simpl; [unfold field_diagnostics; by code_free|].
  destruct (operands !! si); by code_free.
Qed.

Lemma unused_code_free symbols occurrences options :
  code_free "unreachable-code" (add_unused_symbol_diagnostics symbols occurrences options).
Proof. unfold add_unused_symbol_diagnostics. code_free; try done. Qed.

Lemma branches_code_free lines symbols kb index mnemonic operands :
  code_free "unreachable-code" (branch_diagnostics lines symbols kb index mnemonic operands).
Proof. unfold branch_diagnostics. by code_free. Qed.

Lemma clobber_code_free symbols target saved lines :
  code_free "unreachable-code" (clobber_diagnostics symbols target saved lines).
Proof. revert saved. induction lines as [|line lines IH]; intros saved; simpl; [by code_free|]. code_free; auto. Qed.

Lemma returns_code_free lines symbols kb :
  code_free "unreachable-code" (analyze_return_address_clobbering lines symbols kb).
Proof.
  unfold analyze_return_address_clobbering. apply code_free_bind. intros [i line].
  repeat case_match; first [apply clobber_code_free|by code_free].
Qed.

Lemma register_uses_code_free symbols instruction operands s :
  code_free "unreachable-code" (register_uses symbols instruction operands s).2.
Proof.
  assert (∀ j operand s, code_free "unreachable-code" (register_use symbols instruction j operand s).2) as Huse
    by (intros; unfold register_use; repeat case_match; simpl; by code_free).
  unfold register_uses. assert (code_free "unreachable-code" []) as Hnil by by code_free.
  revert s Hnil. generalize (@nil Diagnostic). induction (enumerate operands) as [|[j operand] l IH]; intros ds s Hds; [done|].
  simpl. pose proof (Huse j operand s). destruct (register_use _ _ _ _ _) as [s' ds']. apply IH. by apply Forall_app.
Qed.

Lemma values_code_free lines symbols kb :
  code_free "unreachable-code" (analyze_straight_line_values lines symbols kb).
Proof.
  apply code_free_fold; [|by code_free]. intros s line. unfold line_values.
  case_match; simpl; [by code_free..|]. case_match; [by code_free|]. case_match; [|by code_free].
  match goal with |- context [register_uses ?a ?b ?c ?d] =>
    assert (code_free "unreachable-code" (register_uses a b c d).2) as Hu; [|destruct (register_uses a b c d) as [s' ds]] end.
  { apply register_uses_code_free. }
  destruct (stack_use _ _ _ _ _ _) as [pointer st] eqn:Hst. simpl in *. apply Forall_app; split; [done|].
  unfold stack_use in Hst. unfold division_diagnostics, address_diagnostics.
  repeat case_match; simplify_eq; by code_free.
Qed.

(** ** Where a line starts *)

Lemma split_inclusive_nonempty s : Forall (λ l, 0 < String.length l)%nat (split_inclusive_nl s).
Proof.
  induction s as [|a s IH]; simpl; [constructor|]. destruct (byte_of a =? 10); [constructor; [simpl; lia|done]|].
  destruct (split_inclusive_nl s) as [|l ls]; (constructor; [simpl; lia|]); [done|]. by apply Forall_cons in IH as [_ ?].
Qed.

Lemma length_concat_strings l : String.length (concat_strings l) = sum_list (String.length <$> l).
Proof. unfold concat_strings. induction l as [|s l IH]; simpl; [done|]. by rewrite slength_app, IH. Qed.

Lemma parse_lines_from_start l : ∀ number offset i line,
  parse_lines_from number offset l !! i = Some line →
  start (pl_code_span line) = (offset + sum_list (String.length <$> take i l))%nat ∧ (i < length l)%nat
  ∧ pl_number line = number + Z.of_nat i.
Proof.
  induction l as [|s l IH]; intros number offset i line; [done|]. destruct i as [|i]; csimpl.
  - intros [= <-]. simpl. lia.
  - intros Hi. destruct (IH _ _ _ _ Hi) as (-> & ? & ->). lia.
Qed.

Lemma sum_take_lt (l : list nat) i j :
  Forall (λ n, 0 < n)%nat l → (i < j ≤ length l)%nat → (sum_list (take i l) < sum_list (take j l))%nat.
Proof.
  revert i j. induction l as [|n l IH]; intros i j Hl Hij; simpl in *; [lia|].
  apply Forall_cons in Hl as [Hn Hl]. destruct j as [|j]; [lia|]. destruct i as [|i]; simpl; [lia|].
  specialize (IH i j Hl ltac:(lia)). lia.
Qed.

Lemma parse_lines_start source i line :
  parse_lines source !! i = Some line →
  start (pl_code_span line) = sum_list (take i (String.length <$> split_inclusive_nl source))
  ∧ (i ≤ length (split_inclusive_nl source))%nat ∧ pl_number line = Z.of_nat i.
Proof.
  unfold parse_lines. set (l := split_inclusive_nl source). set (lines := parse_lines_from 0 0 l).
  assert (length lines = length l) as Hlen.
  { unfold lines. generalize 0 at 1. generalize 0%nat. induction l; intros; simpl; [done|]. f_equal. auto. }
  assert (∀ j line', lines !! j = Some line' → start (pl_code_span line') = sum_list (take j (String.length <$> l))
    ∧ (j ≤ length l)%nat ∧ pl_number line' = Z.of_nat j) as Hlines.
  { intros j line' Hj. apply parse_lines_from_start in Hj as (-> & ? & ->). rewrite fmap_take. lia. }
  assert (sum_list (take (length l) (String.length <$> l)) = String.length source) as Htotal.
  { rewrite firstn_all2 by (by rewrite length_fmap). rewrite <-length_concat_strings. unfold l. by rewrite split_inclusive_concat. }
  destruct (String.eqb_spec source "") as [Heq|]; [|destruct (ends_with NEWLINE source)]; [| |by apply Hlines].
  all: intros [?|[Hge Hi]]%lookup_app_Some; [by apply Hlines|].
  all: destruct (i - length lines)%nat eqn:Hsub; [|done]; simplify_eq/=.
  - assert (i = 0%nat) as -> by lia. done.
  - assert (i = length l) as -> by lia. rewrite Htotal, Hlen. done.
Qed.

Lemma parse_lines_start_inj source i j line line' :
  parse_lines source !! i = Some line → parse_lines source !! j = Some line' →
  pl_code_span line = pl_code_span line' → i = j.
Proof.
  intros (Hi & Hli & _)%parse_lines_start (Hj & Hlj & _)%parse_lines_start Heq. rewrite Heq, Hj in Hi.
  assert (Forall (λ n, 0 < n)%nat (String.length <$> split_inclusive_nl source)) as Hpos
    by (apply Forall_fmap, split_inclusive_nonempty).
  destruct (Nat.lt_trichotomy i j) as [Hlt|[|Hlt]]; [|done|];
    (eapply sum_take_lt in Hpos; [|split; [exact Hlt|by rewrite length_fmap]]; lia).
Qed.

Lemma parse_lines_nonempty source : parse_lines source ≠ [].
Proof.
  unfold parse_lines. destruct (String.eqb_spec source "") as [->|Hne]; [done|]. case_match; [by destruct (parse_lines_from _ _ _)|].
  destruct source as [|a s]; [done|]. simpl. destruct (byte_of a =? 10); [done|]. by destruct (split_inclusive_nl s).
Qed.

(** ** Unreachable code *)

Definition unreachable_diagnostic (severity : Severity) (line : ParsedLine) : Diagnostic :=
  unnecessary (diagnostic (pl_code_span line) severity "unreachable-code"
    "This line cannot be reached from the program entry point.").

Lemma unreachable_diagnostics_elem severity lines reached d :
  length reached = length lines →
  d ∈ unreachable_diagnostics severity lines reached ↔
  ∃ i line, lines !! i = Some line ∧ reached !! i = Some false ∧ pl_kind line ≠ LineEmpty
    ∧ d = unreachable_diagnostic severity line.
Proof.
  intros Hlen. unfold unreachable_diagnostics. rewrite list_elem_of_bind. split.
  - intros ([line r] & Hd & [i Hi]%list_elem_of_lookup_1).
    apply lookup_zip_Some in Hi as [Hline Hr]. exists i, line. destruct (pl_kind line) eqn:Hk; [set_solver|..];
      (destruct r; [set_solver|]; apply list_elem_of_singleton in Hd; by split_and!).
  - intros (i & line & Hline & Hr & Hk & ->). exists (line, false). split.
    + destruct (pl_kind line); [done|..]; by left.
    + apply list_elem_of_lookup_2 with i. apply lookup_zip_Some. done.
Qed.

Definition has_dynamic_branch (lines : list ParsedLine) (symbols : Symbols) (kb : KnowledgeBase) : bool :=
  existsb (λ '(index, line), dynamic_branch lines symbols kb index line) (enumerate lines).

Lemma document_unreachable source kb options severity d :
  let symbols := do_symbols (parse_with_options source kb options) in
  let lines := parse_lines source in
  unused_severity options = Some severity → has_dynamic_branch lines symbols kb = false →
  di_code d = "unreachable-code" →
  d ∈ do_diagnostics (parse_with_options source kb options)
  ↔ d ∈ unreachable_diagnostics severity lines (reachable_lines (program_edges lines symbols kb)).
Proof.
  intros symbols lines Hsev Hdyn Hcode. unfold symbols in *. clear symbols. rewrite parse_symbols in *.
  pose proof (declarations_code_free kb (parse_lines source) ([], []) ltac:(by code_free)) as Hdecl.
  unfold parse_with_options. destruct (collect_declarations kb (parse_lines source) ([], [])) as [symbols ds].
  fold lines in Hdecl. simpl in *. fold lines.
  assert (∀ ds', code_free "unreachable-code" ds' → d ∉ ds') as Hfree.
  { intros ds' Hds' Hd. unfold code_free in Hds'. rewrite Forall_forall in Hds'. by apply (Hds' d). }
  rewrite !elem_of_app. unfold analyze_control_flow.
  destruct lines as [|l0 ls] eqn:Hlines; [by destruct (parse_lines_nonempty source)|]. rewrite <-Hlines in *.
  unfold has_dynamic_branch in Hdyn. rewrite Hdyn, Hsev, !elem_of_app. split; [|naive_solver].
  intros [Hd|[Hd|[Hd|[Hd|[Hd|[[Hd|[Hd|Hd]]|[Hd|Hd]]]]]]]; [..|exact Hd| |]; exfalso; revert Hd; apply Hfree.
  - done.
  - apply cycles_code_free.
  - apply operands_code_free.
  - apply batch_code_free.
  - apply unused_code_free.
  - apply code_free_bind. intros [i line]. repeat case_match; first [apply branches_code_free|by code_free].
  - apply returns_code_free.
  - apply values_code_free.
  - by code_free.
Qed.


(** Tables with the instructions of the examples. *)
Definition sample_kb : KnowledgeBase :=
  kb_of 128 128
    [("move", ["r?"; "r?|num"]); ("add", ["r?"; "r?|num"; "r?|num"]); ("j", ["int"]); ("jal", ["int"]); ("jr", ["int"]);
     ("beq", ["r?|num"; "r?|num"; "int"]); ("bdse", ["d?"; "int"]); ("yield", []); ("hcf", []);
     ("push", ["r?|num"]); ("pop", ["r?"]); ("s", ["d?|r?|id"; "logicType"; "r?|num"]);
     ("alias", ["str"; "r?|d?"]); ("define", ["str"; "num"])]
    [] [("LogicType", [("On", 28)])] [].

Definition lines_of (l : list string) : string := join NEWLINE l.

Definition codes (d : Document) : list string := di_code <$> do_diagnostics d.


(** Each report on a small program. *)
Example loop_without_yield :
  codes (parse (lines_of ["move r0 1"; "loop:"; "add r0 r0 1"; "j loop"]) sample_kb) = ["tight-loop"].
Proof. vm_compute. reflexivity. Qed.

Example circular_defines :
  codes (parse (lines_of ["define a b"; "define b a"; "push a"]) sample_kb) = ["symbol-cycle"; "symbol-cycle"].
Proof. vm_compute. reflexivity. Qed.

(** A branch on a device goes to its target, but the analysis takes it for an
    instruction that falls through. *)
Example device_branch_target_reported :
  codes (parse (lines_of ["bdse d0 target"; "hcf"; "target:"; "yield"]) sample_kb)
  = ["unreachable-code"; "unreachable-code"].
Proof. vm_compute. reflexivity. Qed.
