(* ===== verification/Journal.v ===== *)
(** * The effect journal

    [crates/ic10-sim/src/journal.rs]: the reads and writes recorded while a program
    runs, with interned names and a sequence number per write.  Registers, addresses
    and indices are the integers the source casts them to. *)

From S2P Require Import Prelude BTree Text F64.
From Stdlib Require Import Sorting.Sorted.
Local Open Scope string_scope.
Local Open Scope Z_scope.

(** [SymbolId(u32)] *)
Definition SymbolId : Type := Z.

(** Source: [crates/ic10-sim/src/journal.rs] [EffectActor] *)
Inductive EffectActor :=
  | ActorIc (cpu : nat) (source : SymbolId) (line : Z)
  | ActorBehaviour (device : nat) (model : SymbolId) (version : Z)
  | ActorScriptedDriver (driver : SymbolId) (rule : Z)
  | ActorScenario
  | ActorDebugger
  | ActorScheduler.

(** Source: [crates/ic10-sim/src/journal.rs] [EffectTarget] *)
Inductive EffectTarget :=
  | TRegister (cpu : nat) (register : Z)
  | TStack (cpu : nat) (address : Z)
  | TCpuPc (cpu : nat)
  | TCpuState (cpu : nat)
  | TCpuError (cpu : nat)
  | TCpuOperations (cpu : nat)
  | TCpuRandom (cpu : nat)
  | TSchedulerCpu
  | TTick
  | TDeviceField (device : nat) (field : SymbolId)
  | TDeviceSlot (device : nat) (slot : Z) (field : SymbolId)
  | TDeviceMemory (device : nat) (address : Z)
  | TNetworkChannel (network : nat) (channel : Z)
  | TBehaviourState (device : nat) (key : SymbolId)
  | TDriverState (driver : SymbolId).

(** Source: [crates/ic10-sim/src/journal.rs] [ReadEffect] *)
Record ReadEffect := {
  r_actor : EffectActor;
  r_target : EffectTarget;
  r_value_bits : Z;
}.

(** Source: [crates/ic10-sim/src/journal.rs] [WriteEffect] *)
Record WriteEffect := {
  w_actor : EffectActor;
  w_target : EffectTarget;
  w_before_bits : Z;
  w_after_bits : Z;
  w_attempted : bool;
}.

(** Source: [crates/ic10-sim/src/journal.rs] [SequencedWriteEffect] *)
Record SequencedWriteEffect := {
  sq_sequence : Z;
  sq_effect : WriteEffect;
}.

(** Source: [crates/ic10-sim/src/journal.rs] [EffectBatch] *)
Record EffectBatch := {
  reads : list ReadEffect;
  writes : list WriteEffect;
}.

Definition empty_batch : EffectBatch := {| reads := []; writes := [] |}.

(** Source: [crates/ic10-sim/src/journal.rs] [EffectJournal] *)
Record EffectJournal := {
  enabled : bool;
  symbols : list string;
  symbol_ids : BTreeMap string SymbolId;
  pending : EffectBatch;
  next_write_sequence : Z;
  write_history : list SequencedWriteEffect;
}.

(** [EffectJournal::default()] *)
Definition journal_default : EffectJournal :=
  {| enabled := false; symbols := []; symbol_ids := []; pending := empty_batch;
     next_write_sequence := 0; write_history := [] |}.

Definition journal_set_enabled (v : bool) (x : EffectJournal) : EffectJournal :=
  {| enabled := v; symbols := symbols x; symbol_ids := symbol_ids x; pending := pending x; next_write_sequence := next_write_sequence x; write_history := write_history x |}.
Definition journal_set_pending (v : EffectBatch) (x : EffectJournal) : EffectJournal :=
  {| enabled := enabled x; symbols := symbols x; symbol_ids := symbol_ids x; pending := v; next_write_sequence := next_write_sequence x; write_history := write_history x |}.

(** Source: [crates/ic10-sim/src/journal.rs] [set_enabled] *)
Definition set_enabled (b : bool) (j : EffectJournal) : EffectJournal :=
  let j := journal_set_enabled b j in
  if negb b then journal_set_pending empty_batch j else j.

(** Source: [crates/ic10-sim/src/journal.rs] [is_enabled] *)
Definition is_enabled (j : EffectJournal) : bool := enabled j.

(** Source: [crates/ic10-sim/src/journal.rs] [intern] *)
Definition intern (value : string) (j : EffectJournal) : SymbolId * EffectJournal :=
  match bt_get value (symbol_ids j) with
  | Some id => (id, j)
  | None =>
      let id := wrap_u 32 (Z.of_nat (length (symbols j))) in
      (id, {| enabled := enabled j; symbols := (symbols j ++ [value])%list;
              symbol_ids := bt_insert value id (symbol_ids j); pending := pending j;
              next_write_sequence := next_write_sequence j; write_history := write_history j |})
  end.

(** Source: [crates/ic10-sim/src/journal.rs] [resolve] *)
Definition resolve (id : SymbolId) (j : EffectJournal) : option string :=
  symbols j !! Z.to_nat id.

(** Source: [crates/ic10-sim/src/journal.rs] [read] *)
Definition read (actor : EffectActor) (target : EffectTarget) (value : f64) (j : EffectJournal) :
    EffectJournal :=
  if enabled j then
    journal_set_pending
      {| reads := (reads (pending j) ++
                   [{| r_actor := actor; r_target := target; r_value_bits := to_bits value |}])%list;
         writes := writes (pending j) |} j
  else j.

(** One write appended to the pending batch and, numbered, to the history. *)
Definition push_write (effect : WriteEffect) (j : EffectJournal) : EffectJournal :=
  let sequence := wrap_u 64 (next_write_sequence j + 1) in
  {| enabled := enabled j; symbols := symbols j; symbol_ids := symbol_ids j;
     pending := {| reads := reads (pending j); writes := (writes (pending j) ++ [effect])%list |};
     next_write_sequence := sequence;
     write_history := (write_history j ++ [{| sq_sequence := sequence; sq_effect := effect |}])%list |}.

(** Source: [crates/ic10-sim/src/journal.rs] [write_bits] *)
Definition write_bits (actor : EffectActor) (target : EffectTarget) (before_bits after_bits : Z)
    (j : EffectJournal) : EffectJournal :=
  if enabled j then
    push_write {| w_actor := actor; w_target := target; w_before_bits := before_bits;
                  w_after_bits := after_bits; w_attempted := true |} j
  else j.

(** Source: [crates/ic10-sim/src/journal.rs] [write] *)
Definition write (actor : EffectActor) (target : EffectTarget) (before after : f64)
    (j : EffectJournal) : EffectJournal :=
  write_bits actor target (to_bits before) (to_bits after) j.

(** Source: [crates/ic10-sim/src/journal.rs] [take] *)
Definition take_batch (j : EffectJournal) : EffectBatch * EffectJournal :=
  (pending j, journal_set_pending empty_batch j).

(** Source: [crates/ic10-sim/src/journal.rs] [extend] *)
Definition extend (batch : EffectBatch) (j : EffectJournal) : EffectJournal :=
  if enabled j then
    let j := journal_set_pending
               {| reads := (reads (pending j) ++ reads batch)%list; writes := writes (pending j) |} j in
    foldl (λ j effect, push_write effect j) j (writes batch)
  else j.

(** Source: [crates/ic10-sim/src/journal.rs] [write_sequence] *)
Definition write_sequence (j : EffectJournal) : Z := next_write_sequence j.

(** Source: [crates/ic10-sim/src/journal.rs] [writes_after] *)
Definition writes_after (sequence : Z) (j : EffectJournal) : list SequencedWriteEffect :=
  filter (λ w, sequence < sq_sequence w) (write_history j).

Fixpoint drop_through (sequence : Z) (l : list SequencedWriteEffect) : list SequencedWriteEffect :=
  match l with
  | [] => []
  | w :: l' => if sq_sequence w <=? sequence then drop_through sequence l' else l
  end.

(** Source: [crates/ic10-sim/src/journal.rs] [acknowledge_writes_through] *)
Definition acknowledge_writes_through (sequence : Z) (j : EffectJournal) : EffectJournal :=
  {| enabled := enabled j; symbols := symbols j; symbol_ids := symbol_ids j; pending := pending j;
     next_write_sequence := next_write_sequence j;
     write_history := drop_through sequence (write_history j) |}.

(** Source: [crates/ic10-sim/src/journal.rs] [restore_write_sequence] *)
Definition restore_write_sequence (sequence : Z) (j : EffectJournal) : EffectJournal :=
  {| enabled := enabled j; symbols := symbols j; symbol_ids := symbol_ids j; pending := empty_batch;
     next_write_sequence := sequence; write_history := [] |}.

(** ** Interning *)

(** The table and the index of names agree, below the width of a [SymbolId]. *)
Definition symbols_ok (j : EffectJournal) : Prop :=
  Z.of_nat (length (symbols j)) < 2 ^ 32
  ∧ ∀ name id, bt_get name (symbol_ids j) = Some id → resolve id j = Some name ∧ 0 ≤ id < 2 ^ 32.

(** ** Histories *)

(** The history is numbered upwards, and its last number is the current one. *)
Definition history_ok (j : EffectJournal) : Prop :=
  StronglySorted (λ a b, sq_sequence a < sq_sequence b) (write_history j)
  ∧ Forall (λ w, sq_sequence w ≤ next_write_sequence j) (write_history j)
  ∧ 0 ≤ next_write_sequence j.

Lemma sorted_snoc (l : list SequencedWriteEffect) w :
  StronglySorted (λ a b, sq_sequence a < sq_sequence b) l →
  Forall (λ a, sq_sequence a < sq_sequence w) l →
  StronglySorted (λ a b, sq_sequence a < sq_sequence b) (l ++ [w]).
Proof.
  induction 1 as [|a l Hs IH Ha]; intros Hw; simpl; [by repeat constructor|].
  apply Forall_cons in Hw as [Haw Hw]. constructor; [by apply IH|].
  apply Forall_app. by split; [|apply Forall_singleton].
Qed.

Lemma push_write_history_ok effect j :
  history_ok j → next_write_sequence j < U64_MAX → history_ok (push_write effect j).
Proof.
  intros (Hs & Hb & H0) Hlt. unfold U64_MAX in Hlt.
  unfold history_ok, push_write; simpl. rewrite wrap_u_small by lia. split_and!; [| |lia].
  - apply sorted_snoc; [done|]. eapply Forall_impl; [exact Hb|]. simpl. lia.
  - apply Forall_app. split; [|apply Forall_singleton; simpl; lia].
    eapply Forall_impl; [exact Hb|]. simpl. lia.
Qed.

Lemma drop_through_filter sequence l :
  StronglySorted (λ a b, sq_sequence a < sq_sequence b) l →
  drop_through sequence l = filter (λ w, sequence < sq_sequence w) l.
Proof.
  induction 1 as [|w l Hs IH Hw]; simpl; [done|]. rewrite filter_cons.
  destruct (Z.leb_spec (sq_sequence w) sequence).
  - by rewrite decide_False by lia.
  - rewrite decide_True, filter_id by (lia || (eapply Forall_impl; [exact Hw|]; simpl; lia)).
    done.
Qed.

Lemma extend_fold l j :
  history_ok j → next_write_sequence j + Z.of_nat (length l) ≤ U64_MAX →
  ∃ tail,
    let j' := foldl (λ j effect, push_write effect j) j l in
    write_history j' = (write_history j ++ tail)%list ∧ sq_effect <$> tail = l
    ∧ Forall (λ w, next_write_sequence j < sq_sequence w) tail ∧ history_ok j'
    ∧ next_write_sequence j' = next_write_sequence j + Z.of_nat (length l).
Proof.
  revert j. induction l as [|e l IH]; intros j Hj Hlen; simpl in *.
  { exists []. rewrite app_nil_r. split_and!; try done. lia. }
  destruct (IH (push_write e j)) as (tail & Hh & He & Hf & Hok & Hn).
  { apply push_write_history_ok; [done|lia]. }
  { simpl. rewrite wrap_u_small; [lia|]. destruct Hj as (_ & _ & ?). unfold U64_MAX in *. lia. }
  assert (next_write_sequence (push_write e j) = next_write_sequence j + 1) as E.
  { simpl. apply wrap_u_small. destruct Hj as (_ & _ & ?). unfold U64_MAX in *. lia. }
  rewrite E in *. eexists (_ :: tail). simpl in Hh. cbn [foldl]. rewrite Hh, <-app_assoc. split_and!.
  - reflexivity.
  - by rewrite fmap_cons, He.
  - constructor; [simpl; simpl in E; lia|]. eapply Forall_impl; [exact Hf|]. simpl. lia.
  - done.
  - lia.
Qed.

Lemma intern_self value j :
  symbols_ok j → Z.of_nat (length (symbols j)) + 1 < 2 ^ 32 → resolve (intern value j).1 (intern value j).2 = Some value.
Proof.
  intros [Hlen Hids] Hroom. unfold intern. destruct (bt_get value (symbol_ids j)) as [id|] eqn:E; simpl.
  - by apply Hids.
  - unfold resolve. simpl. rewrite wrap_u_small, Nat2Z.id by lia. by rewrite lookup_app_r, Nat.sub_diag by lia.
Qed.

Lemma intern_enabled name j : enabled (intern name j).2 = enabled j.
Proof. unfold intern. by destruct (bt_get name (symbol_ids j)). Qed.

Lemma intern_history name j : write_history (intern name j).2 = write_history j.
Proof. unfold intern. by destruct (bt_get name (symbol_ids j)). Qed.

(** Interning a name gives an id that resolves to it, and every id handed
    out before still resolves to its own name. *)
Theorem intern_resolves (value : string) (j : EffectJournal) :
  symbols_ok j → Z.of_nat (length (symbols j)) + 1 < 2 ^ 32 →
  let '(id, j') := intern value j in
  symbols_ok j' ∧ resolve id j' = Some value
  ∧ ∀ old name, resolve old j = Some name → resolve old j' = Some name.
Proof.
  intros [Hlen Hids] Hroom. unfold intern. destruct (bt_get value (symbol_ids j)) as [id|] eqn:E.
  - split_and!; [done|by apply Hids|done].
  - rewrite wrap_u_small by lia. unfold symbols_ok, resolve in *; simpl. split_and!.
    + rewrite length_app. simpl. lia.
    + intros name id. rewrite bt_get_insert. destruct (rcmp name value) eqn:Ec.
      * apply rcmp_eq in Ec as ->. intros [= <-]. rewrite Nat2Z.id. split; [|lia].
        by rewrite lookup_app_r, Nat.sub_diag by lia.
      * intros [Hn ?]%Hids. split; [|done]. by apply lookup_app_l_Some.
      * intros [Hn ?]%Hids. split; [|done]. by apply lookup_app_l_Some.
    + by rewrite Nat2Z.id, lookup_app_r, Nat.sub_diag by lia.
    + intros old name Ho. by apply lookup_app_l_Some.
Qed.

Lemma intern_resolves_witness :
  let j := (intern "Setting" journal_default).2 in
  let '(id, j') := intern "On" j in
  id = 1 ∧ resolve 1 j' = Some "On" ∧ resolve 0 j' = Some "Setting".
Proof.
  assert (symbols_ok (intern "Setting" journal_default).2) as Hok.
  { split; [done|]. intros name id. simpl. destruct (string_cmp name "Setting") eqn:E; try done.
    intros [= <-]. assert (rcmp name "Setting" = Eq) as E' by exact E.
    by apply rcmp_eq in E' as ->. }
  destruct (intern_resolves "On" _ Hok eq_refl) as (_ & H1 & H2).
  split; [reflexivity|]. split; [exact H1|]. apply H2. reflexivity.
Defined.

(** A reader that stopped at the current sequence number sees, after a batch
    is added, exactly the writes of the batch in their order; acknowledging what it
    has read takes nothing from a later cursor. *)
Theorem journal_cursor (batch : EffectBatch) (j : EffectJournal) (sequence : Z) :
  enabled j = true → history_ok j →
  next_write_sequence j + Z.of_nat (length (writes batch)) ≤ U64_MAX →
  sequence ≤ write_sequence j →
  let j' := extend batch j in
  history_ok j'
  ∧ sq_effect <$> writes_after (write_sequence j) j' = writes batch
  ∧ writes_after (write_sequence j) (acknowledge_writes_through sequence j')
    = writes_after (write_sequence j) j'.
Proof.
  intros Hen Hj Hlen Hseq. unfold extend. rewrite Hen.
  match goal with |- context [foldl _ ?j0 _] => set (j1 := j0) end.
  destruct (extend_fold (writes batch) j1) as (tail & Hh & He & Hf & Hok & Hn); [done..|].
  cbv zeta in *. set (j' := foldl _ j1 _) in *.
  change (write_history j1) with (write_history j) in Hh.
  change (next_write_sequence j1) with (next_write_sequence j) in *.
  split_and!; [done| |].
  - unfold writes_after, write_sequence. rewrite Hh, filter_app, filter_none, filter_id; [done..|].
    destruct Hj as (_ & Hb & _). eapply Forall_impl; [exact Hb|]. simpl. lia.
  - unfold writes_after, acknowledge_writes_through, write_sequence in *. simpl.
    destruct Hok as (Hs & _ & _). rewrite drop_through_filter, list_filter_filter by done.
    apply list_filter_iff. intros w. lia.
Qed.

Lemma journal_cursor_witness :
  let w z := {| w_actor := ActorDebugger; w_target := TTick; w_before_bits := z;
                w_after_bits := z + 1; w_attempted := true |} in
  let j := push_write (w 0) (set_enabled true journal_default) in
  sq_effect <$> writes_after (write_sequence j) (extend {| reads := []; writes := [w 1; w 2] |} j)
  = [w 1; w 2].
Proof.
  intros w j. apply (journal_cursor {| reads := []; writes := [w 1; w 2] |} j 0).
  - reflexivity.
  - apply push_write_history_ok; [|done]. split_and!; [constructor..|done].
  - vm_compute. discriminate.
  - vm_compute. discriminate.
Defined.
