(* ===== verification/Scenario.v ===== *)
(** * Scenarios

    [crates/ic10-sim/src/scenario.rs]: the deserialised description of a simulated
    world.  A path is the string it was written as. *)

From S2P Require Import Prelude BTree Text F64.
Local Open Scope string_scope.
Local Open Scope Z_scope.

(** Source: [crates/ic10-sim/src/scenario.rs] [Scalar] *)
Inductive Scalar :=
  | SNumber (value : f64)
  | SText (value : string).

(** Source: [crates/ic10-sim/src/scenario.rs] [as_f64] *)
Definition scalar_as_f64 (s : Scalar) : outcome message f64 :=
  match s with
  | SNumber value => Ok value
  | SText value =>
      if existsb (String.eqb value) ["NaN"; "nan"] then Ok f_nan
      else if existsb (String.eqb value) ["Infinity"; "+Infinity"; "inf"; "+inf"] then Ok f_inf
      else if existsb (String.eqb value) ["-Infinity"; "-inf"] then Ok f_neg_inf
      else if String.eqb value "-0" then Ok f_neg_zero
      else ok_or (parse_f64 value) [PS "`"; PS value; PS "` is not an IC10 number"]
  end.

(** Source: [crates/ic10-sim/src/scenario.rs] [ProgramLanguage] *)
Inductive ProgramLanguage := LangIc10 | LangLua.

(** Source: [crates/ic10-sim/src/scenario.rs] [ProgramSpec] *)
Record ProgramSpec := {
  ps_id : string;
  ps_path : string;
  ps_language : ProgramLanguage;
}.

(** Source: [crates/ic10-sim/src/scenario.rs] [NetworkSpec] *)
Record NetworkSpec := {
  ns_id : string;
  ns_kind : string;
  ns_cable_role : option string;
  ns_channels : BTreeMap string Scalar;
}.

(** Source: [crates/ic10-sim/src/scenario.rs] [IcSpec] *)
Record IcSpec := {
  sic_program : option string;
  sic_enabled : bool;
  sic_pins : BTreeMap string string;
  sic_registers : BTreeMap string Scalar;
  sic_stack : BTreeMap string Scalar;
}.

(** Source: [crates/ic10-sim/src/scenario.rs] [DeviceSpec] *)
Record DeviceSpec := {
  sp_id : string;
  sp_prefab : string;
  sp_name : string;
  sp_reference_id : option Z;
  sp_connections : BTreeMap string string;
  sp_fields : BTreeMap string Scalar;
  sp_slots : BTreeMap string (BTreeMap string Scalar);
  sp_memory : BTreeMap string Scalar;
  sp_ic : option IcSpec;
  sp_program : option string;
}.

(** Source: [crates/ic10-sim/src/scenario.rs] [Scenario] *)
Record Scenario := {
  sc_schema_version : Z;
  sc_game_version : option string;
  sc_networks : list NetworkSpec;
  sc_devices : list DeviceSpec;
  sc_programs : list ProgramSpec;
}.

(** Source: [crates/ic10-sim/src/scenario.rs] [default_schema_version] *)
Definition default_schema_version : Z := 1.

(** Source: [crates/ic10-sim/src/scenario.rs] [default_network_kind] *)
Definition default_network_kind : string := "cable".
