(* ===== verification/World.v ===== *)
(** * The simulated world

    [crates/ic10-sim/src/world.rs]: networks and devices, their construction from a
    scenario against the game data, and logic-field access with its journal.  A
    network or device is named by its index; a [HashMap] that is only looked up is
    an ordered map here. *)

From S2P Require Import Prelude BTree Text F64 Knowledge Literals Journal Scenario.
Local Open Scope string_scope.
Local Open Scope Z_scope.

(** Source: [crates/ic10-sim/src/world.rs] [Network] *)
Record Network := {
  net_id : string;
  kind : string;
  cable_role : string;
  channels : list f64;
}.

(** Source: [crates/ic10-sim/src/world.rs] [Device] *)
Record Device := {
  dev_id : string;
  prefab : string;
  prefab_hash : Z;
  dev_name : string;
  name_hash : Z;
  reference_id : Z;
  fields : BTreeMap string f64;
  slots : BTreeMap Z (BTreeMap string f64);
  memory : list f64;
  connections : BTreeMap Z nat;
}.

(** Source: [crates/ic10-sim/src/world.rs] [World] *)
Record World := {
  networks : list Network;
  devices : list Device;
  network_ids : BTreeMap string nat;
  device_ids : BTreeMap string nat;
  reference_ids : BTreeMap Z nat;
  field_writes : list (nat * string * f64 * f64);
}.

Definition set_channels (v : list f64) (x : Network) : Network :=
  {| net_id := net_id x; kind := kind x; cable_role := cable_role x; channels := v |}.
Definition set_fields (v : BTreeMap string f64) (x : Device) : Device :=
  {| dev_id := dev_id x; prefab := prefab x; prefab_hash := prefab_hash x; dev_name := dev_name x; name_hash := name_hash x; reference_id := reference_id x; fields := v; slots := slots x; memory := memory x; connections := connections x |}.
Definition set_slots (v : BTreeMap Z (BTreeMap string f64)) (x : Device) : Device :=
  {| dev_id := dev_id x; prefab := prefab x; prefab_hash := prefab_hash x; dev_name := dev_name x; name_hash := name_hash x; reference_id := reference_id x; fields := fields x; slots := v; memory := memory x; connections := connections x |}.
Definition set_memory (v : list f64) (x : Device) : Device :=
  {| dev_id := dev_id x; prefab := prefab x; prefab_hash := prefab_hash x; dev_name := dev_name x; name_hash := name_hash x; reference_id := reference_id x; fields := fields x; slots := slots x; memory := v; connections := connections x |}.
Definition set_connections (v : BTreeMap Z nat) (x : Device) : Device :=
  {| dev_id := dev_id x; prefab := prefab x; prefab_hash := prefab_hash x; dev_name := dev_name x; name_hash := name_hash x; reference_id := reference_id x; fields := fields x; slots := slots x; memory := memory x; connections := v |}.
Definition set_networks (v : list Network) (x : World) : World :=
  {| networks := v; devices := devices x; network_ids := network_ids x; device_ids := device_ids x; reference_ids := reference_ids x; field_writes := field_writes x |}.
Definition set_devices (v : list Device) (x : World) : World :=
  {| networks := networks x; devices := v; network_ids := network_ids x; device_ids := device_ids x; reference_ids := reference_ids x; field_writes := field_writes x |}.
Definition set_field_writes (v : list (nat * string * f64 * f64)) (x : World) : World :=
  {| networks := networks x; devices := devices x; network_ids := network_ids x; device_ids := device_ids x; reference_ids := reference_ids x; field_writes := v |}.

(** A device or a network replaced by its update; out of range, no change. *)
Definition alter_device (f : Device → Device) (i : nat) (w : World) : World :=
  set_devices (alter f i (devices w)) w.
Definition alter_network (f : Network → Network) (i : nat) (w : World) : World :=
  set_networks (alter f i (networks w)) w.

(** Source: [crates/ic10-sim/src/world.rs] [channel_index] *)
Definition channel_index (value : string) : option nat :=
  match parse_usize (default value (strip_prefix "Channel" value)) with
  | Some z => if z <? 8 then Some (Z.to_nat z) else None
  | None => None
  end.

Definition is_one_of (s : string) (l : list string) : bool := existsb (String.eqb s) l.

(** Source: [crates/ic10-sim/src/world.rs] [network_accepts_connection] *)
Definition network_accepts_connection (network : Network) (connection_type : string) : bool :=
  if String.eqb connection_type "Data" then
    eq_ignore_ascii_case (kind network) "cable"
    && is_one_of (cable_role network) ["data"; "powerAndData"]
  else if String.eqb connection_type "Power" then
    eq_ignore_ascii_case (kind network) "cable"
    && is_one_of (cable_role network) ["power"; "powerAndData"]
  else if String.eqb connection_type "PowerAndData" then eq_ignore_ascii_case (kind network) "cable"
  else if String.eqb connection_type "Chute" then eq_ignore_ascii_case (kind network) "chute"
  else if String.eqb connection_type "Pipe" then eq_ignore_ascii_case (kind network) "gas"
  else if String.eqb connection_type "PipeLiquid" then eq_ignore_ascii_case (kind network) "liquid"
  else false.

(** ** Construction *)

Definition empty_world : World :=
  {| networks := []; devices := []; network_ids := []; device_ids := []; reference_ids := [];
     field_writes := [] |}.

(** The cable role a network specification gives. *)
Definition network_role (specification : NetworkSpec) : outcome message string :=
  if eq_ignore_ascii_case (ns_kind specification) "cable" then
    let role := default "powerAndData" (ns_cable_role specification) in
    if negb (is_one_of role ["data"; "power"; "powerAndData"])
    then Err [PS "cable network `"; PS (ns_id specification); PS "` has invalid cableRole `";
              PS role; PS "`"]
    else Ok role
  else
    match ns_cable_role specification with
    | Some _ => Err [PS "non-cable network `"; PS (ns_id specification);
                     PS "` cannot define cableRole"]
    | None => Ok ""
    end.

(** One network of the scenario.
    Source: [crates/ic10-sim/src/world.rs] [World::build] lines 57-103 *)
Definition build_network (world : World) (specification : NetworkSpec) : outcome message World :=
  if bt_contains_key (ns_id specification) (network_ids world)
  then Err [PS "duplicate network id `"; PS (ns_id specification); PS "`"]
  else
    cable_role ← network_role specification;
    channels ← fold_outcome (λ channels '(name, value),
        index ← ok_or (channel_index name)
          [PS "network `"; PS (ns_id specification); PS "` has invalid channel `"; PS name; PS "`"];
        value ← scalar_as_f64 value;
        Ok (<[index := value]> channels))
      (repeat f_nan 8) (ns_channels specification);
    Ok {| networks := networks world ++ [{| net_id := ns_id specification; kind := ns_kind specification;
                                            cable_role := cable_role; channels := channels |}];
          devices := devices world;
          network_ids := bt_insert (ns_id specification) (length (networks world)) (network_ids world);
          device_ids := device_ids world; reference_ids := reference_ids world;
          field_writes := field_writes world |}%list.

(** [while reference_ids.contains_key(&next) { next += 1; }]: as many keys are
    passed at most as there are. *)
Fixpoint first_free (fuel : nat) (reference_ids : BTreeMap Z nat) (next : Z) : Z :=
  match fuel with
  | O => next
  | S fuel' =>
      if bt_contains_key next reference_ids then first_free fuel' reference_ids (next + 1) else next
  end.

(** The reference id of a device and the next candidate. *)
Definition choose_reference_id (specification : DeviceSpec) (world : World) (next_reference_id : Z) :
    Z * Z :=
  match sp_reference_id specification with
  | Some value => (value, next_reference_id)
  | None =>
      let value := first_free (S (length (reference_ids world))) (reference_ids world) next_reference_id in
      (value, value + 1)
  end.

Definition zero_fields (logic_types : BTreeMap string LogicAccess) : BTreeMap string f64 :=
  bt_collect ((λ name, (name, f_zero)) <$> bt_keys logic_types).

(** Source: [crates/ic10-sim/src/world.rs] [World::build] lines 137-153 *)
Definition build_fields (specification : DeviceSpec) (metadata : DeviceData) (name_hash reference_id : Z) :
    outcome message (BTreeMap string f64) :=
  let fields := zero_fields (dd_logic_types metadata) in
  let fields := bt_insert "PrefabHash" (f_of_Z (dd_prefab_hash metadata)) fields in
  let fields := bt_insert "NameHash" (f_of_Z name_hash) fields in
  let fields := bt_insert "ReferenceId" (f_of_Z reference_id) fields in
  fold_outcome (λ fields '(field, value),
      if negb (bt_contains_key field (dd_logic_types metadata))
      then Err [PS "device `"; PS (sp_id specification); PS "` does not support logic field `";
                PS field; PS "`"]
      else value ← scalar_as_f64 value; Ok (bt_insert field value fields))
    fields (sp_fields specification).

(** Source: [crates/ic10-sim/src/world.rs] [World::build] lines 155-194 *)
Definition build_slots (specification : DeviceSpec) (metadata : DeviceData) :
    outcome message (BTreeMap Z (BTreeMap string f64)) :=
  let initial := foldl (λ slots '(slot, metadata),
      match parse_usize slot with
      | None => slots
      | Some index => bt_insert index (zero_fields (ds_logic_types metadata)) slots
      end) [] (dd_slots metadata) in
  fold_outcome (λ slots '(slot, fields),
      index ← ok_or (parse_usize slot)
        [PS "device `"; PS (sp_id specification); PS "` has invalid slot `"; PS slot; PS "`"];
      slot_metadata ← ok_or (bt_get slot (dd_slots metadata))
        [PS "device `"; PS (sp_id specification); PS "` does not have slot `"; PS slot; PS "`"];
      values ← expect (bt_get index slots);
      values ← fold_outcome (λ values '(field, value),
          if negb (bt_contains_key field (ds_logic_types slot_metadata))
          then Err [PS "device `"; PS (sp_id specification); PS "` slot `"; PS slot;
                    PS "` does not support logic field `"; PS field; PS "`"]
          else value ← scalar_as_f64 value; Ok (bt_insert field value values))
        values fields;
      Ok (bt_insert index values slots))
    initial (sp_slots specification).

(** Source: [crates/ic10-sim/src/world.rs] [World::build] lines 195-222 *)
Definition build_memory (specification : DeviceSpec) (metadata : DeviceData) : outcome message (list f64) :=
  let metadata_size := default 0 (dd_memory metadata ≫= dm_size) in
  if (metadata_size =? 0) && negb (Nat.eqb (length (sp_memory specification)) 0)
  then Err [PS "device `"; PS (sp_id specification); PS "` does not expose addressable memory"]
  else
    fold_outcome (λ memory '(address, value),
        address ← ok_or (parse_usize address)
          [PS "device `"; PS (sp_id specification); PS "` has invalid memory address `"; PS address; PS "`"];
        if metadata_size <=? address
        then Err [PS "device `"; PS (sp_id specification); PS "` memory address "; PZ address;
                  PS " exceeds "; PZ (Z.max 0 (metadata_size - 1))]
        else value ← scalar_as_f64 value; Ok (<[Z.to_nat address := value]> memory))
      (repeat f_zero (Z.to_nat metadata_size)) (sp_memory specification).

(** One device of the scenario; the candidate for the next reference id is threaded.
    Source: [crates/ic10-sim/src/world.rs] [World::build] lines 106-239 *)
Definition build_device (kb : KnowledgeBase) (st : World * Z) (specification : DeviceSpec) :
    outcome message (World * Z) :=
  let '(world, next_reference_id) := st in
  if bt_contains_key (sp_id specification) (device_ids world)
  then Err [PS "duplicate device id `"; PS (sp_id specification); PS "`"]
  else
    metadata ← ok_or (device_by_name kb (sp_prefab specification))
      [PS "unknown device prefab `"; PS (sp_prefab specification); PS "`"];
    let '(reference_id, next_reference_id) := choose_reference_id specification world next_reference_id in
    if bt_contains_key reference_id (reference_ids world)
    then Err [PS "duplicate ReferenceId `"; PZ reference_id; PS "`"]
    else
      let name := if String.eqb (sp_name specification) "" then dd_display_name metadata
                  else sp_name specification in
      let name_hash := wrap_i 32 (stationeers_crc32 name) in
      fields ← build_fields specification metadata name_hash reference_id;
      slots ← build_slots specification metadata;
      memory ← build_memory specification metadata;
      let index := length (devices world) in
      Ok ({| networks := networks world;
             devices := (devices world ++
               [{| dev_id := sp_id specification; prefab := sp_prefab specification;
                   prefab_hash := dd_prefab_hash metadata; dev_name := name; name_hash := name_hash;
                   reference_id := reference_id; fields := fields; slots := slots; memory := memory;
                   connections := [] |}])%list;
             network_ids := network_ids world;
             device_ids := bt_insert (sp_id specification) index (device_ids world);
             reference_ids := bt_insert reference_id index (reference_ids world);
             field_writes := field_writes world |}, next_reference_id).

(** Source: [crates/ic10-sim/src/world.rs] [device_index] *)
Definition device_index (id : string) (world : World) : option nat := bt_get id (device_ids world).

(** Source: [crates/ic10-sim/src/world.rs] [device_by_reference] *)
Definition device_by_reference (reference_id : Z) (world : World) : option nat :=
  bt_get reference_id (reference_ids world).

(** Source: [crates/ic10-sim/src/world.rs] [network_index] *)
Definition network_index (id : string) (world : World) : option nat := bt_get id (network_ids world).

(** One connection of a device.
    Source: [crates/ic10-sim/src/world.rs] [World::build] lines 245-287 *)
Definition build_connection (kb : KnowledgeBase) (specification : DeviceSpec) (device_index : nat)
    (world : World) (entry : string * string) : outcome message World :=
  let '(connection_text, network) := entry in
  connection ← ok_or (parse_usize connection_text)
    [PS "device `"; PS (sp_id specification); PS "` has invalid connection `"; PS connection_text; PS "`"];
  network_index ← ok_or (network_index network world)
    [PS "device `"; PS (sp_id specification); PS "` references unknown network `"; PS network; PS "`"];
  metadata ← expect (device_by_name kb (sp_prefab specification));
  connection_metadata ← ok_or (dd_connections metadata !! Z.to_nat connection)
    [PS "device `"; PS (sp_id specification); PS "` does not have connection `"; PZ connection; PS "`"];
  connection_type ← ok_or (as_str (dc_connection_type connection_metadata))
    [PS "device `"; PS (sp_id specification); PS "` connection `"; PZ connection; PS "` has an invalid type"];
  target ← expect (networks world !! network_index);
  if negb (network_accepts_connection target connection_type)
  then Err [PS "device `"; PS (sp_id specification); PS "` connection `"; PZ connection; PS "` (";
            PS connection_type; PS ") is not compatible with network `"; PS network; PS "`"]
  else
    Ok (alter_device (λ d, set_connections (bt_insert connection network_index (connections d)) d)
          device_index world).

(** Source: [crates/ic10-sim/src/world.rs] [World::build] lines 43-290 *)
Definition build (kb : KnowledgeBase) (networks : list NetworkSpec) (devices : list DeviceSpec) :
    outcome message World :=
  world ← fold_outcome build_network empty_world networks;
  '(world, _) ← fold_outcome (build_device kb) (world, 1) devices;
  fold_outcome (λ world specification,
      index ← expect (device_index (sp_id specification) world);
      fold_outcome (build_connection kb specification index) world (sp_connections specification))
    world devices.

(** Source: [crates/ic10-sim/src/world.rs] [devices_on_network] *)
Definition devices_on_network (network : nat) (world : World) : list nat :=
  (filter (λ '(_, device), network ∈ bt_values (connections device)) (enumerate (devices world))).*1.

(** ** Logic fields *)

(** What a field access reads and writes. *)
Record Effects := { fx_world : World; fx_journal : EffectJournal }.

Definition fx_set_world (w : World) (x : Effects) : Effects :=
  {| fx_world := w; fx_journal := fx_journal x |}.
Definition fx_set_journal (j : EffectJournal) (x : Effects) : Effects :=
  {| fx_world := fx_world x; fx_journal := j |}.

Abbreviation FX := (M Effects message).

Definition fx_read (actor : EffectActor) (target : EffectTarget) (value : f64) : FX () :=
  modify (λ x, fx_set_journal (read actor target value (fx_journal x)) x).
Definition fx_write (actor : EffectActor) (target : EffectTarget) (before after : f64) : FX () :=
  modify (λ x, fx_set_journal (write actor target before after (fx_journal x)) x).
Definition fx_intern (name : string) : FX SymbolId := λ x,
  let '(id, j) := intern name (fx_journal x) in (Ok id, fx_set_journal j x).
Definition fx_enabled : FX bool := gets (λ x, is_enabled (fx_journal x)).

(** [self.devices[device]] and [self.networks[network]] *)
Definition get_device (device : nat) : FX Device :=
  get_or_panic (λ x, devices (fx_world x) !! device).
Definition get_network (network : nat) : FX Network :=
  get_or_panic (λ x, networks (fx_world x) !! network).

(** The cable network a channel access goes through: the part [read_field] and
    [write_field] share. *)
Definition channel_network (device : nat) (connection : option Z) (field : string) : FX (nat * Network) :=
  connection ← lift (ok_or connection
    [PS "`"; PS field; PS "` requires a device connection such as `db:0`"]);
  target ← get_device device;
  network ← lift (ok_or (bt_get connection (connections target))
    [PS "device `"; PS (dev_id target); PS "` connection "; PZ connection; PS " is not attached"]);
  net ← get_network network;
  if negb (String.eqb (kind net) "cable")
  then throw [PS "network `"; PS (net_id net); PS "` is not a cable network"]
  else mret (network, net).

(** The access rights of a field that is not a channel: the part shared. *)
Definition field_access (kb : KnowledgeBase) (target : Device) (field : string) : FX LogicAccess :=
  metadata ← lift (ok_or (device_by_name kb (prefab target))
    [PS "unknown prefab `"; PS (prefab target); PS "`"]);
  lift (ok_or (bt_get field (dd_logic_types metadata))
    [PS (dev_name target); PS " does not expose `"; PS field; PS "`"]).

(** Source: [crates/ic10-sim/src/world.rs] [read_field] *)
Definition read_field (kb : KnowledgeBase) (actor : EffectActor) (device : nat) (connection : option Z)
    (field : string) : FX f64 :=
  match channel_index field with
  | Some channel =>
      '(network, net) ← channel_network device connection field;
      value ← lift (expect (channels net !! channel));
      _ ← fx_read actor (TNetworkChannel network (Z.of_nat channel)) value;
      mret value
  | None =>
      target ← get_device device;
      access ← field_access kb target field;
      if negb (ac_read access)
      then throw [PS "`"; PS field; PS "` is not readable on "; PS (dev_name target)]
      else
        value ← lift (ok_or (bt_get field (fields target))
          [PS (dev_name target); PS " has no value for `"; PS field; PS "`"]);
        on ← fx_enabled;
        _ ← when on (field ← fx_intern field; fx_read actor (TDeviceField device field) value);
        mret value
  end.

(** Source: [crates/ic10-sim/src/world.rs] [write_field] *)
Definition write_field (kb : KnowledgeBase) (actor : EffectActor) (device : nat) (connection : option Z)
    (field : string) (value : f64) : FX () :=
  match channel_index field with
  | Some channel =>
      '(network, net) ← channel_network device connection field;
      before ← lift (expect (channels net !! channel));
      _ ← modify (λ x, fx_set_world
            (alter_network (λ n, set_channels (<[channel := value]> (channels n)) n) network (fx_world x)) x);
      fx_write actor (TNetworkChannel network (Z.of_nat channel)) before value
  | None =>
      target ← get_device device;
      access ← field_access kb target field;
      if negb (ac_write access)
      then throw [PS "`"; PS field; PS "` is not writable on "; PS (dev_name target)]
      else
        let before := default f_zero (bt_get field (fields target)) in
        _ ← modify (λ x, fx_set_world
              (alter_device (λ d, set_fields (bt_insert field value (fields d)) d) device (fx_world x)) x);
        on ← fx_enabled;
        _ ← when on (id ← fx_intern field; fx_write actor (TDeviceField device id) before value);
        modify (λ x, fx_set_world
          (set_field_writes (field_writes (fx_world x) ++ [(device, field, before, value)])%list (fx_world x)) x)
  end.

(** Source: [crates/ic10-sim/src/world.rs] [take_field_writes] *)
Definition take_field_writes (world : World) : list (nat * string * f64 * f64) * World :=
  (field_writes world, set_field_writes [] world).

(** ** Well-formed worlds *)

(** The indices agree with the tables they index: an id names exactly the device or
    the network that carries it, connections lead to networks, a network has eight channels. *)
Record world_ok (w : World) : Prop := {
  ok_channels : Forall (λ n, length (channels n) = 8%nat) (networks w);
  ok_connections :
    Forall (λ d, Forall (λ e : Z * nat, e.2 < length (networks w))%nat (connections d)) (devices w);
  ok_reference_ids r i :
    bt_get r (reference_ids w) = Some i ↔ ∃ d, devices w !! i = Some d ∧ reference_id d = r;
  ok_device_ids id i :
    bt_get id (device_ids w) = Some i ↔ ∃ d, devices w !! i = Some d ∧ dev_id d = id;
  ok_network_ids id i :
    bt_get id (network_ids w) = Some i ↔ ∃ n, networks w !! i = Some n ∧ net_id n = id;
}.

(** The size of each device's memory. *)
Definition memory_sizes (w : World) : list nat := (λ d, length (memory d)) <$> devices w.

(** A well-formed world with [nn] networks and a device for each size in [sizes]. *)
Definition world_shape (sizes : list nat) (nn : nat) (w : World) : Prop :=
  memory_sizes w = sizes ∧ length (networks w) = nn ∧ world_ok w.

Definition fx_shape (sizes : list nat) (nn : nat) (x : Effects) : Prop := world_shape sizes nn (fx_world x).

(** An update at one position that keeps a projection keeps what the positions hold. *)
Lemma alter_exists {A B} (P : A → B) f i (l : list A) k (b : B) :
  (∀ a, P (f a) = P a) → (∃ a, alter f i l !! k = Some a ∧ P a = b) ↔ (∃ a, l !! k = Some a ∧ P a = b).
Proof.
  intros HP. rewrite list_lookup_alter. case_decide; [|done].
  subst k. destruct (l !! i) as [a|]; simpl; [|naive_solver].
  split; intros (a' & [= <-] & Hb); eexists; (split; [reflexivity|]); by rewrite ?HP in *.
Qed.

(** What an update of a device in place keeps. *)
Definition same_identity (f : Device → Device) : Prop :=
  ∀ d, dev_id (f d) = dev_id d ∧ reference_id (f d) = reference_id d
       ∧ connections (f d) = connections d ∧ length (memory (f d)) = length (memory d).

Lemma set_fields_identity g : same_identity (λ d, set_fields (g d) d).
Proof. by intros d. Qed.
Lemma set_slots_identity g : same_identity (λ d, set_slots (g d) d).
Proof. by intros d. Qed.
Lemma set_memory_identity g :
  (∀ d, length (g d) = length (memory d)) → same_identity (λ d, set_memory (g d) d).
Proof. intros Hg d. repeat split. apply Hg. Qed.
#[export] Hint Resolve set_fields_identity set_slots_identity : sim.

Lemma lookup_alter_device f i j (w : World) :
  devices (alter_device f i w) !! j = (if decide (i = j) then f else id) <$> devices w !! j.
Proof.
  simpl. rewrite list_lookup_alter. case_decide; [by subst|]. by destruct (devices w !! j).
Qed.

Lemma alter_device_exists {B} (P : Device → B) f i w k (b : B) :
  (∀ d, P (f d) = P d) →
  (∃ d, devices (alter_device f i w) !! k = Some d ∧ P d = b)
    ↔ (∃ d, devices w !! k = Some d ∧ P d = b).
Proof.
  apply alter_exists.
Qed.

Lemma world_ok_alter_device f i w :
  (∀ d, dev_id (f d) = dev_id d) → (∀ d, reference_id (f d) = reference_id d) →
  (∀ d, Forall (λ e : Z * nat, e.2 < length (networks w))%nat (connections d) →
        Forall (λ e : Z * nat, e.2 < length (networks w))%nat (connections (f d))) →
  world_ok w → world_ok (alter_device f i w).
Proof.
  intros Hid Href Hc [H1 H2 H3 H4 H5]. constructor; simpl; [done| | | |done].
  - apply Forall_lookup. intros k d. rewrite list_lookup_alter. intros Hk.
    rewrite Forall_lookup in H2. case_decide; [subst k|by eauto].
    apply fmap_Some in Hk as (d' & Hd' & ->). eauto.
  - intros r k. rewrite H3. symmetry. by apply (alter_device_exists reference_id f i w).
  - intros id k. rewrite H4. symmetry. by apply (alter_device_exists dev_id f i w).
Qed.

Lemma memory_sizes_alter f i w :
  (∀ d, length (memory (f d)) = length (memory d)) →
  memory_sizes (alter_device f i w) = memory_sizes w.
Proof.
  intros Hf. apply list_eq. intros j. unfold memory_sizes.
  rewrite !list_lookup_fmap, lookup_alter_device. destruct (devices w !! j); simpl; [|done].
  case_decide; simpl; [by rewrite Hf|done].
Qed.

Lemma world_shape_alter_device sizes nn f i w :
  same_identity f → world_shape sizes nn w → world_shape sizes nn (alter_device f i w).
Proof.
  intros Hf (Hd & Hn & Hok). split_and!; [rewrite memory_sizes_alter; [done|]; apply Hf|done|].
  apply world_ok_alter_device; [apply Hf..| |done].
  intros d. by destruct (Hf d) as (_ & _ & -> & _).
Qed.

Lemma world_shape_alter_network sizes nn f i w :
  (∀ n, length (channels (f n)) = length (channels n)) → (∀ n, net_id (f n) = net_id n) →
  world_shape sizes nn w → world_shape sizes nn (alter_network f i w).
Proof.
  intros Hf Hid (Hd & Hn & [H1 H2 H3 H4 H5]). split_and!; simpl; [done|by rewrite length_alter|].
  constructor; simpl; [|by rewrite length_alter|done|done|intros id k; rewrite H5; symmetry; by apply alter_exists].
  apply Forall_lookup. intros k n. rewrite list_lookup_alter. intros Hk.
  rewrite Forall_lookup in H1. case_decide; [|eauto].
  apply fmap_Some in Hk as (n' & Hn' & ->). rewrite Hf. eauto.
Qed.

Lemma world_shape_set_field_writes sizes nn l w :
  world_shape sizes nn w → world_shape sizes nn (set_field_writes l w).
Proof. intros (Hd & Hn & [H1 H2 H3 H4 H5]). by split_and!. Qed.
#[export] Hint Resolve world_shape_alter_device world_shape_set_field_writes : sim.

Lemma length_memory_sizes w : length (memory_sizes w) = length (devices w).
Proof. apply length_fmap. Qed.

Lemma device_by_reference_lt sizes nn r i w :
  world_shape sizes nn w → device_by_reference r w = Some i → (i < length sizes)%nat.
Proof.
  intros (<- & _ & Hok) H. apply (ok_reference_ids _ Hok) in H as (d & Hd & _).
  rewrite length_memory_sizes. by eapply lookup_lt_Some.
Qed.

Lemma devices_on_network_lt network w i :
  i ∈ devices_on_network network w → (i < length (devices w))%nat.
Proof.
  unfold devices_on_network, enumerate. rewrite list_elem_of_fmap.
  intros ([k d] & -> & H). apply list_elem_of_filter in H as [_ H].
  apply elem_of_zip_l in H. apply elem_of_seq in H. simpl. lia.
Qed.

(** ** Field access keeps the world well formed *)
Section access.
Context (sizes : list nat) (nn : nat).
Local Abbreviation ok := (fx_shape sizes nn).
Local Abbreviation nd := (length sizes).

Lemma safe_fx_read actor target value : safe ok (fx_read actor target value) any.
Proof. apply safe_modify. intros s Hs. exact Hs. Qed.

Lemma safe_fx_write actor target before after : safe ok (fx_write actor target before after) any.
Proof. apply safe_modify. intros s Hs. exact Hs. Qed.

Lemma safe_fx_intern name : safe ok (fx_intern name) any.
Proof. intros s Hs. unfold fx_intern. destruct (intern name (fx_journal s)). by split. Qed.

Lemma safe_fx_enabled : safe ok fx_enabled any.
Proof. by apply safe_gets. Qed.

Lemma safe_get_device device :
  (device < nd)%nat → safe ok (get_device device)
    (λ d, Forall (λ e : Z * nat, e.2 < nn)%nat (connections d) ∧ sizes !! device = Some (length (memory d))).
Proof.
  intros Hd. apply safe_get_or_panic. intros s (Hl & Hn & Hok). rewrite <-Hl, length_memory_sizes in Hd.
  apply lookup_lt_is_Some_2 in Hd as [d Hd]. exists d. split; [done|].
  pose proof (ok_connections _ Hok) as H. rewrite Hn in H. split; [by eapply Forall_lookup_1 in H|].
  rewrite <-Hl. unfold memory_sizes. by rewrite list_lookup_fmap, Hd.
Qed.

Lemma safe_get_network network :
  (network < nn)%nat → safe ok (get_network network) (λ n, length (channels n) = 8%nat).
Proof.
  intros Hn. apply safe_get_or_panic. intros s (_ & Hl & Hok). rewrite <-Hl in Hn.
  apply lookup_lt_is_Some_2 in Hn as [n Hn]. exists n. split; [done|].
  pose proof (ok_channels _ Hok) as H. by eapply Forall_lookup_1 in H.
Qed.

Lemma connection_lt {m : BTreeMap Z nat} {c n} :
  Forall (λ e : Z * nat, e.2 < nn)%nat m → bt_get c m = Some n → (n < nn)%nat.
Proof. intros Hm H%bt_get_elem. eapply Forall_forall in Hm; [|exact H]. done. Qed.

Lemma safe_channel_network device connection field :
  (device < nd)%nat → safe ok (channel_network device connection field)
    (λ p, length (channels p.2) = 8%nat).
Proof.
  intros Hd. unfold channel_network.
  eapply safe_bind; [apply safe_lift_any|intros c _].
  eapply safe_bind; [by apply safe_get_device|intros d [Hc _]].
  eapply safe_bind; [apply safe_lift_ok_or; intros n; exact (connection_lt Hc)|intros n Hn].
  eapply safe_bind; [by apply safe_get_network|intros net Hnet].
  safe_step; [apply safe_throw|by apply safe_ret].
Qed.

Lemma safe_field_access kb target field : safe ok (field_access kb target field) any.
Proof.
  unfold field_access. eapply safe_bind; [apply safe_lift_any|intros m _].
  apply safe_lift_any.
Qed.

Lemma channel_index_lt field channel : channel_index field = Some channel → (channel < 8)%nat.
Proof.
  unfold channel_index. destruct (parse_usize _) as [z|] eqn:E; [|done].
  apply parse_unsigned_range in E. destruct (Z.ltb_spec z 8); [|done]. intros [= <-]. lia.
Qed.

Lemma safe_expect_lookup {A} (l : list A) i :
  (i < length l)%nat → safe ok (lift (expect (l !! i)) : FX A) any.
Proof. intros [a Ha]%lookup_lt_is_Some_2 s Hs. rewrite Ha. by split. Qed.

Lemma safe_read_field kb actor device connection field :
  (device < nd)%nat → safe ok (read_field kb actor device connection field) any.
Proof.
  intros Hd. unfold read_field. destruct (channel_index field) as [channel|] eqn:E.
  - eapply safe_bind; [by apply safe_channel_network|intros [n net] Hnet; simpl in Hnet].
    eapply safe_bind; [apply safe_expect_lookup|intros v _].
    { rewrite Hnet. by apply channel_index_lt in E. }
    eapply safe_bind; [apply safe_fx_read|intros _ _]. by apply safe_ret.
  - eapply safe_bind; [by apply safe_get_device|intros d _].
    eapply safe_bind; [apply safe_field_access|intros a _].
    safe_step; [apply safe_throw|].
    eapply safe_bind; [apply safe_lift_any|intros v _].
    eapply safe_bind; [apply safe_fx_enabled|intros on _].
    eapply safe_bind; [|intros _ _; by apply safe_ret]. apply safe_when.
    eapply safe_bind; [apply safe_fx_intern|intros f _; apply safe_fx_read].
Qed.

Lemma safe_modify_world (f : World → World) :
  (∀ w, world_shape sizes nn w → world_shape sizes nn (f w)) →
  safe ok (modify (λ x, fx_set_world (f (fx_world x)) x) : FX ()) any.
Proof. intros Hf. apply safe_modify. intros s. apply Hf. Qed.

Lemma safe_write_field kb actor device connection field value :
  (device < nd)%nat → safe ok (write_field kb actor device connection field value) any.
Proof.
  intros Hd. unfold write_field. destruct (channel_index field) as [channel|] eqn:E.
  - eapply safe_bind; [by apply safe_channel_network|intros [n net] Hnet; simpl in Hnet].
    eapply safe_bind; [apply safe_expect_lookup|intros v _].
    { rewrite Hnet. by apply channel_index_lt in E. }
    eapply safe_bind; [|intros _ _; apply safe_fx_write].
    apply (safe_modify_world (alter_network _ n)). intros w.
    apply world_shape_alter_network; [|done]. intros net'. simpl. apply length_insert.
  - eapply safe_bind; [by apply safe_get_device|intros d _].
    eapply safe_bind; [apply safe_field_access|intros a _].
    safe_step; [apply safe_throw|].
    eapply safe_bind; [apply (safe_modify_world (alter_device _ device)); eauto with sim|intros _ _].
    eapply safe_bind; [apply safe_fx_enabled|intros on _].
    eapply safe_bind; [apply safe_when|intros _ _].
    + eapply safe_bind; [apply safe_fx_intern|intros f _; apply safe_fx_write].
    + apply safe_modify. intros s. apply world_shape_set_field_writes.
Qed.
End access.

(** ** Construction *)

Lemma lookup_snoc_Some {A} (l : list A) a i b :
  (l ++ [a])%list !! i = Some b ↔ l !! i = Some b ∨ (i = length l ∧ a = b).
Proof.
  rewrite lookup_app_Some, list_lookup_singleton_Some. split.
  - intros [?|[? [? ?]]]; [by left|right; split; [lia|done]].
  - intros [?|[-> ->]]; [by left|right; split; [lia|split; [lia|done]]].
Qed.

(** Adding an entry for a fresh key keeps an index exact. *)
Lemma index_snoc {A K} `{RustOrd K} (P : A → K) (m : BTreeMap K nat) (l : list A) d :
  (∀ k i, bt_get k m = Some i ↔ ∃ d, l !! i = Some d ∧ P d = k) →
  bt_contains_key (P d) m = false →
  ∀ k i, bt_get k (bt_insert (P d) (length l) m) = Some i
         ↔ ∃ d', (l ++ [d])%list !! i = Some d' ∧ P d' = k.
Proof.
  intros Hm Hfresh k i.
  assert (∀ j d', l !! j = Some d' → P d' ≠ P d) as Hne.
  { intros j d' Hd' Heq. assert (bt_get (P d) m = Some j) as Hg by (apply Hm; eauto).
    unfold bt_contains_key in Hfresh. by rewrite Hg in Hfresh. }
  setoid_rewrite lookup_snoc_Some. rewrite bt_get_insert.
  destruct (rcmp k (P d)) eqn:Ec.
  - apply rcmp_eq in Ec as ->. split.
    + intros [= <-]. eauto.
    + intros (d' & [Hd'|[-> ->]] & Hp); [by apply Hne in Hd'|done].
  - rewrite Hm. split; [naive_solver|]. intros (d' & [Hd'|[-> ->]] & Hp); [eauto|].
    subst k. by rewrite rcmp_refl in Ec.
  - rewrite Hm. split; [naive_solver|]. intros (d' & [Hd'|[-> ->]] & Hp); [eauto|].
    subst k. by rewrite rcmp_refl in Ec.
Qed.

Lemma build_network_ok w s w' :
  world_ok w → devices w = [] → build_network w s = Ok w' → world_ok w' ∧ devices w' = [].
Proof.
  intros [H1 H2 H3 H4 H5] Hd Hb. unfold build_network in Hb. outcome_inv. subst w'. simpl.
  split; [|done]. constructor; simpl; [|by rewrite Hd|done..|].
  2: { match goal with |- context [(_ ++ [?n])%list] => by apply (index_snoc net_id _ _ n H5) end. }
  apply Forall_app. split; [done|]. apply Forall_singleton. simpl.
  match goal with H : fold_outcome _ _ _ = Ok _ |- _ => revert H end.
  apply (fold_outcome_ind (λ l, length l = 8%nat)); [|done].
  intros l [name v] l' _ Hl Hstep. outcome_inv. subst l'. by rewrite length_insert.
Qed.

Lemma build_device_ok kb w n s w' n' :
  world_ok w → build_device kb (w, n) s = Ok (w', n') →
  world_ok w' ∧ networks w' = networks w
  ∧ ∃ d, devices w' = (devices w ++ [d])%list ∧ dev_id d = sp_id s.
Proof.
  intros [H1 H2 H3 H4 H5] Hb. unfold build_device in Hb. outcome_inv. simplify_eq. simpl.
  split_and!; [|done|by eexists]. constructor; simpl; [done| | | |done].
  - apply Forall_app. split; [done|]. apply Forall_singleton. constructor.
  - match goal with |- context [(_ ++ [?d])%list] => apply (index_snoc reference_id _ _ d H3) end.
    done.
  - match goal with |- context [(_ ++ [?d])%list] => apply (index_snoc dev_id _ _ d H4) end.
    done.
Qed.

Lemma build_connection_ok kb s i w e w' :
  world_ok w → build_connection kb s i w e = Ok w' →
  world_ok w' ∧ length (devices w') = length (devices w) ∧ networks w' = networks w.
Proof.
  intros Hok Hb. destruct e as [c net]. unfold build_connection in Hb. outcome_inv. subst w'.
  split_and!; simpl; [|by rewrite length_alter|done].
  apply world_ok_alter_device; [done..| |done]. intros d Hd. simpl.
  apply Forall_forall. intros e [->|He]%bt_insert_elem; simpl.
  - by eapply lookup_lt_Some.
  - by eapply Forall_forall in Hd.
Qed.

Lemma build_ok kb nets devs w :
  build kb nets devs = Ok w → world_ok w ∧ length (devices w) = length devs.
Proof.
  intros Hb. unfold build in Hb. apply outcome_bind_Ok in Hb as (w1 & Hnets & Hb).
  apply outcome_bind_Ok in Hb as ([w2 n2] & Hdevs & Hb).
  assert (world_ok w1 ∧ devices w1 = []) as [Hok1 Hd1].
  { revert Hnets.
    apply (fold_outcome_ind (λ w, world_ok w ∧ devices w = [])).
    - intros wa s wb _ [? ?] ?. by eapply build_network_ok.
    - split; [|done]. constructor; simpl; [constructor..| | |]; intros; (split; [done|]);
        by intros (? & ? & _). }
  assert (world_ok w2 ∧ length (devices w2) = length devs) as [Hok2 Hd2].
  { revert Hdevs.
    replace (length devs) with (length (devices w1) + length devs)%nat by (rewrite Hd1; simpl; lia).
    clear -Hok1. revert w1 Hok1. generalize 1. induction devs as [|s devs IH]; intros n w1 Hok; simpl.
    - intros [= <- <-]. split; [exact Hok|lia].
    - intros Hb. apply outcome_bind_Ok in Hb as ([w' n'] & Hs & Hb).
      apply build_device_ok in Hs as (Hok' & _ & d & Hd & _); [|done].
      apply IH in Hb as [? ->]; [|done]. split; [done|]. rewrite Hd, length_app. simpl. lia. }
  revert Hb.
  apply (fold_outcome_ind (λ w, world_ok w ∧ length (devices w) = length devs)); [|done].
  intros wc s wd _ Hwc Hs. outcome_inv.
  match goal with H : fold_outcome _ wc _ = Ok _ |- _ => revert H end.
  apply (fold_outcome_ind (λ w, world_ok w ∧ length (devices w) = length devs)); [|done].
  intros we e wf _ [Hok5 Hl5] (? & ? & _)%build_connection_ok; [|done]. by rewrite Hl5 in *.
Qed.


(** ** A concrete world *)
Definition sample_kb : KnowledgeBase :=
  kb_of 128 128 [] [] []
    [device_of "Housing" 7 [("Setting", true, true); ("Error", true, false)] [] ["Data"] None;
     device_of "Lamp" 9 [("On", true, true); ("Charge", true, false)] [("0", ["Quantity"])] ["PowerAndData"]
       (Some 4)].

Definition sample_network : NetworkSpec :=
  {| ns_id := "main"; ns_kind := "cable"; ns_cable_role := None; ns_channels := [("Channel1", SNumber f_one)] |}.

Definition sample_device (id prefab : string) (reference : option Z) : DeviceSpec :=
  {| sp_id := id; sp_prefab := prefab; sp_name := ""; sp_reference_id := reference;
     sp_connections := [("0", "main")]; sp_fields := []; sp_slots := []; sp_memory := [];
     sp_ic := None; sp_program := None |}.

Definition sample_devices : list DeviceSpec :=
  [sample_device "h" "Housing" None; sample_device "a" "Lamp" (Some 2); sample_device "b" "Lamp" None].

Definition sample_world : World :=
  match build sample_kb [sample_network] sample_devices with Ok w => w | _ => empty_world end.

Lemma sample_world_ok : world_ok sample_world.
Proof. eapply (build_ok sample_kb [sample_network] sample_devices). vm_compute. reflexivity. Qed.


(** ** Reading what was written *)

(** The access rights the game data gives a field of a device. *)
Definition access_of (kb : KnowledgeBase) (w : World) (device : nat) (field : string) : option LogicAccess :=
  d ← devices w !! device; m ← device_by_name kb (prefab d); bt_get field (dd_logic_types m).

(** The network a channel access of a device goes through. *)
Definition channel_target (w : World) (device : nat) (connection : option Z) : option nat :=
  d ← devices w !! device; c ← connection; bt_get c (connections d).

Lemma channel_network_spec device connection field x :
  channel_network device connection field x =
    ((match connection with
      | None => Err [PS "`"; PS field; PS "` requires a device connection such as `db:0`"]
      | Some c =>
          match devices (fx_world x) !! device with
          | None => Panic
          | Some d =>
              match bt_get c (connections d) with
              | None => Err [PS "device `"; PS (dev_id d); PS "` connection "; PZ c; PS " is not attached"]
              | Some n =>
                  match networks (fx_world x) !! n with
                  | None => Panic
                  | Some net =>
                      if negb (String.eqb (kind net) "cable")
                      then Err [PS "network `"; PS (net_id net); PS "` is not a cable network"]
                      else Ok (n, net)
                  end
              end
          end
      end), x).
Proof.
  unfold channel_network, get_device, get_network, get_or_panic, lift, throw, mbind, M_mbind.
  destruct connection as [c|]; [|done]. simpl.
  destruct (devices (fx_world x) !! device) as [d|]; [|done].
  destruct (bt_get c (connections d)) as [n|]; [|done]. simpl.
  destruct (networks (fx_world x) !! n) as [net|]; [|done].
  by destruct (String.eqb (kind net) "cable").
Qed.

Lemma field_access_spec kb target field x :
  field_access kb target field x =
    ((metadata ← ok_or (device_by_name kb (prefab target))
        [PS "unknown prefab `"; PS (prefab target); PS "`"];
      ok_or (bt_get field (dd_logic_types metadata))
        [PS (dev_name target); PS " does not expose `"; PS field; PS "`"]), x).
Proof.
  unfold field_access, lift, mbind, M_mbind. by destruct (device_by_name kb (prefab target)).
Qed.

Lemma write_field_err kb actor device connection field value x e x' :
  write_field kb actor device connection field value x = (Err e, x') → x' = x.
Proof.
  unfold write_field, get_device, get_or_panic, lift, modify, throw, when, fx_enabled, gets, fx_intern,
    mbind, M_mbind.
  destruct (channel_index field) as [c|].
  - rewrite channel_network_spec. repeat case_match; intros; by simplify_eq.
  - destruct (devices (fx_world x) !! device) as [d|]; [|done]. rewrite field_access_spec.
    repeat case_match; intros; by simplify_eq.
Qed.

Lemma write_channel_read kb actor device connection field value c x x' :
  channel_index field = Some c →
  world_ok (fx_world x) →
  write_field kb actor device connection field value x = (Ok (), x') →
  (read_field kb actor device connection field x').1 = Ok value.
Proof.
  intros Hc Hx. pose proof (channel_index_lt _ _ Hc) as Hlt.
  unfold write_field, read_field, lift, modify, fx_write, fx_read, mbind, M_mbind. rewrite Hc.
  rewrite channel_network_spec.
  destruct connection as [k|]; [|done].
  destruct (devices (fx_world x) !! device) as [d|] eqn:Hd; [|done].
  destruct (bt_get k (connections d)) as [n|] eqn:Hk; [|done].
  destruct (networks (fx_world x) !! n) as [net|] eqn:Hn; [|done].
  destruct (String.eqb (kind net) "cable") eqn:Hkind; [|done]. simpl.
  destruct (channels net !! c) as [before|] eqn:Hch; [|done]. simpl. intros [= <-].
  rewrite channel_network_spec. simpl. rewrite Hd, Hk. simpl.
  rewrite list_lookup_alter, decide_True, Hn by done. simpl. rewrite Hkind. simpl.
  rewrite list_lookup_insert_eq; [done|]. by eapply lookup_lt_Some.
Qed.

(** The world after a store to a logic field. *)
Definition stored_field (device : nat) (field : string) (value : f64) (w : World) : World :=
  alter_device (λ d, set_fields (bt_insert field value (fields d)) d) device w.

Lemma write_plain_world kb actor device connection field value x x' :
  channel_index field = None →
  write_field kb actor device connection field value x = (Ok (), x') →
  fx_world x' = set_field_writes (field_writes (fx_world x')) (stored_field device field value (fx_world x)).
Proof.
  intros Hc. unfold write_field, get_device, get_or_panic, lift, modify, fx_enabled, gets, mbind, M_mbind.
  rewrite Hc. destruct (devices (fx_world x) !! device) as [d|] eqn:Hd; [|done].
  rewrite field_access_spec. destruct (device_by_name kb (prefab d)) as [m|]; [|done]. simpl.
  destruct (bt_get field (dd_logic_types m)) as [a|]; [|done]. simpl.
  destruct (ac_write a); [|done]. simpl. unfold when, fx_intern, fx_write, modify, mbind, M_mbind.
  destruct (is_enabled _); simpl; [destruct (intern field (fx_journal x))|]; by intros [= <-].
Qed.

Lemma read_stored_field kb actor device connection field value w l y :
  channel_index field = None →
  (ac_read <$> access_of kb w device field) = Some true →
  fx_world y = set_field_writes l (stored_field device field value w) →
  (read_field kb actor device connection field y).1 = Ok value.
Proof.
  intros Hc Hread Hy. unfold access_of in Hread.
  unfold read_field, get_device, get_or_panic, lift, mbind, M_mbind. rewrite Hc, Hy. simpl.
  destruct (devices w !! device) as [d|] eqn:Hd; [|done]. simpl in Hread.
  rewrite list_lookup_alter, decide_True, Hd by done. simpl. rewrite field_access_spec. simpl.
  destruct (device_by_name kb (prefab d)) as [m|]; [|done]. simpl in *.
  destruct (bt_get field (dd_logic_types m)) as [a|]; [|done]. simpl in *.
  assert (ac_read a = true) as -> by congruence. simpl. rewrite bt_get_insert_eq. simpl.
  unfold fx_enabled, gets, when, fx_intern.
  destruct (is_enabled (fx_journal y)); simpl; [|done]. by destruct (intern field (fx_journal y)).
Qed.

(** A value stored in a channel, or in a logic field that may also be read,
    is the value a read at the same place returns next; a store that is refused
    changes neither the world nor the journal. *)
Theorem field_read_after_write (kb : KnowledgeBase) (actor : EffectActor) (device : nat)
    (connection : option Z) (field : string) (value : f64) (sizes : list nat) (nn : nat) (x : Effects) :
  fx_shape sizes nn x →
  (channel_index field = None → ac_read <$> access_of kb (fx_world x) device field = Some true) →
  let '(r, x') := write_field kb actor device connection field value x in
  (r = Ok () → (read_field kb actor device connection field x').1 = Ok value)
  ∧ (∀ e, r = Err e → x' = x).
Proof.
  intros (Hnd & Hnn & Hok) Hread.
  destruct (write_field kb actor device connection field value x) as [r x'] eqn:Hw. split.
  - intros ->. destruct (channel_index field) as [c|] eqn:Hc.
    + eapply write_channel_read; [exact Hc|exact Hok|exact Hw].
    + eapply read_stored_field; [exact Hc|by apply Hread|by eapply write_plain_world].
  - intros e ->. by eapply write_field_err.
Qed.

Lemma field_read_after_write_witness :
  let x := {| fx_world := sample_world; fx_journal := set_enabled true journal_default |} in
  let x' := (write_field sample_kb ActorDebugger 1 None "On" f_one x).2 in
  (read_field sample_kb ActorDebugger 1 None "On" x').1 = Ok f_one.
Proof.
  intros x x'.
  assert (fx_shape [0; 4; 4]%nat 1 x) as Hx by (split_and!; [reflexivity..|]; apply sample_world_ok).
  assert (write_field sample_kb ActorDebugger 1 None "On" f_one x = (Ok (), x')) as Hw
    by (vm_compute; reflexivity).
  pose proof (field_read_after_write sample_kb ActorDebugger 1 None "On" f_one [0; 4; 4]%nat 1 x Hx) as H.
  rewrite Hw in H. apply H; vm_compute; reflexivity.
Defined.
