(* ===== verification/Program.v ===== *)
(** * Compiled programs

    [crates/ic10-sim/src/program.rs]: the program a CPU runs, and the resolution of
    an operand to a number.  The build sidecars are read from files and JSON, so
    their decoded entries are an argument of [load_build_mapping]. *)

From S2P Require Import Prelude BTree Text F64 Knowledge Literals.
Local Open Scope string_scope.
Local Open Scope Z_scope.

(** Source: [crates/ic10-sim/src/program.rs] [Operation] *)
Record Operation := {
  op_line : Z;
  mnemonic : string;
  operands : list string;
}.

(** Source: [crates/ic10-sim/src/program.rs] [Program] *)
Record Program := {
  source_path : string;
  debug_source_path : string;
  source : string;
  operations : BTreeMap Z Operation;
  labels : BTreeMap string Z;
  defines : BTreeMap string string;
  aliases : BTreeMap string string;
  generated_to_source : BTreeMap Z Z;
}.

(** Source: [crates/ic10-sim/src/program.rs] [operation_at_or_after] *)
Definition operation_at_or_after (program : Program) (line : Z) : option Operation :=
  snd <$> bt_first_from line (operations program).

(** Source: [crates/ic10-sim/src/program.rs] [debug_line] *)
Definition debug_line (program : Program) (generated_line : Z) : Z :=
  default generated_line (bt_get generated_line (generated_to_source program)).

(** Source: [crates/ic10-sim/src/program.rs] [generated_line] *)
Definition generated_line (program : Program) (source_line : Z) : option Z :=
  option_or
    (find_map (λ '(generated, source), if source =? source_line then Some generated else None)
       (generated_to_source program))
    (match generated_to_source program with [] => Some source_line | _ => None end).

(** At most [n] steps along a chain of names. *)
Fixpoint follow (n : nat) (m : BTreeMap string string) (current : string) : string :=
  match n with
  | O => current
  | S n' => match bt_get current m with None => current | Some next => follow n' m next end
  end.

(** Source: [crates/ic10-sim/src/program.rs] [resolve_alias] *)
Definition resolve_alias (program : Program) (value : string) : string :=
  follow 32 (aliases program) value.

(** Source: [crates/ic10-sim/src/program.rs] [parse_number] *)
Definition parse_number (value : string) : option f64 := parse_numeric_literal value.

(** Source: [crates/ic10-sim/src/program.rs] [json_number] *)
Definition json_number (value : json_value) : option f64 :=
  option_or (as_f64 value)
    (option_or (f_of_Z <$> as_i64 value) (as_str value ≫= parse_number)).

(** [{:?}] of a [PackedStringError] *)
Definition packed_error_debug (e : PackedStringError) : message :=
  match e with
  | NonAscii => [PS "NonAscii"]
  | TooLong length => [PS "TooLong { length: "; PZ length; PS " }"]
  end.

(** Source: [crates/ic10-sim/src/program.rs] [resolve_number] *)
Definition resolve_number (program : Program) (kb : KnowledgeBase) (value : string) : outcome message f64 :=
  let current := follow 32 (defines program) (resolve_alias program value) in
  match bt_get current (labels program) with
  | Some line => Ok (f_of_Z line)
  | None =>
      match parse_literal_macro current with
      | Some literal =>
          match lm_kind literal with
          | MacroHash => Ok (f_of_Z (wrap_i 32 (stationeers_crc32 (lm_value literal))))
          | MacroString =>
              match pack_stationeers_string (lm_value literal) with
              | Ok value => Ok (f_of_Z value)
              | Err error => Err (PS "invalid STR literal: " :: packed_error_debug error)
              | Panic => Panic
              end
          end
      | None =>
          match bt_get current (la_constants (kb_language kb)) ≫= (λ c, json_number (co_value c)) with
          | Some value => Ok value
          | None =>
              match enum_value kb current ≫= (λ e, json_number (ev_value e.2)) with
              | Some value => Ok value
              | None =>
                  ok_or (parse_number current)
                    [PS "cannot resolve numeric operand `"; PS value; PS "`"]
              end
          end
      end
  end.

(** Source: [crates/ic10-sim/src/program.rs] [BuildMapEntry] *)
Record BuildMapEntry := {
  me_generated_line : Z;
  me_source_line : Z;
}.

(** [usize::checked_sub(1)] *)
Definition checked_pred (z : Z) : option Z := if 1 <=? z then Some (z - 1) else None.

(** The decoded sidecars to the debug path and the line mapping.
    Source: [crates/ic10-sim/src/program.rs] [load_build_mapping] *)
Definition load_build_mapping (artifact : string) (entries : option (list BuildMapEntry))
    (metadata_source_path : option string) : string * BTreeMap Z Z :=
  let mapping := bt_collect (omap (λ entry,
      generated ← checked_pred (me_generated_line entry);
      source ← checked_pred (me_source_line entry);
      Some (generated, source)) (default [] entries)) in
  match mapping with
  | [] => (artifact, mapping)
  | _ => (default artifact metadata_source_path, mapping)
  end.

(** Source: [crates/ic10-sim/src/program.rs] [CompileError] *)
Record CompileError := { ce_diagnostics : list string }.

(** ** Names *)

Lemma follow_fixed n m value : bt_get value m = None → follow n m value = value.
Proof. intros H. destruct n; simpl; [done|]. by rewrite H. Qed.

Lemma resolve_number_no_panic program kb value : resolve_number program kb value ≠ Panic.
Proof.
  unfold resolve_number, pack_stationeers_string. repeat case_match; try done; by destruct (parse_number _).
Qed.

Lemma operation_at_or_after_elem program line op :
  operation_at_or_after program line = Some op → ∃ k, (k, op) ∈ operations program ∧ line ≤ k.
Proof.
  unfold operation_at_or_after. intros H. apply fmap_Some in H as ([k o] & H & ->).
  apply bt_first_from_Some in H as [Hin Hc]. exists k. split; [done|]. simpl in Hc.
  by apply Z.compare_le_iff.
Qed.
