(* ===== verification/Compile.v ===== *)
(** * Compilation

    [crates/ic10-sim/src/program.rs], [Program::compile]: a source text without
    error diagnostics becomes the tables a processor runs on.  The build sidecars
    are the decoded entries and metadata that [load_build_mapping] takes. *)

From S2P Require Import Prelude BTree Text F64 Knowledge Literals Syntax Analysis Program.
Local Open Scope string_scope.
Local Open Scope Z_scope.

(** The maps filled by the loop of [compile]. *)
Record Tables := {
  tb_operations : BTreeMap Z Operation;
  tb_labels : BTreeMap string Z;
  tb_defines : BTreeMap string string;
  tb_aliases : BTreeMap string string;
}.

Definition operation_of (number : Z) (mnemonic : Token) (operands : list Token) : Operation :=
  {| op_line := number; mnemonic := to_ascii_lowercase (text mnemonic); operands := text <$> operands |}.

(** Source: [crates/ic10-sim/src/program.rs] [compile] lines 53-82 *)
Definition compile_line (t : Tables) (line : ParsedLine) : Tables :=
  match pl_kind line with
  | LineEmpty => t
  | LineLabel name =>
      {| tb_operations := tb_operations t; tb_labels := bt_insert (text name) (pl_number line) (tb_labels t);
         tb_defines := tb_defines t; tb_aliases := tb_aliases t |}
  | LineInstruction mnemonic operands =>
      match declared_kind (text mnemonic), text <$> operands with
      | Some SymDefine, name :: value :: _ =>
          {| tb_operations := tb_operations t; tb_labels := tb_labels t;
             tb_defines := bt_insert name value (tb_defines t); tb_aliases := tb_aliases t |}
      | Some SymAlias, name :: value :: _ =>
          {| tb_operations := tb_operations t; tb_labels := tb_labels t;
             tb_defines := tb_defines t; tb_aliases := bt_insert name value (tb_aliases t) |}
      | _, _ =>
          {| tb_operations :=
               bt_insert (pl_number line) (operation_of (pl_number line) mnemonic operands) (tb_operations t);
             tb_labels := tb_labels t; tb_defines := tb_defines t; tb_aliases := tb_aliases t |}
      end
  end.

Definition compile_lines (lines : list ParsedLine) : Tables :=
  foldl compile_line {| tb_operations := []; tb_labels := []; tb_defines := []; tb_aliases := [] |} lines.

Definition error_messages (document : Document) : list string :=
  di_message <$> filter (λ d, di_severity d = SevError) (do_diagnostics document).

(** Source: [crates/ic10-sim/src/program.rs] [compile] *)
Definition compile (source_path source : string) (kb : KnowledgeBase) (entries : option (list BuildMapEntry))
    (metadata_source_path : option string) : outcome CompileError Program :=
  let document := parse source kb in
  match error_messages document with
  | [] =>
      let t := compile_lines (do_lines document) in
      let '(debug_source_path, generated_to_source) :=
        load_build_mapping source_path entries metadata_source_path in
      Ok {| source_path := source_path; debug_source_path := debug_source_path; source := source;
            operations := tb_operations t; labels := tb_labels t; defines := tb_defines t; aliases := tb_aliases t;
            generated_to_source := generated_to_source |}
  | diagnostics => Err {| ce_diagnostics := diagnostics |}
  end.

(** ** What the tables hold *)

(** What one line adds to each table. *)
Definition declared_value (kind : SymbolKind) (line : ParsedLine) : option (string * string) :=
  match pl_kind line with
  | LineInstruction mnemonic (name :: value :: _) =>
      if decide (declared_kind (text mnemonic) = Some kind) then Some (text name, text value) else None
  | _ => None
  end.

Definition labelled (line : ParsedLine) : option (string * Z) :=
  match pl_kind line with LineLabel name => Some (text name, pl_number line) | _ => None end.

(** An instruction that is not a complete [alias] or [define]. *)
Definition operated (line : ParsedLine) : option (Z * Operation) :=
  match pl_kind line with
  | LineInstruction mnemonic operands =>
      match declared_kind (text mnemonic), operands with
      | (Some SymDefine | Some SymAlias), _ :: _ :: _ => None
      | _, _ => Some (pl_number line, operation_of (pl_number line) mnemonic operands)
      end
  | _ => None
  end.

Section fold_table.
Context {K V : Type} `{RustOrd K} (entry : ParsedLine → option (K * V)).

Definition add_entry (m : BTreeMap K V) (line : ParsedLine) : BTreeMap K V :=
  match entry line with Some (k, v) => bt_insert k v m | None => m end.

(** The last line with an entry for [k] gives [v]. *)
Definition last_entry (lines : list ParsedLine) (k : K) (v : V) : Prop :=
  ∃ i line, lines !! i = Some line ∧ entry line = Some (k, v)
    ∧ ∀ j line' v', (i < j)%nat → lines !! j = Some line' → entry line' ≠ Some (k, v').

Lemma fold_entries_sorted lines m : bt_sorted m → bt_sorted (foldl add_entry m lines).
Proof.
  revert m. induction lines as [|line lines IH]; intros m Hm; [done|]. simpl. apply IH. unfold add_entry.
  destruct (entry line) as [[k v]|]; [by apply bt_sorted_insert|done].
Qed.

Lemma fold_entries_get lines k v :
  bt_get k (foldl add_entry [] lines) = Some v ↔ last_entry lines k v.
Proof.
  revert v. induction lines as [|line lines IH] using rev_ind; intros v.
  { split; [done|]. intros (i & line & Hi & _). done. }
  rewrite foldl_app. simpl. unfold add_entry at 1.
  assert ((∃ v', entry line = Some (k, v')) ∨ ¬ ∃ v', entry line = Some (k, v')) as [(v' & Hv)|Hnone].
  { destruct (entry line) as [[k' w]|]; [|by right; intros [? ?]]. destruct (rcmp k k') eqn:E.
    { apply rcmp_eq in E as ->. left. by exists w. }
    all: right; intros (v' & Heq); simplify_eq; by rewrite rcmp_refl in E. }
  - rewrite Hv, bt_get_insert_eq. split.
    + intros [= ->]. exists (length lines), line. split_and!; [by rewrite list_lookup_middle|done|].
      intros j l' w Hj [Hl|[_ Hl]]%lookup_app_Some; [apply lookup_lt_Some in Hl; lia|].
      apply list_lookup_singleton_Some in Hl as [Hl _]. lia.
    + intros (i & l' & Hi & He & Hlast). apply lookup_app_Some in Hi as [Hi|[Hle Hi]].
      * exfalso. apply (Hlast (length lines) line v'); [by eapply lookup_lt_Some|by rewrite list_lookup_middle|done].
      * apply list_lookup_singleton_Some in Hi as [_ <-]. congruence.
  - assert (bt_get k (match entry line with Some (k', v') => bt_insert k' v' (foldl add_entry [] lines)
                      | None => foldl add_entry [] lines end) = bt_get k (foldl add_entry [] lines)) as ->.
    { destruct (entry line) as [[k' v']|]; [|done]. apply bt_get_insert_ne. intros ->. eauto. }
    rewrite IH. split.
    + intros (i & l' & Hi & He & Hlast). exists i, l'. split_and!; [by apply lookup_app_l_Some|done|].
      intros j l2 w Hij [Hj|[_ Hj]]%lookup_app_Some; [by eapply Hlast|].
      apply list_lookup_singleton_Some in Hj as [_ <-]. eauto.
    + intros (i & l' & Hi & He & Hlast). apply lookup_app_Some in Hi as [Hi|[Hle Hi]].
      * exists i, l'. split_and!; [done..|]. intros j l2 w Hij Hj. eapply Hlast; [done|by apply lookup_app_l_Some].
      * apply list_lookup_singleton_Some in Hi as [_ <-]. destruct Hnone. eauto.
Qed.
End fold_table.

Lemma compile_lines_tables lines :
  let t := compile_lines lines in
  tb_operations t = foldl (add_entry operated) [] lines
  ∧ tb_labels t = foldl (add_entry labelled) [] lines
  ∧ tb_defines t = foldl (add_entry (declared_value SymDefine)) [] lines
  ∧ tb_aliases t = foldl (add_entry (declared_value SymAlias)) [] lines.
Proof.
  unfold compile_lines. induction lines as [|line lines IH] using rev_ind; [done|].
  rewrite !foldl_app. simpl. revert IH.
  generalize (foldl (add_entry operated) [] lines), (foldl (add_entry labelled) [] lines),
    (foldl (add_entry (declared_value SymDefine)) [] lines), (foldl (add_entry (declared_value SymAlias)) [] lines).
  intros o l d a (<- & <- & <- & <-). unfold add_entry, compile_line, operated, labelled, declared_value.
  destruct (pl_kind line) as [|name|mn ops]; [done..|].
  destruct (declared_kind (text mn)) as [[]|]; destruct ops as [|name [|value ops]]; simpl;
    repeat case_decide; simplify_eq; by split_and!.
Qed.

(** C27.  A source compiles exactly when its document has no error, and then the
    program holds the document's lines: an operation, with its mnemonic in lower
    case, for each instruction that is not a declaration, under the line's number;
    for each label the last line that carries it; for each define and each alias
    the value of its last declaration. *)
Theorem compile_holds_document (path source : string) (kb : KnowledgeBase) (entries : option (list BuildMapEntry))
    (metadata : option string) :
  let lines := do_lines (parse source kb) in
  match compile path source kb entries metadata with
  | Ok p =>
      error_messages (parse source kb) = []
      ∧ (∀ n op, bt_get n (operations p) = Some op ↔
           ∃ line, lines !! Z.to_nat n = Some line ∧ 0 ≤ n ∧ operated line = Some (n, op))
      ∧ (∀ name n, bt_get name (labels p) = Some n ↔ last_entry labelled lines name n)
      ∧ (∀ name v, bt_get name (defines p) = Some v ↔ last_entry (declared_value SymDefine) lines name v)
      ∧ (∀ name v, bt_get name (aliases p) = Some v ↔ last_entry (declared_value SymAlias) lines name v)
  | Err e => error_messages (parse source kb) = ce_diagnostics e ∧ ce_diagnostics e ≠ []
  | Panic => False
  end.
Proof.
  intros lines. unfold compile. destruct (error_messages (parse source kb)) as [|m ms] eqn:He; [|done].
  fold lines. destruct (load_build_mapping _ _ _) as [dbg g2s]. simpl.
  destruct (compile_lines_tables lines) as (-> & -> & -> & ->).
  split; [done|]. split; [|by split_and!; intros; apply fold_entries_get]. intros n op. rewrite fold_entries_get.
  assert (∀ i line, lines !! i = Some line → ∀ m o, operated line = Some (m, o) → m = Z.of_nat i) as Hnum.
  { intros i line Hi m o Ho. assert (lines = parse_lines source) as Hl
      by (unfold lines, parse, parse_with_options; by destruct (collect_declarations _ _ _)).
    rewrite Hl in Hi. apply parse_lines_start in Hi as (_ & _ & <-). unfold operated in Ho. by repeat case_match; simplify_eq. }
  split.
  - intros (i & line & Hi & Ho & _). pose proof (Hnum _ _ Hi _ _ Ho) as ->. exists line. rewrite Nat2Z.id. split_and!; [done|lia|done].
  - intros (line & Hi & Hn & Ho). exists (Z.to_nat n), line. split_and!; [done..|]. intros j line' v' Hj Hl Ho'.
    pose proof (Hnum _ _ Hl _ _ Ho'). lia.
Qed.

(** A name declared twice is only warned about: the document keeps the first
    declaration, the program the last one. *)
Example redefinition_differs :
  let source := lines_of ["define a 1"; "define a 2"; "push a"] in
  (sy_value <$> document_symbol (parse source sample_kb) "a", codes (parse source sample_kb),
   match compile "p" source sample_kb None None with Ok p => bt_get "a" (defines p) | _ => None end)
  = (Some (Some "1"), ["duplicate-symbol"], Some "2").
Proof. vm_compute. reflexivity. Qed.
