(* ===== verification/Reparse.v ===== *)
(** * Lines as texts

    What the parser of [Syntax] reads from a line, without offsets: the texts of
    its tokens and its comment.  A text put together from tokens reads back as
    those tokens.  The formatter and the deployment builds write such texts. *)

From S2P Require Import Prelude BTree Text F64 Knowledge Literals Syntax Analysis.
Local Open Scope string_scope.
Local Open Scope Z_scope.

(** ** The scanner

    The state that [tokenize] and [comment_start] share. *)
Inductive Quoting := Outside | Inside | Escaped.

#[export] Instance quoting_eq_dec : EqDecision Quoting.
Proof. solve_decision. Defined.

Definition quoted (s : Quoting) : bool := bool_decide (s ≠ Outside).
Definition escaped (s : Quoting) : bool := bool_decide (s = Escaped).

Definition scan_char (s : Quoting) (c : string) : Quoting :=
  match s with
  | Escaped => Inside
  | Inside => if String.eqb c BACKSLASH then Escaped else if String.eqb c DQUOTE then Outside else Inside
  | Outside => if String.eqb c DQUOTE then Inside else Outside
  end.

Definition scan (s : Quoting) (cs : list string) : Quoting := foldl scan_char s cs.

(** A blank that ends a token. *)
Definition separates (s : Quoting) (c : string) : bool := is_whitespace c && bool_decide (s = Outside).

Lemma quoted_outside s : negb (quoted s) = bool_decide (s = Outside).
Proof. by destruct s. Qed.

Lemma separates_quoted s c : is_whitespace c && negb (quoted s) = separates s c.
Proof. by rewrite quoted_outside. Qed.

(** The branches of the source's loops are the transitions of [scan_char]. *)
Lemma scan_branches {A} (k : bool → bool → A) s c :
  (if escaped s then k (quoted s) false
   else if String.eqb c BACKSLASH && quoted s then k (quoted s) true
   else if String.eqb c DQUOTE then k (negb (quoted s)) (escaped s)
   else k (quoted s) (escaped s)) = k (quoted (scan_char s c)) (escaped (scan_char s c)).
Proof.
  destruct s; simpl; rewrite ?andb_true_r, ?andb_false_r; repeat case_match; try done; simpl in *; congruence.
Qed.

(** The texts of the tokens. *)
Fixpoint words (s : Quoting) (token : option string) (cs : list string) : list string :=
  match cs with
  | [] => option_list token
  | c :: cs' =>
      if separates s c then option_list token ++ words s None cs'
      else words (scan_char s c) (Some (default "" token +:+ c)) cs'
  end%list.

(** The characters before the comment, and the comment. *)
Fixpoint cut (s : Quoting) (cs : list string) : list string * list string :=
  match cs with
  | [] => ([], [])
  | c :: cs' =>
      if String.eqb c "#" && bool_decide (s = Outside) then ([], cs)
      else let '(code, comment) := cut (scan_char s c) cs' in (c :: code, comment)
  end.

Lemma tokenize_from_words code base cs : ∀ pre ts s,
  loop_state code pre cs ts →
  text <$> tokenize_from code base ts (quoted s) (escaped s) (char_offsets (String.length pre) cs)
  = words s ((λ f, slice f (String.length pre) code) <$> ts) cs.
Proof.
  induction cs as [|c cs IH]; intros pre ts s Hst.
  - destruct Hst as (-> & _ & _). simpl. rewrite string_app_nil_r. by destruct ts.
  - pose proof (loop_state_next _ _ _ _ _ Hst) as (Hopen & Hnone & Htext). simpl.
    rewrite <-slength_app, separates_quoted. destruct (separates s c) eqn:Hsep.
    + destruct ts as [f|]; simpl; by rewrite (IH _ None).
    + rewrite (scan_branches (λ q e, tokenize_from _ _ _ q e _) s c), (IH _ _ _ Hopen). f_equal.
      simpl. f_equal. simpl in Htext. rewrite Htext. by destruct ts.
Qed.

Lemma tokenize_words code base : str_ok code → text <$> tokenize code base = words Outside None (chars code).
Proof.
  intros Hok. apply (tokenize_from_words code base (chars code) "" None Outside).
  split_and!; [simpl; by rewrite concat_chars|by apply chars_ok|done].
Qed.

Lemma comment_branches {A} (k : bool → bool → A) (found : A) s c :
  (if escaped s then k (quoted s) false
   else if String.eqb c BACKSLASH && quoted s then k (quoted s) true
   else if String.eqb c DQUOTE then k (negb (quoted s)) (escaped s)
   else if String.eqb c "#" && negb (quoted s) then found
   else k (quoted s) (escaped s))
  = if String.eqb c "#" && bool_decide (s = Outside) then found
    else k (quoted (scan_char s c)) (escaped (scan_char s c)).
Proof.
  destruct (String.eqb_spec c "#") as [->|_]; [by destruct s|]. apply scan_branches.
Qed.

Lemma comment_start_from_cut s cs : ∀ o,
  comment_start_from (quoted s) (escaped s) (char_offsets o cs)
  = match (cut s cs).2 with [] => None | _ => Some (o + String.length (concat_strings (cut s cs).1))%nat end.
Proof.
  revert s. induction cs as [|c cs IH]; intros s o; [done|]. cbn [char_offsets comment_start_from cut].
  rewrite (comment_branches (λ q e, comment_start_from q e _)). case_match; [simpl; f_equal; lia|].
  rewrite IH. destruct (cut (scan_char s c) cs) as [a b]. simpl. case_match; [done|].
  f_equal. rewrite slength_app. lia.
Qed.

Lemma cut_app s cs : ((cut s cs).1 ++ (cut s cs).2)%list = cs.
Proof.
  revert s. induction cs as [|c cs IH]; intros s; [done|]. cbn [cut]. case_match; [done|].
  specialize (IH (scan_char s c)). destruct (cut (scan_char s c) cs). simpl in *. by rewrite IH.
Qed.

Lemma comment_start_cut line :
  comment_start line
  = match (cut Outside (chars line)).2 with
    | [] => None
    | _ => Some (String.length (concat_strings (cut Outside (chars line)).1))
    end.
Proof. apply (comment_start_from_cut Outside). Qed.

(** ** What a line says *)

(** A [LineKind] without spans. *)
Inductive KindText :=
  | KindEmpty
  | KindLabel (name : string)
  | KindInstruction (mnemonic : string) (operands : list string).

#[export] Instance kind_text_eq_dec : EqDecision KindText.
Proof. solve_decision. Defined.

Definition kind_text (kind : LineKind) : KindText :=
  match kind with
  | LineEmpty => KindEmpty
  | LineLabel name => KindLabel (text name)
  | LineInstruction mnemonic operands => KindInstruction (text mnemonic) (text <$> operands)
  end.

Definition classify_words (l : list string) : KindText :=
  match l with
  | [] => KindEmpty
  | first :: rest =>
      match rest, strip_suffix ":" first with
      | [], Some name => KindLabel name
      | _, _ => KindInstruction first rest
      end
  end.

Definition read_code (code : list string) : KindText := classify_words (words Outside None code).

Definition comment_text (comment : list string) : option string :=
  match comment with [] => None | _ => Some (concat_strings comment) end.

(** The reading of a line: its kind and its comment. *)
Definition read_line (t : string) : KindText * option string :=
  let '(code, comment) := cut Outside (chars t) in (read_code code, comment_text comment).

(** The lines of a source with their terminators, and without. *)
Definition pieces (source : string) : list string :=
  (split_inclusive_nl source
   ++ (if String.eqb source "" || ends_with NEWLINE source then [""] else []))%list.

Definition line_texts (source : string) : list string := line_text <$> pieces source.

(** No line begins inside a character: true of every [str]. *)
Definition lines_ok (source : string) : Prop := Forall str_ok (line_texts source).

(** What a parsed line of a source says. *)
Definition line_view (source : string) (line : ParsedLine) : KindText * option string :=
  (kind_text (pl_kind line), (λ sp, slice (start sp) (stop sp) source) <$> pl_comment_span line).

Lemma classify_line_words tokens : kind_text (classify_line tokens) = classify_words (text <$> tokens).
Proof. destruct tokens as [|first [|t rest]]; simpl; [done| |done]. by destruct (strip_suffix ":" (text first)). Qed.

Lemma strip_suffix_Some p s r : strip_suffix p s = Some r → s = r +:+ p.
Proof.
  revert r. induction s as [|a s IH]; intros r; rewrite strip_suffix_unfold.
  - destruct (String.eqb_spec "" p) as [<-|]; [by intros [= <-]|done].
  - destruct (String.eqb_spec (String a s) p) as [<-|]; [by intros [= <-]|].
    destruct (strip_suffix p s) as [r'|]; [|done]. intros [= <-]. simpl. by rewrite (IH r').
Qed.

Lemma line_text_prefix l : ∃ e, l = line_text l +:+ e.
Proof.
  unfold line_text. assert (∀ p s, ∃ e, s = default s (strip_suffix p s) +:+ e) as H.
  { intros p s. destruct (strip_suffix p s) as [r|] eqn:E; [exists p; by apply strip_suffix_Some|].
    exists "". simpl. by rewrite string_app_nil_r. }
  destruct (H NEWLINE l) as [e He], (H RETURN (default l (strip_suffix NEWLINE l))) as [e' He'].
  exists (e' +:+ e). rewrite <-string_app_assoc. by rewrite <-He', <-He.
Qed.

Lemma substring_app_l s t a n :
  (a + n ≤ String.length s)%nat → String.substring a n (s +:+ t) = String.substring a n s.
Proof.
  revert a n. induction s as [|c s IH]; intros a n H.
  - destruct a, n; simpl in *; [by destruct t|lia..].
  - destruct a as [|a]; [destruct n as [|n]; [done|]|]; simpl in *; [by rewrite (IH 0%nat) by lia|apply IH; lia].
Qed.

Lemma substring_app_r s t a n :
  String.substring (String.length s + a) n (s +:+ t) = String.substring a n t.
Proof. induction s as [|c s IH]; simpl; [done|]. apply IH. Qed.

Lemma slice_inside pre t post a b :
  (a ≤ b ≤ String.length t)%nat →
  slice (String.length pre + a) (String.length pre + b) (pre +:+ (t +:+ post)) = slice a b t.
Proof.
  intros H. unfold slice. replace (_ + b - _)%nat with (b - a)%nat by lia.
  rewrite substring_app_r. apply substring_app_l. lia.
Qed.

Lemma slice_tail s t : slice (String.length s) (String.length (s +:+ t)) (s +:+ t) = t.
Proof.
  rewrite slength_app. pose proof (slice_mid s t "") as H. by rewrite string_app_nil_r in H.
Qed.

Lemma slice_head s t : slice 0 (String.length s) (s +:+ t) = s.
Proof. apply (slice_mid "" s t). Qed.

Lemma slice_all s : slice 0 (String.length s) s = s.
Proof. pose proof (slice_head s "") as H. by rewrite string_app_nil_r in H. Qed.

Lemma concat_strings_app l1 l2 : concat_strings (l1 ++ l2)%list = concat_strings l1 +:+ concat_strings l2.
Proof. induction l1 as [|s l1 IH]; simpl; [done|]. by rewrite IH, string_app_assoc. Qed.

(** The characters of a line before its comment are those of its code. *)
Lemma cut_chars t code comment :
  str_ok t → cut Outside (chars t) = (code, comment) →
  t = concat_strings code +:+ concat_strings comment
  ∧ Forall char_ok code ∧ Forall char_ok comment ∧ str_ok (concat_strings code).
Proof.
  intros Hok Hcut. pose proof (cut_app Outside (chars t)) as H. rewrite Hcut in H. simpl in H.
  pose proof (chars_ok _ Hok) as Hcs. rewrite <-H in Hcs. apply Forall_app in Hcs as [H1 H2]. split_and!; try done.
  - by rewrite <-concat_strings_app, H, concat_chars.
  - destruct H1 as [|c cs Hc _]; [done|]. destruct c as [|a p]; [done|]. apply Hc.
Qed.

Lemma parse_line_view pre l post number :
  str_ok (line_text l) →
  line_view (pre +:+ (l +:+ post)) (parse_line number (String.length pre) l) = read_line (line_text l).
Proof.
  intros Hok. destruct (line_text_prefix l) as [e He]. unfold parse_line, line_view, read_line.
  rewrite comment_start_cut. set (t := line_text l) in *.
  destruct (cut Outside (chars t)) as [code comment] eqn:Hcut.
  destruct (cut_chars _ _ _ Hok Hcut) as (Ht & Hcode & Hcomment & Hok').
  cbn [fst snd pl_kind pl_comment_span].
  assert (slice 0 (default (String.length t)
            match comment with [] => None | _ => Some (String.length (concat_strings code)) end) t
          = concat_strings code) as ->.
  { rewrite Ht. destruct comment; simpl; [|apply slice_head]. rewrite string_app_nil_r. apply slice_all. }
  rewrite classify_line_words, tokenize_words, chars_concat by done. f_equal.
  destruct comment as [|c cs]; [done|]. cbn [fmap option_fmap option_map start stop comment_text]. f_equal.
  set (k := concat_strings (c :: cs)) in *. rewrite He, string_app_assoc, slice_inside.
  - rewrite Ht. apply slice_tail.
  - rewrite Ht, slength_app. lia.
Qed.

(** ** The lines of a source *)

Lemma parse_lines_from_app l1 l2 : ∀ number offset,
  parse_lines_from number offset (l1 ++ l2)
  = (parse_lines_from number offset l1
     ++ parse_lines_from (number + Z.of_nat (length l1)) (offset + String.length (concat_strings l1)) l2)%list.
Proof.
  induction l1 as [|s l1 IH]; intros number offset; cbn [app parse_lines_from length concat_strings foldr].
  - by rewrite Z.add_0_r, Nat.add_0_r.
  - rewrite IH. simpl. f_equal. f_equal. fold (concat_strings l1). f_equal; [lia|]. rewrite slength_app. lia.
Qed.

Lemma parse_lines_from_length l number offset : length (parse_lines_from number offset l) = length l.
Proof. revert number offset. induction l as [|s l IH]; intros; simpl; [done|]. by rewrite IH. Qed.

Lemma parse_lines_pieces source : parse_lines source = parse_lines_from 0 0 (pieces source).
Proof.
  assert (∀ number offset, empty_line number offset = parse_line number offset "") as Hempty.
  { intros. unfold empty_line, parse_line. cbn. by rewrite Nat.add_0_r. }
  unfold parse_lines, pieces. destruct (String.eqb_spec source "") as [->|_]; [by rewrite Hempty|]. simpl.
  destruct (ends_with NEWLINE source); [|by rewrite app_nil_r].
  rewrite parse_lines_from_app, split_inclusive_concat, parse_lines_from_length. simpl. by rewrite Hempty.
Qed.

Lemma pieces_concat source : concat_strings (pieces source) = source.
Proof.
  unfold pieces. rewrite concat_strings_app, split_inclusive_concat. case_match; simpl; by rewrite ?string_app_nil_r.
Qed.

(** A view of the parsed lines that only looks at the text of each line. *)
Lemma parse_lines_map {A} (P : string → Prop) (f : ParsedLine → A) (g : string → A) source :
  (∀ pre l post number, source = pre +:+ (l +:+ post) → P (line_text l) →
     f (parse_line number (String.length pre) l) = g (line_text l)) →
  Forall P (line_texts source) → f <$> parse_lines source = g <$> line_texts source.
Proof.
  intros Hf. unfold line_texts. rewrite parse_lines_pieces, <-list_fmap_compose.
  assert (∀ ps pre number, source = pre +:+ concat_strings ps → Forall P (line_text <$> ps) →
    f <$> parse_lines_from number (String.length pre) ps = (g ∘ line_text) <$> ps) as H.
  { induction ps as [|p ps IH]; intros pre number Hs Hok; [done|]. csimpl in *. apply Forall_cons in Hok as [Hp Hok].
    rewrite (Hf pre p (concat_strings ps)) by done. f_equal. rewrite <-slength_app.
    apply (IH (pre +:+ p)); [|done]. rewrite Hs. symmetry. apply string_app_assoc. }
  apply (H _ ""). by rewrite pieces_concat.
Qed.

Lemma parse_lines_views source :
  lines_ok source → line_view source <$> parse_lines source = read_line <$> line_texts source.
Proof. apply parse_lines_map. intros pre l post number ->. apply parse_line_view. Qed.

Lemma parse_lines_texts source :
  lines_ok source →
  (λ line, slice (start (pl_span line)) (stop (pl_span line)) source) <$> parse_lines source = line_texts source.
Proof.
  intros Hok. rewrite <-(list_fmap_id (line_texts source)). revert Hok. apply parse_lines_map.
  intros pre l post number -> _. unfold parse_line. cbn [pl_span start stop]. destruct (line_text_prefix l) as [e He].
  assert (l +:+ post = line_text l +:+ (e +:+ post)) as -> by (rewrite <-string_app_assoc; by rewrite <-He).
  rewrite <-(Nat.add_0_r (String.length pre)) at 1. rewrite slice_inside by lia. apply slice_all.
Qed.

(** Bytes other than the line feed. *)
Definition no_newline (s : string) : Prop := Forall (λ b, b ≠ 10) (bytes s).

Lemma no_newline_app s t : no_newline (s +:+ t) ↔ no_newline s ∧ no_newline t.
Proof. unfold no_newline. by rewrite bytes_app, Forall_app. Qed.

Lemma no_newline_concat cs : no_newline (concat_strings cs) ↔ Forall no_newline cs.
Proof.
  induction cs as [|c cs IH]; simpl; [split; constructor|]. by rewrite no_newline_app, Forall_cons, IH.
Qed.

Lemma split_inclusive_newline s t :
  no_newline s → split_inclusive_nl (s +:+ (NEWLINE +:+ t)) = (s +:+ NEWLINE) :: split_inclusive_nl t.
Proof.
  induction s as [|a s IH]; [done|]. intros [Ha Hs]%Forall_cons. cbn [String.append split_inclusive_nl].
  rewrite (proj2 (Z.eqb_neq _ _) Ha), IH by done. done.
Qed.

Lemma split_inclusive_last s : no_newline s → s ≠ "" → split_inclusive_nl s = [s].
Proof.
  induction s as [|a s IH]; [done|]. intros [Ha Hs]%Forall_cons _. cbn [split_inclusive_nl].
  rewrite (proj2 (Z.eqb_neq _ _) Ha). destruct s as [|b s]; [done|]. by rewrite IH.
Qed.

Lemma split_inclusive_texts s : Forall (λ l, no_newline (line_text l)) (split_inclusive_nl s).
Proof.
  assert (∀ p l, no_newline l → no_newline (default l (strip_suffix p l))) as Hstrip.
  { intros p l Hl. destruct (strip_suffix p l) as [r|] eqn:E; [|done]. apply strip_suffix_Some in E as ->.
    by apply no_newline_app in Hl as [? _]. }
  assert (Forall (λ l, no_newline (default l (strip_suffix NEWLINE l))) (split_inclusive_nl s)) as H.
  { induction s as [|a s IH]; [constructor|]. cbn [split_inclusive_nl]. destruct (Z.eqb_spec (byte_of a) 10) as [Ha|Ha].
    { constructor; [|done]. pose proof (of_bytes_bytes (String a "")) as Hb. simpl in Hb. rewrite Ha in Hb.
      injection Hb as <-. constructor. }
    assert (∀ l, no_newline (default l (strip_suffix NEWLINE l)) →
      no_newline (default (String a l) (strip_suffix NEWLINE (String a l)))) as Hcons.
    { intros l Hl. rewrite strip_suffix_unfold. destruct (String.eqb_spec (String a l) NEWLINE) as [_|_]; [constructor|].
      destruct (strip_suffix NEWLINE l); by constructor. }
    destruct (split_inclusive_nl s) as [|l ls].
    { constructor; [|constructor]. apply (Hcons ""). constructor. }
    apply Forall_cons in IH as [Hl Hls].
    constructor; [by apply Hcons|done]. }
  eapply Forall_impl; [exact H|]. intros l Hl. by apply Hstrip.
Qed.

Lemma line_texts_no_newline source : Forall no_newline (line_texts source).
Proof.
  unfold line_texts, pieces. rewrite fmap_app. apply Forall_app. split; [apply Forall_fmap, split_inclusive_texts|].
  case_match; simpl; [|constructor]. constructor; [|constructor]. constructor.
Qed.

(** ** Joining lines *)

Lemma ends_with_tail a s t : t ≠ "" → ends_with (String a "") (s +:+ t) = ends_with (String a "") t.
Proof.
  intros Ht. induction s as [|b s IH]; [done|]. rewrite <-IH. cbn [String.append]. unfold ends_with.
  rewrite strip_suffix_unfold. destruct (String.eqb_spec (String b (s +:+ t)) (String a "")) as [Heq|_].
  - injection Heq as _ Heq. by destruct s, t.
  - by destruct (strip_suffix (String a "") (s +:+ t)).
Qed.

Lemma ends_with_false p s : ends_with p s = false → strip_suffix p s = None.
Proof. unfold ends_with. by destruct (strip_suffix p s). Qed.

Lemma no_newline_ends s : no_newline s → ends_with NEWLINE s = false.
Proof.
  intros Hs. unfold ends_with. destruct (strip_suffix NEWLINE s) as [r|] eqn:E; [|done].
  apply strip_suffix_Some in E as ->. apply no_newline_app in Hs as [_ Hs]. by apply Forall_cons in Hs as [? _].
Qed.

Lemma pieces_newline s t : no_newline s → pieces (s +:+ (NEWLINE +:+ t)) = (s +:+ NEWLINE) :: pieces t.
Proof.
  intros Hs. unfold pieces. rewrite split_inclusive_newline by done. cbn [app]. f_equal. f_equal.
  assert (String.eqb (s +:+ (NEWLINE +:+ t)) "" = false) as -> by (by destruct s). rewrite orb_false_l.
  destruct t as [|b t]; cbn [String.eqb orb].
  - by rewrite (ends_with_tail (byte 10) s (NEWLINE +:+ "") ltac:(done) : ends_with NEWLINE _ = _).
  - rewrite <-string_app_assoc.
    by rewrite (ends_with_tail (byte 10) (s +:+ NEWLINE) (String b t) ltac:(done) : ends_with NEWLINE _ = _).
Qed.

Lemma line_text_plain s e :
  ends_with RETURN s = false → e = NEWLINE ∨ e = RETURN +:+ NEWLINE → line_text (s +:+ e) = s.
Proof.
  intros Hs [->| ->]; unfold line_text.
  - rewrite strip_suffix_app by done. simpl. by rewrite (ends_with_false _ _ Hs).
  - rewrite <-string_app_assoc, strip_suffix_app by done. simpl. by rewrite strip_suffix_app.
Qed.

Lemma line_text_last s : no_newline s → ends_with RETURN s = false → line_text s = s.
Proof.
  intros Hn Hs. unfold line_text. rewrite (ends_with_false NEWLINE s) by (by apply no_newline_ends). simpl.
  by rewrite (ends_with_false _ _ Hs).
Qed.

(** A text that is one line, whatever follows it. *)
Definition plain_line (s : string) : Prop := no_newline s ∧ ends_with RETURN s = false.

(** Lines that are joined with a terminator read back as they are. *)
Lemma line_texts_join e ps :
  e = NEWLINE ∨ e = RETURN +:+ NEWLINE → ps ≠ [] → Forall plain_line ps → line_texts (join e ps) = ps.
Proof.
  intros He Hne Hps. destruct ps as [|p ps]; [done|]. clear Hne. revert p Hps.
  induction ps as [|q ps IH]; intros p [[Hp Hr] Hps]%Forall_cons.
  - unfold line_texts, pieces. cbn [join]. rewrite no_newline_ends, orb_false_r by done.
    destruct (String.eqb_spec p "") as [->|Hne]; [done|]. rewrite split_inclusive_last by done. cbn.
    by rewrite line_text_last.
  - change (join e (p :: q :: ps)) with (p +:+ e +:+ join e (q :: ps)). unfold line_texts.
    assert (∃ p', no_newline p' ∧ p +:+ (e +:+ join e (q :: ps)) = p' +:+ (NEWLINE +:+ join e (q :: ps))
      ∧ p' +:+ NEWLINE = p +:+ e) as (p' & Hp' & -> & Heq).
    { destruct He as [->| ->]; [by exists p|]. exists (p +:+ RETURN). rewrite !string_app_assoc. split_and!; try done.
      apply no_newline_app. split; [done|]. by repeat constructor. }
    rewrite pieces_newline, fmap_cons, Heq by done. rewrite line_text_plain by done. f_equal. by apply IH.
Qed.

(** ** Texts put together from tokens *)

Definition line_char (c : string) : Prop := char_ok c ∧ no_newline c.

Definition starts_comment (s : Quoting) (c : string) : bool := String.eqb c "#" && bool_decide (s = Outside).

(** No character satisfies [p] in the state the scanner meets it in. *)
Fixpoint never (p : Quoting → string → bool) (s : Quoting) (cs : list string) : Prop :=
  match cs with
  | [] => True
  | c :: cs' => p s c = false ∧ never p (scan_char s c) cs'
  end.

Lemma never_app p s cs1 cs2 : never p s (cs1 ++ cs2) ↔ never p s cs1 ∧ never p (scan s cs1) cs2.
Proof. revert s. induction cs1 as [|c cs1 IH]; intros s; simpl; [naive_solver|]. rewrite IH. naive_solver. Qed.

Lemma scan_app s cs1 cs2 : scan s (cs1 ++ cs2) = scan (scan s cs1) cs2.
Proof. apply foldl_app. Qed.

Lemma cut_never s cs : never starts_comment s (cut s cs).1.
Proof.
  revert s. induction cs as [|c cs IH]; intros s; [done|]. cbn [cut]. fold (starts_comment s c).
  destruct (starts_comment s c) eqn:E; [done|]. specialize (IH (scan_char s c)).
  by destruct (cut (scan_char s c) cs).
Qed.

Lemma cut_never_app s cs1 cs2 :
  never starts_comment s cs1 →
  cut s (cs1 ++ cs2) = ((cs1 ++ (cut (scan s cs1) cs2).1)%list, (cut (scan s cs1) cs2).2).
Proof.
  revert s. induction cs1 as [|c cs1 IH]; intros s; [intros _; cbn; by destruct (cut s cs2)|]. intros [Hc Hcs].
  cbn [app cut]. fold (starts_comment s c). by rewrite Hc, IH.
Qed.

Lemma cut_nonempty s cs c comment : (cut s cs).2 = c :: comment → c = "#" ∧ scan s (cut s cs).1 = Outside.
Proof.
  revert s. induction cs as [|d cs IH]; intros s; [done|]. cbn [cut]. case_match eqn:E.
  - intros [= <- <-]. apply andb_prop in E as [->%String.eqb_eq Hs%bool_decide_eq_true]. done.
  - specialize (IH (scan_char s d)). destruct (cut (scan_char s d) cs). apply IH.
Qed.

(** A blank changes no state, except the one after a backslash. *)
Lemma blank_not_special c : is_whitespace c = true → c ≠ DQUOTE ∧ c ≠ BACKSLASH ∧ c ≠ "#".
Proof. intros H. split_and!; intros ->; by vm_compute in H. Qed.

Lemma scan_blank c : is_whitespace c = true → scan_char Outside c = Outside.
Proof. intros (? & _)%blank_not_special. simpl. by rewrite (proj2 (String.eqb_neq _ _)). Qed.

Lemma scan_blanks_inv s bs :
  Forall (λ c, is_whitespace c = true) bs → scan s bs = Outside → s = Outside.
Proof.
  intros H. revert s. induction H as [|c bs Hc _ IH]; intros s; [done|]. cbn [scan foldl]. intros Hs%IH.
  apply blank_not_special in Hc as (? & ? & _). destruct s; simpl in Hs; [done| |done].
  by rewrite !(proj2 (String.eqb_neq _ _)) in Hs.
Qed.

Lemma words_separated s token cs1 c cs2 :
  scan s cs1 = Outside → is_whitespace c = true →
  words s token (cs1 ++ c :: cs2) = (words s token cs1 ++ words Outside None cs2)%list.
Proof.
  intros Hs Hc. revert s token Hs. induction cs1 as [|d cs1 IH]; intros s token Hs; cbn [app words].
  - simpl in Hs. subst s. unfold separates. by rewrite Hc.
  - destruct (separates s d) eqn:Hd; [|by apply IH].
    apply andb_prop in Hd as [Hd ->%bool_decide_eq_true]. rewrite IH; [by rewrite (assoc_L (++)%list)|].
    revert Hs. cbn [scan foldl]. by rewrite scan_blank.
Qed.

Lemma words_blanks bs : Forall (λ c, is_whitespace c = true) bs → words Outside None bs = [].
Proof. induction 1 as [|c bs Hc _ IH]; [done|]. cbn [words]. unfold separates. by rewrite Hc. Qed.

Lemma words_never s token cs :
  never separates s cs →
  words s token cs = match cs with [] => option_list token | _ => [default "" token +:+ concat_strings cs] end.
Proof.
  revert s token. induction cs as [|c cs IH]; intros s token; [done|]. intros [Hc Hcs]. cbn [words].
  rewrite Hc, IH by done. destruct cs as [|d cs]; simpl; [by rewrite string_app_nil_r|by rewrite string_app_assoc].
Qed.

(** [cs] is code, without a comment and with its quotes closed, whose tokens are [ws]. *)
Definition code_reads (cs ws : list string) : Prop :=
  Forall line_char cs ∧ words Outside None cs = ws ∧ never starts_comment Outside cs ∧ scan Outside cs = Outside.

(** One token. *)
Definition word_chars (cs : list string) : Prop :=
  Forall line_char cs ∧ never separates Outside cs ∧ never starts_comment Outside cs.

Definition is_word (w : string) : Prop :=
  ∃ cs, w = concat_strings cs ∧ cs ≠ [] ∧ word_chars cs ∧ scan Outside cs = Outside.

Definition blank_chars (cs : list string) : Prop := Forall (λ c, is_whitespace c = true ∧ line_char c) cs.

Lemma words_are_words cs : ∀ tcs,
  word_chars tcs → Forall line_char cs → never starts_comment (scan Outside tcs) cs →
  scan (scan Outside tcs) cs = Outside →
  Forall is_word (words (scan Outside tcs) (match tcs with [] => None | _ => Some (concat_strings tcs) end) cs).
Proof.
  induction cs as [|c cs IH]; intros tcs Htcs Hcs Hnc Hend; cbn [words].
  - destruct tcs as [|t tcs]; [constructor|]. constructor; [|constructor]. by exists (t :: tcs).
  - apply Forall_cons in Hcs as [Hc Hcs]. destruct Hnc as [Hc' Hnc]. destruct (separates _ c) eqn:Hsep.
    + apply andb_prop in Hsep as [Hb Hs%bool_decide_eq_true]. rewrite Hs in *. cbn [scan foldl] in Hend.
      rewrite scan_blank in Hend, Hnc by done.
      apply Forall_app. split; [|by apply (IH []); [repeat constructor|..]].
      destruct tcs as [|t tcs]; constructor; [|constructor]. by exists (t :: tcs).
    + destruct Htcs as (H1 & H2 & H3).
      assert (word_chars (tcs ++ [c])) as Hw.
      { split_and!; [apply Forall_app; split; [done|by constructor]|by apply never_app|by apply never_app]. }
      specialize (IH (tcs ++ [c])%list Hw Hcs). rewrite scan_app in IH. specialize (IH Hnc Hend).
      rewrite concat_strings_app in IH. cbn [concat_strings foldr] in IH. rewrite string_app_nil_r in IH.
      destruct tcs; exact IH.
Qed.

Lemma code_reads_words cs ws : code_reads cs ws → Forall is_word ws.
Proof.
  intros (Hcs & <- & Hnc & Hend). apply (words_are_words cs []); [by repeat constructor|done..].
Qed.

Lemma code_reads_nil : code_reads [] [].
Proof. by repeat constructor. Qed.

Lemma code_reads_blank c cs ws :
  is_whitespace c = true → line_char c → code_reads (c :: cs) ws ↔ code_reads cs ws.
Proof.
  intros Hb Hc. unfold code_reads. cbn [words never scan foldl]. rewrite scan_blank, Forall_cons by done.
  unfold separates, starts_comment. rewrite Hb, bool_decide_eq_true_2 by done. cbn.
  rewrite (proj2 (String.eqb_neq c "#")) by apply (blank_not_special c Hb). naive_solver.
Qed.

Lemma code_reads_blanks bs cs ws : blank_chars bs → code_reads (bs ++ cs) ws ↔ code_reads cs ws.
Proof. induction 1 as [|c bs [Hb Hc] _ IH]; [done|]. cbn [app]. by rewrite code_reads_blank. Qed.

Lemma code_reads_word wcs cs ws c :
  is_whitespace c = true → line_char c → wcs ≠ [] → word_chars wcs → scan Outside wcs = Outside →
  code_reads cs ws → code_reads (wcs ++ c :: cs) (concat_strings wcs :: ws).
Proof.
  intros Hb Hc Hne (Hw & Hsep & Hnc) Hs Hcs. apply (code_reads_blank c) in Hcs as Hcs'; [|done..].
  destruct Hcs as (H1 & H2 & H3 & H4), Hcs' as (G1 & _ & G3 & G4). split_and!.
  - by apply Forall_app.
  - rewrite words_separated, H2, words_never by done. by destruct wcs.
  - apply never_app. by rewrite Hs.
  - by rewrite scan_app, Hs.
Qed.

Lemma code_reads_last wcs :
  wcs ≠ [] → word_chars wcs → scan Outside wcs = Outside → code_reads wcs [concat_strings wcs].
Proof.
  intros Hne (Hw & Hsep & Hnc) Hs. split_and!; try done. rewrite words_never by done. by destruct wcs.
Qed.

Lemma code_reads_trim_end cs bs ws : blank_chars bs → code_reads (cs ++ bs) ws → code_reads cs ws.
Proof.
  intros Hbs (H1 & H2 & H3 & H4). apply Forall_app in H1 as [H1 _]. apply never_app in H3 as [H3 _].
  assert (Forall (λ c, is_whitespace c = true) bs) as Hbs' by (eapply Forall_impl; [exact Hbs|naive_solver]).
  rewrite scan_app in H4. apply scan_blanks_inv in H4; [|done]. split_and!; try done. rewrite <-H2.
  destruct Hbs' as [|c bs' Hc Hbs']; [by rewrite app_nil_r|].
  rewrite words_separated by done. rewrite (words_blanks bs') by done. by rewrite app_nil_r.
Qed.

(** ** Texts of code *)

Definition text_reads (t : string) (ws : list string) : Prop := ∃ cs, t = concat_strings cs ∧ code_reads cs ws.

Lemma text_reads_words t ws : text_reads t ws → Forall is_word ws.
Proof. intros (cs & _ & H). by eapply code_reads_words. Qed.

Lemma line_chars_ok cs : Forall line_char cs → Forall char_ok cs.
Proof. intros H. eapply Forall_impl; [exact H|]. by intros c [? _]. Qed.

Lemma drop_ws_spec cs : ∃ bs, cs = (bs ++ drop_ws cs)%list ∧ Forall (λ c, is_whitespace c = true) bs
  ∧ match drop_ws cs with [] => True | c :: _ => is_whitespace c = false end.
Proof.
  induction cs as [|c cs IH]; [by exists []|]. cbn [drop_ws]. destruct (is_whitespace c) eqn:Hc; [|by exists []].
  destruct IH as (bs & Heq & Hbs & Hlast). exists (c :: bs). split_and!; [simpl; by f_equal|by constructor|done].
Qed.

Lemma blanks_of cs bs : Forall line_char cs → (∀ c, c ∈ bs → c ∈ cs) → Forall (λ c, is_whitespace c = true) bs → blank_chars bs.
Proof. rewrite !Forall_forall. intros Hcs Hin Hbs. apply Forall_forall. auto. Qed.

Lemma text_reads_trim_start t ws : text_reads t ws → text_reads (trim_start t) ws.
Proof.
  intros (cs & -> & Hcs). unfold trim_start. destruct (Hcs) as [Hok _]. rewrite chars_concat by (by apply line_chars_ok).
  destruct (drop_ws_spec cs) as (bs & Heq & Hbs & _). exists (drop_ws cs). split; [done|].
  apply (code_reads_blanks bs); [|by rewrite <-Heq]. apply (blanks_of cs); [done| |done].
  intros c Hc. rewrite Heq. set_solver.
Qed.

Lemma text_reads_trim_end t ws :
  text_reads t ws → text_reads (trim_end t) ws ∧ plain_line (trim_end t).
Proof.
  intros (cs & -> & Hcs). unfold trim_end. destruct (Hcs) as [Hok _]. rewrite chars_concat by (by apply line_chars_ok).
  destruct (drop_ws_spec (rev cs)) as (bs & Heq & Hbs & Hlast). apply (f_equal (@rev string)) in Heq.
  rewrite rev_involutive, rev_app_distr in Heq.
  assert (code_reads (rev (drop_ws (rev cs))) ws) as Hr.
  { apply (code_reads_trim_end _ (rev bs)); [|by rewrite <-Heq]. apply (blanks_of cs); [done| |].
    - intros c Hc. rewrite Heq. apply elem_of_app. by right.
    - by apply Forall_rev. }
  split; [by exists (rev (drop_ws (rev cs)))|]. destruct Hr as (Hr & _). split.
  - apply no_newline_concat. eapply Forall_impl; [exact Hr|]. by intros c [_ ?].
  - revert Hlast Hr. destruct (drop_ws (rev cs)) as [|c l]; [done|]. intros Hc Hr. cbn [rev].
    rewrite concat_strings_app. cbn [concat_strings foldr]. rewrite string_app_nil_r.
    cbn [rev] in Hr. apply Forall_app in Hr as [_ Hr]. apply Forall_cons in Hr as [[Hchar _] _].
    assert (c ≠ "") as Hne by (by destruct c).
    rewrite (ends_with_tail (byte 13) _ c Hne : ends_with RETURN _ = _).
    change (ends_with RETURN c = false). unfold ends_with. destruct (strip_suffix RETURN c) as [r|] eqn:E; [|done]. exfalso.
    apply strip_suffix_Some in E. subst c. destruct r as [|a r]; [by vm_compute in Hc|]. destruct Hchar as [_ Hchar].
    rewrite bytes_app, forallb_app in Hchar. apply andb_prop in Hchar as [_ Hlast]. by vm_compute in Hlast.
Qed.

Lemma code_reads_append cs bs ws : blank_chars bs → code_reads cs ws → code_reads (cs ++ bs) ws.
Proof.
  intros Hbs (H1 & H2 & H3 & H4).
  assert (code_reads bs []) as (G1 & G2 & G3 & G4).
  { rewrite <-(app_nil_r bs). apply code_reads_blanks; [done|apply code_reads_nil]. }
  split_and!; [by apply Forall_app| |apply never_app; by rewrite H4|by rewrite scan_app, H4].
  destruct bs as [|c bs]; [by rewrite app_nil_r|]. apply Forall_cons in Hbs as [[Hc _] Hbs].
  rewrite words_separated, H2 by done. pose proof (words_separated Outside None [] c bs eq_refl Hc) as G.
  change ([] ++ c :: bs)%list with (c :: bs) in G. rewrite G2 in G. simpl in G. by rewrite <-G, app_nil_r.
Qed.

(** The shapes the formatter and the build write. *)
Lemma text_reads_nil : text_reads "" [].
Proof. exists []. split; [done|apply code_reads_nil]. Qed.

Lemma text_reads_word w : is_word w → text_reads w [w].
Proof. intros (cs & -> & Hne & Hw & Hs). exists cs. split; [done|]. by apply code_reads_last. Qed.

Lemma space_blank : is_whitespace " " = true ∧ line_char " ".
Proof. split; [done|]. by repeat constructor. Qed.

Lemma tab_blank : is_whitespace TAB = true ∧ line_char TAB.
Proof. split; [done|]. by repeat constructor. Qed.

Lemma text_reads_cons w t ws : is_word w → text_reads t ws → text_reads (w +:+ (" " +:+ t)) (w :: ws).
Proof.
  intros (wcs & -> & Hne & Hw & Hs) (cs & -> & Hcs). exists (wcs ++ " " :: cs)%list.
  split; [by rewrite concat_strings_app|]. by apply code_reads_word; try apply space_blank.
Qed.

Lemma text_reads_blank c t ws :
  is_whitespace c = true → line_char c → text_reads t ws → text_reads (c +:+ t) ws.
Proof. intros Hb Hc (cs & -> & Hcs). exists (c :: cs). split; [done|]. by apply code_reads_blank. Qed.

Lemma text_reads_indent n c t ws :
  is_whitespace c = true → line_char c → text_reads t ws → text_reads (str_repeat n c +:+ t) ws.
Proof.
  intros Hb Hc Ht. induction n as [|n IH]; [done|]. cbn [str_repeat]. rewrite string_app_assoc. by apply text_reads_blank.
Qed.

Lemma text_reads_space t ws : text_reads t ws → text_reads (t +:+ " ") ws.
Proof.
  intros (cs & -> & Hcs). exists (cs ++ [" "])%list. split; [by rewrite concat_strings_app|].
  apply code_reads_append; [|done]. constructor; [apply space_blank|constructor].
Qed.

Lemma text_reads_empty ws : text_reads "" ws → ws = [].
Proof.
  intros (cs & Heq & (Hok & <- & _)). destruct Hok as [|c cs [Hc _] _]; [done|]. by destruct c.
Qed.

Lemma text_reads_trim t ws : text_reads t ws → text_reads (trim t) ws ∧ plain_line (trim t).
Proof. intros H. apply text_reads_trim_end. by apply text_reads_trim_start. Qed.

Lemma drop_ws_blanks cs : Forall (λ c, is_whitespace c = true) cs → drop_ws cs = [].
Proof. induction 1 as [|c cs Hc _ IH]; [done|]. simpl. by rewrite Hc. Qed.

Lemma words_None cs : ∀ s token,
  words s token cs = [] → token = None ∧ (s = Outside → Forall (λ c, is_whitespace c = true) cs).
Proof.
  induction cs as [|c cs IH]; intros s token; cbn [words].
  - by destruct token.
  - destruct (separates s c) eqn:Hsep.
    + intros [Ht Hw]%app_eq_nil. apply andb_prop in Hsep as [Hb ->%bool_decide_eq_true]. apply IH in Hw as [_ Hw].
      split; [by destruct token|]. intros _. constructor; [done|exact (Hw eq_refl)].
    + intros [? _]%IH. done.
Qed.

Lemma trim_end_blank t : text_reads t [] → trim_end t = "".
Proof.
  intros (cs & -> & (Hok & Hw & _)). unfold trim_end. rewrite chars_concat by (by apply line_chars_ok).
  apply words_None in Hw as [_ Hw]. rewrite drop_ws_blanks; [done|]. apply Forall_rev. by apply Hw.
Qed.

(** ** Reading a line back *)

Lemma cut_code t ws : text_reads t ws → ∃ cs, cut Outside (chars t) = (cs, []) ∧ code_reads cs ws.
Proof.
  intros (cs & -> & Hcs). destruct (Hcs) as (Hok & _ & Hnc & _). exists cs. split; [|done].
  rewrite chars_concat by (by apply line_chars_ok). rewrite <-(app_nil_r cs) at 1. rewrite cut_never_app by done.
  cbn [cut fst snd]. by rewrite app_nil_r.
Qed.

Lemma cut_comment t ws ks :
  text_reads t ws → Forall char_ok ks →
  ∃ cs, cut Outside (chars (t +:+ concat_strings ("#" :: ks))) = (cs, "#" :: ks) ∧ code_reads cs ws.
Proof.
  intros (cs & -> & Hcs) Hks. destruct (Hcs) as (Hok & _ & Hnc & Hs). exists cs. split; [|done].
  rewrite <-concat_strings_app, chars_concat; [|apply Forall_app; split; [by apply line_chars_ok|by constructor]].
  rewrite cut_never_app, Hs by done. cbn [cut fst snd]. by rewrite app_nil_r.
Qed.

(** The quotes of the code of a line are closed at its end. *)
Definition closed_line (t : string) : Prop := scan Outside (cut Outside (chars t)).1 = Outside.

Definition quotes_closed (source : string) : Prop := Forall closed_line (line_texts source).

(** No line ends in a carriage return of its own. *)
Definition no_stray_returns (source : string) : Prop :=
  Forall (λ t, ends_with RETURN t = false) (line_texts source).

Lemma chars_line_char t : str_ok t → no_newline t → Forall line_char (chars t).
Proof.
  intros Hok Hn. pose proof (chars_ok _ Hok) as Hc. rewrite <-(concat_chars t) in Hn.
  apply no_newline_concat in Hn. by apply Forall_and.
Qed.

Lemma closed_line_reads t code comment :
  str_ok t → no_newline t → closed_line t → cut Outside (chars t) = (code, comment) →
  code_reads code (words Outside None code) ∧ Forall line_char comment
  ∧ (comment = [] ∨ ∃ ks, comment = "#" :: ks).
Proof.
  intros Hok Hn Hclosed Hcut. unfold closed_line in Hclosed. rewrite Hcut in Hclosed.
  pose proof (chars_line_char _ Hok Hn) as Hc. rewrite <-(cut_app Outside), Hcut in Hc. apply Forall_app in Hc as [H1 H2].
  pose proof (cut_never Outside (chars t)) as Hnc. rewrite Hcut in Hnc. split_and!; try done.
  destruct comment as [|c ks]; [by left|]. right. exists ks.
  destruct (cut_nonempty Outside (chars t) c ks) as [-> _]; [by rewrite Hcut|done].
Qed.

Lemma str_ok_chars cs : Forall char_ok cs → str_ok (concat_strings cs).
Proof. intros [|c l Hc _]; [done|]. destruct c as [|a p]; [done|]. apply Hc. Qed.

Lemma text_reads_str_ok t ws : text_reads t ws → str_ok t.
Proof. intros (cs & -> & (Hok & _)). by apply str_ok_chars, line_chars_ok. Qed.

Lemma read_line_code t ws : text_reads t ws → read_line t = (classify_words ws, None) ∧ closed_line t.
Proof.
  intros (cs & Hcut & (_ & Hw & _ & Hs))%cut_code. unfold read_line, closed_line, read_code. by rewrite Hcut, Hw.
Qed.

Lemma read_line_comment t ws ks :
  text_reads t ws → Forall char_ok ks →
  read_line (t +:+ concat_strings ("#" :: ks)) = (classify_words ws, Some (concat_strings ("#" :: ks)))
  ∧ closed_line (t +:+ concat_strings ("#" :: ks)).
Proof.
  intros Ht Hks. destruct (cut_comment _ _ _ Ht Hks) as (cs & Hcut & (_ & Hw & _ & Hs)).
  unfold read_line, closed_line, read_code. by rewrite Hcut, Hw.
Qed.
