(* ===== verification/Formatting.v ===== *)
(** * The formatter

    [crates/ic10-core/src/formatting.rs]: a document is written out again, a line
    per line, and says what it said. *)

From S2P Require Import Prelude BTree Text F64 Knowledge Literals Syntax Analysis Program Compile Reparse.
Local Open Scope string_scope.
Local Open Scope Z_scope.

(** Source: [crates/ic10-core/src/formatting.rs] [FormatOptions] *)
Record FormatOptions := {
  fo_indent_size : nat;
  fo_insert_spaces : bool;
  fo_directives_at_column_zero : bool;
}.

(** Source: [crates/ic10-core/src/formatting.rs] [default] *)
Definition default_format : FormatOptions :=
  {| fo_indent_size := 2; fo_insert_spaces := true; fo_directives_at_column_zero := true |}.

Definition format_indent (options : FormatOptions) : string :=
  if fo_insert_spaces options then str_repeat (fo_indent_size options) " " else TAB.

Definition format_eol (source : string) : string :=
  if str_contains (RETURN +:+ NEWLINE) source then RETURN +:+ NEWLINE else NEWLINE.

Definition span_text (source : string) (sp : Span) : string := slice (start sp) (stop sp) source.

(** The code of a line.
    Source: [crates/ic10-core/src/formatting.rs] [format_document] lines 38-58 *)
Definition format_code (source : string) (options : FormatOptions) (line : ParsedLine) : string :=
  match pl_kind line with
  | LineEmpty =>
      match pl_comment_span line with Some _ => "" | None => span_text source (pl_span line) end
  | LineLabel name => text name +:+ ":"
  | LineInstruction mnemonic operands =>
      let at_column_zero :=
        fo_directives_at_column_zero options && existsb (String.eqb (text mnemonic)) ["alias"; "define"] in
      let code := (if at_column_zero then "" else format_indent options) +:+ text mnemonic in
      foldl (λ code operand, code +:+ (" " +:+ text operand)) code operands
  end.

(** Source: [crates/ic10-core/src/formatting.rs] [format_document] lines 34-67 *)
Definition format_line (source : string) (options : FormatOptions) (line : ParsedLine) : string :=
  let formatted := format_code source options line in
  match pl_comment_span line with
  | Some sp =>
      let comment := span_text source sp in
      if String.eqb (trim formatted) "" then comment
      else trim_end formatted +:+ (" " +:+ comment)
  | None => trim_end formatted
  end.

(** Source: [crates/ic10-core/src/formatting.rs] [format_document] *)
Definition format_document (document : Document) (options : FormatOptions) : string :=
  let source := do_source document in
  let eol := format_eol source in
  let trailing_eol := ends_with NEWLINE source in
  let output := format_line source options <$> do_lines document in
  let output :=
    if trailing_eol && bool_decide (last output = Some "") then removelast output else output in
  let result := join eol output in
  if trailing_eol then result +:+ eol else result.

Example format_aligns :
  let source := lines_of ["loop:   # start"; "add r0 r0    1 # count"; "    define limit 10"; "   "; "j loop"; ""] in
  format_document (parse source sample_kb) default_format
  = lines_of ["loop: # start"; "  add r0 r0 1 # count"; "define limit 10"; ""; "  j loop"; ""].
Proof. vm_compute. reflexivity. Qed.

(** ** What a formatted line says *)

(** The line written for a reading. *)
Definition write_code (options : FormatOptions) (kind : KindText) : string :=
  match kind with
  | KindEmpty => ""
  | KindLabel name => name +:+ ":"
  | KindInstruction mnemonic operands =>
      foldl (λ code operand, code +:+ (" " +:+ operand))
        ((if fo_directives_at_column_zero options && existsb (String.eqb mnemonic) ["alias"; "define"] then ""
          else format_indent options) +:+ mnemonic) operands
  end.

Definition write_line (options : FormatOptions) (view : KindText * option string) : string :=
  let formatted := write_code options view.1 in
  match view.2 with
  | Some comment =>
      if String.eqb (trim formatted) "" then comment else trim_end formatted +:+ (" " +:+ comment)
  | None => trim_end formatted
  end.

(** A reading of a line with closed quotes. *)
Definition closed_view (view : KindText * option string) : Prop :=
  (∃ ws, view.1 = classify_words ws ∧ Forall is_word ws)
  ∧ match view.2 with
    | None => True
    | Some k => ∃ ks, k = concat_strings ("#" :: ks) ∧ Forall char_ok ks ∧ plain_line k
    end.

Lemma foldl_operands {A} (f : A → string) code operands :
  foldl (λ code operand, code +:+ (" " +:+ f operand)) code operands
  = code +:+ concat_strings ((λ operand, " " +:+ f operand) <$> operands).
Proof.
  revert code. induction operands as [|o operands IH]; intros code; csimpl; [by rewrite string_app_nil_r|].
  rewrite IH. by rewrite !string_app_assoc.
Qed.

Lemma write_words_reads w ws :
  is_word w → Forall is_word ws →
  text_reads (w +:+ concat_strings ((λ operand, " " +:+ operand) <$> ws)) (w :: ws).
Proof.
  intros Hw Hws. revert w Hw. induction Hws as [|v ws Hv _ IH]; intros w Hw; csimpl.
  - rewrite string_app_nil_r. by apply text_reads_word.
  - by apply (text_reads_cons w _ (v :: ws)), IH.
Qed.

Lemma indent_reads options t ws : text_reads t ws → text_reads (format_indent options +:+ t) ws.
Proof.
  intros Ht. unfold format_indent. destruct (fo_insert_spaces options).
  - by apply text_reads_indent; try apply space_blank.
  - by apply text_reads_blank; try apply tab_blank.
Qed.

Lemma write_code_reads options ws :
  Forall is_word ws → text_reads (write_code options (classify_words ws)) ws.
Proof.
  intros Hws. destruct Hws as [|w ws Hw Hws]; [apply text_reads_nil|].
  assert (text_reads (write_code options (KindInstruction w ws)) (w :: ws)) as Hi.
  { cbn [write_code]. rewrite (foldl_operands id), string_app_assoc.
    case_match; [by apply write_words_reads|]. by apply indent_reads, write_words_reads. }
  destruct ws as [|v ws]; [|done]. cbn [classify_words]. destruct (strip_suffix ":" w) as [name|] eqn:E; [|done].
  cbn [write_code]. rewrite <-(strip_suffix_Some _ _ _ E). by apply text_reads_word.
Qed.

Lemma plain_line_app s t : no_newline s → t ≠ "" → plain_line t → plain_line (s +:+ t).
Proof.
  intros Hs Ht [Hn Hr]. split; [by apply no_newline_app|].
  by rewrite (ends_with_tail (byte 13) s t Ht : ends_with RETURN _ = _).
Qed.

(** A written line reads back as the reading it was written for. *)
Lemma write_line_reads options view :
  closed_view view →
  (read_line (write_line options view) = view ∧ closed_line (write_line options view))
  ∧ plain_line (write_line options view) ∧ str_ok (write_line options view).
Proof.
  destruct view as [kind comment]. intros [(ws & Hkind & Hws) Hk]. cbn [fst snd] in *. subst kind.
  pose proof (write_code_reads options ws Hws) as Hcode. unfold write_line. cbn [fst snd].
  destruct (text_reads_trim_end _ _ Hcode) as [Hend Hplain].
  destruct comment as [k|]; [|split; [by apply read_line_code|split; [done|by eapply text_reads_str_ok]]].
  destruct Hk as (ks & -> & Hks & Hkp). destruct (String.eqb_spec (trim (write_code options (classify_words ws))) "") as [E|E].
  - assert (ws = []) as ->.
    { apply text_reads_empty. rewrite <-E. by apply text_reads_trim. }
    split; [exact (read_line_comment "" [] ks text_reads_nil Hks)|]. split; [done|by apply str_ok_chars; constructor].
  - pose proof (text_reads_space _ _ Hend) as Hsp. rewrite <-string_app_assoc. split; [|split].
    + by apply read_line_comment.
    + apply plain_line_app; [|done..]. apply no_newline_app. split; [apply Hplain|]. by repeat constructor.
    + apply text_reads_str_ok in Hsp. revert Hsp. by destruct (trim_end _ +:+ " ").
Qed.

(** ** Formatting a parsed source *)

Lemma closed_line_view t :
  str_ok t → no_newline t → closed_line t → ends_with RETURN t = false → closed_view (read_line t).
Proof.
  intros Hok Hn Hclosed Hr. unfold read_line. destruct (cut Outside (chars t)) as [code comment] eqn:Hcut.
  destruct (closed_line_reads _ _ _ Hok Hn Hclosed Hcut) as (Hcode & Hcomment & Hhash). split; cbn [fst snd].
  - exists (words Outside None code). split; [done|]. by eapply code_reads_words.
  - destruct (cut_chars _ _ _ Hok Hcut) as (Ht & _ & Hks & _). destruct Hhash as [->|(ks & ->)]; [done|]. cbn [comment_text].
    exists ks. apply Forall_cons in Hks as [_ Hks]. split_and!; [done..|]. rewrite Ht in Hr, Hn.
    apply no_newline_app in Hn as [_ Hn]. split; [done|].
    by rewrite (ends_with_tail (byte 13) _ (concat_strings ("#" :: ks)) ltac:(done) : ends_with RETURN _ = _) in Hr.
Qed.

(** Formatting writes each line for what it says. *)
Lemma format_lines source options :
  lines_ok source → quotes_closed source →
  format_line source options <$> parse_lines source
  = write_line options <$> (read_line <$> line_texts source).
Proof.
  intros Hok Hclosed. rewrite <-list_fmap_compose.
  assert (Forall (λ t, str_ok t ∧ no_newline t ∧ closed_line t) (line_texts source)) as Hall
    by (apply Forall_and; split; [done|]; apply Forall_and; split; [apply line_texts_no_newline|done]).
  revert Hall. apply parse_lines_map. intros pre l post number -> (Hl & Hn & Hc).
  simpl. rewrite <-(parse_line_view pre l post number) by done.
  unfold format_line, write_line, line_view, format_code, span_text. cbn [fst snd].
  destruct (pl_kind (parse_line number (String.length pre) l)) as [| |mn ops] eqn:Hkind; cbn [kind_text write_code].
  - destruct (pl_comment_span _) as [sp|] eqn:Hsp; cbn [fmap option_fmap option_map]; [done|].
    pose proof (parse_line_view pre l post number Hl) as Hview. unfold line_view, read_line in Hview.
    rewrite Hkind, Hsp in Hview. cbn [kind_text fmap option_fmap option_map] in Hview.
    destruct (cut Outside (chars (line_text l))) as [code comment] eqn:Hcut. injection Hview as Hk Hcomment.
    destruct comment; [|done]. destruct (closed_line_reads _ _ _ Hl Hn Hc Hcut) as (Hcode & _ & _).
    destruct (cut_chars _ _ _ Hl Hcut) as (Ht & _). cbn [concat_strings foldr] in Ht. rewrite string_app_nil_r in Ht.
    rewrite (trim_end_blank ""); [|apply text_reads_nil]. apply trim_end_blank. exists code. split.
    + unfold parse_line. cbn [pl_span start stop]. destruct (line_text_prefix l) as [e He].
      assert (l +:+ post = line_text l +:+ (e +:+ post)) as -> by (rewrite <-string_app_assoc; by rewrite <-He).
      rewrite <-(Nat.add_0_r (String.length pre)) at 1. rewrite slice_inside by lia. by rewrite slice_all.
    + destruct (words Outside None code) as [|w ws] eqn:Hw; [done|]. unfold read_code in Hk. rewrite Hw in Hk.
      simpl in Hk. by repeat case_match.
  - by destruct (pl_comment_span _).
  - rewrite (foldl_operands text), (foldl_operands id), <-list_fmap_compose. by destruct (pl_comment_span _).
Qed.

Lemma parse_do_lines source kb options : do_lines (parse_with_options source kb options) = parse_lines source.
Proof. unfold parse_with_options. by destruct (collect_declarations _ _ _). Qed.

Lemma parse_do_source source kb options : do_source (parse_with_options source kb options) = source.
Proof. unfold parse_with_options. by destruct (collect_declarations _ _ _). Qed.

Lemma join_snoc_empty e l : l ≠ [] → join e (l ++ [""]) = join e l +:+ e.
Proof.
  induction l as [|s [|t l] IH]; intros Hl; [done| |].
  - cbn. by rewrite string_app_nil_r.
  - change (join e ((s :: t :: l) ++ [""])) with (s +:+ e +:+ join e ((t :: l) ++ [""])).
    rewrite IH by done. change (join e (s :: t :: l)) with (s +:+ e +:+ join e (t :: l)).
    by rewrite !string_app_assoc.
Qed.

Lemma ends_newline_texts source :
  ends_with NEWLINE source = true → ∃ l, l ≠ [] ∧ line_texts source = (l ++ [""])%list.
Proof.
  intros Hends. unfold line_texts, pieces. rewrite Hends, orb_true_r, fmap_app. eexists. split; [|done].
  destruct source as [|a s]; [done|]. cbn [split_inclusive_nl].
  destruct (byte_of a =? 10); [done|]. by destruct (split_inclusive_nl s).
Qed.

(** The whole text: the written lines, joined. *)
Lemma format_document_join source kb analysis options :
  lines_ok source → quotes_closed source →
  format_document (parse_with_options source kb analysis) options
  = join (format_eol source) (write_line options <$> (read_line <$> line_texts source)).
Proof.
  intros Hok Hclosed. unfold format_document. rewrite parse_do_source, parse_do_lines, format_lines by done.
  destruct (ends_with NEWLINE source) eqn:Hends; [|done].
  destruct (ends_newline_texts _ Hends) as (l & Hne & ->). rewrite !fmap_app. cbn.
  rewrite last_snoc, bool_decide_eq_true_2, removelast_last by done. symmetry. apply join_snoc_empty. by destruct l.
Qed.

Lemma format_eol_cases source : format_eol source = NEWLINE ∨ format_eol source = RETURN +:+ NEWLINE.
Proof. unfold format_eol. case_match; auto. Qed.

Lemma format_texts source kb analysis options :
  lines_ok source → quotes_closed source → no_stray_returns source →
  let written := write_line options <$> (read_line <$> line_texts source) in
  line_texts (format_document (parse_with_options source kb analysis) options) = written
  ∧ read_line <$> written = read_line <$> line_texts source
  ∧ Forall str_ok written ∧ Forall plain_line written ∧ Forall closed_line written.
Proof.
  intros Hok Hclosed Hret written.
  assert (Forall closed_view (read_line <$> line_texts source)) as Hviews.
  { apply Forall_fmap. pose proof (line_texts_no_newline source) as Hn. unfold lines_ok, quotes_closed, no_stray_returns in *.
    rewrite Forall_forall in *. intros t Ht. apply closed_line_view; auto. }
  assert (Forall (λ t, str_ok t ∧ plain_line t ∧ closed_line t) written) as Hw.
  { apply Forall_fmap. eapply Forall_impl; [exact Hviews|]. intros v Hv.
    by destruct (write_line_reads options v Hv) as ([_ ?] & ? & ?). }
  apply Forall_and in Hw as [Hw1 [Hw2 Hw3]%Forall_and]. split_and!; [| |done..].
  - rewrite format_document_join by done. apply line_texts_join; [apply format_eol_cases| |done].
    unfold written, line_texts. assert (pieces source ≠ []) as Hne.
    { unfold pieces. destruct source as [|a s]; [done|]. cbn [split_inclusive_nl].
      destruct (byte_of a =? 10); [done|]. by destruct (split_inclusive_nl s). }
    by destruct (pieces source).
  - unfold written. clear Hw1 Hw2 Hw3 written. induction Hviews as [|v vs Hv _ IH]; csimpl; [done|].
    rewrite IH. f_equal. by destruct (write_line_reads options v Hv) as [[? _] _].
Qed.

Lemma format_views source kb analysis options :
  lines_ok source → quotes_closed source → no_stray_returns source →
  let formatted := format_document (parse_with_options source kb analysis) options in
  lines_ok formatted ∧ read_line <$> line_texts formatted = read_line <$> line_texts source.
Proof.
  intros Hok Hclosed Hret formatted. destruct (format_texts source kb analysis options) as (Ht & Hr & Hs & _); [done..|].
  unfold formatted, lines_ok. by rewrite Ht.
Qed.

(** ** The formatted program *)

(** The tables of a program depend on what its lines say. *)
Lemma compile_lines_views lines lines' :
  Forall2 (λ line line', kind_text (pl_kind line) = kind_text (pl_kind line') ∧ pl_number line = pl_number line')
    lines lines' → compile_lines lines = compile_lines lines'.
Proof.
  unfold compile_lines. generalize {| tb_operations := []; tb_labels := []; tb_defines := []; tb_aliases := [] |}.
  intros t H. revert t. induction H as [|line line' lines lines' [Hk Hn] _ IH]; intros t; [done|]. cbn [foldl].
  rewrite IH. f_equal. unfold compile_line, operation_of.
  destruct (pl_kind line) as [|name|mn ops], (pl_kind line') as [|name'|mn' ops']; try done.
  - injection Hk as Hk. by rewrite Hk, Hn.
  - injection Hk as Hm Ho. by rewrite Hm, Ho, Hn.
Qed.

Lemma views_same_lines source source' :
  lines_ok source → lines_ok source' → read_line <$> line_texts source = read_line <$> line_texts source' →
  Forall2 (λ line line', kind_text (pl_kind line) = kind_text (pl_kind line') ∧ pl_number line = pl_number line')
    (parse_lines source) (parse_lines source').
Proof.
  intros H1 H2 Heq. rewrite <-!parse_lines_views in Heq by done. apply Forall2_same_length_lookup. split.
  - apply (f_equal length) in Heq. by rewrite !length_fmap in Heq.
  - intros i line line' Hi Hi'. apply (f_equal (.!! i)) in Heq. rewrite !list_lookup_fmap, Hi, Hi' in Heq.
    injection Heq as Hk _. apply parse_lines_start in Hi as (_ & _ & ->), Hi' as (_ & _ & ->). done.
Qed.

(** C38.  Formatting keeps the program: on a source whose quotes are closed, every
    line of the formatted text has the kind, the tokens and the comment of the line
    of the same number, so that both compile to the same operations, labels,
    defines and aliases. *)
Theorem formatting_keeps_program (source : string) (kb : KnowledgeBase) (analysis : AnalysisOptions)
    (options : FormatOptions) :
  lines_ok source → quotes_closed source → no_stray_returns source →
  let formatted := format_document (parse_with_options source kb analysis) options in
  line_view formatted <$> parse_lines formatted = line_view source <$> parse_lines source
  ∧ compile_lines (parse_lines formatted) = compile_lines (parse_lines source).
Proof.
  intros Hok Hclosed Hret formatted.
  destruct (format_views source kb analysis options) as [Hf Heq]; [done..|]. fold formatted in Hf, Heq. split.
  - by rewrite !parse_lines_views.
  - by apply compile_lines_views, views_same_lines.
Qed.

Ltac check_lines := repeat (constructor; [vm_compute; reflexivity|]); constructor.

Lemma formatting_keeps_program_witness :
  let source := lines_of ["go:  # a " +:+ DQUOTE; " s  db Setting HASH(" +:+ DQUOTE +:+ "a  # b" +:+ DQUOTE +:+ ")"; ""] in
  let formatted := format_document (parse source sample_kb) default_format in
  formatted ≠ source ∧ line_view formatted <$> parse_lines formatted = line_view source <$> parse_lines source.
Proof.
  split; [by vm_compute|].
  apply (formatting_keeps_program _ sample_kb default_options default_format); unfold lines_ok, quotes_closed, no_stray_returns;
    (set (l := line_texts _); vm_compute in l; subst l; check_lines).
Defined.

(** ** Formatting twice *)

Lemma starts_with_app p s : starts_with p (p +:+ s) = true.
Proof. unfold starts_with. by rewrite strip_prefix_app. Qed.

Lemma str_contains_middle p s t : str_contains p (s +:+ (p +:+ t)) = true.
Proof.
  induction s as [|a s IH]; cbn [String.append].
  - destruct (p +:+ t) eqn:E; cbn [str_contains]; rewrite <-E, starts_with_app; done.
  - cbn [str_contains]. by rewrite IH, orb_true_r.
Qed.

Lemma crlf_skip p s :
  plain_line p → str_contains (RETURN +:+ NEWLINE) (p +:+ (NEWLINE +:+ s)) = str_contains (RETURN +:+ NEWLINE) s.
Proof.
  intros [Hn Hr]. induction p as [|a p IH]; [done|]. apply Forall_cons in Hn as [Ha Hn].
  cbn [String.append str_contains]. destruct p as [|b p].
  - assert (a ≠ byte 13) as Hne by (by intros ->). unfold starts_with. cbn [RETURN String.append strip_prefix of_bytes foldr].
    apply Ascii.eqb_neq in Hne. rewrite Ascii.eqb_sym in Hne. rewrite Hne. done.
  - rewrite IH; [|done|rewrite <-Hr; symmetry; by apply (ends_with_tail (byte 13) (String a "") (String b p))].
    assert (starts_with (RETURN +:+ NEWLINE) (String a (String b p +:+ (NEWLINE +:+ s))) = false) as ->; [|done].
    apply Forall_cons in Hn as [Hb _]. unfold starts_with. cbn [RETURN NEWLINE String.append strip_prefix of_bytes foldr].
    destruct (Ascii.eqb (byte 13) a); [|done]. destruct (Ascii.eqb_spec (byte 10) b) as [<-|]; [|done]. by vm_compute in Hb.
Qed.

Lemma crlf_plain p : no_newline p → str_contains (RETURN +:+ NEWLINE) p = false.
Proof.
  induction p as [|a p IH]; [done|]. intros [Ha Hp]%Forall_cons. cbn [str_contains]. rewrite IH by done.
  rewrite orb_false_r. unfold starts_with. cbn [RETURN NEWLINE String.append strip_prefix of_bytes foldr].
  destruct (Ascii.eqb (byte 13) a); [|done]. destruct p as [|b p]; [done|]. apply Forall_cons in Hp as [Hb _].
  destruct (Ascii.eqb_spec (byte 10) b) as [<-|]; [|done]. by vm_compute in Hb.
Qed.

(** The terminator of a text of several lines is the one it was joined with. *)
Lemma join_eol e ps p q :
  e = NEWLINE ∨ e = RETURN +:+ NEWLINE → Forall plain_line (p :: q :: ps) → format_eol (join e (p :: q :: ps)) = e.
Proof.
  intros He Hps. unfold format_eol. destruct He as [->| ->].
  - assert (∀ l p, Forall plain_line (p :: l) → str_contains (RETURN +:+ NEWLINE) (join NEWLINE (p :: l)) = false) as H.
    { induction l as [|r l IH]; intros p' [Hp Hl]%Forall_cons; [by apply crlf_plain; destruct Hp|].
      change (join NEWLINE (p' :: r :: l)) with (p' +:+ NEWLINE +:+ join NEWLINE (r :: l)).
      rewrite crlf_skip by done. by apply IH. }
    by rewrite H.
  - change (join (RETURN +:+ NEWLINE) (p :: q :: ps)) with (p +:+ (RETURN +:+ NEWLINE) +:+ join (RETURN +:+ NEWLINE) (q :: ps)).
    by rewrite str_contains_middle.
Qed.

(** Formatting is idempotent. *)
Theorem formatting_idempotent (source : string) (kb : KnowledgeBase) (analysis : AnalysisOptions) (options : FormatOptions) :
  lines_ok source → quotes_closed source → no_stray_returns source →
  let formatted := format_document (parse_with_options source kb analysis) options in
  format_document (parse_with_options formatted kb analysis) options = formatted.
Proof.
  intros Hok Hclosed Hret formatted.
  destruct (format_texts source kb analysis options) as (Ht & Hr & Hs & Hp & Hc); [done..|]. fold formatted in Ht.
  rewrite format_document_join by (unfold lines_ok, quotes_closed; by rewrite Ht). rewrite Ht, Hr.
  unfold formatted. rewrite format_document_join by done. revert Hp.
  destruct (write_line options <$> _) as [|p [|q ps]]; [done..|]. intros Hp.
  rewrite join_eol; [done|apply format_eol_cases|done].
Qed.

Lemma formatting_idempotent_witness :
  let source := lines_of ["go:"; "    yield # x"; "j    go"] in
  let formatted := format_document (parse source sample_kb) default_format in
  formatted ≠ source ∧ format_document (parse formatted sample_kb) default_format = formatted.
Proof.
  split; [by vm_compute|].
  apply (formatting_idempotent _ sample_kb default_options default_format); unfold lines_ok, quotes_closed, no_stray_returns;
    (set (l := line_texts _); vm_compute in l; subst l; check_lines).
Defined.
