(* ===== verification/Deploy.v ===== *)
(** * Deployment builds

    [crates/ic10-build/src/lib.rs]: a source becomes the text that is pasted into the
    game, with a map of its lines.  [sha2] is not part of the crate: the digest of the
    source, in hexadecimal, is a parameter. *)

From S2P Require Import Prelude BTree Text F64 Knowledge Literals Syntax Analysis.
Local Open Scope string_scope.
Local Open Scope Z_scope.

(** Source: [crates/ic10-build/src/lib.rs] [TOOL_VERSION] *)
Definition TOOL_VERSION : string := "0.5.2".

(** Source: [crates/ic10-build/src/lib.rs] [OptimizationLevel] *)
Inductive OptimizationLevel := OptNone | OptReadable | OptCompact.

#[export] Instance optimization_eq_dec : EqDecision OptimizationLevel.
Proof. solve_decision. Defined.

(** Source: [crates/ic10-build/src/lib.rs] [BuildOptions] *)
Record BuildOptions := {
  bo_optimization : OptimizationLevel;
  bo_game_version : option string;
  bo_source_path : option string;
  bo_environment : option string;
}.

(** Source: [crates/ic10-build/src/lib.rs] [default] *)
Definition default_build : BuildOptions :=
  {| bo_optimization := OptReadable; bo_game_version := None; bo_source_path := None; bo_environment := None |}.

(** Source: [crates/ic10-build/src/lib.rs] [SourceMapEntry] *)
Record SourceMapEntry := { sm_generated_line : nat; sm_source_line : nat }.

(** Source: [crates/ic10-build/src/lib.rs] [BuildMetadata] *)
Record BuildMetadata := {
  bm_source_sha256 : string;
  bm_tool_version : string;
  bm_game_data_version : string;
  bm_options : BuildOptions;
}.

(** Source: [crates/ic10-build/src/lib.rs] [OfficialLimit] *)
Record OfficialLimit := {
  li_name : string;
  li_value : option Z;
  li_unit : string;
  li_source : string;
  li_game_data_version : string;
}.

(** Source: [crates/ic10-build/src/lib.rs] [BuildReport] *)
Record BuildReport := {
  br_source_lines : nat;
  br_generated_lines : nat;
  br_source_bytes : nat;
  br_generated_bytes : nat;
  br_saved_lines : Z;
  br_saved_bytes : Z;
  br_adjusted_relative_branches : nat;
  br_adjusted_absolute_branches : nat;
  br_substituted_defines : nat;
  br_replaced_labels : nat;
  br_shortened_aliases : nat;
  br_limits : list OfficialLimit;
}.

(** Source: [crates/ic10-build/src/lib.rs] [BuildOutput] *)
Record BuildOutput := {
  bu_code : string;
  bu_source_map : list SourceMapEntry;
  bu_metadata : BuildMetadata;
  bu_report : BuildReport;
}.

(** Source: [crates/ic10-build/src/lib.rs] [BuildDiagnostic] *)
Record BuildDiagnostic := {
  bd_code : string;
  bd_message : string;
  bd_source_line : option Z;
}.

(** Source: [crates/ic10-build/src/lib.rs] [BuildError] *)
Record BuildError := { be_diagnostics : list BuildDiagnostic }.

(** Source: [crates/ic10-build/src/lib.rs] [fmt] *)
Definition display_error (e : BuildError) : string := join "; " (bd_message <$> be_diagnostics e).

(** Source: [crates/ic10-build/src/lib.rs] [OutputLine] *)
Record OutputLine := {
  ol_source_line : nat;
  ol_text : string;
  ol_mnemonic : option string;
  ol_operands : list string;
}.

(** Source: [crates/ic10-build/src/lib.rs] [error] *)
Definition error (code message : string) (source_line : option Z) : BuildError :=
  {| be_diagnostics := [{| bd_code := code; bd_message := message; bd_source_line := source_line |}] |}.

(** The line of an output line, as a diagnostic shows it. *)
Definition shown_line (line : OutputLine) : option Z := Some (Z.of_nat (ol_source_line line) + 1).

(** ** Texts *)

(** [str::lines().count()] *)
Definition line_count (s : string) : nat := length (split_inclusive_nl s).

(** [str::split_terminator] on an ASCII character *)
Definition split_terminator (c : Ascii.ascii) (s : string) : list string :=
  let l := split_char c s in
  if bool_decide (last l = Some "") then removelast l else l.

(** Source: [crates/ic10-build/src/lib.rs] [source_lines] *)
Definition source_lines (source : string) : list string :=
  if String.eqb source "" then []
  else (λ line, default line (strip_suffix RETURN line)) <$> split_terminator (byte 10) source.

(** [str::is_char_boundary] *)
Definition is_char_boundary (s : string) (n : nat) : bool :=
  (n =? 0)%nat || (n =? String.length s)%nat
  || match String.get n s with Some a => negb (is_continuation a) | None => false end.

(** [str::get(..n)] *)
Definition get_to (n : nat) (s : string) : option string :=
  if is_char_boundary s n then Some (slice 0 n s) else None.

(** The position of the last occurrence: [str::rfind]. *)
Fixpoint rfind (p s : string) : option nat :=
  match s with
  | "" => if String.eqb p "" then Some 0%nat else None
  | String _ s' =>
      match rfind p s' with
      | Some n => Some (S n)
      | None => if starts_with p s then Some 0%nat else None
      end
  end.

(** [str::trim_start_matches([' ', '\t'])] *)
Fixpoint trim_indentation (s : string) : string :=
  match s with
  | "" => ""
  | String a s' => if (byte_of a =? 32) || (byte_of a =? 9) then trim_indentation s' else s
  end.

(** Source: [crates/ic10-build/src/lib.rs] [strip_leading_indentation] *)
Definition strip_leading_indentation (source : string) : string :=
  concat_strings (trim_indentation <$> split_inclusive_nl source).

(** The loop of [replace_tokens]: the token read so far, then the text written. *)
Fixpoint replace_from (replacements : BTreeMap string string) (token : string) (cs : list string) : string :=
  match cs with
  | [] => ""
  | c :: cs' =>
      if is_whitespace c then
        (if String.eqb token "" then "" else default token (bt_get token replacements))
        +:+ (c +:+ replace_from replacements "" cs')
      else replace_from replacements (token +:+ c) cs'
  end.

(** The text without its last character: [String::pop]. *)
Definition pop_char (s : string) : string := concat_strings (removelast (chars s)).

(** Source: [crates/ic10-build/src/lib.rs] [replace_tokens] *)
Definition replace_tokens (source : string) (replacements : BTreeMap string string) : string :=
  pop_char (replace_from replacements "" (chars source ++ [" "])).

(** [&s[n..]], which panics past the end or inside a character *)
Definition slice_from {E} (n : nat) (s : string) : outcome E string :=
  if (n <=? String.length s)%nat && is_char_boundary s n then Ok (slice n (String.length s) s) else Panic.

(** Source: [crates/ic10-build/src/lib.rs] [replace_last_token] *)
Definition replace_last_token (source old new : string) : outcome BuildError string :=
  let stop := String.length (trim_end source) in
  let start := default stop (rfind old (slice 0 stop source)) in
  rest ← slice_from (start + String.length old) source;
  Ok (slice 0 start source +:+ (new +:+ rest)).

(** ** Names *)

(** The loop of [resolve_define]; the outer [None] is a loop cut short. *)
Fixpoint resolve_from (fuel : nat) (defines : BTreeMap string string) (visited : gset string) (current : string) :
    option (option string) :=
  match fuel with
  | O => None
  | S fuel' =>
      if decide (current ∈ visited) then Some None
      else match bt_get current defines with
           | None => Some None
           | Some value =>
               match bt_get value defines with
               | Some _ => resolve_from fuel' defines ({[current]} ∪ visited) value
               | None => Some (Some value)
               end
           end
  end.

(** Source: [crates/ic10-build/src/lib.rs] [resolve_define] *)
Definition resolve_define (name : string) (defines : BTreeMap string string) : option string :=
  default None (resolve_from (S (length defines)) defines ∅ name).

(** ** Lines kept *)

(** The code of a source line.
    Source: [crates/ic10-build/src/lib.rs] [build] lines 207-212 *)
Definition kept_code (raw : string) (line : ParsedLine) : string :=
  trim (match pl_comment_span line with
        | None => raw
        | Some sp => default raw (get_to (start sp - start (pl_span line)) raw)
        end).

(** Source: [crates/ic10-build/src/lib.rs] [build] lines 206-230 *)
Definition kept_line (index : nat) (raw : string) (line : ParsedLine) : option OutputLine :=
  let code := kept_code raw line in
  if String.eqb (trim code) "" then None
  else
    let '(mnemonic, operands) :=
      match pl_kind line with
      | LineInstruction mnemonic operands => (Some (to_ascii_lowercase (text mnemonic)), text <$> operands)
      | LineLabel _ | LineEmpty => (None, [])
      end in
    Some {| ol_source_line := index; ol_text := code; ol_mnemonic := mnemonic; ol_operands := operands |}.

Definition numbered_lines (document : Document) (raw_lines : list string) : list (nat * (string * ParsedLine)) :=
  enumerate (zip raw_lines (do_lines document)).

Definition kept_lines (document : Document) (raw_lines : list string) : list OutputLine :=
  omap (λ '(index, (raw, line)), kept_line index raw line) (numbered_lines document raw_lines).

(** The source lines without code, as the loop marks them. *)
Definition blank_lines (document : Document) (raw_lines : list string) : gset nat :=
  list_to_set (omap (λ '(index, (raw, line)),
    match kept_line index raw line with Some _ => None | None => Some index end)
    (numbered_lines document raw_lines)).

(** ** The line map *)

(** Source: [crates/ic10-build/src/lib.rs] [generated_line_map] *)
Definition generated_line_map {E} (source_len : nat) (output : list OutputLine) : outcome E (list (option nat)) :=
  fold_outcome (λ result '(generated, line),
    if (ol_source_line line <? length result)%nat
    then Ok (<[ol_source_line line := Some generated]> result) else Panic)
    (replicate source_len None) (enumerate output).

(** Source: [crates/ic10-build/src/lib.rs] [translate_target] *)
Definition translate_target (target : nat) (line_map : list (option nat)) : option nat :=
  if (target <=? length line_map)%nat then find_map id (drop target line_map) else None.

(** ** Compact builds *)

Definition symbols_of (document : Document) : list Symbol := bt_values (do_symbols document).

(** Source: [crates/ic10-build/src/lib.rs] [build] lines 233-244 *)
Definition compact_defines (document : Document) : BTreeMap string string :=
  let raw_defines := bt_collect (omap (λ symbol,
    if bool_decide (sy_kind symbol = SymDefine) then (λ value, (sy_name symbol, value)) <$> sy_value symbol else None)
    (symbols_of document)) in
  bt_collect (omap (λ name, (λ value, (name, value)) <$> resolve_define name raw_defines) (bt_keys raw_defines)).

(** [candidate.insert(0, 'a')] while the candidate is taken; [None] is a loop cut short. *)
Fixpoint free_name (fuel : nat) (occupied : list string) (candidate : string) : option string :=
  match fuel with
  | O => None
  | S fuel' =>
      if bool_decide (candidate ∈ occupied) then free_name fuel' occupied ("a" +:+ candidate) else Some candidate
  end.

(** Source: [crates/ic10-build/src/lib.rs] [build] lines 245-262 *)
Definition compact_aliases (document : Document) : BTreeMap string string :=
  let private_aliases := omap (λ symbol,
    if bool_decide (sy_kind symbol = SymAlias) && starts_with "_" (sy_name symbol) then Some (sy_name symbol) else None)
    (symbols_of document) in
  let occupied := bt_keys (do_symbols document) in
  bt_collect (omap (λ '(index, name),
    (λ candidate, (name, candidate))
      <$> free_name (S (length occupied)) occupied ("a" +:+ show (Z.of_nat index)))
    (enumerate private_aliases)).

(** [extend] *)
Definition extend (m extra : BTreeMap string string) : BTreeMap string string :=
  foldl (λ m '(k, v), bt_insert k v m) m extra.

Definition count_known (operands : list string) (m : BTreeMap string string) : nat :=
  length (filter (λ operand, bt_contains_key operand m) operands).

(** A define that is written out at its uses. *)
Definition is_removed_define (defines : BTreeMap string string) (line : OutputLine) : bool :=
  bool_decide (ol_mnemonic line = Some "define")
  && match head (ol_operands line) with Some name => bt_contains_key name defines | None => false end.

(** Source: [crates/ic10-build/src/lib.rs] [build] lines 275-293 *)
Definition substitute_line (defines aliases : BTreeMap string string) (line : OutputLine) : OutputLine :=
  let replacements := extend defines aliases in
  {| ol_source_line := ol_source_line line;
     ol_text := replace_tokens (ol_text line) replacements;
     ol_mnemonic := ol_mnemonic line;
     ol_operands := (λ operand, default operand (bt_get operand replacements)) <$> ol_operands line |}.

(** Whether every use of a label is in an absolute branch.
    Source: [crates/ic10-build/src/lib.rs] [build] lines 297-316 *)
Definition removable_label (document : Document) (symbol : Symbol) : bool :=
  bool_decide (sy_kind symbol = SymLabel)
  && forallb (λ occurrence,
       so_declaration occurrence
       || match line_at_offset document (start (so_span occurrence)) with
          | Some line =>
              match pl_kind line with
              | LineInstruction mnemonic _ => is_absolute_branch (text mnemonic)
              | _ => false
              end
          | None => false
          end) (occurrences_for document (sy_name symbol)).

Definition removable_labels (document : Document) : list Symbol :=
  filter (λ symbol, removable_label document symbol) (symbols_of document).

Definition with_last_operand (text operand : string) (line : OutputLine) : OutputLine :=
  {| ol_source_line := ol_source_line line; ol_text := text; ol_mnemonic := ol_mnemonic line;
     ol_operands := (removelast (ol_operands line) ++ [operand])%list |}.

(** The branch target of a line, when it is a label to replace. *)
Definition label_target (document : Document) (removable : list string) (line : OutputLine) : option (string * Symbol) :=
  mnemonic ← ol_mnemonic line;
  if is_absolute_branch mnemonic then
    target ← last (ol_operands line);
    if bool_decide (target ∈ removable) then (λ symbol, (target, symbol)) <$> document_symbol document target else None
  else None.

(** The flag tells whether the label was replaced.
    Source: [crates/ic10-build/src/lib.rs] [build] lines 324-348 *)
Definition replace_label (document : Document) (removable : list string) (line_map : list (option nat))
    (line : OutputLine) : outcome BuildError (OutputLine * bool) :=
  match label_target document removable line with
  | None => Ok (line, false)
  | Some (target, symbol) =>
      generated_target ← ok_or (translate_target (Z.to_nat (sy_declaration_line symbol)) line_map)
        (error "unmappable-label" ("Label " +:+ quote target +:+ " has no generated destination.") (shown_line line));
      let shown := show (Z.of_nat generated_target) in
      Ok (with_last_operand (replace_tokens (ol_text line) [(target, shown)]) shown line, true)
  end.

(** The lines of a build and the counts of its report. *)
Record Reduction := {
  rd_output : list OutputLine;
  rd_replaced : gset nat;
  rd_substituted_defines : nat;
  rd_replaced_labels : nat;
  rd_shortened_aliases : nat;
}.

(** Source: [crates/ic10-build/src/lib.rs] [build] lines 232-349 *)
Definition compact (document : Document) (raw_lines : list string) : outcome BuildError Reduction :=
  let defines := compact_defines document in
  let aliases := compact_aliases document in
  let output := kept_lines document raw_lines in
  let substituted := filter (λ line, ¬ is_removed_define defines line) output in
  let removed_defines := filter (λ line, is_removed_define defines line) output in
  let labels := removable_labels document in
  let removed := (blank_lines document raw_lines
                  ∪ list_to_set (ol_source_line <$> removed_defines)
                  ∪ list_to_set ((λ symbol, Z.to_nat (sy_declaration_line symbol)) <$> labels) : gset nat) in
  let output := filter (λ line, ol_text line ≠ "") (substitute_line defines aliases <$> substituted) in
  let output := filter (λ line, ol_source_line line ∉ removed) output in
  line_map ← generated_line_map (length raw_lines) output;
  replaced ← map_outcome (replace_label document (sy_name <$> labels) line_map) output;
  let changed := filter (λ '(_, flag), flag = true) replaced in
  Ok {| rd_output := replaced.*1;
        rd_replaced := list_to_set (ol_source_line <$> changed.*1);
        rd_substituted_defines := sum_list ((λ line, count_known (ol_operands line) defines) <$> substituted);
        rd_replaced_labels := length changed;
        rd_shortened_aliases := sum_list ((λ line, count_known (ol_operands line) aliases) <$> substituted) |}.

(** ** Branches *)

Inductive Adjustment := Untouched | AdjustedRelative | AdjustedAbsolute.

#[export] Instance adjustment_eq_dec : EqDecision Adjustment.
Proof. solve_decision. Defined.

Definition is_relative_branch (mnemonic : string) : bool :=
  String.eqb mnemonic "jr" || starts_with "br" mnemonic.

(** [value.is_finite() && value.fract() == 0.0] *)
Definition whole_literal (token : string) : option f64 :=
  filter_option (λ value, f_is_finite value && f_eq (f_fract value) f_zero) (parse_numeric_literal token).

(** The label of an absolute branch stays by name, or has been replaced already. *)
Definition names_label (document : Document) (replaced : gset nat) (line : OutputLine) (token : string) : bool :=
  bool_decide (ol_source_line line ∈ replaced)
  || match document_symbol document token with Some symbol => bool_decide (sy_kind symbol = SymLabel) | None => false end.

Section adjust.
Context `{Build} (document : Document) (source_len : nat) (replaced : gset nat) (line_map : list (option nat))
  (topology_changed : bool).

(** A branch whose target is the whole number [value].
    Source: [crates/ic10-build/src/lib.rs] [build] lines 394-429 *)
Definition adjust_literal (generated_index : nat) (line : OutputLine) (relative : bool) (token : string) (value : f64) :
    outcome BuildError (OutputLine * Adjustment) :=
  original_target ← (if relative then add_i64 (Z.of_nat (ol_source_line line)) (to_i64 value) else Ok (to_i64 value));
  if (original_target <? 0) || (Z.of_nat source_len <=? original_target) then
    Err (error "branch-out-of-range" ("Branch target " +:+ show original_target +:+ " is outside the source.") (shown_line line))
  else
    generated_target ← ok_or (translate_target (Z.to_nat original_target) line_map)
      (error "unmappable-branch" "Branch target has no generated destination." (shown_line line));
    let adjusted := if relative then Z.of_nat generated_target - Z.of_nat generated_index else Z.of_nat generated_target in
    if adjusted =? to_i64 value then Ok (line, Untouched)
    else
      text ← replace_last_token (ol_text line) token (show adjusted);
      Ok (with_last_operand text (show adjusted) line, if relative then AdjustedRelative else AdjustedAbsolute).

(** Source: [crates/ic10-build/src/lib.rs] [build] lines 355-393 *)
Definition adjust_branch (generated_index : nat) (line : OutputLine) : outcome BuildError (OutputLine * Adjustment) :=
  match ol_mnemonic line with
  | None => Ok (line, Untouched)
  | Some mnemonic =>
      let relative := is_relative_branch mnemonic in
      let absolute := is_absolute_branch mnemonic in
      if negb relative && negb absolute then Ok (line, Untouched)
      else
        match last (ol_operands line) with
        | None => Ok (line, Untouched)
        | Some token =>
            if absolute && names_label document replaced line token then Ok (line, Untouched)
            else
              match whole_literal token with
              | None =>
                  if topology_changed then
                    Err (error (if relative then "unsafe-relative-branch" else "unsafe-absolute-branch")
                      ("Cannot preserve " +:+ (if relative then "relative" else "absolute") +:+ " branch " +:+ quote mnemonic
                       +:+ " with non-literal target " +:+ quote token +:+ " while lines are removed.") (shown_line line))
                  else Ok (line, Untouched)
              | Some value => adjust_literal generated_index line relative token value
              end
        end
  end.
End adjust.

(** ** The build *)

Section build.
Context `{Build} (sha256_hex : string → string).

Definition official_limits (game_data_version : string) (maximum : Z) : list OfficialLimit :=
  let unknown name :=
    {| li_name := name; li_value := None; li_unit := "bytes";
       li_source := "unknown: no official generated limit is available"; li_game_data_version := game_data_version |} in
  [{| li_name := "programLines"; li_value := Some maximum; li_unit := "lines";
      li_source := "generated Stationpedia architecture data"; li_game_data_version := game_data_version |};
   unknown "programBytes"; unknown "bytesPerLine"].

(** The counts of adjusted branches, substituted defines, replaced labels and
    shortened aliases. *)
Record Counts := { ct_relative : nat; ct_absolute : nat; ct_defines : nat; ct_labels : nat; ct_aliases : nat }.

(** Source: [crates/ic10-build/src/lib.rs] [finish] *)
Definition finish (source code : string) (source_lines : list nat) (options : BuildOptions) (kb : KnowledgeBase)
    (counts : Counts) : outcome BuildError BuildOutput :=
  let generated_lines := line_count code in
  let maximum := ar_maximum_program_lines (la_architecture (kb_language kb)) in
  let version := la_game_version (kb_language kb) in
  if maximum <? Z.of_nat generated_lines then
    Err (error "official-program-line-limit"
      ("Built program has " +:+ show (Z.of_nat generated_lines) +:+ " lines; official generated data for " +:+ version
       +:+ " limits programs to " +:+ show maximum +:+ ".")
      ((λ line, Z.of_nat line + 1) <$> source_lines !! Z.to_nat maximum))
  else
    let source_line_count := line_count source in
    Ok {| bu_code := code;
          bu_source_map := imap (λ generated source, {| sm_generated_line := generated + 1; sm_source_line := source + 1 |})
                             (take generated_lines source_lines);
          bu_metadata := {| bm_source_sha256 := sha256_hex source; bm_tool_version := TOOL_VERSION;
                            bm_game_data_version := version; bm_options := options |};
          bu_report := {| br_source_lines := source_line_count; br_generated_lines := generated_lines;
                          br_source_bytes := String.length source; br_generated_bytes := String.length code;
                          br_saved_lines := Z.of_nat source_line_count - Z.of_nat generated_lines;
                          br_saved_bytes := slen source - slen code;
                          br_adjusted_relative_branches := ct_relative counts;
                          br_adjusted_absolute_branches := ct_absolute counts;
                          br_substituted_defines := ct_defines counts; br_replaced_labels := ct_labels counts;
                          br_shortened_aliases := ct_aliases counts;
                          br_limits := official_limits version maximum |} |}.

(** Source: [crates/ic10-build/src/lib.rs] [finish_exact] *)
Definition finish_exact (source : string) (options : BuildOptions) (kb : KnowledgeBase) : outcome BuildError BuildOutput :=
  finish source (strip_leading_indentation source) (seq 0 (length (source_lines source))) options kb
    {| ct_relative := 0; ct_absolute := 0; ct_defines := 0; ct_labels := 0; ct_aliases := 0 |}.

(** Source: [crates/ic10-build/src/lib.rs] [build] lines 174-187 *)
Definition validation (document : Document) : list BuildDiagnostic :=
  omap (λ d,
    if bool_decide (di_severity d = SevError) && negb (String.eqb (di_code d) "program-line-limit") then
      Some {| bd_code := di_code d; bd_message := di_message d;
              bd_source_line := (λ line, pl_number line + 1) <$> line_at_offset document (start (di_span d)) |}
    else None) (do_diagnostics document).

(** The text of the lines.
    Source: [crates/ic10-build/src/lib.rs] [build] lines 432-443 *)
Definition output_text (output : list OutputLine) : string :=
  match output with [] => "" | _ => join NEWLINE (ol_text <$> output) +:+ NEWLINE end.

(** The lines after the compact reductions, if any. *)
Definition reduce (document : Document) (raw_lines : list string) (level : OptimizationLevel) :
    outcome BuildError Reduction :=
  match level with
  | OptCompact => compact document raw_lines
  | _ => Ok {| rd_output := kept_lines document raw_lines; rd_replaced := ∅; rd_substituted_defines := 0;
               rd_replaced_labels := 0; rd_shortened_aliases := 0 |}
  end.

Definition count_adjusted (adjustment : Adjustment) (l : list (OutputLine * Adjustment)) : nat :=
  length (filter (λ p, p.2 = adjustment) l).

(** Source: [crates/ic10-build/src/lib.rs] [build] lines 351-430 *)
Definition adjust_branches (document : Document) (raw_lines : list string) (reduction : Reduction) :
    outcome BuildError (list (OutputLine * Adjustment)) :=
  let output := rd_output reduction in
  line_map ← generated_line_map (length raw_lines) output;
  let topology_changed := negb (length output =? length raw_lines)%nat in
  map_outcome (λ '(generated_index, line),
      adjust_branch document (length raw_lines) (rd_replaced reduction) line_map topology_changed generated_index line)
    (enumerate output).

(** Source: [crates/ic10-build/src/lib.rs] [build] *)
Definition build (source : string) (options : BuildOptions) (kb : KnowledgeBase) : outcome BuildError BuildOutput :=
  let version := la_game_version (kb_language kb) in
  match filter_option (λ requested, negb (String.eqb requested version)) (bo_game_version options) with
  | Some requested =>
      Err (error "game-version-mismatch"
        ("Selected Stationeers version " +:+ requested +:+ " does not match official generated data " +:+ version +:+ ".") None)
  | None =>
      let document := parse source kb in
      match validation document with
      | [] =>
          if bool_decide (bo_optimization options = OptNone) then finish_exact source options kb
          else
            let raw_lines := source_lines source in
            reduction ← reduce document raw_lines (bo_optimization options);
            adjusted ← adjust_branches document raw_lines reduction;
            finish source (output_text adjusted.*1) (ol_source_line <$> adjusted.*1) options kb
              {| ct_relative := count_adjusted AdjustedRelative adjusted;
                 ct_absolute := count_adjusted AdjustedAbsolute adjusted;
                 ct_defines := rd_substituted_defines reduction; ct_labels := rd_replaced_labels reduction;
                 ct_aliases := rd_shortened_aliases reduction |}
      | diagnostics => Err {| be_diagnostics := diagnostics |}
      end
  end.
End build.

(** ** Concrete builds *)

Definition build_kb : KnowledgeBase := kb_of 128 128 generated_instructions [] [("LogicType", [("Pressure", 5); ("On", 28)])] [].

#[local] Instance release_build : Build := {| overflow_checks := false |}.

Definition options_at (level : OptimizationLevel) : BuildOptions :=
  {| bo_optimization := level; bo_game_version := None; bo_source_path := None; bo_environment := None |}.

(** The code and the source lines of a build, or the code and the line of its first error. *)
Definition built (level : OptimizationLevel) (lines : list string) : list string * list nat + option (string * option Z) :=
  match build (λ _, "") (lines_of lines) (options_at level) build_kb with
  | Ok b => inl (split_terminator (byte 10) (bu_code b), sm_source_line <$> bu_source_map b)
  | Err e => inr ((λ d, (bd_code d, bd_source_line d)) <$> head (be_diagnostics e))
  | Panic => inr None
  end.

Example readable_golden :
  built OptReadable ["# heading"; "start:"; "  move r0 1 # inline"; "    brne r0 0 3"; "# skipped"; "  move r1 2"; "yield"; ""]
  = inl (["start:"; "move r0 1"; "brne r0 0 2"; "move r1 2"; "yield"], [2; 3; 4; 6; 7]%nat).
Proof. vm_compute. reflexivity. Qed.

Example compact_golden :
  built OptCompact ["define Limit 10"; "alias _sensor d0"; "start:"; "move r0 Limit"; "l r1 _sensor Pressure"; "j start"; ""]
  = inl (["alias a0 d0"; "move r0 10"; "l r1 a0 Pressure"; "j 1"], [2; 4; 5; 6]%nat).
Proof. vm_compute. reflexivity. Qed.

Example refuses_dynamic_offsets :
  built OptReadable ["alias offset r0"; "# removed"; "jr offset"; ""] = inr (Some ("unsafe-relative-branch", Some 3)).
Proof. vm_compute. reflexivity. Qed.
