(* ===== verification/DeployFacts.v ===== *)
(** * What a deployment build keeps

    The line map of a build, the targets of its branches, and the program that the
    code of a readable build compiles to. *)

From S2P Require Import Prelude BTree Text F64 Knowledge Literals Syntax Analysis Program Compile Reparse.
From S2P Require Import Formatting Deploy.
From Stdlib Require Import Sorting.Sorted.
Local Open Scope string_scope.
Local Open Scope Z_scope.

(** ** The lines of a source *)

Lemma strip_newline_cons a l :
  byte_of a ≠ 10 →
  default (String a l) (strip_suffix NEWLINE (String a l)) = String a (default l (strip_suffix NEWLINE l)).
Proof.
  intros Ha. rewrite strip_suffix_unfold. destruct (String.eqb_spec (String a l) NEWLINE) as [E|_].
  - injection E as -> _. done.
  - by destruct (strip_suffix NEWLINE l).
Qed.

Lemma byte_newline a : byte_of a = 10 → a = byte 10.
Proof. intros Ha. pose proof (of_bytes_bytes (String a "")) as H. simpl in H. rewrite Ha in H. by injection H as <-. Qed.

Lemma ends_newline_cons a s : s ≠ "" → ends_with NEWLINE (String a s) = ends_with NEWLINE s.
Proof. apply (ends_with_tail (byte 10) (String a "") s). Qed.

Lemma split_char_pieces s :
  split_char (byte 10) s
  = (((λ l, default l (strip_suffix NEWLINE l)) <$> split_inclusive_nl s)
     ++ (if String.eqb s "" || ends_with NEWLINE s then [""] else []))%list.
Proof.
  induction s as [|a s IH]; [done|]. cbn [split_char split_inclusive_nl String.eqb orb].
  destruct (Z.eqb_spec (byte_of a) 10) as [Ha|Ha].
  - apply byte_newline in Ha as ->. rewrite Ascii.eqb_refl, IH. csimpl.
    assert (ends_with NEWLINE (String (byte 10) s) = String.eqb s "" || ends_with NEWLINE s) as ->; [|done].
    destruct s as [|b s]; [done|]. by rewrite ends_newline_cons.
  - assert (Ascii.eqb a (byte 10) = false) as -> by (apply Ascii.eqb_neq; by intros ->).
    rewrite IH. destruct s as [|b s].
    + assert (strip_suffix NEWLINE (String a "") = None) as Hs.
      { rewrite strip_suffix_unfold. destruct (String.eqb_spec (String a "") NEWLINE) as [E|_]; [|done]. by injection E as ->. }
      unfold ends_with. rewrite Hs. cbn [split_inclusive_nl fmap list_fmap app]. by rewrite Hs.
    + rewrite (ends_newline_cons a (String b s)) by done. cbn [String.eqb orb].
      destruct (split_inclusive_nl (String b s)) as [|l ls] eqn:E.
      { exfalso. cbn [split_inclusive_nl] in E. destruct (byte_of b =? 10); [done|]. by destruct (split_inclusive_nl s). }
      csimpl. by rewrite strip_newline_cons.
Qed.

Lemma split_inclusive_last_piece s p :
  last (split_inclusive_nl s) = Some p → p ≠ "" ∧ ends_with NEWLINE s = ends_with NEWLINE p.
Proof.
  intros (l & Hl)%last_Some. assert (p ≠ "") as Hp.
  { pose proof (split_inclusive_nonempty s) as H. rewrite Hl in H. apply Forall_app in H as [_ H].
    apply Forall_cons in H as [H _]. intros ->. simpl in H. lia. }
  split; [done|]. rewrite <-(split_inclusive_concat s), Hl, concat_strings_app. cbn [concat_strings foldr].
  rewrite string_app_nil_r. by apply (ends_with_tail (byte 10)).
Qed.

(** The raw lines of the build are the lines the parser reads. *)
Lemma source_lines_texts source : source_lines source = line_text <$> split_inclusive_nl source.
Proof.
  unfold source_lines. destruct (String.eqb_spec source "") as [->|Hne]; [done|].
  unfold line_text. rewrite (list_fmap_compose (λ l, default l (strip_suffix NEWLINE l))
    (λ l, default l (strip_suffix RETURN l))). f_equal.
  unfold split_terminator. cbv zeta. rewrite split_char_pieces, (proj2 (String.eqb_neq _ _)) by done. cbn [orb].
  destruct (ends_with NEWLINE source) eqn:Hends.
  - by rewrite last_snoc, bool_decide_eq_true_2, removelast_last.
  - rewrite app_nil_r. rewrite bool_decide_eq_false_2; [done|]. rewrite fmap_last.
    destruct (last (split_inclusive_nl source)) as [p|] eqn:Hp; [|done].
    apply split_inclusive_last_piece in Hp as [Hne' Heq]. rewrite Hends in Heq. symmetry in Heq.
    change (Some (default p (strip_suffix NEWLINE p)) ≠ Some ""). rewrite (ends_with_false _ _ Heq). by intros [= ?].
Qed.

Lemma line_texts_source source :
  line_texts source
  = (source_lines source ++ (if String.eqb source "" || ends_with NEWLINE source then [""] else []))%list.
Proof. unfold line_texts, pieces. rewrite fmap_app, <-source_lines_texts. by case_match. Qed.

Lemma parse_lines_from_lookup source ps : ∀ pre number i line,
  source = pre +:+ concat_strings ps →
  parse_lines_from number (String.length pre) ps !! i = Some line →
  ∃ pre' l post, source = pre' +:+ (l +:+ post) ∧ ps !! i = Some l
    ∧ line = parse_line (number + Z.of_nat i) (String.length pre') l.
Proof.
  induction ps as [|p ps IH]; intros pre number i line Hs Hi; [done|]. destruct i as [|i].
  - injection Hi as <-. exists pre, p, (concat_strings ps). by rewrite Z.add_0_r.
  - cbn in Hi. rewrite <-slength_app in Hi. destruct (IH (pre +:+ p) (number + 1) i line) as (pre' & l & post & ? & ? & ->); [|done|].
    { rewrite Hs. symmetry. apply string_app_assoc. }
    exists pre', l, post. split_and!; [done..|]. f_equal. lia.
Qed.

Lemma parse_lines_lookup source i line :
  parse_lines source !! i = Some line →
  ∃ pre l post, source = pre +:+ (l +:+ post) ∧ line_texts source !! i = Some (line_text l)
    ∧ line = parse_line (Z.of_nat i) (String.length pre) l.
Proof.
  rewrite parse_lines_pieces. intros Hi.
  destruct (parse_lines_from_lookup source (pieces source) "" 0 i line) as (pre & l & post & ? & Hl & ->);
    [by rewrite pieces_concat|done|].
  exists pre, l, post. unfold line_texts. by rewrite list_lookup_fmap, Hl.
Qed.

Lemma parse_lines_length source : length (parse_lines source) = length (line_texts source).
Proof. unfold line_texts. by rewrite parse_lines_pieces, parse_lines_from_length, length_fmap. Qed.

(** ** The kept lines *)

Definition code_of (t : string) : list string := (cut Outside (chars t)).1.

(** A line of a source: its tokens, and its code without blanks around it. *)
Definition line_words (t : string) : list string := words Outside None (code_of t).

Definition mnemonic_of (kind : KindText) : option string :=
  match kind with KindInstruction mnemonic _ => Some (to_ascii_lowercase mnemonic) | _ => None end.

Definition operands_of (kind : KindText) : list string :=
  match kind with KindInstruction _ operands => operands | _ => [] end.

(** What is kept of the line [t]. *)
Definition kept_text (index : nat) (t : string) : option OutputLine :=
  match line_words t with
  | [] => None
  | ws =>
      Some {| ol_source_line := index; ol_text := trim (concat_strings (code_of t));
              ol_mnemonic := mnemonic_of (classify_words ws); ol_operands := operands_of (classify_words ws) |}
  end.

Definition good_line (t : string) : Prop := str_ok t ∧ no_newline t ∧ closed_line t.

Lemma good_line_reads t : good_line t → text_reads (concat_strings (code_of t)) (line_words t).
Proof.
  intros (Hok & Hn & Hc). unfold line_words, code_of. destruct (cut Outside (chars t)) as [code comment] eqn:Hcut.
  destruct (closed_line_reads _ _ _ Hok Hn Hc Hcut) as (Hcode & _ & _). by exists code.
Qed.

Lemma trim_reads_empty t ws : text_reads t ws → trim t = "" ↔ ws = [].
Proof.
  intros Ht. split.
  - intros E. apply text_reads_trim in Ht as [Ht _]. rewrite E in Ht. by apply text_reads_empty.
  - intros ->. apply trim_end_blank. by apply text_reads_trim_start.
Qed.

Lemma get_to_prefix s t : t = "" ∨ str_ok t → get_to (String.length s) (s +:+ t) = Some s.
Proof.
  intros Ht. unfold get_to, is_char_boundary. rewrite slice_head.
  destruct t as [|a t].
  - rewrite string_app_nil_r. by rewrite Nat.eqb_refl, orb_true_r.
  - destruct Ht as [|Ha]; [done|]. assert (String.get (String.length s) (s +:+ String a t) = Some a) as ->.
    { induction s as [|b s IH]; [done|]. simpl. apply IH. }
    simpl in Ha. rewrite Ha. by rewrite orb_true_r.
Qed.

Lemma kept_line_text pre l number index :
  good_line (line_text l) →
  kept_line index (line_text l) (parse_line number (String.length pre) l) = kept_text index (line_text l).
Proof.
  intros Hgood. pose proof (good_line_reads _ Hgood) as Hreads. destruct Hgood as (Hok & Hn & Hc).
  pose proof (parse_line_view pre l "" number Hok) as Hview. unfold line_view, read_line, read_code in Hview.
  fold (code_of (line_text l)) in Hview.
  unfold kept_line, kept_code, kept_text. set (t := line_text l) in *.
  assert (match pl_comment_span (parse_line number (String.length pre) l) with
          | Some sp => default t (get_to (start sp - start (pl_span (parse_line number (String.length pre) l))) t)
          | None => t
          end = concat_strings (code_of t)) as ->.
  { unfold parse_line, code_of. fold t. rewrite comment_start_cut.
    destruct (cut Outside (chars t)) as [code comment] eqn:Hcut.
    destruct (cut_chars _ _ _ Hok Hcut) as (Ht & _ & Hk & _). cbn [fst snd pl_comment_span pl_span start].
    destruct comment as [|c ks]; [by rewrite Ht; cbn; rewrite string_app_nil_r|]. cbn [fmap option_fmap option_map start].
    replace (_ + _ - _)%nat with (String.length (concat_strings code)) by lia.
    rewrite Ht at 2. rewrite get_to_prefix; [done|]. right. by apply str_ok_chars. }
  assert (trim (trim (concat_strings (code_of t))) = "" ↔ line_words t = []) as Hempty
    by (by apply trim_reads_empty, text_reads_trim).
  unfold line_words in *. destruct (cut Outside (chars t)) as [code comment] eqn:Hcut.
  unfold code_of in *. rewrite Hcut in *. cbn [fst] in *. apply (f_equal fst) in Hview as Hkind. cbn [fst] in Hkind.
  destruct (words Outside None code) as [|w ws] eqn:Hw.
  - by rewrite (proj2 (String.eqb_eq _ _)) by (by apply Hempty).
  - rewrite (proj2 (String.eqb_neq _ _)) by (by intros ?%Hempty).
    destruct (pl_kind _); cbn [kind_text] in Hkind; rewrite <-Hkind; done.
Qed.

Definition good_source (source : string) : Prop := lines_ok source ∧ quotes_closed source.

Lemma good_source_lines source : good_source source → Forall good_line (line_texts source).
Proof.
  intros [H1 H2]. apply Forall_and. split; [done|]. apply Forall_and. split; [apply line_texts_no_newline|done].
Qed.

Lemma omap_Forall2 {A B C} (f : A → option C) (g : B → option C) l k :
  Forall2 (λ a b, f a = g b) l k → omap f l = omap g k.
Proof. induction 1 as [|a b l k Hab _ IH]; [done|]. csimpl. by rewrite Hab, IH. Qed.

Lemma kept_lines_texts source kb :
  good_source source →
  kept_lines (parse source kb) (source_lines source)
  = omap (λ '(index, t), kept_text index t) (enumerate (source_lines source)).
Proof.
  intros Hgood. pose proof (good_source_lines _ Hgood) as Hlines. unfold kept_lines, numbered_lines.
  unfold parse. rewrite parse_do_lines.
  assert (length (zip (source_lines source) (parse_lines source)) = length (source_lines source)) as Hlen.
  { rewrite length_zip, parse_lines_length, line_texts_source, length_app. lia. }
  apply omap_Forall2, Forall2_same_length_lookup. split; [by rewrite !enumerate_length|].
  intros i [j [raw line]] [j' t]. rewrite !lookup_enumerate.
  intros Hx Hy. apply fmap_Some in Hx as (p & Hx & Hp), Hy as (t' & Hy & Ht').
  apply lookup_zip_with_Some in Hx as (raw' & line' & -> & Hr & Hl). simplify_eq. apply parse_lines_lookup in Hl as (pre & l & post & _ & Ht & ->).
  rewrite line_texts_source, (lookup_app_l_Some _ _ _ _ Hr) in Ht. injection Ht as ->.
  apply kept_line_text. rewrite Forall_lookup in Hlines. apply (Hlines i). rewrite line_texts_source.
  by apply lookup_app_l_Some.
Qed.

(** ** Positions of the kept lines *)

Section kept.
Context {A : Type} (f : nat → A → option OutputLine).
Hypothesis f_line : ∀ i a o, f i a = Some o → ol_source_line o = i.
Set Default Proof Using "Type*".

Let keep (l : list (nat * A)) : list OutputLine := omap (λ '(i, a), f i a) l.

Lemma keep_from k l :
  StronglySorted lt (ol_source_line <$> keep (zip (seq k (length l)) l))
  ∧ Forall (λ s, k ≤ s < k + length l)%nat (ol_source_line <$> keep (zip (seq k (length l)) l)).
Proof.
  revert k. induction l as [|a l IH]; intros k; [by split; constructor|]. destruct (IH (S k)) as [H1 H2]. unfold keep in *. csimpl.
  destruct (f k a) as [o|] eqn:Ho; csimpl.
  - rewrite (f_line _ _ _ Ho). split; (constructor; [|]); try done; [|lia|];
      (eapply Forall_impl; [exact H2|]; simpl; lia).
  - split; [done|]. eapply Forall_impl; [exact H2|]. simpl. lia.
Qed.

Lemma keep_sorted l : StronglySorted lt (ol_source_line <$> keep (enumerate l)).
Proof. apply keep_from. Qed.

Lemma keep_bounds l : Forall (λ s, s < length l)%nat (ol_source_line <$> keep (enumerate l)).
Proof. destruct (keep_from 0 l) as [_ H]. eapply Forall_impl; [exact H|]. simpl. lia. Qed.

Lemma keep_elem l o : o ∈ keep (enumerate l) ↔ ∃ a, l !! ol_source_line o = Some a ∧ f (ol_source_line o) a = Some o.
Proof.
  unfold keep. rewrite list_elem_of_omap. split.
  - intros ([i a] & (j & Hj)%list_elem_of_lookup & Ho). rewrite lookup_enumerate in Hj.
    apply fmap_Some in Hj as (a' & Hj & [= -> ->]). rewrite (f_line _ _ _ Ho). by exists a'.
  - intros (a & Ha & Ho). exists (ol_source_line o, a). split; [|done].
    apply (list_elem_of_lookup_2 _ (ol_source_line o)). by rewrite lookup_enumerate, Ha.
Qed.
End kept.

Lemma kept_text_line i t o : kept_text i t = Some o → ol_source_line o = i.
Proof. unfold kept_text. case_match; [done|]. by intros [= <-]. Qed.

(** The number of kept lines before a line of the source. *)
Definition count_before (srcs : list nat) (target : nat) : nat := length (filter (λ s, s < target)%nat srcs).

Lemma count_before_spec srcs target g s :
  StronglySorted lt srcs → srcs !! g = Some s → (g < count_before srcs target ↔ s < target)%nat.
Proof.
  intros H. revert g. induction H as [|s' srcs Hsort IH Hall]; intros g Hg; [done|]. unfold count_before in *.
  rewrite filter_cons. case_decide as Hlt.
  - destruct g as [|g]; simpl in *; [injection Hg as ->; lia|]. rewrite <-IH by done. lia.
  - assert (filter (λ s, s < target)%nat srcs = []) as Hnil.
    { apply filter_none. eapply Forall_impl; [exact Hall|]. simpl. lia. }
    rewrite Hnil. simpl. destruct g as [|g]; simpl in Hg; [injection Hg as ->; lia|].
    rewrite Forall_lookup in Hall. specialize (Hall _ _ Hg). lia.
Qed.

Lemma count_before_le srcs target : (count_before srcs target ≤ length srcs)%nat.
Proof. apply length_filter. Qed.

(** Falling through a kept line leads to the next one. *)
Lemma count_before_next srcs g s :
  StronglySorted lt srcs → srcs !! g = Some s → count_before srcs s = g ∧ count_before srcs (S s) = S g.
Proof.
  intros Hs Hg. assert (∀ t, (∀ g' s', srcs !! g' = Some s' → s' < t ↔ s' ≤ s)%nat → count_before srcs t = S g) as H.
  { intros t Ht. pose proof (count_before_le srcs t) as Hle.
    assert (g < count_before srcs t)%nat by (rewrite (count_before_spec _ _ _ _ Hs Hg), (Ht _ _ Hg); lia).
    destruct (decide (count_before srcs t = S g)) as [|Hne]; [done|]. exfalso.
    destruct (lookup_lt_is_Some_2 srcs (S g)) as [s' Hs']; [lia|].
    assert (s < s')%nat as Hlt.
    { clear -Hs Hg Hs'. revert g Hg Hs'. induction Hs as [|x l _ IH Hall]; intros g Hg Hs'; [done|].
      destruct g as [|g]; simpl in *; [|by eapply IH]. injection Hg as ->. rewrite Forall_lookup in Hall. by eapply Hall. }
    assert (S g < count_before srcs t)%nat as Hc by lia.
    rewrite (count_before_spec _ _ _ _ Hs Hs'), (Ht _ _ Hs') in Hc. lia. }
  split; [|apply H; lia].
  pose proof (count_before_le srcs s) as Hle. pose proof (count_before_spec srcs s g s Hs Hg).
  destruct (decide (count_before srcs s = g)) as [|Hne]; [done|]. exfalso.
  destruct (lookup_lt_is_Some_2 srcs (count_before srcs s)) as [s' Hs']; [apply lookup_lt_Some in Hg; lia|].
  assert (s' < s)%nat.
  { assert (count_before srcs s < g)%nat by lia. clear -Hs Hg Hs' H1.
    revert H1 Hs' Hg. generalize (count_before srcs s). intros c Hc Hs' Hg.
    revert g c Hc Hg Hs'. induction Hs as [|x l _ IH Hall]; intros g c Hc Hg Hs'; [done|].
    destruct c as [|c], g as [|g]; simpl in *; try lia; [|by eapply (IH g c); [lia|..]].
    injection Hs' as ->. rewrite Forall_lookup in Hall. by eapply Hall. }
  rewrite <-(count_before_spec srcs s _ s' Hs Hs') in H1. lia.
Qed.

(** ** The line map *)

Definition sources (output : list OutputLine) : list nat := ol_source_line <$> output.

Lemma line_map_from {E} output : ∀ k acc,
  Forall (λ s, s < length acc)%nat (sources output) → StronglySorted lt (sources output) →
  ∃ m, fold_outcome (λ result '(generated, line),
         if (ol_source_line line <? length result)%nat
         then Ok (<[ol_source_line line := Some generated]> result) else Panic)
         acc (zip (seq k (length output)) output) = @Ok E _ m
  ∧ length m = length acc
  ∧ (∀ s, s ∉ sources output → m !! s = acc !! s)
  ∧ (∀ g s, sources output !! g = Some s → m !! s = Some (Some (k + g)%nat)).
Proof.
  induction output as [|o output IH]; intros k acc Hlt Hs; [by exists acc|].
  apply Forall_cons in Hlt as [Ho Hlt]. apply StronglySorted_inv in Hs as [Hs Hall]. csimpl.
  rewrite (proj2 (Nat.ltb_lt _ _) Ho). csimpl.
  destruct (IH (S k) (<[ol_source_line o := Some k]> acc)) as (m & Hm & Hlen & Hout & Hin);
    [by rewrite length_insert|done|].
  exists m. rewrite length_insert in Hlen. split_and!; [done..| |].
  - intros s [Hne Hnin]%not_elem_of_cons. rewrite Hout by done. by rewrite list_lookup_insert_ne.
  - intros [|g] s; csimpl.
    + intros [= <-]. rewrite Hout; [|].
      * rewrite list_lookup_insert_eq by done. by rewrite Nat.add_0_r.
      * intros Hin'. rewrite Forall_forall in Hall. specialize (Hall _ Hin'). lia.
    + intros Hg. rewrite (Hin _ _ Hg). f_equal. f_equal. lia.
Qed.

Lemma find_map_first {A B} (f : A → option B) l j a b :
  l !! j = Some a → f a = Some b → (∀ i a', (i < j)%nat → l !! i = Some a' → f a' = None) → find_map f l = Some b.
Proof.
  revert j. induction l as [|x l IH]; intros j Hj Hb Hbefore; [done|]. simpl. destruct j as [|j].
  - injection Hj as ->. by rewrite Hb.
  - rewrite (Hbefore 0%nat x) by (done || lia). eapply (IH j); [done..|].
    intros i a' Hi Ha'. apply (Hbefore (S i)); [lia|done].
Qed.

Lemma generated_line_map_spec {E} n output :
  StronglySorted lt (sources output) → Forall (λ s, s < n)%nat (sources output) →
  ∃ m, generated_line_map n output = @Ok E _ m ∧ length m = n
  ∧ ∀ target, (target ≤ n)%nat →
      translate_target target m
      = if (count_before (sources output) target <? length output)%nat
        then Some (count_before (sources output) target) else None.
Proof.
  intros Hs Hlt. destruct (@line_map_from E output 0 (replicate n None)) as (m & Hm & Hlen & Hout & Hin);
    [by rewrite length_replicate|done|].
  rewrite length_replicate in Hlen. exists m. split_and!; [done..|]. intros target Htarget.
  unfold translate_target. rewrite (proj2 (Nat.leb_le _ _)) by lia. set (srcs := sources output) in *.
  assert (length srcs = length output) as Hlsrcs by (unfold srcs, sources; by rewrite length_fmap).
  pose proof (count_before_le srcs target) as Hle. destruct (Nat.ltb_spec (count_before srcs target) (length output)) as [Hc|Hc].
  - destruct (lookup_lt_is_Some_2 srcs (count_before srcs target)) as [s Hg]; [lia|].
    assert (target ≤ s)%nat as Hts by (pose proof (count_before_spec srcs target _ s Hs Hg); lia).
    apply (find_map_first _ _ (s - target) (Some (count_before srcs target))); [|done|].
    + rewrite lookup_drop. replace (target + (s - target))%nat with s by lia. apply (Hin _ _ Hg).
    + intros i a' Hi. rewrite lookup_drop. intros Ha'.
      destruct (decide ((target + i)%nat ∈ srcs)) as [(g' & Hg')%list_elem_of_lookup|Hnin].
      * exfalso. pose proof (count_before_spec srcs s _ _ Hs Hg') as H1. pose proof (count_before_spec srcs target _ _ Hs Hg') as H2.
        destruct (count_before_next srcs _ _ Hs Hg) as [H3 _]. lia.
      * rewrite Hout in Ha' by done. apply lookup_replicate in Ha' as [-> _]. done.
  - apply find_map_None. intros a Ha. apply list_elem_of_lookup in Ha as (i & Ha). rewrite lookup_drop in Ha.
    destruct (decide ((target + i)%nat ∈ srcs)) as [(g' & Hg')%list_elem_of_lookup|Hnin].
    + exfalso. pose proof (count_before_spec srcs target _ _ Hs Hg') as H. apply lookup_lt_Some in Hg'. lia.
    + rewrite Hout in Ha by done. apply lookup_replicate in Ha as [-> _]. done.
Qed.

(** ** Writing another last token *)

Lemma last_separator s cs :
  never separates s cs
  ∨ ∃ cs1 c cs2, cs = (cs1 ++ c :: cs2)%list ∧ scan s cs1 = Outside ∧ is_whitespace c = true ∧ never separates Outside cs2.
Proof.
  revert s. induction cs as [|c cs IH]; intros s; [by left|]. destruct (IH (scan_char s c)) as [Hn|(cs1 & d & cs2 & -> & ? & ? & ?)].
  - destruct (separates s c) eqn:Hc; [|by left]. apply andb_prop in Hc as [Hb ->%bool_decide_eq_true].
    right. exists [], c, cs. rewrite scan_blank in Hn by done. done.
  - right. by exists (c :: cs1), d, cs2.
Qed.

(** Code that ends in a token. *)
Definition ends_in_token (cs : list string) : Prop :=
  match last cs with Some c => is_whitespace c = false | None => True end.

Lemma last_word_split cs ws w :
  code_reads cs (ws ++ [w]) → ends_in_token cs →
  ∃ pre wcs, cs = (pre ++ wcs)%list ∧ w = concat_strings wcs ∧ wcs ≠ [] ∧ code_reads pre ws
    ∧ (pre = [] ∨ ∃ pre' b, pre = (pre' ++ [b])%list ∧ is_whitespace b = true).
Proof.
  intros (Hok & Hw & Hnc & Hs) Hend. destruct (last_separator Outside cs) as [Hn|(cs1 & c & cs2 & -> & Hs1 & Hc & Hn)].
  - rewrite words_never in Hw by done. destruct cs as [|c cs]; [by destruct ws|].
    assert (ws = [] ∧ w = concat_strings (c :: cs)) as [-> ->].
    { destruct ws as [|x ws]; [by injection Hw|]. apply (f_equal length) in Hw. rewrite length_app in Hw. simpl in Hw. lia. }
    exists [], (c :: cs). split_and!; [done..|apply code_reads_nil|by left].
  - assert (cs2 ≠ []) as Hne.
    { intros ->. unfold ends_in_token in Hend. rewrite last_snoc in Hend. congruence. }
    rewrite words_separated, (words_never Outside None cs2) in Hw by done. destruct cs2 as [|d cs2]; [done|].
    apply app_inj_tail in Hw as [Hws Hw]. rewrite Forall_app, Forall_cons in Hok. destruct Hok as (Hok1 & Hokc & _).
    apply never_app in Hnc as [Hnc _].
    exists (cs1 ++ [c])%list, (d :: cs2). rewrite <-app_assoc. split_and!; [done|by rewrite <-Hw|done| |right; by eexists _, _].
    apply code_reads_append; [by constructor|]. by split_and!.
Qed.

Lemma text_reads_trim_token t ws :
  text_reads t ws → ∃ cs, trim t = concat_strings cs ∧ code_reads cs ws ∧ ends_in_token cs.
Proof.
  intros Ht%text_reads_trim_start. unfold trim. destruct Ht as (cs & -> & Hcs). unfold trim_end. destruct (Hcs) as [Hok _].
  rewrite chars_concat by (by apply line_chars_ok). destruct (drop_ws_spec (rev cs)) as (bs & Heq & Hbs & Hlast).
  apply (f_equal (@rev string)) in Heq. rewrite rev_involutive, rev_app_distr in Heq.
  exists (rev (drop_ws (rev cs))). split_and!; [done| |].
  - apply (code_reads_trim_end _ (rev bs)); [|by rewrite <-Heq]. apply (blanks_of cs); [done| |by apply Forall_rev].
    intros c Hc. rewrite Heq. apply elem_of_app. by right.
  - unfold ends_in_token. destruct (drop_ws (rev cs)) as [|c l]; [done|]. cbn [rev]. by rewrite last_snoc.
Qed.

Lemma trim_end_token cs : Forall char_ok cs → ends_in_token cs → trim_end (concat_strings cs) = concat_strings cs.
Proof.
  intros Hok Hend. unfold trim_end. rewrite chars_concat by done. f_equal. rewrite <-(rev_involutive cs) at 2. f_equal.
  destruct (rev cs) as [|c l] eqn:E; [done|]. apply (f_equal (@rev string)) in E. rewrite rev_involutive in E. subst cs.
  unfold ends_in_token in Hend. cbn [rev] in Hend. rewrite last_snoc in Hend. cbn [drop_ws]. by rewrite Hend.
Qed.

Lemma rfind_bound p s n : rfind p s = Some n → (n + String.length p ≤ String.length s)%nat.
Proof.
  revert n. induction s as [|a s IH]; intros n; cbn [rfind].
  - destruct (String.eqb_spec p "") as [->|]; [|done]. by intros [= <-].
  - destruct (rfind p s) as [m|].
    + intros [= <-]. specialize (IH m eq_refl). simpl. lia.
    + destruct (starts_with p (String a s)) eqn:E; [|done]. intros [= <-]. unfold starts_with in E.
      destruct (strip_prefix p (String a s)) as [r|] eqn:Hr; [|done]. apply strip_prefix_Some in Hr. rewrite Hr, slength_app. lia.
Qed.

Lemma rfind_suffix p s : p ≠ "" → rfind p (s +:+ p) = Some (String.length s).
Proof.
  intros Hp. induction s as [|a s IH].
  - change ("" +:+ p) with p. destruct p as [|a p]; [done|]. cbn [rfind].
    destruct (rfind (String a p) p) as [n|] eqn:E; [apply rfind_bound in E; simpl in E; lia|].
    pose proof (starts_with_app (String a p) "") as H. rewrite string_app_nil_r in H. by rewrite H.
  - cbn [String.append rfind]. by rewrite IH.
Qed.

Lemma replace_last_token_suffix s old new :
  old ≠ "" → trim_end (s +:+ old) = s +:+ old → replace_last_token (s +:+ old) old new = Ok (s +:+ new).
Proof.
  intros Hold Htrim. unfold replace_last_token. rewrite Htrim, slice_all, rfind_suffix by done. cbv zeta. change (default _ (Some (String.length s))) with (String.length s).
  unfold slice_from, is_char_boundary. rewrite <-slength_app, Nat.leb_refl, Nat.eqb_refl, orb_true_r. cbn [orb andb].
  rewrite slice_empty, slice_head. cbn. by rewrite string_app_nil_r.
Qed.

(** The text of a line with another last token. *)
Lemma replace_last_reads cs ws w new :
  code_reads cs (ws ++ [w]) → ends_in_token cs → is_word new →
  ∃ cs', replace_last_token (concat_strings cs) w new = Ok (concat_strings cs')
    ∧ code_reads cs' (ws ++ [new]) ∧ ends_in_token cs'.
Proof.
  intros Hcs Hend (ncs & -> & Hne & Hnw & Hns). pose proof (line_chars_ok _ (proj1 Hcs)) as Hok.
  destruct (last_word_split _ _ _ Hcs Hend) as (pre & wcs & -> & -> & Hwne & Hpre & Hblank).
  exists (pre ++ ncs)%list. split_and!.
  - pose proof (trim_end_token _ Hok Hend) as Htrim. rewrite (concat_strings_app pre wcs) in *. rewrite (concat_strings_app pre ncs). apply replace_last_token_suffix; [|done].
    apply Forall_app in Hok as [_ Hok]. destruct Hok as [|c l Hc _]; [done|]. by destruct c.
  - destruct (code_reads_last ncs Hne Hnw Hns) as (N1 & N2 & N3 & N4), Hpre as (P1 & P2 & P3 & P4). split_and!.
    + by apply Forall_app.
    + destruct Hblank as [->|(pre' & b & -> & Hb)].
      * cbn in P2. subst ws. exact N2.
      * rewrite scan_app in P4. assert (scan Outside pre' = Outside) as Hs' by (by apply (scan_blanks_inv _ [b]); [constructor|]).
        rewrite words_separated in P2 by done. cbn [words] in P2. rewrite app_nil_r in P2.
        rewrite <-app_assoc. cbn [app]. by rewrite words_separated, P2, N2.
    + apply never_app. by rewrite P4.
    + by rewrite scan_app, P4.
  - unfold ends_in_token. destruct Hnw as (_ & Hsep & _). destruct (exists_last Hne) as (l & c & ->).
    rewrite app_assoc, last_snoc. apply never_app in Hsep as [_ [Hsep _]].
    rewrite scan_app in Hns. destruct (is_whitespace c) eqn:Hc; [|done].
    apply (scan_blanks_inv _ [c]) in Hns; [|by constructor]. rewrite Hns in Hsep. unfold separates in Hsep. by rewrite Hc in Hsep.
Qed.

(** ** Numbers written as targets *)

Definition digit_char (c : string) : bool :=
  existsb (String.eqb c) ["-"; "0"; "1"; "2"; "3"; "4"; "5"; "6"; "7"; "8"; "9"].

Definition writes_number (z : Z) : bool :=
  negb (String.eqb (show z) "") && forallb digit_char (chars (show z))
  && bool_decide (to_i64 <$> whole_literal (show z) = Some z).

Definition TARGET_BOUND : Z := 1024.

Lemma written_numbers z : - TARGET_BOUND ≤ z ≤ TARGET_BOUND → writes_number z = true.
Proof.
  assert (forallb writes_number (seqZ (- TARGET_BOUND) (2 * TARGET_BOUND + 1)) = true) as H by (vm_compute; reflexivity).
  rewrite forallb_forall in H. intros Hz. apply H, list_elem_of_In, elem_of_seqZ. unfold TARGET_BOUND in *. lia.
Qed.

Lemma digit_chars_word cs : cs ≠ [] → forallb digit_char cs = true → is_word (concat_strings cs).
Proof.
  intros Hne Hd. exists cs. split; [done|]. split; [done|].
  assert (Forall (λ c, digit_char c = true) cs) as H.
  { apply Forall_forall. intros c Hc. rewrite forallb_forall in Hd. by apply Hd, list_elem_of_In. }
  clear Hd Hne.
  assert (∀ c, digit_char c = true → line_char c ∧ is_whitespace c = false ∧ c ≠ "#" ∧ c ≠ DQUOTE) as Hchar.
  { intros c Hc. unfold digit_char in Hc. apply existsb_exists in Hc as (d & Hd & ->%String.eqb_eq).
    simpl in Hd. repeat (destruct Hd as [<-|Hd]; [split_and!; by repeat constructor|]). done. }
  induction H as [|c cs Hc _ IH]; [by repeat constructor|]. apply Hchar in Hc as (Hl & Hb & Hh & Hq).
  destruct IH as ((H1 & H2 & H3) & H4).
  assert (scan_char Outside c = Outside) as Hscan by (simpl; by rewrite (proj2 (String.eqb_neq _ _))).
  split; [split_and!|].
  - by constructor.
  - cbn [never]. rewrite Hscan. split; [|done]. unfold separates. by rewrite Hb.
  - cbn [never]. rewrite Hscan. split; [|done]. unfold starts_comment. by rewrite (proj2 (String.eqb_neq _ _)).
  - cbn [scan foldl]. by rewrite Hscan.
Qed.

Lemma written_number_word z :
  - TARGET_BOUND ≤ z ≤ TARGET_BOUND → is_word (show z) ∧ to_i64 <$> whole_literal (show z) = Some z.
Proof.
  intros H%written_numbers. apply andb_prop in H as [[Hne Hd]%andb_prop Hv%bool_decide_eq_true]. split; [|done].
  rewrite <-(concat_chars (show z)). apply digit_chars_word; [|done]. intros E.
  rewrite <-(concat_chars (show z)), E in Hne. done.
Qed.

(** ** Branches with a literal target *)

Definition label_token (document : Document) (token : string) : bool :=
  match document_symbol document token with Some symbol => bool_decide (sy_kind symbol = SymLabel) | None => false end.

(** The conditions of the branches the simulator executes: [b], [br] or [b] and [al]
    around one of them. *)
Definition CONDITIONS : list string :=
  ["eq"; "eqz"; "ne"; "nez"; "ge"; "gez"; "gt"; "gtz"; "le"; "lez"; "lt"; "ltz"; "ap"; "apz"; "na"; "naz"; "dse"; "dns"].

(** The branches that go to the line of their last operand. *)
Definition ABSOLUTE_BRANCHES : list string :=
  ["j"; "jal"; "bnan"; "bdnvl"; "bdnvs"]
  ++ ((λ c, "b" +:+ c) <$> CONDITIONS) ++ ((λ c, "b" +:+ c +:+ "al") <$> CONDITIONS).

(** The branches that go as many lines further as their last operand says. *)
Definition RELATIVE_BRANCHES : list string := ["jr"; "brnan"] ++ ((λ c, "br" +:+ c) <$> CONDITIONS).

(** Whether a branch is relative; [None] is no branch. *)
Definition branch_form (mnemonic : string) : option bool :=
  if bool_decide (mnemonic ∈ RELATIVE_BRANCHES) then Some true
  else if bool_decide (mnemonic ∈ ABSOLUTE_BRANCHES) then Some false
  else None.

(** The absolute branches a build does not count as branches. *)
Definition OVERLOOKED_BRANCHES : list string := ["bdse"; "bdns"; "bdnvl"; "bdnvs"].

(** An instruction whose branch, if it is one, is of the tables, and goes to a label
    where it is of those a build overlooks. *)
Definition plain_branch (document : Document) (kind : KindText) : bool :=
  match kind with
  | KindInstruction mnemonic operands =>
      let mnemonic := to_ascii_lowercase mnemonic in
      (negb (starts_with "b" mnemonic) || bool_decide (branch_form mnemonic ≠ None))
      && (negb (bool_decide (mnemonic ∈ OVERLOOKED_BRANCHES))
          || match last operands with Some token => label_token document token | None => true end)
  | _ => true
  end.

(** The target a branch is given as a number, or by a name that is kept. *)
Definition branch_target_of (document : Document) (kind : KindText) : option (bool * string) :=
  match kind with
  | KindInstruction mnemonic operands =>
      relative ← branch_form (to_ascii_lowercase mnemonic);
      token ← last operands;
      if negb relative && label_token document token then None else Some (relative, token)
  | _ => None
  end.

Definition branch_literal (document : Document) (kind : KindText) : option (bool * Z) :=
  '(relative, token) ← branch_target_of document kind;
  (λ v, (relative, to_i64 v)) <$> whole_literal token.

(** A branch whose destination is only known when it runs. *)
Definition dynamic_target (document : Document) (kind : KindText) : bool :=
  match branch_target_of document kind with
  | Some (_, token) => bool_decide (whole_literal token = None)
  | None => false
  end.

Definition destination (relative : bool) (line : nat) (v : Z) : Z := if relative then Z.of_nat line + v else v.

Definition with_target (kind : KindText) (token : string) : KindText :=
  match kind with
  | KindInstruction mnemonic operands => KindInstruction mnemonic (removelast operands ++ [token])
  | _ => kind
  end.

(** The line [g] of the code for the line [s] of the source: the same but for a
    literal target, which leads to the first kept line at or after the old one. *)
Definition relocated (document : Document) (srcs : list nat) (source_len g s : nat) (kind kind' : KindText) : Prop :=
  match branch_literal document kind with
  | None => kind' = kind
  | Some (relative, v) =>
      0 ≤ destination relative s v < Z.of_nat source_len
      ∧ ∃ token v', kind' = with_target kind token ∧ to_i64 <$> whole_literal token = Some v'
          ∧ destination relative g v' = Z.of_nat (count_before srcs (Z.to_nat (destination relative s v)))
          ∧ (count_before srcs (Z.to_nat (destination relative s v)) < length srcs)%nat
  end.

(** A line of the output and the tokens its text reads as. *)
Definition output_reads (o : OutputLine) (ws : list string) : Prop :=
  ws ≠ [] ∧ ol_mnemonic o = mnemonic_of (classify_words ws) ∧ ol_operands o = operands_of (classify_words ws)
  ∧ ∃ cs, ol_text o = concat_strings cs ∧ code_reads cs ws ∧ ends_in_token cs.

Lemma kept_text_reads i t o : good_line t → kept_text i t = Some o → output_reads o (line_words t).
Proof.
  intros Ht Ho. pose proof (good_line_reads _ Ht) as Hr. unfold kept_text in Ho.
  destruct (line_words t) as [|w ws] eqn:Hw; [done|]. injection Ho as <-. split; [done|]. split; [done|]. split; [done|].
  by apply text_reads_trim_token.
Qed.

Lemma classify_instruction ws mnemonic operands :
  classify_words ws = KindInstruction mnemonic operands → ws = mnemonic :: operands.
Proof. destruct ws as [|w [|v ws]]; cbn [classify_words]; intros; by repeat case_match; simplify_eq. Qed.

(** What the two tests of the build make of the mnemonics of the tables. *)
Record BranchTests (m : string) : Prop := {
  bt_relative : branch_form m = Some true → is_relative_branch m = true ∧ is_absolute_branch m = false;
  bt_absolute : branch_form m = Some false → m ∉ OVERLOOKED_BRANCHES →
    is_relative_branch m = false ∧ is_absolute_branch m = true;
  bt_overlooked : m ∈ OVERLOOKED_BRANCHES → is_relative_branch m = false ∧ is_absolute_branch m = false;
  bt_other : branch_form m = None → starts_with "b" m = false →
    is_relative_branch m = false ∧ is_absolute_branch m = false;
}.

Lemma checked_table (f : string → bool) (table : list string) m : forallb f table = true → m ∈ table → f m = true.
Proof. intros Hf Hm. rewrite forallb_forall in Hf. apply Hf. by apply list_elem_of_In. Qed.

Lemma branch_tests m : BranchTests m.
Proof.
  split; try unfold branch_form.
  - case_bool_decide as Hin; [intros _|by case_bool_decide].
    apply (checked_table (λ m, is_relative_branch m && negb (is_absolute_branch m)) RELATIVE_BRANCHES m) in Hin;
      [|by vm_compute]. apply andb_true_iff in Hin as [-> ->%negb_true_iff]. done.
  - case_bool_decide; [done|]. case_bool_decide as Hin; [|done]. intros _ Hout.
    apply (checked_table (λ m, bool_decide (m ∈ OVERLOOKED_BRANCHES) || negb (is_relative_branch m) && is_absolute_branch m)
      ABSOLUTE_BRANCHES m) in Hin; [|by vm_compute].
    rewrite bool_decide_eq_false_2 in Hin by done. apply andb_true_iff in Hin as [->%negb_true_iff ->]. done.
  - intros Hin. apply (checked_table (λ m, negb (is_relative_branch m) && negb (is_absolute_branch m)) OVERLOOKED_BRANCHES m) in Hin;
      [|by vm_compute]. by apply andb_true_iff in Hin as [->%negb_true_iff ->%negb_true_iff].
  - case_bool_decide as Hr; [done|]. case_bool_decide as Ha; [done|]. intros _ Hb.
    unfold is_relative_branch, is_absolute_branch. rewrite Hb. split.
    + destruct (String.eqb_spec m "jr") as [->|_]; [by destruct Hr; vm_compute; left|]. destruct m; [done|].
      unfold starts_with in *. cbn [strip_prefix] in *. by destruct (Ascii.eqb (Ascii.Ascii _ _ _ _ _ _ _ _) a).
    + destruct (String.eqb_spec m "j") as [->|Hj]; [destruct Ha; vm_compute; left|].
      destruct (String.eqb_spec m "jal") as [->|Hl]; [destruct Ha; vm_compute; right; left|].
      cbn [existsb]. apply String.eqb_neq in Hj as ->. apply String.eqb_neq in Hl as ->. done.
Qed.

Section adjust_line.
Context `{Build} (document : Document) (source_len : nat) (line_map : list (option nat)) (topology_changed : bool).
Context (srcs : list nat).
Hypothesis map_ok : ∀ target, (target ≤ source_len)%nat →
  translate_target target line_map
  = if (count_before srcs target <? length srcs)%nat then Some (count_before srcs target) else None.
Hypothesis few : Z.of_nat (length srcs) ≤ TARGET_BOUND.
Set Default Proof Using "Type*".

Lemma add_line_in_range {E} (line : nat) v t :
  @add_i64 _ E (Z.of_nat line) v = Ok t → 0 ≤ t < Z.of_nat source_len → I64_MIN ≤ v ≤ I64_MAX →
  Z.of_nat source_len ≤ I64_MAX → Z.of_nat line < Z.of_nat source_len → t = Z.of_nat line + v.
Proof.
  unfold add_i64, on_overflow. intros Ht Hrange Hv Hlen Hline. 
  destruct ((I64_MIN <=? Z.of_nat line + v) && (Z.of_nat line + v <=? I64_MAX)) eqn:Hsum; [by injection Ht as <-|].
  destruct overflow_checks; [done|]. injection Ht as <-. exfalso. unfold wrap_i, I64_MIN, I64_MAX in *.
  assert (2 ^ 63 ≤ Z.of_nat line + v < 2 ^ 64) by lia.
  rewrite <-(Zmod_unique (Z.of_nat line + v + 2 ^ (64 - 1)) (2 ^ 64) 1 (Z.of_nat line + v - 2 ^ 63)) in Hrange by lia.
  change (2 ^ (64 - 1)) with (2 ^ 63) in Hrange. lia.
Qed.

Lemma output_reads_last o ws token mnemonic :
  output_reads o ws → ol_mnemonic o = Some mnemonic → last (ol_operands o) = Some token →
  ∃ m init, ws = m :: init ++ [token] ∧ classify_words ws = KindInstruction m (init ++ [token])
    ∧ mnemonic = to_ascii_lowercase m ∧ ol_operands o = (init ++ [token])%list.
Proof.
  intros (_ & Hm & Ho & _) Hmn Hlast. rewrite Hm in Hmn. destruct (classify_words ws) as [| |m ops] eqn:Hk; [done..|].
  injection Hmn as <-. cbn [operands_of] in Ho. rewrite Ho in Hlast. apply last_Some in Hlast as (init & ->).
  exists m, init. split_and!; try done. by apply classify_instruction.
Qed.

Lemma classify_with_operands m init token : classify_words (m :: init ++ [token]) = KindInstruction m (init ++ [token]).
Proof. by destruct init. Qed.

(** On a plain branch the tables agree with what the build tests. *)
Lemma branch_target_line m init token :
  plain_branch document (KindInstruction m (init ++ [token])) = true →
  branch_target_of document (KindInstruction m (init ++ [token]))
  = if is_relative_branch (to_ascii_lowercase m) || is_absolute_branch (to_ascii_lowercase m) then
      if is_absolute_branch (to_ascii_lowercase m) && label_token document token then None
      else Some (is_relative_branch (to_ascii_lowercase m), token)
    else None.
Proof.
  unfold branch_target_of, plain_branch. rewrite last_snoc. intros [Hb Ho]%andb_true_iff.
  destruct (branch_tests (to_ascii_lowercase m)) as [Hrel Habs Hover Hnone].
  destruct (branch_form (to_ascii_lowercase m)) as [[]|] eqn:Hform.
  - destruct (Hrel eq_refl) as [-> ->]. done.
  - destruct (decide (to_ascii_lowercase m ∈ OVERLOOKED_BRANCHES)) as [Hin|Hout].
    + rewrite (bool_decide_eq_true_2 _ Hin) in Ho. destruct (Hover Hin) as [-> ->]. cbn in Ho |- *. by rewrite Ho.
    + destruct (Habs eq_refl Hout) as [-> ->]. done.
  - rewrite bool_decide_eq_false_2, orb_false_r in Hb by (intros H'; by apply H'). apply negb_true_iff in Hb.
    destruct (Hnone eq_refl Hb) as [-> ->]. done.
Qed.

Lemma branch_target_none o ws :
  output_reads o ws → ol_mnemonic o = None ∨ last (ol_operands o) = None → branch_target_of document (classify_words ws) = None.
Proof.
  intros (_ & -> & -> & _) Hnone. destruct (classify_words ws) as [| |m ops]; [done..|]. destruct Hnone as [Hnone|Hnone]; [done|].
  cbn [operands_of] in Hnone. unfold branch_target_of. rewrite Hnone. by destruct (branch_form _).
Qed.

Lemma untouched_line g o ws :
  output_reads o ws → branch_literal document (classify_words ws) = None →
  ∃ ws', output_reads o ws' ∧ ol_source_line o = ol_source_line o
    ∧ relocated document srcs source_len g (ol_source_line o) (classify_words ws) (classify_words ws').
Proof. intros Ho Hn. exists ws. unfold relocated. by rewrite Hn. Qed.

(** A literal target is written so that it leads to the translated line. *)
Lemma adjust_literal_reads g o ws o' adj relative token value mnemonic :
  output_reads o ws → srcs !! g = Some (ol_source_line o) →
  Z.of_nat (ol_source_line o) < Z.of_nat source_len ≤ I64_MAX →
  ol_mnemonic o = Some mnemonic → last (ol_operands o) = Some token → whole_literal token = Some value →
  branch_target_of document (classify_words ws) = Some (relative, token) →
  adjust_literal source_len line_map g o relative token value = Ok (o', adj) →
  ∃ ws', output_reads o' ws' ∧ ol_source_line o' = ol_source_line o
    ∧ relocated document srcs source_len g (ol_source_line o) (classify_words ws) (classify_words ws').
Proof.
  intros Ho Hg Hlen Hmn Hlast Hvalue Htarget Hadjust.
  destruct (output_reads_last _ _ _ _ Ho Hmn Hlast) as (m & init & -> & Hkind & -> & Hops).
  unfold adjust_literal in Hadjust. apply outcome_bind_Ok in Hadjust as (t & Ht & Hadjust).
  destruct ((t <? 0) || (Z.of_nat source_len <=? t)) eqn:Hrange; [done|].
  apply outcome_bind_Ok in Hadjust as (gt & Hgt & Hadjust). apply ok_or_Ok in Hgt.
  assert (t = destination relative (ol_source_line o) (to_i64 value)) as Hdest.
  { destruct relative; [|by injection Ht as <-]. simpl. eapply add_line_in_range; [exact Ht|lia|apply f_cast_range; done|lia..]. }
  rewrite map_ok in Hgt by lia. destruct (Nat.ltb_spec (count_before srcs (Z.to_nat t)) (length srcs)) as [Hc|]; [|done].
  injection Hgt as <-. set (gt := count_before srcs (Z.to_nat t)) in *. apply lookup_lt_Some in Hg as Hg'.
  set (adjusted := if relative then Z.of_nat gt - Z.of_nat g else Z.of_nat gt) in *.
  assert (destination relative g adjusted = Z.of_nat gt) as Hadj by (unfold adjusted; destruct relative; simpl; lia).
  assert (∀ token' v', to_i64 <$> whole_literal token' = Some v' → destination relative g v' = Z.of_nat gt →
    relocated document srcs source_len g (ol_source_line o) (KindInstruction m (init ++ [token])) (KindInstruction m (init ++ [token']))) as Hrel.
  { intros token' v' Hv' Hd'.
    assert (branch_literal document (KindInstruction m (init ++ [token])) = Some (relative, to_i64 value)) as Hbl.
    { unfold branch_literal. rewrite <-Hkind, Htarget. cbn. by rewrite Hvalue. }
    unfold relocated. rewrite Hbl.
    rewrite <-Hdest. split; [lia|]. exists token', v'. cbn [with_target]. by rewrite removelast_last. }
  rewrite Hkind. destruct (Z.eqb_spec adjusted (to_i64 value)) as [Heq|Hne].
  - injection Hadjust as <- <-. exists (m :: init ++ [token])%list. split; [done|]. split; [done|]. rewrite Hkind.
    apply (Hrel _ adjusted); [|done]. by rewrite Hvalue, Heq.
  - apply outcome_bind_Ok in Hadjust as (new & Hnew & Hadjust). injection Hadjust as <- _.
    destruct (written_number_word adjusted) as [Hword Hnum]; [unfold adjusted, TARGET_BOUND in *; destruct relative; lia|].
    destruct Ho as (_ & Hm & _ & cs & Htext & Hcs & Hend). rewrite Htext in Hnew.
    destruct (replace_last_reads cs (m :: init) token (show adjusted)) as (cs' & Hrepl & Hcs' & Hend'); [done..|].
    rewrite Hrepl in Hnew. injection Hnew as <-. exists (m :: init ++ [show adjusted])%list. split.
    + split; [done|]. cbn [ol_mnemonic ol_operands ol_text with_last_operand]. rewrite classify_with_operands. split_and!.
      * by rewrite Hm, classify_with_operands.
      * by rewrite Hops, removelast_last.
      * by exists cs'.
    + split; [done|]. rewrite classify_with_operands. by apply (Hrel _ adjusted).
Qed.

Lemma adjust_branch_reads g o ws o' adj :
  output_reads o ws → plain_branch document (classify_words ws) = true → srcs !! g = Some (ol_source_line o) →
  Z.of_nat (ol_source_line o) < Z.of_nat source_len ≤ I64_MAX →
  adjust_branch document source_len ∅ line_map topology_changed g o = Ok (o', adj) →
  (∃ ws', output_reads o' ws' ∧ ol_source_line o' = ol_source_line o
    ∧ relocated document srcs source_len g (ol_source_line o) (classify_words ws) (classify_words ws'))
  ∧ (dynamic_target document (classify_words ws) = true → topology_changed = false).
Proof.
  intros Ho Hplain Hg Hlen Hadjust. unfold adjust_branch in Hadjust.
  assert (branch_target_of document (classify_words ws) = None → (o', adj) = (o, Untouched) →
    (∃ ws', output_reads o' ws' ∧ ol_source_line o' = ol_source_line o
      ∧ relocated document srcs source_len g (ol_source_line o) (classify_words ws) (classify_words ws'))
    ∧ (dynamic_target document (classify_words ws) = true → topology_changed = false)) as Huntouched.
  { intros Hn [= -> ->]. split; [apply untouched_line; [done|]|]; unfold branch_literal, dynamic_target; by rewrite Hn. }
  destruct (ol_mnemonic o) as [mnemonic|] eqn:Hmn; [|injection Hadjust as <- <-; apply Huntouched; [eapply branch_target_none|]; eauto].
  destruct (last (ol_operands o)) as [token|] eqn:Hlast.
  2: { apply Huntouched; [eapply branch_target_none; eauto|]. destruct (negb _ && _) in Hadjust; by injection Hadjust as <- <-. }
  destruct (output_reads_last _ _ _ _ Ho Hmn Hlast) as (m & init & Hws & Hkind & -> & Hops).
  rewrite Hkind in Hplain. pose proof (branch_target_line m init token Hplain) as Htarget. rewrite <-Hkind in Htarget.
  rewrite <-negb_orb in Hadjust.
  destruct (is_relative_branch (to_ascii_lowercase m) || is_absolute_branch (to_ascii_lowercase m)) eqn:Hb;
    [|injection Hadjust as <- <-; by apply Huntouched]. cbn [negb] in Hadjust.
  unfold names_label in Hadjust. rewrite bool_decide_eq_false_2 in Hadjust by set_solver. cbn [orb] in Hadjust.
  fold (label_token document token) in Hadjust.
  destruct (is_absolute_branch (to_ascii_lowercase m) && label_token document token);
    [injection Hadjust as <- <-; by apply Huntouched|].
  destruct (whole_literal token) as [value|] eqn:Hvalue.
  - split; [by eapply adjust_literal_reads|]. unfold dynamic_target. rewrite Htarget, Hvalue. done.
  - destruct topology_changed; [done|]. injection Hadjust as <- <-. split; [|done]. apply untouched_line; [done|].
    unfold branch_literal. rewrite Htarget. cbn. by rewrite Hvalue.
Qed.
End adjust_line.

(** ** The code of a readable build *)

Lemma output_reads_plain o ws : output_reads o ws → plain_line (ol_text o) ∧ read_line (ol_text o) = (classify_words ws, None)
  ∧ str_ok (ol_text o).
Proof.
  intros (_ & _ & _ & cs & Ht & Hcs & Hend). assert (text_reads (ol_text o) ws) as Hr by (by exists cs).
  split; [|split; [by apply read_line_code|by eapply text_reads_str_ok]].
  rewrite Ht, <-(trim_end_token cs); [|by apply line_chars_ok, Hcs|done]. apply (text_reads_trim_end _ ws). by exists cs.
Qed.

Lemma output_text_lines output :
  Forall (λ o, plain_line (ol_text o)) output →
  line_texts (output_text output) = ((ol_text <$> output) ++ [""])%list ∧ line_count (output_text output) = length output.
Proof.
  intros Hplain. assert (line_texts (output_text output) = ((ol_text <$> output) ++ [""])%list) as Ht.
  { destruct output as [|o output]; [done|]. unfold output_text. rewrite <-join_snoc_empty by done.
    apply line_texts_join; [by left|by destruct output|]. apply Forall_app. split; [by apply Forall_fmap|].
    constructor; [|constructor]. split; [constructor|done]. }
  split; [done|]. apply (f_equal length) in Ht. revert Ht. unfold line_texts, pieces, line_count.
  rewrite length_fmap, !length_app, length_fmap.
  assert (String.eqb (output_text output) "" || ends_with NEWLINE (output_text output) = true) as ->.
  { destruct output as [|o output]; [done|]. unfold output_text. apply orb_true_iff. right.
    by rewrite (ends_with_tail (byte 10) (join NEWLINE (ol_text <$> o :: output)) NEWLINE ltac:(done) : ends_with NEWLINE _ = _). }
  simpl. lia.
Qed.

Lemma output_text_kinds output kinds :
  Forall2 (λ o kind, plain_line (ol_text o) ∧ read_line (ol_text o) = (kind, None) ∧ str_ok (ol_text o)) output kinds →
  line_view (output_text output) <$> parse_lines (output_text output)
  = (((λ kind, (kind, None)) <$> kinds) ++ [(KindEmpty, None)])%list.
Proof.
  intros H. assert (Forall (λ o, plain_line (ol_text o)) output) as Hp
    by (eapply Forall2_Forall_l; [exact H|]; apply Forall_true; naive_solver).
  destruct (output_text_lines _ Hp) as [Ht _]. rewrite parse_lines_views; rewrite ?Ht.
  - rewrite fmap_app. f_equal. clear Hp Ht. induction H as [|o kind output kinds (_ & Hr & _) _ IH]; csimpl; [done|].
    by rewrite Hr, IH.
  - unfold lines_ok. rewrite Ht. apply Forall_app. split; [|by repeat constructor]. apply Forall_fmap.
    eapply Forall2_Forall_l; [exact H|]. apply Forall_true. naive_solver.
Qed.

Lemma line_kind_words line source i t :
  lines_ok source → parse_lines source !! i = Some line → line_texts source !! i = Some t →
  kind_text (pl_kind line) = classify_words (line_words t).
Proof.
  intros Hok Hl Ht. pose proof (parse_lines_views _ Hok) as Hv. apply (f_equal (.!! i)) in Hv.
  rewrite !list_lookup_fmap, Hl, Ht in Hv. injection Hv as Hv. apply (f_equal fst) in Hv. cbn in Hv. rewrite Hv.
  unfold read_line, line_words, code_of, read_code. by destruct (cut Outside (chars t)).
Qed.

Lemma source_lines_bound source : (length (source_lines source) ≤ String.length source)%nat.
Proof.
  rewrite source_lines_texts, length_fmap, <-(f_equal String.length (split_inclusive_concat source)).
  pose proof (split_inclusive_nonempty source) as H. rewrite length_concat_strings.
  induction H as [|l ls Hl _ IH]; csimpl; lia.
Qed.

(** A readable build that succeeds, step by step. *)
Lemma readable_build_steps `{Build} sha source options kb b :
  bo_optimization options = OptReadable → build sha source options kb = Ok b →
  let document := parse source kb in
  let raw := source_lines source in
  let output := kept_lines document raw in
  ∃ line_map adjusted,
    generated_line_map (length raw) output = @Ok BuildError _ line_map
    ∧ Forall2 (λ p q, adjust_branch document (length raw) ∅ line_map (negb (length output =? length raw)%nat) p.1 p.2 = Ok q)
        (enumerate output) adjusted
    ∧ bu_code b = output_text adjusted.*1
    ∧ Z.of_nat (line_count (bu_code b)) ≤ ar_maximum_program_lines (la_architecture (kb_language kb))
    ∧ bu_source_map b = imap (λ generated source, {| sm_generated_line := generated + 1; sm_source_line := source + 1 |})
                          (take (line_count (bu_code b)) (sources adjusted.*1)).
Proof.
  intros Hopt Hb document raw output. unfold build in Hb. destruct (filter_option _ _); [done|].
  destruct (validation (parse source kb)); [|done]. rewrite Hopt, bool_decide_eq_false_2 in Hb by done.
  cbn [reduce] in Hb. apply outcome_bind_Ok in Hb as (r & [= <-] & Hb). apply outcome_bind_Ok in Hb as (adjusted & Hadj & Hb).
  unfold adjust_branches in Hadj. cbn [rd_output rd_replaced] in Hadj. apply outcome_bind_Ok in Hadj as (line_map & Hmap & Hadj).
  exists line_map, adjusted. split; [done|]. split.
  { apply map_outcome_elem in Hadj. eapply Forall2_impl; [exact Hadj|]. by intros [g o] q. }
  unfold finish in Hb. destruct (_ <? _) eqn:Hlimit; [done|]. injection Hb as <-. cbn [bu_code bu_source_map].
  split; [done|]. split; [lia|done].
Qed.

Lemma choose_list {A B} (P : nat → A → B → Prop) l :
  (∀ g a, l !! g = Some a → ∃ b, P g a b) →
  ∃ bs, length bs = length l ∧ ∀ g a b, l !! g = Some a → bs !! g = Some b → P g a b.
Proof.
  revert P. induction l as [|a l IH]; intros P HP; [by exists []|].
  destruct (HP 0%nat a eq_refl) as [b Hb]. destruct (IH (λ g, P (S g))) as (bs & Hlen & Hbs); [intros g; apply (HP (S g))|].
  exists (b :: bs). split; [simpl; by f_equal|]. intros [|g] a' b'; simpl; [by intros [= <-] [= <-]|]. apply Hbs.
Qed.

Lemma kept_lines_sources source kb :
  good_source source →
  let output := kept_lines (parse source kb) (source_lines source) in
  StronglySorted lt (sources output) ∧ Forall (λ s, s < length (source_lines source))%nat (sources output)
  ∧ ∀ o, o ∈ output ↔ ∃ t, source_lines source !! ol_source_line o = Some t ∧ kept_text (ol_source_line o) t = Some o.
Proof.
  intros Hgood output. unfold output. rewrite kept_lines_texts by done. split_and!.
  - apply (keep_sorted kept_text kept_text_line).
  - apply (keep_bounds kept_text kept_text_line).
  - apply (keep_elem kept_text kept_text_line).
Qed.

(** A source whose branches are those of the tables, and those a build overlooks go
    to labels. *)
Definition plain_branches (source : string) (kb : KnowledgeBase) : Prop :=
  Forall (λ line, plain_branch (parse source kb) (kind_text (pl_kind line)) = true) (parse_lines source).

Lemma plain_branch_words source kb s t :
  good_source source → plain_branches source kb → source_lines source !! s = Some t →
  plain_branch (parse source kb) (classify_words (line_words t)) = true.
Proof.
  intros Hgood Hplain Ht. assert (line_texts source !! s = Some t) as Htt
    by (rewrite line_texts_source; by apply lookup_app_l_Some).
  destruct (lookup_lt_is_Some_2 (parse_lines source) s) as [line Hl]; [rewrite parse_lines_length; by eapply lookup_lt_Some|].
  rewrite <-(line_kind_words _ _ _ _ (proj1 Hgood) Hl Htt). unfold plain_branches in Hplain. rewrite Forall_lookup in Hplain. by eapply Hplain.
Qed.

(** The lines of the output of a readable build, one by one. *)
Lemma readable_build_lines `{Build} source kb line_map (adjusted : list (OutputLine * Adjustment)) :
  good_source source → slen source ≤ I64_MAX → plain_branches source kb →
  let document := parse source kb in
  let raw := source_lines source in
  let output := kept_lines document raw in
  let srcs := sources output in
  Z.of_nat (length srcs) ≤ TARGET_BOUND →
  generated_line_map (length raw) output = @Ok BuildError _ line_map →
  Forall2 (λ p q, adjust_branch document (length raw) ∅ line_map (negb (length output =? length raw)%nat) p.1 p.2 = Ok q)
    (enumerate output) adjusted →
  ∀ g p, adjusted !! g = Some p → ∃ kind, ∃ s t,
    srcs !! g = Some s ∧ ol_source_line p.1 = s ∧ raw !! s = Some t
    ∧ (plain_line (ol_text p.1) ∧ read_line (ol_text p.1) = (kind, None) ∧ str_ok (ol_text p.1))
    ∧ relocated document srcs (length raw) g s (classify_words (line_words t)) kind
    ∧ (dynamic_target document (classify_words (line_words t)) = true → length srcs = length raw).
Proof.
  intros Hgood Hsize Hplain document raw output srcs Hfew Hmap Hadj g [o' adj] Hp.
  destruct (kept_lines_sources source kb Hgood) as (Hsort & Hlt & Hin). fold document raw output in Hsort, Hlt, Hin. fold srcs in Hsort, Hlt.
  assert (length srcs = length output) as Hlsrcs by (unfold srcs, sources; by rewrite length_fmap).
  destruct (Forall2_lookup_r _ _ _ _ _ Hadj Hp) as ([g' o] & Hg' & Ho). rewrite lookup_enumerate in Hg'.
  apply fmap_Some in Hg' as (o2 & Hg & Heq). injection Heq as -> ->. cbn [fst snd] in Ho.
  destruct (proj1 (Hin o2)) as (t & Ht & Hkept); [by eapply list_elem_of_lookup_2|].
  assert (good_line t) as Hgt.
  { pose proof (good_source_lines _ Hgood) as Hl. rewrite Forall_lookup in Hl. apply (Hl (ol_source_line o2)).
    rewrite line_texts_source. by apply lookup_app_l_Some. }
  destruct (generated_line_map_spec (E:=BuildError) (length raw) output Hsort Hlt) as (m & Hm & _ & Htrans).
  rewrite Hm in Hmap. injection Hmap as ->. fold srcs in Htrans.
  assert (srcs !! g = Some (ol_source_line o2)) as Hsrc by (unfold srcs, sources; by rewrite list_lookup_fmap, Hg).
  rewrite <-Hlsrcs in Htrans.
  destruct (adjust_branch_reads document (length raw) line_map (negb (length output =? length raw)%nat) srcs Htrans Hfew g o2 (line_words t) o' adj) as [H1 H2];
    [by eapply kept_text_reads|by eapply plain_branch_words|done| |done|].
  { rewrite Forall_lookup in Hlt. specialize (Hlt _ _ Hsrc). pose proof (source_lines_bound source).
    unfold slen in Hsize. unfold raw in *. lia. }
  destruct H1 as (ws' & Hreads & Hline & Hrel). exists (classify_words ws'), (ol_source_line o2), t. cbn [fst].
  split_and!; try done; try apply (output_reads_plain _ _ Hreads).
  intros Hd%H2. apply negb_false_iff, Nat.eqb_eq in Hd. by rewrite Hlsrcs.
Qed.

Lemma classify_empty ws : classify_words ws = KindEmpty ↔ ws = [].
Proof. destruct ws as [|w [|v ws]]; simpl; [done| |done]. by case_match. Qed.

Lemma sources_elem source kb s :
  good_source source →
  s ∈ sources (kept_lines (parse source kb) (source_lines source))
  ↔ ∃ line, parse_lines source !! s = Some line ∧ pl_kind line ≠ LineEmpty.
Proof.
  intros Hgood. destruct (kept_lines_sources source kb Hgood) as (_ & _ & Hin). destruct Hgood as [Hok Hclosed].
  assert (∀ line t, parse_lines source !! s = Some line → line_texts source !! s = Some t →
    pl_kind line = LineEmpty ↔ line_words t = []) as Hkind.
  { intros line t Hl Ht. rewrite <-classify_empty, <-(line_kind_words _ _ _ _ Hok Hl Ht). by destruct (pl_kind line). }
  unfold sources. rewrite list_elem_of_fmap. split.
  - intros (o & -> & (t & Ht & Hkept)%Hin). assert (line_texts source !! ol_source_line o = Some t) as Htt
      by (rewrite line_texts_source; by apply lookup_app_l_Some).
    destruct (lookup_lt_is_Some_2 (parse_lines source) (ol_source_line o)) as [line Hl].
    { rewrite parse_lines_length. by eapply lookup_lt_Some. }
    exists line. split; [done|]. rewrite (Hkind _ _ Hl Htt). unfold kept_text in Hkept. by destruct (line_words t).
  - intros (line & Hl & Hne). destruct (lookup_lt_is_Some_2 (line_texts source) s) as [t Ht].
    { rewrite <-parse_lines_length. by eapply lookup_lt_Some. }
    rewrite (Hkind _ _ Hl Ht) in Hne. pose proof Ht as Htt. rewrite line_texts_source in Ht. apply lookup_app_Some in Ht as [Ht|[_ Ht]].
    + destruct (kept_text s t) as [o|] eqn:Ho; [|unfold kept_text in Ho; by destruct (line_words t)].
      pose proof (kept_text_line _ _ _ Ho) as <-. exists o. split; [done|]. apply Hin. by exists t.
    + case_match; [|done]. apply list_lookup_singleton_Some in Ht as [_ <-]. done.
Qed.

Lemma line_count_newline s t : (S (line_count t) ≤ line_count (s +:+ (NEWLINE +:+ t)))%nat.
Proof.
  unfold line_count. induction s as [|a s IH]; [done|]. cbn [String.append split_inclusive_nl].
  destruct (byte_of a =? 10); [cbn [length]; lia|].
  destruct (split_inclusive_nl (s +:+ (NEWLINE +:+ t))); cbn [length] in *; lia.
Qed.

Lemma line_count_output output : (length output ≤ line_count (output_text output))%nat.
Proof.
  unfold output_text. destruct output as [|o output]; [done|].
  revert o. induction output as [|o' output IH]; intros o.
  - apply (line_count_newline (ol_text o) "").
  - change (join NEWLINE (ol_text <$> o :: o' :: output))
      with (ol_text o +:+ NEWLINE +:+ join NEWLINE (ol_text <$> o' :: output)).
    rewrite !string_app_assoc. etransitivity; [|apply line_count_newline]. specialize (IH o'). simpl length in *. lia.
Qed.

(** The code of [b] holds the lines [srcs] of the source, as [kinds]. *)
Definition relocation (source : string) (kb : KnowledgeBase) (b : BuildOutput) (srcs : list nat) (kinds : list KindText) : Prop :=
  StronglySorted lt srcs
  ∧ (∀ s, s ∈ srcs ↔ ∃ line, parse_lines source !! s = Some line ∧ pl_kind line ≠ LineEmpty)
  ∧ bu_source_map b = imap (λ g s, {| sm_generated_line := g + 1; sm_source_line := s + 1 |}) srcs
  ∧ length kinds = length srcs
  ∧ line_view (bu_code b) <$> parse_lines (bu_code b) = (((λ kind, (kind, None)) <$> kinds) ++ [(KindEmpty, None)])%list
  ∧ ∀ g s kind, srcs !! g = Some s → kinds !! g = Some kind →
      ∃ line, parse_lines source !! s = Some line
      ∧ relocated (parse source kb) srcs (length (source_lines source)) g s (kind_text (pl_kind line)) kind
      ∧ (dynamic_target (parse source kb) (kind_text (pl_kind line)) = true → length srcs = length (source_lines source)).

Lemma readable_relocation `{Build} (sha : string → string) (source : string) (options : BuildOptions)
    (kb : KnowledgeBase) (b : BuildOutput) :
  good_source source → slen source ≤ I64_MAX → plain_branches source kb → bo_optimization options = OptReadable →
  ar_maximum_program_lines (la_architecture (kb_language kb)) ≤ TARGET_BOUND →
  build sha source options kb = Ok b →
  ∃ srcs kinds, relocation source kb b srcs kinds.
Proof.
  intros Hgood Hsize Hplain Hopt Hmax Hb.
  destruct (readable_build_steps sha source options kb b Hopt Hb) as (line_map & adjusted & Hmap & Hadj & Hcode & Hcount & Hsm).
  set (output := kept_lines (parse source kb) (source_lines source)) in *.
  destruct (kept_lines_sources source kb Hgood) as (Hsort & _ & _). fold output in Hsort.
  assert (length adjusted = length output) as Hladj by (apply Forall2_length in Hadj; by rewrite enumerate_length in Hadj).
  assert (length (sources output) = length output) as Hlsrc by (unfold sources; by rewrite length_fmap).
  assert (Z.of_nat (length (sources output)) ≤ TARGET_BOUND) as Hfew.
  { pose proof (line_count_output adjusted.*1) as H'. rewrite <-Hcode, length_fmap in H'. lia. }
  pose proof (readable_build_lines source kb line_map adjusted Hgood Hsize Hplain Hfew Hmap Hadj) as Hlines.
  destruct (choose_list _ _ Hlines) as (kinds & Hlk & Hkinds). fold output in Hkinds.
  assert (Forall2 (λ o kind, plain_line (ol_text o) ∧ read_line (ol_text o) = (kind, None) ∧ str_ok (ol_text o)) adjusted.*1 kinds) as Htexts.
  { apply Forall2_same_length_lookup. split; [by rewrite length_fmap|]. intros g o kind Ho Hk. rewrite list_lookup_fmap in Ho.
    apply fmap_Some in Ho as (p & Hp & ->). by destruct (Hkinds _ _ _ Hp Hk) as (s & t & _ & _ & _ & H' & _). }
  assert (sources adjusted.*1 = sources output) as Hsrcs.
  { apply list_eq_same_length with (length output); [by rewrite Hlsrc|unfold sources; by rewrite !length_fmap|].
    intros g s s' Hg Hs Hs'. unfold sources in Hs. rewrite !list_lookup_fmap in Hs. destruct (adjusted !! g) as [p|] eqn:Hp; [|done].
    injection Hs as <-. destruct (lookup_lt_is_Some_2 kinds g) as [kind Hk]; [apply lookup_lt_Some in Hp; lia|].
    destruct (Hkinds _ _ _ Hp Hk) as (s & t & Hs & -> & _). congruence. }
  assert (line_count (bu_code b) = length (sources output)) as Hlc.
  { rewrite Hcode. destruct (output_text_lines adjusted.*1) as [_ ->]; [|rewrite length_fmap; lia].
    eapply Forall2_Forall_l; [exact Htexts|]. apply Forall_true. naive_solver. }
  exists (sources output), kinds. split_and!.
  - done.
  - intros s. by apply sources_elem.
  - by rewrite Hsm, Hsrcs, Hlc, firstn_all.
  - lia.
  - rewrite Hcode. by apply output_text_kinds.
  - intros g s kind Hg Hk. destruct (lookup_lt_is_Some_2 adjusted g) as [p Hp]; [apply lookup_lt_Some in Hg; lia|].
    destruct (Hkinds _ _ _ Hp Hk) as (s' & t & Hs' & _ & Ht & _ & Hrel & Hdyn).
    assert (s' = s) as -> by congruence.
    assert (line_texts source !! s = Some t) as Htt by (rewrite line_texts_source; by apply lookup_app_l_Some).
    destruct (lookup_lt_is_Some_2 (parse_lines source) s) as [line Hl]; [rewrite parse_lines_length; by eapply lookup_lt_Some|].
    exists line. split; [done|]. by rewrite (line_kind_words _ _ _ _ (proj1 Hgood) Hl Htt).
Qed.

(** C37.  A readable build keeps the program: its code has a line for each line of
    the source with an instruction or a label, in order and without comments; the
    source map lists them; each line has the tokens of its source line, except that
    the literal target of a branch the simulator executes is rewritten to lead to the
    first kept line at or after its old destination.  A branch whose target is not
    known until it runs is only let through when no line was removed.  The program
    must use [bdse], [bdns], [bdnvl] and [bdnvs] with labels only, as above. *)
Theorem readable_build_relocates `{Build} (sha : string → string) (source : string) (options : BuildOptions)
    (kb : KnowledgeBase) (b : BuildOutput) :
  good_source source → slen source ≤ I64_MAX → plain_branches source kb → bo_optimization options = OptReadable →
  ar_maximum_program_lines (la_architecture (kb_language kb)) ≤ TARGET_BOUND →
  build sha source options kb = Ok b →
  ∃ srcs kinds, relocation source kb b srcs kinds.
Proof. apply readable_relocation. Qed.

#[local] Instance checked_build : Build := {| overflow_checks := true |}.

Lemma readable_build_relocates_witness :
  let source := lines_of ["# top"; "go:"; "  move r0 1 # one"; "brne r0 0 3"; ""; "j 1"; "jal go"; "bdse d0 go"; ""] in
  match build (λ _, "") source (options_at OptReadable) build_kb with
  | Ok b => ∃ srcs, StronglySorted lt srcs ∧ length (bu_source_map b) = length srcs
      ∧ bu_code b = lines_of ["go:"; "move r0 1"; "brne r0 0 2"; "j 0"; "jal go"; "bdse d0 go"; ""]
  | _ => False
  end.
Proof.
  cbv zeta. set (source := lines_of _).
  destruct (build (λ _, "") source (options_at OptReadable) build_kb) as [b|e|] eqn:Hb; [|by vm_compute in Hb..].
  destruct (readable_build_relocates (λ _, "") source (options_at OptReadable) build_kb b) as (srcs & kinds & Hs & _ & Hm & _).
  - split; unfold lines_ok, quotes_closed; (set (l := line_texts _); vm_compute in l; subst l; check_lines).
  - by vm_compute.
  - apply (bool_decide_eq_true_1 _). by vm_compute.
  - done.
  - by vm_compute.
  - done.
  - exists srcs. split_and!; [done|by rewrite Hm, length_imap|].
    clear -Hb. vm_compute in Hb. injection Hb as <-. reflexivity.
Defined.

(** ** The program a processor fetches from *)

(** The operation at or after a line: [operation_at_or_after] of the compiled program. *)
Definition fetch (lines : list ParsedLine) (pc : nat) : option Operation :=
  snd <$> bt_first_from (Z.of_nat pc) (tb_operations (compile_lines lines)).

Definition operation_of_kind (n : Z) (kind : KindText) : option Operation :=
  match kind with
  | KindInstruction m operands =>
      match declared_kind m, operands with
      | (Some SymDefine | Some SymAlias), _ :: _ :: _ => None
      | _, _ => Some {| op_line := n; mnemonic := to_ascii_lowercase m; operands := operands |}
      end
  | _ => None
  end.

Lemma operated_kind line :
  operated line = (λ op, (pl_number line, op)) <$> operation_of_kind (pl_number line) (kind_text (pl_kind line)).
Proof.
  unfold operated, operation_of_kind. destruct (pl_kind line) as [| |m ops]; [done..|]. cbn [kind_text].
  destruct ops as [|a [|b ops]]; csimpl; by destruct (declared_kind (text m)) as [[]|].
Qed.

Lemma bt_insert_last {V} k (v : V) m :
  Forall (λ e, e.1 < k) m → bt_insert k v m = (m ++ [(k, v)])%list.
Proof.
  induction 1 as [|[k' v'] m Hk _ IH]; [done|]. cbn [bt_insert app fst] in *.
  assert (rcmp k k' = Gt) as -> by (by apply Z.compare_gt_iff). by rewrite IH.
Qed.

(** The operations of numbered lines, in their order. *)
Lemma fold_operated lines : ∀ k,
  (∀ i line, lines !! i = Some line → pl_number line = Z.of_nat (k + i)) →
  foldl (add_entry operated) [] lines = omap operated lines
  ∧ Forall (λ e, e.1 < Z.of_nat (k + length lines)) (omap operated lines).
Proof.
  induction lines as [|line lines IH] using rev_ind; intros k Hk; [by split|].
  destruct (IH k) as [Hfold Hlt].
  { intros i l Hi. apply Hk. by apply lookup_app_l_Some. }
  assert (pl_number line = Z.of_nat (k + length lines)) as Hn by (apply Hk; by rewrite list_lookup_middle).
  rewrite foldl_app, omap_app, length_app. cbn [foldl]. rewrite Hfold. unfold add_entry at 1. csimpl.
  rewrite operated_kind. destruct (operation_of_kind _ _) as [op|]; csimpl.
  - rewrite bt_insert_last by (by rewrite Hn). split; [done|]. apply Forall_app. split.
    + eapply Forall_impl; [exact Hlt|]. simpl. lia.
    + constructor; [simpl; lia|constructor].
  - rewrite app_nil_r. split; [done|]. eapply Forall_impl; [exact Hlt|]. simpl. lia.
Qed.

Lemma parse_lines_numbers source i line : parse_lines source !! i = Some line → pl_number line = Z.of_nat i.
Proof. by intros (_ & _ & ?)%parse_lines_start. Qed.

(** The operation fetched is that of the first line with one. *)
Lemma first_operation (lines : list ParsedLine) k pc :
  (∀ i line, lines !! i = Some line → pl_number line = Z.of_nat (k + i)) →
  snd <$> bt_first_from (Z.of_nat pc) (omap operated lines)
  = find_map (λ line, operation_of_kind (pl_number line) (kind_text (pl_kind line))) (drop (pc - k) lines).
Proof.
  revert k. induction lines as [|line lines IH]; intros k Hk; [by rewrite drop_nil|]. csimpl.
  pose proof (Hk 0%nat line eq_refl) as Hn. rewrite Nat.add_0_r in Hn. rewrite operated_kind.
  assert (∀ i l, lines !! i = Some l → pl_number l = Z.of_nat (S k + i)) as Hk'
    by (intros i l Hi; rewrite (Hk (S i) l Hi); lia).
  specialize (IH (S k) Hk'). destruct (decide (pc ≤ k)%nat) as [Hle|Hgt].
  - replace (pc - k)%nat with 0%nat by lia. replace (pc - S k)%nat with 0%nat in IH by lia. cbn [drop find_map].
    destruct (operation_of_kind _ _) as [op|]; csimpl; [|done].
    unfold bt_first_from, find_first. cbn [find_map fst]. rewrite Hn.
    destruct (rcmp (Z.of_nat pc) (Z.of_nat k)) eqn:E; [done..|]. apply Z.compare_gt_iff in E. lia.
  - replace (pc - k)%nat with (S (pc - S k)) by lia. cbn [drop]. rewrite <-IH.
    destruct (operation_of_kind _ _) as [op|]; csimpl; [|done].
    unfold bt_first_from at 1, find_first. cbn [find_map fst]. rewrite Hn.
    assert (rcmp (Z.of_nat pc) (Z.of_nat k) = Gt) as -> by (apply Z.compare_gt_iff; lia). done.
Qed.

Definition kinds_of (source : string) : list KindText := (λ line, kind_text (pl_kind line)) <$> parse_lines source.

Definition operations_of (kinds : list KindText) : list (option Operation) :=
  imap (λ i kind, operation_of_kind (Z.of_nat i) kind) kinds.

Lemma fetch_kinds source pc :
  fetch (parse_lines source) pc = find_map id (drop pc (operations_of (kinds_of source))).
Proof.
  unfold fetch. destruct (compile_lines_tables (parse_lines source)) as (-> & _).
  destruct (fold_operated (parse_lines source) 0) as [-> _]; [apply parse_lines_numbers|].
  rewrite (first_operation _ 0), Nat.sub_0_r by apply parse_lines_numbers.
  assert (operations_of (kinds_of source)
    = (λ line, operation_of_kind (pl_number line) (kind_text (pl_kind line))) <$> parse_lines source) as ->.
  { apply list_eq. intros i. unfold operations_of, kinds_of. rewrite list_lookup_imap, !list_lookup_fmap.
    destruct (parse_lines source !! i) as [line|] eqn:Hi; csimpl; [|done]. by rewrite (parse_lines_numbers _ _ _ Hi). }
  rewrite <-fmap_drop. induction (drop pc (parse_lines source)) as [|line l IH]; csimpl; [done|]. by rewrite IH.
Qed.

Lemma find_map_Some_first {A B} (f : A → option B) l b :
  find_map f l = Some b →
  ∃ j a, l !! j = Some a ∧ f a = Some b ∧ ∀ i a', (i < j)%nat → l !! i = Some a' → f a' = None.
Proof.
  induction l as [|x l IH]; simpl; [done|]. destruct (f x) as [b'|] eqn:Hx.
  - intros [= <-]. exists 0%nat, x. split_and!; [done..|]. intros. lia.
  - intros (j & a & Hj & Ha & Hbefore)%IH. exists (S j), a. split_and!; [done..|].
    intros [|i] a' Hi Hl; simpl in Hl; [by injection Hl as ->|]. apply (Hbefore i); [lia|done].
Qed.

(** Two lists of entries, one without the gaps of the other, found from aligned places. *)
Lemma find_aligned {A} (srcs : list nat) (l l' : list (option A)) pc (R : nat → nat → A → A → Prop) :
  StronglySorted lt srcs →
  (∀ s a, l !! s = Some (Some a) → s ∈ srcs) →
  (∀ g a, l' !! g = Some (Some a) → (g < length srcs)%nat) →
  (∀ g s, srcs !! g = Some s → ∃ o o', l !! s = Some o ∧ l' !! g = Some o'
     ∧ match o, o' with Some a, Some a' => R g s a a' | None, None => True | _, _ => False end) →
  match find_map id (drop pc l), find_map id (drop (count_before srcs pc) l') with
  | Some a, Some a' => ∃ g s, srcs !! g = Some s ∧ R g s a a'
  | None, None => True
  | _, _ => False
  end.
Proof.
  intros Hs Hin Hin' Hrel. set (c := count_before srcs pc).
  destruct (find_map id (drop pc l)) as [a|] eqn:Ha.
  - apply find_map_Some_first in Ha as (j & o & Hj & Ho & Hbefore). unfold id in Ho. subst o. rewrite lookup_drop in Hj.
    destruct (list_elem_of_lookup_1 _ _ (Hin _ _ Hj)) as [g Hg].
    destruct (Hrel _ _ Hg) as (o & o' & Hl & Hl' & HR). rewrite Hj in Hl. injection Hl as <-.
    destruct o' as [a'|]; [|done]. pose proof (count_before_spec srcs pc g _ Hs Hg) as Hc. fold c in Hc.
    rewrite (find_map_first id (drop c l') (g - c) (Some a') a'); [by eauto| |done|].
    + rewrite lookup_drop. by replace (c + (g - c))%nat with g by lia.
    + intros i o Hi Ho. rewrite lookup_drop in Ho. unfold id. destruct o as [x|]; [|done]. exfalso.
      destruct (lookup_lt_is_Some_2 srcs (c + i)) as [s Hs']; [by eapply Hin'|].
      destruct (Hrel _ _ Hs') as (o & o' & Hl & Hl2 & HR2). rewrite Ho in Hl2. injection Hl2 as <-. destruct o as [y|]; [|done].
      assert (pc ≤ s)%nat by (pose proof (count_before_spec srcs pc _ _ Hs Hs'); unfold c in *; lia).
      assert (s < pc + j)%nat.
      { destruct (count_before_next srcs _ _ Hs Hg) as [Hcb _]. rewrite <-(count_before_spec srcs (pc + j) _ _ Hs Hs'), Hcb. lia. }
      specialize (Hbefore (s - pc)%nat (Some y)). rewrite lookup_drop in Hbefore.
      replace (pc + (s - pc))%nat with s in Hbefore by lia. by discriminate (Hbefore ltac:(lia) Hl).
  - destruct (find_map id (drop c l')) as [a'|] eqn:Ha'; [|done].
    apply find_map_Some_first in Ha' as (j & o & Hj & Ho & _). unfold id in Ho. subst o. rewrite lookup_drop in Hj.
    destruct (lookup_lt_is_Some_2 srcs (c + j)) as [s Hg]; [by eapply Hin'|].
    destruct (Hrel _ _ Hg) as (o & o' & Hl & Hl' & HR). rewrite Hj in Hl'. injection Hl' as <-. destruct o as [a|]; [|done].
    pose proof (count_before_spec srcs pc _ _ Hs Hg) as Hc. fold c in Hc.
    rewrite find_map_None in Ha. assert (id (Some a) = None) as Hn; [|done]. apply Ha.
    apply (list_elem_of_lookup_2 _ (s - pc)). rewrite lookup_drop. by replace (pc + (s - pc))%nat with s by lia.
Qed.

Lemma branch_literal_instruction document kind x :
  branch_literal document kind = Some x →
  ∃ m operands, kind = KindInstruction m operands ∧ branch_form (to_ascii_lowercase m) ≠ None ∧ operands ≠ [].
Proof.
  unfold branch_literal, branch_target_of. destruct kind as [| |m operands]; [done..|]. intros Hb. exists m, operands.
  split; [done|]. destruct (branch_form _); [|done]. split; [done|]. by intros ->.
Qed.

Lemma branch_not_declaration m : branch_form (to_ascii_lowercase m) ≠ None → declared_kind m = None.
Proof.
  intros Hb. unfold declared_kind. destruct (String.eqb_spec m "define") as [->|_]; [by destruct Hb|].
  destruct (String.eqb_spec m "alias") as [->|_]; [by destruct Hb|done].
Qed.

(** A relocated line gives an operation exactly when its source line does. *)
Lemma relocated_operation document srcs n g s kind kind' :
  relocated document srcs n g s kind kind' →
  match operation_of_kind (Z.of_nat s) kind, operation_of_kind (Z.of_nat g) kind' with
  | Some op, Some op' => ∃ m,
      op_line op = Z.of_nat s ∧ op_line op' = Z.of_nat g ∧ mnemonic op = to_ascii_lowercase m ∧ mnemonic op' = mnemonic op
      ∧ relocated document srcs n g s (KindInstruction m (operands op)) (KindInstruction m (operands op'))
  | None, None => True
  | _, _ => False
  end.
Proof.
  intros Hrel. destruct (branch_literal document kind) as [x|] eqn:Hx.
  - destruct (branch_literal_instruction _ _ _ Hx) as (m & ops & -> & Hb & Hne). pose proof Hrel as Hrel'.
    unfold relocated in Hrel'. rewrite Hx in Hrel'. destruct x as [relative v].
    destruct Hrel' as (_ & token & v' & -> & _). unfold operation_of_kind. cbn [with_target].
    rewrite branch_not_declaration by done. by exists m.
  - pose proof Hrel as Hrel'. unfold relocated in Hrel'. rewrite Hx in Hrel'. subst kind'.
    unfold operation_of_kind. destruct kind as [| |m ops]; [done..|].
    destruct ops as [|a [|b' ops]]; destruct (declared_kind m) as [[]|]; try done; by exists m.
Qed.

Lemma relocation_kinds source kb b srcs kinds :
  relocation source kb b srcs kinds → kinds_of (bu_code b) = (kinds ++ [KindEmpty])%list.
Proof.
  intros (_ & _ & _ & _ & Hv & _). apply (f_equal (fmap fst)) in Hv. unfold kinds_of.
  rewrite fmap_app, <-!list_fmap_compose in Hv. rewrite (list_fmap_ext _ (fst ∘ line_view (bu_code b))) by done.
  rewrite Hv. f_equal. apply list_fmap_id.
Qed.

(** C36.  A processor fetches from the code of a readable build what it fetches from
    the source: at corresponding places both programs are at their end, or both give
    the same instruction of corresponding lines, the literal target of a branch (of any
    branch the simulator executes, by the tables above) relocated; and the place after
    a line corresponds to the place after its line of the code.  The program must use
    [bdse], [bdns], [bdnvl] and [bdnvs] with labels only: the build overlooks these
    four branches, and leaves another target of theirs as it was. *)
Theorem readable_build_fetches `{Build} (sha : string → string) (source : string) (options : BuildOptions)
    (kb : KnowledgeBase) (b : BuildOutput) (pc : nat) :
  good_source source → slen source ≤ I64_MAX → plain_branches source kb → bo_optimization options = OptReadable →
  ar_maximum_program_lines (la_architecture (kb_language kb)) ≤ TARGET_BOUND →
  build sha source options kb = Ok b →
  ∃ srcs, sm_source_line <$> bu_source_map b = S <$> srcs
  ∧ match fetch (parse_lines source) pc, fetch (parse_lines (bu_code b)) (count_before srcs pc) with
    | Some op, Some op' => ∃ g s m,
        srcs !! g = Some s ∧ count_before srcs (S s) = S g
        ∧ op_line op = Z.of_nat s ∧ op_line op' = Z.of_nat g ∧ mnemonic op = to_ascii_lowercase m ∧ mnemonic op' = mnemonic op
        ∧ relocated (parse source kb) srcs (length (source_lines source)) g s
            (KindInstruction m (operands op)) (KindInstruction m (operands op'))
    | None, None => True
    | _, _ => False
    end.
Proof.
  intros Hgood Hsize Hplain Hopt Hmax Hb.
  destruct (readable_relocation sha source options kb b Hgood Hsize Hplain Hopt Hmax Hb) as (srcs & kinds & Hrel).
  pose proof (relocation_kinds _ _ _ _ _ Hrel) as Hkinds. destruct Hrel as (Hs & Hin & Hm & Hlen & _ & Hlines).
  exists srcs. split.
  { rewrite Hm. apply list_eq. intros i. rewrite !list_lookup_fmap, list_lookup_imap. destruct (srcs !! i); csimpl; [|done]. f_equal. lia. }
  rewrite !fetch_kinds, Hkinds.
  set (R g s op op' := ∃ m, op_line op = Z.of_nat s ∧ op_line op' = Z.of_nat g ∧ mnemonic op = to_ascii_lowercase m
    ∧ mnemonic op' = mnemonic op
    ∧ relocated (parse source kb) srcs (length (source_lines source)) g s
        (KindInstruction m (operands op)) (KindInstruction m (operands op'))).
  assert (∀ s line, parse_lines source !! s = Some line →
    operations_of (kinds_of source) !! s = Some (operation_of_kind (Z.of_nat s) (kind_text (pl_kind line)))) as Hk.
  { intros s line Hl. unfold operations_of, kinds_of. by rewrite list_lookup_imap, list_lookup_fmap, Hl. }
  assert (match find_map id (drop pc (operations_of (kinds_of source))),
      find_map id (drop (count_before srcs pc) (operations_of (kinds ++ [KindEmpty]))) with
    | Some a, Some a' => ∃ g s, srcs !! g = Some s ∧ R g s a a'
    | None, None => True
    | _, _ => False
    end) as Haligned.
  { apply find_aligned; [done|..].
    - intros s op Hop. apply Hin. destruct (parse_lines source !! s) as [line|] eqn:Hl.
      + exists line. split; [done|]. intros Hempty. rewrite (Hk _ _ Hl), Hempty in Hop. done.
      + unfold operations_of, kinds_of in Hop. by rewrite list_lookup_imap, list_lookup_fmap, Hl in Hop.
    - intros g op Hop. unfold operations_of in Hop. rewrite list_lookup_imap in Hop. rewrite <-Hlen.
      apply fmap_Some in Hop as (kind & Hkind & Hop). apply lookup_app_Some in Hkind as [Hkind|[_ Hkind]]; [by eapply lookup_lt_Some|].
      apply list_lookup_singleton_Some in Hkind as [_ <-]. done.
    - intros g s Hg. destruct (lookup_lt_is_Some_2 kinds g) as [kind Hkind]; [rewrite Hlen; by eapply lookup_lt_Some|].
      destruct (Hlines _ _ _ Hg Hkind) as (line & Hl & Hrel & _). exists (operation_of_kind (Z.of_nat s) (kind_text (pl_kind line))),
        (operation_of_kind (Z.of_nat g) kind). split; [by apply Hk|]. split.
      + unfold operations_of. rewrite list_lookup_imap, (lookup_app_l_Some _ _ _ _ Hkind). done.
      + apply (relocated_operation _ _ _ _ _ _ _ Hrel). }
  revert Haligned. destruct (find_map id _) as [op|], (find_map id (drop (count_before _ _) _)) as [op'|]; try done.
  intros (g & s & Hg & m & HR). exists g, s, m. split; [done|]. split; [by apply (count_before_next srcs g s)|done].
Qed.

Lemma readable_build_fetches_witness :
  let source := lines_of ["# top"; "go:"; "  move r0 1 # one"; "brne r0 0 3"; ""; "j 1"; "jal go"; "bdse d0 go"; ""] in
  match build (λ _, "") source (options_at OptReadable) build_kb with
  | Ok b => ∃ srcs, sm_source_line <$> bu_source_map b = S <$> srcs
      ∧ is_Some (fetch (parse_lines source) 4) ∧ is_Some (fetch (parse_lines (bu_code b)) (count_before srcs 4))
  | _ => False
  end.
Proof.
  cbv zeta. set (source := lines_of _).
  assert (∃ op, fetch (parse_lines source) 4 = Some op) as [op Hop] by (eexists; vm_compute; reflexivity).
  destruct (build (λ _, "") source (options_at OptReadable) build_kb) as [b|e|] eqn:Hb; [|by vm_compute in Hb..].
  destruct (readable_build_fetches (λ _, "") source (options_at OptReadable) build_kb b 4) as (srcs & Hm & Hf).
  - split; unfold lines_ok, quotes_closed; (set (l := line_texts _); vm_compute in l; subst l; check_lines).
  - by vm_compute.
  - apply (bool_decide_eq_true_1 _). by vm_compute.
  - done.
  - by vm_compute.
  - done.
  - exists srcs. rewrite Hop in Hf |- *. split; [exact Hm|]. split; [by exists op|].
    destruct (fetch (parse_lines (bu_code b)) (count_before srcs 4)) as [op'|]; [by exists op'|]. destruct Hf.
Defined.

(** ** Defines and aliases of a compact build *)

Definition define_step (defines : BTreeMap string string) (a b : string) : Prop := bt_get a defines = Some b.

Lemma resolve_from_spec fuel defines : ∀ visited current,
  visited ⊆ names defines → (∀ k, k ∈ visited → tc (define_step defines) k current) →
  (length defines < fuel + size visited)%nat →
  ∃ r, resolve_from fuel defines visited current = Some r
  ∧ ∀ v, r = Some v ↔ tc (define_step defines) current v ∧ bt_get v defines = None.
Proof.
  assert (∀ x y z, define_step defines x y → define_step defines x z → y = z) as Hfun
    by (unfold define_step; congruence).
  assert (∀ v, bt_get v defines = None → ∀ z, ¬ define_step defines v z) as Hend by (unfold define_step; congruence).
  induction fuel as [|fuel IH]; intros visited current Hsub Hvisited Hfuel; simpl.
  { pose proof (subseteq_size _ _ Hsub). pose proof (size_list_to_set (bt_keys defines)).
    unfold names, bt_keys in *. rewrite length_fmap in *. lia. }
  case_decide as Hin.
  { exists None. split; [done|]. intros v. split; [done|]. intros [Hr Hv]. exfalso.
    eapply (ending_chain_has_no_loop (define_step defines) Hfun); [apply tc_rtc, Hr|by apply Hend|by apply Hvisited]. }
  destruct (bt_get current defines) as [value|] eqn:Hcur.
  - destruct (bt_get value defines) as [next|] eqn:Hval.
    + destruct (names_room _ _ _ _ Hcur Hsub Hin) as (H1 & H2 & H3).
      destruct (IH ({[current]} ∪ visited) value) as (r & Hr & Hspec); [done| |lia|].
      { intros k [->%elem_of_singleton|Hk]%elem_of_union; [by apply tc_once|]. by eapply tc_r; [apply Hvisited|]. }
      exists r. split; [done|]. intros v. rewrite Hspec. split; intros [Htc Hv]; (split; [|done]).
      * by eapply tc_l.
      * inversion Htc as [? ? Hs|? y ? Hs Ht]; subst; rewrite (Hfun _ _ _ Hs Hcur) in *; [congruence|done].
    + exists (Some value). split; [done|]. intros v. split.
      * intros [= <-]. split; [by apply tc_once|done].
      * intros [Htc Hv]. inversion Htc as [? ? Hs|? y ? Hs Ht]; subst; rewrite (Hfun _ _ _ Hs Hcur) in *; [done|].
        exfalso. inversion Ht as [? ? Hs'|? ? ? Hs' _]; subst; by apply (Hend _ Hval _ Hs').
  - exists None. split; [done|]. intros v. split; [done|]. intros [Htc _]. exfalso.
    inversion Htc as [? ? Hs|? ? ? Hs _]; subst; by apply (Hend _ Hcur _ Hs).
Qed.

(** The search for the value of a define always ends: it finds the end of the
    chain of defines, or nothing when the name is not defined or its chain never
    ends. *)
Theorem resolve_define_exact (name : string) (defines : BTreeMap string string) :
  (∃ r, resolve_from (S (length defines)) defines ∅ name = Some r)
  ∧ ∀ v, resolve_define name defines = Some v ↔ tc (define_step defines) name v ∧ bt_get v defines = None.
Proof.
  destruct (resolve_from_spec (S (length defines)) defines ∅ name) as (r & Hr & Hspec); [set_solver..|lia|].
  split; [by exists r|]. intros v. unfold resolve_define. rewrite Hr. apply Hspec.
Qed.

(** A free name ends in the digits it started with. *)
Lemma free_name_shape fuel occupied : ∀ candidate r,
  free_name fuel occupied candidate = Some r → r ∉ occupied ∧ ∃ k, r = str_repeat k "a" +:+ candidate.
Proof.
  induction fuel as [|fuel IH]; intros candidate r; simpl; [done|]. case_bool_decide as Hin.
  - intros Hr. destruct (IH _ _ Hr) as (Hnot & k & ->). split; [done|]. exists (S k).
    clear. induction k as [|k IH]; simpl in *; [done|]. by rewrite IH.
  - intros [= <-]. split; [done|]. by exists 0%nat.
Qed.

Lemma free_name_ends fuel occupied : ∀ candidate,
  (length (filter (λ s, String.length candidate ≤ String.length s)%nat occupied) < fuel)%nat →
  is_Some (free_name fuel occupied candidate).
Proof.
  induction fuel as [|fuel IH]; intros candidate Hf; simpl; [lia|]. case_bool_decide as Hin; [|done]. apply IH.
  assert (length (filter (λ s, String.length ("a" +:+ candidate) ≤ String.length s)%nat occupied)
    < length (filter (λ s, String.length candidate ≤ String.length s)%nat occupied))%nat; [|simpl in *; lia].
  assert (∀ l : list string, length (filter (λ s, String.length ("a" +:+ candidate) ≤ String.length s)%nat l)
    ≤ length (filter (λ s, String.length candidate ≤ String.length s)%nat l))%nat as Hle.
  { induction l as [|y l IHl]; [done|]. rewrite !filter_cons. repeat case_decide; simpl in *; lia. }
  clear -Hin Hle. induction occupied as [|x l IH]; [by apply not_elem_of_nil in Hin|]. rewrite !filter_cons.
  apply elem_of_cons in Hin as [<-|Hin].
  - rewrite decide_False, decide_True by (simpl; lia). specialize (Hle l). simpl in *. lia.
  - specialize (IH Hin). repeat case_decide; simpl in *; lia.
Qed.

Lemma show_not_a (i : nat) r : show (Z.of_nat i) ≠ "a" +:+ r.
Proof.
  assert (∀ x s, (∀ r, s ≠ "a" +:+ r) → ∀ r, pretty_N_go x s ≠ "a" +:+ r) as Hgo.
  { intros x. induction (N.lt_wf_0 x) as [x _ IH]. intros s Hs r'. destruct (decide (x = 0)%N) as [->|Hx].
    - rewrite pretty_N_go_0. apply Hs.
    - rewrite pretty_N_go_step by lia. apply IH; [by apply N.div_lt; lia|]. intros r2. unfold pretty_N_char. by repeat case_match. }
  destruct i as [|i]; [done|]. apply (Hgo (N.pos (Pos.of_succ_nat i)) ""). done.
Qed.

Lemma repeat_a_inj k1 k2 (i j : nat) :
  str_repeat k1 "a" +:+ show (Z.of_nat i) = str_repeat k2 "a" +:+ show (Z.of_nat j) → i = j.
Proof.
  revert k2. induction k1 as [|k1 IH]; intros [|k2]; cbn [str_repeat String.append].
  - intros H. apply Nat2Z.inj. by apply (inj pretty).
  - intros H. by destruct (show_not_a i (str_repeat k2 "a" +:+ show (Z.of_nat j))).
  - intros H. by destruct (show_not_a j (str_repeat k1 "a" +:+ show (Z.of_nat i))).
  - intros [= H]. by eapply IH.
Qed.

Definition private_aliases (document : Document) : list string :=
  omap (λ symbol, if bool_decide (sy_kind symbol = SymAlias) && starts_with "_" (sy_name symbol)
                  then Some (sy_name symbol) else None) (symbols_of document).

Lemma compact_aliases_elem document name new :
  bt_get name (compact_aliases document) = Some new →
  ∃ i k, private_aliases document !! i = Some name ∧ new = str_repeat (S k) "a" +:+ show (Z.of_nat i)
    ∧ new ∉ bt_keys (do_symbols document).
Proof.
  intros He%bt_get_elem%bt_collect_elem. apply list_elem_of_omap in He as ([i n] & Hi & Hf).
  apply list_elem_of_lookup in Hi as (j & Hj). rewrite lookup_enumerate in Hj. apply fmap_Some in Hj as (n' & Hj & [= -> ->]).
  apply fmap_Some in Hf as (c & Hc & [= -> ->]). apply free_name_shape in Hc as [Hnot (k & ->)].
  exists j, k. split_and!; [done| |done]. rewrite <-string_app_assoc. f_equal.
  clear. induction k as [|k IH]; simpl in *; [done|]. by rewrite IH.
Qed.

(** The private aliases of a compact build are renamed apart: each has a new
    name, which no symbol of the document has, and no two have the same. *)
Theorem compact_aliases_fresh (document : Document) :
  (∀ symbol, symbol ∈ symbols_of document → sy_kind symbol = SymAlias → starts_with "_" (sy_name symbol) = true →
     is_Some (bt_get (sy_name symbol) (compact_aliases document)))
  ∧ (∀ name new, bt_get name (compact_aliases document) = Some new →
       document_symbol document new = None
       ∧ ∀ name', bt_get name' (compact_aliases document) = Some new → name' = name).
Proof.
  split.
  - intros symbol Hin Hkind Hprefix. apply bt_collect_is_Some.
    assert (sy_name symbol ∈ private_aliases document) as Hp.
    { apply list_elem_of_omap. exists symbol. split; [done|]. by rewrite bool_decide_eq_true_2, Hprefix. }
    apply list_elem_of_lookup in Hp as (i & Hi). set (occupied := bt_keys (do_symbols document)).
    destruct (free_name_ends (S (length occupied)) occupied ("a" +:+ show (Z.of_nat i))) as [c Hc];
      [apply le_n_S, length_filter|].
    apply list_elem_of_fmap. exists (sy_name symbol, c). split; [done|]. apply list_elem_of_omap. exists (i, sy_name symbol). split.
    + apply (list_elem_of_lookup_2 _ i). change (enumerate (private_aliases document) !! i = Some (i, sy_name symbol)).
      by rewrite lookup_enumerate, Hi.
    + by rewrite Hc.
  - intros name new Hnew. destruct (compact_aliases_elem _ _ _ Hnew) as (i & k & Hi & Heq & Hnot). split.
    + unfold document_symbol. destruct (bt_get new (do_symbols document)) as [s|] eqn:Hs; [|done]. destruct Hnot.
      apply list_elem_of_fmap. exists (new, s). split; [done|]. by apply bt_get_elem.
    + intros name' Hnew'. destruct (compact_aliases_elem _ _ _ Hnew') as (j & k' & Hj & Heq' & _).
      rewrite Heq in Heq'. apply repeat_a_inj in Heq' as <-. congruence.
Qed.

(** ** Builds that only remove indentation *)

(** A character of UTF-8: one byte below 128, or a lead byte with continuation bytes. *)
Definition valid_char (c : string) : bool :=
  match c with
  | "" => false
  | String a "" => byte_of a <? 128
  | String a p => (192 <=? byte_of a) && forallb (λ b, (128 <=? b) && (b <? 192)) (bytes p)
  end.

Definition valid_text (t : string) : Prop := Forall (λ c, valid_char c = true) (chars t).

Definition is_indentation (c : string) : bool := String.eqb c " " || String.eqb c TAB.

Fixpoint drop_indentation (cs : list string) : list string :=
  match cs with
  | [] => []
  | c :: cs' => if is_indentation c then drop_indentation cs' else cs
  end.

Lemma valid_char_ok c : valid_char c = true → char_ok c.
Proof.
  destruct c as [|a [|b p]]; [done| |]; simpl; unfold is_continuation.
  - intros H. split; [|done]. lia.
  - intros [H1 H2]%andb_prop. split; [lia|done].
Qed.

Lemma trim_indentation_chars cs :
  Forall (λ c, valid_char c = true) cs → trim_indentation (concat_strings cs) = concat_strings (drop_indentation cs).
Proof.
  induction 1 as [|c cs Hc _ IH]; [done|]. cbn [concat_strings foldr drop_indentation].
  unfold is_indentation. destruct (String.eqb_spec c " ") as [->|Hsp]; [exact IH|].
  destruct (String.eqb_spec c TAB) as [->|Htab]; [exact IH|]. cbn [orb concat_strings foldr].
  destruct c as [|a p]; [done|]. cbn [String.append trim_indentation].
  assert ((byte_of a =? 32) || (byte_of a =? 9) = false) as ->; [|done].
  apply orb_false_iff. split; apply Z.eqb_neq; intros Ha.
  - destruct p as [|b p]; [|simpl in Hc; lia]. destruct Hsp. pose proof (of_bytes_bytes (String a "")) as Hb. simpl in Hb.
    rewrite Ha in Hb. by rewrite <-Hb.
  - destruct p as [|b p]; [|simpl in Hc; lia]. destruct Htab. pose proof (of_bytes_bytes (String a "")) as Hb. simpl in Hb.
    rewrite Ha in Hb. by rewrite <-Hb.
Qed.

Lemma indentation_blank c : is_indentation c = true → is_whitespace c = true.
Proof. intros [H|H]%orb_prop; apply String.eqb_eq in H as ->; done. Qed.

Lemma read_line_indentation cs :
  Forall (λ c, valid_char c = true) cs →
  read_line (concat_strings (drop_indentation cs)) = read_line (concat_strings cs).
Proof.
  intros Hcs. assert (∀ l, Forall (λ c, valid_char c = true) l → chars (concat_strings l) = l) as Hchars.
  { intros l Hl. apply chars_concat. eapply Forall_impl; [exact Hl|]. apply valid_char_ok. }
  induction Hcs as [|c cs Hc Hcs IH]; [done|]. cbn [drop_indentation]. destruct (is_indentation c) eqn:Hi; [|done].
  rewrite IH. unfold read_line. rewrite !Hchars by (done || by constructor). apply indentation_blank in Hi as Hb.
  cbn [cut]. destruct (blank_not_special c Hb) as (_ & _ & Hh). rewrite (proj2 (String.eqb_neq c "#")) by done. cbn [andb].
  rewrite scan_blank by done. destruct (cut Outside cs) as [code comment]. f_equal. unfold read_code.
  pose proof (words_separated Outside None [] c code eq_refl Hb) as Hw. cbn [app words] in Hw. 
  change (words Outside None (c :: code) = words Outside None code) in Hw. by rewrite Hw.
Qed.

Lemma trim_indentation_app s t :
  no_newline s → trim_indentation (s +:+ (NEWLINE +:+ t)) = trim_indentation s +:+ (NEWLINE +:+ t).
Proof.
  induction s as [|a s IH]; [done|]. intros [Ha Hs]%Forall_cons. cbn [String.append trim_indentation].
  destruct (_ || _); [by apply IH|done].
Qed.

Lemma trim_indentation_suffix s : ∃ p, s = p +:+ trim_indentation s.
Proof.
  induction s as [|a s [p IH]]; [by exists ""|]. cbn [trim_indentation]. destruct (_ || _); [|by exists ""].
  exists (String a p). simpl. by rewrite <-IH.
Qed.

Lemma trim_indentation_return s :
  default (trim_indentation s) (strip_suffix RETURN (trim_indentation s))
  = trim_indentation (default s (strip_suffix RETURN s)).
Proof.
  destruct (strip_suffix RETURN s) as [r|] eqn:E; cbn [default].
  - apply strip_suffix_Some in E as ->. assert (trim_indentation (r +:+ RETURN) = trim_indentation r +:+ RETURN) as ->.
    { induction r as [|a r IH]; [done|]. cbn [String.append trim_indentation]. by destruct (_ || _). }
    by rewrite strip_suffix_app.
  - destruct (strip_suffix RETURN (trim_indentation s)) as [r|] eqn:E'; [|done]. exfalso.
    apply strip_suffix_Some in E'. destruct (trim_indentation_suffix s) as [p Hp]. rewrite E', <-string_app_assoc in Hp.
    rewrite Hp, strip_suffix_app in E; done.
Qed.

Lemma first_line s : no_newline s ∨ ∃ l t, no_newline l ∧ s = l +:+ (NEWLINE +:+ t).
Proof.
  induction s as [|a s [Hs|(l & t & Hl & ->)]]; [by left; constructor| |].
  - destruct (Z.eq_dec (byte_of a) 10) as [Ha|Ha]; [|left; by constructor]. right. exists "", s. split; [constructor|].
    by rewrite (byte_newline a Ha).
  - destruct (Z.eq_dec (byte_of a) 10) as [Ha|Ha].
    + right. exists "", (l +:+ (NEWLINE +:+ t)). split; [constructor|]. by rewrite (byte_newline a Ha).
    + right. exists (String a l), t. split; [by constructor|done].
Qed.

(** Without its indentation, a source has the same lines without theirs. *)
Lemma strip_indentation_texts s : line_texts (strip_leading_indentation s) = trim_indentation <$> line_texts s.
Proof.
  remember (String.length s) as n eqn:Hn. revert s Hn. induction (lt_wf n) as [n _ IH]. intros s ->.
  destruct (first_line s) as [Hs|(l & t & Hl & ->)].
  - destruct (String.eqb_spec s "") as [->|Hne]; [done|]. unfold strip_leading_indentation.
    rewrite split_inclusive_last by done. cbn [fmap list_fmap concat_strings foldr]. rewrite string_app_nil_r.
    destruct (trim_indentation_suffix s) as [p Hp].
    assert (∀ u, no_newline u → line_texts u = [default u (strip_suffix RETURN u)]) as Hone.
    { intros u Hu. unfold line_texts, pieces. rewrite no_newline_ends, orb_false_r by done.
      destruct (String.eqb_spec u "") as [->|Hu']; [done|]. rewrite split_inclusive_last by done. cbn [app fmap list_fmap].
      unfold line_text. by rewrite (ends_with_false NEWLINE u) by (by apply no_newline_ends). }
    assert (no_newline (trim_indentation s)) as Ht by (rewrite Hp in Hs; by apply no_newline_app in Hs as [_ ?]).
    rewrite !Hone by done. cbn [fmap list_fmap]. by rewrite trim_indentation_return.
  - unfold strip_leading_indentation. rewrite split_inclusive_newline by done. cbn [fmap list_fmap concat_strings foldr].
    assert (trim_indentation (l +:+ NEWLINE) = trim_indentation l +:+ NEWLINE) as -> by (by apply (trim_indentation_app l "")).
    fold (concat_strings (trim_indentation <$> split_inclusive_nl t)). fold (strip_leading_indentation t).
    destruct (trim_indentation_suffix l) as [p Hp].
    assert (no_newline (trim_indentation l)) as Ht by (rewrite Hp in Hl; by apply no_newline_app in Hl as [_ ?]).
    unfold line_texts. rewrite string_app_assoc, !pieces_newline by done. csimpl. f_equal.
    + unfold line_text. rewrite !strip_suffix_app by done. cbn [default]. apply trim_indentation_return.
    + apply (IH (String.length t)); [|done]. rewrite !slength_app. simpl. lia.
Qed.

Lemma valid_text_reads t :
  valid_text t → str_ok t ∧ str_ok (trim_indentation t) ∧ read_line (trim_indentation t) = read_line t.
Proof.
  intros Ht. unfold valid_text in Ht. pose proof (trim_indentation_chars _ Ht) as Htrim. rewrite concat_chars in Htrim.
  pose proof (read_line_indentation _ Ht) as Hread. rewrite concat_chars in Hread. rewrite Htrim. split_and!; [| |done].
  - rewrite <-(concat_chars t). apply str_ok_chars. eapply Forall_impl; [exact Ht|]. apply valid_char_ok.
  - apply str_ok_chars. clear Htrim Hread. induction Ht as [|c cs Hc Hcs IH]; cbn [drop_indentation]; [constructor|].
    destruct (is_indentation c); [done|]. constructor; [by apply valid_char_ok|]. eapply Forall_impl; [exact Hcs|]. apply valid_char_ok.
Qed.

(** A build without optimization that succeeds. *)
Lemma exact_build_steps `{Build} sha source options kb b :
  bo_optimization options = OptNone → build sha source options kb = Ok b →
  bu_code b = strip_leading_indentation source
  ∧ bu_source_map b = imap (λ generated source, {| sm_generated_line := generated + 1; sm_source_line := source + 1 |})
                        (take (line_count (bu_code b)) (seq 0 (length (source_lines source)))).
Proof.
  intros Hopt Hb. unfold build in Hb. destruct (filter_option _ _); [done|]. destruct (validation _); [|done].
  rewrite Hopt, bool_decide_eq_true_2 in Hb by done. unfold finish_exact, finish in Hb.
  destruct (_ <? _); [done|]. by injection Hb as <-.
Qed.

(** A build without optimization only removes indentation: every line has the
    kind, the tokens and the comment it had, both texts compile to the same
    operations, labels, defines and aliases, and the map sends each line to itself. *)
Theorem exact_build_keeps_program `{Build} (sha : string → string) (source : string) (options : BuildOptions)
    (kb : KnowledgeBase) (b : BuildOutput) :
  Forall valid_text (line_texts source) → bo_optimization options = OptNone → build sha source options kb = Ok b →
  line_view (bu_code b) <$> parse_lines (bu_code b) = line_view source <$> parse_lines source
  ∧ compile_lines (parse_lines (bu_code b)) = compile_lines (parse_lines source)
  ∧ Forall (λ entry, sm_source_line entry = sm_generated_line entry) (bu_source_map b).
Proof.
  intros Hvalid Hopt Hb. destruct (exact_build_steps sha source options kb b Hopt Hb) as [-> Hmap].
  assert (lines_ok source ∧ lines_ok (strip_leading_indentation source)
    ∧ read_line <$> line_texts (strip_leading_indentation source) = read_line <$> line_texts source) as (H1 & H2 & H3).
  { unfold lines_ok. rewrite strip_indentation_texts. split_and!.
    - eapply Forall_impl; [exact Hvalid|]. intros t Ht. apply (valid_text_reads t Ht).
    - apply Forall_fmap. eapply Forall_impl; [exact Hvalid|]. intros t Ht. apply (valid_text_reads t Ht).
    - rewrite <-list_fmap_compose. apply list_fmap_ext. intros i t Ht. rewrite Forall_lookup in Hvalid.
      apply (valid_text_reads t (Hvalid _ _ Ht)). }
  split_and!.
  - by rewrite !parse_lines_views.
  - by apply compile_lines_views, views_same_lines.
  - rewrite Hmap. apply Forall_lookup. intros i e He. rewrite list_lookup_imap in He.
    apply fmap_Some in He as (s & Hs & ->). apply lookup_take_Some in Hs as [Hs _]. apply lookup_seq in Hs as [-> _]. done.
Qed.

Lemma exact_build_keeps_program_witness :
  let source := lines_of ["  go: # here"; "    move r0 1"; "j go"] in
  match build (λ _, "") source (options_at OptNone) build_kb with
  | Ok b => bu_code b = lines_of ["go: # here"; "move r0 1"; "j go"]
      ∧ compile_lines (parse_lines (bu_code b)) = compile_lines (parse_lines source)
  | _ => False
  end.
Proof.
  cbv zeta. set (source := lines_of _).
  destruct (build (λ _, "") source (options_at OptNone) build_kb) as [b|e|] eqn:Hb; [|by vm_compute in Hb..].
  destruct (exact_build_keeps_program (λ _, "") source (options_at OptNone) build_kb b) as (_ & Hc & _).
  - set (l := line_texts source). vm_compute in l. subst l.
    repeat (apply Forall_cons; split; [unfold valid_text; set (l := chars _); vm_compute in l; subst l; check_lines|]); apply Forall_nil; exact I.
  - done.
  - done.
  - split; [|exact Hc]. clear -Hb. vm_compute in Hb. injection Hb as <-. reflexivity.
Defined.

(** ** Errors and bounds *)

Lemma replace_last_total cs ws w new :
  code_reads cs (ws ++ [w]) → ends_in_token cs → ∃ text, replace_last_token (concat_strings cs) w new = Ok text.
Proof.
  intros Hcs Hend. pose proof (line_chars_ok _ (proj1 Hcs)) as Hok.
  destruct (last_word_split _ _ _ Hcs Hend) as (pre & wcs & -> & -> & Hwne & _).
  pose proof (trim_end_token _ Hok Hend) as Htrim. rewrite (concat_strings_app pre wcs) in *.
  eexists. apply replace_last_token_suffix; [|done]. apply Forall_app in Hok as [_ Hok]. destruct Hok as [|c l Hc _]; [done|]. by destruct c.
Qed.

Lemma adjust_branch_no_panic `{Build} document n replaced line_map topology g o ws :
  overflow_checks = false → output_reads o ws → adjust_branch document n replaced line_map topology g o ≠ Panic.
Proof.
  intros Hrelease Ho. unfold adjust_branch. destruct (ol_mnemonic o) as [m|] eqn:Hm; [|done].
  destruct (negb _ && _); [done|]. destruct (last (ol_operands o)) as [token|] eqn:Hlast; [|done].
  destruct (_ && names_label _ _ _ _); [done|]. destruct (whole_literal token) as [value|]; [|by destruct topology].
  destruct (output_reads_last _ _ _ _ Ho Hm Hlast) as (mn & init & -> & _). destruct Ho as (_ & _ & _ & cs & Htext & Hcs & Hend).
  unfold adjust_literal, add_i64, on_overflow. rewrite Hrelease, Htext.
  assert (∀ t, (if (t <? 0) || (Z.of_nat n <=? t) then
      @Err _ (OutputLine * Adjustment) (error "branch-out-of-range" ("Branch target " +:+ show t +:+ " is outside the source.") (shown_line o))
    else generated_target ← ok_or (translate_target (Z.to_nat t) line_map)
           (error "unmappable-branch" "Branch target has no generated destination." (shown_line o));
         let adjusted := if is_relative_branch m then Z.of_nat generated_target - Z.of_nat g else Z.of_nat generated_target in
         if adjusted =? to_i64 value then Ok (o, Untouched)
         else text ← replace_last_token (concat_strings cs) token (show adjusted);
              Ok (with_last_operand text (show adjusted) o, if is_relative_branch m then AdjustedRelative else AdjustedAbsolute)) ≠ Panic) as Hrest.
  { intros t. destruct (_ || _); [done|]. destruct (translate_target _ _) as [gt|]; [|done]. cbn. destruct (_ =? _); [done|].
    set (z := if is_relative_branch m then _ else _). destruct (replace_last_total cs (mn :: init) token (show z) Hcs Hend) as [text ->]. done. }
  destruct (is_relative_branch m); [destruct (_ && _)|]; apply Hrest.
Qed.

Lemma fold_line_map_Err n output (e : BuildError) : generated_line_map n output ≠ Err e.
Proof.
  unfold generated_line_map. generalize (replicate n (@None nat)). induction (enumerate output) as [|[g o] l IH]; intros acc; [done|].
  cbn [fold_outcome]. destruct (_ <? _)%nat; [apply IH|done].
Qed.

Lemma replace_last_token_Err source old new e : replace_last_token source old new ≠ Err e.
Proof. unfold replace_last_token, slice_from. by destruct (_ && _). Qed.

(** Every refused branch is one diagnostic. *)
Lemma adjust_branch_Err `{Build} document n replaced line_map topology g o e :
  adjust_branch document n replaced line_map topology g o = Err e → ∃ d, be_diagnostics e = [d].
Proof.
  unfold adjust_branch. destruct (ol_mnemonic o); [|done]. destruct (negb _ && _); [done|]. destruct (last _); [|done].
  destruct (_ && names_label _ _ _ _); [done|]. destruct (whole_literal _).
  - unfold adjust_literal. intros He.
    destruct (if is_relative_branch _ then add_i64 _ _ else _) as [t|e'|] eqn:Ht; cbn [mbind outcome_mbind outcome_bind] in He; [| |discriminate He].
    2: { revert Ht. unfold add_i64, on_overflow. destruct (is_relative_branch _); [destruct (_ && _); [done|]; by destruct overflow_checks|done]. }
    cbn [mbind outcome_mbind outcome_bind] in He. destruct (_ || _); [injection He as <-; by eexists|].
    destruct (translate_target _ _); [|injection He as <-; by eexists]. cbn [mbind outcome_mbind outcome_bind ok_or] in He.
    destruct (_ =? _); [discriminate He|]. destruct (replace_last_token _ _ _) as [text|e'|] eqn:Hr; cbn [mbind outcome_mbind outcome_bind] in He; [discriminate He| |discriminate He].
    by apply replace_last_token_Err in Hr.
  - destruct topology; [|done]. intros [= <-]. by eexists.
Qed.

Lemma finish_bounds sha source code lines options kb counts :
  match finish sha source code lines options kb counts with
  | Ok b => bu_code b = code ∧ br_generated_lines (bu_report b) = line_count code
      ∧ Z.of_nat (line_count code) ≤ ar_maximum_program_lines (la_architecture (kb_language kb))
      ∧ br_saved_bytes (bu_report b) = slen source - slen code ∧ bm_source_sha256 (bu_metadata b) = sha source
  | Err e => ar_maximum_program_lines (la_architecture (kb_language kb)) < Z.of_nat (line_count code)
      ∧ bd_code <$> be_diagnostics e = ["official-program-line-limit"]
  | Panic => False
  end.
Proof. unfold finish. destruct (_ <? _) eqn:Hlt; cbn; [split; [lia|done]|]. split_and!; try done. lia. Qed.

(** The part of a build after its checks. *)
Lemma build_no_panic `{Build} sha source options kb :
  overflow_checks = false → good_source source → bo_optimization options ≠ OptCompact → build sha source options kb ≠ Panic.
Proof.
  intros Hrelease Hgood Hopt. unfold build. destruct (filter_option _ _); [done|]. destruct (validation _); [|done].
  assert (∀ code lines counts, finish sha source code lines options kb counts ≠ Panic) as Hfinish.
  { intros code lines counts Hp. pose proof (finish_bounds sha source code lines options kb counts) as Hb. by rewrite Hp in Hb. }
  destruct (bool_decide _); [apply Hfinish|].
  assert (reduce (parse source kb) (source_lines source) (bo_optimization options)
    = Ok {| rd_output := kept_lines (parse source kb) (source_lines source); rd_replaced := ∅; rd_substituted_defines := 0;
            rd_replaced_labels := 0; rd_shortened_aliases := 0 |}) as -> by (by destruct (bo_optimization options)).
  cbn [mbind outcome_mbind outcome_bind]. unfold adjust_branches. cbn [rd_output rd_replaced].
  destruct (kept_lines_sources source kb Hgood) as (Hsort & Hlt & Hin). set (output := kept_lines _ _) in *.
  destruct (generated_line_map_spec (E:=BuildError) (length (source_lines source)) output Hsort Hlt) as (m & -> & _).
  cbn [mbind outcome_mbind outcome_bind].
  destruct (map_outcome _ _) as [adjusted|e|] eqn:Hmap; [apply Hfinish|done|]. exfalso. revert Hmap.
  apply map_outcome_no_panic. intros [g o] Hgo. apply list_elem_of_lookup in Hgo as (i & Hi). rewrite lookup_enumerate in Hi.
  apply fmap_Some in Hi as (o' & Hi & [= -> ->]). destruct (proj1 (Hin o')) as (t & Ht & Hkept); [by eapply list_elem_of_lookup_2|].
  eapply adjust_branch_no_panic; [done|]. eapply kept_text_reads; [|exact Hkept].
  pose proof (good_source_lines _ Hgood) as Hl. rewrite Forall_lookup in Hl. apply (Hl (ol_source_line o')).
  rewrite line_texts_source. by apply lookup_app_l_Some.
Qed.

(** C39.  How a release build of the tool ends when it does not compact.  A wrong game version is refused before anything else,
    then the errors of the document are returned as they are, but for the line
    limit; otherwise a build that is not compact does not panic, and one that succeeds
    keeps the line limit of the game and reports its own size. *)
Theorem build_outcomes `{Build} (sha : string → string) (source : string) (options : BuildOptions) (kb : KnowledgeBase) :
  overflow_checks = false → good_source source → bo_optimization options ≠ OptCompact →
  let version := la_game_version (kb_language kb) in
  let maximum := ar_maximum_program_lines (la_architecture (kb_language kb)) in
  match build sha source options kb with
  | Ok b =>
      (bo_game_version options = None ∨ bo_game_version options = Some version)
      ∧ (∀ d, d ∈ do_diagnostics (parse source kb) → di_severity d = SevError → di_code d = "program-line-limit")
      ∧ Z.of_nat (line_count (bu_code b)) ≤ maximum ∧ br_generated_lines (bu_report b) = line_count (bu_code b)
      ∧ br_saved_bytes (bu_report b) = slen source - slen (bu_code b)
  | Err e =>
      if bool_decide (bo_game_version options = None ∨ bo_game_version options = Some version) then
        match validation (parse source kb) with
        | [] => ∃ d, be_diagnostics e = [d]
        | errors => be_diagnostics e = errors
        end
      else bd_code <$> be_diagnostics e = ["game-version-mismatch"]
  | Panic => False
  end.
Proof.
  intros Hrelease Hgood Hopt version maximum.
  pose proof (build_no_panic sha source options kb Hrelease Hgood Hopt) as Hnp. unfold build in *. fold version in Hnp |- *.
  destruct (filter_option _ _) as [v|] eqn:Hversion.
  { rewrite bool_decide_eq_false_2; [done|]. unfold filter_option in Hversion.
    destruct (bo_game_version options) as [w|]; [|done]. destruct (String.eqb_spec w version); [done|]. naive_solver. }
  assert (bo_game_version options = None ∨ bo_game_version options = Some version) as Hsame.
  { unfold filter_option in Hversion. destruct (bo_game_version options) as [w|]; [|by left].
    destruct (String.eqb_spec w version) as [Heq|]; [right; by rewrite Heq|done]. }
  rewrite (bool_decide_eq_true_2 (_ ∨ _)) by done. destruct (validation (parse source kb)) as [|d ds] eqn:Hvalid; [|done].
  assert (∀ d, d ∈ do_diagnostics (parse source kb) → di_severity d = SevError → di_code d = "program-line-limit") as Hclean.
  { intros d Hd Hsev. destruct (String.eqb_spec (di_code d) "program-line-limit") as [|Hne]; [done|]. exfalso.
    assert (∃ x, x ∈ validation (parse source kb)) as [x Hx]; [|rewrite Hvalid in Hx; by apply not_elem_of_nil in Hx].
    unfold validation. eexists. apply list_elem_of_omap. exists d. split; [done|].
    rewrite bool_decide_eq_true_2, (proj2 (String.eqb_neq _ _)) by done. reflexivity. }
  assert (∀ code lines counts,
    match finish sha source code lines options kb counts with
    | Ok b => (bo_game_version options = None ∨ bo_game_version options = Some version)
        ∧ (∀ d, d ∈ do_diagnostics (parse source kb) → di_severity d = SevError → di_code d = "program-line-limit")
        ∧ Z.of_nat (line_count (bu_code b)) ≤ maximum ∧ br_generated_lines (bu_report b) = line_count (bu_code b)
        ∧ br_saved_bytes (bu_report b) = slen source - slen (bu_code b)
    | Err e => ∃ d, be_diagnostics e = [d]
    | Panic => False
    end) as Hfinish.
  { intros code lines counts. pose proof (finish_bounds sha source code lines options kb counts) as Hb.
    destruct (finish _ _ _ _ _ _ _) as [b|e|]; [|destruct Hb as [_ Hb]; destruct (be_diagnostics e) as [|x [|]]; [done|by exists x|done]|done].
    destruct Hb as (-> & ? & ? & ? & _). by split_and!. }
  destruct (bool_decide (bo_optimization options = OptNone)); [apply Hfinish|].
  destruct (reduce _ _ _) as [r|e|] eqn:Hr; cbn [mbind outcome_mbind outcome_bind] in *; [|by destruct (bo_optimization options)|done].
  destruct (adjust_branches _ _ _) as [adjusted|e|] eqn:Ha; cbn [mbind outcome_mbind outcome_bind] in *; [apply Hfinish| |done].
  unfold adjust_branches in Ha. destruct (generated_line_map _ _) as [m|e'|] eqn:Hm; cbn in Ha; [| |done].
  - apply map_outcome_Err in Ha as ([g o] & Ha). by eapply adjust_branch_Err.
  - by apply fold_line_map_Err in Hm.
Qed.

Lemma build_outcomes_witness :
  let source := lines_of ["move r0 1"; "# x"; "j r0"] in
  match @build {| overflow_checks := false |} (λ _, "") source (options_at OptReadable) build_kb with
  | Err e => ∃ d, be_diagnostics e = [d]
  | _ => False
  end.
Proof.
  cbv zeta. set (source := lines_of _).
  pose proof (@build_outcomes {| overflow_checks := false |} (λ _, "") source (options_at OptReadable) build_kb eq_refl) as H.
  destruct (build (λ _, "") source (options_at OptReadable) build_kb) as [b|e|] eqn:Hb; [by vm_compute in Hb| |by vm_compute in Hb].
  apply H; [|done]. split; unfold lines_ok, quotes_closed; (set (l := line_texts _); vm_compute in l; subst l; check_lines).
Defined.

(** ** Programs a build changes *)

Definition quoted_text (s : string) : string := DQUOTE +:+ s +:+ DQUOTE.

(** What a build does to some programs that are free of errors.  A compact build
    writes a define into a quoted text and over a mnemonic of the same name, keeps the
    old name of a renamed alias in a define, removes a label that an absolute branch
    compares with, and takes the first of two values of a define where the compiler
    takes the last.  A readable build leaves the literal target of [bdse] as it was,
    and refuses a return through [ra] when a comment was removed. *)
Theorem build_changes_programs :
  built OptCompact ["define Limit 10"; "move r0 HASH(" +:+ quoted_text "Max Limit here" +:+ ")"; "yield"]
    = inl (["move r0 HASH(" +:+ quoted_text "Max 10 here" +:+ ")"; "yield"], [2; 3]%nat)
  ∧ built OptCompact ["define move 10"; "move r0 1"; "yield"] = inl (["10 r0 1"; "yield"], [2; 3]%nat)
  ∧ built OptCompact ["alias _x r0"; "define y _x"; "move y 3"; "yield"]
    = inl (["alias a0 r0"; "move _x 3"; "yield"], [1; 3; 4]%nat)
  ∧ built OptCompact ["go:"; "yield"; "beq go 0 5"; "yield"; "j go"; "yield"]
    = inl (["yield"; "beq go 0 4"; "yield"; "j 0"; "yield"], [2; 3; 4; 5; 6]%nat)
  ∧ built OptCompact ["define a 1"; "define a 2"; "move r0 a"; "yield"] = inl (["move r0 1"; "yield"], [3; 4]%nat)
  ∧ built OptReadable ["# c"; "bdse d0 3"; "hcf"; "yield"] = inl (["bdse d0 3"; "hcf"; "yield"], [2; 3; 4]%nat)
  ∧ built OptReadable ["# x"; "jal f"; "hcf"; "f:"; "j ra"] = inr (Some ("unsafe-absolute-branch", Some 5)).
Proof. split_and!; vm_compute; reflexivity. Qed.
