(* ===== verification/Cpu.v ===== *)
(** * A CPU

    [crates/ic10-sim/src/simulator.rs]: the state of one IC10 processor, its recorded accesses, and
    the resolution of register names and operands.  A CPU owns a journal that a
    step configures and empties; an access through a shared reference still writes
    to it, so every access is a state transformer here. *)

From S2P Require Import Prelude BTree Text F64 Knowledge Literals Journal Program.
Local Open Scope string_scope.
Local Open Scope Z_scope.

Definition RETURN_ADDRESS_REGISTER : nat := 16.
Definition STACK_POINTER_REGISTER : nat := 17.
Definition REGISTER_COUNT : nat := 18.
Definition STACK_SIZE : nat := 512.

(** Source: [crates/ic10-sim/src/simulator.rs] [CpuState] *)
Inductive CpuState :=
  | Ready
  | WaitingUntil (wake : Z)
  | Halted
  | Error.

(** Source: [crates/ic10-sim/src/simulator.rs] [Cpu] *)
Record Cpu := {
  cpu_id : string;
  program_id : string;
  cpu_name : string;
  housing : nat;
  program : Program;
  registers : list f64;
  stack : list f64;
  pins : list (option nat);
  pc : Z;
  state : CpuState;
  error : option message;
  operations_this_tick : Z;
  random_state : Z;
  cpu_journal : EffectJournal;
  journal_enabled : bool;
  journal_actor : EffectActor;
}.

Definition set_registers (v : list f64) (x : Cpu) : Cpu :=
  {| cpu_id := cpu_id x; program_id := program_id x; cpu_name := cpu_name x; housing := housing x; program := program x; registers := v; stack := stack x; pins := pins x; pc := pc x; state := state x; error := error x; operations_this_tick := operations_this_tick x; random_state := random_state x; cpu_journal := cpu_journal x; journal_enabled := journal_enabled x; journal_actor := journal_actor x |}.
Definition set_stack (v : list f64) (x : Cpu) : Cpu :=
  {| cpu_id := cpu_id x; program_id := program_id x; cpu_name := cpu_name x; housing := housing x; program := program x; registers := registers x; stack := v; pins := pins x; pc := pc x; state := state x; error := error x; operations_this_tick := operations_this_tick x; random_state := random_state x; cpu_journal := cpu_journal x; journal_enabled := journal_enabled x; journal_actor := journal_actor x |}.
Definition set_pc (v : Z) (x : Cpu) : Cpu :=
  {| cpu_id := cpu_id x; program_id := program_id x; cpu_name := cpu_name x; housing := housing x; program := program x; registers := registers x; stack := stack x; pins := pins x; pc := v; state := state x; error := error x; operations_this_tick := operations_this_tick x; random_state := random_state x; cpu_journal := cpu_journal x; journal_enabled := journal_enabled x; journal_actor := journal_actor x |}.
Definition set_state (v : CpuState) (x : Cpu) : Cpu :=
  {| cpu_id := cpu_id x; program_id := program_id x; cpu_name := cpu_name x; housing := housing x; program := program x; registers := registers x; stack := stack x; pins := pins x; pc := pc x; state := v; error := error x; operations_this_tick := operations_this_tick x; random_state := random_state x; cpu_journal := cpu_journal x; journal_enabled := journal_enabled x; journal_actor := journal_actor x |}.
Definition set_error (v : option message) (x : Cpu) : Cpu :=
  {| cpu_id := cpu_id x; program_id := program_id x; cpu_name := cpu_name x; housing := housing x; program := program x; registers := registers x; stack := stack x; pins := pins x; pc := pc x; state := state x; error := v; operations_this_tick := operations_this_tick x; random_state := random_state x; cpu_journal := cpu_journal x; journal_enabled := journal_enabled x; journal_actor := journal_actor x |}.
Definition set_operations_this_tick (v : Z) (x : Cpu) : Cpu :=
  {| cpu_id := cpu_id x; program_id := program_id x; cpu_name := cpu_name x; housing := housing x; program := program x; registers := registers x; stack := stack x; pins := pins x; pc := pc x; state := state x; error := error x; operations_this_tick := v; random_state := random_state x; cpu_journal := cpu_journal x; journal_enabled := journal_enabled x; journal_actor := journal_actor x |}.
Definition set_random_state (v : Z) (x : Cpu) : Cpu :=
  {| cpu_id := cpu_id x; program_id := program_id x; cpu_name := cpu_name x; housing := housing x; program := program x; registers := registers x; stack := stack x; pins := pins x; pc := pc x; state := state x; error := error x; operations_this_tick := operations_this_tick x; random_state := v; cpu_journal := cpu_journal x; journal_enabled := journal_enabled x; journal_actor := journal_actor x |}.
Definition set_cpu_journal (v : EffectJournal) (x : Cpu) : Cpu :=
  {| cpu_id := cpu_id x; program_id := program_id x; cpu_name := cpu_name x; housing := housing x; program := program x; registers := registers x; stack := stack x; pins := pins x; pc := pc x; state := state x; error := error x; operations_this_tick := operations_this_tick x; random_state := random_state x; cpu_journal := v; journal_enabled := journal_enabled x; journal_actor := journal_actor x |}.

(** Source: [crates/ic10-sim/src/simulator.rs] [actor_cpu] *)
Definition actor_cpu (actor : EffectActor) : nat :=
  match actor with ActorIc cpu _ _ => cpu | _ => 0%nat end.

(** Source: [crates/ic10-sim/src/simulator.rs] [cpu_state_bits] *)
Definition cpu_state_bits (state : CpuState) : Z :=
  match state with
  | Ready => 0
  | WaitingUntil tick => Z.lor (2 ^ 60) tick
  | Halted => 2
  | Error => 3
  end.

(** Source: [crates/ic10-sim/src/simulator.rs] [cpu_state_from_bits] *)
Definition cpu_state_from_bits (value : Z) : outcome message CpuState :=
  if value =? 0 then Ok Ready
  else if value =? 2 then Ok Halted
  else if value =? 3 then Ok Error
  else if negb (Z.land value (2 ^ 60) =? 0) then Ok (WaitingUntil (Z.ldiff value (2 ^ 60)))
  else Err [PS "invalid CPU state in trace effect"].

Abbreviation CM := (M Cpu message).

(** ** Recorded accesses *)

(** A journal entry of this CPU, when its journal is on. *)
Definition journaled (f : EffectActor → EffectJournal → EffectJournal) : CM () :=
  modify (λ c, if journal_enabled c
               then set_cpu_journal (f (journal_actor c) (cpu_journal c)) c else c).

(** Source: [crates/ic10-sim/src/simulator.rs] [read_register] *)
Definition read_register (index : nat) : CM f64 :=
  value ← get_or_panic (λ c, registers c !! index);
  _ ← journaled (λ actor,
        read actor (TRegister (actor_cpu actor) (wrap_u 8 (Z.of_nat index))) value);
  mret value.

(** Source: [crates/ic10-sim/src/simulator.rs] [Cpu::write_register] *)
Definition write_register_at (index : nat) (value : f64) : CM () :=
  before ← get_or_panic (λ c, registers c !! index);
  _ ← modify (λ c, set_registers (<[index := value]> (registers c)) c);
  journaled (λ actor,
    write actor (TRegister (actor_cpu actor) (wrap_u 8 (Z.of_nat index))) before value).

(** Source: [crates/ic10-sim/src/simulator.rs] [read_stack] *)
Definition read_stack (address : Z) : CM f64 :=
  value ← get_or_panic (λ c, stack c !! Z.to_nat address);
  _ ← journaled (λ actor, read actor (TStack (actor_cpu actor) (wrap_u 16 address)) value);
  mret value.

(** Source: [crates/ic10-sim/src/simulator.rs] [write_stack] *)
Definition write_stack (address : Z) (value : f64) : CM () :=
  before ← get_or_panic (λ c, stack c !! Z.to_nat address);
  _ ← modify (λ c, set_stack (<[Z.to_nat address := value]> (stack c)) c);
  journaled (λ actor, write actor (TStack (actor_cpu actor) (wrap_u 16 address)) before value).

(** Source: [crates/ic10-sim/src/simulator.rs] [write_pc] *)
Definition write_pc (value : Z) : CM () :=
  before ← gets pc;
  _ ← modify (set_pc value);
  journaled (λ actor, write_bits actor (TCpuPc (actor_cpu actor)) before value).

(** Source: [crates/ic10-sim/src/simulator.rs] [write_state] *)
Definition write_state (value : CpuState) : CM () :=
  before ← gets (λ c, cpu_state_bits (state c));
  _ ← modify (set_state value);
  journaled (λ actor, write_bits actor (TCpuState (actor_cpu actor)) before (cpu_state_bits value)).

(** Source: [crates/ic10-sim/src/simulator.rs] [write_random_state] *)
Definition write_random_state (value : Z) : CM () :=
  before ← gets random_state;
  _ ← modify (set_random_state value);
  journaled (λ actor, write_bits actor (TCpuRandom (actor_cpu actor)) before value).

(** Source: [crates/ic10-sim/src/simulator.rs] [configure_journal] *)
Definition configure_journal (enabled : bool) (actor : EffectActor) (c : Cpu) : Cpu :=
  let j := (take_batch (Journal.set_enabled enabled (cpu_journal c))).2 in
  {| cpu_id := cpu_id c; program_id := program_id c; cpu_name := cpu_name c; housing := housing c;
     program := program c; registers := registers c; stack := stack c; pins := pins c; pc := pc c;
     state := state c; error := error c; operations_this_tick := operations_this_tick c;
     random_state := random_state c; cpu_journal := j; journal_enabled := enabled;
     journal_actor := actor |}.

(** Source: [crates/ic10-sim/src/simulator.rs] [Cpu::take_effects] *)
Definition cpu_take_effects (c : Cpu) : EffectBatch * Cpu :=
  let '(batch, j) := take_batch (cpu_journal c) in (batch, set_cpu_journal j c).

(** Source: [crates/ic10-sim/src/simulator.rs] [current_operation] *)
Definition current_operation (c : Cpu) : option Operation := operation_at_or_after (program c) (pc c).

(** Source: [crates/ic10-sim/src/simulator.rs] [current_line] *)
Definition current_line (c : Cpu) : option Z := op_line <$> current_operation c.

(** ** Names of registers and values of operands *)

(** Source: [crates/ic10-sim/src/simulator.rs] [direct_register_index] *)
Definition direct_register_index (value : string) : option nat :=
  if String.eqb value "ra" then Some RETURN_ADDRESS_REGISTER
  else if String.eqb value "sp" then Some STACK_POINTER_REGISTER
  else
    index ← strip_prefix "r" value ≫= parse_usize;
    if index <? Z.of_nat REGISTER_COUNT then Some (Z.to_nat index) else None.

(** Source: [crates/ic10-sim/src/simulator.rs] [register_index] *)
Definition register_index (value : string) : CM nat :=
  value ← gets (λ c, resolve_alias (program c) value);
  match direct_register_index value with
  | Some index => mret index
  | None =>
      match strip_prefix "r" value ≫= direct_register_index with
      | Some base =>
          index ← read_register base;
          let index := to_i64 (f_trunc index) in
          if (0 <=? index) && (index <? Z.of_nat REGISTER_COUNT) then mret (Z.to_nat index)
          else throw [PS "indirect register index "; PZ index; PS " is out of range"]
      | None => throw [PS "`"; PS value; PS "` is not a register"]
      end
  end.

(** [cpu.program.resolve_number(source, knowledge)] *)
Definition cpu_resolve_number (kb : KnowledgeBase) (source : string) : CM f64 :=
  λ c, (resolve_number (program c) kb source, c).

(** Source: [crates/ic10-sim/src/simulator.rs] [value] *)
Definition value (kb : KnowledgeBase) (source : string) : CM f64 :=
  index ← attempt (register_index source);
  match index with
  | Some index => read_register index
  | None => cpu_resolve_number kb source
  end.

(** Source: [crates/ic10-sim/src/simulator.rs] [write_register] lines 2687-2691 *)
Definition write_register (target : string) (value : f64) : CM () :=
  index ← register_index target;
  write_register_at index value.

(** Source: [crates/ic10-sim/src/simulator.rs] [Cpu::register] *)
Definition register (name : string) : CM (option f64) :=
  match direct_register_index name with
  | Some index => value ← read_register index; mret (Some value)
  | None => mret None
  end.

(** Source: [crates/ic10-sim/src/simulator.rs] [Cpu::set_register] *)
Definition set_register (name : string) (value : f64) : CM () :=
  index ← lift (ok_or (direct_register_index name) [PS "unknown register `"; PS name; PS "`"]);
  write_register_at index value.

(** Source: [crates/ic10-sim/src/simulator.rs] [checked_address] *)
Definition checked_address (value : f64) (length : Z) (label : string) : outcome message Z :=
  if negb (f_is_finite value) || f_lt value f_zero
  then Err [PS "invalid "; PS label; PS " address "; PF value]
  else
    let address := to_usize (f_trunc value) in
    if length <=? address
    then Err [PS label; PS " address "; PZ address; PS " exceeds "; PZ (Z.max 0 (length - 1))]
    else Ok address.

Definition stack_len : CM Z := gets (λ c, Z.of_nat (length (stack c))).

(** Source: [crates/ic10-sim/src/simulator.rs] [stack_pointer] *)
Definition stack_pointer : CM Z :=
  pointer ← read_register STACK_POINTER_REGISTER;
  length ← stack_len;
  lift (checked_address pointer length "stack").

(** ** Well-formed CPUs *)

(** A CPU in a world of [nd] devices. *)
Record cpu_ok (nd : nat) (c : Cpu) : Prop := {
  cpu_ok_registers : length (registers c) = REGISTER_COUNT;
  cpu_ok_stack : length (stack c) = STACK_SIZE;
  cpu_ok_pins : length (pins c) = 6%nat ∧ Forall (λ p, ∀ d, p = Some d → (d < nd)%nat) (pins c);
  cpu_ok_housing : (housing c < nd)%nat;
}.

(** ** The values an access gives, without its journal *)

(** The register a name denotes in a state. *)
Definition register_index_of (c : Cpu) (value : string) : outcome message nat :=
  let value := resolve_alias (program c) value in
  match direct_register_index value with
  | Some index => Ok index
  | None =>
      match strip_prefix "r" value ≫= direct_register_index with
      | Some base =>
          index ← expect (registers c !! base);
          let index := to_i64 (f_trunc index) in
          if (0 <=? index) && (index <? Z.of_nat REGISTER_COUNT) then Ok (Z.to_nat index)
          else Err [PS "indirect register index "; PZ index; PS " is out of range"]
      | None => Err [PS "`"; PS value; PS "` is not a register"]
      end
  end.

(** The number an operand denotes in a state. *)
Definition value_of (kb : KnowledgeBase) (c : Cpu) (source : string) : outcome message f64 :=
  match register_index_of c source with
  | Ok index => expect (registers c !! index)
  | Err _ => resolve_number (program c) kb source
  | Panic => Panic
  end.

(** [m] gives [f] of the state and changes at most the journal. *)
Definition observes {A} (m : CM A) (f : Cpu → outcome message A) : Prop :=
  ∀ c, ∃ j, m c = (f c, set_cpu_journal j c).

Lemma set_cpu_journal_id c : set_cpu_journal (cpu_journal c) c = c.
Proof. by destruct c. Qed.

Lemma journaled_spec f c : ∃ j, journaled f c = (Ok (), set_cpu_journal j c).
Proof.
  unfold journaled, modify. destruct (journal_enabled c); [by eexists|].
  exists (cpu_journal c). by rewrite set_cpu_journal_id.
Qed.

(** Rewrites with the equation of a journaled write in the goal. *)
Ltac journaled_step :=
  match goal with |- context [journaled ?f ?c] =>
    let j := fresh "j" in destruct (journaled_spec f c) as [j ->] end.

Lemma observes_read_register index : observes (read_register index) (λ c, expect (registers c !! index)).
Proof.
  intros c. unfold read_register, mbind, M_mbind, get_or_panic.
  destruct (registers c !! index); cbv beta iota.
  - journaled_step. by eexists.
  - exists (cpu_journal c). by rewrite set_cpu_journal_id.
Qed.

Lemma observes_read_stack address :
  observes (read_stack address) (λ c, expect (stack c !! Z.to_nat address)).
Proof.
  intros c. unfold read_stack, mbind, M_mbind, get_or_panic.
  destruct (stack c !! Z.to_nat address); cbv beta iota.
  - journaled_step. by eexists.
  - exists (cpu_journal c). by rewrite set_cpu_journal_id.
Qed.

Lemma observes_register_index s : observes (register_index s) (λ c, register_index_of c s).
Proof.
  intros c. unfold register_index, register_index_of, mbind, M_mbind, gets; simpl.
  destruct (direct_register_index _); [exists (cpu_journal c); by rewrite set_cpu_journal_id|].
  match goal with |- context [match ?x with Some _ => _ | None => throw _ end] => destruct x as [base|] end;
    [|exists (cpu_journal c); by rewrite set_cpu_journal_id].
  destruct (observes_read_register base c) as [j ->].
  destruct (registers c !! base) as [x|]; simpl; [|by exists j].
  destruct (_ && _); by exists j.
Qed.

Lemma observes_value kb s : observes (value kb s) (λ c, value_of kb c s).
Proof.
  intros c. unfold value, value_of, mbind, M_mbind, attempt.
  destruct (observes_register_index s c) as [j ->].
  destruct (register_index_of c s) as [index| |]; simpl; [|by exists j..].
  destruct (observes_read_register index (set_cpu_journal j c)) as [j' ->]. by exists j'.
Qed.

Lemma observes_stack_pointer :
  observes stack_pointer (λ c,
    pointer ← expect (registers c !! STACK_POINTER_REGISTER);
    checked_address pointer (Z.of_nat (length (stack c))) "stack").
Proof.
  intros c. unfold stack_pointer, stack_len, gets, lift, mbind, M_mbind.
  destruct (observes_read_register STACK_POINTER_REGISTER c) as [j ->].
  destruct (registers c !! STACK_POINTER_REGISTER); simpl; by exists j.
Qed.

Lemma write_register_at_spec index x c :
  (index < length (registers c))%nat →
  ∃ j, write_register_at index x c =
       (Ok (), set_cpu_journal j (set_registers (<[index := x]> (registers c)) c)).
Proof.
  intros [before Hb]%lookup_lt_is_Some_2.
  unfold write_register_at, mbind, M_mbind, get_or_panic, modify. rewrite Hb. apply journaled_spec.
Qed.

Lemma write_stack_spec address x c :
  (Z.to_nat address < length (stack c))%nat →
  ∃ j, write_stack address x c =
       (Ok (), set_cpu_journal j (set_stack (<[Z.to_nat address := x]> (stack c)) c)).
Proof.
  intros [before Hb]%lookup_lt_is_Some_2.
  unfold write_stack, mbind, M_mbind, get_or_panic, modify. rewrite Hb. apply journaled_spec.
Qed.

Lemma write_pc_spec v c : ∃ j, write_pc v c = (Ok (), set_cpu_journal j (set_pc v c)).
Proof. unfold write_pc, mbind, M_mbind, gets, modify. apply journaled_spec. Qed.

Lemma write_state_spec v c : ∃ j, write_state v c = (Ok (), set_cpu_journal j (set_state v c)).
Proof. unfold write_state, mbind, M_mbind, gets, modify. apply journaled_spec. Qed.

Lemma write_random_state_spec v c :
  ∃ j, write_random_state v c = (Ok (), set_cpu_journal j (set_random_state v c)).
Proof. unfold write_random_state, mbind, M_mbind, gets, modify. apply journaled_spec. Qed.

(** ** Accesses keep a CPU well formed *)

Lemma direct_register_index_lt s i : direct_register_index s = Some i → (i < REGISTER_COUNT)%nat.
Proof.
  unfold direct_register_index, RETURN_ADDRESS_REGISTER, STACK_POINTER_REGISTER, REGISTER_COUNT.
  repeat case_match; [intros [= <-]; lia..|].
  intros Hi. apply bind_Some in Hi as (z & Hz & Hi).
  apply bind_Some in Hz as (r & _ & Hz%parse_unsigned_range).
  destruct (Z.ltb_spec z (Z.of_nat 18)); [|done]. injection Hi as <-. lia.
Qed.

Lemma register_index_of_lt c s i : register_index_of c s = Ok i → (i < REGISTER_COUNT)%nat.
Proof.
  unfold register_index_of. destruct (direct_register_index _) eqn:E.
  - intros [= <-]. by eapply direct_register_index_lt.
  - case_match; [|done]. intros Hi. outcome_inv. subst i.
    match goal with H : _ && _ = true |- _ => apply andb_prop in H as [? ?] end.
    unfold REGISTER_COUNT in *. lia.
Qed.

Lemma register_index_of_no_panic c s :
  length (registers c) = REGISTER_COUNT → register_index_of c s ≠ Panic.
Proof.
  intros Hl. unfold register_index_of. destruct (direct_register_index _); [done|].
  case_match eqn:E; [|done]. apply bind_Some in E as (r & _ & Hr%direct_register_index_lt).
  rewrite <-Hl in Hr. apply lookup_lt_is_Some_2 in Hr as [x ->]. simpl. by case_match.
Qed.

Lemma value_of_no_panic kb c s :
  length (registers c) = REGISTER_COUNT → value_of kb c s ≠ Panic.
Proof.
  intros Hl. unfold value_of. destruct (register_index_of c s) as [i|e|] eqn:E.
  - apply register_index_of_lt in E. rewrite <-Hl in E.
    by apply lookup_lt_is_Some_2 in E as [x ->].
  - apply resolve_number_no_panic.
  - by apply register_index_of_no_panic in E.
Qed.

Lemma checked_address_Ok v len label a :
  checked_address v len label = Ok a → 0 ≤ a < len.
Proof.
  unfold checked_address. intros H. outcome_inv.
  match goal with H : (_ <=? _) = false |- _ => apply Z.leb_gt in H end. subst a.
  pose proof (to_usize_nonneg (f_trunc v)). lia.
Qed.

Lemma checked_address_no_panic v len label : checked_address v len label ≠ Panic.
Proof. unfold checked_address. by repeat case_match. Qed.

Section safety.
Context (nd : nat).
Local Abbreviation ok := (cpu_ok nd).

Lemma cpu_ok_set_cpu_journal j c : ok c → ok (set_cpu_journal j c).
Proof. by intros [? ? ? ?]. Qed.

Lemma safe_observes {A} (m : CM A) f (Q : A → Prop) :
  observes m f → (∀ c, ok c → match f c with Ok a => Q a | Err _ => True | Panic => False end) →
  safe ok m Q.
Proof.
  intros Hm Hf c Hc. destruct (Hm c) as [j ->]. specialize (Hf c Hc).
  destruct (f c); simpl; [split; [|done]|..]; try done; by apply cpu_ok_set_cpu_journal.
Qed.

Lemma safe_read_register i : (i < REGISTER_COUNT)%nat → safe ok (read_register i) any.
Proof.
  intros Hi. eapply safe_observes; [apply observes_read_register|]. intros c Hc.
  rewrite <-(cpu_ok_registers _ _ Hc) in Hi. by apply lookup_lt_is_Some_2 in Hi as [x ->].
Qed.

Lemma safe_read_stack a : 0 ≤ a < Z.of_nat STACK_SIZE → safe ok (read_stack a) any.
Proof.
  intros Ha. eapply safe_observes; [apply observes_read_stack|]. intros c Hc.
  assert (Z.to_nat a < length (stack c))%nat as H by (rewrite (cpu_ok_stack _ _ Hc); lia).
  by apply lookup_lt_is_Some_2 in H as [x ->].
Qed.

Lemma safe_register_index s : safe ok (register_index s) (λ i, i < REGISTER_COUNT)%nat.
Proof.
  eapply safe_observes; [apply observes_register_index|]. intros c Hc.
  destruct (register_index_of c s) eqn:E; [by eapply register_index_of_lt|done|].
  by apply register_index_of_no_panic in E; [|apply (cpu_ok_registers _ _ Hc)].
Qed.

Lemma safe_value kb s : safe ok (value kb s) any.
Proof.
  eapply safe_observes; [apply observes_value|]. intros c Hc.
  destruct (value_of kb c s) eqn:E; [done..|].
  by apply value_of_no_panic in E; [|apply (cpu_ok_registers _ _ Hc)].
Qed.

Lemma safe_stack_pointer : safe ok stack_pointer (λ a, 0 ≤ a < Z.of_nat STACK_SIZE).
Proof.
  eapply safe_observes; [apply observes_stack_pointer|]. intros c Hc.
  assert (STACK_POINTER_REGISTER < length (registers c))%nat as H
    by (rewrite (cpu_ok_registers _ _ Hc); unfold STACK_POINTER_REGISTER, REGISTER_COUNT; lia).
  apply lookup_lt_is_Some_2 in H as [x ->]. simpl.
  destruct (checked_address _ _ _) eqn:E; [|done|by apply checked_address_no_panic in E].
  apply checked_address_Ok in E. by rewrite (cpu_ok_stack _ _ Hc) in E.
Qed.

Lemma safe_cpu_resolve_number kb s : safe ok (cpu_resolve_number kb s) any.
Proof.
  intros c Hc. unfold cpu_resolve_number.
  destruct (resolve_number (program c) kb s) eqn:E; [done..|].
  by apply resolve_number_no_panic in E.
Qed.

Lemma safe_write_register_at i x : (i < REGISTER_COUNT)%nat → safe ok (write_register_at i x) any.
Proof.
  intros Hi c Hc. destruct Hc as [H1 H2 H3 H4].
  destruct (write_register_at_spec i x c) as [j ->]; [lia|].
  split; [|done]. constructor; simpl; [by rewrite length_insert|done..].
Qed.

Lemma safe_write_register s x : safe ok (write_register s x) any.
Proof.
  unfold write_register. eapply safe_bind; [apply safe_register_index|].
  intros i Hi. by apply safe_write_register_at.
Qed.

Lemma safe_write_stack a x : 0 ≤ a < Z.of_nat STACK_SIZE → safe ok (write_stack a x) any.
Proof.
  intros Ha c Hc. destruct Hc as [H1 H2 H3 H4].
  destruct (write_stack_spec a x c) as [j ->]; [lia|].
  split; [|done]. constructor; simpl; [done|by rewrite length_insert|done..].
Qed.

Lemma safe_write_pc v : safe ok (write_pc v) any.
Proof. intros c [? ? ? ?]. destruct (write_pc_spec v c) as [j ->]. by split. Qed.

Lemma safe_write_state v : safe ok (write_state v) any.
Proof. intros c [? ? ? ?]. destruct (write_state_spec v c) as [j ->]. by split. Qed.

Lemma safe_write_random_state v : safe ok (write_random_state v) any.
Proof. intros c [? ? ? ?]. destruct (write_random_state_spec v c) as [j ->]. by split. Qed.

Lemma safe_stack_len : safe ok stack_len (λ n, n = Z.of_nat STACK_SIZE).
Proof. apply safe_gets. intros c Hc. by rewrite (cpu_ok_stack _ _ Hc). Qed.
End safety.

#[export] Hint Resolve safe_value safe_write_register safe_write_pc safe_write_state
  safe_write_random_state safe_register_index safe_stack_pointer safe_cpu_resolve_number
  safe_stack_len : sim.
