(* ===== verification/Construct.v ===== *)
(** * Construction of processors

    [crates/ic10-sim/src/simulator.rs], [from_scenario_with_lua_library_paths]: the
    processor of a device, from its specification, the world and its compiled
    program: initial registers and stack, and pins, which must lead to devices on
    the data cable of the housing.  Reading and compiling the program is done by the
    caller. *)

From S2P Require Import Prelude BTree Text F64 Knowledge Literals Journal Scenario World Program Cpu.
Local Open Scope string_scope.
Local Open Scope Z_scope.

(** Entries of an optional processor specification. *)
Definition ic_entries {V} (field : IcSpec → BTreeMap string V) (ic : option IcSpec) : BTreeMap string V :=
  match ic with Some ic => field ic | None => [] end.

(** Source: [crates/ic10-sim/src/simulator.rs] [from_scenario_with_lua_library_paths] lines 537-546 *)
Definition build_registers (id : string) (ic : option IcSpec) : outcome message (list f64) :=
  fold_outcome (λ registers '(register, value),
      index ← ok_or (direct_register_index register)
        [PS "IC `"; PS id; PS "` has invalid register `"; PS register; PS "`"];
      value ← scalar_as_f64 value;
      Ok (<[index := value]> registers))
    (repeat f_zero REGISTER_COUNT) (ic_entries sic_registers ic).

(** Source: [crates/ic10-sim/src/simulator.rs] [from_scenario_with_lua_library_paths] lines 547-563 *)
Definition build_stack (id : string) (ic : option IcSpec) : outcome message (list f64) :=
  fold_outcome (λ stack '(address, value),
      address ← ok_or (parse_usize address)
        [PS "IC `"; PS id; PS "` has invalid stack address `"; PS address; PS "`"];
      if Z.of_nat STACK_SIZE <=? address
      then Err [PS "IC `"; PS id; PS "` stack address "; PZ address; PS " exceeds ";
                PZ (Z.of_nat STACK_SIZE - 1)]
      else value ← scalar_as_f64 value; Ok (<[Z.to_nat address := value]> stack))
    (repeat f_zero STACK_SIZE) (ic_entries sic_stack ic).

(** A connection whose type names data. *)
Definition is_data_connection (connection : DeviceConnection) : bool :=
  match as_str (dc_connection_type connection) with
  | Some value => str_contains "data" (to_ascii_lowercase value)
  | None => false
  end.

(** The networks the data connections of a device lead to, in order. *)
Definition data_networks (metadata : DeviceData) (d : Device) : list nat :=
  omap (λ '(index, connection),
    if is_data_connection connection then bt_get (Z.of_nat index) (connections d) else None)
    (enumerate (dd_connections metadata)).

(** A cable network that carries data. *)
Definition carries_data (network : Network) : bool :=
  eq_ignore_ascii_case (kind network) "cable" && is_one_of (cable_role network) ["data"; "powerAndData"].

(** Source: [crates/ic10-sim/src/simulator.rs] [from_scenario_with_lua_library_paths] lines 573-589 *)
Definition housing_data_network (w : World) (metadata : DeviceData) (housing : Device) : outcome message (option nat) :=
  fold_outcome (λ found network,
      match found with
      | Some _ => Ok found
      | None => n ← expect (networks w !! network); Ok (if carries_data n then Some network else None)
      end) None (data_networks metadata housing).

(** [pin.strip_prefix('d')..filter(|value| *value < 6)] *)
Definition pin_index (pin : string) : option nat :=
  match strip_prefix "d" pin ≫= parse_usize with
  | Some value => if value <? 6 then Some (Z.to_nat value) else None
  | None => None
  end.

(** One pin.
    Source: [crates/ic10-sim/src/simulator.rs] [from_scenario_with_lua_library_paths] lines 590-639 *)
Definition build_pin (kb : KnowledgeBase) (w : World) (id : string) (data_network : option nat)
    (pins : list (option nat)) (entry : string * string) : outcome message (list (option nat)) :=
  let '(pin, device) := entry in
  index ← ok_or (pin_index pin) [PS "IC `"; PS id; PS "` has invalid pin `"; PS pin; PS "`"];
  target ← ok_or (device_index device w)
    [PS "IC `"; PS id; PS "` pin `"; PS pin; PS "` references unknown device `"; PS device; PS "`"];
  data_network ← ok_or data_network
    [PS "IC `"; PS id; PS "` pin `"; PS pin;
     PS "` cannot be assigned because the housing has no data cable connection"];
  d ← expect (devices w !! target);
  metadata ← ok_or (device_by_name kb (prefab d)) [PS "missing metadata for pinned device `"; PS device; PS "`"];
  if negb (bool_decide (data_network ∈ data_networks metadata d))
  then Err [PS "IC `"; PS id; PS "` pin `"; PS pin; PS "` references `"; PS device;
            PS "`, which is not on the housing's data cable"]
  else Ok (<[index := Some target]> pins).

(** The random state of a processor before any seed. *)
Definition initial_random_state (housing : nat) : Z := Z.lxor 11400714819323198485 (wrap_u 64 (Z.of_nat housing + 1)).

(** Source: [crates/ic10-sim/src/simulator.rs] [from_scenario_with_lua_library_paths] lines 535-661 *)
Definition build_cpu (kb : KnowledgeBase) (w : World) (specification : DeviceSpec) (ic : option IcSpec)
    (program_id : string) (program : Program) : outcome message Cpu :=
  let id := sp_id specification in
  housing ← ok_or (device_index id w) [PS "missing IC housing"];
  registers ← build_registers id ic;
  stack ← build_stack id ic;
  d ← expect (devices w !! housing);
  metadata ← ok_or (device_by_name kb (prefab d)) [PS "missing metadata for IC housing `"; PS id; PS "`"];
  data_network ← housing_data_network w metadata d;
  pins ← fold_outcome (build_pin kb w id data_network) (repeat None 6) (ic_entries sic_pins ic);
  Ok {| cpu_id := id; program_id := program_id; cpu_name := dev_name d; housing := housing; program := program;
        registers := registers; stack := stack; pins := pins; pc := 0;
        state := if match ic with Some ic => sic_enabled ic | None => true end then Ready else Halted;
        error := None; operations_this_tick := 0; random_state := initial_random_state housing;
        cpu_journal := journal_default; journal_enabled := false; journal_actor := ActorScheduler |}.

(** ** A built processor is well formed *)

Lemma fold_outcome_length {E A B} (step : list A → B → outcome E (list A)) acc l r :
  (∀ a b a', step a b = Ok a' → length a' = length a) → fold_outcome step acc l = Ok r → length r = length acc.
Proof.
  intros Hstep. apply (fold_outcome_ind (λ a, length a = length acc)); [|done].
  intros a b a' _ Ha Hb. rewrite <-Ha. by eapply Hstep.
Qed.

Lemma build_registers_length id ic r : build_registers id ic = Ok r → length r = REGISTER_COUNT.
Proof.
  intros Hr. etransitivity; [eapply fold_outcome_length; [|exact Hr]|reflexivity].
  intros a [register value] a' Hstep. outcome_inv. subst a'. apply length_insert.
Qed.

Lemma build_stack_length id ic r : build_stack id ic = Ok r → length r = STACK_SIZE.
Proof.
  intros Hr. etransitivity; [eapply fold_outcome_length; [|exact Hr]|apply repeat_length].
  intros a [address value] a' Hstep. outcome_inv. subst a'. apply length_insert.
Qed.

(** A network that a device with metadata [m] reaches by a data connection. *)
Definition on_data_network (kb : KnowledgeBase) (w : World) (network device : nat) : Prop :=
  ∃ d m, devices w !! device = Some d ∧ device_by_name kb (prefab d) = Some m ∧ network ∈ data_networks m d.

Lemma housing_data_network_spec w m d network :
  housing_data_network w m d = Ok (Some network) →
  network ∈ data_networks m d ∧ ∃ n, networks w !! network = Some n ∧ carries_data n = true.
Proof.
  unfold housing_data_network. intros Hf.
  assert (∀ l, (∀ x, x ∈ l → x ∈ data_networks m d) → ∀ acc,
    (∀ x, acc = Some x → x ∈ data_networks m d ∧ ∃ n, networks w !! x = Some n ∧ carries_data n = true) →
    ∀ r, fold_outcome (λ found network, match found with
      | Some _ => Ok found
      | None => n ← expect (networks w !! network); Ok (if carries_data n then Some network else None)
      end) acc l = Ok (E:=message) r →
    ∀ x, r = Some x → x ∈ data_networks m d ∧ ∃ n, networks w !! x = Some n ∧ carries_data n = true) as Hgen.
  { intros l Hl acc Hacc r. revert Hacc. apply (fold_outcome_ind (λ acc, ∀ x, acc = Some x → _)).
    intros a x a' Hx Ha Hstep. destruct a as [y|]; [by injection Hstep as <-|]. outcome_inv. subst a'.
    intros x' Hx'. destruct (carries_data _) eqn:Hc; [|done]. injection Hx' as <-. split; [by apply Hl|]. eauto. }
  eapply (Hgen (data_networks m d)); [done| |exact Hf|done]. done.
Qed.

(** A pin that is set leads to a device with a data connection to the network. *)
Definition pins_ok (kb : KnowledgeBase) (w : World) (data_network : option nat) (pins : list (option nat)) : Prop :=
  length pins = 6%nat
  ∧ ∀ i target, pins !! i = Some (Some target) →
      ∃ network, data_network = Some network ∧ on_data_network kb w network target.

Lemma build_pin_ok kb w id data_network pins entry pins' :
  pins_ok kb w data_network pins → build_pin kb w id data_network pins entry = Ok pins' →
  pins_ok kb w data_network pins'.
Proof.
  destruct entry as [pin device]. intros [Hlen Hp] Hb. unfold build_pin in Hb. outcome_inv. subst pins'.
  split; [by rewrite length_insert|]. intros i target Hi. apply list_lookup_insert_Some in Hi as [(_ & Ht & _)|[_ Hi]]; [|eauto].
  injection Ht as ->. eexists. split; [eassumption|].
  match goal with Hb : negb (bool_decide _) = false |- _ => apply negb_false_iff, bool_decide_eq_true in Hb end.
  by do 2 eexists.
Qed.

Lemma build_pins_ok kb w id data_network entries pins :
  fold_outcome (build_pin kb w id data_network) (repeat None 6) entries = Ok pins → pins_ok kb w data_network pins.
Proof.
  apply (fold_outcome_ind (pins_ok kb w data_network)).
  - intros a b a' _ Ha. by apply build_pin_ok.
  - split; [done|]. intros i target Hi. apply elem_of_list_lookup_2 in Hi || apply list_elem_of_lookup_2 in Hi.
    apply elem_of_repeat in Hi || apply list_elem_of_In, repeat_spec in Hi. done.
Qed.

Lemma build_cpu_spec (kb : KnowledgeBase) (w : World) (specification : DeviceSpec) (ic : option IcSpec)
    (program_id : string) (program : Program) (c : Cpu) :
  world_ok w → build_cpu kb w specification ic program_id program = Ok c →
  cpu_ok (length (devices w)) c
  ∧ (∃ d, devices w !! housing c = Some d ∧ dev_id d = sp_id specification ∧ cpu_name c = dev_name d)
  ∧ (∀ i target, pins c !! i = Some (Some target) →
       ∃ network n, on_data_network kb w network (housing c) ∧ on_data_network kb w network target
         ∧ networks w !! network = Some n ∧ carries_data n = true)
  ∧ pc c = 0 ∧ operations_this_tick c = 0 ∧ Cpu.program c = program.
Proof.
  intros Hw Hb. unfold build_cpu in Hb. outcome_inv. subst c. cbn [housing Cpu.pins pc operations_this_tick Cpu.program cpu_name].
  match goal with Hp : fold_outcome _ _ _ = Ok ?p |- _ => apply build_pins_ok in Hp as [Hlen Hpins] end.
  match goal with Hi : device_index _ _ = Some ?i |- _ =>
    apply (ok_device_ids _ Hw) in Hi as (d & Hd & Hid); rename i into h end.
  match goal with Hd' : devices w !! h = Some ?d' |- _ => assert (d' = d) as -> by congruence end.
  split_and!; [|by exists d| |done|done|done].
  - constructor; cbn [registers stack Cpu.pins housing].
    + by eapply build_registers_length.
    + by eapply build_stack_length.
    + split; [done|]. apply Forall_lookup. intros i p Hp target ->. destruct (Hpins _ _ Hp) as (n & _ & d' & m & Hd' & _).
      by eapply lookup_lt_Some.
    + by eapply lookup_lt_Some.
  - intros i target Hp. destruct (Hpins _ _ Hp) as (network & -> & Ht).
    match goal with Hn : housing_data_network _ _ _ = Ok (Some network) |- _ =>
      apply housing_data_network_spec in Hn as (Hin & n & Hn & Hc) end.
    exists network, n. split_and!; try done. by do 2 eexists.
Qed.

(** A processor that is built is well formed and starts at line 0 with nothing
    spent: it has all its registers and stack cells, its housing is its device, and
    every pin that is set leads to a device of the world that a data connection joins
    to a data network of the housing. *)
Theorem built_cpu_well_formed (kb : KnowledgeBase) (w : World) (specification : DeviceSpec) (ic : option IcSpec)
    (program_id : string) (program : Program) (c : Cpu) :
  world_ok w → build_cpu kb w specification ic program_id program = Ok c →
  cpu_ok (length (devices w)) c
  ∧ (∃ d, devices w !! housing c = Some d ∧ dev_id d = sp_id specification ∧ cpu_name c = dev_name d)
  ∧ (∀ i target, pins c !! i = Some (Some target) →
       ∃ network n, on_data_network kb w network (housing c) ∧ on_data_network kb w network target
         ∧ networks w !! network = Some n ∧ carries_data n = true)
  ∧ pc c = 0 ∧ operations_this_tick c = 0 ∧ Cpu.program c = program.
Proof. apply build_cpu_spec. Qed.

Definition pinned_ic : IcSpec :=
  {| sic_program := None; sic_enabled := true; sic_pins := [("d2", "a")]; sic_registers := [("r3", SText "1")];
     sic_stack := [("7", SNumber f_one)] |}.

Definition empty_program : Program :=
  {| source_path := ""; debug_source_path := ""; source := ""; operations := []; labels := []; defines := [];
     aliases := []; generated_to_source := [] |}.

Lemma built_cpu_well_formed_witness :
  match build_cpu sample_kb sample_world (sample_device "h" "Housing" None) (Some pinned_ic) "main" empty_program with
  | Ok c => pins c = [None; None; Some 1%nat; None; None; None] ∧ cpu_ok 3 c
            ∧ ∃ network, on_data_network sample_kb sample_world network 1
  | _ => False
  end.
Proof.
  destruct (build_cpu _ _ _ _ _ _) as [c| |] eqn:E; [|vm_compute in E; discriminate E..].
  destruct (built_cpu_well_formed _ _ _ _ _ _ c sample_world_ok E) as (Hc & _ & Hp & _).
  assert (pins c = [None; None; Some 1%nat; None; None; None]) as Hpins by (vm_compute in E; injection E as <-; reflexivity).
  split; [exact Hpins|]. split; [exact Hc|]. destruct (Hp 2%nat 1%nat) as (n & _ & _ & Hn & _); [by rewrite Hpins|].
  by exists n.
Defined.
