(* ===== verification/Exec.v ===== *)
(** * Execution of one instruction

    [crates/ic10-sim/src/simulator.rs], [execute_operation] and its helpers.  An
    instruction runs on a CPU, the world and the journal.  The part that only
    touches the CPU is a computation on [Cpu]; the rest runs on [Machine].  The
    [match] on the mnemonic is a chain of string tests, one definition per group of
    arms. *)

From S2P Require Import Prelude BTree Text F64 Knowledge Literals Journal Scenario World Program Cpu.
Local Open Scope string_scope.
Local Open Scope Z_scope.

(** [u64::rotate_left], [u64::rotate_right] *)
Definition rotate_left (x n : Z) : Z :=
  let n := n mod 64 in Z.lor (wrap_u 64 (Z.shiftl x n)) (Z.shiftr x (64 - n)).
Definition rotate_right (x n : Z) : Z := rotate_left x (64 - n mod 64).

Definition TICK_SECONDS : f64 := f_of_decimal false 5 (-1).

Definition operand (operands : list string) (n : nat) : CM string := lift (expect (operands !! n)).
Definition operand_value (kb : KnowledgeBase) (operands : list string) (n : nat) : CM f64 :=
  source ← operand operands n; value kb source.

(** ** Arithmetic *)

(** Source: [crates/ic10-sim/src/simulator.rs] [unary] *)
Definition unary (kb : KnowledgeBase) (operands : list string) (operation : f64 → f64) : CM () :=
  source ← operand_value kb operands 1;
  target ← operand operands 0;
  write_register target (operation source).

(** Source: [crates/ic10-sim/src/simulator.rs] [binary] *)
Definition binary (kb : KnowledgeBase) (operands : list string) (operation : f64 → f64 → f64) : CM () :=
  a ← operand_value kb operands 1;
  b ← operand_value kb operands 2;
  target ← operand operands 0;
  write_register target (operation a b).

(** Source: [crates/ic10-sim/src/simulator.rs] [bitwise_binary] *)
Definition bitwise_binary (kb : KnowledgeBase) (operands : list string) (operation : Z → Z → Z) : CM () :=
  a ← operand_value kb operands 1;
  let a := to_i64 a in
  b ← operand_value kb operands 2;
  let b := to_i64 b in
  target ← operand operands 0;
  write_register target (f_of_Z (operation a b)).

(** Source: [crates/ic10-sim/src/simulator.rs] [bool_value] *)
Definition bool_value (value : bool) : f64 := if value then f_one else f_zero.

(** Source: [crates/ic10-sim/src/simulator.rs] [selection_unary] *)
Definition selection_unary (kb : KnowledgeBase) (operands : list string) (condition : f64 → bool) : CM () :=
  source ← operand_value kb operands 1;
  target ← operand operands 0;
  write_register target (bool_value (condition source)).

(** Source: [crates/ic10-sim/src/simulator.rs] [selection_binary] *)
Definition selection_binary (kb : KnowledgeBase) (operands : list string) (condition : f64 → f64 → bool) : CM () :=
  a ← operand_value kb operands 1;
  b ← operand_value kb operands 2;
  target ← operand operands 0;
  write_register target (bool_value (condition a b)).

(** [f32::from_bits(1) as f64 * 8.0] *)
Definition smallest_gap : f64 := f_mul (binary_normalize PREC EMAX 1 (-149) false) (f_of_Z 8).

(** Source: [crates/ic10-sim/src/simulator.rs] [approximately] *)
Definition approximately (a b tolerance : f64) : bool :=
  f_le (f_abs (f_sub a b))
       (f_max (f_mul (f_abs tolerance) (f_max (f_abs a) (f_abs b))) smallest_gap).

Section tables.
Context `{Libm}.

(** [((a % b) + b) % b] *)
Definition f_mod (a b : f64) : f64 := f_rem (f_add (f_rem a b) b) b.

(** Source: [crates/ic10-sim/src/simulator.rs] [execute_operation] lines 1762-1770 *)
Definition binary_op (mnemonic : string) : option (f64 → f64 → f64) :=
  if String.eqb mnemonic "add" then Some f_add
  else if String.eqb mnemonic "sub" then Some f_sub
  else if String.eqb mnemonic "mul" then Some f_mul
  else if String.eqb mnemonic "div" then Some f_div
  else if String.eqb mnemonic "mod" then Some f_mod
  else if String.eqb mnemonic "max" then Some f_max
  else if String.eqb mnemonic "min" then Some f_min
  else if String.eqb mnemonic "pow" then Some f_powf
  else if String.eqb mnemonic "atan2" then Some f_atan2
  else None.

(** [sgn]: zero for NaN and for both zeros *)
Definition f_sgn (value : f64) : f64 :=
  if f_is_nan value || f_eq value f_zero then f_zero else f_signum value.

(** Source: [crates/ic10-sim/src/simulator.rs] [execute_operation] lines 1771-1791 *)
Definition unary_op (mnemonic : string) : option (f64 → f64) :=
  if String.eqb mnemonic "abs" then Some f_abs
  else if String.eqb mnemonic "acos" then Some f_acos
  else if String.eqb mnemonic "asin" then Some f_asin
  else if String.eqb mnemonic "atan" then Some f_atan
  else if String.eqb mnemonic "ceil" then Some f_ceil
  else if String.eqb mnemonic "cos" then Some f_cos
  else if String.eqb mnemonic "exp" then Some f_exp
  else if String.eqb mnemonic "floor" then Some f_floor
  else if String.eqb mnemonic "log" then Some f_ln
  else if String.eqb mnemonic "round" then Some f_round
  else if String.eqb mnemonic "sgn" then Some f_sgn
  else if String.eqb mnemonic "sin" then Some f_sin
  else if String.eqb mnemonic "sqrt" then Some f_sqrt
  else if String.eqb mnemonic "tan" then Some f_tan
  else if String.eqb mnemonic "trunc" then Some f_trunc
  else None.
End tables.

(** [and], [or], [xor], [nor] on [i64]
    Source: [crates/ic10-sim/src/simulator.rs] [execute_operation] lines 1819-1822 *)
Definition bitwise_op (mnemonic : string) : option (Z → Z → Z) :=
  if String.eqb mnemonic "and" then Some Z.land
  else if String.eqb mnemonic "or" then Some Z.lor
  else if String.eqb mnemonic "xor" then Some Z.lxor
  else if String.eqb mnemonic "nor" then Some (λ a b, Z.lnot (Z.lor a b))
  else None.

(** Source: [crates/ic10-sim/src/simulator.rs] [execute_operation] lines 1884-1889 *)
Definition selection_binary_op (mnemonic : string) : option (f64 → f64 → bool) :=
  if String.eqb mnemonic "seq" then Some f_eq
  else if String.eqb mnemonic "sne" then Some f_ne
  else if String.eqb mnemonic "sge" then Some f_ge
  else if String.eqb mnemonic "sgt" then Some f_gt
  else if String.eqb mnemonic "sle" then Some f_le
  else if String.eqb mnemonic "slt" then Some f_lt
  else None.

(** Source: [crates/ic10-sim/src/simulator.rs] [execute_operation] lines 1890-1897 *)
Definition selection_unary_op (mnemonic : string) : option (f64 → bool) :=
  if String.eqb mnemonic "seqz" then Some (λ a, f_eq a f_zero)
  else if String.eqb mnemonic "snez" then Some (λ a, f_ne a f_zero)
  else if String.eqb mnemonic "sgez" then Some (λ a, f_ge a f_zero)
  else if String.eqb mnemonic "sgtz" then Some (λ a, f_gt a f_zero)
  else if String.eqb mnemonic "slez" then Some (λ a, f_le a f_zero)
  else if String.eqb mnemonic "sltz" then Some (λ a, f_lt a f_zero)
  else if String.eqb mnemonic "snan" then Some f_is_nan
  else if String.eqb mnemonic "snanz" then Some (λ a, negb (f_is_nan a))
  else None.

(** Source: [crates/ic10-sim/src/simulator.rs] [execute_operation] lines 1761-1761 *)
Definition exec_move (kb : KnowledgeBase) (operands : list string) : CM () :=
  target ← operand operands 0;
  v ← operand_value kb operands 1;
  write_register target v.

(** Source: [crates/ic10-sim/src/simulator.rs] [execute_operation] lines 1792-1803 *)
Definition exec_clamp (kb : KnowledgeBase) (operands : list string) : CM () :=
  target ← operand operands 0;
  source ← operand_value kb operands 1;
  minimum ← operand_value kb operands 2;
  maximum ← operand_value kb operands 3;
  write_register target
    (if f_is_nan source || f_is_nan minimum || f_is_nan maximum then f_nan
     else f_min (f_max source minimum) maximum).

(** Source: [crates/ic10-sim/src/simulator.rs] [execute_operation] lines 1804-1809 *)
Definition exec_lerp (kb : KnowledgeBase) (operands : list string) : CM () :=
  a ← operand_value kb operands 1;
  b ← operand_value kb operands 2;
  ratio ← operand_value kb operands 3;
  let ratio := f_clamp ratio f_zero f_one in
  target ← operand operands 0;
  write_register target (f_add a (f_mul (f_sub b a) ratio)).

(** One step of the random stream. *)
Definition xorshift (random_state : Z) : Z :=
  let x := Z.lxor random_state (wrap_u 64 (Z.shiftl random_state 13)) in
  let x := Z.lxor x (Z.shiftr x 7) in
  Z.lxor x (wrap_u 64 (Z.shiftl x 17)).

(** Source: [crates/ic10-sim/src/simulator.rs] [execute_operation] lines 1810-1818 *)
Definition exec_rand (operands : list string) : CM () :=
  x ← gets random_state;
  let x := xorshift x in
  _ ← write_random_state x;
  let random := f_div (f_of_Z (Z.shiftr x 11)) (f_of_Z (2 ^ 53)) in
  target ← operand operands 0;
  write_register target random.

(** Source: [crates/ic10-sim/src/simulator.rs] [execute_operation] lines 1823-1826 *)
Definition exec_not (kb : KnowledgeBase) (operands : list string) : CM () :=
  source ← operand_value kb operands 1;
  target ← operand operands 0;
  write_register target (f_of_Z (Z.lnot (to_i64 source))).

(** The shifts and rotations: a source and a [u32] amount to a value.
    Source: [crates/ic10-sim/src/simulator.rs] [execute_operation] lines 1827-1851 *)
Definition shift_op (mnemonic : string) : option (f64 → f64 → f64) :=
  let amount v := Z.land (to_u32 v) 63 in
  if String.eqb mnemonic "sll" || String.eqb mnemonic "sla"
  then Some (λ source v, f_of_Z (wrap_i 64 (Z.shiftl (to_i64 source) (amount v))))
  else if String.eqb mnemonic "srl"
  then Some (λ source v, f_of_Z (Z.shiftr (to_u64 source) (amount v)))
  else if String.eqb mnemonic "sra"
  then Some (λ source v, f_of_Z (Z.shiftr (to_i64 source) (amount v)))
  else if String.eqb mnemonic "rol"
  then Some (λ source v, f_of_Z (wrap_i 64 (rotate_left (to_u64 source) (to_u32 v))))
  else if String.eqb mnemonic "ror"
  then Some (λ source v, f_of_Z (wrap_i 64 (rotate_right (to_u64 source) (to_u32 v))))
  else None.

(** [(1_u64 << length) - 1] *)
Definition low_mask (length : Z) : Z := Z.ones length.

Section bitfields.
Context `{Build}.

(** Source: [crates/ic10-sim/src/simulator.rs] [execute_operation] lines 1852-1862 *)
Definition exec_ext (kb : KnowledgeBase) (operands : list string) : CM () :=
  source ← operand_value kb operands 1;
  start ← operand_value kb operands 2;
  length ← operand_value kb operands 3;
  let length := Z.min (to_u32 length) 53 in
  let mask := if length =? 64 then U64_MAX else low_mask length in
  target ← operand operands 0;
  shifted ← lift (shr_u64 (to_u64 source) (to_u32 start));
  write_register target (f_of_Z (Z.land shifted mask)).

(** Source: [crates/ic10-sim/src/simulator.rs] [execute_operation] lines 1863-1874 *)
Definition exec_ins (kb : KnowledgeBase) (operands : list string) : CM () :=
  target ← operand operands 0;
  target_index ← register_index target;
  source ← operand_value kb operands 1;
  start ← operand_value kb operands 2;
  length ← operand_value kb operands 3;
  let start := to_u32 start in
  let length := Z.min (to_u32 length) 53 in
  field_mask ← lift (shl_u64 (low_mask length) start);
  old ← read_register target_index;
  let old := to_u64 old in
  shifted ← lift (shl_u64 (to_u64 source) start);
  write_register_at target_index
    (f_of_Z (Z.lor (Z.land old (Z.lxor field_mask U64_MAX)) (Z.land shifted field_mask))).
End bitfields.

(** Source: [crates/ic10-sim/src/simulator.rs] [execute_operation] lines 1875-1883 *)
Definition exec_select (kb : KnowledgeBase) (operands : list string) : CM () :=
  condition ← operand_value kb operands 1;
  selected ← (if f_ne condition f_zero then operand_value kb operands 2
              else operand_value kb operands 3);
  target ← operand operands 0;
  write_register target selected.

(** Source: [crates/ic10-sim/src/simulator.rs] [execute_operation] lines 1898-1912 *)
Definition exec_sap (kb : KnowledgeBase) (mnemonic : string) (operands : list string) : CM () :=
  a ← operand_value kb operands 1;
  b ← operand_value kb operands 2;
  tolerance ← operand_value kb operands 3;
  let equal := approximately a b tolerance in
  target ← operand operands 0;
  write_register target (bool_value (if String.eqb mnemonic "sap" then equal else negb equal)).

(** Source: [crates/ic10-sim/src/simulator.rs] [execute_operation] lines 1913-1926 *)
Definition exec_sapz (kb : KnowledgeBase) (mnemonic : string) (operands : list string) : CM () :=
  a ← operand_value kb operands 1;
  tolerance ← operand_value kb operands 2;
  let equal := approximately a f_zero tolerance in
  target ← operand operands 0;
  write_register target (bool_value (if String.eqb mnemonic "sapz" then equal else negb equal)).

(** ** Control flow *)

(** Source: [crates/ic10-sim/src/simulator.rs] [line_target] *)
Definition line_target (value : f64) : outcome message Z :=
  if negb (f_is_finite value) || f_lt value f_zero
  then Err [PS "invalid branch target "; PF value]
  else Ok (to_usize (f_trunc value)).

Section control.
Context `{Build}.

(** Source: [crates/ic10-sim/src/simulator.rs] [relative_target] *)
Definition relative_target (line : Z) (offset : f64) : outcome message Z :=
  if negb (f_is_finite offset)
  then Err [PS "invalid relative branch offset "; PF offset]
  else
    target ← add_i64 (wrap_i 64 line) (to_i64 (f_trunc offset));
    if target <? 0 then Err [PS "relative branch targets line "; PZ target]
    else Ok target.

(** Source: [crates/ic10-sim/src/simulator.rs] [branch_to] *)
Definition branch_to (operation : Operation) (target : f64) (relative link : bool) : CM () :=
  _ ← when link (write_register_at RETURN_ADDRESS_REGISTER (f_of_Z (op_line operation + 1)));
  target ← lift (if relative then relative_target (op_line operation) target else line_target target);
  write_pc target.

(** The branch condition of a comparison.
    Source: [crates/ic10-sim/src/simulator.rs] [execute_comparison_branch] lines 2279-2287 *)
Definition comparison_holds (comparison : string) (a b : f64) : bool :=
  if String.eqb comparison "beq" then f_eq a b
  else if String.eqb comparison "bne" then f_ne a b
  else if String.eqb comparison "bge" then f_ge a b
  else if String.eqb comparison "bgt" then f_gt a b
  else if String.eqb comparison "ble" then f_le a b
  else if String.eqb comparison "blt" then f_lt a b
  else false.

(** [br...] to [b...] *)
Definition absolute_name (mnemonic : string) : string :=
  match strip_prefix "br" mnemonic with Some relative => "b" +:+ relative | None => mnemonic end.

(** Source: [crates/ic10-sim/src/simulator.rs] [is_comparison_branch] *)
Definition is_comparison_branch (value : string) : bool :=
  is_one_of (absolute_name value)
    ["beq"; "beqal"; "beqz"; "beqzal"; "bne"; "bneal"; "bnez"; "bnezal";
     "bge"; "bgeal"; "bgez"; "bgezal"; "bgt"; "bgtal"; "bgtz"; "bgtzal";
     "ble"; "bleal"; "blez"; "blezal"; "blt"; "bltal"; "bltz"; "bltzal"].

(** Source: [crates/ic10-sim/src/simulator.rs] [execute_comparison_branch] *)
Definition execute_comparison_branch (kb : KnowledgeBase) (operation : Operation) : CM () :=
  let relative := starts_with "br" (mnemonic operation) in
  let name := absolute_name (mnemonic operation) in
  let link := ends_with "al" name in
  let base := default name (strip_suffix "al" name) in
  let zero := ends_with "z" base in
  let comparison := default base (strip_suffix "z" base) in
  a ← operand_value kb (operands operation) 0;
  '(b, target_index) ←
    (if zero then mret (f_zero, 1%nat)
     else b ← operand_value kb (operands operation) 1; mret (b, 2%nat));
  when (comparison_holds comparison a b)
    (target ← operand_value kb (operands operation) target_index;
     branch_to operation target relative link).

(** Source: [crates/ic10-sim/src/simulator.rs] [execute_operation] lines 1927-1937 *)
Definition exec_jump (kb : KnowledgeBase) (operation : Operation) : CM () :=
  let m := mnemonic operation in
  _ ← when (String.eqb m "jal")
        (write_register_at RETURN_ADDRESS_REGISTER (f_of_Z (op_line operation + 1)));
  target ← operand_value kb (operands operation) 0;
  target ← lift (if String.eqb m "jr" then relative_target (op_line operation) target
                 else line_target target);
  write_pc target.

(** Source: [crates/ic10-sim/src/simulator.rs] [execute_operation] lines 1941-1951 *)
Definition exec_bnan (kb : KnowledgeBase) (operation : Operation) : CM () :=
  a ← operand_value kb (operands operation) 0;
  when (f_is_nan a)
    (target ← operand_value kb (operands operation) 1;
     branch_to operation target (starts_with "br" (mnemonic operation)) false).

(** The taken branch of the approximate and the device branches: the target is
    the last operand. *)
Definition branch_last (kb : KnowledgeBase) (operation : Operation) : CM () :=
  source ← lift (expect (last (operands operation)));
  target ← value kb source;
  branch_to operation target (starts_with "br" (mnemonic operation)) (ends_with "al" (mnemonic operation)).

(** Source: [crates/ic10-sim/src/simulator.rs] [execute_operation] lines 1952-1972 *)
Definition exec_bap (kb : KnowledgeBase) (operation : Operation) : CM () :=
  a ← operand_value kb (operands operation) 0;
  b ← operand_value kb (operands operation) 1;
  tolerance ← operand_value kb (operands operation) 2;
  let equal := approximately a b tolerance in
  when (if str_contains "bna" (mnemonic operation) || String.eqb (mnemonic operation) "brna"
        then negb equal else equal)
    (branch_last kb operation).

(** Source: [crates/ic10-sim/src/simulator.rs] [execute_operation] lines 1973-1992 *)
Definition exec_bapz (kb : KnowledgeBase) (operation : Operation) : CM () :=
  a ← operand_value kb (operands operation) 0;
  tolerance ← operand_value kb (operands operation) 1;
  let equal := approximately a f_zero tolerance in
  when (if str_contains "bnaz" (mnemonic operation) || String.eqb (mnemonic operation) "brnaz"
        then negb equal else equal)
    (branch_last kb operation).
End control.

(** ** The stack *)

(** Source: [crates/ic10-sim/src/simulator.rs] [execute_operation] lines 1993-1998 *)
Definition exec_push (kb : KnowledgeBase) (operands : list string) : CM () :=
  address ← stack_pointer;
  v ← operand_value kb operands 0;
  _ ← write_stack address v;
  pointer ← read_register STACK_POINTER_REGISTER;
  write_register_at STACK_POINTER_REGISTER (f_add pointer f_one).

(** Source: [crates/ic10-sim/src/simulator.rs] [execute_operation] lines 1999-2004 *)
Definition exec_pop (operands : list string) : CM () :=
  pointer ← read_register STACK_POINTER_REGISTER;
  let pointer := f_sub pointer f_one in
  _ ← write_register_at STACK_POINTER_REGISTER pointer;
  length ← stack_len;
  address ← lift (checked_address pointer length "stack");
  target ← operand operands 0;
  v ← read_stack address;
  write_register target v.

(** Source: [crates/ic10-sim/src/simulator.rs] [execute_operation] lines 2005-2012 *)
Definition exec_peek (operands : list string) : CM () :=
  pointer ← read_register STACK_POINTER_REGISTER;
  length ← stack_len;
  address ← lift (checked_address (f_sub pointer f_one) length "stack");
  target ← operand operands 0;
  v ← read_stack address;
  write_register target v.

(** Source: [crates/ic10-sim/src/simulator.rs] [execute_operation] lines 2013-2020 *)
Definition exec_poke (kb : KnowledgeBase) (operands : list string) : CM () :=
  address ← operand_value kb operands 0;
  length ← stack_len;
  address ← lift (checked_address address length "stack");
  v ← operand_value kb operands 1;
  write_stack address v.

(** ** Waiting *)
Section waiting.
Context `{Build}.

(** Source: [crates/ic10-sim/src/simulator.rs] [execute_operation] lines 2136-2136 *)
Definition exec_yield (tick : Z) : CM () :=
  wake ← lift (add_u64 tick 1);
  write_state (WaitingUntil wake).

(** Source: [crates/ic10-sim/src/simulator.rs] [execute_operation] lines 2137-2141 *)
Definition exec_sleep (kb : KnowledgeBase) (tick : Z) (operands : list string) : CM () :=
  seconds ← operand_value kb operands 0;
  let seconds := f_max seconds f_zero in
  let ticks := to_u64 (f_max (f_ceil (f_div seconds TICK_SECONDS)) f_one) in
  wake ← lift (add_u64 tick ticks);
  write_state (WaitingUntil wake).
End waiting.

(** ** Devices *)

(** What an instruction runs on. *)
Record Machine := { m_cpu : Cpu; m_fx : Effects }.

Definition set_m_cpu (c : Cpu) (m : Machine) : Machine := {| m_cpu := c; m_fx := m_fx m |}.
Definition set_m_fx (x : Effects) (m : Machine) : Machine := {| m_cpu := m_cpu m; m_fx := x |}.

Abbreviation EX := (M Machine message).

Definition on_cpu {A} (m : CM A) : EX A := zoom m_cpu set_m_cpu m.
Definition on_fx {A} (m : FX A) : EX A := zoom m_fx set_m_fx m.
Definition world_of (m : Machine) : World := fx_world (m_fx m).

(** Source: [crates/ic10-sim/src/simulator.rs] [DeviceReference] *)
Record DeviceReference := {
  dr_device : nat;
  dr_connection : option Z;
  dr_base : bool;
}.

(** [world.device_by_reference(id).ok_or_else(..)] *)
Definition find_reference (reference_id : Z) : EX nat :=
  target ← gets (λ m, device_by_reference reference_id (world_of m));
  lift (ok_or target [PS "no device has ReferenceId "; PZ reference_id]).

(** Source: [crates/ic10-sim/src/simulator.rs] [device_reference] *)
Definition device_reference (kb : KnowledgeBase) (source : string) : EX DeviceReference :=
  resolved ← gets (λ m, resolve_alias (program (m_cpu m)) source);
  let '(device, connection) :=
    match split_once (byte 58) resolved with
    | Some (device, connection) => (device, parse_usize connection)
    | None => (resolved, None)
    end in
  let base := String.eqb device "db" in
  let pin := n ← strip_prefix "d" device ≫= parse_usize; if n <? 6 then Some n else None in
  index ←
    (if base then gets (λ m, housing (m_cpu m))
     else match pin with
     | Some pin =>
         slot ← get_or_panic (λ m, pins (m_cpu m) !! Z.to_nat pin);
         lift (ok_or slot [PS "device pin d"; PZ pin; PS " is not set"])
     | None =>
         match strip_prefix "d" device with
         | Some register =>
             register ← on_cpu (register_index register);
             v ← on_cpu (read_register register);
             find_reference (to_i32 v)
         | None =>
             is_register ← on_cpu (attempt (register_index device));
             v ← (match is_register with
                  | Some _ => on_cpu (value kb device)
                  | None => on_cpu (cpu_resolve_number kb device)
                  end);
             find_reference (to_i32 v)
         end
     end);
  mret {| dr_device := index; dr_connection := connection; dr_base := base |}.

(** The number of an enum entry. *)
Definition enum_number (candidate : EnumValue) : option f64 :=
  option_or (as_f64 (ev_value candidate)) (f_of_Z <$> as_i64 (ev_value candidate)).

(** Source: [crates/ic10-sim/src/simulator.rs] [logic_name] *)
Definition logic_name (kb : KnowledgeBase) (source : string) : CM string :=
  resolved ← gets (λ c, resolve_alias (program c) source);
  let enums := la_enums (kb_language kb) in
  if existsb (λ name,
       match bt_get name enums with
       | Some listing => bt_contains_key resolved (el_values listing)
       | None => false
       end) ["LogicType"; "LogicSlotType"]
     || starts_with "Channel" resolved
  then mret resolved
  else
    numeric ← value kb resolved;
    listing ← lift (ok_or (bt_get "LogicType" enums) [PS "embedded LogicType enum is missing"]);
    lift (ok_or
      (fst <$> find_first (λ '(_, candidate),
         match enum_number candidate with Some x => f_eq x numeric | None => false end)
         (el_values listing))
      [PF numeric; PS " is not a LogicType"]).

Definition operand_field (kb : KnowledgeBase) (operands : list string) (n : nat) : EX string :=
  on_cpu (source ← operand operands n; logic_name kb source).
Definition operand_device (kb : KnowledgeBase) (operands : list string) (n : nat) : EX DeviceReference :=
  source ← on_cpu (operand operands n); device_reference kb source.
Definition store_operand (operands : list string) (n : nat) (v : f64) : EX () :=
  on_cpu (target ← operand operands n; write_register target v).

(** *** Memory *)

(** [world.devices[device].memory.len()] *)
Definition memory_len (device : nat) : FX Z :=
  d ← get_device device; mret (Z.of_nat (length (memory d))).

Definition read_memory (actor : EffectActor) (device : nat) (address : Z) : FX f64 :=
  d ← get_device device;
  loaded ← lift (expect (memory d !! Z.to_nat address));
  _ ← fx_read actor (TDeviceMemory device (wrap_u 32 address)) loaded;
  mret loaded.

Definition write_memory (actor : EffectActor) (device : nat) (address : Z) (v : f64) : FX () :=
  d ← get_device device;
  before ← lift (expect (memory d !! Z.to_nat address));
  _ ← modify (λ x, fx_set_world
        (alter_device (λ d, set_memory (<[Z.to_nat address := v]> (memory d)) d) device (fx_world x)) x);
  fx_write actor (TDeviceMemory device (wrap_u 32 address)) before v.

(** [0..n] *)
Definition range (n : Z) : list Z := Z.of_nat <$> seq 0 (Z.to_nat n).

(** The target of a memory instruction.
    Source: [crates/ic10-sim/src/simulator.rs] [execute_memory] lines 2341-2371 *)
Definition memory_target (kb : KnowledgeBase) (operation : Operation) (direct : bool) : EX DeviceReference :=
  let m := mnemonic operation in
  if direct then
    reference_id ← on_cpu (operand_value kb (operands operation) (if String.eqb m "getd" then 1 else 0)%nat);
    device ← find_reference (to_i32 reference_id);
    mret {| dr_device := device; dr_connection := None; dr_base := false |}
  else operand_device kb (operands operation) (if String.eqb m "get" then 1 else 0)%nat.

(** The position of the address operand. *)
Definition address_index (m : string) : option nat :=
  if is_one_of m ["get"; "getd"] then Some 2%nat
  else if is_one_of m ["put"; "putd"] then Some 1%nat
  else None.

(** Source: [crates/ic10-sim/src/simulator.rs] [execute_memory] lines 2372-2393 *)
Definition clear_memory (actor : EffectActor) (target : DeviceReference) : EX () :=
  if dr_base target then
    length ← on_cpu stack_len;
    on_cpu (for_each (λ address, write_stack address f_zero) (range length))
  else
    length ← on_fx (memory_len (dr_device target));
    on_fx (for_each (λ address, write_memory actor (dr_device target) address f_zero) (range length)).

(** Source: [crates/ic10-sim/src/simulator.rs] [execute_memory] *)
Definition execute_memory (kb : KnowledgeBase) (actor : EffectActor) (operation : Operation)
    (direct : bool) : EX () :=
  let m := mnemonic operation in
  target ← memory_target kb operation direct;
  if is_one_of m ["clr"; "clrd"] then clear_memory actor target
  else
    index ← lift (expect (address_index m));
    address ← on_cpu (operand_value kb (operands operation) index);
    length ← (if dr_base target then on_cpu stack_len else on_fx (memory_len (dr_device target)));
    address ← lift (checked_address address length "device memory");
    if is_one_of m ["get"; "getd"] then
      loaded ← (if dr_base target then on_cpu (read_stack address)
                else on_fx (read_memory actor (dr_device target) address));
      store_operand (operands operation) 0 loaded
    else
      stored ← on_cpu (operand_value kb (operands operation) 2);
      if dr_base target then on_cpu (write_stack address stored)
      else on_fx (write_memory actor (dr_device target) address stored).

(** *** Logic fields *)

(** Source: [crates/ic10-sim/src/simulator.rs] [execute_operation] lines 2027-2039 *)
Definition exec_load (kb : KnowledgeBase) (actor : EffectActor) (operands : list string) : EX () :=
  target ← operand_device kb operands 1;
  field ← operand_field kb operands 2;
  loaded ← on_fx (read_field kb actor (dr_device target) (dr_connection target) field);
  store_operand operands 0 loaded.

(** Source: [crates/ic10-sim/src/simulator.rs] [execute_operation] lines 2040-2053 *)
Definition exec_store (kb : KnowledgeBase) (actor : EffectActor) (operands : list string) : EX () :=
  target ← operand_device kb operands 0;
  field ← operand_field kb operands 1;
  stored ← on_cpu (operand_value kb operands 2);
  on_fx (write_field kb actor (dr_device target) (dr_connection target) field stored).

(** Source: [crates/ic10-sim/src/simulator.rs] [execute_operation] lines 2054-2062 *)
Definition exec_load_direct (kb : KnowledgeBase) (actor : EffectActor) (operands : list string) : EX () :=
  reference_id ← on_cpu (operand_value kb operands 1);
  target ← find_reference (to_i32 reference_id);
  field ← operand_field kb operands 2;
  loaded ← on_fx (read_field kb actor target None field);
  store_operand operands 0 loaded.

(** Source: [crates/ic10-sim/src/simulator.rs] [execute_operation] lines 2063-2071 *)
Definition exec_store_direct (kb : KnowledgeBase) (actor : EffectActor) (operands : list string) : EX () :=
  reference_id ← on_cpu (operand_value kb operands 0);
  target ← find_reference (to_i32 reference_id);
  field ← operand_field kb operands 1;
  stored ← on_cpu (operand_value kb operands 2);
  on_fx (write_field kb actor target None field stored).

(** *** Slots *)

(** The journal entry of a slot access, when the journal is on. *)
Definition read_slot_effect (actor : EffectActor) (device : nat) (slot : Z) (field : string) (v : f64) : FX () :=
  on ← fx_enabled;
  when on (id ← fx_intern field; fx_read actor (TDeviceSlot device (wrap_u 16 slot) id) v).
Definition write_slot_effect (actor : EffectActor) (device : nat) (slot : Z) (field : string)
    (before after : f64) : FX () :=
  on ← fx_enabled;
  when on (id ← fx_intern field; fx_write actor (TDeviceSlot device (wrap_u 16 slot) id) before after).

(** [fields.insert(field, stored)] in the slot whose fields are given. *)
Definition store_slot (actor : EffectActor) (device : nat) (slot : Z) (field : string)
    (fields : BTreeMap string f64) (stored : f64) : FX () :=
  let before := default f_zero (bt_get field fields) in
  _ ← modify (λ x, fx_set_world
        (alter_device (λ d, set_slots (bt_insert slot (bt_insert field stored fields) (slots d)) d)
           device (fx_world x)) x);
  write_slot_effect actor device slot field before stored.

(** Source: [crates/ic10-sim/src/simulator.rs] [execute_slot] *)
Definition execute_slot (kb : KnowledgeBase) (actor : EffectActor) (operation : Operation) : EX () :=
  let load := String.eqb (mnemonic operation) "ls" in
  let target_index := if load then 1%nat else 0%nat in
  target ← operand_device kb (operands operation) target_index;
  let slot_index := S target_index in
  slot ← on_cpu (operand_value kb (operands operation) slot_index);
  let slot := to_usize slot in
  field ← operand_field kb (operands operation) (S slot_index);
  if load then
    d ← on_fx (get_device (dr_device target));
    loaded ← lift (ok_or (bt_get slot (slots d) ≫= bt_get field)
      [PS (dev_name d); PS " slot "; PZ slot; PS " does not expose `"; PS field; PS "`"]);
    _ ← on_fx (read_slot_effect actor (dr_device target) slot field loaded);
    store_operand (operands operation) 0 loaded
  else
    stored ← on_cpu (operand_value kb (operands operation) (S (S slot_index)));
    d ← on_fx (get_device (dr_device target));
    fields ← lift (ok_or (bt_get slot (slots d))
      [PS (dev_name d); PS " does not have slot "; PZ slot]);
    on_fx (store_slot actor (dr_device target) slot field fields stored).

(** *** Batches *)

(** Source: [crates/ic10-sim/src/simulator.rs] [batch_mode] *)
Definition batch_mode (kb : KnowledgeBase) (value : string) : CM Z :=
  resolved ← gets (λ c, resolve_alias (program c) value);
  if String.eqb resolved "Average" then mret 0
  else if String.eqb resolved "Sum" then mret 1
  else if String.eqb resolved "Minimum" then mret 2
  else if String.eqb resolved "Maximum" then mret 3
  else if String.eqb resolved "Count" then mret 4
  else v ← cpu_resolve_number kb resolved; mret (to_i32 v).

(** [iter().sum::<f64>()] *)
Definition f_sum (values : list f64) : f64 := foldl f_add f_neg_zero values.

(** Source: [crates/ic10-sim/src/simulator.rs] [aggregate] *)
Definition aggregate (values : list f64) (mode : Z) : outcome message f64 :=
  let empty := Nat.eqb (length values) 0 in
  let count := f_of_Z (Z.of_nat (length values)) in
  if mode =? 0 then Ok (if empty then f_nan else f_div (f_sum values) count)
  else if mode =? 1 then Ok (f_sum values)
  else if mode =? 2 then Ok (if empty then f_nan else foldl f_min f_inf values)
  else if mode =? 3 then Ok (if empty then f_nan else foldl f_max f_neg_inf values)
  else if mode =? 4 then Ok count
  else Err [PS "unknown batch mode "; PZ mode].

(** The devices a batch instruction selects. *)
Definition selected (prefab_hash_ : Z) (name_hash_ : option Z) (d : Device) : bool :=
  (prefab_hash d =? prefab_hash_)
  && match name_hash_ with Some hash => name_hash d =? hash | None => true end.

(** An operand present only in some forms of the instruction; the cursor is threaded. *)
Definition optional_operand (kb : KnowledgeBase) (operands : list string) (present : bool) (cast : f64 → Z)
    (cursor : nat) : EX (option Z * nat) :=
  if present then v ← on_cpu (operand_value kb operands cursor); mret (Some (cast v), S cursor)
  else mret (None, cursor).

(** The data network of the housing. *)
Definition data_network : EX nat :=
  c ← gets m_cpu;
  d ← on_fx (get_device (housing c));
  lift (ok_or (bt_get 0 (connections d))
    [PS "IC `"; PS (cpu_name c); PS "` has no data network on connection 0"]).

(** One device of a batch load.
    Source: [crates/ic10-sim/src/simulator.rs] [execute_batch_load] lines 2546-2582 *)
Definition batch_load_device (kb : KnowledgeBase) (actor : EffectActor) (prefab_hash : Z)
    (name_hash slot : option Z) (field : string) (values : list f64) (index : nat) : FX (list f64) :=
  d ← get_device index;
  if negb (selected prefab_hash name_hash d) then mret values
  else
    loaded ← (match slot with
      | Some slot =>
          let loaded := bt_get slot (slots d) ≫= bt_get field in
          _ ← (match loaded with
               | Some v => read_slot_effect actor index slot field v
               | None => mret ()
               end);
          mret loaded
      | None => attempt (read_field kb actor index None field)
      end);
    mret (match loaded with Some v => values ++ [v] | None => values end)%list.

(** A monadic fold over the devices in turn. *)
Fixpoint fold_m {S E A B} (step : A → B → M S E A) (acc : A) (l : list B) : M S E A :=
  match l with
  | [] => mret acc
  | b :: l' => step acc b ≫= λ acc', fold_m step acc' l'
  end.

(** Source: [crates/ic10-sim/src/simulator.rs] [execute_batch_load] *)
Definition execute_batch_load (kb : KnowledgeBase) (actor : EffectActor) (operation : Operation) : EX () :=
  let m := mnemonic operation in
  let ops := operands operation in
  prefab_hash ← on_cpu (operand_value kb ops 1);
  '(name_hash, cursor) ← optional_operand kb ops (is_one_of m ["lbn"; "lbns"]) to_i32 2;
  '(slot, cursor) ← optional_operand kb ops (is_one_of m ["lbs"; "lbns"]) to_usize cursor;
  field ← operand_field kb ops cursor;
  mode ← on_cpu (source ← operand ops (S cursor); batch_mode kb source);
  network ← data_network;
  indices ← gets (λ m, devices_on_network network (world_of m));
  values ← on_fx (fold_m (batch_load_device kb actor (to_i32 prefab_hash) name_hash slot field) [] indices);
  result ← lift (aggregate values mode);
  store_operand ops 0 result.

(** One device of a batch store.
    Source: [crates/ic10-sim/src/simulator.rs] [execute_batch_store] lines 2622-2648 *)
Definition batch_store_device (kb : KnowledgeBase) (actor : EffectActor) (prefab_hash : Z)
    (name_hash slot : option Z) (field : string) (stored : f64) (index : nat) : FX () :=
  d ← get_device index;
  when (selected prefab_hash name_hash d)
    (match slot with
     | Some slot =>
         match bt_get slot (slots d) with
         | Some fields => store_slot actor index slot field fields stored
         | None => mret ()
         end
     | None => write_field kb actor index None field stored
     end).

(** Source: [crates/ic10-sim/src/simulator.rs] [execute_batch_store] *)
Definition execute_batch_store (kb : KnowledgeBase) (actor : EffectActor) (operation : Operation) : EX () :=
  let m := mnemonic operation in
  let ops := operands operation in
  prefab_hash ← on_cpu (operand_value kb ops 0);
  '(name_hash, cursor) ← optional_operand kb ops (String.eqb m "sbn") to_i32 1;
  '(slot, cursor) ← optional_operand kb ops (String.eqb m "sbs") to_usize cursor;
  field ← operand_field kb ops cursor;
  stored ← on_cpu (operand_value kb ops (S cursor));
  network ← data_network;
  indices ← gets (λ m, devices_on_network network (world_of m));
  on_fx (for_each (batch_store_device kb actor (to_i32 prefab_hash) name_hash slot field stored) indices).

(** *** Device tests *)

Section device_branches.
Context `{Build}.

(** Source: [crates/ic10-sim/src/simulator.rs] [execute_operation] lines 2081-2098 *)
Definition exec_device_branch (kb : KnowledgeBase) (operation : Operation) : EX () :=
  source ← on_cpu (operand (operands operation) 0);
  exists_ ← attempt (device_reference kb source);
  let exists_ := bool_decide (is_Some exists_) in
  when (if str_contains "dns" (mnemonic operation) then negb exists_ else exists_)
    (on_cpu (branch_last kb operation)).

(** Source: [crates/ic10-sim/src/simulator.rs] [execute_operation] lines 2099-2123 *)
Definition exec_valid_branch (kb : KnowledgeBase) (actor : EffectActor) (operation : Operation) : EX () :=
  source ← on_cpu (operand (operands operation) 0);
  target ← attempt (device_reference kb source);
  field ← on_cpu (source ← operand (operands operation) 1; attempt (logic_name kb source));
  valid ← (match target, field with
    | Some target, Some field =>
        if String.eqb (mnemonic operation) "bdnvl" then
          r ← on_fx (attempt (read_field kb actor (dr_device target) (dr_connection target) field));
          mret (bool_decide (is_Some r))
        else
          d ← on_fx (get_device (dr_device target));
          mret (match device_by_name kb (prefab d) ≫= (λ m, bt_get field (dd_logic_types m)) with
                | Some access => ac_write access
                | None => false
                end)
    | _, _ => mret false
    end);
  when (negb valid)
    (on_cpu (target ← operand_value kb (operands operation) 2;
             branch_to operation target false false)).
End device_branches.

(** Source: [crates/ic10-sim/src/simulator.rs] [execute_operation] lines 2124-2135 *)
Definition exec_device_select (kb : KnowledgeBase) (operation : Operation) : EX () :=
  source ← on_cpu (operand (operands operation) 1);
  exists_ ← attempt (device_reference kb source);
  let exists_ := bool_decide (is_Some exists_) in
  store_operand (operands operation) 0
    (bool_value (if String.eqb (mnemonic operation) "sdns" then negb exists_ else exists_)).

(** ** The instruction *)

Section execute.
Context `{Libm} `{Build}.

(** The arms that only touch the CPU; [None] for any other mnemonic.
    Source: [crates/ic10-sim/src/simulator.rs] [execute_operation] lines 1760-2020 *)
Definition execute_cpu (kb : KnowledgeBase) (tick : Z) (operation : Operation) : option (CM ()) :=
  let m := mnemonic operation in
  let ops := operands operation in
  if String.eqb m "move" then Some (exec_move kb ops)
  else if binary_op m is Some f then Some (binary kb ops f)
  else if unary_op m is Some f then Some (unary kb ops f)
  else if String.eqb m "clamp" then Some (exec_clamp kb ops)
  else if String.eqb m "lerp" then Some (exec_lerp kb ops)
  else if String.eqb m "rand" then Some (exec_rand ops)
  else if bitwise_op m is Some f then Some (bitwise_binary kb ops f)
  else if String.eqb m "not" then Some (exec_not kb ops)
  else if shift_op m is Some f then Some (binary kb ops f)
  else if String.eqb m "ext" then Some (exec_ext kb ops)
  else if String.eqb m "ins" then Some (exec_ins kb ops)
  else if String.eqb m "select" then Some (exec_select kb ops)
  else if selection_binary_op m is Some f then Some (selection_binary kb ops f)
  else if selection_unary_op m is Some f then Some (selection_unary kb ops f)
  else if is_one_of m ["sap"; "sna"] then Some (exec_sap kb m ops)
  else if is_one_of m ["sapz"; "snaz"] then Some (exec_sapz kb m ops)
  else if is_one_of m ["j"; "jal"; "jr"] then Some (exec_jump kb operation)
  else if is_comparison_branch m then Some (execute_comparison_branch kb operation)
  else if is_one_of m ["bnan"; "brnan"] then Some (exec_bnan kb operation)
  else if is_one_of m ["bap"; "bapal"; "bna"; "bnaal"; "brap"; "brna"] then Some (exec_bap kb operation)
  else if is_one_of m ["bapz"; "bapzal"; "bnaz"; "bnazal"; "brapz"; "brnaz"] then Some (exec_bapz kb operation)
  else if String.eqb m "push" then Some (exec_push kb ops)
  else if String.eqb m "pop" then Some (exec_pop ops)
  else if String.eqb m "peek" then Some (exec_peek ops)
  else if String.eqb m "poke" then Some (exec_poke kb ops)
  else if String.eqb m "yield" then Some (exec_yield tick)
  else if String.eqb m "sleep" then Some (exec_sleep kb tick ops)
  else if String.eqb m "hcf" then Some (write_state Halted)
  else if String.eqb m "label" then Some (mret ())
  else None.

(** The arms that reach devices; the last ones are refused.
    Source: [crates/ic10-sim/src/simulator.rs] [execute_operation] lines 2021-2155 *)
Definition execute_device (kb : KnowledgeBase) (actor : EffectActor) (operation : Operation) : EX () :=
  let m := mnemonic operation in
  let ops := operands operation in
  if is_one_of m ["get"; "put"; "clr"] then execute_memory kb actor operation false
  else if is_one_of m ["getd"; "putd"; "clrd"] then execute_memory kb actor operation true
  else if String.eqb m "l" then exec_load kb actor ops
  else if String.eqb m "s" then exec_store kb actor ops
  else if String.eqb m "ld" then exec_load_direct kb actor ops
  else if String.eqb m "sd" then exec_store_direct kb actor ops
  else if is_one_of m ["lb"; "lbn"; "lbs"; "lbns"] then execute_batch_load kb actor operation
  else if is_one_of m ["sb"; "sbn"; "sbs"] then execute_batch_store kb actor operation
  else if is_one_of m ["ls"; "ss"] then execute_slot kb actor operation
  else if is_one_of m ["bdns"; "bdnsal"; "brdns"; "bdse"; "bdseal"; "brdse"] then exec_device_branch kb operation
  else if is_one_of m ["bdnvl"; "bdnvs"] then exec_valid_branch kb actor operation
  else if is_one_of m ["sdns"; "sdse"] then exec_device_select kb operation
  else if is_one_of m ["lr"; "rmap"]
  then throw [PS "`"; PS m; PS "` requires an active reagent/device behaviour model"]
  else throw [PS "instruction `"; PS m; PS "` is not implemented"].

(** Source: [crates/ic10-sim/src/simulator.rs] [execute_operation] *)
Definition execute_operation (kb : KnowledgeBase) (tick : Z) (actor : EffectActor) (operation : Operation) : EX () :=
  _ ← on_cpu (write_pc (op_line operation + 1));
  match execute_cpu kb tick operation with
  | Some m => on_cpu m
  | None => execute_device kb actor operation
  end.
End execute.

(** ** Safety *)

(** A machine in a world with [nn] networks and devices of memories [sizes]. *)
Definition machine_ok (sizes : list nat) (nn : nat) (m : Machine) : Prop :=
  cpu_ok (length sizes) (m_cpu m) ∧ fx_shape sizes nn (m_fx m).

(** How many operands an instruction reads: one more than the highest position. *)
Definition operands_read (m : string) : nat :=
  let name := absolute_name m in
  if is_comparison_branch m
  then if ends_with "z" (default name (strip_suffix "al" name)) then 2 else 3
  else if is_one_of m ["yield"; "hcf"; "label"; "lr"; "rmap"] then 0
  else if is_one_of m ["rand"; "pop"; "peek"; "push"; "j"; "jal"; "jr"; "sleep"; "clr"; "clrd";
                       "bdns"; "bdnsal"; "brdns"; "bdse"; "bdseal"; "brdse"] then 1
  else if is_one_of m ["bnan"; "brnan"; "poke"; "move"; "not"; "sdns"; "sdse"; "bapz"; "bapzal"; "bnaz";
                       "bnazal"; "brapz"; "brnaz";
                       "abs"; "acos"; "asin"; "atan"; "ceil"; "cos"; "exp"; "floor"; "log"; "round"; "sgn";
                       "sin"; "sqrt"; "tan"; "trunc";
                       "seqz"; "snez"; "sgez"; "sgtz"; "slez"; "sltz"; "snan"; "snanz"] then 2
  else if is_one_of m ["clamp"; "lerp"; "ext"; "ins"; "select"; "sap"; "sna"; "ls"; "ss"; "lb"; "sbn"; "sbs"] then 4
  else if is_one_of m ["lbn"; "lbs"] then 5
  else if is_one_of m ["lbns"] then 6
  else 3.

Section safety.
Context (sizes : list nat) (nn : nat).
Local Abbreviation cok := (cpu_ok (length sizes)).
Local Abbreviation fok := (fx_shape sizes nn).
Local Abbreviation mok := (machine_ok sizes nn).

Lemma safe_lift {S E A} (I : S → Prop) (r : outcome E A) (Q : A → Prop) :
  r ≠ Panic → (∀ a, r = Ok a → Q a) → safe I (lift r) Q.
Proof. intros Hp HQ s Hs. unfold lift. destruct r; naive_solver. Qed.

Lemma safe_on_cpu {A} (m : CM A) Q : safe cok m Q → safe mok (on_cpu m) Q.
Proof. apply safe_zoom; [by intros s [? ?]|]. by intros s t [? ?] Ht. Qed.

Lemma safe_on_fx {A} (m : FX A) Q : safe fok m Q → safe mok (on_fx m) Q.
Proof. apply safe_zoom; [by intros s [? ?]|]. by intros s t [? ?] Ht. Qed.

Lemma safe_operand nd ops n : (n < length ops)%nat → safe (cpu_ok nd) (operand ops n) any.
Proof. intros [s Hs]%lookup_lt_is_Some_2 c Hc. unfold operand. by rewrite Hs. Qed.

Lemma safe_operand_value nd kb ops n : (n < length ops)%nat → safe (cpu_ok nd) (operand_value kb ops n) any.
Proof.
  intros Hn. eapply safe_bind; [by apply safe_operand|]. intros s _. apply safe_value.
Qed.

Lemma safe_checked_address {S} (I : S → Prop) v len label :
  safe I (lift (checked_address v len label)) (λ a, 0 ≤ a < len).
Proof. apply safe_lift; [apply checked_address_no_panic|]. intros a. apply checked_address_Ok. Qed.
End safety.

#[export] Hint Resolve safe_operand safe_operand_value safe_checked_address safe_on_cpu safe_on_fx : sim.
#[export] Hint Extern 2 (_ < length _)%nat => lia : sim.

(** Runs through a program, each step by the lemma of the operation it starts with. *)
Ltac safe_run :=
  intros; repeat first
    [ apply safe_throw
    | progress (eapply safe_any; solve [eauto with sim])
    | solve [eauto with sim]
    | match goal with |- safe _ (_ ≫= _) _ => eapply safe_bind; [solve [eauto with sim]|intros ? ?; cbv beta zeta] end
    | safe_step ].

Section cpu_safety.
Context (nd : nat) (kb : KnowledgeBase).
Local Abbreviation cok := (cpu_ok nd).

Lemma safe_unary ops f : (2 ≤ length ops)%nat → safe cok (unary kb ops f) any.
Proof. unfold unary. safe_run. Qed.

Lemma safe_binary ops f : (3 ≤ length ops)%nat → safe cok (binary kb ops f) any.
Proof. unfold binary. safe_run. Qed.

Lemma safe_bitwise_binary ops f : (3 ≤ length ops)%nat → safe cok (bitwise_binary kb ops f) any.
Proof. unfold bitwise_binary. safe_run. Qed.

Lemma safe_selection_unary ops f : (2 ≤ length ops)%nat → safe cok (selection_unary kb ops f) any.
Proof. unfold selection_unary. safe_run. Qed.

Lemma safe_selection_binary ops f : (3 ≤ length ops)%nat → safe cok (selection_binary kb ops f) any.
Proof. unfold selection_binary. safe_run. Qed.

Lemma safe_exec_move ops : (2 ≤ length ops)%nat → safe cok (exec_move kb ops) any.
Proof. unfold exec_move. safe_run. Qed.

Lemma safe_exec_clamp ops : (4 ≤ length ops)%nat → safe cok (exec_clamp kb ops) any.
Proof. unfold exec_clamp. safe_run. Qed.

Lemma safe_exec_lerp ops : (4 ≤ length ops)%nat → safe cok (exec_lerp kb ops) any.
Proof. unfold exec_lerp. safe_run. Qed.

Lemma safe_get_random_state : safe cok (gets random_state : CM Z) any.
Proof. by apply safe_gets. Qed.
Hint Resolve safe_get_random_state : sim.

Lemma safe_exec_rand ops : (1 ≤ length ops)%nat → safe cok (exec_rand ops) any.
Proof. unfold exec_rand. safe_run. Qed.

Lemma safe_exec_not ops : (2 ≤ length ops)%nat → safe cok (exec_not kb ops) any.
Proof. unfold exec_not. safe_run. Qed.

Lemma safe_exec_select ops : (4 ≤ length ops)%nat → safe cok (exec_select kb ops) any.
Proof.
  unfold exec_select. intros H. eapply safe_bind; [eauto with sim|intros c _].
  eapply (safe_bind _ _ _ _ _ any); [destruct (f_ne _ _); eauto with sim|intros v _]. safe_run.
Qed.

Lemma safe_exec_sap m ops : (4 ≤ length ops)%nat → safe cok (exec_sap kb m ops) any.
Proof. unfold exec_sap. safe_run. Qed.

Lemma safe_exec_sapz m ops : (3 ≤ length ops)%nat → safe cok (exec_sapz kb m ops) any.
Proof. unfold exec_sapz. safe_run. Qed.

Lemma safe_read_sp : safe cok (read_register STACK_POINTER_REGISTER) any.
Proof. apply safe_read_register. unfold STACK_POINTER_REGISTER, REGISTER_COUNT. lia. Qed.
Lemma safe_write_sp x : safe cok (write_register_at STACK_POINTER_REGISTER x) any.
Proof. apply safe_write_register_at. unfold STACK_POINTER_REGISTER, REGISTER_COUNT. lia. Qed.
Lemma safe_write_ra x : safe cok (write_register_at RETURN_ADDRESS_REGISTER x) any.
Proof. apply safe_write_register_at. unfold RETURN_ADDRESS_REGISTER, REGISTER_COUNT. lia. Qed.
Hint Resolve safe_read_sp safe_write_sp safe_write_ra : sim.

Lemma safe_exec_push ops : (1 ≤ length ops)%nat → safe cok (exec_push kb ops) any.
Proof.
  intros H. unfold exec_push. eapply safe_bind; [eauto with sim|intros a Ha].
  eapply safe_bind; [eauto with sim|intros v _].
  eapply safe_bind; [by apply safe_write_stack|intros _ _]. safe_run.
Qed.

(** The load from a checked stack address that ends [pop] and [peek]. *)
Lemma safe_load_stack pointer ops :
  (1 ≤ length ops)%nat →
  safe cok (length ← stack_len;
            address ← lift (checked_address pointer length "stack");
            target ← operand ops 0;
            v ← read_stack address;
            write_register target v) any.
Proof.
  intros H. eapply safe_bind; [eauto with sim|intros l ->].
  eapply safe_bind; [eauto with sim|intros a Ha].
  eapply safe_bind; [eauto with sim|intros t _].
  eapply safe_bind; [by apply safe_read_stack|intros v _]. safe_run.
Qed.

Lemma safe_exec_pop ops : (1 ≤ length ops)%nat → safe cok (exec_pop ops) any.
Proof.
  intros H. unfold exec_pop. eapply safe_bind; [eauto with sim|intros p _]. cbv zeta.
  eapply safe_bind; [eauto with sim|intros _ _]. by apply safe_load_stack.
Qed.

Lemma safe_exec_peek ops : (1 ≤ length ops)%nat → safe cok (exec_peek ops) any.
Proof.
  intros H. unfold exec_peek. eapply safe_bind; [eauto with sim|intros p _]. by apply safe_load_stack.
Qed.

Lemma safe_exec_poke ops : (2 ≤ length ops)%nat → safe cok (exec_poke kb ops) any.
Proof.
  intros H. unfold exec_poke. eapply safe_bind; [eauto with sim|intros v _].
  eapply safe_bind; [eauto with sim|intros l ->].
  eapply safe_bind; [eauto with sim|intros a Ha].
  eapply safe_bind; [eauto with sim|intros w _]. by apply safe_write_stack.
Qed.

Context `{Build} (Hrelease : overflow_checks = false).
Set Default Proof Using "Type*".

Lemma on_overflow_Ok {E A} (a : A) : @on_overflow _ E A a = Ok a.
Proof. unfold on_overflow. by rewrite Hrelease. Qed.

Lemma safe_shr_u64 a s : safe cok (lift (shr_u64 a s) : CM Z) any.
Proof. apply safe_lift; [|done]. unfold shr_u64. rewrite on_overflow_Ok. by case_match. Qed.
Lemma safe_shl_u64 a s : safe cok (lift (shl_u64 a s) : CM Z) any.
Proof. apply safe_lift; [|done]. unfold shl_u64. rewrite on_overflow_Ok. by case_match. Qed.
Lemma safe_add_u64 a b : safe cok (lift (add_u64 a b) : CM Z) any.
Proof. apply safe_lift; [|done]. unfold add_u64. rewrite on_overflow_Ok. by case_match. Qed.
Hint Resolve safe_shr_u64 safe_shl_u64 safe_add_u64 : sim.

Lemma safe_exec_ext ops : (4 ≤ length ops)%nat → safe cok (exec_ext kb ops) any.
Proof. unfold exec_ext. safe_run. Qed.

Lemma safe_exec_ins ops : (4 ≤ length ops)%nat → safe cok (exec_ins kb ops) any.
Proof.
  intros Hl. unfold exec_ins. eapply safe_bind; [eauto with sim|intros t _].
  eapply safe_bind; [eauto with sim|intros i Hi].
  do 4 (eapply safe_bind; [eauto with sim|intros ? ?; cbv beta zeta]).
  eapply safe_bind; [by apply safe_read_register|intros old _].
  eapply safe_bind; [eauto with sim|intros s _]. by apply safe_write_register_at.
Qed.

Lemma line_target_no_panic v : line_target v ≠ Panic.
Proof. unfold line_target. by case_match. Qed.

Lemma relative_target_no_panic l v : relative_target l v ≠ Panic.
Proof.
  unfold relative_target, add_i64. rewrite on_overflow_Ok. case_match; [done|].
  case_match; simpl; by case_match.
Qed.

Lemma safe_target (relative : bool) l v :
  safe cok (lift (if relative then relative_target l v else line_target v)) any.
Proof.
  apply safe_lift; [|done]. destruct relative; [apply relative_target_no_panic|apply line_target_no_panic].
Qed.
Hint Resolve safe_target : sim.

Lemma safe_branch_to op t relative link : safe cok (branch_to op t relative link) any.
Proof. unfold branch_to. safe_run. Qed.
Hint Resolve safe_branch_to : sim.

Lemma safe_branch_last op : (1 ≤ length (operands op))%nat → safe cok (branch_last kb op) any.
Proof.
  intros Hl. unfold branch_last.
  eapply (safe_bind _ _ _ _ _ any); [|intros s _; safe_run].
  apply safe_lift; [|done]. destruct (operands op) as [|x l] eqn:E; [simpl in Hl; lia|].
  by rewrite last_cons; destruct (last l).
Qed.
Hint Resolve safe_branch_last : sim.

Lemma safe_exec_jump op : (1 ≤ length (operands op))%nat → safe cok (exec_jump kb op) any.
Proof. unfold exec_jump. safe_run. Qed.

Lemma safe_exec_bnan op : (2 ≤ length (operands op))%nat → safe cok (exec_bnan kb op) any.
Proof. unfold exec_bnan. safe_run. Qed.

Lemma safe_exec_bap op : (3 ≤ length (operands op))%nat → safe cok (exec_bap kb op) any.
Proof. intros ?. assert (1 ≤ length (operands op))%nat by lia. unfold exec_bap. safe_run. Qed.

Lemma safe_exec_bapz op : (2 ≤ length (operands op))%nat → safe cok (exec_bapz kb op) any.
Proof. intros ?. assert (1 ≤ length (operands op))%nat by lia. unfold exec_bapz. safe_run. Qed.

Lemma safe_exec_yield tick : safe cok (exec_yield tick) any.
Proof. unfold exec_yield. safe_run. Qed.

Lemma safe_exec_sleep tick ops : (1 ≤ length ops)%nat → safe cok (exec_sleep kb tick ops) any.
Proof. unfold exec_sleep. safe_run. Qed.

Lemma safe_comparison_branch op :
  is_comparison_branch (mnemonic op) = true → (operands_read (mnemonic op) ≤ length (operands op))%nat →
  safe cok (execute_comparison_branch kb op) any.
Proof.
  unfold operands_read. cbv zeta. intros ->. unfold execute_comparison_branch. cbv zeta.
  destruct (ends_with "z" _); intros Hl.
  - eapply safe_bind; [eauto with sim|intros a _].
    eapply (safe_bind _ _ _ _ _ (λ p, p.2 < length (operands op))%nat);
      [apply safe_ret; simpl; lia|intros [b i] Hi; simpl in Hi]. safe_run.
  - eapply safe_bind; [eauto with sim|intros a _].
    eapply (safe_bind _ _ _ _ _ (λ p, p.2 < length (operands op))%nat).
    { eapply safe_bind; [eauto with sim|intros b _]. apply safe_ret. simpl. lia. }
    intros [b i] Hi; simpl in Hi. safe_run.
Qed.
End cpu_safety.

Lemma is_one_of_elem s l : is_one_of s l = true ↔ s ∈ l.
Proof.
  unfold is_one_of. rewrite existsb_exists. split.
  - by intros (x & Hx%list_elem_of_In & ->%String.eqb_eq).
  - intros H%list_elem_of_In. exists s. by rewrite String.eqb_refl.
Qed.

(** Case analysis of a mnemonic that is one of a list of names. *)
Ltac mnemonic_cases H :=
  apply is_one_of_elem in H; simpl in H;
  repeat (apply elem_of_cons in H as [->|H]); [..|by apply elem_of_nil in H].

(** Evaluates the operand count of a known mnemonic in the hypotheses. *)
Ltac arity :=
  match goal with
  | H : context [operands_read _] |- _ =>
      simpl in H;
      match type of H with context [operands_read ?m] =>
        let n := eval vm_compute in (operands_read m) in change (operands_read m) with n in H
      end
  end.

Section device_safety.
Context (sizes : list nat) (nn : nat) (kb : KnowledgeBase) (actor : EffectActor).
Local Abbreviation nd := (length sizes).
Local Abbreviation cok := (cpu_ok nd).
Local Abbreviation fok := (fx_shape sizes nn).
Local Abbreviation mok := (machine_ok sizes nn).

Lemma safe_find_reference r : safe mok (find_reference r) (λ i, i < nd)%nat.
Proof.
  unfold find_reference. eapply safe_bind.
  - apply (safe_gets _ _ _ (λ o, ∀ i, o = Some i → i < nd)%nat).
    intros m [_ Hx] i Hi. by eapply device_by_reference_lt.
  - intros o Ho. by apply safe_lift_ok_or.
Qed.
Hint Resolve safe_find_reference : sim.

Lemma safe_logic_name s : safe cok (logic_name kb s) any.
Proof.
  unfold logic_name. eapply safe_bind; [by apply (safe_gets _ _ _ any)|intros r _]. cbv zeta.
  safe_step; [by apply safe_ret|].
  eapply safe_bind; [eauto with sim|intros x _].
  eapply safe_bind; [apply safe_lift_any|intros l _]. apply safe_lift_any.
Qed.
Hint Resolve safe_logic_name : sim.

(** The device of a pin that is set. *)
Lemma safe_pin n :
  0 ≤ n < 6 →
  safe mok (slot ← get_or_panic (λ m, pins (m_cpu m) !! Z.to_nat n) : EX _;
            lift (ok_or slot [PS "device pin d"; PZ n; PS " is not set"])) (λ i, i < nd)%nat.
Proof.
  intros Hn. eapply safe_bind.
  - apply (safe_get_or_panic _ _ _ (λ o, ∀ i, o = Some i → i < nd)%nat).
    intros m [[_ _ [Hl Hp] _] _].
    assert (Z.to_nat n < length (pins (m_cpu m)))%nat as Hlt by lia.
    apply lookup_lt_is_Some_2 in Hlt as [o Ho]. exists o. split; [done|].
    by eapply Forall_lookup_1 in Hp.
  - intros o Ho. by apply safe_lift_ok_or.
Qed.

Lemma safe_housing : safe mok (gets (λ m, housing (m_cpu m)) : EX nat) (λ i, i < nd)%nat.
Proof. apply safe_gets. by intros m [[_ _ _ ?] _]. Qed.

Lemma safe_device_reference s : safe mok (device_reference kb s) (λ r, dr_device r < nd)%nat.
Proof.
  unfold device_reference. eapply safe_bind; [by apply (safe_gets _ _ _ any)|intros r _].
  destruct (match split_once _ r with Some _ => _ | None => _ end) as [device connection].
  destruct (n ← strip_prefix "d" device ≫= parse_usize; if n <? 6 then Some n else None) as [pin|] eqn:Hpin;
    (eapply (safe_bind _ _ _ _ _ (λ i, i < nd)%nat); [|intros i Hi; by apply safe_ret]);
    (safe_step; [apply safe_housing|]).
  - apply bind_Some in Hpin as (n & Hn & Hpin). destruct (Z.ltb_spec n 6); [|done].
    injection Hpin as ->. apply bind_Some in Hn as (t & _ & Ht%parse_unsigned_range).
    apply safe_pin. lia.
  - destruct (strip_prefix "d" device).
    + eapply safe_bind; [eauto with sim|intros i Hi].
      eapply safe_bind; [apply safe_on_cpu; by apply safe_read_register|intros v _]. eauto with sim.
    + eapply safe_bind; [apply safe_on_cpu, safe_attempt, safe_register_index|intros o _].
      eapply (safe_bind _ _ _ _ _ any); [destruct o; eauto with sim|intros v _]. eauto with sim.
Qed.
Hint Resolve safe_device_reference : sim.

Lemma safe_operand_field ops n : (n < length ops)%nat → safe mok (operand_field kb ops n) any.
Proof. intros. apply safe_on_cpu. safe_run. Qed.

Lemma safe_operand_device ops n :
  (n < length ops)%nat → safe mok (operand_device kb ops n) (λ r, dr_device r < nd)%nat.
Proof. intros. unfold operand_device. eapply safe_bind; [eauto with sim|intros s _]. eauto with sim. Qed.

Lemma safe_store_operand ops n v : (n < length ops)%nat → safe mok (store_operand ops n v) any.
Proof. intros. apply safe_on_cpu. safe_run. Qed.
Hint Resolve safe_operand_field safe_operand_device safe_store_operand : sim.

Lemma safe_memory_len d :
  (d < nd)%nat → safe fok (memory_len d) (λ z, ∃ n, z = Z.of_nat n ∧ sizes !! d = Some n).
Proof.
  intros Hd. unfold memory_len. eapply safe_bind; [by apply safe_get_device|intros x [_ Hx]].
  apply safe_ret. by eexists.
Qed.

Lemma safe_expect_memory device n a d :
  sizes !! device = Some n → 0 ≤ a < Z.of_nat n → sizes !! device = Some (length (memory d)) →
  safe fok (lift (expect (memory d !! Z.to_nat a)) : FX f64) any.
Proof. intros Hn Ha Hd. apply safe_expect_lookup. rewrite Hn in Hd. injection Hd as ->. lia. Qed.

Lemma safe_read_memory device n a :
  sizes !! device = Some n → 0 ≤ a < Z.of_nat n → safe fok (read_memory actor device a) any.
Proof.
  intros Hn Ha. unfold read_memory.
  eapply safe_bind; [apply safe_get_device; by eapply lookup_lt_Some|intros d [_ Hd]].
  eapply safe_bind; [exact (safe_expect_memory _ _ _ _ Hn Ha Hd)|intros v _].
  eapply safe_bind; [apply safe_fx_read|intros _ _]. by apply safe_ret.
Qed.

Lemma safe_write_memory device n a v :
  sizes !! device = Some n → 0 ≤ a < Z.of_nat n → safe fok (write_memory actor device a v) any.
Proof.
  intros Hn Ha. unfold write_memory.
  eapply safe_bind; [apply safe_get_device; by eapply lookup_lt_Some|intros d [_ Hd]].
  eapply safe_bind; [exact (safe_expect_memory _ _ _ _ Hn Ha Hd)|intros b _].
  eapply safe_bind; [|intros _ _; apply safe_fx_write].
  apply (safe_modify_world _ _ (alter_device _ device)). intros w. apply world_shape_alter_device.
  apply set_memory_identity. intros d'. by rewrite length_insert.
Qed.

Lemma elem_of_range n a : a ∈ range n → 0 ≤ a < n.
Proof. unfold range. intros (k & -> & Hk%elem_of_seq)%list_elem_of_fmap. lia. Qed.

Lemma safe_stack_loop l :
  (∀ a, a ∈ l → 0 ≤ a < Z.of_nat STACK_SIZE) →
  safe cok (for_each (λ address, write_stack address f_zero) l) any.
Proof. intros Hl. apply safe_for_each. intros a Ha. by apply safe_write_stack, Hl. Qed.

Lemma safe_clear_memory target :
  (dr_device target < nd)%nat → safe mok (clear_memory actor target) any.
Proof.
  intros Hd. unfold clear_memory. destruct (dr_base target).
  - eapply safe_bind; [eauto with sim|intros l ->]. apply safe_on_cpu, safe_stack_loop.
    intros a. apply elem_of_range.
  - eapply safe_bind; [by apply safe_on_fx, safe_memory_len|intros l (n & -> & Hn)].
    apply safe_on_fx, safe_for_each. intros a Ha%elem_of_range. by eapply safe_write_memory.
Qed.

Lemma safe_memory_target op (direct : bool) :
  ((if direct then if String.eqb (mnemonic op) "getd" then 1 else 0
    else if String.eqb (mnemonic op) "get" then 1 else 0) < length (operands op))%nat →
  safe mok (memory_target kb op direct) (λ r, dr_device r < nd)%nat.
Proof.
  intros Hl. unfold memory_target. cbv zeta. destruct direct.
  - eapply safe_bind; [by apply safe_on_cpu, safe_operand_value|intros v _].
    eapply safe_bind; [eauto with sim|intros d Hd]. by apply safe_ret.
  - by apply safe_operand_device.
Qed.

(** A length that bounds the addresses of the target. *)
Lemma safe_target_len target :
  (dr_device target < nd)%nat →
  safe mok (if dr_base target then on_cpu stack_len else on_fx (memory_len (dr_device target)))
    (λ z, ∀ a, 0 ≤ a < z → if dr_base target then 0 ≤ a < Z.of_nat STACK_SIZE
                           else ∃ n, sizes !! dr_device target = Some n ∧ 0 ≤ a < Z.of_nat n).
Proof.
  intros Hd. destruct (dr_base target).
  - apply safe_on_cpu. eapply safe_weaken; [apply safe_stack_len|]. by intros z ->.
  - apply safe_on_fx. eapply safe_weaken; [by apply safe_memory_len|]. intros z (n & -> & Hn). eauto.
Qed.

Lemma safe_execute_memory op (direct : bool) :
  is_one_of (mnemonic op) (if direct then ["getd"; "putd"; "clrd"] else ["get"; "put"; "clr"]) = true →
  (operands_read (mnemonic op) ≤ length (operands op))%nat →
  safe mok (execute_memory kb actor op direct) any.
Proof.
  intros Hm Hl. unfold execute_memory. cbv zeta.
  eapply safe_bind; [apply safe_memory_target|intros target Ht].
  { destruct op as [l m ops]; destruct direct; mnemonic_cases Hm; arity; simpl; lia. }
  safe_step; [by apply safe_clear_memory|].
  eapply (safe_bind _ _ _ _ _ (λ i, i < length (operands op))%nat).
  { destruct op as [l m ops]; destruct direct; mnemonic_cases Hm; try done;
      (apply safe_lift; [done|intros ? [= <-]; arity; simpl; lia]). }
  intros i Hi. eapply safe_bind; [eauto with sim|intros v _].
  eapply safe_bind; [by apply safe_target_len|intros len Hlen].
  eapply safe_bind; [apply safe_checked_address|intros a Ha]. specialize (Hlen a Ha).
  safe_step.
  - eapply (safe_bind _ _ _ _ _ any); [|intros x _; apply safe_store_operand; lia].
    destruct (dr_base target); [by apply safe_on_cpu, safe_read_stack|].
    destruct Hlen as (n & ? & ?). apply safe_on_fx. by eapply safe_read_memory.
  - eapply safe_bind; [apply safe_on_cpu, safe_operand_value|intros x _].
    + destruct op as [l m ops]; destruct direct; mnemonic_cases Hm; try done; arity; simpl; lia.
    + destruct (dr_base target); [by apply safe_on_cpu, safe_write_stack|].
      destruct Hlen as (n & ? & ?). apply safe_on_fx. by eapply safe_write_memory.
Qed.

Lemma safe_field_read device connection field :
  (device < nd)%nat → safe mok (on_fx (read_field kb actor device connection field)) any.
Proof. intros. by apply safe_on_fx, safe_read_field. Qed.
Lemma safe_field_write device connection field v :
  (device < nd)%nat → safe mok (on_fx (write_field kb actor device connection field v)) any.
Proof. intros. by apply safe_on_fx, safe_write_field. Qed.
Hint Resolve safe_field_read safe_field_write : sim.

Lemma safe_exec_load ops : (3 ≤ length ops)%nat → safe mok (exec_load kb actor ops) any.
Proof. unfold exec_load. safe_run. Qed.
Lemma safe_exec_store ops : (3 ≤ length ops)%nat → safe mok (exec_store kb actor ops) any.
Proof. unfold exec_store. safe_run. Qed.
Lemma safe_exec_load_direct ops : (3 ≤ length ops)%nat → safe mok (exec_load_direct kb actor ops) any.
Proof. unfold exec_load_direct. safe_run. Qed.
Lemma safe_exec_store_direct ops : (3 ≤ length ops)%nat → safe mok (exec_store_direct kb actor ops) any.
Proof. unfold exec_store_direct. safe_run. Qed.

Lemma safe_read_slot_effect device slot field v :
  safe fok (read_slot_effect actor device slot field v) any.
Proof.
  unfold read_slot_effect. eapply safe_bind; [apply safe_fx_enabled|intros on _]. apply safe_when.
  eapply safe_bind; [apply safe_fx_intern|intros f _; apply safe_fx_read].
Qed.

Lemma safe_store_slot device slot field fields v :
  safe fok (store_slot actor device slot field fields v) any.
Proof.
  unfold store_slot. cbv zeta.
  eapply safe_bind; [apply (safe_modify_world _ _ (alter_device _ device)); eauto with sim|intros _ _].
  unfold write_slot_effect. eapply safe_bind; [apply safe_fx_enabled|intros on _]. apply safe_when.
  eapply safe_bind; [apply safe_fx_intern|intros f _; apply safe_fx_write].
Qed.

Lemma safe_execute_slot op :
  (4 ≤ length (operands op))%nat → safe mok (execute_slot kb actor op) any.
Proof.
  intros Hl. unfold execute_slot. cbv zeta.
  assert (∀ b : bool, (if b then 1 else 0) < length (operands op)
          ∧ S (if b then 1 else 0) < length (operands op)
          ∧ S (S (if b then 1 else 0)) < length (operands op))%nat as Hb by (intros []; lia).
  destruct (Hb (String.eqb (mnemonic op) "ls")) as (H0 & H1 & H2).
  eapply safe_bind; [by apply safe_operand_device|intros target Ht].
  eapply safe_bind; [by apply safe_on_cpu, safe_operand_value|intros slot _].
  eapply safe_bind; [by apply safe_operand_field|intros field _].
  destruct (String.eqb (mnemonic op) "ls").
  - eapply safe_bind; [by apply safe_on_fx, safe_get_device|intros d _].
    eapply safe_bind; [apply safe_lift_any|intros v _].
    eapply safe_bind; [apply safe_on_fx, safe_read_slot_effect|intros _ _].
    apply safe_store_operand. lia.
  - eapply safe_bind; [apply safe_on_cpu, safe_operand_value; lia|intros v _].
    eapply safe_bind; [by apply safe_on_fx, safe_get_device|intros d _].
    eapply safe_bind; [apply safe_lift_any|intros fields _].
    apply safe_on_fx, safe_store_slot.
Qed.

Lemma safe_data_network : safe mok data_network any.
Proof.
  unfold data_network. eapply safe_bind.
  - apply (safe_gets _ _ _ (λ c, housing c < nd)%nat). by intros m [[_ _ _ ?] _].
  - intros c Hc. eapply safe_bind; [by apply safe_on_fx, safe_get_device|intros d _]. apply safe_lift_any.
Qed.

Lemma safe_batch_mode s : safe cok (batch_mode kb s) any.
Proof.
  unfold batch_mode. eapply safe_bind; [by apply (safe_gets _ _ _ any)|intros r _].
  repeat (safe_step; [by apply safe_ret|]). safe_run.
Qed.

Lemma safe_devices_on_network network :
  safe mok (gets (λ m, devices_on_network network (world_of m)) : EX _) (Forall (λ i, i < nd)%nat).
Proof.
  apply safe_gets. intros m [_ (Hs & _ & _)]. apply Forall_forall.
  intros i Hi%devices_on_network_lt. by rewrite <-Hs, length_memory_sizes.
Qed.

(** An optional operand moves the cursor by at most one. *)
Lemma safe_optional_operand ops present cast cursor :
  (present = true → cursor < length ops)%nat →
  safe mok (optional_operand kb ops present cast cursor)
    (λ p, p.2 = if present then S cursor else cursor).
Proof.
  intros Hl. unfold optional_operand. destruct present; [|by apply safe_ret].
  eapply safe_bind; [by apply safe_on_cpu, safe_operand_value, Hl|intros v _]. by apply safe_ret.
Qed.

Lemma safe_batch_load_device prefab_hash name_hash slot field values index :
  (index < nd)%nat → safe fok (batch_load_device kb actor prefab_hash name_hash slot field values index) any.
Proof.
  intros Hi. unfold batch_load_device. eapply safe_bind; [by apply safe_get_device|intros d _].
  safe_step; [by apply safe_ret|].
  eapply (safe_bind _ _ _ _ _ any); [|intros o _; by apply safe_ret]. destruct slot as [slot|].
  - cbv zeta. eapply (safe_bind _ _ _ _ _ any); [|intros _ _; by apply safe_ret].
    destruct (bt_get slot _ ≫= _); [apply safe_read_slot_effect|by apply safe_ret].
  - eapply safe_any, safe_attempt. by apply safe_read_field.
Qed.

Lemma safe_fold_m {S E A B} (I : S → Prop) (step : A → B → M S E A) acc l :
  (∀ acc b, b ∈ l → safe I (step acc b) any) → safe I (fold_m step acc l) any.
Proof.
  revert acc. induction l as [|b l IH]; intros acc Hl; simpl; [by apply safe_ret|].
  eapply safe_bind; [apply Hl; left|intros a _]. apply IH. intros ? ? ?. apply Hl. by right.
Qed.

Lemma aggregate_no_panic values mode : aggregate values mode ≠ Panic.
Proof. unfold aggregate. by repeat case_match. Qed.

Lemma safe_execute_batch_load op :
  is_one_of (mnemonic op) ["lb"; "lbn"; "lbs"; "lbns"] = true →
  (operands_read (mnemonic op) ≤ length (operands op))%nat →
  safe mok (execute_batch_load kb actor op) any.
Proof.
  intros Hm Hl. unfold execute_batch_load. cbv zeta.
  set (named := is_one_of _ ["lbn"; "lbns"]). set (slotted := is_one_of _ ["lbs"; "lbns"]).
  assert (4 + (if named then 1 else 0) + (if slotted then 1 else 0) ≤ length (operands op))%nat as Hlen.
  { subst named slotted. destruct op as [l m ops]. mnemonic_cases Hm; arity; simpl; lia. }
  clearbody named slotted.
  eapply safe_bind; [apply safe_on_cpu, safe_operand_value; lia|intros h _].
  eapply safe_bind; [apply safe_optional_operand; lia|intros [name c] Hc; simpl in Hc].
  eapply safe_bind; [apply safe_optional_operand; destruct named, slotted; lia|intros [slot c'] Hc'; simpl in Hc'].
  assert (S c' < length (operands op))%nat by (destruct named, slotted; lia).
  eapply safe_bind; [apply safe_operand_field; lia|intros field _].
  eapply safe_bind; [apply safe_on_cpu|intros mode _].
  { eapply safe_bind; [by apply safe_operand|intros s _; apply safe_batch_mode]. }
  eapply safe_bind; [apply safe_data_network|intros network _].
  eapply safe_bind; [apply safe_devices_on_network|intros indices Hi].
  eapply safe_bind; [apply safe_on_fx, safe_fold_m|intros values _].
  { intros acc i Hin. apply safe_batch_load_device. rewrite Forall_forall in Hi. by apply Hi. }
  eapply safe_bind; [by apply (safe_lift _ _ any); [apply aggregate_no_panic|]|intros r _].
  apply safe_store_operand. lia.
Qed.

Lemma safe_batch_store_device prefab_hash name_hash slot field v index :
  (index < nd)%nat → safe fok (batch_store_device kb actor prefab_hash name_hash slot field v index) any.
Proof.
  intros Hi. unfold batch_store_device. eapply safe_bind; [by apply safe_get_device|intros d _].
  apply safe_when. destruct slot as [slot|]; [|by apply safe_write_field].
  destruct (bt_get slot _); [apply safe_store_slot|by apply safe_ret].
Qed.

Lemma safe_execute_batch_store op :
  is_one_of (mnemonic op) ["sb"; "sbn"; "sbs"] = true →
  (operands_read (mnemonic op) ≤ length (operands op))%nat →
  safe mok (execute_batch_store kb actor op) any.
Proof.
  intros Hm Hl. unfold execute_batch_store. cbv zeta.
  set (named := String.eqb _ "sbn"). set (slotted := String.eqb _ "sbs").
  assert (3 + (if named then 1 else 0) + (if slotted then 1 else 0) ≤ length (operands op))%nat as Hlen.
  { subst named slotted. destruct op as [l m ops]. mnemonic_cases Hm; arity; simpl; lia. }
  clearbody named slotted.
  eapply safe_bind; [apply safe_on_cpu, safe_operand_value; lia|intros h _].
  eapply safe_bind; [apply safe_optional_operand; lia|intros [name c] Hc; simpl in Hc].
  eapply safe_bind; [apply safe_optional_operand; destruct named, slotted; lia|intros [slot c'] Hc'; simpl in Hc'].
  assert (S c' < length (operands op))%nat by (destruct named, slotted; lia).
  eapply safe_bind; [apply safe_operand_field; lia|intros field _].
  eapply safe_bind; [by apply safe_on_cpu, safe_operand_value|intros v _].
  eapply safe_bind; [apply safe_data_network|intros network _].
  eapply safe_bind; [apply safe_devices_on_network|intros indices Hi].
  apply safe_on_fx, safe_for_each. intros i Hin. apply safe_batch_store_device.
  rewrite Forall_forall in Hi. by apply Hi.
Qed.

Lemma safe_attempt_any {S E A} (I : S → Prop) (m : M S E A) P : safe I m P → safe I (attempt m) any.
Proof. intros H. by eapply safe_any, safe_attempt. Qed.

Lemma safe_exec_device_select op :
  (2 ≤ length (operands op))%nat → safe mok (exec_device_select kb op) any.
Proof.
  intros Hl. unfold exec_device_select. eapply safe_bind; [apply safe_on_cpu, safe_operand; lia|intros s _].
  eapply safe_bind; [eapply safe_attempt_any, safe_device_reference|intros o _]. cbv zeta.
  apply safe_store_operand. lia.
Qed.

Context `{Libm} `{Build} (Hrelease : overflow_checks = false).
Set Default Proof Using "Type*".

Lemma safe_exec_device_branch op :
  (1 ≤ length (operands op))%nat → safe mok (exec_device_branch kb op) any.
Proof.
  intros Hl. unfold exec_device_branch. eapply safe_bind; [apply safe_on_cpu, safe_operand; lia|intros s _].
  eapply safe_bind; [eapply safe_attempt_any, safe_device_reference|intros o _]. cbv zeta.
  apply safe_when, safe_on_cpu. by apply safe_branch_last.
Qed.

Lemma safe_exec_valid_branch op :
  (3 ≤ length (operands op))%nat → safe mok (exec_valid_branch kb actor op) any.
Proof.
  intros Hl. unfold exec_valid_branch. eapply safe_bind; [apply safe_on_cpu, safe_operand; lia|intros s _].
  eapply safe_bind; [apply safe_attempt, safe_device_reference|intros o Ho].
  eapply safe_bind; [apply safe_on_cpu|intros f _].
  { eapply safe_bind; [apply safe_operand; lia|intros s' _]. eapply safe_attempt_any, safe_logic_name. }
  eapply (safe_bind _ _ _ _ _ any).
  - destruct o as [target|], f as [field|]; try by apply safe_ret. safe_step.
    + eapply safe_bind; [|intros r _; by apply safe_ret].
      eapply safe_on_fx, safe_attempt_any, safe_read_field. by apply Ho.
    + eapply safe_bind; [by apply safe_on_fx, safe_get_device, Ho|intros d _]. by apply safe_ret.
  - intros valid _. apply safe_when, safe_on_cpu.
    eapply safe_bind; [apply safe_operand_value; lia|intros t _]. by apply safe_branch_to.
Qed.
End device_safety.

(** *** The whole instruction *)

(** Splits a table definition on the names it tests. *)
Ltac table_cases :=
  repeat match goal with
  | |- context [String.eqb ?m ?n] => destruct (String.eqb_spec m n) as [->|_]; [by intros|]
  end; by intros.

Section whole.
Context `{Libm}.

Lemma binary_op_arity m f : binary_op m = Some f → operands_read m = 3%nat.
Proof. unfold binary_op. table_cases. Qed.
Lemma unary_op_arity m f : unary_op m = Some f → operands_read m = 2%nat.
Proof. unfold unary_op. table_cases. Qed.
Lemma bitwise_op_arity m f : bitwise_op m = Some f → operands_read m = 3%nat.
Proof. unfold bitwise_op. table_cases. Qed.
Lemma shift_op_arity m f : shift_op m = Some f → operands_read m = 3%nat.
Proof. unfold shift_op. table_cases. Qed.
Lemma selection_binary_op_arity m f : selection_binary_op m = Some f → operands_read m = 3%nat.
Proof. unfold selection_binary_op. table_cases. Qed.
Lemma selection_unary_op_arity m f : selection_unary_op m = Some f → operands_read m = 2%nat.
Proof. unfold selection_unary_op. table_cases. Qed.
Context `{Build} (Hrelease : overflow_checks = false).
Set Default Proof Using "Type*".

Lemma safe_execute_cpu nd kb tick op c :
  (operands_read (mnemonic op) ≤ length (operands op))%nat →
  execute_cpu kb tick op = Some c → safe (cpu_ok nd) c any.
Proof.
  destruct op as [line m ops]. unfold execute_cpu. cbn [mnemonic operands]. cbv zeta. intros Hl.
  destruct (String.eqb_spec m "move") as [->|_]; [intros [= <-]; by apply safe_exec_move|].
  destruct (binary_op m) eqn:E; [intros [= <-]; apply binary_op_arity in E; apply safe_binary; lia|clear E].
  destruct (unary_op m) eqn:E; [intros [= <-]; apply unary_op_arity in E; apply safe_unary; lia|clear E].
  destruct (String.eqb_spec m "clamp") as [->|_]; [intros [= <-]; by apply safe_exec_clamp|].
  destruct (String.eqb_spec m "lerp") as [->|_]; [intros [= <-]; by apply safe_exec_lerp|].
  destruct (String.eqb_spec m "rand") as [->|_]; [intros [= <-]; by apply safe_exec_rand|].
  destruct (bitwise_op m) eqn:E; [intros [= <-]; apply bitwise_op_arity in E; apply safe_bitwise_binary; lia|clear E].
  destruct (String.eqb_spec m "not") as [->|_]; [intros [= <-]; by apply safe_exec_not|].
  destruct (shift_op m) eqn:E; [intros [= <-]; apply shift_op_arity in E; apply safe_binary; lia|clear E].
  destruct (String.eqb_spec m "ext") as [->|_]; [intros [= <-]; by apply safe_exec_ext|].
  destruct (String.eqb_spec m "ins") as [->|_]; [intros [= <-]; by apply safe_exec_ins|].
  destruct (String.eqb_spec m "select") as [->|_]; [intros [= <-]; by apply safe_exec_select|].
  destruct (selection_binary_op m) eqn:E;
    [intros [= <-]; apply selection_binary_op_arity in E; apply safe_selection_binary; lia|clear E].
  destruct (selection_unary_op m) eqn:E;
    [intros [= <-]; apply selection_unary_op_arity in E; apply safe_selection_unary; lia|clear E].
  destruct (is_one_of m ["sap"; "sna"]) eqn:E; [intros [= <-]; mnemonic_cases E; by apply safe_exec_sap|clear E].
  destruct (is_one_of m ["sapz"; "snaz"]) eqn:E; [intros [= <-]; mnemonic_cases E; by apply safe_exec_sapz|clear E].
  destruct (is_one_of m ["j"; "jal"; "jr"]) eqn:E; [intros [= <-]; mnemonic_cases E; by apply safe_exec_jump|clear E].
  destruct (is_comparison_branch m) eqn:E; [intros [= <-]; by apply safe_comparison_branch|clear E].
  destruct (is_one_of m ["bnan"; "brnan"]) eqn:E; [intros [= <-]; mnemonic_cases E; by apply safe_exec_bnan|clear E].
  destruct (is_one_of m ["bap"; "bapal"; "bna"; "bnaal"; "brap"; "brna"]) eqn:E;
    [intros [= <-]; mnemonic_cases E; by apply safe_exec_bap|clear E].
  destruct (is_one_of m ["bapz"; "bapzal"; "bnaz"; "bnazal"; "brapz"; "brnaz"]) eqn:E;
    [intros [= <-]; mnemonic_cases E; by apply safe_exec_bapz|clear E].
  destruct (String.eqb_spec m "push") as [->|_]; [intros [= <-]; by apply safe_exec_push|].
  destruct (String.eqb_spec m "pop") as [->|_]; [intros [= <-]; by apply safe_exec_pop|].
  destruct (String.eqb_spec m "peek") as [->|_]; [intros [= <-]; by apply safe_exec_peek|].
  destruct (String.eqb_spec m "poke") as [->|_]; [intros [= <-]; by apply safe_exec_poke|].
  destruct (String.eqb m "yield"); [intros [= <-]; by apply safe_exec_yield|].
  destruct (String.eqb_spec m "sleep") as [->|_]; [intros [= <-]; by apply safe_exec_sleep|].
  destruct (String.eqb m "hcf"); [intros [= <-]; apply safe_write_state|].
  destruct (String.eqb m "label"); [intros [= <-]; by apply safe_ret|done].
Qed.

Lemma safe_execute_device sizes nn kb actor op :
  (operands_read (mnemonic op) ≤ length (operands op))%nat →
  safe (machine_ok sizes nn) (execute_device kb actor op) any.
Proof.
  intros Hl. unfold execute_device. cbv zeta.
  destruct (is_one_of _ ["get"; _; _]) eqn:E; [by apply safe_execute_memory|clear E].
  destruct (is_one_of _ ["getd"; _; _]) eqn:E; [by apply safe_execute_memory|clear E].
  destruct op as [line m ops]. cbn [mnemonic operands] in *.
  destruct (String.eqb_spec m "l") as [->|_]; [by apply safe_exec_load|].
  destruct (String.eqb_spec m "s") as [->|_]; [by apply safe_exec_store|].
  destruct (String.eqb_spec m "ld") as [->|_]; [by apply safe_exec_load_direct|].
  destruct (String.eqb_spec m "sd") as [->|_]; [by apply safe_exec_store_direct|].
  destruct (is_one_of m ["lb"; _; _; _]) eqn:E; [by apply safe_execute_batch_load|clear E].
  destruct (is_one_of m ["sb"; _; _]) eqn:E; [by apply safe_execute_batch_store|clear E].
  destruct (is_one_of m ["ls"; _]) eqn:E; [mnemonic_cases E; by apply safe_execute_slot|clear E].
  destruct (is_one_of m ["bdns"; _; _; _; _; _]) eqn:E;
    [mnemonic_cases E; by apply safe_exec_device_branch|clear E].
  destruct (is_one_of m ["bdnvl"; _]) eqn:E; [mnemonic_cases E; by apply safe_exec_valid_branch|clear E].
  destruct (is_one_of m ["sdns"; _]) eqn:E; [mnemonic_cases E; by apply safe_exec_device_select|clear E].
  destruct (is_one_of m _); apply safe_throw.
Qed.
End whole.

