(* ===== verification/Isa.v ===== *)
(** * What the instructions do

    Theorems about [execute_operation]: every instruction is safe, and the
    register, branch, call and stack instructions have the effect of an independent
    description.  A recorded access only adds to the journal of the CPU, so results
    are stated up to that journal. *)

From S2P Require Import Prelude BTree Text F64 Knowledge Literals Journal Scenario World Program Cpu Exec.
Local Open Scope string_scope.
Local Open Scope Z_scope.

(** ** Register instructions *)

(** A function of one, two or three operand values. *)
Inductive alu_fun :=
  | Alu1 (f : f64 → f64)
  | Alu2 (f : f64 → f64 → f64)
  | Alu3 (f : f64 → f64 → f64 → f64).

Definition alu_arity (f : alu_fun) : nat := match f with Alu1 _ => 1 | Alu2 _ => 2 | Alu3 _ => 3 end.

Section alu.
Context `{Libm}.

Definition truth (b : bool) : f64 := if b then f_one else f_zero.
(** A function of signed 64-bit integers on the registers. *)
Definition on_i64 (f : Z → Z → Z) (a b : f64) : f64 := f_of_Z (f (to_i64 a) (to_i64 b)).
Definition clamp_spec (x lo hi : f64) : f64 :=
  if f_is_nan x || f_is_nan lo || f_is_nan hi then f_nan else f_min (f_max x lo) hi.
Definition lerp_spec (a b r : f64) : f64 := f_add a (f_mul (f_sub b a) (f_clamp r f_zero f_one)).
(** The low six bits of a shift amount. *)
Definition amount (v : f64) : Z := to_u32 v mod 64.

(** The value each register instruction stores, from the values of its sources. *)
Definition alu_table : list (string * alu_fun) :=
  [("move", Alu1 id); ("add", Alu2 f_add); ("sub", Alu2 f_sub); ("mul", Alu2 f_mul); ("div", Alu2 f_div);
   ("mod", Alu2 (λ a b, f_rem (f_add (f_rem a b) b) b)); ("max", Alu2 f_max); ("min", Alu2 f_min);
   ("pow", Alu2 f_powf); ("atan2", Alu2 f_atan2);
   ("abs", Alu1 f_abs); ("acos", Alu1 f_acos); ("asin", Alu1 f_asin); ("atan", Alu1 f_atan);
   ("ceil", Alu1 f_ceil); ("cos", Alu1 f_cos); ("exp", Alu1 f_exp); ("floor", Alu1 f_floor);
   ("log", Alu1 f_ln); ("round", Alu1 f_round);
   ("sgn", Alu1 (λ a, if f_is_nan a || f_eq a f_zero then f_zero else f_signum a));
   ("sin", Alu1 f_sin); ("sqrt", Alu1 f_sqrt); ("tan", Alu1 f_tan); ("trunc", Alu1 f_trunc);
   ("clamp", Alu3 clamp_spec); ("lerp", Alu3 lerp_spec);
   ("and", Alu2 (on_i64 Z.land)); ("or", Alu2 (on_i64 Z.lor)); ("xor", Alu2 (on_i64 Z.lxor));
   ("nor", Alu2 (on_i64 (λ a b, Z.lnot (Z.lor a b)))); ("not", Alu1 (λ a, f_of_Z (Z.lnot (to_i64 a))));
   ("sll", Alu2 (λ a v, f_of_Z (wrap_i 64 (to_i64 a * 2 ^ amount v))));
   ("sla", Alu2 (λ a v, f_of_Z (wrap_i 64 (to_i64 a * 2 ^ amount v))));
   ("srl", Alu2 (λ a v, f_of_Z (to_u64 a / 2 ^ amount v)));
   ("sra", Alu2 (λ a v, f_of_Z (to_i64 a / 2 ^ amount v)));
   ("seq", Alu2 (λ a b, truth (f_eq a b))); ("sne", Alu2 (λ a b, truth (negb (f_eq a b))));
   ("sge", Alu2 (λ a b, truth (f_le b a))); ("sgt", Alu2 (λ a b, truth (f_lt b a)));
   ("sle", Alu2 (λ a b, truth (f_le a b))); ("slt", Alu2 (λ a b, truth (f_lt a b)));
   ("seqz", Alu1 (λ a, truth (f_eq a f_zero))); ("snez", Alu1 (λ a, truth (negb (f_eq a f_zero))));
   ("sgez", Alu1 (λ a, truth (f_le f_zero a))); ("sgtz", Alu1 (λ a, truth (f_lt f_zero a)));
   ("slez", Alu1 (λ a, truth (f_le a f_zero))); ("sltz", Alu1 (λ a, truth (f_lt a f_zero)));
   ("snan", Alu1 (λ a, truth (f_is_nan a))); ("snanz", Alu1 (λ a, truth (negb (f_is_nan a))));
   ("sap", Alu3 (λ a b t, truth (approximately a b t)));
   ("sna", Alu3 (λ a b t, truth (negb (approximately a b t))));
   ("sapz", Alu2 (λ a t, truth (approximately a f_zero t)));
   ("snaz", Alu2 (λ a t, truth (negb (approximately a f_zero t))))].
End alu.

(** The register an instruction writes and the value it stores there: the sources
    are resolved in order, then the target. *)
Definition alu_apply (kb : KnowledgeBase) (c : Cpu) (ops : list string) (f : alu_fun) :
    outcome message (nat * f64) :=
  match f, ops with
  | Alu1 f, t :: a :: _ =>
      x ← value_of kb c a; i ← register_index_of c t; Ok (i, f x)
  | Alu2 f, t :: a :: b :: _ =>
      x ← value_of kb c a; y ← value_of kb c b; i ← register_index_of c t; Ok (i, f x y)
  | Alu3 f, t :: a :: b :: d :: _ =>
      x ← value_of kb c a; y ← value_of kb c b; z ← value_of kb c d;
      i ← register_index_of c t; Ok (i, f x y z)
  | _, _ => Panic
  end.

(** The outcome of a register instruction as a state change of the CPU. *)
Definition alu_effect (r : outcome message (nat * f64)) (c : Cpu) : outcome message () * Cpu :=
  match r with
  | Ok (i, x) => (Ok (), set_registers (<[i := x]> (registers c)) c)
  | Err e => (Err e, c)
  | Panic => (Panic, c)
  end.

(** ** Lemmas *)

(** [m] behaves as [f] up to the journal. *)
Definition acts {A} (m : CM A) (f : Cpu → outcome message A * Cpu) (c : Cpu) : Prop :=
  ∃ j, m c = ((f c).1, set_cpu_journal j (f c).2).

(** Functions of a CPU that do not look at its journal. *)
Definition blind {A} (f : Cpu → outcome message A * Cpu) : Prop :=
  ∀ j c, f (set_cpu_journal j c) = ((f c).1, set_cpu_journal j (f c).2).

Lemma execute_operation_cpu `{Libm} `{Build} kb tick actor op c m :
  execute_cpu kb tick op = Some c →
  execute_operation kb tick actor op m =
    let '(r, cpu) := (_ ← write_pc (op_line op + 1); c) (m_cpu m) in (r, set_m_cpu cpu m).
Proof.
  intros Hc. unfold execute_operation. rewrite Hc. unfold on_cpu, zoom, mbind, M_mbind.
  destruct (write_pc_spec (op_line op + 1) (m_cpu m)) as [j ->]. simpl.
  by destruct (c _).
Qed.

Lemma bind_observes {A B} (m : CM A) f (k : A → CM B) c :
  observes m f →
  ∃ j, (m ≫= k) c =
    match f c with
    | Ok a => k a (set_cpu_journal j c)
    | Err e => (Err e, set_cpu_journal j c)
    | Panic => (Panic, set_cpu_journal j c)
    end.
Proof.
  intros Hm. destruct (Hm c) as [j Hj]. exists j. unfold mbind, M_mbind. rewrite Hj. by destruct (f c).
Qed.

Lemma write_register_spec s x c :
  length (registers c) = REGISTER_COUNT →
  ∃ j, write_register s x c =
    match register_index_of c s with
    | Ok i => (Ok (), set_cpu_journal j (set_registers (<[i := x]> (registers c)) c))
    | Err e => (Err e, set_cpu_journal j c)
    | Panic => (Panic, set_cpu_journal j c)
    end.
Proof.
  intros Hl. unfold write_register.
  destruct (bind_observes _ _ (λ i, write_register_at i x) c (observes_register_index s)) as [j ->].
  destruct (register_index_of c s) as [i| |] eqn:E; [|by exists j..].
  apply register_index_of_lt in E. rewrite <-Hl in E.
  destruct (write_register_at_spec i x (set_cpu_journal j c)) as [j' ->]; [done|]. by exists j'.
Qed.

(** The three shapes of register instruction. *)
Section shapes.
Context (kb : KnowledgeBase) (c : Cpu) (Hl : length (registers c) = REGISTER_COUNT).
Set Default Proof Using "Type*".

(** Runs one operand of the program in the goal. *)
Ltac take_value s :=
  match goal with
  | |- context [(value kb s ≫= ?k) ?c'] =>
      let j := fresh "j" in
      destruct (bind_observes _ _ k c' (observes_value kb s)) as [j ->];
      change (value_of kb c' s) with (value_of kb c s);
      destruct (value_of kb c s); cbv beta iota; [|by exists j..]
  end.

Ltac finish_write t :=
  match goal with
  | |- context [write_register t ?x ?c'] =>
      let j := fresh "j" in
      destruct (write_register_spec t x c') as [j ->]; [done|];
      change (register_index_of c' t) with (register_index_of c t);
      destruct (register_index_of c t); by exists j
  end.

Lemma alu1_acts (f g : f64 → f64) t a :
  (∀ x, f x = g x) →
  acts (x ← value kb a; write_register t (f x)) (alu_effect (alu_apply kb c [t; a] (Alu1 g))) c.
Proof. intros Hfg. unfold acts, alu_apply. take_value a. rewrite Hfg. finish_write t. Qed.

Lemma alu2_acts (f g : f64 → f64 → f64) t a b :
  (∀ x y, f x y = g x y) →
  acts (x ← value kb a; y ← value kb b; write_register t (f x y))
    (alu_effect (alu_apply kb c [t; a; b] (Alu2 g))) c.
Proof. intros Hfg. unfold acts, alu_apply. take_value a. take_value b. rewrite Hfg. finish_write t. Qed.

Lemma alu3_acts (f g : f64 → f64 → f64 → f64) t a b d :
  (∀ x y z, f x y z = g x y z) →
  acts (x ← value kb a; y ← value kb b; z ← value kb d; write_register t (f x y z))
    (alu_effect (alu_apply kb c [t; a; b; d] (Alu3 g))) c.
Proof.
  intros Hfg. unfold acts, alu_apply. take_value a. take_value b. take_value d. rewrite Hfg. finish_write t.
Qed.
End shapes.

(** The state a register instruction leaves: the next line, and the write. *)
Definition alu_result (kb : KnowledgeBase) (op : Operation) (f : alu_fun) (c : Cpu) :
    outcome message () * Cpu :=
  alu_effect (alu_apply kb c (operands op) f) (set_pc (op_line op + 1) c).

Section instructions.
Context `{Libm} `{Build} (kb : KnowledgeBase) (tick : Z) (actor : EffectActor).

(** An instruction of the CPU whose code behaves as a register function. *)
Definition runs_alu (line : Z) (m : string) (f : alu_fun) : Prop :=
  ∀ ops c, length ops = S (alu_arity f) → length (registers c) = REGISTER_COUNT →
    ∃ code, execute_cpu kb tick {| op_line := line; mnemonic := m; operands := ops |} = Some code
      ∧ acts code (alu_effect (alu_apply kb c ops f)) c.

Lemma runs_alu1 line m f g :
  (∀ t a, execute_cpu kb tick {| op_line := line; mnemonic := m; operands := [t; a] |} =
          Some (x ← value kb a; write_register t (f x))) →
  (∀ x, f x = g x) → runs_alu line m (Alu1 g).
Proof.
  intros Hcode Hfg [|t [|a [|? ?]]] c Hlen Hl; try done.
  eexists. split; [apply Hcode|]. by apply alu1_acts.
Qed.

Lemma runs_alu2 line m f g :
  (∀ t a b, execute_cpu kb tick {| op_line := line; mnemonic := m; operands := [t; a; b] |} =
            Some (x ← value kb a; y ← value kb b; write_register t (f x y))) →
  (∀ x y, f x y = g x y) → runs_alu line m (Alu2 g).
Proof.
  intros Hcode Hfg [|t [|a [|b [|? ?]]]] c Hlen Hl; try done.
  eexists. split; [apply Hcode|]. by apply alu2_acts.
Qed.

Lemma runs_alu3 line m f g :
  (∀ t a b d, execute_cpu kb tick {| op_line := line; mnemonic := m; operands := [t; a; b; d] |} =
              Some (x ← value kb a; y ← value kb b; z ← value kb d; write_register t (f x y z))) →
  (∀ x y z, f x y z = g x y z) → runs_alu line m (Alu3 g).
Proof.
  intros Hcode Hfg [|t [|a [|b [|d [|? ?]]]]] c Hlen Hl; try done.
  eexists. split; [apply Hcode|]. by apply alu3_acts.
Qed.

Lemma shift_amount v : 0 ≤ to_u32 v → Z.land (to_u32 v) 63 = amount v.
Proof. intros Hv. change 63 with (Z.ones 6). by rewrite Z.land_ones. Qed.

Lemma to_u32_nonneg v : 0 ≤ to_u32 v.
Proof. apply (f_cast_range 0 U32_MAX v). unfold U32_MAX. lia. Qed.

Lemma amount_nonneg v : 0 ≤ amount v.
Proof. unfold amount. apply Z.mod_pos_bound. lia. Qed.

Lemma alu_table_runs line : Forall (λ e, runs_alu line e.1 e.2) alu_table.
Proof.
  assert (∀ z v, Z.shiftl z (Z.land (to_u32 v) 63) = z * 2 ^ amount v) as Hl.
  { intros z v. rewrite shift_amount by apply to_u32_nonneg. apply Z.shiftl_mul_pow2, amount_nonneg. }
  assert (∀ z v, Z.shiftr z (Z.land (to_u32 v) 63) = z / 2 ^ amount v) as Hr.
  { intros z v. rewrite shift_amount by apply to_u32_nonneg. apply Z.shiftr_div_pow2, amount_nonneg. }
  unfold alu_table. repeat apply Forall_cons_2; [..|apply Forall_nil_2]; cbn [fst snd].
  all: first
    [ eapply runs_alu1; [intros; reflexivity|done]
    | eapply runs_alu2; [intros; reflexivity|intros; unfold amount; by rewrite ?Hl, ?Hr]
    | eapply runs_alu3; [intros; reflexivity|done]
    | eapply runs_alu2; [|intros; reflexivity]; intros; reflexivity
    | eapply runs_alu3; [|intros; reflexivity]; intros; reflexivity ].
Qed.
End instructions.

(** C13.  A register instruction, executed with its operands present, resolves its
    sources in order and then its target, and its only effects are the next line,
    the write of the tabulated value to the target register and journal entries of
    the CPU; an operand that does not resolve gives its error and no write. *)
Theorem alu_instructions_correct `{Libm} `{Build} (kb : KnowledgeBase) (tick : Z) (actor : EffectActor)
    (name : string) (f : alu_fun) (op : Operation) (m : Machine) (nd : nat) :
  (name, f) ∈ alu_table → mnemonic op = name → length (operands op) = S (alu_arity f) →
  cpu_ok nd (m_cpu m) →
  ∃ j, execute_operation kb tick actor op m =
       let '(r, cpu) := alu_result kb op f (m_cpu m) in (r, set_m_cpu (set_cpu_journal j cpu) m).
Proof.
  intros Hin Hname Hlen Hok. destruct op as [line m' ops]. simpl in *. subst m'.
  pose proof (alu_table_runs kb tick line) as Hruns. rewrite Forall_forall in Hruns.
  destruct (write_pc_spec (line + 1) (m_cpu m)) as [j Hpc].
  destruct (Hruns _ Hin ops (set_cpu_journal j (set_pc (line + 1) (m_cpu m))) Hlen) as (code & Hcode & Hacts);
    [apply Hok|].
  rewrite (execute_operation_cpu _ _ _ _ _ _ Hcode). unfold mbind, M_mbind. cbn [op_line]. rewrite Hpc.
  destruct Hacts as [j' ->]. exists j'. unfold alu_result. simpl.
  change (alu_apply kb (set_cpu_journal j (set_pc (line + 1) (m_cpu m))) ops f)
    with (alu_apply kb (set_pc (line + 1) (m_cpu m)) ops f).
  change (alu_apply kb (m_cpu m) ops f) with (alu_apply kb (set_pc (line + 1) (m_cpu m)) ops f).
  by destruct (alu_apply kb (set_pc (line + 1) (m_cpu m)) ops f) as [[i x]| |].
Qed.

(** ** Branches *)

(** The comparisons of the branch instructions. *)
Definition comparisons : list (string * (f64 → f64 → bool)) :=
  [("eq", f_eq); ("ne", λ a b, negb (f_eq a b)); ("ge", λ a b, f_le b a); ("gt", λ a b, f_lt b a);
   ("le", f_le); ("lt", f_lt)].

(** [b] or [br], the comparison, [z] for a comparison with zero, [al] to link. *)
Definition branch_name (relative zero link : bool) (comparison : string) : string :=
  (if relative then "br" else "b") +:+ comparison +:+ (if zero then "z" else "") +:+ (if link then "al" else "").

(** The state a taken branch leaves. *)
Definition jump_result `{Build} (line : Z) (relative link : bool) (v : f64) (c : Cpu) :
    outcome message () * Cpu :=
  let c := if link then set_registers (<[RETURN_ADDRESS_REGISTER := f_of_Z (line + 1)]> (registers c)) c else c in
  match (if relative then relative_target line v else line_target v) with
  | Ok p => (Ok (), set_pc p c)
  | Err e => (Err e, c)
  | Panic => (Panic, c)
  end.

(** Continues with the value of an operand. *)
Definition with_value (kb : KnowledgeBase) (c : Cpu) (s : string)
    (k : f64 → outcome message () * Cpu) : outcome message () * Cpu :=
  match value_of kb c s with Ok v => k v | Err e => (Err e, c) | Panic => (Panic, c) end.

(** The effect of a comparison branch on a CPU at the next line. *)
Definition branch_result `{Build} (kb : KnowledgeBase) (line : Z) (relative zero link : bool)
    (test : f64 → f64 → bool) (ops : list string) (c : Cpu) : outcome message () * Cpu :=
  let taken x y t := if test x y then with_value kb c t (λ v, jump_result line relative link v c)
                     else (Ok (), c) in
  match zero, ops with
  | true, [a; t] => with_value kb c a (λ x, taken x f_zero t)
  | false, [a; b; t] => with_value kb c a (λ x, with_value kb c b (λ y, taken x y t))
  | _, _ => (Panic, c)
  end.

Section branches.
Context `{Libm} `{Build} (kb : KnowledgeBase) (c : Cpu) (Hl : length (registers c) = REGISTER_COUNT).
Set Default Proof Using "Type*".

(** Runs one operand of the program in the goal. *)
Ltac take_value s :=
  match goal with
  | |- context [(value kb s ≫= ?k) ?c'] =>
      let j := fresh "j" in
      destruct (bind_observes _ _ k c' (observes_value kb s)) as [j ->];
      change (value_of kb c' s) with (value_of kb c s); unfold with_value;
      destruct (value_of kb c s); cbv beta iota; [|by exists j..]
  end.

Lemma branch_to_acts line relative link v j m ops :
  ∃ j', branch_to {| op_line := line; mnemonic := m; operands := ops |} v relative link (set_cpu_journal j c) =
        ((jump_result line relative link v c).1, set_cpu_journal j' (jump_result line relative link v c).2).
Proof.
  assert (∀ c', ∃ j', (target ← lift (if relative then relative_target line v else line_target v);
                       write_pc target) c' =
    (match (if relative then relative_target line v else line_target v) with
     | Ok p => (Ok (), set_cpu_journal j' (set_pc p c'))
     | Err e => (Err e, set_cpu_journal j' c')
     | Panic => (Panic, set_cpu_journal j' c')
     end)) as Hjump.
  { intros c'. unfold lift, mbind, M_mbind.
    destruct (if relative then relative_target line v else line_target v) as [p| |].
    - destruct (write_pc_spec p c') as [j' ->]. by exists j'.
    - exists (cpu_journal c'). by rewrite set_cpu_journal_id.
    - exists (cpu_journal c'). by rewrite set_cpu_journal_id. }
  unfold branch_to, jump_result. cbn [op_line]. destruct link; unfold when.
  - destruct (write_register_at_spec RETURN_ADDRESS_REGISTER (f_of_Z (line + 1)) (set_cpu_journal j c))
      as [j1 Hw]; [simpl; rewrite Hl; unfold RETURN_ADDRESS_REGISTER, REGISTER_COUNT; lia|].
    unfold mbind at 1, M_mbind at 1. rewrite Hw.
    match goal with |- context [set_cpu_journal j1 ?d] => destruct (Hjump (set_cpu_journal j1 d)) as [j2 Hj] end.
    rewrite Hj. exists j2. by destruct (if relative then _ else _).
  - destruct (Hjump (set_cpu_journal j c)) as [j2 Hj].
    change ((mret () : CM ()) ≫= ?k) with (k ()). cbv beta.
    rewrite Hj. exists j2. by destruct (if relative then _ else _).
Qed.

Lemma branch_acts2 line m (relative link : bool) test a b t :
  acts (x ← value kb a; y ← value kb b;
        when (test x y) (v ← value kb t;
          branch_to {| op_line := line; mnemonic := m; operands := [a; b; t] |} v relative link))
    (branch_result kb line relative false link test [a; b; t]) c.
Proof.
  unfold acts, branch_result. take_value a. take_value b.
  destruct (test _ _); unfold when; [|by eexists]. take_value t. apply branch_to_acts.
Qed.

Lemma branch_acts1 line m (relative link : bool) test a t :
  acts (x ← value kb a;
        when (test x f_zero) (v ← value kb t;
          branch_to {| op_line := line; mnemonic := m; operands := [a; t] |} v relative link))
    (branch_result kb line relative true link test [a; t]) c.
Proof.
  unfold acts, branch_result. take_value a.
  destruct (test _ _); unfold when; [|by eexists]. take_value t. apply branch_to_acts.
Qed.

Lemma bind_assoc {A B D} (m : CM A) (k : A → CM B) (h : B → CM D) s :
  ((m ≫= k) ≫= h) s = (m ≫= λ x, k x ≫= h) s.
Proof. unfold mbind, M_mbind. by destruct (m s) as [[]]. Qed.

Lemma bind_ext {A B} (m : CM A) (k k' : A → CM B) s :
  (∀ x s, k x s = k' x s) → (m ≫= k) s = (m ≫= k') s.
Proof. intros Hk. unfold mbind, M_mbind. by destruct (m s) as [[]]. Qed.

(** Splits on the comparison of a branch. *)
Ltac comparison_cases Hin :=
  unfold comparisons in Hin;
  repeat (apply elem_of_cons in Hin as [[= -> ->]|Hin]); [..|by apply elem_of_nil in Hin].

Lemma comparison_branch_runs tick line name test (relative zero link : bool) ops :
  (name, test) ∈ comparisons → length ops = (if zero then 2 else 3)%nat →
  ∃ code, execute_cpu kb tick {| op_line := line; mnemonic := branch_name relative zero link name;
                                 operands := ops |} = Some code
    ∧ acts code (branch_result kb line relative zero link test ops) c.
Proof.
  intros Hin Hlen.
  destruct zero.
  - destruct ops as [|a [|t [|? ?]]]; try done. eexists. split; [|apply (branch_acts1 line (branch_name relative true link name))].
    comparison_cases Hin; destruct relative, link; reflexivity.
  - destruct ops as [|a [|b [|t [|? ?]]]]; try done.
    assert (∃ code, execute_cpu kb tick {| op_line := line; mnemonic := branch_name relative false link name;
                                           operands := [a; b; t] |} = Some code
      ∧ code = (x ← value kb a; '(y, i) ← (y ← value kb b; mret (y, 2%nat));
          when (test x y) (v ← operand_value kb [a; b; t] i;
            branch_to {| op_line := line; mnemonic := branch_name relative false link name;
                         operands := [a; b; t] |} v relative link))) as (code & Hcode & ->).
    { eexists. split; [|done]. comparison_cases Hin; destruct relative, link; reflexivity. }
    eexists. split; [exact Hcode|].
    destruct (branch_acts2 line (branch_name relative false link name) relative link test a b t) as [j Hj].
    exists j. rewrite <-Hj. apply bind_ext. intros x s. apply bind_assoc.
Qed.
End branches.

(** A branch does not look at the journal. *)
Lemma branch_result_journal `{Build} kb line relative zero link test ops j c :
  branch_result kb line relative zero link test ops (set_cpu_journal j c) =
  let '(r, c') := branch_result kb line relative zero link test ops c in (r, set_cpu_journal j c').
Proof.
  assert (∀ v, jump_result line relative link v (set_cpu_journal j c) =
               let '(r, c') := jump_result line relative link v c in (r, set_cpu_journal j c')) as Hj.
  { intros v. unfold jump_result. by destruct link, (if relative then _ else _). }
  assert (∀ s k k', (∀ v, k v = let '(r, c') := k' v in (r, set_cpu_journal j c')) →
    with_value kb (set_cpu_journal j c) s k =
    let '(r, c') := with_value kb c s k' in (r, set_cpu_journal j c')) as Hv.
  { intros s k k' Hk. unfold with_value.
    change (value_of kb (set_cpu_journal j c) s) with (value_of kb c s). by destruct (value_of kb c s). }
  unfold branch_result.
  assert (∀ x y t, (if test x y then with_value kb (set_cpu_journal j c) t
                      (λ v, jump_result line relative link v (set_cpu_journal j c))
                    else (Ok (), set_cpu_journal j c)) =
    let '(r, c') := if test x y then with_value kb c t (λ v, jump_result line relative link v c)
                    else (Ok (), c) in (r, set_cpu_journal j c')) as Ht.
  { intros x y t. destruct (test x y); [by apply Hv|done]. }
  destruct zero, ops as [|a [|b [|t [|? ?]]]]; try done; apply Hv; intros v; [by apply Ht|].
  apply Hv. intros y. by apply Ht.
Qed.

(** C21.  A comparison branch is taken exactly when its comparison holds of its
    operands, or of its operand and zero; it then goes to the target line, relative
    to its own line for [br], after storing the next line in [ra] for [al].  Not
    taken it continues on the next line.  Nothing else changes but the journal. *)
Theorem comparison_branch_correct `{Libm} `{Build} (kb : KnowledgeBase) (tick : Z) (actor : EffectActor)
    (name : string) (test : f64 → f64 → bool) (relative zero link : bool) (op : Operation) (m : Machine)
    (nd : nat) :
  (name, test) ∈ comparisons → mnemonic op = branch_name relative zero link name →
  length (operands op) = (if zero then 2 else 3)%nat → cpu_ok nd (m_cpu m) →
  ∃ j, execute_operation kb tick actor op m =
       let '(r, cpu) := branch_result kb (op_line op) relative zero link test (operands op)
                          (set_pc (op_line op + 1) (m_cpu m)) in
       (r, set_m_cpu (set_cpu_journal j cpu) m).
Proof.
  intros Hin Hname Hlen Hok. destruct op as [line m' ops]. simpl in *. subst m'.
  destruct (write_pc_spec (line + 1) (m_cpu m)) as [j Hpc].
  destruct (comparison_branch_runs kb (set_cpu_journal j (set_pc (line + 1) (m_cpu m))) ltac:(apply Hok)
              tick line name test relative zero link ops Hin Hlen) as (code & Hcode & Hacts).
  rewrite (execute_operation_cpu _ _ _ _ _ _ Hcode). unfold mbind, M_mbind. cbn [op_line]. rewrite Hpc.
  destruct Hacts as [j' ->]. exists j'.
  rewrite branch_result_journal.
  by destruct (branch_result kb line relative zero link test ops (set_pc (line + 1) (m_cpu m))).
Qed.

(** ** Calls *)

(** The registers and the program decide what a name and an operand denote. *)
Lemma register_index_of_ext c c' s :
  registers c' = registers c → program c' = program c → register_index_of c' s = register_index_of c s.
Proof. unfold register_index_of. by intros -> ->. Qed.

Lemma value_of_ext kb c c' s :
  registers c' = registers c → program c' = program c → value_of kb c' s = value_of kb c s.
Proof. intros Hr Hp. unfold value_of. by rewrite (register_index_of_ext c c') , Hr, Hp. Qed.

Lemma execute_jump `{Libm} `{Build} kb tick actor line m mach s :
  m = "j" ∨ m = "jal" → length (registers (m_cpu mach)) = REGISTER_COUNT →
  let c0 := set_pc (line + 1) (m_cpu mach) in
  let c := if String.eqb m "jal"
           then set_registers (<[RETURN_ADDRESS_REGISTER := f_of_Z (line + 1)]> (registers c0)) c0 else c0 in
  ∃ j, execute_operation kb tick actor {| op_line := line; mnemonic := m; operands := [s] |} mach =
    match value_of kb c s with
    | Ok v => match line_target v with
              | Ok p => (Ok (), set_m_cpu (set_cpu_journal j (set_pc p c)) mach)
              | Err e => (Err e, set_m_cpu (set_cpu_journal j c) mach)
              | Panic => (Panic, set_m_cpu (set_cpu_journal j c) mach)
              end
    | Err e => (Err e, set_m_cpu (set_cpu_journal j c) mach)
    | Panic => (Panic, set_m_cpu (set_cpu_journal j c) mach)
    end.
Proof.
  intros Hm Hlen c0 c.
  set (op := {| op_line := line; mnemonic := m; operands := [s] |}).
  assert (execute_cpu kb tick op = Some (
    _ ← when (String.eqb m "jal") (write_register_at RETURN_ADDRESS_REGISTER (f_of_Z (line + 1)));
    v ← value kb s; target ← lift (line_target v); write_pc target)) as Hcode
    by (destruct Hm as [-> | ->]; reflexivity).
  rewrite (execute_operation_cpu _ _ _ _ _ _ Hcode).
  destruct (write_pc_spec (line + 1) (m_cpu mach)) as [j0 Hpc].
  change (set_pc (line + 1) (m_cpu mach)) with c0 in Hpc.
  unfold mbind at 1, M_mbind at 1. cbn [op_line op]. rewrite Hpc.
  assert (∃ j1, (when (String.eqb m "jal") (write_register_at RETURN_ADDRESS_REGISTER (f_of_Z (line + 1))))
            (set_cpu_journal j0 c0) = (Ok (), set_cpu_journal j1 c)) as [j1 Hw].
  { subst c. destruct (String.eqb m "jal"); [|by exists j0].
    destruct (write_register_at_spec RETURN_ADDRESS_REGISTER (f_of_Z (line + 1)) (set_cpu_journal j0 c0))
      as [j1 Hw]; [simpl; unfold RETURN_ADDRESS_REGISTER, REGISTER_COUNT in *; simpl in Hlen; lia|].
    exists j1. exact Hw. }
  unfold mbind at 1, M_mbind at 1. rewrite Hw.
  match goal with |- context [(value kb s ≫= ?k) ?c'] =>
    destruct (bind_observes _ _ k c' (observes_value kb s)) as [j2 Hv]; rewrite Hv;
    change (value_of kb c' s) with (value_of kb c s) end.
  destruct (value_of kb c s) as [v| |]; [|by exists j2..].
  unfold lift, mbind, M_mbind. destruct (line_target v) as [p| |]; [|by exists j2..].
  match goal with |- context [write_pc p ?d] => destruct (write_pc_spec p d) as [j3 Hp]; rewrite Hp end.
  by exists j3.
Qed.

Lemma line_target_of_Z z : 0 ≤ z < 2 ^ 53 → line_target (f_of_Z z) = Ok z.
Proof.
  intros Hz. unfold line_target. rewrite f_of_Z_finite, f_of_Z_nonneg by done. simpl.
  by rewrite to_usize_trunc_of_Z.
Qed.

(** [jal] stores the line after it, so that a later [j ra], executed while
    [ra] still holds that value and is not the name of an alias, continues there
    and changes no register. *)
Theorem call_returns `{Libm} `{Build} (kb : KnowledgeBase) (tick tick' : Z) (actor actor' : EffectActor)
    (line line' : Z) (target : string) (m m1 m2 : Machine) (nd nd' : nat) :
  cpu_ok nd (m_cpu m) → cpu_ok nd' (m_cpu m2) → 0 ≤ line + 1 < 2 ^ 53 →
  execute_operation kb tick actor {| op_line := line; mnemonic := "jal"; operands := [target] |} m = (Ok (), m1) →
  registers (m_cpu m2) !! RETURN_ADDRESS_REGISTER = registers (m_cpu m1) !! RETURN_ADDRESS_REGISTER →
  resolve_alias (program (m_cpu m2)) "ra" = "ra" →
  ∃ m3, execute_operation kb tick' actor' {| op_line := line'; mnemonic := "j"; operands := ["ra"] |} m2 = (Ok (), m3)
    ∧ pc (m_cpu m3) = line + 1 ∧ registers (m_cpu m3) = registers (m_cpu m2) ∧ m_fx m3 = m_fx m2.
Proof.
  intros Hok Hok2 Hline Hcall Hra Halias.
  destruct (execute_jump kb tick actor line "jal" m target) as [j Hj];
    [by right|apply Hok|]. rewrite Hj in Hcall. clear Hj.
  assert (registers (m_cpu m1) !! RETURN_ADDRESS_REGISTER = Some (f_of_Z (line + 1))) as Hm1.
  { simpl in Hcall. repeat case_match; simplify_eq/=. apply list_lookup_insert_eq.
    rewrite (cpu_ok_registers _ _ Hok). unfold RETURN_ADDRESS_REGISTER, REGISTER_COUNT. lia. }
  destruct (execute_jump kb tick' actor' line' "j" m2 "ra") as [j' Hj'];
    [by left|apply Hok2|]. rewrite Hj'. simpl.
  assert (value_of kb (set_pc (line' + 1) (m_cpu m2)) "ra" = Ok (f_of_Z (line + 1))) as ->.
  { unfold value_of, register_index_of. simpl. rewrite Halias. simpl. by rewrite Hra, Hm1. }
  rewrite line_target_of_Z by done. eexists. split_and!; done.
Qed.

(** ** The stack *)

Lemma stack_pointer_steps k :
  0 ≤ k < 512 → f_add (f_of_Z k) f_one = f_of_Z (k + 1) ∧ f_sub (f_of_Z (k + 1)) f_one = f_of_Z k.
Proof.
  intros Hk.
  assert (forallb (λ n, let k := Z.of_nat n in
    bool_decide (f_add (f_of_Z k) f_one = f_of_Z (k + 1))
    && bool_decide (f_sub (f_of_Z (k + 1)) f_one = f_of_Z k)) (seq 0 512) = true) as H
    by (vm_compute; reflexivity).
  rewrite forallb_forall in H. specialize (H (Z.to_nat k)).
  rewrite Z2Nat.id in H by lia. apply andb_prop in H as [H1 H2]; [|apply in_seq; lia].
  by apply bool_decide_eq_true in H1, H2.
Qed.

Lemma checked_address_of_Z k len label :
  0 ≤ k < len → len ≤ 2 ^ 53 → checked_address (f_of_Z k) len label = Ok k.
Proof.
  intros Hk Hlen. unfold checked_address. rewrite f_of_Z_finite, f_of_Z_nonneg by lia. simpl.
  rewrite to_usize_trunc_of_Z by lia. destruct (Z.leb_spec len k); [lia|done].
Qed.

Section stack_ops.
Context (kb : KnowledgeBase) (c : Cpu) (k : Z).
Context (Hregs : length (registers c) = REGISTER_COUNT) (Hstack : length (stack c) = STACK_SIZE)
        (Hk : 0 ≤ k < Z.of_nat STACK_SIZE).
Set Default Proof Using "Type*".

Lemma push_acts v x :
  registers c !! STACK_POINTER_REGISTER = Some (f_of_Z k) → value_of kb c v = Ok x →
  ∃ j, exec_push kb [v] c =
    (Ok (), set_cpu_journal j
       (set_registers (<[STACK_POINTER_REGISTER := f_of_Z (k + 1)]> (registers c))
          (set_stack (<[Z.to_nat k := x]> (stack c)) c))).
Proof.
  intros Hsp Hx. unfold exec_push. unfold STACK_SIZE in *.
  match goal with |- context [(stack_pointer ≫= ?g) c] =>
    destruct (bind_observes _ _ g c observes_stack_pointer) as [j1 ->] end.
  rewrite Hsp. cbn [expect]. unfold mbind at 1, outcome_mbind, outcome_bind.
  rewrite Hstack, checked_address_of_Z by lia.
  match goal with |- context [(operand_value kb [v] 0 ≫= ?g) ?c'] =>
    change (operand_value kb [v] 0) with (value kb v);
    destruct (bind_observes _ _ g c' (observes_value kb v)) as [j2 ->];
    change (value_of kb c' v) with (value_of kb c v) end.
  rewrite Hx. cbv beta iota.
  destruct (write_stack_spec k x (set_cpu_journal j2 (set_cpu_journal j1 c))) as [j3 Hw]; [simpl; lia|].
  unfold mbind at 1, M_mbind at 1. rewrite Hw.
  match goal with |- context [(read_register ?r ≫= ?g) ?c'] =>
    destruct (bind_observes _ _ g c' (observes_read_register r)) as [j4 ->] end.
  simpl. rewrite Hsp. cbn [expect]. rewrite (proj1 (stack_pointer_steps k ltac:(lia))).
  match goal with |- context [write_register_at ?i ?y ?c'] =>
    destruct (write_register_at_spec i y c') as [j5 ->] end.
  - simpl. rewrite Hregs. unfold STACK_POINTER_REGISTER, REGISTER_COUNT. lia.
  - by exists j5.
Qed.

Lemma pop_acts r x i :
  registers c !! STACK_POINTER_REGISTER = Some (f_of_Z (k + 1)) → stack c !! Z.to_nat k = Some x →
  let c1 := set_registers (<[STACK_POINTER_REGISTER := f_of_Z k]> (registers c)) c in
  register_index_of c1 r = Ok i →
  ∃ j, exec_pop [r] c =
    (Ok (), set_cpu_journal j (set_registers (<[i := x]> (registers c1)) c1)).
Proof.
  intros Hsp Hx c1 Hi. unfold exec_pop. unfold STACK_SIZE in *.
  match goal with |- context [(read_register ?r ≫= ?g) ?c'] =>
    destruct (bind_observes _ _ g c' (observes_read_register r)) as [j1 ->] end.
  rewrite Hsp. cbn [expect]. rewrite (proj2 (stack_pointer_steps k ltac:(lia))). cbv zeta.
  destruct (write_register_at_spec STACK_POINTER_REGISTER (f_of_Z k) (set_cpu_journal j1 c)) as [j2 Hw].
  { simpl. rewrite Hregs. unfold STACK_POINTER_REGISTER, REGISTER_COUNT. lia. }
  unfold mbind at 1, M_mbind at 1. rewrite Hw.
  change (set_cpu_journal j2 (set_registers _ _)) with (set_cpu_journal j2 c1).
  unfold stack_len, gets, lift, mbind at 1, M_mbind at 1. cbn [stack set_cpu_journal c1 set_registers].
  rewrite Hstack, checked_address_of_Z by lia.
  unfold mbind at 1, M_mbind at 1.
  change (operand [r] 0 ≫= λ target : string, read_stack k ≫= λ v, write_register target v)
    with (read_stack k ≫= λ v, write_register r v).
  match goal with |- context [(read_stack ?a ≫= ?g) ?c'] =>
    destruct (bind_observes _ _ g c' (observes_read_stack a)) as [j3 ->] end.
  simpl. rewrite Hx. cbn [expect].
  match goal with |- context [write_register ?s ?y ?c'] =>
    destruct (write_register_spec s y c') as [j4 ->];
      [simpl; by rewrite length_insert|change (register_index_of c' s) with (register_index_of c1 s)] end.
  rewrite Hi. by exists j4.
Qed.
End stack_ops.

(** A value pushed is the value a following [pop] delivers: the pair leaves the
    stack pointer where it was, stores the value at the address it named, and
    changes only the register that is popped into. *)
Theorem push_pop `{Libm} `{Build} (kb : KnowledgeBase) (tick : Z) (actor : EffectActor)
    (line line' : Z) (v r : string) (m : Machine) (nd : nat) (k : Z) (x : f64) (i : nat) :
  cpu_ok nd (m_cpu m) → 0 ≤ k < 512 →
  registers (m_cpu m) !! STACK_POINTER_REGISTER = Some (f_of_Z k) →
  value_of kb (m_cpu m) v = Ok x → register_index_of (m_cpu m) r = Ok i →
  ∃ m1 m2,
    execute_operation kb tick actor {| op_line := line; mnemonic := "push"; operands := [v] |} m = (Ok (), m1)
    ∧ execute_operation kb tick actor {| op_line := line'; mnemonic := "pop"; operands := [r] |} m1 = (Ok (), m2)
    ∧ registers (m_cpu m2) = <[i := x]> (registers (m_cpu m))
    ∧ stack (m_cpu m2) = <[Z.to_nat k := x]> (stack (m_cpu m))
    ∧ m_fx m2 = m_fx m.
Proof.
  intros [Hr Hs _ _] Hk Hsp Hv Hi.
  destruct (write_pc_spec (line + 1) (m_cpu m)) as [j1 Hpc].
  destruct (push_acts kb (set_cpu_journal j1 (set_pc (line + 1) (m_cpu m))) k Hr Hs Hk v x Hsp Hv) as [j2 Hpush].
  eexists _. rewrite (execute_operation_cpu kb tick actor _ (exec_push kb [v])) by reflexivity.
  unfold mbind at 1, M_mbind at 1. cbn [op_line]. rewrite Hpc, Hpush.
  match goal with |- context [set_m_cpu ?c' m] => set (c1 := c') end.
  destruct (write_pc_spec (line' + 1) c1) as [j3 Hpc'].
  assert (<[STACK_POINTER_REGISTER := f_of_Z k]> (registers c1) = registers (m_cpu m)) as Hback.
  { subst c1. simpl. rewrite list_insert_insert_eq. by apply list_insert_id. }
  destruct (pop_acts (set_cpu_journal j3 (set_pc (line' + 1) c1)) k) with (r := r) (x := x) (i := i)
    as [j4 Hpop]; try done.
  { simpl. by rewrite length_insert. }
  { simpl. by rewrite length_insert. }
  { simpl. apply list_lookup_insert_eq. rewrite Hr. unfold STACK_POINTER_REGISTER, REGISTER_COUNT. lia. }
  { simpl. apply list_lookup_insert_eq. rewrite Hs. unfold STACK_SIZE. lia. }
  { rewrite <-Hi. apply register_index_of_ext; [exact Hback|done]. }
  eexists. split; [done|].
  rewrite (execute_operation_cpu kb tick actor _ (exec_pop [r])) by reflexivity.
  unfold mbind at 1, M_mbind at 1. cbn [op_line].
  match goal with |- context [write_pc (line' + 1) ?d] => change d with c1 end. rewrite Hpc', Hpop.
  split_and!; [done| |done|done]. simpl. by rewrite <-Hback at 2.
Qed.

(** ** The random stream *)

Lemma shr_lxor_zero x k : 0 < k → 0 ≤ x → Z.lxor x (Z.shiftr x k) = 0 → x = 0.
Proof.
  intros Hk Hx H%Z.lxor_eq. rewrite Z.shiftr_div_pow2 in H by lia.
  destruct (Z.eq_dec x 0); [done|].
  assert (x / 2 ^ k < x); [|lia]. apply Z.div_lt; [lia|]. apply Z.pow_gt_1; lia.
Qed.

Lemma shl_lxor_zero x k :
  0 < k → Z.gcd (2 ^ 64) (2 ^ k - 1) = 1 → 0 ≤ x < 2 ^ 64 →
  Z.lxor x (wrap_u 64 (Z.shiftl x k)) = 0 → x = 0.
Proof.
  intros Hk Hg Hx H%Z.lxor_eq. unfold wrap_u in H. rewrite Z.shiftl_mul_pow2 in H by lia.
  assert (2 ^ 64 | (2 ^ k - 1) * x) as Hd.
  { exists (x * 2 ^ k / 2 ^ 64). pose proof (Z.div_mod (x * 2 ^ k) (2 ^ 64) ltac:(lia)). lia. }
  apply Z.gauss in Hd as [q Hq]; [nia|done].
Qed.

Lemma lxor_range w a b : 0 ≤ w → 0 ≤ a < 2 ^ w → 0 ≤ b < 2 ^ w → 0 ≤ Z.lxor a b < 2 ^ w.
Proof.
  intros Hw Ha Hb. assert (0 ≤ Z.lxor a b) as H0 by (apply Z.lxor_nonneg; lia). split; [done|].
  destruct (Z.eq_dec (Z.lxor a b) 0) as [->|]; [lia|]. apply Z.log2_lt_pow2; [lia|].
  eapply Z.le_lt_trans; [apply Z.log2_lxor; lia|].
  destruct (Z.eq_dec w 0) as [->|]; [change (2 ^ 0) with 1 in *; assert (a = 0) by lia; assert (b = 0) by lia; subst; done|].
  apply Z.max_lub_lt.
  - destruct (Z.eq_dec a 0) as [->|]; [change (Z.log2 0) with 0; lia|apply Z.log2_lt_pow2; lia].
  - destruct (Z.eq_dec b 0) as [->|]; [change (Z.log2 0) with 0; lia|apply Z.log2_lt_pow2; lia].
Qed.

Lemma shiftr_range x k : 0 ≤ k → 0 ≤ x < 2 ^ 64 → 0 ≤ Z.shiftr x k < 2 ^ 64.
Proof.
  intros Hk Hx. rewrite Z.shiftr_div_pow2 by lia.
  assert (0 < 2 ^ k) by (apply Z.pow_pos_nonneg; lia). split; [by apply Z.div_pos; lia|].
  eapply Z.le_lt_trans; [apply Z.div_le_upper_bound with (q := x); nia|lia].
Qed.

(** One step never reaches zero from another state, and stays within 64 bits. *)
Lemma xorshift_range x : 0 < x < 2 ^ 64 → 0 < xorshift x < 2 ^ 64.
Proof.
  intros Hx. unfold xorshift.
  set (a := Z.lxor x _). assert (0 ≤ a < 2 ^ 64) as Ha.
  { apply lxor_range; [lia..|]. apply wrap_u_range. lia. }
  assert (a ≠ 0) as Ha0.
  { intros H. apply shl_lxor_zero in H; [lia|lia|reflexivity|lia]. }
  set (b := Z.lxor a _). assert (0 ≤ b < 2 ^ 64) as Hb.
  { apply lxor_range; [lia..|]. apply shiftr_range; lia. }
  assert (b ≠ 0) as Hb0.
  { intros H. apply shr_lxor_zero in H; lia. }
  set (d := Z.lxor b _). assert (0 ≤ d < 2 ^ 64) as Hd.
  { apply lxor_range; [lia..|]. apply wrap_u_range. lia. }
  assert (d ≠ 0) as Hd0.
  { intros H. apply shl_lxor_zero in H; [lia|lia|reflexivity|lia]. }
  lia.
Qed.

(** The random stream of a CPU is never absorbed by the zero state: whatever
    [rand] returns, a state that is not zero stays so and within 64 bits, and the
    register receives the top 53 bits of the new state over [2 ^ 53]. *)
Theorem rand_stream `{Libm} `{Build} (kb : KnowledgeBase) (tick : Z) (actor : EffectActor)
    (line : Z) (r : string) (m m' : Machine) (res : outcome message ()) (nd : nat) :
  cpu_ok nd (m_cpu m) → 0 < random_state (m_cpu m) < 2 ^ 64 →
  execute_operation kb tick actor {| op_line := line; mnemonic := "rand"; operands := [r] |} m = (res, m') →
  0 < random_state (m_cpu m') < 2 ^ 64
  ∧ (∀ i, register_index_of (m_cpu m) r = Ok i →
      registers (m_cpu m') = <[i := f_div (f_of_Z (random_state (m_cpu m') / 2 ^ 11)) (f_of_Z (2 ^ 53))]>
                               (registers (m_cpu m))).
Proof.
  intros Hok Hs. rewrite (execute_operation_cpu kb tick actor _ (exec_rand [r])) by reflexivity.
  destruct (write_pc_spec (line + 1) (m_cpu m)) as [j1 Hpc].
  unfold mbind at 1, M_mbind at 1. cbn [op_line]. rewrite Hpc.
  unfold exec_rand, gets. unfold mbind at 1, M_mbind at 1. cbv zeta.
  match goal with |- context [write_random_state ?v ≫= ?g] => change v with (xorshift (random_state (m_cpu m))) end.
  match goal with |- context [(write_random_state ?v ≫= ?g) ?d] =>
    destruct (write_random_state_spec v d) as [j2 Hw] end.
  unfold mbind at 1, M_mbind at 1. rewrite Hw.
  match goal with |- context [(operand [r] 0 ≫= λ target, write_register target ?y)] =>
    change (operand [r] 0 ≫= λ target, write_register target y) with (write_register r y) end.
  match goal with |- context [write_register ?s ?y ?d] =>
    destruct (write_register_spec s y d) as [j3 ->]; [apply Hok|];
    change (register_index_of d s) with (register_index_of (m_cpu m) s) end.
  pose proof (xorshift_range _ Hs) as Hx.
  destruct (register_index_of (m_cpu m) r) as [i| |] eqn:E; intros [= <- <-]; simpl;
    (split; [exact Hx|]); [|done..].
  intros ? [= <-]. rewrite Z.shiftr_div_pow2 by lia. done.
Qed.

(** ** Safety *)

Lemma safe_execute_operation `{Libm} `{Build} kb tick actor op sizes nn :
  overflow_checks = false → (operands_read (mnemonic op) ≤ length (operands op))%nat →
  safe (machine_ok sizes nn) (execute_operation kb tick actor op) any.
Proof.
  intros Hrelease Hlen. unfold execute_operation. eapply safe_bind; [apply safe_on_cpu, safe_write_pc|intros _ _].
  destruct (execute_cpu kb tick op) eqn:E; [|by apply safe_execute_device].
  apply safe_on_cpu. by eapply safe_execute_cpu.
Qed.

(** C24.  Built as released, an instruction with the operands it reads, started on a
    machine that is well formed, never panics, and leaves the machine well formed:
    register and stack sizes, pins, device memories and the world's indices.  That
    holds for every mnemonic, also when the instruction fails. *)
Theorem execute_operation_safe `{Libm} `{Build} (kb : KnowledgeBase) (tick : Z) (actor : EffectActor)
    (op : Operation) (m : Machine) (sizes : list nat) (nn : nat) :
  overflow_checks = false → (operands_read (mnemonic op) ≤ length (operands op))%nat →
  machine_ok sizes nn m →
  let '(r, m') := execute_operation kb tick actor op m in r ≠ Panic ∧ machine_ok sizes nn m'.
Proof.
  intros Hrelease Hlen Hok.
  pose proof (safe_execute_operation kb tick actor op sizes nn Hrelease Hlen) as Hsafe.
  specialize (Hsafe m Hok). destruct (execute_operation kb tick actor op m) as [[[]|e|] m'].
  - by split; [|apply Hsafe].
  - by split.
  - done.
Qed.

(** ** A concrete machine *)

#[local] Instance sample_libm : Libm :=
  {| f_powf := f_mul; f_atan2 := f_div; f_acos := id; f_asin := id; f_atan := id; f_cos := id;
     f_exp := id; f_ln := id; f_sin := id; f_tan := id |}.
#[local] Instance release_build : Build := {| overflow_checks := false |}.

Definition sample_program : Program :=
  {| source_path := "main.ic10"; debug_source_path := "main.ic10"; source := "";
     operations := []; labels := [("loop", 4)]; defines := [("LIMIT", "3")]; aliases := [("count", "r1")];
     generated_to_source := [] |}.

Definition sample_cpu : Cpu :=
  {| cpu_id := "h"; program_id := "h"; cpu_name := "Housing"; housing := 0; program := sample_program;
     registers := repeat f_zero 18; stack := repeat f_zero 512; pins := [Some 1%nat; None; None; None; None; None];
     pc := 0; state := Ready; error := None; operations_this_tick := 0; random_state := 88172645463325252;
     cpu_journal := journal_default; journal_enabled := false; journal_actor := ActorScheduler |}.

Definition sample_machine : Machine :=
  {| m_cpu := sample_cpu; m_fx := {| fx_world := sample_world; fx_journal := journal_default |} |}.

Lemma sample_machine_ok : machine_ok [0; 4; 4]%nat 1 sample_machine.
Proof.
  split.
  - constructor; simpl; [reflexivity|reflexivity| |lia]. split; [reflexivity|].
    repeat apply Forall_cons_2; [..|apply Forall_nil_2]; intros d [= <-]; lia.
  - split_and!; [reflexivity|reflexivity|apply sample_world_ok].
Qed.

Definition run (m : string) (ops : list string) : outcome message () * Machine :=
  execute_operation sample_kb 0 ActorDebugger {| op_line := 2; mnemonic := m; operands := ops |} sample_machine.

Lemma alu_instructions_correct_witness :
  ∃ j, run "add" ["count"; "LIMIT"; "2"] =
       (Ok (), set_m_cpu (set_cpu_journal j
          (set_registers (<[1%nat := f_of_Z 5]> (repeat f_zero 18)) (set_pc 3 sample_cpu))) sample_machine).
Proof.
  destruct (alu_instructions_correct sample_kb 0 ActorDebugger "add" (Alu2 f_add)
    {| op_line := 2; mnemonic := "add"; operands := ["count"; "LIMIT"; "2"] |} sample_machine 3) as [j Hj].
  - by right; left.
  - reflexivity.
  - reflexivity.
  - apply sample_machine_ok.
  - exists j. unfold run. rewrite Hj. vm_compute. reflexivity.
Defined.

Lemma comparison_branch_correct_witness :
  ∃ j, run "brltal" ["count"; "LIMIT"; "-2"] =
       (Ok (), set_m_cpu (set_cpu_journal j
          (set_pc 0 (set_registers (<[16%nat := f_of_Z 3]> (repeat f_zero 18)) sample_cpu))) sample_machine).
Proof.
  destruct (comparison_branch_correct sample_kb 0 ActorDebugger "lt" f_lt true false true
    {| op_line := 2; mnemonic := "brltal"; operands := ["count"; "LIMIT"; "-2"] |} sample_machine 3) as [j Hj].
  - do 5 right. left.
  - reflexivity.
  - reflexivity.
  - apply sample_machine_ok.
  - exists j. unfold run. rewrite Hj. vm_compute. reflexivity.
Defined.

Lemma call_returns_witness :
  let m1 := (run "jal" ["loop"]).2 in
  ∃ m3, execute_operation sample_kb 0 ActorDebugger {| op_line := 4; mnemonic := "j"; operands := ["ra"] |} m1
        = (Ok (), m3) ∧ pc (m_cpu m3) = 3 ∧ registers (m_cpu m3) = registers (m_cpu m1) ∧ m_fx m3 = m_fx m1.
Proof.
  intros m1. apply (call_returns sample_kb 0 0 ActorDebugger ActorDebugger 2 4 "loop" sample_machine m1 m1 3 3).
  - apply sample_machine_ok.
  - constructor; [vm_compute; reflexivity..| |vm_compute; lia]. apply sample_machine_ok.
  - lia.
  - vm_compute. reflexivity.
  - reflexivity.
  - vm_compute. reflexivity.
Defined.

Lemma push_pop_witness :
  ∃ m1 m2, run "push" ["LIMIT"] = (Ok (), m1)
    ∧ execute_operation sample_kb 0 ActorDebugger {| op_line := 3; mnemonic := "pop"; operands := ["r7"] |} m1
      = (Ok (), m2)
    ∧ registers (m_cpu m2) = <[7%nat := f_of_Z 3]> (repeat f_zero 18)
    ∧ stack (m_cpu m2) = <[0%nat := f_of_Z 3]> (repeat f_zero 512) ∧ m_fx m2 = m_fx sample_machine.
Proof.
  apply (push_pop sample_kb 0 ActorDebugger 2 3 "LIMIT" "r7" sample_machine 3 0 (f_of_Z 3) 7).
  - apply sample_machine_ok.
  - lia.
  - vm_compute. reflexivity.
  - vm_compute. reflexivity.
  - vm_compute. reflexivity.
Defined.

Lemma rand_stream_witness :
  let m' := (run "rand" ["r0"]).2 in
  0 < random_state (m_cpu m') < 2 ^ 64 ∧ f_lt (default f_one (registers (m_cpu m') !! 0%nat)) f_one = true.
Proof.
  intros m'. destruct (rand_stream sample_kb 0 ActorDebugger 2 "r0" sample_machine m' (Ok ()) 3) as [H _].
  - apply sample_machine_ok.
  - vm_compute. by split.
  - vm_compute. reflexivity.
  - split; [exact H|vm_compute; reflexivity].
Defined.

Lemma execute_operation_safe_witness :
  let '(r, m') := run "put" ["d0"; "1"; "42"] in r ≠ Panic ∧ machine_ok [0; 4; 4]%nat 1 m'.
Proof.
  apply (execute_operation_safe sample_kb 0 ActorDebugger
    {| op_line := 2; mnemonic := "put"; operands := ["d0"; "1"; "42"] |} sample_machine [0; 4; 4]%nat 1).
  - reflexivity.
  - vm_compute. lia.
  - apply sample_machine_ok.
Defined.
