(* ===== verification/Frame.v ===== *)
(** * What an instruction leaves alone

    An instruction changes the registers, the stack, the program counter, the state
    and the random stream of its processor.  Everything else the scheduler looks at,
    its program, its housing, its pins and its operation counter, stays, on every
    path, also when the instruction fails. *)

From S2P Require Import Prelude BTree Text F64 Knowledge Literals Journal Scenario World Program Cpu Exec.
Local Open Scope string_scope.
Local Open Scope Z_scope.

(** [m] relates the state before to the state after, whatever the outcome. *)
Definition keeps {S E A} (R : S → S → Prop) (m : M S E A) : Prop := ∀ s, R s (m s).2.

Create HintDb frame discriminated.

Lemma keeps_modify {S E} (R : S → S → Prop) (f : S → S) : (∀ s, R s (f s)) → keeps (E:=E) R (modify f).
Proof. intros Hf s. apply Hf. Qed.

#[local] Set Default Proof Using "Type*".
Lemma keeps_attempt {S E A} (R : S → S → Prop) (m : M S E A) : keeps R m → keeps R (attempt m).
Proof. intros Hm s. unfold attempt. specialize (Hm s). by destruct (m s) as [[a| |] s']. Qed.

Section keeps.
Context {S E : Type} (R : S → S → Prop) `{!PreOrder R}.
Implicit Types (A B : Type).

Lemma keeps_ret A (a : A) : keeps (E:=E) R (mret a).
Proof. intros s. reflexivity. Qed.
Lemma keeps_throw A (e : E) : keeps (A:=A) R (throw e).
Proof. intros s. reflexivity. Qed.
Lemma keeps_gets A (f : S → A) : keeps (E:=E) R (gets f).
Proof. intros s. reflexivity. Qed.
Lemma keeps_lift A (r : outcome E A) : keeps R (lift r).
Proof. intros s. reflexivity. Qed.
Lemma keeps_get_or_panic A (f : S → option A) : keeps (E:=E) R (get_or_panic f).
Proof. intros s. unfold get_or_panic. destruct (f s); reflexivity. Qed.

Lemma keeps_bind A B (m : M S E A) (k : A → M S E B) :
  keeps R m → (∀ a, keeps R (k a)) → keeps R (m ≫= k).
Proof.
  intros Hm Hk s. unfold mbind, M_mbind. specialize (Hm s).
  destruct (m s) as [[a| |] s']; simpl in *; [|done..]. etransitivity; [done|]. apply Hk.
Qed.

Lemma keeps_when b (m : M S E ()) : keeps R m → keeps R (when b m).
Proof. destruct b; [done|]. intros _. apply keeps_ret. Qed.

Lemma keeps_for_each A (f : A → M S E ()) l : (∀ a, keeps R (f a)) → keeps R (for_each f l).
Proof.
  intros Hf. induction l as [|a l IH]; simpl; [apply keeps_ret|]. apply keeps_bind; [done|]. by intros.
Qed.

Lemma keeps_fold_m A B (f : A → B → M S E A) a l : (∀ a b, keeps R (f a b)) → keeps R (fold_m f a l).
Proof.
  intros Hf. revert a. induction l as [|b l IH]; intros a; simpl; [apply keeps_ret|].
  apply keeps_bind; [done|]. intros. apply IH.
Qed.
End keeps.
#[local] Set Default Proof Using "Type".

#[export] Hint Resolve keeps_ret keeps_throw keeps_gets keeps_lift keeps_get_or_panic : frame.

(** Takes a program apart; the leaves are solved from the hints. *)
Ltac keeps_run :=
  intros; repeat first
    [ solve [eauto 3 with frame typeclass_instances]
    | match goal with
      | |- keeps _ (_ ≫= _) => apply keeps_bind; [typeclasses eauto| |intros ?; cbv beta zeta]
      | |- keeps _ (attempt _) => apply keeps_attempt
      | |- keeps _ (when _ _) => apply keeps_when; [typeclasses eauto|]
      | |- keeps _ (for_each _ _) => apply keeps_for_each; [typeclasses eauto|intros ?]
      | |- keeps _ (fold_m _ _ _) => apply keeps_fold_m; [typeclasses eauto|intros ? ?]
      | |- keeps _ (if ?b then _ else _) => destruct b
      | |- keeps _ (match ?x with _ => _ end) => destruct x
      | |- keeps _ (let _ := _ in _) => cbv zeta
      end ].

(** ** Processors *)

(** The parts of a processor an instruction never changes. *)
Definition control (c : Cpu) :=
  (cpu_id c, program_id c, cpu_name c, (housing c, program c), (pins c, operations_this_tick c, error c)).

Definition same_control (c c' : Cpu) : Prop := control c' = control c.

#[export] Instance same_control_preorder : PreOrder same_control.
Proof. split; [by intros c|]. intros a b c Hab Hbc. unfold same_control in *. congruence. Qed.

Lemma keeps_journaled f : keeps same_control (journaled f).
Proof. apply keeps_modify. intros c. by destruct (journal_enabled c). Qed.
#[export] Hint Resolve keeps_journaled : frame.

Lemma keeps_read_register i : keeps same_control (read_register i).
Proof. unfold read_register. keeps_run. Qed.
Lemma keeps_write_register_at i x : keeps same_control (write_register_at i x).
Proof. unfold write_register_at. keeps_run. by apply keeps_modify. Qed.
Lemma keeps_read_stack a : keeps same_control (read_stack a).
Proof. unfold read_stack. keeps_run. Qed.
Lemma keeps_write_stack a x : keeps same_control (write_stack a x).
Proof. unfold write_stack. keeps_run. by apply keeps_modify. Qed.
Lemma keeps_write_pc v : keeps same_control (write_pc v).
Proof. unfold write_pc. keeps_run. by apply keeps_modify. Qed.
Lemma keeps_write_state v : keeps same_control (write_state v).
Proof. unfold write_state. keeps_run. by apply keeps_modify. Qed.
Lemma keeps_write_random_state v : keeps same_control (write_random_state v).
Proof. unfold write_random_state. keeps_run. by apply keeps_modify. Qed.
#[export] Hint Resolve keeps_read_register keeps_write_register_at keeps_read_stack keeps_write_stack
  keeps_write_pc keeps_write_state keeps_write_random_state : frame.

Lemma keeps_register_index s : keeps same_control (register_index s).
Proof. unfold register_index. keeps_run. Qed.
Lemma keeps_cpu_resolve_number kb s : keeps same_control (cpu_resolve_number kb s).
Proof. by intros c. Qed.
#[export] Hint Resolve keeps_register_index keeps_cpu_resolve_number : frame.

Lemma keeps_value kb s : keeps same_control (value kb s).
Proof. unfold value. keeps_run. Qed.
Lemma keeps_write_register s x : keeps same_control (write_register s x).
Proof. unfold write_register. keeps_run. Qed.
Lemma keeps_stack_pointer : keeps same_control stack_pointer.
Proof. unfold stack_pointer, stack_len. keeps_run. Qed.
Lemma keeps_operand ops n : keeps same_control (operand ops n).
Proof. unfold operand. keeps_run. Qed.
#[export] Hint Resolve keeps_value keeps_write_register keeps_stack_pointer keeps_operand : frame.
Lemma keeps_operand_value kb ops n : keeps same_control (operand_value kb ops n).
Proof. unfold operand_value. keeps_run. Qed.
#[export] Hint Resolve keeps_operand_value : frame.

Lemma keeps_branch_to `{Build} op x (relative link : bool) : keeps same_control (branch_to op x relative link).
Proof. unfold branch_to. keeps_run. Qed.
#[export] Hint Resolve keeps_branch_to : frame.
Lemma keeps_branch_last `{Build} kb op : keeps same_control (branch_last kb op).
Proof. unfold branch_last. keeps_run. Qed.
#[export] Hint Resolve keeps_branch_last : frame.

Lemma keeps_execute_cpu `{Libm} `{Build} kb tick op m : execute_cpu kb tick op = Some m → keeps same_control m.
Proof.
  unfold execute_cpu. intros Hm.
  repeat match type of Hm with (if ?b then _ else _) = _ => destruct b | match ?x with _ => _ end = _ => destruct x end;
    try discriminate Hm; injection Hm as <-;
    unfold exec_move, binary, unary, exec_clamp, exec_lerp, exec_rand, bitwise_binary, exec_not, exec_ext, exec_ins,
      exec_select, selection_binary, selection_unary, exec_sap, exec_sapz, exec_jump, execute_comparison_branch,
      exec_bnan, exec_bap, exec_bapz, exec_push, exec_pop, exec_peek, exec_poke, exec_yield, exec_sleep, stack_len;
    keeps_run.
Qed.

(** ** Machines *)

Definition same_machine_control (m m' : Machine) : Prop := same_control (m_cpu m) (m_cpu m').

#[export] Instance same_machine_control_preorder : PreOrder same_machine_control.
Proof.
  split; [intros m; unfold same_machine_control; reflexivity|].
  intros a b c Hab Hbc. unfold same_machine_control in *. by etransitivity.
Qed.

Lemma keeps_on_cpu {A} (m : CM A) : keeps same_control m → keeps same_machine_control (on_cpu m).
Proof. intros Hm s. unfold on_cpu, zoom. specialize (Hm (m_cpu s)). by destruct (m (m_cpu s)). Qed.
Lemma keeps_on_fx {A} (m : FX A) : keeps same_machine_control (on_fx m).
Proof. intros s. unfold on_fx, zoom. by destruct (m (m_fx s)). Qed.
#[export] Hint Resolve keeps_on_cpu keeps_on_fx : frame.

Lemma keeps_find_reference r : keeps same_machine_control (find_reference r).
Proof. unfold find_reference. keeps_run. Qed.
Lemma keeps_logic_name kb s : keeps same_control (logic_name kb s).
Proof. unfold logic_name. keeps_run. Qed.
#[export] Hint Resolve keeps_find_reference keeps_logic_name : frame.
Lemma keeps_attempt_register_index s : keeps same_control (attempt (register_index s)).
Proof. apply keeps_attempt. auto with frame. Qed.
#[export] Hint Resolve keeps_attempt_register_index : frame.
Lemma keeps_device_reference kb s : keeps same_machine_control (device_reference kb s).
Proof. unfold device_reference. keeps_run. Qed.
#[export] Hint Resolve keeps_device_reference : frame.

(** A computation on the processor written in place. *)
Ltac keeps_cpu := apply keeps_on_cpu; keeps_run.

Lemma keeps_operand_field kb ops n : keeps same_machine_control (operand_field kb ops n).
Proof. unfold operand_field. keeps_cpu. Qed.
Lemma keeps_operand_device kb ops n : keeps same_machine_control (operand_device kb ops n).
Proof. unfold operand_device. keeps_run. Qed.
Lemma keeps_store_operand ops n x : keeps same_machine_control (store_operand ops n x).
Proof. unfold store_operand. keeps_cpu. Qed.
#[export] Hint Resolve keeps_operand_field keeps_operand_device keeps_store_operand : frame.

Lemma keeps_memory_target kb op (direct : bool) : keeps same_machine_control (memory_target kb op direct).
Proof. unfold memory_target. keeps_run. Qed.
Lemma keeps_clear_memory actor target : keeps same_machine_control (clear_memory actor target).
Proof. unfold clear_memory, stack_len. keeps_run; keeps_cpu. Qed.
#[export] Hint Resolve keeps_memory_target keeps_clear_memory : frame.

Lemma keeps_execute_memory kb actor op (direct : bool) : keeps same_machine_control (execute_memory kb actor op direct).
Proof. unfold execute_memory, stack_len. keeps_run. Qed.
Lemma keeps_execute_slot kb actor op : keeps same_machine_control (execute_slot kb actor op).
Proof. unfold execute_slot. keeps_run. Qed.
Lemma keeps_batch_mode kb s : keeps same_control (batch_mode kb s).
Proof. unfold batch_mode. keeps_run. Qed.
#[export] Hint Resolve keeps_execute_memory keeps_execute_slot keeps_batch_mode : frame.
Lemma keeps_optional_operand kb ops (present : bool) cast cursor :
  keeps same_machine_control (optional_operand kb ops present cast cursor).
Proof. unfold optional_operand. keeps_run. Qed.
Lemma keeps_data_network : keeps same_machine_control data_network.
Proof. unfold data_network. keeps_run. Qed.
#[export] Hint Resolve keeps_optional_operand keeps_data_network : frame.
Lemma keeps_execute_batch_load kb actor op : keeps same_machine_control (execute_batch_load kb actor op).
Proof. unfold execute_batch_load. keeps_run. keeps_cpu. Qed.
Lemma keeps_execute_batch_store kb actor op : keeps same_machine_control (execute_batch_store kb actor op).
Proof. unfold execute_batch_store. keeps_run. Qed.
#[export] Hint Resolve keeps_execute_batch_load keeps_execute_batch_store : frame.

Lemma keeps_execute_device `{Build} kb actor op : keeps same_machine_control (execute_device kb actor op).
Proof.
  unfold execute_device, exec_load, exec_store, exec_load_direct, exec_store_direct, exec_device_branch,
    exec_valid_branch, exec_device_select.
  keeps_run; keeps_cpu; apply keeps_attempt; auto with frame.
Qed.

Lemma keeps_execute_operation `{Libm} `{Build} kb tick actor op :
  keeps same_machine_control (execute_operation kb tick actor op).
Proof.
  unfold execute_operation. apply keeps_bind; [typeclasses eauto|auto with frame|intros _].
  destruct (execute_cpu kb tick op) as [m|] eqn:E; [|apply keeps_execute_device].
  apply keeps_on_cpu. by eapply keeps_execute_cpu.
Qed.
