(* ===== verification/Behaviour.v ===== *)
(** * Built-in device behaviours

    [crates/ic10-sim/src/behaviour.rs]: the material-handling model of vending
    machines, digital chute valves and chute outlets, run at the end of each tick,
    and the queue of scheduled field writes, run at its start. *)

From S2P Require Import Prelude BTree Text F64 Knowledge Literals Journal Scenario World.
Local Open Scope string_scope.
Local Open Scope Z_scope.

Definition MATERIAL_HANDLING_MODEL : string := "builtin.material-handling".
Definition MATERIAL_HANDLING_VERSION : Z := 1.
Definition VENDING_MACHINE : string := "StructureVendingMachine".
Definition DIGITAL_VALVE : string := "StructureChuteDigitalValve".
Definition CHUTE_OUTLET : string := "StructureChuteOutlet".

(** Source: [crates/ic10-sim/src/behaviour.rs] [BehaviourKind] *)
Inductive BehaviourKind := Passive | VendingMachine | DigitalChuteValve | ChuteOutlet.

(** Source: [crates/ic10-sim/src/behaviour.rs] [BehaviourDescriptor] *)
Record BehaviourDescriptor := {
  bd_model : string;
  bd_version : Z;
  bd_kind : BehaviourKind;
  bd_modelled : bool;
  bd_dependencies : list string;
}.

(** Source: [crates/ic10-sim/src/behaviour.rs] [BehaviourSelector] *)
Inductive BehaviourSelector :=
  | Exact (prefab : string)
  | Prefix (prefab : string)
  | Fallback.

(** Source: [crates/ic10-sim/src/behaviour.rs] [BehaviourCatalogEntry] *)
Record BehaviourCatalogEntry := {
  ce_selector : BehaviourSelector;
  ce_descriptor : BehaviourDescriptor;
}.

(** Source: [crates/ic10-sim/src/behaviour.rs] [active_descriptor] *)
Definition active_descriptor (kind : BehaviourKind) : BehaviourDescriptor :=
  {| bd_model := MATERIAL_HANDLING_MODEL; bd_version := MATERIAL_HANDLING_VERSION; bd_kind := kind;
     bd_modelled := true; bd_dependencies := ["fields"; "slots"; "chute"] |}.

(** Source: [crates/ic10-sim/src/behaviour.rs] [passive_descriptor] *)
Definition passive_descriptor : BehaviourDescriptor :=
  {| bd_model := "passive"; bd_version := 1; bd_kind := Passive; bd_modelled := false;
     bd_dependencies := [] |}.

(** Source: [crates/ic10-sim/src/behaviour.rs] [descriptor_for_prefab] *)
Definition descriptor_for_prefab (prefab : string) : BehaviourDescriptor :=
  if String.eqb prefab VENDING_MACHINE then active_descriptor VendingMachine
  else if starts_with DIGITAL_VALVE prefab then active_descriptor DigitalChuteValve
  else if String.eqb prefab CHUTE_OUTLET then active_descriptor ChuteOutlet
  else passive_descriptor.

(** Source: [crates/ic10-sim/src/behaviour.rs] [catalog_entry] *)
Definition catalog_entry (selector : BehaviourSelector) (kind : BehaviourKind) (modelled : bool) :
    BehaviourCatalogEntry :=
  {| ce_selector := selector;
     ce_descriptor := if modelled then active_descriptor kind else passive_descriptor |}.

(** Source: [crates/ic10-sim/src/behaviour.rs] [behaviour_catalog] *)
Definition behaviour_catalog : list BehaviourCatalogEntry :=
  [catalog_entry (Exact VENDING_MACHINE) VendingMachine true;
   catalog_entry (Prefix DIGITAL_VALVE) DigitalChuteValve true;
   catalog_entry (Exact CHUTE_OUTLET) ChuteOutlet true;
   {| ce_selector := Fallback; ce_descriptor := passive_descriptor |}].

(** Source: [crates/ic10-sim/src/behaviour.rs] [BehaviourState] *)
Record BehaviourState := {
  activations : Z;
  transfers : Z;
}.

(** Source: [crates/ic10-sim/src/behaviour.rs] [EventKey] *)
Record EventKey := {
  ek_tick : Z;
  ek_phase : Z;
  ek_device : Z;
  ek_sequence : Z;
}.

#[export] Instance EventKey_eq_dec : EqDecision EventKey.
Proof. solve_decision. Defined.

Definition key_tuple (k : EventKey) : Z * (Z * (Z * Z)) :=
  (ek_tick k, (ek_phase k, (ek_device k, ek_sequence k))).

(** The derived order: by tick, phase, device and sequence. *)
#[export] Program Instance EventKey_RustOrd : RustOrd EventKey :=
  {| rcmp a b := rcmp (key_tuple a) (key_tuple b) |}.
Next Obligation.
  intros [t p d s] [t' p' d' s']. rewrite rcmp_eq. unfold key_tuple. simpl. split; congruence.
Qed.
Next Obligation. intros a b. apply rcmp_antisym. Qed.
Next Obligation. intros a b c. apply rcmp_trans. Qed.

(** Source: [crates/ic10-sim/src/behaviour.rs] [ScheduledAction] *)
Inductive ScheduledAction :=
  | SetField (device : nat) (field : string) (value : f64).

(** Source: [crates/ic10-sim/src/behaviour.rs] [WriteNotice] *)
Record WriteNotice := {
  wn_device : nat;
  wn_field : string;
  wn_before_bits : Z;
  wn_after_bits : Z;
}.

(** Source: [crates/ic10-sim/src/behaviour.rs] [BehaviourRuntime] *)
Record BehaviourRuntime := {
  descriptors : list BehaviourDescriptor;
  states : list BehaviourState;
  scheduled : BTreeMap EventKey ScheduledAction;
  pending_writes : list WriteNotice;
  next_sequence : Z;
  last_error : option message;
}.

Definition set_states (v : list BehaviourState) (x : BehaviourRuntime) : BehaviourRuntime :=
  {| descriptors := descriptors x; states := v; scheduled := scheduled x; pending_writes := pending_writes x; next_sequence := next_sequence x; last_error := last_error x |}.
Definition set_scheduled (v : BTreeMap EventKey ScheduledAction) (x : BehaviourRuntime) : BehaviourRuntime :=
  {| descriptors := descriptors x; states := states x; scheduled := v; pending_writes := pending_writes x; next_sequence := next_sequence x; last_error := last_error x |}.
Definition set_pending_writes (v : list WriteNotice) (x : BehaviourRuntime) : BehaviourRuntime :=
  {| descriptors := descriptors x; states := states x; scheduled := scheduled x; pending_writes := v; next_sequence := next_sequence x; last_error := last_error x |}.
Definition set_last_error (v : option message) (x : BehaviourRuntime) : BehaviourRuntime :=
  {| descriptors := descriptors x; states := states x; scheduled := scheduled x; pending_writes := pending_writes x; next_sequence := next_sequence x; last_error := v |}.

(** Source: [crates/ic10-sim/src/behaviour.rs] [BehaviourError] *)
Record BehaviourError := {
  be_device : message;
  be_model : string;
  be_version : Z;
  be_hook : string;
  be_message : message;
}.

(** Source: [crates/ic10-sim/src/behaviour.rs] [fmt] *)
Definition behaviour_error_message (e : BehaviourError) : message :=
  ([PS "device `"] ++ be_device e ++ [PS "` behaviour "; PS (be_model e); PS "@"; PZ (be_version e);
   PS " "; PS (be_hook e); PS " failed: "] ++ be_message e)%list.

(** Source: [crates/ic10-sim/src/behaviour.rs] [BehaviourRuntime::build] *)
Definition build_runtime (world : World) : BehaviourRuntime :=
  let descriptors := (λ device, descriptor_for_prefab (prefab device)) <$> devices world in
  {| descriptors := descriptors;
     states := repeat {| activations := 0; transfers := 0 |} (length descriptors);
     scheduled := []; pending_writes := []; next_sequence := 0; last_error := None |}.

(** Source: [crates/ic10-sim/src/behaviour.rs] [descriptor] *)
Definition descriptor (r : BehaviourRuntime) (device : nat) : option BehaviourDescriptor :=
  descriptors r !! device.

(** Source: [crates/ic10-sim/src/behaviour.rs] [BehaviourRuntime::state] *)
Definition behaviour_state (r : BehaviourRuntime) (device : nat) : option BehaviourState :=
  states r !! device.

(** Source: [crates/ic10-sim/src/behaviour.rs] [notify_field_write] *)
Definition notify_field_write (device : nat) (field : string) (before after : f64) (r : BehaviourRuntime) :
    BehaviourRuntime :=
  set_pending_writes (pending_writes r ++
    [{| wn_device := device; wn_field := field; wn_before_bits := to_bits before;
        wn_after_bits := to_bits after |}])%list r.

(** ** The canonical encoding *)

Definition kind_code (k : BehaviourKind) : Z :=
  match k with Passive => 0 | VendingMachine => 1 | DigitalChuteValve => 2 | ChuteOutlet => 3 end.
Definition bool_code (b : bool) : Z := if b then 1 else 0.

Definition usize_bytes (n : Z) : list Z := le_bytes 8 n.
Definition text_bytes (s : string) : list Z := (usize_bytes (slen s) ++ bytes s)%list.

Definition descriptor_bytes (d : BehaviourDescriptor) (s : BehaviourState) : list Z :=
  (text_bytes (bd_model d) ++ le_bytes 4 (bd_version d) ++ [kind_code (bd_kind d); bool_code (bd_modelled d)]
   ++ usize_bytes (Z.of_nat (length (bd_dependencies d))) ++ concat (text_bytes <$> bd_dependencies d)
   ++ le_bytes 8 (activations s) ++ le_bytes 8 (transfers s))%list.

Definition event_bytes (e : EventKey * ScheduledAction) : list Z :=
  let '(key, SetField device field value) := e in
  (le_bytes 8 (ek_tick key) ++ [ek_phase key] ++ le_bytes 8 (ek_device key) ++ le_bytes 8 (ek_sequence key)
   ++ [0] ++ le_bytes 8 (Z.of_nat device) ++ text_bytes field ++ le_bytes 8 (to_bits value))%list.

Definition notice_bytes (n : WriteNotice) : list Z :=
  (le_bytes 8 (Z.of_nat (wn_device n)) ++ text_bytes (wn_field n) ++ le_bytes 8 (wn_before_bits n)
   ++ le_bytes 8 (wn_after_bits n))%list.

(** Source: [crates/ic10-sim/src/behaviour.rs] [deterministic_bytes] *)
Definition deterministic_bytes (display : f64 → string) (r : BehaviourRuntime) : list Z :=
  (bytes "IC10-BEHAVIOUR" ++ [0]
   ++ usize_bytes (Z.of_nat (length (descriptors r)))
   ++ concat (zip_with descriptor_bytes (descriptors r) (states r))
   ++ usize_bytes (Z.of_nat (length (scheduled r))) ++ concat (event_bytes <$> scheduled r)
   ++ usize_bytes (Z.of_nat (length (pending_writes r))) ++ concat (notice_bytes <$> pending_writes r)
   ++ le_bytes 8 (next_sequence r)
   ++ match last_error r with Some e => 1 :: text_bytes (render display e) | None => [0] end)%list.

(** ** Observations of the world *)

(** Source: [crates/ic10-sim/src/behaviour.rs] [field] *)
Definition field (world : World) (device : nat) (name : string) : outcome BehaviourError f64 :=
  d ← expect (devices world !! device);
  Ok (default f_zero (bt_get name (fields d))).

Definition fields_occupied (fields : BTreeMap string f64) : bool :=
  f_gt (default f_zero (bt_get "Occupied" fields)) f_zero
  || f_gt (default f_zero (bt_get "Quantity" fields)) f_zero.

(** Source: [crates/ic10-sim/src/behaviour.rs] [slot_occupied] *)
Definition slot_occupied (world : World) (device : nat) (slot : Z) : outcome BehaviourError bool :=
  d ← expect (devices world !! device);
  Ok (match bt_get slot (slots d) with Some fields => fields_occupied fields | None => false end).

(** The first device with a prefab accepted by [p] whose input is the network. *)
Definition device_on_input (p : string → bool) (world : World) (network : nat) : option nat :=
  find_map (λ '(index, device),
    if p (prefab device) && bool_decide (bt_get 0 (connections device) = Some network)
    then Some index else None) (enumerate (devices world)).

(** Source: [crates/ic10-sim/src/behaviour.rs] [digital_valve_on_input] *)
Definition digital_valve_on_input : World → nat → option nat := device_on_input (starts_with DIGITAL_VALVE).

(** Source: [crates/ic10-sim/src/behaviour.rs] [chute_outlet_on_input] *)
Definition chute_outlet_on_input : World → nat → option nat := device_on_input (String.eqb CHUTE_OUTLET).

(** ** Actions on the world *)

(** What a behaviour runs on. *)
Record BState := { b_runtime : BehaviourRuntime; b_world : World; b_journal : EffectJournal }.

Definition set_b_runtime (r : BehaviourRuntime) (s : BState) : BState :=
  {| b_runtime := r; b_world := b_world s; b_journal := b_journal s |}.
Definition set_b_world (w : World) (s : BState) : BState :=
  {| b_runtime := b_runtime s; b_world := w; b_journal := b_journal s |}.
Definition set_b_journal (j : EffectJournal) (s : BState) : BState :=
  {| b_runtime := b_runtime s; b_world := b_world s; b_journal := j |}.

Abbreviation BX := (M BState BehaviourError).

Definition b_intern (name : string) : BX SymbolId := λ s,
  let '(id, j) := intern name (b_journal s) in (Ok id, set_b_journal j s).
Definition b_write (actor : EffectActor) (target : EffectTarget) (before after : f64) : BX () :=
  modify (λ s, set_b_journal (write actor target before after (b_journal s)) s).
Definition b_write_bits (actor : EffectActor) (target : EffectTarget) (before after : Z) : BX () :=
  modify (λ s, set_b_journal (write_bits actor target before after (b_journal s)) s).
Definition b_observe {A} (f : World → outcome BehaviourError A) : BX A := λ s, (f (b_world s), s).
Definition b_device (device : nat) : BX Device := get_or_panic (λ s, devices (b_world s) !! device).
Definition b_alter (f : Device → Device) (device : nat) : BX () :=
  modify (λ s, set_b_world (alter_device f device (b_world s)) s).

(** The name an error gives a device. *)
Definition device_label (world : World) (device : nat) : message :=
  match devices world !! device with
  | Some item => [PS (dev_id item)]
  | None => [PS "#"; PZ (Z.of_nat device)]
  end.

(** Source: [crates/ic10-sim/src/behaviour.rs] [fail] *)
Definition fail {A} (device : nat) (hook : string) (text : message) : BX A := λ s,
  let d := default passive_descriptor (descriptor (b_runtime s) device) in
  let error := {| be_device := device_label (b_world s) device; be_model := bd_model d;
                  be_version := bd_version d; be_hook := hook; be_message := text |} in
  (Err error, set_b_runtime (set_last_error (Some (behaviour_error_message error)) (b_runtime s)) s).

Definition error_at (device : nat) (model : string) (version : Z) (hook text : string) : BehaviourError :=
  {| be_device := [PS "#"; PZ (Z.of_nat device)]; be_model := model; be_version := version; be_hook := hook;
     be_message := [PS text] |}.

(** The actor of a hook: [BehaviourWorld::new].
    Source: [crates/ic10-sim/src/behaviour.rs] [BehaviourWorld::new] *)
Definition behaviour_actor (actor_device : nat) (hook : string) : BX EffectActor :=
  d ← gets (λ s, descriptor (b_runtime s) actor_device);
  d ← lift (ok_or d (error_at actor_device "unknown" 0 hook "device index is out of range"));
  model ← b_intern (bd_model d);
  mret (ActorBehaviour actor_device model (bd_version d)).

(** Source: [crates/ic10-sim/src/behaviour.rs] [BehaviourWorld::set_field] *)
Definition set_field (actor : EffectActor) (hook : string) (device : nat) (name : string) (value : f64) : BX () :=
  target ← gets (λ s, devices (b_world s) !! device);
  target ← lift (ok_or target (error_at device "unknown" 0 hook "device index is out of range"));
  match bt_get name (fields target) with
  | None => fail device hook [PS "missing field `"; PS name; PS "`"]
  | Some before =>
      _ ← b_alter (λ d, set_fields (bt_insert name value (fields d)) d) device;
      id ← b_intern name;
      _ ← b_write actor (TDeviceField device id) before value;
      modify (λ s, set_b_runtime (notify_field_write device name before value (b_runtime s)) s)
  end.

(** Source: [crates/ic10-sim/src/behaviour.rs] [increment_field] *)
Definition increment_field (actor : EffectActor) (hook : string) (device : nat) (name : string) : BX () :=
  before ← b_observe (λ w, field w device name);
  set_field actor hook device name (f_add before f_one).

(** [slots.get_mut(&slot).expect(..).insert(name, value)] *)
Definition insert_slot_field (device : nat) (slot : Z) (name : string) (value : f64) : BX () :=
  d ← b_device device;
  fields ← lift (expect (bt_get slot (slots d)));
  b_alter (λ d, set_slots (bt_insert slot (bt_insert name value fields) (slots d)) d) device.

(** One field of the item that moves.
    Source: [crates/ic10-sim/src/behaviour.rs] [move_slot] lines 590-628 *)
Definition move_field (actor : EffectActor) (from_device : nat) (from_slot : Z) (to_device : nat)
    (to_slot : Z) (entry : string * f64) : BX () :=
  let '(name, value) := entry in
  source ← b_device from_device;
  source_before ← lift (expect (bt_get from_slot (slots source) ≫= bt_get name));
  _ ← insert_slot_field from_device from_slot name f_zero;
  id ← b_intern name;
  _ ← b_write actor (TDeviceSlot from_device (wrap_u 16 from_slot) id) source_before f_zero;
  destination ← b_device to_device;
  destination_fields ← lift (expect (bt_get to_slot (slots destination)));
  match bt_get name destination_fields with
  | None => mret ()
  | Some destination_before =>
      _ ← insert_slot_field to_device to_slot name value;
      b_write actor (TDeviceSlot to_device (wrap_u 16 to_slot) id) destination_before value
  end.

(** Source: [crates/ic10-sim/src/behaviour.rs] [move_slot] *)
Definition move_slot (actor : EffectActor) (hook : string) (from_device : nat) (from_slot : Z)
    (to_device : nat) (to_slot : Z) : BX () :=
  let out_of_range device text :=
    error_at device MATERIAL_HANDLING_MODEL MATERIAL_HANDLING_VERSION hook text in
  source ← gets (λ s, devices (b_world s) !! from_device);
  source ← lift (ok_or source (out_of_range from_device "source device index is out of range"));
  destination ← gets (λ s, devices (b_world s) !! to_device);
  destination ← lift (ok_or destination (out_of_range to_device "destination device index is out of range"));
  item ← lift (ok_or (bt_get from_slot (slots source))
    {| be_device := [PS (dev_id source)]; be_model := MATERIAL_HANDLING_MODEL;
       be_version := MATERIAL_HANDLING_VERSION; be_hook := hook;
       be_message := [PS "source slot "; PZ from_slot; PS " is missing"] |});
  match bt_get to_slot (slots destination) with
  | None => fail to_device hook [PS "destination slot "; PZ to_slot; PS " is missing"]
  | Some destination_fields =>
      match find_first (λ name, negb (bt_contains_key name destination_fields)) (bt_keys item) with
      | Some name =>
          fail to_device hook [PS "destination slot "; PZ to_slot; PS " has no field `"; PS name; PS "`"]
      | None => for_each (move_field actor from_device from_slot to_device to_slot) item
      end
  end.

(** Source: [crates/ic10-sim/src/behaviour.rs] [record_state] *)
Definition record_state (device : nat) (name : string) (after : Z) : BX () :=
  key ← b_intern name;
  model ← b_intern MATERIAL_HANDLING_MODEL;
  b_write_bits (ActorBehaviour device model MATERIAL_HANDLING_VERSION) (TBehaviourState device key)
    (Z.max 0 (after - 1)) after.

(** [self.states[device].transfers = self.states[device].transfers.wrapping_add(1)] *)
Definition count_transfer (device : nat) : BX () :=
  st ← get_or_panic (λ s, states (b_runtime s) !! device);
  let transfers' := wrap_u 64 (transfers st + 1) in
  _ ← modify (λ s, set_b_runtime (set_states (<[device := {| activations := activations st;
        transfers := transfers' |}]> (states (b_runtime s))) (b_runtime s)) s);
  record_state device "transfers" transfers'.

Definition count_activation (device : nat) : BX () :=
  st ← get_or_panic (λ s, states (b_runtime s) !! device);
  let activations' := wrap_u 64 (activations st + 1) in
  _ ← modify (λ s, set_b_runtime (set_states (<[device := {| activations := activations';
        transfers := transfers st |}]> (states (b_runtime s))) (b_runtime s)) s);
  record_state device "activations" activations'.

(** ** The models *)

(** Source: [crates/ic10-sim/src/behaviour.rs] [reset_activation] *)
Definition reset_activation (vendor : nat) : BX () :=
  actor ← behaviour_actor vendor "tickEnd";
  set_field actor "tickEnd" vendor "Activate" f_zero.

(** The slot a vending machine dispenses from: the requested one when it is
    occupied, else the first occupied one.
    Source: [crates/ic10-sim/src/behaviour.rs] [vend] lines 360-371 *)
Definition vend_source (vendor : nat) (w : World) : outcome BehaviourError (option Z) :=
  d ← expect (devices w !! vendor);
  let requested := default f_zero (bt_get "DispenseSlot" (fields d)) in
  let occupied slot :=
    match bt_get slot (slots d) with Some fields => fields_occupied fields | None => false end in
  Ok (option_or
    (if f_is_finite requested && occupied (to_usize requested) then Some (to_usize requested) else None)
    (find_first occupied (bt_keys (slots d)))).

(** Source: [crates/ic10-sim/src/behaviour.rs] [vend] *)
Definition vend (vendor : nat) : BX () :=
  active ← b_observe (λ w, field w vendor "Activate");
  if f_eq active f_zero then mret ()
  else
    _ ← count_activation vendor;
    d ← b_device vendor;
    receiver ← gets (λ s, bt_get 1 (connections d) ≫= digital_valve_on_input (b_world s));
    match receiver with
    | None => reset_activation vendor
    | Some receiver =>
        full ← b_observe (λ w, slot_occupied w receiver 0);
        if full : bool then reset_activation vendor
        else
          source ← b_observe (vend_source vendor);
          _ ← (match source with
               | Some source_slot =>
                   actor ← behaviour_actor vendor "tickEnd";
                   _ ← move_slot actor "tickEnd" vendor source_slot receiver 0;
                   _ ← increment_field actor "tickEnd" vendor "ExportCount";
                   _ ← set_field actor "tickEnd" receiver "Quantity" f_one;
                   count_transfer vendor
               | None => mret ()
               end);
          reset_activation vendor
    end.

(** Source: [crates/ic10-sim/src/behaviour.rs] [pass_valve] *)
Definition pass_valve (valve : nat) : BX () :=
  open ← b_observe (λ w, field w valve "Open");
  occupied ← (if f_eq open f_zero then mret false else b_observe (λ w, slot_occupied w valve 0));
  if negb occupied then mret ()
  else
    d ← b_device valve;
    outlet ← gets (λ s, bt_get 1 (connections d) ≫= chute_outlet_on_input (b_world s));
    match outlet with
    | None => mret ()
    | Some outlet =>
        full ← b_observe (λ w, slot_occupied w outlet 0);
        if full : bool then mret ()
        else
          actor ← behaviour_actor valve "tickEnd";
          _ ← move_slot actor "tickEnd" valve 0 outlet 0;
          _ ← increment_field actor "tickEnd" outlet "ExportCount";
          _ ← set_field actor "tickEnd" valve "Quantity" f_zero;
          count_transfer valve
    end.

(** ** The queue *)

(** Source: [crates/ic10-sim/src/behaviour.rs] [BehaviourRuntime::schedule] *)
Definition schedule (tick : Z) (device : nat) (action : ScheduledAction) (r : BehaviourRuntime) :
    outcome BehaviourError () * BehaviourRuntime :=
  match descriptor r device with
  | None => (Err (error_at device "unknown" 0 "schedule" "device index is out of range"), r)
  | Some d =>
      let 'SetField target field _ := action in
      match descriptor r target with
      | None => (Err (error_at target (bd_model d) (bd_version d) "schedule"
                        "action target device index is out of range"), r)
      | Some t =>
          if String.eqb field ""
          then (Err (error_at target (bd_model t) (bd_version t) "schedule" "action target field is empty"), r)
          else
            let key := {| ek_tick := tick; ek_phase := 0; ek_device := Z.of_nat device;
                          ek_sequence := next_sequence r |} in
            let collided := bt_contains_key key (scheduled r) in
            let r := {| descriptors := descriptors r; states := states r;
                        scheduled := bt_insert key action (scheduled r); pending_writes := pending_writes r;
                        next_sequence := wrap_u 64 (next_sequence r + 1); last_error := last_error r |} in
            if collided
            then (Err (error_at device (bd_model d) (bd_version d) "schedule" "stable event key collided"), r)
            else (Ok (), r)
      end
  end.

Definition tick_bound (tick : Z) : EventKey :=
  {| ek_tick := tick; ek_phase := U8_MAX; ek_device := U64_MAX; ek_sequence := U64_MAX |}.

(** One due event of [tick_start]. *)
Definition run_event (event : EventKey * ScheduledAction) : BX () :=
  let '(key, SetField device field value) := event in
  _ ← modify (λ s, set_b_runtime (set_scheduled (bt_remove key (scheduled (b_runtime s))) (b_runtime s)) s);
  actor ← behaviour_actor device "tickStart";
  set_field actor "tickStart" device field value.

(** Source: [crates/ic10-sim/src/behaviour.rs] [tick_start] *)
Definition tick_start (tick : Z) : BX () :=
  due ← gets (λ s, bt_range_to (tick_bound tick) (scheduled (b_runtime s)));
  for_each run_event due.

(** [while let Some(notice) = self.pending_writes.pop_front()]: every notice is
    dropped, unless one names an unknown device. *)
Fixpoint drain_notices (notices : list WriteNotice) : BX () :=
  match notices with
  | [] => mret ()
  | notice :: rest =>
      _ ← modify (λ s, set_b_runtime (set_pending_writes rest (b_runtime s)) s);
      known ← gets (λ s, length (descriptors (b_runtime s)));
      if Nat.leb known (wn_device notice)
      then fail (wn_device notice) "fieldWrite" [PS "unknown device"]
      else drain_notices rest
  end.

(** Source: [crates/ic10-sim/src/behaviour.rs] [tick_end] *)
Definition tick_end : BX () :=
  notices ← gets (λ s, pending_writes (b_runtime s));
  _ ← drain_notices notices;
  count ← gets (λ s, length (descriptors (b_runtime s)));
  for_each (λ device,
    d ← get_or_panic (λ s, descriptors (b_runtime s) !! device);
    match bd_kind d with
    | VendingMachine => vend device
    | DigitalChuteValve => pass_valve device
    | Passive | ChuteOutlet => mret ()
    end) (seq 0 count).

(** ** Slots *)

(** The value of a field of a slot of a device. *)
Definition slot_field (w : World) (device : nat) (slot : Z) (name : string) : option f64 :=
  d ← devices w !! device; fields ← bt_get slot (slots d); bt_get name fields.

(** The world after a store to a slot that exists. *)
Definition store_slot_field (device : nat) (slot : Z) (name : string) (value : f64)
    (fields : BTreeMap string f64) (w : World) : World :=
  alter_device (λ d, set_slots (bt_insert slot (bt_insert name value fields) (slots d)) d) device w.

(** Everything of a world but the contents of its slots. *)
Definition erase_slots (w : World) : World := set_devices (set_slots [] <$> devices w) w.

Lemma bt_sorted_NoDup {K V} `{RustOrd K} (m : BTreeMap K V) : bt_sorted m → NoDup m.*1.
Proof.
  unfold bt_sorted. induction 1 as [|[k v] m Hs IH Hk]; simpl; constructor; [|done].
  intros ([k' v'] & -> & Hin)%list_elem_of_fmap. rewrite Forall_forall in Hk. specialize (Hk _ Hin).
  unfold bt_lt in Hk. simpl in Hk. by rewrite rcmp_refl in Hk.
Qed.

Lemma bt_get_find {V} (n : string) (m : BTreeMap string V) :
  bt_get n m = find_map (λ e : string * V, if String.eqb e.1 n then Some e.2 else None) m.
Proof.
  induction m as [|[k v] m IH]; [done|]. cbn [bt_get find_map fst snd].
  destruct (String.eqb_spec k n) as [->|Hne]; [by rewrite rcmp_refl|].
  destruct (rcmp n k) eqn:E; [|exact IH..]. by apply rcmp_eq in E as ->.
Qed.

Lemma rcmp_dec {K} `{RustOrd K} (a b : K) : {a = b} + {a ≠ b}.
Proof.
  destruct (rcmp a b) eqn:E; [left; by apply rcmp_eq|right..];
    intros ->; by rewrite (proj2 (rcmp_eq b b) eq_refl) in E.
Qed.

Lemma bt_get_insert_dec {K V} `{RustOrd K} `{EqDecision K} (k k' : K) (v : V) m :
  bt_get k' (bt_insert k v m) = if decide (k = k') then Some v else bt_get k' m.
Proof. case_decide as E; [subst; apply bt_get_insert_eq|by apply bt_get_insert_ne]. Qed.

Lemma slot_field_store w d s n v fields d' s' n' :
  (∃ dev, devices w !! d = Some dev ∧ bt_get s (slots dev) = Some fields) →
  slot_field (store_slot_field d s n v fields w) d' s' n' =
    if decide (d = d' ∧ s = s' ∧ n = n') then Some v else slot_field w d' s' n'.
Proof.
  intros (dev & Hd & Hs). unfold slot_field, store_slot_field. rewrite lookup_alter_device.
  destruct (decide (d = d')) as [<-|Hne].
  - rewrite Hd. simpl. rewrite bt_get_insert_dec. destruct (decide (s = s')) as [<-|Hs'].
    + rewrite Hs. simpl. rewrite bt_get_insert_dec. destruct (decide (n = n')) as [<-|Hn].
      * by rewrite decide_True.
      * rewrite decide_False; [done|]. by intros (_ & _ & ?).
    + rewrite decide_False; [done|]. by intros (_ & ? & _).
  - rewrite decide_False; [|by intros (? & _)]. by destruct (devices w !! d').
Qed.

Lemma erase_slots_alter (g : Device → BTreeMap Z (BTreeMap string f64)) d w :
  erase_slots (alter_device (λ x, set_slots (g x) x) d w) = erase_slots w.
Proof.
  unfold erase_slots, alter_device, set_devices. simpl. f_equal.
  apply list_eq. intros i. rewrite !list_lookup_fmap, list_lookup_alter.
  case_decide; [subst|done]. by destruct (devices w !! i).
Qed.

(** A slot that exists, with all the fields of [names]. *)
Definition has_slot (w : World) (device : nat) (slot : Z) (names : list string) : Prop :=
  ∃ d fields, devices w !! device = Some d ∧ bt_get slot (slots d) = Some fields
              ∧ ∀ n, n ∈ names → is_Some (bt_get n fields).

Lemma has_slot_store w d s n v fields d' s' names :
  (∃ dev, devices w !! d = Some dev ∧ bt_get s (slots dev) = Some fields) →
  has_slot w d' s' names → has_slot (store_slot_field d s n v fields w) d' s' names.
Proof.
  intros (dev & Hd & Hs) (d2 & f2 & Hd2 & Hs2 & Hn). unfold has_slot, store_slot_field.
  rewrite lookup_alter_device. destruct (decide (d = d')) as [<-|Hne].
  - assert (d2 = dev) as -> by congruence. rewrite Hd2. simpl.
    exists (set_slots (bt_insert s (bt_insert n v fields) (slots dev)) dev).
    destruct (decide (s = s')) as [<-|Hs'].
    + assert (f2 = fields) as -> by congruence. exists (bt_insert n v fields).
      split_and!; [done|simpl; apply bt_get_insert_eq|].
      intros n' Hin. rewrite bt_get_insert_dec. case_decide; [by eexists|by apply Hn].
    + exists f2. simpl. rewrite bt_get_insert_ne by done. done.
  - exists d2, f2. by rewrite Hd2.
Qed.

Lemma insert_slot_field_spec d sl n v dev fields s :
  devices (b_world s) !! d = Some dev → bt_get sl (slots dev) = Some fields →
  insert_slot_field d sl n v s = (Ok (), set_b_world (store_slot_field d sl n v fields (b_world s)) s).
Proof.
  intros Hd Hs. unfold insert_slot_field, b_device, b_alter, get_or_panic, lift, modify, mbind, M_mbind.
  by rewrite Hd, Hs.
Qed.

Lemma b_device_spec d dev s : devices (b_world s) !! d = Some dev → b_device d s = (Ok dev, s).
Proof. intros Hd. unfold b_device, get_or_panic. by rewrite Hd. Qed.

(** Stores to the journal leave the rest alone. *)
Lemma b_intern_spec n s : ∃ id j, b_intern n s = (Ok id, set_b_journal j s).
Proof. unfold b_intern. destruct (intern n (b_journal s)). eauto. Qed.

Section move.
Context (actor : EffectActor) (from_device : nat) (from_slot : Z) (to_device : nat) (to_slot : Z).

(** One field moved: both stores happen, and only them. *)
Lemma move_field_spec name value names s :
  has_slot (b_world s) from_device from_slot names → has_slot (b_world s) to_device to_slot names →
  name ∈ names →
  ∃ s', move_field actor from_device from_slot to_device to_slot (name, value) s = (Ok (), s')
    ∧ has_slot (b_world s') from_device from_slot names ∧ has_slot (b_world s') to_device to_slot names
    ∧ erase_slots (b_world s') = erase_slots (b_world s) ∧ b_runtime s' = b_runtime s
    ∧ ∀ d sl n, slot_field (b_world s') d sl n =
        if decide (to_device = d ∧ to_slot = sl ∧ name = n) then Some value
        else if decide (from_device = d ∧ from_slot = sl ∧ name = n) then Some f_zero
        else slot_field (b_world s) d sl n.
Proof.
  intros Hf Ht Hin. pose proof Hf as (df & ff & Hdf & Hsf & Hnf).
  destruct (Hnf name Hin) as [before Hbefore].
  assert (∃ dev, devices (b_world s) !! from_device = Some dev ∧ bt_get from_slot (slots dev) = Some ff) as Hff
    by eauto.
  set (w1 := store_slot_field from_device from_slot name f_zero ff (b_world s)).
  pose proof (has_slot_store _ _ _ name f_zero _ _ _ names Hff Ht) as Ht1. fold w1 in Ht1.
  pose proof (has_slot_store _ _ _ name f_zero _ _ _ names Hff Hf) as Hf1. fold w1 in Hf1.
  pose proof Ht1 as (dt & ft & Hdt & Hst & Hnt).
  destruct (Hnt name Hin) as [before' Hbefore'].
  assert (∃ dev, devices w1 !! to_device = Some dev ∧ bt_get to_slot (slots dev) = Some ft) as Hft by eauto.
  set (w2 := store_slot_field to_device to_slot name value ft w1).
  assert (∃ j, move_field actor from_device from_slot to_device to_slot (name, value) s =
               (Ok (), set_b_journal j (set_b_world w2 s))) as [j Hmove].
  { unfold move_field.
    rewrite (bind_run _ _ _ _ _ (b_device_spec _ _ _ Hdf)), Hsf. cbn [mbind option_bind]. rewrite Hbefore.
    rewrite (bind_run _ _ s before s) by done.
    rewrite (bind_run _ _ _ _ _ (insert_slot_field_spec _ _ _ _ _ _ _ Hdf Hsf)).
    fold w1. destruct (b_intern_spec name (set_b_world w1 s)) as (id & j & Hi).
    rewrite (bind_run _ _ _ _ _ Hi).
    set (s2 := set_b_journal (write actor
      (TDeviceSlot from_device (wrap_u 16 from_slot) id) before f_zero j) (set_b_world w1 s)).
    rewrite (bind_run _ _ _ () s2) by done.
    rewrite (bind_run _ _ _ _ _ (b_device_spec _ _ s2 Hdt)), Hst.
    rewrite (bind_run _ _ s2 ft s2) by done. rewrite Hbefore'.
    rewrite (bind_run _ _ _ _ _ (insert_slot_field_spec _ _ _ value _ _ s2 Hdt Hst)).
    fold w2. by eexists. }
  eexists. split; [exact Hmove|]. simpl. split_and!.
  - by apply has_slot_store.
  - by apply has_slot_store.
  - unfold w2, w1, store_slot_field.
    by rewrite !(erase_slots_alter (λ x, bt_insert _ (bt_insert _ _ _) (slots x))).
  - done.
  - intros d sl n. unfold w2. rewrite slot_field_store by done. case_decide; [done|].
    unfold w1. by rewrite slot_field_store.
Qed.

(** The slots after all fields of an item have moved. *)
Lemma move_fields_spec (item : list (string * f64)) names s :
  has_slot (b_world s) from_device from_slot names → has_slot (b_world s) to_device to_slot names →
  (∀ n, n ∈ item.*1 → n ∈ names) → NoDup item.*1 →
  ∃ s', for_each (move_field actor from_device from_slot to_device to_slot) item s = (Ok (), s')
    ∧ erase_slots (b_world s') = erase_slots (b_world s) ∧ b_runtime s' = b_runtime s
    ∧ ∀ d sl n, slot_field (b_world s') d sl n =
        match find_map (λ e : string * f64, if String.eqb e.1 n then Some e.2 else None) item with
        | Some v => if decide (to_device = d ∧ to_slot = sl) then Some v
                    else if decide (from_device = d ∧ from_slot = sl) then Some f_zero
                    else slot_field (b_world s) d sl n
        | None => slot_field (b_world s) d sl n
        end.
Proof.
  revert s. induction item as [|[name value] item IH]; intros s Hf Ht Hsub Hnd.
  { by exists s. }
  apply NoDup_cons in Hnd as [Hni Hnd].
  destruct (move_field_spec name value names s Hf Ht) as (s1 & Hm & Hf1 & Ht1 & He1 & Hr1 & Hs1); [apply Hsub; left|].
  destruct (IH s1) as (s2 & Hm2 & He2 & Hr2 & Hs2); [done|done| |done|].
  { intros n Hn. apply Hsub. by right. }
  exists s2. cbn [for_each]. rewrite (bind_run _ _ _ _ _ Hm). split_and!; [done|congruence|congruence|].
  intros d sl n. rewrite Hs2, Hs1. cbn [find_map fst snd]. destruct (String.eqb_spec name n) as [<-|Hne].
  - assert (find_map (λ e : string * f64, if String.eqb e.1 name then Some e.2 else None) item = None) as ->.
    { apply find_map_None. intros [n v] Hin. simpl. destruct (String.eqb_spec n name) as [->|]; [|done].
      exfalso. apply Hni. apply list_elem_of_fmap. by exists (name, v). }
    repeat case_decide; try done; naive_solver.
  - destruct (find_map _ item); repeat case_decide; try done; naive_solver.
Qed.
End move.

(** ** Moving an item *)

(** C23.  Moving the item of a slot never panics.  When it fails, the world and the
    journal are as they were: nothing is cleared.  When it succeeds, every field of
    the item is in the destination slot, its source field is zero (also when both
    slots are the same, the item then staying), and no other slot field and nothing
    else of the world has changed. *)
Theorem move_slot_atomic (actor : EffectActor) (hook : string) (from_device : nat) (from_slot : Z)
    (to_device : nat) (to_slot : Z) (s : BState) :
  (∀ item, (devices (b_world s) !! from_device ≫= λ d, bt_get from_slot (slots d)) = Some item → bt_sorted item) →
  let '(r, s') := move_slot actor hook from_device from_slot to_device to_slot s in
  match r with
  | Ok _ =>
      erase_slots (b_world s') = erase_slots (b_world s) ∧ b_runtime s' = b_runtime s
      ∧ ∃ item, (devices (b_world s) !! from_device ≫= λ d, bt_get from_slot (slots d)) = Some item
        ∧ ∀ d sl n, slot_field (b_world s') d sl n =
            match bt_get n item with
            | Some v => if decide (to_device = d ∧ to_slot = sl) then Some v
                        else if decide (from_device = d ∧ from_slot = sl) then Some f_zero
                        else slot_field (b_world s) d sl n
            | None => slot_field (b_world s) d sl n
            end
  | Err _ => b_world s' = b_world s ∧ b_journal s' = b_journal s
  | Panic => False
  end.
Proof.
  intros Hsorted. unfold move_slot. cbv zeta.
  rewrite (bind_run _ _ s (devices (b_world s) !! from_device) s) by done.
  destruct (devices (b_world s) !! from_device) as [df|] eqn:Hdf; [|by erewrite bind_err by done].
  rewrite (bind_run _ _ s df s) by done.
  rewrite (bind_run _ _ s (devices (b_world s) !! to_device) s) by done.
  destruct (devices (b_world s) !! to_device) as [dt|] eqn:Hdt; [|by erewrite bind_err by done].
  rewrite (bind_run _ _ s dt s) by done.
  destruct (bt_get from_slot (slots df)) as [item|] eqn:Hitem; [|by erewrite bind_err by done].
  rewrite (bind_run _ _ s item s) by done.
  destruct (bt_get to_slot (slots dt)) as [ft|] eqn:Hft; [|done].
  destruct (find_first _ _) as [n|] eqn:Hfind; [done|].
  specialize (Hsorted item Hitem).
  assert (∀ n, n ∈ item.*1 → is_Some (bt_get n ft)) as Hhas.
  { intros n Hn. apply bt_contains_key_true. destruct (bt_contains_key n ft) eqn:E; [done|].
    destruct (find_first_is_Some (λ name, negb (bt_contains_key name ft)) (bt_keys item) n Hn) as [? H];
      [by rewrite E|]. by rewrite Hfind in H. }
  destruct (move_fields_spec actor from_device from_slot to_device to_slot item item.*1 s)
    as (s' & -> & He & Hr & Hs).
  - exists df, item. split_and!; [done..|]. intros n ([k v] & -> & Hkv)%list_elem_of_fmap.
    exists v. by apply bt_elem_get.
  - by exists dt, ft.
  - done.
  - by apply bt_sorted_NoDup.
  - split; [done|]. split; [done|]. exists item. split; [done|]. intros d sl n. rewrite Hs.
    by rewrite bt_get_find.
Qed.

(** ** Safety of a tick *)

(** Worlds that differ in the contents of slots only. *)
Lemma erase_slots_lookup {B} (P : Device → B) w w' i :
  (∀ d, P (set_slots [] d) = P d) → erase_slots w' = erase_slots w →
  P <$> devices w' !! i = P <$> devices w !! i.
Proof.
  intros HP He.
  assert (set_slots [] <$> devices w' !! i = set_slots [] <$> devices w !! i) as Hi.
  { rewrite <-!list_lookup_fmap. by apply (f_equal (λ w, devices w !! i)) in He. }
  destruct (devices w' !! i), (devices w !! i); simpl in *; try done.
  f_equal. injection Hi as H. rewrite <-(HP d), <-(HP d0). f_equal.
  unfold set_slots. by f_equal.
Qed.

Lemma erase_slots_exists {B} (P : Device → B) w w' i b :
  (∀ d, P (set_slots [] d) = P d) → erase_slots w' = erase_slots w →
  (∃ d, devices w' !! i = Some d ∧ P d = b) ↔ (∃ d, devices w !! i = Some d ∧ P d = b).
Proof.
  intros HP He. pose proof (erase_slots_lookup P w w' i HP He) as Hi.
  destruct (devices w' !! i), (devices w !! i); simpl in Hi; try done.
  injection Hi as Hi. split; intros (? & [= <-] & <-); eauto.
Qed.

Lemma world_shape_erase sizes nn w w' :
  erase_slots w' = erase_slots w → world_shape sizes nn w → world_shape sizes nn w'.
Proof.
  intros He (Hs & Hn & [H1 H2 H3 H4 H5]).
  assert (networks w' = networks w) as Hnet by exact (f_equal networks He).
  assert (reference_ids w' = reference_ids w) as Href by exact (f_equal reference_ids He).
  assert (device_ids w' = device_ids w) as Hdev by exact (f_equal device_ids He).
  split_and!; [|by rewrite Hnet|constructor].
  - rewrite <-Hs. apply list_eq. intros i. unfold memory_sizes. rewrite !list_lookup_fmap.
    by apply erase_slots_lookup.
  - by rewrite Hnet.
  - rewrite Hnet. apply Forall_lookup. intros i d Hi.
    pose proof (erase_slots_lookup connections w w' i ltac:(done) He) as Hc. rewrite Hi in Hc.
    destruct (devices w !! i) as [d0|] eqn:Hd0; [|done]. injection Hc as ->.
    by eapply Forall_lookup_1 in H2.
  - intros r i. rewrite Href, H3. symmetry. by apply (erase_slots_exists reference_id).
  - intros r i. rewrite Hdev, H4. symmetry. by apply (erase_slots_exists dev_id).
  - intros r i. assert (network_ids w' = network_ids w) as -> by exact (f_equal network_ids He). by rewrite Hnet.
Qed.

(** A runtime for a well-formed world: one descriptor and one state per device. *)
Definition b_ok (sizes : list nat) (nn : nat) (s : BState) : Prop :=
  world_shape sizes nn (b_world s)
  ∧ length (descriptors (b_runtime s)) = length sizes ∧ length (states (b_runtime s)) = length sizes.

Section safe_tick.
Context (sizes : list nat) (nn : nat).
Local Abbreviation ok := (b_ok sizes nn).
Local Abbreviation nd := (length sizes).

Lemma safe_b_intern n : safe ok (b_intern n) any.
Proof. intros s Hs. destruct (b_intern_spec n s) as (id & j & ->). by split. Qed.

Lemma safe_b_modify_journal f : safe ok (modify (λ s, set_b_journal (f (b_journal s)) s) : BX ()) any.
Proof. by apply safe_modify. Qed.

Lemma safe_b_get {A} (f : BState → A) : safe ok (gets f : BX A) any.
Proof. by apply safe_gets. Qed.
Hint Resolve safe_b_intern safe_b_modify_journal safe_b_get : sim.

Lemma safe_b_alter f d : same_identity f → safe ok (b_alter f d) any.
Proof.
  intros Hf. apply safe_modify. intros s (Hw & Hd & Hst). split_and!; [|done|done].
  by apply world_shape_alter_device.
Qed.

Lemma safe_notify d n before after :
  safe ok (modify (λ s, set_b_runtime (notify_field_write d n before after (b_runtime s)) s) : BX ()) any.
Proof. apply safe_modify. by intros s (Hw & Hd & Hst). Qed.

Lemma safe_fail {A} d hook text (Q : A → Prop) : safe ok (fail d hook text) Q.
Proof. intros s Hs. exact Hs. Qed.

Lemma b_device_lt s d : ok s → (d < nd)%nat → is_Some (devices (b_world s) !! d).
Proof.
  intros ((Hw & _) & _) Hd. apply lookup_lt_is_Some_2. by rewrite <-length_memory_sizes, Hw.
Qed.

Lemma safe_field d n : (d < nd)%nat → safe ok (b_observe (λ w, field w d n)) any.
Proof.
  intros Hd s Hs. unfold b_observe, field. by destruct (b_device_lt s d Hs Hd) as [x ->].
Qed.

Lemma safe_slot_occupied d n : (d < nd)%nat → safe ok (b_observe (λ w, slot_occupied w d n)) any.
Proof.
  intros Hd s Hs. unfold b_observe, slot_occupied. by destruct (b_device_lt s d Hs Hd) as [x ->].
Qed.

Lemma safe_vend_source d : (d < nd)%nat → safe ok (b_observe (vend_source d)) any.
Proof.
  intros Hd s Hs. unfold b_observe, vend_source. by destruct (b_device_lt s d Hs Hd) as [x ->].
Qed.

Lemma safe_b_device d : (d < nd)%nat → safe ok (b_device d) any.
Proof. intros Hd s Hs. unfold b_device, get_or_panic. by destruct (b_device_lt s d Hs Hd) as [x ->]. Qed.
Hint Resolve safe_field safe_slot_occupied safe_vend_source safe_b_device : sim.

Lemma safe_behaviour_actor d hook : safe ok (behaviour_actor d hook) any.
Proof.
  unfold behaviour_actor. eapply safe_bind; [apply safe_b_get|intros o _].
  eapply safe_bind; [apply safe_lift_any|intros x _].
  eapply safe_bind; [apply safe_b_intern|intros m _]. by apply safe_ret.
Qed.

Lemma safe_set_field actor hook d n v : safe ok (set_field actor hook d n v) any.
Proof.
  unfold set_field. eapply safe_bind; [apply safe_b_get|intros o _].
  eapply safe_bind; [apply safe_lift_any|intros x _].
  destruct (bt_get n (fields x)); [|apply safe_fail].
  eapply safe_bind; [apply safe_b_alter; eauto with sim|intros _ _].
  eapply safe_bind; [apply safe_b_intern|intros id _].
  eapply safe_bind; [apply safe_b_modify_journal|intros _ _]. apply safe_notify.
Qed.
Hint Resolve safe_behaviour_actor safe_set_field : sim.

Lemma safe_increment_field actor hook d n : (d < nd)%nat → safe ok (increment_field actor hook d n) any.
Proof.
  intros Hd. unfold increment_field. eapply safe_bind; [by apply safe_field|intros v _]. apply safe_set_field.
Qed.

(** All the fields of an item can be moved. *)
Lemma move_fields_run actor fd fs td ts (item : list (string * f64)) names s :
  has_slot (b_world s) fd fs names → has_slot (b_world s) td ts names →
  (∀ n, n ∈ item.*1 → n ∈ names) →
  ∃ s', for_each (move_field actor fd fs td ts) item s = (Ok (), s')
    ∧ erase_slots (b_world s') = erase_slots (b_world s) ∧ b_runtime s' = b_runtime s.
Proof.
  revert s. induction item as [|[name value] item IH]; intros s Hf Ht Hsub; [by exists s|].
  destruct (move_field_spec actor fd fs td ts name value names s Hf Ht) as (s1 & Hm & Hf1 & Ht1 & He1 & Hr1 & _);
    [apply Hsub; left|].
  destruct (IH s1) as (s2 & Hm2 & He2 & Hr2); [done|done| |].
  { intros n Hn. apply Hsub. by right. }
  exists s2. cbn [for_each]. rewrite (bind_run _ _ _ _ _ Hm). split_and!; [done|congruence|congruence].
Qed.

Lemma bt_get_is_Some {V} (n : string) (m : BTreeMap string V) : n ∈ m.*1 → is_Some (bt_get n m).
Proof.
  intros ([k v] & -> & Hin)%list_elem_of_fmap. induction m as [|[k' v'] m IH]; [by apply elem_of_nil in Hin|].
  cbn [bt_get fst]. destruct (rcmp k k') eqn:E; [by eexists|..];
    (apply elem_of_cons in Hin as [[= <- <-]|Hin]; [by rewrite rcmp_refl in E|by apply IH]).
Qed.

Lemma safe_move_slot actor hook fd fs td ts : safe ok (move_slot actor hook fd fs td ts) any.
Proof.
  intros s Hs. unfold move_slot. cbv zeta.
  rewrite (bind_run _ _ s (devices (b_world s) !! fd) s) by done.
  destruct (devices (b_world s) !! fd) as [df|] eqn:Hdf; [|by erewrite bind_err by done].
  rewrite (bind_run _ _ s df s) by done.
  rewrite (bind_run _ _ s (devices (b_world s) !! td) s) by done.
  destruct (devices (b_world s) !! td) as [dt|] eqn:Hdt; [|by erewrite bind_err by done].
  rewrite (bind_run _ _ s dt s) by done.
  destruct (bt_get fs (slots df)) as [item|] eqn:Hitem; [|by erewrite bind_err by done].
  rewrite (bind_run _ _ s item s) by done.
  destruct (bt_get ts (slots dt)) as [ft|] eqn:Hft; [|by apply (safe_fail (A:=()) td hook _ any)].
  destruct (find_first _ _) as [n|] eqn:Hfind; [by apply (safe_fail (A:=()) td hook _ any)|].
  destruct (move_fields_run actor fd fs td ts item item.*1 s) as (s' & -> & He & Hr).
  - exists df, item. split_and!; [done..|]. intros n. apply bt_get_is_Some.
  - exists dt, ft. split_and!; [done..|]. intros n Hn. apply bt_contains_key_true.
    destruct (bt_contains_key n ft) eqn:E; [done|].
    destruct (find_first_is_Some (λ name, negb (bt_contains_key name ft)) (bt_keys item) n Hn) as [? H];
      [by rewrite E|]. by rewrite Hfind in H.
  - done.
  - destruct Hs as (Hw & Hd & Hst). split; [|done]. unfold b_ok. rewrite Hr. split_and!; [|done|done].
    by eapply world_shape_erase.
Qed.

Lemma safe_record_state d n after : safe ok (record_state d n after) any.
Proof.
  unfold record_state. eapply safe_bind; [apply safe_b_intern|intros k _].
  eapply safe_bind; [apply safe_b_intern|intros m _]. apply safe_b_modify_journal.
Qed.

(** The update of the state of one device. *)
Lemma safe_set_state d g :
  safe ok (modify (λ s, set_b_runtime (set_states (<[d := g]> (states (b_runtime s))) (b_runtime s)) s) : BX ()) any.
Proof. apply safe_modify. intros s (Hw & Hd & Hst). split_and!; [done|done|]. simpl. by rewrite length_insert. Qed.

Lemma safe_get_state d :
  (d < nd)%nat → safe ok (get_or_panic (λ s, states (b_runtime s) !! d) : BX BehaviourState) any.
Proof.
  intros Hd. apply safe_get_or_panic. intros s (_ & _ & Hs). rewrite <-Hs in Hd.
  apply lookup_lt_is_Some_2 in Hd as [x Hx]. by exists x.
Qed.

Lemma safe_count_transfer d : (d < nd)%nat → safe ok (count_transfer d) any.
Proof.
  intros Hd. unfold count_transfer. eapply safe_bind; [by apply safe_get_state|intros st _]. cbv zeta.
  eapply safe_bind; [apply safe_set_state|intros _ _]. apply safe_record_state.
Qed.

Lemma safe_count_activation d : (d < nd)%nat → safe ok (count_activation d) any.
Proof.
  intros Hd. unfold count_activation. eapply safe_bind; [by apply safe_get_state|intros st _]. cbv zeta.
  eapply safe_bind; [apply safe_set_state|intros _ _]. apply safe_record_state.
Qed.

Lemma safe_reset_activation d : safe ok (reset_activation d) any.
Proof. unfold reset_activation. eapply safe_bind; [apply safe_behaviour_actor|intros a _]. apply safe_set_field. Qed.

Lemma safe_device_on_input p network :
  safe ok (gets (λ s, network ≫= device_on_input p (b_world s)) : BX (option nat))
    (λ o, ∀ i, o = Some i → i < nd)%nat.
Proof.
  apply safe_gets. intros s ((Hw & _) & _) i Hi. apply bind_Some in Hi as (n & _ & Hi).
  apply find_map_Some in Hi as (k & [j x] & Hj & Hf). case_match; [|done]. injection Hf as <-.
  unfold enumerate in Hj. apply lookup_zip_Some in Hj as [Hj _]. simpl in Hj.
  apply lookup_seq in Hj as [-> Hj]. rewrite <-Hw, length_memory_sizes. simpl. lia.
Qed.

Lemma safe_vend d : (d < nd)%nat → safe ok (vend d) any.
Proof.
  intros Hd. unfold vend. eapply safe_bind; [by apply safe_field|intros a _]. safe_step; [by apply safe_ret|].
  eapply safe_bind; [by apply safe_count_activation|intros _ _].
  eapply safe_bind; [by apply safe_b_device|intros x _].
  eapply safe_bind; [apply safe_device_on_input|intros [r|] Hr]; [|apply safe_reset_activation].
  assert (r < nd)%nat as Hrl by by apply Hr.
  eapply safe_bind; [by apply safe_slot_occupied|intros full _]. safe_step; [apply safe_reset_activation|].
  eapply safe_bind; [by apply safe_vend_source|intros src _].
  eapply (safe_bind _ _ _ _ _ any); [|intros _ _; apply safe_reset_activation].
  destruct src; [|by apply safe_ret].
  eapply safe_bind; [apply safe_behaviour_actor|intros actor _].
  eapply safe_bind; [apply safe_move_slot|intros _ _].
  eapply safe_bind; [by apply safe_increment_field|intros _ _].
  eapply safe_bind; [apply safe_set_field|intros _ _]. by apply safe_count_transfer.
Qed.

Lemma safe_pass_valve d : (d < nd)%nat → safe ok (pass_valve d) any.
Proof.
  intros Hd. unfold pass_valve. eapply safe_bind; [by apply safe_field|intros a _].
  eapply (safe_bind _ _ _ _ _ any); [safe_step; [by apply safe_ret|by apply safe_slot_occupied]|intros o _].
  safe_step; [by apply safe_ret|].
  eapply safe_bind; [by apply safe_b_device|intros x _].
  eapply safe_bind; [apply safe_device_on_input|intros [r|] Hr]; [|by apply safe_ret].
  assert (r < nd)%nat as Hrl by by apply Hr.
  eapply safe_bind; [by apply safe_slot_occupied|intros full _]. safe_step; [by apply safe_ret|].
  eapply safe_bind; [apply safe_behaviour_actor|intros actor _].
  eapply safe_bind; [apply safe_move_slot|intros _ _].
  eapply safe_bind; [by apply safe_increment_field|intros _ _].
  eapply safe_bind; [apply safe_set_field|intros _ _]. by apply safe_count_transfer.
Qed.

Lemma safe_drain_notices l : safe ok (drain_notices l) any.
Proof.
  induction l as [|n l IH]; simpl; [by apply safe_ret|].
  eapply safe_bind; [apply safe_modify; by intros s (? & ? & ?)|intros _ _].
  eapply safe_bind; [apply safe_b_get|intros k _]. safe_step; [apply safe_fail|exact IH].
Qed.

Lemma safe_tick_end : safe ok tick_end any.
Proof.
  unfold tick_end. eapply safe_bind; [apply safe_b_get|intros l _].
  eapply safe_bind; [apply safe_drain_notices|intros _ _].
  eapply safe_bind; [apply (safe_gets _ _ _ (λ n, n = nd)); by intros s (_ & -> & _)|intros n ->].
  apply safe_for_each. intros d [_ Hd]%elem_of_seq. simpl in Hd.
  eapply safe_bind.
  - apply (safe_get_or_panic _ _ _ any). intros s (_ & Hs & _). rewrite <-Hs in Hd.
    apply lookup_lt_is_Some_2 in Hd as [x Hx]. by exists x.
  - intros x _. destruct (bd_kind x); [by apply safe_ret|by apply safe_vend|by apply safe_pass_valve|by apply safe_ret].
Qed.

Lemma safe_run_event e : safe ok (run_event e) any.
Proof.
  destruct e as [k [d f v]]. unfold run_event.
  eapply safe_bind; [apply safe_modify; by intros s (? & ? & ?)|intros _ _].
  eapply safe_bind; [apply safe_behaviour_actor|intros a _]. apply safe_set_field.
Qed.

Lemma safe_tick_start tick : safe ok (tick_start tick) any.
Proof.
  unfold tick_start. eapply safe_bind; [apply safe_b_get|intros due _].
  apply safe_for_each. intros e _. apply safe_run_event.
Qed.
End safe_tick.

(** The behaviours of a tick never panic on a well-formed world: neither the
    scheduled writes of its start nor the models of its end, whether they succeed
    or fail, and the world and the runtime stay well formed. *)
Theorem behaviour_tick_safe (sizes : list nat) (nn : nat) (tick : Z) (s : BState) :
  b_ok sizes nn s →
  ((tick_start tick s).1 ≠ Panic ∧ b_ok sizes nn (tick_start tick s).2)
  ∧ ((tick_end s).1 ≠ Panic ∧ b_ok sizes nn (tick_end s).2).
Proof.
  intros Hs. pose proof (safe_tick_start sizes nn tick s Hs) as Hstart. pose proof (safe_tick_end sizes nn s Hs) as Hend.
  split; [destruct (tick_start tick s) as [[]]|destruct (tick_end s) as [[]]]; naive_solver.
Qed.

(** ** The queue of scheduled actions *)

(** The keys of a queue: in order, within their widths, numbered below the next
    number. *)
Definition queue_ok (r : BehaviourRuntime) : Prop :=
  bt_sorted (scheduled r)
  ∧ (∀ e, e ∈ scheduled r → ek_phase e.1 = 0 ∧ 0 ≤ ek_device e.1 ≤ U64_MAX
                           ∧ 0 ≤ ek_sequence e.1 < next_sequence r)
  ∧ 0 ≤ next_sequence r ≤ U64_MAX.

Lemma bt_sorted_filter {V} (P : EventKey * V → Prop) `{∀ e, Decision (P e)} (m : list (EventKey * V)) :
  bt_sorted m → bt_sorted (filter P m).
Proof.
  unfold bt_sorted. induction 1 as [|e m Hs IH He]; [constructor|]. rewrite filter_cons. case_decide; [|done].
  constructor; [done|]. rewrite Forall_forall in *. intros x [_ Hx]%list_elem_of_filter. by apply He.
Qed.

Lemma bt_get_filter {V} (P : EventKey * V → Prop) `{∀ e, Decision (P e)} (m : list (EventKey * V)) k :
  bt_sorted m →
  bt_get k (filter P m) = v ← bt_get k m; if decide (P (k, v)) then Some v else None.
Proof.
  intros Hm. destruct (bt_get k m) as [v|] eqn:Hk; simpl.
  - case_decide as HP.
    + apply bt_elem_get; [by apply bt_sorted_filter|]. apply list_elem_of_filter. split; [done|]. by apply bt_get_elem.
    + destruct (bt_get k (filter P m)) as [v'|] eqn:Hf; [|done]. exfalso.
      apply bt_get_elem, list_elem_of_filter in Hf as [HP' Hin].
      apply bt_elem_get in Hin; [|done]. congruence.
  - destruct (bt_get k (filter P m)) as [v'|] eqn:Hf; [|done]. exfalso.
    apply bt_get_elem, list_elem_of_filter in Hf as [HP' Hin]. apply bt_elem_get in Hin; [|done]. congruence.
Qed.

Lemma due_iff r e tick :
  queue_ok r → e ∈ scheduled r → (rcmp e.1 (tick_bound tick) ≠ Gt ↔ ek_tick e.1 ≤ tick).
Proof.
  intros (_ & Hk & Hn) Hin. destruct (Hk _ Hin) as (Hp & Hd & Hseq). destruct e as [[t p d q] a]; simpl in *.
  unfold cmp_then, U8_MAX.
  destruct (t ?= tick) eqn:Ct; [apply Z.compare_eq in Ct as ->|rewrite Z.compare_lt_iff in Ct; split; [lia|done]|
    rewrite Z.compare_gt_iff in Ct; split; [done|lia]].
  destruct (p ?= _) eqn:Cp; [apply Z.compare_eq in Cp; lia|split; [lia|done]|rewrite Z.compare_gt_iff in Cp; lia].
Qed.

Lemma set_field_scheduled actor hook d n v s :
  scheduled (b_runtime (set_field actor hook d n v s).2) = scheduled (b_runtime s).
Proof.
  unfold set_field, b_intern, b_write, b_alter, gets, lift, modify, fail, mbind, M_mbind.
  destruct (devices (b_world s) !! d); simpl; [|done]. destruct (bt_get n _); simpl; [|done].
  by destruct (intern n (b_journal s)).
Qed.

Lemma run_event_scheduled e s s' :
  run_event e s = (Ok (), s') → scheduled (b_runtime s') = bt_remove e.1 (scheduled (b_runtime s)).
Proof.
  destruct e as [k [d f v]]. unfold run_event.
  set (s1 := set_b_runtime (set_scheduled (bt_remove k (scheduled (b_runtime s))) (b_runtime s)) s).
  rewrite (bind_run _ _ s () s1) by done.
  unfold behaviour_actor, gets, lift, mbind, M_mbind. simpl.
  destruct (descriptor _ d) as [x|]; simpl; [|done].
  destruct (b_intern_spec (bd_model x) s1) as (id & j & ->). simpl. intros H.
  pose proof (set_field_scheduled (ActorBehaviour d id (bd_version x)) "tickStart" d f v (set_b_journal j s1)) as Hs.
  by rewrite H in Hs.
Qed.

Lemma run_events_scheduled l s s' :
  for_each run_event l s = (Ok (), s') →
  scheduled (b_runtime s') = foldl (λ m e, bt_remove e.1 m) (scheduled (b_runtime s)) l.
Proof.
  revert s. induction l as [|e l IH]; intros s; cbn [for_each foldl]; [by intros [= <-]|].
  unfold mbind, M_mbind. destruct (run_event e s) as [[[]| |] s1] eqn:He; try done.
  intros H. rewrite (IH _ H). by rewrite (run_event_scheduled _ _ _ He).
Qed.

Lemma fold_remove_sorted {V} (l : list (EventKey * V)) (m : BTreeMap EventKey V) :
  bt_sorted m → bt_sorted (foldl (λ m e, bt_remove e.1 m) m l).
Proof. revert m. induction l as [|e l IH]; intros m Hm; simpl; [done|]. by apply IH, bt_sorted_remove. Qed.

Lemma fold_remove_get {V} (l : list (EventKey * V)) (m : BTreeMap EventKey V) k :
  bt_sorted m →
  (k ∈ l.*1 → bt_get k (foldl (λ m e, bt_remove e.1 m) m l) = None)
  ∧ (k ∉ l.*1 → bt_get k (foldl (λ m e, bt_remove e.1 m) m l) = bt_get k m).
Proof.
  revert m. induction l as [|[k' v] l IH]; intros m Hm; simpl.
  { split; [by intros ?%elem_of_nil|done]. }
  destruct (IH (bt_remove k' m) (bt_sorted_remove _ _ Hm)) as [H1 H2].
  split; intros Hk.
  - destruct (rcmp_dec k k') as [->|Hne].
    + destruct (decide (k' ∈ l.*1)) as [|Hni]; [by apply H1|].
      rewrite H2 by done. by apply bt_get_remove_eq.
    + apply elem_of_cons in Hk as [|]; [done|by apply H1].
  - apply not_elem_of_cons in Hk as [Hne Hni]. rewrite H2 by done. by apply bt_get_remove_ne.
Qed.

(** A start of tick that succeeds has run exactly the events that are due: none
    of tick [tick] or earlier remains, and every later event is kept unchanged. *)
Theorem tick_start_runs_due (tick : Z) (s s' : BState) :
  queue_ok (b_runtime s) → tick_start tick s = (Ok (), s') →
  scheduled (b_runtime s') = filter (λ e, tick < ek_tick e.1) (scheduled (b_runtime s)).
Proof.
  intros Hq H. change (for_each run_event (bt_range_to (tick_bound tick) (scheduled (b_runtime s))) s = (Ok (), s')) in H.
  apply run_events_scheduled in H. rewrite H. clear H s'. set (r := b_runtime s) in *. pose proof Hq as (Hs & _).
  assert (∀ k v, (k, v) ∈ scheduled r → (k ∈ (bt_range_to (tick_bound tick) (scheduled r)).*1 ↔ ek_tick k ≤ tick))
    as Hdue.
  { intros k v Hin. rewrite <-(due_iff r (k, v) tick) by done. unfold bt_range_to. rewrite list_elem_of_fmap.
    setoid_rewrite list_elem_of_filter. split; [intros ([k' v'] & -> & H & _); exact H|].
    intros H. by exists (k, v). }
  apply bt_eq; [by apply fold_remove_sorted|by apply bt_sorted_filter|]. intros k.
  etransitivity;
    [|symmetry; exact (bt_get_filter (λ e : EventKey * ScheduledAction, tick < ek_tick e.1) (scheduled r) k Hs)].
  destruct (fold_remove_get (bt_range_to (tick_bound tick) (scheduled r)) _ k Hs) as [H1 H2].
  destruct (bt_get k (scheduled r)) as [v|] eqn:Hk; simpl.
  - pose proof (Hdue k v (bt_get_elem _ _ _ Hk)) as Hd.
    destruct (decide (k ∈ (bt_range_to (tick_bound tick) (scheduled r)).*1)) as [Hin|Hni].
    + rewrite H1 by done. rewrite decide_False; [done|]. apply Hd in Hin. lia.
    + rewrite H2 by done. rewrite ?Hk. rewrite decide_True; [done|]. rewrite Hd in Hni. lia.
  - destruct (decide (k ∈ (bt_range_to (tick_bound tick) (scheduled r)).*1)) as [Hin|Hni];
      [by rewrite H1|by rewrite H2, ?Hk].
Qed.

(** An action for a device and a target that exist, with a field name, is
    always queued: the sequence number keeps its key apart from every queued key,
    the queue keeps its other events, and stays well formed. *)
Theorem schedule_never_collides (r : BehaviourRuntime) (tick : Z) (device target : nat) (field : string)
    (value : f64) :
  queue_ok r → next_sequence r < U64_MAX → Z.of_nat device ≤ U64_MAX →
  (device < length (descriptors r))%nat → (target < length (descriptors r))%nat → field ≠ "" →
  let '(res, r') := schedule tick device (SetField target field value) r in
  let key := {| ek_tick := tick; ek_phase := 0; ek_device := Z.of_nat device; ek_sequence := next_sequence r |} in
  res = Ok () ∧ queue_ok r' ∧ bt_get key (scheduled r') = Some (SetField target field value)
  ∧ (∀ k, k ≠ key → bt_get k (scheduled r') = bt_get k (scheduled r)).
Proof.
  intros (Hs & Hk & Hn) Hlt Hdu Hd Ht Hf. unfold schedule, descriptor.
  apply lookup_lt_is_Some_2 in Hd as [d ->], Ht as [t ->].
  destruct (String.eqb_spec field "") as [|_]; [done|].
  set (key := {| ek_tick := tick; ek_phase := 0; ek_device := Z.of_nat device; ek_sequence := next_sequence r |}).
  assert (bt_contains_key key (scheduled r) = false) as ->.
  { destruct (bt_contains_key key (scheduled r)) eqn:E; [|done]. exfalso.
    apply bt_contains_key_true in E as [v Hv%bt_get_elem]. destruct (Hk _ Hv) as (_ & _ & H). simpl in H. lia. }
  split_and!; simpl; [done| |by apply bt_get_insert_eq|intros k Hne; by apply bt_get_insert_ne].
  unfold queue_ok. simpl. unfold wrap_u, U64_MAX in *. rewrite Z.mod_small by lia.
  split_and!; [by apply bt_sorted_insert| |lia|lia].
  intros e [->|Hin]%bt_insert_elem; simpl; [lia|]. destruct (Hk _ Hin) as (? & ? & ?). lia.
Qed.

(** ** A concrete chute line *)

Definition chute_kb : KnowledgeBase :=
  kb_of 128 128 [] [] []
    [device_of VENDING_MACHINE 1 [("Activate", true, true); ("ExportCount", true, false); ("DispenseSlot", true, true)]
       [("0", ["Quantity"; "OccupantHash"]); ("1", ["Quantity"; "OccupantHash"])] ["Chute"; "Chute"] None;
     device_of DIGITAL_VALVE 2 [("Open", true, true); ("Quantity", true, false)]
       [("0", ["Quantity"; "OccupantHash"])] ["Chute"; "Chute"] None;
     device_of CHUTE_OUTLET 3 [("ExportCount", true, false)]
       [("0", ["Quantity"; "OccupantHash"])] ["Chute"] None].

Definition chute_network (id : string) : NetworkSpec :=
  {| ns_id := id; ns_kind := "chute"; ns_cable_role := None; ns_channels := [] |}.

Definition chute_device (id prefab : string) (connections : list (string * string))
    (fields : list (string * Scalar)) (slots : list (string * list (string * Scalar))) : DeviceSpec :=
  {| sp_id := id; sp_prefab := prefab; sp_name := ""; sp_reference_id := None; sp_connections := connections;
     sp_fields := fields; sp_slots := slots; sp_memory := []; sp_ic := None; sp_program := None |}.

Definition chute_devices : list DeviceSpec :=
    [chute_device "vendor" VENDING_MACHINE [("1", "a")] [("Activate", SNumber f_one)]
       [("1", [("OccupantHash", SNumber (f_of_Z 77)); ("Quantity", SNumber f_one)])];
     chute_device "valve" DIGITAL_VALVE [("0", "a"); ("1", "b")] [("Open", SNumber f_one)] [];
     chute_device "outlet" CHUTE_OUTLET [("0", "b")] [] []].

Definition chute_world : World :=
  match build chute_kb [chute_network "a"; chute_network "b"] chute_devices with
  | Ok w => w
  | _ => empty_world
  end.

Definition chute_state : BState :=
  {| b_runtime := build_runtime chute_world; b_world := chute_world; b_journal := journal_default |}.

Lemma chute_state_ok : b_ok [0; 0; 0]%nat 2 chute_state.
Proof.
  split_and!; [|reflexivity..]. split_and!; [reflexivity..|].
  apply (build_ok chute_kb [chute_network "a"; chute_network "b"] chute_devices). vm_compute. reflexivity.
Qed.

(** The vending machine's item reaches the outlet in one end of tick. *)
Example chute_line_delivers :
  let s := (tick_end chute_state).2 in
  slot_field (b_world s) 2 0 "OccupantHash" = Some (f_of_Z 77)
  ∧ slot_field (b_world s) 0 1 "OccupantHash" = Some f_zero
  ∧ slot_field (b_world s) 1 0 "OccupantHash" = Some f_zero.
Proof. vm_compute. by split_and!. Qed.

Lemma move_slot_atomic_witness :
  let '(r, s) := move_slot ActorScheduler "tickEnd" 0 1 1 0 chute_state in
  match r with
  | Ok _ => erase_slots (b_world s) = erase_slots (b_world chute_state)
            ∧ slot_field (b_world s) 1 0 "OccupantHash" = Some (f_of_Z 77)
  | _ => False
  end.
Proof.
  assert ((devices (b_world chute_state) !! 0%nat ≫= λ d, bt_get 1 (slots d)) =
          Some [("OccupantHash", f_of_Z 77); ("Quantity", f_one)]) as Hitem by (vm_compute; reflexivity).
  pose proof (move_slot_atomic ActorScheduler "tickEnd" 0 1 1 0 chute_state) as H.
  assert (match (move_slot ActorScheduler "tickEnd" 0 1 1 0 chute_state).1 with Ok _ => true | _ => false end = true)
    as Hr by (vm_compute; reflexivity).
  destruct (move_slot ActorScheduler "tickEnd" 0 1 1 0 chute_state) as [[[]| |] s]; cbn [fst] in Hr; try discriminate Hr.
  destruct H as (He & _ & item & Hi & Hs).
  { intros item. rewrite Hitem. intros [= <-]. repeat constructor. }
  split; [exact He|]. rewrite Hs. rewrite Hitem in Hi. injection Hi as <-. reflexivity.
Defined.

Lemma behaviour_tick_safe_witness :
  (tick_start 5 chute_state).1 ≠ Panic ∧ b_ok [0; 0; 0]%nat 2 (tick_end chute_state).2.
Proof.
  pose proof (behaviour_tick_safe [0; 0; 0]%nat 2 5 chute_state chute_state_ok) as [[H _] [_ H']].
  split; [exact H|exact H'].
Defined.

(** A runtime with one event for tick 3 and one for tick 8. *)
Definition queued_runtime : BehaviourRuntime :=
  (schedule 8 0 (SetField 1 "Open" f_zero) (schedule 3 1 (SetField 1 "Open" f_one) (build_runtime chute_world)).2).2.

Lemma queued_runtime_ok : queue_ok queued_runtime.
Proof.
  split_and!; [vm_compute; repeat constructor| |vm_compute; discriminate..].
  intros e He. vm_compute in He. unfold U64_MAX.
  repeat (apply elem_of_cons in He as [->|He]; [vm_compute; repeat split; discriminate|]).
  by apply elem_of_nil in He.
Qed.

Lemma tick_start_runs_due_witness :
  let s := set_b_runtime queued_runtime chute_state in
  length (scheduled (b_runtime s)) = 2%nat ∧ length (scheduled (b_runtime (tick_start 4 s).2)) = 1%nat.
Proof.
  intros s. split; [vm_compute; reflexivity|].
  rewrite (tick_start_runs_due 4 s (tick_start 4 s).2); [vm_compute; reflexivity|exact queued_runtime_ok|].
  vm_compute. reflexivity.
Defined.

Lemma schedule_never_collides_witness :
  (schedule 8 0 (SetField 1 "Open" f_one) queued_runtime).1 = Ok ().
Proof.
  pose proof (schedule_never_collides queued_runtime 8 0 1 "Open" f_one queued_runtime_ok) as H.
  destruct (schedule 8 0 (SetField 1 "Open" f_one) queued_runtime) as [r r'].
  apply H; vm_compute; first [reflexivity|discriminate|lia].
Defined.
