(* ===== verification/Vm.v ===== *)
(** * The virtual-machine interface

    [crates/ic10-sim/src/vm.rs]: what the scheduler sees of a program, the services
    a host offers for each language, the adapters that dispatch to them, and the
    schedule, which lists the programs of a scenario in device order. *)

From S2P Require Import Prelude BTree Text F64 Knowledge Literals Journal Scenario World Program Cpu.
Local Open Scope string_scope.
Local Open Scope Z_scope.

(** Source: [crates/ic10-sim/src/vm.rs] [VmState] *)
Inductive VmState :=
  | VmReady
  | VmWaitingUntil (wake : Z)
  | VmHalted
  | VmFaulted.

#[export] Instance VmState_eq_dec : EqDecision VmState.
Proof. solve_decision. Defined.

(** Source: [crates/ic10-sim/src/vm.rs] [runnable_at] *)
Definition runnable_at (state : VmState) (tick : Z) : bool :=
  match state with
  | VmReady => true
  | VmWaitingUntil wake => wake <=? tick
  | _ => false
  end.

(** Source: [crates/ic10-sim/src/vm.rs] [VmSourceLocation] *)
Record VmSourceLocation := {
  runtime_index : nat;
  loc_line : Z;
}.

(** Source: [crates/ic10-sim/src/vm.rs] [VmLifecycle] *)
Record VmLifecycle := {
  lc_state : VmState;
  current_location : option VmSourceLocation;
  lc_operations : Z;
  operation_budget : Z;
}.

(** Source: [crates/ic10-sim/src/vm.rs] [can_step] *)
Definition can_step (l : VmLifecycle) (tick : Z) : bool :=
  runnable_at (lc_state l) tick && (lc_operations l <? operation_budget l).

(** Source: [crates/ic10-sim/src/vm.rs] [retains_slot] *)
Definition retains_slot (l : VmLifecycle) : bool :=
  bool_decide (lc_state l = VmReady) && (lc_operations l <? operation_budget l).

(** Source: [crates/ic10-sim/src/vm.rs] [VmLifecycle::is_finished] *)
Definition lifecycle_finished (l : VmLifecycle) : bool :=
  match lc_state l with VmHalted | VmFaulted => true | _ => false end.

(** Source: [crates/ic10-sim/src/vm.rs] [VmStepResult] *)
Record VmStepResult := {
  sr_location : VmSourceLocation;
  sr_state : VmState;
}.

(** Source: [crates/ic10-sim/src/simulator.rs] [StepEvent] *)
Record StepEvent := {
  ev_cpu : nat;
  ev_line : Z;
  ev_state : CpuState;
}.

(** Source: [crates/ic10-sim/src/vm.rs] [vm_state] *)
Definition vm_state (state : CpuState) : VmState :=
  match state with
  | Ready => VmReady
  | WaitingUntil wake => VmWaitingUntil wake
  | Halted => VmHalted
  | Error => VmFaulted
  end.

(** Source: [crates/ic10-sim/src/vm.rs] [cpu_state] *)
Definition cpu_state (state : VmState) : CpuState :=
  match state with
  | VmReady => Ready
  | VmWaitingUntil wake => WaitingUntil wake
  | VmHalted => Halted
  | VmFaulted => Error
  end.

(** Source: [crates/ic10-sim/src/vm.rs] [into_ic10_event] *)
Definition into_ic10_event (r : VmStepResult) : StepEvent :=
  {| ev_cpu := runtime_index (sr_location r); ev_line := loc_line (sr_location r);
     ev_state := cpu_state (sr_state r) |}.

(** Source: [crates/ic10-sim/src/vm.rs] [lifecycle] lines 292-308 *)
Definition lifecycle (cpu_index : nat) (state : CpuState) (current_line : option Z)
    (operations_this_tick operation_budget : Z) : VmLifecycle :=
  {| lc_state := vm_state state;
     current_location := (λ line, {| runtime_index := cpu_index; loc_line := line |}) <$> current_line;
     lc_operations := operations_this_tick; operation_budget := operation_budget |}.

(** Source: [crates/ic10-sim/src/vm.rs] [step_result] *)
Definition step_result (event : StepEvent) : VmStepResult :=
  {| sr_location := {| runtime_index := ev_cpu event; loc_line := ev_line event |};
     sr_state := vm_state (ev_state event) |}.

(** ** Snapshots *)

(** Source: [crates/ic10-sim/src/vm.rs] [Ic10RuntimeSnapshot] *)
Record Ic10RuntimeSnapshot := {
  ss_registers : list f64;
  ss_stack : list f64;
  ss_pins : list (option nat);
  ss_pc : Z;
  ss_state : CpuState;
  ss_error : option message;
  ss_operations_this_tick : Z;
  ss_random_state : Z;
}.

(** Source: [crates/ic10-sim/src/lua.rs] [LuaFrameStatus] *)
Record LuaFrameStatus := { fr_name : string; fr_source_path : string; fr_line : Z }.

(** Source: [crates/ic10-sim/src/lua.rs] [LuaVariableStatus] *)
Record LuaVariableStatus := { va_name : string; va_value : string; va_type_name : string }.

(** Source: [crates/ic10-sim/src/vm.rs] [LuaRuntimeSnapshot] *)
Record LuaRuntimeSnapshot := {
  sl_invocations : Z;
  sl_faulted : bool;
  sl_error : option message;
  sl_operations_this_tick : Z;
  sl_output : list string;
  sl_current_line : Z;
  sl_state : VmState;
  sl_frames : list LuaFrameStatus;
  sl_locals : list LuaVariableStatus;
  sl_current_source_path : string;
}.

(** Source: [crates/ic10-sim/src/vm.rs] [VmRuntimeSnapshot] *)
Inductive VmRuntimeSnapshot :=
  | SnapIc10 (s : Ic10RuntimeSnapshot)
  | SnapLua (s : LuaRuntimeSnapshot).

(** ** The host and its adapters *)

(** Source: [crates/ic10-sim/src/vm.rs] [VmHost] *)
Class VmHost (H : Type) := {
  ic10_lifecycle : nat → H → outcome message VmLifecycle;
  ic10_step : nat → M H message VmStepResult;
  ic10_halt : nat → M H message ();
  ic10_begin_tick : nat → Z → M H message ();
  ic10_snapshot : nat → H → outcome message Ic10RuntimeSnapshot;
  ic10_restore : nat → Ic10RuntimeSnapshot → M H message ();
  lua_lifecycle : nat → H → outcome message VmLifecycle;
  lua_step : nat → M H message VmStepResult;
  lua_halt : nat → M H message ();
  lua_begin_tick : nat → Z → M H message ();
  lua_snapshot : nat → H → outcome message LuaRuntimeSnapshot;
  lua_restore : nat → LuaRuntimeSnapshot → M H message ();
}.

(** Source: [crates/ic10-sim/src/vm.rs] [VmAdapter] *)
Inductive VmAdapter :=
  | AdIc10 (cpu_index : nat)
  | AdLua (lua_index : nat).

#[export] Instance VmAdapter_eq_dec : EqDecision VmAdapter.
Proof. solve_decision. Defined.

Section adapters.
Context {H : Type} `{VmHost H}.

(** Source: [crates/ic10-sim/src/vm.rs] [VmAdapter::lifecycle] *)
Definition adapter_lifecycle (a : VmAdapter) (host : H) : outcome message VmLifecycle :=
  match a with AdIc10 i => ic10_lifecycle i host | AdLua i => lua_lifecycle i host end.

(** Source: [crates/ic10-sim/src/vm.rs] [VmAdapter::step] *)
Definition adapter_step (a : VmAdapter) : M H message VmStepResult :=
  match a with AdIc10 i => ic10_step i | AdLua i => lua_step i end.

(** Source: [crates/ic10-sim/src/vm.rs] [VmAdapter::halt] *)
Definition adapter_halt (a : VmAdapter) : M H message () :=
  match a with AdIc10 i => ic10_halt i | AdLua i => lua_halt i end.

(** Source: [crates/ic10-sim/src/vm.rs] [VmAdapter::begin_tick] *)
Definition adapter_begin_tick (tick : Z) (a : VmAdapter) : M H message () :=
  match a with AdIc10 i => ic10_begin_tick i tick | AdLua i => lua_begin_tick i tick end.

(** Source: [crates/ic10-sim/src/vm.rs] [VmAdapter::snapshot] *)
Definition adapter_snapshot (host : H) (a : VmAdapter) : outcome message VmRuntimeSnapshot :=
  match a with
  | AdIc10 i => SnapIc10 <$> ic10_snapshot i host
  | AdLua i => SnapLua <$> lua_snapshot i host
  end.

(** Source: [crates/ic10-sim/src/vm.rs] [VmAdapter::restore] *)
Definition adapter_restore (a : VmAdapter) (snapshot : VmRuntimeSnapshot) : M H message () :=
  match a, snapshot with
  | AdIc10 i, SnapIc10 s => ic10_restore i s
  | AdLua i, SnapLua s => lua_restore i s
  | _, _ => throw [PS "VM snapshot type does not match its adapter"]
  end.
End adapters.

(** ** The schedule *)

(** Source: [crates/ic10-sim/src/vm.rs] [VmSchedule] *)
Definition VmSchedule : Type := list VmAdapter.

(** The language of the program a device runs, when it runs one.
    Source: [crates/ic10-sim/src/vm.rs] [VmSchedule::plan] lines 210-232 *)
Definition device_language (scenario : Scenario) (device : DeviceSpec) :
    outcome message (option ProgramLanguage) :=
  match sp_program device with
  | Some program_id =>
      program ← ok_or (find_first (λ p, String.eqb (ps_id p) program_id) (sc_programs scenario))
        [PS "device `"; PS (sp_id device); PS "` references unknown program `"; PS program_id; PS "`"];
      Ok (Some (ps_language program))
  | None =>
      match sp_ic device with
      | Some ic =>
          _ ← ok_or (sic_program ic)
            [PS "device `"; PS (sp_id device);
             PS "` has IC10 state but no legacy inline program or canonical programId"];
          Ok (Some LangIc10)
      | None => Ok None
      end
  end.

(** One device of [plan]: the slots so far and the next index of each language. *)
Definition plan_device (scenario : Scenario) (acc : VmSchedule * nat * nat) (device : DeviceSpec) :
    outcome message (VmSchedule * nat * nat) :=
  let '(slots, next_cpu, next_lua) := acc in
  language ← device_language scenario device;
  Ok (match language with
      | None => acc
      | Some LangIc10 => (slots ++ [AdIc10 next_cpu], S next_cpu, next_lua)
      | Some LangLua => (slots ++ [AdLua next_lua], next_cpu, S next_lua)
      end)%list.

(** Source: [crates/ic10-sim/src/vm.rs] [VmSchedule::plan] *)
Definition plan (scenario : Scenario) : outcome message VmSchedule :=
  acc ← fold_outcome (plan_device scenario) ([], 0%nat, 0%nat) (sc_devices scenario);
  Ok acc.1.1.

(** Source: [crates/ic10-sim/src/vm.rs] [adapter] *)
Definition adapter (schedule : VmSchedule) (slot : Z) : option VmAdapter := schedule !! Z.to_nat slot.

(** Source: [crates/ic10-sim/src/vm.rs] [adapters] *)
Definition adapters (schedule : VmSchedule) : list VmAdapter := schedule.

(** Source: [crates/ic10-sim/src/vm.rs] [adapter_count] *)
Definition adapter_count (schedule : VmSchedule) : nat := length (adapters schedule).

(** ** The order of a plan *)

(** The indices of one language in a schedule. *)
Definition cpu_indices (s : VmSchedule) : list nat :=
  omap (λ a, match a with AdIc10 i => Some i | AdLua _ => None end) s.
Definition lua_indices (s : VmSchedule) : list nat :=
  omap (λ a, match a with AdLua i => Some i | AdIc10 _ => None end) s.
Definition adapter_language (a : VmAdapter) : ProgramLanguage :=
  match a with AdIc10 _ => LangIc10 | AdLua _ => LangLua end.

(** The languages of the devices that run a program, in device order. *)
Definition languages (scenario : Scenario) (devices : list DeviceSpec) : list ProgramLanguage :=
  omap (λ d, match device_language scenario d with Ok l => l | _ => None end) devices.

Lemma plan_devices_spec scenario devices acc acc' :
  fold_outcome (plan_device scenario) acc devices = Ok acc' →
  cpu_indices acc.1.1 = seq 0 acc.1.2 → lua_indices acc.1.1 = seq 0 acc.2 →
  cpu_indices acc'.1.1 = seq 0 acc'.1.2 ∧ lua_indices acc'.1.1 = seq 0 acc'.2
  ∧ adapter_language <$> acc'.1.1 = ((adapter_language <$> acc.1.1) ++ languages scenario devices)%list.
Proof.
  revert acc. induction devices as [|d devices IH]; intros [[slots cpu] lua] H Hc Hl; simpl in H, Hc, Hl.
  - injection H as <-. simpl. by rewrite app_nil_r.
  - destruct (device_language scenario d) as [l| |] eqn:Hd; simpl in H; try done.
    assert (languages scenario (d :: devices) =
            (match l with Some x => [x] | None => [] end ++ languages scenario devices)%list) as ->
      by (unfold languages; simpl; rewrite Hd; by destruct l).
    assert (∀ a, cpu_indices (slots ++ [a])%list = (cpu_indices slots ++ cpu_indices [a])%list) as Hca
      by (intros; apply omap_app).
    assert (∀ a, lua_indices (slots ++ [a])%list = (lua_indices slots ++ lua_indices [a])%list) as Hla
      by (intros; apply omap_app).
    destruct l as [[]|]; apply IH in H as (H1 & H2 & H3); cbn [fst snd] in *; try done;
      rewrite ?H3, ?Hca, ?Hla, ?Hc, ?Hl, ?seq_S, ?app_nil_r, ?fmap_app, <-?app_assoc; done.
Qed.

(** A plan lists the programs in device order, one slot for each device that
    runs one, and numbers the processors and the Lua runtimes from zero in that
    order: the indices the construction of the simulator gives them. *)
Theorem plan_in_device_order (scenario : Scenario) (s : VmSchedule) :
  plan scenario = Ok s →
  adapter_language <$> s = languages scenario (sc_devices scenario)
  ∧ cpu_indices s = seq 0 (length (cpu_indices s)) ∧ lua_indices s = seq 0 (length (lua_indices s)).
Proof.
  unfold plan. intros H. apply outcome_bind_Ok in H as ([[slots cpu] lua] & H & [= <-]).
  apply plan_devices_spec in H as (H1 & H2 & H3); [|done..]. simpl in *.
  split; [exact H3|]. by rewrite H1, H2, !length_seq.
Qed.

Definition sample_scenario : Scenario :=
  {| sc_schema_version := 1; sc_game_version := None; sc_networks := [];
     sc_devices := (λ '(id, program), {| sp_id := id; sp_prefab := "Housing"; sp_name := ""; sp_reference_id := None;
       sp_connections := []; sp_fields := []; sp_slots := []; sp_memory := []; sp_ic := None; sp_program := program |})
       <$> [("a", Some "main"); ("b", None); ("c", Some "script"); ("d", Some "main")];
     sc_programs := [{| ps_id := "script"; ps_path := "s.lua"; ps_language := LangLua |};
                     {| ps_id := "main"; ps_path := "m.ic10"; ps_language := LangIc10 |}] |}.

Lemma plan_in_device_order_witness :
  adapter_language <$> [AdIc10 0; AdLua 0; AdIc10 1] = languages sample_scenario (sc_devices sample_scenario)
  ∧ cpu_indices [AdIc10 0; AdLua 0; AdIc10 1] = [0; 1]%nat.
Proof.
  assert (plan sample_scenario = Ok [AdIc10 0; AdLua 0; AdIc10 1]) as Hp by (vm_compute; reflexivity).
  destruct (plan_in_device_order sample_scenario _ Hp) as (H & _). split; [exact H|reflexivity].
Defined.
