(* ===== verification/Lua.v ===== *)
(** * Attached Lua programs

    [crates/ic10-sim/src/lua.rs]: the scheduler's side of a Lua program: its
    lifecycle, one resumption per tick, snapshots.  The interpreter is the [mlua]
    crate; [LuaEngine] stands for it.  What a coroutine can reach through shared
    cells (its copy of the world, its log, the debug hook's cells) is [LuaShared]. *)

From S2P Require Import Prelude BTree Text F64 Knowledge Literals Journal Scenario World Program Cpu Vm.
Local Open Scope string_scope.
Local Open Scope Z_scope.

(** The cells the host and a running coroutine share. *)
Record LuaShared := {
  ls_world : World;
  ls_logs : list string;
  ls_output : list string;
  ls_line : Z;
  ls_frames : list LuaFrameStatus;
  ls_locals : list LuaVariableStatus;
  ls_source_path : string;
}.

(** What [Thread::resume] and [Thread::status] tell. *)
Inductive resume_result :=
  | ResumeFailed (error : message)
  | ResumeFinished
  | ResumeYielded
  | ResumeOther.

(** The interpreter: resuming the coroutine of a state, and a fresh coroutine of
    its entry function. *)
Class LuaEngine := {
  lua_state : Type;
  lua_resume : bool → lua_state → LuaShared → resume_result * lua_state * LuaShared;
  lua_create_thread : lua_state → outcome message lua_state;
}.

(** Source: [crates/ic10-sim/src/lua.rs] [LuaProgramState] *)
Inductive LuaProgramState :=
  | LuaReady
  | LuaWaitingUntil (tick : Z)
  | LuaHalted
  | LuaFaulted.

Section lua.
Context `{LuaEngine}.

(** Source: [crates/ic10-sim/src/lua.rs] [LuaProgramRuntime] *)
Record LuaProgramRuntime := {
  lp_id : string;
  lp_program_id : string;
  lp_source_path : string;
  lp_housing : nat;
  lp_engine : lua_state;
  lp_shared : LuaShared;
  lp_line_yield : bool;
  lp_state : VmState;
  lp_invocations : Z;
  lp_faulted : bool;
  lp_error : option message;
  lp_operations_this_tick : Z;
}.

Definition lp_set_engine (e : lua_state) (s : LuaShared) (r : LuaProgramRuntime) : LuaProgramRuntime :=
  {| lp_id := lp_id r; lp_program_id := lp_program_id r; lp_source_path := lp_source_path r;
     lp_housing := lp_housing r; lp_engine := e; lp_shared := s; lp_line_yield := lp_line_yield r;
     lp_state := lp_state r; lp_invocations := lp_invocations r; lp_faulted := lp_faulted r;
     lp_error := lp_error r; lp_operations_this_tick := lp_operations_this_tick r |}.
Definition lp_set_schedule (st : VmState) (invocations operations : Z) (r : LuaProgramRuntime) : LuaProgramRuntime :=
  {| lp_id := lp_id r; lp_program_id := lp_program_id r; lp_source_path := lp_source_path r;
     lp_housing := lp_housing r; lp_engine := lp_engine r; lp_shared := lp_shared r;
     lp_line_yield := lp_line_yield r; lp_state := st; lp_invocations := invocations;
     lp_faulted := lp_faulted r; lp_error := lp_error r; lp_operations_this_tick := operations |}.
Definition lp_set_fault (faulted : bool) (e : option message) (r : LuaProgramRuntime) : LuaProgramRuntime :=
  {| lp_id := lp_id r; lp_program_id := lp_program_id r; lp_source_path := lp_source_path r;
     lp_housing := lp_housing r; lp_engine := lp_engine r; lp_shared := lp_shared r;
     lp_line_yield := lp_line_yield r; lp_state := lp_state r; lp_invocations := lp_invocations r;
     lp_faulted := faulted; lp_error := e; lp_operations_this_tick := lp_operations_this_tick r |}.

Definition ls_set_world (w : World) (s : LuaShared) : LuaShared :=
  {| ls_world := w; ls_logs := ls_logs s; ls_output := ls_output s; ls_line := ls_line s;
     ls_frames := ls_frames s; ls_locals := ls_locals s; ls_source_path := ls_source_path s |}.
(** [logs.extend(take(output.lines))] *)
Definition ls_flush (s : LuaShared) : LuaShared :=
  {| ls_world := ls_world s; ls_logs := (ls_logs s ++ ls_output s)%list; ls_output := []; ls_line := ls_line s;
     ls_frames := ls_frames s; ls_locals := ls_locals s; ls_source_path := ls_source_path s |}.

Abbreviation LX := (M LuaProgramRuntime message).

Definition saturating_succ (tick : Z) : Z := Z.min U64_MAX (tick + 1).

(** Source: [crates/ic10-sim/src/lua.rs] [public_state] *)
Definition public_state (r : LuaProgramRuntime) : LuaProgramState :=
  match lp_state r with
  | VmReady => LuaReady
  | VmWaitingUntil tick => LuaWaitingUntil tick
  | VmHalted => LuaHalted
  | VmFaulted => LuaFaulted
  end.

(** Source: [crates/ic10-sim/src/lua.rs] [LuaProgramRuntime::lifecycle] *)
Definition lua_runtime_lifecycle (runtime_index : nat) (tick : Z) (r : LuaProgramRuntime) : VmLifecycle :=
  {| lc_state := lp_state r;
     current_location := Some {| runtime_index := runtime_index; loc_line := ls_line (lp_shared r) |};
     lc_operations := lp_operations_this_tick r; operation_budget := 1 |}.

(** Source: [crates/ic10-sim/src/lua.rs] [LuaProgramRuntime::current_line] *)
Definition lua_current_line (r : LuaProgramRuntime) : Z := Z.max 0 (ls_line (lp_shared r) - 1).

(** Source: [crates/ic10-sim/src/lua.rs] [set_debugging] *)
Definition set_debugging (enabled : bool) (r : LuaProgramRuntime) : LuaProgramRuntime :=
  {| lp_id := lp_id r; lp_program_id := lp_program_id r; lp_source_path := lp_source_path r;
     lp_housing := lp_housing r; lp_engine := lp_engine r; lp_shared := lp_shared r; lp_line_yield := enabled;
     lp_state := lp_state r; lp_invocations := lp_invocations r; lp_faulted := lp_faulted r;
     lp_error := lp_error r; lp_operations_this_tick := lp_operations_this_tick r |}.

(** Source: [crates/ic10-sim/src/lua.rs] [resume_once] *)
Definition resume_once (tick : Z) : LX () := λ r,
  let '(result, e, shared) := lua_resume (lp_line_yield r) (lp_engine r) (lp_shared r) in
  let r := lp_set_engine e shared r in
  match result with
  | ResumeFailed error => (Err error, r)
  | _ =>
      let r := lp_set_engine e (ls_flush shared) r in
      let invocations := lp_invocations r + 1 in
      match result with
      | ResumeFinished =>
          match lua_create_thread e with
          | Ok e' => (Ok (), lp_set_schedule (VmWaitingUntil (saturating_succ tick)) invocations 1
                               (lp_set_engine e' (ls_flush shared) r))
          | Err error => (Err error, lp_set_schedule (lp_state r) invocations 1 r)
          | Panic => (Panic, r)
          end
      | ResumeYielded => (Ok (), lp_set_schedule (VmWaitingUntil (saturating_succ tick)) invocations 1 r)
      | _ => (Ok (), lp_set_schedule VmFaulted invocations 1 r)
      end
  end.

(** A step sees a copy of the world and, when it returns, replaces the world.
    Source: [crates/ic10-sim/src/lua.rs] [LuaProgramRuntime::step] *)
Definition lua_runtime_step (tick : Z) (world : World) (r : LuaProgramRuntime) :
    outcome message () * World * LuaProgramRuntime :=
  let r := lp_set_engine (lp_engine r) (ls_set_world world (lp_shared r)) r in
  match lp_state r with
  | VmReady =>
      match resume_once tick r with
      | (Ok _, r) => (Ok (), ls_world (lp_shared r), r)
      | (Err error, r) => (Err error, world, lp_set_fault true (Some error) r)
      | (Panic, r) => (Panic, world, r)
      end
  | _ => (Ok (), world, r)
  end.

(** Source: [crates/ic10-sim/src/lua.rs] [begin_tick] *)
Definition lua_runtime_begin_tick (tick : Z) (r : LuaProgramRuntime) : LuaProgramRuntime :=
  let st := match lp_state r with
            | VmWaitingUntil wake => if wake <=? tick then VmReady else VmWaitingUntil wake
            | s => s
            end in
  lp_set_schedule st (lp_invocations r) 0 r.

(** Source: [crates/ic10-sim/src/lua.rs] [LuaProgramRuntime::snapshot] *)
Definition lua_runtime_snapshot (r : LuaProgramRuntime) : LuaRuntimeSnapshot :=
  {| sl_invocations := lp_invocations r; sl_faulted := lp_faulted r; sl_error := lp_error r;
     sl_operations_this_tick := lp_operations_this_tick r; sl_output := ls_logs (lp_shared r);
     sl_current_line := ls_line (lp_shared r); sl_state := lp_state r; sl_frames := ls_frames (lp_shared r);
     sl_locals := ls_locals (lp_shared r); sl_current_source_path := ls_source_path (lp_shared r) |}.

(** Source: [crates/ic10-sim/src/lua.rs] [LuaProgramRuntime::restore] *)
Definition lua_runtime_restore (s : LuaRuntimeSnapshot) (current_world : World) (r : LuaProgramRuntime) :
    LuaProgramRuntime :=
  let shared := {| ls_world := current_world; ls_logs := sl_output s; ls_output := ls_output (lp_shared r);
                   ls_line := sl_current_line s; ls_frames := sl_frames s; ls_locals := sl_locals s;
                   ls_source_path := sl_current_source_path s |} in
  lp_set_fault (sl_faulted s) (sl_error s)
    (lp_set_schedule (sl_state s) (sl_invocations s) (sl_operations_this_tick s)
       (lp_set_engine (lp_engine r) shared r)).

(** ** One resumption per tick *)

Lemma resume_once_spends tick r r' :
  resume_once tick r = (Ok (), r') → lp_operations_this_tick r' = 1 ∧ lp_state r' ≠ VmReady.
Proof.
  unfold resume_once. destruct (lua_resume _ _ _) as [[res e] sh]. destruct res; try done.
  - destruct (lua_create_thread e); [|done..]. by intros [= <-].
  - by intros [= <-].
  - by intros [= <-].
Qed.

Lemma lua_restore_snapshot s w r : lua_runtime_snapshot (lua_runtime_restore s w r) = s.
Proof. by destruct s. Qed.
End lua.

(** A Lua program runs once per tick: after a resumption that returns it cannot
    be stepped again in that tick, one more invocation is counted, and unless it has
    faulted it can be stepped again once the next tick has begun. *)
Theorem lua_runs_once_per_tick `{LuaEngine} (index : nat) (tick : Z) (w w' : World) (r r' : LuaProgramRuntime) :
  lp_state r = VmReady → lua_runtime_step tick w r = (Ok (), w', r') →
  can_step (lua_runtime_lifecycle index tick r') tick = false
  ∧ lp_invocations r' = lp_invocations r + 1
  ∧ (tick < U64_MAX → lp_state r' ≠ VmFaulted →
     can_step (lua_runtime_lifecycle index (tick + 1) (lua_runtime_begin_tick (tick + 1) r')) (tick + 1) = true).
Proof.
  intros Hready Hstep. unfold lua_runtime_step in Hstep. cbv zeta in Hstep. cbn [lp_state lp_set_engine] in Hstep.
  rewrite Hready in Hstep. destruct (resume_once tick _) as [[[]| |] r1] eqn:Hr; try done. injection Hstep as _ <-.
  pose proof Hr as [Hops Hst]%resume_once_spends. split_and!.
  - unfold can_step, lua_runtime_lifecycle. cbn [lc_operations operation_budget]. rewrite Hops. apply andb_false_r.
  - unfold resume_once in Hr. destruct (lua_resume _ _ _) as [[res e] sh]. destruct res; try done.
    + destruct (lua_create_thread e); [|done..]. by injection Hr as <-.
    + by injection Hr as <-.
    + by injection Hr as <-.
  - intros Htick Hnf. assert (lp_state r1 = VmFaulted ∨ lp_state r1 = VmWaitingUntil (tick + 1)) as [|Hw]; [|done|].
    { unfold resume_once, saturating_succ in Hr. destruct (lua_resume _ _ _) as [[res e] sh].
      rewrite Z.min_r in Hr by lia. destruct res; try done.
      - destruct (lua_create_thread e); [|done..]. injection Hr as <-. by right.
      - injection Hr as <-. by right.
      - injection Hr as <-. by left. }
    unfold can_step, lua_runtime_lifecycle, lua_runtime_begin_tick. cbn. rewrite Hw, Z.leb_refl. done.
Qed.

(** A program that yields at once. *)
#[local] Instance yielding_engine : LuaEngine :=
  {| lua_state := (); lua_resume := λ _ e shared, (ResumeYielded, e, shared); lua_create_thread := Ok |}.

Definition yielding_program : LuaProgramRuntime :=
  {| lp_id := "l"; lp_program_id := "l"; lp_source_path := "main.lua"; lp_housing := 0%nat; lp_engine := ();
     lp_shared := {| ls_world := empty_world; ls_logs := []; ls_output := []; ls_line := 1; ls_frames := [];
                     ls_locals := []; ls_source_path := "main.lua" |};
     lp_line_yield := false; lp_state := VmReady; lp_invocations := 0; lp_faulted := false; lp_error := None;
     lp_operations_this_tick := 0 |}.

Lemma lua_runs_once_per_tick_witness :
  let r := (lua_runtime_step 3 empty_world yielding_program).2 in
  can_step (lua_runtime_lifecycle 0 3 r) 3 = false
  ∧ can_step (lua_runtime_lifecycle 0 4 (lua_runtime_begin_tick 4 r)) 4 = true.
Proof.
  destruct (lua_runs_once_per_tick 0 3 empty_world empty_world yielding_program
              (lua_runtime_step 3 empty_world yielding_program).2 eq_refl eq_refl) as (H1 & _ & H2).
  split; [exact H1|]. apply H2; [vm_compute; reflexivity|discriminate].
Defined.
