(* ===== verification/Simulator.v ===== *)
(** * The simulator

    [crates/ic10-sim/src/simulator.rs]: the state of a simulation, the execution of one
    instruction of one processor, the deterministic scheduler and its ticks.  The
    construction of a simulation is in [Construct] and [Load], what a debugger and a
    test driver do to it in [Control]. *)

From S2P Require Import Prelude BTree Text F64 Knowledge Literals Journal Scenario World Program Cpu Exec.
From S2P Require Import Behaviour Vm Lua.
Local Open Scope string_scope.
Local Open Scope Z_scope.

(** The text of a floating point number in a message ([Display] of [f64]). *)
Class FloatDisplay := { display_f64 : f64 → string }.

(** ** Hashes *)

Definition FNV_OFFSET : Z := 14695981039346656037.
Definition FNV_PRIME : Z := 1099511628211.

(** One byte of the FNV-1a hash. *)
Definition fnv_step (hash b : Z) : Z := wrap_u 64 (Z.lxor hash b * FNV_PRIME).
Definition fnv_add (bytes : list Z) (hash : Z) : Z := foldl fnv_step hash bytes.

(** Source: [crates/ic10-sim/src/simulator.rs] [stable_bytes_hash] *)
Definition stable_bytes_hash (bytes : list Z) : Z := fnv_add bytes FNV_OFFSET.

Section simulator.
Context `{Libm} `{Build} `{LuaEngine} `{FloatDisplay}.

Definition message_text (m : message) : string := render display_f64 m.

(** Source: [crates/ic10-sim/src/simulator.rs] [stable_text_bits] *)
Definition stable_text_bits (value : option message) : Z :=
  fnv_add (bytes (default "" (message_text <$> value))) FNV_OFFSET.

(** Source: [crates/ic10-sim/src/simulator.rs] [Simulator] *)
Record Simulator := {
  knowledge : KnowledgeBase;
  world : World;
  cpus : list Cpu;
  lua_programs : list LuaProgramRuntime;
  tick : Z;
  compatibility_warnings : list string;
  sim_schedule : VmSchedule;
  scheduler_slot : Z;
  scheduler_error : option message;
  behaviours : BehaviourRuntime;
  driver_state : BTreeMap string (list Z);
  journal : EffectJournal;
}.

Definition sim_set_world (v : World) (x : Simulator) : Simulator :=
  {| knowledge := knowledge x; world := v; cpus := cpus x; lua_programs := lua_programs x; tick := tick x; compatibility_warnings := compatibility_warnings x; sim_schedule := sim_schedule x; scheduler_slot := scheduler_slot x; scheduler_error := scheduler_error x; behaviours := behaviours x; driver_state := driver_state x; journal := journal x |}.
Definition sim_set_cpus (v : list Cpu) (x : Simulator) : Simulator :=
  {| knowledge := knowledge x; world := world x; cpus := v; lua_programs := lua_programs x; tick := tick x; compatibility_warnings := compatibility_warnings x; sim_schedule := sim_schedule x; scheduler_slot := scheduler_slot x; scheduler_error := scheduler_error x; behaviours := behaviours x; driver_state := driver_state x; journal := journal x |}.
Definition sim_set_lua_programs (v : list LuaProgramRuntime) (x : Simulator) : Simulator :=
  {| knowledge := knowledge x; world := world x; cpus := cpus x; lua_programs := v; tick := tick x; compatibility_warnings := compatibility_warnings x; sim_schedule := sim_schedule x; scheduler_slot := scheduler_slot x; scheduler_error := scheduler_error x; behaviours := behaviours x; driver_state := driver_state x; journal := journal x |}.
Definition sim_set_tick (v : Z) (x : Simulator) : Simulator :=
  {| knowledge := knowledge x; world := world x; cpus := cpus x; lua_programs := lua_programs x; tick := v; compatibility_warnings := compatibility_warnings x; sim_schedule := sim_schedule x; scheduler_slot := scheduler_slot x; scheduler_error := scheduler_error x; behaviours := behaviours x; driver_state := driver_state x; journal := journal x |}.
Definition sim_set_scheduler_slot (v : Z) (x : Simulator) : Simulator :=
  {| knowledge := knowledge x; world := world x; cpus := cpus x; lua_programs := lua_programs x; tick := tick x; compatibility_warnings := compatibility_warnings x; sim_schedule := sim_schedule x; scheduler_slot := v; scheduler_error := scheduler_error x; behaviours := behaviours x; driver_state := driver_state x; journal := journal x |}.
Definition sim_set_scheduler_error (v : option message) (x : Simulator) : Simulator :=
  {| knowledge := knowledge x; world := world x; cpus := cpus x; lua_programs := lua_programs x; tick := tick x; compatibility_warnings := compatibility_warnings x; sim_schedule := sim_schedule x; scheduler_slot := scheduler_slot x; scheduler_error := v; behaviours := behaviours x; driver_state := driver_state x; journal := journal x |}.
Definition sim_set_behaviours (v : BehaviourRuntime) (x : Simulator) : Simulator :=
  {| knowledge := knowledge x; world := world x; cpus := cpus x; lua_programs := lua_programs x; tick := tick x; compatibility_warnings := compatibility_warnings x; sim_schedule := sim_schedule x; scheduler_slot := scheduler_slot x; scheduler_error := scheduler_error x; behaviours := v; driver_state := driver_state x; journal := journal x |}.
Definition sim_set_driver_state (v : BTreeMap string (list Z)) (x : Simulator) : Simulator :=
  {| knowledge := knowledge x; world := world x; cpus := cpus x; lua_programs := lua_programs x; tick := tick x; compatibility_warnings := compatibility_warnings x; sim_schedule := sim_schedule x; scheduler_slot := scheduler_slot x; scheduler_error := scheduler_error x; behaviours := behaviours x; driver_state := v; journal := journal x |}.
Definition sim_set_journal (v : EffectJournal) (x : Simulator) : Simulator :=
  {| knowledge := knowledge x; world := world x; cpus := cpus x; lua_programs := lua_programs x; tick := tick x; compatibility_warnings := compatibility_warnings x; sim_schedule := sim_schedule x; scheduler_slot := scheduler_slot x; scheduler_error := scheduler_error x; behaviours := behaviours x; driver_state := driver_state x; journal := v |}.

Abbreviation SX := (M Simulator message).

(** ** Parts of the state *)

Definition machine_of (s : Simulator) (c : Cpu) : Machine :=
  {| m_cpu := c; m_fx := {| fx_world := world s; fx_journal := journal s |} |}.

(** An instruction on processor [i], the world and the journal. *)
Definition on_machine {A} (i : nat) (m : EX A) : SX A := λ s,
  match cpus s !! i with
  | None => (Panic, s)
  | Some c =>
      let '(r, x) := m (machine_of s c) in
      (r, sim_set_cpus (<[i := m_cpu x]> (cpus s))
            (sim_set_world (fx_world (m_fx x)) (sim_set_journal (fx_journal (m_fx x)) s)))
  end.

Definition on_cpu_at {A} (i : nat) (m : CM A) : SX A := on_machine i (on_cpu m).
Definition alter_cpu (i : nat) (f : Cpu → Cpu) : SX () := λ s,
  match cpus s !! i with
  | None => (Panic, s)
  | Some c => (Ok (), sim_set_cpus (<[i := f c]> (cpus s)) s)
  end.

(** A behaviour hook; its error becomes its text. *)
Definition on_behaviours {A} (m : BX A) : SX A := λ s,
  let '(r, b) := m {| b_runtime := behaviours s; b_world := world s; b_journal := journal s |} in
  (match r with Ok a => Ok a | Err e => Err (behaviour_error_message e) | Panic => Panic end,
   sim_set_behaviours (b_runtime b) (sim_set_world (b_world b) (sim_set_journal (b_journal b) s))).

Definition sim_write_bits (actor : EffectActor) (target : EffectTarget) (before after : Z) : SX () :=
  modify (λ s, sim_set_journal (write_bits actor target before after (journal s)) s).
Definition sim_write (actor : EffectActor) (target : EffectTarget) (before after : f64) : SX () :=
  modify (λ s, sim_set_journal (write actor target before after (journal s)) s).
Definition sim_intern (name : string) : SX SymbolId := λ s,
  let '(id, j) := intern name (journal s) in (Ok id, sim_set_journal j s).
Definition sim_journal_enabled : SX bool := gets (λ s, is_enabled (journal s)).
Definition sim_notify (device : nat) (field : string) (before after : f64) : SX () :=
  modify (λ s, sim_set_behaviours (notify_field_write device field before after (behaviours s)) s).
(** [self.world.devices[device]], a panic out of range *)
Definition sim_device (device : nat) : SX Device := get_or_panic (λ s, devices (world s) !! device).
Definition sim_alter_device (device : nat) (f : Device → Device) : SX () :=
  modify (λ s, sim_set_world (alter_device f device (world s)) s).

(** [self.world.devices[device].fields.insert(field, value)] *)
Definition insert_device_field (device : nat) (field : string) (value : f64) : SX () :=
  _ ← sim_device device;
  sim_alter_device device (λ d, set_fields (bt_insert field value (fields d)) d).

(** [a + b] on [u32] *)
Definition add_u32 {E} (a b : Z) : outcome E Z :=
  if a + b <=? U32_MAX then Ok (a + b) else on_overflow (wrap_u 32 (a + b)).

(** ** One instruction *)

Definition is_runnable (state : CpuState) : bool :=
  match state with Halted | Error => false | _ => true end.

(** [self.world.take_field_writes()], each handed to the behaviours in order. *)
Definition deliver_field_writes : SX () := λ s,
  let '(writes, w) := take_field_writes (world s) in
  for_each (λ '(device, field, before, after), sim_notify device field before after) writes
    (sim_set_world w s).

(** [self.journal.extend(self.cpus[cpu_index].take_effects())] *)
Definition collect_effects (cpu_index : nat) : SX () := λ s,
  match cpus s !! cpu_index with
  | None => (Panic, s)
  | Some c =>
      let '(batch, c) := cpu_take_effects c in
      (Ok (), sim_set_cpus (<[cpu_index := c]> (cpus s)) (sim_set_journal (extend batch (journal s)) s))
  end.

(** The operation counter of a processor, counted and recorded. *)
Definition count_operation (cpu_index : nat) (actor : EffectActor) : SX () :=
  c ← get_or_panic (λ s, cpus s !! cpu_index);
  let before := operations_this_tick c in
  after ← lift (add_u32 before 1);
  _ ← alter_cpu cpu_index (set_operations_this_tick after);
  sim_write_bits actor (TCpuOperations cpu_index) before after.

(** Source: [crates/ic10-sim/src/simulator.rs] [step_instruction] *)
Definition step_instruction (cpu_index : nat) : SX StepEvent :=
  cpu ← gets (λ s, cpus s !! cpu_index);
  cpu ← lift (ok_or cpu [PS "unknown IC thread "; PZ (Z.of_nat cpu_index + 1)]);
  if negb (is_runnable (state cpu)) then throw [PS "IC `"; PS (cpu_name cpu); PS "` is not runnable"]
  else
    match current_operation cpu with
    | None =>
        _ ← alter_cpu cpu_index (set_state Halted);
        mret {| ev_cpu := cpu_index; ev_line := pc cpu; ev_state := Halted |}
    | Some operation =>
        source ← sim_intern (debug_source_path (program cpu));
        let actor := ActorIc cpu_index source (op_line operation) in
        on ← sim_journal_enabled;
        _ ← alter_cpu cpu_index (configure_journal on actor);
        _ ← on_cpu_at cpu_index (write_pc (op_line operation));
        _ ← on_cpu_at cpu_index (write_state Ready);
        _ ← insert_device_field (housing cpu) "LineNumber" (f_of_Z (op_line operation));
        kb ← gets knowledge;
        now ← gets tick;
        result ← (λ s, let '(r, s) := on_machine cpu_index (execute_operation kb now actor operation) s in
                       match r with
                       | Ok _ => (Ok None, s)
                       | Err e => (Ok (Some e), s)
                       | Panic => (Panic, s)
                       end) : SX (option message);
        _ ← deliver_field_writes;
        _ ← count_operation cpu_index actor;
        match result with
        | Some text =>
            _ ← on_cpu_at cpu_index (write_state Error);
            _ ← alter_cpu cpu_index (set_error (Some text));
            _ ← insert_device_field (housing cpu) "Error" f_one;
            _ ← collect_effects cpu_index;
            throw text
        | None =>
            _ ← collect_effects cpu_index;
            cpu ← get_or_panic (λ s, cpus s !! cpu_index);
            mret {| ev_cpu := cpu_index; ev_line := op_line operation; ev_state := state cpu |}
        end
    end.

(** ** The processors and Lua programs as hosts *)

Definition IC10_INDEX : message := [PS "IC10 adapter runtime index is out of range"].
Definition LUA_INDEX : message := [PS "Lua adapter runtime index is out of range"].

(** Source: [crates/ic10-sim/src/simulator.rs] [ic10_lifecycle] *)
Definition sim_ic10_lifecycle (cpu_index : nat) (s : Simulator) : outcome message VmLifecycle :=
  cpu ← ok_or (cpus s !! cpu_index) IC10_INDEX;
  Ok (lifecycle cpu_index (state cpu) (current_line cpu) (operations_this_tick cpu)
        (ar_maximum_instructions_per_tick (la_architecture (kb_language (knowledge s))))).

(** Source: [crates/ic10-sim/src/simulator.rs] [ic10_step] *)
Definition sim_ic10_step (cpu_index : nat) : SX VmStepResult :=
  event ← step_instruction cpu_index; mret (step_result event).

(** Source: [crates/ic10-sim/src/simulator.rs] [ic10_halt] *)
Definition sim_ic10_halt (cpu_index : nat) : SX () :=
  cpu ← gets (λ s, cpus s !! cpu_index);
  cpu ← lift (ok_or cpu IC10_INDEX);
  _ ← alter_cpu cpu_index (set_state Halted);
  sim_write_bits ActorScheduler (TCpuState cpu_index) (cpu_state_bits (state cpu)) (cpu_state_bits Halted).

Definition wakes (state : CpuState) (tick : Z) : bool :=
  match state with WaitingUntil wake => wake <=? tick | _ => false end.

(** Source: [crates/ic10-sim/src/simulator.rs] [ic10_begin_tick] *)
Definition sim_ic10_begin_tick (cpu_index : nat) (tick : Z) : SX () :=
  cpu ← gets (λ s, cpus s !! cpu_index);
  cpu ← lift (ok_or cpu IC10_INDEX);
  _ ← alter_cpu cpu_index (set_operations_this_tick 0);
  _ ← sim_write_bits ActorScheduler (TCpuOperations cpu_index) (operations_this_tick cpu) 0;
  when (wakes (state cpu) tick)
    (_ ← alter_cpu cpu_index (set_state Ready);
     sim_write_bits ActorScheduler (TCpuState cpu_index) (cpu_state_bits (state cpu)) (cpu_state_bits Ready)).

(** Source: [crates/ic10-sim/src/simulator.rs] [ic10_snapshot] *)
Definition sim_ic10_snapshot (cpu_index : nat) (s : Simulator) : outcome message Ic10RuntimeSnapshot :=
  cpu ← ok_or (cpus s !! cpu_index) IC10_INDEX;
  Ok {| ss_registers := registers cpu; ss_stack := stack cpu; ss_pins := pins cpu; ss_pc := pc cpu;
        ss_state := state cpu; ss_error := error cpu; ss_operations_this_tick := operations_this_tick cpu;
        ss_random_state := random_state cpu |}.

Definition restore_cpu (x : Ic10RuntimeSnapshot) (c : Cpu) : Cpu :=
  {| cpu_id := cpu_id c; program_id := program_id c; cpu_name := cpu_name c; housing := housing c;
     program := program c; registers := ss_registers x; stack := ss_stack x; pins := ss_pins x; pc := ss_pc x;
     state := ss_state x; error := ss_error x; operations_this_tick := ss_operations_this_tick x;
     random_state := ss_random_state x; cpu_journal := cpu_journal c; journal_enabled := journal_enabled c;
     journal_actor := journal_actor c |}.

(** Source: [crates/ic10-sim/src/simulator.rs] [ic10_restore] *)
Definition sim_ic10_restore (cpu_index : nat) (snapshot : Ic10RuntimeSnapshot) : SX () :=
  cpu ← gets (λ s, cpus s !! cpu_index);
  _ ← lift (ok_or cpu IC10_INDEX);
  alter_cpu cpu_index (restore_cpu snapshot).

Definition runtime_index_of (lua_index : nat) (s : Simulator) : nat := (length (cpus s) + lua_index)%nat.

(** Source: [crates/ic10-sim/src/simulator.rs] [lua_lifecycle] *)
Definition sim_lua_lifecycle (lua_index : nat) (s : Simulator) : outcome message VmLifecycle :=
  runtime ← ok_or (lua_programs s !! lua_index) LUA_INDEX;
  Ok (lua_runtime_lifecycle (runtime_index_of lua_index s) (tick s) runtime).

Definition alter_lua (lua_index : nat) (f : LuaProgramRuntime → LuaProgramRuntime) : SX () :=
  runtime ← gets (λ s, lua_programs s !! lua_index);
  runtime ← lift (ok_or runtime LUA_INDEX);
  modify (λ s, sim_set_lua_programs (<[lua_index := f runtime]> (lua_programs s)) s).

(** Source: [crates/ic10-sim/src/simulator.rs] [lua_step] *)
Definition sim_lua_step (lua_index : nat) : SX VmStepResult :=
  runtime ← gets (λ s, lua_programs s !! lua_index);
  runtime ← lift (ok_or runtime LUA_INDEX);
  _ ← (λ s, let '(r, w, runtime') := lua_runtime_step (tick s) (world s) runtime in
            (r, sim_set_world w (sim_set_lua_programs (<[lua_index := runtime']> (lua_programs s)) s))) : SX ();
  runtime ← get_or_panic (λ s, lua_programs s !! lua_index);
  index ← gets (runtime_index_of lua_index);
  mret {| sr_location := {| runtime_index := index; loc_line := lua_current_line runtime |};
          sr_state := lp_state runtime |}.

(** Source: [crates/ic10-sim/src/simulator.rs] [lua_halt] *)
Definition sim_lua_halt (lua_index : nat) : SX () := alter_lua lua_index id.

(** Source: [crates/ic10-sim/src/simulator.rs] [lua_begin_tick] *)
Definition sim_lua_begin_tick (lua_index : nat) (tick : Z) : SX () :=
  alter_lua lua_index (lua_runtime_begin_tick tick).

(** Source: [crates/ic10-sim/src/simulator.rs] [lua_snapshot] *)
Definition sim_lua_snapshot (lua_index : nat) (s : Simulator) : outcome message LuaRuntimeSnapshot :=
  runtime ← ok_or (lua_programs s !! lua_index) LUA_INDEX;
  Ok (lua_runtime_snapshot runtime).

(** Source: [crates/ic10-sim/src/simulator.rs] [lua_restore] *)
Definition sim_lua_restore (lua_index : nat) (snapshot : LuaRuntimeSnapshot) : SX () :=
  w ← gets world;
  alter_lua lua_index (lua_runtime_restore snapshot w).

#[export] Instance simulator_host : VmHost Simulator := {|
  ic10_lifecycle := sim_ic10_lifecycle; ic10_step := sim_ic10_step; ic10_halt := sim_ic10_halt;
  ic10_begin_tick := sim_ic10_begin_tick; ic10_snapshot := sim_ic10_snapshot;
  ic10_restore := sim_ic10_restore; lua_lifecycle := sim_lua_lifecycle; lua_step := sim_lua_step;
  lua_halt := sim_lua_halt; lua_begin_tick := sim_lua_begin_tick; lua_snapshot := sim_lua_snapshot;
  lua_restore := sim_lua_restore |}.

(** ** The scheduler *)

(** Source: [crates/ic10-sim/src/simulator.rs] [set_scheduler_slot] *)
Definition set_scheduler_slot (value : Z) : SX () :=
  before ← gets scheduler_slot;
  _ ← modify (sim_set_scheduler_slot value);
  sim_write_bits ActorScheduler TSchedulerCpu before value.

(** Source: [crates/ic10-sim/src/simulator.rs] [advance_tick] *)
Definition advance_tick : SX () :=
  _ ← on_behaviours tick_end;
  before_tick ← gets tick;
  after ← lift (add_u64 before_tick 1);
  _ ← modify (sim_set_tick after);
  _ ← sim_write_bits ActorScheduler TTick before_tick after;
  _ ← on_behaviours (tick_start after);
  _ ← set_scheduler_slot 0;
  ads ← gets (λ s, adapters (sim_schedule s));
  for_each (adapter_begin_tick after) ads.

(** The loop of [prepare_next_adapter] over the slots from the cursor on: every turn
    returns or moves the cursor to the next slot. *)
Fixpoint prepare_from (slots : list VmAdapter) : SX (option (VmAdapter * VmSourceLocation)) :=
  match slots with
  | [] => _ ← advance_tick; mret None
  | a :: rest =>
      l ← (λ s, (adapter_lifecycle a s, s)) : SX VmLifecycle;
      now ← gets tick;
      slot ← gets scheduler_slot;
      if negb (can_step l now) then
        _ ← set_scheduler_slot (slot + 1);
        prepare_from rest
      else
        match current_location l with
        | None =>
            _ ← adapter_halt a;
            _ ← set_scheduler_slot (slot + 1);
            prepare_from rest
        | Some location => mret (Some (a, location))
        end
  end.

(** Source: [crates/ic10-sim/src/simulator.rs] [prepare_next_adapter] *)
Definition prepare_next_adapter : SX (option (VmAdapter * VmSourceLocation)) := λ s,
  prepare_from (drop (Z.to_nat (scheduler_slot s)) (sim_schedule s)) s.

(** Source: [crates/ic10-sim/src/simulator.rs] [scheduler_step] *)
Definition scheduler_step : SX (option StepEvent) :=
  pending_error ← gets scheduler_error;
  match pending_error with
  | Some e => _ ← modify (sim_set_scheduler_error None); throw e
  | None =>
      prepared ← prepare_next_adapter;
      match prepared with
      | None => mret None
      | Some (a, _) =>
          result ← adapter_step a;
          l ← (λ s, (adapter_lifecycle a s, s)) : SX VmLifecycle;
          slot ← gets scheduler_slot;
          _ ← when (negb (retains_slot l)) (set_scheduler_slot (slot + 1));
          mret (Some (into_ic10_event result))
      end
  end.

(** Source: [crates/ic10-sim/src/simulator.rs] [next_scheduled_location] *)
Definition next_scheduled_location : SX (option (nat * Z)) := λ s,
  match prepare_next_adapter s with
  | (Ok (Some (_, location)), s) => (Ok (Some (runtime_index location, loc_line location)), s)
  | (Ok None, s) => (Ok None, s)
  | (Err e, s) => (Ok None, sim_set_scheduler_error (Some e) s)
  | (Panic, s) => (Panic, s)
  end.

(** The loop of [step_world_tick]; [None] when the fuel is spent. *)
Fixpoint step_until_tick (fuel : nat) (start : Z) (events : list StepEvent) : SX (option (list StepEvent)) :=
  match fuel with
  | O => mret None
  | S fuel' =>
      now ← gets tick;
      if negb (now =? start) then mret (Some events)
      else
        event ← scheduler_step;
        step_until_tick fuel' start (match event with Some e => events ++ [e] | None => events end)%list
  end.

(** The budget a slot may still spend in this tick, and one more for leaving it. *)
Definition slot_allowance (s : Simulator) (a : VmAdapter) : nat :=
  match adapter_lifecycle a s with
  | Ok l => S (Z.to_nat (operation_budget l - lc_operations l))
  | _ => 1%nat
  end.

(** Turns of the loop that are always enough to reach the next tick. *)
Definition tick_fuel (s : Simulator) : nat :=
  S (S (sum_list (slot_allowance s <$> drop (Z.to_nat (scheduler_slot s)) (sim_schedule s)))).

(** Source: [crates/ic10-sim/src/simulator.rs] [step_world_tick] *)
Definition step_world_tick : SX (option (list StepEvent)) := λ s,
  step_until_tick (tick_fuel s) (tick s) [] s.

(** Source: [crates/ic10-sim/src/simulator.rs] [Simulator::is_finished] *)
Definition is_finished (s : Simulator) : bool :=
  forallb (λ a, match adapter_lifecycle a s with Ok l => lifecycle_finished l | _ => false end)
    (adapters (sim_schedule s)).
End simulator.
