(* ===== verification/Tick.v ===== *)
(** * The deterministic scheduler

    Theorems about [step_world_tick] and what it runs: the loop reaches the next
    tick within the fuel, no program runs over its budget, and the slots take their
    turns in the order of the schedule. *)

From S2P Require Import Prelude BTree Text F64 Knowledge Literals Journal Scenario World Program Cpu Exec.
From S2P Require Import Isa Frame Behaviour Vm Lua Simulator.
Local Open Scope string_scope.
Local Open Scope Z_scope.

(** What the scheduler sees of a state: the tables that give the budgets, the
    schedule, the Lua programs, the clock and the cursor, and the operations the
    processors have spent. *)
Section view.
Context `{Libm} `{Build} `{LuaEngine} `{FloatDisplay}.

Definition spent_by_cpus (s : Simulator) : list Z := operations_this_tick <$> cpus s.

Definition fixed_view (s : Simulator) := (knowledge s, sim_schedule s, tick s).
Definition view (s : Simulator) :=
  (fixed_view s, (scheduler_slot s, scheduler_error s), lua_programs s, spent_by_cpus s).
Definition same_view (s s' : Simulator) : Prop := view s' = view s.

#[export] Instance same_view_preorder : PreOrder same_view.
Proof. split; [by intros s|]. intros a b c Hab Hbc. unfold same_view in *. congruence. Qed.

Lemma view_parts s s' :
  fixed_view s' = fixed_view s → scheduler_slot s' = scheduler_slot s → scheduler_error s' = scheduler_error s →
  lua_programs s' = lua_programs s → spent_by_cpus s' = spent_by_cpus s → same_view s s'.
Proof. unfold same_view, view. congruence. Qed.

Lemma spent_insert s i c c' :
  cpus s !! i = Some c → operations_this_tick c' = operations_this_tick c →
  operations_this_tick <$> <[i := c']> (cpus s) = spent_by_cpus s.
Proof.
  intros Hc He. unfold spent_by_cpus. rewrite list_fmap_insert. apply list_insert_id.
  rewrite list_lookup_fmap, Hc. simpl. by rewrite He.
Qed.

(** *** Pieces that keep the view *)

Lemma view_on_machine {A} i (m : M Machine message A) :
  keeps same_machine_control m → keeps same_view (on_machine i m).
Proof.
  intros Hm s. unfold on_machine. destruct (cpus s !! i) as [c|] eqn:Hc; [|done].
  specialize (Hm (machine_of s c)). destruct (m (machine_of s c)) as [r x]. simpl in *.
  apply view_parts; [done..|]. unfold spent_by_cpus at 1. simpl. apply (spent_insert _ _ c); [done|].
  unfold same_machine_control, same_control, control in Hm. simpl in Hm. congruence.
Qed.

Lemma view_alter_cpu i (f : Cpu → Cpu) :
  (∀ c, operations_this_tick (f c) = operations_this_tick c) → keeps (E:=message) same_view (alter_cpu i f).
Proof.
  intros Hf s. unfold alter_cpu. destruct (cpus s !! i) as [c|] eqn:Hc; [|done].
  apply view_parts; [done..|]. unfold spent_by_cpus at 1. simpl. by apply (spent_insert _ _ c).
Qed.

Lemma view_on_cpu_at {A} i (m : M Cpu message A) : keeps same_control m → keeps same_view (on_cpu_at i m).
Proof. intros Hm. apply view_on_machine. by apply keeps_on_cpu. Qed.

Lemma view_sim_intern name : keeps same_view (sim_intern name).
Proof. intros s. unfold sim_intern. by destruct (intern name (journal s)). Qed.
Lemma view_sim_write_bits actor t b a : keeps (E:=message) same_view (sim_write_bits actor t b a).
Proof. by apply keeps_modify. Qed.
Lemma view_sim_notify d f b a : keeps (E:=message) same_view (sim_notify d f b a).
Proof. by apply keeps_modify. Qed.
Lemma view_on_behaviours {A} (m : M BState BehaviourError A) : keeps same_view (on_behaviours m).
Proof. intros s. unfold on_behaviours. by destruct (m _) as [r b]. Qed.
Lemma view_insert_device_field d f v : keeps same_view (insert_device_field d f v).
Proof.
  unfold insert_device_field, sim_device, sim_alter_device. keeps_run. by apply keeps_modify.
Qed.
Lemma view_deliver_field_writes : keeps same_view deliver_field_writes.
Proof.
  intros s. unfold deliver_field_writes, take_field_writes.
  assert (same_view s (sim_set_world (set_field_writes [] (world s)) s)) as Hs by done.
  etransitivity; [exact Hs|]. apply keeps_for_each; [typeclasses eauto|].
  intros [[[d f] b] a]. apply view_sim_notify.
Qed.
Lemma view_collect_effects i : keeps same_view (collect_effects i).
Proof.
  intros s. unfold collect_effects. destruct (cpus s !! i) as [c|] eqn:Hc; [|done].
  apply view_parts; [done..|]. unfold spent_by_cpus at 1. simpl. by apply (spent_insert _ _ c).
Qed.
End view.

#[export] Hint Resolve view_sim_intern view_sim_write_bits view_sim_notify view_on_behaviours
  view_insert_device_field view_deliver_field_writes view_collect_effects : frame.

(** ** Inversion of runs *)

Lemma bind_Ok_inv {S E A B} (m : M S E A) (k : A → M S E B) s b s' :
  (m ≫= k) s = (Ok b, s') → ∃ a s1, m s = (Ok a, s1) ∧ k a s1 = (Ok b, s').
Proof. unfold mbind, M_mbind. destruct (m s) as [[a| |] s1]; naive_solver. Qed.

Lemma keeps_at {S E A} (R : S → S → Prop) (m : M S E A) s r s' : keeps R m → m s = (r, s') → R s s'.
Proof. intros Hm He. specialize (Hm s). by rewrite He in Hm. Qed.

Lemma lift_Ok_inv {S E A} (r : outcome E A) (s : S) a s' : lift r s = (Ok a, s') → r = Ok a ∧ s' = s.
Proof. by intros [= -> ->]. Qed.

(** Splits a run that returned into the runs of its steps. *)
Ltac run_inv H :=
  repeat match type of H with
  | (_ ≫= _) _ = (Ok _, _) =>
      let H' := fresh "Hrun" in
      apply bind_Ok_inv in H as (? & ? & H' & H); cbv beta zeta in H
  end.

(** ** One instruction *)

Section steps.
Context `{Libm} `{Build} `{LuaEngine} `{FloatDisplay}.

(** The processor counts one operation, and nothing else of the view changes. *)
Definition counted (i : nat) (n : Z) (s s' : Simulator) : Prop :=
  view s' = (fixed_view s, (scheduler_slot s, scheduler_error s), lua_programs s, <[i := n]> (spent_by_cpus s)).

Lemma count_operation_view i actor s s' c :
  cpus s !! i = Some c → operations_this_tick c < U32_MAX →
  count_operation i actor s = (Ok (), s') → counted i (operations_this_tick c + 1) s s'.
Proof.
  intros Hc Hlt Hrun. unfold count_operation in Hrun. run_inv Hrun.
  unfold get_or_panic in Hrun0. rewrite Hc in Hrun0. injection Hrun0 as <- <-.
  unfold lift, add_u32 in Hrun1. rewrite (proj2 (Z.leb_le _ _)) in Hrun1 by lia. injection Hrun1 as <- <-.
  unfold alter_cpu in Hrun2. rewrite Hc in Hrun2. injection Hrun2 as _ <-. injection Hrun as <-.
  unfold counted, view, spent_by_cpus. cbn [cpus sim_set_journal sim_set_cpus lua_programs scheduler_slot
    scheduler_error]. by rewrite list_fmap_insert.
Qed.

Lemma attempted_view {A} (m : M Simulator message A) s o s' :
  keeps same_view m →
  match m s with
  | (Ok _, s1) => (Ok None, s1)
  | (Err e, s1) => (Ok (Some e), s1)
  | (Panic, s1) => (Panic, s1)
  end = (o : outcome message (option message), s') → view s' = view s.
Proof. intros Hm Hr. specialize (Hm s). destruct (m s) as [[a| |] s1]; by injection Hr as <- <-. Qed.

Lemma view_cpu s s' i c :
  view s' = view s → cpus s !! i = Some c →
  ∃ c', cpus s' !! i = Some c' ∧ operations_this_tick c' = operations_this_tick c.
Proof.
  intros Hv Hc. assert (spent_by_cpus s' !! i = Some (operations_this_tick c)) as Hs.
  { injection Hv as _ _ _ _ _ _ ->. unfold spent_by_cpus. by rewrite list_lookup_fmap, Hc. }
  unfold spent_by_cpus in Hs. rewrite list_lookup_fmap in Hs. apply fmap_Some in Hs as (c' & ? & ?). eauto.
Qed.

Lemma counted_view i n s1 s2 s3 s4 :
  view s2 = view s1 → counted i n s2 s3 → view s4 = view s3 → counted i n s1 s4.
Proof. unfold counted. intros Hv Hc ->. rewrite Hc. unfold view in Hv. injection Hv. congruence. Qed.

Lemma view_configure_journal i on actor : keeps (E:=message) same_view (alter_cpu i (configure_journal on actor)).
Proof. by apply view_alter_cpu. Qed.
Lemma view_sim_journal_enabled : keeps (E:=message) same_view sim_journal_enabled.
Proof. by intros s. Qed.
Lemma view_write_pc i v : keeps same_view (on_cpu_at i (write_pc v)).
Proof. apply view_on_cpu_at, keeps_write_pc. Qed.
Lemma view_write_state i v : keeps same_view (on_cpu_at i (write_state v)).
Proof. apply view_on_cpu_at, keeps_write_state. Qed.
Lemma view_set_state i v : keeps (E:=message) same_view (alter_cpu i (set_state v)).
Proof. by apply view_alter_cpu. Qed.
Lemma view_execute i kb now actor op : keeps same_view (on_machine i (execute_operation kb now actor op)).
Proof. apply view_on_machine, keeps_execute_operation. Qed.
End steps.

#[export] Hint Resolve view_configure_journal view_sim_journal_enabled view_write_pc view_write_state
  view_set_state view_execute : frame.

(** Turns the runs of steps that keep the view into equations of views. *)
Ltac run_views :=
  repeat match goal with
  | H : ?m ?s = (_, ?s') |- _ =>
      is_var s; is_var s'; apply (keeps_at same_view) in H; [|solve [eauto 3 with frame typeclass_instances]];
      unfold same_view in H
  end.

Section instructions.
Context `{Libm} `{Build} `{LuaEngine} `{FloatDisplay}.

(** An instruction that returns has counted one operation of its processor. *)
Lemma step_instruction_view i s c op ev s' :
  cpus s !! i = Some c → current_operation c = Some op → operations_this_tick c < U32_MAX →
  step_instruction i s = (Ok ev, s') → counted i (operations_this_tick c + 1) s s'.
Proof.
  intros Hc Hop Hlt Hrun. unfold step_instruction in Hrun.
  apply bind_Ok_inv in Hrun as (oc & s1 & [= <- <-] & Hrun).
  apply bind_Ok_inv in Hrun as (c1 & s1 & Hc1 & Hrun). rewrite Hc in Hc1. injection Hc1 as <- <-.
  destruct (negb (is_runnable (state c))); [done|]. rewrite Hop in Hrun.
  run_inv Hrun. rename Hrun10 into Hcount.
  match type of Hrun with match ?o with _ => _ end _ = _ => destruct o as [text|] end.
  { run_inv Hrun. discriminate Hrun. }
  run_inv Hrun. injection Hrun as _ <-.
  run_views. apply (attempted_view (on_machine _ _)) in Hrun8; [|apply view_execute].
  match type of Hcount with _ ?a = (_, ?b) => rename a into s1, b into s2 end.
  assert (view s1 = view s) as Hv by congruence.
  destruct (view_cpu _ _ _ _ Hv Hc) as (c1 & Hc1 & He). rewrite <-He in *.
  match type of Hcount with _ = (Ok ?u, _) => destruct u end.
  apply count_operation_view with (c:=c1) in Hcount; [|done..]. eapply counted_view; [exact Hv|exact Hcount|congruence].
Qed.

(** ** Budgets *)

Definition budget (s : Simulator) : Z :=
  ar_maximum_instructions_per_tick (la_architecture (kb_language (knowledge s))).

(** What a program may still spend in this tick. *)
Definition capacity (s : Simulator) (a : VmAdapter) : nat :=
  match a with
  | AdIc10 i => match spent_by_cpus s !! i with Some n => Z.to_nat (budget s - n) | None => 0%nat end
  | AdLua i => match lua_programs s !! i with Some r => Z.to_nat (1 - lp_operations_this_tick r) | None => 0%nat end
  end.

(** The slots whose turn has not passed. *)
Definition slots_left (s : Simulator) : list VmAdapter := drop (Z.to_nat (scheduler_slot s)) (sim_schedule s).
Definition capacity_left (s : Simulator) : nat := sum_list (capacity s <$> slots_left s).

Lemma capacity_view s s' a :
  knowledge s' = knowledge s → lua_programs s' = lua_programs s → spent_by_cpus s' = spent_by_cpus s →
  capacity s' a = capacity s a.
Proof. intros Hk Hl Hs. unfold capacity, budget. by rewrite Hk, Hl, Hs. Qed.

Lemma lookup_spent s i : spent_by_cpus s !! i = operations_this_tick <$> cpus s !! i.
Proof. apply list_lookup_fmap. Qed.

(** A program that can be stepped has something to spend. *)
Lemma capacity_can_step s a l now :
  adapter_lifecycle a s = Ok l → can_step l now = true →
  Z.of_nat (capacity s a) = operation_budget l - lc_operations l ∧ (0 < capacity s a)%nat.
Proof.
  intros Hl [_ Hlt]%andb_prop. apply Z.ltb_lt in Hlt. unfold adapter_lifecycle in Hl. simpl in Hl.
  destruct a as [i|i]; unfold capacity.
  - unfold sim_ic10_lifecycle in Hl. rewrite lookup_spent. destruct (cpus s !! i) as [c|]; [|done].
    injection Hl as <-. simpl in *. unfold budget. lia.
  - unfold sim_lua_lifecycle in Hl. destruct (lua_programs s !! i) as [r|]; [|done].
    injection Hl as <-. simpl in *. lia.
Qed.

Lemma sum_list_cons n (ns : list nat) : sum_list (n :: ns) = (n + sum_list ns)%nat.
Proof. done. Qed.

Lemma capacity_fuel s : (S (S (capacity_left s)) ≤ tick_fuel s)%nat.
Proof.
  unfold capacity_left, tick_fuel, slots_left. generalize (drop (Z.to_nat (scheduler_slot s)) (sim_schedule s)).
  intros l. do 2 apply le_n_S. induction l as [|a l IH]; [done|]. rewrite !fmap_cons, !sum_list_cons.
  assert (capacity s a ≤ slot_allowance s a)%nat; [|lia].
  unfold slot_allowance, capacity, adapter_lifecycle. simpl. destruct a as [i|i].
  - unfold sim_ic10_lifecycle. rewrite lookup_spent. destruct (cpus s !! i); simpl; [|lia]. unfold budget. lia.
  - unfold sim_lua_lifecycle. destruct (lua_programs s !! i); simpl; lia.
Qed.

(** ** The cursor *)

(** Only the cursor has moved, as far as the scheduler sees. *)
Definition cursor_moved (s s' : Simulator) : Prop :=
  fixed_view s' = fixed_view s ∧ scheduler_error s' = scheduler_error s
  ∧ lua_programs s' = lua_programs s ∧ spent_by_cpus s' = spent_by_cpus s.

#[export] Instance cursor_moved_preorder : PreOrder cursor_moved.
Proof.
  split; [done|]. intros a b c (? & ? & ? & ?) (? & ? & ? & ?). unfold cursor_moved. split_and!; congruence.
Qed.

Lemma view_cursor_moved s s' : view s' = view s → cursor_moved s s' ∧ scheduler_slot s' = scheduler_slot s.
Proof. unfold view. intros [=]. unfold cursor_moved, fixed_view. split_and!; congruence. Qed.

(** The slot can be stepped, at that location. *)
Definition steppable (s : Simulator) (a : VmAdapter) (location : VmSourceLocation) : Prop :=
  ∃ l, adapter_lifecycle a s = Ok l ∧ can_step l (tick s) = true ∧ current_location l = Some location.
Definition same_steppable (s s' : Simulator) : Prop := ∀ a location, steppable s' a location ↔ steppable s a location.

#[export] Instance same_steppable_preorder : PreOrder same_steppable.
Proof. split; [done|]. intros a b c Hab Hbc x l. rewrite (Hbc x l). apply Hab. Qed.

Lemma same_lifecycles s s' :
  tick s' = tick s → (∀ a, adapter_lifecycle a s' = adapter_lifecycle a s) → same_steppable s s'.
Proof. intros Ht Hl a location. unfold steppable. by setoid_rewrite Hl; rewrite Ht. Qed.

Lemma set_scheduler_slot_run v s u s' :
  set_scheduler_slot v s = (Ok u, s') → cursor_moved s s' ∧ scheduler_slot s' = v ∧ same_steppable s s'.
Proof.
  intros Hrun. unfold set_scheduler_slot in Hrun. run_inv Hrun. injection Hrun0 as <- <-.
  injection Hrun1 as _ <-. injection Hrun as _ <-. split_and!; [done..|]. apply same_lifecycles; [done|].
  by intros [i|i].
Qed.

(** Halting a slot that has no location changes nothing for the scheduler. *)
Lemma adapter_halt_steppable a s l u s' :
  adapter_lifecycle a s = Ok l → current_location l = None → adapter_halt a s = (Ok u, s') → same_steppable s s'.
Proof.
  unfold adapter_halt, adapter_lifecycle. simpl. destruct a as [i|i]; intros Hl Hloc Hrun.
  - unfold sim_ic10_lifecycle in Hl. unfold sim_ic10_halt in Hrun.
    apply bind_Ok_inv in Hrun as (oc & s1 & [= <- <-] & Hrun).
    apply bind_Ok_inv in Hrun as (c & s1 & [Hc%ok_or_Ok ->]%lift_Ok_inv & Hrun). rewrite Hc in Hl. injection Hl as <-.
    apply bind_Ok_inv in Hrun as (u1 & s1 & Halter & [= _ <-]). unfold alter_cpu in Halter. rewrite Hc in Halter.
    injection Halter as _ <-. cbn [current_location lifecycle] in Hloc.
    pose proof (lookup_lt_Some _ _ _ Hc) as Hlt. intros [j|j] location.
    + unfold steppable, adapter_lifecycle. simpl. unfold sim_ic10_lifecycle. cbn [cpus sim_set_cpus sim_set_journal].
      destruct (decide (i = j)) as [<-|Hne]; [|by rewrite list_lookup_insert_ne].
      rewrite list_lookup_insert_eq, Hc by done.
      assert (current_line (set_state Halted c) = current_line c) as Hline by done.
      split; intros (l & [= <-] & _ & Hl2); cbn [current_location lifecycle] in Hl2; rewrite ?Hline, Hloc in Hl2; done.
    + unfold steppable, adapter_lifecycle. simpl. unfold sim_lua_lifecycle, runtime_index_of.
      cbn [cpus lua_programs tick sim_set_cpus sim_set_journal]. by rewrite length_insert.
  - unfold sim_lua_lifecycle in Hl. destruct (lua_programs s !! i); [|done]. by injection Hl as <-.
Qed.

Lemma adapter_halt_view a s u s' : adapter_halt a s = (Ok u, s') → view s' = view s.
Proof.
  unfold adapter_halt. simpl. destruct a as [i|i]; intros Hrun.
  - unfold sim_ic10_halt in Hrun. run_inv Hrun. injection Hrun0 as <- <-. apply lift_Ok_inv in Hrun1 as [_ ->].
    run_views. congruence.
  - unfold sim_lua_halt, alter_lua in Hrun. run_inv Hrun. injection Hrun0 as <- <-.
    apply lift_Ok_inv in Hrun1 as [Hr ->]. apply ok_or_Ok in Hr. injection Hrun as _ <-.
    apply view_parts; [done..| |done]. simpl. by apply list_insert_id.
Qed.

Lemma slots_left_cons s a rest s' :
  slots_left s = a :: rest → 0 ≤ scheduler_slot s → fixed_view s' = fixed_view s →
  scheduler_slot s' = scheduler_slot s + 1 → slots_left s' = rest.
Proof.
  unfold slots_left, fixed_view. intros Hs Hpos [= _ -> _] ->.
  replace (Z.to_nat (scheduler_slot s + 1)) with (Z.to_nat (scheduler_slot s) + 1)%nat by lia.
  rewrite <-drop_drop, Hs. done.
Qed.

(** The outcome of the search for a turn among [slots]. *)
Definition prepared (slots : list VmAdapter) (s s' : Simulator) (r : option (VmAdapter * VmSourceLocation)) : Prop :=
  match r with
  | None =>
      (∀ b location, b ∈ slots → ¬ steppable s b location) ∧ ∃ s1, cursor_moved s s1 ∧ advance_tick s1 = (Ok (), s')
  | Some (a, location) =>
      ∃ skipped rest, slots = (skipped ++ a :: rest)%list ∧ cursor_moved s s' ∧ same_steppable s s'
        ∧ (∀ b location, b ∈ skipped → ¬ steppable s b location)
        ∧ scheduler_slot s' = scheduler_slot s + Z.of_nat (length skipped)
        ∧ slots_left s' = a :: rest ∧ steppable s' a location
  end.

Lemma prepared_skip a rest s sm r s' :
  cursor_moved s sm → same_steppable s sm → scheduler_slot sm = scheduler_slot s + 1 →
  (∀ location, ¬ steppable s a location) → prepared rest sm s' r → prepared (a :: rest) s s' r.
Proof.
  intros Hm Hst Hslot Ha. assert (∀ l b location, (∀ b location, b ∈ l → ¬ steppable sm b location) →
    b ∈ a :: l → ¬ steppable s b location) as Hskip.
  { intros l b location Hl [->|Hin]%elem_of_cons; [apply Ha|]. rewrite <-(Hst b location). by apply Hl. }
  destruct r as [[a' location]|]; simpl.
  - intros (skipped & rest' & -> & Hc' & Hst' & Hno & Hsl & Hleft & Hat). exists (a :: skipped), rest'.
    split_and!; [done|by etransitivity|by etransitivity|eauto|simpl; lia|done|done].
  - intros (Hno & s1 & Hc1 & Hadv). split; [eauto|]. exists s1. split; [by etransitivity|done].
Qed.

Lemma prepare_from_spec slots s r s' :
  slots = slots_left s → 0 ≤ scheduler_slot s → prepare_from slots s = (Ok r, s') → prepared slots s s' r.
Proof.
  revert s. induction slots as [|a rest IH]; intros s Hs Hpos Hrun.
  { unfold prepare_from in Hrun. run_inv Hrun. injection Hrun as <- <-. destruct x. split; [set_solver|by exists s]. }
  cbn [prepare_from] in Hrun. apply bind_Ok_inv in Hrun as (l & s1 & [= Hl <-] & Hrun).
  apply bind_Ok_inv in Hrun as (now & s1 & [= <- <-] & Hrun).
  apply bind_Ok_inv in Hrun as (slot & s1 & [= <- <-] & Hrun).
  assert (∀ sm, cursor_moved s sm → same_steppable s sm → scheduler_slot sm = scheduler_slot s →
    (∀ location, ¬ steppable s a location) →
    (_ ← set_scheduler_slot (scheduler_slot s + 1); prepare_from rest) sm = (Ok r, s') →
    prepared (a :: rest) s s' r) as Hskip.
  { intros sm Hm Hst Hslot Hno Hr. apply bind_Ok_inv in Hr as (u & s2 & Hset & Hr).
    apply set_scheduler_slot_run in Hset as (Hm2 & Hslot2 & Hst2).
    assert (cursor_moved s s2) as Hc by (by etransitivity).
    apply (prepared_skip a rest s s2); [done|by etransitivity|done|done|]. apply IH; [|lia|done].
    symmetry. eapply slots_left_cons; [by symmetry|done|apply Hc|lia]. }
  destruct (can_step l (tick s)) eqn:Hcan; cbn [negb] in Hrun.
  - destruct (current_location l) as [location|] eqn:Hloc.
    + injection Hrun as <- <-. exists [], rest. split_and!; [done|done|done|set_solver|simpl; lia|done|]. by exists l.
    + apply bind_Ok_inv in Hrun as (u & s1 & Hh & Hrun).
      pose proof (adapter_halt_steppable _ _ _ _ _ Hl Hloc Hh) as Hst.
      apply adapter_halt_view, view_cursor_moved in Hh as [Hm Hslot]. apply (Hskip s1); try done.
      intros location (l' & Hl' & _ & Hloc'). congruence.
  - apply (Hskip s); try done. intros location (l' & Hl' & Hcan' & _). congruence.
Qed.

(** ** One step of a slot *)

(** The slot's own capacity shrinks if it keeps its turn; no other slot's changes. *)
Definition stepped (a : VmAdapter) (s s' : Simulator) : Prop :=
  fixed_view s' = fixed_view s ∧ scheduler_slot s' = scheduler_slot s ∧ scheduler_error s' = scheduler_error s
  ∧ (∀ b, b ≠ a → capacity s' b = capacity s b)
  ∧ (∀ l, adapter_lifecycle a s' = Ok l → retains_slot l = true → (capacity s' a < capacity s a)%nat).

Lemma ic10_step_stepped i s location res s' :
  budget s ≤ U32_MAX → steppable s (AdIc10 i) location → sim_ic10_step i s = (Ok res, s') → stepped (AdIc10 i) s s'.
Proof.
  intros Hb (l & Hl & Hcan & Hloc) Hrun. pose proof (capacity_can_step s _ l _ Hl Hcan) as [Hcap Hpos].
  unfold adapter_lifecycle in Hl. simpl in Hl. unfold sim_ic10_lifecycle in Hl.
  destruct (cpus s !! i) as [c|] eqn:Hc; [|done]. injection Hl as <-.
  cbn [operation_budget lc_operations current_location lifecycle] in Hloc, Hcap.
  unfold current_line in Hloc. destruct (current_operation c) as [op|] eqn:Hop; [|done].
  unfold budget in Hb. unfold sim_ic10_step in Hrun. apply bind_Ok_inv in Hrun as (ev & s1 & Hrun & [= _ <-]).
  apply step_instruction_view with (c:=c) (op:=op) in Hrun; [|done..|lia].
  unfold counted, view, fixed_view in Hrun. injection Hrun as Hk Hsch Ht Hslot He Hlua Hsp.
  split_and!; [unfold fixed_view; congruence|done|done| |].
  - intros [j|j] Hne; unfold capacity, budget; rewrite ?Hk, ?Hlua; [|done].
    rewrite Hsp, list_lookup_insert_ne; [done|congruence].
  - intros l Hl Hret. unfold capacity, budget. rewrite Hk, Hsp.
    assert (spent_by_cpus s !! i = Some (operations_this_tick c)) as Hi by (by rewrite lookup_spent, Hc).
    rewrite Hi, list_lookup_insert_eq by (by eapply lookup_lt_Some). lia.
Qed.

Lemma lua_runtime_step_spends tick w r u w' r' :
  lua_runtime_step tick w r = (Ok u, w', r') → lp_state r' ≠ VmReady.
Proof.
  unfold lua_runtime_step. cbv zeta. cbn [lp_state lp_set_engine].
  destruct (lp_state r) eqn:Hst; try (intros [= _ _ <-]; simpl; congruence).
  destruct (resume_once tick _) as [[[]| |] r1] eqn:Hr; try done. intros [= _ _ <-].
  by apply resume_once_spends in Hr as [_ ?].
Qed.

Lemma lua_step_stepped i s res s' : sim_lua_step i s = (Ok res, s') → stepped (AdLua i) s s'.
Proof.
  unfold sim_lua_step. intros Hrun. run_inv Hrun. injection Hrun0 as <- <-. apply lift_Ok_inv in Hrun1 as [Hr ->].
  apply ok_or_Ok in Hr.
  match type of Hrun2 with (let '(_, _) := ?t in _) = _ => destruct t as [[r w] runtime'] eqn:Hstep end.
  injection Hrun2 as -> <-. unfold get_or_panic in Hrun3. cbn [lua_programs sim_set_world sim_set_lua_programs] in Hrun3.
  rewrite list_lookup_insert_eq in Hrun3 by (by eapply lookup_lt_Some). injection Hrun3 as <- <-. injection Hrun4 as _ <-.
  injection Hrun as _ <-. apply lua_runtime_step_spends in Hstep.
  split_and!; [done|done|done| |].
  - intros [j|j] Hne; unfold capacity; [done|]. simpl. rewrite list_lookup_insert_ne; [done|congruence].
  - intros l Hl Hret. exfalso. unfold adapter_lifecycle in Hl. simpl in Hl. unfold sim_lua_lifecycle in Hl.
    cbn [lua_programs sim_set_world sim_set_lua_programs] in Hl.
    rewrite list_lookup_insert_eq in Hl by (by eapply lookup_lt_Some). injection Hl as <-.
    unfold retains_slot in Hret. apply andb_prop in Hret as [Hret _]. apply bool_decide_eq_true in Hret. done.
Qed.

Lemma adapter_step_stepped a s location res s' :
  budget s ≤ U32_MAX → steppable s a location → adapter_step a s = (Ok res, s') → stepped a s s'.
Proof.
  intros Hb Hst Hrun. destruct a as [i|i].
  - eapply ic10_step_stepped; [exact Hb|exact Hst|exact Hrun].
  - eapply lua_step_stepped. exact Hrun.
Qed.

Lemma sum_list_app (a b : list nat) : sum_list (a ++ b) = (sum_list a + sum_list b)%nat.
Proof. induction a as [|n a IH]; [done|]. cbn [app]. rewrite !sum_list_cons, IH. lia. Qed.

Lemma capacity_left_moved s s' skipped :
  cursor_moved s s' → slots_left s = (skipped ++ slots_left s')%list →
  (capacity_left s' ≤ capacity_left s)%nat.
Proof.
  intros (Hf & _ & Hl & Hs) Hsplit. unfold capacity_left. rewrite Hsplit, fmap_app, sum_list_app.
  assert (capacity s' <$> slots_left s' = capacity s <$> slots_left s') as ->; [|lia].
  apply list_fmap_ext. intros k a _. apply capacity_view; [unfold fixed_view in Hf; congruence|done..].
Qed.

Lemma capacity_rest a (rest : list VmAdapter) s s' :
  (∀ b, b ≠ a → capacity s' b = capacity s b) → a ∉ rest → capacity s' <$> rest = capacity s <$> rest.
Proof.
  intros Hb Hni. apply list_fmap_ext. intros k b Hk. apply Hb. intros ->. apply Hni. by eapply list_elem_of_lookup_2.
Qed.

(** What a slot that is stepped leaves of the tick. *)
Lemma slot_turn_progress a rest s s1 s2 l u :
  slots_left s = a :: rest → NoDup (a :: rest) → 0 ≤ scheduler_slot s → (0 < capacity s a)%nat → stepped a s s1 →
  adapter_lifecycle a s1 = Ok l →
  when (negb (retains_slot l)) (set_scheduler_slot (scheduler_slot s1 + 1)) s1 = (Ok u, s2) →
  fixed_view s2 = fixed_view s ∧ 0 ≤ scheduler_slot s2 ∧ (capacity_left s2 < capacity_left s)%nat.
Proof.
  intros Hleft [Hni Hnd]%NoDup_cons Hpos Hcap (Hf & Hsl & He & Hother & Hown) Hl Hrun.
  unfold capacity_left at 2. rewrite Hleft, fmap_cons, sum_list_cons.
  destruct (retains_slot l) eqn:Hret; cbn [negb when] in Hrun.
  - injection Hrun as _ <-. split_and!; [done|lia|].
    assert (slots_left s1 = a :: rest) as Hleft1.
    { unfold slots_left in *. rewrite Hsl. unfold fixed_view in Hf. congruence. }
    unfold capacity_left. rewrite Hleft1, fmap_cons, sum_list_cons, (capacity_rest a rest s s1) by done.
    specialize (Hown l Hl Hret). lia.
  - apply set_scheduler_slot_run in Hrun as ((Hf2 & He2 & Hlua2 & Hs2) & Hsl2 & _).
    assert (slots_left s2 = rest) as Hleft2.
    { eapply slots_left_cons; [exact Hleft|done|congruence|congruence]. }
    split_and!; [congruence|lia|]. unfold capacity_left. rewrite Hleft2.
    assert (capacity s2 <$> rest = capacity s <$> rest) as ->; [|lia].
    apply (capacity_rest a); [|done]. intros b Hb. rewrite <-Hother by done.
    apply capacity_view; [unfold fixed_view in Hf2; congruence|done..].
Qed.

(** A step of the scheduler ends the tick or uses up some of what the slots may
    still spend. *)
Lemma scheduler_step_progress s r s' :
  NoDup (sim_schedule s) → 0 ≤ scheduler_slot s → budget s ≤ U32_MAX → scheduler_step s = (Ok r, s') →
  match r with
  | None => ∃ s1, cursor_moved s s1 ∧ advance_tick s1 = (Ok (), s')
  | Some _ => fixed_view s' = fixed_view s ∧ 0 ≤ scheduler_slot s' ∧ (capacity_left s' < capacity_left s)%nat
  end.
Proof.
  intros Hnd Hpos Hb Hrun. unfold scheduler_step in Hrun.
  apply bind_Ok_inv in Hrun as (pe & s1 & [= <- <-] & Hrun). destruct (scheduler_error s); [by run_inv Hrun|].
  apply bind_Ok_inv in Hrun as (prepared & s1 & Hprep & Hrun). unfold prepare_next_adapter in Hprep.
  apply prepare_from_spec in Hprep; [|done..]. destruct prepared as [[a location]|].
  2: { injection Hrun as <- <-. apply Hprep. }
  destruct Hprep as (skipped & rest & Hsplit & Hmoved & _ & _ & Hslot & Hleft & Hst).
  assert (capacity_left s1 ≤ capacity_left s)%nat as Hle.
  { apply (capacity_left_moved _ _ skipped); [done|]. by rewrite Hleft. }
  assert (NoDup (a :: rest)) as Hnd1.
  { rewrite <-(take_drop (Z.to_nat (scheduler_slot s)) (sim_schedule s)), Hsplit in Hnd.
    by apply NoDup_app in Hnd as (_ & _ & (_ & _ & Hnd)%NoDup_app). }
  assert (fixed_view s1 = fixed_view s) as Hf by apply Hmoved.
  assert (0 < capacity s1 a)%nat as Hcap.
  { destruct Hst as (l & Hl & Hcan & _). by apply (capacity_can_step s1 a l (tick s1)). }
  apply bind_Ok_inv in Hrun as (res & s2 & Hstep & Hrun).
  apply adapter_step_stepped with (location:=location) in Hstep;
    [|unfold budget, fixed_view in *; congruence|done].
  apply bind_Ok_inv in Hrun as (l & s3 & [= Hl <-] & Hrun).
  apply bind_Ok_inv in Hrun as (slot & s3 & [= <- <-] & Hrun).
  apply bind_Ok_inv in Hrun as (u & s3 & Hturn & [= <- <-]).
  eapply slot_turn_progress in Hturn as (Hf2 & Hp2 & Hlt); [|exact Hleft|done|lia|done|done|done].
  split_and!; [congruence|done|lia].
Qed.

(** ** The next tick *)

(** A program at the start of a tick: it has spent nothing and does not wait for a
    tick that has come. *)
Definition begun (s : Simulator) (a : VmAdapter) : Prop :=
  ∃ l, adapter_lifecycle a s = Ok l ∧ lc_operations l = 0
       ∧ ∀ wake, lc_state l = VmWaitingUntil wake → tick s < wake.

Definition same_clock (s s' : Simulator) : Prop :=
  fixed_view s' = fixed_view s ∧ scheduler_slot s' = scheduler_slot s.

Lemma same_clock_view s s' : view s' = view s → same_clock s s'.
Proof. by intros [[? _] ?]%view_cursor_moved. Qed.

Lemma ic10_begin_tick_run i s u s' :
  sim_ic10_begin_tick i (tick s) s = (Ok u, s') →
  same_clock s s' ∧ begun s' (AdIc10 i) ∧ ∀ b, b ≠ AdIc10 i → adapter_lifecycle b s' = adapter_lifecycle b s.
Proof.
  intros Hrun. unfold sim_ic10_begin_tick in Hrun.
  apply bind_Ok_inv in Hrun as (oc & s1 & [= <- <-] & Hrun).
  apply bind_Ok_inv in Hrun as (c & s1 & [Hc%ok_or_Ok ->]%lift_Ok_inv & Hrun).
  pose proof (lookup_lt_Some _ _ _ Hc) as Hlt.
  apply bind_Ok_inv in Hrun as (u1 & s1 & Halter & Hrun). unfold alter_cpu in Halter. rewrite Hc in Halter.
  injection Halter as _ <-. apply bind_Ok_inv in Hrun as (u2 & s1 & [= _ <-] & Hrun).
  destruct (wakes (state c) (tick s)) eqn:Hw; cbn [when] in Hrun.
  - apply bind_Ok_inv in Hrun as (u3 & s1 & Halter & [= _ <-]). unfold alter_cpu in Halter.
    cbn [cpus sim_set_cpus sim_set_journal] in Halter. rewrite list_lookup_insert_eq in Halter by done.
    injection Halter as _ <-. split_and!; [done| |].
    + eexists. unfold adapter_lifecycle. simpl. unfold sim_ic10_lifecycle.
      cbn [cpus sim_set_cpus sim_set_journal]. rewrite list_lookup_insert_eq by (by rewrite length_insert).
      split_and!; [reflexivity|done|done].
    + intros [j|j] Hne; unfold adapter_lifecycle; simpl; unfold sim_ic10_lifecycle, sim_lua_lifecycle;
        cbn [cpus sim_set_cpus sim_set_journal knowledge lua_programs tick].
      * by rewrite !list_lookup_insert_ne by congruence.
      * unfold runtime_index_of. cbn [cpus sim_set_cpus sim_set_journal]. by rewrite !length_insert.
  - injection Hrun as _ <-. split_and!; [done| |].
    + eexists. unfold adapter_lifecycle. simpl. unfold sim_ic10_lifecycle.
      cbn [cpus sim_set_cpus sim_set_journal]. rewrite list_lookup_insert_eq by done.
      split_and!; [reflexivity|done|]. simpl. intros wake Hst. unfold wakes in Hw.
      destruct (state c); try done. injection Hst as <-. lia.
    + intros [j|j] Hne; unfold adapter_lifecycle; simpl; unfold sim_ic10_lifecycle, sim_lua_lifecycle;
        cbn [cpus sim_set_cpus sim_set_journal knowledge lua_programs tick].
      * by rewrite !list_lookup_insert_ne by congruence.
      * unfold runtime_index_of. cbn [cpus sim_set_cpus sim_set_journal]. by rewrite !length_insert.
Qed.

Lemma lua_begin_tick_run i s u s' :
  sim_lua_begin_tick i (tick s) s = (Ok u, s') →
  same_clock s s' ∧ begun s' (AdLua i) ∧ ∀ b, b ≠ AdLua i → adapter_lifecycle b s' = adapter_lifecycle b s.
Proof.
  intros Hrun. unfold sim_lua_begin_tick, alter_lua in Hrun.
  apply bind_Ok_inv in Hrun as (oc & s1 & [= <- <-] & Hrun).
  apply bind_Ok_inv in Hrun as (r & s1 & [Hr%ok_or_Ok ->]%lift_Ok_inv & [= _ <-]).
  pose proof (lookup_lt_Some _ _ _ Hr) as Hlt. split_and!; [done| |].
  - eexists. unfold adapter_lifecycle. simpl. unfold sim_lua_lifecycle.
    cbn [lua_programs sim_set_lua_programs]. rewrite list_lookup_insert_eq by done.
    split_and!; [reflexivity|done|]. simpl. intros wake. unfold lua_runtime_begin_tick. simpl.
    destruct (lp_state r) as [|w| |]; try done. destruct (Z.leb_spec w (tick s)); [done|]. intros [= <-]. lia.
  - intros [j|j] Hne; unfold adapter_lifecycle; simpl; unfold sim_ic10_lifecycle, sim_lua_lifecycle;
      cbn [lua_programs sim_set_lua_programs cpus knowledge tick]; [done|].
    by rewrite list_lookup_insert_ne by congruence.
Qed.

Lemma begin_tick_run a t s u s' :
  t = tick s → adapter_begin_tick t a s = (Ok u, s') →
  same_clock s s' ∧ begun s' a ∧ ∀ b, b ≠ a → adapter_lifecycle b s' = adapter_lifecycle b s.
Proof. intros -> Hrun. destruct a as [i|i]; [by eapply ic10_begin_tick_run|by eapply lua_begin_tick_run]. Qed.

Lemma begin_ticks_run ads t s u s' :
  t = tick s → for_each (adapter_begin_tick t) ads s = (Ok u, s') →
  same_clock s s' ∧ Forall (begun s') ads ∧ ∀ b, b ∉ ads → adapter_lifecycle b s' = adapter_lifecycle b s.
Proof.
  intros Ht. revert s Ht. induction ads as [|a ads IH]; intros s Ht Hrun; cbn [for_each] in Hrun.
  { injection Hrun as _ <-. split_and!; [done|constructor|done]. }
  apply bind_Ok_inv in Hrun as (u1 & s1 & Ha & Hrun). apply begin_tick_run in Ha as ([Hf Hsl] & Hb & Ho); [|done].
  assert (tick s1 = tick s) as Ht1 by (unfold fixed_view in Hf; congruence).
  apply IH in Hrun as ([Hf2 Hsl2] & Hall & Ho2); [|congruence].
  assert (tick s' = tick s1) as Ht2 by (unfold fixed_view in Hf2; congruence). split_and!.
  - split; congruence.
  - constructor; [|done]. destruct (decide (a ∈ ads)) as [Hin|Hni].
    + by rewrite Forall_forall in Hall; apply Hall.
    + destruct Hb as (l & Hl & Hops & Hw). exists l. split_and!; [by rewrite Ho2|done|].
      intros wake Hst. rewrite Ht2. by apply Hw.
  - intros b [Hne Hni]%not_elem_of_cons. by rewrite Ho2, Ho.
Qed.

Lemma advance_tick_run s u s' :
  0 ≤ tick s ≤ U64_MAX → advance_tick s = (Ok u, s') →
  knowledge s' = knowledge s ∧ sim_schedule s' = sim_schedule s ∧ tick s' = wrap_u 64 (tick s + 1)
  ∧ tick s' ≠ tick s ∧ scheduler_slot s' = 0 ∧ Forall (begun s') (sim_schedule s).
Proof.
  intros Ht Hrun. unfold advance_tick in Hrun.
  apply bind_Ok_inv in Hrun as (u1 & s1 & Hend & Hrun). apply (keeps_at same_view) in Hend; [|apply view_on_behaviours].
  apply same_clock_view in Hend as [Hf1 _].
  apply bind_Ok_inv in Hrun as (before & s2 & [= <- <-] & Hrun).
  apply bind_Ok_inv in Hrun as (after & s2 & [Hadd ->]%lift_Ok_inv & Hrun).
  assert (tick s1 = tick s) as Ht1 by (unfold fixed_view in Hf1; congruence).
  assert (after = wrap_u 64 (tick s + 1) ∧ after ≠ tick s) as [Hafter Hne].
  { unfold add_u64, on_overflow in Hadd. rewrite Ht1 in Hadd. unfold U64_MAX in *.
    destruct (Z.leb_spec (tick s + 1) (2 ^ 64 - 1)) as [Hle|Hgt].
    - injection Hadd as <-. rewrite wrap_u_small by lia. lia.
    - destruct overflow_checks; [done|]. injection Hadd as <-. split; [done|].
      replace (tick s + 1) with (2 ^ 64) by lia. unfold wrap_u. rewrite Z.mod_same by lia. lia. }
  apply bind_Ok_inv in Hrun as (u2 & s2 & [= _ <-] & Hrun).
  apply bind_Ok_inv in Hrun as (u3 & s2 & [= _ <-] & Hrun).
  apply bind_Ok_inv in Hrun as (u4 & s2 & Hstart & Hrun). apply (keeps_at same_view) in Hstart; [|apply view_on_behaviours].
  apply same_clock_view in Hstart as [Hf2 _].
  apply bind_Ok_inv in Hrun as (u5 & s3 & (Hm3 & Hslot3 & _)%set_scheduler_slot_run & Hrun).
  apply bind_Ok_inv in Hrun as (ads & s4 & [= <- <-] & Hrun).
  destruct Hm3 as [Hf3 _]. unfold fixed_view in *. cbn [knowledge sim_schedule tick sim_set_tick sim_set_journal sim_write_bits] in Hf2.
  assert (tick s3 = after ∧ knowledge s3 = knowledge s ∧ sim_schedule s3 = sim_schedule s) as (Ht3 & Hk3 & Hs3)
    by (split_and!; congruence).
  apply begin_ticks_run in Hrun as ([Hf4 Hslot4] & Hall & _); [|done]. unfold fixed_view, adapters in *.
  rewrite Hs3 in Hall. split_and!; [congruence|congruence|congruence|congruence|congruence|done].
Qed.

(** ** A whole tick *)

Lemma step_until_tick_spec fuel start events s :
  NoDup (sim_schedule s) → 0 ≤ scheduler_slot s → 0 ≤ tick s ≤ U64_MAX → budget s ≤ U32_MAX → tick s = start →
  (S (capacity_left s) < fuel)%nat →
  let '(r, s') := step_until_tick fuel start events s in
  r ≠ Ok None
  ∧ ∀ events', r = Ok (Some events') →
      tick s' = wrap_u 64 (start + 1) ∧ scheduler_slot s' = 0 ∧ Forall (begun s') (sim_schedule s')
      ∧ (knowledge s' = knowledge s ∧ sim_schedule s' = sim_schedule s)
      ∧ ∃ new, events' = (events ++ new)%list ∧ (length new ≤ capacity_left s)%nat.
Proof.
  revert s events. induction fuel as [|fuel IH]; intros s events Hnd Hpos Ht Hb Hstart Hfuel; [lia|].
  cbn [step_until_tick]. rewrite (bind_run _ _ s (tick s) s) by done. rewrite Hstart, Z.eqb_refl. cbn [negb].
  destruct (scheduler_step s) as [[r|e|] s1] eqn:Hstep.
  2,3: unfold mbind, M_mbind; rewrite Hstep; by split.
  rewrite (bind_run _ _ _ _ _ Hstep). apply scheduler_step_progress in Hstep; [|done..].
  destruct r as [ev|].
  - destruct Hstep as (Hf & Hp1 & Hlt). unfold fixed_view in Hf.
    assert (budget s1 = budget s) as Hb1 by (unfold budget; congruence).
    specialize (IH s1 (events ++ [ev])%list).
    destruct (step_until_tick fuel start (events ++ [ev]) s1) as [r s2].
    destruct IH as [Hn Hok]; [congruence|done|by replace (tick s1) with (tick s) by congruence|lia|congruence|lia|].
    split; [done|]. intros events' Hr. destruct (Hok _ Hr) as (H1' & H2' & H3' & [Hk Hsc] & new & -> & Hlen).
    split_and!; [done..|congruence|congruence|]. exists (ev :: new). rewrite <-app_assoc. split; [done|]. simpl. lia.
  - destruct Hstep as (sm & Hm & Hadv). destruct Hm as [Hf _]. unfold fixed_view in Hf.
    apply advance_tick_run in Hadv as (Hk1 & Hs1 & Ht1 & Hne & Hsl1 & Hall);
      [|by replace (tick sm) with (tick s) by congruence].
    assert (tick sm = start) as Hsm by congruence. rewrite Hsm in *.
    destruct fuel as [|fuel]; [lia|]. cbn [step_until_tick]. rewrite (bind_run _ _ s1 (tick s1) s1) by done.
    destruct (Z.eqb_spec (tick s1) start); [done|]. cbn [negb mret M_mret]. split; [done|].
    intros events' [= <-]. split_and!; [done|done|by rewrite Hs1|congruence|congruence|]. exists []. rewrite app_nil_r. split; [done|simpl; lia].
Qed.
End instructions.

(** C1.  Running a tick always comes to an end: for a schedule without repeated
    slots and a budget that fits its type the loop is left, by an error or by the
    next tick, whatever the programs do.  When it returns, the clock is one further,
    the cursor is at the first slot, every scheduled program has a fresh counter and
    none still waits for a tick that has come, and no more instructions have been
    run than the budgets of the slots left had room for. *)
Theorem world_tick_completes `{Libm} `{Build} `{LuaEngine} `{FloatDisplay} (s : Simulator) :
  NoDup (sim_schedule s) → 0 ≤ scheduler_slot s → 0 ≤ tick s ≤ U64_MAX → budget s ≤ U32_MAX →
  let '(r, s') := step_world_tick s in
  r ≠ Ok None
  ∧ ∀ events, r = Ok (Some events) →
      tick s' = wrap_u 64 (tick s + 1) ∧ scheduler_slot s' = 0 ∧ Forall (begun s') (sim_schedule s')
      ∧ (length events ≤ capacity_left s)%nat.
Proof.
  intros Hnd Hpos Ht Hb. pose proof (step_until_tick_spec (tick_fuel s) (tick s) [] s Hnd Hpos Ht Hb eq_refl) as Hs.
  unfold step_world_tick. destruct (step_until_tick _ _ _ s) as [r s'].
  destruct Hs as [Hn Hok]; [pose proof (capacity_fuel s); lia|]. split; [done|].
  intros events Hr. destruct (Hok _ Hr) as (H1' & H2' & H3' & _ & new & -> & Hlen). by split_and!.
Qed.

(** The first slot from the cursor on that can be stepped. *)
Definition next_slot `{Libm} `{Build} `{LuaEngine} `{FloatDisplay} (s : Simulator) : option VmAdapter :=
  find_first (λ a, match adapter_lifecycle a s with
                   | Ok l => can_step l (tick s) && bool_decide (is_Some (current_location l))
                   | _ => false
                   end) (slots_left s).

(** The number a slot has in events and breakpoints: processors come first. *)
Definition runtime_number `{LuaEngine} (s : Simulator) (a : VmAdapter) : nat :=
  match a with AdIc10 i => i | AdLua i => length (cpus s) + i end.

Section order.
Context `{Libm} `{Build} `{LuaEngine} `{FloatDisplay}.

Lemma step_instruction_event i s ev s' : step_instruction i s = (Ok ev, s') → ev_cpu ev = i.
Proof.
  unfold step_instruction. intros Hrun. apply bind_Ok_inv in Hrun as (oc & s1 & _ & Hrun).
  apply bind_Ok_inv in Hrun as (c & s2 & _ & Hrun). destruct (negb (is_runnable (state c))); [done|].
  destruct (current_operation c) as [op|].
  - run_inv Hrun. match type of Hrun with match ?o with _ => _ end _ = _ => destruct o as [text|] end.
    + run_inv Hrun. discriminate Hrun.
    + run_inv Hrun. by injection Hrun as <- _.
  - run_inv Hrun. by injection Hrun as <- _.
Qed.

Lemma adapter_step_number a s res s' :
  adapter_step a s = (Ok res, s') → ev_cpu (into_ic10_event res) = runtime_number s a.
Proof.
  destruct a as [i|i]; unfold adapter_step; simpl; intros Hrun.
  - unfold sim_ic10_step in Hrun. apply bind_Ok_inv in Hrun as (ev & s1 & Hrun & [= <- _]).
    by apply step_instruction_event in Hrun.
  - unfold sim_lua_step in Hrun. run_inv Hrun. injection Hrun0 as <- <-. apply lift_Ok_inv in Hrun1 as [_ ->].
    match type of Hrun2 with (let '(_, _) := ?t in _) = _ => destruct t as [[r w] runtime'] end.
    injection Hrun2 as -> <-. unfold get_or_panic in Hrun3.
    match type of Hrun3 with match ?o with _ => _ end = _ => destruct o; [|done] end.
    injection Hrun3 as <- <-. injection Hrun4 as <- <-. by injection Hrun as <- _.
Qed.

Lemma steppable_test s a :
  match adapter_lifecycle a s with
  | Ok l => can_step l (tick s) && bool_decide (is_Some (current_location l))
  | _ => false
  end = true ↔ ∃ location, steppable s a location.
Proof.
  unfold steppable. destruct (adapter_lifecycle a s) as [l| |]; [|naive_solver..]. split.
  - intros [Hc [location Hl]%bool_decide_eq_true]%andb_prop. by exists location, l.
  - intros (location & l' & [= <-] & -> & Hl). apply andb_true_intro. split; [done|].
    apply bool_decide_eq_true. by exists location.
Qed.

Lemma moved_number s s' a : cursor_moved s s' → runtime_number s' a = runtime_number s a.
Proof.
  intros (_ & _ & _ & Hs). unfold runtime_number. destruct a; [done|]. f_equal.
  assert (length (spent_by_cpus s') = length (spent_by_cpus s)) as Hl by congruence.
  unfold spent_by_cpus in Hl. by rewrite !length_fmap in Hl.
Qed.

Lemma find_first_app_cons {A} (f : A → bool) l a rest :
  (∀ b, b ∈ l → f b = false) → f a = true → find_first f (l ++ a :: rest)%list = Some a.
Proof.
  unfold find_first. intros Hl Ha. induction l as [|b l IH]; simpl; [by rewrite Ha|].
  rewrite Hl by left. apply IH. intros c Hc. apply Hl. by right.
Qed.

Lemma not_steppable_false s b :
  (∀ location, ¬ steppable s b location) →
  match adapter_lifecycle b s with
  | Ok l => can_step l (tick s) && bool_decide (is_Some (current_location l))
  | _ => false
  end = false.
Proof.
  intros Hno. apply not_true_iff_false. intros Ht. apply steppable_test in Ht as [location Hl]. by apply (Hno location).
Qed.
End order.

(** A slot keeps its number while only the cursor moves. *)
Lemma slot_position `{LuaEngine} (s : Simulator) skipped a rest :
  slots_left s = (skipped ++ a :: rest)%list → 0 ≤ scheduler_slot s →
  (sim_schedule s : list VmAdapter) !! (Z.to_nat (scheduler_slot s) + length skipped)%nat = Some a.
Proof.
  intros Hs Hpos. unfold slots_left in Hs. rewrite <-lookup_drop, Hs. rewrite lookup_app_r by lia. by rewrite Nat.sub_diag.
Qed.

(** After its step a slot keeps the cursor or passes it on. *)
Lemma turn_ends `{Libm} `{Build} `{LuaEngine} `{FloatDisplay} a l (s1 s' : Simulator) u :
  adapter_lifecycle a s1 = Ok l → when (negb (retains_slot l)) (set_scheduler_slot (scheduler_slot s1 + 1)) s1 = (Ok u, s') →
  adapter_lifecycle a s' = Ok l ∧ tick s' = tick s1 ∧ scheduler_slot s' = scheduler_slot s1 + (if retains_slot l then 0 else 1).
Proof.
  intros Hl Hrun. destruct (retains_slot l); cbn [negb when] in Hrun; [injection Hrun as _ <-; split_and!; [done..|lia]|].
  unfold set_scheduler_slot in Hrun. run_inv Hrun. injection Hrun0 as <- <-. injection Hrun1 as _ <-. injection Hrun as _ <-.
  split_and!; [|done..]. rewrite <-Hl. by destruct a as [i|i].
Qed.

(** C15.  The slots take their turns in the order of the schedule: a step of the
    scheduler that succeeds runs the first slot from the cursor on that can be
    stepped and reports it under its number, within the tick; the cursor is then at that
    slot when it keeps its turn, and at the next one when it does not.  Exactly when there
    is no such slot it goes to the next tick, with the cursor at the first slot.  An error
    kept from a look ahead is reported once instead. *)
Theorem scheduler_step_in_order `{Libm} `{Build} `{LuaEngine} `{FloatDisplay} (s s' : Simulator)
    (r : option StepEvent) :
  0 ≤ scheduler_slot s → 0 ≤ tick s ≤ U64_MAX → budget s ≤ U32_MAX → scheduler_step s = (Ok r, s') →
  scheduler_error s = None
  ∧ match next_slot s with
    | Some a =>
        ev_cpu <$> r = Some (runtime_number s a) ∧ tick s' = tick s
        ∧ ∃ n l, (sim_schedule s : list VmAdapter) !! n = Some a ∧ scheduler_slot s ≤ Z.of_nat n
            ∧ (∀ k b location, scheduler_slot s ≤ Z.of_nat k < Z.of_nat n → (sim_schedule s : list VmAdapter) !! k = Some b → ¬ steppable s b location)
            ∧ adapter_lifecycle a s' = Ok l ∧ scheduler_slot s' = Z.of_nat n + (if retains_slot l then 0 else 1)
    | None => r = None ∧ tick s' = wrap_u 64 (tick s + 1) ∧ tick s' ≠ tick s ∧ scheduler_slot s' = 0
    end.
Proof.
  intros Hpos Htick Hb Hrun. unfold scheduler_step in Hrun.
  apply bind_Ok_inv in Hrun as (pe & s1 & [= <- <-] & Hrun).
  destruct (scheduler_error s) eqn:He; [by run_inv Hrun|]. split; [done|].
  apply bind_Ok_inv in Hrun as (p & s1 & Hprep & Hrun). unfold prepare_next_adapter in Hprep.
  apply prepare_from_spec in Hprep; [|done..]. unfold next_slot. destruct p as [[a location]|].
  - destruct Hprep as (skipped & rest & Hsplit & Hm & Hst & Hno & Hslot & Hleft & Hat).
    fold (slots_left s) in Hsplit. pose proof (slot_position _ _ _ _ Hsplit Hpos) as Hn. rewrite Hsplit, find_first_app_cons.
    + apply bind_Ok_inv in Hrun as (res & s2 & Hstep & Hrun). pose proof (adapter_step_number _ _ _ _ Hstep) as Hnumber.
      apply adapter_step_stepped with (location:=location) in Hstep as (Hf & Hsl & _);
        [|destruct Hm as [Hf _]; unfold budget, fixed_view in *; congruence|done].
      apply bind_Ok_inv in Hrun as (l & s3 & [= Hl <-] & Hrun). apply bind_Ok_inv in Hrun as (slot & s3 & [= <- <-] & Hrun).
      apply bind_Ok_inv in Hrun as (u & s3 & Hturn & [= <- <-]). apply (turn_ends a) in Hturn as (Hl' & Ht & Hcursor); [|done].
      cbn [fmap option_fmap option_map]. rewrite Hnumber, (moved_number s s1) by done. split; [done|].
      assert (tick s2 = tick s) as Hts by (destruct Hm as [Hf1 _]; unfold fixed_view in *; congruence). split; [congruence|].
      exists (Z.to_nat (scheduler_slot s) + length skipped)%nat, l. split_and!; [done|lia| |done|lia].
      intros k b location' Hk Hkb. apply Hno. unfold slots_left in Hsplit.
      replace k with (Z.to_nat (scheduler_slot s) + (k - Z.to_nat (scheduler_slot s)))%nat in Hkb by lia.
      rewrite <-lookup_drop, Hsplit, lookup_app_l in Hkb by lia. by eapply list_elem_of_lookup_2.
    + intros b Hin. apply not_steppable_false. intros l. by apply Hno.
    + apply steppable_test. exists location. by apply Hst.
  - destruct Hprep as [Hno (sm & Hm & Hadvance)]. injection Hrun as <- <-. fold (slots_left s) in Hno.
    match goal with |- match ?o with _ => _ end => destruct o as [a|] eqn:Hf end.
    { apply find_first_Some in Hf as [Hin Ht]. apply steppable_test in Ht as [location Hl]. by apply Hno in Hl. }
    assert (tick sm = tick s) as Hts by (destruct Hm as [Hf1 _]; unfold fixed_view in *; congruence).
    apply advance_tick_run in Hadvance as (_ & _ & Ht & Hne & Hslot & _); [|by rewrite Hts]. rewrite Hts in *. done.
Qed.

(** ** A concrete simulation

    Two processors and a Lua program with a budget of five instructions: the first
    processor writes a field and yields, the second one jumps forever. *)

#[local] Existing Instances sample_libm release_build.
#[local] Instance sample_engine : LuaEngine :=
  {| lua_state := (); lua_resume := λ _ e shared, (ResumeYielded, e, shared); lua_create_thread := Ok |}.
#[local] Instance sample_display : FloatDisplay := {| display_f64 := λ _, "?" |}.

Definition scheduler_kb : KnowledgeBase :=
  kb_of 128 5 [] [] [("LogicType", [("Setting", 12)]); ("LogicSlotType", [])]
    [device_of "Housing" 7 [("Setting", true, true); ("Error", true, false); ("LineNumber", true, false)] [] ["Data"] None;
     device_of "Lamp" 9 [("On", true, true)] [("0", ["Quantity"])] ["PowerAndData"] (Some 4)].

Definition scheduler_devices : list DeviceSpec :=
  [sample_device "h" "Housing" None; sample_device "g" "Housing" None; sample_device "a" "Lamp" None].

Definition scheduler_world : World :=
  match build scheduler_kb [sample_network] scheduler_devices with Ok w => w | _ => empty_world end.

Definition program_of (l : list (Z * string * list string)) : Program :=
  {| source_path := "main.ic10"; debug_source_path := "main.ic10"; source := "";
     operations := (λ '(line, m, ops), (line, {| op_line := line; mnemonic := m; operands := ops |})) <$> l;
     labels := []; defines := []; aliases := []; generated_to_source := [] |}.

Definition blink : Program :=
  program_of [(0, "move", ["r0"; "1"]); (1, "s", ["db"; "Setting"; "r0"]); (2, "yield", []); (3, "j", ["0"])].
Definition spin : Program := program_of [(0, "j", ["0"])].

Definition cpu_of (id : string) (housing : nat) (p : Program) : Cpu :=
  {| cpu_id := id; program_id := id; cpu_name := id; housing := housing; program := p;
     registers := repeat f_zero REGISTER_COUNT; stack := repeat f_zero STACK_SIZE; pins := repeat None 6;
     pc := 0; state := Ready; error := None; operations_this_tick := 0; random_state := 1;
     cpu_journal := journal_default; journal_enabled := false; journal_actor := ActorScheduler |}.

Definition sample_lua : LuaProgramRuntime :=
  {| lp_id := "l"; lp_program_id := "l"; lp_source_path := "main.lua"; lp_housing := 2%nat; lp_engine := ();
     lp_shared := {| ls_world := scheduler_world; ls_logs := []; ls_output := []; ls_line := 1; ls_frames := [];
                     ls_locals := []; ls_source_path := "main.lua" |};
     lp_line_yield := false; lp_state := VmReady; lp_invocations := 0; lp_faulted := false; lp_error := None;
     lp_operations_this_tick := 0 |}.

Definition simulator_of (kb : KnowledgeBase) (w : World) (cs : list Cpu) (ls : list LuaProgramRuntime)
    (schedule : VmSchedule) : Simulator :=
  {| knowledge := kb; world := w; cpus := cs; lua_programs := ls; tick := 0; compatibility_warnings := [];
     sim_schedule := schedule; scheduler_slot := 0; scheduler_error := None; behaviours := build_runtime w;
     driver_state := []; journal := journal_default |}.

Definition sample_simulator : Simulator :=
  simulator_of scheduler_kb scheduler_world [cpu_of "h" 0 blink; cpu_of "g" 1 spin] [sample_lua]
    [AdIc10 0; AdLua 0; AdIc10 1].

(** The events of the first tick, by number of the program that ran. *)
Example first_tick_events :
  match (step_world_tick sample_simulator).1 with
  | Ok (Some events) => ev_cpu <$> events = [0; 0; 0; 2; 1; 1; 1; 1; 1]%nat
  | _ => False
  end.
Proof. vm_compute. reflexivity. Qed.

Lemma world_tick_completes_witness :
  capacity_left sample_simulator = 11%nat ∧ tick (step_world_tick sample_simulator).2 = 1
  ∧ Forall (begun (step_world_tick sample_simulator).2) [AdIc10 0; AdLua 0; AdIc10 1].
Proof.
  assert (NoDup (sim_schedule sample_simulator)) as Hnd by (apply (bool_decide_unpack _); vm_compute; exact I).
  assert (is_Some (match (step_world_tick sample_simulator).1 with Ok o => o | _ => None end)) as [events He]
    by (vm_compute; eexists; reflexivity).
  assert (0 ≤ scheduler_slot sample_simulator) as Hpos by (vm_compute; discriminate).
  assert (0 ≤ tick sample_simulator ≤ U64_MAX) as Htick by (split; vm_compute; discriminate).
  assert (budget sample_simulator ≤ U32_MAX) as Hb by (vm_compute; discriminate).
  pose proof (world_tick_completes sample_simulator Hnd Hpos Htick Hb) as Ht.
  destruct (step_world_tick sample_simulator) as [r s'] eqn:E. destruct Ht as [_ Ht].
  destruct (Ht events) as (Ht1 & _ & Hbegun & _).
  { destruct r as [o| |]; cbn in He; congruence. }
  split; [vm_compute; reflexivity|]. split; [exact Ht1|].
  replace [AdIc10 0; AdLua 0; AdIc10 1] with (sim_schedule s'); [exact Hbegun|].
  change s' with (r, s').2. rewrite <-E. vm_compute. reflexivity.
Defined.

Lemma scheduler_step_in_order_witness :
  let s := (scheduler_step sample_simulator).2 in
  next_slot sample_simulator = Some (AdIc10 0)
  ∧ match (scheduler_step sample_simulator).1 with Ok r => ev_cpu <$> r = Some 0%nat | _ => False end.
Proof.
  intros s. split; [vm_compute; reflexivity|].
  destruct (scheduler_step sample_simulator) as [[r| |] s'] eqn:E; [|vm_compute in E; discriminate E..].
  destruct (scheduler_step_in_order sample_simulator s' r) as [_ Hr];
    [vm_compute; discriminate|split; vm_compute; discriminate|vm_compute; discriminate|exact E|].
  exact (proj1 Hr).
Defined.
