(* ===== verification/Safety.v ===== *)
(** * A simulation of IC10 programs never panics

    The invariant of a simulator state and its preservation by an instruction, a
    step of the scheduler and a whole tick, for scenarios without Lua programs.
    What a Lua program may do to the world is up to the interpreter and is left
    out here. *)

From S2P Require Import Prelude BTree Text F64 Knowledge Literals Journal Scenario World Program Cpu Exec.
From S2P Require Import Isa Frame Behaviour Vm Lua Simulator Tick.
Local Open Scope string_scope.
Local Open Scope Z_scope.

(** Every operation of a program has the operands its instruction reads. *)
Definition program_ok (p : Program) : Prop :=
  ∀ k op, (k, op) ∈ operations p → (operands_read (mnemonic op) ≤ length (operands op))%nat.

Section safety.
Context `{Libm} `{Build} `{LuaEngine} `{FloatDisplay}.
Context (sizes : list nat) (nn nc : nat).

Definition cpu_program_ok (c : Cpu) : Prop := cpu_ok (length sizes) c ∧ program_ok (program c).

Definition behaviour_state_of (s : Simulator) : BState :=
  {| b_runtime := behaviours s; b_world := world s; b_journal := journal s |}.

(** [nc] processors in a well-formed world, their programs complete, and a schedule
    of exactly these processors. *)
Record sim_ok (s : Simulator) : Prop := {
  ok_behaviours : b_ok sizes nn (behaviour_state_of s);
  ok_cpus : length (cpus s) = nc ∧ Forall cpu_program_ok (cpus s);
  ok_schedule : Forall (λ a, match a with AdIc10 i => (i < nc)%nat | AdLua _ => False end) (sim_schedule s);
}.
Local Abbreviation ok := sim_ok.

Lemma sim_ok_world s : sim_ok s → world_shape sizes nn (world s).
Proof. by intros [(Hw & _) _ _]. Qed.

Lemma sim_ok_cpu s i : sim_ok s → (i < nc)%nat → ∃ c, cpus s !! i = Some c ∧ cpu_program_ok c.
Proof.
  intros [_ [Hl Hc] _] Hi. rewrite <-Hl in Hi. apply lookup_lt_is_Some_2 in Hi as [c Hi]. exists c. split; [done|].
  by eapply Forall_lookup_1 in Hc.
Qed.

(** Updates of parts of the state that the invariant does not read, or reads well. *)
Lemma sim_ok_cpus s i c : sim_ok s → cpu_program_ok c → sim_ok (sim_set_cpus (<[i := c]> (cpus s)) s).
Proof.
  intros [Hb [Hl Hc] Hs] Hok. constructor; [exact Hb| |exact Hs]. simpl. rewrite length_insert.
  split; [done|]. by apply Forall_insert.
Qed.
Lemma sim_ok_journal s j : sim_ok s → sim_ok (sim_set_journal j s).
Proof. intros [(? & ? & ?) Hc Hs]. by constructor. Qed.
Lemma sim_ok_world_set s w : sim_ok s → world_shape sizes nn w → sim_ok (sim_set_world w s).
Proof. intros [(? & ? & ?) Hc Hs] Hw. by constructor. Qed.
Lemma sim_ok_tick s t : sim_ok s → sim_ok (sim_set_tick t s).
Proof. intros [(? & ? & ?) Hc Hs]. by constructor. Qed.
Lemma sim_ok_slot s t : sim_ok s → sim_ok (sim_set_scheduler_slot t s).
Proof. intros [(? & ? & ?) Hc Hs]. by constructor. Qed.
Lemma sim_ok_error s e : sim_ok s → sim_ok (sim_set_scheduler_error e s).
Proof. intros [(? & ? & ?) Hc Hs]. by constructor. Qed.
Lemma sim_ok_notify s d f b a : sim_ok s → sim_ok (sim_set_behaviours (notify_field_write d f b a (behaviours s)) s).
Proof. intros [(? & ? & ?) Hc Hs]. by constructor. Qed.
Hint Resolve sim_ok_cpus sim_ok_journal sim_ok_world_set sim_ok_tick sim_ok_slot sim_ok_error sim_ok_notify : core.

(** ** Pieces *)

Lemma safe_sim_get {A} (f : Simulator → A) : safe (E:=message) ok (gets f) any.
Proof. by apply safe_gets. Qed.
Lemma safe_sim_intern name : safe ok (sim_intern name) any.
Proof. intros s Hs. unfold sim_intern. destruct (intern name (journal s)). by split; [apply sim_ok_journal|]. Qed.
Lemma safe_sim_write_bits actor t b a : safe (E:=message) ok (sim_write_bits actor t b a) any.
Proof. apply safe_modify. intros s Hs. by apply sim_ok_journal. Qed.
Lemma safe_sim_notify d f b a : safe (E:=message) ok (sim_notify d f b a) any.
Proof. apply safe_modify. intros s Hs. by apply sim_ok_notify. Qed.

Lemma safe_alter_cpu i f :
  (i < nc)%nat → (∀ c, cpu_program_ok c → cpu_program_ok (f c)) → safe (E:=message) ok (alter_cpu i f) any.
Proof.
  intros Hi Hf s Hs. unfold alter_cpu. destruct (sim_ok_cpu s i Hs Hi) as (c & -> & Hc).
  split; [|done]. by apply sim_ok_cpus; [|apply Hf].
Qed.

Lemma safe_get_cpu i : (i < nc)%nat → safe (E:=message) ok (get_or_panic (λ s, cpus s !! i)) cpu_program_ok.
Proof. intros Hi. apply safe_get_or_panic. intros s Hs. by apply sim_ok_cpu. Qed.

Lemma safe_on_machine {A} i (m : M Machine message A) Q :
  (i < nc)%nat → keeps same_machine_control m → safe (machine_ok sizes nn) m Q → safe ok (on_machine i m) Q.
Proof.
  intros Hi Hk Hm s Hs. unfold on_machine. destruct (sim_ok_cpu s i Hs Hi) as (c & -> & Hc & Hp).
  specialize (Hk (machine_of s c)). specialize (Hm (machine_of s c)).
  destruct (m (machine_of s c)) as [r x]. simpl in Hk.
  assert (program (m_cpu x) = program c) as Hprog by (unfold same_machine_control, same_control, control in Hk; simpl in Hk; congruence).
  assert (machine_ok sizes nn x → sim_ok (sim_set_cpus (<[i := m_cpu x]> (cpus s))
            (sim_set_world (fx_world (m_fx x)) (sim_set_journal (fx_journal (m_fx x)) s)))) as Hnew.
  { intros [Hcx Hfx]. apply (sim_ok_cpus (sim_set_world _ (sim_set_journal _ s))).
    - apply sim_ok_world_set; [by apply sim_ok_journal|exact Hfx].
    - split; [done|]. by rewrite Hprog. }
  assert (machine_ok sizes nn (machine_of s c)) as Hmok by (split; [done|by apply sim_ok_world]).
  specialize (Hm Hmok). destruct r; [destruct Hm|..]; auto.
Qed.

Lemma safe_on_cpu_at {A} i (m : M Cpu message A) Q :
  (i < nc)%nat → keeps same_control m → safe (cpu_ok (length sizes)) m Q → safe ok (on_cpu_at i m) Q.
Proof. intros Hi Hk Hm. apply safe_on_machine; [done|by apply keeps_on_cpu|by apply safe_on_cpu]. Qed.

Lemma safe_insert_device_field d f v : (d < length sizes)%nat → safe ok (insert_device_field d f v) any.
Proof.
  intros Hd. unfold insert_device_field, sim_device, sim_alter_device. eapply safe_bind.
  - apply (safe_get_or_panic _ _ _ any). intros s (Hl & _)%sim_ok_world.
    rewrite <-Hl, length_memory_sizes in Hd. apply lookup_lt_is_Some_2 in Hd as [x Hx]. by exists x.
  - intros _ _. apply safe_modify. intros s Hs. apply sim_ok_world_set; [done|].
    apply world_shape_alter_device; [|by apply sim_ok_world]. apply set_fields_identity.
Qed.

Lemma safe_deliver_field_writes : safe ok deliver_field_writes any.
Proof.
  intros s Hs. unfold deliver_field_writes, take_field_writes.
  apply (safe_for_each _ _ (λ '(d, f, b, a), sim_notify d f b a)).
  - intros [[[d f] b] a] _. apply safe_sim_notify.
  - apply sim_ok_world_set; [done|]. apply world_shape_set_field_writes. by apply sim_ok_world.
Qed.

Lemma safe_collect_effects i : (i < nc)%nat → safe ok (collect_effects i) any.
Proof.
  intros Hi s Hs. unfold collect_effects. destruct (sim_ok_cpu s i Hs Hi) as (c & -> & Hc).
  unfold cpu_take_effects. destruct (take_batch (cpu_journal c)) as [batch j]. split; [|done].
  apply (sim_ok_cpus (sim_set_journal _ s)); [by apply sim_ok_journal|].
  destruct Hc as [[? ? ? ?] ?]. by split.
Qed.

(** ** One instruction *)
Context (Hrelease : overflow_checks = false).
Set Default Proof Using "Type*".

Lemma cpu_program_ok_update c c' :
  length (registers c') = length (registers c) → length (stack c') = length (stack c) → pins c' = pins c →
  housing c' = housing c → program c' = program c → cpu_program_ok c → cpu_program_ok c'.
Proof. intros Hr Hs Hp Hh Hpr [[? ? ? ?] Hok]. split; [constructor; congruence|by rewrite Hpr]. Qed.

Lemma safe_count_operation i actor : (i < nc)%nat → safe ok (count_operation i actor) any.
Proof.
  intros Hi. unfold count_operation. eapply safe_bind; [by apply safe_get_cpu|intros c _]. cbv zeta.
  eapply safe_bind; [apply (safe_lift _ _ any)|intros n _].
  - unfold add_u32. destruct (_ <=? _); [done|]. by rewrite on_overflow_Ok.
  - done.
  - eapply safe_bind; [apply safe_alter_cpu; [done|]|intros _ _; apply safe_sim_write_bits].
    intros c'. by apply cpu_program_ok_update.
Qed.

Lemma operation_ok c op :
  cpu_program_ok c → current_operation c = Some op → (operands_read (mnemonic op) ≤ length (operands op))%nat.
Proof.
  intros [_ Hp] Hop. unfold current_operation in Hop. apply operation_at_or_after_elem in Hop as (k & Hin & _).
  by eapply Hp.
Qed.

Lemma safe_attempted {A} (m : M Simulator message A) :
  safe ok m any →
  safe ok ((λ s, let '(r, s) := m s in
                 match r with
                 | Ok _ => (Ok None, s)
                 | Err e => (Ok (Some e), s)
                 | Panic => (Panic, s)
                 end) : M Simulator message (option message)) any.
Proof. intros Hm s Hs. specialize (Hm s Hs). destruct (m s) as [[a|e|] s']; naive_solver. Qed.

Lemma safe_write_state_at i st : (i < nc)%nat → safe ok (on_cpu_at i (write_state st)) any.
Proof. intros Hi. apply safe_on_cpu_at; [done|apply keeps_write_state|apply safe_write_state]. Qed.

Lemma safe_step_instruction i : safe ok (step_instruction i) any.
Proof.
  unfold step_instruction. eapply safe_bind; [apply safe_gets with (Q:=λ c, ∀ c', c = Some c' → (i < nc)%nat ∧ cpu_program_ok c')|].
  { intros s Hs c Hc. destruct Hs as [_ [<- Hall] _]. split; [by eapply lookup_lt_Some|by eapply Forall_lookup_1 in Hall]. }
  intros oc Hoc. eapply safe_bind; [apply safe_lift_ok_or; intros c; apply Hoc|intros c [Hi Hc]].
  safe_step; [apply safe_throw|]. destruct (current_operation c) as [op|] eqn:Hop.
  2: { eapply safe_bind; [apply safe_alter_cpu; [done|]|intros _ _; by apply safe_ret].
       intros c'. by apply cpu_program_ok_update. }
  assert (housing c < length sizes)%nat as Hhouse by apply Hc.
  eapply safe_bind; [apply safe_sim_intern|intros src _]. cbv zeta.
  eapply safe_bind; [apply safe_sim_get|intros on _].
  eapply safe_bind; [apply safe_alter_cpu; [done|]; intros c'; by apply cpu_program_ok_update|intros _ _].
  eapply safe_bind; [apply safe_on_cpu_at; [done|apply keeps_write_pc|apply safe_write_pc]|intros _ _].
  eapply safe_bind; [by apply safe_write_state_at|intros _ _].
  eapply safe_bind; [by apply safe_insert_device_field|intros _ _].
  eapply safe_bind; [apply safe_sim_get|intros kb _]. eapply safe_bind; [apply safe_sim_get|intros now _].
  eapply safe_bind; [apply safe_attempted, safe_on_machine;
    [done|apply keeps_execute_operation|apply safe_execute_operation; [done|by eapply operation_ok]]|intros r _].
  eapply safe_bind; [apply safe_deliver_field_writes|intros _ _].
  eapply safe_bind; [by apply safe_count_operation|intros _ _].
  destruct r as [text|].
  - eapply safe_bind; [by apply safe_write_state_at|intros _ _].
    eapply safe_bind; [apply safe_alter_cpu; [done|]; intros c'; by apply cpu_program_ok_update|intros _ _].
    eapply safe_bind; [by apply safe_insert_device_field|intros _ _].
    eapply safe_bind; [by apply safe_collect_effects|intros _ _]. apply safe_throw.
  - eapply safe_bind; [by apply safe_collect_effects|intros _ _].
    eapply safe_bind; [by apply safe_get_cpu|intros c' _]. by apply safe_ret.
Qed.

(** ** The scheduler *)

Lemma safe_sim_lookup i (e : message) : safe ok (cpu ← gets (λ s, cpus s !! i); lift (ok_or cpu e)) any.
Proof. eapply safe_bind; [apply safe_sim_get|intros oc _]. apply safe_lift_any. Qed.

Lemma safe_set_state_at i st : (i < nc)%nat → safe (E:=message) ok (alter_cpu i (set_state st)) any.
Proof. intros Hi. apply safe_alter_cpu; [done|]. intros c. by apply cpu_program_ok_update. Qed.

Lemma safe_ic10_halt i : (i < nc)%nat → safe ok (sim_ic10_halt i) any.
Proof.
  intros Hi. unfold sim_ic10_halt. eapply safe_bind; [apply safe_sim_get|intros oc _].
  eapply safe_bind; [apply safe_lift_any|intros c _].
  eapply safe_bind; [by apply safe_set_state_at|intros _ _]. apply safe_sim_write_bits.
Qed.

Lemma safe_ic10_begin_tick i t : (i < nc)%nat → safe ok (sim_ic10_begin_tick i t) any.
Proof.
  intros Hi. unfold sim_ic10_begin_tick. eapply safe_bind; [apply safe_sim_get|intros oc _].
  eapply safe_bind; [apply safe_lift_any|intros c _].
  eapply safe_bind; [apply safe_alter_cpu; [done|]; intros c'; by apply cpu_program_ok_update|intros _ _].
  eapply safe_bind; [apply safe_sim_write_bits|intros _ _]. apply safe_when.
  eapply safe_bind; [by apply safe_set_state_at|intros _ _]. apply safe_sim_write_bits.
Qed.

Lemma safe_set_scheduler_slot v : safe ok (set_scheduler_slot v) any.
Proof.
  unfold set_scheduler_slot. eapply safe_bind; [apply safe_sim_get|intros b _].
  eapply safe_bind; [apply safe_modify; intros s; by apply sim_ok_slot|intros _ _]. apply safe_sim_write_bits.
Qed.

Lemma safe_on_behaviours {A} (m : M BState BehaviourError A) :
  safe (b_ok sizes nn) m any → safe ok (on_behaviours m) any.
Proof.
  intros Hm s [Hb Hc Hs]. unfold on_behaviours. specialize (Hm _ Hb). unfold behaviour_state_of in Hm.
  destruct (m _) as [r b]. assert (b_ok sizes nn b → sim_ok (sim_set_behaviours (b_runtime b)
    (sim_set_world (b_world b) (sim_set_journal (b_journal b) s)))) as Hnew by (intros Hb'; by constructor).
  destruct r; [destruct Hm|..]; auto.
Qed.

(** The slots of a schedule of processors. *)
Definition slot_ok (a : VmAdapter) : Prop := match a with AdIc10 i => (i < nc)%nat | AdLua _ => False end.

Lemma safe_advance_tick : safe ok advance_tick any.
Proof.
  unfold advance_tick. eapply safe_bind; [apply safe_on_behaviours, safe_tick_end|intros _ _].
  eapply safe_bind; [apply safe_sim_get|intros b _].
  eapply safe_bind; [apply (safe_lift _ _ any); [|done]|intros after _].
  { unfold add_u64. destruct (_ <=? _); [done|]. by rewrite on_overflow_Ok. }
  eapply safe_bind; [apply safe_modify; intros s; by apply sim_ok_tick|intros _ _].
  eapply safe_bind; [apply safe_sim_write_bits|intros _ _].
  eapply safe_bind; [apply safe_on_behaviours, safe_tick_start|intros _ _].
  eapply safe_bind; [apply safe_set_scheduler_slot|intros _ _].
  eapply safe_bind; [apply (safe_gets _ _ _ (Forall slot_ok)); by intros s [_ _ Hs]|intros ads Hads].
  apply safe_for_each. intros a Ha. rewrite Forall_forall in Hads. specialize (Hads a Ha).
  destruct a as [i|i]; [by apply safe_ic10_begin_tick|done].
Qed.

Lemma safe_lifecycle a : slot_ok a →
  safe ok ((λ s, (adapter_lifecycle a s, s)) : M Simulator message VmLifecycle) any.
Proof.
  intros Ha s Hs. destruct a as [i|i]; [|done]. unfold adapter_lifecycle. simpl. unfold sim_ic10_lifecycle.
  by destruct (sim_ok_cpu s i Hs Ha) as (c & -> & _).
Qed.

Lemma safe_prepare_from slots :
  Forall slot_ok slots → safe ok (prepare_from slots) (λ r, ∀ p, r = Some p → slot_ok p.1).
Proof.
  induction 1 as [|a rest Ha Hrest IH]; cbn [prepare_from].
  { eapply safe_bind; [apply safe_advance_tick|intros _ _]. by apply safe_ret. }
  assert (∀ v, safe ok (set_scheduler_slot v ≫= λ _, prepare_from rest) (λ r, ∀ p, r = Some p → slot_ok p.1))
    as Hnext by (intros v; eapply safe_bind; [apply safe_set_scheduler_slot|done]).
  eapply safe_bind; [by apply safe_lifecycle|intros l _].
  eapply safe_bind; [apply safe_sim_get|intros now _]. eapply safe_bind; [apply safe_sim_get|intros slot _].
  safe_step; [apply Hnext|]. destruct (current_location l).
  - apply safe_ret. by intros p [= <-].
  - eapply safe_bind; [|intros _ _; apply Hnext]. destruct a as [i|i]; [by apply safe_ic10_halt|done].
Qed.

Lemma safe_scheduler_step : safe ok scheduler_step any.
Proof.
  unfold scheduler_step. eapply safe_bind; [apply safe_sim_get|intros pe _]. destruct pe.
  { eapply safe_bind; [apply safe_modify; intros s; by apply sim_ok_error|intros _ _]. apply safe_throw. }
  eapply safe_bind with (P:=λ r, ∀ p, r = Some p → slot_ok p.1).
  { intros s Hs. unfold prepare_next_adapter. apply safe_prepare_from; [|done].
    destruct Hs as [_ _ Hs]. by apply Forall_drop. }
  intros p Hp. destruct p as [[a location]|]; [|by apply safe_ret]. specialize (Hp _ eq_refl). simpl in Hp.
  eapply safe_bind; [|intros res _].
  - destruct a as [i|i]; [|done]. unfold adapter_step. simpl. unfold sim_ic10_step.
    eapply safe_bind; [apply safe_step_instruction|intros ev _]. by apply (safe_ret _ _ _ any).
  - eapply safe_bind; [by apply safe_lifecycle|intros l _].
    eapply safe_bind; [apply safe_sim_get|intros slot _].
    eapply safe_bind; [apply safe_when, safe_set_scheduler_slot|intros _ _]. by apply safe_ret.
Qed.

Lemma safe_step_until_tick fuel start events : safe ok (step_until_tick fuel start events) any.
Proof.
  revert events. induction fuel as [|fuel IH]; intros events; cbn [step_until_tick]; [by apply safe_ret|].
  eapply safe_bind; [apply safe_sim_get|intros now _]. safe_step; [by apply safe_ret|].
  eapply safe_bind; [apply safe_scheduler_step|intros ev _]. apply IH.
Qed.
End safety.

(** C14.  Built as released, a simulation of IC10 programs never panics: from a
    well-formed state, a tick returns or reports an error, and leaves a well-formed
    state, whatever the programs do.  The world keeps its shape, every processor its
    registers, its stack and its program. *)
Theorem simulation_never_panics `{Libm} `{Build} `{LuaEngine} `{FloatDisplay} (sizes : list nat) (nn nc : nat)
    (s : Simulator) :
  overflow_checks = false → sim_ok sizes nn nc s →
  let '(r, s') := step_world_tick s in r ≠ Panic ∧ sim_ok sizes nn nc s'.
Proof.
  intros Hrelease Hs.
  pose proof (safe_step_until_tick sizes nn nc Hrelease (tick_fuel s) (tick s) [] s Hs) as Hsafe.
  unfold step_world_tick. destruct (step_until_tick _ _ _ s) as [[o|e|] s']; [|by split|done].
  by split; [|apply Hsafe].
Qed.

#[local] Existing Instances sample_libm release_build sample_engine sample_display.

Definition ic10_simulator : Simulator :=
  simulator_of scheduler_kb scheduler_world [cpu_of "h" 0 blink; cpu_of "g" 1 spin] [] [AdIc10 1; AdIc10 0].

Lemma cpu_of_ok nd id housing p : (housing < nd)%nat → cpu_ok nd (cpu_of id housing p).
Proof.
  intros Hh. constructor; simpl; [done|done| |done]. split; [done|]. by repeat apply Forall_cons_2.
Qed.

Lemma program_of_ok l :
  Forall (λ '(_, m, ops), (operands_read m ≤ length ops)%nat) l → program_ok (program_of l).
Proof.
  intros Hl k op Hin. unfold program_of in Hin. simpl in Hin. apply list_elem_of_fmap in Hin as ([[z m] ops] & [= -> ->] & Hin).
  rewrite Forall_forall in Hl. apply (Hl _ Hin).
Qed.

Lemma ic10_simulator_ok : sim_ok [0; 0; 4]%nat 1 2 ic10_simulator.
Proof.
  constructor.
  - split_and!; [|reflexivity..]. split_and!; [reflexivity..|].
    apply (build_ok scheduler_kb [sample_network] scheduler_devices). vm_compute. reflexivity.
  - split; [reflexivity|]. repeat apply Forall_cons_2; [..|apply Forall_nil_2]; (split; [by apply cpu_of_ok; simpl; lia|]);
      apply program_of_ok; repeat apply Forall_cons_2; try apply Forall_nil_2; vm_compute; lia.
  - repeat apply Forall_cons_2; [lia|lia|apply Forall_nil_2].
Qed.

Lemma simulation_never_panics_witness :
  (step_world_tick ic10_simulator).1 ≠ Panic ∧ sim_ok [0; 0; 4]%nat 1 2 (step_world_tick ic10_simulator).2.
Proof.
  pose proof (simulation_never_panics [0; 0; 4]%nat 1 2 ic10_simulator eq_refl ic10_simulator_ok) as Hs.
  destruct (step_world_tick ic10_simulator) as [r s']. exact Hs.
Defined.
