(* ===== verification/Control.v ===== *)
(** * Checkpoints, hashes and edits

    [crates/ic10-sim/src/simulator.rs]: what a debugger and a test driver do to a
    simulation besides stepping it: checkpoints and their restoration, the replay
    hashes, recorded edits, the replay of a recorded write, the differences between
    a checkpoint and the current state, and seeds. *)

From S2P Require Import Prelude BTree Text F64 Knowledge Literals Journal Scenario World Program Cpu Exec.
From S2P Require Import Isa Frame Behaviour Vm Lua Simulator Tick.
Local Open Scope string_scope.
Local Open Scope Z_scope.

(** Source: [crates/ic10-sim/src/simulator.rs] [is_newer_game_version] lines 1707-1713 *)
Definition version_components (version : string) : option (list Z) := mapM parse_u64 (split_char (byte 46) version).

(** The derived order of [Vec<u64>]: lexicographic, a prefix being smaller. *)
Fixpoint version_gt (a b : list Z) : bool :=
  match a, b with
  | _ :: _, [] => true
  | [], _ => false
  | x :: a', y :: b' => if x =? y then version_gt a' b' else y <? x
  end.

(** Source: [crates/ic10-sim/src/simulator.rs] [is_newer_game_version] *)
Definition is_newer_game_version (candidate bundled : string) : bool :=
  match version_components candidate, version_components bundled with
  | Some candidate, Some bundled => version_gt candidate bundled
  | _, _ => false
  end.

(** The seed of the random stream of a processor in housing [housing]. *)
Definition GOLDEN : Z := 11400714819323198485.
Definition seed_state (seed : Z) (housing : nat) : Z :=
  wrap_u 64 (wrap_u 64 (seed + (Z.of_nat housing + 1)) * GOLDEN).

Section control.
Context `{Libm} `{Build} `{LuaEngine} `{FloatDisplay}.

Abbreviation SX := (M Simulator message).

(** ** Checkpoints *)

(** Source: [crates/ic10-sim/src/simulator.rs] [SimulatorSnapshot] *)
Record SimulatorSnapshot := {
  sn_world : World;
  sn_runtimes : list VmRuntimeSnapshot;
  sn_tick : Z;
  sn_scheduler_slot : Z;
  sn_scheduler_error : option message;
  sn_behaviours : BehaviourRuntime;
  sn_driver_state : BTreeMap string (list Z);
  sn_journal_write_sequence : Z;
}.

(** A runtime that cannot be captured is a panic.
    Source: [crates/ic10-sim/src/simulator.rs] [Simulator::snapshot] *)
Definition snapshot (s : Simulator) : outcome message SimulatorSnapshot :=
  match map_outcome (adapter_snapshot s) (adapters (sim_schedule s)) with
  | Ok runtimes =>
      Ok {| sn_world := world s; sn_runtimes := runtimes; sn_tick := tick s;
            sn_scheduler_slot := scheduler_slot s; sn_scheduler_error := scheduler_error s;
            sn_behaviours := behaviours s; sn_driver_state := driver_state s;
            sn_journal_write_sequence := write_sequence (journal s) |}
  | _ => Panic
  end.

(** The shared state of a checkpoint put back. *)
Definition restore_shared (snapshot : SimulatorSnapshot) (s : Simulator) : Simulator :=
  {| knowledge := knowledge s; world := sn_world snapshot; cpus := cpus s; lua_programs := lua_programs s;
     tick := sn_tick snapshot; compatibility_warnings := compatibility_warnings s;
     sim_schedule := sim_schedule s; scheduler_slot := sn_scheduler_slot snapshot;
     scheduler_error := sn_scheduler_error snapshot; behaviours := sn_behaviours snapshot;
     driver_state := sn_driver_state snapshot;
     journal := restore_write_sequence (sn_journal_write_sequence snapshot) (journal s) |}.

(** Source: [crates/ic10-sim/src/simulator.rs] [Simulator::restore] *)
Definition restore (snapshot : SimulatorSnapshot) : SX () :=
  schedule ← gets sim_schedule;
  w ← gets world;
  if negb (Nat.eqb (adapter_count schedule) (length (sn_runtimes snapshot)))
     || negb (Nat.eqb (length (devices w)) (length (devices (sn_world snapshot))))
     || negb (Nat.eqb (length (networks w)) (length (networks (sn_world snapshot))))
  then throw [PS "checkpoint belongs to a different simulation"]
  else
    _ ← modify (restore_shared snapshot);
    for_each (λ '(a, saved), adapter_restore a saved) (zip (adapters schedule) (sn_runtimes snapshot)).

(** ** Replay hashes *)

(** [{:?}] of a [CpuState] *)
Definition cpu_state_debug (state : CpuState) : string :=
  match state with
  | Ready => "Ready"
  | WaitingUntil wake => "WaitingUntil(" +:+ show wake +:+ ")"
  | Halted => "Halted"
  | Error => "Error"
  end.

Definition u64_bytes (z : Z) : list Z := le_bytes 8 z.
Definition f64_bytes (x : f64) : list Z := le_bytes 8 (to_bits x).
Definition blob_bytes (l : list Z) : list Z := (u64_bytes (Z.of_nat (length l)) ++ l)%list.

Definition cpu_hash_bytes (cpu : Cpu) : list Z :=
  (u64_bytes (pc cpu) ++ le_bytes 4 (operations_this_tick cpu) ++ u64_bytes (random_state cpu)
   ++ bytes (cpu_state_debug (state cpu))
   ++ match error cpu with Some e => bytes (message_text e) | None => [] end
   ++ concat (f64_bytes <$> registers cpu ++ stack cpu))%list.

Definition named_bytes (e : string * f64) : list Z := (bytes e.1 ++ f64_bytes e.2)%list.

Definition device_hash_bytes (d : Device) : list Z :=
  (bytes (dev_id d) ++ concat (named_bytes <$> fields d)
   ++ concat ((λ e : Z * BTreeMap string f64, u64_bytes e.1 ++ concat (named_bytes <$> e.2)) <$> slots d)
   ++ concat (f64_bytes <$> memory d))%list.

Definition network_hash_bytes (n : Network) : list Z :=
  (bytes (net_id n) ++ concat (f64_bytes <$> channels n))%list.

Definition driver_hash_bytes (drivers : BTreeMap string (list Z)) : list Z :=
  (u64_bytes (Z.of_nat (length drivers))
   ++ concat ((λ e : string * list Z, blob_bytes (bytes e.1) ++ blob_bytes e.2) <$> drivers))%list.

(** The bytes hashed, in order. *)
Definition state_hash_bytes (s : Simulator) : list Z :=
  (u64_bytes (tick s) ++ u64_bytes (scheduler_slot s)
   ++ match scheduler_error s with Some e => bytes (message_text e) | None => [] end
   ++ concat (cpu_hash_bytes <$> cpus s)
   ++ concat (device_hash_bytes <$> devices (world s))
   ++ concat (network_hash_bytes <$> networks (world s))
   ++ blob_bytes (deterministic_bytes display_f64 (behaviours s))
   ++ driver_hash_bytes (driver_state s))%list.

(** Source: [crates/ic10-sim/src/simulator.rs] [state_hash] *)
Definition state_hash (s : Simulator) : Z := fnv_add (state_hash_bytes s) FNV_OFFSET.

(** The code of a state in an event hash. *)
Definition event_state_code (state : CpuState) : Z :=
  match state with
  | Ready => 0
  | WaitingUntil wake => Z.lxor wake (2 ^ 60)
  | Halted => 2
  | Error => 3
  end.

Definition event_cpu_bytes (include_stack : bool) (cpu : Cpu) : list Z :=
  (u64_bytes (pc cpu) ++ le_bytes 4 (operations_this_tick cpu) ++ u64_bytes (random_state cpu)
   ++ u64_bytes (event_state_code (state cpu)) ++ concat (f64_bytes <$> registers cpu)
   ++ (if include_stack then concat (f64_bytes <$> stack cpu) else []))%list.

Definition event_world_bytes (w : World) : list Z :=
  (concat ((λ d, concat (f64_bytes <$> bt_values (fields d))
                 ++ concat ((λ fs, concat (f64_bytes <$> bt_values fs)) <$> bt_values (slots d))
                 ++ concat (f64_bytes <$> memory d)) <$> devices w)
   ++ concat ((λ n, concat (f64_bytes <$> channels n)) <$> networks w))%list.

(** Source: [crates/ic10-sim/src/simulator.rs] [event_state_hash] *)
Definition event_state_hash (cpu_index : nat) (include_world include_stack : bool) (s : Simulator) : Z :=
  fnv_add
    (u64_bytes (tick s) ++ u64_bytes (scheduler_slot s)
     ++ match cpus s !! cpu_index with Some cpu => event_cpu_bytes include_stack cpu | None => [] end
     ++ (if include_world then event_world_bytes (world s) else []))%list
    FNV_OFFSET.

(** ** The journal *)

(** Source: [crates/ic10-sim/src/simulator.rs] [set_journaling] *)
Definition set_journaling (enabled : bool) : SX () :=
  modify (λ s, sim_set_journal (set_enabled enabled (journal s)) s).

(** Source: [crates/ic10-sim/src/simulator.rs] [set_lua_debugging] *)
Definition set_lua_debugging (enabled : bool) : SX () :=
  modify (λ s, sim_set_lua_programs (set_debugging enabled <$> lua_programs s) s).

(** Source: [crates/ic10-sim/src/simulator.rs] [Simulator::take_effects] *)
Definition take_effects : SX EffectBatch := λ s,
  let '(batch, j) := take_batch (journal s) in (Ok batch, sim_set_journal j s).

(** Source: [crates/ic10-sim/src/simulator.rs] [Simulator::write_sequence] *)
Definition sim_write_sequence (s : Simulator) : Z := write_sequence (journal s).

(** Source: [crates/ic10-sim/src/simulator.rs] [Simulator::writes_after] *)
Definition sim_writes_after (sequence : Z) (s : Simulator) : list SequencedWriteEffect :=
  writes_after sequence (journal s).

(** Source: [crates/ic10-sim/src/simulator.rs] [Simulator::acknowledge_writes_through] *)
Definition sim_acknowledge_writes_through (sequence : Z) : SX () :=
  modify (λ s, sim_set_journal (acknowledge_writes_through sequence (journal s)) s).

(** Source: [crates/ic10-sim/src/simulator.rs] [scripted_driver_actor] *)
Definition scripted_driver_actor (driver : string) (rule : Z) : SX EffectActor :=
  id ← sim_intern driver; mret (ActorScriptedDriver id (wrap_u 32 rule)).

(** Source: [crates/ic10-sim/src/simulator.rs] [resolve_journal_symbol] *)
Definition resolve_journal_symbol (id : SymbolId) (s : Simulator) : option string := resolve id (journal s).

(** ** Recorded edits *)

(** [self.journal.intern(name)] and a write with it, when the journal is on. *)
Definition sim_write_named (name : string) (actor : EffectActor) (target : SymbolId → EffectTarget)
    (before after : f64) : SX () :=
  on ← sim_journal_enabled;
  when on (id ← sim_intern name; sim_write actor (target id) before after).

(** Source: [crates/ic10-sim/src/simulator.rs] [set_register_as] *)
Definition set_register_as (cpu : nat) (register : Z) (value : f64) (actor : EffectActor) : SX () :=
  c ← gets (λ s, cpus s !! cpu);
  before ← lift (ok_or (c ≫= λ c, registers c !! Z.to_nat register) [PS "register target is out of range"]);
  _ ← alter_cpu cpu (λ c, set_registers (<[Z.to_nat register := value]> (registers c)) c);
  sim_write actor (TRegister cpu (wrap_u 8 register)) before value.

(** Source: [crates/ic10-sim/src/simulator.rs] [set_stack_as] *)
Definition set_stack_as (cpu : nat) (address : Z) (value : f64) (actor : EffectActor) : SX () :=
  c ← gets (λ s, cpus s !! cpu);
  before ← lift (ok_or (c ≫= λ c, stack c !! Z.to_nat address) [PS "stack target is out of range"]);
  _ ← alter_cpu cpu (λ c, set_stack (<[Z.to_nat address := value]> (stack c)) c);
  sim_write actor (TStack cpu (wrap_u 16 address)) before value.

(** Source: [crates/ic10-sim/src/simulator.rs] [set_device_field_as] *)
Definition set_device_field_as (device_id field : string) (value : f64) (actor : EffectActor) : SX () :=
  index ← gets (λ s, device_index device_id (world s));
  index ← lift (ok_or index [PS "unknown device `"; PS device_id; PS "`"]);
  d ← sim_device index;
  before ← lift (ok_or (bt_get field (fields d))
    [PS "device `"; PS device_id; PS "` has no field `"; PS field; PS "`"]);
  _ ← sim_alter_device index (λ d, set_fields (bt_insert field value (fields d)) d);
  _ ← sim_write_named field actor (TDeviceField index) before value;
  sim_notify index field before value.

(** Source: [crates/ic10-sim/src/simulator.rs] [set_device_field] *)
Definition set_device_field (device_id field : string) (value : f64) : SX () :=
  set_device_field_as device_id field value ActorScenario.

(** A field of a slot that exists replaced. *)
Definition put_slot_field (slot : Z) (field : string) (value : f64) (d : Device) : Device :=
  match bt_get slot (slots d) with
  | Some fs => set_slots (bt_insert slot (bt_insert field value fs) (slots d)) d
  | None => d
  end.

(** Source: [crates/ic10-sim/src/simulator.rs] [set_device_slot_as] *)
Definition set_device_slot_as (device : nat) (slot : Z) (field : string) (value : f64) (actor : EffectActor) : SX () :=
  d ← sim_device device;
  before ← lift (ok_or (bt_get slot (slots d) ≫= bt_get field) [PS "device slot target is unavailable"]);
  _ ← sim_alter_device device (put_slot_field slot field value);
  sim_write_named field actor (TDeviceSlot device (wrap_u 16 slot)) before value.

(** Source: [crates/ic10-sim/src/simulator.rs] [set_device_memory_as] *)
Definition set_device_memory_as (device : nat) (address : Z) (value : f64) (actor : EffectActor) : SX () :=
  d ← sim_device device;
  before ← lift (ok_or (memory d !! Z.to_nat address) [PS "device memory target is unavailable"]);
  _ ← sim_alter_device device (λ d, set_memory (<[Z.to_nat address := value]> (memory d)) d);
  sim_write actor (TDeviceMemory device (wrap_u 32 address)) before value.

(** [self.world.networks[network]], a panic out of range *)
Definition sim_network (network : nat) : SX Network := get_or_panic (λ s, networks (world s) !! network).
Definition put_channel (channel : nat) (value : f64) (n : Network) : Network :=
  set_channels (<[channel := value]> (channels n)) n.
Definition sim_alter_network (network : nat) (f : Network → Network) : SX () :=
  modify (λ s, sim_set_world (alter_network f network (world s)) s).

(** Source: [crates/ic10-sim/src/simulator.rs] [set_network_channel_as] *)
Definition set_network_channel_as (network : nat) (channel : Z) (value : f64) (actor : EffectActor) : SX () :=
  n ← sim_network network;
  before ← lift (expect (channels n !! Z.to_nat channel));
  _ ← sim_alter_network network (put_channel (Z.to_nat channel) value);
  sim_write actor (TNetworkChannel network (wrap_u 8 channel)) before value.

(** Source: [crates/ic10-sim/src/simulator.rs] [set_test_driver_state] *)
Definition set_test_driver_state (driver : string) (state : list Z) (actor : EffectActor) : SX () :=
  before ← gets (λ s, match bt_get driver (driver_state s) with Some bytes => stable_bytes_hash bytes | None => 0 end);
  _ ← modify (λ s, sim_set_driver_state (bt_insert driver state (driver_state s)) s);
  on ← sim_journal_enabled;
  when on (id ← sim_intern driver; sim_write_bits actor (TDriverState id) before (stable_bytes_hash state)).

(** Source: [crates/ic10-sim/src/simulator.rs] [test_driver_state] *)
Definition test_driver_state (driver : string) (s : Simulator) : option (list Z) := bt_get driver (driver_state s).

(** One field of the item that [move_slot_item_as] moves.
    Source: [crates/ic10-sim/src/simulator.rs] [move_slot_item_as] lines 1241-1283 *)
Definition move_item_field (from_device : nat) (from_slot : Z) (to_device : nat) (to_slot : Z)
    (actor : EffectActor) (entry : string * f64) : SX () :=
  let '(field_name, value) := entry in
  destination ← sim_device to_device;
  destination_fields ← lift (expect (bt_get to_slot (slots destination)));
  match bt_get field_name destination_fields with
  | None => mret ()
  | Some before =>
      origin ← sim_device from_device;
      origin_fields ← lift (expect (bt_get from_slot (slots origin)));
      let source := default f_zero (bt_get field_name origin_fields) in
      _ ← sim_alter_device from_device (put_slot_field from_slot field_name f_zero);
      _ ← sim_alter_device to_device (put_slot_field to_slot field_name value);
      on ← sim_journal_enabled;
      when on
        (id ← sim_intern field_name;
         _ ← sim_write actor (TDeviceSlot from_device (wrap_u 16 from_slot) id) source f_zero;
         sim_write actor (TDeviceSlot to_device (wrap_u 16 to_slot) id) before value)
  end.

(** The fields of a slot of a device. *)
Definition slot_fields (w : World) (device : nat) (slot : Z) : option (BTreeMap string f64) :=
  d ← devices w !! device; bt_get slot (slots d).

(** Source: [crates/ic10-sim/src/simulator.rs] [move_slot_item_as] *)
Definition move_slot_item_as (from_device : nat) (from_slot : Z) (to_device : nat) (to_slot : Z)
    (actor : EffectActor) : SX () :=
  item ← gets (λ s, slot_fields (world s) from_device from_slot);
  item ← lift (ok_or item [PS "source device slot is unavailable"]);
  destination ← gets (λ s, slot_fields (world s) to_device to_slot);
  match destination with
  | None => throw [PS "destination device slot is unavailable"]
  | Some _ => for_each (move_item_field from_device from_slot to_device to_slot actor) item
  end.

(** Source: [crates/ic10-sim/src/simulator.rs] [set_seed] *)
Definition set_seed (seed : Z) : SX () :=
  modify (λ s, sim_set_cpus ((λ c, set_random_state (seed_state seed (housing c)) c) <$> cpus s) s).

(** ** Replaying a recorded write *)

Definition symbol_of (id : SymbolId) (text : string) : SX string :=
  name ← gets (λ s, resolve id (journal s)); lift (ok_or name [PS text]).

(** Source: [crates/ic10-sim/src/simulator.rs] [apply_write_effect] *)
Definition apply_write_effect (write : WriteEffect) : SX () :=
  let bits := w_after_bits write in
  let value := from_bits bits in
  match w_target write with
  | TRegister cpu register =>
      c ← gets (λ s, cpus s !! cpu);
      _ ← lift (ok_or (c ≫= λ c, registers c !! Z.to_nat register)
            [PS "trace register target is out of range"]);
      alter_cpu cpu (λ c, set_registers (<[Z.to_nat register := value]> (registers c)) c)
  | TStack cpu address =>
      c ← gets (λ s, cpus s !! cpu);
      _ ← lift (ok_or (c ≫= λ c, stack c !! Z.to_nat address) [PS "trace stack target is out of range"]);
      alter_cpu cpu (λ c, set_stack (<[Z.to_nat address := value]> (stack c)) c)
  | TCpuPc cpu => alter_cpu cpu (set_pc bits)
  | TCpuState cpu => st ← lift (cpu_state_from_bits bits); alter_cpu cpu (set_state st)
  | TCpuOperations cpu => alter_cpu cpu (set_operations_this_tick (wrap_u 32 bits))
  | TCpuRandom cpu => alter_cpu cpu (set_random_state bits)
  | TSchedulerCpu => modify (sim_set_scheduler_slot bits)
  | TTick => modify (sim_set_tick bits)
  | TDeviceField device field =>
      name ← symbol_of field "trace field symbol is unavailable";
      d ← sim_device device;
      _ ← sim_alter_device device (λ d, set_fields (bt_insert name value (fields d)) d);
      sim_notify device name (default f_zero (bt_get name (fields d))) value
  | TDeviceSlot device slot field =>
      name ← symbol_of field "trace slot-field symbol is unavailable";
      d ← sim_device device;
      _ ← lift (ok_or (bt_get slot (slots d)) [PS "trace slot target is unavailable"]);
      sim_alter_device device (put_slot_field slot name value)
  | TDeviceMemory device address =>
      d ← sim_device device;
      _ ← lift (ok_or (memory d !! Z.to_nat address) [PS "trace memory target is unavailable"]);
      sim_alter_device device (λ d, set_memory (<[Z.to_nat address := value]> (memory d)) d)
  | TNetworkChannel network channel =>
      n ← sim_network network;
      _ ← lift (expect (channels n !! Z.to_nat channel));
      sim_alter_network network (put_channel (Z.to_nat channel) value)
  | TCpuError _ | TBehaviourState _ _ | TDriverState _ =>
      throw [PS "trace effect cannot be applied without its structured state"]
  end.

(** ** Names of targets *)

Definition in_quotes (kind id rest : string) : string := kind +:+ "(" +:+ DQUOTE +:+ id +:+ DQUOTE +:+ ")" +:+ rest.

Definition symbol_text (id : SymbolId) (s : Simulator) : string := default "<unknown>" (resolve id (journal s)).

(** Source: [crates/ic10-sim/src/simulator.rs] [effect_target_name] *)
Definition effect_target_name (target : EffectTarget) (s : Simulator) : outcome message string :=
  let on_cpu cpu rest := c ← expect (cpus s !! cpu); Ok (in_quotes "cpu" (cpu_id c) rest) in
  let on_device device rest := d ← expect (devices (world s) !! device); Ok (in_quotes "device" (dev_id d) rest) in
  match target with
  | TRegister cpu register => on_cpu cpu (".r" +:+ show register)
  | TStack cpu address => on_cpu cpu (".stack[" +:+ show address +:+ "]")
  | TCpuPc cpu => on_cpu cpu ".pc"
  | TCpuState cpu => on_cpu cpu ".state"
  | TCpuError cpu => on_cpu cpu ".error"
  | TCpuOperations cpu => on_cpu cpu ".operations"
  | TCpuRandom cpu => on_cpu cpu ".random"
  | TSchedulerCpu => Ok "scheduler.cpu"
  | TTick => Ok "tick"
  | TDeviceField device field => on_device device ("." +:+ symbol_text field s)
  | TDeviceSlot device slot field =>
      on_device device (".slot[" +:+ show slot +:+ "]." +:+ symbol_text field s)
  | TDeviceMemory device address => on_device device (".memory[" +:+ show address +:+ "]")
  | TNetworkChannel network channel =>
      n ← expect (networks (world s) !! network);
      Ok (in_quotes "network" (net_id n) (".Channel" +:+ show channel))
  | TBehaviourState device key => on_device device (".behaviour." +:+ symbol_text key s)
  | TDriverState driver => Ok (in_quotes "driver" (symbol_text driver s) ".state")
  end.

(** ** Differences from a checkpoint *)

Definition changed (before after : f64) : bool := negb (to_bits before =? to_bits after).

(** The cells of a list that differ, each written to its target. *)
Definition record_cells (actor : EffectActor) (target : Z → EffectTarget) (before after : list f64) : SX () :=
  for_each (λ '(index, (before, after)),
    when (changed before after) (sim_write actor (target (Z.of_nat index)) before after))
    (enumerate (zip before after)).

Definition record_bits (actor : EffectActor) (target : EffectTarget) (before after : Z) : SX () :=
  when (negb (before =? after)) (sim_write_bits actor target before after).

(** Source: [crates/ic10-sim/src/simulator.rs] [record_snapshot_effects] lines 1355-1425 *)
Definition record_cpu (actor : EffectActor) (entry : nat * Ic10RuntimeSnapshot) : SX () :=
  let '(cpu_index, saved) := entry in
  cpu ← get_or_panic (λ s, cpus s !! cpu_index);
  _ ← record_cells actor (λ register, TRegister cpu_index (wrap_u 8 register)) (ss_registers saved) (registers cpu);
  _ ← record_cells actor (λ address, TStack cpu_index (wrap_u 16 address)) (ss_stack saved) (stack cpu);
  _ ← record_bits actor (TCpuPc cpu_index) (ss_pc saved) (pc cpu);
  _ ← record_bits actor (TCpuState cpu_index) (cpu_state_bits (ss_state saved)) (cpu_state_bits (state cpu));
  _ ← record_bits actor (TCpuOperations cpu_index) (ss_operations_this_tick saved) (operations_this_tick cpu);
  _ ← record_bits actor (TCpuRandom cpu_index) (ss_random_state saved) (random_state cpu);
  record_bits actor (TCpuError cpu_index) (stable_text_bits (ss_error saved)) (stable_text_bits (error cpu)).

Definition record_field (actor : EffectActor) (device : nat) (saved : Device) (entry : string * f64) : SX () :=
  let '(name, after) := entry in
  let before := default f_zero (bt_get name (fields saved)) in
  when (changed before after)
    (id ← sim_intern name;
     _ ← sim_write actor (TDeviceField device id) before after;
     sim_notify device name before after).

Definition record_slot_field (actor : EffectActor) (device : nat) (slot : Z) (saved : Device)
    (entry : string * f64) : SX () :=
  let '(name, after) := entry in
  let before := default f_zero (bt_get slot (slots saved) ≫= bt_get name) in
  when (changed before after)
    (id ← sim_intern name; sim_write actor (TDeviceSlot device (wrap_u 16 slot) id) before after).

(** Source: [crates/ic10-sim/src/simulator.rs] [record_snapshot_effects] lines 1426-1486 *)
Definition record_device (actor : EffectActor) (entry : nat * (Device * Device)) : SX () :=
  let '(device, (saved, current)) := entry in
  _ ← for_each (record_field actor device saved) (fields current);
  _ ← for_each (λ '(slot, fs), for_each (record_slot_field actor device slot saved) fs) (slots current);
  record_cells actor (λ address, TDeviceMemory device (wrap_u 32 address)) (memory saved) (memory current).

Definition record_network (actor : EffectActor) (entry : nat * (Network * Network)) : SX () :=
  let '(network, (saved, current)) := entry in
  record_cells actor (λ channel, TNetworkChannel network (wrap_u 8 channel)) (channels saved) (channels current).

(** The checkpoints of the processors of a schedule. *)
Definition saved_cpus (schedule : VmSchedule) (runtimes : list VmRuntimeSnapshot) : list (nat * Ic10RuntimeSnapshot) :=
  omap (λ '(a, snapshot), match a, snapshot with
                          | AdIc10 cpu_index, SnapIc10 saved => Some (cpu_index, saved)
                          | _, _ => None
                          end) (zip (adapters schedule) runtimes).

(** Source: [crates/ic10-sim/src/simulator.rs] [record_snapshot_effects] *)
Definition record_snapshot_effects (before : SimulatorSnapshot) (actor : EffectActor) : SX () :=
  schedule ← gets sim_schedule;
  _ ← for_each (record_cpu actor) (saved_cpus schedule (sn_runtimes before));
  w ← gets world;
  _ ← for_each (record_device actor) (enumerate (zip (devices (sn_world before)) (devices w)));
  for_each (record_network actor) (enumerate (zip (networks (sn_world before)) (networks w))).

(** Source: [crates/ic10-sim/src/simulator.rs] [record_external_effects] *)
Definition record_external_effects (before : SimulatorSnapshot) (actor : EffectActor) : SX () :=
  on ← sim_journal_enabled; when on (record_snapshot_effects before actor).
End control.

(** ** Checkpoints restore *)

Section restore.
Context `{Libm} `{Build} `{LuaEngine} `{FloatDisplay}.

(** The shared parts of a state: all but the runtimes and the journal. *)
Definition shared (s : Simulator) :=
  (knowledge s, world s, tick s, (sim_schedule s, scheduler_slot s, scheduler_error s),
   (behaviours s, driver_state s, journal s), (length (cpus s), length (lua_programs s))).

Definition runtime_exists (s : Simulator) (a : VmAdapter) : Prop :=
  match a with AdIc10 i => (i < length (cpus s))%nat | AdLua i => (i < length (lua_programs s))%nat end.

(** The language of a captured runtime is that of its slot. *)
Definition same_language (a : VmAdapter) (saved : VmRuntimeSnapshot) : Prop :=
  match a, saved with AdIc10 _, SnapIc10 _ | AdLua _, SnapLua _ => True | _, _ => False end.

Lemma adapter_snapshot_language s a saved : adapter_snapshot s a = Ok saved → same_language a saved.
Proof.
  unfold adapter_snapshot. simpl. destruct a as [i|i]; unfold sim_ic10_snapshot, sim_lua_snapshot.
  - destruct (cpus s !! i); [|done]. by intros [= <-].
  - destruct (lua_programs s !! i); [|done]. by intros [= <-].
Qed.

Lemma adapter_snapshot_exists s a saved : adapter_snapshot s a = Ok saved → runtime_exists s a.
Proof.
  unfold adapter_snapshot. simpl. destruct a as [i|i]; unfold sim_ic10_snapshot, sim_lua_snapshot; simpl.
  - intros Hs. apply lookup_lt_is_Some_1. by destruct (cpus s !! i).
  - intros Hs. apply lookup_lt_is_Some_1. by destruct (lua_programs s !! i).
Qed.

Lemma ic10_snapshot_update s s' i c :
  cpus s' = <[i := c]> (cpus s) → lua_programs s' = lua_programs s →
  ∀ b, b ≠ AdIc10 i → adapter_snapshot s' b = adapter_snapshot s b.
Proof.
  intros Hc Hl [j|j] Hne; unfold adapter_snapshot; simpl; unfold sim_ic10_snapshot, sim_lua_snapshot; rewrite ?Hc, ?Hl.
  - by rewrite list_lookup_insert_ne by congruence.
  - done.
Qed.

Lemma lua_snapshot_update s s' i r :
  lua_programs s' = <[i := r]> (lua_programs s) → cpus s' = cpus s →
  ∀ b, b ≠ AdLua i → adapter_snapshot s' b = adapter_snapshot s b.
Proof.
  intros Hl Hc [j|j] Hne; unfold adapter_snapshot; simpl; unfold sim_ic10_snapshot, sim_lua_snapshot; rewrite ?Hc, ?Hl.
  - done.
  - by rewrite list_lookup_insert_ne by congruence.
Qed.

(** One runtime put back: it is captured as it was, and no other is touched. *)
Lemma adapter_restore_run a saved s :
  runtime_exists s a → same_language a saved →
  ∃ s', adapter_restore a saved s = (Ok (), s') ∧ adapter_snapshot s' a = Ok saved
    ∧ (∀ b, b ≠ a → adapter_snapshot s' b = adapter_snapshot s b) ∧ shared s' = shared s.
Proof.
  intros Hex Hlang. destruct a as [i|i], saved as [saved|saved]; try done; simpl in Hex.
  - apply lookup_lt_is_Some_2 in Hex as [c Hc]. eexists. split_and!.
    + unfold adapter_restore. simpl. unfold sim_ic10_restore.
      rewrite (bind_run _ _ s (Some c) s) by (unfold gets; by rewrite Hc).
      rewrite (bind_run _ _ s c s) by done. unfold alter_cpu. rewrite Hc. reflexivity.
    + unfold adapter_snapshot. simpl. unfold sim_ic10_snapshot. cbn [cpus sim_set_cpus].
      rewrite list_lookup_insert_eq by (by eapply lookup_lt_Some). simpl. by destruct saved.
    + by eapply ic10_snapshot_update.
    + unfold shared. simpl. by rewrite length_insert.
  - apply lookup_lt_is_Some_2 in Hex as [r Hr]. eexists. split_and!.
    + unfold adapter_restore. simpl. unfold sim_lua_restore, alter_lua.
      rewrite (bind_run _ _ s (world s) s) by done.
      rewrite (bind_run _ _ s (Some r) s) by (unfold gets; by rewrite Hr).
      rewrite (bind_run _ _ s r s) by done. reflexivity.
    + unfold adapter_snapshot. simpl. unfold sim_lua_snapshot. cbn [lua_programs sim_set_lua_programs].
      rewrite list_lookup_insert_eq by (by eapply lookup_lt_Some). simpl. by rewrite lua_restore_snapshot.
    + by eapply lua_snapshot_update.
    + unfold shared. simpl. by rewrite length_insert.
Qed.

Lemma map_outcome_agree {E A B} (f g : A → outcome E B) l l' a :
  map_outcome f l = Ok l' → map_outcome g l = Ok l' → a ∈ l → f a = g a.
Proof.
  intros Hf%map_outcome_elem Hg%map_outcome_elem [i Hi]%list_elem_of_lookup_1.
  destruct (Forall2_lookup_l _ _ _ _ _ Hf Hi) as (b & Hb & ->).
  destruct (Forall2_lookup_l _ _ _ _ _ Hg Hi) as (b' & Hb' & ->). congruence.
Qed.

(** All runtimes put back. *)
Lemma restore_all_run ads saved s :
  NoDup ads → Forall (runtime_exists s) ads → Forall2 same_language ads saved →
  ∃ s', for_each (λ '(a, saved), adapter_restore a saved) (zip ads saved) s = (Ok (), s')
    ∧ map_outcome (adapter_snapshot s') ads = Ok saved
    ∧ (∀ b, b ∉ ads → adapter_snapshot s' b = adapter_snapshot s b) ∧ shared s' = shared s.
Proof.
  intros Hnd. revert saved s. induction Hnd as [|a ads Hni Hnd IH]; intros saved s Hex Hlang.
  { apply Forall2_nil_inv_l in Hlang as ->. by exists s. }
  apply Forall2_cons_inv_l in Hlang as (x & saved' & Hx & Hlang & ->). apply Forall_cons in Hex as [Ha Hex].
  destruct (adapter_restore_run a x s Ha Hx) as (s1 & Hrun & Hsnap & Hother & Hshared).
  destruct (IH saved' s1) as (s2 & Hrun2 & Hall & Hother2 & Hshared2); [|done|].
  { eapply Forall_impl; [exact Hex|]. unfold shared in Hshared. injection Hshared as _ _ _ _ _ _ _ _ _ Hc Hl.
    intros [i|i]; unfold runtime_exists; lia. }
  exists s2. cbn [zip zip_with for_each]. rewrite (bind_run _ _ _ _ _ Hrun). split_and!; [done| | |congruence].
  - simpl. rewrite Hother2 by done. rewrite Hsnap. simpl. by rewrite Hall.
  - intros b [Hne Hb]%not_elem_of_cons. by rewrite Hother2, Hother.
Qed.

(** What the hash takes of a processor, from its checkpoint. *)
Definition snapshot_hash_bytes (x : Ic10RuntimeSnapshot) : list Z :=
  (u64_bytes (ss_pc x) ++ le_bytes 4 (ss_operations_this_tick x) ++ u64_bytes (ss_random_state x)
   ++ bytes (cpu_state_debug (ss_state x))
   ++ match ss_error x with Some e => bytes (message_text e) | None => [] end
   ++ concat (f64_bytes <$> ss_registers x ++ ss_stack x))%list.

Lemma cpus_hash_bytes s s' :
  length (cpus s') = length (cpus s) →
  (∀ i, (i < length (cpus s))%nat → adapter_snapshot s' (AdIc10 i) = adapter_snapshot s (AdIc10 i)) →
  cpu_hash_bytes <$> cpus s' = cpu_hash_bytes <$> cpus s.
Proof.
  intros Hlen Hsnap. apply list_eq_same_length with (n:=length (cpus s)); [by rewrite length_fmap|by rewrite length_fmap, Hlen|].
  intros i x y Hi Hx Hy. rewrite list_lookup_fmap in Hx, Hy. apply fmap_Some in Hx as (c' & Hc' & ->), Hy as (c & Hc & ->).
  specialize (Hsnap i Hi). unfold adapter_snapshot in Hsnap. simpl in Hsnap. unfold sim_ic10_snapshot in Hsnap.
  rewrite Hc, Hc' in Hsnap. injection Hsnap as Hr Hs _ Hp Hst He Ho Hra.
  unfold cpu_hash_bytes. by rewrite Hr, Hs, Hp, Hst, He, Ho, Hra.
Qed.
(** The run of a restoration: the shared parts are those of the checkpoint, and it can be
    taken again. *)
Lemma restore_run (s s1 : Simulator) (snap : SimulatorSnapshot) :
  snapshot s = Ok snap →
  NoDup (sim_schedule s) →
  sim_schedule s1 = sim_schedule s → length (cpus s1) = length (cpus s) →
  length (lua_programs s1) = length (lua_programs s) →
  length (devices (world s1)) = length (devices (world s)) →
  length (networks (world s1)) = length (networks (world s)) →
  ∃ s2, restore snap s1 = (Ok (), s2) ∧ snapshot s2 = Ok snap ∧ shared s2 = shared (restore_shared snap s1).
Proof.
  intros Hsnap Hnd Hsched Hcpus Hlua Hdev Hnet. unfold snapshot in Hsnap.
  destruct (map_outcome _ _) as [saved| |] eqn:Hm; [|done..]. injection Hsnap as <-.
  unfold adapters in Hm. pose proof (map_outcome_length _ _ _ Hm) as Hlen.
  pose proof (map_outcome_elem _ _ _ Hm) as Hall2.
  unfold restore. rewrite (bind_run _ _ s1 (sim_schedule s1) s1) by done. rewrite (bind_run _ _ s1 (world s1) s1) by done.
  unfold adapter_count, adapters. cbn [sn_runtimes sn_world]. rewrite Hsched, Hlen, Hdev, Hnet, !Nat.eqb_refl. cbn [negb orb].
  rewrite (bind_run _ _ s1 () (restore_shared _ s1)) by done.
  match goal with |- context [for_each _ _ ?st] => set (s1' := st) end.
  destruct (restore_all_run (sim_schedule s) saved s1' Hnd) as (s2 & Hrun & Hmap & _ & Hshared).
  { apply Forall_forall. intros a Ha. apply list_elem_of_lookup_1 in Ha as [k Hk].
    destruct (Forall2_lookup_l _ _ _ _ _ Hall2 Hk) as (x & _ & Hx%adapter_snapshot_exists).
    destruct a as [i|i]; simpl in *; lia. }
  { eapply Forall2_impl; [exact Hall2|]. intros a b. apply adapter_snapshot_language. }
  exists s2. split_and!; [exact Hrun| |exact Hshared].
  unfold shared in Hshared. injection Hshared as Hk Hw Ht Hsch Hslot He Hb Hd Hj Hc Hl.
  assert (sim_schedule s2 = sim_schedule s) as Hs2 by (rewrite Hsch; exact Hsched).
  unfold snapshot, adapters. rewrite Hs2, Hmap, Hw, Ht, Hslot, He, Hb, Hd, Hj. done.
Qed.

(** Two states with the same checkpoint have the same hash. *)
Lemma snapshot_hash (s s2 : Simulator) (snap : SimulatorSnapshot) :
  snapshot s = Ok snap → snapshot s2 = Ok snap → sim_schedule s2 = sim_schedule s → length (cpus s2) = length (cpus s) →
  (∀ i, (i < length (cpus s))%nat → AdIc10 i ∈ sim_schedule s) → state_hash s2 = state_hash s.
Proof.
  intros Hs Hs2 Hsched Hlen Hall. unfold snapshot, adapters in Hs, Hs2. rewrite Hsched in Hs2.
  destruct (map_outcome (adapter_snapshot s) _) as [saved| |] eqn:Hm; [|done..].
  destruct (map_outcome (adapter_snapshot s2) _) as [saved2| |] eqn:Hm2; [|done..].
  injection Hs as <-. injection Hs2 as Hw -> Ht Hslot He Hb Hd Hj.
  assert (cpu_hash_bytes <$> cpus s2 = cpu_hash_bytes <$> cpus s) as Hcs.
  { apply cpus_hash_bytes; [done|]. intros i Hi. exact (map_outcome_agree _ _ _ _ _ Hm2 Hm (Hall i Hi)). }
  unfold state_hash, state_hash_bytes. by rewrite Hcs, Hw, Ht, Hslot, He, Hb, Hd.
Qed.
End restore.

(** C22.  A checkpoint restores: put back into a later state of the same simulation
    it succeeds, the checkpoint taken then is the same checkpoint, and the replay
    hash is the one of the moment it was taken. *)
Theorem restore_snapshot `{Libm} `{Build} `{LuaEngine} `{FloatDisplay} (s s1 : Simulator) (snap : SimulatorSnapshot) :
  snapshot s = Ok snap →
  NoDup (sim_schedule s) → (∀ i, (i < length (cpus s))%nat → AdIc10 i ∈ sim_schedule s) →
  sim_schedule s1 = sim_schedule s → length (cpus s1) = length (cpus s) →
  length (lua_programs s1) = length (lua_programs s) →
  length (devices (world s1)) = length (devices (world s)) →
  length (networks (world s1)) = length (networks (world s)) →
  let '(r, s2) := restore snap s1 in
  r = Ok () ∧ snapshot s2 = Ok snap ∧ state_hash s2 = state_hash s.
Proof.
  intros Hsnap Hnd Hall Hsched Hcpus Hlua Hdev Hnet.
  destruct (restore_run s s1 snap Hsnap Hnd Hsched Hcpus Hlua Hdev Hnet) as (s2 & -> & Hsnap2 & Hshared).
  unfold shared in Hshared. injection Hshared as _ _ _ Hsch _ _ _ _ _ Hc _. simpl in Hsch, Hc.
  split_and!; [done|done|]. apply (snapshot_hash s s2 snap); [done|done|congruence|congruence|done].
Qed.

#[local] Existing Instances sample_libm release_build sample_engine sample_display.

Lemma restore_snapshot_witness :
  match snapshot sample_simulator with
  | Ok snap =>
      let s2 := (restore snap (step_world_tick sample_simulator).2).2 in
      snapshot s2 = Ok snap ∧ state_hash s2 = state_hash sample_simulator
  | _ => False
  end.
Proof.
  destruct (snapshot sample_simulator) as [snap| |] eqn:E; [|vm_compute in E; discriminate E..].
  assert (NoDup (sim_schedule sample_simulator)) as Hnd by (apply (bool_decide_unpack _); vm_compute; exact I).
  assert (∀ i, (i < length (cpus sample_simulator))%nat → AdIc10 i ∈ sim_schedule sample_simulator) as Hall.
  { intros [|[|i]] Hi; simpl in *; [left|right; right; left|lia]. }
  pose proof (restore_snapshot sample_simulator (step_world_tick sample_simulator).2 snap E Hnd Hall) as Hr.
  assert (sim_schedule (step_world_tick sample_simulator).2 = sim_schedule sample_simulator) as H1 by (vm_compute; reflexivity).
  assert (length (cpus (step_world_tick sample_simulator).2) = length (cpus sample_simulator)) as H2 by (vm_compute; reflexivity).
  assert (length (lua_programs (step_world_tick sample_simulator).2) = length (lua_programs sample_simulator)) as H3
    by (vm_compute; reflexivity).
  assert (length (devices (world (step_world_tick sample_simulator).2)) = length (devices (world sample_simulator))) as H4
    by (vm_compute; reflexivity).
  assert (length (networks (world (step_world_tick sample_simulator).2)) = length (networks (world sample_simulator))) as H5
    by (vm_compute; reflexivity).
  specialize (Hr H1 H2 H3 H4 H5). destruct (restore snap _) as [r s2]. destruct Hr as (_ & Hs & Hh).
  split; [exact Hs|exact Hh].
Defined.

(** ** Recorded edits replay *)

(** The edits a debugger or a driver makes. *)
Inductive Edit :=
  | EditRegister (cpu : nat) (register : Z) (value : f64)
  | EditStack (cpu : nat) (address : Z) (value : f64)
  | EditField (device_id field : string) (value : f64)
  | EditSlot (device : nat) (slot : Z) (field : string) (value : f64)
  | EditMemory (device : nat) (address : Z) (value : f64)
  | EditChannel (network : nat) (channel : Z) (value : f64).

Definition edit_value (e : Edit) : f64 :=
  match e with
  | EditRegister _ _ v | EditStack _ _ v | EditField _ _ v | EditSlot _ _ _ v | EditMemory _ _ v | EditChannel _ _ v => v
  end.

(** The position fits the width it is recorded with. *)
Definition edit_fits (e : Edit) : Prop :=
  match e with
  | EditRegister _ i _ | EditChannel _ i _ => 0 ≤ i < 2 ^ 8
  | EditStack _ i _ | EditSlot _ i _ _ => 0 ≤ i < 2 ^ 16
  | EditMemory _ i _ => 0 ≤ i < 2 ^ 32
  | EditField _ _ _ => True
  end.

Section replay.
Context `{Libm} `{Build} `{LuaEngine} `{FloatDisplay}.

Definition run_edit (e : Edit) (actor : EffectActor) : M Simulator message () :=
  match e with
  | EditRegister cpu register v => set_register_as cpu register v actor
  | EditStack cpu address v => set_stack_as cpu address v actor
  | EditField device_id field v => set_device_field_as device_id field v actor
  | EditSlot device slot field v => set_device_slot_as device slot field v actor
  | EditMemory device address v => set_device_memory_as device address v actor
  | EditChannel network channel v => set_network_channel_as network channel v actor
  end.

(** The journal after a write of [value] at a target. *)
Definition wrote (actor : EffectActor) (target : EffectTarget) (before value : f64) (j : EffectJournal) : EffectJournal :=
  push_write {| w_actor := actor; w_target := target; w_before_bits := to_bits before;
                w_after_bits := to_bits value; w_attempted := true |} j.

Lemma write_enabled actor target before value j :
  enabled j = true → write actor target before value j = wrote actor target before value j.
Proof. intros He. unfold write, write_bits. by rewrite He. Qed.

Lemma wrote_effects actor target before value j :
  sq_effect <$> write_history (wrote actor target before value j) =
    ((sq_effect <$> write_history j) ++ [{| w_actor := actor; w_target := target; w_before_bits := to_bits before;
                                           w_after_bits := to_bits value; w_attempted := true |}])%list.
Proof. unfold wrote, push_write. simpl. by rewrite fmap_app. Qed.

(** The state [s'] has recorded one more write than [s], and replaying that write on
    [s] leads to [s']. *)
Definition replays (actor : EffectActor) (s s' : Simulator) : Prop :=
  ∃ w, sq_effect <$> write_history (journal s') = ((sq_effect <$> write_history (journal s)) ++ [w])%list
    ∧ w_actor w = actor ∧ apply_write_effect w (sim_set_journal (journal s') s) = (Ok (), s').

Lemma replay_register cpu register value actor s s' :
  enabled (journal s) = true → f_valid value → 0 ≤ register < 2 ^ 8 →
  set_register_as cpu register value actor s = (Ok (), s') → replays actor s s'.
Proof.
  intros Hen Hv Hfit Hrun. unfold set_register_as in Hrun.
  apply bind_Ok_inv in Hrun as (oc & s1 & [= <- <-] & Hrun).
  apply bind_Ok_inv in Hrun as (before & s1 & [Hb%ok_or_Ok ->]%lift_Ok_inv & Hrun).
  apply bind_Ok_inv in Hrun as (u & s1 & Halter & [= <-]).
  destruct (cpus s !! cpu) as [c|] eqn:Hc; [|done]. unfold alter_cpu in Halter. rewrite Hc in Halter.
  injection Halter as _ <-. simpl in Hb. cbn [journal sim_set_cpus]. rewrite write_enabled by done.
  eexists. split_and!; [apply wrote_effects|reflexivity|].
  unfold apply_write_effect. cbn [w_target w_after_bits]. rewrite wrap_u_small by lia.
  rewrite bind_gets. cbn [cpus sim_set_journal]. rewrite Hc. cbn [mbind option_bind]. rewrite Hb, bind_lift_Some.
  unfold alter_cpu. cbn [cpus sim_set_journal]. rewrite Hc.
  by rewrite from_to_bits.
Qed.

Lemma replay_stack cpu address value actor s s' :
  enabled (journal s) = true → f_valid value → 0 ≤ address < 2 ^ 16 →
  set_stack_as cpu address value actor s = (Ok (), s') → replays actor s s'.
Proof.
  intros Hen Hv Hfit Hrun. unfold set_stack_as in Hrun.
  apply bind_Ok_inv in Hrun as (oc & s1 & [= <- <-] & Hrun).
  apply bind_Ok_inv in Hrun as (before & s1 & [Hb%ok_or_Ok ->]%lift_Ok_inv & Hrun).
  apply bind_Ok_inv in Hrun as (u & s1 & Halter & [= <-]).
  destruct (cpus s !! cpu) as [c|] eqn:Hc; [|done]. unfold alter_cpu in Halter. rewrite Hc in Halter.
  injection Halter as _ <-. simpl in Hb. cbn [journal sim_set_cpus]. rewrite write_enabled by done.
  eexists. split_and!; [apply wrote_effects|reflexivity|].
  unfold apply_write_effect. cbn [w_target w_after_bits]. rewrite wrap_u_small by lia.
  rewrite bind_gets. cbn [cpus sim_set_journal]. rewrite Hc. cbn [mbind option_bind]. rewrite Hb, bind_lift_Some.
  unfold alter_cpu. cbn [cpus sim_set_journal]. rewrite Hc.
  by rewrite from_to_bits.
Qed.

Lemma replay_memory device address value actor s s' :
  enabled (journal s) = true → f_valid value → 0 ≤ address < 2 ^ 32 →
  set_device_memory_as device address value actor s = (Ok (), s') → replays actor s s'.
Proof.
  intros Hen Hv Hfit Hrun. unfold set_device_memory_as in Hrun.
  apply bind_Ok_inv in Hrun as (d & s1 & Hd & Hrun). unfold sim_device, get_or_panic in Hd.
  destruct (devices (world s) !! device) as [d'|] eqn:Hdev; [|done]. injection Hd as <- <-.
  apply bind_Ok_inv in Hrun as (before & s1 & [Hb%ok_or_Ok ->]%lift_Ok_inv & Hrun).
  apply bind_Ok_inv in Hrun as (u & s1 & [= _ <-] & [= <-]).
  cbn [journal sim_set_world]. rewrite write_enabled by done.
  eexists. split_and!; [apply wrote_effects|reflexivity|].
  unfold apply_write_effect. cbn [w_target w_after_bits]. rewrite wrap_u_small by lia.
  rewrite (bind_run _ _ _ d' (sim_set_journal _ s)) by (unfold sim_device, get_or_panic; cbn [world sim_set_journal]; by rewrite Hdev).
  rewrite Hb, bind_lift_Some. by rewrite from_to_bits.
Qed.

Lemma replay_channel network channel value actor s s' :
  enabled (journal s) = true → f_valid value → 0 ≤ channel < 2 ^ 8 →
  set_network_channel_as network channel value actor s = (Ok (), s') → replays actor s s'.
Proof.
  intros Hen Hv Hfit Hrun. unfold set_network_channel_as in Hrun.
  apply bind_Ok_inv in Hrun as (n & s1 & Hn & Hrun). unfold sim_network, get_or_panic in Hn.
  destruct (networks (world s) !! network) as [n'|] eqn:Hnet; [|done]. injection Hn as <- <-.
  apply bind_Ok_inv in Hrun as (before & s1 & [Hb%expect_Ok ->]%lift_Ok_inv & Hrun).
  apply bind_Ok_inv in Hrun as (u & s1 & [= _ <-] & [= <-]).
  cbn [journal sim_set_world]. rewrite write_enabled by done.
  eexists. split_and!; [apply wrote_effects|reflexivity|].
  unfold apply_write_effect. cbn [w_target w_after_bits]. rewrite wrap_u_small by lia.
  rewrite (bind_run _ _ _ n' (sim_set_journal _ s)) by (unfold sim_network, get_or_panic; cbn [world sim_set_journal]; by rewrite Hnet).
  rewrite Hb. cbn [expect]. rewrite bind_lift_Ok. by rewrite from_to_bits.
Qed.

(** A write under an interned name, when the journal is on. *)
Lemma write_named_run name actor target before value s s' :
  enabled (journal s) = true → sim_write_named name actor target before value s = (Ok (), s') →
  s' = sim_set_journal (wrote actor (target (intern name (journal s)).1) before value (intern name (journal s)).2) s.
Proof.
  intros Hen. unfold sim_write_named, sim_journal_enabled, is_enabled. rewrite bind_gets, Hen. cbn [when].
  unfold sim_intern, mbind, M_mbind. pose proof (intern_enabled name (journal s)) as He.
  destruct (intern name (journal s)) as [id j]. cbn [fst snd] in *. intros [= <-]. cbn [journal sim_set_journal].
  by rewrite write_enabled by congruence.
Qed.

Lemma replay_slot device slot field value actor s s' :
  enabled (journal s) = true → symbols_ok (journal s) → Z.of_nat (length (symbols (journal s))) + 1 < 2 ^ 32 →
  f_valid value → 0 ≤ slot < 2 ^ 16 →
  set_device_slot_as device slot field value actor s = (Ok (), s') → replays actor s s'.
Proof.
  intros Hen Hsym Hroom Hv Hfit Hrun. unfold set_device_slot_as in Hrun.
  apply bind_Ok_inv in Hrun as (d & s1 & Hd & Hrun). unfold sim_device, get_or_panic in Hd.
  destruct (devices (world s) !! device) as [d'|] eqn:Hdev; [|done]. injection Hd as <- <-.
  apply bind_Ok_inv in Hrun as (before & s1 & [Hb%ok_or_Ok ->]%lift_Ok_inv & Hrun).
  apply bind_Ok_inv in Hrun as (u & s1 & [= _ <-] & Hrun).
  apply write_named_run in Hrun; [|done]. cbn [journal sim_set_world] in Hrun.
  pose proof (intern_self field (journal s) Hsym Hroom) as Hres. pose proof (intern_history field (journal s)) as Hhist.
  destruct (intern field (journal s)) as [id j]. cbn [fst snd] in *. subst s'. cbn [journal sim_set_journal].
  eexists. split_and!; [etransitivity; [apply wrote_effects|by rewrite Hhist]|reflexivity|].
  unfold apply_write_effect, symbol_of. cbn [w_target w_after_bits]. rewrite wrap_u_small by lia.
  rewrite (bind_run _ _ _ field (sim_set_journal (wrote actor (TDeviceSlot device slot id) before value j) s)).
  2: { rewrite bind_gets. cbn [journal sim_set_journal]. unfold wrote, push_write, resolve in *. simpl. by rewrite Hres. }
  rewrite (bind_run _ _ _ d' (sim_set_journal (wrote actor (TDeviceSlot device slot id) before value j) s))
    by (unfold sim_device, get_or_panic; cbn [world sim_set_journal]; by rewrite Hdev).
  destruct (bt_get slot (slots d')) as [fs|]; [|done]. rewrite bind_lift_Some. by rewrite from_to_bits.
Qed.

Lemma replay_field device_id field value actor s s' :
  enabled (journal s) = true → symbols_ok (journal s) → Z.of_nat (length (symbols (journal s))) + 1 < 2 ^ 32 →
  f_valid value → set_device_field_as device_id field value actor s = (Ok (), s') → replays actor s s'.
Proof.
  intros Hen Hsym Hroom Hv Hrun. unfold set_device_field_as in Hrun.
  apply bind_Ok_inv in Hrun as (oi & s1 & [= <- <-] & Hrun).
  apply bind_Ok_inv in Hrun as (index & s1 & [Hi%ok_or_Ok ->]%lift_Ok_inv & Hrun).
  apply bind_Ok_inv in Hrun as (d & s1 & Hd & Hrun). unfold sim_device, get_or_panic in Hd.
  destruct (devices (world s) !! index) as [d'|] eqn:Hdev; [|done]. injection Hd as <- <-.
  apply bind_Ok_inv in Hrun as (before & s1 & [Hb%ok_or_Ok ->]%lift_Ok_inv & Hrun).
  apply bind_Ok_inv in Hrun as (u & s1 & [= _ <-] & Hrun).
  apply bind_Ok_inv in Hrun as ([] & s1 & Hw & [= <-]).
  apply write_named_run in Hw; [|done]. cbn [journal sim_set_world] in Hw.
  pose proof (intern_self field (journal s) Hsym Hroom) as Hres. pose proof (intern_history field (journal s)) as Hhist.
  destruct (intern field (journal s)) as [id j]. cbn [fst snd] in *. subst s1. cbn [journal sim_set_journal sim_set_behaviours].
  eexists. split_and!; [etransitivity; [apply wrote_effects|by rewrite Hhist]|reflexivity|].
  unfold apply_write_effect, symbol_of. cbn [w_target w_after_bits].
  rewrite (bind_run _ _ _ field (sim_set_journal (wrote actor (TDeviceField index id) before value j) s)).
  2: { rewrite bind_gets. cbn [journal sim_set_journal]. unfold wrote, push_write, resolve in *. simpl. by rewrite Hres. }
  rewrite (bind_run _ _ _ d' (sim_set_journal (wrote actor (TDeviceField index id) before value j) s))
    by (unfold sim_device, get_or_panic; cbn [world sim_set_journal]; by rewrite Hdev).
  rewrite Hb, from_to_bits by done. done.
Qed.
End replay.

(** C26.  A recorded edit replays: with the journal on, an edit that succeeds records
    exactly one write, in the name of its actor, and applying that write to the state
    before the edit gives the state after it, when the slot of the edit fits 16 bits and
    its address 32, as an effect holds them.  The edits are those of a register, a
    stack cell, a device field, a slot field, a memory cell and a channel. *)
Theorem edit_replays `{Libm} `{Build} `{LuaEngine} `{FloatDisplay} (e : Edit) (actor : EffectActor)
    (s s' : Simulator) :
  enabled (journal s) = true → symbols_ok (journal s) → Z.of_nat (length (symbols (journal s))) + 1 < 2 ^ 32 →
  f_valid (edit_value e) → edit_fits e →
  run_edit e actor s = (Ok (), s') → replays actor s s'.
Proof.
  intros Hen Hsym Hroom Hv Hfit Hrun. destruct e; simpl in *.
  - by eapply replay_register.
  - by eapply replay_stack.
  - by eapply replay_field.
  - by eapply replay_slot.
  - by eapply replay_memory.
  - by eapply replay_channel.
Qed.

Definition journaled_simulator : Simulator :=
  sim_set_journal (set_enabled true journal_default) sample_simulator.

Lemma journal_default_ok b : symbols_ok (set_enabled b journal_default).
Proof. by destruct b. Qed.

Lemma edit_replays_witness :
  replays ActorDebugger journaled_simulator
    (set_device_field_as "h" "Setting" f_one ActorDebugger journaled_simulator).2.
Proof.
  apply (edit_replays (EditField "h" "Setting" f_one) ActorDebugger).
  - reflexivity.
  - apply journal_default_ok.
  - reflexivity.
  - reflexivity.
  - exact I.
  - vm_compute. reflexivity.
Defined.

(** ** Seeds *)

Definition GOLDEN_INVERSE : Z := 17428512612931826493.

Lemma golden_cancel a b : wrap_u 64 (a * GOLDEN) = wrap_u 64 (b * GOLDEN) → wrap_u 64 a = wrap_u 64 b.
Proof.
  unfold wrap_u. intros He. assert (∀ x, x mod 2 ^ 64 = ((x * GOLDEN) mod 2 ^ 64 * GOLDEN_INVERSE) mod 2 ^ 64) as Hi.
  { intros x. rewrite Z.mul_mod_idemp_l by lia. rewrite <-Z.mul_assoc, <-(Z.mul_mod_idemp_r x) by lia.
    assert ((GOLDEN * GOLDEN_INVERSE) mod 2 ^ 64 = 1) as -> by (vm_compute; reflexivity). by rewrite Z.mul_1_r. }
  by rewrite (Hi a), (Hi b), He.
Qed.

Lemma seed_state_inj seed seed' h h' :
  seed_state seed h = seed_state seed' h' →
  (seed + Z.of_nat h) mod 2 ^ 64 = (seed' + Z.of_nat h') mod 2 ^ 64.
Proof.
  intros He%golden_cancel. unfold wrap_u in He. rewrite !Z.mod_mod in He by lia.
  assert (∀ x, x = x + 1 - 1) as Hx by (intros; lia).
  rewrite (Hx (seed + _)), (Hx (seed' + _)), <-Zminus_mod_idemp_l, <-(Zminus_mod_idemp_l (seed' + _ + 1)).
  by rewrite <-!Z.add_assoc, He.
Qed.

(** A seed gives every processor a stream of its own: the random states of
    processors in different housings differ, two seeds never give a processor the same
    state, and a state is a 64-bit number.  The state is zero, from which the stream
    never leaves, exactly for the seed that is the negation of the housing's number. *)
Theorem seed_streams (seed seed' : Z) (h h' : nat) :
  0 ≤ seed < 2 ^ 64 → 0 ≤ seed' < 2 ^ 64 → Z.of_nat h < 2 ^ 63 → Z.of_nat h' < 2 ^ 63 →
  (h ≠ h' → seed_state seed h ≠ seed_state seed h')
  ∧ (seed ≠ seed' → seed_state seed h ≠ seed_state seed' h)
  ∧ 0 ≤ seed_state seed h < 2 ^ 64
  ∧ (seed_state seed h = 0 ↔ seed = 2 ^ 64 - (Z.of_nat h + 1)).
Proof.
  intros Hs Hs' Hh Hh'.
  assert (∀ a b, a mod 2 ^ 64 = b mod 2 ^ 64 → - 2 ^ 64 < a - b < 2 ^ 64 → a = b) as Hmod.
  { intros a b He Hr. assert ((a - b) mod 2 ^ 64 = 0) as H0 by (rewrite Zminus_mod, He, Z.sub_diag; done).
    apply Z.mod_divide in H0 as [k Hk]; [|lia]. assert (k = 0) by nia. lia. }
  assert (0 ≤ seed_state seed h < 2 ^ 64) as Hrange by (unfold seed_state; apply wrap_u_range; lia).
  split_and!.
  - intros Hne He%seed_state_inj. apply Hne. apply Hmod in He; lia.
  - intros Hne He%seed_state_inj. apply Hne. apply Hmod in He; lia.
  - apply Hrange.
  - apply Hrange.
  - split.
    + intros He. change 0 with (wrap_u 64 (0 * GOLDEN)) in He. apply golden_cancel in He.
      unfold wrap_u in He. rewrite Z.mod_mod in He by lia.
      change (0 mod 2 ^ 64) with (2 ^ 64 mod 2 ^ 64) in He. apply Hmod in He; lia.
    + intros ->. unfold seed_state. replace (_ + _) with (2 ^ 64) by lia. done.
Qed.

Lemma seed_streams_witness :
  seed_state 42 0 ≠ seed_state 42 1 ∧ seed_state (2 ^ 64 - 1) 0 = 0 ∧ xorshift (seed_state (2 ^ 64 - 1) 0) = 0.
Proof.
  destruct (seed_streams 42 (2 ^ 64 - 1) 0 1) as (H1 & _); [vm_compute; split; [discriminate|reflexivity]..|reflexivity|reflexivity|].
  destruct (seed_streams (2 ^ 64 - 1) 42 0 1) as (_ & _ & _ & H2);
    [vm_compute; split; [discriminate|reflexivity]..|reflexivity|reflexivity|].
  split; [apply H1; discriminate|]. assert (seed_state (2 ^ 64 - 1) 0 = 0) as Hz by (apply H2; reflexivity).
  split; [exact Hz|]. rewrite Hz. reflexivity.
Defined.

(** ** States of a processor as bits *)

Definition wake_fits (st : CpuState) : Prop :=
  match st with WaitingUntil wake => 0 ≤ wake < 2 ^ 60 | _ => True end.

Lemma testbit_60 v : 0 ≤ v < 2 ^ 60 → Z.testbit v 60 = false.
Proof.
  intros Hv. apply Z.bits_above_log2; [lia|]. destruct (Z.eq_dec v 0) as [->|]; [simpl; lia|].
  apply Z.log2_lt_pow2; lia.
Qed.

(** The bits recorded for a processor state decode to that state, for every wake
    tick that leaves bit 60, the mark of a waiting state, free. *)
Theorem cpu_state_bits_roundtrip (st : CpuState) :
  wake_fits st → cpu_state_from_bits (cpu_state_bits st) = Ok st.
Proof.
  destruct st as [|wake| |]; try done. intros Hw. simpl in Hw.
  assert (Z.lor (2 ^ 60) wake = 2 ^ 60 + wake) as Hor.
  { rewrite Z.add_nocarry_lxor, Z.lxor_lor; try done; apply Z.bits_inj'; intros n Hn;
      rewrite Z.land_spec, Z.bits_0; (destruct (Z.eq_dec n 60) as [->|]; [by rewrite (testbit_60 wake), andb_false_r|]);
      by rewrite Z.pow2_bits_false. }
  unfold cpu_state_from_bits, cpu_state_bits. rewrite Hor. repeat rewrite (proj2 (Z.eqb_neq _ _)) by lia.
  rewrite <-Hor. assert (Z.land (Z.lor (2 ^ 60) wake) (2 ^ 60) = 2 ^ 60) as ->.
  { apply Z.bits_inj'. intros n Hn. rewrite Z.land_spec, Z.lor_spec. by destruct (Z.testbit (2 ^ 60) n), (Z.testbit wake n). }
  cbn [Z.eqb negb]. do 2 f_equal. apply Z.bits_inj'. intros n Hn. rewrite Z.ldiff_spec, Z.lor_spec.
  destruct (Z.eq_dec n 60) as [->|]; [by rewrite (testbit_60 wake), Z.pow2_bits_true|].
  rewrite Z.pow2_bits_false by lia. by rewrite andb_true_r.
Qed.

Lemma cpu_state_bits_roundtrip_witness :
  cpu_state_from_bits (cpu_state_bits (WaitingUntil 77)) = Ok (WaitingUntil 77).
Proof. apply cpu_state_bits_roundtrip. simpl. lia. Defined.

(** A wake tick with bit 60 set comes back without it. *)
Example late_wake_is_lost :
  cpu_state_from_bits (cpu_state_bits (WaitingUntil (2 ^ 60 + 77))) = Ok (WaitingUntil 77).
Proof. vm_compute. reflexivity. Qed.

(** ** Hashes *)

Definition FNV_INVERSE : Z := 14886173955864302971.

Lemma fnv_step_inj h h' b b' :
  0 ≤ h < 2 ^ 64 → 0 ≤ h' < 2 ^ 64 → 0 ≤ b < 256 → 0 ≤ b' < 256 →
  fnv_step h b = fnv_step h' b' → Z.lxor h b = Z.lxor h' b'.
Proof.
  intros Hh Hh' Hb Hb'. unfold fnv_step, wrap_u. intros He.
  assert (∀ x, 0 ≤ x < 2 ^ 64 → x = ((x * FNV_PRIME) mod 2 ^ 64 * FNV_INVERSE) mod 2 ^ 64) as Hi.
  { intros x Hx. rewrite Z.mul_mod_idemp_l by lia. rewrite <-Z.mul_assoc, <-(Z.mul_mod_idemp_r x) by lia.
    assert ((FNV_PRIME * FNV_INVERSE) mod 2 ^ 64 = 1) as -> by (vm_compute; reflexivity).
    by rewrite Z.mul_1_r, Z.mod_small. }
  rewrite (Hi (Z.lxor h b)), (Hi (Z.lxor h' b')), He; [done|apply lxor_range; lia..].
Qed.

Lemma fnv_step_range h b : 0 ≤ fnv_step h b < 2 ^ 64.
Proof. unfold fnv_step. apply wrap_u_range. lia. Qed.

Lemma fnv_add_range l h : 0 ≤ h < 2 ^ 64 → 0 ≤ fnv_add l h < 2 ^ 64.
Proof.
  unfold fnv_add. revert h. induction l as [|b l IH]; intros h Hh; simpl; [done|]. apply IH, fnv_step_range.
Qed.

Lemma fnv_add_app l l' h : fnv_add (l ++ l') h = fnv_add l' (fnv_add l h).
Proof. unfold fnv_add. apply foldl_app. Qed.

Lemma fnv_add_inj l h h' :
  0 ≤ h < 2 ^ 64 → 0 ≤ h' < 2 ^ 64 → Forall (λ b, 0 ≤ b < 256) l → fnv_add l h = fnv_add l h' → h = h'.
Proof.
  unfold fnv_add. revert h h'. induction l as [|b l IH]; intros h h' Hh Hh' Hl; simpl; [done|].
  apply Forall_cons in Hl as [Hb Hl]. intros He%IH; [|apply fnv_step_range..|done].
  apply fnv_step_inj in He; [|done..]. rewrite !(Z.lxor_comm _ b) in He. by apply lxor_cancel_l in He.
Qed.

(** Hashes of 64 bits never collide on a single change: two byte sequences of the
    same length that differ in one byte have different hashes. *)
Theorem fnv_distinguishes (prefix suffix : list Z) (a b : Z) :
  Forall (λ b, 0 ≤ b < 256) prefix → Forall (λ b, 0 ≤ b < 256) suffix → 0 ≤ a < 256 → 0 ≤ b < 256 →
  0 ≤ stable_bytes_hash (prefix ++ a :: suffix) < 2 ^ 64
  ∧ (a ≠ b → stable_bytes_hash (prefix ++ a :: suffix) ≠ stable_bytes_hash (prefix ++ b :: suffix)).
Proof.
  intros Hp Hs Ha Hb. unfold stable_bytes_hash. assert (0 ≤ FNV_OFFSET < 2 ^ 64) as Ho by (split; vm_compute; done).
  split; [by apply fnv_add_range|]. intros Hne. rewrite !fnv_add_app. cbn [fnv_add foldl].
  pose proof (fnv_add_range prefix FNV_OFFSET Ho) as Hr. set (h := fnv_add prefix FNV_OFFSET) in *.
  change (fnv_add suffix (fnv_step h a) ≠ fnv_add suffix (fnv_step h b)).
  intros He%fnv_add_inj; [|apply fnv_step_range..|done]. apply fnv_step_inj in He; [|done..].
  by apply lxor_cancel_l in He.
Qed.

Lemma fnv_distinguishes_witness : stable_bytes_hash ([1; 2] ++ 3 :: [4])%list ≠ stable_bytes_hash ([1; 2] ++ 7 :: [4])%list.
Proof. apply fnv_distinguishes; repeat constructor; discriminate. Defined.

(** ** Game versions *)

Lemma version_gt_irrefl a : version_gt a a = false.
Proof. induction a as [|x a IH]; simpl; [done|]. by rewrite Z.eqb_refl. Qed.

Lemma version_gt_trans a b c : version_gt a b = true → version_gt b c = true → version_gt a c = true.
Proof.
  revert b c. induction a as [|x a IH]; intros [|y b] [|z c]; simpl; try done.
  destruct (Z.eqb_spec x y), (Z.eqb_spec y z), (Z.eqb_spec x z); try (intros; lia). apply IH.
Qed.

Lemma version_gt_total a b : version_gt a b = false → version_gt b a = false → a = b.
Proof.
  revert b. induction a as [|x a IH]; intros [|y b]; simpl; try done.
  rewrite (Z.eqb_sym y x). destruct (Z.eqb_spec x y) as [->|]; [|intros; lia]. intros H1 H2. f_equal. by apply IH.
Qed.

(** Being newer is a strict order on versions: no version is newer than itself,
    newer than newer is newer, and of two numeric versions one is newer unless their
    components agree.  A version that is not numeric is never newer. *)
Theorem newer_version_order (a b c : string) :
  is_newer_game_version a a = false
  ∧ (is_newer_game_version a b = true → is_newer_game_version b c = true → is_newer_game_version a c = true)
  ∧ (is_newer_game_version a b = true → is_newer_game_version b a = false)
  ∧ (is_Some (version_components a) → is_Some (version_components b) →
     is_newer_game_version a b = false → is_newer_game_version b a = false → version_components a = version_components b)
  ∧ (version_components a = None → is_newer_game_version a b = false).
Proof.
  unfold is_newer_game_version. destruct (version_components a) as [va|], (version_components b) as [vb|];
    (split_and!; [by rewrite ?version_gt_irrefl|..]); try done.
  - destruct (version_components c); [|done]. apply version_gt_trans.
  - intros H1. apply not_true_iff_false. intros H2. pose proof (version_gt_trans _ _ _ H1 H2) as H3.
    by rewrite version_gt_irrefl in H3.
  - intros _ _ H1 H2. f_equal. by apply version_gt_total.
Qed.

Lemma newer_version_order_witness :
  is_newer_game_version "0.2.6404.1" "0.2.6403.27689" = true
  ∧ is_newer_game_version "0.2.6403.27689" "0.2.6404.1" = false.
Proof.
  assert (is_newer_game_version "0.2.6404.1" "0.2.6403.27689" = true) as Hn by (vm_compute; reflexivity).
  split; [exact Hn|].
  destruct (newer_version_order "0.2.6404.1" "0.2.6403.27689" "") as (_ & _ & Ha & _). by apply Ha.
Defined.
