(* ===== verification/Schema.v ===== *)
(** * Scenario test files

    [crates/ic10-runner/src/schema.rs]: the deserialised test file, the checks a file
    passes when it is loaded, and the expression of an assertion.  The file system
    and the JSON of serde are arguments.  A path is its text. *)

From S2P Require Import Prelude BTree Text F64 Knowledge Scenario World.
From Stdlib Require Import Ascii.
Local Open Scope string_scope.
Local Open Scope Z_scope.

(** ** Test files *)

(** Source: [crates/ic10-runner/src/schema.rs] [ScriptAction] *)
Inductive ScriptAction :=
  | ActSet (target : string) (value : Scalar)
  | ActMoveSlot (from to : string)
  | ActPublish (network : string) (channel : Z) (value : Scalar)
  | ActSchedule (after_ticks : Z) (actions : list ScriptAction).

(** Source: [crates/ic10-runner/src/schema.rs] [ScriptTrigger] *)
Record ScriptTrigger := { tr_target : string; tr_equals : option Scalar }.

(** Source: [crates/ic10-runner/src/schema.rs] [ScriptedRule] *)
Record ScriptedRule := {
  ru_name : option string;
  ru_when : ScriptTrigger;
  ru_actions : list ScriptAction;
}.

(** Source: [crates/ic10-runner/src/schema.rs] [ScriptedDriver] *)
Record ScriptedDriver := {
  dr_id : string;
  dr_model : string;
  dr_version : Z;
  dr_rules : list ScriptedRule;
}.

(** Source: [crates/ic10-runner/src/schema.rs] [ExecutionSpec] *)
Inductive ExecutionSpec :=
  | LuaModule (profile : string) (module_roots : list string)
      (memory_limit_bytes max_output_bytes max_modules max_source_bytes max_recursion_depth : Z).

(** Source: [crates/ic10-runner/src/schema.rs] [StateEvent] *)
Record StateEvent := { se_target : string; se_value : Scalar }.

(** Source: [crates/ic10-runner/src/schema.rs] [TimelineEntry] *)
Record TimelineEntry := {
  tl_tick : Z;
  tl_set : BTreeMap string Scalar;
  tl_events : list StateEvent;
}.

(** Source: [crates/ic10-runner/src/schema.rs] [Tolerance] *)
Record Tolerance := { to_absolute : f64; to_relative : f64 }.

(** Source: [crates/ic10-runner/src/schema.rs] [Assertion] *)
Record Assertion := {
  as_expression : option string;
  as_eventually : option string;
  as_always : option string;
  as_at_tick : option Z;
  as_within_ticks : option Z;
  as_expected : option Scalar;
  as_tolerance : option Tolerance;
}.

(** Source: [crates/ic10-runner/src/schema.rs] [ErrorKind] *)
Inductive ErrorKind := KindCompile | KindRuntime.

(** Source: [crates/ic10-runner/src/schema.rs] [ErrorExpectation] *)
Record ErrorExpectation := { ex_kind : ErrorKind; ex_message_contains : option string }.

(** A JSON value as serde_json reads it: a number is kept as its text, an object keeps
    its keys in order. *)
Inductive Json :=
  | JNull
  | JBool (value : bool)
  | JNumber (text : string)
  | JString (text : string)
  | JArray (values : list Json)
  | JObject (values : list (string * Json)).

(** Source: [crates/ic10-runner/src/schema.rs] [ParameterSet] *)
Record ParameterSet := { pa_name : option string; pa_values : BTreeMap string Json }.

(** Source: [crates/ic10-runner/src/schema.rs] [TestCase] *)
Record TestCase := {
  tc_name : string;
  tc_max_ticks : Z;
  tc_max_operations : Z;
  tc_program : option string;
  tc_execution : option ExecutionSpec;
  tc_initial : BTreeMap string Scalar;
  tc_timeline : list TimelineEntry;
  tc_drivers : list ScriptedDriver;
  tc_assertions : list Assertion;
  tc_expect_error : option ErrorExpectation;
  tc_parameters : list ParameterSet;
  tc_snapshot : option (BTreeMap string Scalar);
}.

(** Source: [crates/ic10-runner/src/schema.rs] [ScenarioTest] *)
Record ScenarioTest := {
  st_schema_version : Z;
  st_scenario : string;
  st_seed : Z;
  st_cases : list TestCase;
}.

(** Source: [crates/ic10-runner/src/schema.rs] [TestFileError] *)
Inductive TestFileError :=
  | TestIo (path : string)
  | TestJson (path : string)
  | TestVersion (path : string) (found : Z)
  | TestValidation (path : string) (text : message).

(** The limits of a Lua run, [crates/ic10-sim/src/lua.rs]. *)
Definition LUA_PROFILE_ID : string := "stationeerslua-0.9.5.0-lua5.2-pure-module-v1".
Definition LUA_MAX_INSTRUCTIONS : Z := 10000000.
Definition LUA_MAX_MEMORY_BYTES : Z := 64 * 1024 * 1024.
Definition LUA_MAX_OUTPUT_BYTES : Z := 1024 * 1024.
Definition LUA_MAX_MODULES : Z := 256.
Definition LUA_MAX_SOURCE_BYTES : Z := 4 * 1024 * 1024.
Definition LUA_MAX_RECURSION_DEPTH : Z := 512.

(** ** Paths *)

Definition is_slash (a : ascii) : bool := Ascii.eqb a "/" || Ascii.eqb a (byte 92).

(** [value.starts_with(['/', '\\'])] *)
Definition starts_with_slash (value : string) : bool :=
  match value with String a _ => is_slash a | "" => false end.

(** [matches!(bytes, [drive, b':', ..] if drive.is_ascii_alphabetic())] *)
Definition has_drive (value : string) : bool :=
  match value with
  | String a (String b _) => Ascii.eqb b ":" && is_ascii_alphabetic (byte_of a)
  | _ => false
  end.

(** [value.split(['/', '\\'])] *)
Fixpoint split_slashes (s : string) : list string :=
  match s with
  | "" => [""]
  | String a s' =>
      if is_slash a then "" :: split_slashes s'
      else match split_slashes s' with [] => [String a ""] | l :: ls => String a l :: ls end
  end.

(** An absolute path starts with a slash or a drive, which are refused on their own.
    Source: [crates/ic10-runner/src/schema.rs] [is_workspace_relative_path] *)
Definition is_workspace_relative_path (path : string) : bool :=
  negb (String.eqb (trim path) "") && negb (starts_with_slash path) && negb (has_drive path).

(** Source: [crates/ic10-runner/src/schema.rs] [is_portable_relative_path] *)
Definition is_portable_relative_path (path : string) : bool :=
  negb (String.eqb (trim path) "") && negb (starts_with_slash path) && negb (has_drive path)
  && negb (existsb (String.eqb "..") (split_slashes path)).

(** Source: [crates/ic10-runner/src/schema.rs] [is_obsolete_workspace_path] *)
Definition is_obsolete_workspace_path (path : string) : bool :=
  existsb (λ suffix, ends_with suffix path)
    [".ic10sim.json"; ".ic10test.json"; ".ic10sim.layout.json"; ".stationeerssim.json";
     ".stationeerstest.json"; ".stationeerssim.layout.json"].

(** ** Assertions *)

(** Source: [crates/ic10-runner/src/schema.rs] [expression] *)
Definition expression (assertion : Assertion) : outcome message string :=
  match omap id [as_expression assertion; as_eventually assertion; as_always assertion] with
  | [text] =>
      match as_eventually assertion, as_within_ticks assertion with
      | None, Some _ => Err [PS "`withinTicks` is only valid with `eventually`"]
      | _, _ => Ok text
      end
  | _ => Err [PS "assertion requires exactly one of `expression`, `eventually`, or `always`"]
  end.

(** ** Scripted actions *)

(** Source: [crates/ic10-runner/src/schema.rs] [validate_script_actions] lines 289-313 *)
Fixpoint visit_action (depth count : Z) (action : ScriptAction) : outcome message Z :=
  let count := count + 1 in
  if 1024 <? count then Err [PS "scripted actions exceed limit 1024"]
  else
    match action with
    | ActMoveSlot from to =>
        if String.eqb (trim from) "" || String.eqb (trim to) ""
        then Err [PS "moveSlot requires source and destination slots"] else Ok count
    | ActPublish _ channel _ =>
        if 7 <? channel then Err [PS "publish channel must be from 0 to 7"] else Ok count
    | ActSchedule _ actions =>
        if match actions with [] => true | _ => false end then Err [PS "schedule requires at least one nested action"]
        else if 8 <? depth + 1 then Err [PS "scheduled actions exceed nesting limit 8"]
        else fold_outcome (visit_action (depth + 1)) count actions
    | ActSet _ _ => Ok count
    end.

(** Source: [crates/ic10-runner/src/schema.rs] [validate_script_actions] *)
Definition validate_script_actions (actions : list ScriptAction) : outcome message () :=
  _ ← fold_outcome (visit_action 0) 0 actions; Ok ().

(** ** Validation *)

Definition in_case (case : TestCase) (text : message) : message :=
  PS "case `" :: PS (tc_name case) :: PS "` " :: text.

(** [if condition { return Err(text); }] *)
Definition refuse (condition : bool) (text : message) : outcome message () :=
  if condition then Err text else Ok ().

(** Every element passes, in order. *)
Fixpoint check_all {A} (check : A → outcome message ()) (l : list A) : outcome message () :=
  match l with
  | [] => Ok ()
  | a :: l' => _ ← check a; check_all check l'
  end.

(** The name of the directory a fixture is in is [testing], whatever its case.
    Source: [crates/ic10-runner/src/schema.rs] [load] lines 80-83 *)
Definition fixture_in_testing (parent_name : option string) : bool :=
  match parent_name with Some name => eq_ignore_ascii_case name "testing" | None => false end.

(** A path a Lua test may name. *)
Definition lua_path_allowed (in_testing : bool) (path : string) : bool :=
  is_portable_relative_path path || (in_testing && is_workspace_relative_path path).

(** Source: [crates/ic10-runner/src/schema.rs] [load] lines 71-166 *)
Definition validate_execution (in_testing : bool) (scenario : string) (case : TestCase) : outcome message () :=
  match tc_execution case with
  | None => Ok ()
  | Some (LuaModule profile module_roots memory output modules source recursion) =>
      _ ← refuse (negb (lua_path_allowed in_testing scenario))
        [PS "luaModule execution requires a test-relative scenario path without parent traversal"];
      _ ← refuse (bool_decide (tc_program case = None)) (in_case case [PS "requires focusProgram for luaModule execution"]);
      _ ← refuse (negb (String.eqb profile LUA_PROFILE_ID))
        (in_case case [PS "requests unsupported Lua profile `"; PS profile; PS "`; expected `"; PS LUA_PROFILE_ID; PS "`"]);
      _ ← refuse (existsb (λ root, negb (lua_path_allowed in_testing root)) module_roots)
        (in_case case [PS "requires test-relative moduleRoots"]);
      _ ← refuse ((memory =? 0) || (output =? 0) || (modules =? 0) || (source =? 0) || (recursion =? 0))
        (in_case case [PS "requires positive Lua execution limits"]);
      _ ← refuse ((LUA_MAX_INSTRUCTIONS <? tc_max_operations case) || (LUA_MAX_MEMORY_BYTES <? memory)
                  || (LUA_MAX_OUTPUT_BYTES <? output) || (LUA_MAX_MODULES <? modules)
                  || (LUA_MAX_SOURCE_BYTES <? source) || (LUA_MAX_RECURSION_DEPTH <? recursion))
        (in_case case [PS "exceeds a hard Lua sandbox limit"]);
      refuse (negb (match tc_initial case with [] => true | _ => false end)
              || negb (match tc_timeline case with [] => true | _ => false end)
              || negb (match tc_drivers case with [] => true | _ => false end)
              || negb (match tc_assertions case with [] => true | _ => false end)
              || match tc_snapshot case with Some _ => true | None => false end)
        (in_case case [PS "uses world-only fields with luaModule execution; put assertions in the Lua entry script"])
  end.

(** Source: [crates/ic10-runner/src/schema.rs] [load] lines 167-179 *)
Definition validate_timeline (case : TestCase) : outcome message () :=
  match find_first (λ entry, tc_max_ticks case <? tl_tick entry) (tc_timeline case) with
  | Some entry =>
      Err (in_case case [PS "has timeline tick "; PZ (tl_tick entry); PS " beyond maxTicks "; PZ (tc_max_ticks case)])
  | None => Ok ()
  end.

(** Source: [crates/ic10-runner/src/schema.rs] [load] lines 202-219 *)
Definition validate_rule (case : TestCase) (driver : ScriptedDriver) (rule : ScriptedRule) : outcome message () :=
  _ ← refuse (String.eqb (trim (tr_target (ru_when rule))) ""
              || match ru_actions rule with [] => true | _ => false end)
    (in_case case [PS "driver `"; PS (dr_id driver); PS "` has an incomplete rule"]);
  match validate_script_actions (ru_actions rule) with
  | Err text => Err (in_case case (PS "driver `" :: PS (dr_id driver) :: PS "`: " :: text))
  | r => r
  end.

(** Source: [crates/ic10-runner/src/schema.rs] [load] lines 188-220 *)
Definition validate_driver (case : TestCase) (driver : ScriptedDriver) : outcome message () :=
  _ ← refuse (String.eqb (trim (dr_id driver)) "" || String.eqb (trim (dr_model driver)) "" || (dr_version driver =? 0))
    (in_case case [PS "has an invalid scripted driver identity"]);
  check_all (validate_rule case driver) (dr_rules driver).

Definition rule_count (case : TestCase) : Z :=
  foldr Z.add 0 ((λ driver, Z.of_nat (length (dr_rules driver))) <$> tc_drivers case).

(** Source: [crates/ic10-runner/src/schema.rs] [load] lines 180-227 *)
Definition validate_drivers (case : TestCase) : outcome message () :=
  _ ← refuse (32 <? Z.of_nat (length (tc_drivers case))) (in_case case [PS "exceeds 32 scripted drivers"]);
  _ ← check_all (validate_driver case) (tc_drivers case);
  refuse (256 <? rule_count case) (in_case case [PS "exceeds 256 scripted rules"]).

Definition beyond (case : TestCase) (tick : option Z) : bool :=
  match tick with Some tick => tc_max_ticks case <? tick | None => false end.

(** Source: [crates/ic10-runner/src/schema.rs] [load] lines 229-263 *)
Definition validate_assertion (case : TestCase) (assertion : Assertion) : outcome message () :=
  _ ← match expression assertion with
      | Err text => Err (PS "case `" :: PS (tc_name case) :: PS "`: " :: text)
      | r => r
      end;
  _ ← refuse (beyond case (as_at_tick assertion) || beyond case (as_within_ticks assertion))
    (in_case case [PS "has an assertion deadline beyond maxTicks"]);
  refuse (match as_tolerance assertion with
          | Some tolerance =>
              negb (f_is_finite (to_absolute tolerance)) || negb (f_is_finite (to_relative tolerance))
              || f_lt (to_absolute tolerance) f_zero || f_lt (to_relative tolerance) f_zero
          | None => false
          end)
    (in_case case [PS "has an invalid negative or non-finite tolerance"]).

(** Source: [crates/ic10-runner/src/schema.rs] [load] lines 56-264 *)
Definition validate_case (in_testing : bool) (scenario : string) (case : TestCase) : outcome message () :=
  _ ← refuse (String.eqb (trim (tc_name case)) "") [PS "case names must not be empty"];
  _ ← refuse ((tc_max_ticks case =? 0) || (tc_max_operations case =? 0))
    (in_case case [PS "requires positive maxTicks and maxOperations"]);
  _ ← validate_execution in_testing scenario case;
  _ ← validate_timeline case;
  _ ← validate_drivers case;
  check_all (validate_assertion case) (tc_assertions case).

Section load.
Variable read_file : string → option string.
Variable from_json : string → option ScenarioTest.
Variable parent_name : string → option string.

(** Source: [crates/ic10-runner/src/schema.rs] [load] *)
Definition load (path : string) : outcome TestFileError ScenarioTest :=
  source ← ok_or (read_file path) (TestIo path);
  fixture ← ok_or (from_json source) (TestJson path);
  if negb (st_schema_version fixture =? 1) then Err (TestVersion path (st_schema_version fixture))
  else if is_obsolete_workspace_path (st_scenario fixture) then
    Err (TestValidation path [PS "scenario reference `"; PS (st_scenario fixture);
                              PS "` uses an obsolete workspace filename; rename it to .icsim"])
  else if match st_cases fixture with [] => true | _ => false end then
    Err (TestValidation path [PS "`cases` must contain at least one case"])
  else
    match check_all (validate_case (fixture_in_testing (parent_name path)) (st_scenario fixture)) (st_cases fixture) with
    | Ok _ => Ok fixture
    | Err text => Err (TestValidation path text)
    | Panic => Panic
    end.
End load.

(** ** What validation accepts *)

Section action_induction.
Variable P : ScriptAction → Prop.
Hypothesis Pset : ∀ target value, P (ActSet target value).
Hypothesis Pmove : ∀ from to, P (ActMoveSlot from to).
Hypothesis Ppublish : ∀ network channel value, P (ActPublish network channel value).
Hypothesis Pschedule : ∀ after actions, Forall P actions → P (ActSchedule after actions).

(** Induction on an action and the actions it schedules. *)
Fixpoint action_ind (a : ScriptAction) : P a :=
  match a with
  | ActSet target value => Pset target value
  | ActMoveSlot from to => Pmove from to
  | ActPublish network channel value => Ppublish network channel value
  | ActSchedule after actions =>
      Pschedule after actions
        ((fix go l : Forall P l :=
            match l with [] => Forall_nil_2 P | b :: l' => Forall_cons_2 P b l' (action_ind b) (go l') end) actions)
  end.
End action_induction.

Definition sum (l : list Z) : Z := foldr Z.add 0 l.
Definition maximum (l : list Z) : Z := foldr Z.max 0 l.

(** How many actions an action stands for, itself included, and how deep it nests. *)
Fixpoint size (a : ScriptAction) : Z :=
  match a with ActSchedule _ actions => 1 + sum (size <$> actions) | _ => 1 end.
Fixpoint nesting (a : ScriptAction) : Z :=
  match a with ActSchedule _ actions => 1 + maximum (nesting <$> actions) | _ => 0 end.

(** Endpoints and nested actions are there, channels are from 0 to 7. *)
Fixpoint shaped (a : ScriptAction) : Prop :=
  match a with
  | ActMoveSlot from to => trim from ≠ "" ∧ trim to ≠ ""
  | ActPublish _ channel _ => channel ≤ 7
  | ActSchedule _ actions => actions ≠ [] ∧ foldr (λ a P, shaped a ∧ P) True actions
  | ActSet _ _ => True
  end.

Lemma shaped_all actions : foldr (λ a P, shaped a ∧ P) True actions ↔ Forall shaped actions.
Proof. induction actions as [|a l IH]; simpl; [by rewrite Forall_nil|]. by rewrite Forall_cons, IH. Qed.

Lemma size_pos a : 1 ≤ size a.
Proof.
  induction a as [| | |after actions IH] using action_ind; simpl; try lia.
  enough (0 ≤ sum (size <$> actions)) by lia. unfold sum. induction IH as [|x l Hx _ IHl]; cbn [fmap list_fmap foldr] in *; lia.
Qed.

Lemma sum_size_nonneg actions : 0 ≤ sum (size <$> actions).
Proof. unfold sum. induction actions as [|a l IH]; cbn [fmap list_fmap foldr]; [lia|]. pose proof (size_pos a). lia. Qed.


(** Visiting an action. *)
Definition visited (depth count : Z) (a : ScriptAction) (n : Z) : Prop :=
  n = count + size a ∧ n ≤ 1024 ∧ depth + nesting a ≤ 8 ∧ shaped a.

Lemma nesting_nonneg a : 0 ≤ nesting a.
Proof.
  destruct a; simpl; try lia. enough (0 ≤ maximum (nesting <$> actions)) by lia.
  generalize (nesting <$> actions). intros l. unfold maximum. induction l; cbn [foldr]; lia.
Qed.

Lemma visit_list depth actions : depth ≤ 8 →
  Forall (λ a, ∀ count n, count ≤ 1024 → visit_action depth count a = Ok n ↔ visited depth count a n) actions →
  ∀ count n, count ≤ 1024 →
  fold_outcome (visit_action depth) count actions = Ok n
  ↔ n = count + sum (size <$> actions) ∧ n ≤ 1024 ∧ depth + maximum (nesting <$> actions) ≤ 8 ∧ Forall shaped actions.
Proof.
  intros Hd. induction 1 as [|a l Ha Hl IH]; intros count n Hc; cbn [fold_outcome fmap list_fmap sum maximum foldr].
  - rewrite Forall_nil. split; [intros [= <-]|intros (-> & _); f_equal; lia]. split_and!; [lia..|done].
  - fold (sum (size <$> l)) (maximum (nesting <$> l)). rewrite Forall_cons. split.
    + intros (c & Hv & Hrest)%outcome_bind_Ok. apply Ha in Hv as (-> & Hmax & Hn & Hs); [|done].
      apply IH in Hrest as (-> & ? & ? & ?); [|done]. split_and!; [lia..|done|done].
    + intros (-> & Hmax & Hn & Hs & Hss). pose proof (sum_size_nonneg l) as Hnn. pose proof (size_pos a).
      assert (visit_action depth count a = Ok (count + size a)) as -> by (apply Ha; [lia|split_and!; [done|lia|lia|done]]).
      cbn [mbind outcome_mbind outcome_bind]. apply IH; [lia|]. split_and!; [lia..|done].
Qed.

Lemma visit_action_spec a : ∀ depth count n, depth ≤ 8 → count ≤ 1024 → visit_action depth count a = Ok n ↔ visited depth count a n.
Proof.
  induction a as [target value|from to|network channel value|after actions IH] using action_ind; intros depth count n Hd Hc;
    unfold visited; cbn [visit_action size nesting shaped]; destruct (Z.ltb_spec 1024 (count + 1)).
  all: try (split; [done|]; pose proof (sum_size_nonneg actions); lia).
  all: try (split; [done|]; lia).
  - split; [intros [= <-]; split_and!; [done|lia|lia|done]|by intros (-> & _)].
  - destruct (String.eqb_spec (trim from) ""), (String.eqb_spec (trim to) ""); simpl; (split; [|naive_solver]); try done.
    intros [= <-]. split_and!; [done|lia|lia|done|done].
  - destruct (Z.ltb_spec 7 channel); [split; [done|lia]|].
    split; [intros [= <-]; split_and!; lia|by intros (-> & _)].
  - destruct actions as [|b actions]; [split; [done|naive_solver]|].
    rewrite shaped_all. destruct (Z.ltb_spec 8 (depth + 1)).
    { split; [done|]. intros (_ & _ & Hn & _). exfalso. cbn [fmap list_fmap maximum foldr] in Hn. pose proof (nesting_nonneg b). lia. }
    rewrite visit_list; [|lia| |lia].
    2: { eapply Forall_impl; [exact IH|]. intros a Ha c m Hcm. apply Ha; [lia|done]. }
    split; [intros (-> & ? & ? & ?)|intros (-> & ? & ? & _ & ?)]; split_and!; try done; lia.
Qed.

Lemma validate_actions_spec actions :
  validate_script_actions actions = Ok ()
  ↔ sum (size <$> actions) ≤ 1024 ∧ maximum (nesting <$> actions) ≤ 8 ∧ Forall shaped actions.
Proof.
  unfold validate_script_actions. split.
  - intros (n & Hn & _)%outcome_bind_Ok. apply visit_list in Hn as (-> & ? & ? & ?); [split_and!; [lia..|done]|lia| |lia].
    apply Forall_forall. intros a _ count m Hc. apply visit_action_spec; lia.
  - intros (Hs & Hn & Hsh).
    assert (fold_outcome (visit_action 0) 0 actions = Ok (sum (size <$> actions))) as ->; [|done].
    apply visit_list; [lia| |lia|split_and!; [lia..|done]].
    apply Forall_forall. intros a _ count m Hc. apply visit_action_spec; lia.
Qed.

Lemma refuse_ok b text : refuse b text = Ok () ↔ b = false.
Proof. by destruct b. Qed.

Lemma check_all_ok {A} (check : A → outcome message ()) l : check_all check l = Ok () ↔ Forall (λ a, check a = Ok ()) l.
Proof.
  induction l as [|a l IH]; cbn [check_all]; [by rewrite Forall_nil|]. rewrite Forall_cons, <-IH.
  destruct (check a) as [[]| |]; cbn [mbind outcome_mbind outcome_bind]; naive_solver.
Qed.

Lemma then_ok (r : outcome message ()) (k : outcome message ()) : (_ ← r; k) = Ok () ↔ r = Ok () ∧ k = Ok ().
Proof. destruct r as [[]| |]; cbn [mbind outcome_mbind outcome_bind]; naive_solver. Qed.

(** A scripted rule, a driver, an assertion and a case that may run. *)
Definition rule_ok (rule : ScriptedRule) : Prop :=
  trim (tr_target (ru_when rule)) ≠ "" ∧ ru_actions rule ≠ []
  ∧ sum (size <$> ru_actions rule) ≤ 1024 ∧ maximum (nesting <$> ru_actions rule) ≤ 8 ∧ Forall shaped (ru_actions rule).

Definition driver_ok (driver : ScriptedDriver) : Prop :=
  trim (dr_id driver) ≠ "" ∧ trim (dr_model driver) ≠ "" ∧ dr_version driver ≠ 0 ∧ Forall rule_ok (dr_rules driver).

Definition tolerance_ok (tolerance : Tolerance) : Prop :=
  f_is_finite (to_absolute tolerance) = true ∧ f_is_finite (to_relative tolerance) = true
  ∧ f_lt (to_absolute tolerance) f_zero = false ∧ f_lt (to_relative tolerance) f_zero = false.

Definition assertion_ok (max_ticks : Z) (assertion : Assertion) : Prop :=
  (∃ text, expression assertion = Ok text)
  ∧ (∀ tick, as_at_tick assertion = Some tick → tick ≤ max_ticks)
  ∧ (∀ tick, as_within_ticks assertion = Some tick → tick ≤ max_ticks)
  ∧ (∀ tolerance, as_tolerance assertion = Some tolerance → tolerance_ok tolerance).

Record case_ok (case : TestCase) : Prop := {
  ck_name : trim (tc_name case) ≠ "";
  ck_limits : tc_max_ticks case ≠ 0 ∧ tc_max_operations case ≠ 0;
  ck_timeline : Forall (λ entry, tl_tick entry ≤ tc_max_ticks case) (tc_timeline case);
  ck_drivers : (length (tc_drivers case) ≤ 32)%nat ∧ Forall driver_ok (tc_drivers case) ∧ rule_count case ≤ 256;
  ck_assertions : Forall (assertion_ok (tc_max_ticks case)) (tc_assertions case);
}.

(** What a Lua module run may ask for. *)
Definition execution_ok (in_testing : bool) (scenario : string) (case : TestCase) : Prop :=
  match tc_execution case with
  | None => True
  | Some (LuaModule profile roots memory output modules source recursion) =>
      lua_path_allowed in_testing scenario = true ∧ tc_program case ≠ None ∧ profile = LUA_PROFILE_ID
      ∧ Forall (λ root, lua_path_allowed in_testing root = true) roots
      ∧ (memory ≠ 0 ∧ output ≠ 0 ∧ modules ≠ 0 ∧ source ≠ 0 ∧ recursion ≠ 0)
      ∧ (tc_max_operations case ≤ LUA_MAX_INSTRUCTIONS ∧ memory ≤ LUA_MAX_MEMORY_BYTES ∧ output ≤ LUA_MAX_OUTPUT_BYTES
         ∧ modules ≤ LUA_MAX_MODULES ∧ source ≤ LUA_MAX_SOURCE_BYTES ∧ recursion ≤ LUA_MAX_RECURSION_DEPTH)
      ∧ (tc_initial case = [] ∧ tc_timeline case = [] ∧ tc_drivers case = [] ∧ tc_assertions case = [] ∧ tc_snapshot case = None)
  end.

Lemma empty_false {A} (l : list A) : match l with [] => true | _ => false end = false ↔ l ≠ [].
Proof. by destruct l. Qed.

Lemma empty_negb {A} (l : list A) : negb (match l with [] => true | _ => false end) = false ↔ l = [].
Proof. by destruct l. Qed.

Lemma eqb_empty s : String.eqb s "" = false ↔ s ≠ "".
Proof. apply String.eqb_neq. Qed.

Lemma map_text_ok {A} (r : outcome message A) (f : message → message) a :
  match r with Err text => Err (f text) | Ok a => Ok a | Panic => Panic end = Ok a ↔ r = Ok a.
Proof. by destruct r. Qed.

Lemma validate_rule_spec case driver rule : validate_rule case driver rule = Ok () ↔ rule_ok rule.
Proof.
  unfold validate_rule, rule_ok. rewrite then_ok, refuse_ok, orb_false_iff, eqb_empty, empty_false, <-validate_actions_spec.
  destruct (validate_script_actions (ru_actions rule)) as [[]| |]; naive_solver.
Qed.

Lemma validate_driver_spec case driver : validate_driver case driver = Ok () ↔ driver_ok driver.
Proof.
  unfold validate_driver, driver_ok. rewrite then_ok, refuse_ok, !orb_false_iff, !eqb_empty, Z.eqb_neq, check_all_ok.
  setoid_rewrite validate_rule_spec. tauto.
Qed.

Lemma beyond_false case tick : beyond case tick = false ↔ ∀ t, tick = Some t → t ≤ tc_max_ticks case.
Proof.
  destruct tick as [t|]; simpl; [|naive_solver]. rewrite Z.ltb_ge. naive_solver.
Qed.

Lemma validate_assertion_spec case assertion :
  validate_assertion case assertion = Ok () ↔ assertion_ok (tc_max_ticks case) assertion.
Proof.
  unfold validate_assertion, assertion_ok. destruct (expression assertion) as [text|e|] eqn:He;
    cbn [mbind outcome_mbind outcome_bind]; [|split; [done|by intros [[? ?] _]]..].
  rewrite then_ok, !refuse_ok, orb_false_iff, !beyond_false. unfold tolerance_ok.
  destruct (as_tolerance assertion) as [[ab re]|]; simpl; [rewrite !orb_false_iff, !negb_false_iff|]; naive_solver.
Qed.

Lemma validate_timeline_spec case :
  validate_timeline case = Ok () ↔ Forall (λ entry, tl_tick entry ≤ tc_max_ticks case) (tc_timeline case).
Proof.
  unfold validate_timeline. rewrite Forall_forall. split.
  - destruct (find_first _ _) as [e|] eqn:Hf; [done|]. intros _ entry Hin.
    destruct (Z.leb_spec (tl_tick entry) (tc_max_ticks case)); [done|]. exfalso.
    destruct (find_first_is_Some (λ entry, tc_max_ticks case <? tl_tick entry) (tc_timeline case) entry Hin) as [? Hs]; [by apply Z.ltb_lt|].
    by rewrite Hs in Hf.
  - intros Hall. destruct (find_first _ _) as [e|] eqn:Hf; [|done].
    apply find_first_Some in Hf as [Hin Hlt%Z.ltb_lt]. specialize (Hall e Hin). lia.
Qed.

Lemma validate_execution_spec in_testing scenario case :
  validate_execution in_testing scenario case = Ok () ↔ execution_ok in_testing scenario case.
Proof.
  unfold validate_execution, execution_ok. destruct (tc_execution case) as [[profile roots memory output modules source recursion]|]; [|done].
  rewrite !then_ok, !refuse_ok, !orb_false_iff, !negb_false_iff, !Z.eqb_neq, !Z.ltb_ge, String.eqb_eq, bool_decide_eq_false.
  assert (existsb (λ root, negb (lua_path_allowed in_testing root)) roots = false ↔ Forall (λ root, lua_path_allowed in_testing root = true) roots) as ->.
  { clear. induction roots as [|r l IH]; simpl; [by rewrite Forall_nil|]. rewrite Forall_cons, orb_false_iff, negb_false_iff. tauto. }
  destruct (tc_initial case), (tc_timeline case), (tc_drivers case), (tc_assertions case), (tc_snapshot case); naive_solver.
Qed.

Lemma validate_case_spec in_testing scenario case :
  validate_case in_testing scenario case = Ok () ↔ execution_ok in_testing scenario case ∧ case_ok case.
Proof.
  unfold validate_case, validate_drivers.
  rewrite !then_ok, !refuse_ok, orb_false_iff, eqb_empty, !Z.eqb_neq, !Z.ltb_ge, !check_all_ok, validate_execution_spec, validate_timeline_spec.
  setoid_rewrite validate_driver_spec. setoid_rewrite validate_assertion_spec. split.
  - intros (? & ? & ? & ? & (? & ? & ?) & ?). split; [done|]. constructor; try done. split_and!; [lia|done..].
  - intros [? [? ? ? (? & ? & ?) ?]]. split_and!; try done. all: naive_solver lia.
Qed.

(** ** The theorem *)

(** Which test files load, and that loading does not change them: a file loads
    exactly when it is read, it is JSON of a test file of version 1, its scenario has
    no obsolete name, it has cases, and every case passes its checks.  A case that
    passes has a name, positive limits, no timeline entry and no deadline beyond its
    last tick, at most 32 drivers and 256 rules, at most 1024 actions for a rule,
    nested at most 8 deep, with their endpoints and with channels up to 7, one text per
    assertion and finite tolerances; a Lua run stays within the limits of the sandbox
    and uses no field of a world. *)
Theorem load_accepts (read_file : string → option string) (from_json : string → option ScenarioTest)
    (parent_name : string → option string) (path : string) (fixture : ScenarioTest) :
  load read_file from_json parent_name path = Ok fixture
  ↔ (read_file path ≫= from_json) = Some fixture
    ∧ st_schema_version fixture = 1 ∧ is_obsolete_workspace_path (st_scenario fixture) = false ∧ st_cases fixture ≠ []
    ∧ Forall (λ case, execution_ok (fixture_in_testing (parent_name path)) (st_scenario fixture) case ∧ case_ok case)
        (st_cases fixture).
Proof.
  setoid_rewrite <-validate_case_spec. rewrite <-check_all_ok. unfold load.
  destruct (read_file path) as [source|]; [|naive_solver]. simpl.
  destruct (from_json source) as [f|]; [|naive_solver]. simpl.
  destruct (Z.eqb_spec (st_schema_version f) 1); simpl; [|naive_solver].
  destruct (is_obsolete_workspace_path (st_scenario f)) eqn:Ho; [naive_solver congruence|].
  destruct (st_cases f) as [|c cs] eqn:Hcs; [naive_solver congruence|]. rewrite <-Hcs.
  destruct (check_all _ (st_cases f)) as [[]| |] eqn:Hall; naive_solver congruence.
Qed.

(** A file of one case, one rule of which schedules an action. *)
Definition sample_case : TestCase :=
  {| tc_name := "blinks"; tc_max_ticks := 10; tc_max_operations := 128; tc_program := None; tc_execution := None; tc_initial := [];
     tc_timeline := [{| tl_tick := 10; tl_set := []; tl_events := [] |}];
     tc_drivers := [{| dr_id := "reset"; dr_model := "switch"; dr_version := 1; dr_rules :=
       [{| ru_name := None; ru_when := {| tr_target := "r0"; tr_equals := None |};
           ru_actions := [ActSchedule 1 [ActPublish "n" 7 (SNumber f_one)]] |}] |}];
     tc_assertions := [{| as_expression := None; as_eventually := Some "r0 == 1"; as_always := None; as_at_tick := None;
                          as_within_ticks := Some 10; as_expected := None; as_tolerance := None |}];
     tc_expect_error := None; tc_parameters := []; tc_snapshot := None |}.

Definition sample_fixture : ScenarioTest :=
  {| st_schema_version := 1; st_scenario := "blink.icsim"; st_seed := 1; st_cases := [sample_case] |}.

Lemma load_accepts_witness :
  case_ok sample_case ∧ load (λ _, Some "{}") (λ _, Some sample_fixture) (λ _, Some "Testing") "testing/blink.ictest" = Ok sample_fixture.
Proof.
  pose proof (load_accepts (λ _, Some "{}") (λ _, Some sample_fixture) (λ _, Some "Testing") "testing/blink.ictest" sample_fixture) as Hl.
  assert (load (λ _, Some "{}") (λ _, Some sample_fixture) (λ _, Some "Testing") "testing/blink.ictest" = Ok sample_fixture) as Hok
    by (vm_compute; reflexivity).
  split; [|exact Hok]. apply Hl in Hok as (_ & _ & _ & _ & Hc). apply Forall_inv in Hc. apply Hc.
Defined.
