(* ===== verification/Evaluator.v ===== *)
(** * Expressions of the scenario tests and the debugger

    [crates/ic10-runner/src/evaluator.rs]: the values, the evaluation of an
    expression over a simulation, the targets an assignment may name, the
    assignment, and the text of numbers.  An expression is split at its last
    operator of the weakest level that has one outside brackets and quotes, and
    each side is evaluated in turn; every text that is evaluated is shorter than
    the one it comes from, so the fuel is the length of the text.  The index of
    [split_operator] moves byte by byte, and a slice at a byte inside a character
    is a panic, as in the source. *)

From S2P Require Import Prelude BTree Text F64 Knowledge Literals Journal Scenario World Program Cpu Exec.
From S2P Require Import Isa Frame Behaviour Vm Lua Simulator Tick Control.
From Stdlib Require Import Ascii.
Local Open Scope string_scope.
Local Open Scope Z_scope.

(** ** Text *)

(** [str::split_once] on a text *)
Fixpoint split_once_str (p s : string) : option (string * string) :=
  match strip_prefix p s with
  | Some r => Some ("", r)
  | None =>
      match s with
      | "" => None
      | String a s' =>
          match split_once_str p s' with Some (l, r) => Some (String a l, r) | None => None end
      end
  end.

(** [slice.get(index)] *)
Definition get {A} (l : list A) (index : Z) : option A :=
  if (0 <=? index) && (index <? Z.of_nat (length l)) then l !! Z.to_nat index else None.

(** ** Values *)

(** Source: [crates/ic10-runner/src/evaluator.rs] [Value] *)
Inductive Value :=
  | VNumber (value : f64)
  | VBoolean (value : bool)
  | VText (value : string).

(** Source: [crates/ic10-runner/src/evaluator.rs] [truthy] *)
Definition truthy (v : Value) : outcome message bool :=
  match v with
  | VBoolean value => Ok value
  | VNumber value => Ok (f_ne value f_zero && negb (f_is_nan value))
  | VText _ => Err [PS "text is not a boolean value"]
  end.

(** Source: [crates/ic10-runner/src/evaluator.rs] [number] *)
Definition number (v : Value) : outcome message f64 :=
  match v with
  | VNumber value => Ok value
  | VBoolean value => Ok (if value then f_one else f_zero)
  | VText _ => Err [PS "text is not a numeric value"]
  end.

(** Source: [crates/ic10-runner/src/evaluator.rs] [format_number] *)
Definition format_number `{FloatDisplay} (value : f64) : string :=
  if f_is_nan value then "NaN"
  else if f_eq value f_inf then "Infinity"
  else if f_eq value f_neg_inf then "-Infinity"
  else if f_eq value f_zero && f_sign value then "-0"
  else display_f64 value.

(** Source: [crates/ic10-runner/src/evaluator.rs] [display] *)
Definition display `{FloatDisplay} (v : Value) : string :=
  match v with
  | VNumber value => format_number value
  | VBoolean value => if value then "true" else "false"
  | VText value => value
  end.

(** Source: [crates/ic10-runner/src/evaluator.rs] [parse_number] *)
Definition parse_number (value : string) : outcome message f64 :=
  let value := trim value in
  if is_one_of value ["NaN"; "nan"] then Ok f_nan
  else if is_one_of value ["pinf"; "Infinity"; "+Infinity"; "inf"; "+inf"] then Ok f_inf
  else if is_one_of value ["ninf"; "-Infinity"; "-inf"] then Ok f_neg_inf
  else if String.eqb value "-0" then Ok f_neg_zero
  else ok_or (parse_f64 value) [PS "cannot evaluate `"; PS value; PS "`"].

(** Source: [crates/ic10-runner/src/evaluator.rs] [numeric_equal] *)
Definition numeric_equal (left right : f64) : bool :=
  (f_is_nan left && f_is_nan right) || (to_bits left =? to_bits right).

(** Source: [crates/ic10-runner/src/evaluator.rs] [binary] *)
Definition binary (left : Value) (operator : string) (right : Value) : outcome message Value :=
  let arithmetic (f : f64 → f64 → f64) : outcome message Value :=
    l ← number left; r ← number right; Ok (VNumber (f l r)) in
  let compare (f : f64 → f64 → bool) : outcome message Value :=
    l ← number left; r ← number right; Ok (VBoolean (f l r)) in
  if String.eqb operator "&&" then
    l ← truthy left; r ← (if l : bool then truthy right else Ok false); Ok (VBoolean r)
  else if String.eqb operator "||" then
    l ← truthy left; r ← (if l : bool then Ok true else truthy right); Ok (VBoolean r)
  else if is_one_of operator ["=="; "!="] then
    equal ← match left, right with
            | VText a, VText b => Ok (String.eqb a b)
            | VBoolean a, VBoolean b => Ok (Bool.eqb a b)
            | _, _ => l ← number left; r ← number right; Ok (numeric_equal l r)
            end;
    Ok (VBoolean (if String.eqb operator "==" then equal else negb equal))
  else if String.eqb operator "<" then compare f_lt
  else if String.eqb operator "<=" then compare f_le
  else if String.eqb operator ">" then compare f_gt
  else if String.eqb operator ">=" then compare f_ge
  else if String.eqb operator "+" then arithmetic f_add
  else if String.eqb operator "-" then arithmetic f_sub
  else if String.eqb operator "*" then arithmetic f_mul
  else if String.eqb operator "/" then arithmetic f_div
  else if String.eqb operator "%" then arithmetic f_rem
  else Err [PS "unsupported operator `"; PS operator; PS "`"].

(** ** Delimiters *)

Definition mismatch (closing : string) : message := [PS "unbalanced `"; PS closing; PS "` in expression"].

(** The characters one after the other: the open brackets, the last one first, and
    whether the text is inside a string.
    Source: [crates/ic10-runner/src/evaluator.rs] [validate_delimiters] lines 508-537 *)
Fixpoint scan_delimiters (stack : list string) (quoted escaped : bool) (cs : list string) :
    outcome message (list string * bool) :=
  match cs with
  | [] => Ok (stack, quoted)
  | c :: cs' =>
      if quoted then
        if escaped then scan_delimiters stack true false cs'
        else if String.eqb c BACKSLASH then scan_delimiters stack true true cs'
        else if String.eqb c DQUOTE then scan_delimiters stack false false cs'
        else scan_delimiters stack true false cs'
      else if String.eqb c DQUOTE then scan_delimiters stack true escaped cs'
      else if is_one_of c ["("; "["] then scan_delimiters (c :: stack) false escaped cs'
      else if String.eqb c ")" then
        match stack with
        | top :: stack' => if String.eqb top "(" then scan_delimiters stack' false escaped cs' else Err (mismatch ")")
        | [] => Err (mismatch ")")
        end
      else if String.eqb c "]" then
        match stack with
        | top :: stack' => if String.eqb top "[" then scan_delimiters stack' false escaped cs' else Err (mismatch "]")
        | [] => Err (mismatch "]")
        end
      else scan_delimiters stack false escaped cs'
  end.

(** Source: [crates/ic10-runner/src/evaluator.rs] [validate_delimiters] *)
Definition validate_delimiters (expression : string) : outcome message () :=
  '(stack, quoted) ← scan_delimiters [] false false (chars expression);
  if quoted : bool then Err [PS "unterminated string in expression"]
  else match stack with
       | character :: _ => Err [PS "unclosed `"; PS character; PS "` in expression"]
       | [] => Ok ()
       end.

(** Whether the first closing parenthesis that brings the count to zero is the last
    byte.
    Source: [crates/ic10-runner/src/evaluator.rs] [trim_outer] lines 552-565 *)
Fixpoint closes_at_end (depth : Z) (s : string) : bool :=
  match s with
  | "" => false
  | String a s' =>
      let depth := if Ascii.eqb a "(" then depth + 1 else depth in
      if Ascii.eqb a ")" then
        if depth - 1 =? 0 then String.eqb s' "" else closes_at_end (depth - 1) s'
      else closes_at_end depth s'
  end.

Definition outer_parentheses (expression : string) : bool :=
  starts_with "(" expression && ends_with ")" expression && closes_at_end 0 expression.

Fixpoint trim_outer_from (fuel : nat) (expression : string) : string :=
  match fuel with
  | O => expression
  | S fuel' =>
      if outer_parentheses expression
      then trim_outer_from fuel' (trim (slice 1 (String.length expression - 1) expression))
      else expression
  end.

(** Every round removes two bytes.
    Source: [crates/ic10-runner/src/evaluator.rs] [trim_outer] *)
Definition trim_outer (expression : string) : string := trim_outer_from (String.length expression) expression.

(** ** Operators *)

(** The counters after one byte. *)
Definition split_step (previous : option ascii) (a : ascii) (depth : Z) (quoted : bool) : Z * bool :=
  if Ascii.eqb a (byte 34) && negb (match previous with Some p => Ascii.eqb p (byte 92) | None => false end)
  then (depth, negb quoted)
  else if (Ascii.eqb a "(" || Ascii.eqb a "[") && negb quoted then (depth + 1, quoted)
  else if (Ascii.eqb a ")" || Ascii.eqb a "]") && negb quoted then (depth - 1, quoted)
  else (depth, quoted).

(** The operator that starts here, if any; no sign at the start of the text. *)
Definition operator_at (operators : list string) (first : bool) (rest : string) : option string :=
  find_first (λ operator, starts_with operator rest && negb (is_one_of operator ["-"; "+"] && first)) operators.

(** From the byte at [index], after the bytes of an operator still to [skip].
    Source: [crates/ic10-runner/src/evaluator.rs] [split_operator] lines 458-488 *)
Fixpoint split_from (expression : string) (operators : list string) (index skip : nat)
    (previous : option ascii) (depth : Z) (quoted : bool)
    (result : option (string * string * string)) (rest : string) :
    outcome message (option (string * string * string)) :=
  match rest with
  | "" => Ok result
  | String a rest' =>
      match skip with
      | S skip' => split_from expression operators (S index) skip' (Some a) depth quoted result rest'
      | O =>
          let '(depth, quoted) := split_step previous a depth quoted in
          if (depth =? 0) && negb quoted then
            if is_continuation a then Panic
            else
              match operator_at operators (Nat.eqb index 0) rest with
              | Some operator =>
                  let stop := (index + String.length operator)%nat in
                  let result := Some (slice 0 index expression, slice index stop expression,
                                      slice stop (String.length expression) expression) in
                  split_from expression operators (S index) (String.length operator - 1) (Some a)
                    depth quoted result rest'
              | None => split_from expression operators (S index) 0 (Some a) depth quoted result rest'
              end
          else split_from expression operators (S index) 0 (Some a) depth quoted result rest'
      end
  end.

(** Source: [crates/ic10-runner/src/evaluator.rs] [split_operator] *)
Definition split_operator (expression : string) (operators : list string) :
    outcome message (option (string * string * string)) :=
  split_from expression operators 0 0 None 0 false None expression.

(** Source: [crates/ic10-runner/src/evaluator.rs] [function_call] *)
Definition function_call (expression : string) : option (string * string) :=
  '(before, _) ← split_once "(" expression;
  let name := trim before in
  if negb (ends_with ")" expression) then None
  else if String.eqb name ""
          || negb (forallb (λ b, is_ascii_alphanumeric b || (b =? 95)) (bytes name)) then None
  else Some (name, slice (String.length before + 1) (String.length expression - 1) expression).

(** ** Places of a simulation *)

(** Source: [crates/ic10-runner/src/evaluator.rs] [object] *)
Definition object (expression function : string) : option (string * string) :=
  rest ← strip_prefix function expression ≫= strip_prefix ("(" +:+ DQUOTE);
  split_once_str (DQUOTE +:+ ").") rest.

(** Source: [crates/ic10-runner/src/evaluator.rs] [device_slot] *)
Definition device_slot (expression : string) : option (string * Z * string) :=
  rest ← strip_prefix ("device(" +:+ DQUOTE) expression;
  '(id, rest) ← split_once_str (DQUOTE +:+ ").slot[") rest;
  '(slot, field) ← split_once_str "]." rest;
  slot ← parse_usize slot;
  Some (id, slot, field).

(** Source: [crates/ic10-runner/src/evaluator.rs] [device_memory] *)
Definition device_memory (expression : string) : option (string * Z) :=
  rest ← strip_prefix ("device(" +:+ DQUOTE) expression;
  '(id, address) ← split_once_str (DQUOTE +:+ ").memory[") rest;
  address ← strip_suffix "]" address ≫= parse_usize;
  Some (id, address).

(** Source: [crates/ic10-runner/src/evaluator.rs] [indexed] *)
Definition indexed (expression prefix suffix : string) : option Z :=
  (strip_prefix prefix expression ≫= strip_suffix suffix) ≫= parse_usize.

Definition unknown_device (id : string) : message := [PS "unknown device `"; PS id; PS "`"].
Definition unknown_network (id : string) : message := [PS "unknown network `"; PS id; PS "`"].
Definition no_slot_field (id : string) (slot : Z) (field : string) : message :=
  [PS "device `"; PS id; PS "` slot "; PZ slot; PS " has no field `"; PS field; PS "`"].
Definition no_memory (id : string) (address : Z) : message :=
  [PS "device `"; PS id; PS "` memory address "; PZ address; PS " is out of range"].
Definition no_field (id field : string) : message :=
  [PS "device `"; PS id; PS "` has no field `"; PS field; PS "`"].
Definition invalid_channel (field : string) : message := [PS "invalid channel `"; PS field; PS "`"].

Section evaluator.
Context `{Libm} `{Build} `{LuaEngine} `{FloatDisplay}.

(** Source: [crates/ic10-runner/src/evaluator.rs] [device] *)
Definition device (s : Simulator) (id : string) : outcome message Device :=
  index ← ok_or (device_index id (world s)) (unknown_device id);
  expect (devices (world s) !! index).

(** The text of the device a reference names, with its connection when it has one.
    Source: [crates/ic10-runner/src/evaluator.rs] [device_reference] lines 624-634 *)
Definition describe_device (s : Simulator) (index : nat) (connection : option Z) : outcome message string :=
  device ← expect (devices (world s) !! index);
  let description := dev_id device +:+ " · " +:+ dev_name device in
  match connection with
  | None => Ok description
  | Some connection =>
      match bt_get connection (connections device) with
      | Some network_index =>
          network ← expect (networks (world s) !! network_index);
          Ok (description +:+ " · connection " +:+ show connection +:+ " → " +:+ net_id network)
      | None => Ok (description +:+ " · connection " +:+ show connection +:+ " not attached")
      end
  end.

(** Source: [crates/ic10-runner/src/evaluator.rs] [device_reference] *)
Definition device_reference (s : Simulator) (thread : nat) (expression : string) : outcome message (option string) :=
  match cpus s !! thread with
  | None => Ok None
  | Some cpu =>
      let resolved := resolve_alias (program cpu) expression in
      let '(reference, connection) :=
        match split_once ":" resolved with
        | Some (reference, connection) => (reference, parse_usize connection)
        | None => (resolved, None)
        end in
      if String.eqb reference "db" then Some <$> describe_device s (housing cpu) connection
      else
        match strip_prefix "d" reference ≫= parse_usize with
        | None => Ok None
        | Some pin =>
            match mjoin (get (pins cpu) pin) with
            | None => Ok (Some (reference +:+ " · <not set>"))
            | Some device => Some <$> describe_device s device connection
            end
        end
  end.

(** The words that name the state of the simulation or of the processor.
    Source: [crates/ic10-runner/src/evaluator.rs] [atom] lines 155-167 *)
Definition word_value (s : Simulator) (cpu : Cpu) (expression : string) : option Value :=
  if String.eqb expression "true" then Some (VBoolean true)
  else if String.eqb expression "false" then Some (VBoolean false)
  else if String.eqb expression "tick" then Some (VNumber (f_of_Z (tick s)))
  else if String.eqb expression "line" then Some (VNumber (f_of_Z (default (pc cpu) (current_line cpu))))
  else if is_one_of expression ["operationCount"; "operationsThisTick"] then
    Some (VNumber (f_of_Z (operations_this_tick cpu)))
  else if is_one_of expression ["state"; "runState"] then Some (VText (cpu_state_debug (state cpu)))
  else None.

(** Everything that is not a place: a device, a name of the program, a number.
    Source: [crates/ic10-runner/src/evaluator.rs] [atom] lines 217-223 *)
Definition atom_constant (s : Simulator) (thread : nat) (cpu : Cpu) (expression : string) : outcome message Value :=
  reference ← device_reference s thread expression;
  match reference with
  | Some reference => Ok (VText reference)
  | None =>
      match Program.resolve_number (program cpu) (knowledge s) expression with
      | Ok value => Ok (VNumber value)
      | Err _ => VNumber <$> parse_number expression
      | Panic => Panic
      end
  end.

(** Source: [crates/ic10-runner/src/evaluator.rs] [atom] lines 168-216 *)
Definition atom_place (s : Simulator) (thread : nat) (cpu : Cpu) (expression : string) : outcome message Value :=
  match direct_register_index (resolve_alias (program cpu) expression) with
  | Some index => VNumber <$> expect (registers cpu !! index)
  | None =>
  match indexed expression "stack[" "]" with
  | Some address =>
      VNumber <$> ok_or (get (stack cpu) address) [PS "stack address "; PZ address; PS " is out of range"]
  | None =>
  match device_slot expression with
  | Some (id, slot, field) =>
      device ← device s id;
      VNumber <$> ok_or (bt_get slot (slots device) ≫= bt_get field) (no_slot_field id slot field)
  | None =>
  match device_memory expression with
  | Some (id, address) =>
      device ← device s id;
      VNumber <$> ok_or (get (memory device) address) (no_memory id address)
  | None =>
  match object expression "device" with
  | Some (id, field) =>
      device ← device s id;
      VNumber <$> ok_or (bt_get field (fields device)) (no_field id field)
  | None =>
  match object expression "network" with
  | Some (id, field) =>
      index ← ok_or (network_index id (world s)) (unknown_network id);
      channel ← ok_or (channel_index field) (invalid_channel field);
      network ← expect (networks (world s) !! index);
      VNumber <$> expect (channels network !! channel)
  | None => atom_constant s thread cpu expression
  end end end end end end.

(** Source: [crates/ic10-runner/src/evaluator.rs] [atom] lines 150-167 *)
Definition atom (s : Simulator) (thread : nat) (expression : string) : outcome message Value :=
  cpu ← ok_or (cpus s !! thread) [PS "unknown thread "; PZ (Z.of_nat thread + 1)];
  match word_value s cpu expression with
  | Some value => Ok value
  | None => atom_place s thread cpu expression
  end.

(** ** Evaluation *)

(** A result, or [None] when the fuel runs out. *)
Definition steps (A : Type) : Type := option (outcome message A).
Definition steps_bind {A B} (r : steps A) (k : A → steps B) : steps B :=
  match r with
  | Some (Ok a) => k a
  | Some (Err e) => Some (Err e)
  | Some Panic => Some Panic
  | None => None
  end.

(** The operators, the weakest level first. *)
Definition LEVELS : list (list string) :=
  [["||"]; ["&&"]; ["=="; "!="; "<="; ">="; "<"; ">"]; ["+"; "-"]; ["*"; "/"; "%"]].

(** The first level with an operator in the text.
    Source: [crates/ic10-runner/src/evaluator.rs] [evaluate_inner] lines 64-71 *)
Fixpoint first_split (levels : list (list string)) (expression : string) :
    outcome message (option (string * string * string)) :=
  match levels with
  | [] => Ok None
  | operators :: levels' =>
      split ← split_operator expression operators;
      match split with
      | Some found => Ok (Some found)
      | None => first_split levels' expression
      end
  end.

(** The result the left operand decides on its own.
    Source: [crates/ic10-runner/src/evaluator.rs] [evaluate_inner] lines 76-81 *)
Definition short_circuit (left : Value) (operator : string) : outcome message (option Value) :=
  if String.eqb operator "&&" then b ← truthy left; Ok (if b : bool then None else Some (VBoolean false))
  else if String.eqb operator "||" then b ← truthy left; Ok (if b : bool then Some (VBoolean true) else None)
  else Ok None.

(** What a function makes of its argument.
    Source: [crates/ic10-runner/src/evaluator.rs] [evaluate_inner] lines 103-114 *)
Definition apply_function (s : Simulator) (thread : nat) (changed : string → f64 → bool)
    (function argument expression : string) (value : Value) : outcome message Value :=
  if String.eqb function "abs" then x ← number value; Ok (VNumber (f_abs x))
  else if String.eqb function "isnan" then x ← number value; Ok (VBoolean (f_is_nan x))
  else if String.eqb function "isfinite" then x ← number value; Ok (VBoolean (f_is_finite x))
  else if String.eqb function "changed" then
    x ← number value; Ok (VBoolean (changed (trim argument) x))
  else atom s thread expression.

(** The unary operators, the function and the text each applies to. *)
Inductive shape :=
  | ShapeNot (rest : string)
  | ShapePlus (rest : string)
  | ShapeMinus (rest : string)
  | ShapeCall (function argument : string)
  | ShapeAtom.

(** Source: [crates/ic10-runner/src/evaluator.rs] [evaluate_inner] lines 86-101 *)
Definition shape_of (expression : string) : shape :=
  match strip_prefix "!" expression with
  | Some rest => ShapeNot rest
  | None =>
      match strip_prefix "+" expression with
      | Some rest => ShapePlus rest
      | None =>
          match strip_prefix "-" expression with
          | Some rest => ShapeMinus rest
          | None =>
              match function_call expression with
              | Some (function, argument) => ShapeCall function argument
              | None => ShapeAtom
              end
          end
      end
  end.

(** Source: [crates/ic10-runner/src/evaluator.rs] [evaluate_inner] *)
Fixpoint evaluate_inner (s : Simulator) (thread : nat) (changed : string → f64 → bool) (fuel : nat)
    (expression : string) : steps Value :=
  match fuel with
  | O => None
  | S fuel' =>
      let recur := evaluate_inner s thread changed fuel' in
      steps_bind (Some (first_split LEVELS expression)) (λ split,
      match split with
      | Some (l, operator, r) =>
          if String.eqb (trim l) "" || String.eqb (trim r) "" then
            Some (Err [PS "operator `"; PS operator; PS "` requires two operands"])
          else
            steps_bind (recur (trim_outer (trim l))) (λ left,
            steps_bind (Some (short_circuit left operator)) (λ decided,
            match decided with
            | Some value => Some (Ok value)
            | None => steps_bind (recur (trim_outer (trim r))) (λ right, Some (binary left operator right))
            end))
      | None =>
          match shape_of expression with
          | ShapeNot rest => steps_bind (recur rest) (λ v, Some (VBoolean ∘ negb <$> truthy v))
          | ShapePlus rest => steps_bind (recur rest) (λ v, Some (VNumber <$> number v))
          | ShapeMinus rest => steps_bind (recur rest) (λ v, Some (VNumber ∘ f_neg <$> number v))
          | ShapeCall function argument =>
              steps_bind (recur (trim_outer (trim argument)))
                (λ v, Some (apply_function s thread changed function argument expression v))
          | ShapeAtom => Some (atom s thread expression)
          end
      end)
  end.

(** The length of the text, and one more, is fuel enough.
    Source: [crates/ic10-runner/src/evaluator.rs] [evaluate_with_changed] *)
Definition evaluate_with_changed (s : Simulator) (thread : nat) (expression : string)
    (changed : string → f64 → bool) : steps Value :=
  let expression := trim expression in
  if String.eqb expression "" then Some (Err [PS "expression is empty"])
  else steps_bind (Some (validate_delimiters expression)) (λ _,
       evaluate_inner s thread changed (S (String.length expression)) (trim_outer expression)).

(** Source: [crates/ic10-runner/src/evaluator.rs] [evaluate] *)
Definition evaluate (s : Simulator) (thread : nat) (expression : string) : steps Value :=
  evaluate_with_changed s thread expression (λ _ _, false).

(** ** Assignment *)

(** Source: [crates/ic10-runner/src/evaluator.rs] [AssignableTarget] *)
Inductive AssignableTarget :=
  | AtRegister (cpu : nat) (register : Z)
  | AtStack (cpu : nat) (address : Z)
  | AtDeviceSlot (device : nat) (slot : Z) (field : string)
  | AtDeviceMemory (device : nat) (address : Z)
  | AtDeviceField (device : nat) (field : string)
  | AtNetworkChannel (network : nat) (channel : Z).

(** The index of a device and the device. *)
Definition device_at (s : Simulator) (id : string) : outcome message (nat * Device) :=
  index ← ok_or (device_index id (world s)) (unknown_device id);
  device ← expect (devices (world s) !! index);
  Ok (index, device).

(** Source: [crates/ic10-runner/src/evaluator.rs] [validate_assignable_target] *)
Definition validate_assignable_target (s : Simulator) (thread : nat) (target : string) :
    outcome message AssignableTarget :=
  let target := trim target in
  match direct_register_index target with
  | Some register =>
      match cpus s !! thread ≫= λ cpu, registers cpu !! register with
      | Some _ => Ok (AtRegister thread (Z.of_nat register))
      | None => Err [PS "register target is out of range"]
      end
  | None =>
  match indexed target "stack[" "]" with
  | Some address =>
      match cpus s !! thread ≫= λ cpu, get (stack cpu) address with
      | Some _ => Ok (AtStack thread address)
      | None => Err [PS "stack target is out of range"]
      end
  | None =>
  match device_slot target with
  | Some (id, slot, field) =>
      '(index, device) ← device_at s id;
      match bt_get slot (slots device) ≫= bt_get field with
      | Some _ => Ok (AtDeviceSlot index slot field)
      | None => Err (no_slot_field id slot field)
      end
  | None =>
  match device_memory target with
  | Some (id, address) =>
      '(index, device) ← device_at s id;
      match get (memory device) address with
      | Some _ => Ok (AtDeviceMemory index address)
      | None => Err (no_memory id address)
      end
  | None =>
  match object target "device" with
  | Some (id, field) =>
      '(index, device) ← device_at s id;
      match bt_get field (fields device) with
      | Some _ => Ok (AtDeviceField index field)
      | None => Err (no_field id field)
      end
  | None =>
  match object target "network" with
  | Some (id, field) =>
      network ← ok_or (network_index id (world s)) (unknown_network id);
      channel ← ok_or (channel_index field) (invalid_channel field);
      Ok (AtNetworkChannel network (Z.of_nat channel))
  | None => Err [PS "`"; PS target; PS "` is not an assignable simulator location"]
  end end end end end end.

(** Source: [crates/ic10-runner/src/evaluator.rs] [assignable_target_matches_write] *)
Definition assignable_target_matches_write (s : Simulator) (target : AssignableTarget) (write : EffectTarget) : bool :=
  match target, write with
  | AtRegister cpu register, TRegister actual_cpu actual_register =>
      Nat.eqb cpu actual_cpu && (register =? actual_register)
  | AtStack cpu address, TStack actual_cpu actual_address =>
      Nat.eqb cpu actual_cpu && (address =? actual_address)
  | AtDeviceSlot device slot field, TDeviceSlot actual_device actual_slot actual_field =>
      Nat.eqb device actual_device && (slot =? actual_slot)
      && bool_decide (resolve_journal_symbol actual_field s = Some field)
  | AtDeviceMemory device address, TDeviceMemory actual_device actual_address =>
      Nat.eqb device actual_device && (address =? actual_address)
  | AtDeviceField device field, TDeviceField actual_device actual_field =>
      Nat.eqb device actual_device && bool_decide (resolve_journal_symbol actual_field s = Some field)
  | AtNetworkChannel network channel, TNetworkChannel actual_network actual_channel =>
      Nat.eqb network actual_network && (channel =? actual_channel)
  | _, _ => false
  end.

(** The write of a value at a validated target.
    Source: [crates/ic10-runner/src/evaluator.rs] [set_value_as] lines 430-450 *)
Definition assign (target : AssignableTarget) (value : f64) (actor : EffectActor) : M Simulator message () :=
  match target with
  | AtRegister cpu register => set_register_as cpu register value actor
  | AtStack cpu address => set_stack_as cpu address value actor
  | AtDeviceSlot device slot field => set_device_slot_as device slot field value actor
  | AtDeviceMemory device address => set_device_memory_as device address value actor
  | AtDeviceField device field =>
      id ← get_or_panic (λ s, dev_id <$> devices (world s) !! device);
      set_device_field_as id field value actor
  | AtNetworkChannel network channel => set_network_channel_as network channel value actor
  end.

(** Source: [crates/ic10-runner/src/evaluator.rs] [set_value_as] *)
Definition set_value_as (thread : nat) (target : string) (value : f64) (actor : EffectActor) :
    M Simulator message () :=
  target ← (λ s, (validate_assignable_target s thread target, s));
  assign target value actor.

(** Source: [crates/ic10-runner/src/evaluator.rs] [set_value] *)
Definition set_value (thread : nat) (target : string) (value : f64) : M Simulator message () :=
  set_value_as thread target value ActorScenario.
End evaluator.
