(* ===== verification/EvaluatorFacts.v ===== *)
(** * What an expression evaluates to

    Theorems on [Evaluator]: the evaluation of an ASCII text ends without a panic in
    every well-formed simulation, the text of a structured expression has the value
    the structure has, and an assignment is read back and recognised. *)

From S2P Require Import Prelude BTree Text F64 Knowledge Literals Syntax Journal Scenario World Program Reparse Cpu Exec.
From S2P Require Import Isa Frame Behaviour Vm Lua Simulator Tick Safety Control Evaluator.
From Stdlib Require Import Ascii.
Local Open Scope string_scope.
Local Open Scope Z_scope.

(** ** Parts of a text *)

Definition part (t s : string) : Prop := ∃ a b, s = a +:+ (t +:+ b).

Lemma part_refl s : part s s.
Proof. exists "", "". by rewrite string_app_nil_r. Qed.

Lemma part_trans a b c : part a b → part b c → part a c.
Proof. intros (x & y & ->) (u & v & ->). exists (u +:+ x), (y +:+ v). by rewrite !string_app_assoc. Qed.

Lemma part_length t s : part t s → (String.length t ≤ String.length s)%nat.
Proof. intros (a & b & ->). rewrite !slength_app. lia. Qed.

Lemma is_ascii_app s t : is_ascii (s +:+ t) = is_ascii s && is_ascii t.
Proof. unfold is_ascii. by rewrite bytes_app, forallb_app. Qed.

Lemma part_ascii t s : part t s → is_ascii s = true → is_ascii t = true.
Proof. intros (a & b & ->). rewrite !is_ascii_app. intros [_ [H _]%andb_prop]%andb_prop. done. Qed.

Lemma substring_0_prefix m s : ∃ b, s = String.substring 0 m s +:+ b.
Proof.
  revert m. induction s as [|a s IH]; intros m; [by destruct m; exists ""|]. destruct m as [|m]; [by exists (String a s)|].
  destruct (IH m) as [b Hb]. exists b. cbn [String.substring String.append]. by rewrite <-Hb.
Qed.

Lemma substring_part n m s : part (String.substring n m s) s.
Proof.
  revert n. induction s as [|a s IH]; intros n.
  - destruct (substring_0_prefix m "") as [b Hb]. destruct n; exists "", b; [done|by destruct m].
  - destruct n as [|n]; [destruct (substring_0_prefix m (String a s)) as [b Hb]; by exists "", b|].
    destruct (IH n) as (x & y & Hs). exists (String a x), y. cbn [String.substring String.append]. by rewrite <-Hs.
Qed.

Lemma substring_length_le n m s : (String.length (String.substring n m s) ≤ m)%nat.
Proof.
  revert n m. induction s as [|a s IH]; intros n m; [destruct n, m; simpl; lia|].
  destruct n; [destruct m|]; cbn [String.substring String.length]; [lia| |apply IH]. specialize (IH O m). lia.
Qed.

Lemma slice_part i j s : part (slice i j s) s.
Proof. apply substring_part. Qed.

Lemma trim_part s : part (trim s) s.
Proof.
  apply part_trans with (trim_start s).
  - unfold trim, trim_end. destruct (drop_ws_spec (rev (chars (trim_start s)))) as (bs & Heq & _).
    exists "", (concat_strings (rev bs)). set (d := drop_ws _) in *. clearbody d. cbn [String.append].
    rewrite <-concat_strings_app, <-rev_app_distr, <-Heq, rev_involutive. symmetry. apply concat_chars.
  - unfold trim_start. destruct (drop_ws_spec (chars s)) as (bs & Heq & _). exists (concat_strings bs), "".
    rewrite string_app_nil_r, <-concat_strings_app, <-Heq. symmetry. apply concat_chars.
Qed.

Lemma trim_outer_part s : part (trim_outer s) s.
Proof.
  unfold trim_outer. generalize (String.length s). intros n. revert s. induction n as [|n IH]; intros s; [apply part_refl|].
  cbn [trim_outer_from]. destruct (outer_parentheses s); [|apply part_refl].
  eapply part_trans; [apply IH|]. eapply part_trans; [apply trim_part|apply slice_part].
Qed.

Lemma strip_prefix_part p s r : strip_prefix p s = Some r → part r s.
Proof. intros ->%strip_prefix_Some. exists p, "". by rewrite string_app_nil_r. Qed.

(** A part that is strictly shorter. *)
Definition inner (t s : string) : Prop := part t s ∧ (String.length t < String.length s)%nat.

Lemma part_inner a b c : part a b → inner b c → inner a c.
Proof. intros Hab [Hbc Hl]. split; [by eapply part_trans|]. apply part_length in Hab. lia. Qed.

(** ** Splitting *)

Definition found_inside (expression : string) (found : string * string * string) : Prop :=
  let '(l, _, r) := found in inner l expression ∧ inner r expression.

Lemma split_from_spec expression operators rest : Forall (λ o, o ≠ "") operators →
  ∀ index skip previous depth quoted result,
  (index + String.length rest = String.length expression)%nat →
  (∀ found, result = Some found → found_inside expression found) →
  match split_from expression operators index skip previous depth quoted result rest with
  | Ok result => ∀ found, result = Some found → found_inside expression found
  | Err _ => False
  | Panic => is_ascii rest = false
  end.
Proof.
  intros Hops. induction rest as [|a rest IH]; intros index skip previous depth quoted result Hl Hr; [done|].
  assert (∀ index skip previous depth quoted result,
    (index + String.length rest = String.length expression)%nat →
    (∀ found, result = Some found → found_inside expression found) →
    match split_from expression operators index skip previous depth quoted result rest with
    | Ok result => ∀ found, result = Some found → found_inside expression found
    | Err _ => False
    | Panic => is_ascii (String a rest) = false
    end) as Hstep.
  { intros i k p d q res Hi Hres. specialize (IH i k p d q res Hi Hres). destruct split_from; [done..|].
    unfold is_ascii in *. simpl. rewrite IH. apply andb_false_r. }
  clear IH. cbn [split_from String.length] in *. destruct skip as [|skip]; [|apply Hstep; [lia|done]].
  destruct (split_step previous a depth quoted) as [d q]. destruct ((d =? 0) && negb q); [|apply Hstep; [lia|done]].
  destruct (is_continuation a) eqn:Ha.
  { unfold is_continuation in Ha. apply andb_prop in Ha as [Ha _]. unfold is_ascii. simpl.
    by destruct (Z.ltb_spec (byte_of a) 128); [lia|]. }
  destruct (operator_at operators (index =? 0)%nat (String a rest)) as [o|] eqn:Ho; [|apply Hstep; [lia|done]].
  apply Hstep; [lia|]. intros found [= <-]. apply find_first_Some in Ho as [Ho _].
  rewrite Forall_forall in Hops. specialize (Hops o Ho). destruct o as [|b o]; [done|].
  split; (split; [apply slice_part|]); eapply Nat.le_lt_trans; try apply substring_length_le; simpl; lia.
Qed.

Lemma levels_nonempty : Forall (Forall (λ o, o ≠ "")) LEVELS.
Proof. by repeat constructor. Qed.

Lemma first_split_spec expression : 
  match first_split LEVELS expression with
  | Ok split => ∀ found, split = Some found → found_inside expression found
  | Err _ => False
  | Panic => is_ascii expression = false
  end.
Proof.
  generalize levels_nonempty. induction LEVELS as [|ops levels IH]; [done|]. intros [Hops Hl]%Forall_cons.
  cbn [first_split]. pose proof (split_from_spec expression ops expression Hops 0 0 None 0 false None eq_refl ltac:(done)) as Hs.
  unfold split_operator. destruct split_from as [[found|]| |]; cbn [mbind outcome_mbind outcome_bind]; [|by apply IH|done..].
  intros found' [= <-]. by apply Hs.
Qed.


(** ** The shape of a text without operators *)

Lemma function_call_inner expression function argument :
  function_call expression = Some (function, argument) → inner argument expression.
Proof.
  unfold function_call. destruct (split_once "(" expression) as [[before r]|] eqn:E; [|by intros ?].
  cbn [mbind option_bind]. repeat case_match; [done..|]. intros [= _ <-]. split; [apply slice_part|].
  eapply Nat.le_lt_trans; [apply substring_length_le|]. destruct expression; [done|]. simpl. lia.
Qed.

Lemma strip_prefix_inner p s r : p ≠ "" → strip_prefix p s = Some r → inner r s.
Proof.
  intros Hp Hr. split; [by eapply strip_prefix_part|]. apply strip_prefix_Some in Hr as ->.
  rewrite slength_app. destruct p; [done|]. simpl. lia.
Qed.

Lemma shape_of_inner expression :
  match shape_of expression with
  | ShapeNot rest | ShapePlus rest | ShapeMinus rest => inner rest expression
  | ShapeCall _ argument => inner argument expression
  | ShapeAtom => True
  end.
Proof.
  unfold shape_of.
  repeat match goal with |- context [match strip_prefix ?p ?s with _ => _ end] =>
    destruct (strip_prefix p s) eqn:?; [eapply strip_prefix_inner; [|eassumption]; done|] end.
  destruct (function_call expression) as [[f a]|] eqn:E; [|done]. by eapply function_call_inner.
Qed.

(** ** No panic *)

Lemma bind_no_panic {E A B} (r : outcome E A) (k : A → outcome E B) :
  r ≠ Panic → (∀ a, r = Ok a → k a ≠ Panic) → (r ≫= k) ≠ Panic.
Proof. destruct r; cbn [mbind outcome_mbind outcome_bind]; [by eauto|done..]. Qed.

Lemma fmap_no_panic {E A B} (f : A → B) (r : outcome E A) : r ≠ Panic → f <$> r ≠ Panic.
Proof. by destruct r. Qed.

Lemma ok_or_no_panic {E A} (o : option A) (e : E) : ok_or o e ≠ Panic.
Proof. by destruct o. Qed.

Lemma expect_no_panic {E A} (o : option A) : is_Some o → @expect E A o ≠ Panic.
Proof. by intros [a ->]. Qed.

Lemma truthy_no_panic v : truthy v ≠ Panic.
Proof. by destruct v. Qed.

Lemma number_no_panic v : number v ≠ Panic.
Proof. by destruct v. Qed.

#[local] Hint Resolve fmap_no_panic ok_or_no_panic truthy_no_panic number_no_panic : panic.

(** A chain of computations that cannot panic. *)
Ltac no_panic :=
  repeat first
    [ progress cbn beta iota zeta
    | match goal with |- context [if ?b then _ else _] => destruct b end
    | discriminate
    | solve [eauto with panic]
    | apply bind_no_panic; [solve [eauto with panic]|intros ? _]
    | apply fmap_no_panic ].

Lemma binary_no_panic l o r : binary l o r ≠ Panic.
Proof. unfold binary. no_panic; destruct l, r; no_panic. Qed.

Lemma short_circuit_no_panic l o : short_circuit l o ≠ Panic.
Proof. unfold short_circuit. no_panic. Qed.

Lemma parse_number_no_panic e : Evaluator.parse_number e ≠ Panic.
Proof. unfold Evaluator.parse_number. no_panic. Qed.

Section total.
Context `{Libm} `{Build} `{LuaEngine} `{FloatDisplay}.
Context (sizes : list nat) (nn nc : nat).

Lemma sim_world_lookups s : sim_ok sizes nn nc s → world_ok (world s) ∧ length (devices (world s)) = length sizes.
Proof. intros (Hs & _ & Hw)%sim_ok_world. split; [done|]. by rewrite <-Hs, length_memory_sizes. Qed.

Lemma device_lookup s id : sim_ok sizes nn nc s → device s id ≠ Panic.
Proof.
  intros [Hw _]%sim_world_lookups. apply bind_no_panic; [apply ok_or_no_panic|]. intros i Hi%ok_or_Ok.
  apply (ok_device_ids _ Hw) in Hi as (d & Hd & _). apply expect_no_panic. eauto.
Qed.

Lemma describe_device_no_panic s i connection :
  sim_ok sizes nn nc s → (i < length sizes)%nat → describe_device s i connection ≠ Panic.
Proof.
  intros [Hw Hl]%sim_world_lookups Hi. rewrite <-Hl in Hi. apply lookup_lt_is_Some_2 in Hi.
  apply bind_no_panic; [by apply expect_no_panic|]. intros d Hd%expect_Ok. destruct connection as [c|]; [|done].
  destruct (bt_get c (connections d)) as [n|] eqn:Hn; [|done].
  apply bind_no_panic; [|done]. apply expect_no_panic, lookup_lt_is_Some_2.
  pose proof (ok_connections _ Hw) as Hc. eapply Forall_lookup_1 in Hc; [|done].
  apply bt_get_elem in Hn. eapply Forall_forall in Hc; [|done]. done.
Qed.

Lemma get_lookup {A} (l : list A) z a : get l z = Some a → l !! Z.to_nat z = Some a.
Proof. unfold get. by case_match. Qed.

Lemma sim_cpu_ok s thread c : sim_ok sizes nn nc s → cpus s !! thread = Some c → cpu_ok (length sizes) c.
Proof. intros [_ [_ Hc] _] Ht. eapply Forall_lookup_1 in Hc; [|done]. apply Hc. Qed.

Lemma device_reference_no_panic s thread e : sim_ok sizes nn nc s → device_reference s thread e ≠ Panic.
Proof.
  intros Hs. unfold device_reference. destruct (cpus s !! thread) as [c|] eqn:Hc; [|done].
  apply (sim_cpu_ok s) in Hc as [_ _ [_ Hp] Hh]; [|done].
  destruct (match split_once ":" _ with Some _ => _ | None => _ end) as [reference connection].
  destruct (String.eqb reference "db"); [by apply fmap_no_panic, describe_device_no_panic|].
  destruct (strip_prefix "d" reference ≫= parse_usize) as [pin|]; [|done].
  destruct (mjoin (get (pins c) pin)) as [d|] eqn:Hd; [|done].
  apply fmap_no_panic, describe_device_no_panic; [done|]. destruct (get (pins c) pin) as [o|] eqn:Hg; [|done].
  simpl in Hd. subst o. apply get_lookup in Hg. eapply Forall_lookup_1 in Hp; [|done]. by apply Hp.
Qed.

Lemma atom_no_panic s thread e : sim_ok sizes nn nc s → atom s thread e ≠ Panic.
Proof.
  intros Hs. unfold atom. apply bind_no_panic; [apply ok_or_no_panic|]. intros c Hc%ok_or_Ok.
  pose proof (sim_cpu_ok s thread c Hs Hc) as [Hr _ _ _]. pose proof (sim_world_lookups s Hs) as [Hw _].
  destruct (word_value s c e); [done|]. unfold atom_place.
  destruct (direct_register_index _) as [i|] eqn:Hi.
  { apply fmap_no_panic, expect_no_panic, lookup_lt_is_Some_2. rewrite Hr. by eapply direct_register_index_lt. }
  destruct (indexed e "stack[" "]"); [no_panic|].
  destruct (device_slot e) as [[[id slot] field]|]; [apply bind_no_panic; [by apply device_lookup|no_panic]|].
  destruct (device_memory e) as [[id address]|]; [apply bind_no_panic; [by apply device_lookup|no_panic]|].
  destruct (object e "device") as [[id field]|]; [apply bind_no_panic; [by apply device_lookup|no_panic]|].
  destruct (object e "network") as [[id field]|].
  - apply bind_no_panic; [apply ok_or_no_panic|]. intros n (net & Hn & _)%ok_or_Ok%(ok_network_ids _ Hw).
    apply bind_no_panic; [apply ok_or_no_panic|]. intros k Hk%ok_or_Ok%channel_index_lt.
    rewrite Hn. cbn [expect mbind outcome_mbind outcome_bind]. apply fmap_no_panic, expect_no_panic, lookup_lt_is_Some_2.
    pose proof (ok_channels _ Hw) as Hch. eapply Forall_lookup_1 in Hch; [|done]. by rewrite Hch.
  - apply bind_no_panic; [by apply device_reference_no_panic|]. intros [r|] _; [done|].
    pose proof (resolve_number_no_panic (program c) (knowledge s) e). destruct (Program.resolve_number _ _ _); [done| |done].
    apply fmap_no_panic, parse_number_no_panic.
Qed.

Lemma apply_function_no_panic s thread changed f a e v :
  sim_ok sizes nn nc s → apply_function s thread changed f a e v ≠ Panic.
Proof. intros Hs. unfold apply_function. repeat (destruct (String.eqb f _); [no_panic|]). by apply atom_no_panic. Qed.

(** The evaluation of a text ends, and does not panic when the text is ASCII. *)
Definition ends (ascii_text : bool) (r : steps Value) : Prop :=
  ∃ v, r = Some v ∧ (ascii_text = true → v ≠ Panic).

Lemma ends_bind b (r : steps Value) (k : Value → steps Value) :
  ends b r → (∀ v, ends b (k v)) → ends b (steps_bind r k).
Proof. intros ([v|e|] & -> & Hp) Hk; simpl; [apply Hk|by eexists|]. by exists Panic. Qed.

Lemma ends_lift b r : r ≠ Panic → ends b (Some r).
Proof. by eexists. Qed.

Lemma ends_some {A} b (r : outcome message A) (k : A → steps Value) :
  r ≠ Panic → (∀ a, ends b (k a)) → ends b (steps_bind (Some r) k).
Proof. destruct r; [eauto|intros _ _; by eexists|done]. Qed.

Lemma evaluate_inner_ends s thread changed fuel expression :
  sim_ok sizes nn nc s → (String.length expression < fuel)%nat →
  ends (is_ascii expression) (evaluate_inner s thread changed fuel expression).
Proof.
  intros Hs. revert expression. induction fuel as [|fuel IH]; intros e Hl; [lia|].
  assert (∀ t, inner t e → ends (is_ascii e) (evaluate_inner s thread changed fuel t)) as Hrec.
  { intros t [Hp Ht]. destruct (IH t ltac:(lia)) as (v & Hv & Hn). exists v. split; [done|]. intros Ha. by eapply Hn, part_ascii. }
  assert (∀ t, inner t e → ends (is_ascii e) (evaluate_inner s thread changed fuel (trim_outer (trim t)))) as Htrim.
  { intros t Ht. apply Hrec. eapply part_inner; [|exact Ht]. eapply part_trans; [apply trim_outer_part|apply trim_part]. }
  clear IH. cbn [evaluate_inner]. pose proof (first_split_spec e) as Hsplit.
  destruct (first_split LEVELS e) as [[[[l o] r]|]|err|]; cbn [steps_bind].
  - destruct (Hsplit _ eq_refl) as [Hil Hir]. destruct (_ || _); [by apply ends_lift|].
    apply ends_bind; [by apply Htrim|]. intros v. apply ends_some; [apply short_circuit_no_panic|]. intros [d|]; [by apply ends_lift|].
    apply ends_bind; [by apply Htrim|]. intros w. apply ends_lift, binary_no_panic.
  - pose proof (shape_of_inner e) as Hsh. destruct (shape_of e) as [t|t|t|f a|]; [..|apply ends_lift, (atom_no_panic _ _ _ Hs)];
      (apply ends_bind; [by auto|]); intros v; apply ends_lift; try (by apply apply_function_no_panic); eauto with panic.
  - done.
  - exists Panic. split; [done|]. congruence.
Qed.
End total.

(** ** Text the splitting leaves alone *)

(** The bytes an operator starts with, and those that are not ASCII. *)
Definition operator_byte (a : ascii) : bool :=
  is_one_of (String a "") ["|"; "&"; "="; "!"; "<"; ">"; "+"; "-"; "*"; "/"; "%"] || negb (byte_of a <? 128).

Definition is_backslash (a : ascii) : bool := Ascii.eqb a (byte 92).
Definition after_backslash (previous : option ascii) : bool :=
  match previous with Some p => is_backslash p | None => false end.

(** The counters of [split_operator] over a text; [None] when the depth becomes
    negative, or, for a [strict] text, at an operator outside brackets and quotes. *)
Fixpoint sweep (strict : bool) (previous : option ascii) (depth : Z) (quoted : bool) (s : string) :
    option (bool * Z * bool) :=
  match s with
  | "" => Some (after_backslash previous, depth, quoted)
  | String a s' =>
      let '(depth, quoted) := split_step previous a depth quoted in
      if depth <? 0 then None
      else if strict && ((depth =? 0) && negb quoted) && operator_byte a then None
      else sweep strict (Some a) depth quoted s'
  end.

(** A text that leaves the counters where it finds them. *)
Definition swept (strict : bool) (s : string) : Prop := sweep strict None 0 false s = Some (false, 0, false).

Lemma split_step_previous p p' a depth quoted :
  after_backslash p = after_backslash p' → split_step p a depth quoted = split_step p' a depth quoted.
Proof. unfold split_step, after_backslash, is_backslash. by intros ->. Qed.

Lemma sweep_previous strict p p' depth quoted s :
  after_backslash p = after_backslash p' → sweep strict p depth quoted s = sweep strict p' depth quoted s.
Proof. intros Hp. destruct s; cbn [sweep]; [by rewrite Hp|]. by rewrite (split_step_previous p p'). Qed.

Lemma sweep_app strict p depth quoted s t b d q p' :
  sweep strict p depth quoted s = Some (b, d, q) → after_backslash p' = b →
  sweep strict p depth quoted (s +:+ t) = sweep strict p' d q t.
Proof.
  revert p depth quoted. induction s as [|a s IH]; intros p depth quoted; cbn [sweep String.append].
  - intros [= <- -> ->] Hp. by apply sweep_previous.
  - destruct (split_step p a depth quoted) as [d' q']. repeat case_match; try done. apply IH.
Qed.

Lemma split_step_shift p a depth quoted k :
  split_step p a (depth + k) quoted = ((split_step p a depth quoted).1 + k, (split_step p a depth quoted).2).
Proof. unfold split_step. repeat case_match; simpl; f_equal; lia. Qed.

(** Inside a bracket, a text may hold operators. *)
Lemma sweep_shift strict p depth quoted s b d q k : 1 ≤ k →
  sweep strict p depth quoted s = Some (b, d, q) → sweep true p (depth + k) quoted s = Some (b, d + k, q).
Proof.
  intros Hk. revert p depth quoted. induction s as [|a s IH]; intros p depth quoted; cbn [sweep]; [by intros [= <- <- <-]|].
  rewrite split_step_shift. destruct (split_step p a depth quoted) as [d' q']. simpl.
  destruct (Z.ltb_spec d' 0); [done|]. destruct (_ && operator_byte a); [done|]. intros Hs.
  destruct (Z.ltb_spec (d' + k) 0); [lia|]. destruct (Z.eqb_spec (d' + k) 0); [lia|]. by apply IH.
Qed.

Lemma sweep_lax p depth quoted s r : sweep true p depth quoted s = Some r → sweep false p depth quoted s = Some r.
Proof.
  revert p depth quoted. induction s as [|a s IH]; intros p depth quoted; cbn [sweep]; [done|].
  destruct (split_step p a depth quoted) as [d q]. destruct (d <? 0); [done|]. simpl.
  destruct (_ && operator_byte a); [done|]. apply IH.
Qed.

Lemma swept_app strict s t : swept strict s → swept strict t → swept strict (s +:+ t).
Proof. intros Hs Ht. unfold swept. by rewrite (sweep_app _ _ _ _ _ _ _ _ _ None Hs). Qed.

Lemma swept_parentheses strict s : swept strict s → swept true ("(" +:+ s +:+ ")").
Proof.
  intros Hs. apply (sweep_shift _ _ _ _ _ _ _ _ 1) in Hs; [|lia].
  unfold swept. cbn [String.append sweep split_step]. simpl.
  rewrite (sweep_previous _ (Some "("%char) None) by done. simpl in Hs.
  by rewrite (sweep_app _ _ _ _ _ _ _ _ _ None Hs).
Qed.

(** The bytes of a function name. *)
Definition name_bytes (f : string) : bool := forallb (λ b, is_ascii_alphanumeric b || (b =? 95)) (bytes f).

(** A byte of a name is none of the bytes the evaluator looks for. *)
Lemma name_byte a : is_ascii_alphanumeric (byte_of a) || (byte_of a =? 95) = true →
  operator_byte a = false ∧ (∀ p d, split_step p a d false = (d, false)) ∧ is_backslash a = false
  ∧ Ascii.eqb a "(" = false ∧ Ascii.eqb a ")" = false ∧ is_whitespace (String a "") = false
  ∧ String.eqb (String a "") DQUOTE = false ∧ is_one_of (String a "") ["("; "["] = false
  ∧ String.eqb (String a "") ")" = false ∧ String.eqb (String a "") "]" = false ∧ byte_of a <? 128 = true.
Proof.
  assert (∀ p d, split_step p a d false =
    if Ascii.eqb a (byte 34) then split_step p a d false else if Ascii.eqb a "(" || Ascii.eqb a "[" then (d + 1, false)
    else if Ascii.eqb a ")" || Ascii.eqb a "]" then (d - 1, false) else (d, false)) as Hs.
  { intros p d. unfold split_step. destruct (Ascii.eqb a (byte 34)); simpl; [done|]. by rewrite !andb_true_r. }
  setoid_rewrite Hs. clear Hs. destruct a as [[] [] [] [] [] [] [] []]; vm_compute; try discriminate; intros _; by split_and!.
Qed.

Lemma swept_name f : name_bytes f = true → swept true f.
Proof.
  unfold swept. assert (∀ p, after_backslash p = false → name_bytes f = true → sweep true p 0 false f = Some (false, 0, false)) as Hg; [|by eauto].
  unfold name_bytes. induction f as [|a f IH]; intros p Hp; cbn [sweep bytes forallb]; [by rewrite Hp|].
  intros [Ha Hf]%andb_prop. destruct (name_byte a Ha) as (Ho & Hs & Hb & _). rewrite Hs, Ho. simpl. by apply IH.
Qed.

(** ** Where a text splits *)

Definition operators_of : list string := concat LEVELS.

Lemma operator_at_byte ops first a rest : ops ∈ LEVELS → operator_byte a = false → operator_at ops first (String a rest) = None.
Proof.
  intros Hops Ha. unfold operator_at. apply find_map_None. intros o Ho. case_match eqn:Hs; [|done].
  apply andb_prop in Hs as [Hs _]. exfalso. unfold starts_with in Hs. destruct (strip_prefix o _) as [r|] eqn:Hp; [|done].
  apply strip_prefix_Some in Hp. revert Ha.
  repeat (apply elem_of_cons in Hops as [->|Hops]; [repeat (apply elem_of_cons in Ho as [->|Ho]; [injection Hp as -> _; done|]); by apply elem_of_nil in Ho|]).
  by apply elem_of_nil in Hops.
Qed.

(** A strict text passes without a match. *)
Lemma split_from_swept expression ops s : ops ∈ LEVELS → ∀ t index p depth quoted result b d q,
  sweep true p depth quoted s = Some (b, d, q) →
  ∃ p', after_backslash p' = b ∧
    split_from expression ops index 0 p depth quoted result (s +:+ t)
    = split_from expression ops (index + String.length s) 0 p' d q result t.
Proof.
  intros Hops t. induction s as [|a s IH]; intros index p depth quoted result b d q; cbn [sweep String.append].
  - intros [= <- <- <-]. exists p. by rewrite Nat.add_0_r.
  - cbn [split_from]. destruct (split_step p a depth quoted) as [d' q']. destruct (d' <? 0); [done|].
    destruct ((d' =? 0) && negb q') eqn:Hz; cbn [andb].
    + destruct (operator_byte a) eqn:Ha; [done|]. intros Hs.
      assert (is_continuation a = false) as ->.
      { unfold operator_byte in Ha. apply orb_false_elim in Ha as [_ Ha]. unfold is_continuation.
        destruct (Z.leb_spec 128 (byte_of a)); [|done]. destruct (Z.ltb_spec (byte_of a) 128); [lia|done]. }
      rewrite operator_at_byte by done. apply (IH (S index)) with (result := result) in Hs as (p' & Hp & ->).
      exists p'. split; [done|]. f_equal. simpl. lia.
    + intros Hs. apply (IH (S index)) with (result := result) in Hs as (p' & Hp & ->). exists p'. split; [done|]. f_equal. simpl. lia.
Qed.

Lemma split_swept ops s : ops ∈ LEVELS → swept true s → split_operator s ops = Ok None.
Proof.
  intros Hops Hs. unfold split_operator. apply (split_from_swept s ops s Hops "" 0 None 0 false None) in Hs as (p & _ & Hs).
  by rewrite string_app_nil_r in Hs.
Qed.

Lemma first_split_none levels s : (∀ ops, ops ∈ levels → split_operator s ops = Ok None) → first_split levels s = Ok None.
Proof.
  induction levels as [|ops levels IH]; [done|]. intros Hl. cbn [first_split].
  rewrite Hl by apply list_elem_of_here. apply IH. intros o Ho. apply Hl. by apply list_elem_of_further.
Qed.

Lemma first_split_swept s : swept true s → first_split LEVELS s = Ok None.
Proof. intros Hs. apply first_split_none. intros ops Ho. by apply split_swept. Qed.

(** The first byte of a strict text starts no operator. *)
Definition head_plain (s : string) : Prop := match s with "" => False | String a _ => operator_byte a = false end.

Lemma swept_head s : s ≠ "" → swept true s → head_plain s.
Proof.
  destruct s as [|a s]; [done|]. intros _. unfold swept. cbn [sweep head_plain].
  destruct (operator_byte a) eqn:Ha; [|done]. 
  assert (split_step None a 0 false = (0, false)) as ->; [|done].
  revert Ha. clear. destruct a as [[] [] [] [] [] [] [] []]; vm_compute; done.
Qed.

(** At an operator before a plain text: a match at its own level, none at the others,
    and none at its second byte. *)
Lemma operator_at_own ops o r : ops ∈ LEVELS → o ∈ operators_of → head_plain r →
  operator_at ops false (o +:+ r) = if bool_decide (o ∈ ops) then Some o else None.
Proof.
  intros Hops Ho Hr. destruct r as [|a r]; [done|]. simpl in Hr.
  repeat (apply elem_of_cons in Hops as [->|Hops]; [|]); [..|by apply elem_of_nil in Hops];
  repeat (apply elem_of_cons in Ho as [->|Ho]; [|]); try (by apply elem_of_nil in Ho);
  revert Hr; clear; destruct a as [[] [] [] [] [] [] [] []]; vm_compute; done.
Qed.

(** The bytes of an operator move no counter. *)
Lemma split_step_operator p a d : operator_byte a = true → split_step p a d false = (d, false).
Proof.
  intros Ha. unfold split_step. replace (Ascii.eqb a (byte 34)) with false.
  2: { revert Ha. by destruct a as [[] [] [] [] [] [] [] []]; vm_compute. }
  simpl. rewrite !andb_true_r. revert Ha. by destruct a as [[] [] [] [] [] [] [] []]; vm_compute.
Qed.

Lemma is_continuation_low a : byte_of a <? 128 = true → is_continuation a = false.
Proof. intros Ha. unfold is_continuation. destruct (Z.leb_spec 128 (byte_of a)); [lia|done]. Qed.

(** One or two bytes, the second of which starts no operator before a plain text. *)
Definition operator_text (o : string) : Prop :=
  Forall (λ a, operator_byte a = true ∧ is_continuation a = false ∧ is_backslash a = false) (String.list_ascii_of_string o)
  ∧ match o with
    | String a "" => True
    | String a (String b "") => ∀ ops r, ops ∈ LEVELS → head_plain r → operator_at ops false (String b r) = None
    | _ => False
    end.

Lemma operators_text o : o ∈ operators_of → operator_text o.
Proof.
  assert (∀ b ops r, ops ∈ LEVELS → head_plain r → b = "|"%char ∨ b = "&"%char ∨ b = "="%char →
    operator_at ops false (String b r) = None) as Hb.
  { intros b ops r Hops Hr Hb. destruct r as [|a r]; [done|]. simpl in Hr.
    repeat (apply elem_of_cons in Hops as [->|Hops]; [|]); [..|by apply elem_of_nil in Hops];
      (destruct Hb as [-> | [-> | ->]]; revert Hr; clear; destruct a as [[] [] [] [] [] [] [] []]; vm_compute; done). }
  intros Ho. repeat (apply elem_of_cons in Ho as [->|Ho]; [|]); [..|by apply elem_of_nil in Ho];
    (split; [by repeat constructor|]); try exact I; intros ops r Hops Hr; apply Hb; auto.
Qed.


Lemma split_from_end expression ops s index p result : ops ∈ LEVELS → swept true s → after_backslash p = false →
  split_from expression ops index 0 p 0 false result s = Ok result.
Proof.
  intros Hops Hs Hp. unfold swept in Hs. rewrite (sweep_previous _ None p) in Hs by done.
  apply (split_from_swept expression ops s Hops "" index p 0 false result) in Hs as (p' & _ & Hs). by rewrite string_app_nil_r in Hs.
Qed.

(** After the bytes of an operator: it is the last one of its level so far. *)
Lemma split_from_operator expression ops o r index p result : ops ∈ LEVELS → o ∈ operators_of → head_plain r →
  after_backslash p = false → index ≠ 0%nat →
  ∃ p', after_backslash p' = false
  ∧ split_from expression ops index 0 p 0 false result (o +:+ r)
    = split_from expression ops (index + String.length o) 0 p' 0 false
        (if bool_decide (o ∈ ops)
         then Some (slice 0 index expression, slice index (index + String.length o) expression,
                    slice (index + String.length o) (String.length expression) expression)
         else result) r.
Proof.
  intros Hops Ho Hhead Hp Hi. pose proof (operator_at_own ops o r Hops Ho Hhead) as Hown.
  pose proof (operators_text o Ho) as [Hbytes Hshape]. apply Nat.eqb_neq in Hi as Hi0.
  destruct o as [|a [|b [|c o]]]; [done| | |done]; cbn [String.list_ascii_of_string] in Hbytes.
  - apply Forall_singleton in Hbytes as (Ha & Hc & Hb). exists (Some a). split; [done|]. cbn [String.append split_from].
    rewrite split_step_operator, Hc by done. simpl. rewrite Hi0. cbn [String.append] in Hown. rewrite Hown.
    destruct (bool_decide _); cbn [String.length Nat.sub]; by rewrite Nat.add_1_r.
  - apply Forall_cons in Hbytes as [(Ha & Hc & Hb) Hbytes]. apply Forall_cons in Hbytes as [(Ha' & Hc' & Hb') _].
    exists (Some b). split; [done|]. cbn [String.append split_from].
    rewrite split_step_operator, Hc by done. simpl. rewrite Hi0. cbn [String.append] in Hown. rewrite Hown.
    replace (index + 2)%nat with (S (S index)) by lia. destruct (bool_decide _); cbn [String.length Nat.sub split_from];
      [by replace (index + 2)%nat with (S (S index)) by lia|].
    rewrite split_step_operator, Hc' by done. simpl. by rewrite Hshape.
Qed.

Lemma slice_three l o r :
  slice 0 (String.length l) (l +:+ (o +:+ r)) = l
  ∧ slice (String.length l) (String.length l + String.length o) (l +:+ (o +:+ r)) = o
  ∧ slice (String.length l + String.length o) (String.length (l +:+ (o +:+ r))) (l +:+ (o +:+ r)) = r.
Proof.
  split_and!.
  - apply slice_head.
  - unfold slice. replace (String.length l) with (String.length l + 0)%nat at 1 by lia. rewrite substring_app_r.
    replace (_ - _)%nat with (String.length o) by lia. apply substring_0_app.
  - rewrite <-slength_app, <-string_app_assoc. apply slice_tail.
Qed.

(** ** Operators *)

Inductive Operator :=
  | OOr | OAnd | OEqual | ODiffer | OAtMost | OAtLeast | OLess | OGreater | OPlus | OMinus | OTimes | ODivide | ORemainder.

Definition symbol (o : Operator) : string :=
  match o with
  | OOr => "||" | OAnd => "&&"
  | OEqual => "==" | ODiffer => "!=" | OAtMost => "<=" | OAtLeast => ">=" | OLess => "<" | OGreater => ">"
  | OPlus => "+" | OMinus => "-"
  | OTimes => "*" | ODivide => "/" | ORemainder => "%"
  end.

(** How tightly an operator binds. *)
Definition level (o : Operator) : nat :=
  match o with
  | OOr => 1
  | OAnd => 2
  | OEqual | ODiffer | OAtMost | OAtLeast | OLess | OGreater => 3
  | OPlus | OMinus => 4
  | OTimes | ODivide | ORemainder => 5
  end.

Lemma symbol_operator o : symbol o ∈ operators_of.
Proof. apply (bool_decide_eq_true_1 _). by destruct o; vm_compute. Qed.

Lemma symbol_level o ops j : LEVELS !! j = Some ops → bool_decide (symbol o ∈ ops) = (level o =? S j)%nat.
Proof. intros Hj. do 5 (destruct j as [|j]; [injection Hj as <-; by destruct o; vm_compute|]). done. Qed.

Lemma levels_elem j ops : LEVELS !! j = Some ops → ops ∈ LEVELS.
Proof. apply list_elem_of_lookup_2. Qed.

(** Operands with operators between them. *)
Fixpoint flat (t : string) (l : list (Operator * string)) : string :=
  match l with [] => t | (o, u) :: l' => t +:+ (symbol o +:+ flat u l') end.

Definition spread (t : string) (l : list (Operator * string)) : Prop :=
  swept true t ∧ t ≠ "" ∧ Forall (λ x, swept true x.2 ∧ x.2 ≠ "") l.

Lemma spread_cons t o u l : spread t ((o, u) :: l) ↔ (swept true t ∧ t ≠ "") ∧ spread u l.
Proof. unfold spread. rewrite Forall_cons. simpl. tauto. Qed.

Lemma spread_head t l : spread t l → head_plain (flat t l).
Proof.
  intros (Ht & Hn & _). pose proof (swept_head t Hn Ht) as Hh. destruct l as [|[o u] l]; [done|]. cbn [flat]. by destruct t.
Qed.

(** The last operator of a level. *)
Fixpoint last_split (ops : list string) (t : string) (l : list (Operator * string)) : option (string * string * string) :=
  match l with
  | [] => None
  | (o, u) :: l' =>
      match last_split ops u l' with
      | Some (a, o', b) => Some (t +:+ (symbol o +:+ a), o', b)
      | None => if bool_decide (symbol o ∈ ops) then Some (t, symbol o, flat u l') else None
      end
  end.

Lemma split_from_flat expression ops l : ops ∈ LEVELS → ∀ t pre p result,
  spread t l → expression = pre +:+ flat t l → after_backslash p = false →
  split_from expression ops (String.length pre) 0 p 0 false result (flat t l)
  = Ok (match last_split ops t l with Some (a, o, b) => Some (pre +:+ a, o, b) | None => result end).
Proof.
  intros Hops. induction l as [|[o u] l IH]; intros t pre p result Hspread Hexp Hp.
  - destruct Hspread as (Ht & _). by apply split_from_end.
  - apply spread_cons in Hspread as [[Ht Hn] Hu]. cbn [flat last_split] in *. unfold swept in Ht.
    rewrite (sweep_previous _ None p) in Ht by done.
    destruct (split_from_swept expression ops t Hops (symbol o +:+ flat u l) (String.length pre) p 0 false result _ _ _ Ht) as (p1 & Hp1 & ->).
    destruct (split_from_operator expression ops (symbol o) (flat u l) (String.length pre + String.length t) p1 result)
      as (p2 & Hp2 & ->); [done|apply symbol_operator|by apply spread_head|done|destruct t; simpl; [done|lia]|].
    pose proof (slice_three (pre +:+ t) (symbol o) (flat u l)) as (H1 & H2 & H3).
    rewrite slength_app, string_app_assoc, <-Hexp in H1, H2, H3. rewrite H1, H2, H3.
    replace (String.length pre + String.length t + String.length (symbol o))%nat
      with (String.length (pre +:+ (t +:+ symbol o))) by (rewrite !slength_app; lia).
    rewrite (IH u (pre +:+ (t +:+ symbol o)) p2); [|done|by rewrite Hexp, !string_app_assoc|done].
    destruct (last_split ops u l) as [[[a o'] b]|]; [by rewrite !string_app_assoc|]. by destruct (bool_decide _).
Qed.

Lemma last_split_none ops j l : LEVELS !! j = Some ops → Forall (λ o, S j < level o)%nat l.*1 → ∀ t, last_split ops t l = None.
Proof.
  intros Hj. induction l as [|[o u] l IH]; [done|]. intros [Ho Hl]%Forall_cons t. cbn [last_split].
  rewrite (IH Hl), (symbol_level o ops j Hj). simpl in Ho. destruct (Nat.eqb_spec (level o) (S j)); [lia|done].
Qed.

Lemma last_split_at ops j o u k l : LEVELS !! j = Some ops → level o = S j → Forall (λ o, S j < level o)%nat k.*1 →
  ∀ t, last_split ops t (l ++ (o, u) :: k)%list = Some (flat t l, symbol o, flat u k).
Proof.
  intros Hj Ho Hk. induction l as [|[o' u'] l IH]; intros t; cbn [app last_split flat].
  - rewrite (last_split_none ops j) by done. by rewrite (symbol_level o ops j Hj), Ho, Nat.eqb_refl.
  - by rewrite IH.
Qed.

Lemma split_operator_flat ops t l : ops ∈ LEVELS → spread t l → split_operator (flat t l) ops = Ok (last_split ops t l).
Proof.
  intros Hops Hs. unfold split_operator.
  pose proof (split_from_flat (flat t l) ops l Hops t "" None None Hs eq_refl eq_refl) as H. cbn [String.length] in H. rewrite H.
  by destruct (last_split ops t l) as [[[a o] b]|].
Qed.

Lemma first_split_at levels s x k ops :
  (∀ j ops, (j < k)%nat → levels !! j = Some ops → split_operator s ops = Ok None) →
  levels !! k = Some ops → split_operator s ops = Ok (Some x) → first_split levels s = Ok (Some x).
Proof.
  revert levels. induction k as [|k IH]; intros [|own levels] Hbefore Hk Hs; simplify_eq/=.
  - by rewrite Hs.
  - rewrite (Hbefore 0%nat own) by (done || lia). cbn [mbind outcome_mbind outcome_bind]. apply IH; try done.
    intros j ops' Hj. apply (Hbefore (S j)). lia.
Qed.

(** A text splits at the last of its loosest operators. *)
Lemma first_split_flat t l o u k :
  spread t (l ++ (o, u) :: k)%list → Forall (λ o', level o ≤ level o')%nat l.*1 → Forall (λ o', level o < level o')%nat k.*1 →
  first_split LEVELS (flat t (l ++ (o, u) :: k)%list) = Ok (Some (flat t l, symbol o, flat u k)).
Proof.
  intros Hs Hl Hk. destruct (level o) as [|j] eqn:Hlevel; [by destruct o|].
  destruct (LEVELS !! j) as [ops|] eqn:Hj; [|destruct o; simplify_eq/=].
  apply (first_split_at _ _ _ j ops); [|done|].
  - intros i ops' Hi Hops'. rewrite split_operator_flat by (by eauto using levels_elem).
    rewrite (last_split_none ops' i); [done|done|]. rewrite fmap_app, Forall_app. csimpl. rewrite Forall_cons. split_and!.
    + eapply Forall_impl; [exact Hl|]. simpl. lia.
    + lia.
    + eapply Forall_impl; [exact Hk|]. simpl. lia.
  - rewrite split_operator_flat by (by eauto using levels_elem). by rewrite (last_split_at ops j).
Qed.

(** ** Parentheses, delimiters and blanks *)

(** The count of parentheses over a text; [None] when it becomes negative. *)
Fixpoint walk (depth : Z) (s : string) : option Z :=
  match s with
  | "" => Some depth
  | String a s' =>
      if Ascii.eqb a "(" then walk (depth + 1) s'
      else if Ascii.eqb a ")" then if depth - 1 <? 0 then None else walk (depth - 1) s'
      else walk depth s'
  end.


Lemma walk_shift d s r k : 0 ≤ k → walk d s = Some r → walk (d + k) s = Some (r + k).
Proof.
  intros Hk. revert d. induction s as [|a s IH]; intros d; cbn [walk]; [by intros [= ->]|].
  destruct (Ascii.eqb a "("); [replace (d + k + 1) with (d + 1 + k) by lia; apply IH|].
  destruct (Ascii.eqb a ")"); [|apply IH]. destruct (Z.ltb_spec (d - 1) 0); [done|].
  destruct (Z.ltb_spec (d + k - 1) 0); [lia|]. replace (d + k - 1) with (d - 1 + k) by lia. apply IH.
Qed.

Lemma walk_app d s t r : walk d s = Some r → walk d (s +:+ t) = walk r t.
Proof.
  revert d. induction s as [|a s IH]; intros d; cbn [walk String.append]; [by intros [= ->]|].
  repeat case_match; try done; apply IH.
Qed.

Lemma walk_0_shift s k : walk 0 s = Some 0 → 0 ≤ k → walk k s = Some k.
Proof. intros Hs Hk. by apply (walk_shift _ _ _ k Hk) in Hs. Qed.

(** The count comes back to zero inside the text, before what follows. *)
Lemma closes_inside d s t : 1 ≤ d → t ≠ "" → walk d s = Some 0 → closes_at_end d (s +:+ t) = false.
Proof.
  revert d. induction s as [|a s IH]; intros d Hd Ht; cbn [walk closes_at_end String.append]; [intros [= ->]; lia|].
  destruct (Ascii.eqb_spec a "("); [subst a; simpl; apply IH; [lia|done]|].
  destruct (Ascii.eqb_spec a ")"); [|by apply IH]. destruct (Z.ltb_spec (d - 1) 0); [done|].
  destruct (Z.eqb_spec (d - 1) 0); [|apply IH; [lia|done]]. intros _. destruct s; [by destruct t|done].
Qed.

Lemma closes_last d s : 0 ≤ d → walk d s = Some 0 → closes_at_end (d + 1) (s +:+ ")") = true.
Proof.
  revert d. induction s as [|a s IH]; intros d Hd; cbn [walk closes_at_end String.append].
  - intros [= ->]. done.
  - destruct (Ascii.eqb_spec a "("); [subst a; simpl; apply IH; lia|].
    destruct (Ascii.eqb_spec a ")"); [|by apply IH]. destruct (Z.ltb_spec (d - 1) 0); [done|].
    replace (d + 1 - 1) with (d - 1 + 1) by lia. destruct (Z.eqb_spec (d - 1 + 1) 0); [lia|]. apply IH. lia.
Qed.

(** A text without blanks at its ends. *)
Definition graphic (a : ascii) : bool := negb (is_whitespace (String a "")).
Fixpoint ends_graphic (s : string) : bool :=
  match s with "" => false | String a "" => graphic a | String _ s' => ends_graphic s' end.
Definition starts_graphic (s : string) : bool := match s with "" => false | String a _ => graphic a end.

Fixpoint singles (s : string) : list string :=
  match s with "" => [] | String a s' => String a "" :: singles s' end.

Lemma chars_singles s : is_ascii s = true → chars s = singles s.
Proof.
  assert (is_ascii s = true → chars_from s = ("", singles s)) as Hs.
  { unfold is_ascii. induction s as [|a s IH]; [done|]. cbn [bytes forallb chars_from singles]. intros [Ha Hs]%andb_prop.
    rewrite IH by done. by rewrite is_continuation_low. }
  intros Ha. unfold chars. by rewrite Hs.
Qed.

Lemma singles_app s t : singles (s +:+ t) = (singles s ++ singles t)%list.
Proof. induction s as [|a s IH]; simpl; congruence. Qed.

Lemma singles_last s : ends_graphic s = true → ∃ s' a, s = s' +:+ String a "" ∧ graphic a = true.
Proof.
  induction s as [|a s IH]; [done|]. cbn [ends_graphic]. destruct s as [|b s]; [by exists "", a|].
  intros (s' & c & -> & Hc)%IH. by exists (String a s'), c.
Qed.

Lemma trim_graphic s : is_ascii s = true → starts_graphic s = true → ends_graphic s = true → trim s = s.
Proof.
  intros Ha Hs He. assert (trim_start s = s) as Ht.
  { rewrite <-(concat_chars s) at 2. unfold trim_start. rewrite chars_singles by done. f_equal.
    destruct s as [|a s]; [done|]. cbn [singles drop_ws]. unfold starts_graphic, graphic in Hs.
    by destruct (is_whitespace (String a "")). }
  unfold trim. rewrite Ht. unfold trim_end. rewrite <-(concat_chars s) at 2. rewrite chars_singles by done.
  apply singles_last in He as (s' & a & -> & Hg). rewrite singles_app, rev_app_distr. cbn [singles rev app drop_ws].
  unfold graphic in Hg. destruct (is_whitespace (String a "")); [done|]. cbn [rev app]. by rewrite rev_involutive.
Qed.

Lemma ends_graphic_app s t : ends_graphic t = true → ends_graphic (s +:+ t) = true.
Proof. intros Ht. induction s as [|a s IH]; [done|]. cbn [String.append ends_graphic]. by destruct (s +:+ t). Qed.

Lemma starts_graphic_app s t : starts_graphic s = true → starts_graphic (s +:+ t) = true.
Proof. by destruct s. Qed.

(** A text that leaves the open brackets as they are. *)
Definition delimited (s : string) : Prop := ∀ stack rest,
  scan_delimiters stack false false (singles s ++ rest)%list = scan_delimiters stack false false rest.

Lemma delimited_app s t : delimited s → delimited t → delimited (s +:+ t).
Proof. intros Hs Ht stack rest. by rewrite singles_app, <-app_assoc, Hs, Ht. Qed.

Lemma delimited_parentheses s : delimited s → delimited ("(" +:+ (s +:+ ")")).
Proof. intros Hs stack rest. cbn [String.append singles app]. rewrite singles_app, <-app_assoc. cbn [scan_delimiters]. simpl. by rewrite Hs. Qed.

Lemma scan_delimiters_frame cs : ∀ stack q e stack' under rest, (q = false → e = false) →
  scan_delimiters stack q e cs = Ok (stack', false) →
  scan_delimiters (stack ++ under) q e (cs ++ rest)%list = scan_delimiters (stack' ++ under) false false rest.
Proof.
  induction cs as [|c cs IH]; intros stack q e stack' under rest Hqe; cbn [scan_delimiters app].
  - intros [= <- ->]. by rewrite Hqe.
  - destruct q.
    + repeat case_match; intros Hs; (eapply IH; [|exact Hs]); done.
    + rewrite Hqe by done. repeat case_match; simplify_eq/=; try done; intros Hs; try (eapply IH in Hs; [exact Hs|done]); congruence.
Qed.

Lemma delimited_scan s : is_ascii s = true → scan_delimiters [] false false (chars s) = Ok ([], false) → delimited s.
Proof. intros Ha Hs stack rest. rewrite chars_singles in Hs by done. by apply (scan_delimiters_frame _ [] false false [] stack rest). Qed.

(** ** Structured expressions *)

Inductive Unary := UNot | UPlus | UMinus.
Inductive Function_ := FAbs | FIsNan | FIsFinite | FChanged.

Inductive Expr :=
  | EAtom (text : string)
  | EGroup (e : Expr)
  | EUnary (op : Unary) (e : Expr)
  | ECall (f : Function_) (e : Expr)
  | EBinary (op : Operator) (l r : Expr).

Definition unary_text (op : Unary) : string := match op with UNot => "!" | UPlus => "+" | UMinus => "-" end.

Definition function_text (f : Function_) : string :=
  match f with FAbs => "abs" | FIsNan => "isnan" | FIsFinite => "isfinite" | FChanged => "changed" end.

(** How tightly the outermost part of an expression binds. *)
Definition tightness (e : Expr) : nat :=
  match e with
  | EUnary _ _ => 0
  | EBinary op _ _ => level op
  | EAtom _ | EGroup _ | ECall _ _ => 6
  end.

Definition wrap (b : bool) (t : string) : string := if b then "(" +:+ (t +:+ ")") else t.

(** The text of an expression, with [pad] around the binary operators.  An operand is
    in parentheses where it binds less tightly than its operator, a right one also
    where it binds as tightly, and a unary one always. *)
Fixpoint print (pad : string) (e : Expr) : string :=
  match e with
  | EAtom text => text
  | EGroup e => "(" +:+ (print pad e +:+ ")")
  | EUnary op e => unary_text op +:+ print pad e
  | ECall f e => function_text f +:+ ("(" +:+ (print pad e +:+ ")"))
  | EBinary op l r =>
      wrap (tightness l <? level op)%nat (print pad l)
      +:+ ((pad +:+ (symbol op +:+ pad)) +:+ wrap (tightness r <=? level op)%nat (print pad r))
  end.

(** A text the evaluator takes as a whole, wherever it stands. *)
Definition plain_atom (a : string) : bool :=
  is_ascii a && starts_graphic a && ends_graphic a
  && bool_decide (sweep true None 0 false a = Some (false, 0, false)) && bool_decide (walk 0 a = Some 0)
  && negb (outer_parentheses a) && match function_call a with None => true | Some _ => false end
  && match scan_delimiters [] false false (chars a) with Ok ([], false) => true | _ => false end.

(** A unary operator stands before an atom or a call only: the evaluator does not
    remove parentheses after it. *)
Fixpoint well_formed (e : Expr) : Prop :=
  match e with
  | EAtom a => plain_atom a = true
  | EUnary _ e => match e with EAtom _ | ECall _ _ => well_formed e | _ => False end
  | EGroup e | ECall _ e => well_formed e
  | EBinary _ l r => well_formed l ∧ well_formed r
  end.

(** *** Their values *)

(** A number is true when it is neither zero nor NaN. *)
Definition as_truth (v : Value) : outcome message bool :=
  match v with
  | VBoolean b => Ok b
  | VNumber x => Ok (negb (f_eq x f_zero || f_is_nan x))
  | VText _ => Err [PS "text is not a boolean value"]
  end.

Definition as_number (v : Value) : outcome message f64 :=
  match v with
  | VNumber x => Ok x
  | VBoolean true => Ok f_one
  | VBoolean false => Ok f_zero
  | VText _ => Err [PS "text is not a numeric value"]
  end.

Definition on_numbers {A} (f : f64 → f64 → A) (a b : Value) : outcome message A :=
  x ← as_number a; y ← as_number b; Ok (f x y).

(** Numbers are equal when they have the same bits, or are both NaN. *)
Definition same_value (a b : Value) : outcome message bool :=
  match a, b with
  | VText x, VText y => Ok (bool_decide (x = y))
  | VBoolean x, VBoolean y => Ok (bool_decide (x = y))
  | _, _ => on_numbers (λ x y, bool_decide (f_is_nan x = true ∧ f_is_nan y = true ∨ to_bits x = to_bits y)) a b
  end.

(** The value of an operation whose operands are both evaluated. *)
Definition operate (op : Operator) (a b : Value) : outcome message Value :=
  match op with
  | OOr => p ← as_truth a; q ← as_truth b; Ok (VBoolean (p || q))
  | OAnd => p ← as_truth a; q ← as_truth b; Ok (VBoolean (p && q))
  | OEqual => VBoolean <$> same_value a b
  | ODiffer => VBoolean ∘ negb <$> same_value a b
  | OAtMost => VBoolean <$> on_numbers f_le a b
  | OAtLeast => VBoolean <$> on_numbers f_ge a b
  | OLess => VBoolean <$> on_numbers f_lt a b
  | OGreater => VBoolean <$> on_numbers f_gt a b
  | OPlus => VNumber <$> on_numbers f_add a b
  | OMinus => VNumber <$> on_numbers f_sub a b
  | OTimes => VNumber <$> on_numbers f_mul a b
  | ODivide => VNumber <$> on_numbers f_div a b
  | ORemainder => VNumber <$> on_numbers f_rem a b
  end.

(** Whether the left operand decides the operation: a false one [&&], a true one [||]. *)
Definition decided (op : Operator) (a : Value) : outcome message bool :=
  match op with
  | OOr => as_truth a
  | OAnd => negb <$> as_truth a
  | _ => Ok false
  end.

Definition apply_unary (op : Unary) (v : Value) : outcome message Value :=
  match op with
  | UNot => VBoolean ∘ negb <$> as_truth v
  | UPlus => VNumber <$> as_number v
  | UMinus => VNumber ∘ f_neg <$> as_number v
  end.

Section meaning.
Context `{Libm} `{Build} `{LuaEngine} `{FloatDisplay}.
Context (s : Simulator) (thread : nat) (changed : string → f64 → bool) (pad : string).

(** [changed] is asked with the text of its argument. *)
Definition apply_call (f : Function_) (argument : string) (v : Value) : outcome message Value :=
  x ← as_number v;
  Ok match f with
     | FAbs => VNumber (f_abs x)
     | FIsNan => VBoolean (f_is_nan x)
     | FIsFinite => VBoolean (f_is_finite x)
     | FChanged => VBoolean (changed argument x)
     end.

(** The value of an expression, by its structure: the left operand first, the right
    one when the left one does not decide. *)
Fixpoint denote (e : Expr) : outcome message Value :=
  match e with
  | EAtom a => atom s thread a
  | EGroup e => denote e
  | EUnary op e => v ← denote e; apply_unary op v
  | ECall f e => v ← denote e; apply_call f (print pad e) v
  | EBinary op l r =>
      a ← denote l;
      stop ← decided op a;
      if stop : bool then Ok (VBoolean match op with OOr => true | _ => false end)
      else b ← denote r; operate op a b
  end.
End meaning.

Lemma truthy_truth v : truthy v = as_truth v.
Proof. destruct v as [x| |]; [|done..]. simpl. unfold f_ne. by rewrite negb_orb. Qed.

Lemma number_number v : number v = as_number v.
Proof. by destruct v as [|[]|]. Qed.

Lemma numeric_equal_spec x y :
  numeric_equal x y = bool_decide (f_is_nan x = true ∧ f_is_nan y = true ∨ to_bits x = to_bits y).
Proof.
  unfold numeric_equal. destruct (f_is_nan x) eqn:Hx, (f_is_nan y) eqn:Hy; cbn [andb orb]; symmetry;
    first [by apply bool_decide_eq_true; left|idtac];
    destruct (Z.eqb_spec (to_bits x) (to_bits y)); (apply bool_decide_eq_true || apply bool_decide_eq_false); naive_solver.
Qed.

(** The evaluator's operations are these. *)
Lemma binary_operate op a b : binary a (symbol op) b = match op with
    | OOr => p ← as_truth a; if p : bool then Ok (VBoolean true) else VBoolean <$> as_truth b
    | OAnd => p ← as_truth a; if p : bool then VBoolean <$> as_truth b else Ok (VBoolean false)
    | _ => operate op a b
    end.
Proof.
  assert (∀ x y : string, String.eqb x y = bool_decide (x = y)) as Htext.
  { intros x y. destruct (String.eqb_spec x y); symmetry; by (apply bool_decide_eq_true || apply bool_decide_eq_false). }
  destruct op; cbn [symbol operate]; unfold binary, is_one_of; simpl;
    rewrite ?truthy_truth; try (destruct (as_truth a) as [[]|e|]; [|done..]; rewrite ?truthy_truth; by destruct (as_truth b)).
  all: unfold on_numbers; rewrite ?number_number; try (destruct (as_number a); [|done..]; cbn; rewrite ?number_number; by destruct (as_number b)).
  all: destruct a as [x|[]|x], b as [y|[]|y]; unfold same_value, on_numbers; simpl; by rewrite ?numeric_equal_spec, ?Htext.
Qed.

Lemma short_circuit_decided op a :
  short_circuit a (symbol op)
  = stop ← decided op a; Ok (if stop : bool then Some (VBoolean match op with OOr => true | _ => false end) else None).
Proof. destruct op; try done; unfold short_circuit; simpl; rewrite truthy_truth; by destruct (as_truth a) as [[]| |]. Qed.

Lemma undecided_operate op a b : decided op a = Ok false → binary a (symbol op) b = operate op a b.
Proof.
  intros Hd. rewrite binary_operate. destruct op; try done; cbn [decided operate] in *.
  - destruct (as_truth a) as [[]| |]; simplify_eq/=. by destruct (as_truth b).
  - destruct (as_truth a) as [[]| |]; simplify_eq/=. by destruct (as_truth b).
Qed.

(** What the text of an expression is like. *)
Record operand (t : string) : Prop := {
  oa_ascii : is_ascii t = true;
  oa_starts : starts_graphic t = true;
  oa_ends : ends_graphic t = true;
  oa_swept : swept true t;
  oa_walk : walk 0 t = Some 0;
  oa_delimited : delimited t;
}.

(** A text that leaves every counter where it finds it. *)
Record inert (t : string) : Prop := {
  in_ascii : is_ascii t = true;
  in_swept : swept false t;
  in_walk : walk 0 t = Some 0;
  in_delimited : delimited t;
}.

(** The same for a text with operators at its surface. *)
Record enclosed (t : string) : Prop := {
  en_starts : starts_graphic t = true;
  en_ends : ends_graphic t = true;
  en_inert : inert t;
}.

Lemma operand_nonempty t : operand t → t ≠ "".
Proof. intros [_ Hs _ _ _ _]. by destruct t. Qed.

Lemma operand_inert t : operand t → inert t.
Proof. intros [? ? ? Hs ? ?]. constructor; try done. by apply sweep_lax. Qed.

Lemma operand_enclosed t : operand t → enclosed t.
Proof. intros Ht. constructor; [apply Ht..|by apply operand_inert]. Qed.

Lemma enclosed_nonempty t : enclosed t → t ≠ "".
Proof. intros [Hs _ _]. by destruct t. Qed.

Lemma inert_app s t : inert s → inert t → inert (s +:+ t).
Proof.
  intros [Sa Sw Sp Sd] [Ta Tw Tp Td]. constructor.
  - by rewrite is_ascii_app, Sa.
  - by apply swept_app.
  - by rewrite (walk_app _ _ _ 0 Sp).
  - by apply delimited_app.
Qed.

Lemma enclosed_parentheses t : enclosed t → operand ("(" +:+ (t +:+ ")")).
Proof.
  intros [_ _ [Ha Hs Hw Hd]]. constructor.
  - by rewrite !is_ascii_app, Ha.
  - done.
  - apply ends_graphic_app. by apply ends_graphic_app.
  - by eapply swept_parentheses.
  - cbn [String.append walk]. simpl. rewrite (walk_app _ _ _ 1); [done|]. by apply walk_0_shift.
  - by apply delimited_parentheses.
Qed.

Lemma operand_trim t : operand t → trim t = t.
Proof. intros [Ha Hs He _ _ _]. by apply trim_graphic. Qed.

Lemma enclosed_app l m r : enclosed l → inert m → enclosed r → enclosed (l +:+ (m +:+ r)).
Proof.
  intros [Ls _ Li] Hm [_ Re Ri]. constructor.
  - by apply starts_graphic_app.
  - by do 2 apply ends_graphic_app.
  - by repeat apply inert_app.
Qed.

Lemma enclosed_operator o : o ∈ operators_of ∨ o ∈ unary_text <$> [UNot; UPlus; UMinus] → enclosed o.
Proof.
  intros Ho. assert (o ∈ (operators_of ++ (unary_text <$> [UNot; UPlus; UMinus]))%list) as Hin by (apply elem_of_app; tauto).
  clear Ho. repeat (apply elem_of_cons in Hin as [->|Hin]; [by repeat constructor|]). by apply elem_of_nil in Hin.
Qed.

Lemma name_operand f : f ≠ "" → name_bytes f = true → operand f.
Proof.
  intros Hne Hf. constructor; [..|by apply swept_name| |].
  - unfold is_ascii. unfold name_bytes in Hf. induction f as [|a f IH]; [done|]. cbn [bytes forallb] in *. apply andb_prop in Hf as [Ha Hf].
    destruct (name_byte a Ha) as (_ & _ & _ & _ & _ & _ & _ & _ & _ & _ & ->). destruct f; [done|]. by apply IH.
  - destruct f as [|a f]; [done|]. cbn [starts_graphic]. apply andb_prop in Hf as [Ha _].
    unfold graphic. by destruct (name_byte a Ha) as (_ & _ & _ & _ & _ & -> & _).
  - induction f as [|a f IH]; [done|]. unfold name_bytes in Hf. cbn [bytes forallb] in Hf. apply andb_prop in Hf as [Ha Hf].
    cbn [ends_graphic]. destruct f as [|b f]; [|by apply IH]. unfold graphic. by destruct (name_byte a Ha) as (_ & _ & _ & _ & _ & -> & _).
  - clear Hne. induction f as [|a f IH]; [done|]. unfold name_bytes in Hf. cbn [bytes forallb] in Hf. apply andb_prop in Hf as [Ha Hf].
    cbn [walk]. destruct (name_byte a Ha) as (_ & _ & _ & -> & -> & _). by apply IH.
  - clear Hne. intros stack rest. induction f as [|a f IH]; [done|]. unfold name_bytes in Hf. cbn [bytes forallb] in Hf. apply andb_prop in Hf as [Ha Hf].
    cbn [singles app scan_delimiters]. destruct (name_byte a Ha) as (_ & _ & _ & _ & _ & _ & -> & -> & -> & -> & _). by apply IH.
Qed.

Lemma plain_operand a : plain_atom a = true → operand a.
Proof.
  unfold plain_atom. rewrite !andb_true_iff, !bool_decide_eq_true. intros [[[[[[[Ha Hs] He] Hw] Hp] _] _] Hd].
  constructor; try done. apply delimited_scan; [done|].
  destruct (scan_delimiters [] false false (chars a)) as [[[|] []]| |]; done.
Qed.

(** ** Blanks around the operators *)

(** Spaces and tabs. *)
Definition blank_text (pad : string) : bool := forallb (λ b, (b =? 32) || (b =? 9)) (bytes pad).

Lemma blank_byte a : (byte_of a =? 32) || (byte_of a =? 9) = true →
  operator_byte a = false ∧ (∀ p d, split_step p a d false = (d, false)) ∧ is_backslash a = false
  ∧ Ascii.eqb a "(" = false ∧ Ascii.eqb a ")" = false ∧ is_whitespace (String a "") = true
  ∧ String.eqb (String a "") DQUOTE = false ∧ is_one_of (String a "") ["("; "["] = false
  ∧ String.eqb (String a "") ")" = false ∧ String.eqb (String a "") "]" = false ∧ byte_of a <? 128 = true.
Proof.
  assert (∀ p d, split_step p a d false =
    if Ascii.eqb a (byte 34) then split_step p a d false else if Ascii.eqb a "(" || Ascii.eqb a "[" then (d + 1, false)
    else if Ascii.eqb a ")" || Ascii.eqb a "]" then (d - 1, false) else (d, false)) as Hs.
  { intros p d. unfold split_step. destruct (Ascii.eqb a (byte 34)); simpl; [done|]. by rewrite !andb_true_r. }
  setoid_rewrite Hs. clear Hs. destruct a as [[] [] [] [] [] [] [] []]; vm_compute; try discriminate; intros _; by split_and!.
Qed.

Lemma blank_swept pad : blank_text pad = true → swept true pad.
Proof.
  unfold swept, blank_text. assert (∀ p, after_backslash p = false → forallb (λ b, (b =? 32) || (b =? 9)) (bytes pad) = true →
    sweep true p 0 false pad = Some (false, 0, false)) as Hg; [|by eauto].
  induction pad as [|a pad IH]; intros p Hp; cbn [sweep bytes forallb]; [by rewrite Hp|].
  intros [Ha Hf]%andb_prop. destruct (blank_byte a Ha) as (Ho & Hs & Hb & _). rewrite Hs, Ho. simpl. by apply IH.
Qed.

Lemma blank_inert pad : blank_text pad = true → inert pad.
Proof.
  intros Hpad. constructor.
  - unfold is_ascii. unfold blank_text in Hpad. induction pad as [|a pad IH]; [done|]. cbn [bytes forallb] in *.
    apply andb_prop in Hpad as [Ha Hf]. destruct (blank_byte a Ha) as (_ & _ & _ & _ & _ & _ & _ & _ & _ & _ & ->). by apply IH.
  - apply sweep_lax. by apply blank_swept.
  - unfold blank_text in Hpad. induction pad as [|a pad IH]; [done|]. cbn [bytes forallb] in Hpad. apply andb_prop in Hpad as [Ha Hf].
    cbn [walk]. destruct (blank_byte a Ha) as (_ & _ & _ & -> & -> & _). by apply IH.
  - intros stack rest. unfold blank_text in Hpad. induction pad as [|a pad IH]; [done|]. cbn [bytes forallb] in Hpad. apply andb_prop in Hpad as [Ha Hf].
    cbn [singles app scan_delimiters]. destruct (blank_byte a Ha) as (_ & _ & _ & _ & _ & _ & -> & -> & -> & -> & _). by apply IH.
Qed.

Lemma drop_ws_pad pad cs : blank_text pad = true → drop_ws (singles pad ++ cs)%list = drop_ws cs.
Proof.
  unfold blank_text. induction pad as [|a pad IH]; [done|]. cbn [bytes forallb singles app drop_ws]. intros [Ha Hp]%andb_prop.
  destruct (blank_byte a Ha) as (_ & _ & _ & _ & _ & -> & _). by apply IH.
Qed.

Lemma drop_ws_rev_blanks pad cs : blank_text pad = true → drop_ws (rev (singles pad) ++ cs)%list = drop_ws cs.
Proof.
  unfold blank_text. revert cs. induction pad as [|a pad IH]; [done|]. intros cs. cbn [bytes forallb singles rev]. intros [Ha Hp]%andb_prop.
  rewrite <-app_assoc, IH by done. cbn [app drop_ws]. by destruct (blank_byte a Ha) as (_ & _ & _ & _ & _ & -> & _).
Qed.

Lemma drop_ws_graphic t : starts_graphic t = true → drop_ws (singles t) = singles t.
Proof.
  destruct t as [|a t]; [done|]. cbn [singles drop_ws]. unfold starts_graphic, graphic. by destruct (is_whitespace (String a "")).
Qed.

Lemma concat_singles s : concat_strings (singles s) = s.
Proof. induction s as [|a s IH]; [done|]. cbn [singles]. change (String a (concat_strings (singles s)) = String a s). by rewrite IH. Qed.

Lemma trim_blanks p t q : blank_text p = true → blank_text q = true → is_ascii t = true → starts_graphic t = true → ends_graphic t = true →
  trim (p +:+ (t +:+ q)) = t.
Proof.
  intros Hp Hq Ha Hs He. pose proof (in_ascii _ (blank_inert p Hp)) as Hpa. pose proof (in_ascii _ (blank_inert q Hq)) as Hqa.
  assert (trim_start (p +:+ (t +:+ q)) = t +:+ q) as Ht.
  { unfold trim_start. rewrite chars_singles by (by rewrite !is_ascii_app, Hpa, Ha, Hqa). rewrite singles_app, drop_ws_pad by done.
    rewrite drop_ws_graphic, concat_singles; [done|by apply starts_graphic_app]. }
  unfold trim. rewrite Ht. unfold trim_end. rewrite chars_singles by (by rewrite is_ascii_app, Ha).
  rewrite singles_app, rev_app_distr, drop_ws_rev_blanks by done.
  pose proof (trim_graphic t Ha Hs He) as Htrim. unfold trim, trim_start, trim_end in Htrim.
  rewrite (chars_singles t Ha), drop_ws_graphic, concat_singles, (chars_singles t Ha) in Htrim by done. exact Htrim.
Qed.

(** ** The printed text *)

Lemma function_name f : function_text f ≠ "" ∧ name_bytes (function_text f) = true.
Proof. by destruct f. Qed.

Lemma unary_inert op : inert (unary_text op).
Proof. apply en_inert, enclosed_operator. right. destruct op; set_solver. Qed.

Lemma symbol_inert op : inert (symbol op).
Proof. apply en_inert, enclosed_operator. left. apply symbol_operator. Qed.

Lemma operator_inert pad op : blank_text pad = true → inert (pad +:+ (symbol op +:+ pad)).
Proof. intros Hp. pose proof (blank_inert pad Hp). pose proof (symbol_inert op). by repeat apply inert_app. Qed.

Lemma wrap_enclosed b t : enclosed t → enclosed (wrap b t).
Proof. intros Ht. destruct b; [by apply operand_enclosed, enclosed_parentheses|done]. Qed.

Lemma call_operand f t : enclosed t → operand (function_text f +:+ ("(" +:+ (t +:+ ")"))).
Proof.
  intros Ht. destruct (function_name f) as [Hne Hf]. pose proof (name_operand _ Hne Hf) as [Fa Fs Fe Fw Fp Fd].
  pose proof (enclosed_parentheses _ Ht) as [Pa Ps Pe Pw Pp Pd]. constructor.
  - by rewrite is_ascii_app, Fa.
  - by apply starts_graphic_app.
  - by apply ends_graphic_app.
  - by apply swept_app.
  - by rewrite (walk_app _ _ _ 0 Fp).
  - by apply delimited_app.
Qed.

Lemma print_enclosed pad e : blank_text pad = true → well_formed e → enclosed (print pad e).
Proof.
  intros Hpad. induction e as [a|e IH|op e IH|f e IH|op l IHl r IHr]; cbn [print well_formed].
  - intros. by apply operand_enclosed, plain_operand.
  - intros. by apply operand_enclosed, enclosed_parentheses, IH.
  - intros He. assert (enclosed (print pad e)) as [Hs Hn Hi] by (apply IH; by destruct e).
    constructor; [by destruct op|by apply ends_graphic_app|apply inert_app; [apply unary_inert|done]].
  - intros. by apply operand_enclosed, call_operand, IH.
  - intros [Hl Hr]. apply enclosed_app; [by apply wrap_enclosed, IHl|by apply operator_inert|by apply wrap_enclosed, IHr].
Qed.

(** Operands with operators of at least a level between them. *)
Definition spread_above (n : nat) (x : string) : Prop :=
  ∃ t l, x = flat t l ∧ spread t l ∧ Forall (λ o, n ≤ level o)%nat l.*1.

Lemma spread_operand n t : operand t → spread_above n t.
Proof. intros Ht. exists t, []. split; [done|]. split; [|constructor]. split; [apply Ht|split; [by apply operand_nonempty|constructor]]. Qed.

Lemma spread_weaken n m x : (m ≤ n)%nat → spread_above n x → spread_above m x.
Proof.
  intros Hm (t & l & -> & Hs & Hl). exists t, l. split; [done|]. split; [done|]. eapply Forall_impl; [exact Hl|]. simpl. lia.
Qed.

Lemma app_nonempty_l s t : s ≠ "" → s +:+ t ≠ "".
Proof. by destruct s. Qed.

Lemma app_nonempty_r s t : t ≠ "" → s +:+ t ≠ "".
Proof. by destruct s. Qed.

Lemma flat_snoc l : ∀ t q, spread t l → swept true q →
  ∃ t' l', flat t l +:+ q = flat t' l' ∧ spread t' l' ∧ l'.*1 = l.*1.
Proof.
  induction l as [|[o u] l IH]; intros t q Hs Hq.
  - destruct Hs as (Ht & Hn & _). exists (t +:+ q), []. split; [done|]. split; [|done].
    split; [by apply swept_app|split; [by apply app_nonempty_l|constructor]].
  - apply spread_cons in Hs as [Ht Hu]. destruct (IH u q Hu Hq) as (u' & l' & Heq & Hs' & Hl'). exists t, ((o, u') :: l').
    cbn [flat]. rewrite !string_app_assoc, Heq. split; [done|]. split; [by apply spread_cons|]. csimpl. by rewrite Hl'.
Qed.

Lemma flat_prefix q t l : spread t l → swept true q → q +:+ flat t l = flat (q +:+ t) l ∧ spread (q +:+ t) l.
Proof.
  intros (Ht & Hn & Hl) Hq. split; [|split; [by apply swept_app|split; [by apply app_nonempty_r|done]]].
  destruct l as [|[o u] l]; [done|]. cbn [flat]. by rewrite string_app_assoc.
Qed.

Lemma flat_app t l o u k : flat t (l ++ (o, u) :: k)%list = flat t l +:+ (symbol o +:+ flat u k).
Proof. revert t. induction l as [|[o' u'] l IH]; intros t; cbn [app flat]; [done|]. by rewrite IH, !string_app_assoc. Qed.

(** Two texts joined by an operator that binds no tighter than those of the first, and
    less than those of the second. *)
Lemma spread_join pad op x y : blank_text pad = true → spread_above (level op) x → spread_above (S (level op)) y →
  ∃ t l u k, x +:+ pad = flat t l ∧ pad +:+ y = flat u k ∧ spread t (l ++ (op, u) :: k)%list
    ∧ Forall (λ o, level op ≤ level o)%nat l.*1 ∧ Forall (λ o, level op < level o)%nat k.*1.
Proof.
  intros Hpad (t & l & -> & Hs & Hl) (u & k & -> & Hu & Hk). apply blank_swept in Hpad.
  destruct (flat_snoc l t pad Hs Hpad) as (t' & l' & Heq & Hs' & Hl'). destruct (flat_prefix pad u k Hu Hpad) as [Hpre Hu'].
  exists t', l', (pad +:+ u), k. split_and!; try done; [|by rewrite Hl'].
  destruct Hs' as (Ht & Hn & Hf). split; [done|]. split; [done|]. apply Forall_app. split; [done|].
  destruct Hu' as (Hu1 & Hu2 & Hu3). by constructor.
Qed.

Lemma split_joined pad op x y : blank_text pad = true → spread_above (level op) x → spread_above (S (level op)) y →
  first_split LEVELS (x +:+ ((pad +:+ (symbol op +:+ pad)) +:+ y)) = Ok (Some (x +:+ pad, symbol op, pad +:+ y))
  ∧ spread_above (level op) (x +:+ ((pad +:+ (symbol op +:+ pad)) +:+ y)).
Proof.
  intros Hpad Hx Hy. destruct (spread_join pad op x y Hpad Hx Hy) as (t & l & u & k & Hl & Hk & Hs & Hlow & Hhigh).
  assert (x +:+ ((pad +:+ (symbol op +:+ pad)) +:+ y) = flat t (l ++ (op, u) :: k)%list) as ->.
  { rewrite flat_app, <-Hl, <-Hk. by rewrite !string_app_assoc. }
  rewrite Hl, Hk. split; [by apply first_split_flat|]. exists t, (l ++ (op, u) :: k)%list. split; [done|]. split; [done|].
  rewrite fmap_app, Forall_app. csimpl. rewrite Forall_cons. split_and!; [done|lia|].
  eapply Forall_impl; [exact Hhigh|]. simpl. lia.
Qed.

Lemma wrapped_spread pad e n : blank_text pad = true → well_formed e → (1 ≤ n)%nat →
  (tightness e ≠ 0%nat → spread_above (tightness e) (print pad e)) →
  spread_above n (wrap (tightness e <? n)%nat (print pad e)).
Proof.
  intros Hpad He Hn Hs. destruct (Nat.ltb_spec (tightness e) n) as [|Hle]; cbn [wrap].
  - by apply spread_operand, enclosed_parentheses, print_enclosed.
  - apply (spread_weaken (tightness e)); [done|]. apply Hs. lia.
Qed.

Lemma leb_ltb_S a b : (a <=? b)%nat = (a <? S b)%nat.
Proof. done. Qed.

Lemma level_pos op : (1 ≤ level op)%nat.
Proof. destruct op; simpl; lia. Qed.

Lemma print_spread pad e : blank_text pad = true → well_formed e → tightness e ≠ 0%nat → spread_above (tightness e) (print pad e).
Proof.
  intros Hpad. induction e as [a|e IH|op e IH|f e IH|op l IHl r IHr]; cbn [print well_formed tightness]; intros Hwf Ht.
  - by apply spread_operand, plain_operand.
  - by apply spread_operand, enclosed_parentheses, print_enclosed.
  - done.
  - by apply spread_operand, call_operand, print_enclosed.
  - destruct Hwf as [Hl Hr]. rewrite leb_ltb_S. apply split_joined; [done|apply wrapped_spread; auto using level_pos|].
    apply wrapped_spread; auto. lia.
Qed.

Lemma print_split pad op l r : blank_text pad = true → well_formed l → well_formed r →
  let x := wrap (tightness l <? level op)%nat (print pad l) in
  let y := wrap (tightness r <=? level op)%nat (print pad r) in
  first_split LEVELS (print pad (EBinary op l r)) = Ok (Some (x +:+ pad, symbol op, pad +:+ y)).
Proof.
  intros Hpad Hl Hr x y. apply split_joined; [done| |]; [|unfold y; rewrite leb_ltb_S];
    (apply wrapped_spread; [done..| |]; [pose proof (level_pos op); lia|by apply print_spread]).
Qed.

Lemma operator_text_length op : (1 ≤ String.length (symbol op))%nat.
Proof. destruct op; simpl; lia. Qed.

(** ** The outer parentheses *)

Lemma trim_outer_from_id n t : outer_parentheses t = false → trim_outer_from n t = t.
Proof. intros Ht. destruct n; [done|]. cbn [trim_outer_from]. by rewrite Ht. Qed.

Lemma ends_with_app t p : p ≠ "" → ends_with p (t +:+ p) = true.
Proof. intros Hp. unfold ends_with. by rewrite strip_suffix_app. Qed.

Lemma slice_inner t : slice 1 (String.length ("(" +:+ (t +:+ ")")) - 1) ("(" +:+ (t +:+ ")")) = t.
Proof.
  unfold slice. cbn [String.append String.length String.substring]. rewrite slength_app. simpl.
  replace (_ - _)%nat with (String.length t) by lia. apply substring_0_app.
Qed.

Lemma outer_parentheses_of t : walk 0 t = Some 0 → outer_parentheses ("(" +:+ (t +:+ ")")) = true.
Proof.
  intros Ht. unfold outer_parentheses. change ("(" +:+ (t +:+ ")")) with (("(" +:+ t) +:+ ")") at 2.
  rewrite ends_with_app by done. apply (closes_last 0 t); [lia|done].
Qed.

(** The rounds that are left do not matter when there is nothing to remove. *)
Lemma trim_outer_settled n m t : outer_parentheses (trim_outer_from n t) = false → (n ≤ m)%nat → trim_outer_from m t = trim_outer_from n t.
Proof.
  revert m t. induction n as [|n IH]; intros m t Ht Hm.
  - by apply trim_outer_from_id.
  - destruct m as [|m]; [lia|]. cbn [trim_outer_from] in *. destruct (outer_parentheses t); [|done]. apply IH; [done|lia].
Qed.

Lemma trim_outer_parentheses t : enclosed t → outer_parentheses (trim_outer t) = false → trim_outer ("(" +:+ (t +:+ ")")) = trim_outer t.
Proof.
  intros [Hs He [Ha _ Hw _]] Ht. unfold trim_outer in *. cbn [String.append String.length trim_outer_from].
  rewrite (outer_parentheses_of t Hw : outer_parentheses (String "(" (t +:+ ")")) = true).
  pose proof (slice_inner t) as Hi. cbn [String.append String.length] in Hi. rewrite Hi, trim_graphic by done.
  apply trim_outer_settled; [done|]. rewrite slength_app. lia.
Qed.

Lemma outer_head a t : Ascii.eqb "(" a = false → outer_parentheses (String a t) = false.
Proof. intros Ha. unfold outer_parentheses, starts_with. cbn [strip_prefix]. by rewrite Ha. Qed.

Lemma outer_binary l o r : enclosed l → r ≠ "" → outer_parentheses (l +:+ (o +:+ r)) = false.
Proof.
  intros Hl Hr. pose proof (enclosed_nonempty l Hl) as Hne. destruct l as [|a l]; [done|].
  destruct (Ascii.eqb_spec "(" a) as [<-|Ha]; [|by apply outer_head, Ascii.eqb_neq].
  unfold outer_parentheses. apply andb_false_intro2. pose proof (in_walk _ (en_inert _ Hl)) as Hw. cbn [walk] in Hw. simpl in Hw.
  cbn [String.append closes_at_end]. simpl. apply closes_inside; [lia| |done]. by destruct o.
Qed.

Lemma outer_call f t : f ≠ "" → name_bytes f = true → outer_parentheses (f +:+ t) = false.
Proof.
  destruct f as [|a f]; [done|]. intros _ [Ha _]%andb_prop. apply outer_head. rewrite Ascii.eqb_sym.
  by destruct (name_byte a Ha) as (_ & _ & _ & -> & _).
Qed.

(** An expression without the parentheses around it. *)
Fixpoint bare (e : Expr) : Expr := match e with EGroup e => bare e | _ => e end.

Lemma bare_well_formed e : well_formed e → well_formed (bare e).
Proof. by induction e. Qed.

Lemma outer_bare pad e : blank_text pad = true → well_formed e → outer_parentheses (print pad (bare e)) = false.
Proof.
  intros Hpad. induction e as [a|e IH|op e IH|f e IH|op l IHl r IHr]; cbn [bare print well_formed]; intros Hwf.
  - unfold plain_atom in Hwf. rewrite !andb_true_iff in Hwf. destruct Hwf as [[[_ Ho] _] _]. by destruct (outer_parentheses a).
  - by apply IH.
  - by destruct op.
  - destruct (function_name f). by apply outer_call.
  - destruct Hwf as [Hl Hr]. apply outer_binary; [by apply wrap_enclosed, print_enclosed|].
    by apply enclosed_nonempty, wrap_enclosed, print_enclosed.
Qed.

Lemma trim_outer_print pad e : blank_text pad = true → well_formed e → trim_outer (print pad e) = print pad (bare e).
Proof.
  intros Hpad. induction e as [a|e IH|op e IH|f e IH|op l IHl r IHr]; intros Hwf;
    try (unfold trim_outer; apply trim_outer_from_id; exact (outer_bare pad _ Hpad Hwf)).
  cbn [print bare well_formed] in *. rewrite trim_outer_parentheses; [by apply IH|by apply print_enclosed|].
  rewrite IH by done. by apply outer_bare.
Qed.

Lemma trim_outer_wrap pad e b : blank_text pad = true → well_formed e → trim_outer (wrap b (print pad e)) = print pad (bare e).
Proof.
  intros Hpad He. destruct b; [|by apply trim_outer_print]. exact (trim_outer_print pad (EGroup e) Hpad He).
Qed.

(** ** The shape of a printed text *)

Lemma shape_operand t : operand t → shape_of t = match function_call t with Some (f, a) => ShapeCall f a | None => ShapeAtom end.
Proof.
  intros Ht. pose proof (swept_head t (operand_nonempty t Ht) (oa_swept t Ht)) as Hh. destruct t as [|a t]; [done|]. simpl in Hh.
  assert (∀ c, operator_byte c = true → Ascii.eqb c a = false) as Hc.
  { intros c Hc. apply Ascii.eqb_neq. intros ->. congruence. }
  unfold shape_of. cbn [strip_prefix]. by rewrite !Hc.
Qed.

Lemma split_once_name f t : name_bytes f = true → split_once "(" (f +:+ String "(" t) = Some (f, t).
Proof.
  induction f as [|a f IH]; [done|]. unfold name_bytes. cbn [bytes forallb]. intros [Ha Hf]%andb_prop.
  cbn [String.append split_once]. destruct (name_byte a Ha) as (_ & _ & _ & -> & _). by rewrite IH.
Qed.

Lemma function_call_print f t : f ≠ "" → name_bytes f = true →
  function_call (f +:+ ("(" +:+ (t +:+ ")"))) = Some (f, t).
Proof.
  intros Hne Hf. unfold function_call. change ("(" +:+ (t +:+ ")")) with (String "(" (t +:+ ")")).
  rewrite split_once_name by done. cbn [mbind option_bind].
  rewrite operand_trim by (by apply name_operand).
  replace (f +:+ String "(" (t +:+ ")")) with ((f +:+ String "(" t) +:+ ")") at 1 by (by rewrite string_app_assoc).
  rewrite ends_with_app by done. cbn [negb]. destruct (String.eqb_spec f ""); [done|].
  unfold name_bytes in Hf. rewrite Hf. cbn [negb orb]. do 2 f_equal.
  unfold slice. rewrite !slength_app. cbn [String.length]. rewrite slength_app. cbn [String.length].
  replace (String.length f + 1)%nat with (String.length f + 1)%nat by lia. rewrite substring_app_r. cbn [String.substring].
  replace (_ - _)%nat with (String.length t) by lia. apply substring_0_app.
Qed.

Section structure_facts.
Context `{Libm} `{Build} `{LuaEngine} `{FloatDisplay}.
Context (s : Simulator) (thread : nat) (changed : string → f64 → bool) (pad : string).
Hypothesis pad_blank : blank_text pad = true.

Local Abbreviation eval := (evaluate_inner s thread changed).
Local Abbreviation value_of := (denote s thread changed pad).

Lemma steps_bind_Some {A B} (r : outcome message A) (k : A → outcome message B) :
  steps_bind (Some r) (λ a, Some (k a)) = Some (r ≫= k).
Proof using All. by destruct r. Qed.

Lemma denote_bare e : value_of (bare e) = value_of e.
Proof using All. by induction e. Qed.

Lemma trim_left x : enclosed x → trim (x +:+ pad) = x.
Proof using All. intros [Hs He [Ha _ _ _]]. exact (trim_blanks "" x pad eq_refl pad_blank Ha Hs He). Qed.

Lemma trim_right x : enclosed x → trim (pad +:+ x) = x.
Proof using All.
  intros [Hs He [Ha _ _ _]]. pose proof (trim_blanks pad x "" pad_blank eq_refl Ha Hs He) as Ht.
  by rewrite string_app_nil_r in Ht.
Qed.

Lemma evaluate_binary n op l r v w : well_formed l → well_formed r →
  eval n (print pad (bare l)) = Some v → eval n (print pad (bare r)) = Some w →
  eval (S n) (print pad (EBinary op l r)) = Some
    (a ← v; stop ← decided op a;
     if stop : bool then Ok (VBoolean match op with OOr => true | _ => false end) else b ← w; operate op a b).
Proof using All.
  intros Hl Hr Hv Hw. cbn [evaluate_inner]. rewrite print_split by done.
  pose proof (wrap_enclosed (tightness l <? level op)%nat _ (print_enclosed pad l pad_blank Hl)) as Hx.
  pose proof (wrap_enclosed (tightness r <=? level op)%nat _ (print_enclosed pad r pad_blank Hr)) as Hy.
  cbn [steps_bind]. rewrite trim_left, trim_right by done. rewrite !trim_outer_wrap, Hv, Hw by done.
  apply enclosed_nonempty in Hx, Hy. apply String.eqb_neq in Hx as ->. apply String.eqb_neq in Hy as ->. cbn [orb].
  destruct v as [a|e|]; [|done..]. cbn [steps_bind mbind outcome_mbind outcome_bind]. rewrite short_circuit_decided.
  destruct (decided op a) as [[]|e|] eqn:Hd; [done| |done..]. cbn [steps_bind mbind outcome_mbind outcome_bind].
  destruct w as [b|e|]; [|done..]. cbn [steps_bind mbind outcome_mbind outcome_bind]. by rewrite undecided_operate.
Qed.

Lemma evaluate_unary n op t v : operand t → eval n t = Some v →
  eval (S n) (unary_text op +:+ t) = Some (a ← v; apply_unary op a).
Proof using All.
  intros Ht Hv. cbn [evaluate_inner].
  assert (first_split LEVELS (unary_text op +:+ t) = Ok None) as ->.
  { apply first_split_none. intros ops Hops. unfold split_operator.
    pose proof (oa_swept t Ht) as Hs. pose proof (swept_head t (operand_nonempty t Ht) Hs) as Hh.
    assert (∃ b, unary_text op = String b "" ∧ operator_byte b = true ∧ is_continuation b = false ∧ is_backslash b = false
      ∧ operator_at ops true (String b t) = None) as (b & -> & Hop & Hc & Hbs & Hat).
    { destruct t as [|c t]; [done|]. simpl in Hh.
      destruct op; eexists; (split_and!; [reflexivity..|]);
      repeat (apply elem_of_cons in Hops as [->|Hops]; [|]); try (by apply elem_of_nil in Hops);
      revert Hh; clear; destruct c as [[] [] [] [] [] [] [] []]; vm_compute; done. }
    cbn [String.append split_from]. rewrite split_step_operator, Hc by done. simpl. rewrite Hat.
    apply split_from_end; done. }
  cbn [steps_bind]. destruct op; cbn [unary_text String.append]; unfold shape_of; cbn [strip_prefix]; simpl; rewrite Hv;
    rewrite steps_bind_Some; f_equal; (destruct v as [a|e|]; [|done..]); cbn;
    by rewrite ?truthy_truth, ?number_number.
Qed.

Lemma evaluate_call n f t v : enclosed t → eval n (trim_outer t) = Some v →
  eval (S n) (function_text f +:+ ("(" +:+ (t +:+ ")"))) = Some (a ← v; apply_call changed f t a).
Proof using All.
  intros Ht Hv. destruct (function_name f) as [Hne Hf]. pose proof (call_operand f t Ht) as Hop. destruct Ht as [Hs He [Ha _ _ _]].
  cbn [evaluate_inner]. rewrite first_split_swept by (by apply oa_swept). cbn [steps_bind].
  rewrite shape_operand by done. rewrite function_call_print by done. rewrite trim_graphic, Hv by done.
  destruct v as [a|e|]; [|done..]. cbn [steps_bind mbind outcome_mbind outcome_bind]. unfold apply_function, apply_call.
  rewrite trim_graphic by done. rewrite number_number. destruct f; cbn [function_text]; simpl; by destruct (as_number a).
Qed.

(** The size of the text is fuel enough. *)
Lemma print_shorter b t : (String.length t ≤ String.length (wrap b t))%nat.
Proof using All. destruct b; [|done]. cbn [wrap String.append String.length]. rewrite slength_app. lia. Qed.

Lemma bare_shorter e : (String.length (print pad (bare e)) ≤ String.length (print pad e))%nat.
Proof using All. induction e as [|e IH| | |]; try done. cbn [bare print String.append String.length]. rewrite slength_app. lia. Qed.

Lemma evaluate_print n e : well_formed e → (String.length (print pad e) < n)%nat → eval n (print pad (bare e)) = Some (value_of e).
Proof using All.
  revert n. induction e as [a|e IH|op e IH|f e IH|op l IHl r IHr]; intros n Hwf Hn; (destruct n as [|n]; [lia|]);
    cbn [bare denote well_formed] in *.
  - pose proof (plain_operand a Hwf) as Hop. cbn [print evaluate_inner].
    unfold plain_atom in Hwf. rewrite !andb_true_iff in Hwf. destruct Hwf as [[_ Hf] _].
    rewrite first_split_swept by (by apply oa_swept). cbn [steps_bind]. rewrite shape_operand by done. by destruct (function_call a).
  - apply IH; [done|]. cbn [print String.append String.length] in Hn. rewrite slength_app in Hn. lia.
  - assert (well_formed e ∧ operand (print pad e) ∧ bare e = e) as (He & Hop & Hb).
    { destruct e as [a| | |f e|]; try done; (split; [done|split; [|done]]); [by apply plain_operand|by apply call_operand, print_enclosed]. }
    cbn [print] in *. rewrite slength_app in Hn. apply evaluate_unary; [done|]. rewrite <-Hb at 1. apply IH; [done|].
    destruct op; simpl in Hn; lia.
  - cbn [print] in *. rewrite !slength_app in Hn. simpl in Hn. apply evaluate_call; [by apply print_enclosed|].
    rewrite trim_outer_print by done. apply IH; [done|lia].
  - destruct Hwf as [Hl Hr]. cbn [print] in Hn. rewrite !slength_app in Hn.
    pose proof (print_shorter (tightness l <? level op)%nat (print pad l)).
    pose proof (print_shorter (tightness r <=? level op)%nat (print pad r)). pose proof (operator_text_length op).
    apply evaluate_binary; [done..|apply IHl; [done|lia]|apply IHr; [done|lia]].
Qed.

End structure_facts.

(** ** Assignments *)

(** The value at a target. *)
Definition place `{LuaEngine} (s : Simulator) (target : AssignableTarget) : option f64 :=
  match target with
  | AtRegister cpu register => c ← cpus s !! cpu; get (registers c) register
  | AtStack cpu address => c ← cpus s !! cpu; get (stack c) address
  | AtDeviceSlot device slot field => d ← devices (world s) !! device; fs ← bt_get slot (slots d); bt_get field fs
  | AtDeviceMemory device address => d ← devices (world s) !! device; get (memory d) address
  | AtDeviceField device field => d ← devices (world s) !! device; bt_get field (fields d)
  | AtNetworkChannel network channel => n ← networks (world s) !! network; get (channels n) channel
  end.

(** The position fits the width the journal records it with. *)
Definition target_fits (target : AssignableTarget) : bool :=
  match target with
  | AtDeviceSlot _ slot _ => (0 <=? slot) && (slot <? 2 ^ 16)
  | AtDeviceMemory _ address => address <? 2 ^ 32
  | _ => true
  end.

Lemma get_insert {A} (l : list A) i j (a : A) : is_Some (get l i) →
  get (<[Z.to_nat i := a]> l) j = if i =? j then Some a else get l j.
Proof.
  unfold get. rewrite length_insert. destruct (Z.leb_spec 0 i), (Z.ltb_spec i (Z.of_nat (length l))); simpl; try by intros [? ?].
  intros _. destruct (Z.eqb_spec i j) as [<-|Hne].
  - destruct (Z.leb_spec 0 i), (Z.ltb_spec i (Z.of_nat (length l))); try lia. simpl. apply list_lookup_insert_eq. lia.
  - destruct (Z.leb_spec 0 j); [|done]. simpl. destruct (j <? _); [|done]. apply list_lookup_insert_ne. lia.
Qed.

Lemma get_at {A} (l : list A) i a : get l i = Some a → l !! Z.to_nat i = Some a ∧ 0 ≤ i < Z.of_nat (length l).
Proof. unfold get. destruct (Z.leb_spec 0 i), (Z.ltb_spec i (Z.of_nat (length l))); by simpl. Qed.

Lemma get_of_nat {A} (l : list A) i : get l (Z.of_nat i) = l !! i.
Proof.
  unfold get. rewrite Nat2Z.id. destruct (Z.leb_spec 0 (Z.of_nat i)); [|lia]. simpl.
  destruct (Z.ltb_spec (Z.of_nat i) (Z.of_nat (length l))); [done|]. symmetry. apply lookup_ge_None_2. lia.
Qed.

Section assignment.
Context `{Libm} `{Build} `{LuaEngine} `{FloatDisplay}.
Context (sizes : list nat) (nn nc : nat).

Local Abbreviation ok := (sim_ok sizes nn nc).

(** A result of an assignment: the value is in its place, every other place keeps
    its value, and what the names of places depend on is as before. *)
Record assigned (target : AssignableTarget) (value : f64) (s s' : Simulator) : Prop := {
  as_value : place s' target = Some value;
  as_others other : other ≠ target → place s' other = place s other;
  as_ids : device_ids (world s') = device_ids (world s) ∧ network_ids (world s') = network_ids (world s);
  as_programs : program <$> cpus s' = program <$> cpus s;
  as_knowledge : knowledge s' = knowledge s;
  as_clock : tick s' = tick s ∧ driver_state s' = driver_state s;
  as_ok sizes nn nc : sim_ok sizes nn nc s → sim_ok sizes nn nc s';
}.

(** The journal after the write of a value at a target. *)
Definition noted (target : AssignableTarget) (actor : EffectActor) (before value : f64) (j : EffectJournal) : EffectJournal :=
  match target with
  | AtRegister cpu register => write actor (TRegister cpu (wrap_u 8 register)) before value j
  | AtStack cpu address => write actor (TStack cpu (wrap_u 16 address)) before value j
  | AtDeviceMemory device address => write actor (TDeviceMemory device (wrap_u 32 address)) before value j
  | AtNetworkChannel network channel => write actor (TNetworkChannel network (wrap_u 8 channel)) before value j
  | AtDeviceSlot device slot field =>
      if is_enabled j
      then write actor (TDeviceSlot device (wrap_u 16 slot) (intern field j).1) before value (intern field j).2 else j
  | AtDeviceField device field =>
      if is_enabled j then write actor (TDeviceField device (intern field j).1) before value (intern field j).2 else j
  end.

(** An assignment that is made and noted. *)
Definition made (target : AssignableTarget) (value : f64) (actor : EffectActor) (s s' : Simulator) : Prop :=
  assigned target value s s' ∧ ∃ before, journal s' = noted target actor before value (journal s).

(** A run that only notes the write, and may tell the behaviours. *)
Definition notes (m : M Simulator message ()) (target : AssignableTarget) (actor : EffectActor) (before value : f64)
    (s : Simulator) : Prop :=
  ∃ b, m s = (Ok (), sim_set_behaviours b (sim_set_journal (noted target actor before value (journal s)) s))
    ∧ (b = behaviours s ∨ ∃ d f x y, b = notify_field_write d f x y (behaviours s)).

Lemma notes_write_named field actor (target : SymbolId → EffectTarget) before value s :
  sim_write_named field actor target before value s
  = (Ok (), sim_set_journal (if is_enabled (journal s)
                             then write actor (target (intern field (journal s)).1) before value (intern field (journal s)).2
                             else journal s) s).
Proof.
  unfold sim_write_named, sim_journal_enabled. rewrite bind_gets. destruct (is_enabled (journal s)); cbn [when]; [|by destruct s].
  unfold sim_intern, mbind, M_mbind. destruct (intern field (journal s)) as [id j]. by destruct s.
Qed.

Lemma notes_plain m target actor before value s :
  m s = (Ok (), sim_set_journal (noted target actor before value (journal s)) s) → notes m target actor before value s.
Proof. intros Hm. exists (behaviours s). rewrite Hm. split; [by destruct s|by left]. Qed.

Lemma made_noted target value actor before s s1 m : assigned target value s s1 → journal s1 = journal s →
  notes m target actor before value s1 → ∃ s', m s1 = (Ok (), s') ∧ made target value actor s s'.
Proof.
  intros [? ? ? ? ? ? Hok] Hj (b & -> & Hb). eexists. split; [reflexivity|]. rewrite Hj. split; [|by exists before].
  constructor; try done. intros sizes' nn' nc' Hs. apply Hok in Hs. destruct Hb as [-> | (d & f & x & y & ->)].
  - apply (sim_ok_journal _ _ _ _ (noted target actor before value (journal s))) in Hs. by destruct s1.
  - by apply (sim_ok_notify sizes' nn' nc' (sim_set_journal _ s1)), sim_ok_journal.
Qed.

Lemma place_cpu s cpu f value target c : cpus s !! cpu = Some c → program (f c) = program c →
  (∀ sizes, cpu_program_ok sizes c → cpu_program_ok sizes (f c)) →
  place (sim_set_cpus (<[cpu := f c]> (cpus s)) s) target = Some value →
  (∀ other, other ≠ target → place (sim_set_cpus (<[cpu := f c]> (cpus s)) s) other = place s other) →
  assigned target value s (sim_set_cpus (<[cpu := f c]> (cpus s)) s).
Proof.
  intros Hc Hp Hok Hv Ho. constructor; simpl; try done.
  - rewrite list_fmap_insert, Hp. apply list_insert_id. by rewrite list_lookup_fmap, Hc.
  - intros sizes' nn' nc' Hs. apply sim_ok_cpus; [done|]. apply Hok. destruct Hs as [_ [_ Hcs] _]. by eapply Forall_lookup_1 in Hcs.
Qed.

Lemma settles_alter_cpu s cpu f c : cpus s !! cpu = Some c → alter_cpu cpu f s = (Ok (), sim_set_cpus (<[cpu := f c]> (cpus s)) s).
Proof. intros Hc. unfold alter_cpu. by rewrite Hc. Qed.

(** The write of a cell of a processor: the place asked for has the value, the others
    are looked up past the update. *)
Local Ltac assign_cpu cpu c Hc :=
  erewrite bind_run by (by apply settles_alter_cpu);
  eapply made_noted; [|reflexivity|apply notes_plain; reflexivity];
  apply place_cpu; [done|done|intros ? [[? ? ? ?] ?]; split; [constructor; simpl; by rewrite ?length_insert|done]|simpl|];
  [rewrite list_lookup_insert_eq by (by eapply lookup_lt_Some); simpl; rewrite get_insert by eauto; by rewrite Z.eqb_refl|];
  intros [cpu' i|cpu' i| | | |] Hne; simpl; try done;
  (destruct (decide (cpu = cpu')) as [<-|Hd];
    [rewrite list_lookup_insert_eq by (by eapply lookup_lt_Some); rewrite Hc; simpl|by rewrite list_lookup_insert_ne]); try done;
  rewrite get_insert by eauto; match goal with |- context [?x =? i] => destruct (Z.eqb_spec x i) as [<-|_]; [congruence|done] end.

Lemma assign_register s cpu register value actor before : place s (AtRegister cpu register) = Some before →
  ∃ s', assign (AtRegister cpu register) value actor s = (Ok (), s') ∧ made (AtRegister cpu register) value actor s s'.
Proof.
  simpl. destruct (cpus s !! cpu) as [c|] eqn:Hc; [|done]. intros Hb. simpl in Hb. pose proof (get_at _ _ _ Hb) as [Hl _].
  unfold assign, set_register_as. rewrite bind_gets, Hc. cbn [mbind option_bind]. rewrite Hl, bind_lift_Some.
  assign_cpu cpu c Hc.
Qed.

Lemma assign_stack s cpu address value actor before : place s (AtStack cpu address) = Some before →
  ∃ s', assign (AtStack cpu address) value actor s = (Ok (), s') ∧ made (AtStack cpu address) value actor s s'.
Proof.
  simpl. destruct (cpus s !! cpu) as [c|] eqn:Hc; [|done]. intros Hb. simpl in Hb. pose proof (get_at _ _ _ Hb) as [Hl _].
  unfold assign, set_stack_as. rewrite bind_gets, Hc. cbn [mbind option_bind]. rewrite Hl, bind_lift_Some.
  assign_cpu cpu c Hc.
Qed.

(** The same for a device of the world. *)
Lemma place_device s device f value target d : devices (world s) !! device = Some d → same_identity f →
  place (sim_set_world (alter_device f device (world s)) s) target = Some value →
  (∀ other, other ≠ target → place (sim_set_world (alter_device f device (world s)) s) other = place s other) →
  assigned target value s (sim_set_world (alter_device f device (world s)) s).
Proof.
  intros Hd Hf Hv Ho. constructor; try done. intros sizes' nn' nc' Hs. apply sim_ok_world_set; [done|].
  apply world_shape_alter_device; [done|by apply (sim_ok_world _ _ nc')].
Qed.

Local Ltac assign_device s device d Hd :=
  apply (place_device s device _ _ _ d Hd); [first [done | by apply set_memory_identity; intros; apply length_insert | by intros ?; unfold put_slot_field; case_match]| |];
  [cbn [place sim_set_world world]; rewrite lookup_alter_device, decide_True, Hd by done; simpl|];
  [|intros [| |device' slot' field'|device' address'|device' field'|] Hne; try done; cbn [place sim_set_world world];
    rewrite lookup_alter_device; (destruct (decide (device = device')) as [<-|Hdne]; [rewrite Hd; simpl; try done|by destruct (devices (world s) !! device')])].

Lemma sim_device_run s device d : devices (world s) !! device = Some d → sim_device device s = (Ok d, s).
Proof. intros Hd. unfold sim_device, get_or_panic. by rewrite Hd. Qed.

Lemma assign_memory s device address value actor before : place s (AtDeviceMemory device address) = Some before →
  ∃ s', assign (AtDeviceMemory device address) value actor s = (Ok (), s') ∧ made (AtDeviceMemory device address) value actor s s'.
Proof.
  simpl. destruct (devices (world s) !! device) as [d|] eqn:Hd; [|done]. intros Hb. simpl in Hb. pose proof (get_at _ _ _ Hb) as [Hl _].
  unfold assign, set_device_memory_as. erewrite bind_run by (by apply sim_device_run). rewrite Hl, bind_lift_Some.
  unfold sim_alter_device. rewrite bind_modify. eapply made_noted; [|reflexivity|apply notes_plain; reflexivity].
  assign_device s device d Hd; rewrite get_insert by eauto; [by rewrite Z.eqb_refl|].
  destruct (Z.eqb_spec address address') as [<-|]; [congruence|done].
Qed.

Lemma assign_slot s device slot field value actor before : place s (AtDeviceSlot device slot field) = Some before →
  ∃ s', assign (AtDeviceSlot device slot field) value actor s = (Ok (), s') ∧ made (AtDeviceSlot device slot field) value actor s s'.
Proof.
  simpl. destruct (devices (world s) !! device) as [d|] eqn:Hd; [|done]. simpl.
  destruct (bt_get slot (slots d)) as [fs|] eqn:Hfs; [|done]. simpl. intros Hb.
  unfold assign, set_device_slot_as. erewrite bind_run by (by apply sim_device_run). rewrite Hfs. cbn [mbind option_bind]. rewrite Hb, bind_lift_Some.
  unfold sim_alter_device. rewrite bind_modify. eapply made_noted; [|reflexivity|apply notes_plain; apply notes_write_named].
  assign_device s device d Hd; unfold put_slot_field; rewrite Hfs; simpl; try done.
  - by rewrite bt_get_insert_eq; simpl; rewrite bt_get_insert_eq.
  - destruct (decide (slot = slot')) as [<-|Hs]; [|by rewrite bt_get_insert_ne].
    rewrite bt_get_insert_eq, Hfs. simpl. apply bt_get_insert_ne. congruence.
Qed.

Lemma assign_field s device field value actor before : world_ok (world s) → place s (AtDeviceField device field) = Some before →
  ∃ s', assign (AtDeviceField device field) value actor s = (Ok (), s') ∧ made (AtDeviceField device field) value actor s s'.
Proof.
  intros Hw. simpl. destruct (devices (world s) !! device) as [d|] eqn:Hd; [|done]. simpl. intros Hb.
  assert (device_index (dev_id d) (world s) = Some device) as Hi by (apply (ok_device_ids _ Hw); eauto).
  unfold assign. rewrite (bind_run _ _ _ (dev_id d) s) by (unfold get_or_panic; by rewrite Hd).
  unfold set_device_field_as. rewrite bind_gets, Hi, bind_lift_Some. erewrite bind_run by (by apply sim_device_run). rewrite Hb, bind_lift_Some.
  unfold sim_alter_device. rewrite bind_modify. eapply made_noted; [|reflexivity|].
  - assign_device s device d Hd; [apply bt_get_insert_eq|]. apply bt_get_insert_ne. congruence.
  - eexists. unfold mbind, M_mbind. rewrite notes_write_named. unfold sim_notify, modify. split; [reflexivity|right; eauto 6].
Qed.

Lemma assign_channel s network channel value actor before : place s (AtNetworkChannel network channel) = Some before →
  ∃ s', assign (AtNetworkChannel network channel) value actor s = (Ok (), s') ∧ made (AtNetworkChannel network channel) value actor s s'.
Proof.
  simpl. destruct (networks (world s) !! network) as [n|] eqn:Hn; [|done]. intros Hb. simpl in Hb. pose proof (get_at _ _ _ Hb) as [Hl _].
  unfold assign, set_network_channel_as. rewrite (bind_run _ _ _ n s) by (unfold sim_network, get_or_panic; by rewrite Hn).
  rewrite Hl. cbn [expect]. rewrite bind_lift_Ok. unfold sim_alter_network. rewrite bind_modify. eapply made_noted; [|reflexivity|apply notes_plain; reflexivity].
  constructor; try done.
  { cbn [place sim_set_world world alter_network networks set_networks]. rewrite list_lookup_alter_eq, Hn. simpl.
    rewrite get_insert by eauto. by rewrite Z.eqb_refl. }
  2: { intros sizes' nn' nc' Hs. apply sim_ok_world_set; [done|]. apply world_shape_alter_network; [|done|by apply (sim_ok_world _ _ nc')].
       intros net. simpl. apply length_insert. }
  intros [| | | | |network' channel'] Hne; try done. cbn [place sim_set_world world alter_network networks set_networks].
  rewrite list_lookup_alter. case_decide as Hd; [subst network'|done]. rewrite Hn. simpl. rewrite get_insert by eauto.
  destruct (Z.eqb_spec channel channel') as [<-|]; [congruence|done].
Qed.

Lemma assign_run s target value actor before : world_ok (world s) → place s target = Some before →
  ∃ s', assign target value actor s = (Ok (), s') ∧ made target value actor s s'.
Proof.
  intros Hw. destruct target; [apply assign_register|apply assign_stack|apply assign_slot|apply assign_memory|by apply assign_field|apply assign_channel].
Qed.
End assignment.

(** ** The place a target names *)

Section location.
Context `{Libm} `{Build} `{LuaEngine} `{FloatDisplay}.
Context (sizes : list nat) (nn nc : nat).

(** The place, from the text and the ids alone. *)
Definition locate (s : Simulator) (thread : nat) (target : string) : option AssignableTarget :=
  match direct_register_index target with
  | Some register => Some (AtRegister thread (Z.of_nat register))
  | None =>
  match indexed target "stack[" "]" with
  | Some address => Some (AtStack thread address)
  | None =>
  match device_slot target with
  | Some (id, slot, field) => index ← device_index id (world s); Some (AtDeviceSlot index slot field)
  | None =>
  match device_memory target with
  | Some (id, address) => index ← device_index id (world s); Some (AtDeviceMemory index address)
  | None =>
  match object target "device" with
  | Some (id, field) => index ← device_index id (world s); Some (AtDeviceField index field)
  | None =>
  match object target "network" with
  | Some (id, field) =>
      network ← network_index id (world s); channel ← channel_index field;
      Some (AtNetworkChannel network (Z.of_nat channel))
  | None => None
  end end end end end end.

Lemma channel_place s id n channel field : world_ok (world s) → network_index id (world s) = Some n → channel_index field = Some channel →
  is_Some (place s (AtNetworkChannel n (Z.of_nat channel))).
Proof.
  intros Hw (net & Hn & _)%(ok_network_ids _ Hw) Hc%channel_index_lt. simpl. rewrite Hn. simpl. rewrite get_of_nat.
  pose proof (ok_channels _ Hw) as Hch. eapply Forall_lookup_1 in Hch; [|done].
  rewrite <-Hch in Hc. by apply lookup_lt_is_Some_2.
Qed.

(** A target is valid when it names a place that holds a value. *)
Lemma validate_locate s thread target at_ : world_ok (world s) →
  validate_assignable_target s thread target = Ok at_ ↔ locate s thread (trim target) = Some at_ ∧ is_Some (place s at_).
Proof.
  intros Hw. unfold validate_assignable_target, locate, device_at. set (t := trim target).
  destruct (direct_register_index t) as [r|].
  { split.
    - destruct (cpus s !! thread ≫= _) as [v|] eqn:E; [|done]. intros [= <-]. split; [done|]. simpl.
      destruct (cpus s !! thread) as [c|]; [|done]. simpl in *. rewrite get_of_nat. by exists v.
    - intros [[= <-] [v Hv]]. simpl in Hv. destruct (cpus s !! thread) as [c|]; [|done]. simpl in *. rewrite get_of_nat in Hv. by rewrite Hv. }
  destruct (indexed t "stack[" "]") as [a|].
  { split.
    - destruct (cpus s !! thread ≫= _) as [v|] eqn:E; [|done]. intros [= <-]. split; [done|]. simpl. rewrite E. by exists v.
    - intros [[= <-] [v Hv]]. simpl in Hv. by rewrite Hv. }
  destruct (device_slot t) as [[[id slot] field]|].
  { destruct (device_index id (world s)) as [i|]; cbn [ok_or expect mbind outcome_mbind outcome_bind option_bind]; [|split; [done|by intros [? _]]].
    destruct (devices (world s) !! i) as [d|] eqn:Hd; cbn [ok_or expect mbind outcome_mbind outcome_bind]; split.
    - destruct (bt_get slot (slots d) ≫= bt_get field) as [v|] eqn:E; [|done]. intros [= <-]. split; [done|]. simpl. rewrite Hd. simpl.
      destruct (bt_get slot (slots d)) as [fs|]; [|done]. simpl in *. by exists v.
    - intros [[= <-] [v Hv]]. simpl in Hv. rewrite Hd in Hv. simpl in Hv. destruct (bt_get slot (slots d)) as [fs|]; [|done]. simpl in *. by rewrite Hv.
    - done.
    - intros [[= <-] [v Hv]]. simpl in Hv. by rewrite Hd in Hv. }
  destruct (device_memory t) as [[id address]|].
  { destruct (device_index id (world s)) as [i|]; cbn [ok_or expect mbind outcome_mbind outcome_bind option_bind]; [|split; [done|by intros [? _]]].
    destruct (devices (world s) !! i) as [d|] eqn:Hd; cbn [ok_or expect mbind outcome_mbind outcome_bind]; split.
    - destruct (get (memory d) address) as [v|] eqn:E; [|done]. intros [= <-]. split; [done|]. simpl. rewrite Hd. by exists v.
    - intros [[= <-] [v Hv]]. simpl in Hv. rewrite Hd in Hv. simpl in Hv. by rewrite Hv.
    - done.
    - intros [[= <-] [v Hv]]. simpl in Hv. by rewrite Hd in Hv. }
  destruct (object t "device") as [[id field]|].
  { destruct (device_index id (world s)) as [i|]; cbn [ok_or expect mbind outcome_mbind outcome_bind option_bind]; [|split; [done|by intros [? _]]].
    destruct (devices (world s) !! i) as [d|] eqn:Hd; cbn [ok_or expect mbind outcome_mbind outcome_bind]; split.
    - destruct (bt_get field (fields d)) as [v|] eqn:E; [|done]. intros [= <-]. split; [done|]. simpl. rewrite Hd. by exists v.
    - intros [[= <-] [v Hv]]. simpl in Hv. rewrite Hd in Hv. simpl in Hv. by rewrite Hv.
    - done.
    - intros [[= <-] [v Hv]]. simpl in Hv. by rewrite Hd in Hv. }
  destruct (object t "network") as [[id field]|]; [|split; [done|by intros [? _]]].
  destruct (network_index id (world s)) as [n|] eqn:Hn; cbn [ok_or mbind outcome_mbind outcome_bind option_bind]; [|split; [done|by intros [? _]]].
  destruct (channel_index field) as [c|] eqn:Hc; cbn [ok_or mbind outcome_mbind outcome_bind option_bind]; [|split; [done|by intros [? _]]].
  pose proof (channel_place s id n c field Hw Hn Hc). split; [by intros [= <-]|by intros [[= <-] _]].
Qed.

(** The words of the state name no place. *)
Lemma word_not_place s c thread t : is_Some (word_value s c t) → locate s thread t = None.
Proof.
  intros [v Hv]. unfold word_value in Hv.
  repeat match type of Hv with context [String.eqb t ?w] => destruct (String.eqb_spec t w) as [->|_]; [reflexivity|] end.
  destruct (is_one_of t _) eqn:E.
  { cbn in E. repeat match type of E with context [String.eqb t ?w] => destruct (String.eqb_spec t w) as [->|_]; [reflexivity|] end. done. }
  destruct (is_one_of t ["state"; "runState"]) eqn:E'; [|done].
  cbn in E'. repeat match type of E' with context [String.eqb t ?w] => destruct (String.eqb_spec t w) as [->|_]; [reflexivity|] end. done.
Qed.

(** What a place holds is what evaluation reads. *)
Lemma atom_reads s thread c t at_ v : cpus s !! thread = Some c → bt_get t (aliases (program c)) = None →
  locate s thread t = Some at_ → place s at_ = Some v → atom s thread t = Ok (VNumber v).
Proof.
  intros Hc Ha Hl Hp. unfold atom. rewrite Hc. cbn [ok_or mbind outcome_mbind outcome_bind].
  destruct (word_value s c t) eqn:Hword.
  { by rewrite (word_not_place s c thread t) in Hl by (rewrite Hword; eauto). }
  unfold atom_place, resolve_alias. rewrite follow_fixed by done. unfold locate in Hl.
  destruct (direct_register_index t) as [r|].
  { injection Hl as <-. simpl in Hp. rewrite Hc in Hp. simpl in Hp. rewrite get_of_nat in Hp. by rewrite Hp. }
  destruct (indexed t "stack[" "]") as [a|].
  { injection Hl as <-. simpl in Hp. rewrite Hc in Hp. simpl in Hp. by rewrite Hp. }
  unfold device.
  destruct (device_slot t) as [[[id slot] field]|].
  { destruct (device_index id (world s)) as [i|]; [|done]. injection Hl as <-. simpl in Hp.
    destruct (devices (world s) !! i) as [d|] eqn:Hd; [|done]. simpl in Hp.
    cbn [ok_or mbind outcome_mbind outcome_bind]. rewrite Hd. cbn [expect].
    cbn [mbind outcome_mbind outcome_bind]. destruct (bt_get slot (slots d)) as [fs|]; [|done]. cbn [mbind option_bind] in *. by rewrite Hp. }
  destruct (device_memory t) as [[id address]|].
  { destruct (device_index id (world s)) as [i|]; [|done]. injection Hl as <-. simpl in Hp.
    destruct (devices (world s) !! i) as [d|] eqn:Hd; [|done]. simpl in Hp.
    cbn [ok_or mbind outcome_mbind outcome_bind]. rewrite Hd. cbn [expect mbind outcome_mbind outcome_bind]. by rewrite Hp. }
  destruct (object t "device") as [[id field]|].
  { destruct (device_index id (world s)) as [i|]; [|done]. injection Hl as <-. simpl in Hp.
    destruct (devices (world s) !! i) as [d|] eqn:Hd; [|done]. simpl in Hp.
    cbn [ok_or mbind outcome_mbind outcome_bind]. rewrite Hd. cbn [expect mbind outcome_mbind outcome_bind]. by rewrite Hp. }
  destruct (object t "network") as [[id field]|]; [|done].
  destruct (network_index id (world s)) as [n|] eqn:Hn; [|done]. simpl in Hl.
  destruct (channel_index field) as [k|] eqn:Hk; [|done]. injection Hl as <-.
  simpl in Hp. cbn [ok_or mbind outcome_mbind outcome_bind].
  destruct (networks (world s) !! n) as [net|]; [|done]. simpl in Hp. rewrite get_of_nat in Hp.
  cbn [expect mbind outcome_mbind outcome_bind]. by rewrite Hp.
Qed.
End location.

(** ** Recorded assignments *)

Section recorded.
Context `{Libm} `{Build} `{LuaEngine} `{FloatDisplay}.
Context (sizes : list nat) (nn nc : nat).

(** The write an assignment records, and whether it is taken for a write of its
    target. *)
Definition recognised (target : AssignableTarget) (value : f64) (actor : EffectActor) (s s' : Simulator) : Prop :=
  ∃ w, sq_effect <$> write_history (journal s') = ((sq_effect <$> write_history (journal s)) ++ [w])%list
    ∧ w_actor w = actor ∧ w_after_bits w = to_bits value
    ∧ assignable_target_matches_write s' target (w_target w) = target_fits target.

(** A write in a journal that is on. *)
Lemma write_recorded actor t before value j : enabled j = true →
  ∃ w, sq_effect <$> write_history (write actor t before value j) = ((sq_effect <$> write_history j) ++ [w])%list
    ∧ w_actor w = actor ∧ w_after_bits w = to_bits value ∧ w_target w = t
    ∧ symbols (write actor t before value j) = symbols j.
Proof.
  intros He. rewrite write_enabled by done. eexists. split_and!; [apply wrote_effects|done..].
Qed.

Lemma wrap_u_eqb w z : 0 ≤ w → (z =? wrap_u w z) = (0 <=? z) && (z <? 2 ^ w).
Proof.
  intros Hw. pose proof (wrap_u_range w z Hw).
  destruct (Z.leb_spec 0 z); simpl; [destruct (Z.ltb_spec z (2 ^ w)); simpl; [rewrite wrap_u_small by lia; apply Z.eqb_refl|]|];
    apply Z.eqb_neq; lia.
Qed.

Lemma get_range {A} (l : list A) i a n : get l i = Some a → length l = n → Z.of_nat n ≤ 2 ^ 16 → 0 ≤ i < Z.of_nat n.
Proof. intros [_ Hi]%get_at <- _. done. Qed.

Lemma noted_recognised target actor before value s s' v :
  sim_ok sizes nn nc s → place s target = Some v → journal s' = noted target actor before value (journal s) →
  enabled (journal s) = true → symbols_ok (journal s) → Z.of_nat (length (symbols (journal s))) + 1 < 2 ^ 32 →
  recognised target value actor s s'.
Proof.
  intros Hs Hp Hj Hen Hsym Hroom. unfold recognised. destruct target as [cpu i|cpu i|d i f|d i|d f|n i];
    cbn [noted] in Hj; unfold is_enabled in Hj; rewrite ?Hen in Hj.
  - destruct (write_recorded actor (TRegister cpu (wrap_u 8 i)) before value (journal s) Hen) as (w & Hw & Ha & Hb & Ht & _).
    exists w. rewrite Hj, Ht. split_and!; [done..|]. simpl in *. destruct (cpus s !! cpu) as [c|] eqn:Hc; [|done].
    apply (get_range _ _ _ REGISTER_COUNT) in Hp; [|by apply (sim_cpu_ok _ _ _ _ _ _ Hs Hc)|unfold REGISTER_COUNT; lia].
    unfold REGISTER_COUNT in Hp. rewrite Nat.eqb_refl, wrap_u_small by lia. apply Z.eqb_refl.
  - destruct (write_recorded actor (TStack cpu (wrap_u 16 i)) before value (journal s) Hen) as (w & Hw & Ha & Hb & Ht & _).
    exists w. rewrite Hj, Ht. split_and!; [done..|]. simpl in *. destruct (cpus s !! cpu) as [c|] eqn:Hc; [|done].
    apply (get_range _ _ _ STACK_SIZE) in Hp; [|by apply (sim_cpu_ok _ _ _ _ _ _ Hs Hc)|unfold STACK_SIZE; lia].
    unfold STACK_SIZE in Hp. rewrite Nat.eqb_refl, wrap_u_small by lia. apply Z.eqb_refl.
  - pose proof (intern_self f (journal s) Hsym Hroom) as Hres. pose proof (intern_enabled f (journal s)) as He.
    pose proof (intern_history f (journal s)) as Hh. destruct (intern f (journal s)) as [id j]. cbn [fst snd] in *. rewrite Hen in He.
    destruct (write_recorded actor (TDeviceSlot d (wrap_u 16 i) id) before value j He) as (w & Hw & Ha & Hb & Ht & Hsy).
    exists w. rewrite Hj, Ht. split_and!; [by rewrite Hw, Hh|done..|]. cbn [assignable_target_matches_write target_fits].
    unfold resolve_journal_symbol, resolve in *. rewrite Hj, Hsy, Hres, Nat.eqb_refl, wrap_u_eqb by done.
    rewrite bool_decide_true by done. by rewrite andb_true_r.
  - destruct (write_recorded actor (TDeviceMemory d (wrap_u 32 i)) before value (journal s) Hen) as (w & Hw & Ha & Hb & Ht & _).
    exists w. rewrite Hj, Ht. split_and!; [done..|]. simpl in *. destruct (devices (world s) !! d) as [dev|]; [|done].
    apply get_at in Hp as [_ Hp]. rewrite Nat.eqb_refl. simpl. rewrite wrap_u_eqb by done. by destruct (Z.leb_spec 0 i); [|lia].
  - pose proof (intern_self f (journal s) Hsym Hroom) as Hres. pose proof (intern_enabled f (journal s)) as He.
    pose proof (intern_history f (journal s)) as Hh. destruct (intern f (journal s)) as [id j]. cbn [fst snd] in *. rewrite Hen in He.
    destruct (write_recorded actor (TDeviceField d id) before value j He) as (w & Hw & Ha & Hb & Ht & Hsy).
    exists w. rewrite Hj, Ht. split_and!; [by rewrite Hw, Hh|done..|]. cbn [assignable_target_matches_write target_fits].
    unfold resolve_journal_symbol, resolve in *. rewrite Hj, Hsy, Hres, Nat.eqb_refl. by rewrite bool_decide_true.
  - destruct (write_recorded actor (TNetworkChannel n (wrap_u 8 i)) before value (journal s) Hen) as (w & Hw & Ha & Hb & Ht & _).
    exists w. rewrite Hj, Ht. split_and!; [done..|]. simpl in *. destruct (networks (world s) !! n) as [net|] eqn:Hn; [|done].
    apply sim_world_lookups in Hs as [Hwo _]. pose proof (ok_channels _ Hwo) as Hch. eapply Forall_lookup_1 in Hch; [|done].
    apply (get_range _ _ _ 8) in Hp; [|done|lia]. rewrite Nat.eqb_refl, wrap_u_small by lia. apply Z.eqb_refl.
Qed.
End recorded.

Lemma scan_no_panic cs : ∀ stack q e, scan_delimiters stack q e cs ≠ Panic.
Proof. induction cs as [|c cs IH]; intros stack q e; cbn [scan_delimiters]; [done|]. repeat case_match; try done; apply IH. Qed.

Lemma evaluate_text `{Libm} `{Build} `{LuaEngine} `{FloatDisplay} s thread changed pad text e :
  blank_text pad = true → well_formed e → trim text = print pad e →
  evaluate_with_changed s thread text changed = Some (denote s thread changed pad e).
Proof.
  intros Hpad He Ht. pose proof (print_enclosed pad e Hpad He) as Hen. pose proof (enclosed_nonempty _ Hen) as Hne.
  unfold evaluate_with_changed. rewrite Ht. destruct (String.eqb_spec (print pad e) ""); [done|].
  assert (validate_delimiters (print pad e) = Ok ()) as ->.
  { unfold validate_delimiters. destruct Hen as [_ _ [Ha _ _ Hd]]. rewrite chars_singles by done. specialize (Hd [] []).
    rewrite app_nil_r in Hd. by rewrite Hd. }
  cbn [steps_bind]. rewrite trim_outer_print by done. apply evaluate_print; [done..|lia].
Qed.

Lemma evaluate_ends `{Libm} `{Build} `{LuaEngine} `{FloatDisplay} sizes nn nc s thread changed expression :
  sim_ok sizes nn nc s →
  ∃ r, evaluate_with_changed s thread expression changed = Some r ∧ (is_ascii expression = true → r ≠ Panic).
Proof.
  intros Hs. unfold evaluate_with_changed. destruct (String.eqb (trim expression) ""); [by eexists|].
  unfold validate_delimiters. pose proof (scan_no_panic (chars (trim expression)) [] false false) as Hn.
  destruct (scan_delimiters _ _ _ _) as [[stack q]|e|]; cbn [mbind outcome_mbind outcome_bind]; [|by eexists|done].
  destruct q; [by eexists|]. destruct stack; [|by eexists]. cbn [steps_bind].
  pose proof (trim_outer_part (trim expression)) as Hpart. pose proof (part_length _ _ Hpart).
  destruct (evaluate_inner_ends sizes nn nc s thread changed (S (String.length (trim expression)))
    (trim_outer (trim expression)) Hs ltac:(lia)) as (r & Hr & Hp).
  exists r. split; [done|]. intros Ha. apply Hp. eapply part_ascii; [|exact Ha]. eapply part_trans; [exact Hpart|apply trim_part].
Qed.

(** ** The theorems *)

(** The evaluation of an expression ends: in a well-formed simulation, every text
    has a result within the fuel of its length, and the result is a value or an
    error, not a panic, when the text is ASCII. *)
Theorem evaluation_ends `{Libm} `{Build} `{LuaEngine} `{FloatDisplay} (sizes : list nat) (nn nc : nat)
    (s : Simulator) (thread : nat) (changed : string → f64 → bool) (expression : string) :
  sim_ok sizes nn nc s →
  ∃ r, evaluate_with_changed s thread expression changed = Some r ∧ (is_ascii expression = true → r ≠ Panic).
Proof. apply evaluate_ends. Qed.


(** C17.  An assignment to a valid target succeeds, and is read back: the text of the
    target, no alias of the program, evaluates to the value assigned; every other
    place keeps its value.  With the journal on, exactly one write is recorded, in
    the name of the actor, and it is recognised as a write of the target exactly when
    the slot number fits in 16 bits and the memory address in 32. *)
Theorem assignment_reads_back `{Libm} `{Build} `{LuaEngine} `{FloatDisplay} (sizes : list nat) (nn nc : nat)
    (s : Simulator) (thread : nat) (cpu : Cpu) (text : string) (target : AssignableTarget) (value : f64) (actor : EffectActor) :
  sim_ok sizes nn nc s → cpus s !! thread = Some cpu → bt_get (trim text) (aliases (program cpu)) = None →
  validate_assignable_target s thread text = Ok target →
  ∃ s', set_value_as thread text value actor s = (Ok (), s')
    ∧ (plain_atom (trim text) = true → evaluate s' thread text = Some (Ok (VNumber value)))
    ∧ (∀ other, other ≠ target → place s' other = place s other)
    ∧ (enabled (journal s) = true → symbols_ok (journal s) → Z.of_nat (length (symbols (journal s))) + 1 < 2 ^ 32 →
       recognised target value actor s s').
Proof.
  intros Hs Hc Ha Hv. pose proof (sim_world_lookups _ _ _ s Hs) as [Hw _].
  apply validate_locate in Hv as Hl; [|done]. destruct Hl as [Hl [before Hb]].
  destruct (assign_run s target value actor before Hw Hb) as (s' & Hrun & [Hval Hothers [Hids Hnets] Hprog _ _ _] & b & Hj).
  exists s'. split_and!.
  - unfold set_value_as. erewrite bind_run; [exact Hrun|by rewrite Hv].
  - intros Hplain. unfold evaluate. rewrite (evaluate_text s' thread _ "" text (EAtom (trim text)) eq_refl Hplain eq_refl).
    cbn [denote]. f_equal. assert (locate s' thread (trim text) = Some target) as Hl'.
    { rewrite <-Hl. unfold locate, device_index, network_index. by rewrite Hids, Hnets. }
    assert ((program <$> cpus s') !! thread = Some (program cpu)) as Hp by (rewrite Hprog, list_lookup_fmap; by rewrite Hc).
    rewrite list_lookup_fmap in Hp. destruct (cpus s' !! thread) as [c'|] eqn:Hc'; [|done]. simpl in Hp. injection Hp as Hp.
    apply (atom_reads s' thread c' _ target); [done|by rewrite Hp|done..].
  - done.
  - intros Hen Hsym Hroom. by eapply noted_recognised.
Qed.

(** ** Examples *)

#[local] Existing Instances sample_libm release_build sample_engine sample_display.

Definition recorded_simulator : Simulator := sim_set_journal (set_enabled true journal_default) ic10_simulator.

Lemma recorded_simulator_ok : sim_ok [0; 0; 4]%nat 1 2 recorded_simulator.
Proof. apply sim_ok_journal, ic10_simulator_ok. Qed.

(** [device("h").Setting] *)
Definition setting_text : string := "device(" +:+ (DQUOTE +:+ ("h" +:+ (DQUOTE +:+ ").Setting"))).

Lemma evaluation_ends_witness :
  ∃ r, evaluate recorded_simulator 0 "(1+2)*(3+4) == 21 && !r0" = Some r ∧ r ≠ Panic.
Proof.
  destruct (evaluation_ends [0; 0; 4]%nat 1 2 recorded_simulator 0 (λ _ _, false) "(1+2)*(3+4) == 21 && !r0" recorded_simulator_ok) as (r & Hr & Hp).
  exists r. split; [exact Hr|]. apply Hp. reflexivity.
Defined.

(** [abs(r0 - 7) * 2 == device("h").Setting + 14 - 5 * (1 - 1) && (-1) < 2] *)
Definition sample_expr : Expr :=
  EBinary OAnd
    (EBinary OEqual (EBinary OTimes (ECall FAbs (EBinary OMinus (EAtom "r0") (EAtom "7"))) (EAtom "2"))
      (EBinary OMinus (EBinary OPlus (EAtom setting_text) (EAtom "14"))
        (EBinary OTimes (EAtom "5") (EBinary OMinus (EAtom "1") (EAtom "1")))))
    (EBinary OLess (EUnary UMinus (EAtom "1")) (EAtom "2")).



Lemma assignment_reads_back_witness :
  ∃ s', set_value_as 0 setting_text f_one ActorDebugger recorded_simulator = (Ok (), s')
    ∧ evaluate s' 0 setting_text = Some (Ok (VNumber f_one))
    ∧ recognised (AtDeviceField 0 "Setting") f_one ActorDebugger recorded_simulator s'.
Proof.
  destruct (assignment_reads_back [0; 0; 4]%nat 1 2 recorded_simulator 0 (cpu_of "h" 0 blink) setting_text
    (AtDeviceField 0 "Setting") f_one ActorDebugger) as (s' & Hrun & Hev & _ & Hrec).
  - apply recorded_simulator_ok.
  - reflexivity.
  - reflexivity.
  - vm_compute. reflexivity.
  - exists s'. split; [exact Hrun|]. split; [apply Hev; vm_compute; reflexivity|].
    apply Hrec; [reflexivity|apply journal_default_ok|vm_compute; reflexivity].
Defined.

(** Texts the language is meant to have and that are refused: a unary operator before
    parentheses, a macro with a text, a negative operand of a product, a negative
    exponent; and a text whose character outside ASCII stops the program. *)
Example evaluator_refusals :
  evaluate recorded_simulator 0 "!(1 < 2)" = Some (Err [PS "cannot evaluate `"; PS "(1 < 2)"; PS "`"])
  ∧ evaluate recorded_simulator 0 ("HASH(" +:+ (DQUOTE +:+ ("Lamp" +:+ (DQUOTE +:+ ")"))))
    = Some (Err [PS "cannot evaluate `"; PS (DQUOTE +:+ ("Lamp" +:+ DQUOTE)); PS "`"])
  ∧ evaluate recorded_simulator 0 "2 * -3" = Some (Err [PS "operator `"; PS "*"; PS "` requires two operands"])
  ∧ evaluate recorded_simulator 0 "1e-5" = Some (Err [PS "cannot evaluate `"; PS "1e"; PS "`"])
  ∧ evaluate recorded_simulator 0 "r0 + µ" = Some Panic.
Proof. vm_compute. by split_and!. Qed.

(** The precedence of the operators, and operators of one level from the left. *)
Example evaluator_precedence :
  evaluate recorded_simulator 0 "1 + 2 * 3" = evaluate recorded_simulator 0 "7"
  ∧ evaluate recorded_simulator 0 "7 - 2 - 1" = evaluate recorded_simulator 0 "4"
  ∧ evaluate recorded_simulator 0 "1 < 2 && r0 == 0 || state == 1" = Some (Ok (VBoolean true))
  ∧ evaluate recorded_simulator 0 "state == 1" = Some (Err [PS "text is not a numeric value"]).
Proof. vm_compute. by split_and!. Qed.
