(* ===== verification/ScriptDriver.v ===== *)
(** * Scripted drivers

    [crates/ic10-runner/src/script_driver.rs]: rules that react to recorded writes of
    a simulation with actions, some of them scheduled for later ticks.  The runtime
    keeps the scheduled actions in order of tick and sequence, follows the write
    history with a cursor, and stores its state in the simulation after every pump.
    The JSON of serde is an argument: the bytes of the definitions and of the stored
    state, and the state read back from bytes. *)

From S2P Require Import Prelude BTree Text F64 Knowledge Literals Journal Scenario World Program Cpu Exec.
From S2P Require Import Isa Frame Behaviour Vm Lua Simulator Tick Control Schema Evaluator.
Local Open Scope string_scope.
Local Open Scope Z_scope.

Definition MAX_CASCADES_PER_PUMP : nat := 64.
Definition MAX_ACTIONS_PER_CASE : Z := 10000.
Definition MAX_PENDING_EVENTS : Z := 2048.
Definition STATE_FORMAT_VERSION : Z := 1.
Definition STATE_KEY : string := "scenario.scripted/v1".

(** ** State *)

(** Source: [crates/ic10-runner/src/script_driver.rs] [ScheduledAction] *)
Record ScheduledAction := {
  sa_tick : Z;
  sa_sequence : Z;
  sa_driver : nat;
  sa_rule : nat;
  sa_action : ScriptAction;
}.

(** Source: [crates/ic10-runner/src/script_driver.rs] [PersistedState] *)
Record PersistedState := {
  ps_pending : list ScheduledAction;
  ps_sequence : Z;
  ps_actions_run : Z;
  ps_write_cursor : Z;
}.

Definition state_default : PersistedState :=
  {| ps_pending := []; ps_sequence := 0; ps_actions_run := 0; ps_write_cursor := 0 |}.

Definition set_pending (v : list ScheduledAction) (x : PersistedState) : PersistedState :=
  {| ps_pending := v; ps_sequence := ps_sequence x; ps_actions_run := ps_actions_run x; ps_write_cursor := ps_write_cursor x |}.
Definition set_sequence (v : Z) (x : PersistedState) : PersistedState :=
  {| ps_pending := ps_pending x; ps_sequence := v; ps_actions_run := ps_actions_run x; ps_write_cursor := ps_write_cursor x |}.
Definition set_actions_run (v : Z) (x : PersistedState) : PersistedState :=
  {| ps_pending := ps_pending x; ps_sequence := ps_sequence x; ps_actions_run := v; ps_write_cursor := ps_write_cursor x |}.
Definition set_write_cursor (v : Z) (x : PersistedState) : PersistedState :=
  {| ps_pending := ps_pending x; ps_sequence := ps_sequence x; ps_actions_run := ps_actions_run x; ps_write_cursor := v |}.

(** Source: [crates/ic10-runner/src/script_driver.rs] [StateEnvelope] *)
Record StateEnvelope := {
  en_format_version : Z;
  en_definition_fingerprint : Z;
  en_state : PersistedState;
}.

(** ** The queue *)

(** [sort_by_key(|a| (a.tick, a.sequence))] orders by the tick, then by the sequence. *)
Definition sooner (a b : ScheduledAction) : bool :=
  (sa_tick a <? sa_tick b) || ((sa_tick a =? sa_tick b) && (sa_sequence a <? sa_sequence b)).

(** An action after those that are not later. *)
Fixpoint enqueue (a : ScheduledAction) (l : list ScheduledAction) : list ScheduledAction :=
  match l with
  | [] => [a]
  | b :: l' => if sooner a b then a :: l else b :: enqueue a l'
  end.

(** The stable sort, one element after the other. *)
Definition sort_pending (l : list ScheduledAction) : list ScheduledAction := foldl (λ q a, enqueue a q) [] l.

(** [iter.take_while(f)], and what follows *)
Fixpoint span {A} (f : A → bool) (l : list A) : list A * list A :=
  match l with
  | [] => ([], [])
  | a :: l' => if f a then let '(x, y) := span f l' in (a :: x, y) else ([], l)
  end.

(** ** Text *)

(** Source: [crates/ic10-runner/src/script_driver.rs] [scalar] *)
Definition scalar (value : Scalar) : f64 := match scalar_as_f64 value with Ok x => x | _ => f_nan end.

(** A rule out of range is a panic.
    Source: [crates/ic10-runner/src/script_driver.rs] [provenance] *)
Definition provenance (driver : ScriptedDriver) (rule : nat) (text : message) : outcome message message :=
  rule_record ← expect (dr_rules driver !! rule);
  let rule_name := match ru_name rule_record with Some name => [PS name] | None => [PS "#"; PZ (Z.of_nat rule + 1)] end in
  Ok ([PS "scripted driver `"; PS (dr_id driver); PS "` model "; PS (dr_model driver); PS "@"; PZ (dr_version driver);
       PS " rule `"] ++ rule_name ++ [PS "` failed: "] ++ text)%list.

(** [result.map_err(|message| provenance(driver, rule, message))] *)
Definition with_provenance {A} (driver : ScriptedDriver) (rule : nat) (r : outcome message A) : outcome message A :=
  match r with
  | Err text => text ← provenance driver rule text; Err text
  | r => r
  end.

(** ** The runtime *)

Section drivers.
Context `{Libm} `{Build} `{LuaEngine} `{FloatDisplay}.
Variable definitions_to_vec : list ScriptedDriver → string + list Z.
Variable state_to_vec : StateEnvelope → string + list Z.
Variable state_from_slice : list Z → string + StateEnvelope.

(** Source: [crates/ic10-runner/src/script_driver.rs] [ScriptDrivers] *)
Record ScriptDrivers := {
  sd_definitions : list ScriptedDriver;
  sd_triggers : list AssignableTarget;
  sd_fingerprint : Z;
  sd_state : PersistedState;
}.

Definition sd_set_triggers (v : list AssignableTarget) (x : ScriptDrivers) : ScriptDrivers :=
  {| sd_definitions := sd_definitions x; sd_triggers := v; sd_fingerprint := sd_fingerprint x; sd_state := sd_state x |}.
Definition sd_set_state (v : PersistedState) (x : ScriptDrivers) : ScriptDrivers :=
  {| sd_definitions := sd_definitions x; sd_triggers := sd_triggers x; sd_fingerprint := sd_fingerprint x; sd_state := v |}.

(** A runtime and the simulation it drives. *)
Definition Driven : Type := ScriptDrivers * Simulator.
Abbreviation DX := (M Driven message).

Definition in_simulator {A} (m : M Simulator message A) : DX A :=
  zoom (S := Driven) snd (λ s x, (x.1, s)) m.
Definition alter_state (f : PersistedState → PersistedState) : DX () :=
  modify (λ x, (sd_set_state (f (sd_state x.1)) x.1, x.2)).
Definition observe {A} (f : Driven → outcome message A) : DX A := λ x, (f x, x).
Definition get_state {A} (f : PersistedState → A) : DX A := gets (λ x, f (sd_state x.1)).

(** Source: [crates/ic10-runner/src/script_driver.rs] [definition_fingerprint] *)
Definition definition_fingerprint (definitions : list ScriptedDriver) : outcome message Z :=
  match definitions_to_vec definitions with
  | inr bytes => Ok (fnv_add (u64_bytes (Z.of_nat (length bytes)) ++ bytes)%list FNV_OFFSET)
  | inl error => Err [PS "could not fingerprint scripted drivers: "; PS error]
  end.

(** Source: [crates/ic10-runner/src/script_driver.rs] [persist] *)
Definition persist (actor : EffectActor) : DX () :=
  envelope ← gets (λ x, {| en_format_version := STATE_FORMAT_VERSION; en_definition_fingerprint := sd_fingerprint x.1;
                           en_state := sd_state x.1 |});
  state ← lift (match state_to_vec envelope with
                | inr bytes => Ok bytes
                | inl error => Err [PS "could not serialize scripted driver state: "; PS error]
                end);
  in_simulator (set_test_driver_state STATE_KEY state actor).

(** Source: [crates/ic10-runner/src/script_driver.rs] [reload] *)
Definition reload : DX () :=
  stored ← gets (λ x, test_driver_state STATE_KEY x.2);
  match stored with
  | None => alter_state (λ _, state_default)
  | Some bytes =>
      envelope ← lift (match state_from_slice bytes with
                       | inr envelope => Ok envelope
                       | inl error => Err [PS "scripted driver state is corrupt: "; PS error]
                       end);
      if negb (en_format_version envelope =? STATE_FORMAT_VERSION) then
        throw [PS "unsupported scripted driver state version "; PZ (en_format_version envelope)]
      else
        fingerprint ← gets (λ x, sd_fingerprint x.1);
        if negb (en_definition_fingerprint envelope =? fingerprint) then
          throw [PS "scripted driver state belongs to different driver definitions"]
        else alter_state (λ _, en_state envelope)
  end.

(** Source: [crates/ic10-runner/src/script_driver.rs] [has_pending] *)
Definition has_pending (x : ScriptDrivers) : bool := match ps_pending (sd_state x) with [] => false | _ => true end.

(** Source: [crates/ic10-runner/src/script_driver.rs] [slot_endpoint] *)
Definition slot_endpoint (s : Simulator) (text : string) : outcome message (nat * Z) :=
  let invalid : message := [PS "invalid slot endpoint `"; PS text; PS "`"] in
  rest ← ok_or (strip_prefix ("device(" +:+ DQUOTE) (trim text)) invalid;
  '(device, slot) ← ok_or (split_once_str (DQUOTE +:+ ").slot[") rest) invalid;
  slot ← ok_or (strip_suffix "]" slot ≫= parse_usize) invalid;
  device ← ok_or (device_index device (world s)) [PS "unknown device in slot endpoint `"; PS text; PS "`"];
  d ← expect (devices (world s) !! device);
  if bt_contains_key slot (slots d) then Ok (device, slot)
  else Err [PS "slot endpoint `"; PS text; PS "` is unavailable"].

(** ** Validation of the targets *)

(** Source: [crates/ic10-runner/src/script_driver.rs] [validate_actions] *)
Fixpoint validate_action (s : Simulator) (thread : nat) (driver : ScriptedDriver) (rule : nat) (action : ScriptAction) :
    outcome message () :=
  match action with
  | ActSet target _ =>
      match validate_assignable_target s thread target with
      | Ok _ => Ok ()
      | Err text => with_provenance driver rule (Err (PS "invalid set target: " :: text))
      | Panic => Panic
      end
  | ActMoveSlot from to =>
      _ ← with_provenance driver rule (slot_endpoint s from);
      _ ← with_provenance driver rule (slot_endpoint s to);
      Ok ()
  | ActPublish network channel _ =>
      if (7 <? channel) || bool_decide (network_index network (world s) = None)
      then with_provenance driver rule (Err [PS "publish references an invalid network/channel"])
      else Ok ()
  | ActSchedule _ actions => check_all (validate_action s thread driver rule) actions
  end.

(** One rule: its trigger is kept, its actions are checked.
    Source: [crates/ic10-runner/src/script_driver.rs] [validate_targets] lines 122-135 *)
Definition validate_rule (thread : nat) (driver : ScriptedDriver) (entry : nat * ScriptedRule) : DX () :=
  let '(rule_index, rule) := entry in
  trigger ← observe (λ x, match validate_assignable_target x.2 thread (tr_target (ru_when rule)) with
                          | Err text => with_provenance driver rule_index (Err (PS "invalid trigger target: " :: text))
                          | r => r
                          end);
  _ ← modify (λ x, (sd_set_triggers (sd_triggers x.1 ++ [trigger])%list x.1, x.2));
  observe (λ x, check_all (validate_action x.2 thread driver rule_index) (ru_actions rule)).

(** Source: [crates/ic10-runner/src/script_driver.rs] [validate_targets] *)
Definition validate_targets (thread : nat) : DX () :=
  _ ← modify (λ x, (sd_set_triggers [] x.1, x.2));
  definitions ← gets (λ x, sd_definitions x.1);
  for_each (λ '(driver_index, driver),
    _ ← for_each (validate_rule thread driver) (enumerate (dr_rules driver));
    if String.eqb (trim (dr_id driver)) ""
    then throw [PS "scripted driver #"; PZ (Z.of_nat driver_index + 1); PS " has an empty id"]
    else mret ()) (enumerate definitions).

(** ** Execution *)

Definition attributed {A} (driver : ScriptedDriver) (rule : nat) (m : DX A) : DX A := λ x,
  let '(r, x') := m x in (with_provenance driver rule r, x').

(** One nested action, scheduled.
    Source: [crates/ic10-runner/src/script_driver.rs] [execute] lines 245-256 *)
Definition schedule_action (driver rule : nat) (after_ticks : Z) (action : ScriptAction) : DX () :=
  now ← gets (λ x, tick x.2);
  alter_state (λ st,
    set_pending (ps_pending st ++ [{| sa_tick := Z.min (now + after_ticks) U64_MAX; sa_sequence := ps_sequence st;
                                      sa_driver := driver; sa_rule := rule; sa_action := action |}])%list
      (set_sequence (wrap_u 64 (ps_sequence st + 1)) st)).

(** Source: [crates/ic10-runner/src/script_driver.rs] [execute] *)
Definition execute (thread driver_index rule_index : nat) (action : ScriptAction) : DX () :=
  _ ← alter_state (λ st, set_actions_run (ps_actions_run st + 1) st);
  driver ← get_or_panic (λ x : Driven, sd_definitions x.1 !! driver_index);
  actions_run ← get_state ps_actions_run;
  if MAX_ACTIONS_PER_CASE <? actions_run then
    attributed driver rule_index (throw [PS "action limit 10000 exceeded"])
  else
    actor ← in_simulator (scripted_driver_actor (dr_id driver) (Z.of_nat rule_index));
    match action with
    | ActSet target value =>
        attributed driver rule_index (in_simulator (set_value_as thread target (scalar value) actor))
    | ActPublish network channel value =>
        let target := "network(" +:+ DQUOTE +:+ network +:+ DQUOTE +:+ ").Channel" +:+ show channel in
        attributed driver rule_index (in_simulator (set_value_as thread target (scalar value) actor))
    | ActMoveSlot from to =>
        '(from_device, from_slot) ← observe (λ x, slot_endpoint x.2 from);
        '(to_device, to_slot) ← observe (λ x, slot_endpoint x.2 to);
        attributed driver rule_index (in_simulator (move_slot_item_as from_device from_slot to_device to_slot actor))
    | ActSchedule after_ticks actions =>
        pending ← get_state ps_pending;
        if MAX_PENDING_EVENTS <? Z.of_nat (length pending) + Z.of_nat (length actions) then
          attributed driver rule_index (throw [PS "pending event limit 2048 exceeded"])
        else
          _ ← for_each (schedule_action driver_index rule_index after_ticks) actions;
          alter_state (λ st, set_pending (sort_pending (ps_pending st)) st)
    end.

(** ** Reactions *)

(** The rules of the definitions, in order, each with the indices of its driver and of
    its own. *)
Definition flat_rules (definitions : list ScriptedDriver) : list (nat * nat * ScriptedRule) :=
  concat ((λ '(driver_index, driver), (λ '(rule_index, rule), (driver_index, rule_index, rule)) <$> enumerate (dr_rules driver))
          <$> enumerate definitions).

(** Source: [crates/ic10-runner/src/script_driver.rs] [react_to_writes] lines 157-171 *)
Definition rule_triggered (s : Simulator) (triggers : list AssignableTarget) (write : SequencedWriteEffect)
    (entry : nat * (nat * nat * ScriptedRule)) : outcome message (list (nat * nat * list ScriptAction)) :=
  let '(flat, (driver_index, rule_index, rule)) := entry in
  trigger ← expect (triggers !! flat);
  let matches := assignable_target_matches_write s trigger (w_target (sq_effect write)) in
  let equals := match tr_equals (ru_when rule) with
                | Some value => to_bits (scalar value) =? w_after_bits (sq_effect write)
                | None => true
                end in
  Ok (if matches && equals then [(driver_index, rule_index, ru_actions rule)] else []).

(** The actions of the rules triggered, write by write and rule by rule.
    Source: [crates/ic10-runner/src/script_driver.rs] [react_to_writes] lines 152-174 *)
Definition triggered_rules (s : Simulator) (runtime : ScriptDrivers) (writes : list SequencedWriteEffect) :
    outcome message (list (nat * nat * list ScriptAction)) :=
  found ← map_outcome (λ write, map_outcome (rule_triggered s (sd_triggers runtime) write)
                                  (enumerate (flat_rules (sd_definitions runtime)))) writes;
  Ok (concat (concat found)).

(** The cascades that may still follow.
    Source: [crates/ic10-runner/src/script_driver.rs] [react_to_writes] lines 147-196 *)
Fixpoint react (remaining thread : nat) : DX () :=
  cursor ← get_state ps_write_cursor;
  writes ← gets (λ x, sim_writes_after cursor x.2);
  match last writes with
  | None => mret ()
  | Some latest =>
      triggered ← observe (λ x, triggered_rules x.2 x.1 writes);
      _ ← alter_state (set_write_cursor (sq_sequence latest));
      _ ← in_simulator (sim_acknowledge_writes_through (sq_sequence latest));
      match triggered with
      | [] => mret ()
      | (driver, rule, _) :: _ =>
          match remaining with
          | O =>
              driver ← get_or_panic (λ x : Driven, sd_definitions x.1 !! driver);
              attributed driver rule (throw [PS "reaction cascade exceeded limit 64 (possible scripted cycle)"])
          | S remaining' =>
              _ ← for_each (λ '(driver, rule, actions), for_each (execute thread driver rule) actions) triggered;
              react remaining' thread
          end
      end
  end.

(** Source: [crates/ic10-runner/src/script_driver.rs] [react_to_writes] *)
Definition react_to_writes (thread : nat) : DX () := react MAX_CASCADES_PER_PUMP thread.

(** Source: [crates/ic10-runner/src/script_driver.rs] [pump] *)
Definition pump (thread : nat) : DX () :=
  now ← gets (λ x : Driven, tick x.2);
  pending ← get_state ps_pending;
  let '(due, later) := span (λ a, sa_tick a <=? now) pending in
  _ ← alter_state (set_pending later);
  _ ← for_each (λ a, execute thread (sa_driver a) (sa_rule a) (sa_action a)) due;
  _ ← react_to_writes thread;
  persist ActorScenario.

(** Source: [crates/ic10-runner/src/script_driver.rs] [new] lines 64-70 *)
Definition start (thread : nat) : DX () :=
  _ ← validate_targets thread;
  _ ← reload;
  stored ← gets (λ x : Driven, test_driver_state STATE_KEY x.2);
  match stored with
  | Some _ => mret ()
  | None =>
      sequence ← gets (λ x : Driven, sim_write_sequence x.2);
      _ ← alter_state (set_write_cursor sequence);
      persist ActorScenario
  end.

(** The runtime before it has started. *)
Definition initial (definitions : list ScriptedDriver) (fingerprint : Z) : ScriptDrivers :=
  {| sd_definitions := definitions; sd_triggers := []; sd_fingerprint := fingerprint; sd_state := state_default |}.

Definition started (thread : nat) (runtime : ScriptDrivers) : M Simulator message ScriptDrivers := λ s,
  let '(r, (runtime, s')) := start thread (runtime, s) in
  (match r with Ok _ => Ok runtime | Err e => Err e | Panic => Panic end, s').

(** Source: [crates/ic10-runner/src/script_driver.rs] [new] *)
Definition new (thread : nat) (definitions : list ScriptedDriver) : M Simulator message ScriptDrivers :=
  _ ← set_journaling true;
  fingerprint ← lift (definition_fingerprint definitions);
  started thread (initial definitions fingerprint).
End drivers.
