(* ===== verification/ScriptDriverFacts.v ===== *)
(** * What the scripted drivers keep

    Theorems on [ScriptDriver]: a pump does not panic, keeps the simulation well formed
    and the queue ordered and within its bounds, leaves no action overdue that it
    found, and stores the state that is read back after a checkpoint. *)

From S2P Require Import Prelude BTree Text F64 Knowledge Literals Journal Scenario World Program Cpu Exec.
From S2P Require Import Isa Frame Behaviour Vm Lua Simulator Tick Safety Control Schema Evaluator EvaluatorFacts ScriptDriver.
From Stdlib Require Import Sorting.Sorted.
Local Open Scope string_scope.
Local Open Scope Z_scope.

(** ** The queue *)

Definition before (a b : ScheduledAction) : Prop := sooner a b = true.

Lemma sooner_spec a b : sooner a b = true ↔ sa_tick a < sa_tick b ∨ (sa_tick a = sa_tick b ∧ sa_sequence a < sa_sequence b).
Proof. unfold sooner. rewrite orb_true_iff, andb_true_iff, !Z.ltb_lt, Z.eqb_eq. tauto. Qed.

Lemma before_trans a b c : before a b → before b c → before a c.
Proof. unfold before. rewrite !sooner_spec. lia. Qed.

Lemma not_sooner a b : sa_sequence a ≠ sa_sequence b → sooner a b = false → before b a.
Proof.
  intros Hne Hs. unfold before. rewrite sooner_spec. destruct (sooner a b) eqn:E; [done|].
  assert (¬ (sa_tick a < sa_tick b ∨ (sa_tick a = sa_tick b ∧ sa_sequence a < sa_sequence b))); [|lia].
  rewrite <-sooner_spec. congruence.
Qed.

Lemma enqueue_permutation a l : enqueue a l ≡ₚ a :: l.
Proof. induction l as [|b l IH]; simpl; [done|]. case_match; [done|]. rewrite IH. apply Permutation_swap. Qed.

Lemma enqueue_sorted a l : Forall (λ b, sa_sequence a ≠ sa_sequence b) l → StronglySorted before l →
  StronglySorted before (enqueue a l).
Proof.
  induction l as [|b l IH]; simpl; [by repeat constructor|]. intros [Hne Hl]%Forall_cons [Hs Hb]%StronglySorted_inv.
  destruct (sooner a b) eqn:E.
  - constructor; [by constructor|]. constructor; [exact E|]. eapply Forall_impl; [exact Hb|]. intros c. by apply before_trans.
  - constructor; [by apply IH|]. rewrite enqueue_permutation. constructor; [by apply not_sooner|done].
Qed.

Lemma sort_from l q : foldl (λ q a, enqueue a q) q l ≡ₚ (q ++ l)%list
  ∧ (NoDup (sa_sequence <$> (q ++ l)%list) → StronglySorted before q → StronglySorted before (foldl (λ q a, enqueue a q) q l)).
Proof.
  revert q. induction l as [|a l IH]; intros q; simpl; [by rewrite app_nil_r|]. destruct (IH (enqueue a q)) as [Hp Hs]. split.
  - rewrite Hp, enqueue_permutation. simpl. by rewrite Permutation_middle.
  - intros Hnd Hq. apply Hs.
    + rewrite <-Permutation_middle in Hnd. by rewrite enqueue_permutation.
    + apply enqueue_sorted; [|done]. apply Forall_forall. intros b Hb Heq. revert Hnd. rewrite <-Permutation_middle. simpl.
      intros [Hn _]%NoDup_cons. apply Hn. rewrite Heq, fmap_app. apply elem_of_app. left. by apply list_elem_of_fmap_2.
Qed.

Lemma sort_pending_permutation l : sort_pending l ≡ₚ l.
Proof. apply (sort_from l []). Qed.

Lemma sort_pending_sorted l : NoDup (sa_sequence <$> l) → StronglySorted before (sort_pending l).
Proof. intros Hl. apply (sort_from l []); [done|constructor]. Qed.

Lemma span_spec {A} (f : A → bool) l : let '(x, y) := span f l in l = (x ++ y)%list ∧ Forall (λ a, f a = true) x
  ∧ match y with [] => True | a :: _ => f a = false end.
Proof.
  induction l as [|a l IH]; simpl; [done|]. destruct (f a) eqn:E; [|done]. destruct (span f l) as [x y].
  destruct IH as (-> & Hx & Hy). split_and!; [done|by constructor|done].
Qed.

(** What follows the due actions of an ordered queue is later. *)
Lemma span_later l now : StronglySorted before l → Forall (λ a, now < sa_tick a) (span (λ a, sa_tick a <=? now) l).2.
Proof.
  pose proof (span_spec (λ a, sa_tick a <=? now) l) as Hspan. destruct (span _ l) as [x y]. destruct Hspan as (-> & _ & Hy).
  intros Hs. destruct y as [|a y]; [constructor|]. simpl. apply Z.leb_gt in Hy. constructor; [lia|].
  assert (StronglySorted before (a :: y)) as [_ Hf]%StronglySorted_inv.
  { clear -Hs. induction x as [|b x IH]; [done|]. apply IH. by apply StronglySorted_inv in Hs as [? _]. }
  eapply Forall_impl; [exact Hf|]. intros b. unfold before. rewrite sooner_spec. lia.
Qed.

(** The queue of a runtime: in order, within its bounds, every action of a rule that
    exists, every sequence used once. *)
Record queue_ok (definitions : list ScriptedDriver) (st : PersistedState) : Prop := {
  qk_sorted : StronglySorted before (ps_pending st);
  qk_length : Z.of_nat (length (ps_pending st)) ≤ MAX_PENDING_EVENTS;
  qk_rules : Forall (λ a, ∃ d, definitions !! sa_driver a = Some d ∧ is_Some (dr_rules d !! sa_rule a)) (ps_pending st);
  qk_sequences : Forall (λ a, 0 ≤ sa_sequence a < ps_sequence st) (ps_pending st);
  qk_distinct : NoDup (sa_sequence <$> ps_pending st);
  qk_counts : 0 ≤ ps_actions_run st ∧ 0 ≤ ps_sequence st ≤ MAX_PENDING_EVENTS * Z.min (ps_actions_run st) MAX_ACTIONS_PER_CASE;
}.

(** ** Edits of the simulation *)

Section edits.
Context `{Libm} `{Build} `{LuaEngine} `{FloatDisplay}.
Context (sizes : list nat) (nn nc : nat) (now : Z).

Definition at_tick (s : Simulator) : Prop := sim_ok sizes nn nc s ∧ tick s = now.

Lemma at_tick_journal s j : at_tick s → at_tick (sim_set_journal j s).
Proof. intros [Hs Ht]. split; [by apply sim_ok_journal|done]. Qed.

Lemma validate_no_panic s thread text : sim_ok sizes nn nc s → validate_assignable_target s thread text ≠ Panic.
Proof.
  intros [Hw Hl]%sim_world_lookups. unfold validate_assignable_target, device_at.
  assert (∀ id i, ok_or (device_index id (world s)) (unknown_device id) = Ok i → @expect message _ (devices (world s) !! i) ≠ Panic) as Hd.
  { intros id i Hi%ok_or_Ok. apply (ok_device_ids _ Hw) in Hi as (d & Hd & _). apply expect_no_panic. eauto. }
  repeat case_match; try done; repeat (apply bind_no_panic; [|intros ? ?]); repeat case_match; try done; eauto using ok_or_no_panic.
Qed.

Lemma safe_set_value thread text value actor : safe at_tick (set_value_as thread text value actor) any.
Proof.
  intros s [Hs Ht]. unfold set_value_as, mbind, M_mbind.
  pose proof (validate_no_panic s thread text Hs) as Hn. pose proof (sim_world_lookups _ _ _ s Hs) as [Hw _].
  destruct (validate_assignable_target s thread text) as [target|e|] eqn:Hv; [|done|done].
  apply validate_locate in Hv as [_ [b Hb]]; [|done].
  destruct (assign_run s target value actor b Hw Hb) as (s' & -> & [Ha _]). split; [|done].
  split; [by apply (as_ok _ _ _ _ Ha)|]. destruct (as_clock _ _ _ _ Ha) as [-> _]. done.
Qed.

Lemma safe_driver_actor driver rule : safe at_tick (scripted_driver_actor driver rule) any.
Proof.
  eapply (safe_bind _ _ _ _ _ any); [|intros id _; by apply safe_ret]. intros s Hs. unfold sim_intern. destruct (intern driver (journal s)) as [id j].
  split; [by apply at_tick_journal|done].
Qed.

(** Both ends of a movement are there. *)
Definition slots_there (d1 : nat) (s1 : Z) (d2 : nat) (s2 : Z) (s : Simulator) : Prop :=
  at_tick s ∧ is_Some (slot_fields (world s) d1 s1) ∧ is_Some (slot_fields (world s) d2 s2).

Lemma slot_fields_put w device slot field value d' slot' :
  is_Some (slot_fields w d' slot') → is_Some (slot_fields (alter_device (put_slot_field slot field value) device w) d' slot').
Proof.
  unfold slot_fields. rewrite lookup_alter_device. destruct (devices w !! d') as [d|]; [|done]. simpl. case_decide as Hd; [|done].
  unfold put_slot_field. destruct (bt_get slot (slots d)) as [fs|] eqn:Hfs; [|done]. simpl. intros Hs.
  destruct (decide (slot = slot')) as [<-|Hne]; [rewrite bt_get_insert_eq; eauto|by rewrite bt_get_insert_ne].
Qed.

Lemma put_slot_field_identity slot field value : same_identity (put_slot_field slot field value).
Proof. intros d. unfold put_slot_field. by case_match. Qed.

Lemma slots_there_put d1 s1 d2 s2 device slot field value s : slots_there d1 s1 d2 s2 s →
  slots_there d1 s1 d2 s2 (sim_set_world (alter_device (put_slot_field slot field value) device (world s)) s).
Proof.
  intros ([Hs Ht] & Ha1 & Ha2). split_and!; [|by apply slot_fields_put..]. split; [|done].
  apply sim_ok_world_set; [done|]. apply world_shape_alter_device; [apply put_slot_field_identity|by apply (sim_ok_world _ _ nc)].
Qed.

Lemma slots_there_journal d1 s1 d2 s2 j s : slots_there d1 s1 d2 s2 s → slots_there d1 s1 d2 s2 (sim_set_journal j s).
Proof. intros (? & ? & ?). split_and!; [by apply at_tick_journal|done..]. Qed.

(** A device whose slot is known. *)
Lemma safe_device_slot d1 s1 d2 s2 device slot :
  (device, slot) = (d1, s1) ∨ (device, slot) = (d2, s2) →
  safe (E:=message) (slots_there d1 s1 d2 s2) (sim_device device) (λ d, is_Some (bt_get slot (slots d))).
Proof.
  intros Hd. apply safe_get_or_panic. intros s (_ & Ha1 & Ha2).
  assert (is_Some (slot_fields (world s) device slot)) as [fs Hf] by (destruct Hd as [[= -> ->] | [= -> ->]]; done).
  unfold slot_fields in Hf. destruct (devices (world s) !! device) as [d|]; [|done]. exists d. split; [done|]. by exists fs.
Qed.

Lemma safe_move_field d1 s1 d2 s2 actor entry :
  safe (slots_there d1 s1 d2 s2) (move_item_field d1 s1 d2 s2 actor entry) any.
Proof.
  unfold move_item_field. destruct entry as [field value].
  eapply safe_bind; [by eapply (safe_device_slot _ _ _ _ d2 s2); right|intros destination [fs Hfs]].
  eapply (safe_bind _ _ _ _ _ any); [rewrite Hfs; intros s Hs; by split|intros fs' _].
  destruct (bt_get field fs') as [b|]; [|by apply safe_ret].
  eapply safe_bind; [by eapply (safe_device_slot _ _ _ _ d1 s1); left|intros origin [fs1 Hfs1]].
  eapply (safe_bind _ _ _ _ _ any); [rewrite Hfs1; intros s Hs; by split|intros fs2 _].
  eapply (safe_bind _ _ _ _ _ any); [apply safe_modify; intros s Hs; by apply slots_there_put|intros _ _].
  eapply (safe_bind _ _ _ _ _ any); [apply safe_modify; intros s Hs; by apply slots_there_put|intros _ _].
  eapply (safe_bind _ _ _ _ _ any); [by apply safe_gets|intros on _]. apply safe_when.
  eapply (safe_bind _ _ _ _ _ any); [|intros id _].
  - intros s Hs. unfold sim_intern. destruct (intern field (journal s)) as [id j]. split; [by apply slots_there_journal|done].
  - eapply (safe_bind _ _ _ _ _ any); [apply safe_modify; intros s Hs; by apply slots_there_journal|intros _ _].
    apply safe_modify; intros s Hs; by apply slots_there_journal.
Qed.

Lemma safe_move_item d1 s1 d2 s2 actor : safe at_tick (move_slot_item_as d1 s1 d2 s2 actor) any.
Proof.
  intros s Hs. unfold move_slot_item_as. rewrite bind_gets. destruct (slot_fields (world s) d1 s1) as [item|] eqn:Ha1; [|exact Hs].
  rewrite bind_lift_Some, bind_gets. destruct (slot_fields (world s) d2 s2) as [fs|] eqn:Ha2; [|exact Hs].
  assert (slots_there d1 s1 d2 s2 s) as Hthere by (split_and!; [done|by eexists|by eexists]).
  pose proof (safe_for_each (slots_there d1 s1 d2 s2) _ (move_item_field d1 s1 d2 s2 actor) item
    (λ e _, safe_move_field d1 s1 d2 s2 actor e) s Hthere) as Hsafe.
  destruct (for_each _ item s) as [[u|e|] s']; [|apply Hsafe|done]. split; [apply Hsafe|done].
Qed.

Lemma slot_endpoint_no_panic s text : sim_ok sizes nn nc s → slot_endpoint s text ≠ Panic.
Proof.
  intros [Hw _]%sim_world_lookups. unfold slot_endpoint.
  apply bind_no_panic; [apply ok_or_no_panic|intros r _]. apply bind_no_panic; [apply ok_or_no_panic|intros [d slot] _].
  apply bind_no_panic; [apply ok_or_no_panic|intros z _]. apply bind_no_panic; [apply ok_or_no_panic|intros i Hi%ok_or_Ok].
  apply (ok_device_ids _ Hw) in Hi as (dev & Hdev & _). rewrite Hdev. cbn [expect mbind outcome_mbind outcome_bind]. by case_match.
Qed.
End edits.

(** ** One action *)

Section driven.
Context `{Libm} `{Build} `{LuaEngine} `{FloatDisplay}.
Context (sizes : list nat) (nn nc thread : nat) (now : Z).
Context (definitions : list ScriptedDriver) (triggers : list AssignableTarget) (fingerprint : Z).
Context (later : list ScheduledAction) (first : Z).

(** A runtime of these definitions at this tick, whose queue holds the actions of
    [later] and actions scheduled since the sequence [first]. *)
Record driven (x : Driven) : Prop := {
  dv_sim : at_tick sizes nn nc now x.2;
  dv_definitions : sd_definitions x.1 = definitions ∧ sd_triggers x.1 = triggers ∧ sd_fingerprint x.1 = fingerprint;
  dv_queue : queue_ok definitions (sd_state x.1);
  dv_left : first ≤ ps_sequence (sd_state x.1)
            ∧ Forall (λ a, a ∈ later ∨ first ≤ sa_sequence a) (ps_pending (sd_state x.1))
            ∧ Forall (λ a, a ∈ ps_pending (sd_state x.1)) later;
}.

Definition rule_exists (driver rule : nat) : Prop :=
  ∃ d, definitions !! driver = Some d ∧ is_Some (dr_rules d !! rule).

Lemma driven_sim x s : driven x → at_tick sizes nn nc now s → driven (x.1, s).
Proof. by intros [? ? ? ?] Hs; constructor. Qed.

Lemma driven_state x st : driven x → queue_ok definitions st → first ≤ ps_sequence st →
  Forall (λ a, a ∈ later ∨ first ≤ sa_sequence a) (ps_pending st) →
  Forall (λ a, a ∈ ps_pending st) later → driven (sd_set_state st x.1, x.2).
Proof. by intros [? ? ? ?] Hq Hf Hl Hk; constructor. Qed.

Lemma safe_in_simulator {A} (m : M Simulator message A) Q :
  safe (at_tick sizes nn nc now) m Q → safe driven (in_simulator m) Q.
Proof. intros Hm. apply (safe_zoom _ (at_tick sizes nn nc now)); [by intros x []| |done]. intros x s. apply driven_sim. Qed.

Lemma safe_observe {A} (f : Driven → outcome message A) (Q : A → Prop) :
  (∀ x, driven x → match f x with Ok a => Q a | Err _ => True | Panic => False end) → safe driven (observe f) Q.
Proof. intros Hf x Hx. unfold observe. specialize (Hf x Hx). by destruct (f x). Qed.

Lemma with_provenance_no_panic {A} driver rule (r : outcome message A) :
  is_Some (dr_rules driver !! rule) → r ≠ Panic → with_provenance driver rule r ≠ Panic.
Proof. intros [? Hr] Hn. destruct r; [done| |done]. unfold with_provenance, provenance. by rewrite Hr. Qed.

Lemma with_provenance_Ok {A} driver rule (r : outcome message A) a : with_provenance driver rule r = Ok a → r = Ok a.
Proof. destruct r as [b|e|]; [done| |done]. unfold with_provenance. by destruct (provenance driver rule e). Qed.

Lemma safe_attributed {A} driver rule (m : M Driven message A) Q :
  is_Some (dr_rules driver !! rule) → safe driven m Q → safe driven (attributed driver rule m) Q.
Proof.
  intros Hr Hm x Hx. unfold attributed. specialize (Hm x Hx). destruct (m x) as [[a|e|] x']; [done| |done].
  pose proof (with_provenance_no_panic (A:=A) driver rule (Err e) Hr ltac:(done)) as Hn.
  destruct (with_provenance driver rule (Err e)) as [a|e'|] eqn:Hw; [|done|done]. by apply with_provenance_Ok in Hw.
Qed.

Lemma safe_refused driver rule text : is_Some (dr_rules driver !! rule) →
  safe driven (attributed driver rule (throw text : M Driven message ())) any.
Proof. intros Hr. by apply safe_attributed, safe_throw. Qed.

(** The actions one [Schedule] adds, before the queue is sorted. *)
Lemma schedule_all driver rule after actions : ∀ x : Driven,
  0 ≤ ps_sequence (sd_state x.1) → ps_sequence (sd_state x.1) + Z.of_nat (length actions) < 2 ^ 64 →
  ∃ added, for_each (schedule_action driver rule after) actions x
      = (Ok (), (sd_set_state (set_pending (ps_pending (sd_state x.1) ++ added)%list
                   (set_sequence (ps_sequence (sd_state x.1) + Z.of_nat (length actions)) (sd_state x.1))) x.1, x.2))
    ∧ Forall (λ a, sa_driver a = driver ∧ sa_rule a = rule) added
    ∧ sa_sequence <$> added = seqZ (ps_sequence (sd_state x.1)) (Z.of_nat (length actions)).
Proof.
  induction actions as [|action actions IH]; intros [[defs trs fp [pend seq run cur]] s] Hpos Hl.
  - exists []. split_and!; [|constructor|done]. simpl. by rewrite app_nil_r, Z.add_0_r.
  - cbn [length] in Hl. cbn [sd_state ps_sequence fst snd] in *. cbn [for_each].
    set (a := {| sa_tick := Z.min (tick s + after) U64_MAX; sa_sequence := seq; sa_driver := driver; sa_rule := rule; sa_action := action |}).
    assert (schedule_action driver rule after action
      ({| sd_definitions := defs; sd_triggers := trs; sd_fingerprint := fp;
          sd_state := {| ps_pending := pend; ps_sequence := seq; ps_actions_run := run; ps_write_cursor := cur |} |}, s)
      = (Ok (), ({| sd_definitions := defs; sd_triggers := trs; sd_fingerprint := fp;
          sd_state := {| ps_pending := (pend ++ [a])%list; ps_sequence := seq + 1; ps_actions_run := run; ps_write_cursor := cur |} |}, s))) as Hone.
    { unfold schedule_action, alter_state. rewrite bind_gets. unfold modify, set_pending, set_sequence, sd_set_state. simpl.
      by rewrite wrap_u_small by lia. }
    erewrite bind_run by exact Hone.
    destruct (IH ({| sd_definitions := defs; sd_triggers := trs; sd_fingerprint := fp;
          sd_state := {| ps_pending := (pend ++ [a])%list; ps_sequence := seq + 1; ps_actions_run := run; ps_write_cursor := cur |} |}, s))
      as (added & -> & Hall & Hseq); [cbn [sd_state ps_sequence fst]; lia..|].
    exists (a :: added). cbn [sd_state ps_sequence ps_pending fst snd] in *. split_and!.
    + unfold sd_set_state, set_pending, set_sequence. cbn [length]. rewrite <-app_assoc.
      by replace (seq + 1 + Z.of_nat (length actions)) with (seq + Z.of_nat (S (length actions))) by lia.
    + by constructor.
    + cbn [fmap list_fmap length]. rewrite Hseq, (seqZ_cons seq (Z.of_nat (S (length actions)))) by lia. unfold Z.succ. do 2 f_equal. lia.
Qed.

(** The queue with more actions of one rule, sorted again. *)
Lemma queue_ok_scheduled st driver rule added n : queue_ok definitions st → rule_exists driver rule →
  Z.of_nat (length (ps_pending st)) + n ≤ MAX_PENDING_EVENTS → 0 ≤ n → ps_actions_run st ≤ MAX_ACTIONS_PER_CASE →
  ps_sequence st + MAX_PENDING_EVENTS ≤ MAX_PENDING_EVENTS * ps_actions_run st →
  Forall (λ a, sa_driver a = driver ∧ sa_rule a = rule) added → sa_sequence <$> added = seqZ (ps_sequence st) n →
  queue_ok definitions (set_pending (sort_pending (ps_pending st ++ added)%list) (set_sequence (ps_sequence st + n) st)).
Proof.
  intros [Hs Hl Hr Hq Hd [Hrun Hc]] He Hroom Hn Hmax Hbudget Hadded Hseq.
  assert (length added = Z.to_nat n) as Hlen by (rewrite <-(length_fmap sa_sequence added), Hseq; apply length_seqZ).
  assert (∀ a, a ∈ added → ps_sequence st ≤ sa_sequence a < ps_sequence st + n) as Hin.
  { intros a Ha. apply (list_elem_of_fmap_2 sa_sequence) in Ha. rewrite Hseq in Ha. apply elem_of_seqZ in Ha. lia. }
  assert (NoDup (sa_sequence <$> (ps_pending st ++ added)%list)) as Hnd.
  { rewrite fmap_app. apply NoDup_app. split_and!; [done| |rewrite Hseq; apply NoDup_seqZ].
    intros z (a & -> & Ha)%list_elem_of_fmap (b & Hz & Hb)%list_elem_of_fmap. apply Hin in Hb.
    rewrite Forall_forall in Hq. specialize (Hq a Ha). lia. }
  constructor; simpl.
  - by apply sort_pending_sorted.
  - rewrite sort_pending_permutation, length_app, Hlen. lia.
  - rewrite sort_pending_permutation. apply Forall_app. split; [done|]. eapply Forall_impl; [exact Hadded|]. by intros a [-> ->].
  - rewrite sort_pending_permutation. apply Forall_app. split; [eapply Forall_impl; [exact Hq|]; intros a Ha; simpl in *; lia|].
    apply Forall_forall. intros a Ha. apply Hin in Ha. lia.
  - by rewrite sort_pending_permutation.
  - rewrite Z.min_l by lia. lia.
Qed.

(** The action itself, once it is counted. *)
Definition perform (driver_index rule_index : nat) (driver : ScriptedDriver) (action : ScriptAction) : M Driven message () :=
  actor ← in_simulator (scripted_driver_actor (dr_id driver) (Z.of_nat rule_index));
  match action with
  | ActSet target value =>
      attributed driver rule_index (in_simulator (set_value_as thread target (scalar value) actor))
  | ActPublish network channel value =>
      let target := "network(" +:+ DQUOTE +:+ network +:+ DQUOTE +:+ ").Channel" +:+ show channel in
      attributed driver rule_index (in_simulator (set_value_as thread target (scalar value) actor))
  | ActMoveSlot from to =>
      '(from_device, from_slot) ← observe (λ x, slot_endpoint x.2 from);
      '(to_device, to_slot) ← observe (λ x, slot_endpoint x.2 to);
      attributed driver rule_index (in_simulator (move_slot_item_as from_device from_slot to_device to_slot actor))
  | ActSchedule after_ticks actions =>
      pending ← get_state ps_pending;
      if MAX_PENDING_EVENTS <? Z.of_nat (length pending) + Z.of_nat (length actions) then
        attributed driver rule_index (throw [PS "pending event limit 2048 exceeded"])
      else
        _ ← for_each (schedule_action driver_index rule_index after_ticks) actions;
        alter_state (λ st, set_pending (sort_pending (ps_pending st)) st)
  end.

Lemma execute_perform driver rule action (x : Driven) d :
  sd_definitions x.1 !! driver = Some d →
  execute thread driver rule action x
  = let st := set_actions_run (ps_actions_run (sd_state x.1) + 1) (sd_state x.1) in
    let x' := (sd_set_state st x.1, x.2) in
    if MAX_ACTIONS_PER_CASE <? ps_actions_run st then attributed d rule (throw [PS "action limit 10000 exceeded"]) x'
    else perform driver rule d action x'.
Proof.
  intros Hd. unfold execute, alter_state. rewrite bind_modify.
  erewrite (bind_run _ _ _ d) by (unfold get_or_panic; simpl; by rewrite Hd). unfold get_state. rewrite bind_gets.
  cbn [fst sd_set_state sd_state set_actions_run ps_actions_run]. by destruct (MAX_ACTIONS_PER_CASE <? _).
Qed.

(** A runtime with the budget for one more list of scheduled actions. *)
Definition budgeted (x : Driven) : Prop :=
  driven x ∧ ps_actions_run (sd_state x.1) ≤ MAX_ACTIONS_PER_CASE
  ∧ ps_sequence (sd_state x.1) + MAX_PENDING_EVENTS ≤ MAX_PENDING_EVENTS * ps_actions_run (sd_state x.1).

Lemma safe_endpoint text : safe driven (observe (λ x, slot_endpoint x.2 text)) any.
Proof.
  apply safe_observe. intros x [[Hs _] _ _ _]. pose proof (slot_endpoint_no_panic _ _ _ x.2 text Hs).
  by destruct (slot_endpoint x.2 text).
Qed.

Lemma perform_ok driver rule d action x : definitions !! driver = Some d → is_Some (dr_rules d !! rule) → budgeted x →
  match perform driver rule d action x with (Panic, _) => False | (_, x') => driven x' end.
Proof.
  intros Hd Hr (Hx & Hrun & Hbudget).
  assert (∀ m : M Driven message (), safe driven m any → match m x with (Panic, _) => False | (_, x') => driven x' end) as Hsafe.
  { intros m Hm. specialize (Hm x Hx). destruct (m x) as [[a|e|] x']; [apply Hm|done|done]. }
  assert (∀ m : EffectActor → M Driven message (), (∀ actor, safe driven (m actor) (@any ())) →
    safe driven (actor ← in_simulator (scripted_driver_actor (dr_id d) (Z.of_nat rule)); m actor) (@any ())) as Hactor.
  { intros m Hm. eapply safe_bind; [apply safe_in_simulator, safe_driver_actor|intros actor _; apply Hm]. }
  destruct action as [target value|from to|network channel value|after actions].
  - apply Hsafe, Hactor. intros actor. by apply safe_attributed, safe_in_simulator, safe_set_value.
  - apply Hsafe, Hactor. intros actor. eapply safe_bind; [apply safe_endpoint|intros [d1 s1] _].
    eapply safe_bind; [apply safe_endpoint|intros [d2 s2] _]. by apply safe_attributed, safe_in_simulator, safe_move_item.
  - apply Hsafe, Hactor. intros actor. by apply safe_attributed, safe_in_simulator, safe_set_value.
  - unfold perform. pose proof (safe_in_simulator _ any (safe_driver_actor sizes nn nc now (dr_id d) (Z.of_nat rule)) x Hx) as Hact.
    assert (sd_state (in_simulator (scripted_driver_actor (dr_id d) (Z.of_nat rule)) x).2.1 = sd_state x.1) as Hstate.
    { unfold in_simulator, zoom. by destruct (scripted_driver_actor _ _ x.2). }
    unfold mbind at 1, M_mbind at 1.
    destruct (in_simulator _ x) as [[actor|e|] x1]; [destruct Hact as [Hx1 _]|done|done]. cbn [fst snd] in Hstate.
    unfold get_state. rewrite bind_gets, Hstate. destruct (Z.ltb_spec MAX_PENDING_EVENTS (Z.of_nat (length (ps_pending (sd_state x.1))) + Z.of_nat (length actions))) as [|Hroom].
    { pose proof (safe_refused d rule [PS "pending event limit 2048 exceeded"] Hr x1 Hx1) as Hs.
      destruct (attributed d rule _ x1) as [[?|?|] ?]; [apply Hs|done|done]. }
    pose proof (dv_queue _ Hx1) as Hq. rewrite Hstate in Hq. pose proof (dv_left _ Hx1) as (Hf & Hl & Hk). rewrite Hstate in Hf, Hl, Hk.
    pose proof (qk_counts _ _ Hq) as [_ Hc]. unfold MAX_PENDING_EVENTS, MAX_ACTIONS_PER_CASE in *.
    destruct (schedule_all driver rule after actions x1) as (added & Hrunall & Hadded & Hseq); rewrite ?Hstate; [lia|lia|].
    rewrite Hstate in Hrunall, Hseq. erewrite bind_run by exact Hrunall. unfold alter_state, modify. cbn [fst snd sd_set_state sd_state].
    apply (driven_state x1).
    + done.
    + apply (queue_ok_scheduled (sd_state x.1) driver rule added); try done; [by exists d|lia].
    + simpl. lia.
    + simpl. rewrite sort_pending_permutation. apply Forall_app. split; [done|]. apply Forall_forall. intros a Ha. right.
      apply (list_elem_of_fmap_2 sa_sequence) in Ha. rewrite Hseq in Ha. apply elem_of_seqZ in Ha. lia.
    + eapply Forall_impl; [exact Hk|]. intros a Ha. simpl. rewrite sort_pending_permutation. apply elem_of_app. by left.
Qed.

Lemma safe_execute driver rule action : rule_exists driver rule → safe driven (execute thread driver rule action) any.
Proof.
  intros (d & Hd & Hr) x Hx. pose proof (dv_definitions _ Hx) as (Hdef & _ & _). pose proof (dv_queue _ Hx) as [Hs Hl Hru Hsq Hdi [Hc1 Hc2]].
  pose proof (dv_left _ Hx) as (Hf & Hlf & Hk). rewrite (execute_perform driver rule action x d) by (by rewrite Hdef).
  cbv zeta. set (x' := (_, _)). assert (driven x') as Hx'.
  { apply driven_state; [done| |done|done|done]. constructor; try done. simpl. unfold MAX_PENDING_EVENTS, MAX_ACTIONS_PER_CASE in *. lia. }
  cbn [ps_actions_run set_actions_run]. destruct (Z.ltb_spec MAX_ACTIONS_PER_CASE (ps_actions_run (sd_state x.1) + 1)) as [|Hrun].
  { exact (safe_refused d rule _ Hr x' Hx'). }
  assert (budgeted x') as Hb.
  { split; [done|]. simpl. unfold MAX_PENDING_EVENTS, MAX_ACTIONS_PER_CASE in *. lia. }
  pose proof (perform_ok driver rule d action x' Hd Hr Hb) as Hp. destruct (perform driver rule d action x') as [[?|?|] ?]; [by split|done|done].
Qed.
End driven.

(** ** Reactions *)

Lemma flat_rules_elem definitions driver rule r : (driver, rule, r) ∈ flat_rules definitions →
  ∃ d, definitions !! driver = Some d ∧ dr_rules d !! rule = Some r.
Proof.
  unfold flat_rules. rewrite list_elem_of_In, in_concat. setoid_rewrite <-list_elem_of_In.
  intros (l & ([i d] & -> & Hi)%list_elem_of_fmap & ([j r'] & [= -> -> ->] & Hj)%list_elem_of_fmap).
  apply list_elem_of_lookup in Hi as (k & Hk), Hj as (m & Hm). rewrite lookup_enumerate in Hk. rewrite lookup_enumerate in Hm.
  apply fmap_Some in Hk as (? & ? & [= -> ->]), Hm as (? & ? & [= -> ->]). eauto.
Qed.

Section reactions.
Context `{Libm} `{Build} `{LuaEngine} `{FloatDisplay}.
Context (sizes : list nat) (nn nc thread : nat) (now : Z).
Context (definitions : list ScriptedDriver) (triggers : list AssignableTarget) (fingerprint : Z).
Context (later : list ScheduledAction) (first : Z).

Local Abbreviation driven := (driven sizes nn nc now definitions triggers fingerprint later first).
Local Abbreviation complete := (length triggers = length (flat_rules definitions)).

(** Every rule has its trigger, so that no rule is left without one, and the rules
    found are rules that exist. *)
Lemma triggered_ok x writes : complete → driven x →
  match triggered_rules x.2 x.1 writes with
  | Ok l => Forall (λ '(driver, rule, _), rule_exists definitions driver rule) l
  | Err _ => True
  | Panic => False
  end.
Proof.
  intros Hcomplete Hx. pose proof (dv_definitions _ _ _ _ _ _ _ _ _ _ Hx) as (Hdef & Htr & _). unfold triggered_rules. rewrite Hdef, Htr.
  assert (∀ write, map_outcome (rule_triggered x.2 triggers write) (enumerate (flat_rules definitions)) ≠ Panic) as Hin.
  { intros write. apply map_outcome_no_panic. intros [i [[d r] rule]] Hi. apply list_elem_of_lookup in Hi as (k & Hk).
    rewrite lookup_enumerate in Hk. apply fmap_Some in Hk as (? & Hk & [= -> <-]). apply lookup_lt_Some in Hk. rewrite <-Hcomplete in Hk.
    apply lookup_lt_is_Some_2 in Hk as [t Ht]. unfold rule_triggered. by rewrite Ht. }
  pose proof (map_outcome_no_panic (λ write, map_outcome (rule_triggered x.2 triggers write) (enumerate (flat_rules definitions))) writes
    (λ w _, Hin w)) as Hn.
  destruct (map_outcome _ writes) as [found|e|] eqn:Hf; [|done|done]. cbn [mbind outcome_mbind outcome_bind].
  apply map_outcome_elem in Hf. apply Forall_forall. intros [[driver rule] actions].
  rewrite list_elem_of_In, in_concat. intros (l & Hl & Ha). apply in_concat in Hl as (ll & Hll & Hl).
  rewrite <-list_elem_of_In in Hll. rewrite <-list_elem_of_In in Hl. rewrite <-list_elem_of_In in Ha. apply list_elem_of_lookup in Hll as (k & Hk).
  destruct (Forall2_lookup_r _ _ _ _ _ Hf Hk) as (write & _ & Hw). apply map_outcome_elem in Hw.
  apply list_elem_of_lookup in Hl as (m & Hm). destruct (Forall2_lookup_r _ _ _ _ _ Hw Hm) as ([flat [[d r] rl]] & He & Hr).
  rewrite lookup_enumerate in He. apply fmap_Some in He as (? & He & [= -> <-]). unfold rule_triggered in Hr.
  destruct (triggers !! m); [|done]. cbn [expect mbind outcome_mbind outcome_bind] in Hr. injection Hr as <-.
  destruct (_ && _); [|by apply elem_of_nil in Ha]. apply list_elem_of_singleton in Ha as [= -> -> ->].
  apply list_elem_of_lookup_2, flat_rules_elem in He as (dr & Hd & Hru). exists dr. split; [done|]. by exists rl.
Qed.

Lemma safe_alter_cursor cursor : safe driven (alter_state (set_write_cursor cursor)) any.
Proof. apply safe_modify. intros [r s] [? ? [? ? ? ? ? ?] (? & ? & ?)]. by constructor. Qed.

Lemma safe_acknowledge sequence : safe driven (in_simulator (sim_acknowledge_writes_through sequence)) any.
Proof. apply safe_in_simulator, safe_modify. intros s Hs. by apply at_tick_journal. Qed.

Lemma safe_react remaining : complete → safe driven (react remaining thread) any.
Proof.
  intros Hcomplete. induction remaining as [|remaining IH]; cbn [react];
  (eapply (safe_bind _ _ _ _ _ any); [by apply safe_gets|intros cursor _];
   eapply (safe_bind _ _ _ _ _ any); [by apply safe_gets|intros writes _];
   destruct (last writes) as [latest|]; [|by apply safe_ret];
   eapply safe_bind; [apply safe_observe; intros x Hx; apply (triggered_ok x writes Hcomplete Hx)|intros triggered Htriggered];
   eapply safe_bind; [apply safe_alter_cursor|intros _ _];
   eapply safe_bind; [apply safe_acknowledge|intros _ _];
   destruct triggered as [|[[driver rule] actions] rest]; [by apply safe_ret|]).
  - apply Forall_cons in Htriggered as [(d & Hd & Hr) _].
    eapply (safe_bind _ _ _ _ _ (λ d', d' = d)); [|intros d' ->; by apply safe_refused].
    apply safe_get_or_panic. intros x Hx. exists d. split; [|done].
    by destruct (dv_definitions _ _ _ _ _ _ _ _ _ _ Hx) as (-> & _).
  - eapply (safe_bind _ _ _ _ _ any); [|intros _ _; apply IH].
    apply safe_for_each. intros [[d r] acts] Hin. rewrite Forall_forall in Htriggered. specialize (Htriggered _ Hin).
    apply safe_for_each. intros a _. by apply safe_execute.
Qed.
End reactions.

(** ** The pump *)

Section pump.
Context `{Libm} `{Build} `{LuaEngine} `{FloatDisplay}.
Context (state_to_vec : StateEnvelope → string + list Z) (state_from_slice : list Z → string + StateEnvelope).
Context (sizes : list nat) (nn nc : nat).

(** A runtime ready to be pumped. *)
Record runtime_ok (x : Driven) : Prop := {
  rk_sim : sim_ok sizes nn nc x.2;
  rk_triggers : length (sd_triggers x.1) = length (flat_rules (sd_definitions x.1));
  rk_queue : queue_ok (sd_definitions x.1) (sd_state x.1);
}.

Lemma at_tick_driver_state now s d : at_tick sizes nn nc now s → at_tick sizes nn nc now (sim_set_driver_state d s).
Proof. intros [[(? & ? & ?) ? ?] ?]. split; [by constructor|done]. Qed.

Lemma safe_set_driver_state now driver bytes actor : safe (at_tick sizes nn nc now) (set_test_driver_state driver bytes actor) any.
Proof.
  eapply (safe_bind _ _ _ _ _ any); [by apply safe_gets|intros b _].
  eapply (safe_bind _ _ _ _ _ any); [apply safe_modify; intros s Hs; by apply at_tick_driver_state|intros _ _].
  eapply (safe_bind _ _ _ _ _ any); [by apply safe_gets|intros on _]. apply safe_when.
  eapply (safe_bind _ _ _ _ _ any); [|intros id _; apply safe_modify; intros s Hs; by apply at_tick_journal].
  intros s Hs. unfold sim_intern. destruct (intern driver (journal s)) as [id j]. split; [by apply at_tick_journal|done].
Qed.

Lemma safe_persist now definitions triggers fingerprint later first actor :
  safe (driven sizes nn nc now definitions triggers fingerprint later first) (persist state_to_vec actor) any.
Proof.
  eapply (safe_bind _ _ _ _ _ any); [by apply safe_gets|intros envelope _].
  eapply (safe_bind _ _ _ _ _ any); [|intros bytes _; apply safe_in_simulator, safe_set_driver_state].
  intros x Hx. simpl. by destruct (state_to_vec envelope).
Qed.

Lemma queue_ok_later definitions st later : queue_ok definitions st → (∃ due, ps_pending st = due ++ later)%list →
  queue_ok definitions (set_pending later st).
Proof.
  intros [Hs Hl Hr Hq Hd Hc] [due Hp]. rewrite Hp in *. constructor; simpl; try done.
  - clear -Hs. induction due as [|b due IH]; [done|]. apply IH. by apply StronglySorted_inv in Hs as [? _].
  - rewrite length_app in Hl. lia.
  - by apply Forall_app in Hr as [_ ?].
  - by apply Forall_app in Hq as [_ ?].
  - rewrite fmap_app in Hd. by apply NoDup_app in Hd as (_ & _ & ?).
Qed.

Lemma pump_run thread x : runtime_ok x →
  let now := tick x.2 in
  let later := (span (λ a, sa_tick a <=? now) (ps_pending (sd_state x.1))).2 in
  match pump state_to_vec thread x with
  | (Panic, _) => False
  | (_, x') => driven sizes nn nc now (sd_definitions x.1) (sd_triggers x.1) (sd_fingerprint x.1) later
                 (ps_sequence (sd_state x.1)) x'
  end.
Proof.
  intros [Hsim Htr Hq]. cbv zeta. unfold pump, get_state. rewrite !bind_gets.
  pose proof (span_spec (λ a, sa_tick a <=? tick x.2) (ps_pending (sd_state x.1))) as Hspan.
  destruct (span _ _) as [due later]. destruct Hspan as (Hp & _ & _). unfold alter_state. rewrite bind_modify. cbn [snd].
  set (x1 := (_, x.2)).
  assert (driven sizes nn nc (tick x.2) (sd_definitions x.1) (sd_triggers x.1) (sd_fingerprint x.1) later (ps_sequence (sd_state x.1)) x1) as Hx1.
  { constructor; simpl; try done. - apply queue_ok_later; [done|by exists due]. - split; [done|]. split; apply Forall_forall; auto. }
  match goal with |- match ?m x1 with _ => _ end =>
    assert (safe (driven sizes nn nc (tick x.2) (sd_definitions x.1) (sd_triggers x.1) (sd_fingerprint x.1) later (ps_sequence (sd_state x.1))) m any) as Hs end.
  - eapply (safe_bind _ _ _ _ _ any).
    + apply safe_for_each. intros a Ha. apply safe_execute. pose proof (qk_rules _ _ Hq) as Hr. rewrite Hp, Forall_app in Hr.
      destruct Hr as [Hr _]. rewrite Forall_forall in Hr. by apply Hr.
    + intros _ _. eapply (safe_bind _ _ _ _ _ any); [by apply safe_react|intros _ _; apply safe_persist].
  - specialize (Hs x1 Hx1). match goal with |- match ?r with _ => _ end => destruct r as [[?|?|] ?] end; [apply Hs|done|done].
Qed.

(** The actions of the list run one after the other, and none fails. *)
Inductive performed (thread : nat) : list ScheduledAction → Driven → Driven → Prop :=
  | performed_none x : performed thread [] x x
  | performed_next a l x x1 x2 :
      execute thread (sa_driver a) (sa_rule a) (sa_action a) x = (Ok (), x1) → performed thread l x1 x2 →
      performed thread (a :: l) x x2.

Lemma for_each_performed thread due : ∀ x r x',
  for_each (λ a, execute thread (sa_driver a) (sa_rule a) (sa_action a)) due x = (r, x') →
  ∃ ran rest x1, due = (ran ++ rest)%list ∧ performed thread ran x x1
  ∧ match r, rest with
    | Ok _, [] => x1 = x'
    | (Err _ | Panic), a :: _ => execute thread (sa_driver a) (sa_rule a) (sa_action a) x1 = (r, x')
    | _, _ => False
    end.
Proof.
  induction due as [|a due IH]; intros x r x' Hrun.
  - injection Hrun as <- <-. exists [], [], x. by split_and!; [|constructor|].
  - cbn [for_each] in Hrun. unfold mbind, M_mbind in Hrun.
    destruct (execute thread (sa_driver a) (sa_rule a) (sa_action a) x) as [[[]|e|] x1] eqn:Ha.
    + apply IH in Hrun as (ran & rest & x2 & -> & Hran & Hr). exists (a :: ran), rest, x2. split; [done|]. split; [by econstructor|done].
    + injection Hrun as <- <-. exists [], (a :: due), x. by split_and!; [|constructor|].
    + injection Hrun as <- <-. exists [], (a :: due), x. by split_and!; [|constructor|].
Qed.

(** What becomes of the actions that were due: all ran, in order, before the rules that
    react and before the state was saved, or the first that failed ended the pump. *)
Lemma pump_performs thread x r x' : pump state_to_vec thread x = (r, x') →
  let '(due, later) := span (λ a, sa_tick a <=? tick x.2) (ps_pending (sd_state x.1)) in
  ∃ ran rest x1, due = (ran ++ rest)%list
  ∧ performed thread ran (sd_set_state (set_pending later (sd_state x.1)) x.1, x.2) x1
  ∧ match rest with
    | [] => (_ ← react_to_writes thread; persist state_to_vec ActorScenario) x1 = (r, x')
    | a :: _ => execute thread (sa_driver a) (sa_rule a) (sa_action a) x1 = (r, x') ∧ r ≠ Ok ()
    end.
Proof.
  unfold pump, get_state. rewrite !bind_gets. destruct (span _ _) as [due later]. unfold alter_state. rewrite bind_modify.
  intros Hrun. unfold mbind at 1, M_mbind at 1 in Hrun.
  destruct (for_each _ due _) as [q x1] eqn:Hfor. apply for_each_performed in Hfor as (ran & rest & x2 & -> & Hran & Hq).
  exists ran, rest, x2. split; [done|]. split; [exact Hran|].
  destruct q as [[]|e|], rest as [|a rest]; try done; [by subst x2|injection Hrun as <- <-; by split..].
Qed.

Lemma pump_ok thread x : runtime_ok x →
  let '(r, x') := pump state_to_vec thread x in
  r ≠ Panic ∧ runtime_ok x' ∧ tick x'.2 = tick x.2
  ∧ ∃ due later, ps_pending (sd_state x.1) = (due ++ later)%list
    ∧ Forall (λ a, sa_tick a ≤ tick x.2) due ∧ Forall (λ a, tick x.2 < sa_tick a) later
    ∧ Forall (λ a, a ∈ later ∨ ps_sequence (sd_state x.1) ≤ sa_sequence a) (ps_pending (sd_state x'.1))
    ∧ Forall (λ a, a ∈ ps_pending (sd_state x'.1)) later
    ∧ ∃ ran rest x1, due = (ran ++ rest)%list
      ∧ performed thread ran (sd_set_state (set_pending later (sd_state x.1)) x.1, x.2) x1
      ∧ match rest with
        | [] => (_ ← react_to_writes thread; persist state_to_vec ActorScenario) x1 = (r, x')
        | a :: _ => execute thread (sa_driver a) (sa_rule a) (sa_action a) x1 = (r, x') ∧ r ≠ Ok ()
        end.
Proof.
  intros Hx. pose proof (pump_run thread x Hx) as Hrun. cbv zeta in Hrun.
  pose proof (span_later (ps_pending (sd_state x.1)) (tick x.2) (qk_sorted _ _ (rk_queue _ Hx))) as Hlater.
  pose proof (span_spec (λ a, sa_tick a <=? tick x.2) (ps_pending (sd_state x.1))) as Hspan.
  destruct (pump state_to_vec thread x) as [r x'] eqn:Hpump. apply pump_performs in Hpump.
  destruct (span _ _) as [due later]. destruct Hspan as (Hp & Hdue & _). cbn [snd] in *.
  assert (r ≠ Panic ∧ driven sizes nn nc (tick x.2) (sd_definitions x.1) (sd_triggers x.1) (sd_fingerprint x.1) later
    (ps_sequence (sd_state x.1)) x') as [Hr [[Hs Ht] (Hd & Htr & _) Hq (_ & Hl & Hk)]] by (by destruct r).
  split_and!; [done| |done|].
  - constructor; [done| |by rewrite Hd]. rewrite Hd, Htr. apply Hx.
  - exists due, later. split_and!; try done. eapply Forall_impl; [exact Hdue|]. intros a Ha. simpl in Ha. lia.
Qed.
End pump.

(** ** The start *)

Section started.
Context `{Libm} `{Build} `{LuaEngine} `{FloatDisplay}.
Context (definitions_to_vec : list ScriptedDriver → string + list Z).
Context (state_to_vec : StateEnvelope → string + list Z) (state_from_slice : list Z → string + StateEnvelope).

(** A run that only adds triggers. *)
Definition adds (n : nat) (x x' : Driven) : Prop :=
  ∃ l, length l = n ∧ x' = (sd_set_triggers (sd_triggers x.1 ++ l)%list x.1, x.2).

Lemma adds_trans n m x y z : adds n x y → adds m y z → adds (n + m) x z.
Proof.
  intros (l & Hl & ->) (l' & Hl' & ->). exists (l ++ l')%list. rewrite length_app. split; [lia|]. simpl. by rewrite app_assoc.
Qed.

Lemma adds_for_each {A} (f : A → M Driven message ()) (size : A → nat) l :
  (∀ a x x', f a x = (Ok (), x') → adds (size a) x x') →
  ∀ x x', for_each f l x = (Ok (), x') → adds (list_sum (size <$> l)) x x'.
Proof.
  intros Hf. induction l as [|a l IH]; intros x x' Hrun.
  - injection Hrun as <-. exists []. split; [done|]. rewrite app_nil_r. by destruct x as [[] ?].
  - cbn [for_each] in Hrun. apply bind_Ok_inv in Hrun as ([] & x1 & Ha & Hrun). cbn [fmap list_fmap list_sum fold_right]. 
    eapply adds_trans; [by eapply Hf|by apply IH].
Qed.

Lemma validate_rule_adds thread driver entry x x' : ScriptDriver.validate_rule thread driver entry x = (Ok (), x') → adds 1 x x'.
Proof.
  destruct entry as [i rule]. unfold ScriptDriver.validate_rule. intros (t & x1 & Ht & Hrun)%bind_Ok_inv. unfold observe in Ht. injection Ht as _ <-.
  apply bind_Ok_inv in Hrun as ([] & x2 & [= <-] & Hrun). unfold observe in Hrun. injection Hrun as _ <-. exists [t]. by split.
Qed.

Lemma list_sum_const {A} (l : list A) : list_sum ((λ _, 1%nat) <$> l) = length l.
Proof. induction l; simpl; [done|]. by f_equal. Qed.

Lemma length_flat_rules definitions :
  length (flat_rules definitions) = list_sum ((λ e : nat * ScriptedDriver, length (dr_rules e.2)) <$> enumerate definitions).
Proof.
  unfold flat_rules. generalize (enumerate definitions). intros l. induction l as [|[i d] l IH]; [done|].
  cbn [fmap list_fmap concat list_sum fold_right]. rewrite length_app, IH. f_equal. by rewrite length_fmap, enumerate_length.
Qed.

Lemma validate_targets_adds thread x x' : validate_targets thread x = (Ok (), x') →
  ∃ l, length l = length (flat_rules (sd_definitions x.1)) ∧ x' = (sd_set_triggers l x.1, x.2).
Proof.
  unfold validate_targets. rewrite bind_modify, bind_gets. intros Hrun. cbn [fst sd_set_triggers sd_definitions] in Hrun.
  apply (adds_for_each _ (λ e : nat * ScriptedDriver, length (dr_rules e.2))) in Hrun as (l & Hl & ->).
  - exists l. rewrite length_flat_rules. by split.
  - intros [i d] y y' (u & y1 & Hr & Hid)%bind_Ok_inv. destruct (String.eqb (trim (dr_id d)) ""); [done|]. injection Hid as <-.
    destruct u. apply (adds_for_each _ (λ _, 1%nat)) in Hr; [|intros e z z'; apply validate_rule_adds].
    rewrite list_sum_const, enumerate_length in Hr. exact Hr.
Qed.

(** A runtime started on a simulation without a stored state is ready. *)
Lemma new_runtime_ok sizes nn nc thread definitions s r s' : sim_ok sizes nn nc s →
  test_driver_state STATE_KEY s = None →
  new definitions_to_vec state_to_vec state_from_slice thread definitions s = (Ok r, s') →
  runtime_ok sizes nn nc (r, s') ∧ tick s' = tick s.
Proof.
  intros Hs Hnone. unfold new, set_journaling. rewrite bind_modify. intros Hrun.
  apply bind_Ok_inv in Hrun as (fp & s1 & [_ ->]%lift_Ok_inv & Hrun). set (s1 := sim_set_journal _ s) in *.
  assert (at_tick sizes nn nc (tick s) s1) as Hs1 by (split; [by apply sim_ok_journal|done]).
  assert (test_driver_state STATE_KEY s1 = None) as Hnone1 by done. clearbody s1.
  unfold started in Hrun. destruct (start _ _ thread (initial definitions fp, s1)) as [[[]|e|] [r' s2]] eqn:Hstart; [|done..].
  injection Hrun as -> ->. unfold start in Hstart.
  apply bind_Ok_inv in Hstart as ([] & x1 & (l & Hl & ->)%validate_targets_adds & Hstart). cbn [fst snd initial sd_definitions] in *.
  apply bind_Ok_inv in Hstart as ([] & x2 & Hre & Hstart). unfold reload in Hre. rewrite bind_gets in Hre. cbn [snd] in Hre.
  rewrite Hnone1 in Hre. injection Hre as <-. rewrite bind_gets in Hstart. cbn [fst snd sd_set_state] in Hstart. rewrite Hnone1, bind_gets in Hstart.
  unfold alter_state in Hstart. rewrite bind_modify in Hstart. cbn [fst snd sd_set_state sd_set_triggers sd_state sd_definitions sd_triggers sd_fingerprint] in Hstart.
  match type of Hstart with persist _ _ ?x = _ => 
    assert (driven sizes nn nc (tick s) definitions l fp [] 0 x) as Hx;
    [|pose proof (safe_persist state_to_vec sizes nn nc (tick s) definitions l fp [] 0 ActorScenario x Hx) as Hp; rewrite Hstart in Hp] end.
  - constructor; simpl; try done. split; simpl; auto using SSorted_nil, NoDup_nil_2; unfold MAX_PENDING_EVENTS, MAX_ACTIONS_PER_CASE; lia.
  - destruct Hp as [[[Hok Htick] (Hd & Ht & _) Hq _] _]. split; [|done]. constructor; [done| |by rewrite Hd]. by rewrite Hd, Ht.
Qed.
End started.

(** A runtime starts or is refused: no panic. *)
Section starting.
Context `{Libm} `{Build} `{LuaEngine} `{FloatDisplay}.
Context (definitions_to_vec : list ScriptedDriver → string + list Z).
Context (state_to_vec : StateEnvelope → string + list Z) (state_from_slice : list Z → string + StateEnvelope).
Context (sizes : list nat) (nn nc thread : nat).

Definition sound (x : Driven) : Prop := sim_ok sizes nn nc x.2.

Lemma check_all_no_panic {A} (check : A → outcome message ()) l : Forall (λ a, check a ≠ Panic) l → check_all check l ≠ Panic.
Proof. induction 1 as [|a l Ha _ IH]; [done|]. cbn [check_all]. apply bind_no_panic; [done|]. by intros _ _. Qed.

Lemma validate_action_no_panic s driver rule action : sim_ok sizes nn nc s → is_Some (dr_rules driver !! rule) →
  validate_action s thread driver rule action ≠ Panic.
Proof.
  intros Hs Hr. induction action as [target value|from to|network channel value|after actions IH] using action_ind; cbn [validate_action].
  - pose proof (validate_no_panic sizes nn nc s thread target Hs). destruct (validate_assignable_target s thread target); [done| |done].
    by apply with_provenance_no_panic.
  - apply bind_no_panic; [apply with_provenance_no_panic; [done|by eapply slot_endpoint_no_panic]|intros _ _].
    apply bind_no_panic; [apply with_provenance_no_panic; [done|by eapply slot_endpoint_no_panic]|done].
  - destruct (_ || _); [|done]. by apply with_provenance_no_panic.
  - by apply check_all_no_panic.
Qed.

Lemma safe_validate_rule driver i rule : dr_rules driver !! i = Some rule →
  safe sound (ScriptDriver.validate_rule thread driver (i, rule)) any.
Proof.
  intros Hr. unfold ScriptDriver.validate_rule. eapply (safe_bind _ _ _ _ _ any).
  - intros x Hx. unfold observe. pose proof (validate_no_panic sizes nn nc x.2 thread (tr_target (ru_when rule)) Hx) as Hn.
    destruct (validate_assignable_target _ _ _) as [t|e|]; [done| |done].
    assert (with_provenance (A:=AssignableTarget) driver i (Err (PS "invalid trigger target: " :: e)) ≠ Panic) as Hw
      by (by apply with_provenance_no_panic).
    by destruct (with_provenance _ _ _).
  - intros t _. eapply (safe_bind _ _ _ _ _ any); [by apply safe_modify|intros _ _].
    intros x Hx. unfold observe. assert (check_all (validate_action x.2 thread driver i) (ru_actions rule) ≠ Panic) as Hn.
    { apply check_all_no_panic, Forall_forall. intros a _. by apply validate_action_no_panic. }
    by destruct (check_all _ _) as [[]| |].
Qed.

Lemma safe_validate_targets : safe sound (validate_targets thread) any.
Proof.
  eapply (safe_bind _ _ _ _ _ any); [by apply safe_modify|intros _ _].
  eapply (safe_bind _ _ _ _ _ any); [by apply safe_gets|intros definitions _].
  apply safe_for_each. intros [i d] _. eapply (safe_bind _ _ _ _ _ any).
  - apply safe_for_each. intros [j rule] Hin. apply safe_validate_rule. apply list_elem_of_lookup in Hin as (k & Hk).
    rewrite lookup_enumerate in Hk. apply fmap_Some in Hk as (? & Hk & [= -> <-]). done.
  - intros _ _. destruct (String.eqb _ _); [apply safe_throw|by apply safe_ret].
Qed.

Lemma safe_reload : safe sound (reload state_from_slice) any.
Proof.
  eapply (safe_bind _ _ _ _ _ any); [by apply safe_gets|intros [bytes|] _]; [|by apply safe_modify].
  eapply (safe_bind _ _ _ _ _ any); [intros x Hx; simpl; by destruct (state_from_slice bytes)|intros e _].
  destruct (negb _); [apply safe_throw|]. eapply (safe_bind _ _ _ _ _ any); [by apply safe_gets|intros fp _].
  destruct (negb _); [apply safe_throw|by apply safe_modify].
Qed.

Lemma safe_sound {A} (m : M Simulator message A) : (∀ now, safe (at_tick sizes nn nc now) m any) → safe sound (in_simulator m) any.
Proof.
  intros Hm x Hx. unfold in_simulator, zoom. specialize (Hm (tick x.2) x.2 (conj Hx eq_refl)).
  destruct (m x.2) as [[a|e|] s]; [|apply Hm|done]. split; [apply Hm|done].
Qed.

Lemma safe_sound_persist actor : safe sound (persist state_to_vec actor) any.
Proof.
  eapply (safe_bind _ _ _ _ _ any); [by apply safe_gets|intros envelope _].
  eapply (safe_bind _ _ _ _ _ any); [intros x Hx; simpl; by destruct (state_to_vec envelope)|intros bytes _].
  apply safe_sound. intros now. apply safe_set_driver_state.
Qed.

Lemma new_no_panic definitions s : sim_ok sizes nn nc s →
  (new definitions_to_vec state_to_vec state_from_slice thread definitions s).1 ≠ Panic.
Proof.
  intros Hs. unfold new, set_journaling. rewrite bind_modify. set (s1 := sim_set_journal _ s).
  assert (sim_ok sizes nn nc s1) as Hs1 by (by apply sim_ok_journal). clearbody s1. unfold mbind, M_mbind, lift, definition_fingerprint.
  destruct (definitions_to_vec definitions) as [e|b]; [done|].
  assert (safe sound (start state_to_vec state_from_slice thread) any) as Hstart.
  { unfold start. eapply (safe_bind _ _ _ _ _ any); [apply safe_validate_targets|intros _ _].
    eapply (safe_bind _ _ _ _ _ any); [apply safe_reload|intros _ _].
    eapply (safe_bind _ _ _ _ _ any); [by apply safe_gets|intros [bytes|] _]; [by apply safe_ret|].
    eapply (safe_bind _ _ _ _ _ any); [by apply safe_gets|intros sequence _].
    eapply (safe_bind _ _ _ _ _ any); [by apply safe_modify|intros _ _]. apply safe_sound_persist. }
  unfold started. match goal with |- context [start _ _ _ ?x] => specialize (Hstart x Hs1) end.
  destruct (start _ _ _ _) as [[a|e|] [r s']]; done.
Qed.
End starting.

(** ** The theorems *)

(** C18.  A pump of the scripted drivers returns or reports an error, and keeps what the
    next one needs: the simulation well formed, at the same tick, a trigger for every
    rule, and a queue of at most 2048 scheduled actions of existing rules, each with
    its own sequence number, in strict order of tick and sequence.  The actions due
    when it begins run in that order, before anything reacts to them and before the
    state is saved, or up to the first that fails, which ends the pump with its error;
    none of them stays in the queue, the actions of later ticks all do, and whatever
    else the queue then holds was scheduled by this pump (with no delay, it is due at
    once, and waits for the next pump). *)
Theorem pump_keeps_order `{Libm} `{Build} `{LuaEngine} `{FloatDisplay} (state_to_vec : StateEnvelope → string + list Z)
    (sizes : list nat) (nn nc thread : nat) (x : Driven) :
  runtime_ok sizes nn nc x →
  let '(r, x') := pump state_to_vec thread x in
  r ≠ Panic ∧ runtime_ok sizes nn nc x' ∧ tick x'.2 = tick x.2
  ∧ ∃ due later, ps_pending (sd_state x.1) = (due ++ later)%list
    ∧ Forall (λ a, sa_tick a ≤ tick x.2) due ∧ Forall (λ a, tick x.2 < sa_tick a) later
    ∧ Forall (λ a, a ∈ later ∨ ps_sequence (sd_state x.1) ≤ sa_sequence a) (ps_pending (sd_state x'.1))
    ∧ Forall (λ a, a ∈ ps_pending (sd_state x'.1)) later
    ∧ ∃ ran rest x1, due = (ran ++ rest)%list
      ∧ performed thread ran (sd_set_state (set_pending later (sd_state x.1)) x.1, x.2) x1
      ∧ match rest with
        | [] => (_ ← react_to_writes thread; persist state_to_vec ActorScenario) x1 = (r, x')
        | a :: _ => execute thread (sa_driver a) (sa_rule a) (sa_action a) x1 = (r, x') ∧ r ≠ Ok ()
        end.
Proof. apply pump_ok. Qed.

(** ** Examples *)

#[local] Existing Instances sample_libm release_build sample_engine sample_display.

(** A driver with one rule, which reacts to writes of [device("h").Setting]. *)
Definition reacting (actions : list ScriptAction) : list ScriptedDriver :=
  [{| dr_id := "reset"; dr_model := "switch"; dr_version := 1;
      dr_rules := [{| ru_name := None; ru_when := {| tr_target := setting_text; tr_equals := None |}; ru_actions := actions |}] |}].

(** Bytes of the states whose queue is empty. *)
Definition sample_to_vec (e : StateEnvelope) : string + list Z :=
  match ps_pending (en_state e) with
  | [] => inr [en_format_version e; en_definition_fingerprint e; ps_sequence (en_state e); ps_actions_run (en_state e);
               ps_write_cursor (en_state e)]
  | _ => inl "a queue"
  end.
Definition sample_from_slice (bytes : list Z) : string + StateEnvelope :=
  match bytes with
  | [version; fingerprint; sequence; run; cursor] =>
      inr {| en_format_version := version; en_definition_fingerprint := fingerprint;
             en_state := {| ps_pending := []; ps_sequence := sequence; ps_actions_run := run; ps_write_cursor := cursor |} |}
  | _ => inl "length"
  end.

Definition sample_new (definitions : list ScriptedDriver) (s : Simulator) : outcome message ScriptDrivers * Simulator :=
  new (λ _, inr []) sample_to_vec sample_from_slice 0 definitions s.

(** The runtime started on a simulation, and the simulation after a write of the place
    its rule reacts to. *)
Definition driven_from (definitions : list ScriptedDriver) (s0 : Simulator) : Driven :=
  match sample_new definitions s0 with
  | (Ok r, s) => (r, (set_value_as 0 setting_text f_one ActorDebugger s).2)
  | (_, s) => (initial [] 0, s)
  end.

Definition sample_driven (actions : list ScriptAction) : Driven := driven_from (reacting actions) recorded_simulator.

Definition scheduling : list ScriptAction := [ActSchedule 2 [ActSet "r5" (SNumber f_one)]; ActSet "r4" (SNumber f_one)].
Definition setting_back : list ScriptAction := [ActSet setting_text (SNumber f_zero)].

(** A rule whose actions trigger the rule itself: the pump stops after 64 cascades. *)
Example scripted_cycle_stops :
  match pump sample_to_vec 0 (sample_driven setting_back) with
  | (Err text, x) => last text = Some (PS "reaction cascade exceeded limit 64 (possible scripted cycle)")
                     ∧ ps_actions_run (sd_state x.1) = 64
  | _ => False
  end.
Proof. vm_compute. by split. Qed.

Lemma driven_from_ok definitions sizes nn nc s0 : sim_ok sizes nn nc s0 → test_driver_state STATE_KEY s0 = None →
  match (sample_new definitions s0).1 with Ok _ => true | _ => false end = true →
  runtime_ok sizes nn nc (driven_from definitions s0).
Proof.
  intros Hs Hnone. unfold driven_from. destruct (sample_new definitions s0) as [[r|e|] s] eqn:Hn; [intros _|done..].
  apply (new_runtime_ok _ _ _ sizes nn nc) in Hn as [[Hs' Ht Hq] _]; [|done..]. constructor; [|done..].
  pose proof (safe_set_value sizes nn nc (tick s) 0 setting_text f_one ActorDebugger s ltac:(by split)) as Hset.
  destruct (set_value_as _ _ _ _ s) as [[?|?|] s']; [apply Hset|apply Hset|done].
Qed.

Lemma sample_started : match (sample_new (reacting scheduling) recorded_simulator).1 with Ok _ => true | _ => false end = true.
Proof. vm_compute. reflexivity. Qed.

Lemma recorded_no_state : test_driver_state STATE_KEY recorded_simulator = None.
Proof. vm_compute. reflexivity. Qed.

Lemma sample_driven_ok : runtime_ok [0; 0; 4]%nat 1 2 (sample_driven scheduling).
Proof. exact (driven_from_ok (reacting scheduling) _ 1 2 _ recorded_simulator_ok recorded_no_state sample_started). Qed.

(** After a pump, the queue holds the scheduled action for the tick it is due. *)
Lemma pump_keeps_order_witness :
  let x' := (pump sample_to_vec 0 (sample_driven scheduling)).2 in
  sa_tick <$> ps_pending (sd_state x'.1) = [2] ∧ runtime_ok [0; 0; 4]%nat 1 2 x'.
Proof.
  split; [vm_compute; reflexivity|].
  pose proof (pump_keeps_order sample_to_vec [0; 0; 4]%nat 1 2 0 (sample_driven scheduling)) as Hp.
  assert (runtime_ok [0; 0; 4]%nat 1 2 (sample_driven scheduling)) as Hx by apply sample_driven_ok.
  specialize (Hp Hx). destruct (pump sample_to_vec 0 (sample_driven scheduling)) as [q x']. apply Hp.
Defined.
