(* ===== verification/Load.v ===== *)
(** * From a scenario to a simulation

    [crates/ic10-sim/src/simulator.rs], [from_scenario_with_lua_library_paths]: the
    schedule, the world and one runtime for each device that runs a program.  The
    file system ([read_file], [sidecars], [resolve_path]) and the construction of a
    Lua state ([new_lua]) are arguments; the knowledge base is the embedded one. *)

From S2P Require Import Prelude BTree Text F64 Knowledge Literals Syntax Analysis Journal Scenario World.
From S2P Require Import Program Compile Cpu Construct Exec Isa Frame Behaviour Vm Lua Simulator Tick Safety Control.
Local Open Scope string_scope.
Local Open Scope Z_scope.

(** Source: [crates/ic10-sim/src/simulator.rs] [SimulatorError] *)
Inductive SimulatorError :=
  | SimScenario (error : message)
  | SimWorld (error : message)
  | SimCompile (error : CompileError)
  | SimIo (path : string)
  | SimMessage (text : message).

Definition map_err {E F A} (f : E → F) (r : outcome E A) : outcome F A :=
  match r with Ok a => Ok a | Err e => Err (f e) | Panic => Panic end.

Section load.
Context `{LuaEngine}.
Variable read_file : string → option string.
Variable sidecars : string → option (list BuildMapEntry) * option string.
Variable resolve_path : string → string.
Variable new_lua : string → string → string → string → World → BTreeMap string string → nat →
  outcome message LuaProgramRuntime.

(** The identity, path, language and processor state of the program of a device.
    Source: [crates/ic10-sim/src/simulator.rs] [from_scenario_with_lua_library_paths] lines 473-507 *)
Definition device_program (scenario : Scenario) (specification : DeviceSpec) :
    outcome message (option (string * string * ProgramLanguage * option IcSpec)) :=
  match sp_program specification with
  | Some program_id =>
      program ← ok_or (find_first (λ p, String.eqb (ps_id p) program_id) (sc_programs scenario))
        [PS "device `"; PS (sp_id specification); PS "` references unknown program `"; PS program_id; PS "`"];
      Ok (Some (ps_id program, ps_path program, ps_language program, sp_ic specification))
  | None =>
      match sp_ic specification with
      | Some ic =>
          path ← ok_or (sic_program ic)
            [PS "device `"; PS (sp_id specification);
             PS "` has IC10 state but no legacy inline program or canonical programId"];
          Ok (Some (sp_id specification, path, LangIc10, Some ic))
      | None => Ok None
      end
  end.

(** Source: [crates/ic10-sim/src/simulator.rs] [from_scenario_with_lua_library_paths] lines 472-662 *)
Definition load_device (scenario : Scenario) (kb : KnowledgeBase) (w : World)
    (acc : list Cpu * list LuaProgramRuntime) (specification : DeviceSpec) :
    outcome SimulatorError (list Cpu * list LuaProgramRuntime) :=
  let '(loaded_cpus, loaded_lua) := acc in
  program ← map_err SimMessage (device_program scenario specification);
  match program with
  | None => Ok acc
  | Some (program_id, program_path, language, ic) =>
      housing ← ok_or (device_index (sp_id specification) w) (SimMessage [PS "missing IC housing"]);
      let source_path := resolve_path program_path in
      source ← ok_or (read_file source_path) (SimIo source_path);
      match language with
      | LangLua =>
          runtime ← map_err SimMessage
            (new_lua (sp_id specification) program_id source_path source w (ic_entries sic_pins ic) housing);
          Ok (loaded_cpus, loaded_lua ++ [runtime])%list
      | LangIc10 =>
          let '(entries, metadata) := sidecars source_path in
          program ← map_err SimCompile (compile source_path source kb entries metadata);
          cpu ← map_err SimMessage (build_cpu kb w specification ic program_id program);
          Ok (loaded_cpus ++ [cpu], loaded_lua)%list
      end
  end.

Definition version_warnings (scenario : Scenario) (kb : KnowledgeBase) : list string :=
  match filter_option (λ version, is_newer_game_version version (la_game_version (kb_language kb)))
          (sc_game_version scenario) with
  | Some version =>
      ["scenario targets Stationeers " +:+ version +:+ ", newer than bundled game data "
       +:+ la_game_version (kb_language kb)
       +:+ "; simulation will continue using the bundled compatibility model"]
  | None => []
  end.

(** Source: [crates/ic10-sim/src/simulator.rs] [from_scenario_with_lua_library_paths] *)
Definition from_scenario (scenario : Scenario) (kb : KnowledgeBase) : outcome SimulatorError Simulator :=
  if negb (sc_schema_version scenario =? 1)
  then Err (SimMessage [PS "unsupported scenario schema version "; PZ (sc_schema_version scenario); PS "; expected 1"])
  else
    schedule ← map_err SimMessage (plan scenario);
    w ← map_err SimWorld (build kb (sc_networks scenario) (sc_devices scenario));
    '(loaded_cpus, loaded_lua) ← fold_outcome (load_device scenario kb w) ([], []) (sc_devices scenario);
    match loaded_cpus, loaded_lua with
    | [], [] => Err (SimMessage [PS "the scenario does not contain a world program"])
    | _, _ =>
        Ok {| knowledge := kb; world := w; cpus := loaded_cpus; lua_programs := loaded_lua; tick := 0;
              compatibility_warnings := version_warnings scenario kb; sim_schedule := schedule;
              scheduler_slot := 0; scheduler_error := None; behaviours := build_runtime w;
              driver_state := []; journal := journal_default |}
    end.
End load.

(** ** Loaded programs are complete *)

Lemma map_err_Ok {E F A} (f : E → F) (r : outcome E A) a : map_err f r = Ok a → r = Ok a.
Proof. by destruct r; simpl; intros; simplify_eq. Qed.

(** The operands an instruction has to list: a declaration its name and value, any
    other the operands its execution reads. *)
Definition operands_needed (name : string) : nat :=
  match declared_kind name with Some _ => 2 | None => operands_read (to_ascii_lowercase name) end.

(** Every instruction of the tables lists at least the operands it needs. *)
Definition kb_arities (kb : KnowledgeBase) : Prop :=
  ∀ name i, instruction kb name = Some i → (operands_needed name ≤ length (in_operands i))%nat.

Definition arities_hold (kb : KnowledgeBase) : bool :=
  forallb (λ '(name, i), operands_needed name <=? length (in_operands i))%nat (la_instructions (kb_language kb)).

Lemma arities_hold_correct kb : arities_hold kb = true → kb_arities kb.
Proof.
  intros Hb name i Hi%bt_get_elem. unfold arities_hold in Hb. rewrite forallb_forall in Hb.
  apply list_elem_of_In in Hi. specialize (Hb _ Hi). simpl in Hb. by apply Nat.leb_le.
Qed.

Definition reports_error (ds : list Diagnostic) : Prop := ∃ d, d ∈ ds ∧ di_severity d = SevError.

Lemma declare_reports kb line st :
  let st' := match pl_kind line with
    | LineEmpty => st
    | LineLabel name => declare_label (pl_number line) name st
    | LineInstruction mnemonic operands => declare_instruction kb (pl_number line) mnemonic operands st
    end in
  (reports_error st.2 → reports_error st'.2)
  ∧ ∀ mn ops, pl_kind line = LineInstruction mn ops →
      reports_error st'.2 ∨ ∃ i, instruction kb (text mn) = Some i ∧ length ops = length (in_operands i).
Proof.
  assert (∀ ds ds', reports_error ds → reports_error (ds ++ ds')%list) as Happ
    by (intros ds ds' (d & Hd & Hs); exists d; set_solver).
  assert (∀ ds d, di_severity d = SevError → reports_error (ds ++ [d])%list) as Hnew
    by (intros ds d Hd; exists d; set_solver).
  assert (∀ s m ds, reports_error ds → reports_error (insert_symbol s m ds).2) as Hins
    by (intros; unfold insert_symbol; case_match; simpl; auto).
  destruct st as [symbols ds]. destruct (pl_kind line) as [|name|mn ops]; simpl; [by split|split; [|done]|].
  - unfold declare_label. case_match; simpl; auto.
  - unfold declare_instruction. set (ds1 := analyze_literal_macros ops ds).
    assert (reports_error ds → reports_error ds1) as H1 by (intros; by apply Happ). clearbody ds1.
    destruct (instruction kb (text mn)) as [i|] eqn:Hi; [|simpl; split; [auto|intros ? ? [= <- <-]; left; auto]].
    set (ds2 := if in_deprecated i then _ else ds1).
    assert (reports_error ds1 → reports_error ds2) as H2 by (unfold ds2; case_match; auto). clearbody ds2.
    set (ds3 := if negb _ then _ else ds2).
    assert (reports_error ds2 → reports_error ds3) as H3 by (unfold ds3; case_match; auto).
    assert (reports_error ds3 ∨ length ops = length (in_operands i)) as Hcount.
    { unfold ds3. destruct (Nat.eqb_spec (length ops) (length (in_operands i))); [by right|left; simpl; auto]. }
    clearbody ds3. assert (∀ P : Prop, reports_error ds3 ∨ P → reports_error
      (match declared_kind (text mn), ops with
       | Some kind, name :: values =>
           if negb (is_identifier (text name)) then
             (symbols, ds3 ++ [diagnostic (span name) SevError "invalid-symbol"
                         (quote (text name) +:+ " is not a valid symbol name.")])%list
           else insert_symbol
              {| sy_name := text name; sy_kind := kind; sy_span := span name;
                 sy_value := text <$> head values; sy_value_span := span <$> head values;
                 sy_declaration_line := pl_number line |} symbols ds3
       | _, _ => (symbols, ds3)
       end).2 ∨ P) as Hlast.
    { intros P [H|H]; [left|by right]. repeat case_match; simpl; auto. }
    split.
    + intros H. destruct (Hlast False) as [|[]]; auto.
    + intros ? ? [= <- <-]. apply Hlast. destruct Hcount as [|Hcount]; [by left|right]. by exists i.
Qed.

Lemma collect_reports kb lines : ∀ st,
  (reports_error st.2 → reports_error (collect_declarations kb lines st).2)
  ∧ ∀ line mn ops, line ∈ lines → pl_kind line = LineInstruction mn ops →
      reports_error (collect_declarations kb lines st).2
      ∨ ∃ i, instruction kb (text mn) = Some i ∧ length ops = length (in_operands i).
Proof.
  unfold collect_declarations. induction lines as [|l lines IH]; intros st; simpl; [split; [done|set_solver]|].
  pose proof (declare_reports kb l st) as [Hmono Hline]. destruct (IH (match pl_kind l with
    | LineEmpty => st | LineLabel name => declare_label (pl_number l) name st
    | LineInstruction mnemonic operands => declare_instruction kb (pl_number l) mnemonic operands st end)) as [Hm Hl].
  split; [auto|]. intros line mn ops [->|Hin]%elem_of_cons Hk; [|by eapply Hl].
  destruct (Hline _ _ Hk) as [Hr|Hr]; [left; auto|by right].
Qed.

Lemma error_messages_nil d : error_messages d = [] → ¬ reports_error (do_diagnostics d).
Proof.
  unfold error_messages. intros Hnil%fmap_nil_inv (x & Hx & Hs). apply (elem_of_nil x).
  rewrite <-Hnil. by apply list_elem_of_filter.
Qed.

(** A compiled program has every operand its execution reads. *)
Lemma compiled_program_ok path source kb entries metadata p :
  kb_arities kb → compile path source kb entries metadata = Ok p → program_ok p.
Proof.
  intros Hkb Hc k op Hin. unfold compile in Hc. set (d := parse source kb) in *.
  destruct (error_messages d) as [|m ms] eqn:He; [|done]. destruct (load_build_mapping _ _ _) as [dbg g2s].
  injection Hc as <-. simpl in Hin. destruct (compile_lines_tables (do_lines d)) as (Hops & _). rewrite Hops in Hin.
  apply bt_elem_get, fold_entries_get in Hin as (i & line & Hi & Ho & _); [|apply fold_entries_sorted; constructor].
  unfold operated in Ho. destruct (pl_kind line) as [| |mn ops] eqn:Hk; [done..|].
  assert (op = operation_of (pl_number line) mn ops ∧ (declared_kind (text mn) = None ∨ length ops < 2)%nat) as [-> Hdecl].
  { unfold declared_kind in *. repeat case_match; simplify_eq; simpl; (split; [done|auto with lia]). }
  simpl. rewrite length_fmap.
  assert (do_lines d = parse_lines source) as Hlines
    by (unfold d, parse, parse_with_options; by destruct (collect_declarations _ _ _)).
  rewrite Hlines in Hi. apply list_elem_of_lookup_2 in Hi.
  destruct (proj2 (collect_reports kb (parse_lines source) ([], [])) line mn ops Hi Hk) as [(x & Hx & Hs)|(ins & Hins & Hl)].
  - exfalso. apply (error_messages_nil d He). exists x. split; [|done]. unfold d, parse, parse_with_options.
    destruct (collect_declarations _ _ _) as [symbols ds]. simpl. set_solver.
  - specialize (Hkb _ _ Hins). unfold operands_needed in Hkb. rewrite <-Hl in Hkb.
    destruct (declared_kind (text mn)); [destruct Hdecl; [done|lia]|done].
Qed.

(** ** A loaded simulation is well formed *)

Definition program_language (x : string * string * ProgramLanguage * option IcSpec) : ProgramLanguage := x.1.2.

Lemma device_language_program scenario d :
  device_language scenario d = outcome_map (fmap (M:=option) program_language) (device_program scenario d).
Proof.
  unfold device_language, device_program. destruct (sp_program d) as [id|].
  - by destruct (find_first _ _).
  - destruct (sp_ic d) as [ic|]; [|done]. by destruct (sic_program ic).
Qed.

Section loaded.
Context `{LuaEngine}.
Context (read_file : string → option string) (sidecars : string → option (list BuildMapEntry) * option string).
Context (resolve_path : string → string).
Context (new_lua : string → string → string → string → World → BTreeMap string string → nat →
  outcome message LuaProgramRuntime).
Context (scenario : Scenario) (kb : KnowledgeBase) (Hkb : kb_arities kb).
Set Default Proof Using "Type*".

Definition runtimes_ok (w : World) (indices : VmSchedule * nat * nat) (loaded : list Cpu * list LuaProgramRuntime) :
    Prop :=
  length loaded.1 = indices.1.2 ∧ length loaded.2 = indices.2 ∧ Forall (cpu_program_ok (memory_sizes w)) loaded.1.

Lemma load_device_ok w d indices indices' loaded loaded' :
  world_ok w → plan_device scenario indices d = Ok indices' →
  load_device read_file sidecars resolve_path new_lua scenario kb w loaded d = Ok loaded' →
  runtimes_ok w indices loaded → runtimes_ok w indices' loaded'.
Proof.
  intros Hw Hp Hl (Hc & Hlua & Hok). destruct indices as [[slots c] l], loaded as [cs ls]. simpl in *.
  unfold plan_device in Hp. rewrite device_language_program in Hp. unfold load_device in Hl.
  destruct (device_program scenario d) as [[[[[id path] language] ic]|]| |]; simpl in Hp, Hl; try done; [|by simplify_eq].
  outcome_inv; subst language indices' loaded'; unfold runtimes_ok; simpl; rewrite length_app; simpl;
    (split_and!; [lia|lia|]); [|done].
  apply Forall_app. split; [done|]. apply Forall_singleton.
  match goal with Hb : map_err _ (build_cpu _ _ _ _ _ _) = Ok _, Hm : map_err _ (compile _ _ _ _ _) = Ok _ |- _ =>
    apply map_err_Ok in Hb, Hm; apply build_cpu_spec in Hb as (Hcok & _ & _ & _ & _ & Hprog); [|done];
    split; [unfold memory_sizes; by rewrite length_fmap|rewrite Hprog; by eapply compiled_program_ok] end.
Qed.

Lemma load_devices_ok w devices indices indices' loaded loaded' :
  world_ok w → fold_outcome (plan_device scenario) indices devices = Ok indices' →
  fold_outcome (load_device read_file sidecars resolve_path new_lua scenario kb w) loaded devices = Ok loaded' →
  runtimes_ok w indices loaded → runtimes_ok w indices' loaded'.
Proof.
  intros Hw. revert indices loaded. induction devices as [|d devices IH]; intros indices loaded Hp Hl Hok; simpl in *.
  { by simplify_eq. }
  destruct (plan_device scenario indices d) as [i1| |] eqn:Hp1; simpl in Hp; [|done..].
  destruct (load_device _ _ _ _ _ _ _ _ _) as [l1| |] eqn:Hl1; simpl in Hl; [|done..].
  eapply IH; [done..|]. by eapply load_device_ok.
Qed.

(** A scenario all of whose programs are IC10 programs loads into a well-formed
    simulation. *)
Lemma loaded_simulator_ok s :
  from_scenario read_file sidecars resolve_path new_lua scenario kb = Ok s →
  Forall (λ a, adapter_language a = LangIc10) (sim_schedule s) →
  sim_ok (memory_sizes (world s)) (length (networks (world s))) (length (cpus s)) s.
Proof.
  intros Hs Hic10. unfold from_scenario in Hs. destruct (negb _); [done|].
  apply outcome_bind_Ok in Hs as (schedule & Hplan%map_err_Ok & Hs).
  apply outcome_bind_Ok in Hs as (w & Hw%map_err_Ok & Hs).
  apply outcome_bind_Ok in Hs as ([cs ls] & Hload & Hs).
  apply build_ok in Hw as [Hw _]. unfold plan in Hplan.
  apply outcome_bind_Ok in Hplan as ([[slots nc] nl] & Hplan & [= <-]).
  pose proof (load_devices_ok w _ _ _ _ _ Hw Hplan Hload ltac:(by repeat split; constructor)) as (Hc & Hl & Hok).
  apply plan_devices_spec in Hplan as (Hindices & _ & _); [|done..]. simpl in *.
  assert (s = {| knowledge := kb; world := w; cpus := cs; lua_programs := ls; tick := 0;
    compatibility_warnings := version_warnings scenario kb; sim_schedule := slots; scheduler_slot := 0;
    scheduler_error := None; behaviours := build_runtime w; driver_state := []; journal := journal_default |}) as ->
    by (destruct cs, ls; by simplify_eq).
  constructor; simpl.
  - split; [by split_and!|split]; simpl; rewrite ?repeat_length, length_fmap; unfold memory_sizes; by rewrite length_fmap.
  - split; [done|exact Hok].
  - simpl in Hic10. apply Forall_forall. intros [i|i] Hin; rewrite Forall_forall in Hic10.
    + assert (i ∈ cpu_indices slots) as Hi by (apply list_elem_of_omap; by exists (AdIc10 i)).
      rewrite Hindices in Hi. apply elem_of_seq in Hi. lia.
    + by specialize (Hic10 _ Hin).
Qed.
End loaded.

(** ** Running *)

(** [n] ticks, as long as they succeed; [None] is a tick whose loop is not left. *)
Fixpoint run_ticks `{Libm} `{Build} `{LuaEngine} `{FloatDisplay} (n : nat) : M Simulator message (option ()) :=
  match n with
  | O => mret (Some ())
  | S n' => events ← step_world_tick; match events with Some _ => run_ticks n' | None => mret None end
  end.

Lemma run_ticks_ok `{Libm} `{Build} `{LuaEngine} `{FloatDisplay} sizes nn nc n : overflow_checks = false → ∀ s,
  sim_ok sizes nn nc s → NoDup (sim_schedule s) → 0 ≤ scheduler_slot s → 0 ≤ tick s →
  tick s + Z.of_nat n ≤ U64_MAX → budget s ≤ U32_MAX →
  let '(r, s') := run_ticks n s in
  r ≠ Panic ∧ r ≠ Ok None ∧ sim_ok sizes nn nc s' ∧ (r = Ok (Some ()) → tick s' = tick s + Z.of_nat n).
Proof.
  intros Hrelease. induction n as [|n IH]; intros s Hs Hnd Hslot Ht0 Ht Hb; simpl run_ticks.
  { split_and!; [done..|]. intros _. lia. }
  pose proof (safe_step_until_tick sizes nn nc Hrelease (tick_fuel s) (tick s) [] s Hs) as Hsafe.
  pose proof (step_until_tick_spec (tick_fuel s) (tick s) [] s Hnd Hslot ltac:(lia) Hb eq_refl) as Hspec.
  assert (step_world_tick s = step_until_tick (tick_fuel s) (tick s) [] s) as Hrun by done.
  destruct (step_until_tick _ _ _ s) as [r s1]. destruct Hspec as [Hnone Hok]; [pose proof (capacity_fuel s); lia|].
  destruct r as [[events|]|e|]; [|done| |done].
  - rewrite (bind_run _ _ _ _ _ Hrun). destruct (Hok _ eq_refl) as (Ht1 & Hs1 & _ & [Hk Hsc] & _).
    rewrite wrap_u_small in Ht1 by (unfold U64_MAX in *; lia). specialize (IH s1 (proj1 Hsafe)).
    destruct (run_ticks n s1) as [r s2]. destruct IH as (Hp & Hn & Hok2 & Htick);
      [by rewrite Hsc|lia|lia|lia|unfold budget in *; by rewrite Hk|]. split_and!; [done..|]. intros Hr. rewrite Htick by done. lia.
  - unfold mbind, M_mbind. rewrite Hrun. split_and!; [done..|apply Hsafe|done].
Qed.

Lemma loaded_simulator_start `{LuaEngine} read_file sidecars resolve_path new_lua scenario kb s :
  from_scenario read_file sidecars resolve_path new_lua scenario kb = Ok s →
  knowledge s = kb ∧ tick s = 0 ∧ scheduler_slot s = 0 ∧ plan scenario = Ok (sim_schedule s).
Proof.
  intros Hs. unfold from_scenario in Hs. destruct (negb _); [done|].
  apply outcome_bind_Ok in Hs as (schedule & Hplan%map_err_Ok & Hs).
  apply outcome_bind_Ok in Hs as (w & _ & Hs). apply outcome_bind_Ok in Hs as ([cs ls] & _ & Hs).
  destruct cs, ls; by simplify_eq.
Qed.

(** The slots of a plan are distinct. *)
Lemma slots_NoDup (s : VmSchedule) : NoDup (cpu_indices s) → NoDup (lua_indices s) → NoDup s.
Proof.
  induction s as [|[i|i] s IH]; intros Hc Hl; [constructor| |]; unfold cpu_indices, lua_indices in *; simpl in *.
  - apply NoDup_cons in Hc as [Hi Hc]. constructor; [|auto]. intros Hin. apply Hi, list_elem_of_omap. by exists (AdIc10 i).
  - apply NoDup_cons in Hl as [Hi Hl]. constructor; [|auto]. intros Hin. apply Hi, list_elem_of_omap. by exists (AdLua i).
Qed.

Lemma plan_NoDup scenario slots : plan scenario = Ok slots → NoDup slots.
Proof.
  unfold plan. intros H. apply outcome_bind_Ok in H as ([[s c] l] & H & [= <-]).
  apply plan_devices_spec in H as (Hc & Hl & _); [|done..]. simpl in *.
  apply slots_NoDup; [rewrite Hc|rewrite Hl]; apply NoDup_seq.
Qed.

Lemma loaded_simulator_fresh `{LuaEngine} read_file sidecars resolve_path new_lua scenario kb s :
  from_scenario read_file sidecars resolve_path new_lua scenario kb = Ok s → tick s = 0 ∧ driver_state s = [].
Proof.
  intros Hs. unfold from_scenario in Hs. destruct (negb _); [done|].
  apply outcome_bind_Ok in Hs as (schedule & _ & Hs). apply outcome_bind_Ok in Hs as (w & _ & Hs).
  apply outcome_bind_Ok in Hs as ([cs ls] & _ & Hs). destruct cs, ls; by simplify_eq.
Qed.

(** C2.  From scenario file to running simulation, nothing panics in a release build:
    a scenario of IC10 programs that loads, over tables whose instructions list the operands they
    read, runs for any number of ticks up to the range of the clock.  Each tick ends,
    by the next tick or by an error it reports, and the clock counts them. *)
Theorem loaded_simulation_runs `{Libm} `{Build} `{LuaEngine} `{FloatDisplay}
    (read_file : string → option string) (sidecars : string → option (list BuildMapEntry) * option string)
    (resolve_path : string → string)
    (new_lua : string → string → string → string → World → BTreeMap string string → nat →
       outcome message LuaProgramRuntime)
    (scenario : Scenario) (kb : KnowledgeBase) (s : Simulator) (n : nat) :
  overflow_checks = false → kb_arities kb →
  ar_maximum_instructions_per_tick (la_architecture (kb_language kb)) ≤ U32_MAX →
  from_scenario read_file sidecars resolve_path new_lua scenario kb = Ok s →
  Forall (λ a, adapter_language a = LangIc10) (sim_schedule s) → Z.of_nat n ≤ U64_MAX →
  let '(r, s') := run_ticks n s in
  r ≠ Panic ∧ r ≠ Ok None ∧ (r = Ok (Some ()) → tick s' = Z.of_nat n).
Proof.
  intros Hrelease Hkb Hbudget Hs Hic10 Hn. pose proof (loaded_simulator_ok _ _ _ _ _ _ Hkb _ Hs Hic10) as Hok.
  apply loaded_simulator_start in Hs as (Hk & Ht & Hslot & Hplan).
  pose proof (run_ticks_ok _ _ _ n Hrelease s Hok (plan_NoDup _ _ Hplan)) as Hrun.
  destruct (run_ticks n s) as [r s']. rewrite Ht, Hslot in Hrun.
  destruct Hrun as (Hp & Hnone & _ & Htick); [lia..|unfold budget; by rewrite Hk|]. by split_and!.
Qed.

#[local] Existing Instances sample_libm release_build sample_engine sample_display.

(** The embedded instructions, and the devices of the scheduler's examples. *)
Definition embedded_kb : KnowledgeBase :=
  kb_of 128 128 generated_instructions [] [("LogicType", [("Setting", 12); ("On", 28)]); ("LogicSlotType", [])]
    [device_of "Housing" 7 [("Setting", true, true); ("Error", true, false); ("LineNumber", true, false)] [] ["Data"] None;
     device_of "Lamp" 9 [("On", true, true)] [("0", ["Quantity"])] ["PowerAndData"] (Some 4)].

(** The embedded instructions list the operands they read. *)
Lemma embedded_arities : kb_arities embedded_kb.
Proof. apply arities_hold_correct. vm_compute. reflexivity. Qed.

Definition blink_source : string :=
  lines_of ["alias lamp d0"; "start:"; "s lamp On 1"; "yield"; "s lamp On 0"; "yield"; "j start"].

Definition blink_scenario : Scenario :=
  {| sc_schema_version := 1; sc_game_version := Some "0.2.9999.1"; sc_networks := [sample_network];
     sc_devices :=
       [{| sp_id := "h"; sp_prefab := "Housing"; sp_name := ""; sp_reference_id := None;
           sp_connections := [("0", "main")]; sp_fields := []; sp_slots := []; sp_memory := [];
           sp_ic := Some {| sic_program := None; sic_enabled := true; sic_pins := [("d0", "a")];
                            sic_registers := []; sic_stack := [] |};
           sp_program := Some "main" |};
        sample_device "a" "Lamp" None];
     sc_programs := [{| ps_id := "main"; ps_path := "main.ic10"; ps_language := LangIc10 |}] |}.

Definition blink_file (path : string) : option string :=
  if String.eqb path "main.ic10" then Some blink_source else None.

Definition load_blink : outcome SimulatorError Simulator :=
  from_scenario blink_file (λ _, (None, None)) (λ path, path) (λ _ _ _ _ _ _ _, Err [])
    blink_scenario embedded_kb.

(** The lamp is on after one tick and off after two. *)
Example blink_runs :
  match load_blink with
  | Ok s => (λ n, devices (world (run_ticks n s).2) !! 1%nat ≫= λ d, bt_get "On" (fields d)) <$> [1; 2; 3]%nat
            = [Some f_one; Some f_zero; Some f_one]
  | _ => False
  end.
Proof. vm_compute. reflexivity. Qed.

Lemma loaded_simulation_runs_witness :
  ∃ s, load_blink = Ok s ∧ (run_ticks 100 s).1 ≠ Panic.
Proof.
  destruct load_blink as [s| |] eqn:E; [|vm_compute in E; discriminate E..].
  assert (Forall (λ a, adapter_language a = LangIc10) (sim_schedule s)) as Hic10.
  { apply loaded_simulator_start in E as (_ & _ & _ & Hp). 
    assert (plan blink_scenario = Ok [AdIc10 0]) as Hplan by (vm_compute; reflexivity).
    rewrite Hplan in Hp. injection Hp as <-. by constructor. }
  assert (ar_maximum_instructions_per_tick (la_architecture (kb_language embedded_kb)) ≤ U32_MAX) as Hb
    by (vm_compute; discriminate).
  assert (Z.of_nat 100 ≤ U64_MAX) as Hn by (vm_compute; discriminate).
  pose proof (loaded_simulation_runs blink_file (λ _, (None, None)) (λ path, path) (λ _ _ _ _ _ _ _, Err [])
    blink_scenario embedded_kb s 100 eq_refl embedded_arities Hb E Hic10 Hn) as Hrun.
  exists s. split; [reflexivity|]. destruct (run_ticks 100 s) as [r s']. apply Hrun.
Defined.
