(* ===== verification/Runner.v ===== *)
(** * Scenario cases

    [crates/ic10-runner/src/runner.rs]: a case of a test file is loaded and run tick by
    tick with its stimuli and its scripted drivers until a limit, a failure or the end of
    its programs; its assertions are evaluated before every tick.  [TestRun] expands and
    runs the cases of files.  The files, the JSON of serde and the wall clock are
    arguments: [late n] says whether the limit has passed at the [n]-th test of the
    clock. *)

From S2P Require Import Prelude BTree Text F64 Knowledge Literals Journal Scenario World Program Compile Cpu Exec.
From S2P Require Import Isa Frame Behaviour Vm Lua Simulator Tick Control Load Schema Evaluator ScriptDriver.
Local Open Scope string_scope.
Local Open Scope Z_scope.

(** ** Requests and results *)

(** The wall time is in milliseconds.
    Source: [crates/ic10-runner/src/runner.rs] [RunLimits] *)
Record RunLimits := {
  rl_max_ticks : Z;
  rl_max_operations : Z;
  rl_wall_time : Z;
}.

(** Source: [crates/ic10-runner/src/runner.rs] [RunLimits::default] *)
Definition run_limits_default : RunLimits :=
  {| rl_max_ticks := 10000; rl_max_operations := 10000000; rl_wall_time := 30000 |}.

(** Source: [crates/ic10-runner/src/runner.rs] [Status] *)
Inductive Status := Passed | Failed | Invalid.

(** Source: [crates/ic10-runner/src/runner.rs] [Failure] *)
Record Failure := {
  fa_message : message;
  fa_expression : option string;
  fa_expected : option message;
  fa_actual : option message;
  fa_tick : option Z;
  fa_source : option string;
  fa_line : option Z;
  fa_object : option string;
  fa_possibly_unsupported : bool;
}.

(** The duration is 0 in a scenario case.
    Source: [crates/ic10-runner/src/runner.rs] [CaseResult] *)
Record CaseResult := {
  cr_name : string;
  cr_status : Status;
  cr_seed : Z;
  cr_ticks : Z;
  cr_operations : Z;
  cr_failures : list Failure;
  cr_compatibility_warnings : list string;
  cr_captured_output : list string;
}.

(** Source: [crates/ic10-runner/src/runner.rs] [FileResult] *)
Record FileResult := {
  fi_path : string;
  fi_scenario : option string;
  fi_cases : list CaseResult;
  fi_error : option message;
}.

(** Source: [crates/ic10-runner/src/runner.rs] [RunSummary] *)
Record RunSummary := {
  su_files : list FileResult;
  su_passed : Z;
  su_failed : Z;
  su_invalid : Z;
}.

(** Source: [crates/ic10-runner/src/runner.rs] [passed_case] *)
Definition passed_case (name : string) (seed : Z) : CaseResult :=
  {| cr_name := name; cr_status := Passed; cr_seed := seed; cr_ticks := 0; cr_operations := 0; cr_failures := [];
     cr_compatibility_warnings := []; cr_captured_output := [] |}.

Section runner.
Context `{Libm} `{Build} `{LuaEngine} `{FloatDisplay}.

(** Source: [crates/ic10-runner/src/runner.rs] [failed_case] *)
Definition failed_case (name : string) (seed : Z) (text : message) (expression : option string) : CaseResult :=
  {| cr_name := name; cr_status := Failed; cr_seed := seed; cr_ticks := 0; cr_operations := 0;
     cr_failures := [{| fa_message := text; fa_expression := expression; fa_expected := None; fa_actual := None; fa_tick := None;
                        fa_source := None; fa_line := None; fa_object := None;
                        fa_possibly_unsupported := str_contains "unsupported" (message_text text) |}];
     cr_compatibility_warnings := []; cr_captured_output := [] |}.

(** Source: [crates/ic10-runner/src/runner.rs] [invalid_case] *)
Definition invalid_case (name : string) (seed : Z) (text : message) : CaseResult :=
  let r := failed_case name seed text None in
  {| cr_name := cr_name r; cr_status := Invalid; cr_seed := cr_seed r; cr_ticks := cr_ticks r; cr_operations := cr_operations r;
     cr_failures := cr_failures r; cr_compatibility_warnings := cr_compatibility_warnings r;
     cr_captured_output := cr_captured_output r |}.

(** ** Scalars *)

Definition f_is_infinite (x : f64) : bool := f_eq (f_abs x) f_inf.


(** Source: [crates/ic10-runner/src/runner.rs] [format_scalar] *)
Definition format_scalar (value : Scalar) : string :=
  match value with SNumber value => format_number value | SText value => value end.

(** Source: [crates/ic10-runner/src/runner.rs] [collect_script_scalars] *)
Fixpoint script_scalars (action : ScriptAction) : list (string * Scalar) :=
  match action with
  | ActSet target value => [(target, value)]
  | ActPublish network _ value => [(network, value)]
  | ActSchedule _ actions => concat (script_scalars <$> actions)
  | ActMoveSlot _ _ => []
  end.

(** Source: [crates/ic10-runner/src/runner.rs] [validate_case_scalars] lines 892-931 *)
Definition case_scalars (case : TestCase) : list (string * Scalar) :=
  (tc_initial case
   ++ concat ((λ entry, tl_set entry ++ ((λ event, (se_target event, se_value event)) <$> tl_events entry)) <$> tc_timeline case)
   ++ concat ((λ driver, concat ((λ rule,
        match tr_equals (ru_when rule) with Some value => [(tr_target (ru_when rule), value)] | None => [] end
        ++ concat (script_scalars <$> ru_actions rule)) <$> dr_rules driver)) <$> tc_drivers case)
   ++ omap (λ assertion, pair "assertion" <$> as_expected assertion) (tc_assertions case)
   ++ default [] (tc_snapshot case))%list.

(** Source: [crates/ic10-runner/src/runner.rs] [validate_case_scalars] *)
Definition validate_case_scalars (case : TestCase) : outcome message () :=
  check_all (λ '(location, value),
    match scalar_as_f64 value with
    | Ok _ => Ok ()
    | Err error => Err ([PS "invalid numeric value for `"; PS location; PS "`: "] ++ error)%list
    | Panic => Panic
    end) (case_scalars case).

(** Source: [crates/ic10-runner/src/runner.rs] [equal_expected] *)
Definition equal_expected (actual : Value) (expected : Scalar) (tolerance : option Tolerance) : bool :=
  let expected := scalar expected in
  match number actual with
  | Ok actual =>
      if f_is_nan actual || f_is_nan expected then f_is_nan actual && f_is_nan expected
      else if f_is_infinite actual || f_is_infinite expected || (f_eq actual f_zero && f_eq expected f_zero)
      then to_bits actual =? to_bits expected
      else
        let '(absolute, relative) :=
          match tolerance with Some t => (to_absolute t, to_relative t) | None => (f_zero, f_zero) end in
        f_le (f_abs (f_sub actual expected))
          (f_max absolute (f_mul relative (f_max (f_abs actual) (f_abs expected))))
  | _ => false
  end.

(** ** Failures *)

(** Source: [crates/ic10-runner/src/runner.rs] [expression_object] *)
Definition expression_object (expression : string) : option string :=
  '(_, rest) ← split_once_str ("(" +:+ DQUOTE) expression;
  '(id, _) ← split_once_str (DQUOTE +:+ ")") rest;
  Some id.

(** Source: [crates/ic10-runner/src/runner.rs] [failure] *)
Definition failure (s : Simulator) (thread : nat) (expression : option string) (text : message)
    (expected actual : option message) : Failure :=
  let cpu := cpus s !! thread in
  {| fa_message := text; fa_expression := expression; fa_expected := expected; fa_actual := actual;
     fa_tick := Some (tick s); fa_source := (λ c, source_path (program c)) <$> cpu;
     fa_line := (λ line, line + 1) <$> (cpu ≫= current_line); fa_object := expression ≫= expression_object;
     fa_possibly_unsupported :=
       negb (match compatibility_warnings s with [] => true | _ => false end) || str_contains "unsupported" (message_text text) |}.

(** Source: [crates/ic10-runner/src/runner.rs] [matches_expected_error] *)
Definition matches_expected_error (case : TestCase) (kind : ErrorKind) (text : message) : bool :=
  match tc_expect_error case with
  | Some expected =>
      match ex_kind expected, kind with KindCompile, KindCompile | KindRuntime, KindRuntime => true | _, _ => false end
      && match ex_message_contains expected with Some part => str_contains part (message_text text) | None => true end
  | None => false
  end.

(** An evaluation ends within its fuel, see [Evaluator]; a spent fuel would be a panic. *)
Definition ended {A} (r : steps A) : outcome message A := match r with Some r => r | None => Panic end.

(** The text of a value or of the error in its place. *)
Definition shown (r : outcome message Value) : outcome message message :=
  match r with Ok value => Ok [PS (display value)] | Err error => Ok error | Panic => Panic end.

(** Source: [crates/ic10-runner/src/runner.rs] [assertion_failure] *)
Definition assertion_failure (s : Simulator) (thread : nat) (assertion : Assertion) (expression : string) (text : message) :
    outcome message Failure :=
  actual ← shown (ended (evaluate s thread expression));
  Ok (failure s thread (Some expression) text
        (Some [PS (match as_expected assertion with Some value => format_scalar value | None => "true" end)]) (Some actual)).

(** Source: [crates/ic10-runner/src/runner.rs] [assertion_error] *)
Definition assertion_error (s : Simulator) (thread : nat) (expression : string) (error : message) : Failure :=
  failure s thread (Some expression) (PS "could not evaluate assertion: " :: error) None None.

(** Source: [crates/ic10-runner/src/runner.rs] [assertion_matches] *)
Definition assertion_matches (s : Simulator) (thread : nat) (assertion : Assertion) (expression : string) : outcome message bool :=
  actual ← ended (evaluate s thread expression);
  match as_expected assertion with
  | Some expected => Ok (equal_expected actual expected (as_tolerance assertion))
  | None => truthy actual
  end.

(** ** Assertions of a tick *)

(** The verdicts of the assertions so far. *)
Record Verdicts := { ve_satisfied : list bool; ve_failures : list Failure }.

(** [satisfied[index]]; the list has an entry for every assertion. *)
Definition satisfied (index : nat) (v : Verdicts) : bool := default false (ve_satisfied v !! index).
Definition satisfy (index : nat) (v : Verdicts) : Verdicts :=
  {| ve_satisfied := <[index := true]> (ve_satisfied v); ve_failures := ve_failures v |}.
Definition fail (f : Failure) (v : Verdicts) : Verdicts :=
  {| ve_satisfied := ve_satisfied v; ve_failures := (ve_failures v ++ [f])%list |}.

(** [option.is_some_and] *)
Definition is_some_and {A} (f : A → bool) (o : option A) : bool := match o with Some a => f a | None => false end.

(** One assertion.
    Source: [crates/ic10-runner/src/runner.rs] [evaluate_assertions] lines 968-1011 *)
Definition evaluate_assertion (s : Simulator) (thread : nat) (case : TestCase) (v : Verdicts) (entry : nat * Assertion) :
    outcome message Verdicts :=
  let '(index, assertion) := entry in
  match expression assertion with
  | Err _ => Ok v
  | Panic => Panic
  | Ok text =>
      if is_some_and (λ t, negb (t =? tick s)) (as_at_tick assertion) then Ok v
      else if is_some (as_eventually assertion) then
        let deadline := default (tc_max_ticks case) (as_within_ticks assertion) in
        match assertion_matches s thread assertion text with
        | Ok true => Ok (satisfy index v)
        | Ok false =>
            if (deadline <=? tick s) && negb (satisfied index v) then
              f ← assertion_failure s thread assertion text [PS "eventual assertion deadline expired"]; Ok (fail f v)
            else Ok v
        | Err error => Ok (fail (assertion_error s thread text error) v)
        | Panic => Panic
        end
      else if is_some (as_always assertion) || is_some_and (Z.eqb (tick s)) (as_at_tick assertion)
              || (negb (is_some (as_at_tick assertion)) && (tick s =? tc_max_ticks case)) then
        match assertion_matches s thread assertion text with
        | Ok true => Ok (satisfy index v)
        | Ok false =>
            f ← assertion_failure s thread assertion text
                  [PS (if is_some (as_always assertion) then "invariant assertion failed" else "assertion failed")];
            Ok (fail f v)
        | Err error => Ok (fail (assertion_error s thread text error) v)
        | Panic => Panic
        end
      else Ok v
  end.

(** Source: [crates/ic10-runner/src/runner.rs] [evaluate_assertions] *)
Definition evaluate_assertions (s : Simulator) (thread : nat) (case : TestCase) (v : Verdicts) : outcome message Verdicts :=
  fold_outcome (evaluate_assertion s thread case) v (enumerate (tc_assertions case)).

(** ** A running case *)

(** A case that runs: the drivers and the simulation, what is counted and what failed. *)
Record Running := {
  rn_driven : Driven;
  rn_operations : Z;
  rn_verdicts : Verdicts;
  rn_error : option message;
}.

Abbreviation RX := (M Running message).

Definition rn_simulator (x : Running) : Simulator := (rn_driven x).2.
Definition rn_set_driven (v : Driven) (x : Running) : Running :=
  {| rn_driven := v; rn_operations := rn_operations x; rn_verdicts := rn_verdicts x; rn_error := rn_error x |}.
Definition rn_count (x : Running) : Running :=
  {| rn_driven := rn_driven x; rn_operations := rn_operations x + 1; rn_verdicts := rn_verdicts x; rn_error := rn_error x |}.
Definition rn_set_verdicts (v : Verdicts) (x : Running) : Running :=
  {| rn_driven := rn_driven x; rn_operations := rn_operations x; rn_verdicts := v; rn_error := rn_error x |}.
Definition rn_fail (f : Failure) (x : Running) : Running := rn_set_verdicts (fail f (rn_verdicts x)) x.
Definition rn_stop (error : message) (x : Running) : Running :=
  {| rn_driven := rn_driven x; rn_operations := rn_operations x; rn_verdicts := rn_verdicts x; rn_error := Some error |}.

(** The [Result] of a call as a value. *)
Definition result_of {A} (m : M Driven message A) : RX (message + A) := λ x,
  let '(r, d) := m (rn_driven x) in
  (match r with Ok a => Ok (inr a) | Err e => Ok (inl e) | Panic => Panic end, rn_set_driven d x).

Variable state_to_vec : StateEnvelope → string + list Z.

(** One stimulus.
    Source: [crates/ic10-runner/src/runner.rs] [run_scenario_case] lines 699-722 *)
Definition stimulate (thread : nat) (text : string) (entry : string * Scalar) : RX () :=
  let '(target, value) := entry in
  r ← result_of (in_simulator (set_value thread target (scalar value)));
  match r with
  | inl error =>
      modify (λ x, rn_fail (failure (rn_simulator x) thread (Some target) (PS text :: error) None None) x)
  | inr _ => mret ()
  end.

(** Source: [crates/ic10-runner/src/runner.rs] [run_scenario_case] lines 692-724 *)
Definition stimuli (thread : nat) (case : TestCase) : RX () :=
  current_tick ← gets (λ x : Running, tick (rn_simulator x));
  for_each (λ entry,
    _ ← for_each (stimulate thread "timeline stimulus failed: ") (tl_set entry);
    for_each (stimulate thread "timeline event failed: ") ((λ event, (se_target event, se_value event)) <$> tl_events entry))
    (List.filter (λ entry, tl_tick entry =? current_tick) (tc_timeline case)).

(** Source: [crates/ic10-runner/src/runner.rs] [run_scenario_case] lines 725-727 *)
Definition pump_drivers (thread : nat) : RX () :=
  r ← result_of (pump state_to_vec thread);
  match r with inl error => modify (rn_stop error) | inr _ => mret () end.

Definition judge (thread : nat) (case : TestCase) : RX () := λ x,
  match evaluate_assertions (rn_simulator x) thread case (rn_verdicts x) with
  | Ok v => (Ok (), rn_set_verdicts v x)
  | Err e => (Err e, x)
  | Panic => (Panic, x)
  end.

(** What happens before the programs run in a tick: the stimuli, the drivers, the
    assertions.
    Source: [crates/ic10-runner/src/runner.rs] [run_scenario_case] lines 692-728 *)
Definition observe_tick (thread : nat) (case : TestCase) : RX () :=
  _ ← stimuli thread case;
  _ ← pump_drivers thread;
  judge thread case.

(** The conditions that end a case.
    Source: [crates/ic10-runner/src/runner.rs] [run_scenario_case] lines 729-736 *)
Definition case_over (max_ticks max_operations : Z) (x : Running) : bool :=
  negb (match ve_failures (rn_verdicts x) with [] => true | _ => false end)
  || is_some (rn_error x)
  || (max_ticks <=? tick (rn_simulator x))
  || (max_operations <=? rn_operations x)
  || (is_finished (rn_simulator x) && negb (has_pending (rn_driven x).1)).

(** Source: [crates/ic10-runner/src/runner.rs] [run_scenario_case] lines 738-745 *)
Definition too_late (thread : nat) (limits : RunLimits) (x : Running) : Running :=
  rn_fail (failure (rn_simulator x) thread None [PS "wall-time limit exceeded"]
             (Some [PS "<= "; PZ (rl_wall_time limits); PS " ms"]) (Some [PS "> "; PZ (rl_wall_time limits); PS " ms"])) x.

(** The steps of one tick; [None] when the fuel is spent.
    Source: [crates/ic10-runner/src/runner.rs] [run_scenario_case] lines 748-769 *)
Fixpoint case_tick (fuel thread : nat) (start_tick max_operations : Z) : RX (option ()) :=
  match fuel with
  | O => mret None
  | S fuel' =>
      go_on ← gets (λ x : Running, (tick (rn_simulator x) =? start_tick) && (rn_operations x <? max_operations));
      if negb go_on then mret (Some ())
      else
        r ← result_of (in_simulator scheduler_step);
        match r with
        | inl error => _ ← modify (rn_stop error); mret (Some ())
        | inr event =>
            _ ← when (is_some event) (modify rn_count);
            r ← result_of (pump state_to_vec thread);
            match r with
            | inl error => _ ← modify (rn_stop error); mret (Some ())
            | inr _ => case_tick fuel' thread start_tick max_operations
            end
        end
  end.

(** Every turn counts an operation or ends the tick. *)
Definition tick_steps (max_operations : Z) (x : Running) : nat := Z.to_nat (max_operations - rn_operations x) + 2.

(** The loop over the ticks, [late n] being the [n]-th test of the clock; [None] when
    the fuel is spent.
    Source: [crates/ic10-runner/src/runner.rs] [run_scenario_case] lines 691-773 *)
Fixpoint case_ticks (fuel thread : nat) (case : TestCase) (limits : RunLimits) (late : nat → bool) (max_ticks max_operations : Z) :
    RX (option ()) :=
  match fuel with
  | O => mret None
  | S fuel' =>
      _ ← observe_tick thread case;
      over ← gets (case_over max_ticks max_operations);
      if over : bool then mret (Some ())
      else if late O then _ ← modify (too_late thread limits); mret (Some ())
      else
        start_tick ← gets (λ x : Running, tick (rn_simulator x));
        fuel_of_tick ← gets (tick_steps max_operations);
        left_loop ← case_tick fuel_of_tick thread start_tick max_operations;
        match left_loop with
        | None => mret None
        | Some _ =>
            error ← gets rn_error;
            if is_some error then mret (Some ())
            else case_ticks fuel' thread case limits (λ n, late (S n)) max_ticks max_operations
        end
  end.

(** ** The end of a case *)

(** The failures of every element, in order. *)
Definition gather {A} (f : A → outcome message (list Failure)) (l : list A) : outcome message (list Failure) :=
  found ← map_outcome f l; Ok (concat found).

Definition final_failures (f : Running → outcome message (list Failure)) : RX () := λ x,
  match f x with
  | Ok l => (Ok (), rn_set_verdicts {| ve_satisfied := ve_satisfied (rn_verdicts x); ve_failures := (ve_failures (rn_verdicts x) ++ l)%list |} x)
  | Err e => (Err e, x)
  | Panic => (Panic, x)
  end.

(** Source: [crates/ic10-runner/src/runner.rs] [run_scenario_case] lines 775-799 *)
Definition runtime_outcome (thread : nat) (case : TestCase) (x : Running) : outcome message (list Failure) :=
  let s := rn_simulator x in
  match rn_error x with
  | Some error =>
      Ok (if matches_expected_error case KindRuntime error then []
          else [failure s thread None (PS "runtime error: " :: error) None None])
  | None =>
      Ok (match tc_expect_error case with
          | Some {| ex_kind := KindRuntime |} =>
              [failure s thread None [PS "expected a runtime error, but none occurred"] None None]
          | _ => []
          end)
  end.

(** Source: [crates/ic10-runner/src/runner.rs] [run_scenario_case] lines 800-815 *)
Definition unsatisfied (thread : nat) (case : TestCase) (x : Running) : outcome message (list Failure) :=
  let s := rn_simulator x in
  gather (λ '(index, assertion),
    if is_some (as_eventually assertion) && negb (satisfied index (rn_verdicts x)) then
      let text := match expression assertion with Ok text => text | _ => "<invalid>" end in
      actual ← shown (ended (evaluate s thread text));
      Ok [failure s thread (Some text) [PS "eventual assertion was not satisfied"] (Some [PS "true"]) (Some actual)]
    else Ok []) (enumerate (tc_assertions case)).

(** Source: [crates/ic10-runner/src/runner.rs] [run_scenario_case] lines 816-836 *)
Definition final_assertions (thread : nat) (case : TestCase) (max_ticks : Z) (x : Running) : outcome message (list Failure) :=
  let s := rn_simulator x in
  if tick s <? max_ticks then
    gather (λ assertion,
      let text := match expression assertion with Ok text => text | _ => "<invalid>" end in
      match assertion_matches s thread assertion text with
      | Ok true => Ok []
      | Ok false => f ← assertion_failure s thread assertion text [PS "final assertion failed"]; Ok [f]
      | Err error => Ok [assertion_error s thread text error]
      | Panic => Panic
      end)
      (List.filter (λ a, is_some (as_expression a) && negb (is_some (as_at_tick a)) && negb (is_some (as_eventually a))
                         && negb (is_some (as_always a))) (tc_assertions case))
  else Ok [].

(** Source: [crates/ic10-runner/src/runner.rs] [run_scenario_case] lines 837-846 *)
Definition operation_limit (thread : nat) (max_operations : Z) (x : Running) : outcome message (list Failure) :=
  let s := rn_simulator x in
  Ok (if (max_operations <=? rn_operations x) && negb (is_finished s)
      then [failure s thread None [PS "operation limit exceeded"] (Some [PS "< "; PZ max_operations]) (Some [PZ (rn_operations x)])]
      else []).

(** Source: [crates/ic10-runner/src/runner.rs] [run_scenario_case] lines 847-873 *)
Definition snapshot_differences (thread : nat) (case : TestCase) (x : Running) : outcome message (list Failure) :=
  let s := rn_simulator x in
  match tc_snapshot case with
  | None => Ok []
  | Some values =>
      gather (λ '(text, expected),
        match ended (evaluate s thread text) with
        | Ok actual =>
            Ok (if equal_expected actual expected None then []
                else [failure s thread (Some text)
                        [PS "final-state snapshot differs"; PS NEWLINE; PS "- "; PS (format_scalar expected); PS NEWLINE; PS "+ ";
                         PS (display actual)] (Some [PS (format_scalar expected)]) (Some [PS (display actual)])])
        | Err error =>
            Ok [failure s thread (Some text) (PS "snapshot evaluation failed: " :: error) (Some [PS (format_scalar expected)]) None]
        | Panic => Panic
        end) values
  end.

(** Source: [crates/ic10-runner/src/runner.rs] [run_scenario_case] lines 775-873 *)
Definition conclude (thread : nat) (case : TestCase) (max_ticks max_operations : Z) : RX () :=
  _ ← final_failures (runtime_outcome thread case);
  _ ← final_failures (unsatisfied thread case);
  _ ← final_failures (final_assertions thread case max_ticks);
  _ ← final_failures (operation_limit thread max_operations);
  final_failures (snapshot_differences thread case).

(** ** One case *)

Variable definitions_to_vec : list ScriptedDriver → string + list Z.
Variable state_from_slice : list Z → string + StateEnvelope.
Variable read_file : string → string + string.
Variable scenario_from_json : string → string + Scenario.
Variable sidecars : string → option (list BuildMapEntry) * option string.
Variable resolve_path : string → string → string.
Variable new_lua : string → string → string → string → World → BTreeMap string string → nat →
  outcome message LuaProgramRuntime.
Variable kb : KnowledgeBase.

(** Source: [crates/ic10-sim/src/scenario.rs] [load] *)
Definition load_scenario (path : string) : outcome message Scenario :=
  match read_file path with
  | inl error => Err [PS "could not read "; PS path; PS ": "; PS error]
  | inr source =>
      match scenario_from_json source with
      | inl error => Err [PS "invalid scenario "; PS path; PS ": "; PS error]
      | inr scenario => Ok scenario
      end
  end.

(** The paths of the programs are resolved in the directory of the scenario.
    Source: [crates/ic10-sim/src/simulator.rs] [from_scenario_path_with_lua_library_paths] *)
Definition from_scenario_path (path : string) : outcome SimulatorError Simulator :=
  scenario ← map_err SimScenario (load_scenario path);
  from_scenario (λ p, match read_file p with inr source => Some source | inl _ => None end) sidecars (resolve_path path)
    new_lua scenario kb.

(** [Display] of a [SimulatorError].
    Source: [crates/ic10-sim/src/simulator.rs] [fmt] lines 2832-2848 *)
Definition simulator_error_text (error : SimulatorError) : message :=
  match error with
  | SimScenario error => error
  | SimWorld error => error
  | SimCompile error => [PS (join "; " (ce_diagnostics error))]
  | SimIo path =>
      [PS "could not read IC10 program "; PS path; PS ": "; PS (match read_file path with inl error => error | inr _ => "" end)]
  | SimMessage text => text
  end.

Definition expects (kind : ErrorKind) (case : TestCase) : bool :=
  match tc_expect_error case, kind with
  | Some {| ex_kind := KindCompile |}, KindCompile | Some {| ex_kind := KindRuntime |}, KindRuntime => true
  | _, _ => false
  end.

(** The simulation of a case, or the result of a case that is not run.
    Source: [crates/ic10-runner/src/runner.rs] [run_scenario_case] lines 614-648 *)
Definition open_case (name : string) (case : TestCase) (scenario : string) (seed : Z) : outcome CaseResult Simulator :=
  match from_scenario_path scenario with
  | Ok s =>
      if expects KindCompile case
      then Err (failed_case name seed [PS "expected a compile error, but compilation succeeded"] None)
      else Ok s
  | Err error =>
      let text := simulator_error_text error in
      let kind := match error with SimCompile _ => KindCompile | _ => KindRuntime end in
      if matches_expected_error case kind text then Err (passed_case name seed)
      else Err (failed_case name seed (PS "could not load scenario: " :: text) None)
  | Panic => Panic
  end.

(** Source: [crates/ic10-runner/src/runner.rs] [run_scenario_case] lines 651-665 *)
Definition focus (name : string) (case : TestCase) (scenario : string) (seed : Z) (s : Simulator) : outcome CaseResult nat :=
  match tc_program case with
  | None => Ok O
  | Some id =>
      match position (λ c, String.eqb (program_id c) id) (cpus s) with
      | Some index => Ok index
      | None =>
          match load_scenario scenario with
          | Ok loaded =>
              match find_first (λ p, String.eqb (ps_id p) id) (sc_programs loaded) with
              | Some {| ps_language := LangLua |} => Ok O
              | _ => Err (invalid_case name seed [PS "unknown program `"; PS id; PS "`"])
              end
          | _ => Err (invalid_case name seed [PS "unknown program `"; PS id; PS "`"])
          end
      end
  end.

Definition or_invalid {A} (name : string) (seed : Z) (r : outcome message A) : outcome CaseResult A :=
  map_err (invalid_case name seed) r.

(** Source: [crates/ic10-runner/src/runner.rs] [run_scenario_case] lines 671-679 *)
Definition override (name : string) (seed : Z) (thread : nat) (s : Simulator) (entry : string * Scalar) :
    outcome CaseResult Simulator :=
  let '(target, value) := entry in
  match set_value thread target (scalar value) s with
  | (Ok _, s') => Ok s'
  | (Err error, _) => Err (invalid_case name seed ([PS "invalid initial override `"; PS target; PS "`: "] ++ error)%list)
  | (Panic, _) => Panic
  end.

(** A case that is ready to run, its focus and the warnings of its simulation.
    Source: [crates/ic10-runner/src/runner.rs] [run_scenario_case] lines 610-689 *)
Definition prepare_case (name : string) (case : TestCase) (scenario : string) (seed : Z) :
    outcome CaseResult (nat * Running) :=
  _ ← or_invalid name seed (validate_case_scalars case);
  s ← open_case name case scenario seed;
  let s := (set_seed seed s).2 in
  thread ← focus name case scenario seed s;
  _ ← or_invalid name seed (check_all (λ a, _ ← expression a; Ok ()) (tc_assertions case));
  s ← fold_outcome (override name seed thread) s (tc_initial case);
  match new definitions_to_vec state_to_vec state_from_slice thread (tc_drivers case) s with
  | (Ok drivers, s) =>
      Ok (thread, {| rn_driven := (drivers, s); rn_operations := 0;
                     rn_verdicts := {| ve_satisfied := repeat false (length (tc_assertions case)); ve_failures := [] |};
                     rn_error := None |})
  | (Err error, _) => Err (invalid_case name seed error)
  | (Panic, _) => Panic
  end.

(** The ticks that are left, one turn more for the last and one to leave the loop. *)
Definition case_fuel (max_ticks : Z) (x : Running) : nat := Z.to_nat (max_ticks - tick (rn_simulator x)) + 2.

(** Source: [crates/ic10-runner/src/runner.rs] [run_scenario_case] lines 684-688 *)
Definition effective (case : TestCase) (limits : RunLimits) : Z * Z :=
  (Z.min (tc_max_ticks case) (rl_max_ticks limits), Z.min (tc_max_operations case) (rl_max_operations limits)).

(** The run of a prepared case, up to its verdicts; [None] when the fuel is spent. *)
Definition run_prepared (case : TestCase) (limits : RunLimits) (late : nat → bool) (thread : nat) : RX (option ()) := λ x,
  let '(max_ticks, max_operations) := effective case limits in
  (ended_loop ← case_ticks (case_fuel max_ticks x) thread case limits late max_ticks max_operations;
   match ended_loop with
   | None => mret None
   | Some _ => _ ← conclude thread case max_ticks max_operations; mret (Some ())
   end) x.

(** Source: [crates/ic10-runner/src/runner.rs] [run_scenario_case] lines 874-888 *)
Definition case_result (name : string) (seed : Z) (warnings : list string) (x : Running) : CaseResult :=
  {| cr_name := name;
     cr_status := match ve_failures (rn_verdicts x) with [] => Passed | _ => Failed end;
     cr_seed := seed; cr_ticks := tick (rn_simulator x); cr_operations := rn_operations x;
     cr_failures := ve_failures (rn_verdicts x); cr_compatibility_warnings := warnings; cr_captured_output := [] |}.

(** [None] when the fuel is spent, which never happens to a well-formed simulation.
    Source: [crates/ic10-runner/src/runner.rs] [run_scenario_case] *)
Definition run_scenario_case (name : string) (case : TestCase) (scenario : string) (seed : Z) (limits : RunLimits)
    (late : nat → bool) : steps CaseResult :=
  match prepare_case name case scenario seed with
  | Err r => Some (Ok r)
  | Panic => Some Panic
  | Ok (thread, x) =>
      match run_prepared case limits late thread x with
      | (Ok (Some _), y) => Some (Ok (case_result name seed (compatibility_warnings (rn_simulator x)) y))
      | (Ok None, _) => None
      | (Err error, _) => Some (Err error)
      | (Panic, _) => Some Panic
      end
  end.
End runner.
