(* ===== verification/RunnerFacts.v ===== *)
(** * The run of a scenario case ends, and a case that passed met its assertions

    Proofs about [Runner].  The loop over the ticks ends within its fuel: every turn of
    the inner loop counts an operation or ends the tick, every turn of the outer loop
    ends a tick or leaves the loop.  The states the assertions were evaluated in are
    the trace of a case; its verdict is related to what held along the trace. *)

From S2P Require Import Prelude BTree Text F64 Knowledge Literals Journal Scenario World Program Compile Cpu Exec.
From S2P Require Import Isa Frame Behaviour Vm Lua Simulator Tick Safety Control Load Schema Evaluator EvaluatorFacts ScriptDriver ScriptDriverFacts Runner.
Local Open Scope string_scope.
Local Open Scope Z_scope.

(** ** The clock *)

Section clock.
Context `{Libm} `{Build} `{LuaEngine} `{FloatDisplay}.

Definition same_tick (s s' : Simulator) : Prop := tick s' = tick s.

#[export] Instance same_tick_preorder : PreOrder same_tick.
Proof. split; [done|]. intros a b c Hab Hbc. unfold same_tick in *. congruence. Qed.

Lemma view_tick {A} (m : M Simulator message A) : keeps same_view m → keeps same_tick m.
Proof. intros Hm s. specialize (Hm s). unfold same_view, view, fixed_view in Hm. unfold same_tick. congruence. Qed.

Lemma tick_alter_cpu i f : keeps (E:=message) same_tick (alter_cpu i f).
Proof. intros s. unfold alter_cpu. by destruct (cpus s !! i). Qed.

Lemma tick_count_operation i actor : keeps same_tick (count_operation i actor).
Proof. unfold count_operation. keeps_run; [apply tick_alter_cpu|by apply keeps_modify]. Qed.

#[local] Hint Resolve view_tick tick_alter_cpu tick_count_operation : frame.

Lemma tick_step_instruction i : keeps same_tick (step_instruction i).
Proof.
  unfold step_instruction. keeps_run. intros s.
  match goal with |- context [execute_operation ?kb ?now ?actor ?op] => pose proof (view_tick _ (view_execute i kb now actor op) s) as Hk end.
  by destruct (on_machine _ _ _) as [[]].
Qed.

Lemma tick_adapter_step a : keeps same_tick (adapter_step a).
Proof.
  destruct a as [i|i]; unfold adapter_step; simpl.
  - unfold sim_ic10_step. apply keeps_bind; [typeclasses eauto|apply tick_step_instruction|intros ?; apply keeps_ret; typeclasses eauto].
  - unfold sim_lua_step. keeps_run. intros s. by destruct (lua_runtime_step _ _ _) as [[r w] x].
Qed.

(** Looking for a turn moves the clock only when there is none. *)
Lemma prepare_from_tick slots s r s' : 0 ≤ tick s ≤ U64_MAX → prepare_from slots s = (Ok r, s') →
  tick s' = match r with Some _ => tick s | None => wrap_u 64 (tick s + 1) end.
Proof.
  revert s. induction slots as [|a rest IH]; intros s Ht Hrun; cbn [prepare_from] in Hrun.
  { apply bind_Ok_inv in Hrun as (u & s1 & Hadv & [= <- <-]). by apply advance_tick_run in Hadv as (_ & _ & -> & _). }
  apply bind_Ok_inv in Hrun as (l & s1 & [= Hl <-] & Hrun).
  apply bind_Ok_inv in Hrun as (now & s1 & [= <- <-] & Hrun).
  apply bind_Ok_inv in Hrun as (slot & s1 & [= <- <-] & Hrun).
  assert (∀ s1 n, tick s1 = tick s → (_ ← set_scheduler_slot n; prepare_from rest) s1 = (Ok r, s') →
    tick s' = match r with Some _ => tick s | None => wrap_u 64 (tick s + 1) end) as Hskip.
  { intros s1 n Ht1 Hr. apply bind_Ok_inv in Hr as (u & s2 & Hset & Hr).
    apply set_scheduler_slot_run in Hset as ([Hf _] & _ & _). unfold fixed_view in Hf.
    assert (tick s2 = tick s) as Ht2 by congruence. rewrite <-Ht2. apply IH; [by rewrite Ht2|done]. }
  destruct (negb _); [by eapply Hskip|]. destruct (current_location l); [by injection Hrun as <- <-|].
  apply bind_Ok_inv in Hrun as (u & s1 & Hh & Hrun). apply adapter_halt_view in Hh. unfold view, fixed_view in Hh.
  eapply Hskip; [|exact Hrun]. congruence.
Qed.

(** A step of the scheduler keeps the tick, or ends it when there is nothing to run. *)
Lemma scheduler_step_tick s r s' : 0 ≤ tick s ≤ U64_MAX → scheduler_step s = (Ok r, s') →
  tick s' = match r with Some _ => tick s | None => wrap_u 64 (tick s + 1) end.
Proof.
  intros Ht Hrun. unfold scheduler_step in Hrun.
  apply bind_Ok_inv in Hrun as (pe & s1 & [= <- <-] & Hrun). destruct (scheduler_error s).
  { apply bind_Ok_inv in Hrun as (? & ? & _ & [=]). }
  apply bind_Ok_inv in Hrun as (prepared & s1 & Hprep & Hrun). apply prepare_from_tick in Hprep; [|done].
  destruct prepared as [[a location]|]; [|by injection Hrun as <- <-].
  apply bind_Ok_inv in Hrun as (res & s2 & Hstep & Hrun). apply (keeps_at same_tick) in Hstep; [|apply tick_adapter_step].
  apply bind_Ok_inv in Hrun as (l & s3 & [= _ <-] & Hrun). apply bind_Ok_inv in Hrun as (slot & s3 & [= _ <-] & Hrun).
  apply bind_Ok_inv in Hrun as (u & s3 & Hturn & [= <- <-]). unfold same_tick in Hstep.
  destruct (negb _); cbn [when] in Hturn; [|injection Hturn as _ <-; congruence].
  apply set_scheduler_slot_run in Hturn as ([Hf _] & _ & _). unfold fixed_view in Hf. congruence.
Qed.
End clock.

(** ** Runs that return *)

(** [m] returns from every state of [P], in a state and with a value of [Q]. *)
Definition returns {S E A} (P : S → Prop) (m : M S E A) (Q : A → S → Prop) : Prop :=
  ∀ x, P x → ∃ a y, m x = (Ok a, y) ∧ Q a y.

Lemma returns_bind {S E A B} (P : S → Prop) (m : M S E A) (k : A → M S E B) Q R :
  returns P m Q → (∀ a, returns (Q a) (k a) R) → returns P (m ≫= k) R.
Proof.
  intros Hm Hk x Hx. destruct (Hm x Hx) as (a & y & Ha & Hy). destruct (Hk a y Hy) as (b & z & Hb & Hz).
  exists b, z. split; [|done]. by erewrite bind_run.
Qed.

Lemma returns_modify {S E} (P : S → Prop) (f : S → S) (Q : () → S → Prop) :
  (∀ x, P x → Q () (f x)) → returns (E:=E) P (modify f) Q.
Proof. intros Hf x Hx. exists (), (f x). eauto. Qed.

Lemma returns_ret {S E A} (P : S → Prop) (a : A) (Q : A → S → Prop) : (∀ x, P x → Q a x) → returns (E:=E) P (mret a) Q.
Proof. intros Hq x Hx. exists a, x. eauto. Qed.

Lemma returns_for_each {S E A} (P : S → Prop) (f : A → M S E ()) l :
  (∀ a, a ∈ l → returns P (f a) (λ _, P)) → returns P (for_each f l) (λ _, P).
Proof.
  induction l as [|a l IH]; intros Hf; [by apply returns_ret|]. cbn [for_each].
  eapply returns_bind; [apply Hf; left|intros []; apply IH; intros; apply Hf; by right].
Qed.

(** ** What a turn keeps *)

Section frame.
Context `{Libm} `{Build} `{LuaEngine} `{FloatDisplay}.

(** Failures are only added; nothing else of the verdicts, the counts and the error
    changes. *)
Definition appended (x y : Running) : Prop :=
  rn_operations y = rn_operations x ∧ rn_error y = rn_error x ∧ ve_satisfied (rn_verdicts y) = ve_satisfied (rn_verdicts x)
  ∧ ∃ l, ve_failures (rn_verdicts y) = (ve_failures (rn_verdicts x) ++ l)%list.

#[export] Instance appended_preorder : PreOrder appended.
Proof.
  split; [intros x; split_and!; [done..|exists []; by rewrite app_nil_r]|].
  intros a b c (Ho & He & Hs & l & Hl) (Ho' & He' & Hs' & l' & Hl'). split_and!; [congruence..|].
  exists (l ++ l')%list. by rewrite Hl', Hl, app_assoc.
Qed.

Lemma appended_result_of {A} (m : M Driven message A) : keeps appended (result_of m).
Proof.
  intros x. unfold result_of. destruct (m (rn_driven x)) as [r d]. simpl.
  split_and!; [done..|exists []; by rewrite app_nil_r].
Qed.

Lemma appended_fail f : keeps (E:=message) appended (modify (λ x, rn_fail (f x) x)).
Proof. apply keeps_modify. intros x. split_and!; [done..|by eexists]. Qed.
#[local] Hint Resolve appended_result_of appended_fail : frame.

Lemma appended_stimuli thread case : keeps appended (stimuli thread case).
Proof. unfold stimuli, stimulate. keeps_run. Qed.

Definition same_operations (x y : Running) : Prop := rn_operations y = rn_operations x.

#[export] Instance same_operations_preorder : PreOrder same_operations.
Proof. split; [done|]. intros a b c ? ?. unfold same_operations in *. congruence. Qed.

Lemma operations_appended {A} (m : M Running message A) : keeps appended m → keeps same_operations m.
Proof. intros Hm x. apply (Hm x). Qed.

Lemma operations_observe state_to_vec thread case : keeps same_operations (observe_tick state_to_vec thread case).
Proof.
  unfold observe_tick. apply keeps_bind; [typeclasses eauto|apply operations_appended, appended_stimuli|intros _].
  apply keeps_bind; [typeclasses eauto|unfold pump_drivers|intros _].
  - apply keeps_bind; [typeclasses eauto|apply operations_appended, appended_result_of|intros [error|_]]; [by apply keeps_modify|].
    apply keeps_ret; typeclasses eauto.
  - intros x. unfold judge. by destruct (evaluate_assertions _ _ _ _).
Qed.

Lemma operations_conclude thread case max_ticks max_operations : keeps same_operations (conclude thread case max_ticks max_operations).
Proof.
  assert (∀ f, keeps same_operations (final_failures f)) as Hf by (intros f x; unfold final_failures; by destruct (f x)).
  unfold conclude. repeat (apply keeps_bind; [typeclasses eauto|apply Hf|intros _]). apply Hf.
Qed.
End frame.

(** The expressions of the case are ASCII. *)
Definition texts_ascii (case : TestCase) : Prop :=
  Forall (λ a, ∀ text, expression a = Ok text → is_ascii text = true) (tc_assertions case)
  ∧ Forall (λ e : string * Scalar, is_ascii e.1 = true) (default [] (tc_snapshot case)).

(** ** Evaluations return *)

#[local] Set Default Proof Using "All".
Section assertions.
Context `{Libm} `{Build} `{LuaEngine} `{FloatDisplay}.
Context (sizes : list nat) (nn nc thread : nat).

Lemma evaluate_returns s text : sim_ok sizes nn nc s → is_ascii text = true → ended (evaluate s thread text) ≠ Panic.
Proof.
  intros Hs Ha. destruct (evaluate_ends sizes nn nc s thread (λ _ _, false) text Hs) as (r & Hr & Hp).
  unfold evaluate. rewrite Hr. by apply Hp.
Qed.

Lemma shown_returns (r : outcome message Value) : r ≠ Panic → ∃ text, shown r = Ok text.
Proof using Type. destruct r; simpl; eauto. done. Qed.

Lemma assertion_failure_returns s assertion text m : sim_ok sizes nn nc s → is_ascii text = true →
  ∃ f, assertion_failure s thread assertion text m = Ok f.
Proof.
  intros Hs Ha. unfold assertion_failure. destruct (shown_returns _ (evaluate_returns s text Hs Ha)) as [t ->]. by eexists.
Qed.

Lemma assertion_matches_returns s assertion text : sim_ok sizes nn nc s → is_ascii text = true →
  assertion_matches s thread assertion text ≠ Panic.
Proof.
  intros Hs Ha. unfold assertion_matches. apply bind_no_panic; [by apply evaluate_returns|]. intros v _.
  destruct (as_expected assertion); [done|]. by destruct v.
Qed.

Lemma evaluate_assertion_returns case s v entry : sim_ok sizes nn nc s →
  (∀ text, expression entry.2 = Ok text → is_ascii text = true) →
  ∃ v', evaluate_assertion s thread case v entry = Ok v'.
Proof.
  destruct entry as [i a]. intros Hs Ha. unfold evaluate_assertion. simpl in Ha.
  destruct (expression a) as [text|e|] eqn:He; [|by eexists|].
  2: { unfold expression in He. repeat case_match; done. }
  specialize (Ha text eq_refl). destruct (is_some_and _ _); [by eexists|].
  pose proof (assertion_matches_returns s a text Hs Ha) as Hm.
  destruct (is_some (as_eventually a)).
  - destruct (assertion_matches s thread a text) as [[]|error|]; [by eexists| |by eexists|done].
    destruct (_ && _); [|by eexists]. edestruct assertion_failure_returns as [f ->]; [done..|]. by eexists.
  - destruct (_ || _); [|by eexists].
    destruct (assertion_matches s thread a text) as [[]|error|]; [by eexists| |by eexists|done].
    edestruct assertion_failure_returns as [f ->]; [done..|]. by eexists.
Qed.
End assertions.

(** ** A case that runs returns *)

#[local] Set Default Proof Using "All".
Section running.
Context `{Libm} `{Build} `{LuaEngine} `{FloatDisplay}.
Context (state_to_vec : StateEnvelope → string + list Z).
Context (sizes : list nat) (nn nc thread : nat) (case : TestCase).

(** A running case at a tick. *)
Record running (now : Z) (x : Running) : Prop := {
  rg_driven : runtime_ok sizes nn nc (rn_driven x);
  rg_tick : tick (rn_simulator x) = now;
}.

Lemma running_verdicts now v x : running now x → running now (rn_set_verdicts v x).
Proof using Type. by intros [? ?]. Qed.

Lemma returns_result_of {A} now (m : M Simulator message A) :
  safe (at_tick sizes nn nc now) m any → returns (running now) (result_of (in_simulator m)) (λ _, running now).
Proof.
  intros Hm x [[Hs Ht Hq] Hnow]. unfold result_of, in_simulator, zoom. specialize (Hm (rn_driven x).2 (conj Hs Hnow)).
  destruct (m (rn_driven x).2) as [[a|e|] s] eqn:Hrun; [| |done].
  - destruct Hm as [[Hs' Ht'] _]. eexists _, _. split; [reflexivity|]. by split.
  - destruct Hm as [Hs' Ht']. eexists _, _. split; [reflexivity|]. by split.
Qed.

Lemma returns_stimulate now text e : returns (running now) (stimulate thread text e) (λ _, running now).
Proof.
  destruct e as [target value]. eapply returns_bind; [apply returns_result_of; apply safe_set_value|].
  intros [error|[]]; [|by apply returns_ret]. apply returns_modify. intros x. apply running_verdicts.
Qed.

Lemma returns_stimuli now : returns (running now) (stimuli thread case) (λ _, running now).
Proof.
  intros x Hx. unfold stimuli. rewrite bind_gets. refine (returns_for_each (running now) _ _ _ x Hx). intros entry _.
  eapply returns_bind; [apply returns_for_each; intros; apply returns_stimulate|intros []].
  apply returns_for_each; intros; apply returns_stimulate.
Qed.

Lemma returns_pump now : returns (running now) (result_of (pump state_to_vec thread)) (λ _, running now).
Proof.
  intros x [Hx Hnow]. unfold result_of. pose proof (pump_ok state_to_vec sizes nn nc thread (rn_driven x) Hx) as Hp.
  destruct (pump state_to_vec thread (rn_driven x)) as [r d]. destruct Hp as (Hr & Hd & Ht & _).
  destruct r as [a|e|]; [| |done]; (eexists _, _; split; [reflexivity|]; split; [done|]; unfold rn_simulator in *; simpl; congruence).
Qed.

Lemma returns_pump_drivers now : returns (running now) (pump_drivers state_to_vec thread) (λ _, running now).
Proof.
  eapply returns_bind; [apply returns_pump|]. intros [error|[]]; [|by apply returns_ret].
  apply returns_modify. by intros x [? ?].
Qed.

Lemma evaluate_assertions_returns s v : texts_ascii case → sim_ok sizes nn nc s → ∃ v', evaluate_assertions s thread case v = Ok v'.
Proof.
  intros Hascii Hs. unfold evaluate_assertions. destruct Hascii as [Ha _].
  assert (Forall (λ e : nat * Assertion, ∀ text, expression e.2 = Ok text → is_ascii text = true) (enumerate (tc_assertions case))) as Hall.
  { apply Forall_forall. intros [i a] Hin. rewrite Forall_forall in Ha. apply Ha. simpl. by apply elem_of_zip_r in Hin. }
  clear Ha. revert v. induction Hall as [|e l He Hl IH]; intros v; [by eexists|]. cbn [fold_outcome].
  destruct (evaluate_assertion_returns sizes nn nc thread case s v e Hs He) as [v' ->]. apply IH.
Qed.

Lemma returns_observe now : texts_ascii case → returns (running now) (observe_tick state_to_vec thread case) (λ _, running now).
Proof.
  intros Hascii. eapply returns_bind; [apply returns_stimuli|intros []]. eapply returns_bind; [apply returns_pump_drivers|intros []].
  intros x Hx. unfold judge. destruct (evaluate_assertions_returns (rn_simulator x) (rn_verdicts x)) as [v ->]; [done|apply Hx|].
  eexists _, _. split; [reflexivity|]. by apply running_verdicts.
Qed.

(** ** The loops *)

Lemma run_step x now : overflow_checks = false → running now x → 0 ≤ now ≤ U64_MAX →
  ∃ r y, result_of (in_simulator scheduler_step) x = (Ok r, y) ∧ rn_operations y = rn_operations x ∧ rn_error y = rn_error x
    ∧ match r with
      | inl _ => ∃ later, running later y
      | inr (Some _) => running now y
      | inr None => running (wrap_u 64 (now + 1)) y
      end.
Proof.
  intros Hrelease [[Hs Ht Hq] Hnow] Hrange. unfold result_of, in_simulator, zoom.
  pose proof (safe_scheduler_step sizes nn nc Hrelease (rn_driven x).2 Hs) as Hsafe.
  destruct (scheduler_step (rn_driven x).2) as [[ev|e|] s] eqn:Hrun; [| |done].
  - destruct Hsafe as [Hs' _]. unfold rn_simulator in Hnow.
    apply scheduler_step_tick in Hrun; [|by rewrite Hnow]. rewrite Hnow in Hrun.
    eexists _, _. split_and!; [reflexivity|done|done|]. by destruct ev.
  - eexists _, _. split_and!; [reflexivity|done|done|]. by exists (tick s).
Qed.

Lemma run_pump x now : running now x →
  ∃ r y, result_of (pump state_to_vec thread) x = (Ok r, y) ∧ rn_operations y = rn_operations x ∧ rn_error y = rn_error x
    ∧ running now y.
Proof.
  intros Hx. destruct (returns_pump now x Hx) as (r & y & Hrun & Hy).
  pose proof (appended_result_of (pump state_to_vec thread) x) as Hn. rewrite Hrun in Hn. destruct Hn as (Ho & He & _).
  by exists r, y.
Qed.

(** The steps of a tick end by an error, at the next tick or at the operation limit. *)
Definition tick_ended (start max_operations : Z) (y : Running) : Prop :=
  (∃ later, running later y)
  ∧ (rn_error y = None → running (wrap_u 64 (start + 1)) y ∨ (running start y ∧ max_operations ≤ rn_operations y)).

Lemma case_tick_returns (start max_operations : Z) (fuel : nat) : overflow_checks = false → 0 ≤ start ≤ U64_MAX → ∀ x,
  running start x → rn_error x = None → (Z.to_nat (max_operations - rn_operations x) + 1 < fuel)%nat →
  ∃ y, case_tick state_to_vec fuel thread start max_operations x = (Ok (Some ()), y) ∧ tick_ended start max_operations y
    ∧ rn_operations y ≤ Z.max max_operations (rn_operations x).
Proof.
  intros Hrelease Hrange. assert (wrap_u 64 (start + 1) ≠ start) as Hmoves.
  { unfold U64_MAX in Hrange. destruct (decide (start = 2 ^ 64 - 1)) as [->|]; [done|]. rewrite wrap_u_small by lia. lia. }
  induction fuel as [|fuel IH]; intros x Hx Hnone Hfuel; [lia|]. cbn [case_tick]. rewrite bind_gets, (rg_tick _ _ Hx), Z.eqb_refl.
  cbn [andb]. destruct (Z.ltb_spec (rn_operations x) max_operations) as [Hlt|Hge]; cbn [negb].
  2: { exists x. split_and!; [done| |lia]. split; [by eexists|]. by right. }
  destruct (run_step x start Hrelease Hx Hrange) as (r & x1 & Hstep & Ho1 & He1 & Hr). erewrite bind_run by exact Hstep.
  destruct r as [error|event].
  { eexists. split_and!; [reflexivity| |simpl; lia]. destruct Hr as [later [Hd Htk]]. split; [by exists later|done]. }
  assert (∃ n x2 now2, when (is_some event) (modify rn_count) x1 = (Ok (E:=message) (), x2) ∧ running now2 x2
    ∧ rn_error x2 = None ∧ rn_operations x2 = rn_operations x + n ∧ n ≤ 1
    ∧ ((n = 1 ∧ now2 = start) ∨ now2 = wrap_u 64 (start + 1))) as (n & x2 & now2 & Hcount & Hx2 & He2 & Ho2 & Hn & Hcase).
  { destruct event as [ev|].
    - exists 1, (rn_count x1), start. split_and!; [done|by destruct Hr|simpl; congruence|simpl; lia|lia|by left].
    - exists 0, x1, (wrap_u 64 (start + 1)). split_and!; [done|done|congruence|lia|lia|by right]. }
  erewrite bind_run by exact Hcount.
  destruct (run_pump x2 now2 Hx2) as (r & x3 & Hpump & Ho3 & He3 & Hx3). erewrite bind_run by exact Hpump.
  destruct r as [error|[]].
  { eexists. split_and!; [reflexivity| |simpl; lia]. destruct Hx3 as [Hd Htk]. split; [by exists now2|done]. }
  destruct Hcase as [[-> ->]| ->].
  - destruct (IH x3) as (y & Hy & Hend & Hops); [done|congruence|lia|]. exists y. split_and!; [done|done|lia].
  - destruct fuel as [|fuel]; [lia|]. exists x3. split_and!; [|split; [by eexists|by left]|lia]. cbn [case_tick]. rewrite bind_gets, (rg_tick _ _ Hx3).
    destruct (Z.eqb_spec (wrap_u 64 (start + 1)) start); [done|]. done.
Qed.

Lemma observe_returns now x : texts_ascii case → running now x → ∃ y, observe_tick state_to_vec thread case x = (Ok (), y) ∧ running now y.
Proof. intros Hascii Hx. destruct (returns_observe now Hascii x Hx) as ([] & y & Hrun & Hy). by exists y. Qed.

(** The loop over the ticks ends, in a running case. *)
Lemma case_ticks_returns limits (max_ticks max_operations : Z) (fuel : nat) : overflow_checks = false → texts_ascii case → max_ticks ≤ U64_MAX → ∀ late now x,
  0 ≤ now → running now x → rn_error x = None →
  (Z.to_nat (max_ticks - now) + (if (max_operations <=? rn_operations x)%Z then 0 else 1) < fuel)%nat →
  ∃ y, case_ticks state_to_vec fuel thread case limits late max_ticks max_operations x = (Ok (Some ()), y) ∧ (∃ later, running later y)
    ∧ rn_operations y ≤ Z.max max_operations (rn_operations x).
Proof.
  intros Hrelease Hascii Hmax. induction fuel as [|fuel IH]; intros late now x Hnow Hx Hnone Hfuel; [lia|]. cbn [case_ticks].
  destruct (observe_returns now x Hascii Hx) as (x1 & Hobs & Hx1). erewrite bind_run by exact Hobs. rewrite bind_gets.
  assert (rn_operations x1 = rn_operations x) as Ho1.
  { pose proof (operations_observe state_to_vec thread case x) as Hn. rewrite Hobs in Hn. exact Hn. }
  destruct (case_over max_ticks max_operations x1) eqn:Hover; [exists x1; split_and!; [done|by eexists|lia]|].
  destruct (late 0%nat).
  { eexists. split_and!; [reflexivity| |simpl; lia]. exists now. by apply running_verdicts. }
  unfold case_over in Hover. rewrite !orb_false_iff, (rg_tick _ _ Hx1) in Hover.
  destruct Hover as ((((_ & Herr) & Htk%Z.leb_gt) & Hops%Z.leb_gt) & _).
  assert (rn_error x1 = None) as Hnone1 by (by destruct (rn_error x1)).
  rewrite !bind_gets, (rg_tick _ _ Hx1).
  destruct (case_tick_returns now max_operations (tick_steps max_operations x1)) with (x:=x1) as (y & Hrun & Hend & Hle);
    [done|lia|done|done|unfold tick_steps; lia|].
  erewrite bind_run by exact Hrun. cbv beta iota. rewrite bind_gets. destruct Hend as [Hlater Hnext].
  destruct (rn_error y) as [error|] eqn:Hey; [exists y; split_and!; [done|done|lia]|]. cbn [is_some].
  destruct (Hnext eq_refl) as [Hy|[Hy Hfull]].
  - rewrite wrap_u_small in Hy by (unfold U64_MAX in Hmax; lia).
    destruct (IH (λ n, late (S n)) (now + 1) y) as (z & Hz & Hl & Ho); [lia|done|done| |exists z; split_and!; [done|done|lia]].
    destruct (max_operations <=? rn_operations y), (Z.leb_spec max_operations (rn_operations x)); lia.
  - destruct (IH (λ n, late (S n)) now y) as (z & Hz & Hl & Ho); [lia|done|done| |exists z; split_and!; [done|done|lia]]. destruct (Z.leb_spec max_operations (rn_operations y)); [|lia].
    destruct (Z.leb_spec max_operations (rn_operations x)); lia.
Qed.
End running.
#[local] Set Default Proof Using "Type".

(** ** The verdict *)

#[local] Set Default Proof Using "All".
Section verdict.
Context `{Libm} `{Build} `{LuaEngine} `{FloatDisplay}.
Context (sizes : list nat) (nn nc thread : nat) (case : TestCase).

Lemma map_outcome_returns {A B} (f : A → outcome message B) l : Forall (λ a, ∃ b, f a = Ok b) l → ∃ l', map_outcome f l = Ok l'.
Proof. induction 1 as [|a l [b Hb] _ [l' Hl]]; [by exists []|]. exists (b :: l'). cbn [map_outcome]. by rewrite Hb, Hl. Qed.

Lemma gather_returns {A} (f : A → outcome message (list Failure)) l :
  Forall (λ a, ∃ b, f a = Ok b) l → ∃ l', gather f l = Ok l'.
Proof. intros (l' & Hl)%map_outcome_returns. exists (concat l'). unfold gather. by rewrite Hl. Qed.

Definition text_of (a : Assertion) : string := match expression a with Ok text => text | _ => "<invalid>" end.

Lemma text_of_ascii a : texts_ascii case → a ∈ tc_assertions case → is_ascii (text_of a) = true.
Proof.
  intros [Ha _] Hin. rewrite Forall_forall in Ha. specialize (Ha a Hin). unfold text_of.
  destruct (expression a) as [text|e|]; [by apply Ha|done|done].
Qed.

Lemma conclude_returns now max_ticks max_operations : texts_ascii case →
  returns (running sizes nn nc now) (conclude thread case max_ticks max_operations) (λ _, running sizes nn nc now).
Proof.
  intros Hascii.
  assert (∀ f, (∀ x, running sizes nn nc now x → ∃ l, f x = Ok l) →
    returns (running sizes nn nc now) (final_failures f) (λ _, running sizes nn nc now)) as Hfinal.
  { intros f Hf x Hx. unfold final_failures. destruct (Hf x Hx) as [l ->]. eexists _, _. split; [reflexivity|]. by apply running_verdicts. }
  assert (∀ x, running sizes nn nc now x → sim_ok sizes nn nc (rn_simulator x)) as Hsim by (intros x Hx; apply Hx).
  unfold conclude. repeat (eapply returns_bind; [apply Hfinal; intros x Hx%Hsim|intros []]); try (apply Hfinal; intros x Hx%Hsim).
  - unfold runtime_outcome. by destruct (rn_error x); eexists.
  - apply gather_returns, Forall_forall. intros [i a] Hin%elem_of_zip_r. destruct (_ && _); [|by eexists].
    cbv zeta. fold (text_of a). destruct (shown_returns _ (evaluate_returns sizes nn nc thread _ _ Hx (text_of_ascii a Hascii Hin))) as [t ->].
    by eexists.
  - unfold final_assertions. destruct (_ <? _); [|by eexists]. apply gather_returns, Forall_forall.
    intros a [Hin _]%list_elem_of_In%filter_In. apply list_elem_of_In in Hin. cbv zeta. fold (text_of a).
    pose proof (text_of_ascii a Hascii Hin) as Ht.
    pose proof (assertion_matches_returns sizes nn nc thread _ a _ Hx Ht).
    destruct (assertion_matches _ _ _ _) as [[]|e|]; [by eexists| |by eexists|done].
    edestruct (assertion_failure_returns sizes nn nc thread) as [f ->]; [exact Hx|exact Ht|]. by eexists.
  - by eexists.
  - unfold snapshot_differences. destruct (tc_snapshot case) as [values|] eqn:Hsnap; [|by eexists].
    apply gather_returns, Forall_forall. intros [text expected] Hin. destruct Hascii as [_ Ha]. rewrite Hsnap in Ha.
    rewrite Forall_forall in Ha. specialize (Ha _ Hin). pose proof (evaluate_returns sizes nn nc thread _ text Hx Ha).
    by destruct (ended (evaluate _ thread text)) as [v|e|]; [eexists|eexists|].
Qed.
End verdict.
#[local] Set Default Proof Using "Type".

(** ** The start of a case *)

Section opening.
Context `{Libm} `{Build} `{LuaEngine} `{FloatDisplay}.

Lemma set_seed_ok sizes nn nc seed s : sim_ok sizes nn nc s → sim_ok sizes nn nc (set_seed seed s).2.
Proof.
  intros [Hb [Hl Hc] Hs]. constructor; [exact Hb| |exact Hs]. simpl. rewrite length_fmap. split; [done|].
  apply Forall_fmap. eapply Forall_impl; [exact Hc|]. intros c. by apply cpu_program_ok_update.
Qed.

(** What an edit of the initial state keeps. *)
Definition opened sizes nn nc (s : Simulator) : Prop := sim_ok sizes nn nc s ∧ tick s = 0 ∧ driver_state s = [].

Lemma set_value_opened sizes nn nc thread target value s : opened sizes nn nc s →
  match set_value thread target value s with (Panic, _) => False | (_, s') => opened sizes nn nc s' end.
Proof.
  intros (Hs & Ht & Hd). unfold set_value, set_value_as, mbind, M_mbind.
  pose proof (validate_no_panic sizes nn nc s thread target Hs) as Hn. pose proof (sim_world_lookups _ _ _ s Hs) as [Hw _].
  destruct (validate_assignable_target s thread target) as [place|e|] eqn:Hv; [|done|done].
  apply validate_locate in Hv as [_ [b Hb]]; [|done].
  destruct (assign_run s place value ActorScenario b Hw Hb) as (s' & -> & [Ha _]). destruct (as_clock _ _ _ _ Ha) as [Ht' Hd'].
  split_and!; [by apply (as_ok _ _ _ _ Ha)|congruence|congruence].
Qed.

Lemma overrides_opened sizes nn nc name seed thread entries : ∀ s, opened sizes nn nc s →
  match fold_outcome (override name seed thread) s entries with Ok s' => opened sizes nn nc s' | Err _ => True | Panic => False end.
Proof.
  induction entries as [|[target value] l IH]; intros s Hs; [done|]. cbn [fold_outcome].
  assert (match override name seed thread s (target, value) with Ok s' => opened sizes nn nc s' | Err _ => True | Panic => False end) as Ho.
  { unfold override. pose proof (set_value_opened sizes nn nc thread target (scalar value) s Hs) as Hset.
    by destruct (set_value thread target (scalar value) s) as [[u|e|] s1]. }
  destruct (override name seed thread s (target, value)) as [s1|e|]; [by apply IH|done..].
Qed.

Context (state_to_vec : StateEnvelope → string + list Z) (definitions_to_vec : list ScriptedDriver → string + list Z).
Context (state_from_slice : list Z → string + StateEnvelope) (read_file : string → string + string).
Context (scenario_from_json : string → string + Scenario).
Context (sidecars : string → option (list BuildMapEntry) * option string) (resolve_path : string → string → string).
Context (new_lua : string → string → string → string → World → BTreeMap string string → nat → outcome message LuaProgramRuntime).
Context (kb : KnowledgeBase).

Local Abbreviation from_path := (from_scenario_path read_file scenario_from_json sidecars resolve_path new_lua kb).
Local Abbreviation prepare :=
  (prepare_case state_to_vec definitions_to_vec state_from_slice read_file scenario_from_json sidecars resolve_path new_lua kb).

(** What the scenario of a case has to be: it does not stop the loader, and its
    programs are IC10 programs. *)
Definition loads_ic10 (path : string) : Prop :=
  from_path path ≠ Panic ∧ ∀ s, from_path path = Ok s → Forall (λ a, adapter_language a = LangIc10) (sim_schedule s).

Lemma from_path_opened path s : kb_arities kb → loads_ic10 path → from_path path = Ok s →
  ∃ sizes nn nc, opened sizes nn nc s.
Proof.
  intros Hkb [_ Hic] Hs. specialize (Hic s Hs). unfold from_scenario_path in Hs.
  apply outcome_bind_Ok in Hs as (scenario & _ & Hs).
  pose proof (loaded_simulator_ok _ _ _ _ _ _ Hkb _ Hs Hic) as Hok. eexists _, _, _. split; [exact Hok|].
  by apply loaded_simulator_fresh in Hs.
Qed.

Lemma scalar_no_panic v : scalar_as_f64 v ≠ Panic.
Proof. destruct v as [x|text]; [done|]. simpl. repeat (destruct (existsb _ _) || destruct (String.eqb _ _)); try done. apply ok_or_no_panic. Qed.

Lemma override_Err name seed thread entries : ∀ s r, fold_outcome (override name seed thread) s entries = Err r →
  ∃ text, r = invalid_case name seed text.
Proof.
  induction entries as [|[target value] l IH]; intros s r Hr; [done|]. cbn [fold_outcome] in Hr.
  destruct (override name seed thread s (target, value)) as [s1|e|] eqn:Ho; cbn [mbind outcome_mbind outcome_bind] in Hr; [by eapply IH| |done].
  injection Hr as <-. unfold override in Ho. destruct (set_value thread target (scalar value) s) as [[u|e'|] s1]; [done| |done].
  injection Ho as <-. by eexists.
Qed.

(** A case is made ready to run, or its result is known. *)
Lemma prepare_ready name case scenario seed : kb_arities kb → loads_ic10 scenario →
  match prepare name case scenario seed with
  | Ok (thread, x) =>
      (∃ sizes nn nc, running sizes nn nc 0 x) ∧ rn_error x = None ∧ rn_operations x = 0
      ∧ ve_failures (rn_verdicts x) = [] ∧ ve_satisfied (rn_verdicts x) = repeat false (length (tc_assertions case))
      ∧ Forall (λ a, ∃ text, expression a = Ok text) (tc_assertions case)
  | Err _ => True
  | Panic => False
  end.
Proof.
  intros Hkb Hload. unfold prepare_case.
  assert (validate_case_scalars case ≠ Panic) as Hscalars.
  { apply check_all_no_panic, Forall_forall. intros [l v] _.
    pose proof (scalar_no_panic v). by destruct (scalar_as_f64 v). }
  destruct (validate_case_scalars case) as [[]|e|]; [|done|done]. cbn [or_invalid map_err mbind outcome_mbind outcome_bind].
  unfold open_case. destruct (from_path scenario) as [s|error|] eqn:Hs; [|by destruct (matches_expected_error _ _ _)|by destruct Hload].
  destruct (expects KindCompile case); [done|]. cbn [mbind outcome_mbind outcome_bind].
  destruct (from_path_opened scenario s Hkb Hload Hs) as (sizes & nn & nc & Hok & Ht & Hd).
  set (s1 := (set_seed seed s).2). assert (opened sizes nn nc s1) as Hs1 by (split_and!; [by apply set_seed_ok|done|done]).
  clearbody s1. 
  assert (focus read_file scenario_from_json name case scenario seed s1 ≠ Panic) as Hf by (unfold focus; by repeat case_match).
  destruct (focus _ _ _ _ _ _ _) as [thread|e|]; [|done|done]. cbn [mbind outcome_mbind outcome_bind].
  assert (check_all (λ a, _ ← expression a; Ok ()) (tc_assertions case) ≠ Panic) as Hc.
  { apply check_all_no_panic, Forall_forall. intros a _. apply bind_no_panic; [|done]. unfold expression. by repeat case_match. }
  destruct (check_all _ _) as [[]|e|] eqn:Htexts; [|done|done]. cbn [or_invalid map_err mbind outcome_mbind outcome_bind].
  pose proof (overrides_opened sizes nn nc name seed thread (tc_initial case) s1 Hs1) as Hov.
  destruct (fold_outcome _ _ _) as [s2|e|]; [|done|done]. cbn [mbind outcome_mbind outcome_bind].
  destruct Hov as (Hok2 & Ht2 & Hd2).
  pose proof (new_no_panic definitions_to_vec state_to_vec state_from_slice sizes nn nc thread (tc_drivers case) s2 Hok2) as Hnew.
  destruct (new _ _ _ _ _ s2) as [[r|e|] s3] eqn:Hn; [|done|done].
  apply (new_runtime_ok _ _ _ sizes nn nc) in Hn as [Hr Ht3]; [|done|unfold test_driver_state; by rewrite Hd2].
  split_and!; [|done..|]; [exists sizes, nn, nc; split; [done|]|]. { unfold rn_simulator. simpl. congruence. }
  apply check_all_ok in Htexts. eapply Forall_impl; [exact Htexts|]. intros a Ha. cbv beta in Ha.
  destruct (expression a) as [text|e|]; [by eexists|done..].
Qed.

Lemma map_err_Err {A E F} (f : E → F) (o : outcome E A) e : map_err f o = Err e → ∃ e', e = f e'.
Proof. destruct o; simpl; intros [=]. eauto. Qed.

(** A case that is not run: what stopped it. *)
Lemma prepare_stopped name case scenario seed r : prepare name case scenario seed = Err r →
  (∃ text, r = failed_case name seed text None) ∨ (∃ text, r = invalid_case name seed text)
  ∨ (r = passed_case name seed ∧ ∃ kind text, matches_expected_error case kind text = true).
Proof.
  unfold prepare_case, or_invalid. destruct (map_err _ (validate_case_scalars case)) as [[]|e|] eqn:Hv; cbn [mbind outcome_mbind outcome_bind];
    [|apply map_err_Err in Hv as [? ->]; intros [= <-]; right; left; by eexists|done].
  unfold open_case. destruct (from_path scenario) as [s|error|]; [| |done].
  2: { match goal with |- context [matches_expected_error ?c ?k ?t] => destruct (matches_expected_error c k t) eqn:Hm end;
       intros [= <-]; [right; right|left; by eexists]. split; [done|by eexists _, _]. }
  destruct (expects KindCompile case); [intros [= <-]; left; by eexists|]. cbn [mbind outcome_mbind outcome_bind].
  destruct (focus _ _ _ _ _ _ _) as [thread|e|] eqn:Hf; cbn [mbind outcome_mbind outcome_bind]; [| |done].
  2: { intros [= <-]. unfold focus in Hf. repeat case_match; simplify_eq; right; left; by eexists. }
  destruct (map_err _ (check_all _ _)) as [[]|e|] eqn:Hc; cbn [mbind outcome_mbind outcome_bind];
    [|apply map_err_Err in Hc as [? ->]; intros [= <-]; right; left; by eexists|done].
  destruct (fold_outcome _ _ _) as [s2|e|] eqn:Ho; cbn [mbind outcome_mbind outcome_bind]; [| |done].
  2: { intros [= <-]. apply override_Err in Ho as [text ->]. right; left; by eexists. }
  destruct (new _ _ _ _ _ s2) as [[d|e|] s3]; [done| |done]. intros [= <-]. right; left. by eexists.
Qed.

Lemma prepare_result name case scenario seed r : prepare name case scenario seed = Err r →
  cr_name r = name ∧ cr_seed r = seed ∧ cr_operations r = 0.
Proof. by intros [[? ->]|[[? ->]|[-> _]]]%prepare_stopped. Qed.

Lemma prepare_refused name case scenario seed r : prepare name case scenario seed = Err r → tc_expect_error case = None →
  cr_status r ≠ Passed.
Proof. intros [[? ->]|[[? ->]|[-> (k & t & Hm)]]]%prepare_stopped Hn; [done..|]. unfold matches_expected_error in Hm. by rewrite Hn in Hm. Qed.
End opening.

(** ** The trace of a case *)

Section trace.
Context `{Libm} `{Build} `{LuaEngine} `{FloatDisplay}.
Context (state_to_vec : StateEnvelope → string + list Z) (thread : nat) (case : TestCase) (limits : RunLimits).
Context (max_ticks max_operations : Z).

(** The states the assertions of a case were evaluated in, in order, up to the state
    [z] in which its loop was left. *)
Inductive ran : Running → list Simulator → Running → Prop :=
  | ran_over x y :
      observe_tick state_to_vec thread case x = (Ok (), y) → case_over max_ticks max_operations y = true →
      ran x [rn_simulator y] y
  | ran_late x y :
      observe_tick state_to_vec thread case x = (Ok (), y) → case_over max_ticks max_operations y = false →
      ran x [rn_simulator y] (too_late thread limits y)
  | ran_error x y z :
      observe_tick state_to_vec thread case x = (Ok (), y) → case_over max_ticks max_operations y = false →
      case_tick state_to_vec (tick_steps max_operations y) thread (tick (rn_simulator y)) max_operations y = (Ok (Some ()), z) → rn_error z ≠ None →
      ran x [rn_simulator y] z
  | ran_tick x y z seen last :
      observe_tick state_to_vec thread case x = (Ok (), y) → case_over max_ticks max_operations y = false →
      case_tick state_to_vec (tick_steps max_operations y) thread (tick (rn_simulator y)) max_operations y = (Ok (Some ()), z) → rn_error z = None →
      ran z seen last → ran x (rn_simulator y :: seen) last.

Lemma case_ticks_ran fuel late x z :
  case_ticks state_to_vec fuel thread case limits late max_ticks max_operations x = (Ok (Some ()), z) → ∃ seen, ran x seen z.
Proof using Type.
  revert late x. induction fuel as [|fuel IH]; intros late x Hrun; [done|]. cbn [case_ticks] in Hrun.
  apply bind_Ok_inv in Hrun as ([] & y & Hobs & Hrun). rewrite bind_gets in Hrun.
  destruct (case_over max_ticks max_operations y) eqn:Hover; [injection Hrun as <-; eexists; by apply ran_over|].
  destruct (late 0%nat); [injection Hrun as <-; eexists; by apply ran_late|]. rewrite !bind_gets in Hrun.
  apply bind_Ok_inv in Hrun as ([[]|] & w & Htick & Hrun); [|done]. rewrite bind_gets in Hrun.
  destruct (rn_error w) as [e|] eqn:He; cbn [is_some] in Hrun.
  - injection Hrun as <-. eexists. eapply ran_error; [done..|congruence].
  - apply IH in Hrun as [seen Hseen]. eexists. by eapply ran_tick.
Qed.

(** An assertion holds in a state. *)
Definition holds (a : Assertion) (s : Simulator) : Prop := ∃ text, expression a = Ok text ∧ assertion_matches s thread a text = Ok true.

(** The assertion is about this state: it names no tick, or this one. *)
Definition about (a : Assertion) (s : Simulator) : Prop := ∀ t, as_at_tick a = Some t → t = tick s.

Definition deadline (a : Assertion) : Z := default (tc_max_ticks case) (as_within_ticks a).

(** The verdicts after an assertion in a state, when no failure was noted. *)
Lemma evaluate_assertion_clean s v i a v' : evaluate_assertion s thread case v (i, a) = Ok v' → ve_failures v' = [] →
  ve_failures v = [] ∧ (v' = v ∨ v' = satisfy i v) 
  ∧ (∀ text, expression a = Ok text → about a s →
      (as_eventually a ≠ None → (v' = satisfy i v ∧ holds a s) ∨ (v' = v ∧ (tick s < deadline a ∨ satisfied i v = true)))
      ∧ (as_eventually a = None → (as_always a ≠ None ∨ as_at_tick a ≠ None ∨ tick s = tc_max_ticks case) → holds a s))
  ∧ (v' = satisfy i v → v' = v ∨ (holds a s ∧ about a s)).
Proof using Type.
  unfold evaluate_assertion. intros Hrun Hclean.
  assert (∀ f, ve_failures (fail f v) ≠ []) as Hfail by (intros f; simpl; by destruct (ve_failures v)).
  destruct (expression a) as [text|e|] eqn:He; [|injection Hrun as <-; split_and!; auto; done|done].
  destruct (is_some_and _ (as_at_tick a)) eqn:Hat.
  { injection Hrun as <-. split_and!; auto. intros text' _ Habout. destruct (as_at_tick a) as [t|] eqn:Ht; [|done].
    simpl in Hat. specialize (Habout t Ht). by rewrite Habout, Z.eqb_refl in Hat. }
  assert (about a s) as Habout.
  { intros t Ht. rewrite Ht in Hat. simpl in Hat. by apply negb_false_iff, Z.eqb_eq in Hat. }
  assert (assertion_matches s thread a text = Ok true → holds a s) as Hholds by (by exists text).
  destruct (as_eventually a) as [ev|] eqn:Hev; cbn [is_some] in Hrun.
  - destruct (assertion_matches s thread a text) as [[]|e|] eqn:Hm; [| | |done].
    + injection Hrun as <-. split_and!; [done|by right| |by right; auto]. intros t [= <-] _. split; [|done]. left. auto.
    + destruct (_ && _) eqn:Hd.
      { apply outcome_bind_Ok in Hrun as (f & _ & [= <-]). by destruct (Hfail f). }
      injection Hrun as <-. split_and!; auto. intros t [= <-] _. split; [|done]. intros _. right. split; [done|].
      apply andb_false_iff in Hd as [Hd%Z.leb_gt|Hd%negb_false_iff]; auto.
    + injection Hrun as <-. by destruct (Hfail (assertion_error s thread text e)).
  - destruct (_ || _) eqn:Hcond.
    + destruct (assertion_matches s thread a text) as [[]|e|] eqn:Hm; [| | |done].
      * injection Hrun as <-. split_and!; [done|by right| |by right; auto]. intros t [= <-] _. split; [done|]. auto.
      * apply outcome_bind_Ok in Hrun as (f & _ & [= <-]). by destruct (Hfail f).
      * injection Hrun as <-. by destruct (Hfail (assertion_error s thread text e)).
    + injection Hrun as <-. split_and!; auto. intros t [= <-] _. split; [done|]. intros _ Hc. exfalso.
      rewrite !orb_false_iff, andb_false_iff, negb_false_iff in Hcond. destruct Hcond as [[Ha Ht] Hmax].
      destruct (as_at_tick a) as [t|] eqn:Hat'; cbn [is_some_and is_some] in *.
      * specialize (Habout t Hat'). subst t. by rewrite Z.eqb_refl in Ht.
      * destruct Hc as [Hc|[Hc|Hc]]; [by destruct (as_always a)|done|]. destruct Hmax as [Hmax|Hmax]; [done|].
        rewrite Hc, Z.eqb_refl in Hmax. done.
Qed.

(** What the verdict on an assertion, before and after a state, says of the state. *)
Record judged (a : Assertion) (s : Simulator) (before after : bool) : Prop := {
  ju_kept : before = true → after = true;
  ju_reason : after = true → before = true ∨ (holds a s ∧ about a s);
  ju_eventually : about a s → as_eventually a ≠ None → after = true ∨ tick s < deadline a;
  ju_now : about a s → as_eventually a = None →
    (as_always a ≠ None ∨ as_at_tick a ≠ None ∨ tick s = tc_max_ticks case) → holds a s;
}.

Lemma satisfied_satisfy i j v : satisfied j (satisfy i v) = true ↔ satisfied j v = true ∨ (i = j ∧ is_Some (ve_satisfied v !! i)).
Proof using Type.
  unfold satisfied, satisfy. cbn [ve_satisfied]. destruct (decide (i = j)) as [<-|Hne].
  - destruct (ve_satisfied v !! i) as [b|] eqn:Hi.
    + rewrite list_lookup_insert_eq by (by eapply lookup_lt_Some). naive_solver.
    + rewrite list_insert_ge by (by apply lookup_ge_None). rewrite Hi. naive_solver.
  - rewrite list_lookup_insert_ne by done. naive_solver.
Qed.

Lemma evaluate_assertions_clean s l k v v' :
  fold_outcome (evaluate_assertion s thread case) v (zip (seq k (length l)) l) = Ok v' → ve_failures v' = [] →
  Forall (λ a, ∃ text, expression a = Ok text) l →
  ve_failures v = [] ∧ length (ve_satisfied v') = length (ve_satisfied v)
  ∧ (∀ j, (j < k)%nat → satisfied j v' = satisfied j v)
  ∧ (∀ j a, l !! j = Some a → (k + j < length (ve_satisfied v))%nat → judged a s (satisfied (k + j) v) (satisfied (k + j) v')).
Proof using Type.
  revert k v. induction l as [|a l IH]; intros k v Hrun Hclean Htext; cbn [length seq zip zip_with fold_outcome] in Hrun.
  { injection Hrun as <-. by split_and!. }
  apply Forall_cons in Htext as [[text He] Htext]. apply outcome_bind_Ok in Hrun as (v1 & Ha & Hrun).
  apply IH in Hrun as (Hclean1 & Hlen & Hbelow & Hall); [|done|done].
  apply evaluate_assertion_clean in Ha as (Hcv & Hv1 & Hsays & Hwhy); [|done]. specialize (Hsays text He).
  assert (length (ve_satisfied v1) = length (ve_satisfied v)) as Hlen1.
  { destruct Hv1 as [->| ->]; [done|]. unfold satisfy. simpl. by rewrite length_insert. }
  assert (∀ j, j ≠ k → satisfied j v1 = satisfied j v) as Hother.
  { intros j Hj. destruct Hv1 as [->| ->]; [done|]. unfold satisfied, satisfy. simpl. by rewrite list_lookup_insert_ne by done. }
  split_and!; [done|lia|intros j Hj; rewrite Hbelow by lia; apply Hother; lia|].
  intros [|j] b Hj Hlt; simpl in Hj.
  - injection Hj as <-. rewrite Nat.add_0_r in *. rewrite Hbelow by lia.
    assert (is_Some (ve_satisfied v !! k)) as Hk by (by apply lookup_lt_is_Some_2).
    assert (satisfied k (satisfy k v) = true) as Hset by (apply satisfied_satisfy; by right).
    constructor.
    + intros Hb. destruct Hv1 as [->| ->]; [done|]. apply satisfied_satisfy. by left.
    + intros Hafter. destruct Hv1 as [Hv1|Hv1]; [left; by rewrite <-Hv1|]. destruct (Hwhy Hv1) as [Heq|Hh]; [left; by rewrite <-Heq|by right].
    + intros Habout Hev. destruct (Hsays Habout) as [Hs _]. destruct (Hs Hev) as [[-> _]|[-> [Hd|Hd]]]; auto.
    + intros Habout Hev Hc. destruct (Hsays Habout) as [_ Hs]. by apply Hs.
  - replace (k + S j)%nat with (S k + j)%nat in * by lia. rewrite <-Hother by lia. apply Hall; [done|lia].
Qed.

(** The verdicts of a running case do not change while its programs run. *)
Definition same_verdicts (x y : Running) : Prop := rn_verdicts y = rn_verdicts x.

#[local] Instance same_verdicts_preorder : PreOrder same_verdicts.
Proof. split; [done|]. intros a b c ? ?. unfold same_verdicts in *. congruence. Qed.

Lemma verdicts_result_of {A} (m : M Driven message A) : keeps same_verdicts (result_of m).
Proof using Type. intros x. unfold result_of. by destruct (m (rn_driven x)). Qed.

Lemma verdicts_case_tick fuel start : keeps same_verdicts (case_tick state_to_vec fuel thread start max_operations).
Proof using Type.
  induction fuel as [|fuel IH]; cbn [case_tick]; [apply keeps_ret; typeclasses eauto|].
  pose proof (@verdicts_result_of). keeps_run; try apply verdicts_result_of; by apply keeps_modify.
Qed.

Lemma observe_clean x y : observe_tick state_to_vec thread case x = (Ok (), y) → ve_failures (rn_verdicts y) = [] →
  Forall (λ a, ∃ text, expression a = Ok text) (tc_assertions case) →
  ve_failures (rn_verdicts x) = [] ∧ length (ve_satisfied (rn_verdicts y)) = length (ve_satisfied (rn_verdicts x))
  ∧ (∀ i a, tc_assertions case !! i = Some a → (i < length (ve_satisfied (rn_verdicts x)))%nat →
      judged a (rn_simulator y) (satisfied i (rn_verdicts x)) (satisfied i (rn_verdicts y))).
Proof using Type.
  intros Hrun Hclean Htexts. unfold observe_tick in Hrun. apply bind_Ok_inv in Hrun as ([] & x1 & Hst & Hrun).
  pose proof (appended_stimuli thread case x) as Hn. rewrite Hst in Hn. simpl in Hn. destruct Hn as (_ & _ & Hsat & l & Hl).
  apply bind_Ok_inv in Hrun as ([] & x2 & Hpump & Hrun).
  assert (rn_verdicts x2 = rn_verdicts x1) as Hv.
  { unfold pump_drivers in Hpump. apply bind_Ok_inv in Hpump as (r & x3 & Hr & Hpump).
    pose proof (verdicts_result_of (pump state_to_vec thread) x1) as Hk. rewrite Hr in Hk. unfold same_verdicts in Hk. simpl in Hk.
    destruct r; injection Hpump as <-; simpl; congruence. }
  unfold judge in Hrun. destruct (evaluate_assertions _ _ _ _) as [v|e|] eqn:Hj; [|done..]. injection Hrun as <-.
  cbn [rn_verdicts rn_set_verdicts] in *. change (rn_simulator (rn_set_verdicts v x2)) with (rn_simulator x2).
  unfold evaluate_assertions, enumerate in Hj. apply evaluate_assertions_clean in Hj as (Hc & Hl2 & _ & Hall); [|done|done].
  rewrite Hv in *. rewrite Hsat in Hl2. split_and!.
  - rewrite Hl in Hc. by apply app_eq_nil in Hc as [? _].
  - congruence.
  - intros i a Hi Hlt. specialize (Hall i a Hi). simpl in Hall. unfold satisfied in *. rewrite Hsat in Hall. by apply Hall.
Qed.

(** What a clean trace from [x] at [now] to [z] says of its states. *)
Record met (now : Z) (x : Running) (seen : list Simulator) (z : Running) : Prop := {
  mt_last : last seen = Some (rn_simulator z);
  mt_over : case_over max_ticks max_operations z = true;
  mt_ticks t : now ≤ t ≤ tick (rn_simulator z) → ∃ s, s ∈ seen ∧ tick s = t;
  mt_now a s : a ∈ tc_assertions case → s ∈ seen → about a s → as_eventually a = None →
    (as_always a ≠ None ∨ as_at_tick a ≠ None ∨ tick s = tc_max_ticks case) → holds a s;
  mt_eventually i a : tc_assertions case !! i = Some a → as_eventually a ≠ None →
    satisfied i (rn_verdicts z) = true → satisfied i (rn_verdicts x) = false →
    ∃ s, s ∈ seen ∧ holds a s ∧ about a s ∧ (as_at_tick a = None → now ≤ deadline a → tick s ≤ deadline a);
}.
End trace.

Section met.
Context `{Libm} `{Build} `{LuaEngine} `{FloatDisplay}.
Context (state_to_vec : StateEnvelope → string + list Z) (thread : nat) (case : TestCase) (limits : RunLimits).
Context (max_ticks max_operations : Z) (sizes : list nat) (nn nc : nat).

Lemma fail_not_clean f v : ve_failures (fail f v) ≠ [].
Proof. simpl. by destruct (ve_failures v). Qed.

Lemma ran_clean x seen z : Forall (λ a, ∃ text, expression a = Ok text) (tc_assertions case) →
  ran state_to_vec thread case limits max_ticks max_operations x seen z → ve_failures (rn_verdicts z) = [] →
  ve_failures (rn_verdicts x) = [].
Proof using Type.
  intros Htexts. induction 1 as [x y Hobs _|x y Hobs _|x y z Hobs _ Htick _|x y z seen last Hobs _ Htick _ _ IH]; intros Hclean.
  - by eapply observe_clean.
  - by destruct (fail_not_clean _ _ Hclean).
  - eapply observe_clean; [done| |done]. pose proof (verdicts_case_tick state_to_vec thread max_operations
      (tick_steps max_operations y) (tick (rn_simulator y)) y) as Hv. rewrite Htick in Hv. unfold same_verdicts in Hv. simpl in Hv. congruence.
  - eapply observe_clean; [done| |done]. pose proof (verdicts_case_tick state_to_vec thread max_operations
      (tick_steps max_operations y) (tick (rn_simulator y)) y) as Hv. rewrite Htick in Hv. unfold same_verdicts in Hv. simpl in Hv.
    rewrite <-Hv. by apply IH.
Qed.

Lemma ran_met x seen z : overflow_checks = false → texts_ascii case → max_ticks ≤ U64_MAX →
  Forall (λ a, ∃ text, expression a = Ok text) (tc_assertions case) →
  ran state_to_vec thread case limits max_ticks max_operations x seen z →
  ∀ now, 0 ≤ now → running sizes nn nc now x → ve_failures (rn_verdicts z) = [] → rn_error z = None →
  length (ve_satisfied (rn_verdicts x)) = length (tc_assertions case) →
  met thread case max_ticks max_operations now x seen z ∧ ∃ later, running sizes nn nc later z.
Proof using Type.
  intros Hrelease Hascii Hmax Htexts Hran.
  induction Hran as [x y Hobs Hover|x y Hobs Hover|x y z Hobs Hover Htick Herr|x y z seen last Hobs Hover Htick Herr Hran IH];
    intros now Hnow Hx Hclean Hnone Hlen.
  2: { by destruct (fail_not_clean _ _ Hclean). }
  2: { done. }
  - destruct (observe_returns state_to_vec sizes nn nc thread case now x Hascii Hx) as (y' & Hobs' & Hy).
    assert (y' = y) as -> by congruence. split; [|by eexists].
    apply observe_clean in Hobs as (_ & _ & Hj); [|done..].
    assert (∀ i a, tc_assertions case !! i = Some a → (i < length (ve_satisfied (rn_verdicts x)))%nat) as Hin
      by (intros i a Hi; rewrite Hlen; by eapply lookup_lt_Some).
    constructor; [done|done| | |].
    + intros t Ht. rewrite (rg_tick _ _ _ _ _ Hy) in Ht. exists (rn_simulator y). split; [left|]. rewrite (rg_tick _ _ _ _ _ Hy). lia.
    + intros a s (i & Hi)%list_elem_of_lookup ->%list_elem_of_singleton. apply (ju_now _ _ _ _ _ _ (Hj i a Hi (Hin i a Hi))).
    + intros i a Hi Hev Hz Hx0. exists (rn_simulator y). destruct (ju_reason _ _ _ _ _ _ (Hj i a Hi (Hin i a Hi)) Hz) as [Hb|[Hh Ha]]; [congruence|].
      split_and!; [left|done|done|]. intros _. by rewrite (rg_tick _ _ _ _ _ Hy).
  - destruct (observe_returns state_to_vec sizes nn nc thread case now x Hascii Hx) as (y' & Hobs' & Hy).
    assert (y' = y) as -> by congruence.
    unfold case_over in Hover. rewrite !orb_false_iff, (rg_tick _ _ _ _ _ Hy) in Hover.
    destruct Hover as ((((_ & Herry) & Htk%Z.leb_gt) & Hops%Z.leb_gt) & _).
    rewrite (rg_tick _ _ _ _ _ Hy) in Htick.
    destruct (case_tick_returns state_to_vec sizes nn nc thread case now max_operations (tick_steps max_operations y)) with (x:=y)
      as (z' & Hz' & [_ Hend] & _); [done|lia|done|by destruct (rn_error y)|unfold tick_steps; lia|].
    assert (z' = z) as -> by congruence. specialize (Hend Herr).
    assert (∃ now', now ≤ now' ≤ now + 1 ∧ running sizes nn nc now' z) as (now' & Hnow' & Hz).
    { destruct Hend as [Hend|[Hend _]]; [|by exists now; split; [lia|]].
      rewrite wrap_u_small in Hend by (unfold U64_MAX in Hmax; lia). exists (now + 1). split; [lia|done]. }
    pose proof (verdicts_case_tick state_to_vec thread max_operations (tick_steps max_operations y) now y) as Hv. rewrite Htick in Hv.
    unfold same_verdicts in Hv. simpl in Hv.
    assert (ve_failures (rn_verdicts y) = []) as Hcleany by (rewrite <-Hv; by eapply ran_clean).
    apply observe_clean in Hobs as (_ & Hsame & Hj); [|done..].
    destruct (IH now') as [Hmet Hlater]; [lia|done|done|done|rewrite Hv; congruence|]. split; [|done].
    assert (∀ i a, tc_assertions case !! i = Some a → (i < length (ve_satisfied (rn_verdicts x)))%nat) as Hin
      by (intros i a Hi; rewrite Hlen; by eapply lookup_lt_Some). destruct Hmet as [Hl Ho Ht Hn He]. constructor; [by rewrite last_cons, Hl|done| | |].
    + intros t Hrange. destruct (decide (t = now)) as [->|Hne].
      * exists (rn_simulator y). split; [left|apply Hy].
      * destruct (Ht t) as (s & Hs & Hst); [lia|]. exists s. split; [by right|done].
    + intros a s Ha [->|Hs]%elem_of_cons; [|by apply Hn]. apply list_elem_of_lookup in Ha as (i & Hi).
      apply (ju_now _ _ _ _ _ _ (Hj i a Hi (Hin i a Hi))).
    + intros i a Hi Hev Hsz Hsx. specialize (Hj i a Hi (Hin i a Hi)). rewrite <-Hv in Hj.
      destruct (satisfied i (rn_verdicts z)) eqn:Hsat.
      * destruct (ju_reason _ _ _ _ _ _ Hj eq_refl) as [Hb|[Hh Ha]]; [congruence|]. exists (rn_simulator y).
        split_and!; [left|done|done|]. intros _. by rewrite (rg_tick _ _ _ _ _ Hy).
      * destruct (He i a Hi Hev Hsz Hsat) as (s & Hs & Hh & Ha & Hd). exists s. split_and!; [by right|done|done|].
        intros Hat Hle. apply Hd; [done|]. destruct (ju_eventually _ _ _ _ _ _ Hj) as [Hb|Hlt]; [|done|congruence|].
        { intros t Hs'. congruence. } rewrite (rg_tick _ _ _ _ _ Hy) in Hlt. lia.
Qed.
End met.

(** ** A case that passed *)

Section passed.
Context `{Libm} `{Build} `{LuaEngine} `{FloatDisplay}.
Context (thread : nat) (case : TestCase) (max_ticks max_operations : Z).

Lemma final_failures_clean f x y : final_failures f x = (Ok (), y) → ve_failures (rn_verdicts y) = [] →
  y = x ∧ f x = Ok [].
Proof using Type.
  unfold final_failures. destruct (f x) as [l|e|]; [|done..]. intros [= <-] Hclean. simpl in Hclean.
  apply app_eq_nil in Hclean as [Hx ->]. split; [|done]. destruct x as [d o [sat fs] e]. simpl in *. by rewrite Hx.
Qed.

Lemma final_failures_grow f x y : final_failures f x = (Ok (), y) → ve_failures (rn_verdicts y) = [] → ve_failures (rn_verdicts x) = [].
Proof using Type. intros Hrun Hclean. by destruct (final_failures_clean f x y Hrun Hclean) as [-> _]. Qed.

(** A conclusion without a failure: nothing was found wrong, and nothing changed. *)
Lemma conclude_clean x y : conclude thread case max_ticks max_operations x = (Ok (), y) → ve_failures (rn_verdicts y) = [] →
  y = x ∧ runtime_outcome thread case x = Ok [] ∧ unsatisfied thread case x = Ok [] ∧ final_assertions thread case max_ticks x = Ok []
  ∧ operation_limit thread max_operations x = Ok [] ∧ snapshot_differences thread case x = Ok [].
Proof using Type.
  intros Hrun Hclean. unfold conclude in Hrun.
  apply bind_Ok_inv in Hrun as ([] & x1 & Hr1 & Hrun). apply bind_Ok_inv in Hrun as ([] & x2 & Hr2 & Hrun).
  apply bind_Ok_inv in Hrun as ([] & x3 & Hr3 & Hrun). apply bind_Ok_inv in Hrun as ([] & x4 & Hr4 & Hr5).
  apply final_failures_clean in Hr5 as [-> Hr5]; [|done]. apply final_failures_clean in Hr4 as [-> Hr4]; [|done].
  apply final_failures_clean in Hr3 as [-> Hr3]; [|done]. apply final_failures_clean in Hr2 as [-> Hr2]; [|done].
  apply final_failures_clean in Hr1 as [-> Hr1]; [|done]. by split_and!.
Qed.

Lemma gather_nothing {A} (f : A → outcome message (list Failure)) l : gather f l = Ok [] → Forall (λ a, f a = Ok []) l.
Proof using Type.
  unfold gather. intros (found & Hf & Hc)%outcome_bind_Ok. injection Hc as Hc. apply map_outcome_elem in Hf.
  induction Hf as [|a b l found Ha _ IH]; [done|]. simpl in Hc. apply app_eq_nil in Hc as [-> Hc]. constructor; [done|by apply IH].
Qed.

(** What a passed case shows: the states [seen] before each tick, the last of them
    [final], and which assertions held where. *)
Record case_met (seen : list Simulator) (final : Simulator) : Prop := {
  cm_last : last seen = Some final;
  cm_ticks t : 0 ≤ t ≤ tick final → ∃ s, s ∈ seen ∧ tick s = t;
  cm_always a s : a ∈ tc_assertions case → as_always a ≠ None → s ∈ seen → about a s → holds thread a s;
  cm_at_tick a t s : a ∈ tc_assertions case → as_at_tick a = Some t → as_eventually a = None → s ∈ seen → tick s = t →
    holds thread a s;
  cm_eventually a : a ∈ tc_assertions case → as_eventually a ≠ None →
    ∃ s, s ∈ seen ∧ holds thread a s ∧ about a s ∧ (as_at_tick a = None → tick s ≤ deadline case a);
  cm_final a : a ∈ tc_assertions case → as_expression a ≠ None → as_at_tick a = None →
    tick final < max_ticks ∨ tick final = tc_max_ticks case → holds thread a final;
  cm_snapshot text expected : (text, expected) ∈ default [] (tc_snapshot case) →
    ∃ value, evaluate final thread text = Some (Ok value) ∧ equal_expected value expected None = true;
  cm_over : max_ticks ≤ tick final ∨ is_finished final = true;
}.

Lemma expression_exclusive a text : expression a = Ok text →
  (as_expression a ≠ None → as_eventually a = None ∧ as_always a = None) ∧ (as_always a ≠ None → as_eventually a = None).
Proof using Type.
  unfold expression. destruct (as_expression a), (as_eventually a), (as_always a); simpl; try done.
Qed.

Lemma clean_case_met x seen z sizes nn nc :
  running sizes nn nc 0 x → rn_error x = None →
  met thread case max_ticks max_operations 0 x seen z →
  Forall (λ a, ∃ text, expression a = Ok text) (tc_assertions case) →
  (∀ i, satisfied i (rn_verdicts x) = false) → (∀ a, a ∈ tc_assertions case → 0 ≤ deadline case a) →
  rn_error z = None → ve_failures (rn_verdicts z) = [] →
  unsatisfied thread case z = Ok [] → final_assertions thread case max_ticks z = Ok [] →
  operation_limit thread max_operations z = Ok [] → snapshot_differences thread case z = Ok [] →
  case_met seen (rn_simulator z).
Proof using Type.
  intros Hx Hex [Hlast Hover Hticks Hnow Hev] Htexts Hfresh Hdead Herr Hclean Hun Hfin Hop Hsnap. constructor; [done|done| | | | | |].
  - intros a s Ha Hal Hs Habout. apply (Hnow a s); try done; [|by left].
    rewrite Forall_forall in Htexts. destruct (Htexts a Ha) as [text Ht]. by apply (expression_exclusive a text).
  - intros a t s Ha Hat Hevn Hs Ht. apply (Hnow a s); try done; [|right; left; by rewrite Hat]. intros t' Ht'. congruence.
  - intros a Ha Hevn. apply list_elem_of_lookup in Ha as Hi. destruct Hi as [i Hi].
    destruct (Hev i a Hi Hevn) as (s & Hs & Hh & Hab & Hd); [|apply Hfresh|].
    { apply gather_nothing in Hun. rewrite Forall_forall in Hun. 
      assert ((i, a) ∈ enumerate (tc_assertions case)) as Hmem.
      { apply list_elem_of_lookup. exists i. by rewrite lookup_enumerate, Hi. }
      specialize (Hun _ Hmem). cbv beta iota in Hun. destruct (satisfied i (rn_verdicts z)) eqn:Hsat; [done|]. 
      destruct (as_eventually a); [|done]. cbn [is_some negb andb] in Hun. apply outcome_bind_Ok in Hun as (? & _ & [=]). }
    exists s. split_and!; [done..|]. intros Hat. apply Hd; [done|]. by apply Hdead.
  - intros a Ha Hexp Hat Hcase. rewrite Forall_forall in Htexts. destruct (Htexts a Ha) as [text Ht].
    destruct (expression_exclusive a text Ht) as [Hexcl _]. destruct (Hexcl Hexp) as [Hevn Hal].
    destruct (decide (tick (rn_simulator z) = tc_max_ticks case)) as [Heq|Hne].
    + apply (Hnow a (rn_simulator z)); try done; [by eapply last_Some_elem_of|intros t Ht'; congruence|by right; right].
    + destruct Hcase as [Hlt|]; [|done]. unfold final_assertions in Hfin. destruct (Z.ltb_spec (tick (rn_simulator z)) max_ticks); [|lia].
      apply gather_nothing in Hfin. rewrite Forall_forall in Hfin. specialize (Hfin a).
      match type of Hfin with ?P → _ => assert P as Hmem end.
      { apply list_elem_of_In, filter_In. split; [by apply list_elem_of_In|]. rewrite Hat, Hevn, Hal. by destruct (as_expression a). }
      specialize (Hfin Hmem).
      cbv beta zeta in Hfin. rewrite Ht in Hfin. exists text. split; [done|].
      destruct (assertion_matches _ _ _ _) as [[]|e|]; [done| |done|done]. apply outcome_bind_Ok in Hfin as (? & _ & [=]).
  - intros text expected Hin. unfold snapshot_differences in Hsnap. destruct (tc_snapshot case) as [values|]; [|by apply elem_of_nil in Hin].
    simpl in Hin. apply gather_nothing in Hsnap. rewrite Forall_forall in Hsnap. specialize (Hsnap _ Hin). cbv beta iota in Hsnap.
    destruct (evaluate (rn_simulator z) thread text) as [[value|e|]|]; cbn [ended] in Hsnap; [|done..].
    exists value. split; [done|]. by destruct (equal_expected value expected None).
  - unfold case_over in Hover. rewrite Hclean, Herr in Hover. cbn [is_some negb orb] in Hover.
    unfold operation_limit in Hop. destruct (Z.leb_spec max_ticks (tick (rn_simulator z))); [by left|right]. cbn [orb] in Hover.
    destruct (max_operations <=? rn_operations z); cbn [orb andb] in Hover, Hop; [by destruct (is_finished _)|].
    by apply andb_true_iff in Hover as [? _].
Qed.
End passed.

(** ** A case ends *)

Lemma case_ends `{Libm} `{Build} `{LuaEngine} `{FloatDisplay} (state_to_vec : StateEnvelope → string + list Z)
    (definitions_to_vec : list ScriptedDriver → string + list Z) (state_from_slice : list Z → string + StateEnvelope)
    (read_file : string → string + string) (scenario_from_json : string → string + Scenario)
    (sidecars : string → option (list BuildMapEntry) * option string) (resolve_path : string → string → string)
    (new_lua : string → string → string → string → World → BTreeMap string string → nat → outcome message LuaProgramRuntime)
    (kb : KnowledgeBase) (name : string) (case : TestCase) (scenario : string) (seed : Z) (limits : RunLimits) (late : nat → bool) :
  overflow_checks = false → kb_arities kb → texts_ascii case → tc_max_ticks case ≤ U64_MAX →
  loads_ic10 read_file scenario_from_json sidecars resolve_path new_lua kb scenario →
  ∃ r, run_scenario_case state_to_vec definitions_to_vec state_from_slice read_file scenario_from_json sidecars resolve_path
         new_lua kb name case scenario seed limits late = Some (Ok r)
    ∧ cr_name r = name ∧ cr_seed r = seed
    ∧ cr_operations r ≤ Z.max 0 (Z.min (tc_max_operations case) (rl_max_operations limits)).
Proof.
  intros Hrelease Hkb Hascii Hmax Hload. unfold run_scenario_case.
  pose proof (prepare_ready state_to_vec definitions_to_vec state_from_slice read_file scenario_from_json sidecars resolve_path
    new_lua kb name case scenario seed Hkb Hload) as Hready.
  pose proof (prepare_result state_to_vec definitions_to_vec state_from_slice read_file scenario_from_json sidecars resolve_path
    new_lua kb name case scenario seed) as Hresult.
  destruct (prepare_case _ _ _ _ _ _ _ _ _ _ _ _ _) as [[thread x]|r|]; [|destruct (Hresult r eq_refl) as (Hn & Hs & Ho); exists r; split_and!; [done..|rewrite Ho; lia]|done].
  destruct Hready as ((sizes & nn & nc & Hx) & Hnone & Hops & _). unfold run_prepared, effective.
  set (max_ticks := Z.min _ _). set (max_operations := Z.min _ (rl_max_operations _)).
  destruct (case_ticks_returns state_to_vec sizes nn nc thread case limits max_ticks max_operations (case_fuel max_ticks x))
    with (late:=late) (now:=0) (x:=x) as (y & Hrun & [later Hy] & Hle); [done|done|lia|done|done|done| |].
  { unfold case_fuel. rewrite (rg_tick _ _ _ _ _ Hx). destruct (max_operations <=? rn_operations x)%Z; clear; lia. }
  erewrite bind_run by exact Hrun. cbv beta iota.
  destruct (conclude_returns sizes nn nc thread case later max_ticks max_operations Hascii y Hy) as ([] & z & Hz & _).
  erewrite bind_run by exact Hz. eexists. split_and!; [reflexivity..|]. simpl.
  pose proof (operations_conclude thread case max_ticks max_operations y) as Ho. rewrite Hz in Ho. unfold same_operations in Ho. simpl in Ho. lia.
Qed.

(** ** The theorems *)

(** C11.  A case always comes to a verdict: a case of ASCII expressions whose scenario
    loads IC10 programs ends, whatever its programs, its stimuli and its drivers do and
    however the clock runs, within the fuel of its limits and without a panic, and
    counts no more operations than its limits allow. *)
Theorem scenario_case_ends `{Libm} `{Build} `{LuaEngine} `{FloatDisplay} (state_to_vec : StateEnvelope → string + list Z)
    (definitions_to_vec : list ScriptedDriver → string + list Z) (state_from_slice : list Z → string + StateEnvelope)
    (read_file : string → string + string) (scenario_from_json : string → string + Scenario)
    (sidecars : string → option (list BuildMapEntry) * option string) (resolve_path : string → string → string)
    (new_lua : string → string → string → string → World → BTreeMap string string → nat → outcome message LuaProgramRuntime)
    (kb : KnowledgeBase) (name : string) (case : TestCase) (scenario : string) (seed : Z) (limits : RunLimits) (late : nat → bool) :
  overflow_checks = false → kb_arities kb → texts_ascii case → tc_max_ticks case ≤ U64_MAX →
  loads_ic10 read_file scenario_from_json sidecars resolve_path new_lua kb scenario →
  ∃ r, run_scenario_case state_to_vec definitions_to_vec state_from_slice read_file scenario_from_json sidecars resolve_path
         new_lua kb name case scenario seed limits late = Some (Ok r)
    ∧ cr_operations r ≤ Z.max 0 (Z.min (tc_max_operations case) (rl_max_operations limits)).
Proof.
  intros Hrelease Hkb Hascii Hmax Hload.
  destruct (case_ends state_to_vec definitions_to_vec state_from_slice read_file scenario_from_json sidecars resolve_path new_lua
    kb name case scenario seed limits late Hrelease Hkb Hascii Hmax Hload) as (r & Hr & _ & _ & Ho). by exists r.
Qed.


(** ** Examples *)

#[local] Existing Instances sample_libm release_build sample_engine sample_display.

Definition blink_files (path : string) : string + string := if String.eqb path "main.ic10" then inr blink_source else inr "{}".

(** The run of a case of the blinking lamp; the clock passes its limit at no test. *)
Definition run_blink (case : TestCase) (limits : RunLimits) : steps CaseResult :=
  run_scenario_case sample_to_vec (λ _, inr []) sample_from_slice blink_files (λ _, inr blink_scenario) (λ _, (None, None))
    (λ _ path, path) (λ _ _ _ _ _ _ _, Err []) embedded_kb "blinks" case "blink.icsim" 7 limits (λ _, false).

Definition lamp_on : string := "device(" +:+ (DQUOTE +:+ ("a" +:+ (DQUOTE +:+ ").On"))).

Definition assertion_of (plain eventually always : option string) (at_tick within : option Z) : Assertion :=
  {| as_expression := plain; as_eventually := eventually; as_always := always; as_at_tick := at_tick; as_within_ticks := within;
     as_expected := None; as_tolerance := None |}.

Definition blink_case (assertions : list Assertion) (snapshot : list (string * Scalar)) : TestCase :=
  {| tc_name := "blinks"; tc_max_ticks := 3; tc_max_operations := 128; tc_program := None; tc_execution := None; tc_initial := [];
     tc_timeline := [{| tl_tick := 1; tl_set := [("r5", SNumber f_one)]; tl_events := [] |}]; tc_drivers := [];
     tc_assertions := assertions; tc_expect_error := None; tc_parameters := []; tc_snapshot := Some snapshot |}.

Definition blink_assertions : list Assertion :=
  [assertion_of None None (Some (lamp_on +:+ " <= 1")) None None; assertion_of None (Some (lamp_on +:+ " == 1")) None None (Some 2);
   assertion_of (Some "r5 == 1") None None (Some 1) None; assertion_of (Some (lamp_on +:+ " == 1")) None None None None].

Definition blink_test : TestCase := blink_case blink_assertions [(lamp_on, SNumber f_one)].

Lemma blink_texts : texts_ascii blink_test.
Proof. split; repeat apply Forall_cons_2; try apply Forall_nil_2; try (intros text [= <-]); vm_compute; reflexivity. Qed.

Lemma blink_loads :
  loads_ic10 blink_files (λ _, inr blink_scenario) (λ _, (None, None)) (λ _ path, path) (λ _ _ _ _ _ _ _, Err []) embedded_kb
    "blink.icsim".
Proof.
  unfold loads_ic10, from_scenario_path. cbn [load_scenario blink_files String.eqb map_err mbind outcome_mbind outcome_bind].
  split; [vm_compute; discriminate|]. intros s (_ & _ & _ & Hp)%loaded_simulator_start.
  assert (plan blink_scenario = Ok [AdIc10 0]) as Hplan by (vm_compute; reflexivity).
  rewrite Hplan in Hp. injection Hp as <-. by repeat constructor.
Qed.

Lemma scenario_case_ends_witness :
  ∃ r, run_blink blink_test run_limits_default = Some (Ok r) ∧ cr_operations r ≤ 128.
Proof.
  exact (scenario_case_ends sample_to_vec (λ _, inr []) sample_from_slice blink_files (λ _, inr blink_scenario) (λ _, (None, None))
    (λ _ path, path) (λ _ _ _ _ _ _ _, Err []) embedded_kb "blinks" blink_test "blink.icsim" 7 run_limits_default (λ _, false)
    eq_refl embedded_arities blink_texts ltac:(vm_compute; discriminate) blink_loads).
Defined.

Definition blink_passed : CaseResult :=
  match run_blink blink_test run_limits_default with Some (Ok r) => r | _ => passed_case "" 0 end.

Lemma blink_case_runs : run_blink blink_test run_limits_default = Some (Ok blink_passed).
Proof. vm_compute. reflexivity. Qed.

Lemma blink_passes : cr_status blink_passed = Passed.
Proof. vm_compute. reflexivity. Qed.

Lemma blink_deadlines a : a ∈ tc_assertions blink_test → 0 ≤ deadline blink_test a.
Proof.
  intros Ha. repeat (apply elem_of_cons in Ha as [->|Ha]; [vm_compute; discriminate|]). by apply elem_of_nil in Ha.
Qed.


(** A plain expression that is false, in a case cut short by the limits of the run, and
    an assertion about a tick the programs never reach: neither is evaluated. *)
Example assertions_never_evaluated :
  cr_status <$> match run_blink (blink_case [assertion_of (Some "0") None None None None] [])
    {| rl_max_ticks := 1; rl_max_operations := 128; rl_wall_time := 1 |} with Some (Ok r) => Some r | _ => None end = Some Passed
  ∧ cr_status <$> match run_blink (blink_case [assertion_of (Some "0") None None None None] []) run_limits_default with
    Some (Ok r) => Some r | _ => None end = Some Failed.
Proof. split; vm_compute; reflexivity. Qed.
