(* ===== verification/TestRun.v ===== *)
(** * Runs of test files

    [crates/ic10-runner/src/runner.rs]: test files are discovered below the paths of a
    request, their cases expanded by their parameters and run, each with a seed of its
    own, and the results counted.  Directories are trees; paths, the JSON of serde and
    the runner of Lua modules are arguments. *)

From S2P Require Import Prelude BTree Text F64 Knowledge Journal Scenario World Program Compile Cpu Exec Behaviour Vm Lua.
From S2P Require Import Simulator Control Load Schema Evaluator ScriptDriver Runner.
Local Open Scope string_scope.
Local Open Scope Z_scope.

(** ** Requests *)

(** Source: [crates/ic10-runner/src/runner.rs] [RunRequest] *)
Record RunRequest := {
  rq_paths : list (list string);
  rq_name_filter : option string;
  rq_limits : RunLimits;
  rq_lua_library_paths : list string;
}.

(** Source: [crates/ic10-sim/src/lua.rs] [LuaRunLimits] *)
Record LuaRunLimits := {
  lu_max_instructions : Z;
  lu_wall_time : Z;
  lu_memory_bytes : Z;
  lu_max_output_bytes : Z;
  lu_max_modules : Z;
  lu_max_source_bytes : Z;
  lu_max_recursion_depth : Z;
}.

(** Source: [crates/ic10-sim/src/lua.rs] [LuaRunResult] *)
Record LuaRunResult := { lr_output : list string; lr_instructions : Z; lr_loaded_modules : list string }.

(** Source: [crates/ic10-sim/src/lua.rs] [LuaDiagnostic] *)
Record LuaDiagnostic := { ld_code : string; ld_message : string; ld_source_path : string; ld_line : option Z }.

(** [Display] of a [LuaDiagnostic].
    Source: [crates/ic10-sim/src/lua.rs] [LuaDiagnostic::fmt] lines 79-88 *)
Definition lua_diagnostic_text (e : LuaDiagnostic) : message :=
  ([PS (ld_code e); PS ": "; PS (ld_source_path e)]
   ++ match ld_line e with Some line => [PS ":"; PZ line] | None => [] end ++ [PS ": "; PS (ld_message e)])%list.

(** [ic10_sim::LUA_MAX_WALL_TIME], in milliseconds *)
Definition LUA_MAX_WALL_TIME : Z := 30000.

(** The operations of [std::path] on paths as texts, and [std::fs::canonicalize]. *)
Class Files := {
  path_parent : string → option string;
  path_file_name : string → option string;
  path_join : string → string → string;
  (** a component is [..] *)
  path_goes_up : string → bool;
  path_eq : string → string → bool;
  path_starts_with : string → string → bool;
  canonicalize : string → string + string;
}.

(** ** Discovery *)

(** What a path leads to: the entries of a directory, or the error of reading them. *)
Inductive FsNode :=
  | FsFile
  | FsDirectory (entries : string + list (string * FsNode))
  | FsOther (read_error : string).

(** Source: [crates/ic10-runner/src/runner.rs] [is_test_path] *)
Definition is_test_path (path : string) : bool := ends_with ".ictest" path.

Definition obsolete_text (path : string) : message :=
  [PS "obsolete workspace filename `"; PS path;
   PS "` is no longer valid; rename simulations to .icsim, tests to .ictest, and layouts to .icsimlayout"].

(** The text of a path from its components. *)
Definition path_text (path : list string) : string := join "/" path.

Definition ignored_directory (name : string) : bool := existsb (String.eqb name) [".git"; "node_modules"; "target"].

(** Lists are ordered by their first difference. *)
Fixpoint list_cmp {K} `{RustOrd K} (a b : list K) : comparison :=
  match a, b with
  | [], [] => Eq
  | [], _ => Lt
  | _, [] => Gt
  | x :: a', y :: b' => cmp_then (rcmp x y) (list_cmp a' b')
  end.

#[export] Instance list_rust_ord `{RustOrd K} : RustOrd (list K).
Proof.
  refine {| rcmp := list_cmp |}.
  - induction a as [|x a IH]; intros [|y b]; simpl; try done.
    unfold cmp_then. destruct (rcmp x y) eqn:E; [apply rcmp_eq in E as ->; rewrite IH; split; congruence|split; [done|]..].
    all: intros [= -> _]; by rewrite (proj2 (rcmp_eq y y) eq_refl) in E.
  - induction a as [|x a IH]; intros [|y b]; simpl; try done.
    rewrite (rcmp_antisym x y). destruct (rcmp x y); simpl; [apply IH|done..].
  - induction a as [|x a IH]; intros [|y b] [|z c]; simpl; try done.
    unfold cmp_then. destruct (rcmp x y) eqn:Exy; [apply rcmp_eq in Exy as <-| |done].
    + destruct (rcmp x z); [apply IH|done..].
    + intros _. destruct (rcmp y z) eqn:Eyz; [apply rcmp_eq in Eyz as <-; by rewrite Exy| |done].
      intros _. by rewrite (rcmp_trans x y z).
Defined.

Definition is_directory (node : FsNode) : bool := match node with FsDirectory _ => true | _ => false end.

(** The entries of a directory are visited by their names.
    Source: [crates/ic10-runner/src/runner.rs] [discover_path] *)
Fixpoint discover_path (node : FsNode) (path : list string) (output : BTreeMap (list string) ()) :
    outcome message (BTreeMap (list string) ()) :=
  match node with
  | FsFile =>
      if is_obsolete_workspace_path (path_text path) then Err (obsolete_text (path_text path))
      else Ok (if is_test_path (path_text path) then bt_insert path () output else output)
  | FsOther error | FsDirectory (inl error) => Err [PS "could not read "; PS (path_text path); PS ": "; PS error]
  | FsDirectory (inr entries) =>
      let visits := map (λ '(name, child), (name, (is_directory child, discover_path child (path ++ [name])%list))) entries in
      fold_outcome (λ output '(name, (directory, visit)),
        let child := path_text (path ++ [name])%list in
        if directory : bool then if ignored_directory name then Ok output else visit output
        else if is_test_path child then Ok (bt_insert (path ++ [name])%list () output)
        else if is_obsolete_workspace_path child then Err (obsolete_text child)
        else Ok output) output (bt_collect visits)
  end.

(** Source: [crates/ic10-runner/src/runner.rs] [discover] *)
Definition discover (lookup : list string → option FsNode) (paths : list (list string)) : outcome message (list (list string)) :=
  fixtures ← fold_outcome (λ output path,
    match lookup path with
    | Some node => discover_path node path output
    | None => Err [PS "path does not exist: "; PS (path_text path)]
    end) [] paths;
  Ok (bt_keys fixtures).

(** ** Parameters *)

(** [s.replace(from, to)] for a [from] that is not empty: the occurrences from the
    left that do not overlap; the fuel is the length of [s] and one. *)
Fixpoint str_replace_from (fuel : nat) (from to s : string) : string :=
  match fuel with
  | O => s
  | S fuel =>
      match strip_prefix from s, s with
      | Some rest, _ => to +:+ str_replace_from fuel from to rest
      | None, String a rest => String a (str_replace_from fuel from to rest)
      | None, "" => ""
      end
  end.

Definition str_replace (from to s : string) : string := str_replace_from (S (String.length s)) from to s.

Section parameters.
Variable json_text : Json → string.
Variable case_to_json : TestCase → option Json.
Variable case_from_json : Json → option TestCase.

(** Source: [crates/ic10-runner/src/runner.rs] [scalar_text] *)
Definition scalar_text (value : Json) : string :=
  match value with JString text => text | _ => json_text value end.

Definition marker (name : string) : string := "${" +:+ (name +:+ "}").

(** A text that is one marker becomes the value itself.
    Source: [crates/ic10-runner/src/runner.rs] [substitute] lines 353-361 *)
Fixpoint substitute_text (parameters : BTreeMap string Json) (text : string) : Json :=
  match parameters with
  | [] => JString text
  | (name, replacement) :: rest =>
      if String.eqb text (marker name) then replacement
      else substitute_text rest (str_replace (marker name) (scalar_text replacement) text)
  end.

(** Source: [crates/ic10-runner/src/runner.rs] [substitute] *)
Fixpoint substitute (parameters : BTreeMap string Json) (value : Json) : Json :=
  match value with
  | JString text => substitute_text parameters text
  | JArray values => JArray (map (substitute parameters) values)
  | JObject values => JObject (map (λ '(key, value), (key, substitute parameters value)) values)
  | _ => value
  end.

(** Source: [crates/ic10-runner/src/runner.rs] [expand_case] lines 319-346 *)
Definition expand_with (case : TestCase) (index : nat) (parameters : ParameterSet) : option (string * TestCase) :=
  value ← case_to_json case;
  let value := match value with JObject object => JObject (bt_insert "parameters" (JArray []) object) | _ => value end in
  expanded ← case_from_json (substitute (pa_values parameters) value);
  let suffix := default (join ", " ((λ '(key, value), key +:+ ("=" +:+ scalar_text value)) <$> pa_values parameters))
                  (pa_name parameters) in
  Some (str_replace "[#]" (show (Z.of_nat index)) (tc_name expanded +:+ (" [" +:+ (suffix +:+ "]"))), expanded).

(** A parameter set that does not expand is passed over.
    Source: [crates/ic10-runner/src/runner.rs] [expand_case] *)
Definition expand_case (case : TestCase) : list (string * TestCase) :=
  match tc_parameters case with
  | [] => [(tc_name case, case)]
  | parameters => omap (λ '(index, parameters), expand_with case index parameters) (enumerate parameters)
  end.

(** ** Paths of Lua tests *)

Section paths.
Context `{Files}.

(** Source: [crates/ic10-runner/src/runner.rs] [lua_workspace_root] *)
Definition lua_workspace_root (fixture_base : string) : string :=
  match path_file_name fixture_base with
  | Some name => if eq_ignore_ascii_case name "testing" then default fixture_base (path_parent fixture_base) else fixture_base
  | None => fixture_base
  end.

(** Source: [crates/ic10-runner/src/runner.rs] [resolve_lua_workspace_path] *)
Definition resolve_lua_workspace_path (workspace_root relative_base relative_path label : string) : outcome message string :=
  let parent_traversal := path_goes_up relative_path in
  let testing_convention :=
    match path_file_name relative_base with Some name => eq_ignore_ascii_case name "testing" | None => false end
    && path_eq workspace_root (default relative_base (path_parent relative_base)) in
  if negb (is_workspace_relative_path relative_path) || (parent_traversal && negb testing_convention) then
    Err [PS label; PS " must be a non-empty relative path without parent traversal unless it is under `testing`: ";
         PS relative_path]
  else
    match canonicalize workspace_root with
    | inl error => Err [PS "could not resolve Lua workspace root: "; PS error]
    | inr workspace_root =>
        let candidate := path_join relative_base relative_path in
        match canonicalize candidate with
        | inl error => Err [PS "could not resolve "; PS label; PS " "; PS candidate; PS ": "; PS error]
        | inr resolved =>
            if negb (path_starts_with resolved workspace_root)
            then Err [PS label; PS " resolves outside the Lua test workspace: "; PS resolved]
            else Ok resolved
        end
    end.
End paths.

(** ** Seeds *)

(** Source: [crates/ic10-runner/src/runner.rs] [run_file] lines 296-300 *)
Definition case_seed (seed : Z) (case_index parameter_index : nat) : Z :=
  wrap_u 64 (wrap_u 64 (wrap_u 64 (seed + Z.of_nat case_index) * 0x9E3779B9) + Z.of_nat parameter_index).

(** ** Cases *)

Section run.
Context `{Libm} `{Build} `{LuaEngine} `{FloatDisplay} `{Files}.
Variable state_to_vec : StateEnvelope → string + list Z.
Variable definitions_to_vec : list ScriptedDriver → string + list Z.
Variable state_from_slice : list Z → string + StateEnvelope.
Variable read_file : string → string + string.
Variable scenario_from_json : string → string + Scenario.
Variable test_from_json : string → string + ScenarioTest.
Variable sidecars : string → option (list BuildMapEntry) * option string.
Variable resolve_path : string → string → string.
Variable new_lua : string → string → string → string → World → BTreeMap string string → nat →
  outcome message LuaProgramRuntime.
Variable kb : KnowledgeBase.
(** [LuaModuleRunner::run], [crates/ic10-sim/src/lua.rs] over the Lua engine. *)
Variable run_module : string → list string → LuaRunLimits → LuaDiagnostic + LuaRunResult.
(** The clock of a case: whether the wall time has passed at its [n]-th test. *)
Variable late : string → nat → bool.

Definition kind_debug (kind : ErrorKind) : string := match kind with KindCompile => "Compile" | KindRuntime => "Runtime" end.

(** What a run of a Lua module says of its case.
    Source: [crates/ic10-runner/src/runner.rs] [run_explicit_case] lines 500-554 *)
Definition lua_case_result (name program_id : string) (case : TestCase) (seed : Z) (result : LuaDiagnostic + LuaRunResult) :
    CaseResult :=
  match result with
  | inr result =>
      match tc_expect_error case with
      | Some expected =>
          failed_case name seed
            [PS "expected a "; PS (kind_debug (ex_kind expected)); PS " error, but Lua module execution succeeded"] None
      | None =>
          {| cr_name := name; cr_status := Passed; cr_seed := seed; cr_ticks := 0; cr_operations := lr_instructions result;
             cr_failures := []; cr_compatibility_warnings := []; cr_captured_output := lr_output result |}
      end
  | inl error =>
      let kind := if String.eqb (ld_code error) "lua-syntax-error" then KindCompile else KindRuntime in
      if matches_expected_error case kind (lua_diagnostic_text error) then passed_case name seed
      else
        {| cr_name := name; cr_status := Failed; cr_seed := seed; cr_ticks := 0; cr_operations := 0;
           cr_failures := [{| fa_message := [PS (ld_message error)]; fa_expression := None; fa_expected := None; fa_actual := None;
                              fa_tick := None; fa_source := Some (ld_source_path error); fa_line := ld_line error;
                              fa_object := Some program_id;
                              fa_possibly_unsupported := String.eqb (ld_code error) "lua-unsupported-api" |}];
           cr_compatibility_warnings := []; cr_captured_output := [] |}
  end.

Definition is_lua (language : ProgramLanguage) : bool := match language with LangLua => true | LangIc10 => false end.

(** The entry program and the module roots of a Lua case, or the case refused; a case
    without a program does not load.
    Source: [crates/ic10-runner/src/runner.rs] [run_explicit_case] lines 425-488 *)
Definition lua_case_inputs (case : TestCase) (module_roots : list string) (scenario_path fixture_base workspace_root : string) :
    outcome message (string * string * list string) :=
  match load_scenario read_file scenario_from_json scenario_path with
  | Err error => Err ([PS "could not load scenario: "] ++ error)%list
  | Panic => Panic
  | Ok scenario =>
      program_id ← expect (tc_program case);
      match find_first (λ program, String.eqb (ps_id program) program_id) (sc_programs scenario) with
      | None => Err [PS "unknown program `"; PS program_id; PS "`"]
      | Some program =>
          if negb (is_lua (ps_language program)) then
            Err [PS "program `"; PS program_id; PS "` is not Lua and cannot use luaModule execution"]
          else
            let scenario_base := default "." (path_parent scenario_path) in
            entry_path ← resolve_lua_workspace_path workspace_root scenario_base (ps_path program) "Lua entry program";
            roots ← map_outcome (λ root, resolve_lua_workspace_path workspace_root fixture_base root "Lua module root") module_roots;
            Ok (program_id, entry_path, roots)
      end
  end.

(** Source: [crates/ic10-runner/src/runner.rs] [run_explicit_case] *)
Definition run_explicit_case (name : string) (case : TestCase) (execution : ExecutionSpec)
    (scenario_path fixture_base workspace_root : string) (lua_library_paths : list string) (seed : Z) (limits : RunLimits) :
    outcome message CaseResult :=
  match execution with
  | LuaModule _ module_roots memory_limit_bytes max_output_bytes max_modules max_source_bytes max_recursion_depth =>
      match lua_case_inputs case module_roots scenario_path fixture_base workspace_root with
      | Err error => Ok (invalid_case name seed error)
      | Panic => Panic
      | Ok (program_id, entry_path, roots) =>
          let lua_limits := {| lu_max_instructions := Z.min (tc_max_operations case) (rl_max_operations limits);
                               lu_wall_time := Z.min (rl_wall_time limits) LUA_MAX_WALL_TIME;
                               lu_memory_bytes := memory_limit_bytes; lu_max_output_bytes := max_output_bytes;
                               lu_max_modules := max_modules; lu_max_source_bytes := max_source_bytes;
                               lu_max_recursion_depth := max_recursion_depth |} in
          Ok (lua_case_result name program_id case seed
                (run_module entry_path (roots ++ lua_library_paths)%list lua_limits))
      end
  end.

(** Source: [crates/ic10-runner/src/runner.rs] [run_case] *)
Definition run_case (name : string) (case : TestCase) (scenario fixture_base : string) (seed : Z) (limits : RunLimits)
    (workspace_root : string) (lua_library_paths : list string) : steps CaseResult :=
  match tc_execution case with
  | Some execution =>
      Some (run_explicit_case name case execution scenario fixture_base workspace_root lua_library_paths seed limits)
  | None =>
      run_scenario_case state_to_vec definitions_to_vec state_from_slice read_file scenario_from_json sidecars resolve_path
        new_lua kb name case scenario seed limits (late name)
  end.

(** ** Files *)

Definition right {A B} (x : A + B) : option B := match x with inr b => Some b | inl _ => None end.
Definition left_text {B} (x : string + B) : string := match x with inl error => error | inr _ => "" end.

(** [Display] of a [TestFileError]; the errors of the file system and of serde are
    those of reading and decoding the file again.
    Source: [crates/ic10-runner/src/schema.rs] [TestFileError::fmt] lines 596-619 *)
Definition test_file_error_text (error : TestFileError) : message :=
  match error with
  | TestIo path => [PS "could not read "; PS path; PS ": "; PS (left_text (read_file path))]
  | TestJson path =>
      [PS "invalid test fixture "; PS path; PS ": ";
       PS (match read_file path with inr source => left_text (test_from_json source) | inl _ => "" end)]
  | TestVersion path found => [PS path; PS " uses unsupported schemaVersion "; PZ found; PS "; migrate to schemaVersion 1"]
  | TestValidation path text => ([PS "invalid test fixture "; PS path; PS ": "] ++ text)%list
  end.

(** [ScenarioTest::load]: see [Schema]. *)
Definition load_fixture (path : string) : outcome TestFileError ScenarioTest :=
  load (λ path, right (read_file path)) (λ source, right (test_from_json source))
    (λ path, path_parent path ≫= path_file_name) path.

(** The case of that name, with the scenario and the seed it runs with.
    Source: [crates/ic10-runner/src/runner.rs] [load_expanded_case] *)
Definition load_expanded_case (path requested_name : string) : outcome message (string * Z * TestCase) :=
  fixture ← map_err test_file_error_text (load_fixture path);
  let fixture_base := default "." (path_parent path) in
  let workspace_root := lua_workspace_root fixture_base in
  match find_map (λ '(case_index, case),
          find_map (λ '(parameter_index, (name, expanded)),
            if String.eqb name requested_name then Some (expanded, case_seed (st_seed fixture) case_index parameter_index)
            else None) (enumerate (expand_case case))) (enumerate (st_cases fixture)) with
  | Some (expanded, seed) =>
      scenario ← match tc_execution expanded with
        | Some _ => resolve_lua_workspace_path workspace_root fixture_base (st_scenario fixture) "scenario"
        | None => Ok (path_join fixture_base (st_scenario fixture))
        end;
      Ok (scenario, seed, expanded)
  | None => Err [PS path; PS " does not contain test case `"; PS requested_name; PS "`"]
  end.

(** The runs the cases of a file are expanded to, in order: a name, a case, a seed.
    Source: [crates/ic10-runner/src/runner.rs] [run_file] lines 286-301 *)
Definition requested_runs (fixture : ScenarioTest) (name_filter : option string) : list (string * TestCase * Z) :=
  concat ((λ '(case_index, case),
    omap (λ '(parameter_index, (name, case)),
      if match name_filter with Some filter => negb (str_contains filter name) | None => false end then None
      else Some (name, case, case_seed (st_seed fixture) case_index parameter_index))
      (enumerate (expand_case case))) <$> enumerate (st_cases fixture)).

Fixpoint run_each {A B} (run : A → steps B) (l : list A) : steps (list B) :=
  match l with
  | [] => Some (Ok [])
  | a :: l' =>
      match run a with
      | Some (Ok b) => match run_each run l' with Some r => Some (bs ← r; Ok (b :: bs)) | None => None end
      | Some (Err error) => Some (Err error)
      | Some Panic => Some Panic
      | None => None
      end
  end.

Definition file_error (path : string) (text : message) : FileResult :=
  {| fi_path := path; fi_scenario := None; fi_cases := []; fi_error := Some text |}.

Definition has_execution (case : TestCase) : bool := match tc_execution case with Some _ => true | None => false end.

(** The scenario of all cases of a file.
    Source: [crates/ic10-runner/src/runner.rs] [run_file] lines 269-284 *)
Definition file_scenario (path : string) (fixture : ScenarioTest) : outcome message string :=
  let base := default "." (path_parent path) in
  if existsb has_execution (st_cases fixture)
  then resolve_lua_workspace_path (lua_workspace_root base) base (st_scenario fixture) "scenario"
  else Ok (path_join base (st_scenario fixture)).

(** Source: [crates/ic10-runner/src/runner.rs] [run_file] *)
Definition run_file (path : string) (request : RunRequest) : steps FileResult :=
  match map_err test_file_error_text (load_fixture path) with
  | Err error => Some (Ok (file_error path error))
  | Panic => Some Panic
  | Ok fixture =>
      let base := default "." (path_parent path) in
      match file_scenario path fixture with
      | Err error => Some (Ok (file_error path error))
      | Panic => Some Panic
      | Ok scenario =>
          match run_each (λ '(name, case, seed),
                  run_case name case scenario base seed (rq_limits request) (lua_workspace_root base)
                    (rq_lua_library_paths request)) (requested_runs fixture (rq_name_filter request)) with
          | Some r =>
              Some (cases ← r;
                    Ok {| fi_path := path; fi_scenario := Some scenario; fi_cases := cases; fi_error := None |})
          | None => None
          end
      end
  end.

Definition has_status (status : Status) (r : CaseResult) : bool :=
  match cr_status r, status with Passed, Passed | Failed, Failed | Invalid, Invalid => true | _, _ => false end.

(** Source: [crates/ic10-runner/src/runner.rs] [run_files] lines 181-209 *)
Definition summarize (files : list FileResult) : RunSummary :=
  let count status := Z.of_nat (length (filter (has_status status) (concat (fi_cases <$> files)))) in
  {| su_files := files; su_passed := count Passed; su_failed := count Failed;
     su_invalid := Z.of_nat (length (filter (λ file, is_Some (fi_error file)) files)) + count Invalid |}.

(** Source: [crates/ic10-runner/src/runner.rs] [run_files] *)
Definition run_files (lookup : list string → option FsNode) (request : RunRequest) : steps RunSummary :=
  match discover lookup (rq_paths request) with
  | Err error => Some (Ok (summarize [file_error "" error]))
  | Panic => Some Panic
  | Ok [] => Some (Ok (summarize [file_error "" [PS "no *.ictest files found"]]))
  | Ok paths =>
      match run_each (λ path, run_file (path_text path) request) paths with
      | Some r => Some (files ← r; Ok (summarize files))
      | None => None
      end
  end.
End run.
End parameters.
