(* ===== verification/TestRunFacts.v ===== *)
(** * Runs of test files: facts

    Every run of a file is one of the runs its cases expand to: the runner gives each
    of them one result, in order, under a seed no other run of the file has, and the
    debugger reruns a case by its name with the same scenario, case and seed. *)

From S2P Require Import Prelude BTree Text F64 Knowledge Literals Journal Scenario World Program Compile Cpu Exec Isa.
From S2P Require Import Frame Behaviour Vm Lua Simulator Tick Safety Control Load Schema Evaluator EvaluatorFacts ScriptDriver.
From S2P Require Import ScriptDriverFacts Runner RunnerFacts TestRun.
Local Open Scope string_scope.
Local Open Scope Z_scope.

(** ** Seeds *)

Definition SEED_STRIDE : Z := 0x9E3779B9.

Lemma case_seed_mod seed i p : case_seed seed i p = ((seed + Z.of_nat i) * SEED_STRIDE + Z.of_nat p) mod 2 ^ 64.
Proof.
  unfold case_seed, wrap_u, SEED_STRIDE.
  by rewrite Z.mul_mod_idemp_l, Z.add_mod_idemp_l by done.
Qed.

Lemma case_seed_distinct seed i j p q :
  Z.of_nat i < 2 ^ 31 → Z.of_nat j < 2 ^ 31 → Z.of_nat p < SEED_STRIDE → Z.of_nat q < SEED_STRIDE →
  case_seed seed i p = case_seed seed j q → i = j ∧ p = q.
Proof.
  rewrite !case_seed_mod. unfold SEED_STRIDE. intros Hi Hj Hp Hq Heq.
  apply Z.cong_iff_0 in Heq. apply Z.mod_divide in Heq as [k Hk]; [|done].
  assert (k = 0) as -> by nia. nia.
Qed.

(** ** Lists without duplicates *)

Lemma NoDup_fmap_concat {A B} (f : A → B) (ls : list (list A)) :
  (∀ i l, ls !! i = Some l → NoDup (f <$> l)) →
  (∀ i j l k a b, ls !! i = Some l → ls !! j = Some k → a ∈ l → b ∈ k → f a = f b → i = j) → NoDup (f <$> concat ls).
Proof.
  induction ls as [|l ls IH]; intros Hin Hcross; simpl; [constructor|]. rewrite fmap_app. apply NoDup_app. split_and!.
  - by apply (Hin 0%nat).
  - intros x (a & -> & Ha)%list_elem_of_fmap (b & Heq & Hb)%list_elem_of_fmap.
    apply list_elem_of_In, in_concat in Hb as (k & Hk & Hb). apply list_elem_of_In, list_elem_of_lookup in Hk as [j Hj].
    by specialize (Hcross 0%nat (S j) l k a b eq_refl Hj Ha (proj2 (list_elem_of_In _ _) Hb) Heq).
  - apply IH; [intros i k Hi; by apply (Hin (S i))|]. intros i j k k' a b Hi Hj Ha Hb Heq.
    specialize (Hcross (S i) (S j) k k' a b Hi Hj Ha Hb Heq). lia.
Qed.

Lemma NoDup_fmap_omap {A B C} (f : A → option B) (g : B → C) (l : list A) :
  NoDup l → (∀ a a' b b', a ∈ l → a' ∈ l → f a = Some b → f a' = Some b' → g b = g b' → a = a') → NoDup (g <$> omap f l).
Proof.
  induction 1 as [|a l Ha _ IH]; intros Hinj; simpl; [constructor|].
  assert (NoDup (g <$> omap f l)) as Hl by (apply IH; intros ????; intros; eapply Hinj; eauto using list_elem_of_further).
  destruct (f a) as [b|] eqn:Hf; [|done]. apply NoDup_cons. split; [|done].
  intros (b' & Heq & (a' & Ha' & Hf')%list_elem_of_omap)%list_elem_of_fmap.
  by rewrite (Hinj a a' b b' (list_elem_of_here _ _) (list_elem_of_further _ _ _ Ha') Hf Hf' Heq) in Ha.
Qed.

Lemma NoDup_enumerate {A} (l : list A) : NoDup (enumerate l).
Proof.
  apply (NoDup_fmap_1 fst). unfold enumerate. rewrite fst_zip by (rewrite length_seq; done). apply NoDup_seq.
Qed.

(** ** The runs of a file *)

Section runs.
Variable json_text : Json → string.
Variable case_to_json : TestCase → option Json.
Variable case_from_json : Json → option TestCase.

Notation expand := (expand_case json_text case_to_json case_from_json).
Notation runs := (requested_runs json_text case_to_json case_from_json).

Definition wanted (filter : option string) (name : string) : bool :=
  match filter with Some filter => str_contains filter name | None => true end.

Lemma requested_runs_elem fixture filter name case seed :
  (name, case, seed) ∈ runs fixture filter ↔
  ∃ i p source, st_cases fixture !! i = Some source ∧ expand source !! p = Some (name, case)
    ∧ seed = case_seed (st_seed fixture) i p ∧ wanted filter name = true.
Proof.
  unfold requested_runs. rewrite list_elem_of_In, in_concat. setoid_rewrite <-list_elem_of_In. setoid_rewrite list_elem_of_fmap. split.
  - intros (l & ([i source] & -> & Hi) & Hin). apply list_elem_of_lookup in Hi as [i' Hi].
    rewrite lookup_enumerate in Hi. apply fmap_Some in Hi as (? & Hi & [= -> ->]).
    apply list_elem_of_omap in Hin as ([p [name' case']] & Hp & Hsome). apply list_elem_of_lookup in Hp as [p' Hp].
    rewrite lookup_enumerate in Hp. apply fmap_Some in Hp as (? & Hp & [= -> <-]).
    eexists _, _, _. unfold wanted. destruct filter as [f|]; [destruct (str_contains f name') eqn:E|]; simpl in Hsome; simplify_eq; eauto.
  - intros (i & p & source & Hi & Hp & -> & Hw). eexists. split.
    { exists (i, source). split; [reflexivity|]. apply list_elem_of_lookup. exists i. by rewrite lookup_enumerate, Hi. }
    apply list_elem_of_omap. exists (p, (name, case)). split.
    { apply list_elem_of_lookup. exists p. by rewrite lookup_enumerate, Hp. }
    unfold wanted in Hw. destruct filter as [f|]; [by rewrite Hw|done].
Qed.

(** What keeps the seeds of a file apart: the stride of the cases. *)
Definition few_runs (fixture : ScenarioTest) : Prop :=
  Z.of_nat (length (st_cases fixture)) ≤ 2 ^ 31
  ∧ ∀ source, source ∈ st_cases fixture → Z.of_nat (length (expand source)) ≤ SEED_STRIDE.

Lemma requested_runs_seeds fixture filter : few_runs fixture → NoDup ((λ r, r.2) <$> runs fixture filter).
Proof.
  intros [Hcases Hexpand].
  assert (∀ i source, enumerate (st_cases fixture) !! i = Some source →
    ∃ case, source = (i, case) ∧ Z.of_nat i < 2 ^ 31 ∧ Z.of_nat (length (expand case)) ≤ SEED_STRIDE) as Hsource.
  { intros i source Hi. rewrite lookup_enumerate in Hi. apply fmap_Some in Hi as (case & Hi & ->). exists case. split_and!; [done| |].
    - apply lookup_lt_Some in Hi. lia.
    - apply Hexpand, list_elem_of_lookup. by eexists. }
  assert (∀ case p e, (p, e) ∈ enumerate (expand case) → Z.of_nat p < Z.of_nat (length (expand case))) as Hindex.
  { intros case p e [p' Hp]%list_elem_of_lookup. rewrite lookup_enumerate in Hp. apply fmap_Some in Hp as (? & Hp & [= -> ->]).
    apply lookup_lt_Some in Hp. lia. }
  unfold requested_runs. apply NoDup_fmap_concat.
  - intros i l Hl. rewrite list_lookup_fmap in Hl. apply fmap_Some in Hl as (source & Hi & ->).
    apply Hsource in Hi as (case & -> & Hi & Hp). apply NoDup_fmap_omap; [apply NoDup_enumerate|].
    intros [p [n c]] [p' [n' c']] b b' Hin Hin' Hb Hb' Heq.
    assert (p = p') as <-.
    { apply (case_seed_distinct (st_seed fixture) i i); [done|done| | |].
      - apply Hindex in Hin. lia.
      - apply Hindex in Hin'. lia.
      - destruct filter as [f|]; [destruct (negb (str_contains f n)), (negb (str_contains f n'))|]; by simplify_eq. }
    apply list_elem_of_lookup in Hin as [a Ha], Hin' as [a' Ha']. rewrite lookup_enumerate in Ha, Ha'.
    apply fmap_Some in Ha as (? & Ha & [= -> ->]), Ha' as (? & Ha' & [= -> ->]). by simplify_eq.
  - intros i j l k a b Hl Hk Ha Hb Heq. rewrite list_lookup_fmap in Hl, Hk.
    apply fmap_Some in Hl as (source & Hi & ->), Hk as (source' & Hj & ->).
    apply Hsource in Hi as (case & -> & Hi & Hp), Hj as (case' & -> & Hj & Hq).
    apply list_elem_of_omap in Ha as ([p [n c]] & Hin & Ha), Hb as ([q [n' c']] & Hin' & Hb).
    apply Hindex in Hin, Hin'. apply (case_seed_distinct (st_seed fixture) i j p q); [lia..|].
    destruct filter as [f|]; [destruct (negb (str_contains f n)), (negb (str_contains f n'))|]; by simplify_eq.
Qed.
End runs.

(** ** Runs in sequence *)

Lemma run_each_Ok {A B} (run : A → steps B) l bs : run_each run l = Some (Ok bs) →
  Forall2 (λ a b, run a = Some (Ok b)) l bs.
Proof.
  revert bs. induction l as [|a l IH]; intros bs Hrun; simpl in Hrun; [by injection Hrun as <-|].
  destruct (run a) as [[b|e|]|] eqn:Ha; [|done..]. destruct (run_each run l) as [[bs'|e|]|]; [|done..].
  injection Hrun as <-. constructor; [done|by apply IH].
Qed.

Lemma run_each_total {A B} (run : A → steps B) (P : A → B → Prop) l :
  (∀ a, a ∈ l → ∃ b, run a = Some (Ok b) ∧ P a b) → ∃ bs, run_each run l = Some (Ok bs) ∧ Forall2 P l bs.
Proof.
  induction l as [|a l IH]; intros Hrun; simpl; [by exists []|].
  destruct (Hrun a (list_elem_of_here _ _)) as (b & -> & Hb).
  destruct IH as (bs & -> & Hbs); [intros; by apply Hrun, list_elem_of_further|]. exists (b :: bs). by split; [|constructor].
Qed.

(** ** Files *)

Section files.
Context `{Libm} `{Build} `{LuaEngine} `{FloatDisplay} `{Files}.
Context (json_text : Json → string) (case_to_json : TestCase → option Json) (case_from_json : Json → option TestCase).
Context (read_file : string → string + string) (test_from_json : string → string + ScenarioTest).

Notation loaded := (load_fixture read_file test_from_json).
Notation runs := (requested_runs json_text case_to_json case_from_json).
Notation expanded_case := (load_expanded_case json_text case_to_json case_from_json read_file test_from_json).

Definition fixture_base (path : string) : string := default "." (path_parent path).

Lemma expanded_case_listed path name scenario seed case fixture filter :
  loaded path = Ok fixture → expanded_case path name = Ok (scenario, seed, case) → wanted filter name = true →
  has_execution case = existsb has_execution (st_cases fixture) →
  (name, case, seed) ∈ runs fixture filter ∧ file_scenario path fixture = Ok scenario.
Proof.
  intros Hload Hexp Hwanted Hexec. unfold load_expanded_case in Hexp. rewrite Hload in Hexp.
  cbn [map_err mbind outcome_mbind outcome_bind] in Hexp.
  destruct (find_map _ (enumerate (st_cases fixture))) as [[c s]|] eqn:Hfind; [|done].
  apply outcome_bind_Ok in Hexp as (sc & Hsc & [= -> -> ->]).
  apply find_map_Some in Hfind as (i' & [i source] & Hi & Hfind).
  apply find_map_Some in Hfind as (p' & [p [n c]] & Hp & Hn).
  destruct (String.eqb_spec n name) as [->|]; [|done]. injection Hn as -> <-. split.
  - apply requested_runs_elem. rewrite lookup_enumerate in Hi. apply fmap_Some in Hi as (? & Hi & [= -> <-]).
    rewrite lookup_enumerate in Hp. apply fmap_Some in Hp as (? & Hp & [= -> <-]).
    eexists _, _, _. split_and!; eauto.
  - unfold file_scenario. rewrite <-Hexec. unfold has_execution. by destruct (tc_execution case).
Qed.
End files.

(** ** The theorems *)

(** C19.  A test file runs completely: a file of IC10 cases that loads, over a scenario
    that loads, has one result for each of the cases its parameters expand to and the
    request names, in the order of the file; every result bears its own name and seed,
    and no two cases of the file run with the same seed. *)
Theorem file_runs_completely `{Libm} `{Build} `{LuaEngine} `{FloatDisplay} `{Files} (json_text : Json → string)
    (case_to_json : TestCase → option Json) (case_from_json : Json → option TestCase)
    (state_to_vec : StateEnvelope → string + list Z) (definitions_to_vec : list ScriptedDriver → string + list Z)
    (state_from_slice : list Z → string + StateEnvelope) (read_file : string → string + string)
    (scenario_from_json : string → string + Scenario) (test_from_json : string → string + ScenarioTest)
    (sidecars : string → option (list BuildMapEntry) * option string) (resolve_path : string → string → string)
    (new_lua : string → string → string → string → World → BTreeMap string string → nat → outcome message LuaProgramRuntime)
    (kb : KnowledgeBase) (run_module : string → list string → LuaRunLimits → LuaDiagnostic + LuaRunResult)
    (late : string → nat → bool) (path : string) (request : RunRequest) (fixture : ScenarioTest) :
  overflow_checks = false → kb_arities kb → load_fixture read_file test_from_json path = Ok fixture →
  existsb has_execution (st_cases fixture) = false →
  few_runs json_text case_to_json case_from_json fixture →
  (∀ name case seed, (name, case, seed) ∈ requested_runs json_text case_to_json case_from_json fixture (rq_name_filter request) →
     tc_execution case = None ∧ texts_ascii case ∧ tc_max_ticks case ≤ U64_MAX) →
  loads_ic10 read_file scenario_from_json sidecars resolve_path new_lua kb (path_join (fixture_base path) (st_scenario fixture)) →
  ∃ cases,
    run_file json_text case_to_json case_from_json state_to_vec definitions_to_vec state_from_slice read_file scenario_from_json
      test_from_json sidecars resolve_path new_lua kb run_module late path request
    = Some (Ok {| fi_path := path; fi_scenario := Some (path_join (fixture_base path) (st_scenario fixture));
                  fi_cases := cases; fi_error := None |})
    ∧ (λ r, (cr_name r, cr_seed r)) <$> cases
      = (λ '(name, _, seed), (name, seed))
          <$> requested_runs json_text case_to_json case_from_json fixture (rq_name_filter request)
    ∧ NoDup (cr_seed <$> cases).
Proof.
  intros Hrelease Hkb Hload Hexec Hfew Hcases Hscenario. unfold run_file. rewrite Hload. cbn [map_err].
  unfold file_scenario. rewrite Hexec. set (runs := requested_runs _ _ _ _ _) in *.
  match goal with |- context [run_each ?f runs] =>
    destruct (run_each_total f (λ '(name, _, seed) r, cr_name r = name ∧ cr_seed r = seed) runs) as (cases & -> & Hresults) end.
  { intros [[name case] seed] Hin. apply Hcases in Hin as (Hlua & Hascii & Hmax). unfold run_case. rewrite Hlua.
    destruct (case_ends state_to_vec definitions_to_vec state_from_slice read_file scenario_from_json sidecars resolve_path new_lua
      kb name case (path_join (fixture_base path) (st_scenario fixture)) seed (rq_limits request) (late name)
      Hrelease Hkb Hascii Hmax Hscenario) as (r & Hr & Hname & Hseed & _). by exists r. }
  exists cases. split; [done|].
  assert ((λ r, (cr_name r, cr_seed r)) <$> cases = (λ '(name, _, seed), (name, seed)) <$> runs) as Heq.
  { clear -Hresults. induction Hresults as [|[[name case] seed] r l l' [Hn Hs] _ IH]; [done|]. by rewrite !fmap_cons, Hn, Hs, IH. }
  split; [exact Heq|].
  replace (cr_seed <$> cases) with ((λ r, r.2) <$> runs); [by apply requested_runs_seeds|].
  apply (f_equal (fmap snd)) in Heq. rewrite <-!list_fmap_compose in Heq. etrans; [|symmetry; exact Heq].
  apply list_fmap_ext. by intros ? [[] ].
Qed.

(** C20.  A case is debugged as it is tested: the scenario, the seed and the case the
    debugger finds under a name are those of one of the results the runner gives for
    the file, when the case runs a Lua module exactly if the file has such a case. *)
Theorem debugged_case_is_run `{Libm} `{Build} `{LuaEngine} `{FloatDisplay} `{Files} (json_text : Json → string)
    (case_to_json : TestCase → option Json) (case_from_json : Json → option TestCase)
    (state_to_vec : StateEnvelope → string + list Z) (definitions_to_vec : list ScriptedDriver → string + list Z)
    (state_from_slice : list Z → string + StateEnvelope) (read_file : string → string + string)
    (scenario_from_json : string → string + Scenario) (test_from_json : string → string + ScenarioTest)
    (sidecars : string → option (list BuildMapEntry) * option string) (resolve_path : string → string → string)
    (new_lua : string → string → string → string → World → BTreeMap string string → nat → outcome message LuaProgramRuntime)
    (kb : KnowledgeBase) (run_module : string → list string → LuaRunLimits → LuaDiagnostic + LuaRunResult)
    (late : string → nat → bool) (path : string) (request : RunRequest) (name scenario : string) (seed : Z) (case : TestCase)
    (fixture : ScenarioTest) (file : FileResult) :
  load_fixture read_file test_from_json path = Ok fixture →
  load_expanded_case json_text case_to_json case_from_json read_file test_from_json path name = Ok (scenario, seed, case) →
  has_execution case = existsb has_execution (st_cases fixture) →
  wanted (rq_name_filter request) name = true →
  run_file json_text case_to_json case_from_json state_to_vec definitions_to_vec state_from_slice read_file scenario_from_json
    test_from_json sidecars resolve_path new_lua kb run_module late path request = Some (Ok file) →
  fi_scenario file = Some scenario
  ∧ ∃ r, r ∈ fi_cases file
    ∧ run_case state_to_vec definitions_to_vec state_from_slice read_file scenario_from_json sidecars resolve_path new_lua kb
        run_module late name case scenario (fixture_base path) seed (rq_limits request)
        (lua_workspace_root (fixture_base path)) (rq_lua_library_paths request) = Some (Ok r).
Proof.
  intros Hload Hexp Hexec Hwanted Hrun.
  destruct (expanded_case_listed json_text case_to_json case_from_json read_file test_from_json path name scenario seed case
    fixture (rq_name_filter request) Hload Hexp Hwanted Hexec) as [Hin Hscenario].
  unfold run_file in Hrun. rewrite Hload in Hrun. cbn [map_err] in Hrun. rewrite Hscenario in Hrun.
  destruct (run_each _ _) as [[cases|e|]|] eqn:Hcases; [|done..]. injection Hrun as <-. split; [done|].
  apply run_each_Ok in Hcases. apply list_elem_of_lookup in Hin as [i Hi].
  destruct (Forall2_lookup_l _ _ _ _ _ Hcases Hi) as (r & Hr & Hc). exists r. split; [|exact Hc].
  apply list_elem_of_lookup. by exists i.
Qed.

(** ** Examples *)

#[local] Existing Instances sample_libm release_build sample_engine sample_display.

(** Paths of a directory of files. *)
#[local] Instance flat_files : Files := {|
  path_parent _ := Some ""; path_file_name path := Some path; path_join base path := base +:+ path; path_goes_up _ := false;
  path_eq := String.eqb; path_starts_with path base := starts_with base path; canonicalize path := inr path |}.

Definition named_case (name : string) (parameters : list ParameterSet) : TestCase :=
  {| tc_name := name; tc_max_ticks := 3; tc_max_operations := 128; tc_program := None; tc_execution := None; tc_initial := [];
     tc_timeline := tc_timeline blink_test; tc_drivers := []; tc_assertions := blink_assertions; tc_expect_error := None;
     tc_parameters := parameters; tc_snapshot := None |}.

Definition case_as_json (case : TestCase) : option Json := Some (JObject [("name", JString (tc_name case))]).

Definition json_as_case (value : Json) : option TestCase :=
  match value with
  | JObject object => match bt_get "name" object with Some (JString name) => Some (named_case name []) | _ => None end
  | _ => None
  end.

Definition number_text (value : Json) : string := match value with JNumber text => text | _ => "" end.

Definition levels : list ParameterSet :=
  [{| pa_name := None; pa_values := [("level", JNumber "1")] |}; {| pa_name := Some "high"; pa_values := [("level", JString "2")] |}].

Definition blink_fixture : ScenarioTest :=
  {| st_schema_version := 1; st_scenario := "blink.icsim"; st_seed := 7;
     st_cases := [named_case "first" []; named_case "at ${level}" levels] |}.

Definition blink_requested : list (string * TestCase * Z) :=
  requested_runs number_text case_as_json json_as_case blink_fixture None.

Example blink_run_names : (λ '(name, _, seed), (name, seed)) <$> blink_requested
  = [("first", 18581050383); ("at 1 [level=1]", 21235486152); ("at 2 [high]", 21235486153)].
Proof. vm_compute. reflexivity. Qed.

Definition blink_request : RunRequest :=
  {| rq_paths := [["blink.ictest"]]; rq_name_filter := None; rq_limits := run_limits_default; rq_lua_library_paths := [] |}.

Notation run_blink_file := (run_file number_text case_as_json json_as_case sample_to_vec (λ _, inr []) sample_from_slice blink_files
  (λ _, inr blink_scenario) (λ _, inr blink_fixture) (λ _, (None, None)) (λ _ path, path) (λ _ _ _ _ _ _ _, Err []) embedded_kb
  (λ _ _ _, inl {| ld_code := ""; ld_message := ""; ld_source_path := ""; ld_line := None |}) (λ _ _, false) "blink.ictest" blink_request).

Lemma blink_fixture_loads : load_fixture blink_files (λ _, inr blink_fixture) "blink.ictest" = Ok blink_fixture.
Proof. vm_compute. reflexivity. Qed.

Lemma blink_few : few_runs number_text case_as_json json_as_case blink_fixture.
Proof.
  split; [vm_compute; discriminate|]. intros source Hin.
  repeat (apply elem_of_cons in Hin as [->|Hin]; [vm_compute; discriminate|]). by apply elem_of_nil in Hin.
Qed.

Lemma blink_run_cases name case seed : (name, case, seed) ∈ blink_requested → ∃ name, case = named_case name [].
Proof.
  intros (i & p & source & Hi & Hp & _)%requested_runs_elem.
  destruct i as [|[|i]]; [| |done]; injection Hi as <-.
  - destruct p as [|p]; [|done]. injection Hp as _ <-. by eexists.
  - destruct p as [|[|p]]; [| |done]; injection Hp as _ <-; by eexists.
Qed.

Lemma file_runs_completely_witness :
  ∃ cases, (λ r, (cr_name r, cr_seed r)) <$> cases
    = [("first", 18581050383); ("at 1 [level=1]", 21235486152); ("at 2 [high]", 21235486153)]
    ∧ NoDup (cr_seed <$> cases).
Proof.
  destruct (file_runs_completely number_text case_as_json json_as_case sample_to_vec (λ _, inr []) sample_from_slice blink_files
    (λ _, inr blink_scenario) (λ _, inr blink_fixture) (λ _, (None, None)) (λ _ path, path) (λ _ _ _ _ _ _ _, Err []) embedded_kb
    (λ _ _ _, inl {| ld_code := ""; ld_message := ""; ld_source_path := ""; ld_line := None |}) (λ _ _, false)
    "blink.ictest" blink_request blink_fixture (eq_refl : @overflow_checks release_build = false) embedded_arities blink_fixture_loads eq_refl blink_few)
    as (cases & _ & Hnames & Hseeds).
  - intros name case seed (n & ->)%blink_run_cases. split_and!; [done|split; [exact (proj1 blink_texts)|by constructor]|done].
  - exact blink_loads.
  - exists cases. split; [|exact Hseeds]. rewrite Hnames. exact blink_run_names.
Defined.

Definition blink_file : FileResult :=
  match run_blink_file with Some (Ok file) => file | _ => file_error "" [] end.

Lemma blink_file_runs : run_blink_file = Some (Ok blink_file).
Proof. vm_compute. reflexivity. Qed.

Example blink_summary : (λ x, (su_passed x, su_failed x, su_invalid x)) (summarize [blink_file]) = (3, 0, 0).
Proof. vm_compute. reflexivity. Qed.

Lemma blink_expanded :
  load_expanded_case number_text case_as_json json_as_case blink_files (λ _, inr blink_fixture) "blink.ictest" "at 2 [high]"
  = Ok ("blink.icsim", 21235486153, named_case "at 2" []).
Proof. vm_compute. reflexivity. Qed.

Lemma debugged_case_is_run_witness : fi_scenario blink_file = Some "blink.icsim" ∧ ∃ r, r ∈ fi_cases blink_file.
Proof.
  pose proof (debugged_case_is_run number_text case_as_json json_as_case sample_to_vec (λ _, inr []) sample_from_slice blink_files
    (λ _, inr blink_scenario) (λ _, inr blink_fixture) (λ _, (None, None)) (λ _ path, path) (λ _ _ _ _ _ _ _, Err []) embedded_kb
    (λ _ _ _, inl {| ld_code := ""; ld_message := ""; ld_source_path := ""; ld_line := None |}) (λ _ _, false)
    "blink.ictest" blink_request "at 2 [high]" "blink.icsim" 21235486153 (named_case "at 2" []) blink_fixture blink_file
    blink_fixture_loads blink_expanded eq_refl eq_refl blink_file_runs) as (Hscenario & r & Hr & _).
  split; [exact Hscenario|]. exists r. exact Hr.
Defined.

(** ** Discovery *)

Definition sample_tree : FsNode :=
  FsDirectory (inr [("b.ictest", FsFile); ("target", FsDirectory (inr [("ignored.ictest", FsFile)]));
                    ("a.ictest", FsFile); ("notes.md", FsFile)]).

Example discovery_sorted :
  discover (λ path, if decide (path = ["root"]) then Some sample_tree else Some FsFile) [["root"]; ["root"; "a.ictest"]]
    = Ok [["root"; "a.ictest"]; ["root"; "b.ictest"]].
Proof. vm_compute. reflexivity. Qed.
