(* ===== verification/Replay.v ===== *)
(** * Running a computation again

    A debugger goes back to a checkpoint and runs the recorded steps again.  The state
    it runs them in is not the state they ran in first: the checkpoint does not hold
    the journal, whose table of names has grown since.  A computation replays when, in
    a state that is the same but for its journal's history and a table that already
    has the names, it has the same result, records the same effects under the same
    symbols, and ends in the same state.  Everything the scheduler runs replays. *)

From S2P Require Import Prelude BTree Text F64 Knowledge Journal Scenario World Program Cpu Exec Frame Behaviour Vm Lua Simulator.
From S2P Require Import Control.
Local Open Scope string_scope.
Local Open Scope Z_scope.

(** ** Journals *)

(** The index of a table of names: the position of each. *)
Definition index_ok (j : EffectJournal) : Prop :=
  ∀ name id, bt_get name (symbol_ids j) = Some id ↔ 0 ≤ id ∧ symbols j !! Z.to_nat id = Some name.

(** [j'] has recorded what [j] has, is numbered alike, and knows its names. *)
Record same_journal (j j' : EffectJournal) : Prop := {
  sj_enabled : enabled j' = enabled j;
  sj_pending : pending j' = pending j;
  sj_sequence : next_write_sequence j' = next_write_sequence j;
  sj_index : index_ok j;
  sj_index' : index_ok j';
  sj_bound : Z.of_nat (length (symbols j')) < 2 ^ 32;
  sj_names : symbols j `prefix_of` symbols j';
}.

Lemma same_journal_with (f : EffectJournal → EffectJournal) j j' :
  (∀ j, symbols (f j) = symbols j ∧ symbol_ids (f j) = symbol_ids j) →
  enabled (f j') = enabled (f j) → pending (f j') = pending (f j) → next_write_sequence (f j') = next_write_sequence (f j) →
  same_journal j j' → same_journal (f j) (f j').
Proof.
  intros Hf He Hp Hs [_ _ _ Hi Hi' Hb Hn]. destruct (Hf j) as [Hj Hij], (Hf j') as [Hj' Hij'].
  split; [done|done|done| | | |]; unfold index_ok in *; rewrite ?Hj, ?Hj', ?Hij, ?Hij'; done.
Qed.

Lemma same_journal_read actor target x j j' : same_journal j j' → same_journal (read actor target x j) (read actor target x j').
Proof.
  intros Hj. pose proof Hj as [He Hp Hs _ _ _ _]. unfold read. rewrite He. destruct (enabled j) eqn:E; [|done].
  split; simpl; try apply Hj; congruence.
Qed.

Lemma same_journal_push effect j j' : same_journal j j' → same_journal (push_write effect j) (push_write effect j').
Proof. intros [He Hp Hs Hi Hi' Hb Hn]. split; simpl; try done; congruence. Qed.

Lemma same_journal_write_bits actor target a b j j' : same_journal j j' →
  same_journal (write_bits actor target a b j) (write_bits actor target a b j').
Proof.
  intros Hj. unfold write_bits. rewrite (sj_enabled _ _ Hj). destruct (enabled j); [|done]. by apply same_journal_push.
Qed.

Lemma same_journal_write actor target a b j j' : same_journal j j' →
  same_journal (write actor target a b j) (write actor target a b j').
Proof. apply same_journal_write_bits. Qed.

Lemma same_journal_extend batch j j' : same_journal j j' → same_journal (extend batch j) (extend batch j').
Proof.
  intros Hj. unfold extend. rewrite (sj_enabled _ _ Hj). destruct (enabled j) eqn:E; [|done].
  match goal with |- same_journal (foldl _ ?a _) (foldl _ ?b _) => assert (same_journal a b) as Hstart end.
  { destruct Hj. split; simpl; try done; congruence. }
  clear E Hj. revert Hstart. generalize (journal_set_pending {| reads := reads (pending j) ++ reads batch; writes := writes (pending j) |} j),
    (journal_set_pending {| reads := reads (pending j') ++ reads batch; writes := writes (pending j') |} j').
  induction (writes batch) as [|w l IH]; intros a b Hab; simpl; [done|]. by apply IH, same_journal_push.
Qed.

Lemma symbols_extend batch j : symbols (extend batch j) = symbols j.
Proof.
  unfold extend. destruct (enabled j); [|done].
  match goal with |- symbols (foldl _ ?a _) = _ => change (symbols j) with (symbols a); generalize a end.
  induction (writes batch) as [|w l IH]; intros a; simpl; [done|]. by rewrite IH.
Qed.

Lemma symbols_intern name j : symbols j `prefix_of` symbols (intern name j).2.
Proof. unfold intern. destruct (bt_get name (symbol_ids j)); simpl; [done|]. by apply prefix_app_r. Qed.

Lemma index_ok_intern name j : index_ok j → Z.of_nat (length (symbols (intern name j).2)) < 2 ^ 32 → index_ok (intern name j).2.
Proof.
  intros Hi Hb. unfold intern in *. destruct (bt_get name (symbol_ids j)) as [id|] eqn:Hid; [done|]. simpl in Hb.
  rewrite length_app in Hb. simpl in Hb. intros key id. simpl. rewrite wrap_u_small by lia. rewrite bt_get_insert.
  assert (key ≠ name → (bt_get key (symbol_ids j) = Some id ↔ 0 ≤ id ∧ (symbols j ++ [name])%list !! Z.to_nat id = Some key)) as Hother.
  { intros Hne. rewrite (Hi key id). split; intros [H0 Hl]; (split; [done|]); [by apply lookup_app_l_Some|].
    apply lookup_app_Some in Hl as [?|[_ Hl]]; [done|]. apply list_lookup_singleton_Some in Hl as [_ ?]. congruence. }
  destruct (rcmp key name) eqn:Hcmp; try (apply Hother; intros ->; by rewrite (proj2 (rcmp_eq name name) eq_refl) in Hcmp).
  apply rcmp_eq in Hcmp as ->. split.
  - intros [= <-]. split; [lia|]. by rewrite Nat2Z.id, lookup_app_r, Nat.sub_diag by done.
  - intros [H0 Hl]. f_equal. destruct (decide (Z.to_nat id < length (symbols j))%nat) as [Hin|Hout].
    { rewrite lookup_app_l in Hl by done. assert (bt_get name (symbol_ids j) = Some id) by (by apply Hi). congruence. }
    apply lookup_lt_Some in Hl. rewrite length_app in Hl. simpl in Hl. lia.
Qed.

(** A name the later table knows has the symbol it was first given. *)
Lemma same_journal_intern name j j' :
  same_journal j j' → symbols (intern name j).2 `prefix_of` symbols j' →
  (intern name j').1 = (intern name j).1 ∧ same_journal (intern name j).2 (intern name j').2
  ∧ symbols (intern name j').2 = symbols j'.
Proof.
  intros Hj Hknown. pose proof Hj as [He Hp Hs Hi Hi' Hb Hn].
  assert (index_ok (intern name j).2) as Hindex by (apply index_ok_intern; [done|apply prefix_length in Hknown; lia]).
  unfold intern in *. destruct (bt_get name (symbol_ids j)) as [id|] eqn:Hid.
  - apply Hi in Hid as [H0 Hid]. assert (bt_get name (symbol_ids j') = Some id) as ->; [|done].
    apply Hi'. split; [done|]. by eapply prefix_lookup_Some.
  - simpl in Hknown. assert (symbols j' !! length (symbols j) = Some name) as Hlast.
    { eapply prefix_lookup_Some; [|exact Hknown]. by rewrite lookup_app_r, Nat.sub_diag by done. }
    assert (Z.of_nat (length (symbols j)) < 2 ^ 32) as Hlt by (apply lookup_lt_Some in Hlast; lia).
    assert (bt_get name (symbol_ids j') = Some (Z.of_nat (length (symbols j)))) as ->.
    { apply Hi'. split; [lia|]. by rewrite Nat2Z.id. }
    simpl in *. rewrite wrap_u_small in * by lia. by split_and!.
Qed.

(** ** Computations that replay *)

(** A journal some time later: it is still on or off, and has kept its symbols. *)
Record later (j t : EffectJournal) : Prop := {
  la_enabled : enabled t = enabled j;
  la_names : symbols j `prefix_of` symbols t;
  la_index : index_ok j → Z.of_nat (length (symbols t)) < 2 ^ 32 → index_ok t;
}.

#[export] Instance later_preorder : PreOrder later.
Proof.
  split; [by intros j|]. intros a b c [He Hn Hi] [He' Hn' Hi']. split; [congruence|by etrans|].
  intros Ha Hc. apply Hi'; [|done]. apply Hi; [done|]. apply prefix_length in Hn'. lia.
Qed.

Lemma later_with j t : enabled t = enabled j → symbols t = symbols j → symbol_ids t = symbol_ids j → later j t.
Proof. intros He Hs Hi. split; [done|by rewrite Hs|]. intros Hj _. unfold index_ok in *. by rewrite Hs, Hi. Qed.

Lemma later_write_bits actor target a b j : later j (write_bits actor target a b j).
Proof. unfold write_bits. destruct (enabled j); [|done]. by apply later_with. Qed.
Lemma later_read actor target x j : later j (read actor target x j).
Proof. unfold read. destruct (enabled j); [|done]. by apply later_with. Qed.
Lemma later_extend batch j : later j (extend batch j).
Proof.
  unfold extend. destruct (enabled j); [|done].
  match goal with |- later _ (foldl _ ?a _) => transitivity a; [by apply later_with|generalize a] end.
  induction (writes batch) as [|w l IH]; intros a; simpl; [done|]. etransitivity; [|apply IH]. by apply later_with.
Qed.
Lemma later_intern name j : later j (intern name j).2.
Proof.
  split; [unfold intern; by destruct (bt_get name (symbol_ids j))|apply symbols_intern|apply index_ok_intern].
Qed.

(** A state with its journal. *)
Class Traced (S : Type) := {
  log : S → EffectJournal;
  same : S → S → Prop;
}.

Definition names {S} `{Traced S} (s : S) : list string := symbols (log s).

Definition replays {S E A} `{Traced S} (m : M S E A) : Prop :=
  (∀ s, later (log s) (log (m s).2))
  ∧ ∀ s s', same s s' → names (m s).2 `prefix_of` names s' →
      ∃ t', m s' = ((m s).1, t') ∧ same (m s).2 t' ∧ names t' = names s'.

(** What a computation sees of a state is the same in both. *)
Definition seen {S A} `{Traced S} (f : S → A) : Prop := ∀ s s', same s s' → f s' = f s.

Create HintDb replay discriminated.

Section replays.
Context {S E : Type} `{Traced S}.
Implicit Types (A B : Type).

Lemma replays_pure A (m : M S E A) (f : S → outcome E A) : (∀ s, m s = (f s, s)) → seen f → replays m.
Proof.
  intros Hm Hf. split; [intros s; by rewrite Hm|]. intros s s' Hs _. exists s'. rewrite !Hm. simpl. by rewrite (Hf s s' Hs).
Qed.

Lemma replays_ret A (a : A) : replays (E:=E) (mret a).
Proof. by apply replays_pure with (f := λ _, Ok a). Qed.
Lemma replays_throw A (e : E) : replays (A:=A) (throw e).
Proof. by apply replays_pure with (f := λ _, Err e). Qed.
Lemma replays_lift A (r : outcome E A) : replays (lift r).
Proof. by apply replays_pure with (f := λ _, r). Qed.
Lemma replays_gets A (f : S → A) : seen f → replays (E:=E) (gets f).
Proof. intros Hf. apply replays_pure with (f := λ s, Ok (f s)); [done|]. intros s s' Hs. by rewrite (Hf s s' Hs). Qed.
Lemma replays_get_or_panic A (f : S → option A) : seen f → replays (E:=E) (get_or_panic f).
Proof.
  intros Hf. apply replays_pure with (f := λ s, match f s with Some a => Ok a | None => Panic end).
  - intros s. unfold get_or_panic. by destruct (f s).
  - intros s s' Hs. by rewrite (Hf s s' Hs).
Qed.
Lemma replays_view A (f : S → outcome E A) : seen f → replays (λ s, (f s, s)).
Proof. by apply replays_pure. Qed.

Lemma replays_modify (f : S → S) :
  (∀ s, later (log s) (log (f s)) ∧ names (f s) = names s) → (∀ s s', same s s' → same (f s) (f s')) →
  replays (E:=E) (modify f).
Proof.
  intros Hn Hf. split; [intros s; apply Hn|]. intros s s' Hs _. exists (f s'). split_and!; [done|by apply Hf|apply Hn].
Qed.

Lemma replays_bind A B (m : M S E A) (k : A → M S E B) : replays m → (∀ a, replays (k a)) → replays (m ≫= k).
Proof.
  intros [Hgm Hm] Hk. assert (∀ s, later (log (m s).2) (log ((m ≫= k) s).2)) as Hgk.
  { intros s. unfold mbind, M_mbind. destruct (m s) as [[a|e|] t]; simpl; [|done..]. apply Hk. }
  split; [intros s; etransitivity; [apply Hgm|apply Hgk]|]. intros s s' Hs Hn.
  destruct (Hm s s' Hs) as (t' & Hrun & Ht & Hnames); [by etrans; [apply Hgk|exact Hn]|]. specialize (Hgk s).
  unfold mbind, M_mbind in *. rewrite Hrun. destruct (m s) as [[a|e|] t]; simpl in *; [|by exists t'..].
  rewrite <-Hnames in Hn |- *. by apply Hk.
Qed.

Lemma replays_attempt A (m : M S E A) : replays m → replays (attempt m).
Proof.
  intros [Hg Hm]. assert (∀ s, (attempt m s).2 = (m s).2) as Hstate by (intros s; unfold attempt; by destruct (m s) as [[]]).
  split; [intros s; rewrite Hstate; apply Hg|]. intros s s' Hs Hn. rewrite Hstate in *.
  destruct (Hm s s' Hs Hn) as (t' & Hrun & Ht & Hnames). exists t'. unfold attempt. rewrite Hrun. by destruct (m s) as [[]].
Qed.

Lemma replays_when b (m : M S E ()) : replays m → replays (when b m).
Proof. destruct b; [done|]. intros _. apply replays_ret. Qed.

Lemma replays_for_each A (f : A → M S E ()) l : (∀ a, replays (f a)) → replays (for_each f l).
Proof.
  intros Hf. induction l as [|a l IH]; simpl; [apply replays_ret|]. apply replays_bind; [done|]. by intros.
Qed.

Lemma replays_fold_m A B (f : A → B → M S E A) a l : (∀ a b, replays (f a b)) → replays (fold_m f a l).
Proof.
  intros Hf. revert a. induction l as [|b l IH]; intros a; simpl; [apply replays_ret|]. apply replays_bind; [done|]. intros. apply IH.
Qed.
End replays.

(** A part of the state that determines the names of the whole. *)
Lemma replays_zoom {S T E A} `{Traced S, Traced T} (get : S → T) (put : T → S → S) (m : M T E A) :
  (∀ s s', same s s' → same (get s) (get s')) →
  (∀ s s' t t', same s s' → same t t' → same (put t s) (put t' s')) →
  ((∀ s, log s = log (get s)) ∧ (∀ s t, log (put t s) = log t) ∨
   (∀ t, log t = journal_default) ∧ ∀ s t, log (put t s) = log s) →
  replays m → replays (zoom get put m).
Proof.
  intros Hget Hput Hlog [Hg Hm]. split.
  - intros s. unfold zoom. specialize (Hg (get s)). destruct (m (get s)) as [r t]; simpl in *.
    destruct Hlog as [[Hs Ht]|[_ Ht]]; rewrite Ht; [by rewrite Hs|done].
  - intros s s' Hs Hn. unfold zoom in *. specialize (Hm (get s) (get s') (Hget s s' Hs)).
    destruct (m (get s)) as [r t] eqn:Hrun; simpl in *.
    destruct Hm as (t' & Hrun' & Ht & Hn').
    { unfold names in *. destruct Hlog as [[Hsn Htn]|[Hnil _]]; [by rewrite <-Hsn, <-(Htn s t)|rewrite !Hnil; done]. }
    exists (put t' s'). rewrite Hrun'. split_and!; [done|by apply Hput|].
    unfold names in *. destruct Hlog as [[Hsn Htn]|[_ Htn]]; rewrite Htn; [by rewrite Hn', Hsn|done].
Qed.

#[export] Hint Resolve replays_ret replays_throw replays_lift : replay.
#[export] Hint Extern 1 (replays (gets _)) => apply replays_gets : replay.
#[export] Hint Extern 1 (replays (get_or_panic _)) => apply replays_get_or_panic : replay.

(** Takes a program apart; the leaves are solved from the hints. *)
Ltac replay_run :=
  intros; repeat first
    [ solve [eauto 4 with replay]
    | match goal with
      | |- replays (_ ≫= _) => apply replays_bind; [|intros ?; cbv beta zeta]
      | |- replays (attempt _) => apply replays_attempt
      | |- replays (when _ _) => apply replays_when
      | |- replays (for_each _ _) => apply replays_for_each; intros ?
      | |- replays (fold_m _ _ _) => apply replays_fold_m; intros ? ?
      | |- replays (if ?b then _ else _) => destruct b
      | |- replays (match ?x with _ => _ end) => destruct x
      | |- replays (let _ := _ in _) => cbv zeta
      end ].

(** ** Processors *)

(** What a checkpoint and the compiled program determine: all but the journal. *)
Record same_core (c c' : Cpu) : Prop := {
  sc_identity : (cpu_id c', program_id c', cpu_name c', housing c') = (cpu_id c, program_id c, cpu_name c, housing c);
  sc_program : program c' = program c;
  sc_registers : registers c' = registers c;
  sc_stack : stack c' = stack c;
  sc_pins : pins c' = pins c;
  sc_pc : pc c' = pc c;
  sc_state : state c' = state c;
  sc_error : error c' = error c;
  sc_operations : operations_this_tick c' = operations_this_tick c;
  sc_random : random_state c' = random_state c;
}.

(** A processor while it runs an instruction, and its record so far. *)
Record same_recording (c c' : Cpu) : Prop := {
  sr_core : same_core c c';
  sr_on : journal_enabled c' = journal_enabled c;
  sr_actor : journal_actor c' = journal_actor c;
  sr_enabled : enabled (cpu_journal c') = enabled (cpu_journal c);
  sr_pending : pending (cpu_journal c') = pending (cpu_journal c);
}.

#[export] Instance traced_cpu : Traced Cpu := {| log _ := journal_default; same := same_recording |}.

Lemma cpu_identity c c' : same_core c c' →
  cpu_id c' = cpu_id c ∧ program_id c' = program_id c ∧ cpu_name c' = cpu_name c ∧ housing c' = housing c.
Proof. intros [Hid]. by injection Hid. Qed.

(** Equations between the parts of two processors. *)
Ltac cpu_parts :=
  repeat match goal with
  | H : same (S:=Cpu) _ _ |- _ => unfold same, traced_cpu in H
  | H : same_recording _ _ |- _ => destruct H
  | H : same_core _ _ |- _ => destruct (cpu_identity _ _ H) as (? & ? & ? & ?); destruct H
  end.

#[export] Hint Extern 3 (seen (S:=Cpu) _) => intros ? ? ?; cpu_parts; congruence : replay.

Lemma replays_set_cpu (f : Cpu → Cpu) :
  (∀ c c', same_core c c' → same_core (f c) (f c')) →
  (∀ c, (journal_enabled (f c), journal_actor (f c), cpu_journal (f c)) = (journal_enabled c, journal_actor c, cpu_journal c)) →
  replays (modify f : CM ()).
Proof.
  intros Hf Hj. apply replays_modify; [done|]. intros c c' Hc. pose proof Hc as [Hcore].
  pose proof (Hj c) as Hjc. pose proof (Hj c') as Hjc'. injection Hjc as E1 E2 E3. injection Hjc' as E4 E5 E6.
  split; [by apply Hf|..]; cpu_parts; congruence.
Qed.

Ltac set_cpu := apply replays_set_cpu; [intros ? ? ?; cpu_parts; split; simpl; congruence|done].

Lemma replays_journaled (f : EffectActor → EffectJournal → EffectJournal) :
  (∀ actor j j', enabled j' = enabled j → pending j' = pending j →
     enabled (f actor j') = enabled (f actor j) ∧ pending (f actor j') = pending (f actor j)) →
  replays (journaled f).
Proof.
  intros Hf. apply replays_modify; [done|]. intros c c' Hc. pose proof Hc as [Hcore Hon Hactor He Hp].
  rewrite Hon. destruct (journal_enabled c) eqn:E; [|by split; congruence].
  destruct (Hf (journal_actor c) (cpu_journal c) (cpu_journal c') He Hp) as [He' Hp'].
  split; simpl; [|congruence..]. cpu_parts. split; simpl; congruence.
Qed.

Lemma replays_journaled_read target x : replays (journaled (λ actor, read actor (target actor) (x actor))).
Proof. apply replays_journaled. intros actor j j' He Hp. unfold read. rewrite He. destruct (enabled j) eqn:E; simpl; split; congruence. Qed.
Lemma replays_journaled_write_bits target a b : replays (journaled (λ actor, write_bits actor (target actor) a b)).
Proof. apply replays_journaled. intros actor j j' He Hp. unfold write_bits. rewrite He. destruct (enabled j) eqn:E; simpl; split; congruence. Qed.
Lemma replays_journaled_write target a b : replays (journaled (λ actor, write actor (target actor) a b)).
Proof. apply (replays_journaled_write_bits target (to_bits a) (to_bits b)). Qed.
#[export] Hint Extern 1 (replays (journaled _)) =>
  first [apply (replays_journaled_read _ (λ _, _))|apply replays_journaled_write_bits|apply replays_journaled_write] : replay.

Lemma replays_read_register i : replays (read_register i).
Proof. unfold read_register. replay_run. Qed.
Lemma replays_write_register_at i x : replays (write_register_at i x).
Proof. unfold write_register_at. replay_run. set_cpu. Qed.
Lemma replays_read_stack a : replays (read_stack a).
Proof. unfold read_stack. replay_run. Qed.
Lemma replays_write_stack a x : replays (write_stack a x).
Proof. unfold write_stack. replay_run. set_cpu. Qed.
Lemma replays_write_pc v : replays (write_pc v).
Proof. unfold write_pc. replay_run. set_cpu. Qed.
Lemma replays_write_state v : replays (write_state v).
Proof. unfold write_state. replay_run. set_cpu. Qed.
Lemma replays_write_random_state v : replays (write_random_state v).
Proof. unfold write_random_state. replay_run. set_cpu. Qed.
#[export] Hint Resolve replays_read_register replays_write_register_at replays_read_stack replays_write_stack
  replays_write_pc replays_write_state replays_write_random_state : replay.

Lemma replays_register_index s : replays (register_index s).
Proof. unfold register_index. replay_run. Qed.
Lemma replays_cpu_resolve_number kb s : replays (cpu_resolve_number kb s).
Proof. apply replays_view. intros c c' Hc. cpu_parts. congruence. Qed.
#[export] Hint Resolve replays_register_index replays_cpu_resolve_number : replay.

Lemma replays_value kb s : replays (value kb s).
Proof. unfold value. replay_run. Qed.
Lemma replays_write_register s x : replays (write_register s x).
Proof. unfold write_register. replay_run. Qed.
Lemma replays_stack_len : replays stack_len.
Proof. unfold stack_len. replay_run. Qed.
#[export] Hint Resolve replays_stack_len : replay.
Lemma replays_stack_pointer : replays stack_pointer.
Proof. unfold stack_pointer. replay_run. Qed.
Lemma replays_operand ops n : replays (operand ops n).
Proof. unfold operand. replay_run. Qed.
#[export] Hint Resolve replays_value replays_write_register replays_stack_pointer replays_operand : replay.
Lemma replays_operand_value kb ops n : replays (operand_value kb ops n).
Proof. unfold operand_value. replay_run. Qed.
#[export] Hint Resolve replays_operand_value : replay.

Lemma replays_branch_to `{Build} op x (relative link : bool) : replays (branch_to op x relative link).
Proof. unfold branch_to. replay_run. Qed.
#[export] Hint Resolve replays_branch_to : replay.
Lemma replays_branch_last `{Build} kb op : replays (branch_last kb op).
Proof. unfold branch_last. replay_run. Qed.
#[export] Hint Resolve replays_branch_last : replay.

Lemma replays_execute_cpu `{Libm} `{Build} kb tick op m : execute_cpu kb tick op = Some m → replays m.
Proof.
  unfold execute_cpu. intros Hm.
  repeat match type of Hm with (if ?b then _ else _) = _ => destruct b | match ?x with _ => _ end = _ => destruct x end;
    try discriminate Hm; injection Hm as <-;
    unfold exec_move, binary, unary, exec_clamp, exec_lerp, exec_rand, bitwise_binary, exec_not, exec_ext, exec_ins,
      exec_select, selection_binary, selection_unary, exec_sap, exec_sapz, exec_jump, execute_comparison_branch,
      exec_bnan, exec_bap, exec_bapz, exec_push, exec_pop, exec_peek, exec_poke, exec_yield, exec_sleep;
    replay_run.
Qed.

(** ** The world *)

#[export] Instance traced_effects : Traced Effects := {|
  log := fx_journal;
  same x x' := fx_world x' = fx_world x ∧ same_journal (fx_journal x) (fx_journal x') |}.

#[export] Hint Extern 3 (seen (S:=Effects) _) =>
  intros ? ? [? ?]; repeat match goal with H : same_journal _ _ |- _ => destruct H end; unfold is_enabled; congruence : replay.

Lemma replays_fx_world (f : Effects → World) : seen f → replays (modify (λ x, fx_set_world (f x) x) : FX ()).
Proof. intros Hf. apply replays_modify; [done|]. intros x x' Hx. pose proof Hx as [Hw Hj]. split; [by apply Hf|done]. Qed.
Lemma replays_fx_journal (f : EffectJournal → EffectJournal) :
  (∀ j, later j (f j)) → (∀ j, symbols (f j) = symbols j) → (∀ j j', same_journal j j' → same_journal (f j) (f j')) →
  replays (modify (λ x, fx_set_journal (f (fx_journal x)) x) : FX ()).
Proof.
  intros Hl Hn Hf. apply replays_modify; [intros x; split; [apply Hl|apply Hn]|]. intros x x' [Hw Hj]. split; [done|by apply Hf].
Qed.

Lemma symbols_read actor target x j : symbols (read actor target x j) = symbols j.
Proof. unfold read. by destruct (enabled j). Qed.
Lemma symbols_write_bits actor target a b j : symbols (write_bits actor target a b j) = symbols j.
Proof. unfold write_bits. by destruct (enabled j). Qed.

Lemma replays_fx_read actor target x : replays (fx_read actor target x).
Proof. apply (replays_fx_journal (read actor target x)); [apply later_read|apply symbols_read|]. intros ??. apply same_journal_read. Qed.
Lemma replays_fx_write actor target a b : replays (fx_write actor target a b).
Proof. apply (replays_fx_journal (write actor target a b)); [apply later_write_bits|apply symbols_write_bits|]. intros ??. apply same_journal_write. Qed.
Lemma replays_fx_intern name : replays (fx_intern name).
Proof.
  split.
  - intros x. unfold fx_intern. pose proof (later_intern name (fx_journal x)) as Hn. by destruct (intern name (fx_journal x)).
  - intros x x' [Hw Hj] Hn. unfold fx_intern in *. simpl in Hn.
    pose proof (same_journal_intern name (fx_journal x) (fx_journal x') Hj) as Hi.
    destruct (intern name (fx_journal x)) as [id j], (intern name (fx_journal x')) as [id' j']. simpl in *.
    destruct (Hi Hn) as (-> & Hj' & Hs). exists (fx_set_journal j' x'). by split_and!.
Qed.
#[export] Hint Resolve replays_fx_read replays_fx_write replays_fx_intern : replay.

#[export] Hint Extern 1 (replays (modify (λ x, fx_set_world _ x))) => apply (replays_fx_world (λ x, _)) : replay.

Lemma replays_fx_enabled : replays fx_enabled.
Proof. unfold fx_enabled. replay_run. Qed.
Lemma replays_get_device d : replays (get_device d).
Proof. unfold get_device. replay_run. Qed.
Lemma replays_get_network n : replays (get_network n).
Proof. unfold get_network. replay_run. Qed.
#[export] Hint Resolve replays_fx_enabled replays_get_device replays_get_network : replay.
Lemma replays_channel_network d c f : replays (channel_network d c f).
Proof. unfold channel_network. replay_run. Qed.
Lemma replays_field_access kb d f : replays (field_access kb d f).
Proof. unfold field_access. replay_run. Qed.
#[export] Hint Resolve replays_channel_network replays_field_access : replay.
Lemma replays_read_field kb actor d c f : replays (read_field kb actor d c f).
Proof. unfold read_field. replay_run. Qed.
Lemma replays_write_field kb actor d c f x : replays (write_field kb actor d c f x).
Proof. unfold write_field. replay_run. Qed.
#[export] Hint Resolve replays_read_field replays_write_field : replay.

(** ** Instructions *)

#[export] Instance traced_machine : Traced Machine := {|
  log m := log (m_fx m);
  same m m' := same (m_cpu m) (m_cpu m') ∧ same (m_fx m) (m_fx m') |}.

#[export] Hint Extern 3 (seen (S:=Machine) _) =>
  intros ? ? [? [? ?]]; unfold world_of; cpu_parts; congruence : replay.

Lemma replays_on_cpu {A} (m : CM A) : replays m → replays (on_cpu m).
Proof. apply replays_zoom; [by intros ?? []|intros ???? [] ?; by split|by right]. Qed.
Lemma replays_on_fx {A} (m : FX A) : replays m → replays (on_fx m).
Proof. apply replays_zoom; [by intros ?? []|intros ???? [] ?; by split|by left]. Qed.
#[export] Hint Resolve replays_on_cpu replays_on_fx : replay.

Lemma replays_find_reference r : replays (find_reference r).
Proof. unfold find_reference. replay_run. Qed.
Lemma replays_logic_name kb s : replays (logic_name kb s).
Proof. unfold logic_name. replay_run. Qed.
#[export] Hint Resolve replays_find_reference replays_logic_name : replay.
Lemma replays_attempt_register_index s : replays (attempt (register_index s)).
Proof. apply replays_attempt. auto with replay. Qed.
#[export] Hint Resolve replays_attempt_register_index : replay.
Lemma replays_device_reference kb s : replays (device_reference kb s).
Proof. unfold device_reference. replay_run. Qed.
#[export] Hint Resolve replays_device_reference : replay.

(** A computation on one part written in place. *)
Ltac replay_part := first [apply replays_on_cpu|apply replays_on_fx]; replay_run.

Lemma replays_operand_field kb ops n : replays (operand_field kb ops n).
Proof. unfold operand_field. replay_part. Qed.
Lemma replays_operand_device kb ops n : replays (operand_device kb ops n).
Proof. unfold operand_device. replay_run. Qed.
Lemma replays_store_operand ops n x : replays (store_operand ops n x).
Proof. unfold store_operand. replay_part. Qed.
#[export] Hint Resolve replays_operand_field replays_operand_device replays_store_operand : replay.

Lemma replays_memory_len d : replays (memory_len d).
Proof. unfold memory_len. replay_run. Qed.
Lemma replays_read_memory actor d a : replays (read_memory actor d a).
Proof. unfold read_memory. replay_run. Qed.
Lemma replays_write_memory actor d a x : replays (write_memory actor d a x).
Proof. unfold write_memory. replay_run. Qed.
Lemma replays_memory_target kb op (direct : bool) : replays (memory_target kb op direct).
Proof. unfold memory_target. replay_run. Qed.
#[export] Hint Resolve replays_memory_len replays_read_memory replays_write_memory replays_memory_target : replay.
Lemma replays_clear_memory actor target : replays (clear_memory actor target).
Proof. unfold clear_memory. replay_run; replay_part. Qed.
#[export] Hint Resolve replays_clear_memory : replay.
Lemma replays_execute_memory kb actor op (direct : bool) : replays (execute_memory kb actor op direct).
Proof. unfold execute_memory. replay_run. Qed.

Lemma replays_read_slot_effect actor d slot f x : replays (read_slot_effect actor d slot f x).
Proof. unfold read_slot_effect. replay_run. Qed.
Lemma replays_write_slot_effect actor d slot f a b : replays (write_slot_effect actor d slot f a b).
Proof. unfold write_slot_effect. replay_run. Qed.
#[export] Hint Resolve replays_read_slot_effect replays_write_slot_effect : replay.
Lemma replays_store_slot actor d slot f fs x : replays (store_slot actor d slot f fs x).
Proof. unfold store_slot. replay_run. Qed.
#[export] Hint Resolve replays_store_slot : replay.
Lemma replays_execute_slot kb actor op : replays (execute_slot kb actor op).
Proof. unfold execute_slot. replay_run. Qed.

Lemma replays_batch_mode kb s : replays (batch_mode kb s).
Proof. unfold batch_mode. replay_run. Qed.
#[export] Hint Resolve replays_execute_memory replays_execute_slot replays_batch_mode : replay.
Lemma replays_optional_operand kb ops (present : bool) cast cursor : replays (optional_operand kb ops present cast cursor).
Proof. unfold optional_operand. replay_run. Qed.

(** The housing and the name are all that is read of the processor. *)
Lemma replays_data_network : replays data_network.
Proof.
  change data_network with
    (h ← gets (λ m, housing (m_cpu m)); n ← gets (λ m, cpu_name (m_cpu m)); d ← on_fx (get_device h);
     lift (ok_or (bt_get 0 (connections d)) [PS "IC `"; PS n; PS "` has no data network on connection 0"]) : EX nat).
  replay_run.
Qed.
Lemma replays_batch_load_device kb actor p n slot f xs i : replays (batch_load_device kb actor p n slot f xs i).
Proof. unfold batch_load_device. replay_run. Qed.
Lemma replays_batch_store_device kb actor p n slot f x i : replays (batch_store_device kb actor p n slot f x i).
Proof. unfold batch_store_device. replay_run. Qed.
#[export] Hint Resolve replays_optional_operand replays_data_network replays_batch_load_device replays_batch_store_device : replay.
Lemma replays_execute_batch_load kb actor op : replays (execute_batch_load kb actor op).
Proof. unfold execute_batch_load. replay_run; replay_part. Qed.
Lemma replays_execute_batch_store kb actor op : replays (execute_batch_store kb actor op).
Proof. unfold execute_batch_store. replay_run; replay_part. Qed.
#[export] Hint Resolve replays_execute_batch_load replays_execute_batch_store : replay.

Lemma replays_execute_device `{Build} kb actor op : replays (execute_device kb actor op).
Proof.
  unfold execute_device, exec_load, exec_store, exec_load_direct, exec_store_direct, exec_device_branch,
    exec_valid_branch, exec_device_select.
  replay_run; replay_part.
Qed.

Lemma replays_execute_operation `{Libm} `{Build} kb tick actor op : replays (execute_operation kb tick actor op).
Proof.
  unfold execute_operation. apply replays_bind; [auto with replay|intros _].
  destruct (execute_cpu kb tick op) as [m|] eqn:E; [|apply replays_execute_device].
  apply replays_on_cpu. by eapply replays_execute_cpu.
Qed.

(** ** Behaviours *)

#[export] Instance traced_behaviours : Traced BState := {|
  log := b_journal;
  same s s' := b_runtime s' = b_runtime s ∧ b_world s' = b_world s ∧ same_journal (b_journal s) (b_journal s') |}.

#[export] Hint Extern 3 (seen (S:=BState) _) => intros ? ? (? & ? & ?); congruence : replay.

Lemma replays_b_runtime (f : BState → BehaviourRuntime) : seen f → replays (modify (λ s, set_b_runtime (f s) s) : BX ()).
Proof. intros Hf. apply replays_modify; [done|]. intros s s' Hs. pose proof Hs as (Hr & Hw & Hj). split_and!; [by apply Hf|done..]. Qed.
Lemma replays_b_world (f : BState → World) : seen f → replays (modify (λ s, set_b_world (f s) s) : BX ()).
Proof. intros Hf. apply replays_modify; [done|]. intros s s' Hs. pose proof Hs as (Hr & Hw & Hj). split_and!; [done|by apply Hf|done]. Qed.
#[export] Hint Extern 1 (replays (modify (λ s, set_b_runtime _ s))) => apply (replays_b_runtime (λ s, _)) : replay.
#[export] Hint Extern 1 (replays (modify (λ s, set_b_world _ s))) => apply (replays_b_world (λ s, _)) : replay.

Lemma replays_b_write_bits actor target a b : replays (b_write_bits actor target a b).
Proof.
  apply replays_modify; [intros s; split; [apply later_write_bits|apply symbols_write_bits]|]. intros s s' (Hr & Hw & Hj).
  split_and!; [done..|by apply same_journal_write_bits].
Qed.
Lemma replays_b_write actor target a b : replays (b_write actor target a b).
Proof. apply replays_b_write_bits. Qed.
Lemma replays_b_intern name : replays (b_intern name).
Proof.
  split.
  - intros s. unfold b_intern. pose proof (later_intern name (b_journal s)) as Hn. by destruct (intern name (b_journal s)).
  - intros s s' (Hr & Hw & Hj) Hn. unfold b_intern in *. simpl in Hn.
    pose proof (same_journal_intern name (b_journal s) (b_journal s') Hj) as Hi.
    destruct (intern name (b_journal s)) as [id j], (intern name (b_journal s')) as [id' j']. simpl in *.
    destruct (Hi Hn) as (-> & Hj' & Hs). exists (set_b_journal j' s'). by split_and!.
Qed.
Lemma replays_b_observe {A} (f : World → outcome BehaviourError A) : replays (b_observe f).
Proof. apply (replays_view _ (λ s, f (b_world s))). intros s s' (_ & -> & _). done. Qed.
Lemma replays_b_device d : replays (b_device d).
Proof. unfold b_device. replay_run. Qed.
Lemma replays_b_alter f d : replays (b_alter f d).
Proof. unfold b_alter. replay_run. Qed.
#[export] Hint Resolve replays_b_write_bits replays_b_write replays_b_intern replays_b_observe replays_b_device replays_b_alter : replay.

Lemma replays_fail {A} d hook text : replays (fail (A:=A) d hook text).
Proof.
  split; [done|]. intros s s' Hs Hn. pose proof Hs as (Hr & Hw & Hj). unfold fail. rewrite Hr, Hw. eexists. by split_and!.
Qed.
Lemma replays_behaviour_actor d hook : replays (behaviour_actor d hook).
Proof. unfold behaviour_actor. replay_run. Qed.
#[export] Hint Resolve replays_fail replays_behaviour_actor : replay.
Lemma replays_set_field actor hook d f x : replays (set_field actor hook d f x).
Proof. unfold set_field. replay_run. Qed.
#[export] Hint Resolve replays_set_field : replay.
Lemma replays_increment_field actor hook d f : replays (increment_field actor hook d f).
Proof. unfold increment_field. replay_run. Qed.
Lemma replays_insert_slot_field d slot f x : replays (insert_slot_field d slot f x).
Proof. unfold insert_slot_field. replay_run. Qed.
#[export] Hint Resolve replays_increment_field replays_insert_slot_field : replay.
Lemma replays_move_field actor d slot d' slot' e : replays (move_field actor d slot d' slot' e).
Proof. unfold move_field. replay_run. Qed.
#[export] Hint Resolve replays_move_field : replay.
Lemma replays_move_slot actor hook d slot d' slot' : replays (move_slot actor hook d slot d' slot').
Proof. unfold move_slot. replay_run. Qed.
Lemma replays_record_state d name x : replays (record_state d name x).
Proof. unfold record_state. replay_run. Qed.
#[export] Hint Resolve replays_move_slot replays_record_state : replay.
Lemma replays_count_transfer d : replays (count_transfer d).
Proof. unfold count_transfer. replay_run. Qed.
Lemma replays_count_activation d : replays (count_activation d).
Proof. unfold count_activation. replay_run. Qed.
Lemma replays_reset_activation d : replays (reset_activation d).
Proof. unfold reset_activation. replay_run. Qed.
#[export] Hint Resolve replays_count_transfer replays_count_activation replays_reset_activation : replay.
Lemma replays_vend d : replays (vend d).
Proof. unfold vend. replay_run. Qed.
Lemma replays_pass_valve d : replays (pass_valve d).
Proof. unfold pass_valve. replay_run. Qed.
Lemma replays_run_event e : replays (run_event e).
Proof. unfold run_event. replay_run. Qed.
#[export] Hint Resolve replays_vend replays_pass_valve replays_run_event : replay.
Lemma replays_tick_start now : replays (tick_start now).
Proof. unfold tick_start. replay_run. Qed.
Lemma replays_drain_notices l : replays (drain_notices l).
Proof. induction l as [|n l IH]; simpl; replay_run. Qed.
#[export] Hint Resolve replays_drain_notices : replay.
Lemma replays_tick_end : replays tick_end.
Proof. unfold tick_end. replay_run. Qed.
#[export] Hint Resolve replays_tick_start replays_tick_end : replay.

(** ** Simulations *)

(** The parts a checkpoint holds or never change are equal; the processor that runs an
    instruction has the same record. *)
Record same_simulator `{LuaEngine} (busy : option nat) (s s' : Simulator) : Prop := {
  ss_knowledge : knowledge s' = knowledge s;
  ss_world : world s' = world s;
  ss_lua_programs : lua_programs s' = lua_programs s;
  ss_tick : tick s' = tick s;
  ss_warnings : compatibility_warnings s' = compatibility_warnings s;
  ss_schedule : sim_schedule s' = sim_schedule s;
  ss_slot : scheduler_slot s' = scheduler_slot s;
  ss_scheduler_error : scheduler_error s' = scheduler_error s;
  ss_behaviours : behaviours s' = behaviours s;
  ss_driver_state : driver_state s' = driver_state s;
  ss_journal : same_journal (journal s) (journal s');
  ss_cpus : Forall2 same_core (cpus s) (cpus s');
  ss_busy i c c' : busy = Some i → cpus s !! i = Some c → cpus s' !! i = Some c' → same_recording c c';
}.

(** A debugger sees a simulation between instructions. *)
#[export] Instance traced_simulator `{LuaEngine} : Traced Simulator := {|
  log := journal; same := same_simulator None |}.

(** A simulation in the middle of an instruction of a processor. *)
Definition traced_busy `{LuaEngine} (busy : option nat) : Traced Simulator := {|
  log := journal; same := same_simulator busy |}.

Lemma same_simulator_idle `{LuaEngine} busy s s' : same_simulator busy s s' → same_simulator None s s'.
Proof. intros []. by split. Qed.

Lemma same_cpu `{LuaEngine} busy s s' i : same_simulator busy s s' →
  match cpus s !! i, cpus s' !! i with
  | Some c, Some c' => same_core c c' ∧ (busy = Some i → same_recording c c')
  | None, None => True
  | _, _ => False
  end.
Proof.
  intros Hs. pose proof (ss_cpus _ _ _ Hs) as Hc. destruct (cpus s !! i) as [c|] eqn:E.
  - destruct (Forall2_lookup_l _ _ _ _ _ Hc E) as (c' & E' & Hcore). rewrite E'. split; [done|].
    intros ->. by eapply ss_busy.
  - apply lookup_ge_None in E. rewrite (Forall2_length _ _ _ Hc) in E. by rewrite (proj2 (lookup_ge_None _ _) E).
Qed.

Lemma same_insert_cpu `{LuaEngine} busy s s' i c c' : same_simulator busy s s' → same_core c c' → (busy = Some i → same_recording c c') →
  same_simulator busy (sim_set_cpus (<[i := c]> (cpus s)) s) (sim_set_cpus (<[i := c']> (cpus s')) s').
Proof.
  intros [] Hcore Hrec. split; simpl; try done.
  - by apply Forall2_insert.
  - intros j d d' Hj Hd Hd'. destruct (decide (i = j)) as [<-|Hne].
    + apply list_lookup_insert_Some in Hd, Hd'. destruct Hd as [(_ & <- & _)|[]], Hd' as [(_ & <- & _)|[]]; try done. by apply Hrec.
    + rewrite list_lookup_insert_ne in Hd, Hd' by done. by eapply ss_busy0.
Qed.

#[local] Abbreviation SX := (M Simulator message).

#[local] Set Default Proof Using "All".
Section busy.
Context `{Libm} `{Build} `{LuaEngine} `{FloatDisplay}.
Context (busy : option nat).
  #[local] Existing Instance traced_busy | 0.
#[local] Notation replays := (replays (H:=traced_busy busy)).
#[local] Notation seen := (seen (H:=traced_busy busy)).

Lemma replays_sim_modify (f : Simulator → Simulator) :
  (∀ s, journal (f s) = journal s ∧ cpus (f s) = cpus s) →
  (∀ s s', same_simulator None s s' →
     knowledge (f s') = knowledge (f s) ∧ world (f s') = world (f s) ∧ lua_programs (f s') = lua_programs (f s)
     ∧ tick (f s') = tick (f s) ∧ compatibility_warnings (f s') = compatibility_warnings (f s)
     ∧ sim_schedule (f s') = sim_schedule (f s) ∧ scheduler_slot (f s') = scheduler_slot (f s)
     ∧ scheduler_error (f s') = scheduler_error (f s) ∧ behaviours (f s') = behaviours (f s)
     ∧ driver_state (f s') = driver_state (f s)) →
  replays (modify f : SX ()).
Proof.
  intros Hkeep Hf. apply replays_modify; [intros s; unfold names; simpl; by rewrite (proj1 (Hkeep s))|]. intros s s' Hs.
  destruct (Hf s s' (same_simulator_idle _ _ _ Hs)) as (? & ? & ? & ? & ? & ? & ? & ? & ? & ?).
  destruct (Hkeep s) as [Hj Hc], (Hkeep s') as [Hj' Hc'].
  split; rewrite ?Hj, ?Hj', ?Hc, ?Hc'; try done; by apply Hs.
Qed.

Lemma replays_sim_journal (f : EffectJournal → EffectJournal) :
  (∀ j, later j (f j)) → (∀ j, symbols (f j) = symbols j) → (∀ j j', same_journal j j' → same_journal (f j) (f j')) →
  replays (modify (λ s, sim_set_journal (f (journal s)) s) : SX ()).
Proof.
  intros Hl Hn Hf. apply replays_modify; [intros s; split; [apply Hl|apply Hn]|]. intros s s' []. split; simpl; try done. by apply Hf.
Qed.

Lemma replays_sim_write_bits actor target a b : replays (sim_write_bits actor target a b).
Proof. apply (replays_sim_journal (write_bits actor target a b)); [apply later_write_bits|apply symbols_write_bits|]. intros ??. apply same_journal_write_bits. Qed.
Lemma replays_sim_write actor target a b : replays (sim_write actor target a b).
Proof. apply (replays_sim_journal (write actor target a b)); [apply later_write_bits|apply symbols_write_bits|]. intros ??. apply same_journal_write. Qed.

Lemma replays_sim_intern name : replays (sim_intern name).
Proof.
  split.
  - intros s. unfold sim_intern. pose proof (later_intern name (journal s)) as Hn. by destruct (intern name (journal s)).
  - intros s s' Hs Hn. unfold sim_intern in *. simpl in Hn.
    pose proof (same_journal_intern name (journal s) (journal s') (ss_journal _ _ _ Hs)) as Hi.
    destruct (intern name (journal s)) as [id j], (intern name (journal s')) as [id' j']. simpl in *.
    destruct (Hi Hn) as (-> & Hj' & Hnames). exists (sim_set_journal j' s'). split_and!; [done| |done].
    destruct Hs. by split.
Qed.

Lemma replays_on_machine {A} (i : nat) (m : EX A) : busy = Some i → Replay.replays m → replays (on_machine i m).
Proof.
  intros Hbusy [Hg Hm]. split.
  - intros s. unfold on_machine. destruct (cpus s !! i) as [c|]; [|done]. specialize (Hg (machine_of s c)). by destruct (m (machine_of s c)).
  - intros s s' Hs Hn. unfold on_machine in *. pose proof (same_cpu _ _ _ i Hs) as Hc.
    destruct (cpus s !! i) as [c|] eqn:E, (cpus s' !! i) as [c'|] eqn:E'; [|done..|by exists s'].
    destruct Hc as [Hcore Hrec]. destruct (Hm (machine_of s c) (machine_of s' c')) as (x' & Hrun & [Hcpu [Hw Hj]] & Hx).
    { split; [by apply Hrec|split; apply Hs]. }
    { by destruct (m (machine_of s c)). }
    rewrite Hrun. destruct (m (machine_of s c)) as [r x]. simpl in *. eexists. split_and!; [done| |done].
    apply same_insert_cpu with (s:=sim_set_world (fx_world (m_fx x)) (sim_set_journal (fx_journal (m_fx x)) s))
      (s':=sim_set_world (fx_world (m_fx x')) (sim_set_journal (fx_journal (m_fx x')) s')); [|by apply Hcpu|done].
    destruct Hs. by split.
Qed.

Lemma replays_alter_cpu i (f : Cpu → Cpu) :
  (∀ c c', same_core c c' → same_core (f c) (f c')) →
  (∀ c, (journal_enabled (f c), journal_actor (f c), cpu_journal (f c)) = (journal_enabled c, journal_actor c, cpu_journal c)) →
  replays (alter_cpu i f).
Proof.
  intros Hf Hj. split; [intros s; unfold alter_cpu; by destruct (cpus s !! i)|]. intros s s' Hs Hn. unfold alter_cpu in *.
  pose proof (same_cpu _ _ _ i Hs) as Hc.
  destruct (cpus s !! i) as [c|] eqn:E, (cpus s' !! i) as [c'|] eqn:E'; [|done..|by exists s'].
  destruct Hc as [Hcore Hrec]. eexists. split_and!; [done| |done]. apply same_insert_cpu; [done|by apply Hf|].
  intros Hb. specialize (Hrec Hb). pose proof (Hj c) as Hjc. pose proof (Hj c') as Hjc'.
  injection Hjc as E1 E2 E3. injection Hjc' as E4 E5 E6. destruct Hrec. split; [by apply Hf|congruence..].
Qed.

Lemma replays_on_behaviours {A} (m : BX A) : Replay.replays m → replays (on_behaviours m).
Proof.
  intros [Hg Hm]. split.
  - intros s. unfold on_behaviours. specialize (Hg {| b_runtime := behaviours s; b_world := world s; b_journal := journal s |}).
    by destruct (m _).
  - intros s s' Hs Hn. unfold on_behaviours in *.
    destruct (Hm {| b_runtime := behaviours s; b_world := world s; b_journal := journal s |}
      {| b_runtime := behaviours s'; b_world := world s'; b_journal := journal s' |}) as (b' & Hrun & (Hr & Hw & Hj) & Hx).
    { split_and!; apply Hs. }
    { by destruct (m _). }
    rewrite Hrun. destruct (m {| b_runtime := behaviours s; b_world := world s; b_journal := journal s |}) as [r b]. simpl in *.
    eexists. split_and!; [done| |done]. destruct Hs. by split.
Qed.

#[local] Hint Extern 3 (Replay.seen _) => intros ? ? []; unfold is_enabled;
  repeat match goal with H : same_journal _ _ |- _ => destruct H end; congruence : replay.
#[local] Hint Resolve replays_sim_write_bits replays_sim_write replays_sim_intern : replay.

(** A change of parts that are equal. *)
Ltac sim_modify :=
  apply replays_sim_modify; [done|intros ? ? []; simpl; split_and!; congruence].

Lemma replays_sim_notify d f a b : replays (sim_notify d f a b).
Proof. unfold sim_notify. sim_modify. Qed.
Lemma replays_sim_device d : replays (sim_device d).
Proof. unfold sim_device. replay_run. Qed.
Lemma replays_sim_alter_device d f : replays (sim_alter_device d f).
Proof. unfold sim_alter_device. sim_modify. Qed.
#[local] Hint Resolve replays_sim_notify replays_sim_device replays_sim_alter_device : replay.
Lemma replays_insert_device_field d f x : replays (insert_device_field d f x).
Proof. unfold insert_device_field. replay_run. Qed.
#[local] Hint Resolve replays_insert_device_field : replay.

Lemma replays_deliver_field_writes : replays deliver_field_writes.
Proof.
  change deliver_field_writes with
    (writes ← gets (λ s, field_writes (world s));
     _ ← modify (λ s, sim_set_world (set_field_writes [] (world s)) s);
     for_each (λ '(device, field, before, after), sim_notify device field before after) writes : SX ()).
  replay_run. sim_modify.
Qed.

Lemma replays_set_scheduler_slot v : replays (set_scheduler_slot v).
Proof. unfold set_scheduler_slot. replay_run. sim_modify. Qed.

(** What is read of a processor is the same in both. *)
Lemma replays_cpu_bind {A B} i (g : Cpu → B) (k : B → SX A) :
  (∀ c c', same_core c c' → g c' = g c) → (∀ b, replays (k b)) →
  replays (c ← get_or_panic (λ s, cpus s !! i); k (g c)).
Proof.
  intros Hg Hk. assert (∀ s, (c ← get_or_panic (λ s, cpus s !! i); k (g c)) s = (b ← get_or_panic (λ s, g <$> cpus s !! i); k b) s) as Heq.
  { intros s. unfold mbind, M_mbind, get_or_panic. by destruct (cpus s !! i). }
  assert (replays (b ← get_or_panic (λ s, g <$> cpus s !! i); k b)) as [Hgr Hr].
  { apply replays_bind; [|done]. apply replays_get_or_panic. intros s s' Hs. pose proof (same_cpu _ _ _ i Hs) as Hc.
    destruct (cpus s !! i), (cpus s' !! i); [|done..]. simpl. f_equal. apply Hg. exact (proj1 Hc). }
  split; [intros s; rewrite Heq; apply Hgr|]. intros s s' Hs. rewrite !Heq. by apply Hr.
Qed.

Lemma replays_count_operation i actor : replays (count_operation i actor).
Proof.
  unfold count_operation. apply (replays_cpu_bind i operations_this_tick (λ before,
    after ← lift (add_u32 before 1); _ ← alter_cpu i (set_operations_this_tick after);
    sim_write_bits actor (TCpuOperations i) before after)).
  - intros c c' Hc. cpu_parts. congruence.
  - replay_run. apply replays_alter_cpu; [|done]. intros c c' Hc. cpu_parts. split; simpl; congruence.
Qed.
End busy.

(** A computation between two places of an instruction. *)
Definition moves `{LuaEngine} {A} (from to : option nat) (m : M Simulator message A) : Prop :=
  (∀ s, later (journal s) (journal (m s).2))
  ∧ ∀ s s', same_simulator from s s' → symbols (journal (m s).2) `prefix_of` symbols (journal s') →
      ∃ t', m s' = ((m s).1, t') ∧ same_simulator to (m s).2 t' ∧ symbols (journal t') = symbols (journal s').

#[local] Set Default Proof Using "All".
Section steps.
Context `{Libm} `{Build} `{LuaEngine} `{FloatDisplay}.
#[local] Abbreviation SX := (M Simulator message).

Lemma moves_bind {A B} a b c (m : SX A) (k : A → SX B) :
  (∀ s s', same_simulator b s s' → same_simulator c s s') →
  moves a b m → (∀ x, moves b c (k x)) → moves a c (m ≫= k).
Proof.
  intros Hbc [Hgm Hm] Hk. assert (∀ s, later (journal (m s).2) (journal ((m ≫= k) s).2)) as Hgk.
  { intros s. unfold mbind, M_mbind. destruct (m s) as [[x|e|] t]; simpl; [|done..]. apply Hk. }
  split; [intros s; etransitivity; [apply Hgm|apply Hgk]|]. intros s s' Hs Hn.
  destruct (Hm s s' Hs) as (t' & Hrun & Ht & Hnames); [by etrans; [apply Hgk|exact Hn]|]. specialize (Hgk s).
  unfold mbind, M_mbind in *. rewrite Hrun. destruct (m s) as [[x|e|] t]; simpl in *; [|exists t'; by eauto..].
  rewrite <-Hnames in Hn |- *. by apply Hk.
Qed.

Lemma moves_gets {A} busy (f : Simulator → A) :
  (∀ s s', same_simulator busy s s' → f s' = f s) → moves busy busy (gets f : SX A).
Proof. apply (replays_gets (H:=traced_busy busy)). Qed.

Lemma moves_configure i on actor : moves None (Some i) (alter_cpu i (configure_journal on actor)).
Proof.
  split; [intros s; unfold alter_cpu; by destruct (cpus s !! i)|]. intros s s' Hs Hn. unfold alter_cpu in *.
  pose proof (same_cpu _ _ _ i Hs) as Hc.
  destruct (cpus s !! i) as [c|] eqn:E, (cpus s' !! i) as [c'|] eqn:E'; [|done..|].
  2: { exists s'. split_and!; [done| |done]. simpl. destruct Hs. split; try done. intros j d d' [= <-]. congruence. }
  destruct Hc as [Hcore _].
  assert (same_core (configure_journal on actor c) (configure_journal on actor c')) as Hnew.
  { cpu_parts. split; simpl; congruence. }
  eexists. split_and!; [done| |done]. destruct Hs. split; simpl; try done; [by apply Forall2_insert|].
  intros j d d' [= <-] Hd Hd'. rewrite list_lookup_insert_eq in Hd, Hd' by (by eapply lookup_lt_Some). simplify_eq.
  split; [done|done..| |]; simpl; by destruct on.
Qed.

Lemma moves_collect i : moves (Some i) None (collect_effects i).
Proof.
  split.
  { intros s. unfold collect_effects, cpu_take_effects, take_batch. destruct (cpus s !! i); simpl; [|done]. apply later_extend. }
  intros s s' Hs Hn. unfold collect_effects in *. pose proof (same_cpu _ _ _ i Hs) as Hc.
  destruct (cpus s !! i) as [c|] eqn:E, (cpus s' !! i) as [c'|] eqn:E'; [|done..|].
  2: { exists s'. split_and!; [done|by eapply same_simulator_idle|done]. }
  destruct Hc as [Hcore Hrec]. specialize (Hrec eq_refl). unfold cpu_take_effects, take_batch. simpl. eexists. split_and!; [done| |].
  - rewrite (sr_pending _ _ Hrec). destruct Hs. split; simpl; try done; [by apply same_journal_extend|].
    apply Forall2_insert; [done|]. cpu_parts. split; simpl; congruence.
  - simpl. by rewrite symbols_extend.
Qed.

Lemma replays_view_bind {A B} busy (f : Simulator → A) (k : A → SX B) :
  (∀ s s', same_simulator busy s s' → ∀ x, k (f s') x = k (f s) x) → (∀ a, replays (H:=traced_busy busy) (k a)) →
  replays (H:=traced_busy busy) (λ s, k (f s) s).
Proof.
  intros Hf Hk. split; [intros s; apply Hk|]. intros s s' Hs Hn. rewrite (Hf s s' Hs). by apply Hk.
Qed.

Lemma replays_catch i (m : EX ()) : Replay.replays m →
  replays (H:=traced_busy (Some i))
    ((λ s, let '(r, s) := on_machine i m s in
           match r with Ok _ => (Ok None, s) | Err e => (Ok (Some e), s) | Panic => (Panic, s) end) : SX (option message)).
Proof.
  intros Hm. pose proof (replays_on_machine (Some i) i m eq_refl Hm) as [Hg Hr].
  split; [intros s; specialize (Hg s); by destruct (on_machine i m s) as [[]]|].
  intros s s' Hs Hn. destruct (Hr s s' Hs) as (t' & Hrun & Ht & Hnames); [by destruct (on_machine i m s) as [[]]|].
  exists t'. rewrite Hrun. by destruct (on_machine i m s) as [[]].
Qed.

(** [step_instruction] of a processor that is found and runnable. *)
Definition step_body (cpu_index : nat) (cpu : Cpu) : SX StepEvent :=
  if negb (is_runnable (state cpu)) then throw [PS "IC `"; PS (cpu_name cpu); PS "` is not runnable"]
  else
    match current_operation cpu with
    | None =>
        _ ← alter_cpu cpu_index (set_state Halted);
        mret {| ev_cpu := cpu_index; ev_line := pc cpu; ev_state := Halted |}
    | Some operation =>
        source ← sim_intern (debug_source_path (program cpu));
        let actor := ActorIc cpu_index source (op_line operation) in
        on ← sim_journal_enabled;
        _ ← alter_cpu cpu_index (configure_journal on actor);
        _ ← on_cpu_at cpu_index (write_pc (op_line operation));
        _ ← on_cpu_at cpu_index (write_state Ready);
        _ ← insert_device_field (housing cpu) "LineNumber" (f_of_Z (op_line operation));
        kb ← gets knowledge;
        now ← gets tick;
        result ← (λ s, let '(r, s) := on_machine cpu_index (execute_operation kb now actor operation) s in
                       match r with
                       | Ok _ => (Ok None, s)
                       | Err e => (Ok (Some e), s)
                       | Panic => (Panic, s)
                       end) : SX (option message);
        _ ← deliver_field_writes;
        _ ← count_operation cpu_index actor;
        match result with
        | Some text =>
            _ ← on_cpu_at cpu_index (write_state Error);
            _ ← alter_cpu cpu_index (set_error (Some text));
            _ ← insert_device_field (housing cpu) "Error" f_one;
            _ ← collect_effects cpu_index;
            throw text
        | None =>
            _ ← collect_effects cpu_index;
            cpu ← get_or_panic (λ s, cpus s !! cpu_index);
            mret {| ev_cpu := cpu_index; ev_line := op_line operation; ev_state := state cpu |}
        end
    end.

Lemma step_body_core i c c' : same_core c c' → step_body i c' = step_body i c.
Proof.
  intros Hc. cpu_parts. unfold step_body, current_operation.
  repeat match goal with H : ?f c' = ?f c |- _ => rewrite H; clear H end. done.
Qed.

Lemma replays_step_body i c : replays (step_body i c).
Proof.
  assert (∀ m : CM (), Replay.replays m → moves (Some i) (Some i) (on_cpu_at i m)) as Hcpu.
  { intros m Hm. by apply replays_on_machine, replays_on_cpu. }
  assert (∀ s s', same_simulator (Some i) s s' → same_simulator None s s') as Hidle by (intros; by eapply same_simulator_idle).
  assert (∀ f : Cpu → Cpu, (∀ c c', same_core c c' → same_core (f c) (f c')) → (∀ c, (journal_enabled (f c), journal_actor (f c), cpu_journal (f c)) = (journal_enabled c, journal_actor c, cpu_journal c)) →
    ∀ busy, moves busy busy (alter_cpu i f)) as Halter by (intros f Hf Hj busy; by apply replays_alter_cpu).
  assert (∀ v c c', same_core c c' → same_core (set_state v c) (set_state v c')) as Hstate
    by (intros v d d' Hd; cpu_parts; split; simpl; congruence).
  assert (∀ v c c', same_core c c' → same_core (set_error v c) (set_error v c')) as Herror
    by (intros v d d' Hd; cpu_parts; split; simpl; congruence).
  unfold step_body. destruct (negb _); [apply (replays_throw (H:=traced_busy None))|]. destruct (current_operation c) as [op|].
  2: { apply (replays_bind (H:=traced_busy None)); [exact (Halter _ (Hstate _) (λ _, eq_refl) None)|intros _; apply replays_ret]. }
  eapply (moves_bind None None); [done|apply replays_sim_intern|intros source]. cbv zeta.
  eapply (moves_bind None None); [done|apply moves_gets; by intros ?? [? ? ? ? ? ? ? ? ? ? []]|intros on].
  eapply (moves_bind None (Some i)); [done|apply moves_configure|intros _].
  eapply (moves_bind (Some i) (Some i)); [done|by apply Hcpu, replays_write_pc|intros _].
  eapply (moves_bind (Some i) (Some i)); [done|by apply Hcpu, replays_write_state|intros _].
  eapply (moves_bind (Some i) (Some i)); [done|apply replays_insert_device_field|intros _].
  eapply (moves_bind (Some i) (Some i)); [done|apply moves_gets; by intros ?? []|intros kb].
  eapply (moves_bind (Some i) (Some i)); [done|apply moves_gets; by intros ?? []|intros now].
  eapply (moves_bind (Some i) (Some i)); [done|apply replays_catch, replays_execute_operation|intros result].
  eapply (moves_bind (Some i) (Some i)); [done|apply replays_deliver_field_writes|intros _].
  eapply (moves_bind (Some i) (Some i)); [done|apply replays_count_operation|intros _].
  destruct result as [text|].
  - eapply (moves_bind (Some i) (Some i)); [done|by apply Hcpu, replays_write_state|intros _].
    eapply (moves_bind (Some i) (Some i)); [done|exact (Halter _ (Herror _) (λ _, eq_refl) _)|intros _].
    eapply (moves_bind (Some i) (Some i)); [done|apply replays_insert_device_field|intros _].
    eapply (moves_bind (Some i) None); [done|apply moves_collect|intros _]. apply (replays_throw (H:=traced_busy None)).
  - eapply (moves_bind (Some i) None); [done|apply moves_collect|intros _].
    apply (replays_cpu_bind None i state (λ st, mret {| ev_cpu := i; ev_line := op_line op; ev_state := st |})).
    + intros d d' Hd. cpu_parts. congruence.
    + intros st. apply (replays_ret (H:=traced_busy None)).
Qed.

Lemma replays_step_instruction i : replays (step_instruction i).
Proof.
  change (step_instruction i) with (λ s : Simulator,
    (λ o : option Cpu, cpu ← lift (ok_or o [PS "unknown IC thread "; PZ (Z.of_nat i + 1)]); step_body i cpu) (cpus s !! i) s).
  apply (replays_view_bind None).
  - intros s s' Hs x. pose proof (same_cpu _ _ _ i Hs) as Hc. destruct (cpus s !! i), (cpus s' !! i); [|done..].
    destruct Hc as [Hc _]. simpl. unfold lift, mbind, M_mbind. by rewrite (step_body_core i _ _ Hc).
  - intros [c|]; (apply (replays_bind (H:=traced_busy None)); [apply (replays_lift (H:=traced_busy None))|intros d; apply replays_step_body]).
Qed.
End steps.

(** ** The scheduler *)

Section scheduler.
Context `{Libm} `{Build} `{LuaEngine} `{FloatDisplay}.
#[local] Abbreviation SX := (M Simulator message).

Lemma replays_cpu_view {A} i (k : option Cpu → SX A) :
  (∀ c c', same_core c c' → ∀ x, k (Some c') x = k (Some c) x) → (∀ o, replays (k o)) → replays (λ s, k (cpus s !! i) s).
Proof.
  intros Hk Hr. apply (replays_view_bind None); [|done]. intros s s' Hs x. pose proof (same_cpu _ _ _ i Hs) as Hc.
  destruct (cpus s !! i), (cpus s' !! i); [|done..]. exact (Hk _ _ (proj1 Hc) x).
Qed.

Lemma replays_alter_cpu_idle i (f : Cpu → Cpu) :
  (∀ c c', same_core c c' → same_core (f c) (f c')) →
  (∀ c, (journal_enabled (f c), journal_actor (f c), cpu_journal (f c)) = (journal_enabled c, journal_actor c, cpu_journal c)) →
  replays (alter_cpu i f).
Proof. apply (replays_alter_cpu None). Qed.
Lemma replays_write_bits_idle actor target a b : replays (sim_write_bits actor target a b).
Proof. apply (replays_sim_write_bits None). Qed.
Lemma replays_slot_idle v : replays (set_scheduler_slot v).
Proof. apply (replays_set_scheduler_slot None). Qed.
Lemma replays_on_behaviours_idle {A} (m : BX A) : replays m → replays (on_behaviours m).
Proof. apply (replays_on_behaviours None). Qed.
Hint Resolve replays_step_instruction replays_write_bits_idle replays_slot_idle replays_on_behaviours_idle : replay.
Hint Extern 3 (seen (S:=Simulator) _) => intros ? ? []; congruence : replay.
Hint Extern 2 (replays (alter_cpu _ _)) =>
  apply replays_alter_cpu_idle; [intros ? ? ?; cpu_parts; split; simpl; congruence|done] : replay.

Lemma same_cpu_count s s' : same s s' → length (cpus s') = length (cpus s).
Proof. intros Hs. symmetry. apply (Forall2_length _ _ _ (ss_cpus _ _ _ Hs)). Qed.

Lemma seen_runtime_index i : seen (runtime_index_of i).
Proof. intros s s' Hs. unfold runtime_index_of. by rewrite (same_cpu_count s s' Hs). Qed.

Lemma seen_lifecycle a : seen (adapter_lifecycle (H:=Simulator) a).
Proof.
  intros s s' Hs. destruct a as [i|i]; simpl.
  - unfold sim_ic10_lifecycle. pose proof (same_cpu _ _ _ i Hs) as Hc. rewrite (ss_knowledge _ _ _ Hs).
    destruct (cpus s !! i), (cpus s' !! i); [|done..]. destruct Hc as [Hc _]. cpu_parts. simpl. unfold current_line, current_operation.
    congruence.
  - unfold sim_lua_lifecycle. by rewrite (ss_lua_programs _ _ _ Hs), (ss_tick _ _ _ Hs), (seen_runtime_index i s s' Hs).
Qed.

Lemma replays_alter_lua i f : replays (alter_lua i f).
Proof.
  unfold alter_lua. replay_run. apply replays_modify; [done|]. intros s s' []. split; simpl; try done; congruence.
Qed.

Lemma replays_lua_step i : replays (sim_lua_step i).
Proof.
  unfold sim_lua_step. apply replays_bind; [apply replays_gets; intros ?? []; congruence|intros o]. apply replays_bind; [apply replays_lift|intros r].
  apply replays_bind.
  - split; [intros s; by destruct (lua_runtime_step _ _ _) as [[]]|]. intros s s' Hs Hn. rewrite (ss_tick _ _ _ Hs), (ss_world _ _ _ Hs).
    destruct (lua_runtime_step (tick s) (world s) r) as [[res w] r']. eexists. split_and!; [done| |done]. destruct Hs. split; simpl; try done; congruence.
  - intros _. apply replays_bind; [apply replays_get_or_panic; intros s s' Hs; by rewrite (ss_lua_programs _ _ _ Hs)|intros r'].
    apply replays_bind; [apply replays_gets, seen_runtime_index|intros n]. apply replays_ret.
Qed.

Lemma replays_adapter_step a : replays (adapter_step (H:=Simulator) a).
Proof. destruct a as [i|i]; simpl; [unfold sim_ic10_step; replay_run|apply replays_lua_step]. Qed.

Lemma replays_adapter_halt a : replays (adapter_halt (H:=Simulator) a).
Proof.
  destruct a as [i|i]; simpl; [|apply replays_alter_lua]. unfold sim_ic10_halt.
  apply (replays_cpu_view i (λ o, cpu ← lift (ok_or o IC10_INDEX); _ ← alter_cpu i (set_state Halted);
    sim_write_bits ActorScheduler (TCpuState i) (cpu_state_bits (state cpu)) (cpu_state_bits Halted))).
  - intros c c' Hc x. cpu_parts. unfold lift, mbind, M_mbind. simpl.
    repeat match goal with H : ?f c' = ?f c |- _ => rewrite H; clear H end. done.
  - replay_run.
Qed.

Lemma replays_adapter_begin_tick now a : replays (adapter_begin_tick (H:=Simulator) now a).
Proof.
  destruct a as [i|i]; simpl; [|apply replays_alter_lua]. unfold sim_ic10_begin_tick.
  apply (replays_cpu_view i (λ o, cpu ← lift (ok_or o IC10_INDEX);
    _ ← alter_cpu i (set_operations_this_tick 0);
    _ ← sim_write_bits ActorScheduler (TCpuOperations i) (operations_this_tick cpu) 0;
    when (wakes (state cpu) now)
      (_ ← alter_cpu i (set_state Ready);
       sim_write_bits ActorScheduler (TCpuState i) (cpu_state_bits (state cpu)) (cpu_state_bits Ready)))).
  - intros c c' Hc x. cpu_parts. unfold lift, mbind, M_mbind. simpl.
    repeat match goal with H : ?f c' = ?f c |- _ => rewrite H; clear H end. done.
  - replay_run.
Qed.
Hint Resolve replays_adapter_step replays_adapter_halt replays_adapter_begin_tick seen_lifecycle replays_tick_start replays_tick_end : replay.

Lemma replays_advance_tick : replays advance_tick.
Proof.
  unfold advance_tick. replay_run. apply (replays_sim_modify None); [done|intros ? ? []; simpl; split_and!; congruence].
Qed.
Hint Resolve replays_advance_tick : replay.

Lemma replays_prepare_from slots : replays (prepare_from slots).
Proof.
  induction slots as [|a slots IH]; simpl; [replay_run|].
  apply replays_bind; [apply (replays_view _ (adapter_lifecycle a)), seen_lifecycle|intros l]. replay_run.
Qed.

Lemma replays_prepare_next_adapter : replays prepare_next_adapter.
Proof.
  apply (replays_view_bind None (λ s, drop (Z.to_nat (scheduler_slot s)) (sim_schedule s)) prepare_from).
  - intros s s' [] x. congruence.
  - apply replays_prepare_from.
Qed.
Hint Resolve replays_prepare_next_adapter : replay.

Lemma replays_scheduler_error e : replays (modify (sim_set_scheduler_error e) : SX ()).
Proof. apply (replays_sim_modify None); [done|intros ? ? []; simpl; split_and!; congruence]. Qed.
Hint Resolve replays_scheduler_error : replay.

Lemma replays_scheduler_step : replays scheduler_step.
Proof.
  unfold scheduler_step. replay_run. apply (replays_view _ (adapter_lifecycle _)), seen_lifecycle.
Qed.
Hint Resolve replays_scheduler_step : replay.

Lemma replays_next_scheduled_location : replays next_scheduled_location.
Proof.
  pose proof replays_prepare_next_adapter as [Hg Hr]. unfold next_scheduled_location. split.
  - intros s. specialize (Hg s). destruct (prepare_next_adapter s) as [[[[a l]|]|e|] t]; exact Hg.
  - intros s s' Hs Hn. destruct (Hr s s' Hs) as (t' & Hrun & Ht & Hnames).
    { destruct (prepare_next_adapter s) as [[[[a l]|]|e|] t]; exact Hn. }
    rewrite Hrun. destruct (prepare_next_adapter s) as [[[[a l]|]|e|] t]; simpl in *; try (by exists t').
    exists (sim_set_scheduler_error (Some e) t'). split_and!; [done| |done]. destruct Ht. by split.
Qed.

Lemma replays_step_until_tick fuel start events : replays (step_until_tick fuel start events).
Proof. revert events. induction fuel as [|fuel IH]; intros events; simpl; replay_run. Qed.

Lemma replays_step_world_tick : replays step_world_tick.
Proof.
  apply (replays_view_bind None (λ s, (tick_fuel s, tick s)) (λ p, step_until_tick p.1 p.2 [])).
  - intros s s' Hs x. assert (tick_fuel s' = tick_fuel s) as ->; [|by rewrite (ss_tick _ _ _ Hs)]. unfold tick_fuel.
    rewrite (ss_slot _ _ _ Hs), (ss_schedule _ _ _ Hs). do 3 f_equal. apply list_fmap_ext. intros _ a _. unfold slot_allowance.
    by rewrite (seen_lifecycle a s s' Hs).
  - intros [fuel start]. apply replays_step_until_tick.
Qed.
End scheduler.
