(* ===== verification/History.v ===== *)
(** * The history of a debugged simulation

    [crates/ic10-dap/src/main.rs], [TraceHistory]: the events of a debugged simulation
    are recorded with the effects they had and the hash of the state after them; every
    so often a checkpoint is kept.  Any retained state is reached again from the last
    checkpoint before it by running the recorded actions.  Old events are dropped with
    the checkpoints that anchor them, by number and by an estimate of the memory they
    take.  The estimates follow the capacities of vectors, which the allocator chooses:
    [record_bytes], [snapshot_bytes] and [sources_bytes] stand for them.  Sequence
    numbers stay below 2^64. *)

From S2P Require Import Prelude BTree Text F64 Knowledge Journal Scenario World Program Cpu Exec Behaviour Vm Lua Simulator Control.
Local Open Scope string_scope.
Local Open Scope Z_scope.

(** ** Records *)

(** Source: [crates/ic10-dap/src/main.rs] [ReplayAction] *)
Inductive ReplayAction :=
  | ActScheduled
  | ActInstruction (cpu : nat)
  | ActWorldTick
  | ActExternal
  | ActStop.

(** Source: [crates/ic10-dap/src/main.rs] [TraceRecord] *)
Record TraceRecord := {
  rc_sequence : Z;
  rc_tick : Z;
  rc_cpu : nat;
  rc_replay_line : Z;
  rc_line : Z;
  rc_source_id : Z;
  rc_action : ReplayAction;
  rc_event_flags : Z;
  rc_effects : EffectBatch;
  rc_error : option message;
  rc_state_hash : Z;
}.

Definition set_event_flags (flags : Z) (r : TraceRecord) : TraceRecord :=
  {| rc_sequence := rc_sequence r; rc_tick := rc_tick r; rc_cpu := rc_cpu r; rc_replay_line := rc_replay_line r;
     rc_line := rc_line r; rc_source_id := rc_source_id r; rc_action := rc_action r; rc_event_flags := flags;
     rc_effects := rc_effects r; rc_error := rc_error r; rc_state_hash := rc_state_hash r |}.

(** The flags of the events, [EVENT_INSTRUCTION] to [EVENT_DEBUGGER], under their names.
    Source: [crates/ic10-dap/src/main.rs] [event_names] *)
Definition event_table : list (string * Z) :=
  [("instruction", 2 ^ 0); ("tick", 2 ^ 1); ("yield", 2 ^ 2); ("sleep", 2 ^ 3); ("error", 2 ^ 4); ("halt", 2 ^ 5);
   ("breakpoint", 2 ^ 6); ("data breakpoint", 2 ^ 7); ("exception", 2 ^ 8); ("assertion", 2 ^ 9); ("stimulus", 2 ^ 10);
   ("debugger", 2 ^ 11)].

(** Source: [crates/ic10-dap/src/main.rs] [event_flag] *)
Definition event_flag (name : string) : Z :=
  default 0 (find_map (λ '(known, flag), if String.eqb name known then Some flag else None) event_table).

(** Source: [crates/ic10-dap/src/main.rs] [event_names] *)
Definition event_names (flags : Z) : list string :=
  omap (λ '(name, flag), if negb (Z.land flags flag =? 0) then Some name else None) event_table.

(** Source: [crates/ic10-dap/src/main.rs] [TraceCheckpoint] *)
Record TraceCheckpoint := {
  cp_sequence : Z;
  cp_snapshot : SimulatorSnapshot;
  cp_estimated_bytes : Z;
}.

(** Source: [crates/ic10-dap/src/main.rs] [TraceHistory] *)
Record TraceHistory := {
  max_events : Z;
  max_memory_bytes : Z;
  checkpoint_interval : Z;
  records : list TraceRecord;
  checkpoints : list TraceCheckpoint;
  cursor : Z;
  next_sequence : Z;
  dropped : Z;
  sources : list string;
  memory_estimate : Z;
}.

(** The parts that change: the events and the anchors, and where the debugger is. *)
Definition with_events (rs : list TraceRecord) (cps : list TraceCheckpoint) (h : TraceHistory) : TraceHistory :=
  {| max_events := max_events h; max_memory_bytes := max_memory_bytes h; checkpoint_interval := checkpoint_interval h;
     records := rs; checkpoints := cps; cursor := cursor h; next_sequence := next_sequence h; dropped := dropped h;
     sources := sources h; memory_estimate := memory_estimate h |}.
Definition with_position (at_ next : Z) (h : TraceHistory) : TraceHistory :=
  {| max_events := max_events h; max_memory_bytes := max_memory_bytes h; checkpoint_interval := checkpoint_interval h;
     records := records h; checkpoints := checkpoints h; cursor := at_; next_sequence := next; dropped := dropped h;
     sources := sources h; memory_estimate := memory_estimate h |}.
Definition with_dropped (n : Z) (h : TraceHistory) : TraceHistory :=
  {| max_events := max_events h; max_memory_bytes := max_memory_bytes h; checkpoint_interval := checkpoint_interval h;
     records := records h; checkpoints := checkpoints h; cursor := cursor h; next_sequence := next_sequence h; dropped := n;
     sources := sources h; memory_estimate := memory_estimate h |}.
Definition with_estimate (n : Z) (h : TraceHistory) : TraceHistory :=
  {| max_events := max_events h; max_memory_bytes := max_memory_bytes h; checkpoint_interval := checkpoint_interval h;
     records := records h; checkpoints := checkpoints h; cursor := cursor h; next_sequence := next_sequence h; dropped := dropped h;
     sources := sources h; memory_estimate := n |}.

Definition is_external (action : ReplayAction) : bool := match action with ActExternal => true | _ => false end.

Definition saturating_add (a b : Z) : Z := Z.min (a + b) U64_MAX.

(** ** Dropping events *)

(** The records up to [baseline] are dropped and counted.
    Source: [crates/ic10-dap/src/main.rs] [drop_through] lines 511-518 *)
Fixpoint drop_records (baseline : Z) (rs : list TraceRecord) : Z * list TraceRecord :=
  match rs with
  | r :: rs' =>
      if rc_sequence r <=? baseline then let '(n, rest) := drop_records baseline rs' in (n + 1, rest) else (0, rs)
  | [] => (0, [])
  end.

(** The last checkpoint up to [baseline] stays.
    Source: [crates/ic10-dap/src/main.rs] [drop_through] lines 519-526 *)
Fixpoint drop_checkpoints (baseline : Z) (cps : list TraceCheckpoint) : list TraceCheckpoint :=
  match cps with
  | _ :: ((next :: _) as rest) => if cp_sequence next <=? baseline then drop_checkpoints baseline rest else cps
  | _ => cps
  end.

(** Source: [crates/ic10-dap/src/main.rs] [drop_through] *)
Definition drop_through (baseline : Z) (h : TraceHistory) : TraceHistory :=
  let '(n, rest) := drop_records baseline (records h) in
  with_dropped (dropped h + n) (with_events rest (drop_checkpoints baseline (checkpoints h)) h).

Section history.
Context `{Libm} `{Build} `{LuaEngine} `{FloatDisplay}.
Abbreviation SX := (M Simulator message).
Variable record_bytes : TraceRecord → Z.
Variable snapshot_bytes : Simulator → Z.
Variable sources_bytes : list string → Z.
Variable normalize_path : string → string.

Definition sum_Z (l : list Z) : Z := foldr Z.add 0 l.

(** Source: [crates/ic10-dap/src/main.rs] [recompute_memory_estimate] *)
Definition recompute_memory_estimate (h : TraceHistory) : TraceHistory :=
  with_estimate
    (saturating_add (saturating_add (sum_Z (record_bytes <$> records h)) (sum_Z (cp_estimated_bytes <$> checkpoints h)))
       (sources_bytes (sources h))) h.

Definition checkpoint_of (sequence : Z) (s : Simulator) : outcome message TraceCheckpoint :=
  snap ← snapshot s; Ok {| cp_sequence := sequence; cp_snapshot := snap; cp_estimated_bytes := snapshot_bytes s |}.

Definition push_checkpoint (cp : TraceCheckpoint) (h : TraceHistory) : TraceHistory :=
  with_events (records h) (checkpoints h ++ [cp])%list h.

(** Source: [crates/ic10-dap/src/main.rs] [checkpoint_bytes] *)
Definition checkpoint_bytes (h : TraceHistory) : Z := default 0 (cp_estimated_bytes <$> last (checkpoints h)).

(** Source: [crates/ic10-dap/src/main.rs] [TraceHistory::new] *)
Definition new_history (s : Simulator) (events interval memory_mib : Z) : outcome message TraceHistory :=
  cp ← checkpoint_of 0 s;
  Ok {| max_events := Z.max events 2;
        max_memory_bytes := Z.min (Z.max memory_mib 1 * (1024 * 1024)) U64_MAX;
        checkpoint_interval := Z.min (Z.max interval 1) (Z.max events 2);
        records := []; checkpoints := [cp]; cursor := 0; next_sequence := 1; dropped := 0;
        sources := (λ c, normalize_path (debug_source_path (program c))) <$> cpus s;
        memory_estimate := cp_estimated_bytes cp |}.

(** ** Recording *)

(** What is recorded after a step back is forgotten.
    Source: [crates/ic10-dap/src/main.rs] [TraceHistory::record] lines 395-401 *)
Definition forget_future (h : TraceHistory) : TraceHistory :=
  if cursor h + 1 <? next_sequence h then
    recompute_memory_estimate
      (with_position (cursor h) (cursor h + 1)
        (with_events (filter (λ r, rc_sequence r ≤ cursor h) (records h))
           (filter (λ cp, cp_sequence cp ≤ cursor h) (checkpoints h)) h))
  else h.

(** Source: [crates/ic10-dap/src/main.rs] [TraceHistory::record] lines 405-428 *)
Definition event_flags (s : Simulator) (cpu : nat) (line : Z) (previous : option TraceRecord) : Z :=
  let tick_flag := match previous with
    | Some r => if negb (rc_tick r =? tick s) then event_flag "tick" else 0 | None => 0 end in
  let cpu_flags := match cpus s !! cpu with
    | Some item =>
        Z.lor (match bt_get line (operations (program item)) with
               | Some op => if String.eqb (mnemonic op) "yield" then event_flag "yield"
                            else if String.eqb (mnemonic op) "sleep" then event_flag "sleep" else 0
               | None => 0
               end)
          (match state item with Error => event_flag "error" | Halted => event_flag "halt" | _ => 0 end)
    | None => 0
    end in
  Z.lor (Z.lor (event_flag "instruction") tick_flag) cpu_flags.

(** The record of an event that ended in [s].
    Source: [crates/ic10-dap/src/main.rs] [TraceHistory::record] lines 429-446 *)
Definition new_record (s : Simulator) (sequence : Z) (cpu : nat) (line : Z) (action : ReplayAction) (effects : EffectBatch)
    (error : option message) (previous : option TraceRecord) : TraceRecord :=
  {| rc_sequence := sequence; rc_tick := tick s; rc_cpu := cpu; rc_replay_line := line;
     rc_line := match cpus s !! cpu with Some item => debug_line (program item) line + 1 | None => line + 1 end;
     rc_source_id := wrap_u 32 (Z.of_nat cpu); rc_action := action; rc_event_flags := event_flags s cpu line previous;
     rc_effects := effects; rc_error := error; rc_state_hash := state_hash s |}.

(** Source: [crates/ic10-dap/src/main.rs] [TraceHistory::record] lines 447-459 *)
Definition append_record (s : Simulator) (r : TraceRecord) (h : TraceHistory) : outcome message TraceHistory :=
  let h := with_estimate (saturating_add (memory_estimate h) (record_bytes r))
             (with_events (records h ++ [r])%list (checkpoints h) h) in
  if (rc_sequence r mod checkpoint_interval h =? 0) || is_external (rc_action r) then
    cp ← checkpoint_of (rc_sequence r) s;
    let h := push_checkpoint cp h in
    Ok (with_estimate (saturating_add (memory_estimate h) (checkpoint_bytes h)) h)
  else Ok h.

(** Source: [crates/ic10-dap/src/main.rs] [TraceHistory::record] lines 460-485 *)
Definition limit_events (s : Simulator) (sequence : Z) (h : TraceHistory) : outcome message TraceHistory :=
  if max_events h <? Z.of_nat (length (records h)) then
    first ← expect (records h !! Z.to_nat (Z.of_nat (length (records h)) - max_events h));
    let front := default 0 (cp_sequence <$> head (checkpoints h)) in
    h ← match find_first (λ cp, (rc_sequence first <=? cp_sequence cp) && (front <? cp_sequence cp)) (checkpoints h) with
      | Some baseline => Ok (drop_through (cp_sequence baseline) h)
      | None => cp ← checkpoint_of sequence s; Ok (drop_through sequence (push_checkpoint cp h))
      end;
    Ok (recompute_memory_estimate h)
  else Ok h.

(** The loop that keeps the estimate below its limit; [None] when the fuel is spent.
    Source: [crates/ic10-dap/src/main.rs] [TraceHistory::record] lines 486-507 *)
Fixpoint limit_memory (fuel : nat) (s : Simulator) (h : TraceHistory) : outcome message (option TraceHistory) :=
  match fuel with
  | O => Ok None
  | S fuel =>
      if memory_estimate h <=? max_memory_bytes h then Ok (Some h)
      else if Nat.eqb (length (checkpoints h)) 1 && Nat.eqb (length (records h)) 0 then Ok (Some h)
      else
        match checkpoints h !! 1%nat with
        | None =>
            cp ← checkpoint_of (cursor h) s;
            limit_memory fuel s (recompute_memory_estimate (push_checkpoint cp h))
        | Some next => limit_memory fuel s (recompute_memory_estimate (drop_through (cp_sequence next) h))
        end
  end.

(** Every turn drops a checkpoint, but for the one that adds the last. *)
Definition memory_fuel (h : TraceHistory) : nat := S (S (S (length (checkpoints h)))).

(** [None] when the fuel is spent, which it never is.
    Source: [crates/ic10-dap/src/main.rs] [TraceHistory::record] *)
Definition record (s : Simulator) (cpu : nat) (line : Z) (action : ReplayAction) (effects : EffectBatch) (error : option message)
    (h : TraceHistory) : outcome message (option TraceHistory) :=
  let h := forget_future h in
  let sequence := next_sequence h in
  let h := with_position sequence (sequence + 1) h in
  let r := new_record s sequence cpu line action effects error (last (records h)) in
  h ← append_record s r h;
  h ← limit_events s sequence h;
  limit_memory (memory_fuel h) s h.

(** The flags of the last record. *)
Definition alter_flags (f : Z → Z) (h : TraceHistory) : TraceHistory :=
  match last (records h) with
  | Some r =>
      with_events (removelast (records h) ++ [set_event_flags (f (rc_event_flags r)) r])%list (checkpoints h) h
  | None => h
  end.

(** Source: [crates/ic10-dap/src/main.rs] [mark_stop] *)
Definition mark_stop (reason : string) (h : TraceHistory) : TraceHistory := alter_flags (Z.lor (event_flag reason)) h.

(** Source: [crates/ic10-dap/src/main.rs] [record_stop] *)
Definition record_stop (s : Simulator) (cpu : nat) (line : Z) (reason : string) (h : TraceHistory) :
    outcome message (option TraceHistory) :=
  stopped ← record s cpu line ActStop empty_batch None h;
  Ok (option_map (alter_flags (λ _, event_flag reason)) stopped).

(** Source: [crates/ic10-dap/src/main.rs] [checkpoint_current] *)
Definition checkpoint_current (s : Simulator) (h : TraceHistory) : outcome message TraceHistory :=
  let kept :=
    match last (checkpoints h) with
    | Some cp => if cp_sequence cp =? cursor h then removelast (checkpoints h) else checkpoints h
    | None => checkpoints h
    end in
  cp ← checkpoint_of (cursor h) s;
  Ok (recompute_memory_estimate (with_events (records h) (kept ++ [cp])%list h)).

(** ** Going back *)

(** [{:016x}] of a [u64] *)
Definition hex_digit (z : Z) : string := of_bytes [if z <? 10 then 48 + z else 87 + z].
Definition hex16 (z : Z) : string :=
  concat_strings ((λ i, hex_digit (Z.land (Z.shiftr z (4 * (15 - Z.of_nat i))) 15)) <$> seq 0 16).

(** Source: [crates/ic10-dap/src/main.rs] [replay_result_matches] *)
Definition replay_result_matches {A} (r : TraceRecord) (result : outcome message A) : outcome message () :=
  match rc_error r, result with
  | _, Panic => Panic
  | None, Ok _ => Ok ()
  | Some expected, Err actual =>
      if String.eqb (message_text expected) (message_text actual) then Ok ()
      else Err ([PS "replay error diverged at trace event "; PZ (rc_sequence r); PS ": expected `"] ++ expected
                ++ [PS "`, got `"] ++ actual ++ [PS "`"])%list
  | Some expected, Ok _ =>
      Err ([PS "replay unexpectedly succeeded at trace event "; PZ (rc_sequence r); PS " (expected `"] ++ expected ++ [PS "`)"])%list
  | None, Err actual =>
      Err ([PS "replay unexpectedly failed at trace event "; PZ (rc_sequence r); PS ": "] ++ actual)%list
  end.

(** The result of a step is compared with the recorded one. *)
Definition expecting {A} (r : TraceRecord) (m : SX A) : SX () := λ s,
  let '(result, s) := m s in (replay_result_matches r result, s).

(** The clock is moved on to the tick of the record; [None] when the fuel is spent.
    Source: [crates/ic10-dap/src/main.rs] [TraceHistory::restore] lines 545-552 *)
Fixpoint replay_ticks (fuel : nat) (r : TraceRecord) : SX (option ()) :=
  match fuel with
  | O => mret None
  | S fuel =>
      now ← gets tick;
      if negb (now <? rc_tick r) then mret (Some ())
      else
        location ← next_scheduled_location;
        match location with
        | Some _ => throw [PS "replay expected a tick anchor before trace event "; PZ (rc_sequence r)]
        | None => replay_ticks fuel r
        end
  end.

(** A location the scheduler does not error at moves the clock by one. *)
Definition replay_fuel (r : TraceRecord) (s : Simulator) : nat := S (Z.to_nat (rc_tick r - tick s)).

(** The recorded action is run again; [None] when the fuel is spent.
    Source: [crates/ic10-dap/src/main.rs] [TraceHistory::restore] lines 542-581 *)
Definition replay_action (r : TraceRecord) : SX (option ()) :=
  match rc_action r with
  | ActScheduled =>
      moved ← (λ s, replay_ticks (replay_fuel r s) r s) : SX (option ());
      match moved with
      | None => mret None
      | Some _ =>
          location ← next_scheduled_location;
          location ← lift (ok_or location [PS "replay found no instruction for trace event "; PZ (rc_sequence r)]);
          if negb (bool_decide (location = (rc_cpu r, rc_replay_line r)))
          then throw [PS "replay location diverged at trace event "; PZ (rc_sequence r)]
          else _ ← expecting r scheduler_step; mret (Some ())
      end
  | ActInstruction cpu => _ ← expecting r (step_instruction cpu); mret (Some ())
  | ActWorldTick => _ ← expecting r step_world_tick; mret (Some ())
  | ActExternal => throw [PS "external trace event "; PZ (rc_sequence r); PS " is missing its checkpoint"]
  | ActStop => mret (Some ())
  end.

(** The writes of a batch by the names of their targets.
    Source: [crates/ic10-dap/src/main.rs] [TraceHistory::restore] lines 583-606 *)
Definition named_writes (batch : EffectBatch) (s : Simulator) : outcome message (list (string * Z * Z)) :=
  map_outcome (λ w, name ← effect_target_name (w_target w) s; Ok (name, w_before_bits w, w_after_bits w)) (writes batch).

(** Source: [crates/ic10-dap/src/main.rs] [TraceHistory::restore] lines 537-620 *)
Definition replay_record (r : TraceRecord) : SX (option ()) :=
  replayed ← replay_action r;
  match replayed with
  | None => mret None
  | Some _ =>
      actual ← take_effects;
      actual_writes ← (λ s, (named_writes actual s, s)) : SX (list (string * Z * Z));
      expected_writes ← (λ s, (named_writes (rc_effects r) s, s)) : SX (list (string * Z * Z));
      if negb (is_external (rc_action r)) && negb (bool_decide (actual_writes = expected_writes))
      then throw [PS "deterministic replay effects diverged at trace event "; PZ (rc_sequence r)]
      else
        actual_hash ← gets state_hash;
        if negb (actual_hash =? rc_state_hash r)
        then throw [PS "deterministic replay state diverged at trace event "; PZ (rc_sequence r); PS ": expected ";
                    PS (hex16 (rc_state_hash r)); PS ", got "; PS (hex16 actual_hash)]
        else mret (Some ())
  end.

Fixpoint replay_records (rs : list TraceRecord) : SX (option ()) :=
  match rs with
  | [] => mret (Some ())
  | r :: rs' =>
      replayed ← replay_record r;
      match replayed with None => mret None | Some _ => replay_records rs' end
  end.

(** The last checkpoint up to a state.
    Source: [crates/ic10-dap/src/main.rs] [TraceHistory::restore] lines 530-535 *)
Definition anchor (target : Z) (h : TraceHistory) : option TraceCheckpoint :=
  find_first (λ cp, cp_sequence cp <=? target) (rev (checkpoints h)).

(** The simulation is taken to a state, and the history where it is; [None] when the
    fuel of a record is spent.  On an error the simulation is where the replay stopped.
    Source: [crates/ic10-dap/src/main.rs] [TraceHistory::restore] *)
Definition restore_history (target : Z) (h : TraceHistory) : SX (option TraceHistory) :=
  checkpoint ← lift (ok_or (anchor target h) [PS "requested state is no longer retained"]);
  _ ← restore (cp_snapshot checkpoint);
  replayed ← replay_records
    (filter (λ r, cp_sequence checkpoint < rc_sequence r ∧ rc_sequence r ≤ target) (records h));
  match replayed with
  | None => mret None
  | Some _ => mret (Some (with_position target (next_sequence h) h))
  end.

(** The first element that gives a value. *)
Fixpoint find_outcome {A B} (f : A → outcome message (option B)) (l : list A) : outcome message (option B) :=
  match l with
  | [] => Ok None
  | a :: l' => found ← f a; match found with Some b => Ok (Some b) | None => find_outcome f l' end
  end.

(** The last write to a target at or before the cursor.
    Source: [crates/ic10-dap/src/main.rs] [previous_write] lines 624-641 *)
Definition previous_write (s : Simulator) (target : string) (h : TraceHistory) : outcome message (option (TraceRecord * WriteEffect)) :=
  find_outcome (λ r,
    find_outcome (λ w,
      name ← effect_target_name (w_target w) s;
      Ok (if String.eqb name target then Some (r, w) else None)) (writes (rc_effects r)))
    (filter (λ r, rc_sequence r ≤ cursor h) (rev (records h))).
End history.
