(* ===== verification/HistoryFacts.v ===== *)
(** * The history of a debugged simulation: facts

    Proofs about [History] and [Replay].  A checkpoint put back into a later state of the
    same simulation gives the state it was taken in, but for the journal
    ([restore_same]).  What a debugger runs is a relation ([performs], [event]); a record
    of an event, run again in a state like the one it ran in, gives the state after it
    ([replay_recorded]). *)

From S2P Require Import Prelude BTree Text F64 Knowledge Literals Journal Scenario World Program Compile Cpu Exec.
From S2P Require Import Isa Frame Behaviour Vm Lua Simulator Tick Safety Control Schema Evaluator EvaluatorFacts.
From S2P Require Import ScriptDriver ScriptDriverFacts Load Runner RunnerFacts Replay History.
Local Open Scope string_scope.
Local Open Scope Z_scope.

(** ** What never changes *)

#[local] Set Default Proof Using "All".
Section static.
Context `{Libm} `{Build} `{LuaEngine} `{FloatDisplay}.
#[local] Abbreviation SX := (M Simulator message).

Definition identity (c : Cpu) := (cpu_id c, program_id c, cpu_name c, housing c, program c).

Definition static (s : Simulator) :=
  (knowledge s, compatibility_warnings s, sim_schedule s, length (lua_programs s), identity <$> cpus s).

Definition same_static (s s' : Simulator) : Prop := static s' = static s.

#[export] Instance same_static_preorder : PreOrder same_static.
Proof. split; [by intros s|]. intros a b c Hab Hbc. unfold same_static in *. congruence. Qed.

Lemma static_parts s s' :
  knowledge s' = knowledge s → compatibility_warnings s' = compatibility_warnings s → sim_schedule s' = sim_schedule s →
  length (lua_programs s') = length (lua_programs s) → identity <$> cpus s' = identity <$> cpus s → same_static s s'.
Proof. unfold same_static, static. congruence. Qed.

Lemma identity_insert s i c c' : cpus s !! i = Some c → identity c' = identity c →
  identity <$> <[i := c']> (cpus s) = identity <$> cpus s.
Proof. intros Hc He. rewrite list_fmap_insert, He. apply list_insert_id. by rewrite list_lookup_fmap, Hc. Qed.

Lemma static_on_machine {A} i (m : M Machine message A) : keeps same_machine_control m → keeps same_static (on_machine i m).
Proof.
  intros Hm s. unfold on_machine. destruct (cpus s !! i) as [c|] eqn:Hc; [|done].
  specialize (Hm (machine_of s c)). destruct (m (machine_of s c)) as [r x]. simpl in *.
  apply static_parts; [done..|]. simpl. apply (identity_insert _ _ c); [done|].
  unfold same_machine_control, same_control, control in Hm. simpl in Hm. unfold identity. congruence.
Qed.
Lemma static_on_cpu_at {A} i (m : M Cpu message A) : keeps same_control m → keeps same_static (on_cpu_at i m).
Proof. intros Hm. apply static_on_machine. by apply keeps_on_cpu. Qed.
Lemma static_alter_cpu i (f : Cpu → Cpu) : (∀ c, identity (f c) = identity c) → keeps (E:=message) same_static (alter_cpu i f).
Proof.
  intros Hf s. unfold alter_cpu. destruct (cpus s !! i) as [c|] eqn:Hc; [|done]. apply static_parts; [done..|]. simpl.
  by apply (identity_insert _ _ c).
Qed.
Lemma static_modify (f : Simulator → Simulator) : (∀ s, static (f s) = static s) → keeps (E:=message) same_static (modify f).
Proof. intros Hf. apply keeps_modify. exact Hf. Qed.
Lemma static_sim_intern name : keeps same_static (sim_intern name).
Proof. intros s. unfold sim_intern. by destruct (intern name (journal s)). Qed.
Lemma static_on_behaviours {A} (m : M BState BehaviourError A) : keeps same_static (on_behaviours m).
Proof. intros s. unfold on_behaviours. by destruct (m _) as [r b]. Qed.
Lemma static_collect_effects i : keeps same_static (collect_effects i).
Proof.
  intros s. unfold collect_effects. destruct (cpus s !! i) as [c|] eqn:Hc; [|done].
  apply static_parts; [done..|]. simpl. by apply (identity_insert _ _ c).
Qed.
Hint Extern 1 (keeps same_static (modify _)) => by apply static_modify : frame.
Hint Extern 1 (keeps same_static (alter_cpu _ _)) => by apply static_alter_cpu : frame.
Hint Resolve static_sim_intern static_on_behaviours static_collect_effects : frame.
Lemma static_insert_device_field d f v : keeps same_static (insert_device_field d f v).
Proof. unfold insert_device_field, sim_device, sim_alter_device. keeps_run. Qed.
Lemma static_write_bits actor t a b : keeps same_static (sim_write_bits actor t a b).
Proof. unfold sim_write_bits. keeps_run. Qed.
Lemma static_deliver_field_writes : keeps same_static deliver_field_writes.
Proof.
  intros s. unfold deliver_field_writes, take_field_writes.
  transitivity (sim_set_world (set_field_writes [] (world s)) s); [done|]. apply keeps_for_each; [typeclasses eauto|].
  intros [[[d f] b] a]. by apply static_modify.
Qed.
Lemma static_count_operation i actor : keeps same_static (count_operation i actor).
Proof. unfold count_operation, sim_write_bits. keeps_run. Qed.
Hint Resolve static_insert_device_field static_write_bits static_deliver_field_writes static_count_operation : frame.
Hint Extern 1 (keeps same_static (on_cpu_at _ _)) => apply static_on_cpu_at; auto with frame : frame.

Lemma static_step_instruction i : keeps same_static (step_instruction i).
Proof.
  unfold step_instruction, sim_journal_enabled. keeps_run. intros s.
  match goal with |- context [execute_operation ?kb ?now ?actor ?op] =>
    pose proof (static_on_machine i _ (keeps_execute_operation kb now actor op) s) as Hk end.
  by destruct (on_machine _ _ _) as [[]].
Qed.

Lemma static_alter_lua i f : keeps same_static (alter_lua i f).
Proof.
  unfold alter_lua. keeps_run. apply keeps_modify. intros s. apply static_parts; try done. simpl. by rewrite length_insert.
Qed.
Hint Resolve static_alter_lua static_step_instruction : frame.

Lemma static_adapter_step a : keeps same_static (adapter_step (H:=Simulator) a).
Proof.
  destruct a as [i|i]; simpl; [unfold sim_ic10_step; keeps_run|]. unfold sim_lua_step. keeps_run.
  intros s. destruct (lua_runtime_step _ _ _) as [[r w] x]. apply static_parts; try done. simpl. by rewrite length_insert.
Qed.
Lemma static_adapter_halt a : keeps same_static (adapter_halt (H:=Simulator) a).
Proof. destruct a as [i|i]; simpl; [unfold sim_ic10_halt|unfold sim_lua_halt]; keeps_run. Qed.
Lemma static_adapter_begin_tick now a : keeps same_static (adapter_begin_tick (H:=Simulator) now a).
Proof. destruct a as [i|i]; simpl; [unfold sim_ic10_begin_tick|unfold sim_lua_begin_tick]; keeps_run. Qed.
Lemma static_set_scheduler_slot v : keeps same_static (set_scheduler_slot v).
Proof. unfold set_scheduler_slot. keeps_run. Qed.
Hint Resolve static_adapter_step static_adapter_halt static_adapter_begin_tick static_set_scheduler_slot : frame.
Lemma static_advance_tick : keeps same_static advance_tick.
Proof. unfold advance_tick. keeps_run. Qed.
Hint Resolve static_advance_tick : frame.
Lemma static_prepare_from slots : keeps same_static (prepare_from slots).
Proof. induction slots as [|a slots IH]; simpl; keeps_run; by intros s. Qed.
Hint Resolve static_prepare_from : frame.
Lemma static_prepare_next_adapter : keeps same_static prepare_next_adapter.
Proof. intros s. apply static_prepare_from. Qed.
Hint Resolve static_prepare_next_adapter : frame.
Lemma static_scheduler_step : keeps same_static scheduler_step.
Proof. unfold scheduler_step. keeps_run; by intros s. Qed.
Hint Resolve static_scheduler_step : frame.
Lemma static_next_scheduled_location : keeps same_static next_scheduled_location.
Proof.
  intros s. pose proof (static_prepare_next_adapter s) as Hp. unfold next_scheduled_location.
  by destruct (prepare_next_adapter s) as [[[[a l]|]|e|] t].
Qed.
Lemma static_step_until_tick fuel start events : keeps same_static (step_until_tick fuel start events).
Proof. revert events. induction fuel as [|fuel IH]; intros events; simpl; keeps_run. Qed.
Lemma static_step_world_tick : keeps same_static step_world_tick.
Proof. intros s. apply static_step_until_tick. Qed.
End static.

(** ** A checkpoint put back *)

Section rewind.
Context `{Libm} `{Build} `{LuaEngine} `{FloatDisplay}.
#[local] Abbreviation SX := (M Simulator message).

Definition quiet (s : Simulator) : Prop := pending (journal s) = empty_batch.
Definition few_names (s : Simulator) : Prop := Z.of_nat (length (symbols (journal s))) < 2 ^ 32.

(** Every processor has a slot of its own. *)
Definition covered (s : Simulator) : Prop :=
  NoDup (sim_schedule s) ∧ ∀ i, (i < length (cpus s))%nat → AdIc10 i ∈ sim_schedule s.

Lemma same_refl s : index_ok (journal s) → few_names s → same s s.
Proof.
  intros Hi Hf. change (same_simulator None s s). split; try done. apply Forall_Forall2_diag, Forall_forall. by intros c _.
Qed.

Lemma same_core_sym c c' : same_core c c' → same_core c' c.
Proof. intros []. by split. Qed.
Lemma same_core_trans c1 c2 c3 : same_core c1 c2 → same_core c2 c3 → same_core c1 c3.
Proof. intros [] []. split; congruence. Qed.

(** Two states that are the same as a third. *)
Lemma same_join a b c : same a b → same a c → symbols (journal b) `prefix_of` symbols (journal c) → same b c.
Proof.
  intros Hb Hc Hn. pose proof (ss_cpus _ _ _ Hb) as Hcb. pose proof (ss_cpus _ _ _ Hc) as Hcc.
  destruct Hb as [? ? ? ? ? ? ? ? ? ? [] _ _], Hc as [? ? ? ? ? ? ? ? ? ? [] _ _].
  change (same_simulator None b c). split; try congruence; [by split; try congruence|].
  apply Forall2_same_length_lookup. split.
  - apply Forall2_length in Hcb, Hcc. congruence.
  - intros i x y Hx Hy. destruct (Forall2_lookup_r _ _ _ _ _ Hcb Hx) as (z & Hz & Hzx).
    destruct (Forall2_lookup_l _ _ _ _ _ Hcc Hz) as (y' & Hy' & Hzy). simplify_eq.
    eapply same_core_trans; [by apply same_core_sym|done].
Qed.

Lemma seen_adapter_snapshot a : seen (λ s : Simulator, adapter_snapshot s a).
Proof.
  intros s s' Hs. destruct a as [i|i]; unfold adapter_snapshot; simpl.
  - unfold sim_ic10_snapshot. pose proof (same_cpu _ _ _ i Hs) as Hc. destruct (cpus s !! i), (cpus s' !! i); [|done..].
    destruct Hc as [Hc _]. cpu_parts. simpl. congruence.
  - unfold sim_lua_snapshot. by rewrite (ss_lua_programs _ _ _ Hs).
Qed.

Lemma map_outcome_ext {E A B} (f g : A → outcome E B) l : (∀ a, f a = g a) → map_outcome f l = map_outcome g l.
Proof. intros Hfg. induction l as [|a l IH]; simpl; [done|]. by rewrite Hfg, IH. Qed.

Lemma seen_snapshot : seen snapshot.
Proof.
  intros s s' Hs. unfold snapshot. rewrite (ss_schedule _ _ _ Hs).
  rewrite (map_outcome_ext _ (adapter_snapshot s)) by (intros a; by apply seen_adapter_snapshot).
  pose proof (sj_sequence _ _ (ss_journal _ _ _ Hs)) as Hseq. destruct Hs. unfold write_sequence.
  destruct (map_outcome _ _); [|done..]. congruence.
Qed.

Lemma seen_state_hash : seen state_hash.
Proof.
  intros s s' Hs. unfold state_hash, state_hash_bytes.
  assert (cpu_hash_bytes <$> cpus s' = cpu_hash_bytes <$> cpus s) as ->; [|by destruct Hs as [? -> ? -> ? ? -> -> -> -> ? ? ?]].
  apply cpus_hash_bytes; [by apply same_cpu_count|]. intros i _. by apply seen_adapter_snapshot.
Qed.

Lemma static_adapter_restore a x : keeps same_static (adapter_restore (H:=Simulator) a x).
Proof.
  destruct a as [i|i], x as [x|x]; simpl; [|by intros s..|].
  - unfold sim_ic10_restore. keeps_run. by apply static_alter_cpu.
  - unfold sim_lua_restore. keeps_run. apply static_alter_lua.
Qed.
Lemma static_restore snap : keeps same_static (restore snap).
Proof. unfold restore. keeps_run; [by apply static_modify|apply static_adapter_restore]. Qed.

(** The state of a checkpoint, taken again from a later state of the simulation. *)
Lemma restore_same a y snap :
  snapshot a = Ok snap → quiet a → covered a → lua_programs a = [] → same_static a y →
  length (devices (world y)) = length (devices (world a)) → length (networks (world y)) = length (networks (world a)) →
  later (journal a) (journal y) → index_ok (journal a) → index_ok (journal y) → few_names y →
  ∃ y', restore snap y = (Ok (), y') ∧ same a y' ∧ same_static y y' ∧ symbols (journal y') = symbols (journal y)
    ∧ later (journal y) (journal y').
Proof.
  intros Hsnap Hquiet [Hnd Hall] Hlua Hstatic Hdev Hnet [Hle Hln _] Hia Hiy Hfew.
  pose proof Hstatic as Hst. unfold same_static, static in Hst. injection Hst as Hk Hw Hsched Hlen Hid.
  assert (length (cpus y) = length (cpus a)) as Hcount by (by rewrite <-(length_fmap identity (cpus y)), Hid, length_fmap).
  destruct (restore_run a y snap Hsnap Hnd Hsched Hcount Hlen Hdev Hnet) as (y' & Hrun & Hsnap' & Hshared).
  exists y'. pose proof (static_restore snap y) as Hstatic'. rewrite Hrun in Hstatic'. simpl in Hstatic'.
  unfold shared in Hshared. injection Hshared as Hk' Hw' Ht' Hs' Hslot' He' Hb' Hd' Hj' Hc' Hl'. simpl in *.
  split; [done|]. split; [|split; [done|split; [by rewrite Hj'|rewrite Hj'; by apply later_with]]].
  pose proof Hstatic' as Hst'. unfold same_static, static in Hst'. injection Hst' as _ Hwarn _ _ Hid'.
  pose proof Hsnap as Hparts. unfold snapshot, adapters in Hparts, Hsnap'. rewrite Hs', Hsched in Hsnap'.
  destruct (map_outcome (adapter_snapshot a) _) as [saved| |] eqn:Hm; [|done..].
  destruct (map_outcome (adapter_snapshot y') _) as [saved'| |] eqn:Hm'; [|done..].
  injection Hparts as <-. simpl in *. injection Hsnap' as _ ->.
  change (same_simulator None a y'). split; try congruence.
  - rewrite Hlua in Hlen |- *. apply nil_length_inv. simpl in Hlen. lia.
  - rewrite Hj'. unfold quiet in Hquiet. split; simpl; try done; congruence.
  - apply Forall2_same_length_lookup. split; [congruence|]. intros i c c' Hc Hc''.
    pose proof (map_outcome_agree _ _ _ _ _ Hm' Hm (Hall i (lookup_lt_Some _ _ _ Hc))) as Hi.
    unfold adapter_snapshot in Hi. simpl in Hi. unfold sim_ic10_snapshot in Hi. rewrite Hc, Hc'' in Hi. injection Hi as ????????.
    assert (identity c' = identity c) as Hidc.
    { assert (identity <$> cpus y' !! i = identity <$> cpus a !! i) as Hl by (rewrite <-!list_lookup_fmap; congruence).
      rewrite Hc, Hc'' in Hl. simpl in Hl. congruence. }
    unfold identity in Hidc. injection Hidc as ?????. split; congruence.
Qed.
End rewind.

(** ** The clock and the cursor of the scheduler *)

Section cursor.
Context `{Libm} `{Build} `{LuaEngine} `{FloatDisplay}.
#[local] Abbreviation SX := (M Simulator message).

(** The slot stays a slot. *)
Definition slot_kept (s s' : Simulator) : Prop := 0 ≤ scheduler_slot s → 0 ≤ scheduler_slot s'.

#[export] Instance slot_kept_preorder : PreOrder slot_kept.
Proof. split; [by intros s Hs|]. intros a b c Hab Hbc Ha. by apply Hbc, Hab. Qed.

Lemma slot_view {A} (m : SX A) : keeps same_view m → keeps slot_kept m.
Proof.
  intros Hm s. specialize (Hm s). unfold same_view, view, fixed_view in Hm. unfold slot_kept.
  assert (scheduler_slot (m s).2 = scheduler_slot s) as -> by congruence. done.
Qed.
Lemma slot_alter_cpu i f : keeps (E:=message) slot_kept (alter_cpu i f).
Proof. intros s. unfold alter_cpu. destruct (cpus s !! i); intros Hs; exact Hs. Qed.
Lemma slot_modify (f : Simulator → Simulator) : (∀ s, scheduler_slot (f s) = scheduler_slot s) → keeps (E:=message) slot_kept (modify f).
Proof. intros Hf. apply keeps_modify. intros s. unfold slot_kept. by rewrite Hf. Qed.
Hint Resolve slot_view slot_alter_cpu : frame.
Hint Extern 1 (keeps slot_kept (modify _)) => by apply slot_modify : frame.
Lemma slot_count_operation i actor : keeps slot_kept (count_operation i actor).
Proof. unfold count_operation, sim_write_bits. keeps_run. Qed.
Hint Resolve slot_count_operation : frame.
Lemma slot_step_instruction i : keeps slot_kept (step_instruction i).
Proof.
  unfold step_instruction. keeps_run. intros s.
  match goal with |- context [execute_operation ?kb ?now ?actor ?op] => pose proof (slot_view _ (view_execute i kb now actor op) s) as Hk end.
  destruct (on_machine _ _ _) as [[]]; exact Hk.
Qed.
Hint Resolve slot_step_instruction : frame.
Lemma slot_alter_lua i f : keeps slot_kept (alter_lua i f).
Proof. unfold alter_lua. keeps_run. Qed.
Hint Resolve slot_alter_lua : frame.
Lemma slot_adapter_step a : keeps slot_kept (adapter_step (H:=Simulator) a).
Proof.
  destruct a as [i|i]; simpl; [unfold sim_ic10_step; keeps_run|]. unfold sim_lua_step. keeps_run.
  intros s. destruct (lua_runtime_step _ _ _) as [[r w] x]. intros Hs; exact Hs.
Qed.
Lemma slot_adapter_halt a : keeps slot_kept (adapter_halt (H:=Simulator) a).
Proof. destruct a as [i|i]; simpl; [unfold sim_ic10_halt, sim_write_bits|unfold sim_lua_halt]; keeps_run. Qed.
Lemma slot_adapter_begin_tick now a : keeps slot_kept (adapter_begin_tick (H:=Simulator) now a).
Proof. destruct a as [i|i]; simpl; [unfold sim_ic10_begin_tick, sim_write_bits|unfold sim_lua_begin_tick]; keeps_run. Qed.
Lemma slot_set_zero : keeps slot_kept (set_scheduler_slot 0).
Proof. intros s _. reflexivity. Qed.
Hint Resolve slot_adapter_step slot_adapter_halt slot_adapter_begin_tick slot_set_zero : frame.
Lemma slot_advance_tick : keeps slot_kept advance_tick.
Proof. unfold advance_tick, sim_write_bits. keeps_run. Qed.

Lemma slot_next {A} (k : SX A) : keeps slot_kept k → keeps slot_kept (slot ← gets scheduler_slot; _ ← set_scheduler_slot (slot + 1); k).
Proof. intros Hk s Hs. apply Hk. simpl. lia. Qed.

Lemma slot_prepare_from slots : keeps slot_kept (prepare_from slots).
Proof.
  induction slots as [|a slots IH]; simpl.
  { apply keeps_bind; [typeclasses eauto|apply slot_advance_tick|intros _; apply keeps_ret; typeclasses eauto]. }
  apply keeps_bind; [typeclasses eauto|by intros s|intros l]. apply keeps_bind; [typeclasses eauto|apply keeps_gets; typeclasses eauto|intros now].
  intros s Hs. unfold mbind at 1, M_mbind at 1. cbn [gets]. destruct (negb (can_step l now)).
  { exact (slot_next _ IH s Hs). }
  destruct (current_location l); [exact Hs|]. pose proof (slot_adapter_halt a s Hs) as Hh. unfold mbind, M_mbind.
  pose proof (adapter_halt_view a s) as Hview. destruct (adapter_halt a s) as [[u|e|] s1]; simpl in *; [|done..].
  apply (IH _). simpl. lia.
Qed.
Lemma slot_scheduler_step : keeps slot_kept scheduler_step.
Proof.
  unfold scheduler_step. apply keeps_bind; [typeclasses eauto|apply keeps_gets; typeclasses eauto|intros pe].
  destruct pe; [apply keeps_bind; [typeclasses eauto|by apply slot_modify|intros _; apply keeps_throw; typeclasses eauto]|].
  apply keeps_bind; [typeclasses eauto|intros s; apply slot_prepare_from|intros prepared].
  destruct prepared as [[a location]|]; [|apply keeps_ret; typeclasses eauto].
  apply keeps_bind; [typeclasses eauto|apply slot_adapter_step|intros res]. apply keeps_bind; [typeclasses eauto|by intros s|intros l].
  destruct (retains_slot l); cbn [negb when]; [keeps_run|].
  intros s Hs. simpl. lia.
Qed.
Lemma slot_next_scheduled_location : keeps slot_kept next_scheduled_location.
Proof.
  intros s Hs. pose proof (slot_prepare_from (drop (Z.to_nat (scheduler_slot s)) (sim_schedule s)) s Hs) as Hp.
  unfold next_scheduled_location, prepare_next_adapter. by destruct (prepare_from _ s) as [[[[a l]|]|e|] t].
Qed.
Lemma slot_step_world_tick : keeps slot_kept step_world_tick.
Proof.
  intros s. unfold step_world_tick. generalize (tick_fuel s), (tick s), (@nil StepEvent). intros fuel start.
  assert (∀ events, keeps slot_kept (step_until_tick fuel start events)) as Hk; [|intros events; apply Hk].
  induction fuel as [|fuel IH]; intros events; cbn [step_until_tick]; [apply keeps_ret; typeclasses eauto|].
  pose proof slot_scheduler_step. keeps_run.
Qed.
End cursor.

(** ** Recorded events *)

Section events.
Context `{Libm} `{Build} `{LuaEngine} `{FloatDisplay}.
#[local] Abbreviation SX := (M Simulator message).

(** A later state of the same simulation. *)
Definition evolves (s s' : Simulator) : Prop := same_static s s' ∧ later (journal s) (journal s').

#[export] Instance evolves_preorder : PreOrder evolves.
Proof. split; [by intros s|]. intros a b c [Ha Hla] [Hb Hlb]. split; by etransitivity. Qed.

(** The debugger looks for a location, and the tick passes instead. *)
Inductive looks : Simulator → Simulator → Prop :=
  | looks_none s : looks s s
  | looks_tick s s1 t : next_scheduled_location s = (Ok None, s1) → tick s1 = tick s + 1 → looks s1 t → looks s t.

Definition error_of {A} (result : outcome message A) : option message := match result with Err e => Some e | _ => None end.

(** An edit by the debugger or a stimulus of a test: whatever leaves the simulation well
    formed and the scheduler where it was. *)
Definition edits (s u : Simulator) : Prop :=
  evolves s u ∧ scheduler_slot u = scheduler_slot s ∧ ∀ sizes nn nc, sim_ok sizes nn nc s → sim_ok sizes nn nc u.

(** What the debugger runs, and records with a processor, a line and the error. *)
Inductive performs (s : Simulator) : ReplayAction → nat → Z → option message → Simulator → Prop :=
  | performs_scheduled s1 s2 cpu line result u :
      looks s s1 → next_scheduled_location s1 = (Ok (Some (cpu, line)), s2) → scheduler_step s2 = (result, u) →
      result ≠ Panic → performs s ActScheduled cpu line (error_of result) u
  | performs_instruction i cpu line result u :
      step_instruction i s = (result, u) → result ≠ Panic → performs s (ActInstruction i) cpu line (error_of result) u
  | performs_world_tick cpu line events u :
      step_world_tick s = (Ok events, u) → performs s ActWorldTick cpu line None u
  | performs_external cpu line u : edits s u → performs s ActExternal cpu line None u
  | performs_stop cpu line : performs s ActStop cpu line None s.

(** An action, and the state after its effects were taken.  The places they write have
    names. *)
Definition event (s : Simulator) (action : ReplayAction) (cpu : nat) (line : Z) (effects : EffectBatch) (error : option message)
    (t : Simulator) : Prop :=
  ∃ u names, performs s action cpu line error u ∧ take_effects u = (Ok effects, t) ∧ named_writes effects t = Ok names.

(** The record of an event. *)
Definition recorded (s : Simulator) (r : TraceRecord) (t : Simulator) : Prop :=
  event s (rc_action r) (rc_cpu r) (rc_replay_line r) (rc_effects r) (rc_error r) t
  ∧ rc_tick r = tick t ∧ rc_state_hash r = state_hash t.

(** A location that was found is still there for the step that follows. *)
Lemma scheduled_tick s1 s2 location result u :
  0 ≤ scheduler_slot s1 → next_scheduled_location s1 = (Ok (Some location), s2) → scheduler_step s2 = (result, u) →
  tick s2 = tick s1 ∧ tick u = tick s1.
Proof.
  intros Hslot Hlook Hstep. unfold next_scheduled_location, prepare_next_adapter in Hlook.
  destruct (prepare_from _ s1) as [[[[a l]|]|e|] sm] eqn:Hp; try done. injection Hlook as <- ->.
  apply prepare_from_spec in Hp; [|done|done]. destruct Hp as (skipped & rest & _ & [Hfixed _] & _ & _ & _ & Hleft & (l' & Hl & Hcan & Hloc)).
  assert (tick s2 = tick s1) as Ht2 by (unfold fixed_view in Hfixed; congruence). split; [done|]. rewrite <-Ht2. revert Hstep.
  unfold scheduler_step, mbind, M_mbind. cbn [gets]. destruct (scheduler_error s2); [by intros [= <- <-]|].
  unfold prepare_next_adapter. fold (slots_left s2). rewrite Hleft. cbn [prepare_from]. unfold mbind, M_mbind. cbn [gets].
  rewrite Hl. rewrite Hcan. cbn [negb]. rewrite Hloc. cbn [mret M_mret].
  pose proof (tick_adapter_step a s2) as Ha. unfold same_tick in Ha.
  destruct (adapter_step a s2) as [[res|e|] s3]; simpl in Ha; [|by intros [= <- <-]..].
  destruct (adapter_lifecycle a s3) as [l3|e|]; [|by intros [= <- <-]..]. rewrite <-Ha.
  destruct (retains_slot l3); cbn [negb when]; [by intros [= <- <-]|]. intros Hset. by inversion Hset.
Qed.

Lemma looks_later s t : looks s t → tick s ≤ tick t ∧ evolves s t ∧ slot_kept s t.
Proof.
  induction 1 as [s|s s1 t Hlook Htick _ (Hle & Hev & Hsl)].
  { split; [lia|]. split; [done|intros Hs; exact Hs]. }
  pose proof (static_next_scheduled_location s) as Hst. pose proof (proj1 replays_next_scheduled_location s) as Hl.
  pose proof (slot_next_scheduled_location s) as Hs. rewrite Hlook in Hst, Hl, Hs. simpl in *.
  split; [lia|]. split; [etransitivity; [|exact Hev]; by split|by etransitivity].
Qed.

Lemma performs_evolves s action cpu line e u :
  performs s action cpu line e u → evolves s u ∧ slot_kept s u.
Proof.
  intros Hp. destruct Hp as [s1 s2 cpu line result u Hlooks Hlook Hstep _|i cpu line result u Hstep _|cpu line events u Hstep|cpu line u Hev|].
  - pose proof (looks_later _ _ Hlooks) as (_ & Hev & Hsl).
    pose proof (static_next_scheduled_location s1) as Hst. pose proof (proj1 replays_next_scheduled_location s1) as Hl.
    pose proof (slot_next_scheduled_location s1) as Hs. rewrite Hlook in Hst, Hl, Hs.
    pose proof (static_scheduler_step s2) as Hst'. pose proof (proj1 replays_scheduler_step s2) as Hl'.
    pose proof (slot_scheduler_step s2) as Hs'. rewrite Hstep in Hst', Hl', Hs'. simpl in *.
    split; [|by repeat (etransitivity; [eassumption|])]. do 2 (etransitivity; [|by split; [|eassumption]]). done.
  - pose proof (static_step_instruction i s) as Hst. pose proof (proj1 (replays_step_instruction i) s) as Hl.
    pose proof (slot_step_instruction i s) as Hs. rewrite Hstep in Hst, Hl, Hs. by split.
  - pose proof (static_step_world_tick s) as Hst. pose proof (proj1 replays_step_world_tick s) as Hl.
    pose proof (slot_step_world_tick s) as Hs. rewrite Hstep in Hst, Hl, Hs. by split.
  - destruct Hev as (Hev & Hslot & _). split; [done|]. intros Hs. by rewrite Hslot.
  - split; [done|intros Hs; exact Hs].
Qed.
End events.

(** ** A record replays *)

Section replaying.
Context `{Libm} `{Build} `{LuaEngine} `{FloatDisplay}.
#[local] Abbreviation SX := (M Simulator message).

Lemma evolves_names t u (y : Simulator) : evolves t u → names u `prefix_of` names y → names t `prefix_of` names y.
Proof. intros [_ [_ Hn _]] Hu. by etransitivity. Qed.

(** A computation that ran, run again. *)
Lemma replays_run {A} (m : SX A) s r t y :
  replays m → m s = (r, t) → same s y → names t `prefix_of` names y → ∃ y', m y = (r, y') ∧ same t y' ∧ names y' = names y.
Proof. intros [_ Hm] Hrun Hs Hn. specialize (Hm s y Hs). rewrite Hrun in Hm. by apply Hm. Qed.

Lemma replay_ticks_looks r s s1 y fuel :
  looks s s1 → rc_tick r = tick s1 → same s y → names s1 `prefix_of` names y → (Z.to_nat (tick s1 - tick s) < fuel)%nat →
  ∃ y', replay_ticks fuel r y = (Ok (Some ()), y') ∧ same s1 y' ∧ names y' = names y.
Proof.
  intros Hlooks. revert y fuel. induction Hlooks as [s|s sm t Hlook Htick Hlooks IH]; intros y fuel Ht Hs Hn Hfuel;
    (destruct fuel as [|fuel]; [lia|]); cbn [replay_ticks]; erewrite bind_run by done; cbv beta iota; rewrite (ss_tick _ _ _ Hs), Ht.
  - rewrite Z.ltb_irrefl. by exists y.
  - pose proof (looks_later _ _ Hlooks) as (Hle & Hev & _).
    assert (tick s <? tick t = true) as -> by lia. cbn [negb].
    destruct (replays_run _ _ _ _ y replays_next_scheduled_location Hlook) as (ym & Hrun & Hsm & Hnm);
      [done|by eapply evolves_names|]. erewrite bind_run by exact Hrun. cbv beta iota. rewrite <-Hnm.
    apply IH; [done|done|by rewrite Hnm|lia].
Qed.

Lemma replay_result_recorded {A} r (result : outcome message A) :
  rc_error r = error_of result → result ≠ Panic → replay_result_matches r result = Ok ().
Proof. unfold replay_result_matches. intros -> Hp. destruct result; simpl; [done| |done]. by rewrite String.eqb_refl. Qed.

Lemma expecting_recorded {A} r (m : SX A) s result t y :
  replays m → m s = (result, t) → result ≠ Panic → rc_error r = error_of result → same s y → names t `prefix_of` names y →
  ∃ y', expecting r m y = (Ok (), y') ∧ same t y' ∧ names y' = names y.
Proof.
  intros Hm Hrun Hp He Hs Hn. destruct (replays_run m s result t y Hm Hrun Hs Hn) as (y' & Hrun' & Hs' & Hn').
  exists y'. unfold expecting. rewrite Hrun'. by rewrite replay_result_recorded.
Qed.

Lemma replay_action_recorded r s u y :
  0 ≤ scheduler_slot s → performs s (rc_action r) (rc_cpu r) (rc_replay_line r) (rc_error r) u → rc_tick r = tick u →
  is_external (rc_action r) = false → same s y → names u `prefix_of` names y →
  ∃ y', replay_action r y = (Ok (Some ()), y') ∧ same u y' ∧ names y' = names y.
Proof.
  intros Hslot Hp Htick Hext Hs Hn. unfold replay_action.
  remember (rc_action r) as action eqn:Ha. remember (rc_error r) as e eqn:He.
  remember (rc_cpu r) as cpu eqn:Hcpu. remember (rc_replay_line r) as line eqn:Hline.
  destruct Hp as [s1 s2 cpu line result u Hlooks Hlook Hstep Hok|i cpu line result u Hstep Hok|cpu line events u Hstep|cpu line u Hev|]; [..|done|].
  - pose proof (looks_later _ _ Hlooks) as (_ & Hev & Hsl).
    destruct (scheduled_tick _ _ _ _ _ (Hsl Hslot) Hlook Hstep) as [Ht2 Htu].
    pose proof (proj1 replays_next_scheduled_location s1) as [_ Hn1 _]. rewrite Hlook in Hn1.
    pose proof (proj1 replays_scheduler_step s2) as [_ Hn2 _]. rewrite Hstep in Hn2. cbn [snd log traced_simulator] in Hn1, Hn2.
    destruct (replay_ticks_looks r s s1 y (replay_fuel r y) Hlooks) as (y1 & Hrun1 & Hs1 & Hy1); [congruence|done| | |].
    { unfold names in *. simpl in *. by do 2 (etransitivity; [eassumption|]). }
    { unfold replay_fuel. rewrite (ss_tick _ _ _ Hs). replace (rc_tick r) with (tick s1) by congruence. lia. }
    erewrite bind_run by exact Hrun1. cbv beta iota.
    destruct (replays_run _ _ _ _ y1 replays_next_scheduled_location Hlook) as (y2 & Hrun2 & Hs2 & Hy2); [done| |].
    { unfold names in *. simpl in *. rewrite Hy1. by etransitivity. }
    erewrite bind_run by exact Hrun2. cbv beta iota. cbn [ok_or lift]. erewrite bind_run by done. cbv beta iota.
    rewrite bool_decide_eq_true_2 by done. cbn [negb].
    destruct (expecting_recorded r scheduler_step s2 result u y2) as (y' & Hrun' & Hs' & Hy');
      [apply replays_scheduler_step|done|done|done|done|by rewrite Hy2, Hy1|].
    erewrite bind_run by exact Hrun'. cbv beta iota. exists y'. by rewrite Hy', Hy2, Hy1.
  - destruct (expecting_recorded r (step_instruction i) s result u y) as (y' & Hrun' & Hs' & Hy');
      [apply replays_step_instruction|done..|].
    erewrite bind_run by exact Hrun'. by exists y'.
  - destruct (expecting_recorded r step_world_tick s (Ok events) u y) as (y' & Hrun' & Hs' & Hy');
      [apply replays_step_world_tick|done..|].
    erewrite bind_run by exact Hrun'. by exists y'.
  - by exists y.
Qed.

Lemma replays_take_effects : replays take_effects.
Proof.
  split; [intros s; by apply later_with|]. intros s s' Hs Hn. unfold take_effects, take_batch.
  exists (sim_set_journal (journal_set_pending empty_batch (journal s')) s'). split_and!; [| |done].
  - by rewrite (sj_pending _ _ (ss_journal _ _ _ Hs)).
  - destruct Hs as [? ? ? ? ? ? ? ? ? ? [] ? ?]. by split.
Qed.

(** The names of the places are known in every state of the simulation. *)
Lemma target_name_same target s s' name :
  same s s' → effect_target_name target s = Ok name → ∃ name', effect_target_name target s' = Ok name'.
Proof.
  intros Hs. pose proof (same_cpu_count s s' Hs) as Hlen. unfold effect_target_name. rewrite (ss_world _ _ _ Hs).
  assert (∀ i rest, (c ← expect (cpus s !! i); Ok (E:=message) (in_quotes "cpu" (cpu_id c) rest)) = Ok name →
    ∃ name', (c ← expect (cpus s' !! i); Ok (E:=message) (in_quotes "cpu" (cpu_id c) rest)) = Ok name') as Hcpu.
  { intros i rest. pose proof (same_cpu None s s' i Hs). destruct (cpus s !! i), (cpus s' !! i); simpl; eauto; done. }
  destruct target; eauto; first [destruct (devices (world s) !! _); simpl; eauto; done|destruct (networks (world s) !! _); simpl; eauto; done].
Qed.

Lemma named_writes_same batch s s' written :
  same s s' → named_writes batch s = Ok written → ∃ written', named_writes batch s' = Ok written'.
Proof.
  intros Hs. unfold named_writes. revert written. induction (writes batch) as [|w l IH]; intros written; simpl; [eauto|].
  destruct (effect_target_name (w_target w) s) as [name| |] eqn:Hw; [|done..].
  destruct (target_name_same _ _ _ _ Hs Hw) as [name' ->]. cbn [mbind outcome_mbind outcome_bind].
  destruct (map_outcome _ l); [|done..]. destruct (IH _ eq_refl) as [written' ->]. intros _. by eexists.
Qed.

Lemma replay_recorded s r t y :
  0 ≤ scheduler_slot s → recorded s r t → is_external (rc_action r) = false → same s y → names t `prefix_of` names y →
  ∃ y', replay_record r y = (Ok (Some ()), y') ∧ same t y' ∧ names y' = names y.
Proof.
  intros Hslot ((u & written & Hp & Htake & Hnamed) & Htick & Hhash) Hext Hs Hn. unfold replay_record.
  assert (names u = names t ∧ tick u = tick t) as [Hnu Htu] by (unfold take_effects in Htake; by inversion Htake).
  destruct (replay_action_recorded r s u y Hslot Hp) as (y1 & Hrun1 & Hs1 & Hy1); [congruence|done|done|by rewrite Hnu|].
  erewrite bind_run by exact Hrun1. cbv beta iota.
  destruct (replays_run _ _ _ _ y1 replays_take_effects Htake Hs1) as (y2 & Hrun2 & Hs2 & Hy2); [by rewrite Hy1|].
  erewrite bind_run by exact Hrun2. cbv beta iota.
  destruct (named_writes_same _ _ _ _ Hs2 Hnamed) as [written' Hw].
  do 2 (erewrite bind_run by (by rewrite Hw); cbv beta iota). rewrite bool_decide_eq_true_2 by done.
  rewrite Hext. cbn [negb andb]. erewrite bind_run by done. cbv beta iota.
  rewrite (seen_state_hash _ _ Hs2), Hhash, Z.eqb_refl. cbn [negb]. exists y2. by rewrite Hy2, Hy1.
Qed.
End replaying.

(** Replaying leads to a later state of the simulation, wherever it stops. *)
Section moving_on.
Context `{Libm} `{Build} `{LuaEngine} `{FloatDisplay}.
#[local] Abbreviation SX := (M Simulator message).

Lemma evolves_keeps {A} (m : SX A) : keeps same_static m → replays m → keeps evolves m.
Proof. intros Hm [Hr _] s. split; [apply Hm|apply Hr]. Qed.
Lemma evolves_view {A} (f : Simulator → outcome message A) : keeps evolves (λ s, (f s, s)).
Proof. by intros s. Qed.
Lemma evolves_step_instruction i : keeps evolves (step_instruction i).
Proof. apply evolves_keeps; [apply static_step_instruction|apply replays_step_instruction]. Qed.
Lemma evolves_scheduler_step : keeps evolves scheduler_step.
Proof. apply evolves_keeps; [apply static_scheduler_step|apply replays_scheduler_step]. Qed.
Lemma evolves_next_scheduled_location : keeps evolves next_scheduled_location.
Proof. apply evolves_keeps; [apply static_next_scheduled_location|apply replays_next_scheduled_location]. Qed.
Lemma evolves_step_world_tick : keeps evolves step_world_tick.
Proof. apply evolves_keeps; [apply static_step_world_tick|apply replays_step_world_tick]. Qed.
Lemma evolves_take_effects : keeps evolves take_effects.
Proof. apply evolves_keeps; [by intros s|apply replays_take_effects]. Qed.
Hint Resolve evolves_view evolves_step_instruction evolves_scheduler_step evolves_next_scheduled_location evolves_step_world_tick evolves_take_effects : frame.

Lemma evolves_expecting {A} r (m : SX A) : keeps evolves m → keeps evolves (expecting r m).
Proof. intros Hm s. specialize (Hm s). unfold expecting. by destruct (m s). Qed.
Hint Resolve evolves_expecting : frame.
Lemma evolves_replay_ticks fuel r : keeps evolves (replay_ticks fuel r).
Proof. induction fuel as [|fuel IH]; simpl; keeps_run. Qed.
Lemma evolves_replay_action r : keeps evolves (replay_action r).
Proof. unfold replay_action. keeps_run. intros s. apply evolves_replay_ticks. Qed.
Hint Resolve evolves_replay_action : frame.
Lemma evolves_replay_record r : keeps evolves (replay_record r).
Proof. unfold replay_record. keeps_run. Qed.
Hint Resolve evolves_replay_record : frame.
Lemma evolves_replay_records rs : keeps evolves (replay_records rs).
Proof. induction rs as [|r rs IH]; simpl; keeps_run. Qed.
End moving_on.

(** The edits of the debugger and of tests are edits. *)
Section edits.
Context `{Libm} `{Build} `{LuaEngine} `{FloatDisplay}.
#[local] Abbreviation SX := (M Simulator message).

Definition edited (s u : Simulator) : Prop := evolves s u ∧ scheduler_slot u = scheduler_slot s.

#[export] Instance edited_preorder : PreOrder edited.
Proof. split; [by intros s|]. intros a b c [Ha Hsa] [Hb Hsb]. split; [by etransitivity|congruence]. Qed.

Lemma edited_modify (f : Simulator → Simulator) :
  (∀ s, static (f s) = static s ∧ later (journal s) (journal (f s)) ∧ scheduler_slot (f s) = scheduler_slot s) →
  keeps (E:=message) edited (modify f).
Proof. intros Hf. apply keeps_modify. intros s. destruct (Hf s) as (Hst & Hl & Hslot). by split. Qed.
Lemma edited_alter_cpu i (f : Cpu → Cpu) : (∀ c, identity (f c) = identity c) → keeps (E:=message) edited (alter_cpu i f).
Proof.
  intros Hf s. pose proof (static_alter_cpu i f Hf s) as Hst. split; [split; [exact Hst|]|]; unfold alter_cpu; by destruct (cpus s !! i).
Qed.
Lemma edited_write_bits actor t a b : keeps (E:=message) edited (sim_write_bits actor t a b).
Proof. apply edited_modify. intros s. split_and!; [done|apply later_write_bits|done]. Qed.
Lemma edited_write actor t a b : keeps (E:=message) edited (sim_write actor t a b).
Proof. apply edited_write_bits. Qed.
Lemma edited_intern name : keeps edited (sim_intern name).
Proof.
  intros s. pose proof (later_intern name (journal s)) as Hl. unfold sim_intern. by destruct (intern name (journal s)).
Qed.
Lemma edited_notify d f b a : keeps (E:=message) edited (sim_notify d f b a).
Proof. by apply edited_modify. Qed.
Hint Resolve edited_write_bits edited_write edited_intern edited_notify : frame.
Hint Extern 1 (keeps edited (modify _)) => by apply edited_modify : frame.
Hint Extern 1 (keeps edited (alter_cpu _ _)) => by apply edited_alter_cpu : frame.

Lemma edited_write_named name actor t a b : keeps edited (sim_write_named name actor t a b).
Proof. unfold sim_write_named, sim_journal_enabled. keeps_run. Qed.
Hint Resolve edited_write_named : frame.

Lemma edited_assign target value actor : keeps edited (assign target value actor).
Proof.
  destruct target; unfold assign, set_register_as, set_stack_as, set_device_slot_as, set_device_memory_as, set_device_field_as,
    set_network_channel_as, sim_device, sim_network, sim_alter_device, sim_alter_network; keeps_run.
Qed.

Lemma set_value_edits thread text value actor s r u : set_value_as thread text value actor s = (r, u) → edits s u.
Proof.
  intros Hrun. assert (edited s u) as [Hev Hslot].
  { assert (keeps edited (set_value_as thread text value actor)) as Hk.
    { unfold set_value_as. apply keeps_bind; [typeclasses eauto|by intros x|intros target; apply edited_assign]. }
    specialize (Hk s). by rewrite Hrun in Hk. }
  split; [done|]. split; [done|]. intros sizes nn nc Hs.
  pose proof (safe_set_value sizes nn nc (tick s) thread text value actor s (conj Hs eq_refl)) as Hsafe. rewrite Hrun in Hsafe.
  destruct r; [by destruct Hsafe as [[? _] _]|by destruct Hsafe|done].
Qed.
End edits.
