(* ===== verification/TimeTravel.v ===== *)
(** * Going back in a debugged simulation

    Proofs about [History], on top of [HistoryFacts]: the events that are kept are
    numbered without gaps behind the first checkpoint, recording keeps within its
    limits, and every state that is retained is reached again. *)

From S2P Require Import Prelude BTree Text F64 Knowledge Literals Journal Scenario World Program Compile Cpu Exec.
From S2P Require Import Isa Frame Behaviour Vm Lua Simulator Tick Safety Control Schema Evaluator EvaluatorFacts.
From S2P Require Import ScriptDriver Load Runner RunnerFacts Replay History HistoryFacts.
From Stdlib Require Import Sorting.Sorted.
Local Open Scope string_scope.
Local Open Scope Z_scope.

(** ** Numbers of records *)

(** The records are numbered from the one after [k]. *)
Fixpoint contiguous (k : Z) (rs : list TraceRecord) : Prop :=
  match rs with [] => True | r :: rs' => rc_sequence r = k + 1 ∧ contiguous (k + 1) rs' end.

Lemma contiguous_bounds k rs r : contiguous k rs → r ∈ rs → k < rc_sequence r ≤ k + Z.of_nat (length rs).
Proof.
  revert k. induction rs as [|r' rs IH]; intros k Hk Hr; [by apply elem_of_nil in Hr|].
  destruct Hk as [Hs Hk]. simpl length. apply elem_of_cons in Hr as [->|Hr]; [lia|]. specialize (IH _ Hk Hr). lia.
Qed.

Lemma contiguous_lookup k rs i r : contiguous k rs → rs !! i = Some r → rc_sequence r = k + 1 + Z.of_nat i.
Proof.
  revert k i. induction rs as [|r' rs IH]; intros k [|i] Hk Hi; try done; destruct Hk as [Hs Hk].
  - injection Hi as ->. lia.
  - rewrite (IH _ _ Hk Hi). lia.
Qed.

Lemma contiguous_app k rs r : contiguous k rs → rc_sequence r = k + Z.of_nat (length rs) + 1 → contiguous k (rs ++ [r]).
Proof.
  revert k. induction rs as [|r' rs IH]; intros k Hk Hr; simpl in *; [split; [lia|done]|].
  destruct Hk as [Hs Hk]. split; [done|]. apply IH; [done|]. lia.
Qed.

(** The records between two numbers. *)
Lemma contiguous_filter (P : TraceRecord → Prop) `{∀ r, Decision (P r)} k lo hi rs :
  contiguous k rs → k ≤ lo → lo ≤ hi ≤ k + Z.of_nat (length rs) → (∀ r, r ∈ rs → P r ↔ lo < rc_sequence r ≤ hi) →
  contiguous lo (filter P rs) ∧ lo + Z.of_nat (length (filter P rs)) = hi.
Proof.
  revert k lo. induction rs as [|r rs IH]; intros k lo Hk Hlo Hhi HP; simpl in *; [split; [done|lia]|].
  destruct Hk as [Hs Hk]. assert (∀ r, r ∈ rs → P r ↔ lo < rc_sequence r ≤ hi) as HP' by (intros; apply HP; by right).
  pose proof (HP r ltac:(left)) as Hr. destruct (decide (k < lo)) as [Hlt|Hge].
  - rewrite filter_cons_False by (rewrite Hr; lia). apply (IH (k + 1)); [done|lia..|done].
  - destruct (decide (lo < hi)) as [Hne|He].
    + rewrite filter_cons_True by (apply Hr; lia). simpl. destruct (IH (k + 1) (lo + 1)) as [Hc Hl]; [done|lia..| |].
      { intros r' Hin. pose proof (contiguous_bounds _ _ _ Hk Hin). rewrite HP' by done. lia. }
      split; [split; [lia|done]|]. lia.
    + rewrite filter_cons_False by (rewrite Hr; lia).
      assert (filter P rs = []) as ->; [|simpl; split; [done|lia]].
      destruct (filter P rs) as [|r' l] eqn:E; [done|]. assert (r' ∈ filter P rs) as [HPr Hin]%list_elem_of_filter by (rewrite E; left).
      apply HP' in HPr; [lia|done].
Qed.

Lemma drop_records_filter b k rs : contiguous k rs → (drop_records b rs).2 = filter (λ r, b < rc_sequence r) rs.
Proof.
  revert k. induction rs as [|r rs IH]; intros k Hk; simpl; [done|]. destruct Hk as [Hs Hk].
  destruct (rc_sequence r <=? b) eqn:Hle.
  - rewrite filter_cons_False by lia. rewrite <-(IH _ Hk). by destruct (drop_records b rs).
  - rewrite filter_cons_True by lia. simpl. f_equal. symmetry. apply filter_id, Forall_forall.
    intros r' Hr'. pose proof (contiguous_bounds _ _ _ Hk Hr'). lia.
Qed.

(** ** The shape of a history *)

(** The checkpoints are in order and the records follow the first without gaps; an
    external event has its own checkpoint. *)
Record shape (lo : Z) (h : TraceHistory) : Prop := {
  sh_front : head (cp_sequence <$> checkpoints h) = Some lo;
  sh_sorted : StronglySorted Z.lt (cp_sequence <$> checkpoints h);
  sh_bound : Forall (λ cp, cp_sequence cp < next_sequence h) (checkpoints h);
  sh_records : contiguous lo (records h);
  sh_next : lo + Z.of_nat (length (records h)) + 1 = next_sequence h;
  sh_cursor : lo ≤ cursor h < next_sequence h;
  sh_external r : r ∈ records h → is_external (rc_action r) = true →
    ∃ cp, cp ∈ checkpoints h ∧ cp_sequence cp = rc_sequence r;
  sh_events : 2 ≤ max_events h;
}.

(** What a debugger only adds or drops: the estimate is not part of the shape. *)
Lemma shape_estimate lo n h : shape lo h → shape lo (with_estimate n h).
Proof. by intros []. Qed.
Lemma shape_dropped lo n h : shape lo h → shape lo (with_dropped n h).
Proof. by intros []. Qed.

Definition sequences (cps : list TraceCheckpoint) : list Z := cp_sequence <$> cps.

Lemma sorted_cons c cps :
  StronglySorted Z.lt (sequences (c :: cps)) ↔ StronglySorted Z.lt (sequences cps) ∧ ∀ d, d ∈ cps → cp_sequence c < cp_sequence d.
Proof.
  unfold sequences. change (cp_sequence <$> c :: cps) with (cp_sequence c :: (cp_sequence <$> cps)). split.
  - intros [Hs Hall]%StronglySorted_inv. rewrite Forall_fmap, Forall_forall in Hall. done.
  - intros [Hs Hall]. constructor; [done|]. by rewrite Forall_fmap, Forall_forall.
Qed.

Lemma sorted_filter (P : TraceCheckpoint → Prop) `{∀ cp, Decision (P cp)} cps :
  StronglySorted Z.lt (sequences cps) → StronglySorted Z.lt (sequences (filter P cps)).
Proof.
  induction cps as [|cp cps IH]; [done|]. intros [Hs Hall]%sorted_cons.
  destruct (decide (P cp)); [rewrite filter_cons_True by done|rewrite filter_cons_False by done; by apply IH].
  apply sorted_cons. split; [by apply IH|]. intros c [_ Hc]%list_elem_of_filter. by apply Hall.
Qed.

Lemma sorted_front lo cps cp : head (sequences cps) = Some lo → StronglySorted Z.lt (sequences cps) → cp ∈ cps → lo ≤ cp_sequence cp.
Proof.
  destruct cps as [|c cps]; [done|]. intros [= <-] [Hs Hall]%sorted_cons Hin.
  apply elem_of_cons in Hin as [->|Hin]; [done|]. specialize (Hall _ Hin). lia.
Qed.

Lemma sorted_unique cps a b : StronglySorted Z.lt (sequences cps) → a ∈ cps → b ∈ cps → cp_sequence a = cp_sequence b → a = b.
Proof.
  induction cps as [|c cps IH]; [by intros _ ?%elem_of_nil|]. intros [Hs Hall]%sorted_cons Ha Hb He.
  apply elem_of_cons in Ha as [->|Ha]; apply elem_of_cons in Hb as [->|Hb]; [done| | |by apply IH].
  - specialize (Hall _ Hb). lia.
  - specialize (Hall _ Ha). lia.
Qed.

Lemma sequences_snoc cps cp : StronglySorted Z.lt (sequences cps) → Forall (λ c, cp_sequence c < cp_sequence cp) cps →
  StronglySorted Z.lt (sequences (cps ++ [cp])).
Proof.
  induction cps as [|c cps IH]; [by repeat constructor|]. intros [Hs Hall]%sorted_cons [Hc Hcs]%Forall_cons.
  simpl. apply sorted_cons. split; [by apply IH|]. intros d [Hd| ->%list_elem_of_singleton]%elem_of_app; [by apply Hall|done].
Qed.

(** Dropping up to a checkpoint leaves what is not before it. *)
Lemma drop_checkpoints_filter b cps :
  StronglySorted Z.lt (sequences cps) → (∃ cp, cp ∈ cps ∧ cp_sequence cp = b) →
  drop_checkpoints b cps = filter (λ cp, b ≤ cp_sequence cp) cps.
Proof.
  induction cps as [|c cps IH]; [by intros _ (? & ?%elem_of_nil & _)|]. intros [Hs Hall]%sorted_cons (cp & Hin & Hcp).
  apply elem_of_cons in Hin as [<-|Hin].
  - rewrite filter_id.
    + destruct cps as [|next cps]; [done|]. cbn [drop_checkpoints]. specialize (Hall next ltac:(left)).
      by assert (cp_sequence next <=? b = false) as -> by lia.
    + apply Forall_cons_2; [lia|]. apply Forall_forall. intros d Hd. specialize (Hall _ Hd). lia.
  - pose proof (Hall _ Hin). rewrite filter_cons_False by lia. rewrite <-IH by eauto.
    destruct cps as [|next cps]; [by apply elem_of_nil in Hin|]. cbn [drop_checkpoints].
    assert (cp_sequence next ≤ b) by (subst b; by eapply (sorted_front _ (next :: cps))).
    by assert (cp_sequence next <=? b = true) as -> by lia.
Qed.

Lemma drop_through_run lo h cp :
  shape lo h → cp ∈ checkpoints h →
  ∃ n, drop_through (cp_sequence cp) h =
    with_dropped n (with_events (filter (λ r, cp_sequence cp < rc_sequence r) (records h))
                      (filter (λ c, cp_sequence cp ≤ cp_sequence c) (checkpoints h)) h).
Proof.
  intros [] Hin. unfold drop_through. rewrite <-(drop_records_filter _ lo) by done.
  rewrite drop_checkpoints_filter by eauto. destruct (drop_records _ _) as [n rest]. by eexists.
Qed.

(** The front moves to the checkpoint. *)
Lemma filter_front cps cp :
  StronglySorted Z.lt (sequences cps) → cp ∈ cps →
  head (sequences (filter (λ c, cp_sequence cp ≤ cp_sequence c) cps)) = Some (cp_sequence cp).
Proof.
  induction cps as [|c cps IH]; [by intros _ ?%elem_of_nil|]. intros [Hs Hall]%sorted_cons Hin. apply elem_of_cons in Hin as [<-|Hin].
  - by rewrite filter_cons_True by lia.
  - specialize (Hall _ Hin). rewrite filter_cons_False by lia. by apply IH.
Qed.

Lemma shape_drop lo h cp :
  shape lo h → cp ∈ checkpoints h → cp_sequence cp ≤ cursor h → shape (cp_sequence cp) (drop_through (cp_sequence cp) h).
Proof.
  intros Hh Hin Hle. destruct (drop_through_run lo h cp Hh Hin) as [n ->]. apply shape_dropped.
  pose proof (sorted_front _ _ _ (sh_front _ _ Hh) (sh_sorted _ _ Hh) Hin) as Hlo. destruct Hh as [Hf Hs Hb Hr Hn Hc He Hm].
  destruct (contiguous_filter (λ r, cp_sequence cp < rc_sequence r) lo (cp_sequence cp) (next_sequence h - 1) (records h)) as [Hr' Hl'];
    [done|lia|lia|intros r Hin'; pose proof (contiguous_bounds _ _ _ Hr Hin'); lia|].
  split; simpl; try done.
  - by apply filter_front.
  - by apply sorted_filter.
  - apply Forall_forall. intros c [_ Hc']%list_elem_of_filter. rewrite Forall_forall in Hb. by apply Hb.
  - lia.
  - lia.
  - intros r [Hlt Hin']%list_elem_of_filter Hx. destruct (He r Hin' Hx) as (c & Hc' & Heq). exists c.
    split; [|done]. apply list_elem_of_filter. split; [lia|done].
Qed.

(** ** Keeping within the limits *)

Section limits.
Context `{Libm} `{Build} `{LuaEngine} `{FloatDisplay}.
Variable record_bytes : TraceRecord → Z.
Variable snapshot_bytes : Simulator → Z.
Variable sources_bytes : list string → Z.

(** Nothing is recorded after the state the debugger is in. *)
Definition at_end (h : TraceHistory) : Prop := cursor h + 1 = next_sequence h.

Definition position (h : TraceHistory) := (cursor h, next_sequence h).
Definition settings (h : TraceHistory) := (max_events h, max_memory_bytes h, checkpoint_interval h).

(** Records and checkpoints were dropped, and checkpoints of the present state added. *)
Record trimmed (s : Simulator) (h h' : TraceHistory) : Prop := {
  tm_records r : r ∈ records h' → r ∈ records h;
  tm_length : (length (records h') ≤ length (records h))%nat;
  tm_checkpoints cp : cp ∈ checkpoints h' →
    cp ∈ checkpoints h ∨ cp_sequence cp = cursor h ∧ snapshot s = Ok (cp_snapshot cp);
  tm_position : position h' = position h;
  tm_settings : settings h' = settings h;
}.

Lemma trimmed_trans s a b c : trimmed s a b → trimmed s b c → trimmed s a c.
Proof.
  intros [Hr Hl Hc Hp Hs] [Hr' Hl' Hc' Hp' Hs']. split; [eauto|lia| |congruence|congruence]. intros cp Hin.
  apply Hc' in Hin as [Hin|[He Hsn]]; [by apply Hc|]. right. unfold position in Hp. split; [congruence|done].
Qed.

Lemma trimmed_drop s lo h cp : shape lo h → cp ∈ checkpoints h → trimmed s h (drop_through (cp_sequence cp) h).
Proof.
  intros Hh Hin. destruct (drop_through_run lo h cp Hh Hin) as [n ->]. split; simpl; try done.
  - intros r Hr. by apply list_elem_of_filter in Hr as [_ ?].
  - apply length_filter.
  - intros c Hc. left. by apply list_elem_of_filter in Hc as [_ ?].
Qed.

Lemma trimmed_estimate s h h' n : trimmed s h h' → trimmed s h (with_estimate n h').
Proof. by intros []. Qed.

Lemma shape_push lo h cp :
  shape lo h → at_end h → Forall (λ c, cp_sequence c < cursor h) (checkpoints h) → cp_sequence cp = cursor h →
  shape lo (push_checkpoint cp h).
Proof.
  intros [Hf Hs Hb Hr Hn Hc He Hm] Hend Hall Hcp. split; simpl; try done.
  - rewrite fmap_app, head_app. by rewrite Hf.
  - apply sequences_snoc; [done|]. by rewrite Hcp.
  - apply Forall_app. split; [done|]. apply Forall_singleton. lia.
  - intros r Hin Hx. destruct (He r Hin Hx) as (c & Hc' & Heq). exists c. split; [|done]. apply elem_of_app. by left.
Qed.

Lemma trimmed_push s h cp : cp_sequence cp = cursor h → snapshot s = Ok (cp_snapshot cp) → trimmed s h (push_checkpoint cp h).
Proof.
  intros Hcp Hsnap. split; simpl; try done. intros c [Hc| ->%list_elem_of_singleton]%elem_of_app; [by left|by right].
Qed.

Lemma shape_forget lo h : shape lo h → shape lo (forget_future record_bytes sources_bytes h) ∧ at_end (forget_future record_bytes sources_bytes h).
Proof.
  intros Hh. unfold forget_future, at_end. destruct (cursor h + 1 <? next_sequence h) eqn:Hlt.
  - split; [|simpl; lia]. apply shape_estimate. destruct Hh as [Hf Hs Hb Hr Hn Hc He Hm].
    destruct (contiguous_filter (λ r, rc_sequence r ≤ cursor h) lo lo (cursor h) (records h)) as [Hr' Hl'];
      [done|lia|lia|intros r Hin'; pose proof (contiguous_bounds _ _ _ Hr Hin'); lia|].
    split; simpl; try done.
    + destruct (checkpoints h) as [|c cps]; [done|]. injection Hf as <-. by rewrite filter_cons_True by lia.
    + by apply sorted_filter.
    + apply Forall_forall. intros c [Hle _]%list_elem_of_filter. lia.
    + lia.
    + lia.
    + intros r [Hle Hin]%list_elem_of_filter Hx. destruct (He r Hin Hx) as (c & Hc' & Heq). exists c.
      split; [|done]. apply list_elem_of_filter. split; [lia|done].
  - split; [done|]. destruct Hh. lia.
Qed.

Lemma forget_subset h :
  let h' := forget_future record_bytes sources_bytes h in
  (∀ r, r ∈ records h' → r ∈ records h) ∧ (∀ cp, cp ∈ checkpoints h' → cp ∈ checkpoints h)
  ∧ cursor h' = cursor h ∧ settings h' = settings h.
Proof.
  unfold forget_future. destruct (_ <? _); [|done]. simpl. split_and!; try done; intros ? Hin; by apply list_elem_of_filter in Hin as [_ ?].
Qed.

Lemma checkpoint_of_run s snap seq :
  snapshot s = Ok snap → checkpoint_of snapshot_bytes seq s = Ok {| cp_sequence := seq; cp_snapshot := snap; cp_estimated_bytes := snapshot_bytes s |}.
Proof. unfold checkpoint_of. by intros ->. Qed.

(** The new record, and its checkpoint. *)
Lemma append_record_run lo h s snap r :
  shape lo h → at_end h → snapshot s = Ok snap → rc_sequence r = next_sequence h →
  ∃ h', append_record record_bytes snapshot_bytes s r (with_position (next_sequence h) (next_sequence h + 1) h) = Ok h'
    ∧ shape lo h' ∧ at_end h' ∧ position h' = (next_sequence h, next_sequence h + 1) ∧ settings h' = settings h
    ∧ records h' = (records h ++ [r])%list
    ∧ (∀ cp, cp ∈ checkpoints h' → cp ∈ checkpoints h ∨ cp_sequence cp = next_sequence h ∧ snapshot s = Ok (cp_snapshot cp)).
Proof.
  intros [Hf Hs Hb Hr Hn Hc He Hm] Hend Hsnap Hseq. unfold append_record. rewrite (checkpoint_of_run s snap) by done.
  set (h1 := with_estimate _ _). set (cp := {| cp_sequence := rc_sequence r; cp_snapshot := snap; cp_estimated_bytes := snapshot_bytes s |}).
  assert (is_external (rc_action r) = false → shape lo h1) as Hplain.
  { intros Hx. split; simpl; try done.
    - eapply Forall_impl; [exact Hb|]. simpl. intros. lia.
    - apply contiguous_app; [done|lia].
    - rewrite length_app. simpl. lia.
    - lia.
    - intros r' [Hin| ->%list_elem_of_singleton]%elem_of_app Hx'; [by apply He|congruence]. }
  assert (shape lo (push_checkpoint cp h1)) as Hpushed.
  { split; simpl; try done.
    - rewrite fmap_app, head_app. by rewrite Hf.
    - apply sequences_snoc; [done|]. simpl. by rewrite Hseq.
    - apply Forall_app. split; [|apply Forall_singleton; simpl; lia]. eapply Forall_impl; [exact Hb|]. simpl. intros. lia.
    - apply contiguous_app; [done|lia].
    - rewrite length_app. simpl. lia.
    - lia.
    - intros r' [Hin| ->%list_elem_of_singleton]%elem_of_app Hx'.
      + destruct (He r' Hin Hx') as (c & Hc' & Heq). exists c. split; [apply elem_of_app; by left|done].
      + exists cp. split; [apply elem_of_app; right; by apply list_elem_of_singleton|done]. }
  destruct (_ || is_external (rc_action r)) eqn:Hcond; cbn [mbind outcome_mbind outcome_bind].
  - eexists. split; [done|]. split_and!; try done; [by apply shape_estimate|].
    simpl. intros c [Hin| ->%list_elem_of_singleton]%elem_of_app; [by left|by right].
  - apply orb_false_iff in Hcond as [_ Hx]. exists h1. split_and!; try done; [by apply Hplain|]. intros c Hin. by left.
Qed.

Lemma limit_events_run lo h s snap :
  shape lo h → at_end h → snapshot s = Ok snap →
  ∃ h' lo', limit_events record_bytes snapshot_bytes sources_bytes s (cursor h) h = Ok h' ∧ shape lo' h' ∧ trimmed s h h'
    ∧ Z.of_nat (length (records h')) ≤ max_events h.
Proof.
  intros Hh Hend Hsnap. unfold limit_events. destruct (max_events h <? Z.of_nat (length (records h))) eqn:Hlt.
  2: { exists h, lo. split_and!; [done|done| |lia]. split; auto. }
  pose proof (sh_events _ _ Hh) as Hm. set (i := Z.to_nat (Z.of_nat (length (records h)) - max_events h)).
  destruct (lookup_lt_is_Some_2 (records h) i) as [first Hfirst]; [subst i; lia|]. rewrite Hfirst. cbn [expect mbind outcome_mbind outcome_bind].
  pose proof (contiguous_lookup _ _ _ _ (sh_records _ _ Hh) Hfirst) as Hseq.
  assert (∀ h1 cp, shape lo h1 → cp ∈ checkpoints h1 → rc_sequence first ≤ cp_sequence cp ≤ cursor h → records h1 = records h →
    position h1 = position h → Z.of_nat (length (records (drop_through (cp_sequence cp) h1))) ≤ max_events h) as Hlen.
  { intros h1 cp Hh1 Hin Hle Hrec Hpos. destruct (drop_through_run lo h1 cp Hh1 Hin) as [n ->]. simpl. rewrite Hrec.
    destruct (contiguous_filter (λ r, cp_sequence cp < rc_sequence r) lo (cp_sequence cp) (cursor h) (records h)) as [_ Hl].
    - apply Hh.
    - pose proof (sorted_front _ _ _ (sh_front _ _ Hh1) (sh_sorted _ _ Hh1) Hin). lia.
    - pose proof (sh_next _ _ Hh). unfold at_end in Hend. lia.
    - intros r Hr. pose proof (contiguous_bounds _ _ _ (sh_records _ _ Hh) Hr). pose proof (sh_next _ _ Hh). unfold at_end in Hend. lia.
    - pose proof (sh_next _ _ Hh). unfold at_end in Hend. subst i. lia. }
  assert (cursor h = lo + Z.of_nat (length (records h))) as Hcur by (pose proof (sh_next _ _ Hh); unfold at_end in Hend; lia).
  destruct (find_first _ (checkpoints h)) as [baseline|] eqn:Hfind.
  - apply find_first_Some in Hfind as [Hin Hb]. apply andb_true_iff in Hb as [Hb _].
    assert (cp_sequence baseline ≤ cursor h) as Hle.
    { pose proof (proj1 (Forall_forall _ _) (sh_bound _ _ Hh) _ Hin). unfold at_end in Hend. simpl in *. lia. }
    cbn [mbind outcome_mbind outcome_bind]. eexists _, (cp_sequence baseline). split; [done|].
    split; [by apply shape_estimate, (shape_drop lo)|]. split; [by eapply trimmed_estimate, trimmed_drop|].
    simpl. apply Hlen; [done|done|lia|done|done].
  - rewrite (checkpoint_of_run s snap) by done. cbn [mbind outcome_mbind outcome_bind].
    set (cp := {| cp_sequence := cursor h; cp_snapshot := snap; cp_estimated_bytes := snapshot_bytes s |}).
    assert (shape lo (push_checkpoint cp h)) as Hpush.
    { apply shape_push; [done|done| |done]. apply Forall_forall. intros c Hc. pose proof (find_first_None _ _ Hfind _ Hc) as Hno.
      pose proof (proj1 (Forall_forall _ _) (sh_bound _ _ Hh) _ Hc) as Hlt'. unfold at_end in Hend. simpl in Hlt'.
      destruct (decide (cp_sequence c = cursor h)) as [He|]; [|lia]. exfalso.
      assert (default 0 (cp_sequence <$> head (checkpoints h)) = lo) as Hfront.
      { pose proof (sh_front _ _ Hh) as Hf. destruct (checkpoints h); [done|]. by injection Hf. }
      rewrite Hfront in Hno. subst i. lia. }
    assert (cp ∈ checkpoints (push_checkpoint cp h)) as Hin by (apply elem_of_app; right; by apply list_elem_of_singleton).
    eexists _, (cursor h). split; [done|].
    split; [apply shape_estimate; exact (shape_drop lo _ cp Hpush Hin (Z.le_refl _))|]. split.
    { apply trimmed_estimate. eapply trimmed_trans; [by apply (trimmed_push s h cp)|exact (trimmed_drop s lo _ cp Hpush Hin)]. }
    apply (Hlen _ cp Hpush Hin); [|done|done]. simpl. subst i. lia.
Qed.

(** The turns that are left of the loop: one for every checkpoint, and two for a last
    checkpoint of the present state. *)
Definition turns (h : TraceHistory) : nat :=
  (length (checkpoints h) + if bool_decide (last (sequences (checkpoints h)) = Some (cursor h)) then 0 else 2)%nat.

Lemma turns_push h cp : length (checkpoints h) = 1%nat → cp_sequence cp = cursor h → turns (push_checkpoint cp h) = 2%nat.
Proof.
  intros Hl Hcp. unfold turns. simpl. unfold sequences. rewrite fmap_app. simpl. rewrite last_snoc, length_app. simpl.
  rewrite bool_decide_eq_true_2 by congruence. lia.
Qed.

Lemma turns_drop lo h next : shape lo h → checkpoints h !! 1%nat = Some next →
  (S (turns (drop_through (cp_sequence next) h)) = turns h)%nat.
Proof.
  intros Hh Hnext. destruct (drop_through_run lo h next Hh) as [n ->]; [by eapply list_elem_of_lookup_2|].
  unfold turns. simpl. pose proof (sh_sorted _ _ Hh) as Hs. destruct (checkpoints h) as [|c [|next' rest]]; [done..|]. injection Hnext as ->.
  apply sorted_cons in Hs as [Hs Hc]. rewrite filter_cons_False by (specialize (Hc next ltac:(left)); lia).
  rewrite filter_id; [done|]. apply sorted_cons in Hs as [_ Hn]. apply Forall_cons_2; [lia|]. apply Forall_forall.
  intros d Hd. specialize (Hn _ Hd). lia.
Qed.

Lemma limit_memory_run fuel lo h s snap :
  shape lo h → at_end h → snapshot s = Ok snap → (turns h ≤ fuel)%nat →
  ∃ h' lo', limit_memory record_bytes snapshot_bytes sources_bytes fuel s h = Ok (Some h') ∧ shape lo' h' ∧ trimmed s h h'
    ∧ (memory_estimate h' ≤ max_memory_bytes h' ∨ length (checkpoints h') = 1%nat ∧ records h' = []).
Proof.
  revert lo h. induction fuel as [|fuel IH]; intros lo h Hh Hend Hsnap Hfuel.
  { pose proof (sh_front _ _ Hh) as Hf. unfold turns in Hfuel. destruct (checkpoints h); [done|]. simpl in Hfuel. lia. }
  assert (trimmed s h h) as Hsame by (split; auto). cbn [limit_memory].
  destruct (memory_estimate h <=? max_memory_bytes h) eqn:Hmem; [exists h, lo; split_and!; try done; left; lia|].
  destruct (Nat.eqb (length (checkpoints h)) 1 && Nat.eqb (length (records h)) 0) eqn:Hleast.
  { apply andb_true_iff in Hleast as [Hl%Nat.eqb_eq Hr%Nat.eqb_eq]. exists h, lo. split_and!; try done. right. by apply nil_length_inv in Hr. }
  assert (∀ lo1 h1, shape lo1 h1 → trimmed s h h1 → (turns h1 ≤ fuel)%nat →
    ∃ h' lo', limit_memory record_bytes snapshot_bytes sources_bytes fuel s (recompute_memory_estimate record_bytes sources_bytes h1) = Ok (Some h')
      ∧ shape lo' h' ∧ trimmed s h h' ∧ (memory_estimate h' ≤ max_memory_bytes h' ∨ length (checkpoints h') = 1%nat ∧ records h' = [])) as Hnext.
  { intros lo1 h1 Hh1 Ht1 Hf1.
    destruct (IH lo1 (recompute_memory_estimate record_bytes sources_bytes h1)) as (h' & lo' & Hrun & Hh' & Ht' & Hb);
      [by apply shape_estimate| |done|done|].
    - pose proof (tm_position _ _ _ Ht1) as Hp. unfold position in Hp. injection Hp as Hp1 Hp2. unfold at_end in *. simpl. congruence.
    - exists h', lo'. split_and!; try done. eapply trimmed_trans; [by apply trimmed_estimate|exact Ht']. }
  destruct (checkpoints h !! 1%nat) as [next|] eqn:Hat.
  - apply (Hnext (cp_sequence next)).
    + apply (shape_drop lo); [done|by eapply list_elem_of_lookup_2|].
      apply list_elem_of_lookup_2 in Hat. pose proof (proj1 (Forall_forall _ _) (sh_bound _ _ Hh) _ Hat) as Hlt. simpl in Hlt.
      unfold at_end in Hend. lia.
    + eapply trimmed_drop; [done|by eapply list_elem_of_lookup_2].
    + pose proof (turns_drop _ _ _ Hh Hat). lia.
  - rewrite (checkpoint_of_run s snap) by done. cbn [mbind outcome_mbind outcome_bind].
    set (cp := {| cp_sequence := cursor h; cp_snapshot := snap; cp_estimated_bytes := snapshot_bytes s |}).
    pose proof (sh_front _ _ Hh) as Hf. pose proof (sh_next _ _ Hh) as Hn. apply lookup_ge_None in Hat. unfold at_end in Hend.
    destruct (checkpoints h) as [|c [|? ?]] eqn:Hcps; [done| |simpl in Hat; lia]. injection Hf as Hf. simpl in Hleast.
    assert (cp_sequence c < cursor h) by (apply Nat.eqb_neq in Hleast; lia).
    apply (Hnext lo).
    + apply shape_push; [done|done| |done]. rewrite Hcps. by apply Forall_singleton.
    + by apply trimmed_push.
    + rewrite turns_push by (rewrite ?Hcps; done). unfold turns in Hfuel. rewrite Hcps in Hfuel. simpl in Hfuel.
      rewrite bool_decide_eq_false_2 in Hfuel by (intros [=]; lia). lia.
Qed.

Definition bounded (h : TraceHistory) : Prop :=
  Z.of_nat (length (records h)) ≤ max_events h
  ∧ (memory_estimate h ≤ max_memory_bytes h ∨ length (checkpoints h) = 1%nat ∧ records h = []).

(** Recording always returns, within the limits. *)
Lemma record_run lo h s snap cpu line action effects e :
  shape lo h → snapshot s = Ok snap →
  ∃ h' lo' previous, record record_bytes snapshot_bytes sources_bytes s cpu line action effects e h = Ok (Some h') ∧ shape lo' h'
    ∧ position h' = (cursor h + 1, cursor h + 2) ∧ settings h' = settings h ∧ bounded h'
    ∧ (∀ r, r ∈ records h' → r ∈ records h ∧ rc_sequence r ≤ cursor h ∨ r = new_record s (cursor h + 1) cpu line action effects e previous)
    ∧ (∀ cp, cp ∈ checkpoints h' → cp ∈ checkpoints h ∧ cp_sequence cp ≤ cursor h ∨ cp_sequence cp = cursor h + 1 ∧ snapshot s = Ok (cp_snapshot cp)).
Proof.
  intros Hh Hsnap. unfold record. cbv zeta. destruct (shape_forget _ _ Hh) as [Hf Hend].
  destruct (forget_subset h) as (Hrs & Hcs & Hcur & Hset). set (h0 := forget_future record_bytes sources_bytes h) in *.
  set (previous := last (records (with_position (next_sequence h0) (next_sequence h0 + 1) h0))).
  set (r := new_record s (next_sequence h0) cpu line action effects e previous).
  destruct (append_record_run lo h0 s snap r) as (h1 & Hrun1 & Hh1 & Hend1 & Hpos1 & Hset1 & Hr1 & Hc1); [done..|].
  rewrite Hrun1. cbn [mbind outcome_mbind outcome_bind].
  injection Hpos1 as Hcur1 Hnext1. rewrite <-Hcur1.
  destruct (limit_events_run lo h1 s snap) as (h2 & lo2 & Hrun2 & Hh2 & Ht2 & Hb2); [done..|].
  rewrite Hrun2. cbn [mbind outcome_mbind outcome_bind]. pose proof (tm_position _ _ _ Ht2) as Hpos2. injection Hpos2 as Hcur2 Hnext2.
  destruct (limit_memory_run (memory_fuel h2) lo2 h2 s snap) as (h3 & lo3 & Hrun3 & Hh3 & Ht3 & Hb3); [done| |done| |].
  { unfold at_end in *. congruence. }
  { unfold turns, memory_fuel. destruct (bool_decide _); lia. }
  exists h3, lo3, previous. pose proof (trimmed_trans _ _ _ _ Ht2 Ht3) as Ht. unfold at_end in Hend.
  assert (next_sequence h0 = cursor h + 1) as Hseq by lia. split_and!; try done.
  - rewrite (tm_position _ _ _ Ht). unfold position. rewrite Hcur1, Hnext1, Hseq. f_equal. lia.
  - rewrite (tm_settings _ _ _ Ht). congruence.
  - split; [|done]. pose proof (tm_length _ _ _ Ht3). pose proof (tm_settings _ _ _ Ht2) as Hs2. pose proof (tm_settings _ _ _ Ht3) as Hs3.
    unfold settings in Hs2, Hs3. injection Hs2 as Hm2 _ _. injection Hs3 as Hm3 _ _. rewrite Hm3, Hm2. lia.
  - intros r' Hr'. apply (tm_records _ _ _ Ht) in Hr'. rewrite Hr1 in Hr'.
    apply elem_of_app in Hr' as [Hr'| ->%list_elem_of_singleton].
    + left. split; [by apply Hrs|]. pose proof (contiguous_bounds _ _ _ (sh_records _ _ Hf) Hr'). pose proof (sh_next _ _ Hf). lia.
    + right. unfold r. by rewrite Hseq.
  - intros cp Hcp. apply (tm_checkpoints _ _ _ Ht) in Hcp as [Hcp|[He Hsn]]; [|right; split; [congruence|done]].
    apply Hc1 in Hcp as [Hcp|[He Hsn]]; [left|right; split; [congruence|done]].
    split; [by apply Hcs|]. pose proof (proj1 (Forall_forall _ _) (sh_bound _ _ Hf) _ Hcp) as Hlt. simpl in Hlt. lia.
Qed.
End limits.

(** ** Sound states *)

Section travel.
Context `{Libm} `{Build} `{LuaEngine} `{FloatDisplay}.
Context (sizes : list nat) (nn nc : nat) (Hrelease : overflow_checks = false).
Variable record_bytes : TraceRecord → Z.
Variable snapshot_bytes : Simulator → Z.
Variable sources_bytes : list string → Z.
Variable normalize_path : string → string.
#[local] Set Default Proof Using "Type H H0 H1 H2 Hrelease".

(** A state between two events of a simulation of IC10 programs. *)
Record sound (s : Simulator) : Prop := {
  so_ok : sim_ok sizes nn nc s;
  so_covered : covered s;
  so_quiet : quiet s;
  so_lua : lua_programs s = [];
  so_slot : 0 ≤ scheduler_slot s;
  so_index : index_ok (journal s);
  so_names : few_names s;
}.

Lemma sim_ok_snapshot s : sim_ok sizes nn nc s → ∃ snap, snapshot s = Ok snap.
Proof.
  intros [_ [Hlen _] Hsched]. unfold snapshot, adapters.
  assert (∃ l, map_outcome (adapter_snapshot s) (sim_schedule s) = Ok l) as [l ->]; [|by eexists].
  induction Hsched as [|a ads Ha _ [l IH]]; [by exists []|]. simpl.
  assert (∃ x, adapter_snapshot s a = Ok x) as [x ->]; [|rewrite IH; by eexists].
  destruct a as [i|i]; [|done]. unfold adapter_snapshot. simpl. unfold sim_ic10_snapshot.
  destruct (lookup_lt_is_Some_2 (cpus s) i) as [c ->]; [lia|]. by eexists.
Qed.

Lemma sound_snapshot s : sound s → ∃ snap, snapshot s = Ok snap.
Proof. intros Hs. apply sim_ok_snapshot, Hs. Qed.

Lemma safe_next_scheduled_location s : sim_ok sizes nn nc s → sim_ok sizes nn nc (next_scheduled_location s).2.
Proof.
  intros Hs. unfold next_scheduled_location, prepare_next_adapter.
  pose proof (safe_prepare_from sizes nn nc Hrelease (drop (Z.to_nat (scheduler_slot s)) (sim_schedule s))
    (Forall_drop _ _ _ (ok_schedule _ _ _ _ Hs)) s Hs) as Hp.
  destruct (prepare_from _ s) as [[[[a l]|]|e|] t]; [apply Hp|apply Hp|by apply sim_ok_error|done].
Qed.

Lemma safe_state {A} (m : M Simulator message A) s r t : safe (sim_ok sizes nn nc) m any → sim_ok sizes nn nc s → m s = (r, t) → sim_ok sizes nn nc t.
Proof. intros Hm Hs Hrun. specialize (Hm s Hs). rewrite Hrun in Hm. destruct r; [apply Hm|apply Hm|done]. Qed.

Lemma looks_ok s t : looks s t → sim_ok sizes nn nc s → sim_ok sizes nn nc t.
Proof.
  induction 1 as [|s s1 t Hlook _ _ IH]; [done|]. intros Hs. apply IH.
  pose proof (safe_next_scheduled_location s Hs) as Hn. by rewrite Hlook in Hn.
Qed.

Lemma performs_ok s action cpu line e u : performs s action cpu line e u → sim_ok sizes nn nc s → sim_ok sizes nn nc u.
Proof.
  intros [s1 s2 cpu' line' result u' Hlooks Hlook Hstep _|i cpu' line' result u' Hstep _|cpu' line' events u' Hstep|cpu' line' u' Hed|] Hs; [..|done].
  - apply looks_ok in Hlooks; [|done]. pose proof (safe_next_scheduled_location _ Hlooks) as Hn. rewrite Hlook in Hn.
    eapply safe_state; [by apply safe_scheduler_step|exact Hn|exact Hstep].
  - eapply safe_state; [by apply safe_step_instruction|exact Hs|exact Hstep].
  - unfold step_world_tick in Hstep. pose proof (safe_step_until_tick sizes nn nc Hrelease (tick_fuel s) (tick s) [] s Hs) as Hn.
    destruct (step_until_tick _ _ _ s) as [[events'|e'|] t]; simplify_eq/=; try done; by destruct Hn.
  - by apply Hed.
Qed.

(** An event leads from a sound state to a sound state. *)
Lemma event_sound s action cpu line effects e t :
  sound s → event s action cpu line effects e t → few_names t → evolves s t ∧ sound t.
Proof.
  intros [Hok [Hnd Hcov] Hq Hlua Hslot Hi Hf] (u & written & Hp & Htake & _) Hft.
  pose proof (performs_evolves _ _ _ _ _ _ Hp) as [Hev Hsl]. pose proof (performs_ok _ _ _ _ _ _ Hp Hok) as Hu.
  unfold take_effects in Htake. cbn in Htake. injection Htake as <- <-.
  assert (evolves u (sim_set_journal (journal_set_pending empty_batch (journal u)) u)) as Hjournal by (split; [done|by apply later_with]).
  assert (evolves s (sim_set_journal (journal_set_pending empty_batch (journal u)) u)) as Hev' by (by etransitivity).
  split; [done|]. pose proof (proj1 Hev) as Hst. unfold same_static, static in Hst. injection Hst as _ _ Hsched Hlen Hid.
  assert (length (cpus u) = length (cpus s)) as Hcount by (by rewrite <-(length_fmap identity (cpus u)), Hid, length_fmap).
  split.
  - by apply sim_ok_journal.
  - unfold covered. simpl. rewrite Hsched, Hcount. done.
  - done.
  - simpl. rewrite Hlua in Hlen. by apply nil_length_inv.
  - by apply Hsl.
  - by apply Hev'.
  - done.
Qed.

Lemma same_sound a y : sound a → same a y → evolves a y → sound y.
Proof.
  intros [Hok [Hnd Hcov] Hq Hlua Hslot Hi Hf] Hs [_ Hl]. pose proof (same_cpu_count _ _ Hs) as Hcount.
  pose proof (ss_journal _ _ _ Hs) as [_ Hp _ _ Hi' Hb _]. pose proof (ss_cpus _ _ _ Hs) as Hcpus. destruct Hs as [? Hw ? ? ? Hsched Hsl ? Hbeh ? _ _ _].
  split; unfold covered, quiet, few_names in *; rewrite ?Hsched, ?Hcount, ?Hsl; try done; try congruence.
  destruct Hok as [Hb' [Hlen Hall] Hsch]. split; [|split; [congruence|]|congruence].
  - destruct Hb' as (? & ? & ?). unfold behaviour_state_of. rewrite Hw, Hbeh. by split_and!.
  - apply Forall_lookup. intros i c' Hc'. destruct (Forall2_lookup_r _ _ _ _ _ Hcpus Hc') as (c & Hc & Hcore).
    rewrite Forall_lookup in Hall. specialize (Hall i c Hc). apply (cpu_program_ok_update sizes c c'); [..|done]; cpu_parts; congruence.
Qed.

(** ** The invariant of a debugged simulation *)

Definition ancestor (a x : Simulator) : Prop := sound a ∧ evolves a x.

Lemma ancestor_later a x y : ancestor a x → evolves x y → ancestor a y.
Proof. intros [Ha Hx] Hy. split; [done|by etransitivity]. Qed.

(** A record leads from a state like the one before it to the one after it. *)
Definition remembered (past : Z → Simulator) (x : Simulator) (r : TraceRecord) : Prop :=
  ancestor (past (rc_sequence r)) x
  ∧ ∃ w, ancestor w x ∧ same (past (rc_sequence r - 1)) w ∧ recorded w r (past (rc_sequence r)).

(** What the checkpoints and the records hold of the states after the events. *)
Record memory (past : Z → Simulator) (x : Simulator) (h : TraceHistory) : Prop := {
  me_checkpoint cp : cp ∈ checkpoints h →
    snapshot (past (cp_sequence cp)) = Ok (cp_snapshot cp) ∧ ancestor (past (cp_sequence cp)) x;
  me_record r : r ∈ records h → remembered past x r;
}.

Lemma memory_later past x y h : memory past x h → evolves x y → memory past y h.
Proof.
  intros [Hc Hr] Hy. split.
  - intros cp Hcp. destruct (Hc cp Hcp) as [Hs Ha]. split; [done|by eapply ancestor_later].
  - intros r Hin. destruct (Hr r Hin) as (Hev & w & Ha & Hw). split; [by eapply ancestor_later|]. exists w. split; [by eapply ancestor_later|done].
Qed.

(** The records between two states take any state like the first to one like the second. *)
Lemma replay_between past x lo rs :
  contiguous lo rs → (∀ r, r ∈ rs → is_external (rc_action r) = false ∧ remembered past x r) →
  ∀ y, same (past lo) y → names y = names x →
  ∃ y', replay_records rs y = (Ok (Some ()), y') ∧ same (past (lo + Z.of_nat (length rs))) y' ∧ names y' = names x.
Proof.
  revert lo. induction rs as [|r rs IH]; intros lo Hk Hall y Hy Hn; simpl.
  { exists y. by rewrite Z.add_0_r. }
  destruct Hk as [Hseq Hk]. destruct (Hall r ltac:(left)) as (Hext & [_ Hpast] & w & [Hw Hwx] & Hsame & Hrec).
  rewrite Hseq in *. replace (lo + 1 - 1) with lo in Hsame by lia.
  assert (same w y) as Hwy.
  { eapply same_join; [exact Hsame|exact Hy|]. change (names w `prefix_of` names y). rewrite Hn. apply Hwx. }
  destruct (replay_recorded w r (past (lo + 1)) y) as (y1 & Hrun & Hs1 & Hn1); [apply Hw|done|done|done| |].
  { rewrite Hn. apply Hpast. }
  erewrite bind_run by exact Hrun. cbv beta iota.
  destruct (IH (lo + 1) Hk) with (y:=y1) as (y' & Hrun' & Hs' & Hn'); [|done|congruence|].
  { intros r' Hr'. apply Hall. by right. }
  exists y'. split; [done|]. split; [|done]. replace (lo + Z.of_nat (S (length rs))) with (lo + 1 + Z.of_nat (length rs)) by lia. done.
Qed.

(** The checkpoint that is taken is the last up to the target. *)
Lemma find_last_greatest (f : TraceCheckpoint → bool) cps cp :
  StronglySorted Z.lt (sequences cps) → find_first f (rev cps) = Some cp →
  ∀ c, c ∈ cps → f c = true → cp_sequence c ≤ cp_sequence cp.
Proof.
  induction cps as [|d cps IH]; [done|]. intros [Hs Hall]%sorted_cons. simpl. rewrite find_first_app.
  destruct (find_first f (rev cps)) as [cp'|] eqn:Hf.
  - intros [= ->] c [->|Hin]%elem_of_cons Hc; [|by apply IH]. apply find_first_Some in Hf as [Hin _].
    rewrite elem_of_rev in Hin. specialize (Hall _ Hin). lia.
  - intros Hd c [->|Hin]%elem_of_cons Hc.
    + unfold find_first in Hd. simpl in Hd. rewrite Hc in Hd. by injection Hd as ->.
    + pose proof (find_first_None _ _ Hf c) as Hno. rewrite Hno in Hc; [done|]. by rewrite elem_of_rev.
Qed.

Lemma anchor_spec lo h target :
  shape lo h → lo ≤ target →
  ∃ cp, anchor target h = Some cp ∧ cp ∈ checkpoints h ∧ cp_sequence cp ≤ target
    ∧ ∀ c, c ∈ checkpoints h → cp_sequence c ≤ target → cp_sequence c ≤ cp_sequence cp.
Proof.
  intros Hh Hlo. unfold anchor. destruct (find_first _ (rev (checkpoints h))) as [cp|] eqn:Hf.
  - exists cp. split; [done|]. pose proof (find_last_greatest _ _ _ (sh_sorted _ _ Hh) Hf) as Hg.
    apply find_first_Some in Hf as [Hin Hle]. rewrite elem_of_rev in Hin.
    split_and!; [done|lia|]. intros c Hc Hct. apply Hg; [done|lia].
  - exfalso. pose proof (sh_front _ _ Hh) as Hfr. destruct (checkpoints h) as [|c cps]; [done|]. injection Hfr as <-.
    pose proof (find_first_None _ _ Hf c) as Hno. cbv beta in Hno.
    assert (cp_sequence c <=? target = false); [|lia]. apply Hno. rewrite elem_of_rev. by left.
Qed.

(** What the checkpoints and the records hold of the states up to an event. *)
Record memory_until (target : Z) (past : Z → Simulator) (x : Simulator) (h : TraceHistory) : Prop := {
  mu_checkpoint cp : cp ∈ checkpoints h → cp_sequence cp ≤ target →
    snapshot (past (cp_sequence cp)) = Ok (cp_snapshot cp) ∧ ancestor (past (cp_sequence cp)) x;
  mu_record r : r ∈ records h → rc_sequence r ≤ target → remembered past x r;
}.

Lemma memory_whole target past x h : memory past x h → memory_until target past x h.
Proof. intros [Hc Hr]. split; eauto. Qed.

(** Every state that is remembered is reached again, even from a state that is not: the
    scheduler may have passed ticks that no record holds. *)
Lemma restore_until past x h lo target :
  shape lo h → memory_until target past x h → sim_ok sizes nn nc x → index_ok (journal x) → few_names x → lo ≤ target < next_sequence h →
  ∃ x', restore_history target h x = (Ok (Some (with_position target (next_sequence h) h)), x')
    ∧ same (past target) x' ∧ ancestor (past target) x' ∧ evolves x x' ∧ names x' = names x.
Proof.
  intros Hh Hm Hx Hindex Hfew Ht. destruct (anchor_spec lo h target Hh) as (cp & Hanchor & Hin & Hle & Hgreatest); [lia|].
  destruct (mu_checkpoint _ _ _ _ Hm cp Hin Hle) as [Hsnap [Hpast [Hstatic Hlater]]].
  pose proof (sorted_front _ _ _ (sh_front _ _ Hh) (sh_sorted _ _ Hh) Hin) as Hlo.
  destruct (sim_ok_world _ _ _ _ (so_ok _ Hpast)) as (Hd & Hnw & _). destruct (sim_ok_world _ _ _ _ Hx) as (Hd' & Hnw' & _).
  destruct (restore_same (past (cp_sequence cp)) x (cp_snapshot cp)) as (y & Hrun & Hsame & Hst & Hn & Hlt);
    try apply Hpast; [done|done| |congruence|done|done|done|].
  { by rewrite <-!length_memory_sizes, Hd, Hd'. }
  set (rs := filter (λ r, cp_sequence cp < rc_sequence r ∧ rc_sequence r ≤ target) (records h)).
  destruct (contiguous_filter (λ r, cp_sequence cp < rc_sequence r ∧ rc_sequence r ≤ target) lo (cp_sequence cp) target (records h))
    as [Hk Hlen]; [apply Hh|lia|pose proof (sh_next _ _ Hh); lia|done|]. fold rs in Hk, Hlen.
  destruct (replay_between past x (cp_sequence cp) rs Hk) with (y:=y) as (x' & Hrun' & Hs' & Hn'); [|done|done|].
  { intros r [[Hlt1 Hlt2] Hr]%list_elem_of_filter. split; [|by apply (mu_record _ _ _ _ Hm)]. apply not_true_iff_false. intros Hext.
    destruct (sh_external _ _ Hh r Hr Hext) as (c & Hc & He). specialize (Hgreatest c Hc). lia. }
  rewrite Hlen in Hs'. exists x'.
  assert (evolves x x') as Hev.
  { transitivity y; [by split|]. pose proof (evolves_replay_records rs y) as He. by rewrite Hrun' in He. }
  split.
  { unfold restore_history. rewrite Hanchor. cbn [ok_or lift]. erewrite bind_run by done. cbv beta iota.
    erewrite bind_run by exact Hrun. cbv beta iota. fold rs. erewrite bind_run by exact Hrun'. done. }
  split; [done|]. split; [|done]. destruct (decide (target = cp_sequence cp)) as [->|Hne].
  - split; [done|]. transitivity x; [|done]. by split.
  - assert (∃ r, r ∈ rs ∧ rc_sequence r = target) as (r & Hr & <-).
    { destruct (last rs) as [r|] eqn:Hlast; [|apply last_None in Hlast; rewrite Hlast in Hlen; simpl in Hlen; lia].
      exists r. rewrite last_lookup in Hlast. rename Hlast into Hl. split; [by eapply list_elem_of_lookup_2|].
      rewrite (contiguous_lookup _ _ _ _ Hk Hl). apply lookup_lt_Some in Hl. lia. }
    apply list_elem_of_filter in Hr as [_ Hr]. eapply ancestor_later; [|exact Hev]. by apply (mu_record _ _ _ _ Hm).
Qed.

Lemma restore_retained past x h lo target :
  shape lo h → memory past x h → sound x → lo ≤ target < next_sequence h →
  ∃ x', restore_history target h x = (Ok (Some (with_position target (next_sequence h) h)), x')
    ∧ same (past target) x' ∧ ancestor (past target) x' ∧ evolves x x' ∧ names x' = names x.
Proof. intros Hh Hm [] Ht. by apply restore_until with lo; [|apply memory_whole| | | |]. Qed.

Record tracked (past : Z → Simulator) (x : Simulator) (h : TraceHistory) : Prop := {
  tr_shape : ∃ lo, shape lo h;
  tr_memory : memory past x h;
  tr_same : same (past (cursor h)) x;
  tr_ancestor : ancestor (past (cursor h)) x;
  tr_sound : sound x;
}.

(** A simulation under the debugger, with its history and the states after the events:
    it is started, events are recorded, and it is taken back to a retained state. *)
Definition then_state (past : Z → Simulator) (sequence : Z) (t : Simulator) : Z → Simulator :=
  λ n, if n =? sequence then t else past n.

Inductive debugged : TraceHistory → (Z → Simulator) → Simulator → Prop :=
  | debugged_start s h events interval memory_mib :
      sound s → new_history snapshot_bytes normalize_path s events interval memory_mib = Ok h → debugged h (λ _, s) s
  | debugged_event h past s action cpu line effects error t h' :
      debugged h past s → event s action cpu line effects error t → few_names t →
      record record_bytes snapshot_bytes sources_bytes t cpu line action effects error h = Ok (Some h') →
      debugged h' (then_state past (cursor h + 1) t) t
  | debugged_restore h past s target h' t :
      debugged h past s → target < next_sequence h → restore_history target h s = (Ok (Some h'), t) → debugged h' past t
  | debugged_flags h past s f : debugged h past s → debugged (alter_flags f h) past s
  | debugged_checkpoint h past s h' :
      debugged h past s → at_end h → checkpoint_current record_bytes snapshot_bytes sources_bytes s h = Ok h' → debugged h' past s.

Lemma tracked_start s h events interval memory_mib :
  sound s → new_history snapshot_bytes normalize_path s events interval memory_mib = Ok h → tracked (λ _, s) s h.
Proof.
  intros Hs Hrun. destruct (sound_snapshot s Hs) as [snap Hsnap]. unfold new_history in Hrun.
  rewrite (checkpoint_of_run snapshot_bytes s snap 0 Hsnap) in Hrun. cbn [mbind outcome_mbind outcome_bind] in Hrun. injection Hrun as <-.
  split; [exists 0; split; simpl; try done|split; simpl|apply same_refl; apply Hs|done|done].
  - repeat constructor.
  - by apply Forall_singleton.
  - by intros r ?%elem_of_nil.
  - lia.
  - by intros cp ->%list_elem_of_singleton.
  - by intros r ?%elem_of_nil.
Qed.

Lemma tracked_event h past s action cpu line effects error t h' :
  tracked past s h → event s action cpu line effects error t → few_names t →
  record record_bytes snapshot_bytes sources_bytes t cpu line action effects error h = Ok (Some h') →
  tracked (then_state past (cursor h + 1) t) t h'.
Proof.
  intros [[lo Hh] Hm Hsame Hpresent Hs] Hev Hfew Hrun. destruct (event_sound _ _ _ _ _ _ _ Hs Hev Hfew) as [Hst Ht].
  destruct (sound_snapshot t Ht) as [snap Hsnap].
  destruct (record_run record_bytes snapshot_bytes sources_bytes lo h t snap cpu line action effects error Hh Hsnap)
    as (h1 & lo' & previous & Hrun1 & Hh' & Hpos & _ & _ & Hrs & Hcs).
  rewrite Hrun1 in Hrun. injection Hrun as ->. injection Hpos as Hcur Hnext. apply (memory_later _ _ t) in Hm; [|done].
  assert (∀ n, n ≤ cursor h → then_state past (cursor h + 1) t n = past n) as Hold.
  { intros n Hn. unfold then_state. assert (n =? cursor h + 1 = false) as -> by lia. done. }
  assert (then_state past (cursor h + 1) t (cursor h + 1) = t) as Hnew by (unfold then_state; by rewrite Z.eqb_refl).
  split; [by exists lo'|split| |by rewrite Hcur, Hnew|done].
  - intros cp Hcp. destruct (Hcs cp Hcp) as [[Hin Hle]|[He Hsn]].
    + rewrite Hold by done. by apply Hm.
    + rewrite He, Hnew. split; [done|]. by split.
  - intros r Hr. destruct (Hrs r Hr) as [[Hin Hle]| ->].
    + unfold remembered. rewrite !Hold by lia. by apply Hm.
    + unfold remembered. cbn [rc_sequence new_record]. rewrite Hnew. split; [by split|].
      rewrite Hold by lia. replace (cursor h + 1 - 1) with (cursor h) by lia. exists s. split; [by split|]. split; [done|]. by split.
  - rewrite Hcur, Hnew. apply same_refl; apply Ht.
Qed.

Lemma tracked_restore h past s target h' t :
  tracked past s h → target < next_sequence h → restore_history target h s = (Ok (Some h'), t) → tracked past t h'.
Proof.
  intros [[lo Hh] Hm Hsame Hpresent Hs] Ht Hrun.
  destruct (decide (lo ≤ target)) as [Hlo|Hlo].
  - destruct (restore_retained past s h lo target Hh Hm Hs) as (x' & Hrun' & Hs' & [Hpast Hlater] & Hev & Hn); [done|].
    rewrite Hrun' in Hrun. injection Hrun as <- <-. apply (memory_later past s x') in Hm; [|done].
    split; [exists lo; by destruct Hh|by destruct Hm|done|done|by apply (same_sound (past target))].
  - exfalso. unfold restore_history in Hrun. assert (anchor target h = None) as Hno.
    { unfold anchor. destruct (find_first _ _) as [cp|] eqn:Hf; [|done]. apply find_first_Some in Hf as [Hin Hle].
      rewrite elem_of_rev in Hin. pose proof (sorted_front _ _ _ (sh_front _ _ Hh) (sh_sorted _ _ Hh) Hin). lia. }
    by rewrite Hno in Hrun.
Qed.

Lemma alter_flags_records f h :
  records (alter_flags f h) = records h
  ∨ ∃ rs r, records h = (rs ++ [r])%list ∧ records (alter_flags f h) = (rs ++ [set_event_flags (f (rc_event_flags r)) r])%list.
Proof using Type.
  unfold alter_flags. destruct (last (records h)) as [r|] eqn:Hlast; [right|by left].
  apply last_Some in Hlast as [rs Hrs]. exists rs, r. split; [done|]. simpl. by rewrite Hrs, removelast_last.
Qed.

(** A record after the flags were altered is one from before, but for its flags. *)
Lemma alter_flags_back f h r :
  r ∈ records (alter_flags f h) → ∃ r0, r0 ∈ records h ∧ (r = r0 ∨ r = set_event_flags (f (rc_event_flags r0)) r0).
Proof using Type.
  destruct (alter_flags_records f h) as [->|(rs & last & -> & ->)]; [by eauto|].
  intros [Hin| ->%list_elem_of_singleton]%elem_of_app.
  - exists r. split; [apply elem_of_app; by left|by left].
  - exists last. split; [apply elem_of_app; right; by apply list_elem_of_singleton|by right].
Qed.

Lemma alter_flags_rest f h :
  checkpoints (alter_flags f h) = checkpoints h ∧ position (alter_flags f h) = position h ∧ settings (alter_flags f h) = settings h.
Proof using Type. unfold alter_flags. by destruct (last (records h)). Qed.

Lemma shape_flags lo f h : shape lo h → shape lo (alter_flags f h).
Proof using Type.
  intros [Hf Hso Hb Hk Hn Hcu He Hme]. destruct (alter_flags_rest f h) as (Hc & [= Hcur Hnext] & [= Hmax _ _]).
  assert (contiguous lo (records (alter_flags f h)) ∧ length (records (alter_flags f h)) = length (records h)) as [Hk' Hlen].
  { destruct (alter_flags_records f h) as [->|(rs & r & Hr & ->)]; [done|]. rewrite Hr in *. rewrite !length_app. split; [|done].
    clear -Hk. revert lo Hk. induction rs as [|r' rs IH]; intros lo; simpl; [done|]. intros [? ?]. split; [done|by apply IH]. }
  split; rewrite ?Hc, ?Hcur, ?Hnext, ?Hmax, ?Hlen; try done.
  intros r Hin Hx. destruct (alter_flags_back f h r Hin) as (r0 & Hin0 & [->| ->]); exact (He r0 Hin0 Hx).
Qed.

Lemma tracked_flags h past s f : tracked past s h → tracked past s (alter_flags f h).
Proof.
  intros [[lo Hh] [Hmc Hmr] Hsame Hpresent Hs]. destruct (alter_flags_rest f h) as (Hc & [= Hcur _] & _).
  split; rewrite ?Hcur; [exists lo; by apply shape_flags|split|done..]; rewrite ?Hc; [done|].
  intros r Hin. destruct (alter_flags_back f h r Hin) as (r0 & Hin0 & [->| ->]); exact (Hmr r0 Hin0).
Qed.

Lemma tracked_checkpoint h past s h' :
  tracked past s h → at_end h → checkpoint_current record_bytes snapshot_bytes sources_bytes s h = Ok h' → tracked past s h'.
Proof.
  intros [[lo Hh] Hm Hsame Hpresent Hs] Hend Hrun. destruct (sound_snapshot s Hs) as [snap Hsnap]. unfold checkpoint_current in Hrun.
  rewrite (checkpoint_of_run snapshot_bytes s snap (cursor h) Hsnap) in Hrun. cbn [mbind outcome_mbind outcome_bind] in Hrun. injection Hrun as <-.
  set (cp := {| cp_sequence := cursor h; cp_snapshot := snap; cp_estimated_bytes := snapshot_bytes s |}).
  set (kept := match last (checkpoints h) with Some cp => _ | None => _ end).
  pose proof Hh as [Hf Hso Hb Hk Hn Hcu He Hme]. unfold at_end in Hend.
  assert (StronglySorted Z.lt (sequences kept) ∧ Forall (λ c, cp_sequence c < cursor h) kept
    ∧ (∀ c, c ∈ kept → c ∈ checkpoints h) ∧ (∀ c, c ∈ checkpoints h → c ∈ kept ∨ cp_sequence c = cursor h)) as (Hsk & Hbk & Hsub & Hall).
  { rewrite Forall_forall in Hb. subst kept. destruct (last (checkpoints h)) as [c|] eqn:Hlast.
    2: { apply last_None in Hlast. rewrite Hlast in Hf. done. }
    apply last_Some in Hlast as [cps Hcps]. rewrite Hcps in Hso, Hb |- *. rewrite removelast_last.
    assert (∀ d, d ∈ cps → cp_sequence d < cp_sequence c) as Hlast.
    { intros d Hd. clear -Hso Hd. induction cps as [|e cps IH]; [by apply elem_of_nil in Hd|]. apply sorted_cons in Hso as [Hso Hall].
      apply elem_of_cons in Hd as [->|Hd]; [|by apply IH]. apply Hall, elem_of_app. right. by apply list_elem_of_singleton. }
    assert (StronglySorted Z.lt (sequences cps)) as Hscps.
    { clear -Hso. induction cps as [|e cps IH]; [constructor|]. apply sorted_cons in Hso as [Hso Hall]. apply sorted_cons.
      split; [by apply IH|]. intros d Hd. apply Hall, elem_of_app. by left. }
    assert (cp_sequence c < next_sequence h) by (apply Hb, elem_of_app; right; by apply list_elem_of_singleton).
    destruct (cp_sequence c =? cursor h) eqn:Hc; split_and!; try done.
    - apply Forall_forall. intros d Hd. specialize (Hlast d Hd). lia.
    - intros d Hd. apply elem_of_app. by left.
    - intros d [Hd| ->%list_elem_of_singleton]%elem_of_app; [by left|right; lia].
    - apply Forall_forall. intros d [Hd| ->%list_elem_of_singleton]%elem_of_app; [specialize (Hlast d Hd)|]; lia.
    - intros d Hd. by left. }
  split; [exists lo; apply shape_estimate; split; simpl; try done|split; simpl|done..].
  - destruct kept as [|k ks] eqn:Hkept.
    + simpl. f_equal. destruct (checkpoints h) as [|c cps]; [done|]. injection Hf as <-.
      destruct (Hall c ltac:(left)) as [Hno|?]; [by apply elem_of_nil in Hno|done].
    + assert (kept !! 0%nat = Some k) as Hk0 by (by rewrite Hkept). simpl.
      assert (head (sequences (checkpoints h)) = Some (cp_sequence k)); [|unfold sequences in *; congruence].
      clear -Hkept Hf. subst kept. unfold sequences. destruct (last (checkpoints h)) as [c|]; [|by rewrite Hkept].
      destruct (cp_sequence c =? cursor h); [|by rewrite Hkept]. destruct (checkpoints h) as [|d [|e cps]]; [done..|]. simpl in Hkept. by injection Hkept as ->.
  - by apply sequences_snoc.
  - apply Forall_app. split; [|by apply Forall_singleton; simpl; lia]. eapply Forall_impl; [exact Hbk|]. simpl. intros. lia.
  - intros r Hr Hx. destruct (He r Hr Hx) as (c & Hc & Hce). destruct (Hall c Hc) as [Hck|Hcc].
    + exists c. split; [apply elem_of_app; by left|done].
    + exists cp. split; [apply elem_of_app; right; by apply list_elem_of_singleton|simpl; congruence].
  - intros c [Hc| ->%list_elem_of_singleton]%elem_of_app; [apply Hm; by apply Hsub|]. simpl.
    rewrite <-(seen_snapshot _ _ Hsame). by split.
  - by apply Hm.
Qed.

Lemma debugged_tracked h past x : debugged h past x → tracked past x h.
Proof.
  induction 1 as [s h events interval memory_mib Hs Hrun|h past s action cpu line effects error t h' _ IH Hev Hfew Hrun
    |h past s target h' t _ IH Ht Hrun|h past s f _ IH|h past s h' _ IH Hend Hrun].
  - by eapply tracked_start.
  - by eapply tracked_event.
  - by eapply tracked_restore.
  - by apply tracked_flags.
  - by eapply tracked_checkpoint.
Qed.

Lemma debugged_retained h past x cp target :
  debugged h past x → cp ∈ checkpoints h → cp_sequence cp ≤ target < next_sequence h →
  ∃ x', restore_history target h x = (Ok (Some (with_position target (next_sequence h) h)), x') ∧ same (past target) x'.
Proof.
  intros Hd Hcp Ht. destruct (debugged_tracked _ _ _ Hd) as [[lo Hh] Hm _ _ Hs].
  pose proof (sorted_front _ _ _ (sh_front _ _ Hh) (sh_sorted _ _ Hh) Hcp).
  destruct (restore_retained past x h lo target Hh Hm Hs) as (x' & Hrun & Hsame & _); [lia|]. by exists x'.
Qed.

Lemma debugged_records h past s action cpu line effects error t :
  debugged h past s → event s action cpu line effects error t → few_names t →
  ∃ h', record record_bytes snapshot_bytes sources_bytes t cpu line action effects error h = Ok (Some h') ∧ bounded h'
    ∧ position h' = (cursor h + 1, cursor h + 2) ∧ ∃ cp, cp ∈ checkpoints h' ∧ cp_sequence cp ≤ cursor h + 1.
Proof.
  intros Hd Hev Hfew. destruct (debugged_tracked _ _ _ Hd) as [[lo Hh] _ _ _ Hs].
  destruct (event_sound _ _ _ _ _ _ _ Hs Hev Hfew) as [_ Ht]. destruct (sound_snapshot t Ht) as [snap Hsnap].
  destruct (record_run record_bytes snapshot_bytes sources_bytes lo h t snap cpu line action effects error Hh Hsnap)
    as (h' & lo' & previous & Hrun & Hh' & Hpos & _ & Hb & _ & _).
  exists h'. split_and!; [done|done|done|]. pose proof (sh_front _ _ Hh') as Hf. pose proof (sh_bound _ _ Hh') as Hbound.
  destruct (checkpoints h') as [|cp cps]; [done|]. exists cp. split; [by left|].
  apply Forall_inv in Hbound. unfold position in Hpos. injection Hpos as _ Hn. lia.
Qed.
End travel.

(** ** The debugger goes back *)

(** C3.  Time travel.  Whatever events a debugger recorded and went back over (what it
    does without a record, as [goto] or a tick that fails, is no event), every state
    from the first checkpoint that is kept to the last event is reached again: the
    replay does not diverge, and ends in the state the event left, journal included,
    but for the names and the write history that the journal has gathered since. *)
Theorem time_travel `{Libm} `{Build} `{LuaEngine} `{FloatDisplay} sizes nn nc record_bytes snapshot_bytes sources_bytes
    normalize_path h past x cp target :
  overflow_checks = false → debugged sizes nn nc record_bytes snapshot_bytes sources_bytes normalize_path h past x →
  cp ∈ checkpoints h → cp_sequence cp ≤ target < next_sequence h →
  ∃ x', restore_history target h x = (Ok (Some (with_position target (next_sequence h) h)), x')
    ∧ same (past target) x' ∧ snapshot x' = snapshot (past target) ∧ state_hash x' = state_hash (past target).
Proof.
  intros Hrelease Hd Hcp Ht. destruct (debugged_retained _ _ _ Hrelease _ _ _ _ _ _ _ _ _ Hd Hcp Ht) as (x' & Hrun & Hsame).
  exists x'. split_and!; [done|done|by apply seen_snapshot|by apply seen_state_hash].
Qed.

(** C4.  Recording an event always returns, as the last event; at most [max_events]
    records are kept, the estimate of the memory is below its limit unless a single
    checkpoint is all that is left, and the new state is retained. *)
Theorem recording_is_bounded `{Libm} `{Build} `{LuaEngine} `{FloatDisplay} sizes nn nc record_bytes snapshot_bytes sources_bytes
    normalize_path h past s action cpu line effects error t :
  overflow_checks = false → debugged sizes nn nc record_bytes snapshot_bytes sources_bytes normalize_path h past s →
  event s action cpu line effects error t → few_names t →
  ∃ h', record record_bytes snapshot_bytes sources_bytes t cpu line action effects error h = Ok (Some h')
    ∧ cursor h' = cursor h + 1 ∧ next_sequence h' = cursor h + 2
    ∧ Z.of_nat (length (records h')) ≤ max_events h'
    ∧ (memory_estimate h' ≤ max_memory_bytes h' ∨ length (checkpoints h') = 1%nat ∧ records h' = [])
    ∧ ∃ cp, cp ∈ checkpoints h' ∧ cp_sequence cp ≤ cursor h'.
Proof.
  intros Hrelease Hd Hev Hfew.
  destruct (debugged_records _ _ _ Hrelease _ _ _ _ _ _ _ _ _ _ _ _ _ Hd Hev Hfew) as (h' & Hrun & [Hb Hm] & Hpos & cp & Hcp & Hle).
  injection Hpos as Hc Hn. exists h'. split_and!; try done. exists cp. split; [done|lia].
Qed.

(** ** A session *)

#[local] Existing Instances sample_libm release_build sample_engine sample_display.

Abbreviation session_record := (record (λ _, 100) (λ _, 1000) (λ _, 0)).
Abbreviation session_debugged := (debugged [0; 0; 4]%nat 1 2 (λ _, 100) (λ _, 1000) (λ _, 0) (λ path, path)).

Definition empty_history : TraceHistory :=
  {| max_events := 2; max_memory_bytes := 0; checkpoint_interval := 1; records := []; checkpoints := []; cursor := 0;
     next_sequence := 1; dropped := 0; sources := []; memory_estimate := 0 |}.
Definition history_of (r : outcome message (option TraceHistory)) : TraceHistory :=
  match r with Ok (Some h) => h | _ => empty_history end.
Definition drained (u : Simulator) : Simulator := (take_effects u).2.

(** A step of the second processor, an edit of a field, and a tick of the world. *)
Definition session_look : Simulator := (next_scheduled_location recorded_simulator).2.
Definition session_u1 : Simulator := (scheduler_step session_look).2.
Definition session_h0 : TraceHistory := history_of (Some <$> new_history (λ _, 1000) (λ path, path) recorded_simulator 100 50 16).
Definition session_h1 : TraceHistory :=
  history_of (session_record (drained session_u1) 1 0 ActScheduled (pending (journal session_u1)) None session_h0).
Definition session_u2 : Simulator := (set_value_as 0 setting_text f_one ActorDebugger (drained session_u1)).2.
Definition session_h2 : TraceHistory :=
  history_of (session_record (drained session_u2) 0 0 ActExternal (pending (journal session_u2)) None session_h1).
Definition session_u3 : Simulator := (step_world_tick (drained session_u2)).2.
Definition session_h3 : TraceHistory :=
  history_of (session_record (drained session_u3) 0 0 ActWorldTick (pending (journal session_u3)) None session_h2).

Lemma recorded_simulator_sound : sound [0; 0; 4]%nat 1 2 recorded_simulator.
Proof.
  split.
  - apply recorded_simulator_ok.
  - split; [apply (bool_decide_unpack _); vm_compute; exact I|]. intros i Hi. change (length (cpus recorded_simulator)) with 2%nat in Hi.
    destruct i as [|[|i]]; [right; left|left|lia].
  - reflexivity.
  - reflexivity.
  - vm_compute. discriminate.
  - intros name id. split; [done|]. intros [_ Hl]. done.
  - vm_compute. reflexivity.
Qed.

Lemma session_occurs s action cpu line error u :
  performs s action cpu line error u → is_ok (named_writes (pending (journal u)) (drained u)) = true →
  event s action cpu line (pending (journal u)) error (drained u).
Proof. intros Hp Hw. destruct (named_writes _ _) as [written| |] eqn:E; [|done..]. by exists u, written. Qed.

Lemma session_event h past s action cpu line error u h' :
  session_debugged h past s → performs s action cpu line error u →
  is_ok (named_writes (pending (journal u)) (drained u)) = true → few_names (drained u) →
  session_record (drained u) cpu line action (pending (journal u)) error h = Ok (Some h') →
  session_debugged h' (then_state past (cursor h + 1) (drained u)) (drained u).
Proof. intros Hd Hp Hw Hf Hrun. eapply debugged_event; [exact Hd|by apply session_occurs|exact Hf|exact Hrun]. Qed.

Lemma session_debugged_0 : session_debugged session_h0 (λ _, recorded_simulator) recorded_simulator.
Proof. apply (debugged_start _ _ _ _ _ _ _ _ session_h0 100 50 16); [exact recorded_simulator_sound|]. vm_compute. reflexivity. Qed.

Definition session_past1 := then_state (λ _, recorded_simulator) (cursor session_h0 + 1) (drained session_u1).
Lemma session_debugged_1 : session_debugged session_h1 session_past1 (drained session_u1).
Proof.
  apply (session_event session_h0 _ recorded_simulator ActScheduled 1 0 None session_u1); [exact session_debugged_0| |vm_compute; reflexivity..].
  assert (∃ event, scheduler_step session_look = (Ok event, session_u1)) as [event Hstep] by (eexists; vm_compute; reflexivity).
  apply (performs_scheduled recorded_simulator recorded_simulator session_look 1 0 (Ok event)); [constructor| |exact Hstep|done].
  vm_compute. reflexivity.
Qed.

Definition session_past2 := then_state session_past1 (cursor session_h1 + 1) (drained session_u2).
Lemma session_debugged_2 : session_debugged session_h2 session_past2 (drained session_u2).
Proof.
  apply (session_event session_h1 _ (drained session_u1) ActExternal 0 0 None session_u2); [exact session_debugged_1| |vm_compute; reflexivity..].
  apply performs_external. apply (set_value_edits 0 setting_text f_one ActorDebugger _ (Ok ())). vm_compute. reflexivity.
Qed.

Lemma session_tick : performs (drained session_u2) ActWorldTick 0 0 None session_u3.
Proof.
  assert (∃ events, step_world_tick (drained session_u2) = (Ok events, session_u3)) as [events Hstep] by (eexists; vm_compute; reflexivity).
  by apply (performs_world_tick _ 0 0 events).
Qed.

Definition session_past3 := then_state session_past2 (cursor session_h2 + 1) (drained session_u3).
Lemma session_debugged_3 : session_debugged session_h3 session_past3 (drained session_u3).
Proof.
  apply (session_event session_h2 _ (drained session_u2) ActWorldTick 0 0 None session_u3); [exact session_debugged_2|exact session_tick|vm_compute; reflexivity..].
Qed.

(** Back to the state after the first step: the edit and the tick are undone. *)
Lemma time_travel_witness :
  ∃ x', restore_history 1 session_h3 (drained session_u3) = (Ok (Some (with_position 1 4 session_h3)), x')
    ∧ state_hash x' = state_hash (drained session_u1) ∧ state_hash (drained session_u1) ≠ state_hash (drained session_u3).
Proof.
  assert (∃ cp, cp ∈ checkpoints session_h3 ∧ cp_sequence cp = 0) as (cp & Hcp & Hseq).
  { eexists. split; [vm_compute; left|reflexivity]. }
  destruct (time_travel [0; 0; 4]%nat 1 2 _ _ _ _ session_h3 session_past3 (drained session_u3) cp 1 (eq_refl : @overflow_checks release_build = false) session_debugged_3 Hcp)
    as (x' & Hrun & _ & _ & Hhash).
  { rewrite Hseq. split; [discriminate|]. vm_compute. reflexivity. }
  exists x'. split; [exact Hrun|]. split; [exact Hhash|]. vm_compute. discriminate.
Defined.

Lemma recording_is_bounded_witness :
  ∃ h', session_record (drained session_u3) 0 0 ActWorldTick (pending (journal session_u3)) None session_h2 = Ok (Some h')
    ∧ cursor h' = 3.
Proof.
  destruct (recording_is_bounded [0; 0; 4]%nat 1 2 (λ _, 100) (λ _, 1000) (λ _, 0) (λ path, path) session_h2 session_past2 (drained session_u2)
    ActWorldTick 0 0 (pending (journal session_u3)) None (drained session_u3) (eq_refl : @overflow_checks release_build = false) session_debugged_2) as (h' & Hrun & Hc & _).
  - apply session_occurs; [exact session_tick|]. vm_compute. reflexivity.
  - vm_compute. reflexivity.
  - exists h'. split; [exact Hrun|]. rewrite Hc. vm_compute. reflexivity.
Defined.

(** ** A stop that cannot be reached *)

Definition ending_simulator : Simulator :=
  sim_set_journal (set_enabled true journal_default)
    (simulator_of scheduler_kb scheduler_world [cpu_of "h" 0 (program_of [(0, "yield", []); (1, "j", ["0"])])] [] [AdIc10 0]).
Definition ending_u : Simulator := (scheduler_step (next_scheduled_location ending_simulator).2).2.
Definition ending_h : TraceHistory :=
  history_of (session_record (drained ending_u) 0 0 ActScheduled (pending (journal ending_u)) None
    (history_of (Some <$> new_history (λ _, 1000) (λ path, path) ending_simulator 100 50 16))).
(** The tick passes, and the location of the breakpoint is found. *)
Definition ending_stop : Simulator := (next_scheduled_location (next_scheduled_location (drained ending_u)).2).2.

Definition ending_stopped : TraceHistory :=
  history_of (record_stop (λ _, 100) (λ _, 1000) (λ _, 0) ending_stop 0 1 "breakpoint" ending_h).
Definition ending_restored : outcome message (option TraceHistory) := (restore_history 2 ending_stopped ending_stop).1.
Definition first_piece (r : outcome message (option TraceHistory)) : option string :=
  match r with Err (PS text :: _) => Some text | _ => None end.

(** A stop at the first instruction of a tick is recorded after the look that ended the
    tick before, which no record holds: going back to the stop, or to anything after it,
    is reported as a divergence. *)
Example stop_after_a_tick_diverges :
  tick (drained ending_u) = 0 ∧ tick ending_stop = 1
  ∧ first_piece ending_restored = Some "deterministic replay state diverged at trace event ".
Proof. vm_compute. by split_and!. Qed.
