(* ===== verification/Environment.v ===== *)
(** * A program in its environment

    [crates/ic10-sim/src/context.rs]: the scenarios that use a program, and what they
    say of it: the devices its pins lead to, the fields and slots an access may name.
    The editor checks a source against every environment of its program.  A URI is its
    text; how a path becomes a URI is an argument. *)

From S2P Require Import Prelude BTree Text F64 Knowledge Literals Syntax Analysis Scenario World.
Local Open Scope string_scope.
Local Open Scope Z_scope.

(** Source: [crates/ic10-sim/src/context.rs] [ProgramUri] *)
Definition ProgramUri := string.

(** Source: [crates/ic10-sim/src/context.rs] [AnalysisContext] *)
Record AnalysisContext := {
  ax_scenario_uri : string;
  ax_scenario_version : Z;
  ax_ic_id : string;
  ax_program_uri : ProgramUri;
  ax_housing : DeviceSpec;
  ax_pins : BTreeMap string DeviceSpec;
  ax_reachable_devices : list DeviceSpec;
  ax_game_version : option string;
}.

(** Source: [crates/ic10-sim/src/context.rs] [AnalysisContext::label] *)
Definition label (context : AnalysisContext) : string :=
  let name := if String.eqb (sp_name (ax_housing context)) "" then ax_ic_id context else sp_name (ax_housing context) in
  name +:+ " · " +:+ ax_scenario_uri context.

(** ** Names and numbers of a document *)

(** [document.symbol] *)
Definition symbol_named (document : Document) (name : string) : option Symbol := bt_get name (do_symbols document).

(** The loop follows at most 32 aliases. *)
Fixpoint follow_alias (n : nat) (document : Document) (current : string) : string :=
  match n with
  | O => current
  | S n =>
      match symbol_named document current with
      | Some symbol =>
          match sy_kind symbol, sy_value symbol with
          | SymAlias, Some next => follow_alias n document next
          | _, _ => current
          end
      | None => current
      end
  end.

(** Source: [crates/ic10-sim/src/context.rs] [resolve_alias] *)
Definition resolve_alias (value : string) (document : Document) : string := follow_alias 32 document value.

(** The loop follows at most 32 defines; one without a value has no number. *)
Fixpoint follow_define (n : nat) (document : Document) (current : string) : option string :=
  match n with
  | O => Some current
  | S n =>
      match symbol_named document current with
      | Some symbol =>
          match sy_kind symbol with
          | SymDefine => next ← sy_value symbol; follow_define n document next
          | _ => Some current
          end
      | None => Some current
      end
  end.

Definition whole (value : f64) : bool := f_is_finite value && f_eq (f_fract value) f_zero.

(** Source: [crates/ic10-sim/src/context.rs] [resolve_hash] *)
Definition resolve_hash (value : string) (document : Document) (kb : KnowledgeBase) : option Z :=
  current ← follow_define 32 document (resolve_alias value document);
  let numeric :=
    value ← option_or (parse_numeric_literal current)
              (constant ← bt_get current (la_constants (kb_language kb)); as_f64 (co_value constant));
    if whole value then Some (to_i32 value) else None in
  match parse_literal_macro current with
  | Some literal =>
      match lm_kind literal with
      | MacroHash => Some (wrap_i 32 (stationeers_crc32 (lm_value literal)))
      | MacroString => numeric
      end
  | None => numeric
  end.

(** Source: [crates/ic10-sim/src/context.rs] [resolve_integer] *)
Definition resolve_integer (value : string) (document : Document) : option Z :=
  current ← follow_define 32 document (resolve_alias value document);
  value ← parse_numeric_literal current;
  if whole value then Some (to_i64 value) else None.

(** [split(':').next()] *)
Definition before_colon (value : string) : string := default value (head (split_char (byte 58) value)).

(** Source: [crates/ic10-sim/src/context.rs] [is_direct_device] *)
Definition is_direct_device (value : string) : bool :=
  String.eqb value "db"
  || match strip_prefix "d" value ≫= parse_usize with Some pin => pin <? 6 | None => false end.

(** Source: [crates/ic10-sim/src/context.rs] [display_name] *)
Definition display_name (device : DeviceSpec) : string :=
  if String.eqb (sp_name device) "" then sp_id device else sp_name device.

(** Source: [crates/ic10-sim/src/context.rs] [device_for_reference] *)
Definition device_for_reference (context : AnalysisContext) (token : string) (document : Document) : option DeviceSpec :=
  let resolved := before_colon (resolve_alias token document) in
  if String.eqb resolved "db" then Some (ax_housing context) else bt_get resolved (ax_pins context).

(** Source: [crates/ic10-sim/src/context.rs] [device_for_reference_id] *)
Definition device_for_reference_id (context : AnalysisContext) (token : string) (document : Document) : option DeviceSpec :=
  reference_id ← in_range I32_MIN I32_MAX (resolve_integer token document);
  find_first (λ device, bool_decide (sp_reference_id device = Some reference_id))
    (ax_housing context :: ax_reachable_devices context).

(** ** The environments of a scenario *)

(** [connection_type.as_str()] with [data] in it *)
Definition carries_data (connection : DeviceConnection) : bool :=
  match as_str (dc_connection_type connection) with
  | Some kind => str_contains "data" (to_ascii_lowercase kind)
  | None => false
  end.

(** Source: [crates/ic10-sim/src/context.rs] [data_networks] *)
Definition data_networks (housing : DeviceSpec) (kb : KnowledgeBase) : list nat :=
  match device_by_name kb (sp_prefab housing) with
  | Some device => (filter (λ '(_, connection), carries_data connection = true) (enumerate (dd_connections device))).*1
  | None => []
  end.

(** The program of a device.
    Source: [crates/ic10-sim/src/context.rs] [build_contexts] lines 154-165 *)
Definition housing_program (scenario : Scenario) (housing : DeviceSpec) : option string :=
  match sp_program housing with
  | Some program_id =>
      ps_path <$> find_first (λ program,
        String.eqb (ps_id program) program_id && match ps_language program with LangIc10 => true | LangLua => false end)
        (sc_programs scenario)
  | None => sp_ic housing ≫= sic_program
  end.

(** A network that carries data over cables. *)
Definition data_cable (network : NetworkSpec) : bool :=
  eq_ignore_ascii_case (ns_kind network) "cable"
  && is_one_of (default "powerAndData" (ns_cable_role network)) ["data"; "powerAndData"].

(** The networks of the data connections of a housing.
    Source: [crates/ic10-sim/src/context.rs] [build_contexts] lines 167-179 *)
Definition housing_networks (scenario : Scenario) (housing : DeviceSpec) (kb : KnowledgeBase) : list string :=
  let networks := bt_collect ((λ network, (ns_id network, network)) <$> sc_networks scenario) in
  filter (λ network, match bt_get network networks with Some spec => data_cable spec | None => false end = true)
    (omap (λ connection, bt_get (show (Z.of_nat connection)) (sp_connections housing)) (data_networks housing kb)).

(** A device with a data connection to one of the networks.
    Source: [crates/ic10-sim/src/context.rs] [build_contexts] lines 183-202 *)
Definition reachable (kb : KnowledgeBase) (data : list string) (device : DeviceSpec) : bool :=
  match device_by_name kb (sp_prefab device) with
  | Some metadata =>
      existsb (λ '(connection, network),
        match index ← parse_usize connection; dd_connections metadata !! Z.to_nat index with
        | Some connection => carries_data connection && existsb (String.eqb network) data
        | None => false
        end) (sp_connections device)
  | None => false
  end.

(** Source: [crates/ic10-sim/src/context.rs] [build_contexts] *)
Definition build_contexts (scenario_uri : string) (version : Z) (scenario : Scenario) (resolve_program : string → ProgramUri)
    (kb : KnowledgeBase) : list AnalysisContext :=
  let devices := bt_collect ((λ device, (sp_id device, device)) <$> sc_devices scenario) in
  omap (λ housing,
    program ← housing_program scenario housing;
    let data := housing_networks scenario housing kb in
    Some {| ax_scenario_uri := scenario_uri; ax_scenario_version := version; ax_ic_id := sp_id housing;
            ax_program_uri := resolve_program program; ax_housing := housing;
            ax_pins := bt_collect (omap (λ '(pin, id), (λ device, (pin, device)) <$> bt_get id devices)
                                     match sp_ic housing with Some ic => sic_pins ic | None => [] end);
            ax_reachable_devices := filter (λ device, reachable kb data device = true) (sc_devices scenario);
            ax_game_version := sc_game_version scenario |}) (sc_devices scenario).

(** ** The index of environments *)

(** Source: [crates/ic10-sim/src/context.rs] [ScenarioIndex] *)
Record ScenarioIndex := {
  ix_scenarios : BTreeMap string (Z * list AnalysisContext);
  ix_programs : BTreeMap ProgramUri (list AnalysisContext);
}.

(** [ScenarioIndex::default] *)
Definition empty_index : ScenarioIndex := {| ix_scenarios := []; ix_programs := [] |}.

(** The environment of a processor of a scenario.
    Source: [crates/ic10-sim/src/context.rs] [ScenarioIndex::remove] lines 113-116 *)
Definition other_context (context candidate : AnalysisContext) : bool :=
  negb (String.eqb (ax_scenario_uri candidate) (ax_scenario_uri context)) || negb (String.eqb (ax_ic_id candidate) (ax_ic_id context)).

(** Source: [crates/ic10-sim/src/context.rs] [ScenarioIndex::remove] lines 112-121 *)
Definition remove_context (programs : BTreeMap ProgramUri (list AnalysisContext)) (context : AnalysisContext) :
    BTreeMap ProgramUri (list AnalysisContext) :=
  match bt_get (ax_program_uri context) programs with
  | Some contexts =>
      match filter (λ candidate, other_context context candidate = true) contexts with
      | [] => bt_remove (ax_program_uri context) programs
      | kept => bt_insert (ax_program_uri context) kept programs
      end
  | None => programs
  end.

(** Source: [crates/ic10-sim/src/context.rs] [ScenarioIndex::remove] *)
Definition remove (scenario_uri : string) (index : ScenarioIndex) : ScenarioIndex :=
  match bt_get scenario_uri (ix_scenarios index) with
  | Some (_, old) =>
      {| ix_scenarios := bt_remove scenario_uri (ix_scenarios index);
         ix_programs := foldl remove_context (ix_programs index) old |}
  | None => index
  end.

(** [entry().or_default().push()] *)
Definition add_context (programs : BTreeMap ProgramUri (list AnalysisContext)) (context : AnalysisContext) :
    BTreeMap ProgramUri (list AnalysisContext) :=
  bt_insert (ax_program_uri context) (default [] (bt_get (ax_program_uri context) programs) ++ [context])%list programs.

(** A version that is not newer than the one that is known changes nothing.
    Source: [crates/ic10-sim/src/context.rs] [ScenarioIndex::update] *)
Definition update (scenario_uri : string) (version : Z) (scenario : Scenario) (resolve_program : string → ProgramUri)
    (kb : KnowledgeBase) (index : ScenarioIndex) : ScenarioIndex :=
  if match bt_get scenario_uri (ix_scenarios index) with Some (cached, _) => version <=? cached | None => false end then index
  else
    let index := remove scenario_uri index in
    let contexts := build_contexts scenario_uri version scenario resolve_program kb in
    {| ix_scenarios := bt_insert scenario_uri (version, contexts) (ix_scenarios index);
       ix_programs := foldl add_context (ix_programs index) contexts |}.

(** Source: [crates/ic10-sim/src/context.rs] [ScenarioIndex::contexts] *)
Definition contexts (program_uri : ProgramUri) (index : ScenarioIndex) : list AnalysisContext :=
  default [] (bt_get program_uri (ix_programs index)).

(** ** Diagnostics *)

(** Source: [crates/ic10-sim/src/context.rs] [EnvironmentTarget] *)
Record EnvironmentTarget := {
  et_scenario_uri : string;
  et_ic_id : string;
  et_device_id : option string;
  et_property : option string;
}.

(** Source: [crates/ic10-sim/src/context.rs] [ContextDiagnostic] *)
Record ContextDiagnostic := {
  cd_span : Span;
  cd_code : string;
  cd_message : string;
  cd_target : option EnvironmentTarget;
}.

(** Source: [crates/ic10-sim/src/context.rs] [target] *)
Definition target (context : AnalysisContext) (device_id property : option string) : EnvironmentTarget :=
  {| et_scenario_uri := ax_scenario_uri context; et_ic_id := ax_ic_id context; et_device_id := device_id; et_property := property |}.

(** Source: [crates/ic10-sim/src/context.rs] [context_error] *)
Definition context_error (context : AnalysisContext) (device : DeviceSpec) (sp : Span) (code message : string)
    (property : option string) : ContextDiagnostic :=
  {| cd_span := sp; cd_code := code; cd_message := message; cd_target := Some (target context (Some (sp_id device)) property) |}.

(** A diagnostic of the environment itself. *)
Definition context_notice (context : AnalysisContext) (sp : Span) (code message : string) (property : option string) :
    ContextDiagnostic :=
  {| cd_span := sp; cd_code := code; cd_message := message; cd_target := Some (target context None property) |}.

(** Source: [crates/ic10-sim/src/context.rs] [validate_access] *)
Definition validate_access (context : AnalysisContext) (device : DeviceSpec) (field : Token) (fields : BTreeMap string LogicAccess)
    (write : bool) (prefix : string) (property : option string) : list ContextDiagnostic :=
  match bt_get (text field) fields with
  | None =>
      [context_error context device (span field) "environment-unsupported-field"
        (prefix +:+ " " +:+ display_name device +:+ " does not expose logic field " +:+ quote (text field)
         +:+ " in bundled official data.") property]
  | Some access =>
      if (write && negb (ac_write access)) || (negb write && negb (ac_read access)) then
        [context_error context device (span field)
          (if write then "environment-read-only-field" else "environment-write-only-field")
          (prefix +:+ " " +:+ quote (text field) +:+ " is not " +:+ (if write then "writable" else "readable")
           +:+ " on " +:+ display_name device +:+ ".") property]
      else []
  end.

Definition one_of (s : string) (l : list string) : bool := existsb (String.eqb s) l.

(** The position of the device in the operands.
    Source: [crates/ic10-sim/src/context.rs] [validate_context] lines 289-292 *)
Definition device_position (mnemonic : string) : nat := if one_of mnemonic ["l"; "ls"; "lr"; "get"; "ld"] then 1 else 0.

(** Where an instruction names a field, a slot and an address, and whether it writes.
    Source: [crates/ic10-sim/src/context.rs] [validate_direct_operation] lines 432-444 *)
Definition access_operands (mnemonic : string) : option nat * option nat * option nat * bool :=
  if String.eqb mnemonic "l" then (Some 2%nat, None, None, false)
  else if String.eqb mnemonic "s" then (Some 1%nat, None, None, true)
  else if String.eqb mnemonic "ls" then (Some 3%nat, Some 2%nat, None, false)
  else if String.eqb mnemonic "ss" then (Some 2%nat, Some 1%nat, None, true)
  else if String.eqb mnemonic "bdnvl" then (Some 1%nat, None, None, false)
  else if String.eqb mnemonic "bdnvs" then (Some 1%nat, None, None, true)
  else if String.eqb mnemonic "ld" then (Some 2%nat, None, None, false)
  else if String.eqb mnemonic "sd" then (Some 1%nat, None, None, true)
  else if String.eqb mnemonic "get" then (None, None, Some 2%nat, false)
  else if String.eqb mnemonic "put" then (None, None, Some 1%nat, true)
  else (None, None, None, false).

(** [Channel0] to [Channel7].
    Source: [crates/ic10-sim/src/context.rs] [validate_direct_operation] lines 448-453 *)
Definition is_channel_name (field : string) : bool :=
  match strip_prefix "Channel" field ≫= parse_usize with Some channel => channel <? 8 | None => false end.

Section validation.
Variable document : Document.
Variable context : AnalysisContext.
Variable kb : KnowledgeBase.
Variable prefix : string.

(** The connection of a device operand such as [d0:1].
    Source: [crates/ic10-sim/src/context.rs] [validate_direct_operation] lines 399-431 *)
Definition validate_connection (metadata : DeviceData) (device : DeviceSpec) (device_token : Token) : list ContextDiagnostic :=
  match '(_, suffix) ← split_once (byte 58) (resolve_alias (text device_token) document); parse_usize suffix with
  | None => []
  | Some connection =>
      let name := show connection in
      if Z.of_nat (length (dd_connections metadata)) <=? connection then
        [context_error context device (span device_token) "environment-invalid-connection"
          (prefix +:+ " " +:+ display_name device +:+ " has no connection " +:+ quote name +:+ ".")
          (Some ("connections." +:+ name))]
      else if negb (bt_contains_key name (sp_connections device)) then
        [context_error context device (span device_token) "environment-unattached-connection"
          (prefix +:+ " " +:+ display_name device +:+ " connection " +:+ quote name +:+ " is not attached to a network.")
          (Some ("connections." +:+ name))]
      else []
  end.

(** A field of a slot.
    Source: [crates/ic10-sim/src/context.rs] [validate_direct_operation] lines 472-503 *)
Definition validate_slot_field (metadata : DeviceData) (device : DeviceSpec) (operands : list Token) (slot_index : nat)
    (write : bool) (field : Token) : list ContextDiagnostic :=
  match operands !! slot_index with
  | None => []
  | Some slot_token =>
      match resolve_integer (text slot_token) document with
      | None => []
      | Some slot =>
          match bt_get (show slot) (dd_slots metadata) with
          | None =>
              [context_error context device (span slot_token) "environment-invalid-slot"
                (prefix +:+ " " +:+ display_name device +:+ " has no slot " +:+ quote (show slot) +:+ ".")
                (Some ("slots." +:+ show slot))]
          | Some slot_metadata =>
              validate_access context device field (ds_logic_types slot_metadata) write prefix
                (Some ("slots." +:+ show slot +:+ "." +:+ text field))
          end
      end
  end.

(** The value that is written to [Mode].
    Source: [crates/ic10-sim/src/context.rs] [validate_direct_operation] lines 514-536 *)
Definition validate_mode (metadata : DeviceData) (device : DeviceSpec) (operands : list Token) (write : bool) (field : Token) :
    list ContextDiagnostic :=
  if write && String.eqb (text field) "Mode" && bt_contains_key "Mode" (dd_logic_types metadata) then
    match operands !! 2%nat with
    | None => []
    | Some value_token =>
        match resolve_integer (text value_token) document with
        | None => []
        | Some value =>
            if existsb (λ mode, bool_decide (as_i64 mode = Some value)) (bt_values (dd_modes metadata)) then []
            else [context_error context device (span value_token) "environment-invalid-mode"
                   (prefix +:+ " " +:+ quote (show value) +:+ " is not a supported mode on " +:+ display_name device +:+ ".")
                   (Some "fields.Mode")]
        end
    end
  else [].

(** [memory.access] allows reading or writing.
    Source: [crates/ic10-sim/src/context.rs] [validate_direct_operation] lines 548-556 *)
Definition memory_exposes (access : option string) (required : string) : bool :=
  match access with
  | Some access => eq_ignore_ascii_case access "ReadWrite" || str_contains required (to_ascii_lowercase access)
  | None => false
  end.

(** Source: [crates/ic10-sim/src/context.rs] [validate_direct_operation] lines 538-590 *)
Definition validate_memory (metadata : DeviceData) (device : DeviceSpec) (operands : list Token) (index : nat) (write : bool) :
    list ContextDiagnostic :=
  match operands !! index with
  | None => []
  | Some address =>
      match resolve_integer (text address) document with
      | None => []
      | Some value =>
          let size := default 0 (dd_memory metadata ≫= dm_size) in
          let required := if write then "write" else "read" in
          let access := memory ← dd_memory metadata; json ← dm_access memory; as_str json in
          let property := Some ("memory." +:+ show value) in
          ((if (0 <? size) && match access with Some _ => true | None => false end && negb (memory_exposes access required)
            then [context_error context device (span address)
                   (if write then "environment-read-only-memory" else "environment-write-only-memory")
                   (prefix +:+ " Addressable memory is not " +:+ required +:+ "able on " +:+ display_name device +:+ ".") property]
            else [])
           ++ (if (value <? 0) || (size <=? value)
               then [context_error context device (span address) "environment-invalid-memory-address"
                      (prefix +:+ " " +:+ display_name device +:+ " exposes " +:+ show size +:+ " memory address"
                       +:+ (if size =? 1 then "" else "es") +:+ "; " +:+ quote (show value) +:+ " is invalid.") property]
               else []))%list
      end
  end.

(** A field that is a channel of a network.
    Source: [crates/ic10-sim/src/context.rs] [validate_direct_operation] lines 454-471 *)
Definition validate_channel (device : DeviceSpec) (device_token : option Token) (field : Token) : list ContextDiagnostic :=
  if match device_token with Some token => str_contains ":" (resolve_alias (text token) document) | None => false end then []
  else [context_error context device (span field) "environment-channel-needs-connection"
         (prefix +:+ " " +:+ quote (text field) +:+ " requires a numbered device connection such as `db:0`.")
         (Some "connections")].

(** Source: [crates/ic10-sim/src/context.rs] [validate_direct_operation] *)
Definition validate_direct_operation (mnemonic : string) (operands : list Token) (device : DeviceSpec) : list ContextDiagnostic :=
  match device_by_name kb (sp_prefab device) with
  | None => []
  | Some metadata =>
      let device_token := operands !! device_position mnemonic in
      let connection := match device_token with Some token => validate_connection metadata device token | None => [] end in
      let '(field_index, slot_index, memory_index, write) := access_operands mnemonic in
      let memory := match memory_index with Some index => validate_memory metadata device operands index write | None => [] end in
      match field_index ≫= λ index, operands !! index with
      | Some field =>
          if is_channel_name (text field) then (connection ++ validate_channel device device_token field)%list
          else
            (connection
             ++ match slot_index with
                | Some slot_index => validate_slot_field metadata device operands slot_index write field
                | None =>
                    validate_access context device field (dd_logic_types metadata) write prefix (Some ("fields." +:+ text field))
                    ++ validate_mode metadata device operands write field
                end ++ memory)%list
      | None => (connection ++ memory)%list
      end
  end.

(** The devices a batch selects.
    Source: [crates/ic10-sim/src/context.rs] [validate_batch] lines 658-674 *)
Definition batch_matches (prefab_hash : Z) (name_hash : option Z) : list DeviceSpec :=
  filter (λ device,
    match device_by_name kb (sp_prefab device) with Some metadata => dd_prefab_hash metadata =? prefab_hash | None => false end
    && match name_hash with Some hash => wrap_i 32 (stationeers_crc32 (display_name device)) =? hash | None => true end = true)
    (ax_reachable_devices context).

(** The fields a batch accesses of a device: of itself or of a slot.
    Source: [crates/ic10-sim/src/context.rs] [validate_batch] lines 703-738 *)
Definition validate_batch_device (operands : list Token) (slot_index : option nat) (read : bool) (field : Token)
    (device : DeviceSpec) : list ContextDiagnostic :=
  match device_by_name kb (sp_prefab device) with
  | None => []
  | Some metadata =>
      let access fields := validate_access context device field fields (negb read) prefix (Some ("fields." +:+ text field)) in
      match slot_index with
      | None => access (dd_logic_types metadata)
      | Some slot_index =>
          match operands !! slot_index with
          | None => []
          | Some slot_token =>
              match resolve_integer (text slot_token) document with
              | None => []
              | Some slot =>
                  match bt_get (show slot) (dd_slots metadata) with
                  | None =>
                      [context_error context device (span slot_token) "environment-invalid-slot"
                        (prefix +:+ " " +:+ display_name device +:+ " has no slot " +:+ quote (show slot) +:+ ".")
                        (Some ("slots." +:+ show slot))]
                  | Some slot_metadata => access (ds_logic_types slot_metadata)
                  end
              end
          end
      end
  end.

(** Source: [crates/ic10-sim/src/context.rs] [validate_batch] *)
Definition validate_batch (mnemonic : string) (operands : list Token) : list ContextDiagnostic :=
  let read := starts_with "l" mnemonic in
  let named := str_contains "bn" mnemonic in
  let slotted := str_contains "bs" mnemonic || ends_with "bns" mnemonic in
  let hash_index := if read then 1%nat else 0%nat in
  match operands !! hash_index with
  | None => []
  | Some hash_token =>
      match resolve_hash (text hash_token) document kb with
      | None => []
      | Some prefab_hash =>
          match (if named then (λ token, resolve_hash (text token) document kb) <$> operands !! S hash_index else Some None) with
          | None => []
          | Some name_hash =>
              match batch_matches prefab_hash name_hash with
              | [] =>
                  [context_notice context (span hash_token) "environment-empty-batch"
                    (prefix +:+ " This batch selector matches no devices reachable on the housing data cable.") (Some "devices")]
              | selected =>
                  let first := if read then (if named then 3%nat else 2%nat) else if named then 2%nat else 1%nat in
                  match operands !! (first + if slotted then 1 else 0)%nat with
                  | None => []
                  | Some field =>
                      mjoin (validate_batch_device operands (if slotted then Some first else None) read field <$> selected)
                  end
              end
          end
      end
  end.

(** An access to a device that is named.
    Source: [crates/ic10-sim/src/context.rs] [validate_context] lines 289-363 *)
Definition validate_device_access (mnemonic : string) (operands : list Token) : list ContextDiagnostic :=
  match operands !! device_position mnemonic with
  | None => []
  | Some device_token =>
      let raw_reference := before_colon (resolve_alias (text device_token) document) in
      let by_reference_id := one_of mnemonic ["ld"; "sd"] in
      let device := if by_reference_id then device_for_reference_id context (text device_token) document
                    else device_for_reference context (text device_token) document in
      match device with
      | None =>
          if is_direct_device raw_reference then
            [context_notice context (span device_token) "environment-unassigned-device"
              (prefix +:+ " " +:+ quote raw_reference +:+ " is not assigned on IC housing " +:+ quote (ax_ic_id context) +:+ ".")
              (Some raw_reference)]
          else if by_reference_id then
            match resolve_integer (text device_token) document with
            | Some reference_id =>
                [context_notice context (span device_token) "environment-unknown-reference-id"
                  (prefix +:+ " No reachable device has explicit ReferenceId " +:+ quote (show reference_id) +:+ ".") (Some "devices")]
            | None => []
            end
          else []
      | Some device =>
          if negb (String.eqb (sp_id device) (sp_id (ax_housing context)))
             && negb (existsb (λ candidate, String.eqb (sp_id candidate) (sp_id device)) (ax_reachable_devices context))
          then [context_error context device (span device_token) "environment-unreachable-device"
                 (prefix +:+ " " +:+ display_name device +:+ " is assigned to " +:+ quote raw_reference
                  +:+ " but is not reachable on the housing data cable.") (Some "connections")]
          else validate_direct_operation mnemonic operands device
      end
  end.

(** Source: [crates/ic10-sim/src/context.rs] [validate_context] lines 283-376 *)
Definition validate_line (line : ParsedLine) : list ContextDiagnostic :=
  match pl_kind line with
  | LineInstruction mnemonic operands =>
      if one_of (text mnemonic) ["l"; "s"; "ls"; "ss"; "lr"; "get"; "put"; "bdnvl"; "bdnvs"; "ld"; "sd"]
      then validate_device_access (text mnemonic) operands
      else if one_of (text mnemonic) ["lb"; "lbn"; "lbs"; "lbns"; "sb"; "sbn"; "sbs"] then validate_batch (text mnemonic) operands
      else []
  | _ => []
  end.
End validation.

(** Source: [crates/ic10-sim/src/context.rs] [validate_context] *)
Definition validate_context (document : Document) (context : AnalysisContext) (kb : KnowledgeBase) : list ContextDiagnostic :=
  let prefix := "[" +:+ label context +:+ "]" in
  let known := dt_game_version (kb_devices kb) in
  let version :=
    match ax_game_version context with
    | Some version =>
        if String.eqb version known then []
        else [context_notice context {| start := 0; stop := 0 |} "environment-game-version"
               (prefix +:+ " Environment targets Stationeers " +:+ version +:+ "; bundled official data is " +:+ known
                +:+ ". Environment field assumptions are not treated as authoritative.") (Some "gameVersion")]
    | None => []
    end in
  (version ++ mjoin (validate_line document context kb prefix <$> do_lines document))%list.

(** ** What the editor offers *)

(** The fields with the right to read or to write.
    Source: [crates/ic10-sim/src/context.rs] [valid_operation_logic_fields] lines 796-802 *)
Definition allowed_fields (write : bool) (fields : BTreeMap string LogicAccess) : list string :=
  (filter (λ '(_, access), (if write then ac_write access else ac_read access) = true) fields).*1.

(** Source: [crates/ic10-sim/src/context.rs] [valid_logic_fields] *)
Definition valid_logic_fields (context : AnalysisContext) (document : Document) (device_token : string) (write : bool)
    (kb : KnowledgeBase) : option (list string) :=
  device ← device_for_reference context device_token document;
  metadata ← device_by_name kb (sp_prefab device);
  Some (allowed_fields write (dd_logic_types metadata)).

(** The positions of the device and the slot, the right, and whether the device is
    named by its reference id.
    Source: [crates/ic10-sim/src/context.rs] [valid_operation_logic_fields] lines 769-779 *)
Definition offered_operands (mnemonic : string) : option (nat * option nat * bool * bool) :=
  if String.eqb mnemonic "l" then Some (1%nat, None, false, false)
  else if String.eqb mnemonic "s" then Some (0%nat, None, true, false)
  else if String.eqb mnemonic "ls" then Some (1%nat, Some 2%nat, false, false)
  else if String.eqb mnemonic "ss" then Some (0%nat, Some 1%nat, true, false)
  else if String.eqb mnemonic "bdnvl" then Some (0%nat, None, false, false)
  else if String.eqb mnemonic "bdnvs" then Some (0%nat, None, true, false)
  else if String.eqb mnemonic "ld" then Some (1%nat, None, false, true)
  else if String.eqb mnemonic "sd" then Some (0%nat, None, true, true)
  else None.

(** Source: [crates/ic10-sim/src/context.rs] [valid_operation_logic_fields] *)
Definition valid_operation_logic_fields (context : AnalysisContext) (document : Document) (mnemonic : string)
    (operands : list Token) (kb : KnowledgeBase) : option (list string) :=
  match offered_operands mnemonic with
  | None => None
  | Some (device_index, slot_index, write, by_reference_id) =>
      device_token ← operands !! device_index;
      device ← (if by_reference_id then device_for_reference_id context (text device_token) document
                else device_for_reference context (text device_token) document);
      metadata ← device_by_name kb (sp_prefab device);
      match slot_index with
      | Some slot_index =>
          token ← operands !! slot_index;
          slot ← resolve_integer (text token) document;
          slot_metadata ← bt_get (show slot) (dd_slots metadata);
          Some (allowed_fields write (ds_logic_types slot_metadata))
      | None => Some (allowed_fields write (dd_logic_types metadata))
      end
  end.
