(* ===== verification/EnvironmentFacts.v ===== *)
(** * What the environments of a program say

    Proofs about [Environment].  The index holds the environments of the scenarios that
    are known, by program; the fields the editor offers are those it accepts; an access
    the editor accepts is one the simulation performs. *)

From S2P Require Import Prelude BTree Text F64 Knowledge Literals Syntax Analysis Journal Scenario World Environment.
Local Open Scope string_scope.
Local Open Scope Z_scope.

(** ** The index *)

(** No program has an empty list of environments. *)
Definition filled (programs : BTreeMap ProgramUri (list AnalysisContext)) : Prop :=
  bt_sorted programs ∧ ∀ p, bt_get p programs ≠ Some [].

Definition listed (p : ProgramUri) (programs : BTreeMap ProgramUri (list AnalysisContext)) : list AnalysisContext :=
  default [] (bt_get p programs).

Lemma remove_context_listed programs context p :
  filled programs →
  filled (remove_context programs context)
  ∧ listed p (remove_context programs context)
    = if String.eqb p (ax_program_uri context) then filter (λ c, other_context context c = true) (listed p programs) else listed p programs.
Proof.
  intros [Hs Hne]. unfold remove_context, listed. destruct (bt_get (ax_program_uri context) programs) as [cs|] eqn:Hcs.
  2: { split; [done|]. destruct (String.eqb_spec p (ax_program_uri context)) as [->|]; [by rewrite Hcs|done]. }
  destruct (filter (λ c, other_context context c = true) cs) as [|k kept] eqn:Hk.
  - split.
    + split; [by apply bt_sorted_remove|]. intros q. destruct (decide (q = ax_program_uri context)) as [->|Hq].
      * by rewrite bt_get_remove_eq.
      * by rewrite bt_get_remove_ne by done.
    + destruct (String.eqb_spec p (ax_program_uri context)) as [->|Hp].
      * rewrite bt_get_remove_eq by done. rewrite Hcs. simpl. by rewrite Hk.
      * by rewrite bt_get_remove_ne by done.
  - split.
    + split; [by apply bt_sorted_insert|]. intros q. destruct (decide (q = ax_program_uri context)) as [->|Hq].
      * by rewrite bt_get_insert_eq.
      * by rewrite bt_get_insert_ne by done.
    + destruct (String.eqb_spec p (ax_program_uri context)) as [->|Hp].
      * rewrite bt_get_insert_eq. rewrite Hcs. simpl. by rewrite Hk.
      * by rewrite bt_get_insert_ne by done.
Qed.

Lemma add_context_listed programs context p :
  filled programs →
  filled (add_context programs context)
  ∧ listed p (add_context programs context) = (listed p programs ++ if String.eqb (ax_program_uri context) p then [context] else [])%list.
Proof.
  intros [Hs Hne]. unfold add_context, listed. split.
  - split; [by apply bt_sorted_insert|]. intros q. destruct (decide (q = ax_program_uri context)) as [->|Hq].
    + rewrite bt_get_insert_eq. intros [= Hnil]. by apply app_eq_nil in Hnil as [_ ?].
    + by rewrite bt_get_insert_ne by done.
  - destruct (String.eqb_spec (ax_program_uri context) p) as [->|Hp].
    + by rewrite bt_get_insert_eq.
    + by rewrite bt_get_insert_ne, app_nil_r by done.
Qed.

Lemma remove_contexts_listed old programs p :
  filled programs →
  filled (foldl remove_context programs old)
  ∧ listed p (foldl remove_context programs old)
    = filter (λ c, Forall (λ o, ax_program_uri o = p → other_context o c = true) old) (listed p programs).
Proof.
  revert programs. induction old as [|o old IH]; intros programs Hf; simpl.
  { split; [done|]. rewrite filter_id; [done|]. by apply Forall_forall. }
  destruct (remove_context_listed programs o p Hf) as [Hf' Hl]. destruct (IH _ Hf') as [Hf'' ->]. split; [done|]. rewrite Hl.
  destruct (String.eqb_spec p (ax_program_uri o)) as [->|Hp].
  - rewrite list_filter_filter. apply list_filter_iff. intros c. rewrite Forall_cons. naive_solver.
  - apply list_filter_iff. intros c. rewrite Forall_cons. naive_solver.
Qed.

Lemma add_contexts_listed new programs p :
  filled programs →
  filled (foldl add_context programs new)
  ∧ listed p (foldl add_context programs new) = (listed p programs ++ filter (λ c, ax_program_uri c = p) new)%list.
Proof.
  revert programs. induction new as [|c new IH]; intros programs Hf; simpl; [by rewrite app_nil_r|].
  destruct (add_context_listed programs c p Hf) as [Hf' Hl]. destruct (IH _ Hf') as [Hf'' ->]. split; [done|]. rewrite Hl, <-app_assoc. f_equal.
  destruct (String.eqb_spec (ax_program_uri c) p) as [Hp|Hp]; [by rewrite filter_cons_True|by rewrite filter_cons_False].
Qed.

(** *** The scenarios that are known, in the order of their last update *)

Inductive IndexOp :=
  | OpUpdate (scenario_uri : string) (version : Z) (scenario : Scenario)
  | OpRemove (scenario_uri : string).

Abbreviation Known := (list (string * (Z * list AnalysisContext))).

Definition forget (scenario_uri : string) (known : Known) : Known := filter (λ e, e.1 ≠ scenario_uri) known.

Definition environments (known : Known) : list AnalysisContext := mjoin ((λ e, e.2.2) <$> known).

(** The index is the index of what is known. *)
Record indexes (known : Known) (index : ScenarioIndex) : Prop := {
  in_keys : NoDup known.*1;
  in_own uri version cs : (uri, (version, cs)) ∈ known → Forall (λ c, ax_scenario_uri c = uri) cs;
  in_sorted : bt_sorted (ix_scenarios index);
  in_scenarios uri e : bt_get uri (ix_scenarios index) = Some e ↔ (uri, e) ∈ known;
  in_filled : filled (ix_programs index);
  in_programs p : listed p (ix_programs index) = filter (λ c, ax_program_uri c = p) (environments known);
}.
Lemma elem_forget uri known e : e ∈ forget uri known ↔ e.1 ≠ uri ∧ e ∈ known.
Proof. unfold forget. by rewrite list_elem_of_filter. Qed.

Lemma forget_keys uri known : NoDup known.*1 → NoDup (forget uri known).*1.
Proof.
  unfold forget. induction known as [|[u e] known IH]; [done|]. change (((u, e) :: known).*1) with (u :: known.*1). intros [Hu Hn]%NoDup_cons.
  destruct (decide (u ≠ uri)) as [Hne|He]; [rewrite filter_cons_True by done|rewrite filter_cons_False by done; by apply IH].
  simpl. constructor; [|by apply IH]. intros Hin. apply Hu. apply list_elem_of_fmap in Hin as (e' & -> & Hin).
  apply list_elem_of_filter in Hin as [_ Hin]. apply list_elem_of_fmap. by exists e'.
Qed.

Lemma filter_mjoin {A} (P : A → Prop) `{∀ a, Decision (P a)} (ls : list (list A)) : filter P (mjoin ls) = mjoin (filter P <$> ls).
Proof. induction ls as [|l ls IH]; simpl; [done|]. rewrite filter_app. simpl in IH. by rewrite IH. Qed.

Lemma filter_agree {A} (P Q : A → Prop) `{∀ a, Decision (P a)} `{∀ a, Decision (Q a)} (l : list A) :
  (∀ a, a ∈ l → P a ↔ Q a) → filter P l = filter Q l.
Proof.
  induction l as [|a l IH]; [done|]. intros Hl. assert (filter P l = filter Q l) as Htail by (apply IH; intros; apply Hl; by right).
  specialize (Hl a ltac:(left)). destruct (decide (P a)) as [Ha|Ha].
  - rewrite !filter_cons_True by tauto. by rewrite Htail.
  - rewrite !filter_cons_False by tauto. done.
Qed.

(** What a removal takes away are the environments of the scenario. *)
Lemma environments_forget uri known :
  (∀ u version cs, (u, (version, cs)) ∈ known → Forall (λ c, ax_scenario_uri c = u) cs) →
  environments (forget uri known) = filter (λ c, ax_scenario_uri c ≠ uri) (environments known).
Proof.
  intros Hown. unfold environments. rewrite filter_mjoin. induction known as [|[u [version cs]] known IH]; [done|].
  assert (∀ u version cs, (u, (version, cs)) ∈ known → Forall (λ c, ax_scenario_uri c = u) cs) as Hown' by (intros; eapply Hown; by right).
  specialize (Hown u version cs ltac:(left)). unfold forget in *. destruct (decide (u ≠ uri)) as [Hne|He].
  - rewrite filter_cons_True by done. simpl. f_equal; [|exact (IH Hown')]. symmetry. apply filter_id.
    eapply Forall_impl; [exact Hown|]. simpl. intros c ->. done.
  - rewrite filter_cons_False by done. simpl. assert (filter (λ c, ax_scenario_uri c ≠ uri) cs = []) as ->; [|exact (IH Hown')].
    destruct (filter _ cs) as [|c l] eqn:E; [done|]. assert (c ∈ filter (λ c, ax_scenario_uri c ≠ uri) cs) as [Hc Hin]%list_elem_of_filter by (rewrite E; left).
    rewrite Forall_forall in Hown. specialize (Hown c Hin). simpl in Hown. apply dec_stable in He. congruence.
Qed.

Lemma elem_environments c known : c ∈ environments known ↔ ∃ u version cs, (u, (version, cs)) ∈ known ∧ c ∈ cs.
Proof.
  unfold environments. rewrite list_elem_of_join. split.
  - intros (cs & Hc & Hin). apply list_elem_of_fmap in Hin as ([u [version cs']] & -> & Hin). eauto.
  - intros (u & version & cs & Hin & Hc). exists cs. split; [done|]. apply list_elem_of_fmap. by exists (u, (version, cs)).
Qed.

Lemma indexes_remove uri known index : indexes known index → indexes (forget uri known) (remove uri index).
Proof.
  intros [Hk Hown Hs Hsc Hf Hp]. unfold remove. destruct (bt_get uri (ix_scenarios index)) as [[version old]|] eqn:Hget.
  - apply Hsc in Hget as Hin. split; simpl.
    + by apply forget_keys.
    + intros u v cs [_ Hin']%elem_forget. by eapply Hown.
    + by apply bt_sorted_remove.
    + intros u e. rewrite elem_forget. simpl. destruct (decide (u = uri)) as [->|Hne].
      * rewrite bt_get_remove_eq by done. naive_solver.
      * rewrite bt_get_remove_ne by done. rewrite Hsc. naive_solver.
    + by apply (remove_contexts_listed old _ "").
    + intros p. destruct (remove_contexts_listed old (ix_programs index) p Hf) as [_ ->]. rewrite Hp, environments_forget by done.
      rewrite !list_filter_filter. apply filter_agree. intros c Hc. rewrite Forall_forall.
      apply elem_environments in Hc as (u & v & cs & Hcs & Hc). pose proof (proj1 (Forall_forall _ _) (Hown _ _ _ Hcs) c Hc) as Hu. simpl in Hu.
      split; [intros [Hx Hprog]; split; [done|]|intros [Hprog Hx]; split; [|done]].
      * intros He. assert (u = uri) as -> by congruence.
        assert ((version, old) = (v, cs)) as [= <- <-].
        { apply Hsc in Hcs. apply Hsc in Hin. congruence. }
        specialize (Hx c Hc Hprog). unfold other_context in Hx. by rewrite !String.eqb_refl in Hx.
      * intros o Ho Hoprog. pose proof (proj1 (Forall_forall _ _) (Hown _ _ _ Hin) o Ho) as Hou. simpl in Hou.
        unfold other_context. destruct (String.eqb_spec (ax_scenario_uri c) (ax_scenario_uri o)); [congruence|done].
  - assert (forget uri known = known) as ->; [|by split].
    apply filter_id, Forall_forall. intros [u e] Hin Hu. simpl in Hu. subst u. apply Hsc in Hin. congruence.
Qed.

Section index.
Variable resolve_program : string → ProgramUri.
Variable kb : KnowledgeBase.

Definition run_op (index : ScenarioIndex) (op : IndexOp) : ScenarioIndex :=
  match op with
  | OpUpdate uri version scenario => update uri version scenario resolve_program kb index
  | OpRemove uri => remove uri index
  end.

(** A scenario is known in its newest version, until it is removed. *)
Definition known_op (known : Known) (op : IndexOp) : Known :=
  match op with
  | OpRemove uri => forget uri known
  | OpUpdate uri version scenario =>
      if existsb (λ e, String.eqb e.1 uri && (version <=? e.2.1)) known then known
      else (forget uri known ++ [(uri, (version, build_contexts uri version scenario resolve_program kb))])%list
  end.

Definition run_ops (ops : list IndexOp) : ScenarioIndex := foldl run_op empty_index ops.
Definition known_ops (ops : list IndexOp) : Known := foldl known_op [] ops.

Lemma indexes_op known index op : indexes known index → indexes (known_op known op) (run_op index op).
Proof.
  intros Hi. destruct op as [uri version scenario|uri]; [|by apply indexes_remove].
  cbn [known_op run_op]. unfold update. pose proof Hi as [Hk Hown Hs Hsc Hf Hp].
  assert (existsb (λ e, String.eqb e.1 uri && (version <=? e.2.1)) known
    = match bt_get uri (ix_scenarios index) with Some (cached, _) => version <=? cached | None => false end) as Hstale.
  { apply eq_true_iff_eq. rewrite existsb_exists. split.
    - intros ([u [cached cs]] & Hin%list_elem_of_In & Hb). simpl in Hb. apply andb_true_iff in Hb as [->%String.eqb_eq Hv].
      apply Hsc in Hin. by rewrite Hin.
    - destruct (bt_get uri (ix_scenarios index)) as [[cached cs]|] eqn:Hg; [|done]. intros Hv. exists (uri, (cached, cs)).
      split; [by apply list_elem_of_In, Hsc|]. simpl. by rewrite String.eqb_refl. }
  rewrite Hstale. destruct (match bt_get uri (ix_scenarios index) with Some (cached, _) => version <=? cached | None => false end); [done|].
  destruct (indexes_remove uri known index Hi) as [Hk' Hown' Hs' Hsc' Hf' Hp'].
  set (cs := build_contexts uri version scenario resolve_program kb). split; simpl.
  - rewrite fmap_app. simpl. apply NoDup_app. split_and!; [done| |by apply NoDup_singleton].
    intros u Hu ->%list_elem_of_singleton. apply list_elem_of_fmap in Hu as (e & He & Hin). apply elem_forget in Hin as [Hne _]. congruence.
  - intros u v ks [Hin|Hin%list_elem_of_singleton]%elem_of_app; [by eapply Hown'|]. injection Hin as -> -> ->.
    apply Forall_forall. intros c Hc. apply list_elem_of_omap in Hc as (housing & _ & Hc).
    destruct (housing_program scenario housing) as [program|]; [|done]. simpl in Hc. by injection Hc as <-.
  - by apply bt_sorted_insert.
  - intros u e. rewrite elem_of_app, list_elem_of_singleton. destruct (decide (u = uri)) as [->|Hne].
    + rewrite bt_get_insert_eq. rewrite elem_forget. simpl. split; [intros [= <-]; by right|]. intros [[? _]|[= ->]]; done.
    + rewrite bt_get_insert_ne by done. rewrite Hsc'. split; [by left|]. intros [?|[= ? _]]; done.
  - by apply (add_contexts_listed cs _ "").
  - intros p. destruct (add_contexts_listed cs (ix_programs (remove uri index)) p Hf') as [_ ->]. rewrite Hp'.
    unfold environments. rewrite fmap_app, join_app, filter_app. simpl. by rewrite app_nil_r.
Qed.

Lemma indexes_ops ops : indexes (known_ops ops) (run_ops ops).
Proof.
  unfold known_ops, run_ops. assert (indexes [] empty_index) as Hi.
  { split; simpl; try done; [constructor|by intros ??? ?%elem_of_nil|constructor|by intros ? e; rewrite elem_of_nil|]. split; [constructor|done]. }
  revert Hi. generalize (@nil (string * (Z * list AnalysisContext))), empty_index.
  induction ops as [|op ops IH]; intros known index Hi; simpl; [done|]. by apply IH, indexes_op.
Qed.
End index.

(** C30.  The index of environments refines the list of the scenarios that are known:
    whatever was updated and removed, the environments of a program are those of the
    scenarios that are known that use it, in the order the scenarios were last updated;
    a scenario is known in one version, and a program without environments has no entry. *)
Theorem index_holds_known (resolve_program : string → ProgramUri) (kb : KnowledgeBase) (ops : list IndexOp) :
  let known := known_ops resolve_program kb ops in
  let index := run_ops resolve_program kb ops in
  (∀ p, contexts p index = filter (λ c, ax_program_uri c = p) (environments known))
  ∧ NoDup known.*1 ∧ (∀ uri e, bt_get uri (ix_scenarios index) = Some e ↔ (uri, e) ∈ known)
  ∧ ∀ p, bt_get p (ix_programs index) ≠ Some [].
Proof.
  intros known index. destruct (indexes_ops resolve_program kb ops) as [Hk _ _ Hsc [_ Hne] Hp].
  split_and!; [exact Hp|exact Hk|exact Hsc|exact Hne].
Qed.

(** ** What the editor offers and accepts *)

(** What is said of a field. *)
Definition field_codes : list string :=
  ["environment-unsupported-field"; "environment-read-only-field"; "environment-write-only-field"].
Definition accepts_field (diagnostics : list ContextDiagnostic) : Prop := Forall (λ d, cd_code d ∉ field_codes) diagnostics.

Lemma allowed_fields_elem write fields name :
  bt_sorted fields →
  name ∈ allowed_fields write fields ↔ ∃ access, bt_get name fields = Some access ∧ (if write then ac_write access else ac_read access) = true.
Proof.
  intros Hs. unfold allowed_fields. rewrite list_elem_of_fmap. split.
  - intros ([n access] & -> & [Hr Hin]%list_elem_of_filter). exists access. split; [by apply bt_elem_get|done].
  - intros (access & Hg & Hr). exists (name, access). split; [done|]. apply list_elem_of_filter. split; [done|by apply bt_get_elem].
Qed.

Lemma validate_access_clean context device field fields write prefix property :
  validate_access context device field fields write prefix property = []
  ↔ ∃ access, bt_get (text field) fields = Some access ∧ (if write then ac_write access else ac_read access) = true.
Proof.
  unfold validate_access. destruct (bt_get (text field) fields) as [access|]; [|split; [done|by intros (? & ? & _)]]. split.
  - destruct write; simpl; [destruct (ac_write access) eqn:E|destruct (ac_read access) eqn:E]; try done; intros _; by exists access.
  - intros (access' & [= <-] & Hr). destruct write; simpl; by rewrite Hr.
Qed.

(** Nothing but these codes comes from a field. *)
Lemma validate_access_codes context device field fields write prefix property :
  accepts_field (validate_access context device field fields write prefix property)
  ↔ validate_access context device field fields write prefix property = [].
Proof.
  split; [|intros ->; constructor]. unfold validate_access, accepts_field.
  destruct (bt_get (text field) fields) as [access|].
  - destruct (_ || _); [|done]. intros Hf%Forall_inv. exfalso. apply Hf. simpl. unfold field_codes. destruct write; set_solver.
  - intros Hf%Forall_inv. exfalso. apply Hf. simpl. unfold field_codes. set_solver.
Qed.

Lemma accepts_code (d : ContextDiagnostic) : existsb (String.eqb (cd_code d)) field_codes = false → accepts_field [d].
Proof.
  intros Hc. apply Forall_singleton. intros Hin. assert (existsb (String.eqb (cd_code d)) field_codes = true); [|congruence].
  apply existsb_exists. exists (cd_code d). split; [by apply list_elem_of_In|apply String.eqb_refl].
Qed.

Section offers.
Variable document : Document.
Variable context : AnalysisContext.
Variable kb : KnowledgeBase.
Variable prefix : string.

Lemma connection_accepts metadata device token : accepts_field (validate_connection document context prefix metadata device token).
Proof.
  unfold validate_connection. destruct (_ ≫= _) as [connection|]; [|constructor]. cbv zeta.
  repeat case_match; first [by apply accepts_code|constructor].
Qed.
Lemma mode_accepts metadata device operands write field : accepts_field (validate_mode document context prefix metadata device operands write field).
Proof. unfold validate_mode. repeat case_match; first [by apply accepts_code|constructor]. Qed.
Lemma memory_accepts metadata device operands index write : accepts_field (validate_memory document context prefix metadata device operands index write).
Proof.
  unfold validate_memory. destruct (operands !! index) as [address|]; [|constructor].
  destruct (resolve_integer _ _) as [value|]; [|constructor]. cbv zeta. apply Forall_app.
  split; repeat case_match; first [by apply accepts_code|constructor].
Qed.

(** A device the housing reaches. *)
Definition accessible (device : DeviceSpec) : Prop :=
  sp_id device = sp_id (ax_housing context) ∨ ∃ candidate, candidate ∈ ax_reachable_devices context ∧ sp_id candidate = sp_id device.

Lemma accessible_test device : accessible device →
  negb (String.eqb (sp_id device) (sp_id (ax_housing context)))
  && negb (existsb (λ candidate, String.eqb (sp_id candidate) (sp_id device)) (ax_reachable_devices context)) = false.
Proof.
  intros [->|(c & Hin & He)]; [by rewrite String.eqb_refl|]. apply andb_false_iff. right. apply negb_false_iff, existsb_exists.
  exists c. split; [by apply list_elem_of_In|by apply String.eqb_eq].
Qed.

(** The tables are maps of the standard library: in the order of their keys. *)
Definition tables_sorted : Prop :=
  ∀ name metadata, device_by_name kb name = Some metadata →
    bt_sorted (dd_logic_types metadata) ∧ ∀ slot fields, bt_get slot (dd_slots metadata) = Some fields → bt_sorted (ds_logic_types fields).

(** The device an instruction names. *)
Definition named_device (mnemonic : string) (token : Token) : option DeviceSpec :=
  if one_of mnemonic ["ld"; "sd"] then device_for_reference_id context (text token) document
  else device_for_reference context (text token) document.

Lemma offered_operands_access mnemonic device_index slot_index write by_reference_id :
  offered_operands mnemonic = Some (device_index, slot_index, write, by_reference_id) →
  ∃ field_index, access_operands mnemonic = (Some field_index, slot_index, None, write)
    ∧ device_position mnemonic = device_index ∧ one_of mnemonic ["ld"; "sd"] = by_reference_id.
Proof.
  unfold offered_operands.
  repeat match goal with |- context [String.eqb mnemonic ?s] =>
    destruct (String.eqb_spec mnemonic s) as [->|_]; [intros [= <- <- <- <-]; eexists; split_and!; reflexivity|] end.
  done.
Qed.

Lemma offered_accepted mnemonic operands fs index field :
  tables_sorted → valid_operation_logic_fields context document mnemonic operands kb = Some fs →
  (access_operands mnemonic).1.1.1 = Some index → operands !! index = Some field → is_channel_name (text field) = false →
  (∀ token device, operands !! device_position mnemonic = Some token → named_device mnemonic token = Some device → accessible device) →
  text field ∈ fs ↔ accepts_field (validate_device_access document context kb prefix mnemonic operands).
Proof.
  intros Hsorted Hoffer Hindex Hfield Hchannel Hacc. unfold valid_operation_logic_fields in Hoffer.
  destruct (offered_operands mnemonic) as [[[[device_index slot_index] write] by_reference_id]|] eqn:Hop; [|done].
  apply offered_operands_access in Hop as (field_index & Haccess & Hdev & Hby). rewrite Haccess in Hindex. injection Hindex as ->.
  unfold validate_device_access. rewrite <-Hdev in Hoffer. destruct (operands !! device_position mnemonic) as [token|] eqn:Htoken; [|done].
  cbn [mbind option_bind] in Hoffer. cbv zeta. rewrite Hby in *. specialize (Hacc token). unfold named_device in Hacc. rewrite Hby in Hacc.
  destruct (if by_reference_id then device_for_reference_id context (text token) document else device_for_reference context (text token) document)
    as [device|] eqn:Hdevice; [|done].
  rewrite accessible_test by (by apply Hacc). cbn [mbind option_bind] in Hoffer. unfold validate_direct_operation.
  destruct (device_by_name kb (sp_prefab device)) as [metadata|] eqn:Hmeta; [|done]. cbn [mbind option_bind] in Hoffer.
  destruct (Hsorted _ _ Hmeta) as [Hfields Hslots]. rewrite Htoken, Haccess. cbn [mbind option_bind]. rewrite Hfield, Hchannel.
  pose proof (connection_accepts metadata device token) as Hconn.
  destruct slot_index as [slot_index|].
  - unfold validate_slot_field. destruct (operands !! slot_index) as [slot_token|]; [|done]. cbn [mbind option_bind] in Hoffer.
    destruct (resolve_integer (text slot_token) document) as [slot|]; [|done]. cbn [mbind option_bind] in Hoffer.
    destruct (bt_get (show slot) (dd_slots metadata)) as [fields|] eqn:Hslot; [|done]. cbn [mbind option_bind] in Hoffer. injection Hoffer as <-.
    rewrite (allowed_fields_elem _ _ _ (Hslots _ _ Hslot)).
    rewrite <-(validate_access_clean context device field (ds_logic_types fields) write prefix (Some ("slots." +:+ show slot +:+ "." +:+ text field))).
    rewrite <-validate_access_codes. unfold accepts_field in *. rewrite !Forall_app, Forall_nil. tauto.
  - injection Hoffer as <-. rewrite (allowed_fields_elem _ _ _ Hfields).
    rewrite <-(validate_access_clean context device field (dd_logic_types metadata) write prefix (Some ("fields." +:+ text field))).
    rewrite <-validate_access_codes. pose proof (mode_accepts metadata device operands write field) as Hmode.
    unfold accepts_field in *. rewrite !Forall_app, Forall_nil. tauto.
Qed.
End offers.

(** C32.  The editor offers exactly what it accepts: for an instruction on a device that
    can be reached, a field that is not a channel is among the fields that are offered
    at its place if and only if checking the instruction reports neither that the field is
    unknown nor that it lacks the right of the access. *)
Theorem offered_fields_accepted (document : Document) (context : AnalysisContext) (kb : KnowledgeBase) (prefix mnemonic : string)
    (operands : list Token) (fs : list string) (index : nat) (field : Token) :
  tables_sorted kb → valid_operation_logic_fields context document mnemonic operands kb = Some fs →
  (access_operands mnemonic).1.1.1 = Some index → operands !! index = Some field → is_channel_name (text field) = false →
  (∀ token device, operands !! device_position mnemonic = Some token → named_device document context mnemonic token = Some device →
     accessible context device) →
  text field ∈ fs ↔ accepts_field (validate_device_access document context kb prefix mnemonic operands).
Proof. apply offered_accepted. Qed.

(** ** What the editor accepts runs *)

Section built.
Variable kb : KnowledgeBase.

(** A device of the world with the fields its table lists. *)
Definition built_as (spec : DeviceSpec) (d : Device) : Prop :=
  prefab d = sp_prefab spec ∧ ∃ metadata, device_by_name kb (sp_prefab spec) = Some metadata
    ∧ ∀ name, is_Some (bt_get name (dd_logic_types metadata)) → is_Some (bt_get name (fields d)).

Lemma is_Some_insert {V} key name (v : V) m : is_Some (bt_get name m) → is_Some (bt_get name (bt_insert key v m)).
Proof. intros Hn. rewrite bt_get_insert. destruct (rcmp name key); eauto. Qed.

Lemma build_fields_listed spec metadata name_hash reference_id fields name :
  build_fields spec metadata name_hash reference_id = Ok fields → is_Some (bt_get name (dd_logic_types metadata)) → is_Some (bt_get name fields).
Proof.
  intros Hrun Hname. unfold build_fields in Hrun. revert Hrun.
  apply (fold_outcome_ind (λ m, is_Some (bt_get name m))).
  - intros m [field value] m' _ Hm Hstep. outcome_inv. subst m'. by apply is_Some_insert.
  - do 3 apply is_Some_insert. apply bt_collect_is_Some. rewrite <-list_fmap_compose.
    destruct Hname as [access Hg]. apply bt_get_elem in Hg. apply list_elem_of_fmap. exists name. split; [done|].
    unfold bt_keys. apply list_elem_of_fmap. by exists (name, access).
Qed.

Lemma build_device_built w n spec w' n' :
  build_device kb (w, n) spec = Ok (w', n') → ∃ d, devices w' = (devices w ++ [d])%list ∧ built_as spec d.
Proof.
  intros Hb. unfold build_device in Hb. outcome_inv. simplify_eq. simpl. eexists. split; [done|]. split; [done|].
  eexists. split; [done|]. intros name Hname. simpl. by eapply build_fields_listed.
Qed.

Lemma build_connection_built spec index w e w' specs :
  build_connection kb spec index w e = Ok w' → Forall2 built_as specs (devices w) → Forall2 built_as specs (devices w').
Proof.
  intros Hb Hall. destruct e as [c net]. unfold build_connection in Hb. outcome_inv. subst w'. simpl.
  apply Forall2_same_length_lookup. split; [rewrite length_alter; by eapply Forall2_length|]. intros i s d Hs Hd.
  destruct (Forall2_lookup_l _ _ _ _ _ Hall Hs) as (d0 & Hd0 & Hbuilt). destruct (decide (i = index)) as [->|Hne].
  - rewrite list_lookup_alter_eq, Hd0 in Hd. by injection Hd as <-.
  - rewrite list_lookup_alter_ne, Hd0 in Hd by done. by injection Hd as <-.
Qed.

Lemma build_built nets specs w : build kb nets specs = Ok w → Forall2 built_as specs (devices w).
Proof.
  intros Hb. unfold build in Hb. apply outcome_bind_Ok in Hb as (w1 & Hnets & Hb).
  apply outcome_bind_Ok in Hb as ([w2 n2] & Hdevs & Hb).
  assert (devices w1 = []) as Hd1.
  { revert Hnets. apply (fold_outcome_ind (λ w, devices w = [])); [|done]. intros wa s wb _ Ha Hs. unfold build_network in Hs. outcome_inv. by subst wb. }
  assert (Forall2 built_as specs (devices w2)) as Hd2.
  { change specs with ([] ++ specs)%list. assert (Forall2 built_as [] (devices w1)) as Hstart by (by rewrite Hd1).
    revert Hstart Hdevs. clear. generalize (@nil DeviceSpec), 1. revert w1. induction specs as [|s rest IH]; intros w1 before n Hdone; cbn [fold_outcome].
    - intros [= <- <-]. by rewrite app_nil_r.
    - intros Hb. apply outcome_bind_Ok in Hb as ([w' n'] & Hs & Hb). apply build_device_built in Hs as (d & Hd & Hbuilt).
      replace (before ++ s :: rest)%list with ((before ++ [s]) ++ rest)%list by (by rewrite <-app_assoc). apply (IH w' _ n'); [|done].
      rewrite Hd. apply Forall2_app; [done|]. by apply Forall2_cons; split; [|apply Forall2_nil]. }
  revert Hb. apply (fold_outcome_ind (λ w, Forall2 built_as specs (devices w))); [|done].
  intros wc s wd _ Hwc Hs. outcome_inv. match goal with H : fold_outcome _ wc _ = Ok _ |- _ => revert H end.
  apply (fold_outcome_ind (λ w, Forall2 built_as specs (devices w))); [|done].
  intros we e wf _ He Hstep. by eapply build_connection_built.
Qed.


Lemma channel_name_index field : channel_index field = None → is_channel_name field = false.
Proof.
  unfold channel_index, is_channel_name. destruct (strip_prefix "Channel" field) as [rest|]; [|done]. simpl.
  destruct (parse_usize rest) as [z|]; [|done]. by destruct (z <? 8).
Qed.

(** Which accesses the world of a scenario carries out: those the table of the device allows. *)
Definition allowed_access (write : bool) (md : DeviceData) (field : string) : Prop :=
  ∃ access, bt_get field (dd_logic_types md) = Some access ∧ (if write then ac_write access else ac_read access) = true.

(** Whether the world carries out an access to a field of the device at [i]. *)
Definition access_runs (actor : EffectActor) (write : bool) (i : nat) (connection : option Z) (field : string) (value : f64) (x : Effects) : bool :=
  if write then is_ok (write_field kb actor i connection field value x).1 else is_ok (read_field kb actor i connection field x).1.

Lemma built_access_runs actor write i connection field value x spec d md :
  devices (fx_world x) !! i = Some d → built_as spec d → device_by_name kb (sp_prefab spec) = Some md → channel_index field = None →
  access_runs actor write i connection field value x = true ↔ allowed_access write md field.
Proof.
  intros Hd (Hprefab & md' & Hmd' & Hlisted) Hmd Hc. rewrite Hmd in Hmd'. injection Hmd' as <-.
  unfold access_runs, allowed_access, write_field, read_field, get_device, get_or_panic, lift, modify, throw, when, fx_enabled, gets,
    fx_intern, fx_read, fx_write, mbind, M_mbind, mret, M_mret. rewrite Hc, Hd. rewrite !field_access_spec, Hprefab, Hmd.
  cbn [mbind outcome_mbind outcome_bind ok_or]. specialize (Hlisted field).
  destruct (bt_get field (dd_logic_types md)) as [access|] eqn:Hg; cbn [ok_or].
  2:{ split; [by destruct write|by intros (? & ? & _)]. }
  destruct (Hlisted (mk_is_Some _ _ eq_refl)) as [v Hv]. rewrite Hv. split.
  - intros Hr. exists access. split; [done|]. destruct write; [by destruct (ac_write access)|by destruct (ac_read access)].
  - intros (access' & [= <-] & Hr). destruct write; rewrite Hr; simpl; repeat case_match; done.
Qed.
End built.

(** C31.  What the editor accepts runs, and what it refuses does not: for an instruction
    on a field of a device that can be reached, in the world that is built from the
    scenario, checking the instruction reports neither that the field is unknown nor that
    it lacks the right of the access, if and only if the access to the device succeeds.
    (Reports on connections and modes are not about the field; channels are apart.) *)
Theorem accepted_access_runs (document : Document) (context : AnalysisContext) (kb : KnowledgeBase) (prefix mnemonic : string)
    (operands : list Token) (index : nat) (field token : Token) (write : bool) (nets : list NetworkSpec) (specs : list DeviceSpec)
    (w : World) (device : DeviceSpec) (i : nat) (actor : EffectActor) (connection : option Z) (value : f64) (j : EffectJournal) :
  build kb nets specs = Ok w → specs !! i = Some device →
  access_operands mnemonic = (Some index, None, None, write) → operands !! index = Some field → channel_index (text field) = None →
  operands !! device_position mnemonic = Some token → named_device document context mnemonic token = Some device →
  accessible context device →
  accepts_field (validate_device_access document context kb prefix mnemonic operands)
  ↔ access_runs kb actor write i connection (text field) value {| fx_world := w; fx_journal := j |} = true.
Proof.
  intros Hbuild Hspec Haccess Hfield Hchannel Htoken Hdevice Hacc.
  destruct (Forall2_lookup_l _ _ _ _ _ (build_built kb _ _ _ Hbuild) Hspec) as (d & Hd & Hbuilt).
  pose proof Hbuilt as (_ & md & Hmd & _).
  rewrite (built_access_runs kb actor write i connection (text field) value {| fx_world := w; fx_journal := j |} device d md Hd Hbuilt Hmd Hchannel).
  unfold validate_device_access, named_device in *. rewrite Htoken. cbv zeta. rewrite Hdevice, accessible_test by done.
  unfold validate_direct_operation. rewrite Hmd, Htoken, Haccess. cbn [mbind option_bind]. rewrite Hfield, channel_name_index by done.
  pose proof (connection_accepts document context prefix md device token) as Hconn.
  pose proof (mode_accepts document context prefix md device operands write field) as Hmode.
  unfold allowed_access. rewrite <-(validate_access_clean context device field (dd_logic_types md) write prefix (Some ("fields." +:+ text field))).
  rewrite <-validate_access_codes. unfold accepts_field in *. rewrite !Forall_app, Forall_nil. tauto.
Qed.

(** ** An example: a lamp at a pin *)

Lemma named_device_listed kb name md :
  device_by_name kb name = Some md → md ∈ ((dt_devices (kb_devices kb) ++ dt_other_logicables (kb_devices kb))%list).*2.
Proof.
  unfold device_by_name, option_or. rewrite fmap_app, elem_of_app. destruct (bt_get name (dt_devices (kb_devices kb))) as [d|] eqn:Hd.
  - intros [= <-]. left. apply list_elem_of_fmap. exists (name, d). split; [done|by apply bt_get_elem].
  - intros Ho. right. apply list_elem_of_fmap. exists (name, md). split; [done|by apply bt_get_elem].
Qed.

Lemma sample_tables_sorted : tables_sorted sample_kb.
Proof.
  intros name md Hmd%named_device_listed. revert md Hmd. apply Forall_forall.
  change (((dt_devices (kb_devices sample_kb) ++ dt_other_logicables (kb_devices sample_kb))%list).*2)
    with [device_of "Housing" 7 [("Setting", true, true); ("Error", true, false)] [] ["Data"] None;
          device_of "Lamp" 9 [("On", true, true); ("Charge", true, false)] [("0", ["Quantity"])] ["PowerAndData"] (Some 4)].
  rewrite !Forall_cons, Forall_nil. split_and!; try apply bt_sorted_collect; [by intros ? ? ?| |done].
  intros slot fields Hslot. apply bt_get_elem in Hslot. apply list_elem_of_singleton in Hslot. injection Hslot as -> ->.
  apply bt_sorted_collect.
Qed.

Definition sample_context : AnalysisContext :=
  {| ax_scenario_uri := "file:///base.toml"; ax_scenario_version := 1; ax_ic_id := "h"; ax_program_uri := "main.ic10";
     ax_housing := sample_device "h" "Housing" None; ax_pins := [("d0", sample_device "a" "Lamp" (Some 2))];
     ax_reachable_devices := sample_devices; ax_game_version := None |}.

Definition sample_document : Document := parse_with_options "alias lamp d0" Analysis.sample_kb default_options.

Definition word (text : string) : Token := {| text := text; span := {| start := 0; stop := 0 |} |}.

Lemma sample_accessible : accessible sample_context (sample_device "a" "Lamp" (Some 2)).
Proof. right. exists (sample_device "a" "Lamp" (Some 2)). split; [|done]. apply list_elem_of_here || apply list_elem_of_further, list_elem_of_here. Qed.

(** The charge of the lamp can be read, so it is offered; its name is not a field. *)
Lemma offered_fields_accepted_witness :
  tables_sorted sample_kb
  ∧ valid_operation_logic_fields sample_context sample_document "l" [word "r0"; word "lamp"; word "Charge"] sample_kb = Some ["Charge"; "On"]
  ∧ ("Charge" ∈ ["Charge"; "On"]
     ↔ accepts_field (validate_device_access sample_document sample_context sample_kb "" "l" [word "r0"; word "lamp"; word "Charge"]))
  ∧ ("Mode" ∈ ["Charge"; "On"]
     ↔ accepts_field (validate_device_access sample_document sample_context sample_kb "" "l" [word "r0"; word "lamp"; word "Mode"])).
Proof.
  assert (∀ field token device, [word "r0"; word "lamp"; word field] !! device_position "l" = Some token →
    named_device sample_document sample_context "l" token = Some device → accessible sample_context device) as Hacc.
  { intros field token device [= <-] Hdevice.
    assert (named_device sample_document sample_context "l" (word "lamp") = Some (sample_device "a" "Lamp" (Some 2))) as Hl by (vm_compute; reflexivity).
    rewrite Hl in Hdevice. injection Hdevice as <-. exact sample_accessible. }
  split_and!; [exact sample_tables_sorted|vm_compute; reflexivity| |].
  - apply (offered_fields_accepted sample_document sample_context sample_kb "" "l" [word "r0"; word "lamp"; word "Charge"]
      ["Charge"; "On"] 2 (word "Charge")); [exact sample_tables_sorted|vm_compute; reflexivity|reflexivity|reflexivity|reflexivity|exact (Hacc "Charge")].
  - apply (offered_fields_accepted sample_document sample_context sample_kb "" "l" [word "r0"; word "lamp"; word "Mode"]
      ["Charge"; "On"] 2 (word "Mode")); [exact sample_tables_sorted|vm_compute; reflexivity|reflexivity|reflexivity|reflexivity|exact (Hacc "Mode")].
Defined.

(** The charge of the lamp can be read and not written. *)
Lemma accepted_access_runs_witness :
  (accepts_field (validate_device_access sample_document sample_context sample_kb "" "l" [word "r0"; word "lamp"; word "Charge"])
   ↔ access_runs sample_kb ActorDebugger false 1 None "Charge" f_one {| fx_world := sample_world; fx_journal := journal_default |} = true)
  ∧ (accepts_field (validate_device_access sample_document sample_context sample_kb "" "s" [word "lamp"; word "Charge"; word "1"])
   ↔ access_runs sample_kb ActorDebugger true 1 None "Charge" f_one {| fx_world := sample_world; fx_journal := journal_default |} = true)
  ∧ access_runs sample_kb ActorDebugger false 1 None "Charge" f_one {| fx_world := sample_world; fx_journal := journal_default |} = true
  ∧ access_runs sample_kb ActorDebugger true 1 None "Charge" f_one {| fx_world := sample_world; fx_journal := journal_default |} = false.
Proof.
  assert (build sample_kb [sample_network] sample_devices = Ok sample_world) as Hbuild by (vm_compute; reflexivity).
  split_and!; [| |vm_compute; reflexivity|vm_compute; reflexivity].
  - apply (accepted_access_runs sample_document sample_context sample_kb "" "l" [word "r0"; word "lamp"; word "Charge"] 2 (word "Charge")
      (word "lamp") false [sample_network] sample_devices sample_world (sample_device "a" "Lamp" (Some 2)) 1 ActorDebugger None f_one journal_default);
      [exact Hbuild|reflexivity|reflexivity|reflexivity|reflexivity|reflexivity|vm_compute; reflexivity|exact sample_accessible].
  - apply (accepted_access_runs sample_document sample_context sample_kb "" "s" [word "lamp"; word "Charge"; word "1"] 1 (word "Charge")
      (word "lamp") true [sample_network] sample_devices sample_world (sample_device "a" "Lamp" (Some 2)) 1 ActorDebugger None f_one journal_default);
      [exact Hbuild|reflexivity|reflexivity|reflexivity|reflexivity|reflexivity|vm_compute; reflexivity|exact sample_accessible].
Defined.
