(* ===== verification/Editor.v ===== *)
(** * What the language server computes

    [crates/ic10-lsp/src/main.rs]: offsets and UTF-16 positions, references and renames,
    the distance of names, quick fixes, semantic tokens, folding, signature help and
    completions.  The records of the protocol keep the members the server fills in from
    the document; texts that are only shown are left out. *)

From S2P Require Import Prelude BTree Text F64 Knowledge Literals Syntax Analysis Formatting Scenario World Environment.
Local Open Scope string_scope.
Local Open Scope Z_scope.

(** ** Positions

    A [Position] counts lines and UTF-16 units, both as [u32]. *)

Record Position := { po_line : Z; po_character : Z }.
Record Range := { ra_start : Position; ra_end : Position }.

#[export] Instance position_eq_dec : EqDecision Position.
Proof. solve_decision. Defined.

(** [char::len_utf16] *)
Definition len_utf16 (c : string) : Z :=
  match c with
  | "" => 0
  | String a _ => if 240 <=? byte_of a then 2 else 1
  end.

(** [str::encode_utf16().count()] *)
Definition utf16_count (s : string) : Z := foldr (λ c n, len_utf16 c + n) 0 (chars s).

(** [str::is_char_boundary] *)
Definition is_char_boundary (s : string) (offset : nat) : bool :=
  match offset with
  | O => true
  | _ =>
      match String.get offset s with
      | Some a => negb (is_continuation a)
      | None => (offset =? String.length s)%nat
      end
  end.

(** The text before and after the first newline. *)
Definition split_newline (s : string) : option (string * string) := split_once (byte 10) s.

(** The start of a line and the text from there on.
    Source: [crates/ic10-lsp/src/main.rs] [position_to_offset] lines 2323-2329 *)
Fixpoint skip_lines (n line_start : nat) (rest : string) : option (nat * string) :=
  match n with
  | O => Some (line_start, rest)
  | S n =>
      match split_newline rest with
      | None => None
      | Some (line, rest) => skip_lines n (line_start + String.length line + 1) rest
      end
  end.

(** The offset in a line: after the units, or before the character that would go past them.
    Source: [crates/ic10-lsp/src/main.rs] [position_to_offset] lines 2334-2345 *)
Fixpoint column_offset (line_start line_end : nat) (character utf16_units : Z) (l : list (nat * string)) : nat :=
  match l with
  | [] => line_end
  | (byte, c) :: l =>
      let width := len_utf16 c in
      if character <? utf16_units + width then (line_start + byte)%nat
      else
        let utf16_units := utf16_units + width in
        if utf16_units =? character then (line_start + byte + String.length c)%nat
        else column_offset line_start line_end character utf16_units l
  end.

(** Source: [crates/ic10-lsp/src/main.rs] [position_to_offset] *)
Definition position_to_offset (source : string) (position : Position) : nat :=
  match skip_lines (Z.to_nat (po_line position)) 0 source with
  | None => String.length source
  | Some (line_start, rest) =>
      let line := match split_newline rest with Some (line, _) => line | None => rest end in
      column_offset line_start (line_start + String.length line) (po_character position) 0 (char_indices line)
  end.

(** The number of newlines, and the place of the last one. *)
Definition newlines (s : string) : Z := Z.of_nat (length (filter (λ b, b = 10) (bytes s))).
Fixpoint rfind_newline (s : string) : option nat :=
  match s with
  | "" => None
  | String a s => match rfind_newline s with Some i => Some (S i) | None => if byte_of a =? 10 then Some O else None end
  end.

(** A slice that does not begin and end between characters panics.
    Source: [crates/ic10-lsp/src/main.rs] [offset_to_position] *)
Definition offset_to_position (source : string) (offset : nat) : outcome message Position :=
  let offset := Nat.min offset (String.length source) in
  if negb (is_char_boundary source offset) then Panic
  else
    let before := slice 0 offset source in
    let line := wrap_u 32 (newlines before) in
    let line_start := match rfind_newline before with Some index => S index | None => O end in
    let character := wrap_u 32 (utf16_count (slice line_start offset source)) in
    Ok {| po_line := line; po_character := character |}.

(** Source: [crates/ic10-lsp/src/main.rs] [span_to_range] *)
Definition span_to_range (source : string) (sp : Span) : outcome message Range :=
  first ← offset_to_position source (start sp);
  last ← offset_to_position source (stop sp);
  Ok {| ra_start := first; ra_end := last |}.

(** The order of positions: by line, then by character. *)
Definition position_le (a b : Position) : bool :=
  (po_line a <? po_line b) || ((po_line a =? po_line b) && (po_character a <=? po_character b)).

(** Source: [crates/ic10-lsp/src/main.rs] [ranges_overlap] *)
Definition ranges_overlap (a b : Range) : bool :=
  position_le (ra_start a) (ra_end b) && position_le (ra_start b) (ra_end a).

(** ** The distance of names *)

(** The rest of a row of the table: [previous] begins at the cell above the last one.
    Source: [crates/ic10-lsp/src/main.rs] [edit_distance] lines 1528-1534 *)
Fixpoint next_cells (left_byte : Z) (right_bytes : list Z) (previous : list Z) (last : Z) : list Z :=
  match right_bytes, previous with
  | right_byte :: right_bytes, diagonal :: ((above :: _) as previous) =>
      let cell := Z.min (Z.min (above + 1) (last + 1)) (diagonal + (if left_byte =? right_byte then 0 else 1)) in
      cell :: next_cells left_byte right_bytes previous cell
  | _, _ => []
  end.

(** A row of the table, from the row before.
    Source: [crates/ic10-lsp/src/main.rs] [edit_distance] lines 1526-1536 *)
Definition next_row (right_bytes : list Z) (previous : list Z) (entry : nat * Z) : list Z :=
  let '(left_index, left_byte) := entry in
  let first := Z.of_nat left_index + 1 in
  first :: next_cells left_byte right_bytes previous first.

(** Source: [crates/ic10-lsp/src/main.rs] [edit_distance] *)
Definition edit_distance (left_text right_text : string) : outcome message Z :=
  let first := Z.of_nat <$> seq 0 (S (String.length right_text)) in
  expect (foldl (next_row (bytes right_text)) first (enumerate (bytes left_text)) !! String.length right_text).

(** The values of [filter_map]. *)
Definition somes {A} (l : list (option A)) : list A := omap id l.

(** [Iterator::min_by_key] of pairs: the first of the least. *)
Definition closer (a b : Z * string) : bool :=
  (a.1 <? b.1) || ((a.1 =? b.1) && match rcmp a.2 b.2 with Gt => false | _ => true end).
Definition closest (l : list (Z * string)) : option (Z * string) :=
  foldl (λ best e, match best with Some b => if closer b e then Some b else Some e | None => Some e end) None l.

(** Source: [crates/ic10-lsp/src/main.rs] [closest_instruction] *)
Definition closest_instruction (value : string) (kb : KnowledgeBase) : outcome message (option string) :=
  candidates ← map_outcome (λ candidate,
    distance ← edit_distance value candidate;
    Ok (if distance <=? 2 then Some (distance, candidate) else None)) (bt_keys (la_instructions (kb_language kb)));
  Ok (snd <$> closest (somes candidates)).

(** ** References and renames *)

(** The characters of a name.
    Source: [crates/ic10-lsp/src/main.rs] [is_identifier] *)
Definition is_identifier (value : string) : bool :=
  match chars value with
  | [] => false
  | first :: rest =>
      (is_ascii_alphabetic (char_byte first) || String.eqb first "_")
      && forallb (λ c, is_ascii_alphanumeric (char_byte c) || String.eqb c "_") rest
  end.

Record TextEdit := { te_range : Range; te_new_text : string }.

(** Source: [crates/ic10-lsp/src/main.rs] [rename_target] *)
Definition rename_target (document : Document) (offset : nat) : option (Token * Symbol) :=
  token ← token_at_offset document offset;
  occurrence ← symbol_occurrence_at_offset document offset;
  symbol ← document_symbol document (so_name occurrence);
  Some (token, symbol).

Definition kind_name (kind : SymbolKind) : string :=
  match kind with SymAlias => "alias" | SymDefine => "define" | SymLabel => "label" end.

(** Why a rename is refused. *)
Definition invalid_name (new_name : string) : message :=
  [PS "`"; PS new_name; PS "` is not a valid IC10 symbol name. Use letters, numbers, and underscores, starting with a letter or underscore."].
Definition name_taken (name new_name : string) (existing : Symbol) : message :=
  [PS "Cannot rename `"; PS name; PS "` to `"; PS new_name; PS "` because `"; PS new_name; PS "` is already declared as ";
   PS (match sy_kind existing with SymAlias => "an" | _ => "a" end); PS " "; PS (kind_name (sy_kind existing)); PS "."].

(** Source: [crates/ic10-lsp/src/main.rs] [rename_symbol_edits] *)
Definition rename_symbol_edits (document : Document) (offset : nat) (new_name : string) : outcome message (option (list TextEdit)) :=
  match rename_target document offset with
  | None => Ok None
  | Some (_, symbol) =>
      if negb (is_identifier new_name) then Err (invalid_name new_name)
      else
        match (if String.eqb new_name (sy_name symbol) then None else document_symbol document new_name) with
        | Some existing => Err (name_taken (sy_name symbol) new_name existing)
        | None =>
            edits ← map_outcome (λ occurrence,
              range ← span_to_range (do_source document) (so_span occurrence);
              Ok {| te_range := range; te_new_text := new_name |}) (occurrences_for document (sy_name symbol));
            Ok (Some edits)
        end
  end.

(** What the cursor can rename: the range of its token and the name.
    Source: [crates/ic10-lsp/src/main.rs] [prepare_rename] *)
Definition prepare_rename (document : Document) (position : Position) : outcome message (option (Range * string)) :=
  let offset := position_to_offset (do_source document) position in
  match rename_target document offset with
  | None => Ok None
  | Some (token, symbol) =>
      range ← span_to_range (do_source document) (span token);
      Ok (Some (range, sy_name symbol))
  end.

(** Source: [crates/ic10-lsp/src/main.rs] [rename] *)
Definition rename (document : Document) (position : Position) (new_name : string) : outcome message (option (list TextEdit)) :=
  rename_symbol_edits document (position_to_offset (do_source document) position) new_name.

(** The occurrences of the name under the cursor.
    Source: [crates/ic10-lsp/src/main.rs] [references] *)
Definition references (document : Document) (position : Position) (include_declaration : bool) : outcome message (option (list Range)) :=
  let offset := position_to_offset (do_source document) position in
  match symbol_occurrence_at_offset document offset with
  | None => Ok None
  | Some occurrence =>
      locations ← map_outcome (λ item, span_to_range (do_source document) (so_span item))
        (filter (λ item, include_declaration || negb (so_declaration item) = true) (occurrences_for document (so_name occurrence)));
      Ok (Some locations)
  end.

(** Each occurrence with whether it is written: declarations are.
    Source: [crates/ic10-lsp/src/main.rs] [document_highlight] *)
Definition document_highlight (document : Document) (position : Position) : outcome message (option (list (Range * bool))) :=
  let offset := position_to_offset (do_source document) position in
  match symbol_occurrence_at_offset document offset with
  | None => Ok None
  | Some occurrence =>
      highlights ← map_outcome (λ item,
        range ← span_to_range (do_source document) (so_span item);
        Ok (range, so_declaration item)) (occurrences_for document (so_name occurrence));
      Ok (Some highlights)
  end.

(** Where a name leads: into the scenario of the active environment, or to its declaration. *)
Inductive DefinitionTarget :=
  | InScenario (scenario_uri : string)
  | InDocument (range : Range).

(** Source: [crates/ic10-lsp/src/main.rs] [goto_definition] *)
Definition goto_definition (document : Document) (active : option AnalysisContext) (is_url : string → bool) (position : Position) :
    outcome message (option DefinitionTarget) :=
  let offset := position_to_offset (do_source document) position in
  match token_at_offset document offset with
  | None => Ok None
  | Some token =>
      match (context ← active; _ ← device_for_reference context (text token) document;
             if is_url (ax_scenario_uri context) then Some (ax_scenario_uri context) else None) with
      | Some scenario_uri => Ok (Some (InScenario scenario_uri))
      | None =>
          match document_symbol document (text token) with
          | None => Ok None
          | Some symbol => range ← span_to_range (do_source document) (sy_span symbol); Ok (Some (InDocument range))
          end
      end
  end.

(** The outline of a document: name, value, kind and range of each symbol.
    Source: [crates/ic10-lsp/src/main.rs] [document_symbol] *)
Definition document_symbols (document : Document) : outcome message (list (string * option string * SymbolKind * Range)) :=
  map_outcome (λ symbol,
    range ← span_to_range (do_source document) (sy_span symbol);
    Ok (sy_name symbol, sy_value symbol, sy_kind symbol, range)) (bt_values (do_symbols document)).

(** ** Quick fixes *)

Record CodeAction := { ca_title : string; ca_edits : list TextEdit }.

Definition REMOVE_UNUSED : string := "Remove unused code (preserve line numbering)".
Definition unused_codes : list string := ["unused-label"; "unused-alias"; "unused-define"; "unreachable-code"].

(** The quick fix of one report: an empty line for unused code, the closest name for an
    unknown instruction.
    Source: [crates/ic10-lsp/src/main.rs] [code_actions] lines 1456-1501 *)
Definition quick_fix (document : Document) (diagnostic_range : Range) (kb : KnowledgeBase) (diagnostic : Diagnostic) :
    outcome message (option CodeAction) :=
  if one_of (di_code diagnostic) unused_codes then
    match line_at_offset document (start (di_span diagnostic)) with
    | None => Ok None
    | Some line =>
        range ← span_to_range (do_source document) (pl_code_span line);
        Ok (Some {| ca_title := REMOVE_UNUSED; ca_edits := [{| te_range := range; te_new_text := "" |}] |})
    end
  else if String.eqb (di_code diagnostic) "unknown-instruction" then
    match token_at_offset document (start (di_span diagnostic)) with
    | None => Ok None
    | Some token =>
        replacement ← closest_instruction (text token) kb;
        Ok (replacement ← replacement;
            Some {| ca_title := "Change to `" +:+ replacement +:+ "`";
                    ca_edits := [{| te_range := diagnostic_range; te_new_text := replacement |}] |})
    end
  else Ok None.

(** Only reports in the range that is asked for are fixed.
    Source: [crates/ic10-lsp/src/main.rs] [code_actions] lines 1451-1455 *)
Definition code_action_for (document : Document) (requested_range : Range) (kb : KnowledgeBase) (diagnostic : Diagnostic) :
    outcome message (option CodeAction) :=
  diagnostic_range ← span_to_range (do_source document) (di_span diagnostic);
  if negb (ranges_overlap diagnostic_range requested_range) then Ok None
  else quick_fix document diagnostic_range kb diagnostic.

(** Source: [crates/ic10-lsp/src/main.rs] [code_actions] *)
Definition code_actions (document : Document) (requested_range : Range) (kb : KnowledgeBase) : outcome message (list CodeAction) :=
  actions ← map_outcome (code_action_for document requested_range kb) (do_diagnostics document);
  Ok (somes actions).

(** ** Hovers that decide the kind of a token *)

(** The general register a token names. *)
Definition general_register (token : string) : option Z :=
  number ← strip_prefix "r" token ≫= parse_u8;
  if number <=? 15 then Some number else None.

(** Source: [crates/ic10-lsp/src/main.rs] [register_markdown] *)
Definition register_markdown (token : string) (kb : KnowledgeBase) : option string :=
  let architecture := la_architecture (kb_language kb) in
  match general_register token with
  | Some number =>
      Some ("### `" +:+ token +:+ "`" +:+ NEWLINE +:+ NEWLINE +:+ "**General-purpose register " +:+ show number +:+ "**" +:+ NEWLINE +:+ NEWLINE
            +:+ "Stores one " +:+ ar_numeric_storage architecture +:+ " numeric value. `" +:+ token +:+ "` is one of the "
            +:+ ar_general_registers architecture +:+ " general-purpose registers and can be given a descriptive name with `alias`.")
  | None =>
      if String.eqb token (ar_stack_pointer_register architecture) then
        Some ("### `" +:+ token +:+ "`" +:+ NEWLINE +:+ NEWLINE +:+ "**Stack pointer register**" +:+ NEWLINE +:+ NEWLINE
              +:+ "Tracks the current position in the IC housing's " +:+ show (ar_stack_size architecture) +:+ "-value stack. `push` "
              +:+ "writes at the stack pointer and increments it; `pop` reads the top value and decrements it; `peek` reads the top value "
              +:+ "without changing `" +:+ token +:+ "`. The pointer can also be read or written like a register.")
      else if String.eqb token (ar_return_address_register architecture) then
        Some ("### `" +:+ token +:+ "`" +:+ NEWLINE +:+ NEWLINE +:+ "**Return-address register**" +:+ NEWLINE +:+ NEWLINE
              +:+ "`jal` and branch-and-link instructions store the next program line in `" +:+ token +:+ "`. Jumping with `j " +:+ token
              +:+ "` returns execution to that saved line. It can also be read or written like a register.")
      else None
  end.

(** The device pin a token names. *)
Definition pin_number (token : string) : option Z :=
  number ← strip_prefix "d" token ≫= parse_u8;
  if number <=? 5 then Some number else None.

(** The device and the connection of a token with a colon. *)
Definition device_connection (token : string) (kb : KnowledgeBase) : option (string * string) :=
  '(base, connection) ← split_once (byte 58) token;
  _ ← parse_usize connection;
  if String.eqb base (ar_base_device (la_architecture (kb_language kb))) || is_some (pin_number base) then Some (base, connection) else None.

(** Source: [crates/ic10-lsp/src/main.rs] [device_reference_markdown] *)
Definition device_reference_markdown (token : string) (kb : KnowledgeBase) : option string :=
  let architecture := la_architecture (kb_language kb) in
  match device_connection token kb with
  | Some (base, connection) =>
      let target := if String.eqb base (ar_base_device architecture) then "the device executing this program"
                    else "the device assigned to this housing pin" in
      Some ("### `" +:+ token +:+ "`" +:+ NEWLINE +:+ NEWLINE +:+ "**Device connection " +:+ connection +:+ "**" +:+ NEWLINE +:+ NEWLINE
            +:+ "Selects connection `" +:+ connection +:+ "` on `" +:+ base +:+ "` (" +:+ target +:+ "). Use a numbered "
            +:+ "connection with `Channel0`–`Channel7` to read or write values carried by the attached cable network. "
            +:+ "The selected simulation environment can verify that this connection exists and is attached to a compatible network.")
  | None =>
      if String.eqb token (ar_base_device architecture) then
        Some ("### `" +:+ token +:+ "`" +:+ NEWLINE +:+ NEWLINE +:+ "**Base-device reference**" +:+ NEWLINE +:+ NEWLINE
              +:+ "Refers to the device that is executing the IC10 program—normally the IC Housing containing the chip. "
              +:+ "It can be used wherever an instruction accepts a device reference and can be given a descriptive name with `alias`.")
      else
        number ← pin_number token;
        Some ("### `" +:+ token +:+ "`" +:+ NEWLINE +:+ NEWLINE +:+ "**Device pin " +:+ show number +:+ "**" +:+ NEWLINE +:+ NEWLINE
              +:+ "Refers to the device assigned to the `" +:+ token +:+ "` connection on the IC Housing. `" +:+ token
              +:+ "` is one of the " +:+ ar_device_pins architecture
              +:+ " device references and can be given a descriptive name with `alias`.")
  end.

(** ** Semantic tokens *)

(** A token with its type and modifiers, before it is written relative to the one before. *)
Record AbsoluteToken := { at_position : Position; at_length : Z; at_type : Z; at_modifiers : Z }.
Record SemanticToken := { st_delta_line : Z; st_delta_start : Z; st_length : Z; st_type : Z; st_modifiers : Z }.

(** Source: [crates/ic10-lsp/src/main.rs] [semantic_token] *)
Definition semantic_token (document : Document) (sp : Span) (token_type modifiers : Z) : outcome message AbsoluteToken :=
  position ← offset_to_position (do_source document) (start sp);
  Ok {| at_position := position;
        at_length := wrap_u 32 (utf16_count (slice (start sp) (stop sp) (do_source document)));
        at_type := token_type; at_modifiers := modifiers |}.

(** The type and modifiers of an operand; [None] for one without colour.
    Source: [crates/ic10-lsp/src/main.rs] [semantic_tokens] lines 1350-1391 *)
Definition operand_token (document : Document) (kb : KnowledgeBase) (info : option Instruction) (index : nat) (operand : Token) : option (Z * Z) :=
  match find_first (λ occurrence, bool_decide (so_span occurrence = span operand)) (do_occurrences document) with
  | Some occurrence =>
      Some (match so_kind occurrence with SymLabel => 6 | SymDefine => 4 | SymAlias => 1 end,
            if so_declaration occurrence then (if bool_decide (so_kind occurrence = SymDefine) then 3 else 1) else 0)
  | None =>
      if is_some (parse_literal_macro (text operand)) then Some (3, 2)
      else if bt_contains_key (text operand) (la_constants (kb_language kb)) || is_some (parse_numeric_literal (text operand)) then Some (4, 2)
      else if is_some (enum_value kb (text operand)) then Some (5, 2)
      else if is_some (register_markdown (text operand) kb) then
        let write := match info ≫= λ info, in_operands info !! index with Some o => String.eqb (od_operand_type o) "r?" | None => false end in
        Some (1, if write then 8 else 0)
      else if is_some (device_reference_markdown (text operand) kb) then Some (2, 0)
      else None
  end.

(** The tokens of a line.
    Source: [crates/ic10-lsp/src/main.rs] [semantic_tokens] lines 1331-1400 *)
Definition line_tokens (document : Document) (kb : KnowledgeBase) (line : ParsedLine) : outcome message (list AbsoluteToken) :=
  match pl_kind line with
  | LineEmpty => Ok []
  | LineLabel name => token ← semantic_token document (span name) 6 1; Ok [token]
  | LineInstruction mnemonic operands =>
      let info := instruction kb (text mnemonic) in
      first ← semantic_token document (span mnemonic) 0 (match info with Some i => if in_deprecated i then 4 else 0 | None => 0 end);
      rest ← map_outcome (λ '(index, operand),
        match operand_token document kb info index operand with
        | Some (token_type, modifiers) => token ← semantic_token document (span operand) token_type modifiers; Ok [token]
        | None => Ok []
        end) (enumerate operands);
      Ok (first :: mjoin rest)
  end.

(** Source: [crates/ic10-lsp/src/main.rs] [semantic_tokens] lines 1402-1407 *)
Definition in_requested (requested_range : option Range) (token : AbsoluteToken) : bool :=
  match requested_range with
  | None => true
  | Some range =>
      position_le (ra_start range) (at_position token)
      && position_le {| po_line := po_line (at_position token); po_character := wrap_u 32 (po_character (at_position token) + at_length token) |}
           (ra_end range)
  end.

(** [sort_by_key] on positions, which is stable. *)
Definition position_lt (a b : Position) : bool := negb (position_le b a).
Definition sort_tokens (l : list AbsoluteToken) : list AbsoluteToken := sort_by (λ a b, position_lt (at_position a) (at_position b)) l.

Section deltas.
Context `{Build}.

(** [u32] subtraction *)
Definition sub_u32 (a b : Z) : outcome message Z := if a <? b then on_overflow (wrap_u 32 (a - b)) else Ok (a - b).

(** Each token relative to the one before.
    Source: [crates/ic10-lsp/src/main.rs] [semantic_tokens] lines 1409-1428 *)
Fixpoint delta_tokens (previous : Position) (l : list AbsoluteToken) : outcome message (list SemanticToken) :=
  match l with
  | [] => Ok []
  | token :: l =>
      let position := at_position token in
      delta_line ← sub_u32 (po_line position) (po_line previous);
      delta_start ← (if delta_line =? 0 then sub_u32 (po_character position) (po_character previous) else Ok (po_character position));
      rest ← delta_tokens position l;
      Ok ({| st_delta_line := delta_line; st_delta_start := delta_start; st_length := at_length token;
             st_type := at_type token; st_modifiers := at_modifiers token |} :: rest)
  end.

(** The tokens of a document, in the order of the text. *)
Definition absolute_tokens (document : Document) (requested_range : option Range) (kb : KnowledgeBase) : outcome message (list AbsoluteToken) :=
  tokens ← map_outcome (line_tokens document kb) (do_lines document);
  Ok (sort_tokens (filter (λ token, in_requested requested_range token = true) (mjoin tokens))).

(** Source: [crates/ic10-lsp/src/main.rs] [semantic_tokens] *)
Definition semantic_tokens (document : Document) (requested_range : option Range) (kb : KnowledgeBase) : outcome message (list SemanticToken) :=
  absolute ← absolute_tokens document requested_range kb;
  delta_tokens {| po_line := 0; po_character := 0 |} absolute.
End deltas.

(** ** Folding, signatures, hints *)

(** The first and last line of each fold: from a label up to the next one.
    Source: [crates/ic10-lsp/src/main.rs] [folding_range] *)
Definition folding_ranges (document : Document) : list (Z * Z) :=
  let labels := (filter (λ '(_, line), match pl_kind line with LineLabel _ => true | _ => false end = true) (enumerate (do_lines document))).*1 in
  omap (λ '(position, index),
    let last := pred (default (length (do_lines document)) (labels !! S position)) in
    if (index <? last)%nat then Some (wrap_u 32 (Z.of_nat index), wrap_u 32 (Z.of_nat last)) else None) (enumerate labels).

(** Source: [crates/ic10-lsp/src/main.rs] [active_operand] *)
Definition active_operand (operands : list Token) (offset : nat) : nat :=
  default (length operands) (Prelude.position (λ operand, (offset <=? stop (span operand))%nat) operands).

(** The signature of the instruction under the cursor: its syntax, its operands and the active one.
    Source: [crates/ic10-lsp/src/main.rs] [signature_help] *)
Definition signature_help (document : Document) (kb : KnowledgeBase) (position : Position) : option (string * list string * option Z) :=
  let offset := position_to_offset (do_source document) position in
  '(mnemonic, operands) ← instruction_at_offset document offset;
  info ← instruction kb (text mnemonic);
  let active := active_operand operands offset in
  Some (in_syntax info, od_display <$> in_operands info,
        match in_operands info with
        | [] => None
        | ops => Some (wrap_u 32 (Z.of_nat (Nat.min active (length ops - 1))))
        end).

(** A hint after an operand: where, what, and why. *)
Record InlayHint := { ih_position : Position; ih_label : string; ih_tooltip : string }.

Definition in_range_of (range : Range) (position : Position) : bool :=
  position_le (ra_start range) position && position_le position (ra_end range).

(** The value of a name after each use of it.
    Source: [crates/ic10-lsp/src/main.rs] [inlay_hint] lines 1110-1144 *)
Definition symbol_hints (document : Document) (range : Range) : outcome message (list InlayHint) :=
  hints ← map_outcome (λ occurrence,
    position ← offset_to_position (do_source document) (stop (so_span occurrence));
    Ok (if negb (in_range_of range position) then None
        else
          symbol ← document_symbol document (so_name occurrence);
          value ← sy_value symbol;
          Some {| ih_position := position; ih_label := " = " +:+ value;
                  ih_tooltip := "Resolved " +:+ kind_name (sy_kind symbol) +:+ " `" +:+ sy_name symbol +:+ "`" |}))
    (filter (λ occurrence, so_declaration occurrence = false) (do_occurrences document));
  Ok (somes hints).

(** The device after each operand that names one in the active environment.
    Source: [crates/ic10-lsp/src/main.rs] [inlay_hint] lines 1145-1179 *)
Definition device_hints (document : Document) (context : AnalysisContext) (range : Range) : outcome message (list InlayHint) :=
  hints ← map_outcome (λ operand,
    match device_for_reference context (text operand) document with
    | None => Ok None
    | Some device =>
        position ← offset_to_position (do_source document) (stop (span operand));
        Ok (if negb (in_range_of range position) then None
            else Some {| ih_position := position; ih_label := " → " +:+ display_name device;
                         ih_tooltip := sp_prefab device +:+ " in " +:+ label context |})
    end) (do_lines document ≫= λ line, match pl_kind line with LineInstruction _ operands => operands | _ => [] end);
  Ok (somes hints).

(** Source: [crates/ic10-lsp/src/main.rs] [inlay_hint] *)
Definition inlay_hints (document : Document) (active : option AnalysisContext) (range : Range) : outcome message (list InlayHint) :=
  values ← symbol_hints document range;
  devices ← match active with Some context => device_hints document context range | None => Ok [] end;
  Ok (values ++ devices)%list.

(** The whole text is replaced unless it is formatted.
    Source: [crates/ic10-lsp/src/main.rs] [formatting] *)
Definition formatting (document : Document) (tab_size : nat) (insert_spaces : bool) : outcome message (list TextEdit) :=
  let options := {| fo_indent_size := tab_size; fo_insert_spaces := insert_spaces; fo_directives_at_column_zero := true |} in
  let formatted := format_document document options in
  if String.eqb formatted (do_source document) then Ok []
  else
    last ← offset_to_position (do_source document) (String.length (do_source document));
    Ok [{| te_range := {| ra_start := {| po_line := 0; po_character := 0 |}; ra_end := last |}; te_new_text := formatted |}].

(** ** Completions *)

(** The kinds of the items that are offered. *)
Inductive CompletionKind := CkKeyword | CkVariable | CkEnumMember | CkReference | CkFunction | CkConstant.

#[export] Instance completion_kind_eq_dec : EqDecision CompletionKind.
Proof. solve_decision. Defined.

(** An item with its kind and the text it inserts, the label when there is none. *)
Record CompletionItem := { ci_label : string; ci_kind : CompletionKind; ci_insert_text : option string }.

Definition without_chars (chars : list Z) (s : string) : string := of_bytes (filter (λ b, b ∉ chars) (bytes s)).

(** A placeholder for each operand.
    Source: [crates/ic10-lsp/src/main.rs] [instruction_snippet] *)
Definition instruction_snippet (name : string) (info : Instruction) : string :=
  foldl (λ snippet '(index, operand),
           snippet +:+ " ${" +:+ show (Z.of_nat index + 1) +:+ ":" +:+ without_chars [36; 125] (od_label operand) +:+ "}")
    name (enumerate (in_operands info)).

(** Source: [crates/ic10-lsp/src/main.rs] [command_completions] *)
Definition command_completions (kb : KnowledgeBase) : list CompletionItem :=
  (λ '(name, info), {| ci_label := name; ci_kind := CkKeyword; ci_insert_text := Some (instruction_snippet name info) |})
    <$> la_instructions (kb_language kb).

(** Source: [crates/ic10-lsp/src/main.rs] [simple_completion] *)
Definition simple_completion (name : string) (kind : CompletionKind) : CompletionItem :=
  {| ci_label := name; ci_kind := kind; ci_insert_text := None |}.

(** Source: [crates/ic10-lsp/src/main.rs] [literal_macro_completion] *)
Definition literal_macro_completion (name : string) : CompletionItem :=
  {| ci_label := name +:+ "(" +:+ DQUOTE +:+ "…" +:+ DQUOTE +:+ ")"; ci_kind := CkFunction;
     ci_insert_text := Some (name +:+ "(" +:+ DQUOTE +:+ "${1:text}" +:+ DQUOTE +:+ ")") |}.

(** The table of names an operand is one of.
    Source: [crates/ic10-lsp/src/main.rs] [operand_completions] lines 391-401 *)
Definition operand_enum (operand_type : string) : option string :=
  if str_contains "logicSlotType" operand_type then Some "LogicSlotType"
  else if str_contains "logicType" operand_type then Some "LogicType"
  else if str_contains "batchMode" operand_type then Some "LogicBatchMethod"
  else if str_contains "reagentMode" operand_type then Some "LogicReagentMode"
  else None.

(** Source: [crates/ic10-lsp/src/main.rs] [is_absolute_branch] *)
Definition expects_label (mnemonic : string) : bool :=
  one_of mnemonic ["j"; "jal"]
  || (starts_with "b" mnemonic && negb (starts_with "br" mnemonic) && negb (one_of mnemonic ["bdse"; "bdns"; "bdnvl"; "bdnvs"])).

(** The names of a document that may stand for a number.
    Source: [crates/ic10-lsp/src/main.rs] [operand_completions] lines 466-481 *)
Definition symbol_completions (document : Document) (mnemonic : string) : list CompletionItem :=
  omap (λ symbol,
    if expects_label mnemonic || bool_decide (sy_kind symbol = SymDefine) then
      Some (simple_completion (sy_name symbol)
              match sy_kind symbol with SymLabel => CkReference | SymDefine => CkConstant | SymAlias => CkVariable end)
    else None) (bt_values (do_symbols document)).

(** Source: [crates/ic10-lsp/src/main.rs] [operand_completions] *)
Definition operand_completions (document : Document) (kb : KnowledgeBase) (mnemonic operand_type : string) : list CompletionItem :=
  let accepts_number := str_contains "num" operand_type || str_contains "int" operand_type in
  let accepts_hash := str_contains "Hash" operand_type || str_contains "hash" operand_type in
  ((if str_contains "r?" operand_type
    then (λ register, simple_completion register CkVariable)
           <$> ((λ i, "r" +:+ show (Z.of_nat i)) <$> seq 0 16) ++ ["ra"; "sp"] else [])
   ++ (if str_contains "d?" operand_type || starts_with "device" operand_type
       then (λ device, simple_completion device CkVariable) <$> ((λ i, "d" +:+ show (Z.of_nat i)) <$> seq 0 6) ++ ["db"] else [])
   ++ match operand_enum operand_type ≫= λ name, bt_get name (la_enums (kb_language kb)) with
      | Some listing => (λ name, simple_completion name CkEnumMember) <$> bt_keys (el_values listing)
      | None => []
      end
   ++ (if str_contains "deviceHash" operand_type
       then (λ device, {| ci_label := dd_prefab_name device; ci_kind := CkReference;
                          ci_insert_text := Some ("HASH(" +:+ DQUOTE +:+ dd_prefab_name device +:+ DQUOTE +:+ ")") |}) <$> all_devices kb
       else [])
   ++ (if accepts_number || accepts_hash then [literal_macro_completion "HASH"] else [])
   ++ (if accepts_number then [literal_macro_completion "STR"] else [])
   ++ (if accepts_number
       then ((λ name, simple_completion name CkConstant) <$> bt_keys (la_constants (kb_language kb))) ++ symbol_completions document mnemonic
       else []))%list.

(** The prefabs a define can name.
    Source: [crates/ic10-lsp/src/main.rs] [prefab_hash_completions] *)
Definition prefab_hash_completions (kb : KnowledgeBase) : list CompletionItem :=
  (λ '(name, hash), {| ci_label := name; ci_kind := CkConstant; ci_insert_text := Some (show hash) |})
    <$> (((λ device, (dd_prefab_name device, dd_prefab_hash device)) <$> all_devices kb)
         ++ ((λ resource, (re_prefab_name resource, re_prefab_hash resource)) <$> bt_values (rr_resources (kb_resources kb))))%list.

(** Source: [crates/ic10-lsp/src/main.rs] [hash_macro_name] *)
Definition hash_macro_name (token : string) : option string :=
  strip_prefix ("HASH(" +:+ DQUOTE) token ≫= strip_suffix (DQUOTE +:+ ")").

(** [str::parse::<i32>] *)
Definition parse_i32 (s : string) : option Z := in_range I32_MIN I32_MAX (i64_from_str_radix 10 s).

(** Source: [crates/ic10-lsp/src/main.rs] [device_from_token] *)
Definition device_from_token (token : string) (kb : KnowledgeBase) : option DeviceData :=
  match hash_macro_name token with
  | Some name => device_by_name kb name
  | None => option_or (device_by_name kb token) (parse_i32 (without_chars [95] token) ≫= device_by_hash kb)
  end.

(** Source: [crates/ic10-lsp/src/main.rs] [resource_from_token] *)
Definition resource_from_token (token : string) (kb : KnowledgeBase) : option Resource :=
  match hash_macro_name token with
  | Some name => resource_by_name kb name
  | None => option_or (resource_by_name kb token) (parse_i32 (without_chars [95] token) ≫= resource_by_hash kb)
  end.

(** Source: [crates/ic10-lsp/src/main.rs] [reagent_from_token] *)
Definition reagent_from_token (token : string) (kb : KnowledgeBase) : option Reagent :=
  match hash_macro_name token with
  | Some name => reagent_by_name kb name
  | None => option_or (reagent_by_name kb token) (parse_i32 (without_chars [95] token) ≫= reagent_by_hash kb)
  end.

(** Source: [crates/ic10-lsp/src/main.rs] [resolved_prefab_device] *)
Definition resolved_prefab_device (token : string) (document : Document) (kb : KnowledgeBase) : option DeviceData :=
  value ← follow_define 32 document token; device_from_token value kb.

(** Source: [crates/ic10-lsp/src/main.rs] [resolved_integer] *)
Definition resolved_integer (token : string) (document : Document) (kb : KnowledgeBase) : option Z :=
  current ← follow_define 32 document token;
  value ← option_or (parse_numeric_literal current)
            (constant ← bt_get current (la_constants (kb_language kb)); as_f64 (co_value constant));
  if whole value then Some (to_i64 value) else None.

(** Where a batch instruction names the prefab and the slot, and whether it writes.
    Source: [crates/ic10-lsp/src/main.rs] [known_batch_logic_fields] lines 1603-1610 *)
Definition batch_operands (mnemonic : string) : option (nat * option nat * bool) :=
  if one_of mnemonic ["lb"; "lbn"] then Some (1%nat, None, false)
  else if String.eqb mnemonic "lbs" then Some (1%nat, Some 2%nat, false)
  else if String.eqb mnemonic "lbns" then Some (1%nat, Some 3%nat, false)
  else if one_of mnemonic ["sb"; "sbn"] then Some (0%nat, None, true)
  else if String.eqb mnemonic "sbs" then Some (0%nat, Some 1%nat, true)
  else None.

(** Source: [crates/ic10-lsp/src/main.rs] [known_batch_logic_fields] *)
Definition known_batch_logic_fields (mnemonic : string) (operands : list Token) (document : Document) (kb : KnowledgeBase) :
    option (list string) :=
  '(hash_index, slot_index, write) ← batch_operands mnemonic;
  token ← operands !! hash_index;
  device ← resolved_prefab_device (text token) document kb;
  match slot_index with
  | Some slot_index =>
      token ← operands !! slot_index;
      slot ← resolved_integer (text token) document kb;
      metadata ← bt_get (show slot) (dd_slots device);
      Some (allowed_fields write (ds_logic_types metadata))
  | None => Some (allowed_fields write (dd_logic_types device))
  end.

(** The completions of an operand.
    Source: [crates/ic10-lsp/src/main.rs] [completion] lines 646-691 *)
Definition active_completions (document : Document) (kb : KnowledgeBase) (context : option AnalysisContext) (mnemonic : string)
    (operands : list Token) (info : Instruction) (active : nat) : list CompletionItem :=
  let items :=
    (match in_operands info !! active with
     | Some operand => operand_completions document kb mnemonic (od_operand_type operand)
     | None => []
     end
     ++ (if String.eqb mnemonic "define" && (active =? 1)%nat then prefab_hash_completions kb else []))%list in
  match in_operands info !! active with
  | Some operand =>
      if one_of (od_operand_type operand) ["logicType"; "logicSlotType"] then
        match option_or (context ← context; valid_operation_logic_fields context document mnemonic operands kb)
                (known_batch_logic_fields mnemonic operands document kb) with
        | Some fields => filter (λ item, ci_kind item ≠ CkEnumMember ∨ ci_label item ∈ fields) items
        | None => items
        end
      else items
  | None => items
  end.

(** Source: [crates/ic10-lsp/src/main.rs] [completion] *)
Definition completion (document : Document) (kb : KnowledgeBase) (context : option AnalysisContext) (position : Position) :
    option (list CompletionItem) :=
  let offset := position_to_offset (do_source document) position in
  line ← line_at_offset document offset;
  Some match pl_kind line with
       | LineInstruction mnemonic operands =>
           if (offset <=? stop (span mnemonic))%nat then command_completions kb
           else
             match instruction kb (text mnemonic) with
             | Some info => active_completions document kb context (text mnemonic) operands info (active_operand operands offset)
             | None => command_completions kb
             end
       | _ => command_completions kb
       end.
