(* ===== verification/RenameFacts.v ===== *)
(** * Renames

    Proofs about [rename_symbol_edits] of [Editor]: applied as an editor does, its edits
    give the lines of the document with the name replaced where it stands for the symbol
    and nowhere else. *)

From stdpp Require Import sorting.
From S2P Require Import Prelude BTree Text F64 Knowledge Literals Syntax Analysis Reparse Scenario World Environment Editor EditorFacts.
Local Open Scope string_scope.
Local Open Scope Z_scope.

(** ** Names *)

Definition name_byte (b : Z) : bool := is_ascii_alphanumeric b || (b =? 95).

(** A name is not empty and made of letters, digits and underscores. *)
Definition is_name (v : string) : Prop := v ≠ "" ∧ Forall (λ b, name_byte b = true) (bytes v).

Lemma char_byte_name c : (is_ascii_alphanumeric (char_byte c) || String.eqb c "_") = true → ∃ a, c = String a "" ∧ name_byte (byte_of a) = true.
Proof.
  intros H. destruct c as [|a [|b c]]; [done| |].
  - exists a. split; [done|]. unfold name_byte. apply orb_true_iff in H as [H|H%String.eqb_eq]; [simpl in H; by rewrite H|]. by injection H as ->.
  - apply orb_true_iff in H as [H|H%String.eqb_eq]; done.
Qed.

Lemma identifier_name v : Literals.is_identifier v = true → is_name v.
Proof.
  unfold Literals.is_identifier. intros H. destruct (chars v) as [|first rest] eqn:Hv; [done|].
  apply andb_prop in H as [Hfirst Hrest]. split; [by intros ->|]. rewrite <-(concat_chars v), Hv.
  assert (Forall (λ c, ∃ a, c = String a "" ∧ name_byte (byte_of a) = true) (first :: rest)) as Hall.
  { constructor.
    - apply char_byte_name. unfold is_ascii_alphanumeric. apply orb_true_iff in Hfirst as [-> | ->]; [done|]. by rewrite orb_true_r.
    - apply Forall_forall. intros c Hc. apply char_byte_name. rewrite forallb_forall in Hrest. by apply Hrest, list_elem_of_In. }
  clear Hv Hfirst Hrest. induction Hall as [|c cs (a & -> & Ha) _ IH]; [constructor|]. by constructor.
Qed.

Lemma editor_identifier_name v : is_identifier v = true → is_name v.
Proof. apply identifier_name. Qed.

(** What a character of a name is not. *)
Definition plain_char (c : string) : Prop :=
  line_char c ∧ is_whitespace c = false ∧ c ≠ "#" ∧ c ≠ DQUOTE ∧ c ≠ BACKSLASH.

Lemma name_char a : name_byte (byte_of a) = true → plain_char (String a "").
Proof.
  assert (∀ a, implb (name_byte (byte_of a))
    (negb (is_continuation a) && negb (byte_of a =? 10) && negb (is_whitespace (String a ""))
     && negb (String.eqb (String a "") "#") && negb (String.eqb (String a "") DQUOTE) && negb (String.eqb (String a "") BACKSLASH)) = true) as Hall
    by (clear; intros [[] [] [] [] [] [] [] []]; vm_compute; reflexivity).
  intros Ha. specialize (Hall a). rewrite Ha in Hall. cbn [implb] in Hall. rewrite !andb_true_iff, !negb_true_iff in Hall.
  destruct Hall as [[[[[H1 H2%Z.eqb_neq] H3] H4%String.eqb_neq] H5%String.eqb_neq] H6%String.eqb_neq].
  split; [|done]. split; [by split|]. by repeat constructor.
Qed.

Lemma plain_chars_word cs : cs ≠ [] → Forall plain_char cs → is_word (concat_strings cs).
Proof.
  intros Hne H. exists cs. split; [done|]. split; [done|]. clear Hne.
  induction H as [|c cs (Hl & Hb & Hh & Hq & _) _ IH]; [by repeat constructor|]. destruct IH as ((H1 & H2 & H3) & H4).
  assert (scan_char Outside c = Outside) as Hscan by (simpl; by rewrite (proj2 (String.eqb_neq _ _))).
  split; [split_and!|].
  - by constructor.
  - cbn [never]. rewrite Hscan. split; [|done]. unfold separates. by rewrite Hb.
  - cbn [never]. rewrite Hscan. split; [|done]. unfold starts_comment. by rewrite (proj2 (String.eqb_neq _ _)).
  - cbn [scan foldl]. by rewrite Hscan.
Qed.

Fixpoint letters (v : string) : list string := match v with "" => [] | String a v => String a "" :: letters v end.

Lemma concat_letters v : concat_strings (letters v) = v.
Proof. induction v as [|a v IH]; [done|]. cbn [letters]. by rewrite concat_strings_cons, IH. Qed.

Lemma name_letters v : is_name v → Forall plain_char (letters v) ∧ letters v ≠ [].
Proof.
  intros [Hne Hv]. split; [|by destruct v]. clear Hne. induction v as [|a v IH]; [constructor|]. apply Forall_cons in Hv as [Ha Hv].
  constructor; [by apply name_char|by apply IH].
Qed.

Lemma name_word v : is_name v → is_word v.
Proof. intros [Hv Hne]%name_letters. rewrite <-(concat_letters v). by apply plain_chars_word. Qed.

Lemma name_label_word v : is_name v → is_word (v +:+ ":").
Proof.
  intros [Hv _]%name_letters. rewrite <-(concat_letters v), <-(concat_letters ":"), <-concat_strings_app. apply plain_chars_word; [by destruct (letters v)|].
  apply Forall_app. split; [done|]. apply Forall_singleton. split; [|by split_and!]. by repeat constructor.
Qed.

(** A name does not end a line. *)
Lemma name_ends r v : is_name v → name_byte (byte_of r) = false → ends_with (String r "") v = false.
Proof.
  intros [_ Hv] Hr. unfold ends_with. destruct (strip_suffix (String r "") v) as [q|] eqn:Hq; [|done].
  apply strip_suffix_Some in Hq as ->. rewrite bytes_app in Hv. apply Forall_app in Hv as [_ [Hv _]%Forall_cons]. congruence.
Qed.

(** ** Ordered edits *)

(** What an editor makes of edits that do not overlap, in the order of the text. *)
Fixpoint splice (source : string) (from : nat) (edits : list (nat * nat * string)) : string :=
  match edits with
  | [] => slice from (String.length source) source
  | (first, last, new) :: edits => slice from first source +:+ (new +:+ splice source last edits)
  end.

Definition edit_offsets (source : string) (e : TextEdit) : nat * nat * string :=
  (position_to_offset source (ra_start (te_range e)), position_to_offset source (ra_end (te_range e)), te_new_text e).

Definition apply_edits (source : string) (edits : list TextEdit) : string := splice source 0 (edit_offsets source <$> edits).

(** Edits that begin where the one before ends, or later. *)
Fixpoint ordered (from : nat) (edits : list (nat * nat * string)) : Prop :=
  match edits with
  | [] => True
  | (first, last, _) :: edits => (from ≤ first ≤ last)%nat ∧ ordered last edits
  end.

Section edited.
Variables name new : string.

(** The text [s] at [base], and what it becomes when [name] at the spans is replaced by [new]. *)
Inductive edited : nat → string → list Span → string → Prop :=
  | edited_nil base : edited base "" [] ""
  | edited_keep base a s sps out : edited (S base) s sps out → edited base (String a s) sps (String a out)
  | edited_token base s sps out :
      edited (base + String.length name) s sps out →
      edited base (name +:+ s) ({| start := base; stop := base + String.length name |} :: sps) (new +:+ out).

Definition replacements (sps : list Span) : list (nat * nat * string) := (λ sp, (start sp, stop sp, new)) <$> sps.

Lemma edited_app base s1 sps1 out1 s2 sps2 out2 :
  edited base s1 sps1 out1 → edited (base + String.length s1) s2 sps2 out2 →
  edited base (s1 +:+ s2) (sps1 ++ sps2) (out1 +:+ out2).
Proof.
  induction 1 as [base|base a s sps out _ IH|base s sps out _ IH]; cbn [String.append app String.length]; intros H2.
  - by rewrite Nat.add_0_r in H2.
  - constructor. apply IH. by rewrite Nat.add_succ_comm.
  - rewrite !string_app_assoc. constructor. apply IH. by rewrite slength_app, Nat.add_assoc in H2.
Qed.

Lemma edited_same s : ∀ base, edited base s [] s.
Proof. induction s as [|a s IH]; intros base; by constructor. Qed.

Lemma edited_one base s : edited base (name +:+ s) [{| start := base; stop := base + String.length name |}] (new +:+ s).
Proof. constructor. apply edited_same. Qed.

Lemma edited_after base s sps out : edited base s sps out → Forall (λ sp, base ≤ start sp)%nat sps.
Proof.
  induction 1 as [base|base a s sps out _ IH|base s sps out _ IH]; [constructor| |constructor; [done|]];
    (eapply Forall_impl; [exact IH|]); simpl; intros sp; lia.
Qed.

Lemma edited_increasing base s sps out : name ≠ "" → edited base s sps out → StronglySorted (λ a b, start a < start b)%nat sps.
Proof.
  intros Hname. induction 1 as [base|base a s sps out _ IH|base s sps out H IH]; [constructor|done|constructor; [done|]].
  apply Forall_forall. intros sp Hsp. pose proof (proj1 (Forall_forall _ _) (edited_after _ _ _ _ H) sp Hsp).
  destruct name; [done|]. simpl in *. lia.
Qed.

(** The text since the last edit is kept until the next one. *)
Lemma edited_splice_from base s sps out : edited base s sps out → ∀ pre kept,
  base = String.length (pre +:+ kept) →
  splice (pre +:+ (kept +:+ s)) (String.length pre) (replacements sps) = kept +:+ out ∧ ordered (String.length pre) (replacements sps).
Proof.
  induction 1 as [base|base a s sps out _ IH|base s sps out _ IH]; intros pre kept ->.
  - split; [|done]. rewrite !string_app_nil_r. cbn [replacements fmap list_fmap splice]. apply slice_tail.
  - destruct (IH pre (kept +:+ String a "")) as [Hsplice Hordered]; [rewrite !slength_app; simpl; lia|].
    rewrite !string_app_assoc in Hsplice. by split.
  - destruct (IH (pre +:+ (kept +:+ name)) "") as [Hsplice Hordered]; [rewrite !slength_app; simpl; lia|].
    cbn [String.append] in Hsplice. rewrite !string_app_assoc in Hsplice. rewrite !slength_app in Hsplice, Hordered.
    cbn [replacements fmap list_fmap splice ordered start stop]. rewrite slength_app, <-Nat.add_assoc. split.
    + rewrite slice_mid. f_equal. f_equal. exact Hsplice.
    + split; [lia|exact Hordered].
Qed.

Lemma edited_splice s sps out : edited 0 s sps out → splice s 0 (replacements sps) = out ∧ ordered 0 (replacements sps).
Proof. intros H. by apply (edited_splice_from 0 s sps out H "" ""). Qed.

(** The last character is the same unless it belongs to one of the names. *)
Lemma edited_empty base sps out : name ≠ "" → edited base "" sps out → sps = [] ∧ out = "".
Proof.
  intros Hname H. inversion H as [|base' a s sps' out' H' Heq|base' s sps' out' H' Heq]; [done|]. by destruct name.
Qed.

Lemma edited_ends r base s sps out :
  name ≠ "" → new ≠ "" → ends_with (String r "") name = false → ends_with (String r "") new = false →
  edited base s sps out → ends_with (String r "") out = ends_with (String r "") s.
Proof.
  intros Hname Hnew Hrname Hrnew. induction 1 as [base|base a s sps out H IH|base s sps out H IH]; [done| |].
  - destruct (decide (s = "")) as [->|Hs]; [apply edited_empty in H as [_ ->]; done|].
    assert (out ≠ "") as Hout by (by inversion H; [..|destruct new]).
    change (String a out) with (String a "" +:+ out). change (String a s) with (String a "" +:+ s).
    by rewrite !ends_with_tail.
  - destruct (decide (s = "")) as [->|Hs]; [apply edited_empty in H as [_ ->]; [|done]; by rewrite !string_app_nil_r, Hrname, Hrnew|].
    assert (out ≠ "") as Hout by (by inversion H; [..|destruct new]). by rewrite !ends_with_tail.
Qed.
End edited.

(** ** The tokens of a line in its text *)

Lemma tokenize_from_shift pre code base cs : ∀ o ts quoted escaped,
  (∀ f, ts = Some f → f ≤ o)%nat → (o + String.length (concat_strings cs) ≤ String.length code)%nat →
  tokenize_from (pre +:+ code) base ((λ f, String.length pre + f)%nat <$> ts) quoted escaped (char_offsets (String.length pre + o) cs)
  = tokenize_from code (base + String.length pre) ts quoted escaped (char_offsets o cs).
Proof.
  assert (∀ f l, (f ≤ l ≤ String.length code)%nat →
    token_at (pre +:+ code) base (String.length pre + f) (String.length pre + l) = token_at code (base + String.length pre) f l) as Htoken.
  { intros f l Hfl. unfold token_at. f_equal; [|f_equal; lia]. pose proof (slice_inside pre code "" f l Hfl) as Hs.
    by rewrite string_app_nil_r in Hs. }
  induction cs as [|c cs IH]; intros o ts quoted escaped Hts Hlen; cbn [char_offsets tokenize_from].
  - destruct ts as [f|]; cbn; [|done]. f_equal. rewrite slength_app. apply Htoken. specialize (Hts f eq_refl). simpl in Hlen. lia.
  - rewrite concat_strings_cons, slength_app in Hlen.
    assert (∀ ts' q e, (∀ f, ts' = Some f → f ≤ o + String.length c)%nat →
      tokenize_from (pre +:+ code) base ((λ f, String.length pre + f)%nat <$> ts') q e (char_offsets (String.length pre + o + String.length c) cs)
      = tokenize_from code (base + String.length pre) ts' q e (char_offsets (o + String.length c) cs)) as Hnext.
    { intros ts' q e Hts'. rewrite <-Nat.add_assoc. apply IH; [done|lia]. }
    destruct (is_whitespace c && negb quoted).
    + destruct ts as [f|]; cbn [fmap option_fmap option_map].
      * rewrite Htoken by (specialize (Hts f eq_refl); lia). f_equal. by apply (Hnext None).
      * by apply (Hnext None).
    + assert (Some (default (String.length pre + o)%nat ((λ f, String.length pre + f)%nat <$> ts))
        = (λ f, String.length pre + f)%nat <$> Some (default o ts)) as -> by (by destruct ts).
      rewrite !Hnext; [done|intros f [= <-]; destruct ts as [g|]; simpl; [specialize (Hts g eq_refl)|]; lia..].
Qed.

(** Nothing is read between the tokens. *)
Lemma tokenize_blank c cs base :
  is_whitespace c = true → char_ok c → Forall char_ok cs →
  tokenize (concat_strings (c :: cs)) base = tokenize (concat_strings cs) (base + String.length c).
Proof.
  intros Hb Hc Hcs. unfold tokenize, char_indices. rewrite !chars_concat by (by try constructor).
  cbn [char_offsets tokenize_from]. rewrite Hb. cbn [andb negb]. rewrite concat_strings_cons.
  pose proof (tokenize_from_shift c (concat_strings cs) base cs 0 None false false) as Hs.
  cbn [fmap option_fmap option_map] in Hs. rewrite Nat.add_0_r in Hs. by apply Hs.
Qed.

Lemma tokenize_blanks bs : ∀ cs base,
  blank_chars bs → Forall char_ok cs →
  tokenize (concat_strings (bs ++ cs)%list) base = tokenize (concat_strings cs) (base + String.length (concat_strings bs)).
Proof.
  induction bs as [|c bs IH]; intros cs base Hbs Hcs; [by rewrite Nat.add_0_r|]. apply Forall_cons in Hbs as [[Hb [Hc _]] Hbs].
  cbn [app]. rewrite tokenize_blank; [|done|done|apply Forall_app; split; [|done]].
  - rewrite IH, concat_strings_cons, slength_app by done. by rewrite Nat.add_assoc.
  - eapply Forall_impl; [exact Hbs|]. by intros x [_ [Hx _]].
Qed.

(** The loop inside a token. *)
Lemma tokenize_from_word code base w rest : ∀ s ts o,
  never separates s w → w ≠ [] →
  tokenize_from code base ts (quoted s) (escaped s) (char_offsets o (w ++ rest)%list)
  = tokenize_from code base (Some (default o ts)) (quoted (scan s w)) (escaped (scan s w))
      (char_offsets (o + String.length (concat_strings w)) rest).
Proof.
  induction w as [|c w IH]; [done|]. intros s ts o [Hc Hw] _. cbn [app char_offsets tokenize_from].
  rewrite separates_quoted, Hc. rewrite (scan_branches (λ q e, tokenize_from _ _ _ q e _) s c).
  destruct w as [|d w].
  - cbn [app scan foldl concat_strings foldr]. by rewrite string_app_nil_r.
  - rewrite IH by done. cbn [scan foldl]. rewrite (concat_strings_cons c), slength_app, Nat.add_assoc. by destruct ts.
Qed.

Definition token_of (w : string) (base : nat) : Token := {| text := w; span := {| start := base; stop := base + String.length w |} |}.

Lemma tokenize_word w base : Forall char_ok w → w ≠ [] → never separates Outside w →
  tokenize (concat_strings w) base = [token_of (concat_strings w) base].
Proof.
  intros Hok Hne Hsep. unfold tokenize, char_indices. rewrite chars_concat by done.
  pose proof (tokenize_from_word (concat_strings w) base w [] Outside None 0 Hsep Hne) as Hw. rewrite app_nil_r in Hw.
  change (quoted Outside) with false in Hw. change (escaped Outside) with false in Hw. rewrite Hw.
  cbn [char_offsets tokenize_from default from_option]. f_equal. unfold token_at, token_of. rewrite slice_all, Nat.add_0_r. done.
Qed.

Lemma tokenize_word_blank w c cs base :
  Forall char_ok w → w ≠ [] → never separates Outside w → scan Outside w = Outside → is_whitespace c = true → char_ok c → Forall char_ok cs →
  tokenize (concat_strings (w ++ c :: cs)%list) base
  = token_of (concat_strings w) base :: tokenize (concat_strings cs) (base + String.length (concat_strings w) + String.length c).
Proof.
  intros Hok Hne Hsep Hs Hb Hc Hcs. unfold tokenize, char_indices.
  assert (Forall char_ok (w ++ c :: cs)) as Hall by (apply Forall_app; split; [done|by constructor]).
  rewrite (chars_concat _ Hall), (chars_concat _ Hcs).
  pose proof (tokenize_from_word (concat_strings (w ++ c :: cs)%list) base w (c :: cs) Outside None 0 Hsep Hne) as Hw.
  change (quoted Outside) with false in Hw. change (escaped Outside) with false in Hw. rewrite Hw, Hs.
  cbn [char_offsets tokenize_from default from_option]. change (quoted Outside) with false. change (escaped Outside) with false. rewrite Hb.
  cbn [andb negb]. f_equal.
  - unfold token_at, token_of. rewrite concat_strings_app, Nat.add_0_l, slice_head, Nat.add_0_r. done.
  - pose proof (tokenize_from_shift (concat_strings w +:+ c) (concat_strings cs) base cs 0 None false false) as Hshift.
    cbn [fmap option_fmap option_map] in Hshift. rewrite string_app_assoc, !slength_app, Nat.add_0_r, Nat.add_assoc in Hshift.
    rewrite Nat.add_0_l, concat_strings_app, concat_strings_cons. apply Hshift; [done|lia].
Qed.

(** A code without a comment and with its quotes closed begins with a token, or is blank. *)
Lemma first_word cs :
  Forall line_char cs → never starts_comment Outside cs → scan Outside cs = Outside →
  blank_chars cs
  ∨ ∃ bs w rest, cs = (bs ++ w ++ rest)%list ∧ blank_chars bs ∧ w ≠ [] ∧ word_chars w ∧ scan Outside w = Outside
      ∧ (rest = [] ∨ ∃ c cs', rest = c :: cs' ∧ is_whitespace c = true ∧ line_char c ∧ Forall line_char cs'
           ∧ never starts_comment Outside cs' ∧ scan Outside cs' = Outside).
Proof.
  assert (∀ cs s w, word_chars w → scan Outside w = s → Forall line_char cs → never starts_comment s cs → scan s cs = Outside → w ≠ [] →
    ∃ w' rest, cs = (w' ++ rest)%list ∧ word_chars (w ++ w') ∧ scan Outside (w ++ w')%list = Outside
      ∧ (rest = [] ∨ ∃ c cs', rest = c :: cs' ∧ is_whitespace c = true ∧ line_char c ∧ Forall line_char cs'
           ∧ never starts_comment Outside cs' ∧ scan Outside cs' = Outside)) as Hword.
  { clear cs. induction cs as [|c cs IH]; intros s w Hw Hs Hcs Hnc Hend Hne.
    - exists [], []. rewrite !app_nil_r. subst s. split; [done|split; [done|split; [exact Hend|by left]]].
    - apply Forall_cons in Hcs as [Hc Hcs]. destruct Hnc as [Hc' Hnc]. destruct (separates s c) eqn:Hsep.
      + apply andb_prop in Hsep as [Hb ->%bool_decide_eq_true]. exists [], (c :: cs). rewrite !app_nil_r. cbn [scan foldl] in Hend.
        rewrite scan_blank in Hnc, Hend by done. split; [done|]. split; [done|]. split; [done|]. right. by exists c, cs.
      + destruct Hw as (H1 & H2 & H3).
        destruct (IH (scan_char s c) (w ++ [c])%list) as (w' & rest & -> & Hw' & Hs' & Hrest); [|by rewrite scan_app, Hs|done|done|done|by destruct w|].
        { split_and!; [apply Forall_app; by split; [|constructor]|apply never_app; by rewrite Hs|apply never_app; by rewrite Hs]. }
        exists (c :: w'), rest. rewrite <-app_assoc in Hw', Hs'. done. }
  induction cs as [|c cs IH]; intros Hcs Hnc Hend; [by left; constructor|]. apply Forall_cons in Hcs as [Hc Hcs].
  destruct Hnc as [Hc' Hnc]. destruct (is_whitespace c) eqn:Hb.
  - cbn [scan foldl] in Hend. rewrite scan_blank in Hnc, Hend by done.
    destruct (IH Hcs Hnc Hend) as [Hblank|(bs & w & rest & -> & Hbs & Hrest)]; [left; by constructor|right].
    exists (c :: bs), w, rest. split; [done|]. split; [by constructor|]. apply Hrest.
  - right. destruct (Hword cs (scan_char Outside c) [c]) as (w' & rest & -> & Hw & Hs & Hrest); [|done|done|done|done|done|].
    + split_and!; [by constructor|simpl; unfold separates; by rewrite Hb|by split].
    + exists [], (c :: w'), rest. split; [done|]. split; [constructor|]. done.
Qed.

(** ** A line with some of its tokens replaced *)

Lemma text_reads_blanks bs t ws : blank_chars bs → text_reads t ws → text_reads (concat_strings bs +:+ t) ws.
Proof. intros Hbs (cs & -> & Hcs). exists (bs ++ cs)%list. split; [by rewrite concat_strings_app|by apply code_reads_blanks]. Qed.

Lemma text_reads_word_blank w c t ws :
  is_word w → is_whitespace c = true → line_char c → text_reads t ws → text_reads (w +:+ (c +:+ t)) (w :: ws).
Proof.
  intros (wcs & -> & Hne & Hw & Hs) Hb Hc (cs & -> & Hcs). exists (wcs ++ c :: cs)%list.
  split; [by rewrite concat_strings_app|]. by apply code_reads_word.
Qed.

Lemma blanks_ok bs : blank_chars bs → Forall char_ok bs.
Proof. intros H. eapply Forall_impl; [exact H|]. by intros c [_ [Hc _]]. Qed.

Lemma tokenize_all_blank bs base : blank_chars bs → tokenize (concat_strings bs) base = [].
Proof. intros Hbs. pose proof (tokenize_blanks bs [] base Hbs) as H. rewrite app_nil_r in H. rewrite H by constructor. done. Qed.

Section line.
Variables (name new : string) (sel : Token → bool).
Hypothesis new_word : is_word new.
Hypothesis sel_name : ∀ t, sel t = true → text t = name.
Set Default Proof Using "Type*".

Definition rewritten (t : Token) : string := if sel t then new else text t.
Definition selected (ts : list Token) : list Span := span <$> filter (λ t, sel t = true) ts.

Lemma selected_cons t ts : selected (t :: ts) = ((if sel t then [span t] else []) ++ selected ts)%list.
Proof using Type.
  unfold selected. destruct (sel t) eqn:Ht; [by rewrite filter_cons_True|rewrite filter_cons_False; [done|by rewrite Ht]].
Qed.

Lemma token_edited w base :
  is_word w →
  edited name new base w (if sel (token_of w base) then [span (token_of w base)] else []) (rewritten (token_of w base))
  ∧ is_word (rewritten (token_of w base)).
Proof.
  intros Hw. unfold rewritten. destruct (sel (token_of w base)) eqn:Hsel; split; try done; [|apply edited_same].
  apply sel_name in Hsel. cbn [text token_of] in Hsel. subst w.
  pose proof (edited_one name new base "") as H. by rewrite !string_app_nil_r in H.
Qed.

Lemma line_edited n : ∀ cs base,
  (length cs ≤ n)%nat → Forall line_char cs → never starts_comment Outside cs → scan Outside cs = Outside →
  ∃ out, edited name new base (concat_strings cs) (selected (tokenize (concat_strings cs) base)) out
    ∧ text_reads out (rewritten <$> tokenize (concat_strings cs) base).
Proof.
  induction n as [|n IH]; intros cs base Hn Hcs Hnc Hend.
  { destruct cs; [|simpl in Hn; lia]. exists "". split; [constructor|apply text_reads_nil]. }
  destruct (first_word cs Hcs Hnc Hend) as [Hblank|(bs & w & rest & -> & Hbs & Hne & Hw & Hs & Hrest)].
  - exists (concat_strings cs). rewrite tokenize_all_blank by done. split; [apply edited_same|].
    pose proof (text_reads_blanks cs "" [] Hblank text_reads_nil) as H. by rewrite string_app_nil_r in H.
  - pose proof Hw as (Hwl & Hwsep & _). pose proof (line_chars_ok _ Hwl) as Hwok.
    assert (is_word (concat_strings w)) as Hword by (by exists w).
    destruct (token_edited (concat_strings w) (base + String.length (concat_strings bs)) Hword) as [Htoken Hnew].
    rewrite concat_strings_app. destruct Hrest as [->|(c & cs' & -> & Hb & Hc & Hcs' & Hnc' & Hend')].
    + rewrite app_nil_r. rewrite <-concat_strings_app, tokenize_blanks, tokenize_word by done.
      eexists (concat_strings bs +:+ _). split; [|apply text_reads_blanks; [done|by apply text_reads_word]].
      rewrite concat_strings_app. apply (edited_app name new base _ [] _ _ (selected [token_of _ _])); [apply edited_same|].
      rewrite selected_cons. unfold selected. rewrite app_nil_r. exact Htoken.
    + destruct Hc as [Hcok Hcn]. pose proof (line_chars_ok _ Hcs') as Hok'.
      destruct (IH cs' (base + String.length (concat_strings bs) + String.length (concat_strings w) + String.length c)%nat) as (out & Hout & Hreads);
        [rewrite !length_app in Hn; simpl in Hn; lia|done|done|done|].
      rewrite <-concat_strings_app, tokenize_blanks, tokenize_word_blank; try done;
        [|apply Forall_app; split; [done|by constructor]].
      eexists (concat_strings bs +:+ (_ +:+ (c +:+ out))). split.
      * rewrite !concat_strings_app, concat_strings_cons. apply (edited_app name new base _ [] _ _ (selected (token_of _ _ :: _))); [apply edited_same|].
        rewrite selected_cons. apply edited_app; [exact Htoken|]. apply (edited_app name new _ c []); [apply edited_same|]. exact Hout.
      * apply text_reads_blanks; [done|]. by apply text_reads_word_blank.
Qed.
End line.

(** ** A line of a document *)

Lemma text_reads_append t bs ws : blank_chars bs → text_reads t ws → text_reads (t +:+ concat_strings bs) ws.
Proof. intros Hbs (cs & -> & Hcs). exists (cs ++ bs)%list. split; [by rewrite concat_strings_app|by apply code_reads_append]. Qed.

(** The places where a name stands for its symbol. *)
Definition rename_spans (symbol : Symbol) (line : ParsedLine) : list Span :=
  match pl_kind line with
  | LineEmpty => []
  | LineLabel name => if bool_decide (span name = sy_span symbol) then [span name] else []
  | LineInstruction _ operands => span <$> filter (λ t, text t = sy_name symbol) operands
  end.

(** The line with the name replaced there. *)
Definition renamed_kind (symbol : Symbol) (new : string) (kind : LineKind) : KindText :=
  match kind with
  | LineEmpty => KindEmpty
  | LineLabel name => KindLabel (if bool_decide (span name = sy_span symbol) then new else text name)
  | LineInstruction mnemonic operands =>
      KindInstruction (text mnemonic) ((λ t, if bool_decide (text t = sy_name symbol) then new else text t) <$> operands)
  end.

Section code.
Variables (symbol : Symbol) (new : string).
Hypothesis name_ok : is_name (sy_name symbol).
Hypothesis new_ok : is_name new.
Set Default Proof Using "Type*".

(** Code that reads as tokens, as [first_word] takes it. *)
Definition closed_code (cs : list string) : Prop := Forall line_char cs ∧ never starts_comment Outside cs ∧ scan Outside cs = Outside.

Lemma label_edited cs base t n :
  closed_code cs → tokenize (concat_strings cs) base = [t] → text t = sy_name symbol +:+ ":" → n = {| start := start (span t); stop := pred (stop (span t)) |} →
  ∃ out, edited (sy_name symbol) new base (concat_strings cs) [n] out ∧ text_reads out [new +:+ ":"].
Proof.
  intros (Hcs & Hnc & Hend) Htokens Ht ->. destruct (first_word cs Hcs Hnc Hend) as [Hblank|(bs & w & rest & -> & Hbs & Hne & Hw & Hs & Hrest)].
  { by rewrite tokenize_all_blank in Htokens. }
  pose proof Hw as (Hwl & Hwsep & _). pose proof (line_chars_ok _ Hwl) as Hwok.
  assert (t = token_of (concat_strings w) (base + String.length (concat_strings bs)) ∧ blank_chars rest) as [-> Hrestb].
  { destruct Hrest as [->|(c & cs' & -> & Hb & Hc & Hcs' & Hnc' & Hend')].
    - rewrite app_nil_r, tokenize_blanks, tokenize_word in Htokens by done. injection Htokens as <-. split; [done|constructor].
    - pose proof (line_chars_ok _ Hcs') as Hok'. pose proof Hc as [Hcok _].
      rewrite tokenize_blanks, tokenize_word_blank in Htokens; try done; [|apply Forall_app; split; [done|by constructor]].
      injection Htokens as <- Hnone. split; [done|]. constructor; [done|].
      apply (f_equal (fmap text)) in Hnone. rewrite tokenize_words, chars_concat in Hnone by (try apply str_ok_chars; done).
      apply words_None in Hnone as [_ Hblank]. specialize (Hblank eq_refl). apply Forall_and. by split. }
  cbn [text token_of] in Ht. exists (concat_strings bs +:+ ((new +:+ ":") +:+ concat_strings rest)). split.
  - rewrite !concat_strings_app, Ht, !string_app_assoc. apply (edited_app _ _ base _ []); [apply edited_same|].
    cbn [span token_of start stop]. rewrite slength_app. cbn [String.length].
    replace (pred (base + String.length (concat_strings bs) + (String.length (sy_name symbol) + 1)))%nat
      with (base + String.length (concat_strings bs) + String.length (sy_name symbol))%nat by lia. apply edited_one.
  - apply text_reads_blanks; [done|]. apply text_reads_append; [done|]. by apply text_reads_word, name_label_word.
Qed.

Lemma instruction_edited cs base m operands :
  closed_code cs → tokenize (concat_strings cs) base = m :: operands → (operands = [] → strip_suffix ":" (text m) = None) →
  ∃ out ws, edited (sy_name symbol) new base (concat_strings cs) (span <$> filter (λ t, text t = sy_name symbol) operands) out
    ∧ text_reads out ws ∧ classify_words ws
      = KindInstruction (text m) ((λ t, if bool_decide (text t = sy_name symbol) then new else text t) <$> operands).
Proof.
  intros (Hcs & Hnc & Hend) Htokens Hlabel. set (sel := λ t, bool_decide (text t = sy_name symbol ∧ span t ≠ span m)).
  destruct (line_edited (sy_name symbol) new sel (name_word _ new_ok) ltac:(intros t [Ht _]%bool_decide_eq_true; exact Ht)
    (length cs) cs base (le_n _) Hcs Hnc Hend) as (out & Hout & Hreads).
  rewrite Htokens in Hout, Hreads.
  assert (Forall (λ t, span t ≠ span m) operands) as Hspans.
  { destruct (tokenize_correct (concat_strings cs) base) as [[_ Hsorted] _]; [by apply str_ok_chars, line_chars_ok|].
    rewrite Htokens in Hsorted. apply StronglySorted_inv in Hsorted as [_ Hm]. destruct (tokenize_correct (concat_strings cs) base) as [[Hall _] _];
      [by apply str_ok_chars, line_chars_ok|]. rewrite Htokens in Hall. apply Forall_cons in Hall as [(a & b & Hab & ->) _].
    eapply Forall_impl; [exact Hm|]. intros t Hlt Heq. cbv beta in Hlt. rewrite Heq in Hlt. simpl in Hlt. lia. }
  assert (∀ t, t ∈ operands → sel t = bool_decide (text t = sy_name symbol)) as Hsel.
  { intros t Ht. unfold sel. rewrite Forall_forall in Hspans. specialize (Hspans t Ht). apply bool_decide_ext. naive_solver. }
  assert (sel m = false) as Hm by (apply bool_decide_eq_false; naive_solver).
  eexists out, _. split; [|split; [exact Hreads|]].
  - rewrite selected_cons, Hm in Hout. cbn [app] in Hout. unfold selected in Hout.
    replace (filter (λ t, text t = sy_name symbol) operands) with (filter (λ t, sel t = true) operands); [done|].
    clear -Hsel. induction operands as [|t ts IH]; [done|]. assert (sel t = bool_decide (text t = sy_name symbol)) as Ht by (apply Hsel; left).
    assert (filter (λ t, sel t = true) ts = filter (λ t, text t = sy_name symbol) ts) as Hts by (apply IH; intros; apply Hsel; by right).
    destruct (decide (text t = sy_name symbol)) as [He|He].
    + rewrite !filter_cons_True by (first [done|rewrite Ht; by apply bool_decide_eq_true_2]). by f_equal.
    + rewrite !filter_cons_False by (first [done|rewrite Ht; by rewrite bool_decide_eq_false_2]). done.
  - assert (rewritten new sel m = text m) as Hmt by (unfold rewritten; by rewrite Hm).
    assert (rewritten new sel <$> operands = (λ t, if bool_decide (text t = sy_name symbol) then new else text t) <$> operands) as Hrw.
    { apply list_fmap_ext. intros i t Ht. unfold rewritten. rewrite Hsel; [done|]. by eapply list_elem_of_lookup_2. }
    rewrite fmap_cons, Hmt, Hrw. destruct operands as [|t ts]; cbn [fmap list_fmap classify_words].
    + by rewrite Hlabel.
    + by destruct (strip_suffix ":" (text m)).
Qed.

Lemma kind_edited cs base :
  closed_code cs →
  (∀ t n, tokenize (concat_strings cs) base = [t] → strip_suffix ":" (text t) = Some n →
     {| start := start (span t); stop := pred (stop (span t)) |} = sy_span symbol → n = sy_name symbol) →
  let line kind := {| pl_number := 0; pl_span := {| start := 0; stop := 0 |}; pl_code_span := {| start := 0; stop := 0 |}; pl_comment_span := None; pl_kind := kind |} in
  let kind := classify_line (tokenize (concat_strings cs) base) in
  ∃ out ws, edited (sy_name symbol) new base (concat_strings cs) (rename_spans symbol (line kind)) out
    ∧ text_reads out ws ∧ classify_words ws = renamed_kind symbol new kind.
Proof.
  intros Hclosed Hlabel line kind. subst kind line. unfold rename_spans. cbn [pl_kind].
  destruct (tokenize (concat_strings cs) base) as [|t [|u us]] eqn:Htokens; cbn [classify_line].
  - exists (concat_strings cs), []. split; [apply edited_same|]. split; [|done]. exists cs. split; [done|]. destruct Hclosed as (Hcs & Hnc & Hend).
    split_and!; [done| |done|done]. pose proof (line_chars_ok _ Hcs) as Hok. apply (f_equal (fmap text)) in Htokens.
    rewrite tokenize_words, chars_concat in Htokens by (try apply str_ok_chars; done). done.
  - destruct (strip_suffix ":" (text t)) as [n|] eqn:Hn.
    + cbn [renamed_kind span text]. case_bool_decide as Hspan.
      * specialize (Hlabel t n eq_refl Hn Hspan) as ->. apply strip_suffix_Some in Hn.
        destruct (label_edited cs base t _ Hclosed Htokens Hn eq_refl) as (out & Hout & Hreads). exists out, [new +:+ ":"].
        split; [done|]. split; [done|]. cbn [classify_words]. by rewrite strip_suffix_app.
      * exists (concat_strings cs), [text t]. split; [apply edited_same|]. split; [|cbn [classify_words]; by rewrite Hn].
        exists cs. split; [done|]. destruct Hclosed as (Hcs & Hnc & Hend). split_and!; [done| |done|done].
        pose proof (line_chars_ok _ Hcs) as Hok. apply (f_equal (fmap text)) in Htokens.
        rewrite tokenize_words, chars_concat in Htokens by (try apply str_ok_chars; done). done.
    + apply (instruction_edited cs base t [] Hclosed Htokens). by intros _.
  - destruct (instruction_edited cs base t (u :: us) Hclosed Htokens) as (out & ws & H); [done|]. exists out, ws.
    destruct (strip_suffix ":" (text t)); exact H.
Qed.
End code.

(** ** A line in its document *)

Lemma line_chars_no_newline cs : Forall line_char cs → no_newline (concat_strings cs).
Proof. induction 1 as [|c cs [_ Hc] _ IH]; [constructor|]. rewrite concat_strings_cons. by apply no_newline_app. Qed.

Lemma text_reads_no_newline t ws : text_reads t ws → no_newline t.
Proof. intros (cs & -> & (Hcs & _)). by apply line_chars_no_newline. Qed.

(** The span of a declaration in a line carries the name of its symbol. *)
Definition names_symbol (symbol : Symbol) (line : ParsedLine) : Prop :=
  match pl_kind line with
  | LineLabel name => span name = sy_span symbol → text name = sy_name symbol
  | _ => True
  end.

Section document.
Variables (symbol : Symbol) (new : string).
Hypothesis name_ok : is_name (sy_name symbol).
Hypothesis new_ok : is_name new.
Set Default Proof Using "Type*".

Lemma piece_edited source i line ps1 ps2 p code comment e :
  LineParts source i line ps1 ps2 p code comment e → closed_line (line_text p) → names_symbol symbol line →
  ∃ q, edited (sy_name symbol) new (String.length (concat_strings ps1)) p (rename_spans symbol line) (q +:+ e)
    ∧ no_newline q ∧ str_ok q ∧ line_text (q +:+ e) = q
    ∧ read_line q = (renamed_kind symbol new (pl_kind line), (line_view source line).2).
Proof.
  intros [_ _ _ _ Hp Htext _ Hcut Hkind Hview Hcomment (Hok & Hokcode & Hokcomment & _) [Hncode Hncomment] Hending _] Hclosed Hnames.
  set (base := String.length (concat_strings ps1)) in *.
  unfold closed_line in Hclosed. rewrite Hcut in Hclosed.
  assert (closed_code (chars code)) as Hcc.
  { split; [by apply chars_line_char|split; [|exact Hclosed]]. pose proof (cut_never Outside (chars (line_text p))) as Hnc. by rewrite Hcut in Hnc. }
  destruct (kind_edited symbol new name_ok new_ok (chars code) base Hcc) as (out & ws & Hout & Hreads & Hws).
  { rewrite concat_chars. intros t n Ht Hn Hspan. unfold names_symbol in Hnames. rewrite Hkind, Ht in Hnames. cbn [classify_line] in Hnames.
    rewrite Hn in Hnames. by apply Hnames. }
  assert (edited (sy_name symbol) new base code (rename_spans symbol line) out) as Hcode.
  { rewrite concat_chars in Hout. unfold rename_spans in *. cbn [pl_kind] in Hout. by rewrite Hkind. }
  pose proof (edited_app _ _ _ _ _ _ comment [] comment Hcode (edited_same _ _ _ _)) as Htail. rewrite app_nil_r in Htail.
  rewrite concat_chars in Hws. rewrite <-Hkind in Hws. exists (out +:+ comment). split_and!.
  - rewrite Hp, string_app_assoc. rewrite <-(app_nil_r (rename_spans symbol line)).
    apply edited_app; [done|]. apply edited_same.
  - apply no_newline_app. split; [by eapply text_reads_no_newline|done].
  - pose proof (text_reads_str_ok _ _ Hreads). by apply str_ok_app.
  - apply Hending. right. rewrite Htext. destruct name_ok as [Hne _], new_ok as [Hne' _].
    split; apply (edited_ends (sy_name symbol) new _ base _ (rename_spans symbol line)); first [done|exact Htail|by apply name_ends].
  - rewrite Hview. cbn [snd]. rewrite <-Hws. destruct Hcomment as [->|[ks Hks]].
    + rewrite string_app_nil_r. by apply read_line_code.
    + rewrite Hks. assert (comment = concat_strings ("#" :: ks)) as Hc by (by rewrite <-Hks, concat_chars).
      cbn [comment_text]. rewrite Hc at 1. apply read_line_comment; [done|].
      assert (Forall char_ok (chars comment)) as Hall by (by apply line_chars_ok, chars_line_char). rewrite Hks in Hall. by apply Forall_cons in Hall as [_ ?].
Qed.

Definition renamed_view (source : string) (line : ParsedLine) : KindText * option string :=
  (renamed_kind symbol new (pl_kind line), (line_view source line).2).

Lemma shaped_suffix ps1 p ps2 : shaped (ps1 ++ p :: ps2) → shaped (p :: ps2).
Proof using Type.
  induction ps1 as [|p1 ps1 IH]; [done|]. cbn [app]. intros Hs. inversion Hs as [cur|l ps Hl Hps]; subst; [by destruct ps1|by apply IH].
Qed.

Lemma shaped_change p q ps qs : shaped (q :: ps) → (ps = [] ↔ qs = []) → (ps ≠ [] → shaped qs) → shaped (p :: ps) → shaped (q :: qs).
Proof using Type.
  intros Hs Hnil Hqs _. inversion Hs as [cur Hcur|l ps' Hl Hps]; subst.
  - rewrite (proj1 Hnil eq_refl). by constructor.
  - constructor; [done|]. apply Hqs. by intros ->; inversion Hps.
Qed.

Lemma pieces_edited source :
  text_ok source → quotes_closed source → Forall (names_symbol symbol) (parse_lines source) → ∀ ps2 ps1,
  pieces source = (ps1 ++ ps2)%list →
  let lines := parse_lines_from (Z.of_nat (length ps1)) (String.length (concat_strings ps1)) ps2 in
  ∃ qs, edited (sy_name symbol) new (String.length (concat_strings ps1)) (concat_strings ps2) (lines ≫= rename_spans symbol) (concat_strings qs)
    ∧ (ps2 = [] ↔ qs = []) ∧ (ps2 ≠ [] → shaped qs) ∧ Forall str_ok (line_text <$> qs)
    ∧ read_line <$> (line_text <$> qs) = renamed_view source <$> lines.
Proof.
  intros Hok Hclosed Hnames. induction ps2 as [|p ps2 IH]; intros ps1 Hpieces lines.
  { exists []. split_and!; try done. constructor. }
  assert (parse_lines source !! length ps1 = Some (parse_line (Z.of_nat (length ps1)) (String.length (concat_strings ps1)) p)) as Hline.
  { rewrite parse_lines_pieces, Hpieces, parse_lines_from_app, lookup_app_r, parse_lines_from_length, Nat.sub_diag by (by rewrite parse_lines_from_length). done. }
  destruct (line_parts _ _ _ Hok Hline) as (ps1' & ps2' & p' & code & comment & e & Hparts).
  pose proof (lp_pieces _ _ _ _ _ _ _ _ _ Hparts) as Hsplit. rewrite Hpieces in Hsplit. symmetry in Hsplit.
  pose proof (lp_index _ _ _ _ _ _ _ _ _ Hparts) as Hlen. apply app_inj_1 in Hsplit as [-> [= -> ->]]; [|done].
  destruct (piece_edited _ _ _ _ _ _ _ _ _ Hparts) as (q & Hq & Hqnl & Hqok & Hqt & Hqr).
  { unfold quotes_closed in Hclosed. rewrite Forall_forall in Hclosed. apply Hclosed. unfold line_texts. rewrite Hpieces, fmap_app, fmap_cons. set_solver. }
  { rewrite Forall_forall in Hnames. apply Hnames. by eapply list_elem_of_lookup_2. }
  destruct (IH (ps1 ++ [p])%list) as (qs & Hqs & Hnil & Hshape & Hoks & Hreads); [by rewrite <-app_assoc|].
  assert (parse_lines_from (Z.of_nat (length (ps1 ++ [p]))) (String.length (concat_strings (ps1 ++ [p])%list)) ps2
    = parse_lines_from (Z.of_nat (length ps1) + 1) (String.length (concat_strings ps1) + String.length p) ps2) as Hrest.
  { rewrite length_app, concat_strings_app, slength_app. cbn [concat_strings foldr length]. rewrite string_app_nil_r. f_equal. lia. }
  rewrite Hrest in *. exists ((q +:+ e) :: qs). subst lines. cbn [parse_lines_from]. split_and!; try done.
  - rewrite !concat_strings_cons, bind_cons. apply edited_app; [done|].
    rewrite concat_strings_app, slength_app in Hqs. cbn [concat_strings foldr] in Hqs. by rewrite string_app_nil_r in Hqs.
  - intros _. apply (shaped_change p _ ps2); [|done|done|].
    + eapply shaped_suffix. by apply (lp_shape _ _ _ _ _ _ _ _ _ Hparts).
    + apply (shaped_suffix ps1). rewrite <-Hpieces. apply pieces_shaped.
  - rewrite fmap_cons, Hqt. by constructor.
  - rewrite !fmap_cons, Hqt, Hqr, Hreads. done.
Qed.

Lemma source_edited source :
  text_ok source → quotes_closed source → Forall (names_symbol symbol) (parse_lines source) →
  ∃ out, edited (sy_name symbol) new 0 source (parse_lines source ≫= rename_spans symbol) out
    ∧ line_view out <$> parse_lines out = renamed_view source <$> parse_lines source.
Proof.
  intros Hok Hclosed Hnames. destruct (pieces_edited source Hok Hclosed Hnames (pieces source) [] eq_refl) as (qs & Hqs & Hnil & Hshape & Hoks & Hreads).
  cbn [length concat_strings foldr] in Hqs, Hreads. rewrite pieces_concat in Hqs. rewrite <-parse_lines_pieces in Hqs, Hreads.
  exists (concat_strings qs). split; [exact Hqs|]. rewrite <-Hreads.
  assert (line_texts (concat_strings qs) = line_text <$> qs) as Htexts.
  { unfold line_texts. rewrite pieces_of; [done|]. apply Hshape. intros Hp. pose proof (pieces_shaped source) as Hs. rewrite Hp in Hs. inversion Hs. }
  rewrite <-Htexts. apply parse_lines_views. unfold lines_ok. by rewrite Htexts.
Qed.
End document.

(** ** Where declarations stand *)

(** The tokens of a line that can name a symbol. *)
Definition carries (line : ParsedLine) (t : Token) : Prop :=
  match pl_kind line with
  | LineEmpty => False
  | LineLabel name => t = name
  | LineInstruction _ operands => t ∈ operands
  end.

Definition declared (lines : list ParsedLine) (symbols : Symbols) : Prop :=
  ∀ k s, bt_get k symbols = Some s →
    is_name (sy_name s) ∧ ∃ line t, line ∈ lines ∧ carries line t ∧ span t = sy_span s ∧ text t = sy_name s.

Lemma insert_declared lines s symbols ds line t :
  declared lines symbols → is_name (sy_name s) → line ∈ lines → carries line t → span t = sy_span s → text t = sy_name s →
  declared lines (insert_symbol s symbols ds).1.
Proof.
  intros Hd Hname Hline Ht Hspan Htext. unfold insert_symbol. destruct (bt_get (sy_name s) symbols); [done|]. intros k u Hu. cbn [fst] in Hu.
  destruct (decide (k = sy_name s)) as [->|Hne].
  - rewrite bt_get_insert_eq in Hu. injection Hu as <-. split; [done|]. by exists line, t.
  - rewrite bt_get_insert_ne in Hu by done. by apply (Hd k).
Qed.

Lemma declare_declared kb lines line st :
  line ∈ lines → declared lines st.1 →
  declared lines (match pl_kind line with
    | LineEmpty => st
    | LineLabel name => declare_label (pl_number line) name st
    | LineInstruction mnemonic operands => declare_instruction kb (pl_number line) mnemonic operands st
    end).1.
Proof.
  intros Hline Hd. destruct st as [symbols ds]. cbn [fst] in Hd. destruct (pl_kind line) as [|name|mnemonic operands] eqn:Hkind; [done| |].
  - unfold declare_label. destruct (Literals.is_identifier (text name)) eqn:Hi; [|done]. cbn [negb].
    apply (insert_declared lines _ _ _ line name); try done; [by apply identifier_name|]. unfold carries. by rewrite Hkind.
  - unfold declare_instruction. destruct (instruction kb (text mnemonic)) as [i|]; [|done].
    destruct (declared_kind (text mnemonic)) as [kind|]; [|by repeat case_match].
    destruct operands as [|name values]; [by repeat case_match|]. destruct (Literals.is_identifier (text name)) eqn:Hi; [|done]. cbn [negb].
    eapply (insert_declared lines _ _ _ line name); try done; [by apply identifier_name|]. unfold carries. rewrite Hkind. by left.
Qed.

Lemma collect_declared kb lines : declared lines (collect_declarations kb lines ([], [])).1.
Proof.
  assert (∀ ls st, (∀ l, l ∈ ls → l ∈ lines) → declared lines st.1 → declared lines (collect_declarations kb ls st).1) as Hall.
  { unfold collect_declarations. induction ls as [|l ls IH]; intros st Hin Hst; [done|]. simpl. apply IH; [set_solver|].
    apply declare_declared; [set_solver|done]. }
  apply Hall; [done|]. by intros k s.
Qed.

(** The text of a token is the text of the source at its span. *)
Lemma carried_slice source line t :
  text_ok source → line ∈ parse_lines source → carries line t → text t = slice (start (span t)) (stop (span t)) source.
Proof.
  intros Hok [i Hline]%list_elem_of_lookup Ht. destruct (line_parts _ _ _ Hok Hline) as (ps1 & ps2 & p & code & comment & e & Hparts).
  destruct Hparts as [_ _ Hsource _ Hp _ _ _ Hkind _ _ (_ & Hokcode & _) _ _ _].
  set (base := String.length (concat_strings ps1)) in *. destruct (tokenize_correct code base Hokcode) as [[Htokens _] _].
  assert (∀ u, u ∈ tokenize code base → ∃ a b, (a < b ≤ String.length code)%nat ∧ u = token_at code base a b) as Hu by (by apply Forall_forall).
  assert (∀ a b, (a ≤ b ≤ String.length code)%nat → slice a b code = slice (base + a) (base + b) source) as Hslice.
  { intros a b Hab. rewrite Hsource, Hp, string_app_assoc. unfold base. symmetry. by apply slice_inside. }
  assert (∀ u, u ∈ tokenize code base → text u = slice (start (span u)) (stop (span u)) source) as Htext.
  { intros u (a & b & Hab & ->)%Hu. apply Hslice. lia. }
  unfold carries in Ht. rewrite Hkind in Ht. destruct (tokenize code base) as [|u [|v vs]] eqn:Htk; cbn [classify_line] in Ht; [done| |].
  - destruct (strip_suffix ":" (text u)) as [n|] eqn:Hn; [|by apply elem_of_nil in Ht]. subst t. cbn [text span start stop].
    destruct (Hu u ltac:(by left)) as (a & b & Hab & ->). cbn [text span start stop token_at] in *. apply strip_suffix_Some in Hn.
    assert (String.length (slice a b code) = (b - a)%nat) as Hlen by (apply substring_length; lia).
    rewrite Hn, slength_app in Hlen. cbn [String.length] in Hlen.
    replace (pred (base + b))%nat with (base + pred b)%nat by lia. rewrite <-Hslice by lia.
    rewrite (slice_split a (pred b) b) in Hn by lia. apply (f_equal (String.substring 0 (String.length n))) in Hn.
    rewrite substring_0_app in Hn. rewrite <-Hn. replace (String.length n) with (String.length (slice a (pred b) code)); [apply substring_0_app|].
    unfold slice at 1. rewrite substring_length; lia.
  - apply Htext. by right.
Qed.

(** ** The occurrences of a name *)

Definition starts_before (a b : Span) : Prop := (start a ≤ start b)%nat.

Lemma sort_occurrences_spec l :
  sort_occurrences l ≡ₚ l ∧ StronglySorted (λ a b, starts_before (so_span a) (so_span b)) (sort_occurrences l).
Proof.
  split; [apply sort_by_permutation|]. apply @sort_by_sorted; unfold starts_before.
  - intros a b c. lia.
  - intros a b H%Nat.ltb_lt. lia.
  - intros a b H%Nat.ltb_ge. lia.
Qed.

Lemma strongly_sorted_filter {A} (R : A → A → Prop) (P : A → Prop) `{∀ x, Decision (P x)} l : StronglySorted R l → StronglySorted R (filter P l).
Proof.
  induction 1 as [|x l _ IH Hx]; [constructor|]. destruct (decide (P x)); [rewrite filter_cons_True by done|by rewrite filter_cons_False].
  constructor; [done|]. rewrite Forall_forall in Hx |- *. intros y [_ Hy]%list_elem_of_filter. by apply Hx.
Qed.

Lemma sorted_fmap {A B} (R : B → B → Prop) (f : A → B) l : StronglySorted (λ a b, R (f a) (f b)) l → StronglySorted R (f <$> l).
Proof. induction 1 as [|x l _ IH Hx]; [constructor|]. rewrite fmap_cons. constructor; [done|]. by apply Forall_fmap. Qed.

Lemma starts_NoDup l : StronglySorted (λ a b, start a < start b)%nat l → NoDup l.
Proof.
  induction 1 as [|x l _ IH Hx]; [constructor|]. constructor; [|done]. intros Hin. rewrite Forall_forall in Hx. specialize (Hx x Hin). lia.
Qed.

(** Spans in strict order are those of any sorted list with the same elements. *)
Lemma strict_order l1 l2 :
  StronglySorted starts_before l1 → StronglySorted (λ a b, start a < start b)%nat l2 → l1 ≡ₚ l2 → l1 = l2.
Proof.
  intros H1 H2 Hperm. eapply (StronglySorted_unique_strong starts_before); [|exact H1| |exact Hperm].
  - intros x y Hx Hy Hxy Hyx. rewrite Hperm in Hx. assert (start x = start y) as Heq by (unfold starts_before in *; lia). clear -H2 Hx Hy Heq.
    induction H2 as [|z l _ IH Hz]; [by apply elem_of_nil in Hx|]. rewrite Forall_forall in Hz.
    apply elem_of_cons in Hx as [->|Hx], Hy as [->|Hy]; [done|specialize (Hz y Hy); lia|specialize (Hz x Hx); lia|by apply IH].
  - clear -H2. induction H2 as [|z l _ IH Hz]; [constructor|]. constructor; [done|]. eapply Forall_impl; [exact Hz|]. unfold starts_before. intros y. lia.
Qed.

Section occurrences.
Variables (symbols : Symbols) (symbol : Symbol).
Hypothesis wf : symbols_wf symbols.
Hypothesis known : bt_get (sy_name symbol) symbols = Some symbol.
Set Default Proof Using "Type*".

Lemma declaration_occurrences :
  so_span <$> filter (λ o, so_name o = sy_name symbol) ((λ s, occurrence_of s (sy_span s) true) <$> bt_values symbols) = [sy_span symbol].
Proof.
  destruct wf as [Hsorted Hnames].
  assert (∀ m, bt_sorted m → (∀ k s, (k, s) ∈ m → sy_name s = k) →
    so_span <$> filter (λ o, so_name o = sy_name symbol) ((λ s, occurrence_of s (sy_span s) true) <$> bt_values m)
    = match bt_get (sy_name symbol) m with Some s => [sy_span s] | None => [] end) as Hall.
  { clear. induction m as [|[k s] m IH]; intros Hs Hn; [done|]. unfold bt_values in *. rewrite !fmap_cons.
    assert (sy_name s = k) as Hk by (apply Hn; left). apply StronglySorted_inv in Hs as [Hs Hlt]. cbn [snd bt_get].
    destruct (decide (k = sy_name symbol)) as [->|Hne].
    - rewrite filter_cons_True by done. rewrite fmap_cons, IH, rcmp_refl by first [done|intros; apply Hn; by right].
      destruct (bt_get (sy_name symbol) m) as [u|] eqn:Hu; [|done]. exfalso. apply bt_get_elem in Hu.
      rewrite Forall_forall in Hlt. specialize (Hlt _ Hu). unfold bt_lt in Hlt. cbn [fst] in Hlt. by rewrite rcmp_refl in Hlt.
    - rewrite filter_cons_False by (cbn [so_name occurrence_of]; congruence). rewrite IH by first [done|intros; apply Hn; by right].
      destruct (rcmp (sy_name symbol) k) eqn:E; [apply rcmp_eq in E; congruence| |done].
      destruct (bt_get (sy_name symbol) m) as [u|] eqn:Hu; [|done]. exfalso. apply bt_get_elem in Hu.
      rewrite Forall_forall in Hlt. specialize (Hlt _ Hu). unfold bt_lt in Hlt. cbn [fst] in Hlt. by rewrite (rcmp_antisym k), Hlt in E. }
  rewrite Hall; [by rewrite known|done|]. intros k s Hin. apply Hnames. by apply bt_elem_get.
Qed.

(** The uses of a name in a line are the places to rename without the declaration. *)
Lemma use_occurrences lines :
  Forall (names_symbol symbol) lines →
  so_span <$> filter (λ o, so_name o = sy_name symbol)
    (lines ≫= λ line, match pl_kind line with LineInstruction _ operands => omap (operand_occurrence symbols) operands | _ => [] end)
  = filter (λ sp, sp ≠ sy_span symbol) (lines ≫= rename_spans symbol).
Proof.
  intros Hnames. induction Hnames as [|line lines Hline _ IH]; [done|]. rewrite !bind_cons, !filter_app, fmap_app, IH. f_equal. clear IH.
  unfold rename_spans. destruct (pl_kind line) as [|name|mnemonic operands]; [done| |].
  - case_bool_decide as Hspan; [|done]. cbn [fmap list_fmap]. by rewrite filter_cons_False by (rewrite Hspan; by intros H).
  - induction operands as [|t ts IH]; [done|]. cbn [omap list_omap]. unfold operand_occurrence at 1. destruct wf as [_ Hwf].
    destruct (decide (text t = sy_name symbol)) as [Ht|Ht].
    + rewrite (filter_cons_True (λ t, text t = sy_name symbol)) by done. rewrite Ht, known, fmap_cons. cbn [mbind option_bind].
      case_bool_decide as Hspan.
      * rewrite filter_cons_False by tauto. exact IH.
      * rewrite filter_cons_True by done. rewrite filter_cons_True by done. rewrite fmap_cons. by f_equal.
    + rewrite (filter_cons_False (λ t, text t = sy_name symbol)) by done. destruct (bt_get (text t) symbols) as [s|] eqn:Hs; [|exact IH].
      cbn [mbind option_bind]. case_bool_decide; [exact IH|]. rewrite filter_cons_False; [exact IH|]. simpl. by rewrite (Hwf _ _ Hs).
Qed.
End occurrences.

Lemma parse_occurrences source kb options :
  do_occurrences (parse_with_options source kb options)
  = collect_occurrences (parse_lines source) (do_symbols (parse_with_options source kb options)).
Proof. unfold parse_with_options. by destruct (collect_declarations _ _ _). Qed.

Lemma symbol_named source kb options symbol :
  let document := parse_with_options source kb options in
  text_ok source → document_symbol document (sy_name symbol) = Some symbol →
  Forall (names_symbol symbol) (parse_lines source) ∧ is_name (sy_name symbol) ∧ sy_span symbol ∈ parse_lines source ≫= rename_spans symbol.
Proof.
  intros document Hok Hsymbol. unfold document_symbol, document in Hsymbol. rewrite parse_symbols in Hsymbol.
  destruct (collect_declared kb (parse_lines source) _ _ Hsymbol) as (Hname & line & t & Hline & Ht & Hspan & Htext).
  pose proof (carried_slice source line t Hok Hline Ht) as Hslice. split_and!; [|done|].
  - apply Forall_forall. intros l Hl. unfold names_symbol. destruct (pl_kind l) as [|n|] eqn:Hn; [done| |done]. intros Heq.
    rewrite <-Htext, Hslice, Hspan, <-Heq. apply (carried_slice source l); [done|done|]. unfold carries. by rewrite Hn.
  - apply list_elem_of_bind. exists line. split; [|done]. unfold carries in Ht. unfold rename_spans. destruct (pl_kind line); [done|subst t|].
    + rewrite bool_decide_eq_true_2 by done. rewrite Hspan. by left.
    + rewrite <-Hspan. apply list_elem_of_fmap. exists t. split; [done|]. by apply list_elem_of_filter.
Qed.

Lemma occurrence_spans source kb options symbol :
  let document := parse_with_options source kb options in
  text_ok source → document_symbol document (sy_name symbol) = Some symbol →
  StronglySorted (λ a b, start a < start b)%nat (parse_lines source ≫= rename_spans symbol) →
  so_span <$> occurrences_for document (sy_name symbol) = parse_lines source ≫= rename_spans symbol.
Proof.
  intros document Hok Hsymbol Hstrict. destruct (symbol_named source kb options symbol Hok Hsymbol) as (Hnames & _ & Hin).
  pose proof (parse_symbols_wf source kb options) as Hwf. fold document in Hwf.
  apply strict_order; [|done|]; unfold occurrences_for, document; rewrite parse_occurrences; fold document; unfold collect_occurrences;
    destruct (sort_occurrences_spec (((λ symbol, occurrence_of symbol (sy_span symbol) true) <$> bt_values (do_symbols document))
      ++ (parse_lines source ≫= λ line, match pl_kind line with
           | LineInstruction _ operands => omap (operand_occurrence (do_symbols document)) operands
           | _ => []
           end))%list) as [Hperm Hsorted].
  - apply sorted_fmap, strongly_sorted_filter. exact Hsorted.
  - rewrite Hperm, filter_app, fmap_app, (declaration_occurrences _ _ Hwf Hsymbol), (use_occurrences _ _ Hwf Hsymbol) by done.
    cbn [app]. apply NoDup_Permutation.
    + constructor; [by intros [? _]%list_elem_of_filter|]. apply NoDup_filter. by eapply starts_NoDup.
    + by eapply starts_NoDup.
    + intros sp. rewrite elem_of_cons, list_elem_of_filter. destruct (decide (sp = sy_span symbol)) as [->|]; tauto.
Qed.

(** ** Renaming a symbol *)

Lemma edited_places name new base s sps out :
  edited name new base s sps out →
  Forall (λ sp, ∃ a c, s = a +:+ (name +:+ c) ∧ start sp = (base + String.length a)%nat ∧ stop sp = (start sp + String.length name)%nat) sps.
Proof.
  induction 1 as [base|base x s sps out _ IH|base s sps out _ IH]; [constructor| |constructor].
  - eapply Forall_impl; [exact IH|]. intros sp (a & c & -> & Hstart & Hstop). exists (String x a), c. split; [done|]. simpl. lia.
  - exists "", s. simpl. split; [done|]. split; [lia|done].
  - eapply Forall_impl; [exact IH|]. intros sp (a & c & -> & Hstart & Hstop). exists (name +:+ a), c. rewrite string_app_assoc, slength_app. split; [done|]. lia.
Qed.

(** A name ends between two characters. *)
Lemma text_ok_after_name a v b : text_ok (a +:+ (v +:+ b)) → is_name v → str_ok (v +:+ b) ∧ str_ok b.
Proof.
  intros [_ H%follows_ok_suffix] [Hne Hv].
  assert (∀ x, name_byte (byte_of x) = true → byte_of x < 128 ∧ is_continuation x = false) as Hname.
  { clear. intros x Hx. assert (implb (name_byte (byte_of x)) ((byte_of x <? 128) && negb (is_continuation x)) = true) as H
      by (revert x Hx; intros [[] [] [] [] [] [] [] []] _; vm_compute; reflexivity).
    rewrite Hx in H. cbn [implb] in H. apply andb_prop in H as [H1%Z.ltb_lt H2%negb_true_iff]. done. }
  split; [destruct v as [|x v]; [done|]; apply Forall_cons in Hv as [Hx _]; by apply Hname in Hx as [_ ?]|].
  induction v as [|x v IH]; [done|]. apply Forall_cons in Hv as [Hx Hv]. apply Hname in Hx as [Hx _].
  destruct v as [|y v]; [|destruct H as [_ H]; by apply IH]. cbn [String.append] in H. destruct b as [|y b]; [done|].
  destruct H as [H _]. by apply H.
Qed.

Lemma rename_edits source new occurrences :
  Forall (λ sp, ∃ range, span_to_range source sp = Ok range ∧ position_to_offset source (ra_start range) = start sp
    ∧ position_to_offset source (ra_end range) = stop sp) (so_span <$> occurrences) →
  ∃ edits, map_outcome (λ o, range ← span_to_range source (so_span o); @Ok message _ {| te_range := range; te_new_text := new |}) occurrences = Ok edits
    ∧ edit_offsets source <$> edits = replacements new (so_span <$> occurrences).
Proof.
  induction occurrences as [|o os IH]; [by exists []|]. rewrite fmap_cons. intros [(range & Hr & Hstart & Hstop) Hos]%Forall_cons.
  destruct (IH Hos) as (edits & Hm & Hoffsets). eexists. cbn [map_outcome]. rewrite Hr. cbn [mbind outcome_mbind outcome_bind].
  rewrite Hm. split; [done|]. rewrite fmap_cons, Hoffsets. unfold edit_offsets at 1. cbn [te_range te_new_text]. by rewrite Hstart, Hstop.
Qed.

(** C33.  A rename keeps the program.  When the cursor is on a symbol and the new name
    is an identifier that no other symbol has, the rename is a list of edits that do not
    overlap; applied, they give a text whose lines are read as before, comments
    included, with the new name where the old one stands for the symbol -- its
    declaration and the operands that are exactly the name -- and nothing else changed. *)
Theorem rename_keeps_program (source : string) (kb : KnowledgeBase) (options : AnalysisOptions) (offset : nat) (t : Token) (symbol : Symbol)
    (new : string) :
  let document := parse_with_options source kb options in
  text_ok source → text_small source → quotes_closed source →
  rename_target document offset = Some (t, symbol) →
  is_identifier new = true → new = sy_name symbol ∨ document_symbol document new = None →
  ∃ edits, rename_symbol_edits document offset new = Ok (Some edits)
    ∧ ordered 0 (edit_offsets source <$> edits)
    ∧ line_view (apply_edits source edits) <$> parse_lines (apply_edits source edits)
      = (λ line, (renamed_kind symbol new (pl_kind line), (line_view source line).2)) <$> do_lines document.
Proof.
  intros document Hok Hsmall Hclosed Htarget Hid Hfree.
  assert (do_lines document = parse_lines source ∧ do_source document = source) as [Hlines Hsource].
  { unfold document, parse_with_options. by destruct (collect_declarations _ _ _). }
  assert (document_symbol document (sy_name symbol) = Some symbol) as Hsymbol.
  { unfold rename_target in Htarget. destruct (token_at_offset document offset); [|done]. cbn [mbind option_bind] in Htarget.
    destruct (symbol_occurrence_at_offset document offset) as [o|]; [|done]. cbn [mbind option_bind] in Htarget.
    destruct (document_symbol document (so_name o)) as [s|] eqn:Hs; [|done]. cbn [mbind option_bind] in Htarget. injection Htarget as -> ->.
    destruct (parse_symbols_wf source kb options) as [_ Hwf]. by rewrite (Hwf _ _ Hs). }
  destruct (symbol_named source kb options symbol Hok Hsymbol) as (Hnames & Hname & _).
  destruct (source_edited symbol new Hname (editor_identifier_name _ Hid) source Hok Hclosed Hnames) as (out & Hout & Hview).
  pose proof (edited_increasing _ _ _ _ _ _ (proj1 Hname) Hout) as Hstrict.
  pose proof (occurrence_spans source kb options symbol Hok Hsymbol Hstrict) as Hspans. fold document in Hspans.
  destruct (rename_edits source new (occurrences_for document (sy_name symbol))) as (edits & Hedits & Hoffsets).
  { rewrite Hspans. eapply Forall_impl; [exact (edited_places _ _ _ _ _ _ Hout)|]. intros sp (a & c & Hs & Hstart & Hstop).
    rewrite Hs in Hok, Hsmall |- *. destruct (text_ok_after_name _ _ _ Hok Hname) as [Hbc Hc].
    destruct (span_range a (sy_name symbol) c sp Hok Hsmall Hbc Hc) as (range & Hrange & H1 & H2); [done|lia|].
    exists range. split; [done|]. rewrite H1, H2. lia. }
  exists edits. destruct (edited_splice _ _ _ _ _ Hout) as [Hsplice Hordered]. rewrite Hspans in Hoffsets.
  unfold apply_edits. rewrite Hoffsets, Hsplice, Hlines. split_and!; [|done|exact Hview].
  unfold rename_symbol_edits. rewrite Htarget, Hid, Hsource, Hedits. cbn [negb mbind outcome_mbind outcome_bind].
  destruct (String.eqb_spec new (sy_name symbol)) as [|Hne]; [done|]. destruct Hfree as [|Hfree]; [done|by rewrite Hfree].
Qed.

(** The alias of a device: its declaration and its use are renamed, the comment is not. *)
Lemma rename_keeps_program_witness :
  let source := "alias pump d0" +:+ NEWLINE +:+ "s pump On 1 # pump" +:+ NEWLINE in
  let document := parse_with_options source Analysis.sample_kb default_options in
  ∃ edits, rename_symbol_edits document 17 "gate" = Ok (Some edits)
    ∧ apply_edits source edits = "alias gate d0" +:+ NEWLINE +:+ "s gate On 1 # pump" +:+ NEWLINE
    ∧ line_view (apply_edits source edits) <$> parse_lines (apply_edits source edits)
      = [(KindInstruction "alias" ["gate"; "d0"], None); (KindInstruction "s" ["gate"; "On"; "1"], Some "# pump"); (KindEmpty, None)].
Proof.
  intros source document. assert (text_ok source) as Hok by (vm_compute; by repeat split).
  assert (text_small source) as Hsmall by (split; vm_compute; done).
  assert (quotes_closed source) as Hclosed by (unfold quotes_closed; repeat constructor).
  destruct (rename_target document 17) as [[t symbol]|] eqn:Htarget; [|by vm_compute in Htarget].
  destruct (rename_keeps_program source Analysis.sample_kb default_options 17 t symbol "gate" Hok Hsmall Hclosed Htarget eq_refl) as (edits & Hrun & _ & Hview).
  { right. vm_compute. reflexivity. }
  exists edits. split; [exact Hrun|]. vm_compute in Hrun. injection Hrun as <-. split; vm_compute; reflexivity.
Defined.
