(* ===== verification/Proposal.v ===== *)
(** * The environment a program asks for

    [crates/ic10-lsp/src/environment_proposal.rs]: what the instructions of a program
    demand of the devices behind its pins, of the devices of a batch and of its housing,
    and the prefabs of the game that meet the demands.  The last segment of the path of
    the URI is an argument; so is the upper case of a character ([UnicodeCase]), which
    only reaches a display name. *)

From S2P Require Import Prelude BTree Text F64 Knowledge Literals Syntax Analysis Editor.
Local Open Scope string_scope.
Local Open Scope Z_scope.

(** ** Data *)

(** Source: [crates/ic10-lsp/src/environment_proposal.rs] [FieldRequirement] *)
Record FieldRequirement := { fr_name : string; fr_read : bool; fr_write : bool }.

(** A confidence is one of the constants of the program, in hundredths.
    Source: [crates/ic10-lsp/src/environment_proposal.rs] [PrefabCandidate] *)
Record PrefabCandidate := {
  pc_prefab_name : string;
  pc_prefab_hash : Z;
  pc_display_name : string;
  pc_confidence : Z;
  pc_reason : string;
}.

(** Source: [crates/ic10-lsp/src/environment_proposal.rs] [SourceEvidence] *)
Record SourceEvidence := {
  se_line : Z;
  se_start_character : Z;
  se_end_character : Z;
  se_text : string;
}.

(** Source: [crates/ic10-lsp/src/environment_proposal.rs] [UnresolvedAssumption] *)
Record UnresolvedAssumption := {
  ua_code : string;
  ua_message : string;
  ua_reference : option string;
  ua_evidence : option SourceEvidence;
}.

(** Source: [crates/ic10-lsp/src/environment_proposal.rs] [HousingProposal] *)
Record HousingProposal := {
  hp_suggested_id : string;
  hp_suggested_name : string;
  hp_program_uri : string;
  hp_prefab : PrefabCandidate;
  hp_required_fields : list FieldRequirement;
  hp_channels : list Z;
}.

(** Source: [crates/ic10-lsp/src/environment_proposal.rs] [DeviceProposal] *)
Record DeviceProposal := {
  dp_reference : string;
  dp_aliases : list string;
  dp_suggested_id : string;
  dp_pin : option Z;
  dp_candidates : list PrefabCandidate;
  dp_required_fields : list FieldRequirement;
  dp_required_slot_fields : list string;
  dp_requires_memory : bool;
  dp_confidence : Z;
  dp_reasons : list string;
  dp_evidence : list SourceEvidence;
}.

(** Source: [crates/ic10-lsp/src/environment_proposal.rs] [BatchGroupProposal] *)
Record BatchGroupProposal := {
  bp_prefab_hash_expression : string;
  bp_name_hash_expression : option string;
  bp_suggested_name : option string;
  bp_candidates : list PrefabCandidate;
  bp_required_fields : list FieldRequirement;
  bp_confidence : Z;
  bp_reasons : list string;
  bp_evidence : list SourceEvidence;
}.

(** Source: [crates/ic10-lsp/src/environment_proposal.rs] [NetworkProposal] *)
Record NetworkProposal := {
  np_suggested_id : string;
  np_kind : string;
  np_cable_role : option string;
  np_participants : list string;
  np_channels : list Z;
  np_reason : string;
}.

(** Source: [crates/ic10-lsp/src/environment_proposal.rs] [EnvironmentProposal] *)
Record EnvironmentProposal := {
  ep_schema_version : Z;
  ep_source_uri : string;
  ep_preview_only : bool;
  ep_housing : HousingProposal;
  ep_devices : list DeviceProposal;
  ep_batch_groups : list BatchGroupProposal;
  ep_networks : list NetworkProposal;
  ep_unresolved : list UnresolvedAssumption;
}.

(** [BTreeSet] *)
Abbreviation BTreeSet K := (BTreeMap K ()).

(** The rights asked of each field: to read and to write. *)
Abbreviation Fields := (BTreeMap string (bool * bool)).

(** Source: [crates/ic10-lsp/src/environment_proposal.rs] [Requirement] *)
Record Requirement := {
  rq_aliases : BTreeSet string;
  rq_pin : option Z;
  rq_fields : Fields;
  rq_slot_fields : BTreeSet string;
  rq_memory : bool;
  rq_evidence : list SourceEvidence;
  rq_reasons : BTreeSet string;
}.

(** [Requirement::default()] *)
Definition no_requirement : Requirement :=
  {| rq_aliases := []; rq_pin := None; rq_fields := []; rq_slot_fields := []; rq_memory := false; rq_evidence := []; rq_reasons := [] |}.

(** Source: [crates/ic10-lsp/src/environment_proposal.rs] [BatchRequirement] *)
Record BatchRequirement := {
  br_name_hash : option string;
  br_fields : Fields;
  br_evidence : list SourceEvidence;
}.

(** [BatchRequirement::default()] *)
Definition no_batch : BatchRequirement := {| br_name_hash := None; br_fields := []; br_evidence := [] |}.

(** What the loop over the lines collects. *)
Record Observed := {
  ob_references : BTreeMap string Requirement;
  ob_batches : BTreeMap string BatchRequirement;
  ob_unresolved : list UnresolvedAssumption;
  ob_housing_fields : Fields;
  ob_channels : BTreeSet Z;
}.

(** ** Names and values *)

(** Source: [crates/ic10-lsp/src/environment_proposal.rs] [device_aliases] *)
Definition device_aliases (document : Document) : BTreeMap string string :=
  bt_collect (omap (λ symbol,
    match sy_kind symbol with SymAlias => (λ value, (sy_name symbol, value)) <$> sy_value symbol | _ => None end)
    (bt_values (do_symbols document))).

Fixpoint follow_aliases (n : nat) (aliases : BTreeMap string string) (current : string) : string :=
  match n with
  | O => current
  | S n => match bt_get current aliases with Some next => follow_aliases n aliases next | None => current end
  end.

(** The loop follows at most 16 aliases.
    Source: [crates/ic10-lsp/src/environment_proposal.rs] [resolve_alias] *)
Definition resolve_alias (value : string) (aliases : BTreeMap string string) : string := follow_aliases 16 aliases value.

(** The value of a define, or the text itself. *)
Definition defined_value (value : string) (document : Document) : string :=
  match document_symbol document value with
  | Some symbol => match sy_kind symbol with SymDefine => default value (sy_value symbol) | _ => value end
  | None => value
  end.

(** Source: [crates/ic10-lsp/src/environment_proposal.rs] [resolve_value] *)
Definition resolve_value (value : string) (document : Document) : option Z :=
  let value := defined_value value document in
  let numeric :=
    value ← parse_numeric_literal value;
    if f_is_finite value then in_range I32_MIN I32_MAX (Some (to_i64 value)) else None in
  match parse_literal_macro value with
  | Some literal =>
      match lm_kind literal with MacroHash => Some (wrap_i 32 (stationeers_crc32 (lm_value literal))) | MacroString => numeric end
  | None => numeric
  end.

(** Source: [crates/ic10-lsp/src/environment_proposal.rs] [resolve_hash_name] *)
Definition resolve_hash_name (value : string) (document : Document) : option string :=
  literal ← parse_literal_macro (defined_value value document);
  match lm_kind literal with MacroHash => Some (lm_value literal) | MacroString => None end.

(** Source: [crates/ic10-lsp/src/environment_proposal.rs] [direct_pin] *)
Definition direct_pin (value : string) : option Z :=
  rest ← strip_prefix "d" value;
  pin ← parse_u8 rest;
  if pin <? 6 then Some pin else None.

(** The two characters outside ASCII whose lower case has an ASCII letter. *)
Definition KELVIN_SIGN : string := of_bytes [226; 132; 170].
Definition DOTTED_I : string := of_bytes [196; 176].

(** A character of an id: lower case, a dash for what is not ASCII alphanumeric. *)
Definition id_char (c : string) : string :=
  match c with
  | String a "" => if is_ascii_alphanumeric (byte_of a) then String (ascii_lower a) "" else "-"
  | _ => if String.eqb c KELVIN_SIGN then "k" else if String.eqb c DOTTED_I then "i-" else "-"
  end.

Definition non_empty (part : string) : bool := negb (String.eqb part "").

(** Source: [crates/ic10-lsp/src/environment_proposal.rs] [safe_id] *)
Definition safe_id (value : string) : string :=
  let id := concat_strings (id_char <$> chars value) in
  let normalized := join "-" (filter (λ part, non_empty part = true) (split_char (byte 45) id)) in
  if String.eqb normalized "" then "controller" else normalized.

(** [char::to_uppercase], collected *)
Class UnicodeCase := { to_uppercase : string → string }.

(** Source: [crates/ic10-lsp/src/environment_proposal.rs] [title] *)
Definition title `{UnicodeCase} (value : string) : string :=
  join " " ((λ part, match chars part with first :: rest => to_uppercase first +:+ concat_strings rest | [] => "" end)
    <$> filter (λ part, non_empty part = true) (split_char (byte 45) value ≫= split_char (byte 95))).

(** ** Demands *)

(** Source: [crates/ic10-lsp/src/environment_proposal.rs] [add_field] *)
Definition add_field (fields : Fields) (name : string) (read write : bool) : Fields :=
  match bt_get name fields with
  | Some (r, w) => bt_insert name (r || read, w || write) fields
  | None => bt_insert name (read, write) fields
  end.

(** Source: [crates/ic10-lsp/src/environment_proposal.rs] [fields] *)
Definition fields (l : Fields) : list FieldRequirement := (λ '(name, (read, write)), {| fr_name := name; fr_read := read; fr_write := write |}) <$> l.

(** A slice that does not begin and end between characters panics. *)
Definition str_slice (first last : nat) (s : string) : outcome message string :=
  if (first <=? last)%nat && is_char_boundary s first && is_char_boundary s last then Ok (slice first last s) else Panic.

(** Source: [crates/ic10-lsp/src/environment_proposal.rs] [evidence] *)
Definition evidence (source : string) (line : Z) (sp : Span) : outcome message SourceEvidence :=
  before ← str_slice 0 (Nat.min (start sp) (String.length source)) source;
  let line_start := match rfind_newline before with Some index => S index | None => O end in
  first ← str_slice line_start (start sp) source;
  last ← str_slice line_start (stop sp) source;
  text ← str_slice (start sp) (stop sp) source;
  Ok {| se_line := line; se_start_character := utf16_count first; se_end_character := utf16_count last; se_text := text |}.

(** [map.entry(key).or_default()], and what is done with it *)
Definition entry_or {K V} `{RustOrd K} (d : V) (key : K) (f : V → V) (m : BTreeMap K V) : BTreeMap K V :=
  bt_insert key (f (default d (bt_get key m))) m.

(** The operand of an instruction under an index that the table may not have. *)
Definition operand_at (operands : list Token) (index : option nat) : option Token := index ≫= λ i, operands !! i.

Definition device_operand (instruction : Instruction) : option nat :=
  position (λ operand, String.eqb (od_label operand) "device") (in_operands instruction).
Definition logic_operand (instruction : Instruction) : option nat :=
  position (λ operand, String.eqb (od_operand_type operand) "logicType" || String.eqb (od_operand_type operand) "logicSlotType")
    (in_operands instruction).
Definition slot_access (instruction : Instruction) : bool :=
  existsb (λ operand, String.eqb (od_operand_type operand) "slotIndex") (in_operands instruction).
Definition memory_access (instruction : Instruction) : bool :=
  String.eqb (in_category instruction) "memory" && is_some (device_operand instruction).
Definition is_write (mnemonic : string) : bool := starts_with "s" mnemonic || starts_with "put" mnemonic.

(** What an instruction asks of the device behind a pin.
    Source: [crates/ic10-lsp/src/environment_proposal.rs] [propose_environment] lines 194-211 *)
Definition require_access (pin : option Z) (mnemonic : string) (instruction : Instruction) (operands : list Token)
    (evidence : SourceEvidence) (requirement : Requirement) : Requirement :=
  let logic := text <$> operand_at operands (logic_operand instruction) in
  {| rq_aliases := rq_aliases requirement;
     rq_pin := pin;
     rq_fields := match logic with
                  | Some field => if slot_access instruction then rq_fields requirement
                                  else add_field (rq_fields requirement) field (negb (is_write mnemonic)) (is_write mnemonic)
                  | None => rq_fields requirement
                  end;
     rq_slot_fields := match logic with
                       | Some field => if slot_access instruction then bt_insert field () (rq_slot_fields requirement) else rq_slot_fields requirement
                       | None => rq_slot_fields requirement
                       end;
     rq_memory := rq_memory requirement || memory_access instruction;
     rq_evidence := (rq_evidence requirement ++ [evidence])%list;
     rq_reasons := if memory_access instruction then bt_insert "Program accesses device memory." () (rq_reasons requirement)
                   else rq_reasons requirement |}.

(** What an instruction asks of its device operand.
    Source: [crates/ic10-lsp/src/environment_proposal.rs] [propose_environment] lines 155-223 *)
Definition observe_device (aliases : BTreeMap string string) (mnemonic : string) (instruction : Instruction) (operands : list Token)
    (evidence : SourceEvidence) (st : Observed) : Observed :=
  match operand_at operands (device_operand instruction) with
  | None => st
  | Some token =>
      let resolved := resolve_alias (text token) aliases in
      if starts_with "db" resolved then
        match text <$> operand_at operands (logic_operand instruction) with
        | Some logic =>
            match strip_prefix "Channel" logic ≫= parse_u8 with
            | Some channel =>
                {| ob_references := ob_references st; ob_batches := ob_batches st; ob_unresolved := ob_unresolved st;
                   ob_housing_fields := ob_housing_fields st; ob_channels := bt_insert channel () (ob_channels st) |}
            | None =>
                {| ob_references := ob_references st; ob_batches := ob_batches st; ob_unresolved := ob_unresolved st;
                   ob_housing_fields := add_field (ob_housing_fields st) logic (negb (is_write mnemonic)) (is_write mnemonic);
                   ob_channels := ob_channels st |}
            end
        | None => st
        end
      else
        match direct_pin resolved with
        | Some pin =>
            {| ob_references := entry_or no_requirement resolved (require_access (Some pin) mnemonic instruction operands evidence) (ob_references st);
               ob_batches := ob_batches st; ob_unresolved := ob_unresolved st;
               ob_housing_fields := ob_housing_fields st; ob_channels := ob_channels st |}
        | None =>
            {| ob_references := ob_references st; ob_batches := ob_batches st;
               ob_unresolved := (ob_unresolved st ++
                 [{| ua_code := "dynamic-device-reference";
                     ua_message := "`" +:+ text token +:+ "` resolves at runtime; a concrete device cannot be proposed safely.";
                     ua_reference := Some (text token); ua_evidence := Some evidence |}])%list;
               ob_housing_fields := ob_housing_fields st; ob_channels := ob_channels st |}
        end
  end.

(** What an instruction asks of the devices of its batch.
    Source: [crates/ic10-lsp/src/environment_proposal.rs] [propose_environment] lines 225-246 *)
Definition observe_batch (mnemonic : string) (instruction : Instruction) (operands : list Token) (evidence : SourceEvidence) (st : Observed) : Observed :=
  match operand_at operands (position (λ operand, String.eqb (od_operand_type operand) "deviceHash") (in_operands instruction)) with
  | None => st
  | Some hash =>
      let group (b : BatchRequirement) :=
        {| br_name_hash :=
             match position (λ operand, String.eqb (od_operand_type operand) "nameHash") (in_operands instruction) with
             | Some name_index => text <$> operands !! name_index
             | None => br_name_hash b
             end;
           br_fields :=
             match operand_at operands (logic_operand instruction) with
             | Some logic => add_field (br_fields b) (text logic) (negb (is_write mnemonic)) (is_write mnemonic)
             | None => br_fields b
             end;
           br_evidence := (br_evidence b ++ [evidence])%list |} in
      {| ob_references := ob_references st; ob_batches := entry_or no_batch (text hash) group (ob_batches st); ob_unresolved := ob_unresolved st;
         ob_housing_fields := ob_housing_fields st; ob_channels := ob_channels st |}
  end.

(** Source: [crates/ic10-lsp/src/environment_proposal.rs] [propose_environment] lines 152-247 *)
Definition observe_line (kb : KnowledgeBase) (document : Document) (aliases : BTreeMap string string) (st : Observed) (line : ParsedLine) :
    outcome message Observed :=
  match pl_kind line with
  | LineInstruction mnemonic operands =>
      match Knowledge.instruction kb (text mnemonic) with
      | Some instruction =>
          evidence ← evidence (do_source document) (pl_number line) (pl_code_span line);
          Ok (observe_batch (text mnemonic) instruction operands evidence (observe_device aliases (text mnemonic) instruction operands evidence st))
      | None => Ok st
      end
  | _ => Ok st
  end.

(** The pin an alias binds.
    Source: [crates/ic10-lsp/src/environment_proposal.rs] [propose_environment] lines 141-150 *)
Definition bind_alias (references : BTreeMap string Requirement) (entry : string * string) : BTreeMap string Requirement :=
  let '(alias, target) := entry in
  match direct_pin target with
  | Some pin =>
      entry_or no_requirement target (λ requirement,
        {| rq_aliases := bt_insert alias () (rq_aliases requirement); rq_pin := Some pin; rq_fields := rq_fields requirement;
           rq_slot_fields := rq_slot_fields requirement; rq_memory := rq_memory requirement; rq_evidence := rq_evidence requirement;
           rq_reasons := bt_insert ("Alias `" +:+ alias +:+ "` binds `" +:+ target +:+ "`.") () (rq_reasons requirement) |}) references
  | None => references
  end.

(** Source: [crates/ic10-lsp/src/environment_proposal.rs] [propose_environment] lines 129-152 *)
Definition observe (kb : KnowledgeBase) (document : Document) : outcome message Observed :=
  let aliases := device_aliases document in
  fold_outcome (observe_line kb document aliases)
    {| ob_references := foldl bind_alias [] aliases; ob_batches := []; ob_unresolved := []; ob_housing_fields := []; ob_channels := [] |}
    (do_lines document).

(** ** Candidates *)

(** Source: [crates/ic10-lsp/src/environment_proposal.rs] [exact_candidate] *)
Definition exact_candidate (device : DeviceData) (reason : string) : PrefabCandidate :=
  {| pc_prefab_name := dd_prefab_name device; pc_prefab_hash := dd_prefab_hash device; pc_display_name := dd_display_name device;
     pc_confidence := 100; pc_reason := reason |}.

(** Whether a device has what is demanded.
    Source: [crates/ic10-lsp/src/environment_proposal.rs] [compatible_devices] lines 509-522 *)
Definition compatible (required_fields : Fields) (slot_fields : BTreeSet string) (memory : bool) (device : DeviceData) : bool :=
  (negb memory || is_some (dd_memory device))
  && forallb (λ '(field, (read, write)),
       match bt_get field (dd_logic_types device) with
       | Some access => (negb read || ac_read access) && (negb write || ac_write access)
       | None => false
       end) required_fields
  && forallb (λ '(field, _), existsb (λ slot, bt_contains_key field (ds_logic_types slot)) (bt_values (dd_slots device))) slot_fields.

Definition name_before (left right : string) : bool := match rcmp left right with Lt => true | _ => false end.

(** Source: [crates/ic10-lsp/src/environment_proposal.rs] [compatible_devices] *)
Definition compatible_devices (required_fields : Fields) (slot_fields : BTreeSet string) (memory : bool) (kb : KnowledgeBase) : list PrefabCandidate :=
  let devices := sort_by (λ left right, name_before (dd_prefab_name left) (dd_prefab_name right))
    (filter (λ device, compatible required_fields slot_fields memory device = true) (all_devices kb)) in
  let confidence := if (length devices =? 1)%nat then 90 else 55 in
  (λ device,
    {| pc_prefab_name := dd_prefab_name device; pc_prefab_hash := dd_prefab_hash device; pc_display_name := dd_display_name device;
       pc_confidence := confidence;
       pc_reason := "Stationpedia access metadata satisfies the observed fields, slots, and memory." |}) <$> devices.

(** A candidate whose name matches an alias.
    Source: [crates/ic10-lsp/src/environment_proposal.rs] [candidates_for_requirement] lines 470-489 *)
Definition match_alias (aliases : BTreeSet string) (candidate : PrefabCandidate) : PrefabCandidate :=
  let exact_alias := existsb (λ alias, eq_ignore_ascii_case (pc_display_name candidate) alias || eq_ignore_ascii_case (pc_prefab_name candidate) alias)
    (bt_keys aliases) in
  let partial_alias := existsb (λ alias,
    let alias := to_ascii_lowercase alias in
    str_contains alias (to_ascii_lowercase (pc_prefab_name candidate)) || str_contains alias (to_ascii_lowercase (pc_display_name candidate)))
    (bt_keys aliases) in
  let ranked confidence reason :=
    {| pc_prefab_name := pc_prefab_name candidate; pc_prefab_hash := pc_prefab_hash candidate; pc_display_name := pc_display_name candidate;
       pc_confidence := confidence; pc_reason := reason |} in
  if exact_alias then ranked 95 "Stationpedia access metadata and the source alias match exactly."
  else if partial_alias then ranked 80 "Stationpedia access metadata and the source alias both match."
  else candidate.

(** The more certain candidate first, then the first by name. *)
Definition ranked_before (left right : PrefabCandidate) : bool :=
  (pc_confidence right <? pc_confidence left)
  || ((pc_confidence right =? pc_confidence left) && name_before (pc_prefab_name left) (pc_prefab_name right)).

(** Source: [crates/ic10-lsp/src/environment_proposal.rs] [candidates_for_requirement] *)
Definition candidates_for_requirement (requirement : Requirement) (kb : KnowledgeBase) : list PrefabCandidate :=
  let candidates := compatible_devices (rq_fields requirement) (rq_slot_fields requirement) (rq_memory requirement) kb in
  take 12 (sort_by ranked_before (match_alias (rq_aliases requirement) <$> candidates)).

(** ** The proposal *)

Definition first_confidence (candidates : list PrefabCandidate) : Z :=
  match candidates with candidate :: _ => pc_confidence candidate | [] => 25 end.

(** What a choice of prefab leaves open. *)
Definition open_choice (candidates : list PrefabCandidate) (none ambiguous : string * string) (reference : string) (evidence : list SourceEvidence) :
    list UnresolvedAssumption :=
  let report '(code, message) := [{| ua_code := code; ua_message := message; ua_reference := Some reference; ua_evidence := head evidence |}] in
  match candidates with
  | [] => report none
  | _ => if first_confidence candidates <? 90 then report ambiguous else []
  end.

(** Source: [crates/ic10-lsp/src/environment_proposal.rs] [propose_environment] lines 251-293 *)
Definition device_proposal (kb : KnowledgeBase) (entry : string * Requirement) : DeviceProposal * list UnresolvedAssumption :=
  let '(reference, requirement) := entry in
  let candidates := candidates_for_requirement requirement kb in
  ({| dp_reference := reference;
      dp_aliases := bt_keys (rq_aliases requirement);
      dp_suggested_id := match bt_keys (rq_aliases requirement) with alias :: _ => safe_id alias | [] => "device-" +:+ reference end;
      dp_pin := rq_pin requirement;
      dp_candidates := candidates;
      dp_required_fields := fields (rq_fields requirement);
      dp_required_slot_fields := bt_keys (rq_slot_fields requirement);
      dp_requires_memory := rq_memory requirement;
      dp_confidence := first_confidence candidates;
      dp_reasons := bt_keys (rq_reasons requirement);
      dp_evidence := rq_evidence requirement |},
   open_choice candidates
     ("unresolved-device-prefab", "No Stationpedia prefab satisfies every observed use of `" +:+ reference +:+ "`.")
     ("ambiguous-device-prefab", "Choose the intended prefab for `" +:+ reference +:+ "` from the ranked candidates.")
     reference (rq_evidence requirement)).

(** Source: [crates/ic10-lsp/src/environment_proposal.rs] [propose_environment] lines 299-357 *)
Definition batch_proposal (kb : KnowledgeBase) (document : Document) (entry : string * BatchRequirement) :
    BatchGroupProposal * list UnresolvedAssumption :=
  let '(expression, requirement) := entry in
  let candidates :=
    match resolve_value expression document ≫= device_by_hash kb with
    | Some device => [exact_candidate device "Exact batch prefab hash."]
    | None => compatible_devices (br_fields requirement) [] false kb
    end in
  let suggested_name := br_name_hash requirement ≫= λ value, resolve_hash_name value document in
  ({| bp_prefab_hash_expression := expression;
      bp_name_hash_expression := br_name_hash requirement;
      bp_suggested_name := suggested_name;
      bp_candidates := candidates;
      bp_required_fields := fields (br_fields requirement);
      bp_confidence := first_confidence candidates;
      bp_reasons := ["Batch operations require a shared data network with matching prefabs."];
      bp_evidence := br_evidence requirement |},
   (open_choice candidates
      ("unresolved-batch-prefab", "Batch prefab expression `" +:+ expression +:+ "` is unresolved or incompatible.")
      ("ambiguous-batch-prefab", "Choose the intended batch prefab for expression `" +:+ expression +:+ "`.")
      expression (br_evidence requirement)
    ++ match br_name_hash requirement, suggested_name with
       | Some name_hash, None =>
           [{| ua_code := "unresolved-batch-name";
               ua_message := "Name-hash expression `" +:+ name_hash +:+ "` cannot be converted back to a device label.";
               ua_reference := Some name_hash; ua_evidence := head (br_evidence requirement) |}]
       | _, _ => []
       end)%list).

(** The order of [Option<u8>]. *)
Definition pin_before (left right : option Z) : bool :=
  match left, right with
  | None, Some _ => true
  | Some l, Some r => l <? r
  | _, None => false
  end.

(** Source: [crates/ic10-lsp/src/environment_proposal.rs] [propose_environment] *)
Definition propose_environment `{UnicodeCase} (source_uri : string) (last_segment : option string) (document : Document) (kb : KnowledgeBase) :
    outcome message EnvironmentProposal :=
  observed ← observe kb document;
  let proposals := device_proposal kb <$> ob_references observed in
  let devices := sort_by (λ left right, pin_before (dp_pin left) (dp_pin right)) proposals.*1 in
  let groups := batch_proposal kb document <$> ob_batches observed in
  let stem := default "controller" (last_segment ≫= strip_suffix ".ic10") in
  let housing_id := safe_id stem +:+ "-housing" in
  let participants :=
    (housing_id :: (dp_suggested_id <$> devices) ++ ((λ '(index, _), "batch-group-" +:+ show (Z.of_nat index + 1)) <$> enumerate groups))%list in
  let channels := bt_keys (ob_channels observed) in
  let networks :=
    if (1 <? length participants)%nat || negb (length channels =? 0)%nat
    then [{| np_suggested_id := safe_id stem +:+ "-data"; np_kind := "cable"; np_cable_role := Some "data"; np_participants := participants;
             np_channels := channels; np_reason := "Device, batch, or db channel operations require a shared data network." |}]
    else [] in
  housing_device ← expect (device_by_name kb "StructureCircuitHousing");
  Ok {| ep_schema_version := 1;
        ep_source_uri := source_uri;
        ep_preview_only := true;
        ep_housing :=
          {| hp_suggested_id := housing_id; hp_suggested_name := title stem; hp_program_uri := source_uri;
             hp_prefab := exact_candidate housing_device "IC10 programs run in an IC housing.";
             hp_required_fields := fields (ob_housing_fields observed); hp_channels := channels |};
        ep_devices := devices;
        ep_batch_groups := groups.*1;
        ep_networks := networks;
        ep_unresolved := (ob_unresolved observed ++ (proposals ≫= snd) ++ (groups ≫= snd))%list |}.
