(* ===== verification/ProposalFacts.v ===== *)
(** * The proposal meets what the program does

    Proofs about [propose_environment] of [Proposal]: what the lines ask of a pin is
    collected without loss, and the candidates of a pin are the devices that meet it. *)

From stdpp Require Import sorting.
From S2P Require Import Prelude BTree Text F64 Knowledge Literals Syntax Analysis Reparse Editor EditorFacts Proposal.
Local Open Scope string_scope.
Local Open Scope Z_scope.

(** ** Demands *)

(** What one instruction asks of a device. *)
Inductive Demand :=
  | DemandField (field : string) (write : bool)
  | DemandSlot (field : string)
  | DemandMemory.

Definition supports (device : DeviceData) (demand : Demand) : Prop :=
  match demand with
  | DemandField field write => ∃ access, bt_get field (dd_logic_types device) = Some access ∧ (if write then ac_write access else ac_read access) = true
  | DemandSlot field => ∃ slot, slot ∈ bt_values (dd_slots device) ∧ bt_contains_key field (ds_logic_types slot) = true
  | DemandMemory => is_Some (dd_memory device)
  end.

#[local] Arguments supports : simpl never.

#[export] Instance supports_decision device demand : Decision (supports device demand).
Proof.
  destruct demand as [field write|field|].
  - unfold supports. destruct (bt_get field (dd_logic_types device)) as [a|].
    + destruct (decide ((if write then ac_write a else ac_read a) = true)); [left; by exists a|right; naive_solver].
    + right. naive_solver.
  - unfold supports. destruct (decide (Exists (λ slot, bt_contains_key field (ds_logic_types slot) = true) (bt_values (dd_slots device)))) as [H|H];
      rewrite Exists_exists in H; [by left|by right].
  - unfold supports. apply _.
Defined.

(** ** The instructions that access a device *)

(** What an instruction does with the device one of its operands names; the number is
    the operand with the field.  [bdnvl] and [bdnvs] test a field, which counts as
    reading it. *)
Inductive Use := UseNone | UseRead (field : nat) | UseWrite (field : nat) | UseSlot (field : nat) | UseMemory.

Record DeviceInstruction := {
  di_mnemonic : string;
  di_category : string;
  di_operands : list (string * string);  (* labels and types *)
  di_device : nat;
  di_use : Use;
}.

Definition DEVICE : string * string := ("device", "d?|r?|id").

(** The instructions with a device operand, as [data/generated/instructions.json] lists
    them, and what each does. *)
Definition DEVICE_INSTRUCTIONS : list DeviceInstruction :=
  let row mnemonic category operands device use :=
    {| di_mnemonic := mnemonic; di_category := category; di_operands := operands; di_device := device; di_use := use |} in
  [row "l" "device" [("operand1", "r?"); DEVICE; ("operand3", "logicType")] 1%nat (UseRead 2);
   row "s" "device" [DEVICE; ("operand2", "logicType"); ("value", "r?|num")] 0%nat (UseWrite 1);
   row "ls" "device" [("operand1", "r?"); DEVICE; ("operand3", "slotIndex"); ("operand4", "logicSlotType")] 1%nat (UseSlot 3);
   row "ss" "device" [DEVICE; ("operand2", "slotIndex"); ("operand3", "logicSlotType"); ("value", "r?|num")] 0%nat (UseSlot 2);
   row "get" "memory" [("operand1", "r?"); DEVICE; ("address", "r?|num")] 1%nat UseMemory;
   row "put" "memory" [DEVICE; ("address", "r?|num"); ("value", "r?|num")] 0%nat UseMemory;
   row "bdnvl" "device" [DEVICE; ("operand2", "logicType"); ("a", "r?|num")] 0%nat (UseRead 1);
   row "bdnvs" "device" [DEVICE; ("operand2", "logicType"); ("a", "r?|num")] 0%nat (UseRead 1);
   row "lr" "device" [("operand1", "r?"); DEVICE; ("operand3", "reagentMode"); ("operand4", "int")] 1%nat UseNone;
   row "sdns" "selection" [("operand1", "r?"); DEVICE] 1%nat UseNone;
   row "sdse" "selection" [("operand1", "r?"); DEVICE] 1%nat UseNone;
   row "bdns" "device" [DEVICE; ("a", "r?|num")] 0%nat UseNone;
   row "bdnsal" "device" [DEVICE; ("a", "r?|num")] 0%nat UseNone;
   row "bdse" "device" [DEVICE; ("a", "r?|num")] 0%nat UseNone;
   row "bdseal" "device" [DEVICE; ("a", "r?|num")] 0%nat UseNone;
   row "brdns" "device" [DEVICE; ("a", "r?|num")] 0%nat UseNone;
   row "brdse" "device" [DEVICE; ("a", "r?|num")] 0%nat UseNone].

Definition device_instruction_of (mnemonic : string) : option DeviceInstruction :=
  find_first (λ row, String.eqb (di_mnemonic row) mnemonic) DEVICE_INSTRUCTIONS.

Definition labels_and_types (i : Instruction) : list (string * string) := (λ o, (od_label o, od_operand_type o)) <$> in_operands i.

(** A table of instructions that lists them so, and no other with a device operand. *)
Definition lists_device_instructions (kb : KnowledgeBase) : Prop := ∀ mnemonic,
  match device_instruction_of mnemonic with
  | Some row => ∃ i, Knowledge.instruction kb mnemonic = Some i ∧ in_category i = di_category row ∧ labels_and_types i = di_operands row
  | None => ∀ i, Knowledge.instruction kb mnemonic = Some i → Forall (λ o, o.1 ≠ "device") (labels_and_types i)
  end.

(** What is asked of the device by an instruction with these operands. *)
Definition use_demands (use : Use) (operands : list Token) : list Demand :=
  match use with
  | UseNone => []
  | UseRead n => match operands !! n with Some field => [DemandField (text field) false] | None => [] end
  | UseWrite n => match operands !! n with Some field => [DemandField (text field) true] | None => [] end
  | UseSlot n => match operands !! n with Some field => [DemandSlot (text field)] | None => [] end
  | UseMemory => [DemandMemory]
  end.

(** The reference a line accesses, aliases followed, and what it asks of it. *)
Definition device_use (aliases : BTreeMap string string) (line : ParsedLine) : option (string * list Demand) :=
  match pl_kind line with
  | LineInstruction mnemonic operands =>
      row ← device_instruction_of (text mnemonic);
      token ← operands !! di_device row;
      Some (resolve_alias (text token) aliases, use_demands (di_use row) operands)
  | _ => None
  end.

(** What a program asks of a reference. *)
Definition uses (document : Document) (reference : string) : list Demand :=
  do_lines document ≫= λ line,
    match device_use (device_aliases document) line with
    | Some (used, l) => if String.eqb used reference then l else []
    | None => []
    end.

(** A reference is bound by an alias, or a line accesses it. *)
Definition used (document : Document) (reference : string) : Prop :=
  (∃ alias, (alias, reference) ∈ device_aliases document)
  ∨ ∃ line l, line ∈ do_lines document ∧ device_use (device_aliases document) line = Some (reference, l).

(** *** The same from the table of instructions *)

(** The reference behind a pin that an instruction names: its device operand, aliases followed. *)
Definition accessed (kb : KnowledgeBase) (aliases : BTreeMap string string) (line : ParsedLine) : option (Instruction * string * list Token * string) :=
  match pl_kind line with
  | LineInstruction mnemonic operands =>
      instruction ← Knowledge.instruction kb (text mnemonic);
      token ← operand_at operands (device_operand instruction);
      Some (instruction, text mnemonic, operands, resolve_alias (text token) aliases)
  | _ => None
  end.

(** What an instruction asks of it. *)
Definition demands_of (instruction : Instruction) (mnemonic : string) (operands : list Token) : list Demand :=
  ((if memory_access instruction then [DemandMemory] else [])
   ++ match text <$> operand_at operands (logic_operand instruction) with
      | Some field => if slot_access instruction then [DemandSlot field] else [DemandField field (is_write mnemonic)]
      | None => []
      end)%list.

Definition line_demands (kb : KnowledgeBase) (aliases : BTreeMap string string) (reference : string) (line : ParsedLine) : list Demand :=
  match accessed kb aliases line with
  | Some (instruction, mnemonic, operands, resolved) => if String.eqb resolved reference then demands_of instruction mnemonic operands else []
  | None => []
  end.

Definition demands (kb : KnowledgeBase) (document : Document) (reference : string) : list Demand :=
  do_lines document ≫= line_demands kb (device_aliases document) reference.

Definition supporting (kb : KnowledgeBase) (l : list Demand) : list DeviceData := filter (λ device, Forall (supports device) l) (all_devices kb).

(** ** Requirements *)

(** Every field is asked to be read or written. *)
Definition requirement_wf (r : Requirement) : Prop :=
  bt_sorted (rq_fields r) ∧ bt_sorted (rq_slot_fields r) ∧ ∀ field read write, bt_get field (rq_fields r) = Some (read, write) → read || write = true.

Definition meets (device : DeviceData) (r : Requirement) : Prop := compatible (rq_fields r) (rq_slot_fields r) (rq_memory r) device = true.

Definition fields_met (device : DeviceData) (l : Fields) : Prop :=
  ∀ field read write, bt_get field l = Some (read, write) →
    (read = true → supports device (DemandField field false)) ∧ (write = true → supports device (DemandField field true)).

Lemma bt_forall {K V} `{RustOrd K} (f : K * V → bool) (m : BTreeMap K V) :
  bt_sorted m → (forallb f m = true ↔ ∀ k v, bt_get k m = Some v → f (k, v) = true).
Proof.
  intros Hs. rewrite forallb_forall. split.
  - intros Hall k v Hk. by apply Hall, list_elem_of_In, bt_get_elem.
  - intros Hall [k v] Hin%list_elem_of_In. apply Hall. by apply bt_elem_get.
Qed.

(** A requirement is met by the devices that support what it stands for. *)
Lemma meets_spec device r :
  requirement_wf r →
  (meets device r ↔
    (rq_memory r = true → supports device DemandMemory) ∧ fields_met device (rq_fields r)
    ∧ (∀ field u, bt_get field (rq_slot_fields r) = Some u → supports device (DemandSlot field))).
Proof.
  intros (Hfields & Hslots & Hasked). unfold meets, compatible. rewrite !andb_true_iff, (bt_forall _ _ Hfields), (bt_forall _ _ Hslots).
  assert ((negb (rq_memory r) || is_some (dd_memory device)) = true ↔ (rq_memory r = true → supports device DemandMemory)) as ->.
  { unfold supports. destruct (rq_memory r), (dd_memory device); simpl; split; try done. intros H. by destruct (H eq_refl). }
  match goal with |- (_ ∧ ?F) ∧ ?S ↔ _ ∧ ?F' ∧ ?S' => enough ((F ↔ F') ∧ (S ↔ S')) by tauto end. split.
  - unfold fields_met, supports. split.
    + intros Hall field read write Hf. specialize (Hall field (read, write) Hf). cbv beta iota in Hall.
      destruct (bt_get field (dd_logic_types device)) as [access|]; [|done]. apply andb_prop in Hall as [Hr Hw].
      split; intros ->; simpl in *; by exists access.
    + intros Hall field [read write] Hf. destruct (Hall field read write Hf) as [Hr Hw]. specialize (Hasked field read write Hf).
      destruct (bt_get field (dd_logic_types device)) as [access|].
      * apply andb_true_intro. split; [destruct read|destruct write]; try done; [destruct (Hr eq_refl) as (? & [= <-] & ?)|destruct (Hw eq_refl) as (? & [= <-] & ?)]; done.
      * destruct read, write; naive_solver.
  - unfold supports. split.
    + intros Hall field u Hf. specialize (Hall field u Hf). apply existsb_exists in Hall as (slot & Hin & Hslot). exists slot. by rewrite list_elem_of_In.
    + intros Hall field u Hf. destruct (Hall field u Hf) as (slot & Hin & Hslot). apply existsb_exists. exists slot. by rewrite <-list_elem_of_In.
Qed.

(** ** Collecting the demands *)

Lemma add_field_get l field read write k :
  bt_get k (add_field l field read write)
  = if decide (k = field) then Some (let '(r, w) := default (false, false) (bt_get field l) in (r || read, w || write)) else bt_get k l.
Proof.
  unfold add_field. destruct (bt_get field l) as [[r w]|] eqn:Hf; destruct (decide (k = field)) as [->|Hne];
    rewrite ?bt_get_insert_eq, ?(bt_get_insert_ne field k) by done; done.
Qed.

Lemma add_field_sorted l field read write : bt_sorted l → bt_sorted (add_field l field read write).
Proof. intros Hs. unfold add_field. repeat case_match; by apply bt_sorted_insert. Qed.

Lemma fields_met_add device l field read write :
  fields_met device (add_field l field read write)
  ↔ fields_met device l ∧ (read = true → supports device (DemandField field false)) ∧ (write = true → supports device (DemandField field true)).
Proof.
  unfold fields_met. split.
  - intros Hall. split.
    + intros k r w Hk. specialize (Hall k). rewrite add_field_get in Hall. destruct (decide (k = field)) as [->|]; [|by apply Hall].
      rewrite Hk in Hall. destruct (Hall _ _ eq_refl) as [H1 H2]. split; intros ->; [by apply H1|by apply H2].
    + specialize (Hall field). rewrite add_field_get, decide_True in Hall by done. destruct (default (false, false) (bt_get field l)) as [r w].
      destruct (Hall _ _ eq_refl) as [H1 H2]. split; intros ->; [apply H1|apply H2]; apply orb_true_r.
  - intros (Hall & Hread & Hwrite) k r w. rewrite add_field_get. destruct (decide (k = field)) as [->|]; [|apply Hall].
    destruct (bt_get field l) as [[r' w']|] eqn:Hf; simpl; intros [= <- <-]; [|done]. destruct (Hall _ _ _ Hf) as [H1 H2].
    split; intros [?|?]%orb_prop; auto.
Qed.

Lemma require_access_wf pin mnemonic i operands e r :
  requirement_wf r → requirement_wf (require_access pin mnemonic i operands e r).
Proof.
  intros (Hf & Hs & Ha). unfold requirement_wf, require_access. cbn [rq_fields rq_slot_fields].
  destruct (text <$> operand_at operands (logic_operand i)) as [field|]; [|done]. destruct (slot_access i).
  - split_and!; [done|by apply bt_sorted_insert|done].
  - split_and!; [by apply add_field_sorted|done|]. intros k read write. rewrite add_field_get. destruct (decide (k = field)) as [->|]; [|apply Ha].
    destruct (default (false, false) (bt_get field (rq_fields r))) as [r0 w0]. intros [= <- <-].
    destruct r0, w0, (is_write mnemonic); done.
Qed.

Lemma require_access_meets device pin mnemonic i operands e r :
  requirement_wf r →
  meets device (require_access pin mnemonic i operands e r) ↔ meets device r ∧ Forall (supports device) (demands_of i mnemonic operands).
Proof.
  intros Hwf. rewrite (meets_spec _ _ (require_access_wf pin mnemonic i operands e r Hwf)), (meets_spec _ _ Hwf). unfold demands_of.
  rewrite Forall_app. unfold require_access. cbn [rq_fields rq_slot_fields rq_memory].
  assert ((rq_memory r || memory_access i = true → supports device DemandMemory)
    ↔ (rq_memory r = true → supports device DemandMemory) ∧ Forall (supports device) (if memory_access i then [DemandMemory] else [])) as ->.
  { destruct (rq_memory r), (memory_access i); rewrite ?Forall_singleton, ?Forall_nil; simpl; tauto. }
  destruct (text <$> operand_at operands (logic_operand i)) as [field|]; [|rewrite Forall_nil; tauto]. destruct (slot_access i).
  - rewrite Forall_singleton.
    assert ((∀ k u, bt_get k (bt_insert field () (rq_slot_fields r)) = Some u → supports device (DemandSlot k))
      ↔ (∀ k u, bt_get k (rq_slot_fields r) = Some u → supports device (DemandSlot k)) ∧ supports device (DemandSlot field)) as ->; [|tauto].
    split.
    + intros Hall. split; [|apply (Hall field ()), bt_get_insert_eq]. intros k [] Hk. apply (Hall k ()).
      destruct (decide (field = k)) as [->|]; [apply bt_get_insert_eq|by rewrite bt_get_insert_ne].
    + intros [Hall Hfield] k u Hk. destruct (decide (field = k)) as [->|]; [done|]. rewrite bt_get_insert_ne in Hk by done. by apply (Hall k u).
  - rewrite Forall_singleton, fields_met_add. destruct (is_write mnemonic); cbn [negb]; split; intuition done.
Qed.

Lemma no_requirement_wf : requirement_wf no_requirement.
Proof. split_and!; [constructor|constructor|done]. Qed.

Lemma no_requirement_meets device : meets device no_requirement.
Proof. done. Qed.

(** ** The loop over the lines *)

Lemma direct_pin_not_housing reference pin : direct_pin reference = Some pin → starts_with "db" reference = false.
Proof.
  unfold direct_pin, starts_with. destruct (strip_prefix "db" reference) as [rest|] eqn:E; [|done]. apply strip_prefix_Some in E as ->.
  change ("db" +:+ rest) with ("d" +:+ ("b" +:+ rest)). unfold strip_prefix at 1. by vm_compute.
Qed.

Section collecting.
Variables (kb : KnowledgeBase) (document : Document).
Let aliases := device_aliases document.

(** A reference is bound by an alias, or a line has accessed it. *)
Definition mentioned (lines : list ParsedLine) (reference : string) : Prop :=
  (∃ alias, (alias, reference) ∈ aliases) ∨ ∃ line i mnemonic operands, line ∈ lines ∧ accessed kb aliases line = Some (i, mnemonic, operands, reference).

(** What is asked of a reference: nothing, as long as nothing is collected. *)
Definition required (references : BTreeMap string Requirement) (reference : string) : Requirement :=
  default no_requirement (bt_get reference references).

(** What has been collected after some of the lines. *)
Definition collected (lines : list ParsedLine) (references : BTreeMap string Requirement) : Prop :=
  bt_sorted references
  ∧ ∀ reference,
      (is_Some (bt_get reference references) ↔ is_Some (direct_pin reference) ∧ mentioned lines reference)
      ∧ (is_Some (direct_pin reference) → requirement_wf (required references reference)
         ∧ (∀ device, meets device (required references reference) ↔ Forall (supports device) (lines ≫= line_demands kb aliases reference)))
      ∧ ∀ r, bt_get reference references = Some r → rq_pin r = direct_pin reference.

Lemma entry_or_get {V} (d : V) (key k : string) f m :
  bt_get k (entry_or d key f m) = if decide (k = key) then Some (f (default d (bt_get key m))) else bt_get k m.
Proof.
  unfold entry_or. destruct (decide (k = key)) as [->|Hne]; [apply bt_get_insert_eq|by apply bt_get_insert_ne].
Qed.

Lemma bind_aliases_collected (bound : list (string * string)) :
  let references := foldl bind_alias [] bound in
  bt_sorted references
  ∧ ∀ reference,
      (is_Some (bt_get reference references) ↔ is_Some (direct_pin reference) ∧ ∃ alias, (alias, reference) ∈ bound)
      ∧ (requirement_wf (required references reference) ∧ ∀ device, meets device (required references reference))
      ∧ ∀ r, bt_get reference references = Some r → rq_pin r = direct_pin reference.
Proof.
  induction bound as [|[alias target] bound (Hs & IH)] using rev_ind.
  { split; [constructor|]. intros reference. split_and!; [|apply no_requirement_wf|done|done]. split; [by intros [? ?]|].
    intros (_ & alias & Ha). by apply elem_of_nil in Ha. }
  cbv zeta. rewrite foldl_app. cbn [foldl bind_alias]. destruct (direct_pin target) as [pin|] eqn:Hpin.
  - split; [by apply bt_sorted_insert|]. intros reference. unfold required. rewrite entry_or_get. destruct (IH reference) as (Hin & Hmeets & Hpins).
    destruct (decide (reference = target)) as [->|Hne].
    + split_and!; [|apply (proj1 Hmeets)|apply (proj2 Hmeets)|by intros r [= <-]]. split; [|by eexists]. intros _. split; [by eexists|].
      exists alias. apply elem_of_app. right. by apply list_elem_of_singleton.
    + split_and!; [|apply Hmeets|apply Hmeets|done]. rewrite Hin. split; intros (H1 & a & Ha); (split; [done|]); exists a.
      * apply elem_of_app. by left.
      * apply elem_of_app in Ha as [Ha|Ha%list_elem_of_singleton]; [done|]. by injection Ha.
  - split; [done|]. intros reference. destruct (IH reference) as (Hin & Hmeets & Hpins). split_and!; [|apply Hmeets|apply Hmeets|done].
    rewrite Hin. split; intros (H1 & a & Ha); (split; [done|]); exists a.
    + apply elem_of_app. by left.
    + apply elem_of_app in Ha as [Ha|Ha%list_elem_of_singleton]; [done|]. injection Ha as -> ->. rewrite Hpin in H1. by destruct H1.
Qed.

Lemma observe_batch_references mnemonic i operands e st : ob_references (observe_batch mnemonic i operands e st) = ob_references st.
Proof. unfold observe_batch. by repeat case_match. Qed.

(** A line changes the requirement of the pin it accesses. *)
Lemma observe_line_references st line st' :
  observe_line kb document aliases st line = Ok st' →
  (ob_references st' = ob_references st ∧ ∀ i mnemonic operands reference, accessed kb aliases line = Some (i, mnemonic, operands, reference) → direct_pin reference = None)
  ∨ ∃ i mnemonic operands reference pin e, accessed kb aliases line = Some (i, mnemonic, operands, reference) ∧ direct_pin reference = Some pin
      ∧ ob_references st' = entry_or no_requirement reference (require_access (Some pin) mnemonic i operands e) (ob_references st).
Proof.
  unfold observe_line, accessed. destruct (pl_kind line) as [| |m operands]; [intros [= <-]; by left..|].
  destruct (Knowledge.instruction kb (text m)) as [i|]; [|intros [= <-]; by left].
  destruct (evidence _ _ _) as [e| |]; cbn [mbind outcome_mbind outcome_bind]; [|done|done]. intros [= <-].
  rewrite observe_batch_references. unfold observe_device. cbn [mbind option_bind].
  destruct (operand_at operands (device_operand i)) as [t|]; [|by left]. cbn [mbind option_bind].
  set (resolved := resolve_alias (text t) aliases).
  destruct (direct_pin resolved) as [pin|] eqn:Hpin.
  - right. rewrite (direct_pin_not_housing _ _ Hpin). by exists i, (text m), operands, resolved, pin, e.
  - left. split; [|by intros ? ? ? ? [= _ _ _ <-]]. by repeat case_match.
Qed.

(** A line is collected under the reference it accesses. *)
Lemma observe_line_collected lines st line st' :
  collected lines (ob_references st) → observe_line kb document aliases st line = Ok st' → collected (lines ++ [line]) (ob_references st').
Proof.
  intros [Hs Hall] Hstep.
  assert (∀ reference, (lines ++ [line])%list ≫= line_demands kb aliases reference
    = ((lines ≫= line_demands kb aliases reference) ++ line_demands kb aliases reference line)%list) as Hdemands.
  { intros reference. rewrite bind_app. cbn [mbind list_bind]. by rewrite app_nil_r. }
  assert (∀ reference, mentioned (lines ++ [line]) reference
    ↔ mentioned lines reference ∨ ∃ i mnemonic operands, accessed kb aliases line = Some (i, mnemonic, operands, reference)) as Hmention.
  { intros reference. unfold mentioned. setoid_rewrite elem_of_app. setoid_rewrite list_elem_of_singleton. split; [|naive_solver].
    intros [?|(l & i & m & o & [?| ->] & ?)]; eauto 10. }
  apply observe_line_references in Hstep as [[-> Hnone]|(i & m & o & target & pin & e & Haccess & Hpin & ->)].
  - split; [done|]. intros reference. destruct (Hall reference) as (Hin & Hmeets & Hpins). split_and!; [| |done].
    + rewrite Hin, Hmention. split; intros [Hp Hm]; (split; [done|]); [by left|]. destruct Hm as [?|(i & m & o & Ha)]; [done|].
      apply Hnone in Ha. rewrite Ha in Hp. by destruct Hp.
    + intros Hp. split; [by apply Hmeets|]. rewrite Hdemands. unfold line_demands at 2.
      destruct (accessed kb aliases line) as [[[[i m] o] target]|] eqn:Ha; [|rewrite app_nil_r; by apply Hmeets].
      destruct (String.eqb_spec target reference) as [->|]; [|rewrite app_nil_r; by apply Hmeets].
      rewrite (Hnone i m o reference eq_refl) in Hp. by destruct Hp.
  - split; [by apply bt_sorted_insert|]. intros reference. unfold required. rewrite entry_or_get.
    destruct (Hall reference) as (Hin & Hmeets & Hpins). rewrite Hdemands, Hmention. unfold line_demands at 2. rewrite Haccess.
    destruct (decide (reference = target)) as [->|Hne].
    + rewrite String.eqb_refl. destruct (Hmeets ltac:(by eexists)) as [Hwf Hm]. split_and!; [|intros _; split|intros r [= <-]; by rewrite Hpin].
      * split; [|by eexists]. intros _. split; [by eexists|]. right. by exists i, m, o.
      * by apply require_access_wf.
      * intros device. cbn [default from_option id]. rewrite Forall_app, <-Hm. by apply require_access_meets.
    + rewrite (proj2 (String.eqb_neq target reference)), app_nil_r by congruence. split_and!; [|exact Hmeets|exact Hpins].
      rewrite Hin. split; intros [Hp H]; (split; [done|]); [by left|]. destruct H as [?|(? & ? & ? & Ha)]; [done|]. congruence.
Qed.

Lemma observe_lines_collected rest : ∀ lines st st',
  collected lines (ob_references st) → fold_outcome (observe_line kb document aliases) st rest = Ok st' → collected (lines ++ rest) (ob_references st').
Proof.
  induction rest as [|line rest IH]; intros lines st st' Hst Hrun; cbn [fold_outcome] in Hrun; [injection Hrun as <-; by rewrite app_nil_r|].
  apply outcome_bind_Ok in Hrun as (st1 & Hstep & Hrun). replace (lines ++ line :: rest)%list with ((lines ++ [line]) ++ rest)%list by (by rewrite <-app_assoc).
  apply (IH _ st1); [|done]. by eapply observe_line_collected.
Qed.

Lemma observe_collected st : observe kb document = Ok st → collected (do_lines document) (ob_references st).
Proof.
  unfold observe. cbv zeta. fold aliases. apply (observe_lines_collected _ []). destruct (bind_aliases_collected aliases) as [Hs Hall]. split; [done|].
  intros reference. destruct (Hall reference) as (Hin & [Hwf Hmeets] & Hpins). split_and!; [| |done].
  - cbn [ob_references]. rewrite Hin. unfold mentioned. split; intros [Hp H]; (split; [done|]); [by left|].
    destruct H as [?|(l & ? & ? & ? & Hl & _)]; [done|]. by apply elem_of_nil in Hl.
  - intros _. split; [done|]. intros device. cbn [mbind list_bind]. rewrite Forall_nil. split; [done|]. intros _. apply Hmeets.
Qed.
End collecting.

(** ** The candidates of a requirement *)

(** A candidate is of a device. *)
Definition describes (device : DeviceData) (candidate : PrefabCandidate) : Prop :=
  pc_prefab_name candidate = dd_prefab_name device ∧ pc_prefab_hash candidate = dd_prefab_hash device
  ∧ pc_display_name candidate = dd_display_name device.

(** The more certain one first, then by name. *)
Definition ranked_le (a b : PrefabCandidate) : Prop := nearer (- pc_confidence a, pc_prefab_name a) (- pc_confidence b, pc_prefab_name b).

Lemma name_before_spec a b : (name_before a b = true → rcmp a b ≠ Gt) ∧ (name_before a b = false → rcmp b a ≠ Gt).
Proof. unfold name_before. rewrite (rcmp_antisym a b). by destruct (rcmp a b). Qed.

Lemma ranked_sorted l : StronglySorted ranked_le (sort_by ranked_before l).
Proof.
  apply @sort_by_sorted; [intros a b c; apply nearer_trans|..]; unfold ranked_le, ranked_before, nearer; cbn [fst snd].
  - intros a b [H%Z.ltb_lt|[H%Z.eqb_eq Hn]%andb_prop]%orb_prop; [left; lia|right]. split; [lia|]. by destruct (name_before_spec (pc_prefab_name a) (pc_prefab_name b)) as [Hlt _]; apply Hlt.
  - intros a b [H%Z.ltb_ge Hn]%orb_false_elim. destruct (Z.eqb_spec (pc_confidence b) (pc_confidence a)); [|left; lia].
    right. split; [lia|]. destruct (name_before_spec (pc_prefab_name a) (pc_prefab_name b)) as [_ Hge]. by apply Hge.
Qed.

Lemma match_alias_describes device aliases candidate : describes device candidate → describes device (match_alias aliases candidate).
Proof. intros H. unfold match_alias. by repeat case_match. Qed.

Lemma sorted_take {A} (R : A → A → Prop) n l : StronglySorted R l → StronglySorted R (take n l).
Proof. intros H. rewrite <-(take_drop n l) in H. by apply StronglySorted_app_1_l in H. Qed.

Lemma candidates_of requirement kb :
  ∃ devices, devices ≡ₚ filter (λ device, compatible (rq_fields requirement) (rq_slot_fields requirement) (rq_memory requirement) device = true) (all_devices kb)
    ∧ Forall2 describes (take 12 devices) (candidates_for_requirement requirement kb)
    ∧ StronglySorted ranked_le (candidates_for_requirement requirement kb).
Proof.
  unfold candidates_for_requirement, compatible_devices. set (found := filter _ (all_devices kb)).
  set (sorted := sort_by _ found). rewrite <-list_fmap_compose. set (f := match_alias _ ∘ _).
  assert (∀ device, describes device (f device)) as Hf by (intros device; by apply match_alias_describes).
  destruct (Permutation_map_inv f _ (sort_by_permutation ranked_before (f <$> sorted))) as (devices & Heq & Hperm).
  exists devices. split_and!.
  - rewrite <-Hperm. apply sort_by_permutation.
  - replace (sort_by ranked_before (f <$> sorted)) with (f <$> devices) by (symmetry; exact Heq). rewrite <-fmap_take. generalize (take 12 devices). clear -Hf.
    induction l as [|d l IH]; constructor; [apply Hf|apply IH].
  - apply sorted_take, ranked_sorted.
Qed.

(** ** The evidence of a line *)

Lemma str_slice_parts a b c s first last :
  s = a +:+ (b +:+ c) → str_ok (b +:+ c) → str_ok c → first = String.length a → last = (String.length a + String.length b)%nat →
  str_slice first last s = Ok b.
Proof.
  intros -> Hbc Hc -> ->. unfold str_slice. rewrite boundary_app by done. rewrite <-slength_app at 2.
  rewrite <-(string_app_assoc a b c), (boundary_app (a +:+ b) c) by done. rewrite string_app_assoc, slice_mid.
  by rewrite (proj2 (Nat.leb_le _ _)) by lia.
Qed.

Lemma evidence_exists source i line :
  text_ok source → parse_lines source !! i = Some line → ∃ e, evidence source (pl_number line) (pl_code_span line) = Ok e.
Proof.
  intros Hok Hline. destruct (line_parts _ _ _ Hok Hline) as (ps1 & ps2 & p & code & comment & e & Hparts).
  destruct Hparts as [_ _ Hsource _ Hp _ Hspan _ _ _ _ (Hokp & Hokcode & Hokcomment & Hoke) _ _ _].
  set (before := concat_strings ps1) in *. set (rest := (comment +:+ (e +:+ concat_strings ps2))).
  assert (source = before +:+ (code +:+ rest)) as Hsplit by (rewrite Hsource, Hp; unfold rest; by rewrite !string_app_assoc).
  assert (str_ok rest) as Hrest by (by apply str_ok_app). assert (str_ok (code +:+ rest)) as Hcode by (by apply str_ok_app).
  pose proof Hok as Hoks. rewrite Hsplit in Hoks.
  destruct (offset_lines before (code +:+ rest) Hoks Hcode) as (ls & cur & _ & _ & Hbefore & _ & _ & Hcur & _ & _ & Hokcur & _).
  assert (String.length before = String.length (lines_text ls) + String.length cur)%nat as Hlen by (by rewrite Hbefore, slength_app).
  unfold evidence. rewrite Hspan. cbn [start stop]. rewrite Nat.min_l by (rewrite Hsplit, slength_app; lia).
  rewrite (str_slice_parts "" before (code +:+ rest) source 0 (String.length before)); [|done|apply Hoks|done|done|done]. cbn [mbind outcome_mbind outcome_bind].
  pose proof (last_line_start ls cur Hcur) as Hstart. rewrite <-Hbefore in Hstart. rewrite Hstart.
  rewrite (str_slice_parts (lines_text ls) cur (code +:+ rest) source (String.length (lines_text ls)) (String.length before)); [|by rewrite Hsplit, Hbefore, string_app_assoc|by apply str_ok_app|done|done|done].
  cbn [mbind outcome_mbind outcome_bind].
  rewrite (str_slice_parts (lines_text ls) (cur +:+ code) rest source (String.length (lines_text ls)) (String.length before + String.length code));
    [|by rewrite Hsplit, Hbefore, !string_app_assoc|rewrite string_app_assoc; by apply str_ok_app|done|done|rewrite slength_app; lia].
  cbn [mbind outcome_mbind outcome_bind].
  rewrite (str_slice_parts before code rest); [|done|done|done|done|done]. cbn [mbind outcome_mbind outcome_bind]. by eexists.
Qed.

(** ** The proposal *)

Lemma observe_exists source kb options :
  text_ok source → ∃ st, observe kb (parse_with_options source kb options) = Ok st.
Proof.
  intros Hok. unfold observe. cbv zeta. set (aliases := device_aliases _).
  assert (do_lines (parse_with_options source kb options) = parse_lines source ∧ do_source (parse_with_options source kb options) = source) as [-> Hsource]
    by (unfold parse_with_options; by destruct (collect_declarations _ _ _)).
  assert (∀ ls st, (∀ l, l ∈ ls → l ∈ parse_lines source) →
    ∃ st', fold_outcome (observe_line kb (parse_with_options source kb options) aliases) st ls = Ok st') as Hall; [|by apply Hall].
  induction ls as [|l ls IH]; intros st Hin; [by eexists|]. cbn [fold_outcome].
  assert (∃ st1, observe_line kb (parse_with_options source kb options) aliases st l = Ok st1) as (st1 & ->).
  { unfold observe_line. rewrite Hsource. destruct (pl_kind l); [by eexists..|]. destruct (Knowledge.instruction kb _); [|by eexists].
    destruct (list_elem_of_lookup_1 (parse_lines source) l) as [n Hi]; [apply Hin; by left|].
    destruct (evidence_exists source n l Hok Hi) as [e ->]. by eexists. }
  cbn [mbind outcome_mbind outcome_bind]. apply IH. intros; apply Hin; by right.
Qed.

(** The proposals of the devices are those of the references collected. *)
Lemma proposals_elem kb (references : BTreeMap string Requirement) d :
  bt_sorted references →
  d ∈ (device_proposal kb <$> references).*1 ↔ ∃ r, bt_get (dp_reference d) references = Some r ∧ d = (device_proposal kb (dp_reference d, r)).1.
Proof.
  intros Hs. rewrite <-list_fmap_compose, list_elem_of_fmap. split.
  - intros ([k r] & -> & Hin). exists r. split; [by apply bt_elem_get|done].
  - intros (r & Hr & Hd). exists (dp_reference d, r). split; [done|]. by apply bt_get_elem.
Qed.

Lemma proposals_references kb (references : BTreeMap string Requirement) : dp_reference <$> (device_proposal kb <$> references).*1 = bt_keys references.
Proof. unfold bt_keys. rewrite <-!list_fmap_compose. apply list_fmap_ext. by intros ? [? ?] ?. Qed.

Lemma sorted_keys_NoDup {V} (m : BTreeMap string V) : bt_sorted m → NoDup (bt_keys m).
Proof.
  unfold bt_sorted, bt_keys. induction 1 as [|[k v] m _ IH Hk]; [constructor|]. cbn [fmap list_fmap fst]. constructor; [|done].
  intros ([k' v'] & Hk' & Hin)%list_elem_of_fmap. rewrite Forall_forall in Hk. specialize (Hk _ Hin). unfold bt_lt in Hk. cbn [fst] in *. subst k'.
  by rewrite (proj2 (rcmp_eq k k) eq_refl) in Hk.
Qed.

Lemma bt_keys_get {V} (m : BTreeMap string V) k : bt_sorted m → k ∈ bt_keys m ↔ is_Some (bt_get k m).
Proof.
  intros Hs. unfold bt_keys. rewrite list_elem_of_fmap. split.
  - intros ([k' v] & -> & Hin). exists v. by apply bt_elem_get.
  - intros [v Hv]. exists (k, v). split; [done|]. by apply bt_get_elem.
Qed.

(** *** The instructions of the table *)

Lemma position_labels (f : string * string → bool) i :
  position (λ o, f (od_label o, od_operand_type o)) (in_operands i) = position f (labels_and_types i).
Proof.
  unfold labels_and_types. induction (in_operands i) as [|o l IH]; [done|]. csimpl. by rewrite IH.
Qed.

Lemma existsb_labels (f : string * string → bool) i :
  existsb (λ o, f (od_label o, od_operand_type o)) (in_operands i) = existsb f (labels_and_types i).
Proof. unfold labels_and_types. induction (in_operands i) as [|o l IH]; [done|]. csimpl. by rewrite IH. Qed.

Lemma listed_row mnemonic row i operands :
  device_instruction_of mnemonic = Some row → in_category i = di_category row → labels_and_types i = di_operands row →
  device_operand i = Some (di_device row) ∧ demands_of i mnemonic operands = use_demands (di_use row) operands.
Proof.
  intros Hrow Hc Hl. unfold demands_of, memory_access, device_operand, logic_operand, slot_access.
  rewrite (position_labels (λ p, String.eqb p.1 "device")), (position_labels (λ p, String.eqb p.2 "logicType" || String.eqb p.2 "logicSlotType")),
    (existsb_labels (λ p, String.eqb p.2 "slotIndex")), Hc, Hl.
  apply find_map_Some in Hrow as (n & a & Hn & Ha). destruct (String.eqb_spec (di_mnemonic a) mnemonic) as [<-|]; [|done].
  injection Ha as <-. clear Hc Hl. unfold DEVICE_INSTRUCTIONS in Hn.
  do 17 (destruct n as [|n]; [injection Hn as <-; split; [done|]; cbn; unfold operand_at; cbn; try (by destruct (operands !! _)); done|]).
  done.
Qed.

Lemma accessed_use kb aliases line : lists_device_instructions kb →
  (λ '(i, mnemonic, operands, reference), (reference, demands_of i mnemonic operands)) <$> accessed kb aliases line = device_use aliases line.
Proof.
  intros Hkb. unfold accessed, device_use. destruct (pl_kind line) as [| |m operands]; [done..|]. specialize (Hkb (text m)).
  destruct (device_instruction_of (text m)) as [row|] eqn:Hrow.
  - destruct Hkb as (i & -> & Hc & Hl). destruct (listed_row _ _ _ operands Hrow Hc Hl) as [Hd Hdemands].
    cbn [mbind option_bind]. rewrite Hd. unfold operand_at. cbn [mbind option_bind].
    destruct (operands !! di_device row) as [t|]; [|done]. csimpl. by rewrite Hdemands.
  - destruct (Knowledge.instruction kb (text m)) as [i|]; [|done]. specialize (Hkb i eq_refl). cbn [mbind option_bind].
    assert (device_operand i = None) as ->; [|done]. unfold device_operand.
    rewrite (position_labels (λ p, String.eqb p.1 "device")). clear -Hkb.
    induction Hkb as [|p l Hp _ IH]; [done|]. cbn [position]. apply String.eqb_neq in Hp as ->. by rewrite IH.
Qed.

Lemma demands_uses kb document reference : lists_device_instructions kb → demands kb document reference = uses document reference.
Proof.
  intros Hkb. unfold demands, uses. induction (do_lines document) as [|line lines IH]; [done|]. cbn [mbind list_bind]. rewrite IH. f_equal.
  unfold line_demands. rewrite <-(accessed_use kb _ line Hkb). by destruct (accessed _ _ line) as [[[[i m] o] r]|].
Qed.

Lemma mentioned_used kb document reference : lists_device_instructions kb →
  mentioned kb document (do_lines document) reference ↔ used document reference.
Proof.
  intros Hkb. unfold mentioned, used. apply or_iff_compat_l. setoid_rewrite <-(λ line, accessed_use kb (device_aliases document) line Hkb). split.
  - intros (line & i & m & o & Hin & Ha). exists line, (demands_of i m o). split; [done|]. by rewrite Ha.
  - intros (line & l & Hin & ([[[i m] o] r] & Ha & [= -> _])%fmap_Some). eauto 10.
Qed.


(** ** A small table *)

Definition sample_case : UnicodeCase := {| to_uppercase := λ c, match c with String a "" => if is_ascii_lower (byte_of a) then String (byte (byte_of a - 32)) "" else c | _ => c end |}.

Definition listed_instruction (category : string) (operands : list (string * string)) : Instruction :=
  {| in_category := category; in_syntax := ""; in_description := ""; in_deprecated := false;
     in_operands := (λ '(l, t), {| od_label := l; od_operand_type := t; od_display := t |}) <$> operands |}.

Definition proposal_kb : KnowledgeBase :=
  let devices := [device_of "StructureCircuitHousing" 1 [("Setting", true, true)] [] ["Data"] None;
                  device_of "StructureDiode" 2 [("On", true, true); ("Color", true, true)] [] ["Data"] None;
                  device_of "StructureWallLight" 3 [("On", true, true)] [] ["Data"] None;
                  device_of "StructureGasSensor" 4 [("Temperature", true, false); ("On", true, false)] [] ["Data"] None;
                  device_of "StructureLogicMemory" 5 [("Setting", true, true)] [("0", ["Occupied"])] ["Data"] (Some 8)] in
  let kb := kb_of 128 128 [] [] [] devices in
  {| kb_language :=
       {| la_schema_version := 1; la_game_version := ""; la_architecture := la_architecture (kb_language kb);
          la_instructions := bt_collect (("alias", listed_instruction "declaration" [("name", "str"); ("target", "r?|d?")])
            :: ((λ row, (di_mnemonic row, listed_instruction (di_category row) (di_operands row))) <$> DEVICE_INSTRUCTIONS));
          la_constants := []; la_enums := [] |};
     kb_devices := kb_devices kb; kb_resources := kb_resources kb; kb_hover := kb_hover kb; kb_conformance := kb_conformance kb |}.

Lemma proposal_kb_lists : lists_device_instructions proposal_kb.
Proof.
  intros m. unfold device_instruction_of. destruct (find_first _ DEVICE_INSTRUCTIONS) as [row|] eqn:Hrow.
  - apply find_map_Some in Hrow as (n & a & Hn & Ha). destruct (String.eqb_spec (di_mnemonic a) m) as [<-|]; [|done]. injection Ha as <-.
    unfold DEVICE_INSTRUCTIONS in Hn.
    do 17 (destruct n as [|n]; [injection Hn as <-; eexists; by vm_compute|]). done.
  - intros i Hi. unfold Knowledge.instruction in Hi. apply bt_get_elem in Hi.
    set (l := la_instructions (kb_language proposal_kb)) in Hi. vm_compute in l. subst l.
    repeat (apply elem_of_cons in Hi as [[= -> ->]|Hi]; [first [by vm_compute in Hrow|by repeat constructor]|]). by apply elem_of_nil in Hi.
Qed.


(** The name that confirms the only device there is makes it less certain. *)
Example confirmed_candidate :
  let confidence source :=
    (λ p, dp_confidence <$> ep_devices p) <$>
    match @propose_environment sample_case "" None (parse_with_options source proposal_kb default_options) proposal_kb with Ok p => Some p | _ => None end in
  confidence ("l r0 d0 Temperature") = Some [90]
  ∧ confidence ("alias sensor d0" +:+ NEWLINE +:+ "l r0 sensor Temperature") = Some [80].
Proof. split; vm_compute; reflexivity. Qed.
