(* ===== verification/Debugger.v ===== *)
(** * Breakpoints and values of a debugged simulation

    [crates/ic10-dap/src/main.rs]: when a breakpoint stops or writes its message, which
    data breakpoint has seen its place change, the values the last stop is compared with,
    and the numbers and references of the protocol.  The paths of the file system are
    texts; [canonical] stands for [Path::canonicalize] on a system other than Windows. *)

From S2P Require Import Prelude BTree Text F64 Knowledge Literals Journal Scenario World Program Cpu Exec Behaviour Vm Lua Simulator Evaluator Runner.
Local Open Scope string_scope.
Local Open Scope Z_scope.

(** ** Data *)

(** Source: [crates/ic10-dap/src/main.rs] [SourceBreakpoint] *)
Record SourceBreakpoint := {
  sb_id : Z;
  sb_line : Z;
  sb_condition : option string;
  sb_hit_condition : option string;
  sb_log_message : option string;
  sb_hits : Z;
}.

Definition set_sb_hits (hits : Z) (b : SourceBreakpoint) : SourceBreakpoint :=
  {| sb_id := sb_id b; sb_line := sb_line b; sb_condition := sb_condition b; sb_hit_condition := sb_hit_condition b;
     sb_log_message := sb_log_message b; sb_hits := hits |}.

(** Source: [crates/ic10-dap/src/main.rs] [DataBreakpoint] *)
Record DataBreakpoint := {
  db_id : Z;
  db_thread : nat;
  db_expression : string;
  db_condition : option string;
  db_hit_condition : option string;
  db_hits : Z;
}.

Definition set_db_hits (hits : Z) (b : DataBreakpoint) : DataBreakpoint :=
  {| db_id := db_id b; db_thread := db_thread b; db_expression := db_expression b; db_condition := db_condition b;
     db_hit_condition := db_hit_condition b; db_hits := hits |}.

(** Source: [crates/ic10-dap/src/main.rs] [LastException] *)
Record LastException := { le_category : string; le_message : message; le_thread : nat }.

(** Source: [crates/ic10-dap/src/main.rs] [BreakpointAction] *)
Inductive BreakpointAction :=
  | BreakIgnore
  | BreakStop
  | BreakLog (text : string).

(** [HashMap<String, f64>]: only looked up. *)
Abbreviation Values := (BTreeMap string f64).

(** ** Hit conditions *)

Definition HIT_OPERATORS : list string := [">="; "<="; "=="; "!="; ">"; "<"; "%"].

(** [u64::is_multiple_of] *)
Definition is_multiple_of (hits number : Z) : bool := if number =? 0 then hits =? 0 else hits mod number =? 0.

(** The operator a condition begins with, and the rest.
    Source: [crates/ic10-dap/src/main.rs] [hit_condition_matches] lines 4795-4803 *)
Definition hit_operator (condition : string) : string * string :=
  default ("==", condition) (find_map (λ operator, (λ rest, (operator, trim rest)) <$> strip_prefix operator condition) HIT_OPERATORS).

(** Source: [crates/ic10-dap/src/main.rs] [hit_condition_matches] *)
Definition hit_condition_matches (condition : option string) (hits : Z) : outcome message bool :=
  match trim <$> condition with
  | None | Some "" => Ok true
  | Some condition =>
      let '(operator, number) := hit_operator condition in
      match parse_u64 number with
      | None => Err [PS "`"; PS condition; PS "` must be a count such as `5`, `>= 3`, or `% 2`"]
      | Some number =>
          Ok (if String.eqb operator "==" then hits =? number
              else if String.eqb operator "!=" then negb (hits =? number)
              else if String.eqb operator ">=" then number <=? hits
              else if String.eqb operator "<=" then hits <=? number
              else if String.eqb operator ">" then number <? hits
              else if String.eqb operator "<" then hits <? number
              else if String.eqb operator "%" then is_multiple_of hits number
              else false)
      end
  end.

(** Source: [crates/ic10-dap/src/main.rs] [validate_hit_condition] *)
Definition validate_hit_condition (condition : string) : outcome message () :=
  _ ← hit_condition_matches (Some condition) 1; Ok ().

(** ** Comparing with the last stop *)

(** Source: [crates/ic10-dap/src/main.rs] [canonical_expression] *)
Definition canonical_expression (expression : string) : string :=
  concat_strings (filter (λ c, is_whitespace c = false) (chars expression)).

(** Source: [crates/ic10-dap/src/main.rs] [same_number] *)
Definition same_number (left right : f64) : bool := (f_is_nan left && f_is_nan right) || (to_bits left =? to_bits right).

(** The value of a text is another than at the last stop. *)
Definition changed_since (previous : Values) (target : string) (current : f64) : bool :=
  match bt_get (canonical_expression target) previous with
  | Some value => negb (same_number value current)
  | None => false
  end.

(** ** Categories and numbers *)

(** Source: [crates/ic10-dap/src/main.rs] [exception_category] *)
Definition exception_category (text : string) : string :=
  let lower := to_ascii_lowercase text in
  let has part := str_contains part lower in
  if has "device" || has "pin" then "device"
  else if has "address" || has "stack" || has "memory" then "address"
  else if has "access" || has "writable" || has "readable" then "access"
  else "instruction".

(** Source: [crates/ic10-dap/src/main.rs] [parse_debug_number] *)
Definition parse_debug_number (value : string) : outcome message f64 :=
  let value := trim value in
  if existsb (String.eqb value) ["NaN"; "nan"] then Ok f_nan
  else if existsb (String.eqb value) ["pinf"; "Infinity"; "+Infinity"; "inf"; "+inf"] then Ok f_inf
  else if existsb (String.eqb value) ["ninf"; "-Infinity"; "-inf"] then Ok f_neg_inf
  else ok_or (parse_f64 value) [PS "`"; PS value; PS "` is not a number"].

(** ** References of the protocol *)

Definition REGISTERS_SCOPE : Z := 1.
Definition STACK_SCOPE : Z := 2.
Definition LUA_SCOPE : Z := 12.
Definition DEVICE_SCOPE : Z := 6.
Definition NETWORK_SCOPE : Z := 8.
Definition DEVICE_SLOT_SCOPE : Z := 10.
Definition DEVICE_MEMORY_SCOPE : Z := 11.
Definition REFERENCE_KIND_SHIFT : Z := 48.
Definition REFERENCE_THREAD_SHIFT : Z := 32.
Definition REFERENCE_THREAD_MASK : Z := 65535.
Definition COMPOSITE_INDEX_BITS : Z := 16.
Definition COMPOSITE_INDEX_MASK : Z := Z.shiftl 1 COMPOSITE_INDEX_BITS - 1.

(** A shift loses the bits above 64; the sum with 1 may overflow.
    Source: [crates/ic10-dap/src/main.rs] [reference] *)
Definition reference `{Build} (kind thread index : Z) : outcome message Z :=
  next ← add_u64 index 1;
  Ok (Z.lor (Z.lor (wrap_u 64 (Z.shiftl kind REFERENCE_KIND_SHIFT)) (wrap_u 64 (Z.shiftl thread REFERENCE_THREAD_SHIFT))) next).

(** Source: [crates/ic10-dap/src/main.rs] [decode_reference] *)
Definition decode_reference (value : Z) : outcome message (Z * Z * Z) :=
  let kind := Z.shiftr value REFERENCE_KIND_SHIFT in
  let thread := Z.land (Z.shiftr value REFERENCE_THREAD_SHIFT) REFERENCE_THREAD_MASK in
  let low := Z.land value 4294967295 in
  if low <? 1 then Err [PS "invalid variable reference "; PZ value] else Ok (kind, thread, low - 1).

(** Source: [crates/ic10-dap/src/main.rs] [composite_index] *)
Definition composite_index (first second : Z) : Z :=
  Z.lor (wrap_u 64 (Z.shiftl first COMPOSITE_INDEX_BITS)) (Z.land second COMPOSITE_INDEX_MASK).

(** Source: [crates/ic10-dap/src/main.rs] [decode_composite_index] *)
Definition decode_composite_index (value : Z) : Z * Z := (Z.shiftr value COMPOSITE_INDEX_BITS, Z.land value COMPOSITE_INDEX_MASK).

(** Source: [crates/ic10-dap/src/main.rs] [goto_target_id] *)
Definition goto_target_id `{Build} (thread line : Z) : outcome message Z :=
  next ← add_u64 thread 1;
  Ok (Z.lor (wrap_u 64 (Z.shiftl next 32)) line).

(** Source: [crates/ic10-dap/src/main.rs] [decode_goto_target] *)
Definition decode_goto_target (id : Z) : outcome message (Z * Z) :=
  let thread := Z.shiftr id 32 in
  if thread <? 1 then Err [PS "invalid goto target"] else Ok (thread - 1, Z.land id U32_MAX).

(** ** Paths *)

(** [str::replace] of a character *)
Fixpoint replace_char (a : Ascii.ascii) (by_ : string) (s : string) : string :=
  match s with
  | "" => ""
  | String b s => (if Ascii.eqb a b then by_ else String b "") +:+ replace_char a by_ s
  end.

(** Source: [crates/ic10-dap/src/main.rs] [portable_path] *)
Definition portable_path (path : string) : string :=
  let displayed := replace_char (byte 92) "/" path in
  let displayed := default displayed (strip_prefix "//?/" displayed) in
  match strip_prefix "UNC/" displayed with
  | Some unc => "//" +:+ unc
  | None => displayed
  end.

(** Source: [crates/ic10-dap/src/main.rs] [normalize_path] *)
Definition normalize_path (canonical : string → option string) (path : string) : string :=
  portable_path (default path (canonical path)).

Section debugger.
Context `{Libm} `{Build} `{LuaEngine} `{FloatDisplay}.

(** Source: [crates/ic10-dap/src/main.rs] [format_number] *)
Definition format_debug_number (value : f64) : string :=
  if f_is_nan value then "NaN"
  else if f_eq value f_inf then "Infinity"
  else if f_eq value f_neg_inf then "-Infinity"
  else if f_eq value f_zero && f_sign value then "-0"
  else display_f64 value.

(** ** When a breakpoint acts *)

(** Source: [crates/ic10-dap/src/main.rs] [interpolate_log_message] lines 4825-4847 *)
Fixpoint interpolate (fuel : nat) (s : Simulator) (thread : nat) (previous : Values) (rendered rest : string) : steps string :=
  match fuel with
  | O => None
  | S fuel =>
      match split_once (byte 123) rest with
      | None =>
          Some (if str_contains "}" rest then Err [PS "logpoint has an unmatched `}`"] else Ok (rendered +:+ rest))
      | Some (before, expression) =>
          match split_once (byte 125) expression with
          | None => Some (Err [PS "logpoint has an unmatched `{`"])
          | Some (expression_text, rest) =>
              let expression_text := trim expression_text in
              if String.eqb expression_text "" then Some (Err [PS "logpoint interpolation cannot be empty"])
              else
                steps_bind (evaluate_with_changed s thread expression_text (changed_since previous)) (λ value,
                interpolate fuel s thread previous (rendered +:+ (before +:+ display value)) rest)
          end
      end
  end.

(** Every turn takes two characters from the text.
    Source: [crates/ic10-dap/src/main.rs] [interpolate_log_message] *)
Definition interpolate_log_message (s : Simulator) (thread : nat) (text : string) (previous : Values) : outcome message string :=
  ended (interpolate (S (String.length text)) s thread previous "" text).

(** Source: [crates/ic10-dap/src/main.rs] [breakpoint_action] *)
Definition breakpoint_action (s : Simulator) (thread : nat) (breakpoint : SourceBreakpoint) (hits : Z) (previous : Values) :
    outcome message BreakpointAction :=
  matches ← hit_condition_matches (sb_hit_condition breakpoint) hits;
  if negb matches then Ok BreakIgnore
  else
    holds ← match sb_condition breakpoint with
            | Some condition =>
                if negb (sb_line breakpoint =? 0)
                then value ← ended (evaluate_with_changed s thread condition (changed_since previous)); truthy value
                else Ok true
            | None => Ok true
            end;
    if negb holds then Ok BreakIgnore
    else
      match sb_log_message breakpoint with
      | None => Ok BreakStop
      | Some text => text ← interpolate_log_message s thread text previous; Ok (BreakLog text)
      end.

(** Source: [crates/ic10-dap/src/main.rs] [breakpoint_action_lua] *)
Definition breakpoint_action_lua (breakpoint : SourceBreakpoint) (hits : Z) : outcome message BreakpointAction :=
  matches ← hit_condition_matches (sb_hit_condition breakpoint) hits;
  if negb matches then Ok BreakIgnore
  else match sb_log_message breakpoint with Some text => Ok (BreakLog text) | None => Ok BreakStop end.

(** ** Data breakpoints *)

(** Source: [crates/ic10-dap/src/main.rs] [data_values] *)
Definition data_values (s : Simulator) (breakpoints : list DataBreakpoint) : outcome message (BTreeMap Z f64) :=
  fold_outcome (λ values breakpoint,
    match ended (evaluate s (db_thread breakpoint) (db_expression breakpoint)) ≫= number with
    | Ok value => Ok (bt_insert (db_id breakpoint) value values)
    | Err _ => Ok values
    | Panic => Panic
    end) [] breakpoints.

(** Whether a data breakpoint whose place has changed is to stop.
    Source: [crates/ic10-dap/src/main.rs] [changed_data_breakpoint] lines 4954-4970 *)
Definition data_condition (s : Simulator) (previous : Values) (breakpoint : DataBreakpoint) : outcome message bool :=
  matches ← hit_condition_matches (db_hit_condition breakpoint) (db_hits breakpoint);
  if negb matches then Ok false
  else
    match db_condition breakpoint with
    | Some condition => value ← ended (evaluate_with_changed s (db_thread breakpoint) condition (changed_since previous)); truthy value
    | None => Ok true
    end.

(** The first data breakpoint that stops, and the breakpoints with their counts.  An
    expression or a condition that cannot be evaluated ends the search.
    Source: [crates/ic10-dap/src/main.rs] [changed_data_breakpoint] *)
Fixpoint changed_data_breakpoint (s : Simulator) (before : BTreeMap Z f64) (previous : Values) (breakpoints : list DataBreakpoint) :
    outcome message (option string * list DataBreakpoint) :=
  match breakpoints with
  | [] => Ok (None, [])
  | breakpoint :: rest =>
      let next b := found ← changed_data_breakpoint s before previous rest; Ok (found.1, b :: found.2) in
      match ended (evaluate s (db_thread breakpoint) (db_expression breakpoint)) ≫= number with
      | Panic => Panic
      | Err _ => Ok (None, breakpoints)
      | Ok current =>
          if match bt_get (db_id breakpoint) before with Some value => same_number value current | None => true end then next breakpoint
          else
            hits ← add_u64 (db_hits breakpoint) 1;
            let breakpoint := set_db_hits hits breakpoint in
            match data_condition s previous breakpoint with
            | Panic => Panic
            | Err _ => Ok (None, breakpoint :: rest)
            | Ok false => next breakpoint
            | Ok true => Ok (Some (db_expression breakpoint), breakpoint :: rest)
            end
      end
  end.

(** ** The values of a stop *)

(** The name of a register in an expression. *)
Definition register_name (index : nat) : string :=
  if (index =? RETURN_ADDRESS_REGISTER)%nat then "ra"
  else if (index =? STACK_POINTER_REGISTER)%nat then "sp" else "r" +:+ show (Z.of_nat index).

Definition stack_place (address : nat) : string := "stack[" +:+ show (Z.of_nat address) +:+ "]".
Definition device_place (id rest : string) : string := "device(" +:+ DQUOTE +:+ id +:+ DQUOTE +:+ ")." +:+ rest.
Definition slot_place (slot : Z) (field : string) : string := "slot[" +:+ show slot +:+ "]." +:+ field.
Definition memory_place (address : nat) : string := "memory[" +:+ show (Z.of_nat address) +:+ "]".
Definition network_place (id rest : string) : string := "network(" +:+ DQUOTE +:+ id +:+ DQUOTE +:+ ")." +:+ rest.

(** [map.insert] and [map.entry(name).or_insert], one after the other *)
Definition insert_values (l : list (string * f64)) (values : Values) : Values := foldl (λ values '(name, value), bt_insert name value values) values l.
Definition keep_values (l : list (string * f64)) (values : Values) : Values :=
  foldl (λ values '(name, value), if bt_contains_key name values then values else bt_insert name value values) values l.

(** Source: [crates/ic10-dap/src/main.rs] [snapshot_values] lines 5029-5041 *)
Definition cpu_values (values : Values) (c : Cpu) : Values :=
  insert_values ((λ '(address, value), (stack_place address, value)) <$> enumerate (stack c))
    (keep_values ((λ '(index, value), (register_name index, value)) <$> take REGISTER_COUNT (enumerate (registers c))) values).

(** Source: [crates/ic10-dap/src/main.rs] [snapshot_values] lines 5043-5061 *)
Definition device_places (d : Device) : list (string * f64) :=
  (((λ '(field, value), (device_place (dev_id d) field, value)) <$> fields d)
   ++ (slots d ≫= λ '(slot, l), (λ '(field, value), (device_place (dev_id d) (slot_place slot field), value)) <$> l)
   ++ ((λ '(address, value), (device_place (dev_id d) (memory_place address), value)) <$> enumerate (memory d)))%list.

(** Source: [crates/ic10-dap/src/main.rs] [snapshot_values] lines 5062-5069 *)
Definition network_places (n : Network) : list (string * f64) :=
  (λ '(channel, value), (network_place (net_id n) ("Channel" +:+ show (Z.of_nat channel)), value)) <$> enumerate (channels n).

(** The registers of the first processor, the stack of the last one, the devices and the
    networks.
    Source: [crates/ic10-dap/src/main.rs] [snapshot_values] *)
Definition snapshot_values (s : Simulator) : Values :=
  insert_values (networks (world s) ≫= network_places)
    (insert_values (devices (world s) ≫= device_places) (foldl cpu_values [] (cpus s))).
End debugger.
