(* ===== verification/Session.v ===== *)
(** * The session of the debug adapter

    [crates/ic10-dap/src/main.rs]: the state of the adapter, the turn of its runner, and
    the requests that change the state.  The runner and the requests hold the lock of the
    state while they work, so that a session is a sequence of turns and requests.  The
    arguments of a request are decoded; what a request answers is its value, and what is
    sent to the client besides is kept in [ad_sent].  The overlay of the topology view,
    which is drawn from the effects, is left out, as are the requests that only render the
    state. *)

From S2P Require Import Prelude BTree Text F64 Knowledge Literals Journal Scenario World Program Compile Cpu Exec Behaviour Vm Lua.
From S2P Require Import Simulator Control Load Schema Evaluator Runner History Debugger.
Local Open Scope string_scope.
Local Open Scope Z_scope.

(** ** Data *)

(** What is sent to the client: [Output::stopped], and the events by their names.  After
    every stop the client is told that the state has changed. *)
Inductive Sent :=
  | SentStopped (reason : string) (thread : nat) (description : option message)
  | SentOutput (category : string) (text : message)
  | SentTerminated
  | SentContinued (thread : nat) (all_threads : bool)
  | SentStateChanged (thread : nat)
  | SentBreakpoint (id : Z) (verified : bool) (line : option Z)
  | SentLoadedSource (path : string).

(** Source: [crates/ic10-dap/src/main.rs] [RuntimeInfo] *)
Record RuntimeInfo := {
  ri_name : string;
  ri_program_id : option string;
  ri_source_path : string;
  ri_language : ProgramLanguage;
}.

(** A breakpoint of [setBreakpoints], and of [setFunctionBreakpoints] with its name. *)
Record BreakpointRequest := {
  br_line : Z;
  br_condition : option string;
  br_hit_condition : option string;
  br_log_message : option string;
}.
Record FunctionRequest := { fr_function : string; fr_hit_condition : option string }.
Record DataRequest := { dq_data_id : string; dq_condition : option string; dq_hit_condition : option string }.

Definition is_lua_info (info : RuntimeInfo) : bool := match ri_language info with LangLua => true | LangIc10 => false end.

(** What is answered of a breakpoint: its number, whether it is installed, and why not. *)
Record BreakpointAnswer := { ba_id : Z; ba_verified : bool; ba_message : option message }.

Section session.
Context `{Libm} `{Build} `{LuaEngine} `{FloatDisplay}.
Abbreviation SX := (M Simulator message).
Variable record_bytes : TraceRecord → Z.
Variable snapshot_bytes : Simulator → Z.
Variable sources_bytes : list string → Z.
Variable normalize_path : string → string.
(** [std::fs::read_to_string], and what [load_build_mapping] reads beside a program *)
Variable read_file : string → string + string.
Variable sidecars : string → option (list BuildMapEntry) * option string.

(** The state of the adapter, and the messages it has sent.  The arguments of the launch
    are kept for a restart and are left out.
    Source: [crates/ic10-dap/src/main.rs] [AdapterState] *)
Record Adapter := {
  ad_simulator : option Simulator;
  ad_breakpoints : BTreeMap string (list SourceBreakpoint);
  ad_function_breakpoints : list SourceBreakpoint;
  ad_data_breakpoints : list DataBreakpoint;
  ad_exception_filters : list string;
  ad_next_breakpoint_id : Z;
  ad_running : bool;
  ad_stop_on_entry : bool;
  ad_focus_cpu : nat;
  ad_focus_thread : nat;
  ad_runtime_infos : list RuntimeInfo;
  ad_configured : bool;
  ad_last_stop : option (nat * Z);
  ad_skip_breakpoint_once : option (nat * Z);
  ad_test_case : option TestCase;
  ad_test_tick_applied : option Z;
  ad_test_thread : nat;
  ad_test_satisfied : gset nat;
  ad_previous_values : Values;
  ad_stop_values : Values;
  ad_last_exception : option LastException;
  ad_single_thread : option nat;
  ad_history : option TraceHistory;
  ad_sent : list Sent;
}.

Definition set_ad_simulator (v : option Simulator) (x : Adapter) : Adapter :=
  {| ad_simulator := v; ad_breakpoints := ad_breakpoints x; ad_function_breakpoints := ad_function_breakpoints x; ad_data_breakpoints := ad_data_breakpoints x; ad_exception_filters := ad_exception_filters x; ad_next_breakpoint_id := ad_next_breakpoint_id x; ad_running := ad_running x; ad_stop_on_entry := ad_stop_on_entry x; ad_focus_cpu := ad_focus_cpu x; ad_focus_thread := ad_focus_thread x; ad_runtime_infos := ad_runtime_infos x; ad_configured := ad_configured x; ad_last_stop := ad_last_stop x; ad_skip_breakpoint_once := ad_skip_breakpoint_once x; ad_test_case := ad_test_case x; ad_test_tick_applied := ad_test_tick_applied x; ad_test_thread := ad_test_thread x; ad_test_satisfied := ad_test_satisfied x; ad_previous_values := ad_previous_values x; ad_stop_values := ad_stop_values x; ad_last_exception := ad_last_exception x; ad_single_thread := ad_single_thread x; ad_history := ad_history x; ad_sent := ad_sent x |}.
Definition set_ad_breakpoints (v : BTreeMap string (list SourceBreakpoint)) (x : Adapter) : Adapter :=
  {| ad_simulator := ad_simulator x; ad_breakpoints := v; ad_function_breakpoints := ad_function_breakpoints x; ad_data_breakpoints := ad_data_breakpoints x; ad_exception_filters := ad_exception_filters x; ad_next_breakpoint_id := ad_next_breakpoint_id x; ad_running := ad_running x; ad_stop_on_entry := ad_stop_on_entry x; ad_focus_cpu := ad_focus_cpu x; ad_focus_thread := ad_focus_thread x; ad_runtime_infos := ad_runtime_infos x; ad_configured := ad_configured x; ad_last_stop := ad_last_stop x; ad_skip_breakpoint_once := ad_skip_breakpoint_once x; ad_test_case := ad_test_case x; ad_test_tick_applied := ad_test_tick_applied x; ad_test_thread := ad_test_thread x; ad_test_satisfied := ad_test_satisfied x; ad_previous_values := ad_previous_values x; ad_stop_values := ad_stop_values x; ad_last_exception := ad_last_exception x; ad_single_thread := ad_single_thread x; ad_history := ad_history x; ad_sent := ad_sent x |}.
Definition set_ad_function_breakpoints (v : list SourceBreakpoint) (x : Adapter) : Adapter :=
  {| ad_simulator := ad_simulator x; ad_breakpoints := ad_breakpoints x; ad_function_breakpoints := v; ad_data_breakpoints := ad_data_breakpoints x; ad_exception_filters := ad_exception_filters x; ad_next_breakpoint_id := ad_next_breakpoint_id x; ad_running := ad_running x; ad_stop_on_entry := ad_stop_on_entry x; ad_focus_cpu := ad_focus_cpu x; ad_focus_thread := ad_focus_thread x; ad_runtime_infos := ad_runtime_infos x; ad_configured := ad_configured x; ad_last_stop := ad_last_stop x; ad_skip_breakpoint_once := ad_skip_breakpoint_once x; ad_test_case := ad_test_case x; ad_test_tick_applied := ad_test_tick_applied x; ad_test_thread := ad_test_thread x; ad_test_satisfied := ad_test_satisfied x; ad_previous_values := ad_previous_values x; ad_stop_values := ad_stop_values x; ad_last_exception := ad_last_exception x; ad_single_thread := ad_single_thread x; ad_history := ad_history x; ad_sent := ad_sent x |}.
Definition set_ad_data_breakpoints (v : list DataBreakpoint) (x : Adapter) : Adapter :=
  {| ad_simulator := ad_simulator x; ad_breakpoints := ad_breakpoints x; ad_function_breakpoints := ad_function_breakpoints x; ad_data_breakpoints := v; ad_exception_filters := ad_exception_filters x; ad_next_breakpoint_id := ad_next_breakpoint_id x; ad_running := ad_running x; ad_stop_on_entry := ad_stop_on_entry x; ad_focus_cpu := ad_focus_cpu x; ad_focus_thread := ad_focus_thread x; ad_runtime_infos := ad_runtime_infos x; ad_configured := ad_configured x; ad_last_stop := ad_last_stop x; ad_skip_breakpoint_once := ad_skip_breakpoint_once x; ad_test_case := ad_test_case x; ad_test_tick_applied := ad_test_tick_applied x; ad_test_thread := ad_test_thread x; ad_test_satisfied := ad_test_satisfied x; ad_previous_values := ad_previous_values x; ad_stop_values := ad_stop_values x; ad_last_exception := ad_last_exception x; ad_single_thread := ad_single_thread x; ad_history := ad_history x; ad_sent := ad_sent x |}.
Definition set_ad_exception_filters (v : list string) (x : Adapter) : Adapter :=
  {| ad_simulator := ad_simulator x; ad_breakpoints := ad_breakpoints x; ad_function_breakpoints := ad_function_breakpoints x; ad_data_breakpoints := ad_data_breakpoints x; ad_exception_filters := v; ad_next_breakpoint_id := ad_next_breakpoint_id x; ad_running := ad_running x; ad_stop_on_entry := ad_stop_on_entry x; ad_focus_cpu := ad_focus_cpu x; ad_focus_thread := ad_focus_thread x; ad_runtime_infos := ad_runtime_infos x; ad_configured := ad_configured x; ad_last_stop := ad_last_stop x; ad_skip_breakpoint_once := ad_skip_breakpoint_once x; ad_test_case := ad_test_case x; ad_test_tick_applied := ad_test_tick_applied x; ad_test_thread := ad_test_thread x; ad_test_satisfied := ad_test_satisfied x; ad_previous_values := ad_previous_values x; ad_stop_values := ad_stop_values x; ad_last_exception := ad_last_exception x; ad_single_thread := ad_single_thread x; ad_history := ad_history x; ad_sent := ad_sent x |}.
Definition set_ad_next_breakpoint_id (v : Z) (x : Adapter) : Adapter :=
  {| ad_simulator := ad_simulator x; ad_breakpoints := ad_breakpoints x; ad_function_breakpoints := ad_function_breakpoints x; ad_data_breakpoints := ad_data_breakpoints x; ad_exception_filters := ad_exception_filters x; ad_next_breakpoint_id := v; ad_running := ad_running x; ad_stop_on_entry := ad_stop_on_entry x; ad_focus_cpu := ad_focus_cpu x; ad_focus_thread := ad_focus_thread x; ad_runtime_infos := ad_runtime_infos x; ad_configured := ad_configured x; ad_last_stop := ad_last_stop x; ad_skip_breakpoint_once := ad_skip_breakpoint_once x; ad_test_case := ad_test_case x; ad_test_tick_applied := ad_test_tick_applied x; ad_test_thread := ad_test_thread x; ad_test_satisfied := ad_test_satisfied x; ad_previous_values := ad_previous_values x; ad_stop_values := ad_stop_values x; ad_last_exception := ad_last_exception x; ad_single_thread := ad_single_thread x; ad_history := ad_history x; ad_sent := ad_sent x |}.
Definition set_ad_running (v : bool) (x : Adapter) : Adapter :=
  {| ad_simulator := ad_simulator x; ad_breakpoints := ad_breakpoints x; ad_function_breakpoints := ad_function_breakpoints x; ad_data_breakpoints := ad_data_breakpoints x; ad_exception_filters := ad_exception_filters x; ad_next_breakpoint_id := ad_next_breakpoint_id x; ad_running := v; ad_stop_on_entry := ad_stop_on_entry x; ad_focus_cpu := ad_focus_cpu x; ad_focus_thread := ad_focus_thread x; ad_runtime_infos := ad_runtime_infos x; ad_configured := ad_configured x; ad_last_stop := ad_last_stop x; ad_skip_breakpoint_once := ad_skip_breakpoint_once x; ad_test_case := ad_test_case x; ad_test_tick_applied := ad_test_tick_applied x; ad_test_thread := ad_test_thread x; ad_test_satisfied := ad_test_satisfied x; ad_previous_values := ad_previous_values x; ad_stop_values := ad_stop_values x; ad_last_exception := ad_last_exception x; ad_single_thread := ad_single_thread x; ad_history := ad_history x; ad_sent := ad_sent x |}.
Definition set_ad_stop_on_entry (v : bool) (x : Adapter) : Adapter :=
  {| ad_simulator := ad_simulator x; ad_breakpoints := ad_breakpoints x; ad_function_breakpoints := ad_function_breakpoints x; ad_data_breakpoints := ad_data_breakpoints x; ad_exception_filters := ad_exception_filters x; ad_next_breakpoint_id := ad_next_breakpoint_id x; ad_running := ad_running x; ad_stop_on_entry := v; ad_focus_cpu := ad_focus_cpu x; ad_focus_thread := ad_focus_thread x; ad_runtime_infos := ad_runtime_infos x; ad_configured := ad_configured x; ad_last_stop := ad_last_stop x; ad_skip_breakpoint_once := ad_skip_breakpoint_once x; ad_test_case := ad_test_case x; ad_test_tick_applied := ad_test_tick_applied x; ad_test_thread := ad_test_thread x; ad_test_satisfied := ad_test_satisfied x; ad_previous_values := ad_previous_values x; ad_stop_values := ad_stop_values x; ad_last_exception := ad_last_exception x; ad_single_thread := ad_single_thread x; ad_history := ad_history x; ad_sent := ad_sent x |}.
Definition set_ad_focus_cpu (v : nat) (x : Adapter) : Adapter :=
  {| ad_simulator := ad_simulator x; ad_breakpoints := ad_breakpoints x; ad_function_breakpoints := ad_function_breakpoints x; ad_data_breakpoints := ad_data_breakpoints x; ad_exception_filters := ad_exception_filters x; ad_next_breakpoint_id := ad_next_breakpoint_id x; ad_running := ad_running x; ad_stop_on_entry := ad_stop_on_entry x; ad_focus_cpu := v; ad_focus_thread := ad_focus_thread x; ad_runtime_infos := ad_runtime_infos x; ad_configured := ad_configured x; ad_last_stop := ad_last_stop x; ad_skip_breakpoint_once := ad_skip_breakpoint_once x; ad_test_case := ad_test_case x; ad_test_tick_applied := ad_test_tick_applied x; ad_test_thread := ad_test_thread x; ad_test_satisfied := ad_test_satisfied x; ad_previous_values := ad_previous_values x; ad_stop_values := ad_stop_values x; ad_last_exception := ad_last_exception x; ad_single_thread := ad_single_thread x; ad_history := ad_history x; ad_sent := ad_sent x |}.
Definition set_ad_focus_thread (v : nat) (x : Adapter) : Adapter :=
  {| ad_simulator := ad_simulator x; ad_breakpoints := ad_breakpoints x; ad_function_breakpoints := ad_function_breakpoints x; ad_data_breakpoints := ad_data_breakpoints x; ad_exception_filters := ad_exception_filters x; ad_next_breakpoint_id := ad_next_breakpoint_id x; ad_running := ad_running x; ad_stop_on_entry := ad_stop_on_entry x; ad_focus_cpu := ad_focus_cpu x; ad_focus_thread := v; ad_runtime_infos := ad_runtime_infos x; ad_configured := ad_configured x; ad_last_stop := ad_last_stop x; ad_skip_breakpoint_once := ad_skip_breakpoint_once x; ad_test_case := ad_test_case x; ad_test_tick_applied := ad_test_tick_applied x; ad_test_thread := ad_test_thread x; ad_test_satisfied := ad_test_satisfied x; ad_previous_values := ad_previous_values x; ad_stop_values := ad_stop_values x; ad_last_exception := ad_last_exception x; ad_single_thread := ad_single_thread x; ad_history := ad_history x; ad_sent := ad_sent x |}.
Definition set_ad_runtime_infos (v : list RuntimeInfo) (x : Adapter) : Adapter :=
  {| ad_simulator := ad_simulator x; ad_breakpoints := ad_breakpoints x; ad_function_breakpoints := ad_function_breakpoints x; ad_data_breakpoints := ad_data_breakpoints x; ad_exception_filters := ad_exception_filters x; ad_next_breakpoint_id := ad_next_breakpoint_id x; ad_running := ad_running x; ad_stop_on_entry := ad_stop_on_entry x; ad_focus_cpu := ad_focus_cpu x; ad_focus_thread := ad_focus_thread x; ad_runtime_infos := v; ad_configured := ad_configured x; ad_last_stop := ad_last_stop x; ad_skip_breakpoint_once := ad_skip_breakpoint_once x; ad_test_case := ad_test_case x; ad_test_tick_applied := ad_test_tick_applied x; ad_test_thread := ad_test_thread x; ad_test_satisfied := ad_test_satisfied x; ad_previous_values := ad_previous_values x; ad_stop_values := ad_stop_values x; ad_last_exception := ad_last_exception x; ad_single_thread := ad_single_thread x; ad_history := ad_history x; ad_sent := ad_sent x |}.
Definition set_ad_configured (v : bool) (x : Adapter) : Adapter :=
  {| ad_simulator := ad_simulator x; ad_breakpoints := ad_breakpoints x; ad_function_breakpoints := ad_function_breakpoints x; ad_data_breakpoints := ad_data_breakpoints x; ad_exception_filters := ad_exception_filters x; ad_next_breakpoint_id := ad_next_breakpoint_id x; ad_running := ad_running x; ad_stop_on_entry := ad_stop_on_entry x; ad_focus_cpu := ad_focus_cpu x; ad_focus_thread := ad_focus_thread x; ad_runtime_infos := ad_runtime_infos x; ad_configured := v; ad_last_stop := ad_last_stop x; ad_skip_breakpoint_once := ad_skip_breakpoint_once x; ad_test_case := ad_test_case x; ad_test_tick_applied := ad_test_tick_applied x; ad_test_thread := ad_test_thread x; ad_test_satisfied := ad_test_satisfied x; ad_previous_values := ad_previous_values x; ad_stop_values := ad_stop_values x; ad_last_exception := ad_last_exception x; ad_single_thread := ad_single_thread x; ad_history := ad_history x; ad_sent := ad_sent x |}.
Definition set_ad_last_stop (v : option (nat * Z)) (x : Adapter) : Adapter :=
  {| ad_simulator := ad_simulator x; ad_breakpoints := ad_breakpoints x; ad_function_breakpoints := ad_function_breakpoints x; ad_data_breakpoints := ad_data_breakpoints x; ad_exception_filters := ad_exception_filters x; ad_next_breakpoint_id := ad_next_breakpoint_id x; ad_running := ad_running x; ad_stop_on_entry := ad_stop_on_entry x; ad_focus_cpu := ad_focus_cpu x; ad_focus_thread := ad_focus_thread x; ad_runtime_infos := ad_runtime_infos x; ad_configured := ad_configured x; ad_last_stop := v; ad_skip_breakpoint_once := ad_skip_breakpoint_once x; ad_test_case := ad_test_case x; ad_test_tick_applied := ad_test_tick_applied x; ad_test_thread := ad_test_thread x; ad_test_satisfied := ad_test_satisfied x; ad_previous_values := ad_previous_values x; ad_stop_values := ad_stop_values x; ad_last_exception := ad_last_exception x; ad_single_thread := ad_single_thread x; ad_history := ad_history x; ad_sent := ad_sent x |}.
Definition set_ad_skip_breakpoint_once (v : option (nat * Z)) (x : Adapter) : Adapter :=
  {| ad_simulator := ad_simulator x; ad_breakpoints := ad_breakpoints x; ad_function_breakpoints := ad_function_breakpoints x; ad_data_breakpoints := ad_data_breakpoints x; ad_exception_filters := ad_exception_filters x; ad_next_breakpoint_id := ad_next_breakpoint_id x; ad_running := ad_running x; ad_stop_on_entry := ad_stop_on_entry x; ad_focus_cpu := ad_focus_cpu x; ad_focus_thread := ad_focus_thread x; ad_runtime_infos := ad_runtime_infos x; ad_configured := ad_configured x; ad_last_stop := ad_last_stop x; ad_skip_breakpoint_once := v; ad_test_case := ad_test_case x; ad_test_tick_applied := ad_test_tick_applied x; ad_test_thread := ad_test_thread x; ad_test_satisfied := ad_test_satisfied x; ad_previous_values := ad_previous_values x; ad_stop_values := ad_stop_values x; ad_last_exception := ad_last_exception x; ad_single_thread := ad_single_thread x; ad_history := ad_history x; ad_sent := ad_sent x |}.
Definition set_ad_test_case (v : option TestCase) (x : Adapter) : Adapter :=
  {| ad_simulator := ad_simulator x; ad_breakpoints := ad_breakpoints x; ad_function_breakpoints := ad_function_breakpoints x; ad_data_breakpoints := ad_data_breakpoints x; ad_exception_filters := ad_exception_filters x; ad_next_breakpoint_id := ad_next_breakpoint_id x; ad_running := ad_running x; ad_stop_on_entry := ad_stop_on_entry x; ad_focus_cpu := ad_focus_cpu x; ad_focus_thread := ad_focus_thread x; ad_runtime_infos := ad_runtime_infos x; ad_configured := ad_configured x; ad_last_stop := ad_last_stop x; ad_skip_breakpoint_once := ad_skip_breakpoint_once x; ad_test_case := v; ad_test_tick_applied := ad_test_tick_applied x; ad_test_thread := ad_test_thread x; ad_test_satisfied := ad_test_satisfied x; ad_previous_values := ad_previous_values x; ad_stop_values := ad_stop_values x; ad_last_exception := ad_last_exception x; ad_single_thread := ad_single_thread x; ad_history := ad_history x; ad_sent := ad_sent x |}.
Definition set_ad_test_tick_applied (v : option Z) (x : Adapter) : Adapter :=
  {| ad_simulator := ad_simulator x; ad_breakpoints := ad_breakpoints x; ad_function_breakpoints := ad_function_breakpoints x; ad_data_breakpoints := ad_data_breakpoints x; ad_exception_filters := ad_exception_filters x; ad_next_breakpoint_id := ad_next_breakpoint_id x; ad_running := ad_running x; ad_stop_on_entry := ad_stop_on_entry x; ad_focus_cpu := ad_focus_cpu x; ad_focus_thread := ad_focus_thread x; ad_runtime_infos := ad_runtime_infos x; ad_configured := ad_configured x; ad_last_stop := ad_last_stop x; ad_skip_breakpoint_once := ad_skip_breakpoint_once x; ad_test_case := ad_test_case x; ad_test_tick_applied := v; ad_test_thread := ad_test_thread x; ad_test_satisfied := ad_test_satisfied x; ad_previous_values := ad_previous_values x; ad_stop_values := ad_stop_values x; ad_last_exception := ad_last_exception x; ad_single_thread := ad_single_thread x; ad_history := ad_history x; ad_sent := ad_sent x |}.
Definition set_ad_test_thread (v : nat) (x : Adapter) : Adapter :=
  {| ad_simulator := ad_simulator x; ad_breakpoints := ad_breakpoints x; ad_function_breakpoints := ad_function_breakpoints x; ad_data_breakpoints := ad_data_breakpoints x; ad_exception_filters := ad_exception_filters x; ad_next_breakpoint_id := ad_next_breakpoint_id x; ad_running := ad_running x; ad_stop_on_entry := ad_stop_on_entry x; ad_focus_cpu := ad_focus_cpu x; ad_focus_thread := ad_focus_thread x; ad_runtime_infos := ad_runtime_infos x; ad_configured := ad_configured x; ad_last_stop := ad_last_stop x; ad_skip_breakpoint_once := ad_skip_breakpoint_once x; ad_test_case := ad_test_case x; ad_test_tick_applied := ad_test_tick_applied x; ad_test_thread := v; ad_test_satisfied := ad_test_satisfied x; ad_previous_values := ad_previous_values x; ad_stop_values := ad_stop_values x; ad_last_exception := ad_last_exception x; ad_single_thread := ad_single_thread x; ad_history := ad_history x; ad_sent := ad_sent x |}.
Definition set_ad_test_satisfied (v : gset nat) (x : Adapter) : Adapter :=
  {| ad_simulator := ad_simulator x; ad_breakpoints := ad_breakpoints x; ad_function_breakpoints := ad_function_breakpoints x; ad_data_breakpoints := ad_data_breakpoints x; ad_exception_filters := ad_exception_filters x; ad_next_breakpoint_id := ad_next_breakpoint_id x; ad_running := ad_running x; ad_stop_on_entry := ad_stop_on_entry x; ad_focus_cpu := ad_focus_cpu x; ad_focus_thread := ad_focus_thread x; ad_runtime_infos := ad_runtime_infos x; ad_configured := ad_configured x; ad_last_stop := ad_last_stop x; ad_skip_breakpoint_once := ad_skip_breakpoint_once x; ad_test_case := ad_test_case x; ad_test_tick_applied := ad_test_tick_applied x; ad_test_thread := ad_test_thread x; ad_test_satisfied := v; ad_previous_values := ad_previous_values x; ad_stop_values := ad_stop_values x; ad_last_exception := ad_last_exception x; ad_single_thread := ad_single_thread x; ad_history := ad_history x; ad_sent := ad_sent x |}.
Definition set_ad_previous_values (v : Values) (x : Adapter) : Adapter :=
  {| ad_simulator := ad_simulator x; ad_breakpoints := ad_breakpoints x; ad_function_breakpoints := ad_function_breakpoints x; ad_data_breakpoints := ad_data_breakpoints x; ad_exception_filters := ad_exception_filters x; ad_next_breakpoint_id := ad_next_breakpoint_id x; ad_running := ad_running x; ad_stop_on_entry := ad_stop_on_entry x; ad_focus_cpu := ad_focus_cpu x; ad_focus_thread := ad_focus_thread x; ad_runtime_infos := ad_runtime_infos x; ad_configured := ad_configured x; ad_last_stop := ad_last_stop x; ad_skip_breakpoint_once := ad_skip_breakpoint_once x; ad_test_case := ad_test_case x; ad_test_tick_applied := ad_test_tick_applied x; ad_test_thread := ad_test_thread x; ad_test_satisfied := ad_test_satisfied x; ad_previous_values := v; ad_stop_values := ad_stop_values x; ad_last_exception := ad_last_exception x; ad_single_thread := ad_single_thread x; ad_history := ad_history x; ad_sent := ad_sent x |}.
Definition set_ad_stop_values (v : Values) (x : Adapter) : Adapter :=
  {| ad_simulator := ad_simulator x; ad_breakpoints := ad_breakpoints x; ad_function_breakpoints := ad_function_breakpoints x; ad_data_breakpoints := ad_data_breakpoints x; ad_exception_filters := ad_exception_filters x; ad_next_breakpoint_id := ad_next_breakpoint_id x; ad_running := ad_running x; ad_stop_on_entry := ad_stop_on_entry x; ad_focus_cpu := ad_focus_cpu x; ad_focus_thread := ad_focus_thread x; ad_runtime_infos := ad_runtime_infos x; ad_configured := ad_configured x; ad_last_stop := ad_last_stop x; ad_skip_breakpoint_once := ad_skip_breakpoint_once x; ad_test_case := ad_test_case x; ad_test_tick_applied := ad_test_tick_applied x; ad_test_thread := ad_test_thread x; ad_test_satisfied := ad_test_satisfied x; ad_previous_values := ad_previous_values x; ad_stop_values := v; ad_last_exception := ad_last_exception x; ad_single_thread := ad_single_thread x; ad_history := ad_history x; ad_sent := ad_sent x |}.
Definition set_ad_last_exception (v : option LastException) (x : Adapter) : Adapter :=
  {| ad_simulator := ad_simulator x; ad_breakpoints := ad_breakpoints x; ad_function_breakpoints := ad_function_breakpoints x; ad_data_breakpoints := ad_data_breakpoints x; ad_exception_filters := ad_exception_filters x; ad_next_breakpoint_id := ad_next_breakpoint_id x; ad_running := ad_running x; ad_stop_on_entry := ad_stop_on_entry x; ad_focus_cpu := ad_focus_cpu x; ad_focus_thread := ad_focus_thread x; ad_runtime_infos := ad_runtime_infos x; ad_configured := ad_configured x; ad_last_stop := ad_last_stop x; ad_skip_breakpoint_once := ad_skip_breakpoint_once x; ad_test_case := ad_test_case x; ad_test_tick_applied := ad_test_tick_applied x; ad_test_thread := ad_test_thread x; ad_test_satisfied := ad_test_satisfied x; ad_previous_values := ad_previous_values x; ad_stop_values := ad_stop_values x; ad_last_exception := v; ad_single_thread := ad_single_thread x; ad_history := ad_history x; ad_sent := ad_sent x |}.
Definition set_ad_single_thread (v : option nat) (x : Adapter) : Adapter :=
  {| ad_simulator := ad_simulator x; ad_breakpoints := ad_breakpoints x; ad_function_breakpoints := ad_function_breakpoints x; ad_data_breakpoints := ad_data_breakpoints x; ad_exception_filters := ad_exception_filters x; ad_next_breakpoint_id := ad_next_breakpoint_id x; ad_running := ad_running x; ad_stop_on_entry := ad_stop_on_entry x; ad_focus_cpu := ad_focus_cpu x; ad_focus_thread := ad_focus_thread x; ad_runtime_infos := ad_runtime_infos x; ad_configured := ad_configured x; ad_last_stop := ad_last_stop x; ad_skip_breakpoint_once := ad_skip_breakpoint_once x; ad_test_case := ad_test_case x; ad_test_tick_applied := ad_test_tick_applied x; ad_test_thread := ad_test_thread x; ad_test_satisfied := ad_test_satisfied x; ad_previous_values := ad_previous_values x; ad_stop_values := ad_stop_values x; ad_last_exception := ad_last_exception x; ad_single_thread := v; ad_history := ad_history x; ad_sent := ad_sent x |}.
Definition set_ad_history (v : option TraceHistory) (x : Adapter) : Adapter :=
  {| ad_simulator := ad_simulator x; ad_breakpoints := ad_breakpoints x; ad_function_breakpoints := ad_function_breakpoints x; ad_data_breakpoints := ad_data_breakpoints x; ad_exception_filters := ad_exception_filters x; ad_next_breakpoint_id := ad_next_breakpoint_id x; ad_running := ad_running x; ad_stop_on_entry := ad_stop_on_entry x; ad_focus_cpu := ad_focus_cpu x; ad_focus_thread := ad_focus_thread x; ad_runtime_infos := ad_runtime_infos x; ad_configured := ad_configured x; ad_last_stop := ad_last_stop x; ad_skip_breakpoint_once := ad_skip_breakpoint_once x; ad_test_case := ad_test_case x; ad_test_tick_applied := ad_test_tick_applied x; ad_test_thread := ad_test_thread x; ad_test_satisfied := ad_test_satisfied x; ad_previous_values := ad_previous_values x; ad_stop_values := ad_stop_values x; ad_last_exception := ad_last_exception x; ad_single_thread := ad_single_thread x; ad_history := v; ad_sent := ad_sent x |}.
Definition set_ad_sent (v : list Sent) (x : Adapter) : Adapter :=
  {| ad_simulator := ad_simulator x; ad_breakpoints := ad_breakpoints x; ad_function_breakpoints := ad_function_breakpoints x; ad_data_breakpoints := ad_data_breakpoints x; ad_exception_filters := ad_exception_filters x; ad_next_breakpoint_id := ad_next_breakpoint_id x; ad_running := ad_running x; ad_stop_on_entry := ad_stop_on_entry x; ad_focus_cpu := ad_focus_cpu x; ad_focus_thread := ad_focus_thread x; ad_runtime_infos := ad_runtime_infos x; ad_configured := ad_configured x; ad_last_stop := ad_last_stop x; ad_skip_breakpoint_once := ad_skip_breakpoint_once x; ad_test_case := ad_test_case x; ad_test_tick_applied := ad_test_tick_applied x; ad_test_thread := ad_test_thread x; ad_test_satisfied := ad_test_satisfied x; ad_previous_values := ad_previous_values x; ad_stop_values := ad_stop_values x; ad_last_exception := ad_last_exception x; ad_single_thread := ad_single_thread x; ad_history := ad_history x; ad_sent := v |}.

Abbreviation DX := (M Adapter message).

Definition send (m : Sent) : DX () := modify (λ a, set_ad_sent (ad_sent a ++ [m])%list a).

(** [AdapterState::default] *)
Definition adapter_default : Adapter :=
  {| ad_simulator := None; ad_breakpoints := []; ad_function_breakpoints := []; ad_data_breakpoints := [];
     ad_exception_filters := []; ad_next_breakpoint_id := 0; ad_running := false; ad_stop_on_entry := false; ad_focus_cpu := 0;
     ad_focus_thread := 0; ad_runtime_infos := []; ad_configured := false; ad_last_stop := None; ad_skip_breakpoint_once := None;
     ad_test_case := None; ad_test_tick_applied := None; ad_test_thread := 0; ad_test_satisfied := ∅; ad_previous_values := [];
     ad_stop_values := []; ad_last_exception := None; ad_single_thread := None; ad_history := None; ad_sent := [] |}.

(** ** The simulation of the adapter *)

Definition no_simulation : message := [PS "no simulation is loaded"].

(** [adapter.simulator.as_mut().ok_or_else(...)?] and a call on it. *)
Definition on_simulator {A} (m : SX A) : DX A := λ a,
  match ad_simulator a with
  | None => (Err no_simulation, a)
  | Some s => let '(r, s) := m s in (r, set_ad_simulator (Some s) a)
  end.

(** A call whose [Result] is kept. *)
Definition kept_result {A} (m : SX A) : SX (message + A) := λ s,
  let '(r, s) := m s in
  (match r with Ok a => Ok (inr a) | Err e => Ok (inl e) | Panic => Panic end, s).

Definition left_of {A B} (x : A + B) : option A := match x with inl a => Some a | inr _ => None end.

(** Source: [crates/ic10-dap/src/main.rs] [runtime_line] *)
Definition runtime_line (s : Simulator) (runtime : nat) : option Z :=
  match cpus s !! runtime with
  | Some c => Some (default (pc c) (current_line c))
  | None =>
      (λ r, match last (ls_frames (lp_shared r)) with
            | Some frame => Z.max 0 (fr_line frame - 1)
            | None => Z.max 0 (ls_line (lp_shared r) - 1)
            end) <$> lua_programs s !! (runtime - length (cpus s))%nat
  end.

(** Source: [crates/ic10-dap/src/main.rs] [runtime_source_path] *)
Definition runtime_source_path (s : Simulator) (runtime : nat) : option string :=
  (λ r, let path := ls_source_path (lp_shared r) in if String.eqb path "" then lp_source_path r else path)
  <$> lua_programs s !! (runtime - length (cpus s))%nat.

(** [simulator.cpus.get(thread).and_then(|cpu| cpu.current_line())] *)
Definition cpu_line (thread : nat) (s : Simulator) : option Z := cpus s !! thread ≫= current_line.

Definition at_thread (thread : nat) (line : option Z) : option (nat * Z) := pair thread <$> line.

(** [history.record] on the simulation, when there is a history.
    Source: [crates/ic10-dap/src/main.rs] [spawn_runner] lines 1097-1106 *)
Definition record_event (thread : nat) (line : Z) (action : ReplayAction) (effects : EffectBatch) (error : option message) : DX () :=
  λ a,
  match ad_history a, ad_simulator a with
  | Some h, Some s =>
      match record record_bytes snapshot_bytes sources_bytes s thread line action effects error h with
      | Ok (Some h) => (Ok (), set_ad_history (Some h) a)
      | Ok None | Panic => (Panic, a)
      | Err e => (Err e, a)
      end
  | _, _ => (Ok (), a)
  end.

Definition alter_history (f : TraceHistory → TraceHistory) : DX () := modify (λ a, set_ad_history (f <$> ad_history a) a).

(** [history.record_stop]
    Source: [crates/ic10-dap/src/main.rs] [spawn_runner] lines 1173-1181 *)
Definition record_stopped (thread : nat) (line : Z) (reason : string) : DX () := λ a,
  match ad_history a, ad_simulator a with
  | Some h, Some s =>
      match record_stop record_bytes snapshot_bytes sources_bytes s thread line reason h with
      | Ok (Some h) => (Ok (), set_ad_history (Some h) a)
      | Ok None | Panic => (Panic, a)
      | Err e => (Err e, a)
      end
  | _, _ => (Ok (), a)
  end.

(** The effects of an edit or a stimulus are taken and recorded as an external event,
    under its name. *)
Definition record_external (thread : nat) (line : Z) (name : string) : DX () :=
  effects ← on_simulator take_effects;
  _ ← record_event thread line ActExternal effects None;
  alter_history (mark_stop name).

(** Source: [crates/ic10-dap/src/main.rs] [capture_previous_values] *)
Definition capture_previous_values : DX () := modify (λ a,
  match ad_simulator a with
  | Some s => set_ad_stop_values (snapshot_values s) (set_ad_previous_values (ad_stop_values a) a)
  | None => a
  end).

(** The hits of the breakpoint of a number; the numbers of breakpoints differ.
    Source: [crates/ic10-dap/src/main.rs] [update_breakpoint_hits] *)
Definition update_breakpoint_hits (id hits : Z) : DX () := modify (λ a,
  let update := map (λ b, if sb_id b =? id then set_sb_hits hits b else b) in
  set_ad_function_breakpoints (update (ad_function_breakpoints a))
    (set_ad_breakpoints (map (λ '(path, breakpoints), (path, update breakpoints)) (ad_breakpoints a)) a)).

(** ** Tests under the debugger *)

(** Source: [crates/ic10-dap/src/main.rs] [apply_test_tick] lines 1527-1540 *)
Definition apply_stimuli (thread : nat) (case : TestCase) : SX () :=
  current_tick ← gets tick;
  let stimulus text entry : SX () :=
    let '(target, value) := entry : string * Scalar in
    value ← lift (scalar_as_f64 value);
    result ← kept_result (set_value thread target value);
    match result with
    | inl error => throw ([PS text; PS target; PS "` failed: "] ++ error)%list
    | inr _ => mret ()
    end in
  for_each (λ entry,
    _ ← for_each (stimulus "test stimulus `") (tl_set entry);
    for_each (stimulus "test event `") ((λ event, (se_target event, se_value event)) <$> tl_events entry))
    (List.filter (λ entry, tl_tick entry =? current_tick) (tc_timeline case)).

(** Source: [crates/ic10-dap/src/main.rs] [apply_test_tick] lines 1547-1567 *)
Definition test_matches (assertion : Assertion) (actual : Value) : outcome message bool :=
  match as_expected assertion with
  | Some expected =>
      actual ← number actual;
      expected ← scalar_as_f64 expected;
      Ok (if f_is_nan actual || f_is_nan expected then f_is_nan actual && f_is_nan expected
          else if f_is_infinite actual || f_is_infinite expected || (f_eq actual f_zero && f_eq expected f_zero)
          then to_bits actual =? to_bits expected
          else
            let '(absolute, relative) :=
              match as_tolerance assertion with Some t => (to_absolute t, to_relative t) | None => (f_zero, f_zero) end in
            f_le (f_abs (f_sub actual expected)) (f_max absolute (f_mul relative (f_max (f_abs actual) (f_abs expected)))))
  | None => truthy actual
  end.

Definition test_failure (s : Simulator) (text : string) (expected : string) (actual : Value) : message :=
  [PS "test assertion failed at tick "; PZ (tick s); PS ": `"; PS text; PS "` expected "; PS expected; PS ", actual ";
   PS (display actual)].

(** One assertion; the satisfied ones are collected.
    Source: [crates/ic10-dap/src/main.rs] [apply_test_tick] lines 1541-1597 *)
Definition check_assertion (s : Simulator) (thread : nat) (case : TestCase) (satisfied : gset nat) (entry : nat * Assertion) :
    outcome message (gset nat) :=
  let '(index, assertion) := entry in
  text ← expression assertion;
  if is_some_and (λ t, negb (t =? tick s)) (as_at_tick assertion) then Ok satisfied
  else
    actual ← ended (evaluate s thread text);
    matches ← test_matches assertion actual;
    if is_some (as_eventually assertion) then
      if matches : bool then Ok ({[index]} ∪ satisfied)
      else if (default (tc_max_ticks case) (as_within_ticks assertion) <=? tick s) && negb (bool_decide (index ∈ satisfied))
      then Err (test_failure s text "true" actual)
      else Ok satisfied
    else if (is_some (as_always assertion) || is_some_and (Z.eqb (tick s)) (as_at_tick assertion)
             || (negb (is_some (as_at_tick assertion)) && (tick s =? tc_max_ticks case))) && negb matches
    then
      expected ← match as_expected assertion with
                 | Some value => value ← scalar_as_f64 value; Ok (format_debug_number value)
                 | None => Ok "true"
                 end;
      Err (test_failure s text expected actual)
    else Ok satisfied.

(** Source: [crates/ic10-dap/src/main.rs] [apply_test_tick] *)
Definition apply_test_tick (thread : nat) (case : TestCase) (satisfied : gset nat) : SX (gset nat) :=
  count ← gets (λ s, length (cpus s));
  if (count <=? thread)%nat then throw [PS "debug test plans currently target IC10 runtimes"]
  else
    _ ← apply_stimuli thread case;
    ((λ s, (fold_outcome (check_assertion s thread case) satisfied (enumerate (tc_assertions case)), s)) : SX (gset nat)).

(** Source: [crates/ic10-dap/src/main.rs] [apply_pending_test] *)
Definition apply_pending_test : DX () :=
  case ← gets ad_test_case;
  match case with
  | None => mret ()
  | Some case =>
      now ← on_simulator (gets tick);
      applied ← gets ad_test_tick_applied;
      if bool_decide (applied = Some now) then mret ()
      else
        thread ← gets ad_test_thread;
        satisfied ← gets ad_test_satisfied;
        satisfied ← on_simulator (apply_test_tick thread case satisfied);
        _ ← modify (λ a, set_ad_test_satisfied satisfied (set_ad_test_tick_applied (Some now) a));
        tracing ← gets (λ a, is_some (ad_history a));
        when tracing
          (line ← on_simulator (gets (λ s, default 0 (runtime_line s thread)));
           record_external thread line "stimulus")
  end.

(** ** The runner *)

(** The thread that stopped, the reason, and a description. *)
Definition Stop : Type := nat * string * option message.

(** The test that is due at the tick of the simulation.
    Source: [crates/ic10-dap/src/main.rs] [spawn_runner] lines 868-876 *)
Definition pending_case (a : Adapter) : option TestCase :=
  case ← ad_test_case a;
  s ← ad_simulator a;
  if bool_decide (ad_test_tick_applied a = Some (tick s)) then None else Some case.

(** What a test that is due leads to: its tick and the satisfied assertions, or the stop
    of a failed one with its location.
    Source: [crates/ic10-dap/src/main.rs] [spawn_runner] lines 886-917 *)
Definition run_pending : DX (option (Z * gset nat) * option (Stop * option (nat * Z))) :=
  pending ← gets pending_case;
  match pending with
  | None => mret (None, None)
  | Some case =>
      thread ← gets ad_test_thread;
      satisfied ← gets ad_test_satisfied;
      now ← on_simulator (gets tick);
      result ← on_simulator (kept_result (apply_test_tick thread case satisfied));
      match result with
      | inr satisfied =>
          tracing ← gets (λ a, is_some (ad_history a));
          _ ← when tracing
            (c ← on_simulator (get_or_panic (λ s, cpus s !! thread));
             record_external thread (default 0 (current_line c)) "stimulus");
          mret (Some (now, satisfied), None)
      | inl error =>
          line ← on_simulator (gets (cpu_line thread));
          mret (None, Some ((thread, "exception", Some error), at_thread thread line))
      end
  end.

(** The location that runs next: that of the single thread, or the one of the scheduler.
    Source: [crates/ic10-dap/src/main.rs] [spawn_runner] lines 923-932 *)
Definition next_location : DX (option (nat * Z)) :=
  single ← gets ad_single_thread;
  match single with
  | Some thread => on_simulator (gets (λ s, at_thread thread (runtime_line s thread)))
  | None => on_simulator next_scheduled_location
  end.

(** The breakpoints of a source at a line. *)
Definition breakpoints_at (path : string) (line : Z) (a : Adapter) : list SourceBreakpoint :=
  List.filter (λ b, sb_line b =? line) (default [] (bt_get path (ad_breakpoints a))).

(** The name of the first label whose operation is at a line.
    Source: [crates/ic10-dap/src/main.rs] [spawn_runner] lines 1012-1017 *)
Definition label_at (p : Program) (line : Z) : option string :=
  find_map (λ '(name, target),
    match operation_at_or_after p target with
    | Some operation => if op_line operation =? line then Some name else None
    | None => None
    end) (labels p).

(** The breakpoints at the location of a processor: those of its source, and those of its
    label.
    Source: [crates/ic10-dap/src/main.rs] [spawn_runner] lines 1009-1039 *)
Definition ic10_candidates (p : Program) (line : Z) (a : Adapter) : list SourceBreakpoint :=
  (breakpoints_at (normalize_path (debug_source_path p)) (debug_line p line + 1) a
   ++ match label_at p line with
      | Some label => List.filter (λ b, bool_decide (sb_condition b = Some label)) (ad_function_breakpoints a)
      | None => []
      end)%list.

(** Source: [crates/ic10-dap/src/main.rs] [spawn_runner] lines 940-961 *)
Definition lua_candidates (s : Simulator) (thread : nat) (line : Z) (a : Adapter) : list SourceBreakpoint :=
  let path := option_or (runtime_source_path s thread) (ri_source_path <$> ad_runtime_infos a !! thread) in
  match path with Some path => breakpoints_at (normalize_path path) (line + 1) a | None => [] end.

(** Whether a breakpoint stops; what it writes, and the error of its expressions, are
    sent.
    Source: [crates/ic10-dap/src/main.rs] [spawn_runner] lines 1050-1061 *)
Definition report_action (action : outcome message BreakpointAction) : DX bool :=
  match action with
  | Ok BreakIgnore => mret false
  | Ok BreakStop => mret true
  | Ok (BreakLog text) => _ ← send (SentOutput "console" [PS text; PS NEWLINE]); mret false
  | Err text => _ ← send (SentOutput "stderr" ([PS "Breakpoint "] ++ text ++ [PS NEWLINE])%list); mret false
  | Panic => panic
  end.

(** Source: [crates/ic10-dap/src/main.rs] [spawn_runner] lines 1043-1049 *)
Definition try_ic10 (s : Simulator) (thread : nat) (breakpoint : SourceBreakpoint) (hits : Z) : DX bool :=
  previous ← gets ad_previous_values;
  report_action (breakpoint_action s thread breakpoint hits previous).

(** Source: [crates/ic10-dap/src/main.rs] [spawn_runner] lines 962-975 *)
Definition try_lua (breakpoint : SourceBreakpoint) (hits : Z) : DX bool :=
  match sb_condition breakpoint with
  | Some _ =>
      _ ← send (SentOutput "stderr" [PS "Lua breakpoint conditions are pending simulator Lua-scope evaluation."; PS NEWLINE]);
      mret false
  | None => report_action (breakpoint_action_lua breakpoint hits)
  end.

(** Every breakpoint is counted and tried; whether one of them stops.
    Source: [crates/ic10-dap/src/main.rs] [spawn_runner] lines 1040-1062 *)
Fixpoint try_breakpoints (try_one : SourceBreakpoint → Z → DX bool) (candidates : list SourceBreakpoint) : DX bool :=
  match candidates with
  | [] => mret false
  | candidate :: rest =>
      hits ← lift (add_u64 (sb_hits candidate) 1);
      _ ← update_breakpoint_hits (sb_id candidate) hits;
      stops ← try_one candidate hits;
      more ← try_breakpoints try_one rest;
      mret (stops || more)
  end.

(** What a turn leads to: a stop, and whether its values are kept for comparison. *)
Definition Turn : Type := option Stop * bool.

(** Source: [crates/ic10-dap/src/main.rs] [spawn_runner] lines 1063-1067 *)
Definition stop_at (location : nat * Z) : DX Turn :=
  _ ← modify (λ a, set_ad_last_stop (Some location) (set_ad_running false a));
  mret (Some (location.1, "breakpoint", None), true).

(** Source: [crates/ic10-dap/src/main.rs] [spawn_runner] lines 1142-1146 *)
Definition set_exception (category : string) (text : message) (thread : nat) : DX () :=
  modify (set_ad_last_exception (Some {| le_category := category; le_message := text; le_thread := thread |})).

(** A step of the scheduler for the location of a Lua program.
    Source: [crates/ic10-dap/src/main.rs] [spawn_runner] lines 981-1007 *)
Definition step_lua (thread : nat) (line : Z) : DX Turn :=
  _ ← modify (λ a,
    if bool_decide (ad_skip_breakpoint_once a = Some (thread, line)) then set_ad_skip_breakpoint_once None a else a);
  result ← on_simulator (kept_result scheduler_step);
  effects ← on_simulator take_effects;
  _ ← record_event thread line ActScheduled effects (left_of result);
  match result with
  | inl error =>
      _ ← modify (set_ad_running false);
      _ ← set_exception (exception_category (message_text error)) error thread;
      mret (Some (thread, "exception", Some error), true)
  | inr _ => mret (None, false)
  end.

(** Source: [crates/ic10-dap/src/main.rs] [spawn_runner] lines 1076-1080 *)
Definition run_location (thread : nat) (single : bool) : SX () :=
  if single then _ ← step_instruction thread; mret () else _ ← scheduler_step; mret ().

(** What the result of a step leads to.
    Source: [crates/ic10-dap/src/main.rs] [spawn_runner] lines 1107-1152 *)
Definition after_step (thread : nat) (line : Z) (name : option string) (before_data : BTreeMap Z f64) (previous : Values)
    (result : message + ()) : DX (option Stop) :=
  match result with
  | inr _ =>
      filters ← gets ad_exception_filters;
      if bool_decide (name = Some "hcf") && existsb (String.eqb "hcf") filters then
        let text := [PS "IC executed explicit `hcf`."] in
        _ ← modify (set_ad_running false);
        _ ← set_exception "hcf" text thread;
        mret (Some (thread, "exception", Some text))
      else
        s ← on_simulator (gets id);
        breakpoints ← gets ad_data_breakpoints;
        found ← lift (changed_data_breakpoint s before_data previous breakpoints);
        _ ← modify (set_ad_data_breakpoints found.2);
        match found.1 with
        | Some text =>
            _ ← modify (set_ad_running false);
            mret (Some (thread, "data breakpoint", Some [PS "Data breakpoint `"; PS text; PS "` changed."]))
        | None => mret None
        end
  | inl error =>
      let category := exception_category (message_text error) in
      _ ← modify (λ a, set_ad_last_stop (Some (thread, line)) (set_ad_running false a));
      _ ← set_exception category error thread;
      filters ← gets ad_exception_filters;
      mret (if match filters with [] => true | _ => existsb (String.eqb category) filters end
            then Some (thread, "exception", Some error) else None)
  end.

(** A step of a processor, recorded.
    Source: [crates/ic10-dap/src/main.rs] [spawn_runner] lines 1068-1160 *)
Definition step_ic10 (thread : nat) (line : Z) : DX Turn :=
  skip ← gets ad_skip_breakpoint_once;
  s ← on_simulator (gets id);
  breakpoints ← gets ad_data_breakpoints;
  before_data ← lift (data_values s breakpoints);
  previous ← gets ad_previous_values;
  c ← on_simulator (get_or_panic (λ s, cpus s !! thread));
  single ← gets (λ a, bool_decide (ad_single_thread a = Some thread));
  result ← on_simulator (kept_result (run_location thread single));
  effects ← on_simulator take_effects;
  _ ← record_event thread line (if single : bool then ActInstruction thread else ActScheduled) effects (left_of result);
  stop ← after_step thread line (mnemonic <$> current_operation c) before_data previous result;
  _ ← when (is_some stop) (modify (set_ad_last_stop (Some (thread, line))));
  _ ← when (bool_decide (skip = Some (thread, line))) (modify (set_ad_skip_breakpoint_once None));
  mret (stop, is_some stop).

(** The breakpoints of a location are tried, and it stops or runs; a location that was
    left by continuing does not stop again.
    Source: [crates/ic10-dap/src/main.rs] [spawn_runner] lines 934-1162 *)
Definition visit (thread : nat) (line : Z) : DX Turn :=
  s ← on_simulator (gets id);
  skip ← gets ad_skip_breakpoint_once;
  match cpus s !! thread with
  | None =>
      candidates ← gets (lua_candidates s thread line);
      stops ← try_breakpoints try_lua candidates;
      if stops && negb (bool_decide (skip = Some (thread, line))) then stop_at (thread, line) else step_lua thread line
  | Some c =>
      candidates ← gets (ic10_candidates (program c) line);
      stops ← try_breakpoints (try_ic10 s thread) candidates;
      if stops && negb (bool_decide (skip = Some (thread, line))) then stop_at (thread, line) else step_ic10 thread line
  end.

(** The end of a turn: the test that was applied, the stop in the history, the values of
    the stop, and the messages.
    Source: [crates/ic10-dap/src/main.rs] [spawn_runner] lines 1164-1220 *)
Definition end_turn (applied : option (Z * gset nat)) (failed : option (option (nat * Z))) (turn : Turn) (terminated : bool) : DX () :=
  _ ← match applied with
      | Some (now, satisfied) => modify (λ a, set_ad_test_satisfied satisfied (set_ad_test_tick_applied (Some now) a))
      | None => mret ()
      end;
  _ ← match failed with
      | Some location => modify (λ a, set_ad_last_stop location (set_ad_running false a))
      | None => mret ()
      end;
  _ ← match turn.1 with
      | Some (thread, reason, _) =>
          line ← on_simulator (gets (cpu_line thread));
          record_stopped thread (default 0 line) reason
      | None => mret ()
      end;
  _ ← when turn.2 capture_previous_values;
  match turn.1 with
  | Some (thread, reason, description) => send (SentStopped reason thread description)
  | None => when terminated (send SentTerminated)
  end.

(** One turn of the runner.
    Source: [crates/ic10-dap/src/main.rs] [spawn_runner] lines 855-1226 *)
Definition run_turn : DX () :=
  running ← gets ad_running;
  if negb running then mret ()
  else
    loaded ← gets (λ a, is_some (ad_simulator a));
    if negb loaded then modify (set_ad_running false)
    else
      pending ← run_pending;
      match pending.2 with
      | Some (stop, location) => end_turn pending.1 (Some location) (Some stop, false) false
      | None =>
          finished ← on_simulator (gets is_finished);
          if finished : bool then _ ← modify (set_ad_running false); end_turn pending.1 None (None, false) true
          else
            location ← next_location;
            turn ← match location with Some (thread, line) => visit thread line | None => mret (None, false) end;
            end_turn pending.1 None turn false
      end.

(** ** Requests: running *)

(** [thread_index]: the [threadId] of a request; threads are counted from one.
    Source: [crates/ic10-dap/src/main.rs] [thread_index] *)
Definition thread_index (thread_id : option Z) : outcome message nat :=
  match thread_id with
  | Some id => if id <? 1 then Err [PS "request requires a valid threadId"] else Ok (Z.to_nat (id - 1))
  | None => Err [PS "request requires a valid threadId"]
  end.

(** [thread_index(...).unwrap_or(other)] *)
Definition thread_or (other : nat) (thread_id : option Z) : nat :=
  match thread_index thread_id with Ok thread => thread | _ => other end.

(** [threadId.unwrap_or(1).saturating_sub(1)] *)
Definition thread_from_one (thread_id : option Z) : nat := Z.to_nat (default 1 thread_id - 1).

(** Source: [crates/ic10-dap/src/main.rs] [configuration_done] *)
Definition configuration_done : DX () :=
  _ ← modify (set_ad_configured true);
  stop_on_entry ← gets ad_stop_on_entry;
  if stop_on_entry : bool then
    thread ← gets ad_focus_thread;
    line ← on_simulator (gets (λ s, runtime_line s thread));
    _ ← modify (set_ad_last_stop (at_thread thread line));
    send (SentStopped "entry" thread None)
  else modify (set_ad_running true).

(** Source: [crates/ic10-dap/src/main.rs] [continue_execution] *)
Definition continue_execution (single_thread : bool) (thread_id : option Z) : DX () :=
  _ ← on_simulator (mret ());
  focus ← gets ad_focus_thread;
  let thread := thread_or focus thread_id in
  _ ← modify (λ a,
    set_ad_running true
      (set_ad_single_thread (if single_thread then Some thread else None)
        (set_ad_last_stop None (set_ad_skip_breakpoint_once (ad_last_stop a) a))));
  _ ← when single_thread
    (send (SentOutput "console"
       [PS "Warning: single-thread continue bypasses normal coordinated world scheduling."; PS NEWLINE]));
  send (SentContinued thread (negb single_thread)).

(** Source: [crates/ic10-dap/src/main.rs] [pause] *)
Definition pause (thread_id : option Z) : DX () :=
  let thread := thread_or 0 thread_id in
  _ ← modify (λ a, set_ad_single_thread None (set_ad_running false a));
  _ ← capture_previous_values;
  send (SentStopped "pause" thread None).

(** A step of the scheduler, for a Lua program.
    Source: [crates/ic10-dap/src/main.rs] [step_instruction] lines 4101-4147 *)
Definition step_scheduler (thread : nat) : DX () :=
  line ← on_simulator (gets (λ s, default 0 (runtime_line s thread)));
  result ← on_simulator (kept_result scheduler_step);
  next_line ← on_simulator (gets (λ s, runtime_line s thread));
  effects ← on_simulator take_effects;
  _ ← record_event thread line ActScheduled effects (left_of result);
  _ ← modify (set_ad_last_stop (at_thread thread next_line));
  match result with
  | inl error =>
      _ ← set_exception (exception_category (message_text error)) error thread;
      send (SentStopped "exception" thread (Some error))
  | inr _ => send (SentStopped "step" thread None)
  end.

(** An instruction of a processor, whether or not it is its turn.
    Source: [crates/ic10-dap/src/main.rs] [step_instruction] lines 4148-4193 *)
Definition step_processor (thread : nat) : DX () :=
  line ← on_simulator (gets (λ s, default 0 (cpu_line thread s)));
  result ← on_simulator (kept_result (step_instruction thread));
  next_line ← on_simulator (gets (cpu_line thread));
  effects ← on_simulator take_effects;
  _ ← record_event thread line (ActInstruction thread) effects (left_of result);
  _ ← modify (set_ad_last_stop (at_thread thread next_line));
  _ ← match result with
      | inl error => set_exception (exception_category (message_text error)) error thread
      | inr _ => mret ()
      end;
  _ ← capture_previous_values;
  send (SentStopped (match result with inl _ => "exception" | inr _ => "step" end) thread (left_of result)).

(** [next], [stepIn] and [stepOut].
    Source: [crates/ic10-dap/src/main.rs] [step_instruction] *)
Definition step_request (thread_id : option Z) : DX () :=
  thread ← lift (thread_index thread_id);
  _ ← modify (λ a, set_ad_single_thread None (set_ad_running false a));
  _ ← apply_pending_test;
  count ← on_simulator (gets (λ s, length (cpus s)));
  if (count <=? thread)%nat then step_scheduler thread else step_processor thread.

(** A tick of the world, and the tick that has come.  An error of the tick leaves its
    effects pending and unrecorded.
    Source: [crates/ic10-dap/src/main.rs] [step_tick] *)
Definition step_tick (thread_id : option Z) : DX Z :=
  let thread := thread_from_one thread_id in
  _ ← modify (λ a, set_ad_single_thread None (set_ad_running false a));
  _ ← apply_pending_test;
  line ← on_simulator (gets (λ s, default 0 (runtime_line s thread)));
  events ← on_simulator step_world_tick;
  _ ← lift (expect events);
  next_line ← on_simulator (gets (λ s, runtime_line s thread));
  now ← on_simulator (gets tick);
  effects ← on_simulator take_effects;
  _ ← record_event thread line ActWorldTick effects None;
  _ ← modify (set_ad_last_stop (at_thread thread next_line));
  _ ← capture_previous_values;
  _ ← send (SentStopped "step" thread (Some [PS "Completed one simulated world tick."]));
  mret now.

(** The processor goes on at another line; nothing is recorded.
    Source: [crates/ic10-dap/src/main.rs] [goto_location] *)
Definition goto_location (target_id : Z) : DX () :=
  target ← lift (decode_goto_target target_id);
  let '(thread, line) := (Z.to_nat target.1, target.2) in
  running ← gets ad_running;
  if running : bool then throw [PS "pause the simulation before running to a source location"]
  else
    c ← on_simulator (gets (λ s, cpus s !! thread));
    c ← lift (ok_or c [PS "unknown thread "; PZ (Z.of_nat thread + 1)]);
    if negb (bt_contains_key line (operations (program c))) then throw [PS "goto target is no longer executable"]
    else
      _ ← on_simulator (alter_cpu thread (set_pc line));
      _ ← modify (set_ad_last_stop (Some (thread, line)));
      send (SentStopped "goto" thread None).

(** ** Requests: the history *)

Definition no_history : message := [PS "reversible history is disabled for this launch"].

(** Source: [crates/ic10-dap/src/main.rs] [record_source] *)
Definition record_source (h : TraceHistory) (r : TraceRecord) : string := default "" (sources h !! Z.to_nat (rc_source_id r)).

(** The records up to the cursor that satisfy a test. *)
Definition count_records (h : TraceHistory) (f : TraceRecord → bool) : Z :=
  Z.of_nat (length (List.filter (λ r, (rc_sequence r <=? cursor h) && f r) (records h))).

(** A write of a record is to the place of an expression. *)
Definition writes_expression (s : Simulator) (text : string) (r : TraceRecord) : outcome message bool :=
  found ← find_outcome (λ w, name ← effect_target_name (w_target w) s; Ok (if String.eqb name text then Some () else None))
            (writes (rc_effects r));
  Ok (is_some found).

(** Source: [crates/ic10-dap/src/main.rs] [reconcile_reversible_bookkeeping] lines 5088-5100 *)
Definition recount_source (h : TraceHistory) (path : string) (b : SourceBreakpoint) : SourceBreakpoint :=
  set_sb_hits (count_records h (λ r, String.eqb (record_source h r) (normalize_path path) && (rc_line r =? sb_line b))) b.

(** Source: [crates/ic10-dap/src/main.rs] [reconcile_reversible_bookkeeping] lines 5102-5108 *)
Definition recount_function (h : TraceHistory) (b : SourceBreakpoint) : SourceBreakpoint :=
  set_sb_hits (count_records h (λ r, rc_line r =? sb_line b)) b.

(** The records up to the cursor that write the place of a data breakpoint.
    Source: [crates/ic10-dap/src/main.rs] [reconcile_reversible_bookkeeping] lines 5109-5120 *)
Definition recount_data (s : Simulator) (h : TraceHistory) (b : DataBreakpoint) : outcome message DataBreakpoint :=
  hits ← fold_outcome (λ n r,
    if rc_sequence r <=? cursor h
    then found ← writes_expression s (db_expression b) r; Ok (if found : bool then n + 1 else n)
    else Ok n) 0 (records h);
  Ok (set_db_hits hits b).

Definition recount_sources (h : TraceHistory) (l : BTreeMap string (list SourceBreakpoint)) : BTreeMap string (list SourceBreakpoint) :=
  map (λ '(path, breakpoints), (path, map (recount_source h path) breakpoints)) l.

(** After a step back the hits are those of the records that are left, and what the test
    and the exceptions said is forgotten.
    Source: [crates/ic10-dap/src/main.rs] [reconcile_reversible_bookkeeping] *)
Definition reconcile_reversible_bookkeeping : DX () :=
  h ← gets ad_history;
  s ← gets ad_simulator;
  match h, s with
  | Some h, Some s =>
      _ ← modify (λ a, set_ad_breakpoints (recount_sources h (ad_breakpoints a)) a);
      _ ← modify (λ a, set_ad_function_breakpoints (map (recount_function h) (ad_function_breakpoints a)) a);
      data ← gets ad_data_breakpoints;
      data ← lift (map_outcome (recount_data s h) data);
      _ ← modify (set_ad_data_breakpoints data);
      modify (λ a, set_ad_last_exception None (set_ad_test_satisfied ∅ (set_ad_test_tick_applied None a)))
  | _, _ => mret ()
  end.

(** [history.restore]; the history is kept as it was when it fails.
    Source: [crates/ic10-dap/src/main.rs] [step_back] lines 3111-3116 *)
Definition restore_target (target : Z) : DX () := λ a,
  match ad_history a, ad_simulator a with
  | None, _ => (Err no_history, a)
  | _, None => (Err no_simulation, a)
  | Some h, Some s =>
      match restore_history target h s with
      | (Ok (Some h), s) => (Ok (), set_ad_history (Some h) (set_ad_simulator (Some s) a))
      | (Ok None, s) | (Panic, s) => (Panic, set_ad_simulator (Some s) a)
      | (Err e, s) => (Err e, set_ad_simulator (Some s) a)
      end
  end.

(** The end of the requests that go to another state.
    Source: [crates/ic10-dap/src/main.rs] [step_back] lines 3111-3132 *)
Definition go_to (target : Z) (thread : nat) (description : string) : DX () :=
  _ ← restore_target target;
  _ ← reconcile_reversible_bookkeeping;
  line ← on_simulator (gets (cpu_line thread));
  _ ← modify (set_ad_last_stop (at_thread thread line));
  _ ← capture_previous_values;
  send (SentStopped "step" thread (Some [PS description])).

(** Source: [crates/ic10-dap/src/main.rs] [step_back] *)
Definition step_back (thread_id : option Z) : DX () :=
  let thread := thread_or 0 thread_id in
  _ ← modify (λ a, set_ad_single_thread None (set_ad_running false a));
  h ← gets ad_history;
  h ← lift (ok_or h no_history);
  if cursor h <? 1 then throw [PS "already at the oldest retained state"]
  else go_to (cursor h - 1) thread "Restored the previous retained instruction.".

(** The events a reverse continue stops at.
    Source: [crates/ic10-dap/src/main.rs] [reverse_continue] lines 3157-3163 *)
Definition REVERSE_STOPS : Z :=
  foldr Z.lor 0 (event_flag <$> ["breakpoint"; "data breakpoint"; "exception"; "assertion"; "yield"; "sleep"; "tick"]).

(** Source: [crates/ic10-dap/src/main.rs] [reverse_continue] lines 3151-3168 *)
Definition reverse_target (h : TraceHistory) : Z :=
  default 0 (rc_sequence <$>
    find_first (λ r, (rc_sequence r <? cursor h) && negb (Z.land (rc_event_flags r) REVERSE_STOPS =? 0)) (rev (records h))).

(** Source: [crates/ic10-dap/src/main.rs] [reverse_continue] *)
Definition reverse_continue (thread_id : option Z) : DX () :=
  let thread := thread_or 0 thread_id in
  _ ← modify (λ a, set_ad_single_thread None (set_ad_running false a));
  h ← gets ad_history;
  h ← lift (ok_or h no_history);
  go_to (reverse_target h) thread "Reverse-continued to the previous source location or tick.".

(** Whether a record is of a kind, and writes a place.
    Source: [crates/ic10-dap/src/main.rs] [navigate_history] lines 3904-3912 *)
Definition matches_record (s : Simulator) (target kind : option string) (r : TraceRecord) : outcome message bool :=
  writes_it ← match target with Some text => writes_expression s text r | None => Ok true end;
  Ok (writes_it && match kind with Some kind => negb (Z.land (rc_event_flags r) (event_flag kind) =? 0) | None => true end).

(** Source: [crates/ic10-dap/src/main.rs] [navigate_history] lines 3913-3927 *)
Definition navigation_target (s : Simulator) (h : TraceHistory) (direction : string) (target kind : option string) :
    outcome message (option TraceRecord) :=
  find_outcome (λ r, found ← matches_record s target kind r; Ok (if found : bool then Some r else None))
    (if String.eqb direction "next"
     then List.filter (λ r, cursor h <? rc_sequence r) (records h)
     else List.filter (λ r, rc_sequence r <? cursor h) (rev (records h))).

(** The number of the state it went to.
    Source: [crates/ic10-dap/src/main.rs] [navigate_history] *)
Definition navigate_history (direction target kind : option string) : DX Z :=
  _ ← modify (set_ad_running false);
  h ← gets ad_history;
  h ← lift (ok_or h no_history);
  s ← on_simulator (gets id);
  found ← lift (navigation_target s h (default "previous" direction) target kind);
  r ← lift (ok_or found [PS "no matching retained history event"]);
  _ ← restore_target (rc_sequence r);
  _ ← reconcile_reversible_bookkeeping;
  line ← on_simulator (gets (cpu_line (rc_cpu r)));
  _ ← modify (λ a, set_ad_last_stop (at_thread (rc_cpu r) line) (set_ad_focus_cpu (rc_cpu r) a));
  _ ← capture_previous_values;
  _ ← send (SentStopped "step" (rc_cpu r) (Some [PS "Navigated retained IC10 history."]));
  mret (rc_sequence r).

(** ** Requests: breakpoints *)

(** [AdapterState::next_breakpoint_id] counted on *)
Definition next_id : DX Z :=
  id ← gets ad_next_breakpoint_id;
  id ← lift (add_u64 id 1);
  _ ← modify (set_ad_next_breakpoint_id id);
  mret id.

(** The first error of the checks that are made. *)
Definition first_error (checks : list (unit → outcome message ())) : outcome message (option message) :=
  fold_outcome (λ found check,
    match found with
    | Some e => Ok (Some e)
    | None => match check () with Ok _ => Ok None | Err e => Ok (Some e) | Panic => Panic end
    end) None checks.

Definition optional {A} (f : A → outcome message ()) (o : option A) : unit → outcome message () :=
  λ _, match o with Some a => f a | None => Ok () end.

(** The processor that runs a source. *)
Definition source_thread (a : Adapter) (path : string) (purpose : string) : outcome message (Simulator * nat) :=
  match ad_simulator a with
  | None => Err [PS "launch the simulation before setting "; PS purpose]
  | Some s =>
      thread ← ok_or (position (λ c, String.eqb (normalize_path (debug_source_path (program c))) path) (cpus s))
                 [PS "source is not loaded by this simulation"];
      Ok (s, thread)
  end.

(** Source: [crates/ic10-dap/src/main.rs] [validate_expression_for_path] *)
Definition validate_expression_for_path (a : Adapter) (path text : string) : outcome message () :=
  at_ ← source_thread a path "expression breakpoints";
  _ ← ended (evaluate at_.1 at_.2 text);
  Ok ().

(** Source: [crates/ic10-dap/src/main.rs] [validate_log_message] *)
Definition validate_log_message (a : Adapter) (path text : string) : outcome message () :=
  at_ ← source_thread a path "logpoints";
  _ ← interpolate_log_message at_.1 at_.2 text [];
  Ok ().

(** The lines of a source on which a breakpoint can be set.
    Source: [crates/ic10-dap/src/main.rs] [set_breakpoints] lines 1691-1717 *)
Definition executable_line (a : Adapter) (path : string) (line : Z) : bool :=
  match ad_simulator a with
  | Some s =>
      existsb (λ c,
        String.eqb (normalize_path (debug_source_path (program c))) path
        && existsb (λ l, debug_line (program c) l + 1 =? line) (bt_keys (operations (program c)))) (cpus s)
  | None => false
  end
  || existsb (λ info,
       is_lua_info info && String.eqb (normalize_path (ri_source_path info)) path && (1 <=? line)
       && (line <=? match read_file (ri_source_path info) with
                    | inr source => Z.max 1 (Z.of_nat (length (split_inclusive_nl source)))
                    | inl _ => 1
                    end)) (ad_runtime_infos a).

(** One breakpoint: it is installed when its line can be reached and its texts can be
    evaluated.
    Source: [crates/ic10-dap/src/main.rs] [set_breakpoints] lines 1721-1770 *)
Definition install_breakpoint (path : string) (executable : Z → bool) (request : BreakpointRequest) :
    DX (option SourceBreakpoint * BreakpointAnswer) :=
  id ← next_id;
  let b := {| sb_id := id; sb_line := br_line request; sb_condition := br_condition request;
              sb_hit_condition := br_hit_condition request; sb_log_message := br_log_message request; sb_hits := 0 |} in
  error ← (λ a, (first_error
    [optional (validate_expression_for_path a path) (sb_condition b); optional validate_hit_condition (sb_hit_condition b);
     optional (validate_log_message a path) (sb_log_message b)], a)) : DX (option message);
  let reachable := executable (br_line request) in
  let verified := reachable && negb (is_some error) in
  mret (if verified then Some b else None,
        {| ba_id := id; ba_verified := verified;
           ba_message := match error with
             | Some e => Some ([PS "Invalid breakpoint expression: "] ++ e)%list
             | None => if reachable then None else Some [PS "No executable instruction exists on this line."]
             end |}).

(** [requested.into_iter().map(...)], what is installed and what is answered *)
Fixpoint install_all {R B} (install : R → DX (option B * BreakpointAnswer)) (requested : list R) : DX (list B * list BreakpointAnswer) :=
  match requested with
  | [] => mret ([], [])
  | request :: rest =>
      one ← install request;
      more ← install_all install rest;
      mret ((match one.1 with Some b => b :: more.1 | None => more.1 end), one.2 :: more.2)
  end.

(** Source: [crates/ic10-dap/src/main.rs] [set_breakpoints] *)
Definition set_breakpoints (path : string) (requested : list BreakpointRequest) : DX (list BreakpointAnswer) :=
  let key := normalize_path path in
  executable ← gets (λ a, executable_line a key);
  installed ← install_all (install_breakpoint key executable) requested;
  _ ← modify (λ a, set_ad_breakpoints (bt_insert key installed.1 (ad_breakpoints a)) a);
  mret installed.2.

(** Source: [crates/ic10-dap/src/main.rs] [set_exception_breakpoints] *)
Definition set_exception_breakpoints (filters : list string) : DX () := modify (set_ad_exception_filters filters).

(** A program has a label. *)
Definition known_label (a : Adapter) (name : string) : bool :=
  match ad_simulator a with
  | Some s => existsb (λ c, bt_contains_key name (labels (program c))) (cpus s)
  | None => false
  end.

(** A function breakpoint keeps its name as its condition, and has line 0.
    Source: [crates/ic10-dap/src/main.rs] [set_function_breakpoints] lines 1816-1856 *)
Definition install_function (request : FunctionRequest) : DX (option SourceBreakpoint * BreakpointAnswer) :=
  let name := trim (fr_function request) in
  exists_ ← gets (λ a, known_label a name);
  id ← next_id;
  let b := {| sb_id := id; sb_line := 0; sb_condition := Some name; sb_hit_condition := fr_hit_condition request;
              sb_log_message := None; sb_hits := 0 |} in
  error ← lift (first_error [optional validate_hit_condition (sb_hit_condition b)]);
  let verified := exists_ && negb (is_some error) in
  mret (if verified then Some b else None,
        {| ba_id := id; ba_verified := verified;
           ba_message := match error with
             | Some e => Some ([PS "Invalid hit condition: "] ++ e)%list
             | None => if exists_ then None else Some [PS "Unknown IC10 label `"; PS name; PS "`."]
             end |}).

(** Source: [crates/ic10-dap/src/main.rs] [set_function_breakpoints] *)
Definition set_function_breakpoints (requested : list FunctionRequest) : DX (list BreakpointAnswer) :=
  installed ← install_all install_function requested;
  _ ← modify (set_ad_function_breakpoints installed.1);
  mret installed.2.

(** The characters [\[] and [\]] taken off both ends: [trim_matches]. *)
Definition is_bracket (c : Ascii.ascii) : bool := Ascii.eqb c (byte 91) || Ascii.eqb c (byte 93).
Fixpoint drop_brackets (s : string) : string :=
  match s with String c rest => if is_bracket c then drop_brackets rest else s | "" => "" end.
Fixpoint drop_brackets_end (s : string) : string :=
  match s with
  | String c rest => match drop_brackets_end rest with "" => if is_bracket c then "" else String c "" | rest => String c rest end
  | "" => ""
  end.
Definition trim_brackets (s : string) : string := drop_brackets_end (drop_brackets s).

(** Source: [crates/ic10-dap/src/main.rs] [expression_for_variable] *)
Definition expression_for_variable (s : Simulator) (kind index : Z) (name : string) : option string :=
  let device i := dev_id <$> devices (world s) !! Z.to_nat i in
  if kind =? REGISTERS_SCOPE then Some name
  else if kind =? STACK_SCOPE then Some ("stack[" +:+ trim_brackets name +:+ "]")
  else if kind =? DEVICE_SCOPE then (λ id, device_place id name) <$> device index
  else if kind =? DEVICE_SLOT_SCOPE then
    let '(d, slot) := decode_composite_index index in (λ id, device_place id (slot_place slot name)) <$> device d
  else if kind =? DEVICE_MEMORY_SCOPE then (λ id, device_place id ("memory[" +:+ trim_brackets name +:+ "]")) <$> device index
  else if kind =? NETWORK_SCOPE then (λ n, network_place (net_id n) name) <$> networks (world s) !! Z.to_nat index
  else None.

(** The name of a data breakpoint for a place that can be written.
    Source: [crates/ic10-dap/src/main.rs] [data_breakpoint_info] *)
Definition data_breakpoint_info (variables_reference : Z) (name : string) : DX (option string) :=
  r ← lift (decode_reference variables_reference);
  let '(kind, thread, index) := r in
  text ← on_simulator (gets (λ s, expression_for_variable s kind index name));
  mret ((λ text, show (thread + 1) +:+ "|" +:+ text) <$> text).

(** Source: [crates/ic10-dap/src/main.rs] [set_data_breakpoints] lines 1920-1934 *)
Definition decode_data_id (focus : nat) (data_id : string) : nat * string :=
  default (focus, data_id)
    ('(thread, text) ← split_once (byte 124) data_id;
     thread ← parse_usize thread;
     if thread <? 1 then None else Some (Z.to_nat (thread - 1), text)).

(** Source: [crates/ic10-dap/src/main.rs] [set_data_breakpoints] lines 1919-1984 *)
Definition install_data (request : DataRequest) : DX (option DataBreakpoint * BreakpointAnswer) :=
  focus ← gets ad_focus_cpu;
  let '(thread, text) := decode_data_id focus (dq_data_id request) in
  id ← next_id;
  let b := {| db_id := id; db_thread := thread; db_expression := text; db_condition := dq_condition request;
              db_hit_condition := dq_hit_condition request; db_hits := 0 |} in
  s ← gets ad_simulator;
  let check text := match s with Some s => ended (evaluate s thread text) | None => Ok (VNumber f_zero) end in
  error ← lift (first_error
    [(λ _, value ← check text; _ ← number value; Ok ());
     optional (λ condition, _ ← check condition; Ok ()) (db_condition b);
     optional validate_hit_condition (db_hit_condition b)]);
  let verified := negb (String.eqb text "") && negb (is_some error) in
  mret (if verified then Some b else None,
        {| ba_id := id; ba_verified := verified;
           ba_message := match error with Some e => Some ([PS "Invalid data breakpoint: "] ++ e)%list | None => None end |}).

(** Source: [crates/ic10-dap/src/main.rs] [set_data_breakpoints] *)
Definition set_data_breakpoints (requested : list DataRequest) : DX (list BreakpointAnswer) :=
  installed ← install_all install_data requested;
  _ ← modify (set_ad_data_breakpoints installed.1);
  mret installed.2.

(** ** Requests: edits *)

(** An edit is refused while the simulation runs. *)
Definition paused (purpose : string) : DX () :=
  running ← gets ad_running;
  if running : bool then throw [PS "pause the simulation before "; PS purpose] else mret ().

(** An edit is recorded as an external event of the debugger, when there is a history. *)
Definition record_edit (thread : nat) (line : Z) : DX () :=
  tracing ← gets (λ a, is_some (ad_history a));
  when tracing (record_external thread line "debugger").

(** The place a variable of a scope names, and the write to it.
    Source: [crates/ic10-dap/src/main.rs] [set_variable] lines 2596-2652 *)
Definition write_variable (kind : Z) (thread : nat) (index : Z) (name : string) (value : f64) : SX () :=
  if kind =? LUA_SCOPE then throw [PS "Lua locals are read-only in the current debugger session"]
  else if kind =? REGISTERS_SCOPE then
    register ← lift (ok_or (direct_register_index name) [PS "invalid register `"; PS name; PS "`"]);
    set_register_as thread (Z.of_nat register) value ActorDebugger
  else if kind =? STACK_SCOPE then
    address ← lift (ok_or (parse_usize (trim_brackets name)) [PS "invalid stack address `"; PS name; PS "`"]);
    set_stack_as thread address value ActorDebugger
  else if kind =? DEVICE_SCOPE then
    d ← gets (λ s, devices (world s) !! Z.to_nat index);
    d ← lift (ok_or d [PS "unknown device index "; PZ index]);
    set_device_field_as (dev_id d) name value ActorDebugger
  else if kind =? DEVICE_SLOT_SCOPE then
    let '(d, slot) := decode_composite_index index in
    set_device_slot_as (Z.to_nat d) slot name value ActorDebugger
  else if kind =? DEVICE_MEMORY_SCOPE then
    address ← lift (ok_or (parse_usize (trim_brackets name)) [PS "invalid device memory address `"; PS name; PS "`"]);
    set_device_memory_as (Z.to_nat index) address value ActorDebugger
  else if kind =? NETWORK_SCOPE then
    channel ← lift (ok_or (channel_index name) [PS "invalid channel `"; PS name; PS "`"]);
    n ← gets (λ s, networks (world s) !! Z.to_nat index);
    n ← lift (ok_or n [PS "unknown network index "; PZ index]);
    if negb (eq_ignore_ascii_case (World.kind n) "cable")
    then throw [PS "network `"; PS (net_id n); PS "` does not expose channels"]
    else set_network_channel_as (Z.to_nat index) (Z.of_nat channel) value ActorDebugger
  else throw [PS "variables in this scope are not editable"].

(** The text of the new value.
    Source: [crates/ic10-dap/src/main.rs] [set_variable] *)
Definition set_variable (variables_reference : Z) (name value : string) : DX string :=
  value ← lift (parse_debug_number value);
  r ← lift (decode_reference variables_reference);
  let '(kind, thread, index) := r in
  let thread := Z.to_nat thread in
  _ ← paused "editing state";
  _ ← on_simulator (write_variable kind thread index name value);
  line ← on_simulator (gets (λ s, default 0 (cpu_line thread s)));
  _ ← record_edit thread line;
  _ ← (λ a, match ad_history a, ad_simulator a with
            | Some h, Some s =>
                match checkpoint_current record_bytes snapshot_bytes sources_bytes s h with
                | Ok h => (Ok (), set_ad_history (Some h) a)
                | Err e => (Err e, a)
                | Panic => (Panic, a)
                end
            | _, _ => (Ok (), a)
            end) : DX ();
  _ ← send (SentStateChanged thread);
  mret (format_debug_number value).

(** A value of [setState]: a number, or the text of one. *)
Definition debug_value (value : Scalar) : outcome message f64 :=
  match value with SNumber value => Ok value | SText text => parse_debug_number text end.

(** The writes end at the first that is refused; those before it stay, unrecorded.
    Source: [crates/ic10-dap/src/main.rs] [set_state] *)
Definition set_state (thread_id : option Z) (registers stack : BTreeMap string Scalar) : DX () :=
  let thread := thread_from_one thread_id in
  _ ← paused "editing state";
  count ← on_simulator (gets (λ s, length (cpus s)));
  if (count <=? thread)%nat
  then throw [PS "Lua register and stack state cannot be edited through ic10/setState"]
  else
    _ ← for_each (λ '(name, value),
      register ← lift (ok_or (direct_register_index name) [PS "invalid register `"; PS name; PS "`"]);
      value ← lift (debug_value value);
      on_simulator (set_register_as thread (Z.of_nat register) value ActorDebugger)) registers;
    _ ← for_each (λ '(address, value),
      index ← lift (ok_or (parse_usize address) [PS "invalid stack address `"; PS address; PS "`"]);
      value ← lift (debug_value value);
      on_simulator (set_stack_as thread index value ActorDebugger)) stack;
    line ← on_simulator (gets (λ s, default 0 (cpu_line thread s)));
    _ ← record_edit thread line;
    send (SentStateChanged thread).

(** A field of a device, whether or not the simulation runs.
    Source: [crates/ic10-dap/src/main.rs] [set_world_field] *)
Definition set_world_field (device_id field value : string) : DX () :=
  value ← lift (parse_debug_number value);
  thread ← gets ad_focus_thread;
  _ ← on_simulator (set_device_field_as device_id field value ActorDebugger);
  line ← on_simulator (gets (λ s, default 0 (runtime_line s thread)));
  _ ← record_edit thread line;
  send (SentStateChanged thread).

(** Source: [crates/ic10-dap/src/main.rs] [set_world_channel] *)
Definition set_world_channel (network_id channel value : string) : DX () :=
  value ← lift (parse_debug_number value);
  channel ← lift (ok_or (channel_index channel) [PS "invalid channel `"; PS channel; PS "`"]);
  thread ← gets ad_focus_thread;
  network ← on_simulator (gets (λ s, position (λ n, String.eqb (net_id n) network_id) (networks (world s))));
  network ← lift (ok_or network [PS "unknown network `"; PS network_id; PS "`"]);
  n ← on_simulator (get_or_panic (λ s, networks (world s) !! network));
  if negb (eq_ignore_ascii_case (World.kind n) "cable")
  then throw [PS "network `"; PS network_id; PS "` does not expose channels"]
  else
    _ ← on_simulator (set_network_channel_as network (Z.of_nat channel) value ActorDebugger);
    line ← on_simulator (gets (λ s, default 0 (runtime_line s thread)));
    _ ← record_edit thread line;
    send (SentStateChanged thread).

(** ** Requests: views of the history *)

(** The event is a retained state.
    Source: [crates/ic10-dap/src/main.rs] [state_diff] lines 3973-3980 *)
Definition retained_event (h : TraceHistory) (sequence : Z) : bool :=
  existsb (λ r, rc_sequence r =? sequence) (records h) || existsb (λ cp, cp_sequence cp =? sequence) (checkpoints h).

(** One write of a difference: the first value before, the last value after.
    Source: [crates/ic10-dap/src/main.rs] [state_diff] lines 3994-4006 *)
Definition diff_write (s : Simulator) (changes : BTreeMap string (string * string)) (w : WriteEffect) :
    outcome message (BTreeMap string (string * string)) :=
  target ← effect_target_name (w_target w) s;
  let before := format_debug_number (from_bits (w_before_bits w)) in
  let after := format_debug_number (from_bits (w_after_bits w)) in
  Ok (bt_insert target (match bt_get target changes with Some (first, _) => (first, after) | None => (before, after) end) changes).

(** What changed between two retained states: the target, before and after.
    Source: [crates/ic10-dap/src/main.rs] [state_diff] *)
Definition state_diff (from to : Z) : DX (list (string * string * string)) :=
  h ← gets ad_history;
  h ← lift (ok_or h no_history);
  match find_first (λ e, negb (retained_event h e)) [from; to] with
  | Some e => throw [PS "stateDiff event "; PZ e; PS " is not a retained restorable state"]
  | None =>
      let between := List.filter (λ r, (Z.min from to <? rc_sequence r) && (rc_sequence r <=? Z.max from to)) (records h) in
      let batches := concat (map (λ r, writes (rc_effects r)) between) in
      s ← gets ad_simulator;
      changes ← lift (fold_outcome (λ changes w,
        match s with Some s => diff_write s changes w | None => Err no_simulation end) [] batches);
      mret (map (λ '(target, (before, after)), if to <? from then (target, after, before) else (target, before, after)) changes)
  end.

(** The lines a source line can be left for: the thread and the line of the program.
    Source: [crates/ic10-dap/src/main.rs] [goto_targets] *)
Definition goto_targets (path : string) (requested_line : Z) : DX (list (Z * string)) :=
  s ← gets ad_simulator;
  match s with
  | None => mret []
  | Some s =>
      lift (fold_outcome (λ targets '(thread, c),
        if negb (String.eqb (normalize_path (debug_source_path (program c))) (normalize_path path)) then Ok targets
        else
          match generated_line (program c) (Z.max 0 (requested_line - 1)) with
          | Some line =>
              if bt_contains_key line (operations (program c)) then
                id ← goto_target_id (Z.of_nat thread) line;
                Ok (targets ++ [(id, cpu_name c +:+ ": line " +:+ show requested_line)])%list
              else Ok targets
          | None => Ok targets
          end) [] (enumerate (cpus s)))
  end.

(** ** Launching *)

(** The numbers of a launch, with their defaults. *)
Record LaunchArguments := {
  la_restart : bool;
  la_stop_on_entry : option bool;
  la_enable_history : option bool;
  la_history_events : option Z;
  la_checkpoint_interval : option Z;
  la_history_memory_mib : option Z;
}.

(** The runtimes a scenario declares: a program by its identifier, or the program of a
    processor.
    Source: [crates/ic10-dap/src/main.rs] [runtime_infos] lines 5212-5246 *)
Definition declared_info (join_base : string → string) (scenario : Scenario) (d : DeviceSpec) : option RuntimeInfo :=
  let declared :=
    option_or
      (id ← sp_program d;
       p ← find_first (λ p, String.eqb (ps_id p) id) (sc_programs scenario);
       Some (ps_language p, join_base (ps_path p)))
      (ic ← sp_ic d; path ← sic_program ic; Some (LangIc10, join_base path)) in
  (λ '(language, path),
     {| ri_name := if String.eqb (sp_name d) "" then sp_id d else sp_name d; ri_program_id := sp_program d;
        ri_source_path := path; ri_language := language |}) <$> declared.

(** The processors first, then the Lua programs, as the scheduler numbers them.
    Source: [crates/ic10-dap/src/main.rs] [runtime_infos] *)
Definition runtime_infos (join_base : string → string) (scenario : Scenario) (s : Simulator) : list RuntimeInfo :=
  let infos := omap (declared_info join_base scenario) (sc_devices scenario) in
  let of_language language := List.filter (λ info, bool_decide (is_lua_info info = language)) infos in
  let ordered := (of_language false ++ of_language true)%list in
  imap (λ index info,
    match cpus s !! index with
    | Some c =>
        {| ri_name := cpu_name c; ri_program_id := ri_program_id info; ri_source_path := debug_source_path (program c);
           ri_language := ri_language info |}
    | None =>
        match lua_programs s !! (index - length (cpus s))%nat, ri_program_id info with
        | Some r, None =>
            {| ri_name := ri_name info; ri_program_id := Some (lp_program_id r); ri_source_path := ri_source_path info;
               ri_language := ri_language info |}
        | _, _ => info
        end
    end) ordered.

(** The thread a launch looks at: a processor by its device or its program, or a program
    by its name, its identifier or the stem of its file.
    Source: [crates/ic10-dap/src/main.rs] [launch] lines 1388-1411 *)
Definition launch_focus (file_stem : string → option string) (selector : option string) (s : Simulator) (infos : list RuntimeInfo) :
    outcome message nat :=
  match selector with
  | Some selector =>
      let same_text text := String.eqb text selector in
      ok_or
        (option_or (position (λ c, same_text (cpu_id c) || same_text (program_id c)) (cpus s))
           (position (λ info, same_text (ri_name info) || bool_decide (ri_program_id info = Some selector)
                              || bool_decide (file_stem (ri_source_path info) = Some selector)) infos))
        [PS "simulation does not contain a runnable program or device with stable ID `"; PS selector; PS "`"]
  | None => match infos with [] => Err [PS "simulation does not contain a runnable program"] | _ => Ok 0%nat end
  end.

(** The initial values of the test are written.
    Source: [crates/ic10-dap/src/main.rs] [launch] lines 1417-1428 *)
Definition launch_test (focus : nat) (case : TestCase) : SX () :=
  count ← gets (λ s, length (cpus s));
  if (count <=? focus)%nat
     && negb (bool_decide (length (tc_initial case) = 0 ∧ length (tc_timeline case) = 0 ∧ length (tc_assertions case) = 0)%nat)
  then throw [PS "debug test plans currently target IC10 runtimes; Lua programs can still be debugged directly"]
  else
    for_each (λ '(target, value),
      value ← lift (scalar_as_f64 value);
      set_value (if (focus <? count)%nat then focus else 0%nat) target value) (tc_initial case).

(** A loaded simulation becomes the one of the adapter, paused, with a new history.
    Source: [crates/ic10-dap/src/main.rs] [launch] lines 1429-1515 *)
Definition launch_session (arguments : LaunchArguments) (s : Simulator) (infos : list RuntimeInfo) (focus : nat) (case : option TestCase) :
    DX () :=
  h ← lift (if default false (la_enable_history arguments)
            then h ← new_history snapshot_bytes normalize_path s (default 20000 (la_history_events arguments))
                       (default 10000 (la_checkpoint_interval arguments)) (default 64 (la_history_memory_mib arguments));
                 Ok (Some h)
            else Ok None);
  _ ← modify (λ a,
    {| ad_simulator := Some s;
       ad_breakpoints := if la_restart arguments then ad_breakpoints a else [];
       ad_function_breakpoints := if la_restart arguments then ad_function_breakpoints a else [];
       ad_data_breakpoints := if la_restart arguments then ad_data_breakpoints a else [];
       ad_exception_filters := ad_exception_filters a; ad_next_breakpoint_id := ad_next_breakpoint_id a; ad_running := false;
       ad_stop_on_entry := default true (la_stop_on_entry arguments);
       ad_focus_cpu := if (focus <? length (cpus s))%nat then focus else 0%nat; ad_focus_thread := focus;
       ad_runtime_infos := infos; ad_configured := false; ad_last_stop := None; ad_skip_breakpoint_once := None;
       ad_test_case := case; ad_test_tick_applied := None; ad_test_thread := focus; ad_test_satisfied := ∅;
       ad_previous_values := []; ad_stop_values := []; ad_last_exception := None; ad_single_thread := None; ad_history := h;
       ad_sent := ad_sent a |});
  _ ← on_simulator (set_journaling true);
  _ ← on_simulator take_effects;
  _ ← capture_previous_values;
  for_each (λ warning, send (SentOutput "console" [PS "IC10 compatibility warning: "; PS warning; PS NEWLINE])) (compatibility_warnings s).

(** What the client is told of the breakpoints after the programs have changed.
    Source: [crates/ic10-dap/src/main.rs] [emit_breakpoint_updates] *)
Definition emit_breakpoint_updates : DX () :=
  a ← gets id;
  match ad_simulator a with
  | None => mret ()
  | Some s =>
      let executable path line :=
        existsb (λ c,
          String.eqb (normalize_path (debug_source_path (program c))) path
          && existsb (λ l, debug_line (program c) l + 1 =? line) (bt_keys (operations (program c)))) (cpus s) in
      _ ← for_each (λ '(path, breakpoints),
        for_each (λ b, send (SentBreakpoint (sb_id b) (executable path (sb_line b)) (Some (sb_line b)))) breakpoints) (ad_breakpoints a);
      for_each (λ b, send (SentBreakpoint (sb_id b) (known_label a (default "" (sb_condition b))) None)) (ad_function_breakpoints a)
  end.

(** What a restart does once the launch was made again.
    Source: [crates/ic10-dap/src/main.rs] [restart] lines 2805-2826 *)
Definition after_restart : DX () :=
  _ ← modify (set_ad_configured true);
  stop_on_entry ← gets ad_stop_on_entry;
  _ ← if stop_on_entry : bool then
    focus ← gets ad_focus_thread;
    line ← on_simulator (gets (λ s, runtime_line s focus));
    _ ← modify (set_ad_last_stop (at_thread focus line));
    _ ← capture_previous_values;
    send (SentStopped "restart" focus (Some [PS "Simulation reset to its original launch state."]))
  else modify (set_ad_running true);
  emit_breakpoint_updates.

(** The programs are compiled again from their files.
    Source: [crates/ic10-dap/src/main.rs] [hot_reload] lines 2854-2870 *)
Definition recompile (kb : KnowledgeBase) (l : list Cpu) : outcome message (list Program) :=
  map_outcome (λ c,
    let path := source_path (program c) in
    match read_file path with
    | inl error => Err [PS "could not read `"; PS path; PS "`: "; PS error]
    | inr source =>
        let '(entries, metadata) := sidecars path in
        map_err (λ e, [PS "hot reload rejected: "; PS (join "; " (ce_diagnostics e))]) (compile path source kb entries metadata)
    end) l.

Definition set_program (p : Program) (c : Cpu) : Cpu :=
  {| cpu_id := cpu_id c; program_id := program_id c; cpu_name := cpu_name c; housing := housing c; program := p;
     registers := registers c; stack := stack c; pins := pins c; pc := pc c; state := state c; error := error c;
     operations_this_tick := operations_this_tick c; random_state := random_state c; cpu_journal := cpu_journal c;
     journal_enabled := journal_enabled c; journal_actor := journal_actor c |}.

(** A processor that has no instruction left to go on at.
    Source: [crates/ic10-dap/src/main.rs] [hot_reload] lines 2871-2879 *)
Definition stranded (l : list (Cpu * Program)) : option Cpu :=
  fst <$> find_first (λ '(c, p), negb (is_some (operation_at_or_after p (pc c)))) l.

(** The programs are replaced where the processors are; the history begins again.
    Source: [crates/ic10-dap/src/main.rs] [hot_reload] lines 2842-2911 *)
Definition hot_reload : DX () :=
  _ ← paused "hot reloading";
  focus ← gets ad_focus_cpu;
  l ← on_simulator (gets cpus);
  kb ← on_simulator (gets knowledge);
  programs ← lift (recompile kb l);
  match stranded (zip l programs) with
  | Some c =>
      throw [PS "hot reload cannot preserve `"; PS (cpu_name c); PS "` at line "; PZ (pc c + 1);
             PS " because the new program has no executable instruction there"]
  | None =>
      _ ← on_simulator (modify (λ s, sim_set_cpus (zip_with (λ c p, set_program p c) l programs) s));
      c ← on_simulator (get_or_panic (λ s, cpus s !! focus));
      _ ← modify (set_ad_last_stop (at_thread focus (current_line c)));
      h ← gets ad_history;
      s ← on_simulator (gets id);
      h ← lift (match h with
                | Some h =>
                    h ← new_history snapshot_bytes normalize_path s (max_events h) (checkpoint_interval h)
                          (max_memory_bytes h / (1024 * 1024));
                    Ok (Some h)
                | None => Ok None
                end);
      _ ← modify (set_ad_history h);
      _ ← emit_breakpoint_updates;
      _ ← send (SentLoadedSource (portable_path (debug_source_path (program c))));
      send (SentStopped "restart" focus (Some [PS "Source hot reloaded; CPU and world state preserved."]))
  end.
(** ** The requests together *)

(** The requests that change the state, with their arguments decoded.  A launch reads the
    scenario, and a restart is a launch that keeps the breakpoints, with [after_restart]. *)
Inductive DapRequest :=
  | ReqSetBreakpoints (path : string) (requested : list BreakpointRequest)
  | ReqSetExceptionBreakpoints (filters : list string)
  | ReqSetFunctionBreakpoints (requested : list FunctionRequest)
  | ReqSetDataBreakpoints (requested : list DataRequest)
  | ReqConfigurationDone
  | ReqSetVariable (variables_reference : Z) (name value : string)
  | ReqGoto (target_id : Z)
  | ReqContinue (single_thread : bool) (thread_id : option Z)
  | ReqStepBack (thread_id : option Z)
  | ReqReverseContinue (thread_id : option Z)
  | ReqStep (thread_id : option Z)
  | ReqPause (thread_id : option Z)
  | ReqDisconnect
  | ReqTerminate
  | ReqStepTick (thread_id : option Z)
  | ReqHotReload
  | ReqSetState (thread_id : option Z) (registers stack : BTreeMap string Scalar)
  | ReqSetWorldField (device_id field value : string)
  | ReqSetWorldChannel (network_id channel value : string)
  | ReqNavigateHistory (direction target kind : option string).

(** An answer that was made is sent. *)
Definition answered {A} (m : DX A) : DX () := _ ← m; mret ().

(** The call a request leads to; its error is the answer of a request that fails.
    Source: [crates/ic10-dap/src/main.rs] [handle_request] *)
Definition handle_request (request : DapRequest) : DX () :=
  match request with
  | ReqSetBreakpoints path requested => answered (set_breakpoints path requested)
  | ReqSetExceptionBreakpoints filters => set_exception_breakpoints filters
  | ReqSetFunctionBreakpoints requested => answered (set_function_breakpoints requested)
  | ReqSetDataBreakpoints requested => answered (set_data_breakpoints requested)
  | ReqConfigurationDone => configuration_done
  | ReqSetVariable variables_reference name value => answered (set_variable variables_reference name value)
  | ReqGoto target_id => goto_location target_id
  | ReqContinue single_thread thread_id => continue_execution single_thread thread_id
  | ReqStepBack thread_id => step_back thread_id
  | ReqReverseContinue thread_id => reverse_continue thread_id
  | ReqStep thread_id => step_request thread_id
  | ReqPause thread_id => pause thread_id
  | ReqDisconnect => modify (set_ad_running false)
  | ReqTerminate => _ ← modify (set_ad_running false); send SentTerminated
  | ReqStepTick thread_id => answered (step_tick thread_id)
  | ReqHotReload => hot_reload
  | ReqSetState thread_id registers stack => set_state thread_id registers stack
  | ReqSetWorldField device_id field value => set_world_field device_id field value
  | ReqSetWorldChannel network_id channel value => set_world_channel network_id channel value
  | ReqNavigateHistory direction target kind => answered (navigate_history direction target kind)
  end.

(** A step of a session: a turn of the runner or a request, each with the lock of the
    state.  A panic ends the session. *)
Inductive session_step (a a' : Adapter) : Prop :=
  | session_turn r : run_turn a = (r, a') → r ≠ Panic → session_step a a'
  | session_request request r : handle_request request a = (r, a') → r ≠ Panic → session_step a a'.
End session.
