(* ===== verification/SessionFacts.v ===== *)
(** * What a debug session does

    Proofs about [Session], on top of [TimeTravel]: what the runner and the requests run
    is recorded, so that going back leads to the states it went through; a breakpoint
    stops the run before its line, and continuing leaves it. *)

From S2P Require Import Prelude BTree Text F64 Knowledge Literals Journal Scenario World Program Compile Cpu Exec.
From S2P Require Import Isa Frame Behaviour Vm Lua Simulator Tick Safety Control Load Schema Evaluator EvaluatorFacts.
From S2P Require Import Runner Replay History HistoryFacts TimeTravel Debugger Session.
Local Open Scope string_scope.
Local Open Scope Z_scope.

(** ** Places keep their names *)

Section names.
Context `{Libm} `{Build} `{LuaEngine} `{FloatDisplay}.

Definition same_counts (s s' : Simulator) : Prop :=
  length (cpus s') = length (cpus s) ∧ length (devices (world s')) = length (devices (world s))
  ∧ length (networks (world s')) = length (networks (world s)).

Lemma found_again {A B} (l l' : list A) i (f g : A → B) (name : B) :
  length l' = length l → (x ← expect (l !! i); Ok (E:=message) (f x)) = Ok name → ∃ name', (x ← expect (l' !! i); Ok (E:=message) (g x)) = Ok name'.
Proof.
  intros Hlen Hf. destruct (l !! i) eqn:Hi; [|done]. apply lookup_lt_Some in Hi.
  destruct (lookup_lt_is_Some_2 l' i) as [x ->]; [lia|]. by eexists.
Qed.

Lemma target_name_counts target s s' name :
  same_counts s s' → effect_target_name target s = Ok name → ∃ name', effect_target_name target s' = Ok name'.
Proof.
  intros (Hc & Hd & Hn). unfold effect_target_name. destruct target; eauto; by eapply found_again.
Qed.

Lemma named_writes_counts batch s s' written :
  same_counts s s' → named_writes batch s = Ok written → ∀ w, w ∈ writes batch → ∃ name, effect_target_name (w_target w) s' = Ok name.
Proof.
  intros Hs. unfold named_writes. revert written. induction (writes batch) as [|w l IH]; intros written Hrun w' Hw'; [by apply elem_of_nil in Hw'|].
  simpl in Hrun. destruct (effect_target_name (w_target w) s) as [name| |] eqn:Hw; [|done..]. cbn [mbind outcome_mbind outcome_bind] in Hrun.
  destruct (map_outcome _ l) as [rest| |]; [|done..]. apply elem_of_cons in Hw' as [->|Hin]; [by eapply target_name_counts|by eapply IH].
Qed.
End names.

(** ** What the requests record *)

Section session.
Context `{Libm} `{Build} `{LuaEngine} `{FloatDisplay}.
Context (sizes : list nat) (nn nc : nat) (Hrelease : overflow_checks = false).
Variable record_bytes : TraceRecord → Z.
Variable snapshot_bytes : Simulator → Z.
Variable sources_bytes : list string → Z.
Variable normalize_path : string → string.
#[local] Set Default Proof Using "Type".

Abbreviation session := (debugged sizes nn nc record_bytes snapshot_bytes sources_bytes normalize_path).

(** The simulation and the history of an adapter. *)
Definition holds (a : Adapter) (s : Simulator) (h : TraceHistory) : Prop := ad_simulator a = Some s ∧ ad_history a = Some h.

(** The state after its effects were taken. *)
Definition emptied (u : Simulator) : Simulator := (take_effects u).2.

(** The places that were written have names, and the names fit their numbers. *)
Definition nameable (u : Simulator) : Prop :=
  is_ok (named_writes (pending (journal u)) (emptied u)) = true ∧ few_names (emptied u).

Lemma on_simulator_run {A} (m : M Simulator message A) a s r t :
  ad_simulator a = Some s → m s = (r, t) → on_simulator m a = (r, set_ad_simulator (Some t) a).
Proof. intros Hs Hm. unfold on_simulator. by rewrite Hs, Hm. Qed.

Lemma sound_counts x y : sound sizes nn nc x → sound sizes nn nc y → evolves x y → same_counts x y.
Proof.
  intros Hx Hy [Hst _]. unfold same_static, static in Hst. injection Hst as _ _ _ _ Hid.
  destruct (sim_ok_world _ _ _ _ (so_ok _ _ _ _ Hx)) as (Hd & Hn & _). destruct (sim_ok_world _ _ _ _ (so_ok _ _ _ _ Hy)) as (Hd' & Hn' & _).
  split; [by rewrite <-(length_fmap identity (cpus y)), Hid, length_fmap|]. split; [|congruence]. by rewrite <-!length_memory_sizes, Hd, Hd'.
Qed.

(** The places of every record that is kept have names. *)
Lemma session_names h past x r w :
  session h past x → r ∈ records h → w ∈ writes (rc_effects r) → ∃ name, effect_target_name (w_target w) x = Ok name.
Proof using Type H H0 H1 H2 Hrelease.
  intros Hd Hr Hw. destruct (debugged_tracked _ _ _ Hrelease _ _ _ _ _ _ _ Hd) as [_ Hm _ _ Hx].
  destruct (me_record _ _ _ _ _ _ Hm r Hr) as ([Hp Hev] & v & _ & _ & (u & names & _ & _ & Hnamed) & _).
  eapply named_writes_counts; [by apply (sound_counts (past (rc_sequence r)) x)|exact Hnamed|done].
Qed.

Lemma find_outcome_Ok {A B} (f : A → outcome message (option B)) l :
  (∀ a, a ∈ l → ∃ o, f a = Ok o) → ∃ o, find_outcome f l = Ok o.
Proof.
  induction l as [|a l IH]; intros Hf; [by exists None|]. simpl. destruct (Hf a ltac:(left)) as [o ->]. cbn [mbind outcome_mbind outcome_bind].
  destruct o; [by eexists|]. apply IH. intros b Hb. apply Hf. by right.
Qed.

Lemma fold_outcome_Ok {A B} (f : B → A → outcome message B) l b :
  (∀ b a, a ∈ l → ∃ b', f b a = Ok b') → ∃ b', fold_outcome f b l = Ok b'.
Proof.
  revert b. induction l as [|a l IH]; intros b Hf; [by exists b|]. simpl. destruct (Hf b a ltac:(left)) as [b' ->].
  cbn [mbind outcome_mbind outcome_bind]. apply IH. intros b1 a1 Ha. apply Hf. by right.
Qed.

Lemma map_outcome_total {A B} (f : A → outcome message B) l : (∀ a, ∃ b, f a = Ok b) → ∃ l', map_outcome f l = Ok l'.
Proof. intros Hf. induction l as [|a l [l' IH]]; [by exists []|]. simpl. destruct (Hf a) as [b ->]. rewrite IH. by eexists. Qed.

Lemma writes_expression_Ok h past x text r : session h past x → r ∈ records h → ∃ found, writes_expression x text r = Ok found.
Proof using Type H H0 H1 H2 Hrelease.
  intros Hd Hr. unfold writes_expression. set (f := λ w : WriteEffect, _).
  destruct (find_outcome_Ok f (writes (rc_effects r))) as [o ->]; [|by eexists].
  intros w Hw. unfold f. destruct (session_names _ _ _ _ _ Hd Hr Hw) as [name ->]. by eexists.
Qed.

Lemma recount_data_Ok h past x b : session h past x → ∃ b', recount_data x h b = Ok b'.
Proof using Type H H0 H1 H2 Hrelease.
  intros Hd. unfold recount_data. set (f := λ (n : Z) (r : TraceRecord), _).
  destruct (fold_outcome_Ok f (records h) 0) as [n ->]; [|by eexists].
  intros k r Hr. unfold f. destruct (rc_sequence r <=? cursor h); [|by eexists].
  destruct (writes_expression_Ok _ _ _ (db_expression b) _ Hd Hr) as [found ->]. by eexists.
Qed.

(** An event is recorded, as the last. *)
Lemma record_event_run a s h past action cpu line effects e t :
  holds a t h → session h past s → event s action cpu line effects e t → few_names t →
  ∃ h', record_event record_bytes snapshot_bytes sources_bytes cpu line action effects e a = (Ok (), set_ad_history (Some h') a)
    ∧ session h' (then_state past (cursor h + 1) t) t ∧ cursor h' = cursor h + 1 ∧ next_sequence h' = cursor h + 2.
Proof using Type H H0 H1 H2 Hrelease.
  intros [Hs Hh] Hd Hev Hfew.
  destruct (debugged_records _ _ _ Hrelease _ _ _ _ _ _ _ _ _ _ _ _ _ Hd Hev Hfew) as (h' & Hrun & _ & Hpos & _). injection Hpos as Hc Hn.
  exists h'. unfold record_event. rewrite Hh, Hs, Hrun. split_and!; [done| |done..]. by eapply debugged_event.
Qed.

(** The state a result is recorded in. *)
Lemma event_of s action cpu line e u :
  performs s action cpu line e u → nameable u → event s action cpu line (pending (journal u)) e (emptied u).
Proof. intros Hp [Hw _]. destruct (named_writes _ _) as [written| |] eqn:E; [|done..]. by exists u, written. Qed.

Definition kept {A} (result : outcome message A) : message + A :=
  match result with Ok x => inr x | Err e => inl e | Panic => inl [] end.

Lemma kept_result_run {A} (m : M Simulator message A) s result u :
  m s = (result, u) → result ≠ Panic → kept_result m s = (Ok (kept result), u) ∧ left_of (kept result) = error_of result.
Proof. intros Hm Hr. unfold kept_result. rewrite Hm. by destruct result. Qed.

(** The values of a stop and its message leave the simulation and the history alone. *)
Definition untouched (a a' : Adapter) : Prop :=
  ad_simulator a' = ad_simulator a ∧ ad_history a' = ad_history a ∧ ad_running a' = ad_running a ∧ ad_last_stop a' = ad_last_stop a
  ∧ ad_test_case a' = ad_test_case a.

Lemma captured a : ∃ a', capture_previous_values a = (Ok (), a') ∧ untouched a a'.
Proof. unfold capture_previous_values, modify. destruct (ad_simulator a) eqn:E; eexists; (split; [reflexivity|]); unfold untouched; by split_and!. Qed.

(** One instruction of a processor. *)
Lemma step_processor_run a s h past thread result u :
  holds a s h → session h past s → step_instruction thread s = (result, u) → result ≠ Panic → nameable u →
  ∃ a' h', step_processor record_bytes snapshot_bytes sources_bytes thread a = (Ok (), a')
    ∧ holds a' (emptied u) h' ∧ session h' (then_state past (cursor h + 1) (emptied u)) (emptied u)
    ∧ cursor h' = cursor h + 1 ∧ next_sequence h' = cursor h + 2 ∧ ad_running a' = ad_running a.
Proof using Type H H0 H1 H2 Hrelease.
  intros [Hs Hh] Hd Hstep Hr Hname. unfold step_processor.
  erewrite bind_run by (by eapply on_simulator_run). cbv beta.
  destruct (kept_result_run _ _ _ _ Hstep Hr) as [Hkept Hleft].
  erewrite bind_run by (eapply on_simulator_run; [done|exact Hkept]). cbv beta.
  erewrite bind_run by (by eapply on_simulator_run). cbv beta.
  erewrite bind_run by (by eapply on_simulator_run). cbv beta. rewrite Hleft.
  set (a1 := set_ad_simulator _ _).
  destruct (record_event_run a1 s h past (ActInstruction thread) thread (default 0 (cpu_line thread s)) (pending (journal u)) (error_of result) (emptied u))
    as (h' & Hrec & Hd' & Hc & Hn); [done|done| |apply Hname|].
  { apply event_of; [by apply performs_instruction with (result:=result)|done]. }
  erewrite bind_run by exact Hrec. cbv beta. rewrite bind_modify.
  match goal with |- context [mbind _ _ ?x] => set (a2 := x) end.
  assert (∃ a3, (match kept result with
    | inl error => set_exception (exception_category (message_text error)) error thread
    | inr _ => mret ()
    end) a2 = (Ok (), a3) ∧ untouched a2 a3) as (a3 & He & Hu).
  { destruct (kept result); eexists; (split; [reflexivity|]); unfold untouched; by split_and!. }
  erewrite bind_run by exact He. cbv beta. destruct (captured a3) as (a4 & Hcap & Hu'). erewrite bind_run by exact Hcap. cbv beta.
  destruct Hu as (E1 & E2 & E3 & _), Hu' as (E1' & E2' & E3' & _).
  eexists _, h'. split; [reflexivity|]. unfold holds. simpl. rewrite E1', E2', E3', E1, E2, E3. by split_and!.
Qed.

Lemma set_simulator_same a s : ad_simulator a = Some s → set_ad_simulator (Some s) a = a.
Proof. intros Hs. rewrite <-Hs. by destruct a. Qed.

Lemma no_pending_test a s h :
  holds a s h → pending_case a = None → apply_pending_test record_bytes snapshot_bytes sources_bytes a = (Ok (), a).
Proof.
  intros [Hs Hh] Hp. unfold apply_pending_test. rewrite bind_gets. unfold pending_case in Hp. destruct (ad_test_case a) as [case|]; [|done].
  rewrite Hs in Hp. simpl in Hp. erewrite bind_run by (by eapply on_simulator_run). cbv beta. rewrite bind_gets. simpl.
  destruct (bool_decide _); [|done]. by rewrite (set_simulator_same a s).
Qed.

(** A step of a thread. *)
Lemma step_request_run a s h past thread result u :
  holds a s h → session h past s → pending_case a = None → (thread < length (cpus s))%nat →
  step_instruction thread s = (result, u) → result ≠ Panic → nameable u →
  ∃ a' h', step_request record_bytes snapshot_bytes sources_bytes (Some (Z.of_nat thread + 1)) a = (Ok (), a')
    ∧ holds a' (emptied u) h' ∧ session h' (then_state past (cursor h + 1) (emptied u)) (emptied u)
    ∧ cursor h' = cursor h + 1 ∧ next_sequence h' = cursor h + 2 ∧ ad_running a' = false.
Proof using Type H H0 H1 H2 Hrelease.
  intros Ha Hd Hp Hlt Hstep Hr Hname. unfold step_request, thread_index.
  assert (Z.of_nat thread + 1 <? 1 = false) as -> by lia. rewrite bind_lift_Ok. replace (Z.to_nat _) with thread by lia.
  rewrite bind_modify. set (a1 := set_ad_single_thread None (set_ad_running false a)).
  assert (holds a1 s h) as Ha1 by done. erewrite bind_run by (eapply no_pending_test; [exact Ha1|exact Hp]). cbv beta.
  erewrite bind_run by (eapply on_simulator_run; [apply Ha1|done]). cbv beta. rewrite (set_simulator_same a1 s) by apply Ha1.
  assert (length (cpus s) <=? thread = false)%nat as -> by (apply Nat.leb_gt; lia).
  destruct (step_processor_run a1 s h past thread result u) as (a' & h' & Hrun & Ha' & Hd' & Hc & Hn & Hrunning); [done..|].
  exists a', h'. by split_and!.
Qed.

Lemma reconcile_run a s h past :
  holds a s h → session h past s →
  ∃ a', reconcile_reversible_bookkeeping normalize_path a = (Ok (), a') ∧ holds a' s h.
Proof using Type H H0 H1 H2 Hrelease.
  intros [Hs Hh] Hd. unfold reconcile_reversible_bookkeeping. rewrite !bind_gets, Hs, Hh, !bind_modify. rewrite bind_gets.
  destruct (map_outcome_total (recount_data s h) (ad_data_breakpoints a)) as [data Hdata]; [intros b; by eapply recount_data_Ok|].
  simpl. rewrite Hdata, bind_lift_Ok, bind_modify. eexists. split; [reflexivity|]. by split.
Qed.

(** A retained state is gone to. *)
Lemma go_to_run a s h past cp target thread description :
  holds a s h → session h past s → cp ∈ checkpoints h → cp_sequence cp ≤ target < next_sequence h →
  ∃ a' s', go_to normalize_path target thread description a = (Ok (), a')
    ∧ holds a' s' (with_position target (next_sequence h) h) ∧ session (with_position target (next_sequence h) h) past s'
    ∧ same (past target) s'.
Proof using Type H H0 H1 H2 Hrelease.
  intros [Hs Hh] Hd Hcp Ht. destruct (debugged_retained _ _ _ Hrelease _ _ _ _ _ _ _ _ _ Hd Hcp Ht) as (s' & Hrun & Hsame).
  assert (session (with_position target (next_sequence h) h) past s') as Hd' by (eapply debugged_restore; [exact Hd|apply Ht|exact Hrun]).
  unfold go_to. set (a1 := set_ad_history (Some (with_position target (next_sequence h) h)) (set_ad_simulator (Some s') a)).
  erewrite (bind_run _ _ a () a1); [|unfold restore_target; by rewrite Hh, Hs, Hrun]. cbv beta.
  destruct (reconcile_run a1 s' (with_position target (next_sequence h) h) past) as (a2 & Hrec & [Hs2 Hh2]); [done|done|]. erewrite bind_run by exact Hrec. cbv beta.
  erewrite bind_run by (by eapply on_simulator_run). cbv beta. rewrite bind_modify.
  match goal with |- context [mbind _ _ ?x] => destruct (captured x) as (a4 & Hcap & E1 & E2 & _) end.
  erewrite bind_run by exact Hcap. cbv beta. eexists _, s'. split; [reflexivity|]. split; [|done].
  unfold holds. simpl. rewrite E1, E2. done.
Qed.

Lemma step_back_run a s h past cp thread_id :
  holds a s h → session h past s → cp ∈ checkpoints h → cp_sequence cp ≤ cursor h - 1 → 1 ≤ cursor h →
  ∃ a' s', step_back normalize_path thread_id a = (Ok (), a')
    ∧ holds a' s' (with_position (cursor h - 1) (next_sequence h) h) ∧ session (with_position (cursor h - 1) (next_sequence h) h) past s'
    ∧ same (past (cursor h - 1)) s'.
Proof using Type H H0 H1 H2 Hrelease.
  intros [Hs Hh] Hd Hcp Hle H1'. unfold step_back. rewrite bind_modify, bind_gets. simpl. rewrite Hh, bind_lift_Some.
  assert (cursor h <? 1 = false) as -> by lia.
  eapply go_to_run; [done|exact Hd|exact Hcp|].
  destruct (debugged_tracked _ _ _ Hrelease _ _ _ _ _ _ _ Hd) as [[lo Hsh] _ _ _ _]. destruct (sh_cursor _ _ Hsh). lia.
Qed.

(** ** A turn of the runner *)

(** What trying the breakpoints of a location leaves alone. *)
Definition tried (a a' : Adapter) : Prop :=
  ad_simulator a' = ad_simulator a ∧ ad_history a' = ad_history a ∧ ad_running a' = ad_running a
  ∧ ad_single_thread a' = ad_single_thread a ∧ ad_skip_breakpoint_once a' = ad_skip_breakpoint_once a
  ∧ ad_previous_values a' = ad_previous_values a ∧ ad_test_case a' = ad_test_case a.

#[local] Instance tried_preorder : PreOrder tried.
Proof. split; [done|]. intros a b c (?&?&?&?&?&?&?) (?&?&?&?&?&?&?). unfold tried. split_and!; congruence. Qed.

Lemma tried_send m : keeps tried (send m).
Proof. done. Qed.

Lemma tried_report action : keeps tried (report_action action).
Proof. destruct action as [[| |text]|e|]; try done. Qed.

Lemma tried_try_ic10 s thread b hits : keeps tried (try_ic10 s thread b hits).
Proof. intros a. apply tried_report. Qed.

Lemma tried_breakpoints (try_one : SourceBreakpoint → Z → M Adapter message bool) l :
  (∀ b hits, keeps tried (try_one b hits)) → keeps tried (try_breakpoints try_one l).
Proof.
  intros Htry. induction l as [|b l IH]; [done|]. cbn [try_breakpoints].
  apply (keeps_bind tried _); [by apply (keeps_lift tried _)|]. intros hits. apply (keeps_bind tried _); [done|]. intros _.
  apply (keeps_bind tried _); [apply Htry|]. intros stops. by apply (keeps_bind tried _).
Qed.

(** A breakpoint that is to stop is not missed, whatever the others do. *)
Lemma try_stops s thread b l a stops a' :
  b ∈ l → sb_hits b < U64_MAX → breakpoint_action s thread b (sb_hits b + 1) (ad_previous_values a) = Ok BreakStop →
  try_breakpoints (try_ic10 s thread) l a = (Ok stops, a') → stops = true.
Proof. clear Hrelease.
  intros Hb Hhits Hact. revert a stops a' Hact. induction l as [|b' l IH]; intros a stops a' Hact Hrun; [by apply elem_of_nil in Hb|].
  cbn [try_breakpoints] in Hrun. apply bind_Ok_inv in Hrun as (hits & a1 & [Hadd ->]%lift_Ok_inv & Hrun).
  unfold update_breakpoint_hits in Hrun. rewrite bind_modify in Hrun. apply bind_Ok_inv in Hrun as (one & a2 & Hone & Hrun).
  apply bind_Ok_inv in Hrun as (more & a3 & Hmore & Hrun). injection Hrun as <- _.
  apply elem_of_cons in Hb as [->|Hb].
  - unfold add_u64 in Hadd. rewrite (proj2 (Z.leb_le _ _)) in Hadd by lia. injection Hadd as <-.
    unfold try_ic10 in Hone. rewrite bind_gets in Hone. simpl in Hone. rewrite Hact in Hone. by injection Hone as <- _.
  - pose proof (tried_try_ic10 s thread b' hits) as Ht. apply (keeps_at tried _ _ _ _ Ht) in Hone.
    destruct Hone as (_ & _ & _ & _ & _ & Hprevious & _). rewrite (IH Hb a2 more a3); [apply orb_true_r| |exact Hmore].
    rewrite Hprevious. exact Hact.
Qed.

(** A run that is stopped has a breakpoint that is to stop. *)
Lemma tried_stop s thread l a a' :
  try_breakpoints (try_ic10 s thread) l a = (Ok true, a') →
  ∃ b hits, b ∈ l ∧ add_u64 (E:=message) (sb_hits b) 1 = Ok hits ∧ breakpoint_action s thread b hits (ad_previous_values a) = Ok BreakStop.
Proof. clear Hrelease.
  revert a a'. induction l as [|b l IH]; intros a a' Hrun; [done|].
  cbn [try_breakpoints] in Hrun. apply bind_Ok_inv in Hrun as (hits & a1 & [Hadd ->]%lift_Ok_inv & Hrun).
  unfold update_breakpoint_hits in Hrun. rewrite bind_modify in Hrun. apply bind_Ok_inv in Hrun as (one & a2 & Hone & Hrun).
  apply bind_Ok_inv in Hrun as (more & a3 & Hmore & Hrun). injection Hrun as Hor _.
  destruct one.
  - exists b, hits. split; [left|]. split; [done|]. unfold try_ic10 in Hone. rewrite bind_gets in Hone. simpl in Hone.
    by destruct (breakpoint_action _ _ _ _ _) as [[| |text]| |].
  - simpl in Hor. subst more. pose proof (tried_try_ic10 s thread b hits) as Ht. apply (keeps_at tried _ _ _ _ Ht) in Hone.
    destruct Hone as (_ & _ & _ & _ & _ & Hprevious & _). destruct (IH _ _ Hmore) as (b' & hits' & Hin & Hadd' & Hact).
    exists b', hits'. split; [by right|]. by rewrite Hprevious in Hact.
Qed.

(** The breakpoints of a location stop the run, unless it was just left there. *)
Definition may_stop (stops : bool) (thread : nat) (line : Z) (a : Adapter) : bool :=
  stops && negb (bool_decide (ad_skip_breakpoint_once a = Some (thread, line))).

Lemma visit_run a s c thread line turn a' :
  ad_simulator a = Some s → cpus s !! thread = Some c →
  visit record_bytes snapshot_bytes sources_bytes normalize_path thread line a = (Ok turn, a') →
  ∃ stops a1, try_breakpoints (try_ic10 s thread) (ic10_candidates normalize_path (program c) line a) a = (Ok stops, a1)
    ∧ tried a a1
    ∧ if may_stop stops thread line a
      then turn = (Some (thread, "breakpoint", None), true) ∧ a' = set_ad_last_stop (Some (thread, line)) (set_ad_running false a1)
      else step_ic10 record_bytes snapshot_bytes sources_bytes thread line a1 = (Ok turn, a').
Proof.
  intros Hs Hc Hrun. unfold visit in Hrun. erewrite bind_run in Hrun by (by eapply on_simulator_run). cbv beta in Hrun.
  rewrite (set_simulator_same a s) in Hrun by done. rewrite bind_gets in Hrun. cbn [id] in Hrun. rewrite Hc, bind_gets in Hrun.
  apply bind_Ok_inv in Hrun as (stops & a1 & Htry & Hrun). exists stops, a1. split; [done|].
  pose proof (tried_breakpoints (try_ic10 s thread) (ic10_candidates normalize_path (program c) line a) (tried_try_ic10 s thread) a) as Ht.
  rewrite Htry in Ht. split; [done|]. unfold may_stop. destruct (stops && _); [|done]. by injection Hrun as <- <-.
Qed.

(** What the end of a step leaves alone. *)
Definition stepped (a a' : Adapter) : Prop :=
  ad_simulator a' = ad_simulator a ∧ ad_history a' = ad_history a ∧ ad_skip_breakpoint_once a' = ad_skip_breakpoint_once a.

#[local] Instance stepped_preorder : PreOrder stepped.
Proof. split; [done|]. intros a b c (?&?&?) (?&?&?). unfold stepped. split_and!; congruence. Qed.

Lemma stepped_look {A} (f : Simulator → A) : keeps stepped (on_simulator (gets f)).
Proof. intros a. unfold on_simulator. destruct (ad_simulator a) eqn:E; [|done]. by unfold stepped. Qed.

Lemma stepped_after_step thread line name before previous result :
  keeps stepped (after_step thread line name before previous result).
Proof.
  unfold after_step. destruct result as [e|x].
  - by repeat (apply (keeps_bind stepped _); [done|intros ?]).
  - apply (keeps_bind stepped _); [done|]. intros filters. destruct (_ && _).
    + by repeat (apply (keeps_bind stepped _); [done|intros ?]).
    + apply (keeps_bind stepped _); [apply stepped_look|]. intros s. apply (keeps_bind stepped _); [done|]. intros breakpoints.
      apply (keeps_bind stepped _); [done|]. intros found. apply (keeps_bind stepped _); [done|]. intros _.
      destruct (found.1); [|done]. by apply (keeps_bind stepped _).
Qed.

Definition unit_result {A} (result : outcome message A) : outcome message () :=
  match result with Ok _ => Ok () | Err e => Err e | Panic => Panic end.

Lemma run_location_scheduled thread s (result : outcome message (option StepEvent)) u :
  scheduler_step s = (result, u) → run_location thread false s = (unit_result result, u).
Proof. intros Hstep. unfold run_location, mbind, M_mbind. rewrite Hstep. by destruct result. Qed.

Lemma error_of_unit {A} (result : outcome message A) : error_of (unit_result result) = error_of result.
Proof. by destruct result. Qed.

Lemma unit_result_returns {A} (result : outcome message A) : result ≠ Panic → unit_result result ≠ Panic.
Proof. by destruct result. Qed.

(** A step of the scheduler: its effects are taken and recorded. *)
Lemma step_ic10_run a s thread line result u turn a' :
  ad_simulator a = Some s → ad_single_thread a = None → scheduler_step s = (result, u) →
  step_ic10 record_bytes snapshot_bytes sources_bytes thread line a = (Ok turn, a') →
  result ≠ Panic ∧ ∃ a1 a2, record_event record_bytes snapshot_bytes sources_bytes thread line ActScheduled (pending (journal u)) (error_of result) a1 = (Ok (), a2)
    ∧ ad_simulator a1 = Some (emptied u) ∧ ad_history a1 = ad_history a
    ∧ ad_simulator a' = ad_simulator a2 ∧ ad_history a' = ad_history a2
    ∧ (ad_skip_breakpoint_once a = Some (thread, line) → ad_skip_breakpoint_once a' = None).
Proof.
  intros Hs Hsingle Hstep Hrun. unfold step_ic10 in Hrun. rewrite bind_gets in Hrun.
  erewrite bind_run in Hrun by (by eapply on_simulator_run). cbv beta in Hrun. rewrite (set_simulator_same a s) in Hrun by done.
  rewrite bind_gets in Hrun. apply bind_Ok_inv in Hrun as (before & a0 & [_ ->]%lift_Ok_inv & Hrun). rewrite bind_gets in Hrun.
  apply bind_Ok_inv in Hrun as (c & a0 & Hc & Hrun).
  assert (a0 = a) as ->.
  { unfold on_simulator in Hc. rewrite Hs in Hc. unfold get_or_panic in Hc. destruct (cpus s !! thread); [|done].
    injection Hc as _ <-. by apply set_simulator_same. }
  rewrite bind_gets, Hsingle, (bool_decide_eq_false_2 (None = Some thread)) in Hrun by done.
  assert (result ≠ Panic) as Hr.
  { intros ->. apply bind_Ok_inv in Hrun as (k & a0 & Hk & _). unfold on_simulator, kept_result in Hk.
    by rewrite Hs, (run_location_scheduled _ _ _ _ Hstep) in Hk. }
  split; [done|].
  destruct (kept_result_run _ _ _ _ (run_location_scheduled thread s result u Hstep) (unit_result_returns _ Hr)) as [Hkept Hleft].
  erewrite bind_run in Hrun by (eapply on_simulator_run; [done|exact Hkept]). cbv beta in Hrun.
  erewrite bind_run in Hrun by (by eapply on_simulator_run). cbv beta in Hrun. rewrite Hleft, error_of_unit in Hrun.
  apply bind_Ok_inv in Hrun as ([] & a2 & Hrec & Hrun). exists (set_ad_simulator (Some (emptied u)) (set_ad_simulator (Some u) a)), a2.
  split; [exact Hrec|]. split; [done|]. split; [done|].
  apply bind_Ok_inv in Hrun as (stop & a3 & Hafter & Hrun).
  apply (keeps_at stepped _ _ _ _ (stepped_after_step _ _ _ _ _ _)) in Hafter.
  apply bind_Ok_inv in Hrun as ([] & a4 & Hwhen & Hrun).
  assert (stepped a3 a4) as H34 by (destruct stop; by injection Hwhen as <-).
  assert (stepped a2 a4) as (E1 & E2 & _) by (by etransitivity).
  apply bind_Ok_inv in Hrun as ([] & a5 & Hskip & Hrun). injection Hrun as _ <-.
  destruct (bool_decide _) eqn:Hd; injection Hskip as <-; simpl; (split_and!; [done|done|]).
  - done.
  - by apply bool_decide_eq_false in Hd.
Qed.

(** The end of a turn without a test. *)
Lemma end_turn_run turn a a' :
  end_turn record_bytes snapshot_bytes sources_bytes None None turn false a = (Ok (), a') →
  match turn.1 with
  | Some (thread, reason, description) =>
      ∃ line a1 a2, tried a a1 ∧ ad_last_stop a1 = ad_last_stop a
        ∧ record_stopped record_bytes snapshot_bytes sources_bytes thread line reason a1 = (Ok (), a2)
        ∧ ad_simulator a' = ad_simulator a2 ∧ ad_history a' = ad_history a2 ∧ ad_running a' = ad_running a2 ∧ ad_last_stop a' = ad_last_stop a2
        ∧ ad_test_case a' = ad_test_case a2 ∧ last (ad_sent a') = Some (SentStopped reason thread description)
  | None => ad_simulator a' = ad_simulator a ∧ ad_history a' = ad_history a ∧ ad_running a' = ad_running a
  end.
Proof.
  destruct turn as [[[[thread reason] description]|] capture]; intros Hrun; unfold end_turn in Hrun; simpl in Hrun;
    apply bind_Ok_inv in Hrun as ([] & a0 & [= <-] & Hrun); apply bind_Ok_inv in Hrun as ([] & a0 & [= <-] & Hrun).
  - apply bind_Ok_inv in Hrun as ([] & a2 & Hrec & Hrun). apply bind_Ok_inv in Hrec as (line & a1 & Hline & Hrec).
    apply bind_Ok_inv in Hrun as ([] & a3 & Hcap & Hrun). injection Hrun as <-.
    exists (default 0 line), a1, a2. unfold on_simulator in Hline. destruct (ad_simulator a) as [s|] eqn:Hs; [|done].
    simpl in Hline. rewrite (set_simulator_same a s) in Hline by done. injection Hline as _ <-.
    assert (untouched a2 a3) as (E1 & E2 & E3 & E4 & E5).
    { destruct capture; [|by injection Hcap as <-]. destruct (captured a2) as (a4 & Hc & Hu). cbn [snd when] in Hcap. rewrite Hc in Hcap. by injection Hcap as <-. }
    split_and!; simpl; try done. by rewrite last_snoc.
  - apply bind_Ok_inv in Hrun as ([] & a2 & [= <-] & Hrun). apply bind_Ok_inv in Hrun as ([] & a3 & Hcap & Hrun). injection Hrun as <-.
    destruct capture; [|by injection Hcap as <-]. destruct (captured a) as (a4 & Hc & E1 & E2 & E3 & _). cbn [snd when] in Hcap. rewrite Hc in Hcap. by injection Hcap as <-.
Qed.

(** A turn looks for a location, and visits it. *)
Lemma run_turn_run a s a' :
  ad_simulator a = Some s → ad_running a = true → pending_case a = None → ad_single_thread a = None → is_finished s = false →
  run_turn record_bytes snapshot_bytes sources_bytes normalize_path a = (Ok (), a') →
  ∃ location s1 turn a1, next_scheduled_location s = (Ok location, s1)
    ∧ match location with
      | Some (thread, line) =>
          visit record_bytes snapshot_bytes sources_bytes normalize_path thread line (set_ad_simulator (Some s1) a) = (Ok turn, a1)
      | None => turn = (None, false) ∧ a1 = set_ad_simulator (Some s1) a
      end
    ∧ end_turn record_bytes snapshot_bytes sources_bytes None None turn false a1 = (Ok (), a').
Proof.
  intros Hs Hrunning Hp Hsingle Hfin Hrun. unfold run_turn in Hrun. rewrite bind_gets, Hrunning in Hrun. cbn [negb] in Hrun.
  rewrite bind_gets, Hs in Hrun. cbn [is_some negb] in Hrun. erewrite bind_run in Hrun; [|unfold run_pending; by rewrite bind_gets, Hp].
  cbv beta in Hrun. cbn [fst snd] in Hrun. erewrite bind_run in Hrun by (by eapply on_simulator_run). cbv beta in Hrun. rewrite Hfin in Hrun.
  rewrite (set_simulator_same a s) in Hrun by done.
  apply bind_Ok_inv in Hrun as (location & a0 & Hlook & Hrun). unfold next_location in Hlook. rewrite bind_gets, Hsingle in Hlook.
  unfold on_simulator in Hlook. rewrite Hs in Hlook. destruct (next_scheduled_location s) as [found s1]. injection Hlook as -> <-.
  apply bind_Ok_inv in Hrun as (turn & a1 & Hvisit & Hrun). exists location, s1, turn, a1. split; [done|]. split; [|done].
  destruct location as [[thread line]|]; [done|]. by injection Hvisit as <- <-.
Qed.

Lemma record_event_calm thread line action effects e a a' :
  record_event record_bytes snapshot_bytes sources_bytes thread line action effects e a = (Ok (), a') → ad_simulator a' = ad_simulator a.
Proof.
  unfold record_event. destruct (ad_history a), (ad_simulator a) eqn:E; [|by intros [= <-]..].
  destruct (record _ _ _ _ _ _ _ _ _) as [[?|]|?|]; [|done..]. intros [= <-]. done.
Qed.

Lemma record_stopped_calm thread line reason a a' :
  record_stopped record_bytes snapshot_bytes sources_bytes thread line reason a = (Ok (), a') →
  ad_simulator a' = ad_simulator a ∧ ad_running a' = ad_running a ∧ ad_last_stop a' = ad_last_stop a ∧ ad_test_case a' = ad_test_case a.
Proof.
  unfold record_stopped. destruct (ad_history a), (ad_simulator a) eqn:E; [|by intros [= <-]..].
  destruct (record_stop _ _ _ _ _ _ _ _) as [[?|]|?|]; [|done..]. intros [= <-]. done.
Qed.

Lemma looks_trans x y z : looks x y → looks y z → looks x z.
Proof. induction 1 as [|x x1 y Hlook Htick _ IH]; [done|]. intros Hz. eapply looks_tick; [exact Hlook|exact Htick|by apply IH]. Qed.

(** A program that can be stepped is not finished. *)
Lemma steppable_running s a location : steppable s a location → a ∈ sim_schedule s → is_finished s = false.
Proof. clear Hrelease.
  intros (l & Hl & Hcan & _) Ha. unfold is_finished, adapters. apply not_true_iff_false. intros Hall.
  rewrite forallb_forall in Hall. specialize (Hall a). rewrite Hl in Hall. apply list_elem_of_In in Ha. apply Hall in Ha.
  unfold lifecycle_finished, can_step in *. by destruct (lc_state l).
Qed.

(** A look that finds no location lets the tick pass. *)
Lemma tick_passed s s1 :
  0 ≤ scheduler_slot s → 0 ≤ tick s < U64_MAX → scheduler_error s = None → next_scheduled_location s = (Ok None, s1) →
  scheduler_error s1 = None → tick s1 = tick s + 1.
Proof. clear Hrelease.
  intros Hslot Htick He Hlook He1. unfold next_scheduled_location, prepare_next_adapter in Hlook.
  destruct (prepare_from _ s) as [[[[a location]|]|e|] sm] eqn:Hp; try done.
  - injection Hlook as ->. apply prepare_from_spec in Hp; [|done|done]. destruct Hp as (_ & s2 & [Hfixed _] & Hadv).
    assert (tick s2 = tick s) as E by (unfold fixed_view in Hfixed; congruence).
    apply advance_tick_run in Hadv as (_ & _ & Ht & _); [|lia].
    rewrite Ht, E. unfold wrap_u, U64_MAX in *. apply Z.mod_small. lia.
  - injection Hlook as <-. done.
Qed.

Lemma emptied_quiet t : quiet t → emptied t = t.
Proof. unfold quiet, emptied, take_effects, take_batch. simpl. intros Hq. destruct t as [? ? ? ? ? ? ? ? ? ? ? j]. simpl in *. rewrite <-Hq. by destruct j. Qed.


(** Continuing goes on from the stop. *)
Lemma continue_run a s :
  ad_simulator a = Some s →
  continue_execution false None a
  = (Ok (), set_ad_sent (ad_sent a ++ [SentContinued (ad_focus_thread a) true])%list
      (set_ad_running true (set_ad_single_thread None (set_ad_last_stop None (set_ad_skip_breakpoint_once (ad_last_stop a) a))))).
Proof.
  intros Hs. unfold continue_execution. erewrite bind_run by (by eapply on_simulator_run). cbv beta.
  rewrite (set_simulator_same a s) by done. rewrite bind_gets, bind_modify. done.
Qed.

(** ** Where the scheduler is *)

#[local] Set Default Proof Using "Type H H0 H1 H2 Hrelease".

(** A location that is found is the line of a processor, and is found again. *)
Lemma location_found s s1 thread line :
  sim_ok sizes nn nc s → 0 ≤ scheduler_slot s → next_scheduled_location s = (Ok (Some (thread, line)), s1) →
  (∃ c, cpus s1 !! thread = Some c ∧ current_line c = Some line) ∧ next_scheduled_location s1 = (Ok (Some (thread, line)), s1)
  ∧ is_finished s = false ∧ is_finished s1 = false.
Proof.
  intros Hok Hslot Hlook. pose proof (safe_next_scheduled_location sizes nn nc Hrelease s Hok) as Hok1. rewrite Hlook in Hok1. simpl in Hok1.
  unfold next_scheduled_location, prepare_next_adapter in Hlook.
  destruct (prepare_from _ s) as [[[[a location]|]|e|] sm] eqn:Hp; try done. injection Hlook as <- <- ->.
  apply prepare_from_spec in Hp; [|done|done]. destruct Hp as (skipped & rest & Hs & _ & Hsteps & _ & _ & Hleft & Hat).
  pose proof (proj1 (Hsteps _ _) Hat) as Hat0. split_and!; [| |apply (steppable_running s a location Hat0)|apply (steppable_running s1 a location Hat)].
  3: { unfold slots_left in Hs. rewrite <-(take_drop (Z.to_nat (scheduler_slot s)) (sim_schedule s)), Hs. do 2 (apply elem_of_app; right). by left. }
  3: { unfold slots_left in Hleft. rewrite <-(take_drop (Z.to_nat (scheduler_slot s1)) (sim_schedule s1)), Hleft. apply elem_of_app. right. by left. }
  all: destruct Hat as (l & Hl & Hcan & Hloc).
  - assert (a ∈ sim_schedule s1) as Ha.
    { unfold slots_left in Hleft. rewrite <-(take_drop (Z.to_nat (scheduler_slot s1)) (sim_schedule s1)), Hleft. apply elem_of_app. right. by left. }
    pose proof (proj1 (Forall_forall _ _) (ok_schedule _ _ _ _ Hok1) a Ha) as Hai. destruct a as [i|i]; [|done].
    unfold adapter_lifecycle in Hl. simpl in Hl. unfold sim_ic10_lifecycle in Hl. destruct (cpus s1 !! i) as [c|] eqn:Hc; [|done].
    injection Hl as <-. simpl in Hloc. destruct (current_line c) as [line|] eqn:Hline; [|done]. injection Hloc as <-. by exists c.
  - unfold next_scheduled_location, prepare_next_adapter. fold (slots_left s1). rewrite Hleft. cbn [prepare_from].
    unfold mbind, M_mbind. cbn [gets]. rewrite Hl. rewrite Hcan. cbn [negb]. rewrite Hloc. done.
Qed.

(** A stop is recorded where nothing has run since the last event. *)
Lemma record_stopped_run a t h past thread line reason :
  holds a t h → session h past t →
  ∃ h', record_stopped record_bytes snapshot_bytes sources_bytes thread line reason a = (Ok (), set_ad_history (Some h') a)
    ∧ session h' (then_state past (cursor h + 1) t) t ∧ cursor h' = cursor h + 1.
Proof.
  intros [Ht Hh] Hd. destruct (debugged_tracked _ _ _ Hrelease _ _ _ _ _ _ _ Hd) as [_ _ _ _ Hx].
  assert (event t ActStop thread line empty_batch None t) as Hev.
  { pose proof (so_quiet _ _ _ _ Hx) as Hq. exists t, []. split; [by constructor|]. split; [|done].
    pose proof (emptied_quiet t Hq) as E. unfold emptied, take_effects, take_batch in *. simpl in *. by rewrite Hq, E. }
  destruct (debugged_records _ _ _ Hrelease _ _ _ _ _ _ _ _ _ _ _ _ _ Hd Hev (so_names _ _ _ _ Hx)) as (h1 & Hrun & _ & Hpos & _).
  injection Hpos as Hc _. unfold record_stopped, record_stop. rewrite Ht, Hh, Hrun. cbn [mbind outcome_mbind outcome_bind option_map].
  eexists. split; [done|]. split; [|unfold alter_flags; by destruct (last (records h1))].
  apply debugged_flags. eapply debugged_event; [exact Hd|exact Hev|apply Hx|exact Hrun].
Qed.

(** The retained states up to an event are reached from the state that is shown. *)
Definition still_reached (past : Z → Simulator) (final : Z) (h : TraceHistory) (s : Simulator) : Prop :=
  ∀ cp n, cp ∈ checkpoints h → cp_sequence cp ≤ n ≤ final →
    ∃ x', restore_history n h s = (Ok (Some (with_position n (next_sequence h) h)), x')
      ∧ snapshot x' = snapshot (past n) ∧ state_hash x' = state_hash (past n).

(** The flags of the last record do not say what is remembered. *)
Lemma memory_until_flags f past x h final : memory_until sizes nn nc final past x h → memory_until sizes nn nc final past x (alter_flags f h).
Proof. clear Hrelease.
  intros [Hc Hr]. destruct (alter_flags_rest f h) as (Ec & _). split; [by rewrite Ec|].
  intros r Hin. destruct (alter_flags_back f h r Hin) as (r0 & Hin0 & [->| ->]); exact (Hr r0 Hin0).
Qed.

(** A stop is recorded wherever the scheduler looked: what was retained before it still is. *)
Lemma record_stopped_keeps a s0 s h past thread line reason a' :
  holds a s h → session h past s0 → evolves s0 s → sim_ok sizes nn nc s →
  record_stopped record_bytes snapshot_bytes sources_bytes thread line reason a = (Ok (), a') →
  ∃ h', ad_history a' = Some h' ∧ cursor h' = cursor h + 1 ∧ (few_names s → still_reached past (cursor h) h' s).
Proof.
  intros [Hs Hh] Hd Hev Hok Hrun. destruct (debugged_tracked _ _ _ Hrelease _ _ _ _ _ _ _ Hd) as [[lo Hsh] Hm _ _ Hx].
  apply (memory_later _ _ _ Hrelease past s0 s) in Hm; [|exact Hev]. destruct (sim_ok_snapshot _ _ _ Hrelease s Hok) as [snap Hsnap].
  destruct (record_run record_bytes snapshot_bytes sources_bytes lo h s snap thread line ActStop empty_batch None Hsh Hsnap)
    as (h1 & lo1 & previous & Hrec & Hsh1 & Hpos & _ & _ & Hrs & Hcs).
  unfold record_stopped, record_stop in Hrun. rewrite Hs, Hh, Hrec in Hrun. cbn [mbind outcome_mbind outcome_bind option_map] in Hrun.
  injection Hrun as <-. injection Hpos as Hc Hn. eexists. split; [done|].
  split; [unfold alter_flags; by destruct (last (records h1))|]. intros Hfew cp n Hcp Hle.
  assert (shape lo1 (alter_flags (λ _, event_flag reason) h1)) as Hshape.
  { by apply shape_flags. }
  pose proof (sorted_front _ _ _ (sh_front _ _ Hshape) (sh_sorted _ _ Hshape) Hcp).
  assert (next_sequence (alter_flags (λ _, event_flag reason) h1) = cursor h + 2) as En by (unfold alter_flags; by destruct (last (records h1))).
  destruct (restore_until sizes nn nc Hrelease past s (alter_flags (λ _, event_flag reason) h1) lo1 n Hshape) as (x' & Hrestore & Hsame & _);
    [|done| |done|lia|].
  - apply memory_until_flags. split.
    + intros c Hc1 Hle1. destruct (Hcs c Hc1) as [[Hin _]|[He _]]; [by apply Hm|lia].
    + intros r Hr Hle1. destruct (Hrs r Hr) as [[Hin _]| ->]; [by apply Hm|]. simpl in Hle1. lia.
  - apply Hev; [apply Hx|done].
  - exists x'. split; [exact Hrestore|]. split; [by apply seen_snapshot|by apply seen_state_hash].
Qed.

End session.

(** ** The session *)

(** C5.  Going back a step.  A step of a processor in a recorded session is the last event
    of the history, and stepping back from it, when its state is still retained, leads to
    a simulation with the checkpoint and the hash of the one before the step. *)
Theorem step_back_undoes_step `{Libm} `{Build} `{LuaEngine} `{FloatDisplay} sizes nn nc record_bytes snapshot_bytes sources_bytes
    normalize_path a s h past thread result u :
  overflow_checks = false → holds a s h →
  debugged sizes nn nc record_bytes snapshot_bytes sources_bytes normalize_path h past s →
  pending_case a = None → (thread < length (cpus s))%nat →
  step_instruction thread s = (result, u) → result ≠ Panic → nameable u →
  ∃ a1 h1, step_request record_bytes snapshot_bytes sources_bytes (Some (Z.of_nat thread + 1)) a = (Ok (), a1)
    ∧ holds a1 (emptied u) h1 ∧ cursor h1 = cursor h + 1 ∧ ad_running a1 = false
    ∧ ∀ cp thread_id, cp ∈ checkpoints h1 → 0 ≤ cp_sequence cp ≤ cursor h →
        ∃ a2 s2, step_back normalize_path thread_id a1 = (Ok (), a2) ∧ ad_simulator a2 = Some s2
          ∧ snapshot s2 = snapshot s ∧ state_hash s2 = state_hash s.
Proof.
  intros Hrelease Ha Hd Hp Hlt Hstep Hr Hname.
  destruct (step_request_run sizes nn nc Hrelease record_bytes snapshot_bytes sources_bytes normalize_path a s h past thread result u)
    as (a1 & h1 & Hrun & Ha1 & Hd1 & Hc & Hn & Hrunning); [done..|].
  exists a1, h1. split_and!; [done..|]. intros cp thread_id Hcp Hle.
  destruct (debugged_tracked _ _ _ Hrelease _ _ _ _ _ _ _ Hd) as [[lo Hsh] _ Hsame _ _].
  destruct (step_back_run sizes nn nc Hrelease record_bytes snapshot_bytes sources_bytes normalize_path a1 (emptied u) h1
    (then_state past (cursor h + 1) (emptied u)) cp thread_id) as (a2 & s2 & Hback & [Hs2 _] & _ & Hsame2); [done|done|done|lia|lia|].
  exists a2, s2. split; [done|]. split; [done|].
  assert (then_state past (cursor h + 1) (emptied u) (cursor h1 - 1) = past (cursor h)) as E.
  { unfold then_state. rewrite Hc. assert (cursor h + 1 - 1 =? cursor h + 1 = false) as -> by lia. f_equal. lia. }
  rewrite E in Hsame2. split.
  - rewrite (seen_snapshot _ _ Hsame2). symmetry. by apply seen_snapshot.
  - rewrite (seen_state_hash _ _ Hsame2). symmetry. by apply seen_state_hash.
Qed.

(** A recorded session that was looked on from: the scheduler may have let ticks pass
    since the last event. *)
Definition followed `{Libm} `{Build} `{LuaEngine} `{FloatDisplay} sizes nn nc record_bytes snapshot_bytes sources_bytes
    normalize_path (a : Adapter) (h : TraceHistory) (past : Z → Simulator) (s : Simulator) : Prop :=
  holds a s h ∧ ∃ s0, debugged sizes nn nc record_bytes snapshot_bytes sources_bytes normalize_path h past s0 ∧ looks s0 s.

(** The turn stopped at a location, as a breakpoint there asked for. *)
Definition stopped_before `{Libm} `{Build} `{LuaEngine} `{FloatDisplay} (normalize_path : string → string) (s1 : Simulator) (thread : nat) (line : Z) (a a' : Adapter) : Prop :=
  (∃ c b hits, cpus s1 !! thread = Some c ∧ b ∈ ic10_candidates normalize_path (program c) line a
     ∧ add_u64 (E:=message) (sb_hits b) 1 = Ok hits ∧ breakpoint_action s1 thread b hits (ad_previous_values a) = Ok BreakStop)
  ∧ ad_skip_breakpoint_once a ≠ Some (thread, line)
  ∧ ad_running a' = false ∧ ad_last_stop a' = Some (thread, line) ∧ ad_simulator a' = Some s1.

(** C7.  The runner keeps the session.  A turn of the runner over IC10 programs, when no
    test is due, stops before the location that is next only for a breakpoint there that
    is to stop and was not just left; otherwise it runs the location and records it, a
    stop after it included, and the session goes on with the new state as its last.
    Stopping before a location records the stop as one event more: every earlier state
    that is still retained is reached from there, and where the scheduler had not moved
    since the last event the stop is an event of the session like any other.  (Where it
    had moved, as after the end of a tick, the record of the stop itself may not be
    reached: [stop_after_a_tick_diverges].)  A turn without a location only lets the
    tick pass. *)
Theorem turn_keeps_history `{Libm} `{Build} `{LuaEngine} `{FloatDisplay} sizes nn nc record_bytes snapshot_bytes sources_bytes
    normalize_path a h past s a' :
  overflow_checks = false → followed sizes nn nc record_bytes snapshot_bytes sources_bytes normalize_path a h past s →
  ad_running a = true → pending_case a = None → ad_single_thread a = None → is_finished s = false →
  run_turn record_bytes snapshot_bytes sources_bytes normalize_path a = (Ok (), a') →
  match next_scheduled_location s with
  | (Ok (Some (thread, line)), s1) =>
      stopped_before normalize_path s1 thread line a a'
        ∧ (∃ h', ad_history a' = Some h' ∧ cursor h' = cursor h + 1
             ∧ (few_names s1 → still_reached past (cursor h) h' s1)
             ∧ (debugged sizes nn nc record_bytes snapshot_bytes sources_bytes normalize_path h past s1 →
                debugged sizes nn nc record_bytes snapshot_bytes sources_bytes normalize_path h' (then_state past (cursor h + 1) s1) s1))
      ∨ ∀ result u, scheduler_step s1 = (result, u) → nameable u →
          ∃ h' past' t, followed sizes nn nc record_bytes snapshot_bytes sources_bytes normalize_path a' h' past' t
            ∧ t = emptied u ∧ past' (cursor h + 1) = t ∧ cursor h < cursor h' ∧ ∀ n, n ≤ cursor h → past' n = past n
  | (Ok None, s1) =>
      holds a' s1 h
      ∧ (0 ≤ tick s < U64_MAX → scheduler_error s = None → scheduler_error s1 = None →
         followed sizes nn nc record_bytes snapshot_bytes sources_bytes normalize_path a' h past s1)
  | _ => False
  end.
Proof.
  intros Hrelease ([Hs Hh] & s0 & Hd & Hlooks) Hrunning Hp Hsingle Hfin Hrun.
  destruct (debugged_tracked _ _ _ Hrelease _ _ _ _ _ _ _ Hd) as [_ _ _ _ Hx].
  destruct (looks_later _ _ Hlooks) as (_ & _ & Hslot). specialize (Hslot (so_slot _ _ _ _ Hx)).
  pose proof (looks_ok sizes nn nc Hrelease _ _ Hlooks (so_ok _ _ _ _ Hx)) as Hok.
  destruct (run_turn_run record_bytes snapshot_bytes sources_bytes normalize_path a s a') as (location & s1 & turn & a1 & Hlook & Hvisit & Hend); [done..|].
  rewrite Hlook. destruct location as [[thread line]|].
  2: { destruct Hvisit as [-> ->]. apply end_turn_run in Hend. simpl in Hend. destruct Hend as (E1 & E2 & _).
       assert (holds a' s1 h) as Ha' by (split; congruence). split; [done|]. intros Htick He He1. split; [done|]. exists s0. split; [done|].
       eapply looks_trans; [exact Hlooks|]. eapply looks_tick; [exact Hlook|by eapply tick_passed|constructor]. }
  destruct (location_found sizes nn nc Hrelease s s1 thread line Hok Hslot Hlook) as ((c & Hc & _) & _).
  destruct (visit_run record_bytes snapshot_bytes sources_bytes normalize_path (set_ad_simulator (Some s1) a) s1 c thread line turn a1)
    as (stops & a2 & Htry & Htried & Hnext); [done..|]. destruct Htried as (T1 & T2 & _ & T4 & _).
  destruct (may_stop _ _ _ _) eqn:Hmay.
  - left. destruct Hnext as [-> ->]. apply end_turn_run in Hend. cbn [fst] in Hend.
    destruct Hend as (line' & a3 & a4 & (U1 & U2 & U3 & _) & U4 & Hrec & E1 & E2 & E3 & E4 & _).
    destruct (record_stopped_calm _ _ _ _ _ _ _ _ Hrec) as (V1 & V3 & V4 & _).
    apply andb_true_iff in Hmay as [-> Hskip%negb_true_iff%bool_decide_eq_false]. split.
    { split_and!; [|exact Hskip|by rewrite E3, V3, U3|by rewrite E4, V4, U4|by rewrite E1, V1, U1].
      destruct (tried_stop _ _ _ _ _ Htry) as (b & hits & Hb & Hadd & Hact). by exists c, b, hits. }
    assert (holds a3 s1 h) as Ha3 by (split; [rewrite U1; exact T1|rewrite U2; simpl; rewrite T2; exact Hh]).
    destruct (record_stopped_keeps sizes nn nc Hrelease record_bytes snapshot_bytes sources_bytes normalize_path a3 s0 s1 h past thread line' "breakpoint" a4)
      as (h' & Hh' & Hc' & Hreach); [done|done| | |exact Hrec|].
    + etransitivity; [apply (looks_later _ _ Hlooks)|]. pose proof (evolves_next_scheduled_location s) as Hev. by rewrite Hlook in Hev.
    + pose proof (safe_next_scheduled_location sizes nn nc Hrelease s Hok) as Hok1. by rewrite Hlook in Hok1.
    + exists h'. split_and!; [by rewrite E2|done..|]. intros Hsession.
      destruct (record_stopped_run sizes nn nc Hrelease record_bytes snapshot_bytes sources_bytes normalize_path a3 s1 h past thread line' "breakpoint" Ha3 Hsession)
        as (h2 & Hrec2 & Hd2 & _).
      rewrite Hrec2 in Hrec. injection Hrec as <-. injection Hh' as <-. exact Hd2.
  - right. intros result u Hstep Hname.
    destruct (step_ic10_run record_bytes snapshot_bytes sources_bytes a2 s1 thread line result u turn a1)
      as (Hr & a3 & a4 & Hrec & S3 & H3 & S1 & S2 & _); [by rewrite T1|by rewrite T4|done|exact Hnext|].
    assert (event s0 ActScheduled thread line (pending (journal u)) (error_of result) (emptied u)) as Hev.
    { apply event_of; [|done]. by eapply performs_scheduled. }
    destruct (record_event_run sizes nn nc Hrelease record_bytes snapshot_bytes sources_bytes normalize_path a3 s0 h past ActScheduled thread line
      (pending (journal u)) (error_of result) (emptied u)) as (h1 & Hrec' & Hd1 & Hc1 & _);
      [split; [done|by rewrite H3, T2]|done|done|apply Hname|].
    rewrite Hrec' in Hrec. injection Hrec as <-. simpl in S1, S2. rewrite S3 in S1.
    apply end_turn_run in Hend. destruct turn as [[[[t reason] description]|] capture]; cbn [fst] in Hend.
    + destruct Hend as (line' & a4 & a5 & (U1 & U2 & _) & _ & Hrec & E1 & E2 & _).
      destruct (record_stopped_run sizes nn nc Hrelease record_bytes snapshot_bytes sources_bytes normalize_path a4 (emptied u) h1
        (then_state past (cursor h + 1) (emptied u)) t line' reason) as (h2 & Hrec2 & Hd2 & Hc2); [split; congruence|done|].
      rewrite Hrec2 in Hrec. injection Hrec as <-. simpl in E1, E2.
      exists h2, (then_state (then_state past (cursor h + 1) (emptied u)) (cursor h1 + 1) (emptied u)), (emptied u). split_and!.
      * split; [split; congruence|]. exists (emptied u). split; [done|constructor].
      * done.
      * unfold then_state. by rewrite Hc1, Z.eqb_refl, (proj2 (Z.eqb_neq _ _)) by lia.
      * lia.
      * intros n Hn. unfold then_state. by rewrite !(proj2 (Z.eqb_neq _ _)) by lia.
    + destruct Hend as (E1 & E2 & _). exists h1, (then_state past (cursor h + 1) (emptied u)), (emptied u). split_and!.
      * split; [split; congruence|]. exists (emptied u). split; [done|constructor].
      * done.
      * unfold then_state. by rewrite Z.eqb_refl.
      * lia.
      * intros n Hn. unfold then_state. by rewrite (proj2 (Z.eqb_neq _ _)) by lia.
Qed.

(** C6.  A breakpoint stops the run before its line: whatever other breakpoints the
    location has, the program has not run, the thread is reported, and nothing else runs.
    Continuing from there runs exactly that location, without stopping at it again. *)
Theorem breakpoint_stops `{Libm} `{Build} `{LuaEngine} `{FloatDisplay} sizes nn nc record_bytes snapshot_bytes sources_bytes
    normalize_path a s s1 thread line c b a1 :
  overflow_checks = false → sim_ok sizes nn nc s → 0 ≤ scheduler_slot s →
  ad_simulator a = Some s → ad_running a = true → ad_test_case a = None → ad_single_thread a = None →
  next_scheduled_location s = (Ok (Some (thread, line)), s1) → cpus s1 !! thread = Some c →
  b ∈ ic10_candidates normalize_path (program c) line a → sb_hits b < U64_MAX →
  breakpoint_action s1 thread b (sb_hits b + 1) (ad_previous_values a) = Ok BreakStop →
  ad_skip_breakpoint_once a ≠ Some (thread, line) →
  run_turn record_bytes snapshot_bytes sources_bytes normalize_path a = (Ok (), a1) →
  ad_running a1 = false ∧ ad_simulator a1 = Some s1 ∧ ad_last_stop a1 = Some (thread, line)
  ∧ last (ad_sent a1) = Some (SentStopped "breakpoint" thread None)
  ∧ run_turn record_bytes snapshot_bytes sources_bytes normalize_path a1 = (Ok (), a1)
  ∧ ∀ a2 a3, continue_execution false None a1 = (Ok (), a2) →
      run_turn record_bytes snapshot_bytes sources_bytes normalize_path a2 = (Ok (), a3) →
      ad_simulator a3 = Some (emptied (scheduler_step s1).2).
Proof.
  intros Hrelease Hok Hslot Hs Hrunning Htest Hsingle Hlook Hc Hb Hhits Hact Hskip Hrun.
  destruct (location_found sizes nn nc Hrelease s s1 thread line Hok Hslot Hlook) as (_ & Hlook1 & Hfin & Hfin1).
  destruct (run_turn_run record_bytes snapshot_bytes sources_bytes normalize_path a s a1) as (location & s1' & turn & a2 & Hlook' & Hvisit & Hend);
    [done|done|unfold pending_case; by rewrite Htest|done|done|done|].
  rewrite Hlook in Hlook'. injection Hlook' as <- <-.
  destruct (visit_run record_bytes snapshot_bytes sources_bytes normalize_path (set_ad_simulator (Some s1) a) s1 c thread line turn a2)
    as (stops & a3 & Htry & (T1 & _ & _ & T4 & T5 & _ & T7) & Hnext); [done..|].
  assert (stops = true) as -> by (exact (try_stops s1 thread b _ (set_ad_simulator (Some s1) a) stops a3 Hb Hhits Hact Htry)).
  unfold may_stop in Hnext. cbn [ad_skip_breakpoint_once set_ad_simulator] in Hnext. rewrite bool_decide_eq_false_2 in Hnext by done.
  destruct Hnext as [-> ->]. apply end_turn_run in Hend. cbn [fst] in Hend.
  destruct Hend as (line' & a4 & a5 & (U1 & _ & U3 & U4' & _ & _ & U7) & U4 & Hrec & E1 & _ & E3 & E4 & E5 & Hsent).
  destruct (record_stopped_calm _ _ _ _ _ _ _ _ Hrec) as (V1 & V3 & V4 & V5).
  assert (ad_running a1 = false) as R by (rewrite E3, V3, U3; done).
  assert (ad_simulator a1 = Some s1) as S1 by (rewrite E1, V1, U1; exact T1).
  assert (ad_last_stop a1 = Some (thread, line)) as L1 by (rewrite E4, V4, U4; done).
  assert (ad_test_case a1 = None) as C1 by (rewrite E5, V5, U7; simpl; rewrite T7; exact Htest).
  split_and!; [done..| |].
  { unfold run_turn. by rewrite bind_gets, R. }
  intros a6 a7 Hcontinue Hrun2. rewrite (continue_run a1 s1 S1) in Hcontinue.
  pose proof (f_equal snd Hcontinue) as E6. cbn [snd] in E6. subst a6. clear Hcontinue.
  match type of Hrun2 with run_turn _ _ _ _ ?x = _ => set (a8 := x) in * end.
  destruct (run_turn_run record_bytes snapshot_bytes sources_bytes normalize_path a8 s1 a7) as (location & s2 & turn & a9 & Hlook2 & Hvisit2 & Hend2);
    [done|done|unfold pending_case; simpl; by rewrite C1|done|done|done|].
  rewrite Hlook1 in Hlook2. injection Hlook2 as <- <-.
  destruct (visit_run record_bytes snapshot_bytes sources_bytes normalize_path (set_ad_simulator (Some s1) a8) s1 c thread line turn a9)
    as (stops & a10 & _ & (W1 & _ & _ & W4 & _) & Hnext2); [done..|].
  unfold may_stop in Hnext2. cbn [ad_skip_breakpoint_once set_ad_simulator] in Hnext2.
  rewrite bool_decide_eq_true_2, andb_false_r in Hnext2 by exact L1.
  destruct (scheduler_step s1) as [result u] eqn:Hstep. simpl.
  destruct (step_ic10_run record_bytes snapshot_bytes sources_bytes a10 s1 thread line result u turn a9)
    as (_ & a11 & a12 & Hrec2 & S3 & _ & S5 & _ & _); [exact W1|exact W4|exact Hstep|exact Hnext2|].
  assert (ad_simulator a9 = Some (emptied u)) as S9.
  { rewrite S5, <-S3. by eapply record_event_calm. }
  apply end_turn_run in Hend2. destruct turn as [[[[t reason] description]|] capture]; cbn [fst] in Hend2.
  - destruct Hend2 as (l & a13 & a14 & (X1 & _) & _ & Hrec3 & Y1 & _). destruct (record_stopped_calm _ _ _ _ _ _ _ _ Hrec3) as (Z1 & _).
    rewrite Y1, Z1, X1. exact S9.
  - destruct Hend2 as (Y1 & _). rewrite Y1. exact S9.
Qed.

(** ** Sessions *)

#[local] Existing Instances sample_libm release_build sample_engine sample_display.

Lemma returned {A B} (r : outcome message A * B) a : r.1 = Ok a → r = (Ok a, r.2).
Proof. destruct r. by intros [= ->]. Qed.

Definition loaded_adapter : Adapter := set_ad_history (Some session_h0) (set_ad_simulator (Some recorded_simulator) adapter_default).
Abbreviation sample_turn := (run_turn (λ _, 100) (λ _, 1000) (λ _, 0) (λ path, path)).
Abbreviation sample_step := (step_request (λ _, 100) (λ _, 1000) (λ _, 0)).
Abbreviation sample_back := (step_back (λ path, path)).

Abbreviation first_stepped := (sample_step (Some 2) loaded_adapter).2.

Lemma step_back_undoes_step_witness :
  ∃ a2 s2, sample_back (Some 2) first_stepped = (Ok (), a2) ∧ ad_simulator a2 = Some s2
    ∧ snapshot s2 = snapshot recorded_simulator ∧ state_hash s2 = state_hash recorded_simulator.
Proof.
  destruct (step_back_undoes_step [0; 0; 4]%nat 1 2 (λ _, 100) (λ _, 1000) (λ _, 0) (λ path, path) loaded_adapter recorded_simulator session_h0
    (λ _, recorded_simulator) 1 (step_instruction 1 recorded_simulator).1 (step_instruction 1 recorded_simulator).2 (eq_refl : @overflow_checks release_build = false)) as (a1 & h1 & Hrun & [_ Hh] & _ & _ & Hback).
  - by split.
  - exact session_debugged_0.
  - vm_compute. reflexivity.
  - vm_compute. lia.
  - exact (surjective_pairing (step_instruction 1 recorded_simulator)).
  - vm_compute. discriminate.
  - split; vm_compute; reflexivity.
  - assert (a1 = first_stepped) as -> by (change (Some 2) with (Some (Z.of_nat 1 + 1)); by rewrite Hrun).
    assert ((λ h, sequences (checkpoints h)) <$> ad_history first_stepped = Some [0]) as Hkept by (vm_compute; reflexivity).
    rewrite Hh in Hkept. apply (inj Some) in Hkept.
    assert (0 ∈ sequences (checkpoints h1)) as Hin by (rewrite Hkept; left). apply list_elem_of_fmap in Hin as (cp & Hseq & Hcp).
    destruct (Hback cp (Some 2) Hcp) as (a2 & s2 & Hb & Hs & Hsnap & Hhash); [rewrite <-Hseq; vm_compute; by split|].
    exists a2, s2. exact (conj Hb (conj Hs (conj Hsnap Hhash))).
Defined.

(** The runner at the start of the session. *)
Definition running_adapter : Adapter := set_ad_running true loaded_adapter.

Lemma turn_keeps_history_witness :
  ∃ h' past' t, followed [0; 0; 4]%nat 1 2 (λ _, 100) (λ _, 1000) (λ _, 0) (λ path, path) (sample_turn running_adapter).2 h' past' t
    ∧ cursor session_h0 < cursor h' ∧ past' (cursor session_h0 + 1) = t.
Proof.
  pose proof (turn_keeps_history [0; 0; 4]%nat 1 2 (λ _, 100) (λ _, 1000) (λ _, 0) (λ path, path) running_adapter session_h0
    (λ _, recorded_simulator) recorded_simulator (sample_turn running_adapter).2 (eq_refl : @overflow_checks release_build = false)) as Hturn.
  assert (next_scheduled_location recorded_simulator = (Ok (Some (1%nat, 0)), session_look)) as Hlook by (vm_compute; reflexivity).
  rewrite Hlook in Hturn. destruct Hturn as [((_ & _ & Hrunning & _) & _)|Hnext].
  - split; [by split|]. exists recorded_simulator. split; [exact session_debugged_0|constructor].
  - reflexivity.
  - vm_compute. reflexivity.
  - reflexivity.
  - vm_compute. reflexivity.
  - apply returned. vm_compute. reflexivity.
  - exfalso. assert (ad_running (sample_turn running_adapter).2 = true) as E by (vm_compute; reflexivity).
    rewrite E in Hrunning. discriminate Hrunning.
  - destruct (Hnext (scheduler_step session_look).1 (scheduler_step session_look).2) as (h' & past' & t & Hf & _ & Ht & Hc & _).
    + exact (surjective_pairing (scheduler_step session_look)).
    + split; vm_compute; reflexivity.
    + exists h', past', t. exact (conj Hf (conj Hc Ht)).
Defined.

(** A breakpoint on the first line of the program that runs first. *)
Definition first_breakpoint : SourceBreakpoint :=
  {| sb_id := 1; sb_line := 1; sb_condition := None; sb_hit_condition := None; sb_log_message := None; sb_hits := 0 |}.
Definition second_cpu : Cpu := default (cpu_of "" 0 (program_of [])) (cpus session_look !! 1%nat).
Definition stopping_adapter : Adapter :=
  set_ad_breakpoints [(debug_source_path (program second_cpu), [first_breakpoint])] (set_ad_history None running_adapter).
Abbreviation stopped_adapter := (sample_turn stopping_adapter).2.
Abbreviation continued_adapter := (continue_execution false None stopped_adapter).2.

Lemma breakpoint_stops_witness :
  last (ad_sent stopped_adapter) = Some (SentStopped "breakpoint" 1 None)
  ∧ ad_simulator (sample_turn continued_adapter).2 = Some (emptied (scheduler_step session_look).2).
Proof.
  destruct (breakpoint_stops [0; 0; 4]%nat 1 2 (λ _, 100) (λ _, 1000) (λ _, 0) (λ path, path) stopping_adapter recorded_simulator session_look
    1 0 second_cpu first_breakpoint stopped_adapter (eq_refl : @overflow_checks release_build = false))
    as (_ & _ & _ & Hsent & _ & Hcontinue).
  - apply recorded_simulator_ok.
  - vm_compute. discriminate.
  - reflexivity.
  - reflexivity.
  - reflexivity.
  - reflexivity.
  - vm_compute. reflexivity.
  - vm_compute. reflexivity.
  - vm_compute. left.
  - vm_compute. reflexivity.
  - vm_compute. reflexivity.
  - discriminate.
  - apply returned. vm_compute. reflexivity.
  - split; [exact Hsent|]. apply (Hcontinue continued_adapter).
    + refine (returned (continue_execution false None stopped_adapter) () _). vm_compute. reflexivity.
    + refine (returned (sample_turn continued_adapter) () _). vm_compute. reflexivity.
Defined.
