(* ===== verification/SessionSafety.v ===== *)
(** * A session keeps its simulation

    Whatever the client asks for and the runner does, the simulation of a session stays
    well formed and every checkpoint of its history fits it.  A turn or a request is a
    composition of operations that keep this, and the proofs follow its text. *)

From S2P Require Import Prelude BTree Text F64 Knowledge Literals Journal Scenario World Program Compile Cpu Exec.
From S2P Require Import Isa Frame Behaviour Vm Lua Simulator Tick Safety Control Load Schema Evaluator EvaluatorFacts.
From S2P Require Import Runner Replay History HistoryFacts TimeTravel Debugger Session SessionFacts.
Local Open Scope string_scope.
Local Open Scope Z_scope.

(** ** Computations that keep an invariant, unless they panic *)

Definition kept {S E A} (I : S → Prop) (m : M S E A) : Prop := ∀ s r t, I s → m s = (r, t) → r ≠ Panic → I t.

Section kept.
Context {S E : Type} (I : S → Prop).
Implicit Types (A B : Type).

Lemma kept_safe A (m : M S E A) Q : safe I m Q → kept I m.
Proof. intros Hm s r t Hs Hrun Hr. specialize (Hm s Hs). rewrite Hrun in Hm. destruct r; [by destruct Hm|done|done]. Qed.
Lemma kept_ret A (a : A) : kept (E:=E) I (mret a).
Proof. by intros s r t Hs [= <- <-] _. Qed.
Lemma kept_throw A (e : E) : kept (A:=A) I (throw e).
Proof. by intros s r t Hs [= <- <-] _. Qed.
Lemma kept_panic A : kept (E:=E) (A:=A) I panic.
Proof. by intros s r t Hs [= <- <-] Hr. Qed.
Lemma kept_gets A (f : S → A) : kept (E:=E) I (gets f).
Proof. by intros s r t Hs [= <- <-] _. Qed.
Lemma kept_get_or_panic A (f : S → option A) : kept (E:=E) I (get_or_panic f).
Proof. intros s r t Hs. unfold get_or_panic. destruct (f s); by intros [= <- <-] _. Qed.
Lemma kept_lift A (r : outcome E A) : kept I (lift r).
Proof. by intros s r' t Hs [= <- <-] _. Qed.
Lemma kept_modify (f : S → S) : (∀ s, I s → I (f s)) → kept (E:=E) I (modify f).
Proof. intros Hf s r t Hs [= <- <-] _. by apply Hf. Qed.

Lemma kept_bind A B (m : M S E A) (k : A → M S E B) : kept I m → (∀ a, kept I (k a)) → kept I (m ≫= k).
Proof.
  intros Hm Hk s r t Hs. unfold mbind, M_mbind. specialize (Hm s). destruct (m s) as [[a|e|] s1] eqn:Hrun.
  - intros Hrun2. eapply Hk; [by eapply Hm|exact Hrun2].
  - intros [= <- <-] _. by eapply Hm.
  - by intros [= <- <-].
Qed.

Lemma kept_when b (m : M S E ()) : kept I m → kept I (when b m).
Proof. destruct b; [done|]. intros _. apply kept_ret. Qed.
Lemma kept_for_each A (f : A → M S E ()) l : (∀ a, kept I (f a)) → kept I (for_each f l).
Proof. intros Hf. induction l as [|a l IH]; simpl; [apply kept_ret|]. by apply kept_bind; [|intros _]. Qed.
End kept.

Create HintDb kept.
#[export] Hint Resolve kept_ret kept_throw kept_panic kept_gets kept_get_or_panic kept_lift : kept.

(** [kept_run] walks through the text of a computation. *)
Ltac kept_run :=
  repeat (cbv beta zeta;
  lazymatch goal with
  | |- kept _ (mbind _ _) => apply kept_bind; [|intros ?]
  | |- kept _ (when _ _) => apply kept_when
  | |- kept _ (for_each _ _) => apply kept_for_each; intros ?
  | |- kept _ (if ?b then _ else _) => destruct b
  | |- kept _ (match ?x with _ => _ end) => destruct x
  | |- kept _ _ => solve [eauto with kept]
  end).

(** ** Simulations of a session *)

Section simulations.
Context `{Libm} `{Build} `{LuaEngine} `{FloatDisplay}.
Context (sizes : list nat) (nn nc : nat) (schedule : VmSchedule) (kb : KnowledgeBase) (Hrelease : overflow_checks = false).
Context (Hdistinct : NoDup schedule) (Hcomplete : ∀ i, (i < nc)%nat → AdIc10 i ∈ schedule).
Abbreviation SX := (M Simulator message).
#[local] Set Default Proof Using "Type H H0 H1 H2".

(** A well-formed simulation of IC10 programs with the schedule and the game data of the
    session. *)
Record well (s : Simulator) : Prop := {
  we_ok : sim_ok sizes nn nc s;
  we_lua : lua_programs s = [];
  we_schedule : sim_schedule s = schedule;
  we_knowledge : knowledge s = kb;
}.

(** A checkpoint of such a simulation. *)
Definition fits (snap : SimulatorSnapshot) : Prop := ∃ s, well s ∧ snapshot s = Ok snap.

Lemma well_static s t : well s → same_static s t → sim_ok sizes nn nc t → well t.
Proof.
  intros [_ Hl Hs Hk] Hst Hok. unfold same_static, static in Hst. injection Hst as Hk' _ Hs' Hl' _.
  constructor; [done| |congruence..]. apply nil_length_inv. by rewrite Hl', Hl.
Qed.

Lemma kept_static A (m : SX A) : kept (sim_ok sizes nn nc) m → keeps same_static m → kept well m.
Proof.
  intros Hm Hst s r t Hs Hrun Hr. specialize (Hst s). rewrite Hrun in Hst. simpl in Hst.
  eapply well_static; [exact Hs|exact Hst|]. eapply Hm; [apply Hs|exact Hrun|done].
Qed.
Lemma kept_safely A (m : SX A) : safe (sim_ok sizes nn nc) m any → keeps same_static m → kept well m.
Proof. intros Hm. apply kept_static. by eapply kept_safe. Qed.

(** The parts of the simulation that a write changes. *)
Lemma kept_alter_cpu i f :
  (∀ c, identity (f c) = identity c) → (∀ c, cpu_program_ok sizes c → cpu_program_ok sizes (f c)) → kept well (alter_cpu i f).
Proof.
  intros Hid Hf. apply kept_static; [|by apply static_alter_cpu]. intros s r t Hs. unfold alter_cpu.
  destruct (cpus s !! i) as [c|] eqn:Hc; [|by intros [= <- <-]]. intros [= <- <-] _. apply sim_ok_cpus; [done|]. apply Hf.
  destruct Hs as [_ [_ Hcs] _]. by eapply Forall_lookup_1 in Hcs.
Qed.
Lemma kept_world f :
  (∀ w, world_shape sizes nn w → world_shape sizes nn (f w)) → kept well (modify (λ s, sim_set_world (f (world s)) s) : SX ()).
Proof.
  intros Hf. apply kept_static; [|by apply static_modify]. apply kept_modify. intros s Hs. apply sim_ok_world_set; [done|].
  by apply Hf, (sim_ok_world _ _ nc).
Qed.
Lemma kept_alter_device d f : same_identity f → kept well (sim_alter_device d f).
Proof. intros Hf. apply (kept_world (alter_device f d)). intros w Hw. by apply world_shape_alter_device. Qed.
Lemma kept_alter_network n channel value : kept well (sim_alter_network n (put_channel channel value)).
Proof. apply (kept_world (alter_network _ n)). intros w Hw. apply world_shape_alter_network; [|done..]. intros net. apply length_insert. Qed.

Lemma kept_journal A (m : SX A) : (∀ s, ∃ r j, m s = (r, sim_set_journal j s)) → kept well m.
Proof.
  intros Hm s r t Hs Hrun _. destruct (Hm s) as (r' & j & Hj). rewrite Hj in Hrun. injection Hrun as _ <-.
  by apply (well_static s); [|done|apply sim_ok_journal, Hs].
Qed.
Lemma kept_take_effects : kept well take_effects.
Proof. apply kept_journal. intros s. unfold take_effects. destruct (take_batch (journal s)) as [batch j]. by exists (Ok batch), j. Qed.
Lemma kept_sim_write actor t before after : kept well (sim_write actor t before after : SX ()).
Proof. apply kept_journal. intros s. by eexists _, _. Qed.
Lemma kept_sim_intern name : kept well (sim_intern name).
Proof. apply kept_journal. intros s. unfold sim_intern. destruct (intern name (journal s)). by eexists _, _. Qed.
Lemma kept_sim_notify d f before after : kept well (sim_notify d f before after : SX ()).
Proof. intros s r t Hs [= <- <-] _. apply (well_static s); [done..|]. apply sim_ok_notify, Hs. Qed.

(** ** What the scheduler runs *)

#[local] Set Default Proof Using "Type H H0 H1 H2 Hrelease".

Lemma kept_next_scheduled_location : kept well next_scheduled_location.
Proof.
  apply kept_static; [|apply static_next_scheduled_location]. intros s r t Hs Hrun _.
  pose proof (safe_next_scheduled_location sizes nn nc Hrelease s Hs) as Hn. by rewrite Hrun in Hn.
Qed.
Lemma kept_scheduler_step : kept well scheduler_step.
Proof. apply kept_safely; [by apply safe_scheduler_step|apply static_scheduler_step]. Qed.
Lemma kept_step_instruction i : kept well (step_instruction i).
Proof. apply kept_safely; [by apply safe_step_instruction|apply static_step_instruction]. Qed.
Lemma kept_step_world_tick : kept well step_world_tick.
Proof.
  apply kept_static; [|apply static_step_world_tick]. intros s r t Hs Hrun Hr. unfold step_world_tick in Hrun.
  pose proof (safe_step_until_tick sizes nn nc Hrelease (tick_fuel s) (tick s) [] s Hs) as Hn.
  destruct (step_until_tick _ _ _ s) as [[events|e|] u]; simplify_eq/=; by destruct Hn.
Qed.
Lemma kept_kept_result A (m : SX A) : kept well m → kept well (kept_result m).
Proof.
  intros Hm s r t Hs. unfold kept_result. destruct (m s) as [r' t'] eqn:Hrun. intros [= <- <-] Hr.
  eapply Hm; [exact Hs|exact Hrun|]. by intros ->.
Qed.
Lemma kept_set_value thread target value : kept well (set_value thread target value).
Proof.
  intros s r t Hs Hrun _. destruct (set_value_edits _ _ _ _ _ _ _ Hrun) as ((Hst & _) & _ & Hok).
  by apply (well_static s); [|exact Hst|apply Hok, Hs].
Qed.

(** ** Going back *)

(** A checkpoint that fits is put back, and taken again it is the same. *)
Lemma restore_fits snap s : fits snap → well s → ∃ t, restore snap s = (Ok (), t) ∧ snapshot t = Ok snap ∧ well t.
Proof using Type H H0 H1 H2 Hrelease Hdistinct Hcomplete.
  intros (s0 & H0ok & Hsnap) Hs. destruct (we_ok _ H0ok) as [_ [Hc0 Hcs0] _]. destruct (we_ok _ Hs) as [_ [Hc Hcs] _].
  pose proof (sim_ok_world _ _ _ _ (we_ok _ H0ok)) as (Hd0 & Hn0 & _). pose proof (sim_ok_world _ _ _ _ (we_ok _ Hs)) as (Hd & Hn & _).
  destruct (restore_run s0 s snap Hsnap) as (t & Hrun & Ht & Hshared).
  { rewrite (we_schedule _ H0ok). done. }
  { rewrite (we_schedule _ H0ok), (we_schedule _ Hs). done. }
  { by rewrite Hc0, Hc. }
  { by rewrite (we_lua _ H0ok), (we_lua _ Hs). }
  { by rewrite <-!length_memory_sizes, Hd, Hd0. }
  { by rewrite Hn, Hn0. }
  exists t. split; [done|]. split; [done|]. pose proof (static_restore snap s) as Hst. rewrite Hrun in Hst. simpl in Hst.
  eapply well_static; [exact Hs|exact Hst|].
  pose proof Ht as Ht'. unfold snapshot in Hsnap, Ht'.
  destruct (map_outcome (adapter_snapshot s0) _) as [saved| |] eqn:Hm0; [|done..].
  destruct (map_outcome (adapter_snapshot t) _) as [saved'| |] eqn:Hmt; [|done..].
  injection Hsnap as <-. injection Ht' as Hw -> _ _ _ Hb _ _.
  unfold same_static, static in Hst. injection Hst as _ _ Hsch _ Hid.
  assert (length (cpus t) = nc) as Hct by (rewrite <-Hc, <-(length_fmap identity (cpus t)), Hid, length_fmap; done).
  constructor; [| |rewrite Hsch; apply Hs].
  - destruct (we_ok _ H0ok) as [Hbok _ _]. unfold behaviour_state_of in *. destruct Hbok as (B1 & B2 & B3). simpl in *.
    split_and!; simpl; by rewrite ?Hw, ?Hb.
  - split; [done|]. apply Forall_lookup. intros i c Hi. pose proof (lookup_lt_Some _ _ _ Hi) as Hlt.
    destruct (lookup_lt_is_Some_2 (cpus s0) i) as [c0 Hi0]; [lia|]. destruct (lookup_lt_is_Some_2 (cpus s) i) as [c1 Hi1]; [lia|].
    assert (adapter_snapshot t (AdIc10 i) = adapter_snapshot s0 (AdIc10 i)) as Hsame.
    { unfold adapters in Hmt, Hm0. rewrite Hsch, (we_schedule _ Hs) in Hmt. rewrite (we_schedule _ H0ok) in Hm0.
      apply (map_outcome_agree _ _ _ _ _ Hmt Hm0). apply Hcomplete. lia. }
    unfold adapter_snapshot in Hsame. simpl in Hsame. unfold sim_ic10_snapshot in Hsame. rewrite Hi, Hi0 in Hsame. simpl in Hsame.
    injection Hsame as Hr Hstk Hpins _ _ _ _ _.
    assert (identity c = identity c1) as Hidc.
    { apply (f_equal (lookup i)) in Hid. rewrite !list_lookup_fmap, Hi, Hi1 in Hid. by apply (inj Some) in Hid. }
    unfold identity in Hidc. injection Hidc as _ _ _ Hh Hp.
    eapply Forall_lookup_1 in Hcs0 as [[? ? ? ?] _]; [|exact Hi0]. eapply Forall_lookup_1 in Hcs as [[? ? ? ?] ?]; [|exact Hi1].
    split; [constructor; congruence|by rewrite Hp].
Qed.

Lemma kept_restore snap : fits snap → kept well (restore snap).
Proof using Type H H0 H1 H2 Hrelease Hdistinct Hcomplete.
  intros Hf s r t Hs Hrun _. destruct (restore_fits snap s Hf Hs) as (t' & Hrun' & _ & Ht). rewrite Hrun in Hrun'. by injection Hrun' as _ ->.
Qed.

Lemma kept_expecting A (r : TraceRecord) (m : SX A) : kept well m → kept well (expecting r m).
Proof.
  intros Hm s r' t Hs. unfold expecting. destruct (m s) as [result u] eqn:Hrun. intros [= <- <-] Hr.
  eapply Hm; [exact Hs|exact Hrun|]. intros ->. unfold replay_result_matches in Hr. by destruct (rc_error r).
Qed.
Lemma kept_replay_ticks fuel r : kept well (replay_ticks fuel r).
Proof.
  pose proof kept_next_scheduled_location as Hn. induction fuel as [|fuel IH]; simpl; [apply kept_ret|]. kept_run.
Qed.
Lemma kept_same {A} (m : SX A) : (∀ s, (m s).2 = s) → kept well m.
Proof. intros Hm s r t Hs Hrun _. specialize (Hm s). rewrite Hrun in Hm. simpl in Hm. by subst t. Qed.
Lemma kept_replay_action r : kept well (replay_action r).
Proof.
  unfold replay_action. destruct (rc_action r).
  - apply kept_bind; [intros s r' t Hs Hrun; by eapply (kept_replay_ticks _ r)|intros moved].
    pose proof kept_next_scheduled_location as Hn. pose proof (kept_expecting _ r _ kept_scheduler_step) as He. kept_run.
  - pose proof (kept_expecting _ r _ (kept_step_instruction cpu)) as He. kept_run.
  - pose proof (kept_expecting _ r _ kept_step_world_tick) as He. kept_run.
  - apply kept_throw.
  - apply kept_ret.
Qed.
Lemma kept_replay_records rs : kept well (replay_records rs).
Proof.
  pose proof kept_replay_action as Ha. pose proof kept_take_effects as Ht.
  induction rs as [|r rs IH]; simpl; [apply kept_ret|]. unfold replay_record.
  apply kept_bind; [|intros replayed; kept_run]. apply kept_bind; [done|intros replayed]. destruct replayed; [|apply kept_ret].
  apply kept_bind; [done|intros actual]. do 2 (apply kept_bind; [by apply kept_same|intros ?]). kept_run.
Qed.
End simulations.

(** ** The checkpoints of a history *)

Section checkpoints.
Context `{Libm} `{Build} `{LuaEngine} `{FloatDisplay}.
Variable record_bytes : TraceRecord → Z.
Variable snapshot_bytes : Simulator → Z.
Variable sources_bytes : list string → Z.
#[local] Set Default Proof Using "Type".

(** The checkpoints of a history are among those of another, or of the present state. *)
Definition drawn (s : Simulator) (h h' : TraceHistory) : Prop :=
  ∀ cp, cp ∈ checkpoints h' → cp ∈ checkpoints h ∨ snapshot s = Ok (cp_snapshot cp).

Lemma drawn_refl s h : drawn s h h.
Proof. intros cp Hcp. by left. Qed.
Lemma drawn_trans s h1 h2 h3 : drawn s h1 h2 → drawn s h2 h3 → drawn s h1 h3.
Proof. intros H12 H23 cp Hcp. destruct (H23 cp Hcp) as [Hcp2|]; [by apply H12|by right]. Qed.
Lemma drawn_push s h sequence cp : checkpoint_of snapshot_bytes sequence s = Ok cp → drawn s h (push_checkpoint cp h).
Proof.
  unfold checkpoint_of. destruct (snapshot s) as [snap| |] eqn:Hsnap; [|done..]. intros [= <-] cp' Hcp'. simpl in Hcp'.
  apply elem_of_app in Hcp' as [Hcp'| ->%list_elem_of_singleton]; [by left|by right].
Qed.
Lemma dropped_checkpoints sequence cps cp : cp ∈ drop_checkpoints sequence cps → cp ∈ cps.
Proof.
  induction cps as [|c cps IH]; [done|]. destruct cps as [|next rest]; [done|]. cbn [drop_checkpoints].
  destruct (_ <=? _); [|done]. intros Hin. right. by apply IH.
Qed.
Lemma drawn_drop s h sequence : drawn s h (drop_through sequence h).
Proof.
  intros cp Hcp. left. unfold drop_through in Hcp. destruct (drop_records _ _) as [n rest]. by apply dropped_checkpoints in Hcp.
Qed.

Lemma drawn_limit_memory fuel s h h' :
  limit_memory record_bytes snapshot_bytes sources_bytes fuel s h = Ok (Some h') → drawn s h h'.
Proof.
  revert h. induction fuel as [|fuel IH]; intros h; [done|]. cbn [limit_memory].
  destruct (_ <=? _); [intros [= <-]; apply drawn_refl|]. destruct (_ && _); [intros [= <-]; apply drawn_refl|].
  destruct (checkpoints h !! 1%nat) as [next|].
  - intros Hrun%IH. eapply drawn_trans; [apply drawn_drop|exact Hrun].
  - destruct (checkpoint_of _ _ _) as [cp| |] eqn:Hcp; [|done..]. cbn [mbind outcome_mbind outcome_bind].
    intros Hrun%IH. eapply drawn_trans; [by eapply drawn_push|exact Hrun].
Qed.
Lemma drawn_limit_events s sequence h h' :
  limit_events record_bytes snapshot_bytes sources_bytes s sequence h = Ok h' → drawn s h h'.
Proof.
  unfold limit_events. destruct (_ <? _); [|intros [= <-]; apply drawn_refl]. destruct (expect _); [|done..].
  cbn [mbind outcome_mbind outcome_bind]. destruct (find_first _ _) as [baseline|].
  - intros [= <-]. apply (drawn_drop s h (cp_sequence baseline)).
  - destruct (checkpoint_of _ _ _) as [cp| |] eqn:Hcp; [|done..]. cbn [mbind outcome_mbind outcome_bind]. intros [= <-].
    eapply drawn_trans; [by eapply drawn_push|]. apply (drawn_drop s (push_checkpoint cp h) sequence).
Qed.
Lemma drawn_append s r h h' : append_record record_bytes snapshot_bytes s r h = Ok h' → drawn s h h'.
Proof.
  unfold append_record. cbv zeta. destruct (_ || _); [|intros [= <-]; apply (drawn_refl s h)].
  destruct (checkpoint_of _ _ _) as [cp| |] eqn:Hcp; [|done..]. cbn [mbind outcome_mbind outcome_bind]. intros [= <-].
  eapply (drawn_push s h _ cp). exact Hcp.
Qed.

Lemma drawn_record s cpu line action effects error h h' :
  record record_bytes snapshot_bytes sources_bytes s cpu line action effects error h = Ok (Some h') → drawn s h h'.
Proof.
  unfold record. cbv zeta. destruct (forget_subset record_bytes sources_bytes h) as (_ & Hcs & _).
  set (h0 := forget_future record_bytes sources_bytes h) in *. intros Hrun.
  destruct (append_record _ _ _ _ _) as [h1| |] eqn:H1'; [|done..]. cbn [mbind outcome_mbind outcome_bind] in Hrun.
  destruct (limit_events _ _ _ _ _ _) as [h2| |] eqn:H2'; [|done..]. cbn [mbind outcome_mbind outcome_bind] in Hrun.
  apply drawn_append in H1'. apply drawn_limit_events in H2'. apply drawn_limit_memory in Hrun.
  intros cp Hcp. destruct (Hrun cp Hcp) as [Hcp2|]; [|by right]. destruct (H2' cp Hcp2) as [Hcp1|]; [|by right].
  destruct (H1' cp Hcp1) as [Hcp0|]; [left; by apply Hcs|by right].
Qed.
Lemma drawn_flags s f h : drawn s h (alter_flags f h).
Proof. intros cp Hcp. left. unfold alter_flags in Hcp. by destruct (last (records h)). Qed.
Lemma drawn_record_stop s cpu line reason h h' :
  record_stop record_bytes snapshot_bytes sources_bytes s cpu line reason h = Ok (Some h') → drawn s h h'.
Proof.
  unfold record_stop. destruct (record _ _ _ _ _ _ _ _ _ _) as [[h1|]| |] eqn:Hrun; [|done..]. cbn [mbind outcome_mbind outcome_bind option_map].
  intros [= <-]. eapply drawn_trans; [by eapply drawn_record|apply drawn_flags].
Qed.
Lemma drawn_current s h h' : checkpoint_current record_bytes snapshot_bytes sources_bytes s h = Ok h' → drawn s h h'.
Proof.
  unfold checkpoint_current. destruct (checkpoint_of _ _ _) as [cp| |] eqn:Hcp; [|done..]. cbn [mbind outcome_mbind outcome_bind].
  intros [= <-] cp' Hcp'. simpl in Hcp'. apply elem_of_app in Hcp' as [Hin| ->%list_elem_of_singleton].
  - left. destruct (last (checkpoints h)) as [c|] eqn:Hl; [|done]. destruct (_ =? _); [|done].
    apply last_Some in Hl as [l Hl]. rewrite Hl, removelast_last in Hin. rewrite Hl. apply elem_of_app. by left.
  - right. unfold checkpoint_of in Hcp. destruct (snapshot s); [|done..]. by injection Hcp as <-.
Qed.
End checkpoints.

(** ** Sessions *)

Section sessions.
Context `{Libm} `{Build} `{LuaEngine} `{FloatDisplay}.
Context (sizes : list nat) (nn nc : nat) (schedule : VmSchedule) (kb : KnowledgeBase) (Hrelease : overflow_checks = false).
Context (Hdistinct : NoDup schedule) (Hcomplete : ∀ i, (i < nc)%nat → AdIc10 i ∈ schedule) (Harities : kb_arities kb).
Variable record_bytes : TraceRecord → Z.
Variable snapshot_bytes : Simulator → Z.
Variable sources_bytes : list string → Z.
Variable normalize_path : string → string.
Variable read_file : string → string + string.
Variable sidecars : string → option (list BuildMapEntry) * option string.
Abbreviation SX := (M Simulator message).
Abbreviation DX := (M Adapter message).
#[local] Set Default Proof Using "Type".

Local Abbreviation well := (well sizes nn nc schedule kb).
Local Abbreviation fits := (fits sizes nn nc schedule kb).

(** The simulation of an adapter, and the checkpoints it can go back to. *)
Record session_ok (a : Adapter) : Prop := {
  se_simulation : ∃ s, ad_simulator a = Some s ∧ well s;
  se_history h cp : ad_history a = Some h → cp ∈ checkpoints h → fits (cp_snapshot cp);
}.

Lemma session_parts a a' : ad_simulator a' = ad_simulator a → ad_history a' = ad_history a → session_ok a → session_ok a'.
Proof. intros Hs Hh [Hw Hc]. constructor; [by rewrite Hs|]. intros h cp. rewrite Hh. apply Hc. Qed.

Lemma kept_modify_rest (f : Adapter → Adapter) :
  (∀ a, ad_simulator (f a) = ad_simulator a ∧ ad_history (f a) = ad_history a) → kept session_ok (modify f : DX ()).
Proof. intros Hf. apply kept_modify. intros a Ha. destruct (Hf a). by apply (session_parts a). Qed.

Lemma kept_on_simulator A (m : SX A) : kept well m → kept session_ok (on_simulator m).
Proof.
  intros Hm a r a' [(s & Hs & Hw) Hc]. unfold on_simulator. rewrite Hs. destruct (m s) as [r' t] eqn:Hrun. intros [= <- <-] Hr.
  constructor; [|exact Hc]. exists t. split; [done|]. by eapply Hm.
Qed.

(** A history that draws its checkpoints from the old one and the present state. *)
Lemma session_drawn a s h h' :
  session_ok a → ad_simulator a = Some s → ad_history a = Some h → drawn s h h' → session_ok (set_ad_history (Some h') a).
Proof.
  intros [(s' & Hs' & Hw) Hc] Hs Hh Hd. constructor; [by exists s'|]. intros h1 cp [= <-] Hcp.
  destruct (Hd cp Hcp) as [Hin|Hsnap]; [by eapply Hc|]. exists s. split; [congruence|done].
Qed.

Lemma kept_record_event thread line action effects error :
  kept session_ok (record_event record_bytes snapshot_bytes sources_bytes thread line action effects error).
Proof.
  intros a r a' Ha. unfold record_event. destruct (ad_history a) as [h|] eqn:Hh, (ad_simulator a) as [s|] eqn:Hs; try (by intros [= <- <-]).
  destruct (record _ _ _ _ _ _ _ _ _ _) as [[h'|]| |] eqn:Hrun; intros [= <- <-] Hr; try done.
  eapply session_drawn; [done..|]. by eapply drawn_record.
Qed.
Lemma kept_record_stopped thread line reason :
  kept session_ok (record_stopped record_bytes snapshot_bytes sources_bytes thread line reason).
Proof.
  intros a r a' Ha. unfold record_stopped. destruct (ad_history a) as [h|] eqn:Hh, (ad_simulator a) as [s|] eqn:Hs; try (by intros [= <- <-]).
  destruct (record_stop _ _ _ _ _ _ _ _) as [[h'|]| |] eqn:Hrun; intros [= <- <-] Hr; try done.
  eapply session_drawn; [done..|]. by eapply drawn_record_stop.
Qed.
Lemma kept_mark_stop name : kept session_ok (alter_history (mark_stop name)).
Proof.
  apply kept_modify. intros a [Hs Hc]. constructor; [done|]. intros h cp Hh Hcp. simpl in Hh.
  destruct (ad_history a) as [h0|]; [|done]. injection Hh as <-. eapply Hc; [done|].
  unfold mark_stop, alter_flags in Hcp. by destruct (last (records h0)).
Qed.
Lemma kept_capture : kept session_ok capture_previous_values.
Proof. apply kept_modify_rest. intros a. by destruct (ad_simulator a) eqn:E; rewrite <-?E. Qed.

#[local] Hint Resolve kept_on_simulator kept_record_event kept_record_stopped kept_mark_stop kept_capture : kept.
#[local] Hint Extern 1 (kept session_ok (modify _)) => solve [apply kept_modify_rest; intros ?; by repeat case_match] : kept.
#[local] Hint Resolve kept_take_effects kept_kept_result kept_set_value kept_next_scheduled_location kept_scheduler_step
  kept_step_instruction kept_step_world_tick kept_sim_write kept_sim_intern kept_sim_notify : kept.

Lemma kept_send m : kept session_ok (send m).
Proof. by apply kept_modify_rest. Qed.
#[local] Hint Resolve kept_send : kept.

#[local] Set Default Proof Using "Type H H0 H1 H2 Hrelease".

Lemma kept_record_external thread line name :
  kept session_ok (record_external record_bytes snapshot_bytes sources_bytes thread line name).
Proof. unfold record_external. kept_run. Qed.
#[local] Hint Resolve kept_record_external : kept.

Lemma kept_apply_test_tick thread case satisfied : kept well (apply_test_tick thread case satisfied).
Proof. unfold apply_test_tick, apply_stimuli. kept_run; by apply kept_same. Qed.
#[local] Hint Resolve kept_apply_test_tick : kept.
Lemma kept_apply_pending_test : kept session_ok (apply_pending_test record_bytes snapshot_bytes sources_bytes).
Proof. unfold apply_pending_test. kept_run. Qed.
#[local] Hint Resolve kept_apply_pending_test : kept.

(** ** The runner *)

Lemma kept_try_breakpoints try_one candidates : (∀ b hits, kept session_ok (try_one b hits)) → kept session_ok (try_breakpoints try_one candidates).
Proof. intros Hone. induction candidates as [|b rest IH]; cbn [try_breakpoints]; unfold update_breakpoint_hits; kept_run. Qed.
Lemma kept_report_action action : kept session_ok (report_action action).
Proof. unfold report_action. kept_run. Qed.
#[local] Hint Resolve kept_report_action : kept.
Lemma kept_try_ic10 s thread b hits : kept session_ok (try_ic10 s thread b hits).
Proof. unfold try_ic10. kept_run. Qed.
Lemma kept_try_lua b hits : kept session_ok (try_lua b hits).
Proof. unfold try_lua. kept_run. Qed.
#[local] Hint Resolve kept_try_breakpoints kept_try_ic10 kept_try_lua : kept.
Lemma kept_run_location thread single : kept well (run_location thread single).
Proof. unfold run_location. kept_run. Qed.
#[local] Hint Resolve kept_run_location : kept.

Lemma kept_step_lua thread line : kept session_ok (step_lua record_bytes snapshot_bytes sources_bytes thread line).
Proof. unfold step_lua, set_exception. kept_run. Qed.
Lemma kept_after_step thread line name before_data previous result :
  kept session_ok (after_step thread line name before_data previous result).
Proof. unfold after_step, set_exception. kept_run. Qed.
#[local] Hint Resolve kept_step_lua kept_after_step : kept.
Lemma kept_step_ic10 thread line : kept session_ok (step_ic10 record_bytes snapshot_bytes sources_bytes thread line).
Proof. unfold step_ic10. kept_run. Qed.
#[local] Hint Resolve kept_step_ic10 : kept.
Lemma kept_visit thread line : kept session_ok (visit record_bytes snapshot_bytes sources_bytes normalize_path thread line).
Proof. unfold visit, stop_at. kept_run. Qed.
#[local] Hint Resolve kept_visit : kept.

Lemma kept_run_turn : kept session_ok (run_turn record_bytes snapshot_bytes sources_bytes normalize_path).
Proof. unfold run_turn, run_pending, next_location, end_turn. kept_run. Qed.
#[local] Hint Resolve kept_run_turn : kept.

(** ** Requests *)

#[local] Set Default Proof Using "Type H H0 H1 H2 Hrelease Hdistinct Hcomplete".

Lemma kept_restore_history target h : (∀ cp, cp ∈ checkpoints h → fits (cp_snapshot cp)) → kept well (restore_history target h).
Proof.
  intros Hh s r t Hs. unfold restore_history. destruct (anchor target h) as [cp|] eqn:Hcp; [|by intros [= <- <-]].
  assert (fits (cp_snapshot cp)) as Hfits.
  { apply Hh. unfold anchor in Hcp. apply find_first_Some in Hcp as [Hin _]. by rewrite elem_of_rev in Hin. }
  cbn [ok_or]. rewrite bind_lift_Ok. revert s r t Hs. change (kept well (_ ← restore (cp_snapshot cp); replayed ←
    replay_records (filter (λ r, cp_sequence cp < rc_sequence r ∧ rc_sequence r ≤ target) (records h));
    match replayed with None => mret None | Some _ => mret (Some (with_position target (next_sequence h) h)) end)).
  apply kept_bind; [by apply kept_restore|intros _]. apply kept_bind; [by apply kept_replay_records|intros replayed]. kept_run.
Qed.

Lemma restored_checkpoints target h s h' t : restore_history target h s = (Ok (Some h'), t) → checkpoints h' = checkpoints h.
Proof using Type.
  unfold restore_history, mbind, M_mbind, lift. destruct (ok_or _ _) as [cp|e|]; [|done..].
  destruct (restore _ s) as [[[]|e|] s1]; [|done..]. destruct (replay_records _ s1) as [[[[]|]|e|] s2]; try done. by intros [= <- _].
Qed.

Lemma kept_restore_target target : kept session_ok (restore_target target).
Proof.
  intros a r a' Ha. unfold restore_target. destruct (ad_history a) as [h|] eqn:Hh, (ad_simulator a) as [s|] eqn:Hs; try (by intros [= <- <-]).
  pose proof (se_simulation _ Ha) as (s' & Hs' & Hw). rewrite Hs in Hs'. injection Hs' as <-.
  pose proof (kept_restore_history target h (λ cp, se_history _ Ha h cp Hh) s) as Hk.
  destruct (restore_history target h s) as [[[h'|]|e|] t] eqn:Hrun; intros [= <- <-] Hr; try done.
  - specialize (Hk _ _ Hw eq_refl). constructor; [exists t; split; [done|by apply Hk]|]. intros h1 cp [= <-] Hcp.
    rewrite (restored_checkpoints _ _ _ _ _ Hrun) in Hcp. by eapply (se_history _ Ha).
  - specialize (Hk _ _ Hw eq_refl). constructor; [exists t; split; [done|by apply Hk]|]. intros h1 cp Hh1 Hcp. by eapply (se_history _ Ha).
Qed.
#[local] Hint Resolve kept_restore_target : kept.

Lemma kept_reconcile : kept session_ok (reconcile_reversible_bookkeeping normalize_path).
Proof. unfold reconcile_reversible_bookkeeping. kept_run. Qed.
#[local] Hint Resolve kept_reconcile : kept.
Lemma kept_go_to target thread description : kept session_ok (go_to normalize_path target thread description).
Proof. unfold go_to. kept_run. Qed.
#[local] Hint Resolve kept_go_to : kept.
Lemma kept_navigate direction target kind : kept session_ok (navigate_history normalize_path direction target kind).
Proof. unfold navigate_history. kept_run. Qed.
#[local] Hint Resolve kept_navigate : kept.

Lemma kept_install_all {R B} (install : R → DX (option B * BreakpointAnswer)) requested :
  (∀ request, kept session_ok (install request)) → kept session_ok (install_all install requested).
Proof. intros Hone. induction requested as [|request rest IH]; cbn [install_all]; kept_run. Qed.
Lemma kept_next_id : kept session_ok next_id.
Proof. unfold next_id. kept_run. Qed.
#[local] Hint Resolve kept_install_all kept_next_id : kept.
Lemma kept_install_breakpoint path executable request : kept session_ok (install_breakpoint normalize_path path executable request).
Proof. unfold install_breakpoint. kept_run. by intros x r x' Hx [= _ <-] _. Qed.
Lemma kept_install_function request : kept session_ok (install_function request).
Proof. unfold install_function. kept_run. Qed.
Lemma kept_install_data request : kept session_ok (install_data request).
Proof. unfold install_data. kept_run. Qed.
#[local] Hint Resolve kept_install_breakpoint kept_install_function kept_install_data : kept.

(** The edits of registers, cells, devices and channels. *)
Lemma kept_set_register_as thread register value actor : kept well (set_register_as thread register value actor).
Proof.
  unfold set_register_as. kept_run. apply kept_alter_cpu; [done|]. intros c. apply cpu_program_ok_update; try done. apply length_insert.
Qed.
Lemma kept_set_stack_as thread address value actor : kept well (set_stack_as thread address value actor).
Proof.
  unfold set_stack_as. kept_run. apply kept_alter_cpu; [done|]. intros c. apply cpu_program_ok_update; try done. apply length_insert.
Qed.
#[local] Hint Resolve kept_alter_network kept_alter_device : kept.
Lemma kept_write_named field actor target before after : kept well (sim_write_named field actor target before after).
Proof. unfold sim_write_named, sim_journal_enabled. kept_run. Qed.
#[local] Hint Resolve kept_write_named : kept.
Lemma kept_set_device_field_as id field value actor : kept well (set_device_field_as id field value actor).
Proof. unfold set_device_field_as, sim_device. kept_run. by apply kept_alter_device. Qed.
Lemma kept_set_device_slot_as device slot field value actor : kept well (set_device_slot_as device slot field value actor).
Proof.
  unfold set_device_slot_as, sim_device. kept_run. apply kept_alter_device. intros d. unfold put_slot_field. by case_match.
Qed.
Lemma kept_set_device_memory_as device address value actor : kept well (set_device_memory_as device address value actor).
Proof.
  unfold set_device_memory_as, sim_device. kept_run. apply kept_alter_device, set_memory_identity. intros d. apply length_insert.
Qed.
Lemma kept_set_network_channel_as network channel value actor : kept well (set_network_channel_as network channel value actor).
Proof. unfold set_network_channel_as, sim_network. kept_run. Qed.
#[local] Hint Resolve kept_set_register_as kept_set_stack_as kept_set_device_field_as kept_set_device_slot_as
  kept_set_device_memory_as kept_set_network_channel_as : kept.

Lemma kept_write_variable kind thread index name value : kept well (write_variable kind thread index name value).
Proof. unfold write_variable. kept_run. Qed.
Lemma kept_record_edit thread line : kept session_ok (record_edit record_bytes snapshot_bytes sources_bytes thread line).
Proof. unfold record_edit. kept_run. Qed.
#[local] Hint Resolve kept_write_variable kept_record_edit : kept.

Lemma kept_set_variable reference name value : kept session_ok (set_variable record_bytes snapshot_bytes sources_bytes reference name value).
Proof.
  unfold set_variable, paused. kept_run. intros x r x' Hx.
  destruct (ad_history x) as [h|] eqn:Hh, (ad_simulator x) as [s|] eqn:Hs; try (by intros [= <- <-]).
  destruct (checkpoint_current _ _ _ _ _) as [h'|e|] eqn:Hrun; intros [= <- <-] _; try done.
  eapply session_drawn; [done..|]. by eapply drawn_current.
Qed.
Lemma kept_set_state thread_id registers stack :
  kept session_ok (set_state record_bytes snapshot_bytes sources_bytes thread_id registers stack).
Proof. unfold set_state, paused. kept_run. Qed.
Lemma kept_set_world_field id field value : kept session_ok (set_world_field record_bytes snapshot_bytes sources_bytes id field value).
Proof. unfold set_world_field. kept_run. Qed.
Lemma kept_set_world_channel id channel value :
  kept session_ok (set_world_channel record_bytes snapshot_bytes sources_bytes id channel value).
Proof. unfold set_world_channel. kept_run. Qed.
#[local] Hint Resolve kept_set_variable kept_set_state kept_set_world_field kept_set_world_channel : kept.

Lemma kept_step_request thread_id : kept session_ok (step_request record_bytes snapshot_bytes sources_bytes thread_id).
Proof. unfold step_request, step_scheduler, step_processor, set_exception. kept_run. Qed.
Lemma kept_step_tick thread_id : kept session_ok (step_tick record_bytes snapshot_bytes sources_bytes thread_id).
Proof. unfold step_tick. kept_run. Qed.
Lemma kept_goto target : kept session_ok (goto_location target).
Proof. unfold goto_location. kept_run. apply kept_on_simulator. apply kept_alter_cpu; [done|]. intros c. by apply cpu_program_ok_update. Qed.
#[local] Hint Resolve kept_step_request kept_step_tick kept_goto : kept.

(** What is read of a well-formed simulation, and a value that was computed. *)
Lemma kept_observe {A B} (f : Simulator → A) (k : A → DX B) :
  (∀ s, well s → kept session_ok (k (f s))) → kept session_ok (on_simulator (gets f) ≫= k).
Proof.
  intros Hk a r a' Ha Hrun Hr. destruct (se_simulation _ Ha) as (s & Hs & Hw). specialize (Hk s Hw a r a' Ha).
  apply Hk; [|done]. rewrite <-Hrun. symmetry. erewrite bind_run by (by eapply on_simulator_run). cbv beta.
  by rewrite (set_simulator_same a s).
Qed.
Lemma kept_computed {A B} (r : outcome message A) (k : A → DX B) :
  (∀ v, r = Ok v → kept session_ok (k v)) → kept session_ok (lift r ≫= k).
Proof.
  intros Hk a r' a' Ha. unfold mbind, M_mbind, lift. destruct r as [v|e|]; [by apply Hk|by intros [= <- <-]|by intros [= <- <-]].
Qed.
Lemma kept_set_history h :
  (∀ h' cp, h = Some h' → cp ∈ checkpoints h' → fits (cp_snapshot cp)) → kept session_ok (modify (set_ad_history h) : DX ()).
Proof. intros Hh. apply kept_modify. intros a [Hs _]. constructor; [done|]. intros h' cp [= ->]. by apply Hh. Qed.

Lemma new_history_fits s events interval memory h cp :
  well s → new_history snapshot_bytes normalize_path s events interval memory = Ok h → cp ∈ checkpoints h → fits (cp_snapshot cp).
Proof.
  intros Hs. unfold new_history, checkpoint_of. destruct (snapshot s) as [snap| |] eqn:Hsnap; [|done..]. intros [= <-] Hcp.
  apply list_elem_of_singleton in Hcp as ->. by exists s.
Qed.

Lemma kept_emit : kept session_ok (emit_breakpoint_updates normalize_path).
Proof. unfold emit_breakpoint_updates. kept_run. Qed.
#[local] Hint Resolve kept_emit : kept.

Lemma recompiled l programs :
  recompile read_file sidecars kb l = Ok programs → length programs = length l ∧ Forall program_ok programs.
Proof using Type Harities.
  unfold recompile. intros Hrun. split; [by eapply map_outcome_length|]. apply map_outcome_elem in Hrun.
  induction Hrun as [|c p l ps Hc _ IH]; constructor; [|done]. cbv beta zeta in Hc.
  destruct (read_file _) as [?|source]; [done|]. destruct (sidecars _) as [entries metadata].
  destruct (compile _ _ _ _ _) as [p'|e|] eqn:Hp; [|done..]. injection Hc as <-. by eapply compiled_program_ok.
Qed.

#[local] Set Default Proof Using "Type H H0 H1 H2 Hrelease Hdistinct Hcomplete Harities".

Lemma kept_hot_reload : kept session_ok (hot_reload snapshot_bytes normalize_path read_file sidecars).
Proof.
  unfold hot_reload, paused. apply kept_bind; [kept_run|intros _]. apply kept_bind; [kept_run|intros focus].
  apply kept_observe. intros s0 Hs0. apply kept_observe. intros s1 Hs1. rewrite (we_knowledge _ _ _ _ _ _ Hs1).
  apply kept_computed. intros programs [Hlen Hok]%recompiled. destruct (stranded _) as [c|]; [apply kept_throw|].
  apply kept_bind.
  { apply kept_on_simulator. apply kept_modify. intros s Hs. destruct Hs0 as [[_ [Hl Hcs] _] _ _ _]. destruct Hs as [[Hb _ Hsch] ? ? ?].
    constructor; [|done..]. constructor; [exact Hb| |exact Hsch]. simpl. split; [rewrite length_zip_with; lia|].
    apply Forall_lookup. intros i c Hi. apply lookup_zip_with_Some in Hi as (c0 & p & -> & Hc0 & Hp).
    eapply Forall_lookup_1 in Hcs as [[? ? ? ?] _]; [|exact Hc0]. eapply Forall_lookup_1 in Hok; [|exact Hp]. by split. }
  intros _. apply kept_bind; [kept_run|intros c]. apply kept_bind; [kept_run|intros _]. apply kept_bind; [kept_run|intros h].
  apply kept_observe. intros s Hs. apply kept_computed. intros h' Hh'. apply kept_bind; [|intros _; kept_run].
  apply kept_set_history. intros h1 cp -> Hcp. destruct h as [h|]; [|done].
  destruct (new_history _ _ _ _ _ _) as [h2| |] eqn:Hnew; [|done..]. injection Hh' as <-. by eapply new_history_fits.
Qed.
#[local] Hint Resolve kept_hot_reload : kept.

Lemma kept_handle_request request :
  kept session_ok (handle_request record_bytes snapshot_bytes sources_bytes normalize_path read_file sidecars request).
Proof.
  destruct request; unfold handle_request, answered, set_breakpoints, set_exception_breakpoints, set_function_breakpoints,
    set_data_breakpoints, configuration_done, continue_execution, step_back, reverse_continue, pause; kept_run.
Qed.

Lemma steps_kept a a' :
  rtc (session_step record_bytes snapshot_bytes sources_bytes normalize_path read_file sidecars) a a' → session_ok a → session_ok a'.
Proof.
  induction 1 as [|a a1 a' Hstep _ IH]; [done|]. intros Ha. apply IH.
  destruct Hstep as [r Hrun Hr|request r Hrun Hr]; [by eapply kept_run_turn|by eapply kept_handle_request].
Qed.

(** A launch begins a session. *)
Lemma launched arguments s infos focus case a a1 :
  well s → launch_session snapshot_bytes normalize_path arguments s infos focus case a = (Ok (), a1) → session_ok a1.
Proof.
  intros Hs. unfold launch_session.
  match goal with |- (lift ?r ≫= ?k) a = _ → _ => destruct r as [h|e|] eqn:Hh; [rewrite (bind_lift_Ok h k a)|done..] end.
  rewrite bind_modify. match goal with |- ?m ?x = _ → _ => assert (kept session_ok m ∧ session_ok x) as [Hk Hx];
    [split|intros Hrun; by apply (Hk _ _ _ Hx Hrun)] end.
  - kept_run. apply kept_on_simulator. apply kept_journal. intros t. by eexists _, _.
  - constructor; [by exists s|]. simpl. intros h1 cp -> Hcp. destruct (default _ _); [|done].
    destruct (new_history _ _ _ _ _ _) as [h2| |] eqn:Hnew; [|done..]. injection Hh as <-. by eapply new_history_fits.
Qed.
End sessions.

(** C8.  What a session keeps, in a release build.  From the launch of a well-formed simulation of IC10
    programs on, whatever the runner does and the client asks for (breakpoints, steps,
    edits, going back and forth, a program compiled again), in any order: the simulation
    is well formed and its next tick does not panic, and every checkpoint of the history
    can be put back into it, is the same when it is taken again, and is well formed. *)
Theorem session_keeps_checkpoints `{Libm} `{Build} `{LuaEngine} `{FloatDisplay} sizes nn nc record_bytes snapshot_bytes sources_bytes
    normalize_path read_file sidecars arguments s infos focus case a0 a1 a :
  overflow_checks = false → sim_ok sizes nn nc s → covered s → lua_programs s = [] → kb_arities (knowledge s) →
  launch_session snapshot_bytes normalize_path arguments s infos focus case a0 = (Ok (), a1) →
  rtc (session_step record_bytes snapshot_bytes sources_bytes normalize_path read_file sidecars) a1 a →
  ∃ s', ad_simulator a = Some s' ∧ sim_ok sizes nn nc s' ∧ (step_world_tick s').1 ≠ Panic
    ∧ ∀ h cp, ad_history a = Some h → cp ∈ checkpoints h →
        ∃ t, restore (cp_snapshot cp) s' = (Ok (), t) ∧ snapshot t = Ok (cp_snapshot cp) ∧ sim_ok sizes nn nc t.
Proof.
  intros Hrelease Hok [Hdistinct Hcomplete] Hlua Hkb Hlaunch Hsteps.
  assert (length (cpus s) = nc) as Hnc by apply Hok. rewrite Hnc in Hcomplete.
  assert (well sizes nn nc (sim_schedule s) (knowledge s) s) as Hs by done.
  apply (launched sizes nn nc (sim_schedule s) (knowledge s) Hrelease Hdistinct Hcomplete Hkb) in Hlaunch; [|done].
  apply (steps_kept sizes nn nc (sim_schedule s) (knowledge s) Hrelease Hdistinct Hcomplete Hkb) in Hsteps as [(s' & Hs' & Hw) Hcp]; [|done].
  exists s'. split_and!; [done|apply Hw| |].
  - unfold step_world_tick. pose proof (safe_step_until_tick sizes nn nc Hrelease (tick_fuel s') (tick s') [] s' (we_ok _ _ _ _ _ _ Hw)) as Hn.
    destruct (step_until_tick _ _ _ s') as [[events|e|] u]; [|done..]. by destruct events.
  - intros h cp Hh Hin. destruct (restore_fits sizes nn nc (sim_schedule s) (knowledge s) Hrelease Hdistinct Hcomplete (cp_snapshot cp) s')
      as (t & Hrun & Ht & Hwt); [by eapply Hcp|done|]. exists t. split_and!; [done..|apply Hwt].
Qed.

#[local] Existing Instances sample_libm release_build sample_engine sample_display.

Definition sample_arguments : LaunchArguments :=
  {| la_restart := false; la_stop_on_entry := None; la_enable_history := Some true; la_history_events := None;
     la_checkpoint_interval := None; la_history_memory_mib := None |}.
Abbreviation launched_adapter :=
  (launch_session (λ _, 1000) (λ path, path) sample_arguments recorded_simulator [] 1 None adapter_default).2.
Abbreviation sample_request := (handle_request (λ _, 100) (λ _, 1000) (λ _, 0) (λ path, path) (λ _, inl "missing") (λ _, (None, None))).

Lemma session_keeps_checkpoints_witness :
  ∃ s', ad_simulator (sample_request (ReqStep (Some 2)) launched_adapter).2 = Some s' ∧ sim_ok [0; 0; 4]%nat 1 2 s'.
Proof.
  destruct (session_keeps_checkpoints [0; 0; 4]%nat 1 2 (λ _, 100) (λ _, 1000) (λ _, 0) (λ path, path) (λ _, inl "missing") (λ _, (None, None))
    sample_arguments recorded_simulator [] 1 None adapter_default launched_adapter (sample_request (ReqStep (Some 2)) launched_adapter).2
    (eq_refl : @overflow_checks release_build = false)) as (s' & Hs' & Hok & _).
  - apply recorded_simulator_ok.
  - split; [apply (bool_decide_unpack _); vm_compute; exact I|]. intros i Hi. vm_compute in Hi.
    destruct i as [|[|i]]; [vm_compute; right; left|vm_compute; left|lia].
  - vm_compute. reflexivity.
  - apply arities_hold_correct. vm_compute. reflexivity.
  - refine (returned (launch_session _ _ _ _ _ _ _ _) () _). vm_compute. reflexivity.
  - apply rtc_once. refine (session_request _ _ _ _ _ _ _ _ (ReqStep (Some 2)) (Ok ()) _ _); [|discriminate].
    refine (returned (sample_request (ReqStep (Some 2)) launched_adapter) () _). vm_compute. reflexivity.
  - exists s'. exact (conj Hs' Hok).
Defined.
