(* ===== verification/Protocol.v ===== *)
(** * Messages of the debug protocol

    [crates/ic10-dap/src/main.rs]: the messages are JSON texts behind a header with their
    length.  The stream comes in the pieces that the reads of the operating system give;
    JSON is serde's and is an argument ([Value], [to_vec], [from_slice] and the
    accessors).  [Output::send] numbers the
    messages, the writer writes them, and the adapter serves the requests it reads until
    the stream ends or a request shuts it down. *)

From S2P Require Import Prelude Text F64 Knowledge.
Local Open Scope string_scope.
Local Open Scope Z_scope.

(** ** Reading *)

(** What a buffered reader still has to give: the pieces, in order, that its buffer is
    filled with.  A piece is never empty, and after the last one the stream has ended. *)
Abbreviation Reader := (list string).

(** The bytes of a piece up to a line feed, which is part of them, and what follows it. *)
Fixpoint cut_line (piece : string) : option (string * string) :=
  match piece with
  | "" => None
  | String c rest =>
      if Ascii.eqb c (byte 10) then Some (String c "", rest)
      else '(line, after) ← cut_line rest; Some (String c line, after)
  end.

(** A buffer of which a part has been consumed. *)
Definition refill (after : string) (reader : Reader) : Reader := if String.eqb after "" then reader else after :: reader.

(** [BufRead::read_line]: the buffer is filled until it holds a line feed. *)
Fixpoint read_line (reader : Reader) : string * Reader :=
  match reader with
  | [] => ("", [])
  | piece :: reader =>
      match cut_line piece with
      | Some (line, after) => (line, refill after reader)
      | None => let '(line, reader) := read_line reader in (piece +:+ line, reader)
      end
  end.

(** [Read::read_exact]: a read gives what the buffer holds, at most what is asked for,
    and is repeated until there are [length] bytes; [None] when the stream ends first. *)
Fixpoint read_exact (length : nat) (reader : Reader) : option (string * Reader) :=
  match reader with
  | [] => if Nat.eqb length 0 then Some ("", []) else None
  | piece :: rest =>
      if (length <=? String.length piece)%nat
      then Some (String.substring 0 length piece,
                 refill (String.substring length (String.length piece - length) piece) rest)
      else '(more, rest) ← read_exact (length - String.length piece) rest; Some (piece +:+ more, rest)
  end.

(** [String::from_utf8]: the bytes that follow a leading byte, with the range of the
    first of them; [None] for a byte that leads no character. *)
Definition utf8_lead (z : Z) : option (nat * Z * Z) :=
  if z <? 128 then Some (0%nat, 128, 191)
  else if (194 <=? z) && (z <=? 223) then Some (1%nat, 128, 191)
  else if z =? 224 then Some (2%nat, 160, 191)
  else if z =? 237 then Some (2%nat, 128, 159)
  else if (225 <=? z) && (z <=? 239) then Some (2%nat, 128, 191)
  else if z =? 240 then Some (3%nat, 144, 191)
  else if (241 <=? z) && (z <=? 243) then Some (3%nat, 128, 191)
  else if z =? 244 then Some (3%nat, 128, 143)
  else None.
Fixpoint utf8_from (left : nat) (low high : Z) (s : string) : bool :=
  match s with
  | "" => Nat.eqb left 0
  | String c rest =>
      match left with
      | O => match utf8_lead (byte_of c) with Some (n, low, high) => utf8_from n low high rest | None => false end
      | S n => (low <=? byte_of c) && (byte_of c <=? high) && utf8_from n 128 191 rest
      end
  end.
Definition is_utf8 (s : string) : bool := utf8_from 0 128 191 s.

Section protocol.
Variables (Value : Type) (to_vec : Value → option string) (from_slice : string → string + Value).
Variables (get : string → Value → option Value) (as_str : Value → option string) (as_u64 : Value → option Z).
Variables (empty_object : Value) (set_seq : Z → Value → Value).

(** ** Sending *)

(** The number of the next message, and the messages in the channel. *)
Record Output := { ou_sequence : Z; ou_messages : list Value }.

(** Source: [crates/ic10-dap/src/main.rs] [send] *)
Definition send_message (value : Value) (o : Output) : Output :=
  {| ou_sequence := wrap_u 64 (ou_sequence o + 1); ou_messages := (ou_messages o ++ [set_seq (ou_sequence o) value])%list |}.

Definition CRLF : string := RETURN +:+ NEWLINE.
Definition header (length : Z) : string := "Content-Length: " +:+ (show length +:+ (CRLF +:+ CRLF)).

(** A message that has no text is left out.
    Source: [crates/ic10-dap/src/main.rs] [write_messages] *)
Definition write_messages (messages : list Value) : string :=
  concat_strings (map (λ message,
    match to_vec message with Some payload => header (slen payload) +:+ payload | None => "" end) messages).

(** ** Receiving *)

(** [Content-Length] of a header line; a number that cannot be read is passed over.
    Source: [crates/ic10-dap/src/main.rs] [read_message] lines 173-178 *)
Definition content_length_of (line : string) : option Z :=
  strip_prefix "Content-Length:" line ≫= λ value, parse_usize (trim value).

(** The last length of the headers up to a blank line, and the stream after it; [None]
    when the stream ends first.
    Source: [crates/ic10-dap/src/main.rs] [read_message] lines 160-179 *)
Fixpoint read_headers (fuel : nat) (content_length : option Z) (reader : Reader) : outcome message (option (option Z * Reader)) :=
  match fuel with
  | O => Ok None
  | S fuel =>
      let '(line, rest) := read_line reader in
      if negb (is_utf8 line) then Err [PS "stream did not contain valid UTF-8"]
      else if String.eqb line "" then Ok None
      else if String.eqb line CRLF || String.eqb line NEWLINE then Ok (Some (content_length, rest))
      else read_headers fuel (option_or (content_length_of line) content_length) rest
  end.

(** Every line takes a byte of the stream. *)
Definition header_fuel (reader : Reader) : nat := S (String.length (concat_strings reader)).

(** A message and the stream after it; [None] at the end of the stream.  A buffer that
    cannot be addressed is a panic.
    Source: [crates/ic10-dap/src/main.rs] [read_message] *)
Definition read_message (reader : Reader) : outcome message (option (Value * Reader)) :=
  headers ← read_headers (header_fuel reader) None reader;
  match headers with
  | None => Ok None
  | Some (content_length, reader) =>
      length ← ok_or content_length [PS "missing Content-Length header"];
      if I64_MAX <? length then Panic
      else
        '(payload, reader) ← ok_or (read_exact (Z.to_nat length) reader) [PS "failed to fill whole buffer"];
        match from_slice payload with
        | inl error => Err [PS "invalid DAP request: "; PS error]
        | inr value => Ok (Some (value, reader))
        end
  end.

(** The messages of a stream, in order, and what is left of it. *)
Fixpoint read_messages (count : nat) (reader : Reader) : outcome message (list Value * Reader) :=
  match count with
  | O => Ok ([], reader)
  | S count =>
      one ← read_message reader;
      match one with
      | None => Ok ([], [])
      | Some (value, rest) => more ← read_messages count rest; Ok (value :: more.1, more.2)
      end
  end.

(** ** Requests *)

(** Source: [crates/ic10-dap/src/main.rs] [Request] *)
Record Request := { rq_seq : Z; rq_command : string; rq_arguments : Value }.

(** What is not a request is passed over.
    Source: [crates/ic10-dap/src/main.rs] [parse] *)
Definition parse_request (value : Value) : option Request :=
  kind ← get "type" value ≫= as_str;
  if negb (String.eqb kind "request") then None
  else
    seq ← get "seq" value ≫= as_u64;
    command ← get "command" value ≫= as_str;
    Some {| rq_seq := seq; rq_command := command; rq_arguments := default empty_object (get "arguments" value) |}.

(** The requests are handled in order, until the stream ends, cannot be read, or a request
    shuts the adapter down.  [None] when the fuel is spent.
    Source: [crates/ic10-dap/src/main.rs] [run] lines 59-69 *)
Fixpoint serve {S : Type} (handle : Request → S → S * bool) (fuel : nat) (reader : Reader) (state : S) :
    option (outcome message ()) * S :=
  match fuel with
  | O => (None, state)
  | Datatypes.S fuel =>
      match read_message reader with
      | Err e => (Some (Err e), state)
      | Panic => (Some Panic, state)
      | Ok None => (Some (Ok ()), state)
      | Ok (Some (value, rest)) =>
          match parse_request value with
          | None => serve handle fuel rest state
          | Some request =>
              let '(state, shutdown) := handle request state in
              if shutdown : bool then (Some (Ok ()), state) else serve handle fuel rest state
          end
      end
  end.
End protocol.
