(* ===== verification/ProtocolFacts.v ===== *)
(** * Messages survive the stream

    Proofs about [Protocol]: a message is read back from what the writer wrote, whatever
    other headers its frame has and in whatever pieces the reads give it, and serving a
    stream always ends.  The functions on readers are those on the whole text. *)

From S2P Require Import Prelude Text F64 Knowledge Literals EvaluatorFacts Protocol.
Local Open Scope string_scope.
Local Open Scope Z_scope.

(** ** Reading from the whole text *)

Fixpoint text_line (input : string) : string * string :=
  match input with
  | "" => ("", "")
  | String c rest =>
      if Ascii.eqb c (byte 10) then (String c "", rest)
      else let '(line, rest) := text_line rest in (String c line, rest)
  end.

Section text.
Context {Value : Type} (from_slice : string → string + Value).
Context (get : string → Value → option Value) (as_str : Value → option string) (as_u64 : Value → option Z) (empty_object : Value).

Fixpoint text_headers (fuel : nat) (content_length : option Z) (input : string) : outcome message (option (option Z * string)) :=
  match fuel with
  | O => Ok None
  | S fuel =>
      let '(line, rest) := text_line input in
      if negb (is_utf8 line) then Err [PS "stream did not contain valid UTF-8"]
      else if String.eqb line "" then Ok None
      else if String.eqb line CRLF || String.eqb line NEWLINE then Ok (Some (content_length, rest))
      else text_headers fuel (option_or (content_length_of line) content_length) rest
  end.

Definition text_fuel (input : string) : nat := S (String.length input).

Definition text_message (input : string) : outcome message (option (Value * string)) :=
  headers ← text_headers (text_fuel input) None input;
  match headers with
  | None => Ok None
  | Some (content_length, rest) =>
      length ← ok_or content_length [PS "missing Content-Length header"];
      if I64_MAX <? length then Panic
      else if slen rest <? length then Err [PS "failed to fill whole buffer"]
      else
        match from_slice (String.substring 0 (Z.to_nat length) rest) with
        | inl error => Err [PS "invalid DAP request: "; PS error]
        | inr value =>
            Ok (Some (value, String.substring (Z.to_nat length) (String.length rest - Z.to_nat length) rest))
        end
  end.

Fixpoint text_messages (count : nat) (input : string) : outcome message (list Value * string) :=
  match count with
  | O => Ok ([], input)
  | S count =>
      one ← text_message input;
      match one with
      | None => Ok ([], "")
      | Some (value, rest) => more ← text_messages count rest; Ok (value :: more.1, more.2)
      end
  end.

Fixpoint text_serve {S : Type} (handle : Request Value → S → S * bool) (fuel : nat) (input : string) (state : S) :
    option (outcome message ()) * S :=
  match fuel with
  | O => (None, state)
  | Datatypes.S fuel =>
      match text_message input with
      | Err e => (Some (Err e), state)
      | Panic => (Some Panic, state)
      | Ok None => (Some (Ok ()), state)
      | Ok (Some (value, rest)) =>
          match parse_request Value get as_str as_u64 empty_object value with
          | None => text_serve handle fuel rest state
          | Some request =>
              let '(state, shutdown) := handle request state in
              if shutdown : bool then (Some (Ok ()), state) else text_serve handle fuel rest state
          end
      end
  end.
End text.

(** ** Numbers in texts *)

(** The character of a digit. *)
Lemma digit_char (d : N) : (d < 10)%N → digit_value (pretty_N_char d) = Some (Z.of_N d) ∧ is_ascii_digit (byte_of (pretty_N_char d)) = true.
Proof.
  intros Hd. assert (d = 0 ∨ d = 1 ∨ d = 2 ∨ d = 3 ∨ d = 4 ∨ d = 5 ∨ d = 6 ∨ d = 7 ∨ d = 8 ∨ d = 9)%N as Hc by lia.
  by repeat destruct Hc as [->|Hc]; [..|subst d].
Qed.

Lemma digits_value_go (x : N) s : digits_value 10 0 (pretty_N_go x s) = digits_value 10 (Z.of_N x) s.
Proof.
  revert s. induction (N.lt_wf_0 x) as [x _ IH]; intros s. destruct (decide (x = 0)%N) as [->|Hx].
  { by rewrite pretty_N_go_0. }
  rewrite pretty_N_go_step by lia. rewrite IH by (apply N.div_lt; lia). cbn [digits_value].
  pose proof (N.mod_lt x 10 ltac:(done)) as Hd. rewrite (proj1 (digit_char _ Hd)).
  assert (Z.of_N (x `mod` 10) < 10) as Hlt by (clear -Hd; lia).
  rewrite (proj2 (Z.ltb_lt _ _)) by done. f_equal. rewrite N2Z.inj_div, N2Z.inj_mod. change (Z.of_N 10) with 10. pose proof (Z.div_mod (Z.of_N x) 10). lia.
Qed.

(** The digits of a number. *)
Fixpoint all_digits (s : string) : bool := match s with "" => true | String c rest => is_ascii_digit (byte_of c) && all_digits rest end.

Lemma pretty_go_digits (x : N) s : all_digits s = true → all_digits (pretty_N_go x s) = true.
Proof.
  revert s. induction (N.lt_wf_0 x) as [x _ IH]; intros s Hs. destruct (decide (x = 0)%N) as [->|Hx].
  { by rewrite pretty_N_go_0. }
  rewrite pretty_N_go_step by lia. apply IH; [apply N.div_lt; lia|]. cbn [all_digits]. rewrite Hs, andb_true_r.
  apply (digit_char (x `mod` 10)), N.mod_lt. done.
Qed.

Lemma show_number n : 0 ≤ n → digits_value 10 0 (show n) = Some n ∧ all_digits (show n) = true ∧ show n ≠ "".
Proof.
  intros Hn. destruct n as [|p|p]; [done| |lia]. change (show (Z.pos p)) with (pretty_N_go (N.pos p) "").
  rewrite digits_value_go. split_and!; [done|by apply pretty_go_digits|].
  intros He. assert (digits_value 10 0 (pretty_N_go (N.pos p) "") = Some 0) as Hz by (by rewrite He). rewrite digits_value_go in Hz. done.
Qed.

Lemma digits_no_plus s : all_digits s = true → strip_prefix "+" s = None.
Proof. destruct s as [|[[] [] [] [] [] [] [] []] s]; try done; by destruct s. Qed.

Lemma parse_shown n : 0 ≤ n ≤ U64_MAX → parse_usize (show n) = Some n.
Proof.
  intros Hn. destruct (show_number n) as (Hd & Ha & He); [lia|]. unfold parse_usize, parse_unsigned. rewrite (digits_no_plus _ Ha).
  unfold parse_digits. destruct (show n) eqn:E; [done|]. rewrite Hd. cbn [in_range]. 
  by rewrite (proj2 (Z.leb_le _ _)), (proj2 (Z.leb_le _ _)) by lia.
Qed.

Lemma digit_graphic c : is_ascii_digit (byte_of c) = true → graphic c = true ∧ (byte_of c <? 128) = true ∧ Ascii.eqb c (byte 10) = false.
Proof. by destruct c as [[] [] [] [] [] [] [] []]. Qed.

Lemma digits_text d : all_digits d = true → d ≠ "" → is_ascii d = true ∧ starts_graphic d = true ∧ ends_graphic d = true.
Proof.
  induction d as [|c d IH]; [done|]. cbn [all_digits]. intros [Hc Hd]%andb_prop _. destruct (digit_graphic c Hc) as (Hg & Hb & _).
  destruct d as [|c' d]; [unfold is_ascii; cbn [bytes forallb]; by rewrite Hb|]. destruct (IH Hd ltac:(done)) as (Ha & _ & He).
  split_and!; [|done|exact He]. unfold is_ascii in *. cbn [bytes forallb] in *. by rewrite Hb.
Qed.

Lemma trim_length d : all_digits d = true → d ≠ "" → trim (" " +:+ (d +:+ CRLF)) = d.
Proof.
  intros Hd Hne. destruct (digits_text d Hd Hne) as (Ha & Hs & He).
  assert (trim_start (" " +:+ (d +:+ CRLF)) = d +:+ CRLF) as Ht.
  { rewrite <-(concat_chars (d +:+ CRLF)) at 2. unfold trim_start. rewrite !chars_singles by (rewrite ?is_ascii_app, ?Ha; done). f_equal.
    destruct d as [|c d]; [done|]. cbn [String.append singles drop_ws]. unfold starts_graphic, graphic in Hs.
    change (is_whitespace " ") with true. cbv iota. by destruct (is_whitespace (String c "")). }
  unfold trim. rewrite Ht. unfold trim_end. rewrite chars_singles by (rewrite is_ascii_app, Ha; done).
  rewrite singles_app, rev_app_distr. change (rev (singles CRLF)) with [NEWLINE; RETURN]. cbn [app].
  rewrite <-(concat_chars d) at 2. rewrite chars_singles by done.
  apply singles_last in He as (s' & a & -> & Hg). rewrite singles_app, rev_app_distr. cbn [singles rev app].
  change (drop_ws (NEWLINE :: RETURN :: ?l)) with (drop_ws l). cbn [drop_ws].
  unfold graphic in Hg. destruct (is_whitespace (String a "")); [done|]. cbn [rev app]. by rewrite rev_involutive.
Qed.

(** ** Lines and headers *)

(** A text without a line feed. *)
Fixpoint one_line (s : string) : bool := match s with "" => true | String c rest => negb (Ascii.eqb c (byte 10)) && one_line rest end.

Lemma read_line_app l rest : one_line l = true → text_line (l +:+ (NEWLINE +:+ rest)) = (l +:+ NEWLINE, rest).
Proof.
  induction l as [|c l IH]; [done|]. cbn [one_line String.append text_line]. intros [Hc Hl]%andb_prop.
  apply negb_true_iff in Hc. by rewrite Hc, IH.
Qed.
Lemma one_line_app s t : one_line (s +:+ t) = one_line s && one_line t.
Proof. induction s as [|c s IH]; [done|]. cbn [String.append one_line]. by rewrite IH, andb_assoc. Qed.
Lemma digits_one_line d : all_digits d = true → one_line d = true.
Proof.
  induction d as [|c d IH]; [done|]. cbn [all_digits one_line]. intros [Hc Hd]%andb_prop.
  destruct (digit_graphic c Hc) as (_ & _ & ->). by apply IH.
Qed.

Lemma ascii_utf8 s : is_ascii s = true → is_utf8 s = true.
Proof.
  unfold is_ascii, is_utf8. induction s as [|c s IH]; [done|]. cbn [bytes forallb utf8_from]. intros [Hc Hs]%andb_prop.
  unfold utf8_lead. rewrite Hc. by apply IH.
Qed.

(** A header line that is not the length: it is text, is not blank and gives no length. *)
Definition foreign (line : string) : Prop :=
  one_line line = true ∧ is_utf8 (line +:+ NEWLINE) = true ∧ line ≠ "" ∧ line ≠ RETURN ∧ content_length_of (line +:+ NEWLINE) = None.
Definition lines (l : list string) : string := concat_strings (map (λ line, line +:+ NEWLINE) l).

Lemma not_blank line : line ≠ "" → line ≠ RETURN → one_line line = true →
  String.eqb (line +:+ NEWLINE) "" = false ∧ String.eqb (line +:+ NEWLINE) CRLF = false ∧ String.eqb (line +:+ NEWLINE) NEWLINE = false.
Proof.
  intros Hne Hnr Hl. split_and!; apply String.eqb_neq; intros He.
  - by destruct line.
  - apply Hnr. destruct line as [|c [|c' line]]; [done|by injection He as ->|].
    cbn [String.append] in He. injection He as _ _ He'. by destruct line.
  - destruct line as [|c line]; [done|]. cbn [String.append] in He. injection He as _ He'. by destruct line.
Qed.

(** One line of the headers is read. *)
Lemma read_headers_line fuel found line rest :
  one_line line = true → is_utf8 (line +:+ NEWLINE) = true → line ≠ "" → line ≠ RETURN →
  text_headers (S fuel) found (line +:+ (NEWLINE +:+ rest))
  = text_headers fuel (option_or (content_length_of (line +:+ NEWLINE)) found) rest.
Proof.
  intros Hl Hu Hne Hnr. cbn [text_headers]. rewrite read_line_app by done. rewrite Hu. cbn [negb].
  destruct (not_blank line Hne Hnr Hl) as (-> & -> & ->). done.
Qed.

Lemma read_headers_foreign l fuel found rest :
  Forall foreign l → text_headers (length l + fuel) found (lines l +:+ rest) = text_headers fuel found rest.
Proof.
  induction 1 as [|line l (Hl & Hu & Hne & Hnr & Hf) _ IH]; [done|]. unfold lines. cbn [map length Nat.add]. change (concat_strings (?p :: ?ps)) with (p +:+ concat_strings ps).
  rewrite !string_app_assoc. rewrite read_headers_line by done. rewrite Hf. exact IH.
Qed.

(** The length of the stream is enough fuel for any headers in it. *)
Lemma read_line_length input : (String.length (text_line input).1 + String.length (text_line input).2 = String.length input)%nat.
Proof.
  induction input as [|c input IH]; [done|]. cbn [text_line]. destruct (Ascii.eqb _ _); [done|].
  destruct (text_line input) as [line rest]. simpl in *. lia.
Qed.
Lemma read_headers_fuel fuel fuel' found input :
  (String.length input < fuel)%nat → (fuel ≤ fuel')%nat → text_headers fuel found input = text_headers fuel' found input.
Proof.
  revert fuel' found input. induction fuel as [|fuel IH]; intros fuel' found input Hlt Hle; [lia|]. destruct fuel' as [|fuel']; [lia|].
  cbn [text_headers]. pose proof (read_line_length input) as Hlen. destruct (text_line input) as [line rest]. simpl in Hlen.
  destruct (negb _); [done|]. destruct (String.eqb_spec line "") as [|Hne]; [done|]. destruct (_ || _); [done|].
  apply IH; [|lia]. destruct line; [done|]. simpl in Hlen. lia.
Qed.

Lemma string_length_app s t : String.length (s +:+ t) = (String.length s + String.length t)%nat.
Proof. induction s as [|c s IH]; simpl; congruence. Qed.

(** The length is that of the frame's own header, wherever the others are. *)
Definition length_line (n : Z) : string := "Content-Length: " +:+ (show n +:+ RETURN).

Lemma length_line_read n : 0 ≤ n ≤ U64_MAX →
  one_line (length_line n) = true ∧ is_utf8 (length_line n +:+ NEWLINE) = true ∧ content_length_of (length_line n +:+ NEWLINE) = Some n.
Proof.
  intros Hn. destruct (show_number n) as (_ & Hd & Hne); [lia|]. destruct (digits_text _ Hd Hne) as (Ha & _ & _). unfold length_line. split_and!.
  - rewrite !one_line_app. by rewrite (digits_one_line _ Hd).
  - apply ascii_utf8. rewrite !is_ascii_app, Ha. done.
  - unfold content_length_of. rewrite !string_app_assoc. change ("Content-Length: " +:+ ?s) with ("Content-Length:" +:+ (" " +:+ s)).
    rewrite strip_prefix_app. cbn [mbind option_bind]. change (RETURN +:+ NEWLINE) with CRLF. rewrite trim_length by done. by apply parse_shown.
Qed.

Lemma read_headers_frame before after n rest found fuel :
  Forall foreign before → Forall foreign after → 0 ≤ n ≤ U64_MAX →
  text_headers (length before + S (length after + S fuel)) found
    (lines before +:+ (length_line n +:+ (NEWLINE +:+ (lines after +:+ (CRLF +:+ rest))))) = Ok (Some (Some n, rest)).
Proof.
  intros Hb Ha Hn. rewrite read_headers_foreign by done. destruct (length_line_read n Hn) as (Hl & Hu & Hc).
  rewrite read_headers_line; [|done|done|done|done]. rewrite Hc. cbn [option_or]. rewrite read_headers_foreign by done. done.
Qed.

(** ** Frames *)

Lemma substring_prefix s t : String.substring 0 (String.length s) (s +:+ t) = s.
Proof. induction s as [|c s IH]; [by destruct t|]. cbn [String.length String.append String.substring]. by rewrite IH. Qed.
Lemma substring_all t : String.substring 0 (String.length t) t = t.
Proof. induction t as [|c t IH]; [done|]. cbn [String.length String.substring]. by rewrite IH. Qed.
Lemma substring_suffix s t : String.substring (String.length s) (String.length (s +:+ t) - String.length s) (s +:+ t) = t.
Proof.
  rewrite string_length_app. replace (String.length s + String.length t - String.length s)%nat with (String.length t) by lia.
  induction s as [|c s IH]; [apply substring_all|]. exact IH.
Qed.

Section frames.
Context {Value : Type} (to_vec : Value → option string) (from_slice : string → string + Value).

(** A message as it comes: its text, the message, and the headers around its length. *)
Record Frame := { fr_before : list string; fr_after : list string; fr_payload : string; fr_value : Value }.

Definition frame_ok (f : Frame) : Prop :=
  Forall foreign (fr_before f) ∧ Forall foreign (fr_after f) ∧ slen (fr_payload f) ≤ I64_MAX
  ∧ from_slice (fr_payload f) = inr (fr_value f).
Definition frame_text (f : Frame) : string :=
  lines (fr_before f) +:+ (length_line (slen (fr_payload f)) +:+ (NEWLINE +:+ (lines (fr_after f) +:+ (CRLF +:+ fr_payload f)))).
Definition stream (fs : list Frame) : string := concat_strings (map frame_text fs).

Lemma lines_length l : Forall foreign l → (length l ≤ String.length (lines l))%nat.
Proof.
  induction 1 as [|line l _ _ IH]; [done|]. unfold lines in *. cbn [map length].
  change (concat_strings (?p :: ?ps)) with (p +:+ concat_strings ps). rewrite !string_length_app. simpl. lia.
Qed.

Lemma read_message_frame f rest :
  frame_ok f → text_message from_slice (frame_text f +:+ rest) = Ok (Some (fr_value f, rest)).
Proof.
  intros (Hb & Ha & Hlen & Hval). unfold text_message, frame_text. rewrite !string_app_assoc.
  set (input := lines (fr_before f) +:+ _).
  assert (slen (fr_payload f) ≤ U64_MAX) as Hmax by (unfold I64_MAX, U64_MAX in *; lia).
  assert (0 ≤ slen (fr_payload f)) as Hpos by (unfold slen; lia).
  assert (text_headers (text_fuel input) None input
          = Ok (Some (Some (slen (fr_payload f)), fr_payload f +:+ rest))) as ->.
  { rewrite (read_headers_fuel _ (length (fr_before f) + S (length (fr_after f) + S (text_fuel input)))) by (unfold text_fuel; lia).
    by apply read_headers_frame. }
  cbn [mbind outcome_mbind outcome_bind ok_or]. rewrite (proj2 (Z.ltb_ge _ _)) by done.
  assert (slen (fr_payload f +:+ rest) <? slen (fr_payload f) = false) as ->.
  { apply Z.ltb_ge. unfold slen. rewrite string_length_app. lia. }
  unfold slen. rewrite Nat2Z.id, substring_prefix, Hval, substring_suffix. done.
Qed.

Lemma read_messages_stream fs rest :
  Forall frame_ok fs → text_messages from_slice (length fs) (stream fs +:+ rest) = Ok (fr_value <$> fs, rest).
Proof.
  induction 1 as [|f fs Hf _ IH]; [done|]. unfold stream in *. cbn [length map text_messages].
  change (concat_strings (?p :: ?ps)) with (p +:+ concat_strings ps). rewrite string_app_assoc, read_message_frame by done.
  cbn [mbind outcome_mbind outcome_bind]. rewrite IH. done.
Qed.

(** What the writer writes are frames without other headers. *)
Definition plain_frame (message : Value) : option Frame :=
  (λ payload, {| fr_before := []; fr_after := []; fr_payload := payload; fr_value := message |}) <$> to_vec message.

Lemma write_messages_stream l : write_messages Value to_vec l = stream (omap plain_frame l).
Proof.
  unfold write_messages, stream. induction l as [|message l IH]; [done|]. cbn [map omap list_omap]. unfold plain_frame at 1.
  change (concat_strings (?p :: ?ps)) with (p +:+ concat_strings ps). rewrite IH. destruct (to_vec message) as [payload|]; [|done].
  cbn [fmap option_fmap option_map map]. change (concat_strings (?p :: ?ps)) with (p +:+ concat_strings ps). f_equal.
  unfold header, frame_text, length_line, lines. cbn [fr_before fr_after fr_payload map concat_strings foldr].
  rewrite !string_app_assoc. done.
Qed.

Context (get : string → Value → option Value) (as_str : Value → option string) (as_u64 : Value → option Z) (empty_object : Value).
Context {S : Type} (handle : Request Value → S → S * bool).

(** The requests among the messages, handled in order until one shuts the adapter down. *)
Fixpoint handled (values : list Value) (state : S) : S :=
  match values with
  | [] => state
  | value :: rest =>
      match parse_request Value get as_str as_u64 empty_object value with
      | Some request => let '(state, shutdown) := handle request state in if shutdown : bool then state else handled rest state
      | None => handled rest state
      end
  end.

Lemma frame_text_nonempty f : (0 < String.length (frame_text f))%nat.
Proof. unfold frame_text, length_line. rewrite !string_length_app. simpl. lia. Qed.

(** A message takes some of the stream. *)
Lemma read_headers_shorter fuel found input found' rest :
  text_headers fuel found input = Ok (Some (found', rest)) → (String.length rest < String.length input)%nat.
Proof.
  revert found input. induction fuel as [|fuel IH]; intros found input; [done|]. cbn [text_headers].
  pose proof (read_line_length input) as Hlen. destruct (text_line input) as [line left]. simpl in Hlen.
  destruct (negb _); [done|]. destruct (String.eqb_spec line "") as [|Hne]; [done|].
  assert (0 < String.length line)%nat by (destruct line; [done|simpl; lia]).
  destruct (_ || _); [intros [= <- <-]; lia|]. intros Hrun%IH. lia.
Qed.
Lemma substring_shorter n m s : (String.length (String.substring n m s) ≤ String.length s)%nat.
Proof.
  revert n m. induction s as [|c s IH]; intros n m; [by destruct n, m|]. destruct n as [|n]; [destruct m as [|m]|]; cbn [String.substring String.length].
  - lia.
  - specialize (IH 0%nat m). lia.
  - specialize (IH n m). lia.
Qed.
Lemma read_message_shorter input value rest :
  text_message from_slice input = Ok (Some (value, rest)) → (String.length rest < String.length input)%nat.
Proof.
  unfold text_message. destruct (text_headers _ _ _) as [[[found left]|]| |] eqn:Hh; [|done..]. cbn [mbind outcome_mbind outcome_bind].
  apply read_headers_shorter in Hh. destruct (ok_or _ _) as [n| |]; [|done..]. cbn [mbind outcome_mbind outcome_bind].
  destruct (_ <? _); [done|]. destruct (_ <? _); [done|]. destruct (from_slice _); [done|]. intros [= _ <-].
  pose proof (substring_shorter (Z.to_nat n) (String.length left - Z.to_nat n) left). lia.
Qed.

(** Serving ends, whatever the stream holds. *)
Lemma serve_ends input state fuel :
  (String.length input < fuel)%nat → (text_serve from_slice get as_str as_u64 empty_object handle fuel input state).1 ≠ None.
Proof.
  revert input state. induction fuel as [|fuel IH]; intros input state Hfuel; [lia|]. cbn [text_serve].
  destruct (text_message _ input) as [[[value rest]|]| |] eqn:Hm; [|done..]. apply read_message_shorter in Hm.
  destruct (parse_request _ _ _ _ _ _) as [request|]; [|apply IH; lia]. destruct (handle request state) as [state' []]; [done|]. apply IH. lia.
Qed.

Lemma serve_stream fs state fuel :
  Forall frame_ok fs → (String.length (stream fs) < fuel)%nat →
  text_serve from_slice get as_str as_u64 empty_object handle fuel (stream fs) state = (Some (Ok ()), handled (fr_value <$> fs) state).
Proof.
  intros Hfs. revert state fuel. induction Hfs as [|f fs Hf _ IH]; intros state fuel Hfuel.
  { destruct fuel as [|fuel]; [simpl in Hfuel; lia|]. done. }
  destruct fuel as [|fuel]; [lia|]. unfold stream in *. cbn [map text_serve].
  change (concat_strings (?p :: ?ps)) with (p +:+ concat_strings ps) in *. rewrite read_message_frame by done. cbn [fmap list_fmap handled].
  cbn [map] in Hfuel. change (concat_strings (?p :: ?ps)) with (p +:+ concat_strings ps) in Hfuel.
  rewrite string_length_app in Hfuel. pose proof (frame_text_nonempty f).
  destruct (parse_request _ _ _ _ _ _) as [request|]; [|apply IH; lia].
  destruct (handle request state) as [state' []]; [done|]. apply IH. lia.
Qed.
End frames.

(** What the writer writes is read back. *)
Lemma written_back {Value} (to_vec : Value → option string) (from_slice : string → string + Value) l rest :
  (∀ m, m ∈ l → ∃ payload, to_vec m = Some payload ∧ from_slice payload = inr m ∧ slen payload ≤ I64_MAX) →
  text_messages from_slice (length l) (write_messages Value to_vec l +:+ rest) = Ok (l, rest).
Proof.
  intros Hl. rewrite (write_messages_stream to_vec l).
    assert (fr_value <$> omap (plain_frame to_vec) l = l ∧ Forall (frame_ok from_slice) (omap (plain_frame to_vec) l)) as [He Hok].
    { induction l as [|m l IH]; [by split|]. destruct (Hl m ltac:(left)) as (payload & Hp & Hs & Hlen).
      destruct IH as [He Hok]; [intros m' Hm'; apply Hl; by right|]. assert (plain_frame to_vec m = Some {| fr_before := []; fr_after := []; fr_payload := payload; fr_value := m |}) as Hf
        by (unfold plain_frame; by rewrite Hp).
      cbn [omap list_omap]. rewrite Hf. cbn [fmap list_fmap]. split; [cbn; f_equal; exact He|]. by constructor. }
    rewrite <-He at 1. rewrite length_fmap. rewrite (read_messages_stream from_slice _ rest Hok). by rewrite He.
Qed.

(** ** Reading in pieces *)

(** The text a reader still has to give. *)
Abbreviation remaining := (concat_strings : Reader → string).

(** A read gives nothing only at the end of the stream. *)
Definition pieces (reader : Reader) : Prop := Forall (λ piece, piece ≠ "") reader.

Lemma remaining_cons piece reader : remaining (piece :: reader) = piece +:+ remaining reader.
Proof. done. Qed.

Lemma refill_remaining after reader : remaining (refill after reader) = after +:+ remaining reader.
Proof. unfold refill. by destruct (String.eqb_spec after "") as [->|]. Qed.

Lemma refill_pieces after reader : pieces reader → pieces (refill after reader).
Proof. intros Hr. unfold refill. destruct (String.eqb_spec after ""); [done|by constructor]. Qed.

Lemma cut_line_text piece rest : text_line (piece +:+ rest) =
  match cut_line piece with
  | Some (line, after) => (line, after +:+ rest)
  | None => (piece +:+ (text_line rest).1, (text_line rest).2)
  end.
Proof.
  induction piece as [|c piece IH]; [change ("" +:+ rest) with rest; by destruct (text_line rest)|]. cbn [String.append text_line cut_line].
  destruct (Ascii.eqb c (byte 10)); [done|]. rewrite IH. by destruct (cut_line piece) as [[line after]|].
Qed.

Lemma read_line_pieces reader : pieces reader →
  (read_line reader).1 = (text_line (remaining reader)).1
  ∧ remaining (read_line reader).2 = (text_line (remaining reader)).2 ∧ pieces (read_line reader).2.
Proof.
  induction 1 as [|piece reader Hp Hr IH]; [split_and!; [done|done|constructor]|]. rewrite remaining_cons, cut_line_text. cbn [read_line].
  destruct (cut_line piece) as [[line after]|].
  - cbn [fst snd]. split; [done|]. split; [apply refill_remaining|by apply refill_pieces].
  - destruct (read_line reader) as [line reader']. cbn [fst snd] in *. destruct IH as (-> & -> & Hr'). done.
Qed.

Lemma substring_halves n s : (n ≤ String.length s)%nat → s = String.substring 0 n s +:+ String.substring n (String.length s - n) s.
Proof.
  revert n. induction s as [|c s IH]; intros n Hn; [by replace n with 0%nat by (simpl in Hn; lia)|]. destruct n as [|n].
  - cbn [String.substring String.append String.length Nat.sub]. by rewrite <-(substring_prefix s "") at 1; rewrite string_app_nil_r.
  - cbn [String.substring String.append String.length Nat.sub]. f_equal. apply IH. simpl in Hn. lia.
Qed.

Lemma substring_head_length n s : (n ≤ String.length s)%nat → String.length (String.substring 0 n s) = n.
Proof.
  revert n. induction s as [|c s IH]; intros n Hn; [simpl in Hn; by destruct n; [|lia]|]. destruct n as [|n]; [done|].
  cbn [String.substring String.length]. f_equal. apply IH. simpl in Hn. lia.
Qed.

(** [read_exact] takes the next bytes, whatever pieces they are in. *)
Lemma read_exact_pieces reader : pieces reader → ∀ n,
  match read_exact n reader with
  | Some (taken, reader') => remaining reader = taken +:+ remaining reader' ∧ String.length taken = n ∧ pieces reader'
  | None => (String.length (remaining reader) < n)%nat
  end.
Proof.
  induction 1 as [|piece reader Hp Hr IH]; intros n; cbn [read_exact].
  - destruct (Nat.eqb_spec n 0) as [->|]; [split_and!; [done|done|constructor]|]. simpl. lia.
  - destruct (Nat.leb_spec n (String.length piece)) as [Hn|Hn].
    + rewrite refill_remaining, remaining_cons, <-string_app_assoc, <-substring_halves by done.
      split; [done|]. split; [by apply substring_head_length|by apply refill_pieces].
    + specialize (IH (n - String.length piece)%nat). destruct (read_exact _ reader) as [[more reader']|]; cbn [mbind option_bind].
      * destruct IH as (He & Hl & Hp'). rewrite remaining_cons, He, string_app_assoc. split; [done|].
        split; [rewrite string_length_app; lia|done].
      * rewrite remaining_cons, string_length_app. lia.
Qed.

Lemma read_headers_pieces fuel : ∀ found reader, pieces reader →
  match read_headers fuel found reader, text_headers fuel found (remaining reader) with
  | Ok (Some (length, reader')), Ok (Some (length', rest)) => length = length' ∧ remaining reader' = rest ∧ pieces reader'
  | Ok None, Ok None => True
  | Err e, Err e' => e = e'
  | _, _ => False
  end.
Proof.
  induction fuel as [|fuel IH]; intros found reader Hr; [done|]. cbn [read_headers text_headers].
  destruct (read_line_pieces reader Hr) as (H1 & H2 & H3).
  destruct (read_line reader) as [line reader'], (text_line (remaining reader)) as [line' rest]. cbn [fst snd] in *. subst line' rest.
  destruct (negb (is_utf8 line)); [done|]. destruct (String.eqb line ""); [done|]. destruct (_ || _); [done|]. by apply IH.
Qed.

Section pieces_facts.
Context {Value : Type} (from_slice : string → string + Value).

Lemma read_message_pieces reader : pieces reader →
  match read_message Value from_slice reader, text_message from_slice (remaining reader) with
  | Ok (Some (value, reader')), Ok (Some (value', rest)) => value = value' ∧ remaining reader' = rest ∧ pieces reader'
  | Ok None, Ok None => True
  | Err e, Err e' => e = e'
  | Panic, Panic => True
  | _, _ => False
  end.
Proof.
  intros Hr. unfold read_message, text_message, header_fuel, text_fuel.
  pose proof (read_headers_pieces (S (String.length (remaining reader))) None reader Hr) as Hh.
  destruct (read_headers _ _ reader) as [[[length reader']|]| |], (text_headers _ _ _) as [[[length' rest]|]| |]; try done.
  destruct Hh as (<- & <- & Hr'). cbn [mbind outcome_mbind outcome_bind]. destruct length as [n|]; [|done]. cbn [ok_or mbind outcome_mbind outcome_bind].
  destruct (I64_MAX <? n); [done|]. pose proof (read_exact_pieces reader' Hr' (Z.to_nat n)) as Hread.
  destruct (read_exact (Z.to_nat n) reader') as [[taken reader2]|].
  - destruct Hread as (He & Hl & Hr2). cbn [ok_or mbind outcome_mbind outcome_bind]. rewrite He, <-Hl.
    rewrite (proj2 (Z.ltb_ge _ _)) by (unfold slen; rewrite string_length_app; lia).
    rewrite substring_prefix, substring_suffix. by destruct (from_slice taken).
  - cbn [ok_or mbind outcome_mbind outcome_bind]. rewrite (proj2 (Z.ltb_lt _ _)) by (unfold slen; lia). done.
Qed.

Lemma read_messages_pieces n : ∀ reader, pieces reader →
  match read_messages Value from_slice n reader, text_messages from_slice n (remaining reader) with
  | Ok (l, reader'), Ok (l', rest) => l = l' ∧ remaining reader' = rest
  | Err e, Err e' => e = e'
  | Panic, Panic => True
  | _, _ => False
  end.
Proof.
  induction n as [|n IH]; intros reader Hr; [done|]. cbn [read_messages text_messages]. pose proof (read_message_pieces reader Hr) as Hone.
  destruct (read_message _ _ reader) as [[[value reader']|]| |], (text_message _ _) as [[[value' rest]|]| |]; try done.
  destruct Hone as (<- & <- & Hr'). cbn [mbind outcome_mbind outcome_bind]. specialize (IH reader' Hr').
  destruct (read_messages _ _ n reader') as [[l reader2]| |], (text_messages _ n _) as [[l' rest]| |]; try done.
  destruct IH as [-> <-]. done.
Qed.

Context (get : string → Value → option Value) (as_str : Value → option string) (as_u64 : Value → option Z) (empty_object : Value).
Context {S : Type} (handle : Request Value → S → S * bool).

Lemma serve_pieces fuel : ∀ reader state, pieces reader →
  serve Value from_slice get as_str as_u64 empty_object handle fuel reader state
  = text_serve from_slice get as_str as_u64 empty_object handle fuel (remaining reader) state.
Proof.
  induction fuel as [|fuel IH]; intros reader state Hr; [done|]. cbn [serve text_serve]. pose proof (read_message_pieces reader Hr) as Hone.
  destruct (read_message _ _ reader) as [[[value reader']|]| |], (text_message _ _) as [[[value' rest]|]| |]; try done; [|by subst].
  destruct Hone as (<- & <- & Hr'). destruct (parse_request _ _ _ _ _ _) as [request|]; [|by apply IH].
  destruct (handle request state) as [state' []]; [done|by apply IH].
Qed.
End pieces_facts.

(** C9.  The protocol, whatever pieces the reads of the operating system give the stream
    in.  Serving a stream always ends.  A stream of messages, each behind its length and
    any other headers, is served as the list of its messages: the requests among them are
    handled in order until one shuts the adapter down.  And what the writer writes of a
    list of messages is read back as that list, and nothing of what follows it is lost. *)
Theorem stream_serves_requests {Value} (to_vec : Value → option string) (from_slice : string → string + Value)
    (get : string → Value → option Value) (as_str : Value → option string) (as_u64 : Value → option Z) (empty_object : Value)
    {S} (handle : Request Value → S → S * bool) (reader : Reader) :
  pieces reader →
  let served := serve Value from_slice get as_str as_u64 empty_object handle (Datatypes.S (String.length (remaining reader))) reader in
  (∀ state, (served state).1 ≠ None)
  ∧ (∀ fs state, Forall (frame_ok from_slice) fs → remaining reader = stream fs →
       served state = (Some (Ok ()), handled get as_str as_u64 empty_object handle (fr_value <$> fs) state))
  ∧ (∀ l rest, (∀ m, m ∈ l → ∃ payload, to_vec m = Some payload ∧ from_slice payload = inr m ∧ slen payload ≤ I64_MAX) →
       remaining reader = write_messages Value to_vec l +:+ rest →
       ∃ reader', read_messages Value from_slice (length l) reader = Ok (l, reader') ∧ remaining reader' = rest).
Proof.
  intros Hr served. split_and!.
  - intros state. unfold served. rewrite serve_pieces by done. apply serve_ends. lia.
  - intros fs state Hfs He. unfold served. rewrite serve_pieces, He by done. apply serve_stream; [done|lia].
  - intros l rest Hl He. pose proof (read_messages_pieces from_slice (length l) reader Hr) as Hm.
    rewrite He, (written_back to_vec from_slice l rest Hl) in Hm.
    destruct (read_messages _ _ _ reader) as [[l' reader']| |]; [|done..]. destruct Hm as [-> Hrest]. by exists reader'.
Qed.

(** Messages that are their own text: requests but for the empty one. *)
Definition text_get (name text : string) : option string :=
  if String.eqb name "type" then Some (if String.eqb text "" then "event" else "request")
  else if String.eqb name "arguments" then None else Some text.
Definition text_handle (request : Request string) (commands : list string) : list string * bool :=
  ((commands ++ [rq_command _ request])%list, String.eqb (rq_command _ request) "disconnect").
Definition sample_frames : list (Frame (Value:=string)) :=
  [{| fr_before := ["Content-Type: text" +:+ RETURN]; fr_after := ["X" +:+ RETURN]; fr_payload := "pause"; fr_value := "pause" |};
   {| fr_before := []; fr_after := []; fr_payload := ""; fr_value := "" |};
   {| fr_before := []; fr_after := []; fr_payload := "disconnect"; fr_value := "disconnect" |};
   {| fr_before := []; fr_after := []; fr_payload := "next"; fr_value := "next" |}].

(** The stream in pieces of three bytes. *)
Fixpoint in_threes (s : string) : Reader :=
  match s with
  | String a (String b (String c s')) => String a (String b (String c "")) :: in_threes s'
  | "" => []
  | _ => [s]
  end.

Lemma stream_serves_requests_witness :
  let reader := in_threes (stream sample_frames) in
  serve string inr text_get Some (λ _, Some 1) "" text_handle (S (String.length (remaining reader))) reader []
  = (Some (Ok ()), ["pause"; "disconnect"])
  ∧ ∃ reader', read_messages string inr 2 (in_threes (write_messages string Some ["pause"; "next"] +:+ "rest")) = Ok (["pause"; "next"], reader')
      ∧ remaining reader' = "rest".
Proof.
  intros reader. split.
  - destruct (stream_serves_requests (Some : string → option string) inr text_get Some (λ _, Some 1) "" text_handle reader) as (_ & Hserve & _);
      [apply (bool_decide_eq_true_1 _); vm_compute; reflexivity|].
    rewrite (Hserve sample_frames []); [vm_compute; reflexivity| |vm_compute; reflexivity].
    repeat constructor; try (vm_compute; discriminate).
  - destruct (stream_serves_requests (Some : string → option string) inr text_get Some (λ _, Some 1) "" text_handle
      (in_threes (write_messages string Some ["pause"; "next"] +:+ "rest"))) as (_ & _ & Hread);
      [apply (bool_decide_eq_true_1 _); vm_compute; reflexivity|].
    apply (Hread ["pause"; "next"] "rest"); [|vm_compute; reflexivity]. intros m Hm. exists m. split_and!; [reflexivity|reflexivity|].
    apply elem_of_cons in Hm as [->|Hm%list_elem_of_singleton]; [vm_compute; discriminate|subst m; vm_compute; discriminate].
Defined.
