(* ===== verification/LuaSandbox.v ===== *)
(** * The sandbox of Lua programs

    [crates/ic10-sim/src/lua.rs], around the interpreter: the limits of a run, the module
    loader behind [require], the hook that counts, the output that is captured, the host
    functions on the world, and where an error is reported.  The interpreter is the [mlua]
    crate: what a chunk asks of the loader while it runs is a [Chunk], a tree of requests
    over the state of the interpreter.  The file system is a class; paths are the texts of
    a system whose separator is a slash. *)

From S2P Require Import Prelude BTree Text F64 Knowledge Literals Journal World Vm Schema Protocol.
Local Open Scope string_scope.
Local Open Scope Z_scope.

(** ** Limits *)

Definition LUA_MAX_WALL_TIME : Z := 30 * 10 ^ 9.
Definition HOOK_INSTRUCTION_INTERVAL : Z := 1000.

(** Source: [crates/ic10-sim/src/lua.rs] [LuaDiagnostic] *)
Record LuaDiagnostic := { lg_code : string; lg_message : message; lg_source_path : string; lg_line : option Z }.

(** Times are in nanoseconds.
    Source: [crates/ic10-sim/src/lua.rs] [LuaRunLimits] *)
Record LuaRunLimits := {
  rl_max_instructions : Z;
  rl_wall_time : Z;
  rl_memory_bytes : Z;
  rl_max_output_bytes : Z;
  rl_max_modules : Z;
  rl_max_source_bytes : Z;
  rl_max_recursion_depth : Z;
}.

(** Source: [crates/ic10-sim/src/lua.rs] [LuaRunLimits] lines 103-115 *)
Definition default_run_limits : LuaRunLimits :=
  {| rl_max_instructions := 1000000; rl_wall_time := 5 * 10 ^ 9; rl_memory_bytes := 16 * 1024 * 1024;
     rl_max_output_bytes := 64 * 1024; rl_max_modules := 64; rl_max_source_bytes := 1024 * 1024; rl_max_recursion_depth := 128 |}.

(** Source: [crates/ic10-sim/src/lua.rs] [validate_limits] *)
Definition validate_limits (entry_path : string) (limits : LuaRunLimits) : outcome LuaDiagnostic () :=
  let invalid text := Err {| lg_code := "lua-invalid-limits"; lg_message := text; lg_source_path := entry_path; lg_line := None |} in
  if (rl_max_instructions limits =? 0) || (rl_wall_time limits =? 0) || (rl_memory_bytes limits =? 0)
     || (rl_max_output_bytes limits =? 0) || (rl_max_modules limits =? 0) || (rl_max_source_bytes limits =? 0)
     || (rl_max_recursion_depth limits =? 0)
  then invalid [PS "all Lua execution limits must be positive"]
  else if (LUA_MAX_INSTRUCTIONS <? rl_max_instructions limits) || (LUA_MAX_WALL_TIME <? rl_wall_time limits)
     || (LUA_MAX_MEMORY_BYTES <? rl_memory_bytes limits) || (LUA_MAX_OUTPUT_BYTES <? rl_max_output_bytes limits)
     || (LUA_MAX_MODULES <? rl_max_modules limits) || (LUA_MAX_SOURCE_BYTES <? rl_max_source_bytes limits)
     || (LUA_MAX_RECURSION_DEPTH <? rl_max_recursion_depth limits)
  then invalid [PS "Lua execution limits exceed the sandbox ceilings: instructions "; PZ LUA_MAX_INSTRUCTIONS;
                PS ", wall time "; PZ (LUA_MAX_WALL_TIME / 10 ^ 6); PS " ms, memory "; PZ LUA_MAX_MEMORY_BYTES;
                PS " bytes, output "; PZ LUA_MAX_OUTPUT_BYTES; PS " bytes, modules "; PZ LUA_MAX_MODULES;
                PS ", source "; PZ LUA_MAX_SOURCE_BYTES; PS " bytes, recursion "; PZ LUA_MAX_RECURSION_DEPTH]
  else Ok ().

(** ** Files *)

(** [Path::canonicalize], [Path::is_file], [Path::is_dir] and [fs::read], with the text of
    an error. *)
Class FileSystem := {
  canonicalize : string → string + string;
  is_file : string → bool;
  is_dir : string → bool;
  fs_read : string → string + string;
}.

(** [Path::join] *)
Definition path_join (root path : string) : string :=
  if starts_with "/" path then path
  else if String.eqb root "" || ends_with "/" root then root +:+ path
  else root +:+ ("/" +:+ path).

(** The components of a path: whether it is absolute, and the names in it. *)
Definition path_components (path : string) : bool * list string :=
  (starts_with "/" path, List.filter (λ name, negb (String.eqb name "") && negb (String.eqb name ".")) (split_char (byte 47) path)).

Fixpoint names_start_with (names prefix : list string) : bool :=
  match prefix, names with
  | [], _ => true
  | p :: prefix, n :: names => String.eqb n p && names_start_with names prefix
  | _ :: _, [] => false
  end.

(** [Path::starts_with], which compares whole components *)
Definition path_starts_with (path root : string) : bool :=
  Bool.eqb (path_components path).1 (path_components root).1 && names_start_with (path_components path).2 (path_components root).2.

Section files.
Context `{FileSystem}.
(** [FromUtf8Error] as it is displayed *)
Variable utf8_error : string → string.

(** Source: [crates/ic10-sim/src/lua.rs] [canonical_file] *)
Definition canonical_file (path code : string) : outcome LuaDiagnostic string :=
  match canonicalize path with
  | inl error =>
      Err {| lg_code := code; lg_message := [PS "could not resolve Lua source: "; PS error]; lg_source_path := path; lg_line := None |}
  | inr canonical =>
      if is_file canonical then Ok canonical
      else Err {| lg_code := code; lg_message := [PS "Lua source is not a file"]; lg_source_path := canonical; lg_line := None |}
  end.

(** Source: [crates/ic10-sim/src/lua.rs] [read_source] *)
Definition read_source (path : string) (limit : Z) : outcome LuaDiagnostic string :=
  let refused code text := Err {| lg_code := code; lg_message := text; lg_source_path := path; lg_line := None |} in
  match fs_read path with
  | inl error => refused "lua-source-read" [PS "could not read Lua source: "; PS error]
  | inr bytes =>
      if limit <? slen bytes
      then refused "lua-source-limit" [PS "Lua source is "; PZ (slen bytes); PS " bytes, exceeding the "; PZ limit; PS "-byte limit"]
      else if is_utf8 bytes then Ok bytes
      else refused "lua-source-encoding" [PS "Lua source must be UTF-8: "; PS (utf8_error bytes)]
  end.

(** One more root: it is resolved, must be a directory, and is kept once.
    Source: [crates/ic10-sim/src/lua.rs] [run_internal] lines 899-919 *)
Definition add_root (invalid : string) (roots : list string) (root : string) : outcome LuaDiagnostic (list string) :=
  let refused text path := Err {| lg_code := "lua-module-root-invalid"; lg_message := text; lg_source_path := path; lg_line := None |} in
  match canonicalize root with
  | inl error => refused [PS "could not resolve "; PS invalid; PS ": "; PS error] root
  | inr root =>
      if negb (is_dir root) then refused [PS invalid; PS " is not a directory"] root
      else Ok (if existsb (String.eqb root) roots then roots else roots ++ [root])%list
  end.

(** ** Modules *)

(** [str::replace] of a character by a text *)
Fixpoint replace_with (c : Ascii.ascii) (by_ s : string) : string :=
  match s with
  | "" => ""
  | String a rest => if Ascii.eqb a c then by_ +:+ replace_with c by_ rest else String a (replace_with c by_ rest)
  end.

(** Source: [crates/ic10-sim/src/lua.rs] [validate_module_name] lines 1239-1244 *)
Definition module_segment (segment : string) : bool :=
  match segment with
  | "" => false
  | String first rest =>
      let letter c := Ascii.eqb c (byte 95) || is_ascii_alphabetic (byte_of c) in
      let word c := Ascii.eqb c (byte 95) || is_ascii_alphanumeric (byte_of c) in
      letter first && forallb word (String.list_ascii_of_string rest)
  end.

(** Source: [crates/ic10-sim/src/lua.rs] [validate_module_name] *)
Definition validate_module_name (name : string) : outcome message () :=
  if negb (String.eqb name "") && (slen name <=? 255) && forallb module_segment (split_char (byte 46) name) then Ok ()
  else Err [PS "[lua-module-path] invalid workspace module name `"; PS name; PS "`"].

(** The files a root may hold a module in.
    Source: [crates/ic10-sim/src/lua.rs] [resolve_module] lines 1259-1262 *)
Definition module_candidates (root name : string) : list string :=
  let relative := replace_with (byte 46) "/" name in
  [path_join root (relative +:+ ".lua"); path_join (path_join root relative) "init.lua"].

(** A candidate that is a file is resolved, and must lie within its root.
    Source: [crates/ic10-sim/src/lua.rs] [resolve_module] lines 1263-1275 *)
Definition add_match (name root : string) (matches : list string) (candidate : string) : outcome message (list string) :=
  if negb (is_file candidate) then Ok matches
  else
    match canonicalize candidate with
    | inl error => Err [PS error]
    | inr path =>
        if negb (path_starts_with path root)
        then Err [PS "[lua-module-path] module `"; PS name; PS "` resolves outside its configured root"]
        else Ok (if existsb (String.eqb path) matches then matches else matches ++ [path])%list
    end.

(** Source: [crates/ic10-sim/src/lua.rs] [resolve_module] *)
Definition resolve_module (roots : list string) (name : string) : outcome message string :=
  matches ← fold_outcome (λ matches root, fold_outcome (add_match name root) matches (module_candidates root name)) [] roots;
  match matches with
  | [] => Err [PS "[lua-module-not-found] workspace module `"; PS name; PS "` was not found"]
  | [path] => Ok path
  | _ => Err [PS "[lua-module-ambiguous] workspace module `"; PS name; PS "` resolves to multiple files"]
  end.

(** The source of a module, and the bytes that are used with it.
    Source: [crates/ic10-sim/src/lua.rs] [read_module_source] *)
Definition read_module_source (path : string) (limit : Z) : M Z message string := λ used,
  match fs_read path with
  | inl error => (Err [PS error], used)
  | inr bytes =>
      let aggregate := Z.min (used + slen bytes) U64_MAX in
      if (limit <? slen bytes) || (limit <? aggregate)
      then (Err [PS "[lua-source-limit] loading module "; PS path; PS " would use "; PZ aggregate;
                 PS " source bytes, exceeding the "; PZ limit; PS "-byte aggregate limit"], used)
      else (if is_utf8 bytes then Ok bytes
            else Err [PS "[lua-source-encoding] module "; PS path; PS " must be UTF-8: "; PS (utf8_error bytes)], aggregate)
  end.

(** Source: [crates/ic10-sim/src/lua.rs] [ModuleResolver] *)
Record ModuleResolver := {
  mr_roots : list string;
  mr_loading : list string;
  mr_loaded_paths : list string;
  mr_source_bytes : Z;
  mr_max_modules : Z;
  mr_max_source_bytes : Z;
}.

Definition set_mr_loading (loading : list string) (r : ModuleResolver) : ModuleResolver :=
  {| mr_roots := mr_roots r; mr_loading := loading; mr_loaded_paths := mr_loaded_paths r; mr_source_bytes := mr_source_bytes r;
     mr_max_modules := mr_max_modules r; mr_max_source_bytes := mr_max_source_bytes r |}.
Definition set_mr_loaded_paths (paths : list string) (r : ModuleResolver) : ModuleResolver :=
  {| mr_roots := mr_roots r; mr_loading := mr_loading r; mr_loaded_paths := paths; mr_source_bytes := mr_source_bytes r;
     mr_max_modules := mr_max_modules r; mr_max_source_bytes := mr_max_source_bytes r |}.
Definition set_mr_source_bytes (bytes : Z) (r : ModuleResolver) : ModuleResolver :=
  {| mr_roots := mr_roots r; mr_loading := mr_loading r; mr_loaded_paths := mr_loaded_paths r; mr_source_bytes := bytes;
     mr_max_modules := mr_max_modules r; mr_max_source_bytes := mr_max_source_bytes r |}.

(** ** Running modules *)

(** The values of Lua that are not nil, the state of the interpreter, and what a source
    does when it is loaded under a name. *)
Context {V G : Type} (lua_true : V).

(** A chunk that runs: it returns (nil is [None]), fails, or requires a module and goes on
    with its value.  A failed [require] fails the chunk, since there is no [pcall]. *)
Inductive Chunk :=
  | ChunkReturn (value : option V) (g : G)
  | ChunkError (text : message) (g : G)
  | ChunkRequire (name : string) (g : G) (resume : V → G → Chunk).

Variable load_chunk : string → string → G → Chunk.

(** The loader with its table of loaded modules, and the interpreter. *)
Record Loader := { lo_resolver : ModuleResolver; lo_loaded : BTreeMap string V; lo_state : G }.

Definition alter_resolver (f : ModuleResolver → ModuleResolver) (l : Loader) : Loader :=
  {| lo_resolver := f (lo_resolver l); lo_loaded := lo_loaded l; lo_state := lo_state l |}.
Definition set_lo_state (g : G) (l : Loader) : Loader :=
  {| lo_resolver := lo_resolver l; lo_loaded := lo_loaded l; lo_state := g |}.
Definition set_lo_loaded (loaded : BTreeMap string V) (l : Loader) : Loader :=
  {| lo_resolver := lo_resolver l; lo_loaded := loaded; lo_state := lo_state l |}.

Abbreviation LX := (M Loader message).
Definition on_state {A} (f : G → LX A) : LX A := λ l, f (lo_state l) l.

(** The interpreter runs a chunk, and calls [require] for it.  [None]: the fuel of a call
    is spent. *)
Fixpoint drive (require : string → LX (option V)) (chunk : Chunk) : LX (option (option V)) :=
  match chunk with
  | ChunkReturn value g => _ ← modify (set_lo_state g); mret (Some value)
  | ChunkError text g => _ ← modify (set_lo_state g); throw text
  | ChunkRequire name g resume =>
      _ ← modify (set_lo_state g);
      value ← require name;
      match value with
      | None => mret None
      | Some value => on_state (λ g, drive require (resume value g))
      end
  end.

(** The path of a module that may be loaded; it is being loaded from here on.
    Source: [crates/ic10-sim/src/lua.rs] [install_require] lines 1184-1205 *)
Definition begin_module (name : string) : LX string :=
  r ← gets lo_resolver;
  if existsb (String.eqb name) (mr_loading r) then throw [PS "[lua-module-cycle] cyclic require for `"; PS name; PS "`"]
  else
    path ← lift (resolve_module (mr_roots r) name);
    let known := existsb (String.eqb path) (mr_loaded_paths r) in
    if negb known && (mr_max_modules r <=? Z.of_nat (length (mr_loaded_paths r)))
    then throw [PS "[lua-module-limit] module count exceeds "; PZ (mr_max_modules r)]
    else
      _ ← modify (alter_resolver (λ r,
        set_mr_loading (name :: mr_loading r)
          (if known then r else set_mr_loaded_paths (mr_loaded_paths r ++ [path])%list r)));
      mret path.

(** The module is no longer being loaded. *)
Definition end_module (name : string) : LX () :=
  modify (alter_resolver (λ r, set_mr_loading (List.filter (λ n, negb (String.eqb n name)) (mr_loading r)) r)).

(** Source: [crates/ic10-sim/src/lua.rs] [install_require] lines 1206-1217 *)
Definition module_source (path : string) : LX string := λ l,
  let r := lo_resolver l in
  let '(source, used) := read_module_source path (mr_max_source_bytes r) (mr_source_bytes r) in
  (source, alter_resolver (set_mr_source_bytes used) l).

(** A computation whose error is passed on after a last action. *)
Definition finally {A} (m : LX A) (last : LX ()) : LX A := λ l,
  match m l with
  | (Ok a, l) => (_ ← last; mret a) l
  | (Err e, l) => (_ ← last; throw e) l
  | (Panic, l) => (Panic, l)
  end.

(** [require]; [None] when the fuel is spent.
    Source: [crates/ic10-sim/src/lua.rs] [install_require] *)
Fixpoint require (fuel : nat) (name : string) : LX (option V) :=
  match fuel with
  | O => mret None
  | S fuel =>
      _ ← lift (validate_module_name name);
      loaded ← gets lo_loaded;
      match bt_get name loaded with
      | Some value => mret (Some value)
      | None =>
          path ← begin_module name;
          value ← finally
            (source ← module_source path; on_state (λ g, drive (require fuel) (load_chunk path source g)))
            (end_module name);
          match value with
          | None => mret None
          | Some value =>
              let value := default lua_true value in
              _ ← modify (λ l, set_lo_loaded (bt_insert name value (lo_loaded l)) l);
              mret (Some value)
          end
      end
  end.

(** The fuel of a run: every module that requires another has a source of its own. *)
Definition module_fuel (max_source_bytes : Z) : nat := S (S (Z.to_nat max_source_bytes)).

(** A run of an entry file with its modules.
    Source: [crates/ic10-sim/src/lua.rs] [run_internal] lines 897-980 *)
Definition run_modules (parent : string → option string) (entry_path : string) (module_roots : list string) (limits : LuaRunLimits) (g : G)
    (diagnose : message → string → list string → LuaDiagnostic) : outcome LuaDiagnostic (option (list string)) :=
  _ ← validate_limits entry_path limits;
  entry_path ← canonical_file entry_path "lua-entry-not-found";
  roots ← fold_outcome (add_root "module root") (match parent entry_path with Some p => [p] | None => [] end) module_roots;
  source ← read_source entry_path (rl_max_source_bytes limits);
  let r := {| mr_roots := roots; mr_loading := []; mr_loaded_paths := []; mr_source_bytes := slen source;
              mr_max_modules := rl_max_modules limits; mr_max_source_bytes := rl_max_source_bytes limits |} in
  match drive (require (module_fuel (rl_max_source_bytes limits))) (load_chunk entry_path source g)
          {| lo_resolver := r; lo_loaded := []; lo_state := g |} with
  | (Ok None, _) => Ok None
  | (Ok (Some _), l) => Ok (Some (mr_loaded_paths (lo_resolver l)))
  | (Err e, l) => Err (diagnose e entry_path (mr_loaded_paths (lo_resolver l)))
  | (Panic, _) => Panic
  end.
End files.

(** ** What is captured of the output *)

(** Source: [crates/ic10-sim/src/lua.rs] [OutputCapture] *)
Record OutputCapture := { oc_lines : list string; oc_bytes : Z }.

(** [print] and [log], with the texts of their arguments.
    Source: [crates/ic10-sim/src/lua.rs] [install_output_capture] lines 1083-1102 *)
Definition capture_output (max_bytes : Z) (parts : list string) : M OutputCapture message () := λ capture,
  let line := join TAB parts in
  let next := Z.min (slen line + 1) U64_MAX in
  if max_bytes <? Z.min (oc_bytes capture + next) U64_MAX
  then (Err [PS "[lua-output-limit] captured output exceeds "; PZ max_bytes; PS " bytes"], capture)
  else (Ok (), {| oc_lines := (oc_lines capture ++ [line])%list; oc_bytes := oc_bytes capture + next |}).

(** ** The hook *)

(** [mlua::debug::DebugEvent] *)
Inductive DebugEvent := EventCall | EventRet | EventTailCall | EventLine | EventCount | EventUnknown.

(** What the hook is told: the event, the time since the run began, the name and kind of
    the source, the name of the function, and the current line. *)
Record HookCall := {
  hc_event : DebugEvent;
  hc_elapsed : Z;
  hc_source : option string;
  hc_what : string;
  hc_name : option string;
  hc_line : option Z;
}.

(** The cells of the hook. *)
Record HookState := {
  hk_depth : Z;
  hk_instructions : Z;
  hk_line : Z;
  hk_frames : list LuaFrameStatus;
  hk_source_path : string;
}.

Inductive HookAction := HookContinue | HookYield.

Definition hook_path (call : HookCall) : option string := hc_source call ≫= strip_prefix "@".
Definition is_lua_source (call : HookCall) : bool := String.eqb (hc_what call) "Lua" || String.eqb (hc_what call) "main".

(** The last frame of a source, and those under it.
    Source: [crates/ic10-sim/src/lua.rs] [install_limits] lines 1367-1384 *)
Fixpoint keep_through (path : string) (rev_frames : list LuaFrameStatus) : option (list LuaFrameStatus) :=
  match rev_frames with
  | [] => None
  | frame :: rest => if String.eqb (fr_source_path frame) path then Some rev_frames else keep_through path rest
  end.

(** Source: [crates/ic10-sim/src/lua.rs] [install_limits] lines 1366-1390 *)
Definition line_frames (call : HookCall) (frames : list LuaFrameStatus) : list LuaFrameStatus :=
  let path := default "" (hook_path call) in
  let line := default 1 (hc_line call) in
  let frames :=
    match keep_through path (rev frames) with
    | Some kept => rev kept
    | None => (frames ++ [{| fr_name := default "<main>" (hc_name call); fr_source_path := path; fr_line := line |}])%list
    end in
  match last frames with
  | Some frame =>
      (removelast frames ++ [{| fr_name := default (fr_name frame) (hc_name call); fr_source_path := fr_source_path frame; fr_line := line |}])%list
  | None => frames
  end.

(** The hook of an attached program ([attached]) or of a module run; the locals it copies
    for the debugger are read through the interpreter and are left out.
    Source: [crates/ic10-sim/src/lua.rs] [install_limits] *)
Definition hook (limits : LuaRunLimits) (attached line_yield : bool) (call : HookCall) : M HookState message HookAction := λ s,
  if rl_wall_time limits <? hc_elapsed call
  then (Err [PS "[lua-wall-time-limit] execution exceeded "; PZ (rl_wall_time limits / 10 ^ 6); PS " ms"], s)
  else
    match hc_event call with
    | EventLine =>
        (Ok (if attached && line_yield then HookYield else HookContinue),
         {| hk_depth := hk_depth s; hk_instructions := hk_instructions s;
            hk_line := if attached then default (hk_line s) (hc_line call) else hk_line s;
            hk_frames := line_frames call (hk_frames s); hk_source_path := default (hk_source_path s) (hook_path call) |})
    | EventCall =>
        let next := Z.min (hk_depth s + 1) U64_MAX in
        let deeper frames := {| hk_depth := next; hk_instructions := hk_instructions s; hk_line := hk_line s; hk_frames := frames;
                                hk_source_path := hk_source_path s |} in
        if rl_max_recursion_depth limits <? next
        then (Err [PS "[lua-recursion-limit] call depth exceeds "; PZ (rl_max_recursion_depth limits)], deeper (hk_frames s))
        else
          (Ok HookContinue,
           deeper (if is_lua_source call
                   then (hk_frames s ++ [{| fr_name := default "<anonymous>" (hc_name call); fr_source_path := default "" (hook_path call);
                                            fr_line := default 1 (hc_line call) |}])%list
                   else hk_frames s))
    | EventRet =>
        (Ok HookContinue,
         {| hk_depth := Z.max (hk_depth s - 1) 0; hk_instructions := hk_instructions s; hk_line := hk_line s;
            hk_frames := if is_lua_source call then removelast (hk_frames s) else hk_frames s; hk_source_path := hk_source_path s |})
    | EventCount =>
        let next := Z.min (hk_instructions s + HOOK_INSTRUCTION_INTERVAL) U64_MAX in
        let counted := {| hk_depth := hk_depth s; hk_instructions := next; hk_line := hk_line s; hk_frames := hk_frames s;
                          hk_source_path := hk_source_path s |} in
        if rl_max_instructions limits <? next
        then (Err [PS "[lua-instruction-limit] execution exceeds "; PZ (rl_max_instructions limits); PS " instructions"], counted)
        else (Ok HookContinue, counted)
    | EventTailCall | EventUnknown => (Ok HookContinue, s)
    end.

(** ** Where an error is reported *)

(** An error of the interpreter with its text, and whether it is of memory or of syntax. *)
Inductive MluaError := MluaMemory (text : string) | MluaSyntax (text : string) | MluaOther (text : string).
Definition mlua_text (e : MluaError) : string := match e with MluaMemory t | MluaSyntax t | MluaOther t => t end.

Definition LUA_CODES : list string :=
  ["lua-instruction-limit"; "lua-wall-time-limit"; "lua-recursion-limit"; "lua-output-limit"; "lua-module-limit"; "lua-module-cycle";
   "lua-module-not-found"; "lua-module-ambiguous"; "lua-module-path"; "lua-source-limit"; "lua-source-encoding"; "lua-unsupported-api"].

(** The first code whose mark is in the text.
    Source: [crates/ic10-sim/src/lua.rs] [diagnostic_from_mlua] lines 1569-1599 *)
Definition mlua_code (e : MluaError) : string :=
  match find_first (λ code, str_contains ("[" +:+ (code +:+ "]")) (mlua_text e)) LUA_CODES with
  | Some code => code
  | None => match e with MluaMemory _ => "lua-memory-limit" | MluaSyntax _ => "lua-syntax-error" | MluaOther _ => "lua-runtime-error" end
  end.

(** [str::find] of a text: its first offset *)
Fixpoint str_find (p s : string) : option Z :=
  if starts_with p s then Some 0
  else match s with "" => None | String _ rest => Z.succ <$> str_find p rest end.

(** [Path::file_name] *)
Definition file_name (path : string) : option string :=
  match last (path_components path).2 with Some ".." | None => None | Some name => Some name end.

(** The prefix of long paths on Windows taken off. *)
Definition portable_text (displayed : string) : string :=
  default displayed (strip_prefix (BACKSLASH +:+ (BACKSLASH +:+ ("?" +:+ BACKSLASH))) displayed).

(** The offset and length of a match, its path, and the line after it. *)
Definition SourceMatch : Type := Z * Z * string * option Z.

(** Source: [crates/ic10-sim/src/lua.rs] [consider_source_match] *)
Definition consider_source_match (best : option SourceMatch) (text : string) (offset matched_length : Z) (path : string) : option SourceMatch :=
  let suffix := slice (Z.to_nat (offset + matched_length)) (String.length text) text in
  let line := strip_prefix ":" suffix ≫= λ suffix, head (split_char (byte 58) suffix) ≫= parse_usize in
  match best with
  | Some (best_offset, best_length, _, _) =>
      if (offset <? best_offset) || ((offset =? best_offset) && (best_length <? matched_length))
      then Some (offset, matched_length, path, line) else best
  | None => Some (offset, matched_length, path, line)
  end.

Definition consider_text (text : string) (path : string) (best : option SourceMatch) (candidate : string) : option SourceMatch :=
  match str_find candidate text with Some offset => consider_source_match best text offset (slen candidate) path | None => best end.

(** The path the text names first, and the longest of those at one place; a name alone
    counts when no other path has it.
    Source: [crates/ic10-sim/src/lua.rs] [source_location] *)
Definition source_location (text entry_path : string) (loaded_paths : list string) : string * option Z :=
  let paths := (rev loaded_paths ++ [entry_path])%list in
  let best := foldl (λ best path,
    let best := foldl (consider_text text path) best [path; portable_text path] in
    match file_name path with
    | None => best
    | Some name =>
        if Nat.eqb (length (List.filter (λ p, bool_decide (file_name p = Some name)) paths)) 1
        then consider_text text path best name else best
    end) None paths in
  match best with Some (_, _, path, line) => (path, line) | None => (entry_path, None) end.

(** Source: [crates/ic10-sim/src/lua.rs] [diagnostic_from_mlua] *)
Definition diagnostic_from_mlua (e : MluaError) (entry_path : string) (loaded_paths : list string) : LuaDiagnostic :=
  let '(path, line) := source_location (mlua_text e) entry_path loaded_paths in
  {| lg_code := mlua_code e; lg_message := [PS (mlua_text e)]; lg_source_path := path; lg_line := line |}.

(** Source: [crates/ic10-sim/src/lua.rs] [lua_chunk_name] *)
Definition lua_chunk_name (path : string) : string := "@" +:+ portable_text path.

(** [Display] of a diagnostic.
    Source: [crates/ic10-sim/src/lua.rs] [LuaDiagnostic::fmt] lines 79-88 *)
Definition diagnostic_text (e : LuaDiagnostic) : message :=
  ([PS (lg_code e); PS ": "; PS (lg_source_path e)]
   ++ match lg_line e with Some line => [PS ":"; PZ line] | None => [] end ++ [PS ": "] ++ lg_message e)%list.

(** A source is compiled and not run; [compile_chunk] is the interpreter's, with the name
    of the chunk and its source.
    Source: [crates/ic10-sim/src/lua.rs] [check_syntax] *)
Definition check_syntax `{FileSystem} (utf8_error : string → string) (compile_chunk : string → string → option MluaError)
    (entry_path : string) (limits : LuaRunLimits) : outcome LuaDiagnostic () :=
  _ ← validate_limits entry_path limits;
  entry_path ← canonical_file entry_path "lua-entry-not-found";
  source ← read_source utf8_error entry_path (rl_max_source_bytes limits);
  match compile_chunk (lua_chunk_name entry_path) source with
  | None => Ok ()
  | Some e => Err (diagnostic_from_mlua e entry_path [])
  end.

(** The names a program may not use.
    Source: [crates/ic10-sim/src/lua.rs] [install_denied_apis] lines 1107-1124 *)
Definition DENIED_TABLES : list string := ["io"; "os"; "debug"; "package"; "ic"; "device"].
Definition DENIED_FUNCTIONS : list string :=
  ["dofile"; "loadfile"; "load"; "loadstring"; "collectgarbage"; "pcall"; "xpcall"; "yield"; "sleep"; "math.random"; "math.randomseed"].

(** The error of a denied name: an entry of a denied table, or a denied function.
    Source: [crates/ic10-sim/src/lua.rs] [install_denied_apis] *)
Definition denied_access (namespace key : string) : option message :=
  if existsb (String.eqb namespace) DENIED_TABLES
  then Some [PS "[lua-unsupported-api] `"; PS namespace; PS "."; PS key; PS "` is unavailable in profile `"; PS LUA_PROFILE_ID; PS "`"]
  else None.
Definition denied_call (name : string) : option message :=
  if existsb (String.eqb name) DENIED_FUNCTIONS
  then Some [PS "[lua-unsupported-api] `"; PS name; PS "` is unavailable in profile `"; PS LUA_PROFILE_ID; PS "`"]
  else None.

(** ** Host functions *)

Section host.
Variables (kb : KnowledgeBase) (pins : BTreeMap string string) (housing : option nat).

(** [str::parse::<i32>] *)
Definition parse_i32 (s : string) : option Z := in_range (- 2 ^ 31) (2 ^ 31 - 1) (i64_from_str_radix 10 s).

(** A device by its identifier, or by its reference.
    Source: [crates/ic10-sim/src/lua.rs] [LuaHostMock::device] *)
Definition host_device (name : string) : FX nat :=
  w ← gets fx_world;
  lift (ok_or (option_or (device_index name w) (parse_i32 name ≫= λ id, device_by_reference id w))
          [PS "[lua-missing-device] device `"; PS name; PS "` was not found"]).

(** Source: [crates/ic10-sim/src/lua.rs] [LuaHostMock::field] *)
Definition host_field (device : nat) (field : string) : FX f64 := read_field kb ActorScenario device None field.

(** Source: [crates/ic10-sim/src/lua.rs] [LuaHostMock::set_field] *)
Definition host_set_field (device : nat) (field : string) (value : f64) : FX () := write_field kb ActorScenario device None field value.

(** Source: [crates/ic10-sim/src/lua.rs] [LuaHostMock::pin_device] *)
Definition pin_device (pin : string) : FX nat :=
  name ← lift (ok_or (bt_get pin pins) [PS "[lua-invalid-pin] pin `"; PS pin; PS "` is not configured"]);
  host_device name.

(** Source: [crates/ic10-sim/src/lua.rs] [LuaHostMock::indexed_device] *)
Definition indexed_device (index : Z) : FX nat :=
  if index =? -1 then lift (ok_or housing [PS "[lua-invalid-device-index] base unit is unavailable"])
  else if negb ((0 <=? index) && (index <=? 31)) then throw [PS "[lua-invalid-device-index] device index "; PZ index; PS " is invalid"]
  else pin_device ("d" +:+ show index).

(** [device.get(name):get(field)] and [:set(field, value)]: the name is looked up again.
    Source: [crates/ic10-sim/src/lua.rs] [install_device] lines 230-254 *)
Definition device_get (name field : string) : FX f64 := device ← host_device name; host_field device field.
Definition device_set (name field : string) (value : f64) : FX () := device ← host_device name; host_set_field device field value.

(** [device.get(name):slot(slot)]: the device is looked up once.
    Source: [crates/ic10-sim/src/lua.rs] [install_device] lines 257-266 *)
Definition slot_get (device : nat) (slot : Z) (field : string) : FX f64 :=
  d ← get_device device;
  lift (ok_or (bt_get slot (slots d) ≫= bt_get field)
          [PS "[lua-invalid-slot] device `"; PS (dev_id d); PS "` slot "; PZ slot; PS " does not expose `"; PS field; PS "`"]).

Definition alter_host_device (f : Device → Device) (device : nat) : FX () :=
  modify (λ x, fx_set_world (alter_device f device (fx_world x)) x).

(** Source: [crates/ic10-sim/src/lua.rs] [install_device] lines 267-275 *)
Definition slot_set (device : nat) (slot : Z) (field : string) (value : f64) : FX () :=
  d ← get_device device;
  values ← lift (ok_or (bt_get slot (slots d)) [PS "[lua-invalid-slot] slot "; PZ slot; PS " is unavailable"]);
  if negb (bt_contains_key field values)
  then throw [PS "[lua-invalid-slot] slot "; PZ slot; PS " does not expose `"; PS field; PS "`"]
  else alter_host_device (λ d, set_slots (bt_insert slot (bt_insert field value values) (slots d)) d) device.

(** Source: [crates/ic10-sim/src/lua.rs] [install_device] lines 278-295 *)
Definition memory_get (name : string) (address : Z) : FX f64 :=
  device ← host_device name;
  d ← get_device device;
  lift (ok_or (memory d !! Z.to_nat address)
          [PS "[lua-invalid-memory] device memory address "; PZ address; PS " is unavailable"]).

(** Source: [crates/ic10-sim/src/lua.rs] [install_device] lines 296-313 *)
Definition memory_set (name : string) (address : Z) (value : f64) : FX () :=
  device ← host_device name;
  d ← get_device device;
  _ ← lift (ok_or (memory d !! Z.to_nat address)
              [PS "[lua-invalid-memory] device memory address "; PZ address; PS " is unavailable"]);
  alter_host_device (λ d, set_memory (<[Z.to_nat address := value]> (memory d)) d) device.

(** [device.getReferenceId(name)]
    Source: [crates/ic10-sim/src/lua.rs] [install] lines 326-333 *)
Definition get_reference_id (name : string) : FX Z := device ← host_device name; d ← get_device device; mret (reference_id d).

Definition logic_channel (logic_type : Z) : outcome message string :=
  if negb ((1000 <=? logic_type) && (logic_type <=? 1007))
  then Err [PS "[lua-invalid-logic-type] logic type "; PZ logic_type; PS " is unsupported"]
  else Ok ("Channel" +:+ show (logic_type - 1000)).

(** [ic.read]
    Source: [crates/ic10-sim/src/lua.rs] [install] lines 346-371 *)
Definition ic_read (device_index logic_type network_index : Z) : FX f64 :=
  channel ← lift (logic_channel logic_type);
  device ← indexed_device device_index;
  read_field kb ActorScenario device (Some network_index) channel.

(** [ic.write]
    Source: [crates/ic10-sim/src/lua.rs] [install] lines 373-400 *)
Definition ic_write (device_index logic_type network_index : Z) (value : f64) : FX () :=
  channel ← lift (logic_channel logic_type);
  device ← indexed_device device_index;
  write_field kb ActorScenario device (Some network_index) channel value.

(** [ic.get] and [ic.set]
    Source: [crates/ic10-sim/src/lua.rs] [install] lines 402-423 *)
Definition ic_get (pin field : string) : FX f64 := device ← pin_device pin; host_field device field.
Definition ic_set (pin field : string) (value : f64) : FX () := device ← pin_device pin; host_set_field device field value.

(** A call of a program on its host. *)
Inductive HostCall :=
  | CallDeviceGet (name field : string)
  | CallDeviceSet (name field : string) (value : f64)
  | CallSlotGet (name : string) (slot : Z) (field : string)
  | CallSlotSet (name : string) (slot : Z) (field : string) (value : f64)
  | CallMemoryGet (name : string) (address : Z)
  | CallMemorySet (name : string) (address : Z) (value : f64)
  | CallReferenceId (name : string)
  | CallIcRead (device_index logic_type network_index : Z)
  | CallIcWrite (device_index logic_type network_index : Z) (value : f64)
  | CallIcGet (pin field : string)
  | CallIcSet (pin field : string) (value : f64).

(** The number a call gives, when it gives one.
    Source: [crates/ic10-sim/src/lua.rs] [install] *)
Definition host_call (call : HostCall) : FX (option f64) :=
  match call with
  | CallDeviceGet name field => value ← device_get name field; mret (Some value)
  | CallDeviceSet name field value => _ ← device_set name field value; mret None
  | CallSlotGet name slot field => device ← host_device name; value ← slot_get device slot field; mret (Some value)
  | CallSlotSet name slot field value => device ← host_device name; _ ← slot_set device slot field value; mret None
  | CallMemoryGet name address => value ← memory_get name address; mret (Some value)
  | CallMemorySet name address value => _ ← memory_set name address value; mret None
  | CallReferenceId name => id ← get_reference_id name; mret (Some (f_of_Z id))
  | CallIcRead device_index logic_type network_index => value ← ic_read device_index logic_type network_index; mret (Some value)
  | CallIcWrite device_index logic_type network_index value => _ ← ic_write device_index logic_type network_index value; mret None
  | CallIcGet pin field => value ← ic_get pin field; mret (Some value)
  | CallIcSet pin field value => _ ← ic_set pin field value; mret None
  end.
End host.
