(* ===== verification/LuaSandboxFacts.v ===== *)
(** * A Lua program stays in its sandbox

    Proofs about [LuaSandbox]: what a run reads lies in its roots, it loads no more modules
    and bytes than its limits allow and always ends, and the calls of a program on its host
    keep the world well formed. *)

From S2P Require Import Prelude BTree Text F64 Knowledge Literals Journal World Program Cpu Exec Isa Frame Vm Schema Protocol LuaSandbox.
Local Open Scope string_scope.
Local Open Scope Z_scope.

(** ** Modules are found inside their roots *)

Lemma fold_outcome_invariant {E A B} (P : A → Prop) (step : A → B → outcome E A) l acc acc' :
  (∀ a b a', b ∈ l → P a → step a b = Ok a' → P a') → P acc → fold_outcome step acc l = Ok acc' → P acc'.
Proof.
  revert acc. induction l as [|b l IH]; intros acc Hstep Hacc; cbn [fold_outcome]; [by intros [= <-]|].
  destruct (step acc b) as [a| |] eqn:Hb; [|done..]. cbn [mbind outcome_mbind outcome_bind]. apply IH.
  - intros a1 b1 a2 Hb1. apply Hstep. by right.
  - eapply Hstep; [left|exact Hacc|exact Hb].
Qed.

Section sandbox.
Context `{FileSystem} (utf8_error : string → string) {V G : Type} (lua_true : V) (load_chunk : string → string → G → Chunk (V:=V) (G:=G)).

(** A path inside one of the roots. *)
Definition inside (roots : list string) (path : string) : Prop := ∃ root, root ∈ roots ∧ path_starts_with path root = true.

Lemma resolve_module_inside roots name path : resolve_module roots name = Ok path → inside roots path.
Proof.
  unfold resolve_module. destruct (fold_outcome _ [] roots) as [matches| |] eqn:Hf; [|done..]. cbn [mbind outcome_mbind outcome_bind].
  assert (Forall (inside roots) matches) as Hall.
  { eapply (fold_outcome_invariant (Forall (inside roots))); [|by constructor|exact Hf].
    intros a root a' Hroot Ha. apply (fold_outcome_invariant (Forall (inside roots))); [|done].
    intros m candidate m' _ Hm. unfold add_match. destruct (is_file candidate); [|by intros [= <-]]. cbn [negb].
    destruct (canonicalize candidate) as [e|p]; [done|]. destruct (path_starts_with p root) eqn:Hp; [|done]. cbn [negb].
    intros [= <-]. destruct (existsb _ m); [done|]. apply Forall_app. split; [done|]. apply Forall_singleton. by exists root. }
  destruct matches as [|p [|? ?]]; [done| |done]. intros [= <-]. by inversion Hall.
Qed.

(** ** What the loader keeps *)

Record loader_ok (l : Loader (V:=V) (G:=G)) : Prop := {
  lk_inside : Forall (inside (mr_roots (lo_resolver l))) (mr_loaded_paths (lo_resolver l));
  lk_distinct : NoDup (mr_loaded_paths (lo_resolver l));
  lk_modules : Z.of_nat (length (mr_loaded_paths (lo_resolver l))) ≤ mr_max_modules (lo_resolver l);
  lk_bytes : 0 ≤ mr_source_bytes (lo_resolver l) ≤ mr_max_source_bytes (lo_resolver l) ∧ mr_max_source_bytes (lo_resolver l) < U64_MAX;
}.

(** A later state of the loader: the same roots and limits, and no fewer bytes. *)
Definition loads (l l' : Loader (V:=V) (G:=G)) : Prop :=
  loader_ok l →
  loader_ok l' ∧ mr_roots (lo_resolver l') = mr_roots (lo_resolver l) ∧ mr_max_modules (lo_resolver l') = mr_max_modules (lo_resolver l)
  ∧ mr_max_source_bytes (lo_resolver l') = mr_max_source_bytes (lo_resolver l)
  ∧ mr_source_bytes (lo_resolver l) ≤ mr_source_bytes (lo_resolver l').

#[export] Instance loads_preorder : PreOrder loads.
Proof.
  split.
  - intros l Hl. split_and!; [done..|lia].
  - intros a b c Hab Hbc Ha. destruct (Hab Ha) as (Hb & R1 & M1 & S1 & B1). destruct (Hbc Hb) as (Hc & R2 & M2 & S2 & B2).
    split_and!; [done|congruence..|lia].
Qed.

Abbreviation LX := (M (Loader (V:=V) (G:=G)) message).

Lemma loads_same_resolver (f : Loader → Loader) : (∀ l, lo_resolver (f l) = lo_resolver l) → keeps (E:=message) loads (modify f).
Proof. intros Hf. apply keeps_modify. intros l [? ? ? ?]. rewrite Hf. split_and!; [constructor; by rewrite Hf|done..]. Qed.

Lemma loads_end name : keeps (E:=message) loads (end_module name).
Proof. apply keeps_modify. intros l [? ? ? ?]. by split_and!. Qed.

Lemma loads_begin name : keeps loads (begin_module name).
Proof.
  intros l. unfold begin_module. unfold mbind, M_mbind. cbn [gets]. destruct (existsb _ (mr_loading _)); [done|]. unfold lift.
  destruct (resolve_module _ _) as [path|e|] eqn:Hr; [|done..]. apply resolve_module_inside in Hr.
  destruct (existsb (String.eqb path) (mr_loaded_paths (lo_resolver l))) eqn:Hknown; cbn [negb andb].
  - cbn [modify mret M_mret]. intros [? ? ? ?]. by split_and!.
  - destruct (_ <=? _) eqn:Hmax; [done|]. cbn [modify mret M_mret]. intros [? ? ? ?]. split_and!; try done. constructor; simpl; try done.
    + apply Forall_app. split; [done|]. by apply Forall_singleton.
    + apply NoDup_app. split_and!; [done| |apply NoDup_singleton]. intros p Hp Hin. apply list_elem_of_singleton in Hin as ->.
      assert (existsb (String.eqb path) (mr_loaded_paths (lo_resolver l)) = true) as He; [|congruence].
      apply existsb_exists. exists path. rewrite String.eqb_refl. by apply list_elem_of_In in Hp.
    + rewrite length_app. simpl. lia.
Qed.
Lemma loads_source path : keeps loads (module_source utf8_error path).
Proof.
  intros l. unfold module_source, read_module_source. destruct (fs_read path) as [e|bytes]; [by destruct l as [[] ? ?]|].
  destruct (_ || _) eqn:Hlimit; [by destruct l as [[] ? ?]|]. apply orb_false_iff in Hlimit as [Hb Ha]. cbn [snd].
  intros [? ? ? [[? ?] ?]]. assert (0 ≤ slen bytes) by (unfold slen; lia). split_and!; simpl; try done.
  - constructor; simpl; try done. lia.
  - lia.
Qed.

Lemma loads_drive req chunk : (∀ name, keeps loads (req name)) → keeps loads (drive req chunk).
Proof.
  intros Hreq. induction chunk as [value g|text g|name g resume IH]; cbn [drive].
  - apply keeps_bind; [typeclasses eauto|by apply loads_same_resolver|done].
  - apply keeps_bind; [typeclasses eauto|by apply loads_same_resolver|done].
  - apply keeps_bind; [typeclasses eauto|by apply loads_same_resolver|intros _]. apply keeps_bind; [typeclasses eauto|done|intros [value|]]; [|done].
    intros l. apply IH.
Qed.

Lemma loads_finally {A} (m : LX A) name : keeps loads m → keeps loads (finally m (end_module name)).
Proof.
  intros Hm l. specialize (Hm l). unfold finally. pose proof (loads_end name) as He.
  destruct (m l) as [[a|e|] l1]; [| |done]; (etransitivity; [exact Hm|]); specialize (He l1); unfold mbind, M_mbind;
    by destruct (end_module name l1) as [[[]|?|] l2].
Qed.

Lemma loads_require fuel name : keeps loads (require utf8_error lua_true load_chunk fuel name).
Proof.
  revert name. induction fuel as [|fuel IH]; intros name; cbn [require]; [done|].
  apply keeps_bind; [typeclasses eauto|done|intros _]. apply keeps_bind; [typeclasses eauto|done|intros loaded].
  destruct (bt_get name loaded) as [value|]; [done|]. apply keeps_bind; [typeclasses eauto|apply loads_begin|intros path].
  apply keeps_bind; [typeclasses eauto| |intros [value|]]; [|by apply keeps_bind; [typeclasses eauto|by apply loads_same_resolver|done]|done].
  apply loads_finally. apply keeps_bind; [typeclasses eauto|apply loads_source|intros source]. intros l. by apply loads_drive.
Qed.

(** ** Every run ends *)

Context (Hempty : ∀ path g, load_chunk path "" g = ChunkReturn None g).

(** With so many bytes used, a computation has the fuel it needs. *)
Definition fuelled (limit bytes : Z) {A} (m : LX (option A)) : Prop :=
  ∀ l, loader_ok l → mr_max_source_bytes (lo_resolver l) = limit → bytes ≤ mr_source_bytes (lo_resolver l) → (m l).1 ≠ Ok None.

Lemma fuelled_drive limit bytes req chunk :
  (∀ name, keeps loads (req name)) → (∀ name, fuelled limit bytes (req name)) → fuelled limit bytes (drive req chunk).
Proof.
  intros Hk Hreq. induction chunk as [value g|text g|name g resume IH]; cbn [drive]; intros l Hl Hlimit Hbytes; [done..|].
  rewrite bind_modify. specialize (Hk name (set_lo_state g l)). specialize (Hreq name (set_lo_state g l)).
  assert (loader_ok (set_lo_state g l)) as Hl' by (by destruct Hl; constructor).
  specialize (Hreq Hl' Hlimit Hbytes). unfold mbind, M_mbind. destruct (req name _) as [[[value|]|e|] l1]; [|done..].
  destruct (Hk Hl') as (Hl1 & _ & _ & Hs & Hb). apply IH; [done|simpl in *; congruence|simpl in *; lia].
Qed.

Lemma fuelled_require limit bytes fuel name :
  (Z.to_nat (limit - bytes) < fuel)%nat → fuelled limit bytes (require utf8_error lua_true load_chunk fuel name).
Proof using Type Hempty.
  revert bytes name. induction fuel as [|fuel IH]; intros bytes name Hfuel; [lia|]. intros l Hl Hlimit Hbytes. cbn [require].
  unfold mbind at 1, M_mbind at 1, lift. destruct (validate_module_name name); [|done..]. rewrite bind_gets.
  destruct (bt_get name _); [done|]. pose proof (loads_begin name l Hl) as Hb. unfold mbind at 1, M_mbind at 1.
  destruct (begin_module name l) as [[path|e|] l1]; [|done..]. destruct Hb as (Hl1 & _ & _ & Hs1 & Hb1). cbn [snd] in *.
  unfold mbind at 1, M_mbind at 1.
  assert (∀ r l2, finally (source ← module_source utf8_error path;
      on_state (λ g, drive (require utf8_error lua_true load_chunk fuel) (load_chunk path source g))) (end_module name) l1 = (r, l2) → r ≠ Ok None) as Hfin.
  { intros r l2. unfold finally, mbind at 1, M_mbind at 1. pose proof (loads_source path l1 Hl1) as Hsrc.
    destruct (module_source utf8_error path l1) as [[source|e|] l3] eqn:Hm; [|by intros [= <- _]|by intros [= <- _]].
    destruct Hsrc as (Hl3 & _ & _ & Hs3 & Hb3). cbn [snd] in *.
    assert ((on_state (λ g, drive (require utf8_error lua_true load_chunk fuel) (load_chunk path source g)) l3).1 ≠ Ok None) as Hd.
    { unfold on_state. destruct (decide (source = "")) as [->|Hne]; [rewrite Hempty; done|].
      assert (mr_source_bytes (lo_resolver l1) + 1 ≤ mr_source_bytes (lo_resolver l3)) as Hmore.
      { unfold module_source, read_module_source in Hm. destruct (fs_read path) as [|text]; [done|]. destruct (_ || _) eqn:Hov; [done|].
        apply orb_false_iff in Hov as [_ Hov%Z.ltb_ge]. destruct (is_utf8 text); [|done]. injection Hm as -> <-. simpl.
        assert (0 < slen source) by (unfold slen; destruct source; [done|simpl; lia]). destruct Hl1 as [_ _ _ [[? ?] ?]]. lia. }
      apply (fuelled_drive limit (bytes + 1)); [intros name'; apply loads_require| |done|congruence|lia].
      intros name'. apply IH. destruct Hl3 as [_ _ _ [[? ?] ?]]. lia. }
    destruct (on_state _ l3) as [[[value|]|e|] l4]; [by intros [= <- _]|done|by intros [= <- _]|by intros [= <- _]]. }
  destruct (finally _ _ l1) as [[[value|]|e|] l2]; [done|by specialize (Hfin _ _ eq_refl)|done..].
Qed.

(** ** What is read lies in the roots *)

(** The same files with other contents. *)
Definition reading (read' : string → string + string) : FileSystem :=
  {| canonicalize := canonicalize; is_file := is_file; is_dir := is_dir; fs_read := read' |}.

Context (read' : string → string + string) (roots : list string).
Context (Hsame : ∀ path, inside roots path → read' path = fs_read path).

(** Two computations that agree while the roots are these. *)
Definition agree {A} (m m' : LX A) : Prop := ∀ l, loader_ok l → mr_roots (lo_resolver l) = roots → m' l = m l.

Lemma agree_drive req req' chunk :
  (∀ name, keeps loads (req name)) → (∀ name, agree (req name) (req' name)) → agree (drive req chunk) (drive req' chunk).
Proof using Type.
  intros Hk Hreq. induction chunk as [value g|text g|name g resume IH]; cbn [drive]; intros l Hl Hroots; [done..|].
  rewrite !bind_modify. specialize (Hk name (set_lo_state g l)). specialize (Hreq name (set_lo_state g l)).
  assert (loader_ok (set_lo_state g l)) as Hl' by (by destruct Hl; constructor).
  specialize (Hreq Hl' Hroots). unfold mbind, M_mbind. rewrite Hreq. destruct (req name _) as [[[value|]|e|] l1]; [|done..].
  destruct (Hk Hl') as (Hl1 & Hr & _). apply IH; [done|]. simpl in *. congruence.
Qed.

Lemma begin_module_path name (l : Loader (V:=V) (G:=G)) path l1 :
  begin_module name l = (Ok path, l1) → inside (mr_roots (lo_resolver l)) path.
Proof using Type.
  unfold begin_module. unfold mbind, M_mbind. cbn [gets]. destruct (existsb _ (mr_loading _)); [done|]. unfold lift.
  destruct (resolve_module _ _) as [p|e|] eqn:Hr; [|done..]. apply resolve_module_inside in Hr.
  destruct (negb _ && _); [done|]. by intros [= <- _].
Qed.

Lemma agree_require fuel name :
  agree (require utf8_error lua_true load_chunk fuel name) (@require (reading read') utf8_error V G lua_true load_chunk fuel name).
Proof using Type Hsame.
  revert name. induction fuel as [|fuel IH]; intros name l Hl Hroots; [done|]. cbn [require].
  destruct (validate_module_name name) as [[]|e|]; [rewrite !bind_lift_Ok|reflexivity..]. rewrite !bind_gets.
  destruct (bt_get name _); [reflexivity|]. pose proof (loads_begin name l Hl) as Hb.
  change (@begin_module (reading read') V G name) with (@begin_module _ V G name).
  destruct (begin_module name l) as [[path|e|] l1] eqn:Hbegin; [|unfold mbind, M_mbind; by rewrite Hbegin..].
  rewrite !(bind_run _ _ l path l1) by exact Hbegin. apply begin_module_path in Hbegin. rewrite Hroots in Hbegin.
  destruct Hb as (Hl1 & Hr1 & _). cbn [snd] in *.
  assert (finally (source ← @module_source (reading read') utf8_error V G path;
      on_state (λ g, drive (@require (reading read') utf8_error V G lua_true load_chunk fuel) (load_chunk path source g))) (end_module name) l1
    = finally (source ← module_source utf8_error path;
      on_state (λ g, drive (require utf8_error lua_true load_chunk fuel) (load_chunk path source g))) (end_module name) l1) as Hfin.
  { unfold finally, mbind, M_mbind.
    assert (@module_source (reading read') utf8_error V G path l1 = module_source utf8_error path l1) as ->.
    { unfold module_source, read_module_source. cbn [fs_read reading]. by rewrite Hsame. }
    pose proof (loads_source path l1 Hl1) as Hsrc. destruct (module_source utf8_error path l1) as [[source|e|] l3]; [|done..].
    destruct Hsrc as (Hl3 & Hr3 & _). cbn [snd] in *. unfold on_state.
    rewrite (agree_drive _ _ _ (λ name', loads_require fuel name') IH l3 Hl3); [done|congruence]. }
  unfold mbind, M_mbind in *. by rewrite Hfin.
Qed.
End sandbox.

(** ** A whole run *)

Section run.
Context `{FileSystem} (utf8_error : string → string) {V G : Type} (lua_true : V) (load_chunk : string → string → G → Chunk (V:=V) (G:=G)).
Context (parent : string → option string) (entry_path : string) (module_roots : list string).

(** The roots of a run: the directory of its entry, and the ones it is given, resolved. *)
Definition root_of_run (root : string) : Prop :=
  (∃ entry, canonicalize entry_path = inr entry ∧ parent entry = Some root) ∨ ∃ given, given ∈ module_roots ∧ canonicalize given = inr root.

(** What a run may read: its entry, and what lies in its roots. *)
Definition readable (path : string) : Prop :=
  canonicalize entry_path = inr path ∨ ∃ root, root_of_run root ∧ path_starts_with path root = true.

Lemma roots_of_run entry roots :
  canonicalize entry_path = inr entry →
  fold_outcome (add_root "module root") (match parent entry with Some p => [p] | None => [] end) module_roots = Ok roots →
  Forall root_of_run roots.
Proof.
  intros He. apply (fold_outcome_invariant (Forall root_of_run)).
  - intros rs given rs' Hin Hrs. unfold add_root. destruct (canonicalize given) as [e|root] eqn:Hroot; [done|].
    destruct (negb (is_dir root)); [done|]. intros [= <-]. destruct (existsb _ rs); [done|]. apply Forall_app. split; [done|].
    apply Forall_singleton. right. by exists given.
  - destruct (parent entry) as [p|] eqn:Hp; [|constructor]. apply Forall_singleton. left. by exists entry.
Qed.

Lemma canonical_file_run code canonical : canonical_file entry_path code = Ok canonical → canonicalize entry_path = inr canonical.
Proof. unfold canonical_file. destruct (canonicalize entry_path) as [e|c]; [done|]. destruct (is_file c); [|done]. by intros [= <-]. Qed.

Lemma read_source_run path limit source : read_source utf8_error path limit = Ok source → slen source ≤ limit.
Proof.
  unfold read_source. destruct (fs_read path) as [e|bytes]; [done|]. destruct (Z.ltb_spec limit (slen bytes)); [done|].
  destruct (is_utf8 bytes); [|done]. by intros [= <-].
Qed.

(** The loader a run begins with. *)
Definition first_loader (roots : list string) (limits : LuaRunLimits) (source : string) (g : G) : Loader (V:=V) (G:=G) :=
  {| lo_resolver := {| mr_roots := roots; mr_loading := []; mr_loaded_paths := []; mr_source_bytes := slen source;
                       mr_max_modules := rl_max_modules limits; mr_max_source_bytes := rl_max_source_bytes limits |};
     lo_loaded := []; lo_state := g |}.

Lemma first_loader_ok roots limits source g :
  validate_limits entry_path limits = Ok () → 0 ≤ rl_max_modules limits → slen source ≤ rl_max_source_bytes limits →
  loader_ok (first_loader roots limits source g).
Proof.
  intros Hv Hm Hs. unfold validate_limits in Hv. destruct (_ || _); [done|]. destruct (_ || _) eqn:Hceil; [done|].
  repeat (apply orb_false_iff in Hceil as [Hceil ?]). constructor; simpl; [done|constructor|done|].
  assert (0 ≤ slen source) by (unfold slen; lia). unfold LUA_MAX_SOURCE_BYTES, U64_MAX in *. lia.
Qed.

Lemma loaded_inside roots limits (l : Loader (V:=V) (G:=G)) paths :
  Forall root_of_run roots → loader_ok l → mr_roots (lo_resolver l) = roots →
  mr_max_modules (lo_resolver l) = rl_max_modules limits → paths = mr_loaded_paths (lo_resolver l) →
  NoDup paths ∧ Z.of_nat (length paths) ≤ rl_max_modules limits ∧ Forall (λ p, ∃ root, root_of_run root ∧ path_starts_with p root = true) paths.
Proof.
  intros Hroots [Hin Hnd Hlen _] Hr Hm ->. split_and!; [done|lia|]. eapply Forall_impl; [exact Hin|].
  intros p (root & Hroot & Hp). exists root. split; [|done]. rewrite Hr in Hroot. by eapply Forall_forall in Hroots.
Qed.

(** C10.  Whatever its sources require of each other, a run of Lua modules ends when each
    chunk on its own does (the hook that stops a chunk counts its instructions apart); it reads nothing but its entry
    and what lies in the entry's directory or in the roots it is given (with any other
    contents elsewhere the run is the same one); and the modules it loads are distinct,
    no more than its limit, and each of them lies in one of these roots. *)
Theorem module_run_confined read' limits g diagnose :
  0 ≤ rl_max_modules limits → (∀ path g, load_chunk path "" g = ChunkReturn None g) →
  (∀ path, readable path → read' path = fs_read path) →
  let run := run_modules utf8_error lua_true load_chunk parent entry_path module_roots limits g diagnose in
  run ≠ Ok None
  ∧ @run_modules (reading read') utf8_error V G lua_true load_chunk parent entry_path module_roots limits g diagnose = run
  ∧ ∀ paths, run = Ok (Some paths) →
      NoDup paths ∧ Z.of_nat (length paths) ≤ rl_max_modules limits
      ∧ Forall (λ p, ∃ root, root_of_run root ∧ path_starts_with p root = true) paths.
Proof.
  intros Hmax Hempty Hread run. subst run. unfold run_modules.
  change (@canonical_file (reading read')) with (@canonical_file _). change (@add_root (reading read')) with (@add_root _).
  destruct (validate_limits entry_path limits) as [[]| |] eqn:Hv; [|done..].
  destruct (canonical_file entry_path _) as [entry| |] eqn:Hc; [|done..]. apply canonical_file_run in Hc.
  cbn [mbind outcome_mbind outcome_bind].
  destruct (fold_outcome (add_root "module root") _ module_roots) as [roots| |] eqn:Hr; [|done..]. apply (roots_of_run _ _ Hc) in Hr.
  assert (@read_source (reading read') utf8_error entry (rl_max_source_bytes limits) = read_source utf8_error entry (rl_max_source_bytes limits)) as Heq.
  { unfold read_source. cbn [fs_read reading]. rewrite Hread; [done|by left]. }
  cbn [mbind outcome_mbind outcome_bind]. rewrite Heq. clear Heq.
  destruct (read_source utf8_error entry _) as [source| |] eqn:Hs; [|done..]. apply read_source_run in Hs.
  cbn [mbind outcome_mbind outcome_bind]. cbv zeta. fold (first_loader roots limits source g).
  pose proof (first_loader_ok roots limits source g Hv Hmax Hs) as Hok.
  assert (∀ path, inside roots path → read' path = fs_read path) as Hsame.
  { intros path (root & Hroot & Hp). apply Hread. right. exists root. split; [|done]. by eapply Forall_forall in Hr. }
  set (fuel := module_fuel _). pose proof (λ name, loads_require utf8_error lua_true load_chunk fuel name) as Hk.
  rewrite (agree_drive roots _ _ _ Hk (agree_require utf8_error lua_true load_chunk read' roots Hsame fuel) _ Hok eq_refl).
  assert (∀ name, fuelled (rl_max_source_bytes limits) 0 (require utf8_error lua_true load_chunk fuel name)) as Hf.
  { intros name. apply fuelled_require; [done|]. unfold fuel, module_fuel. lia. }
  assert (0 ≤ mr_source_bytes (lo_resolver (first_loader roots limits source g))) as H0 by (simpl; unfold slen; lia).
  pose proof (fuelled_drive _ _ _ (load_chunk entry source g) Hk Hf _ Hok eq_refl H0) as Hend.
  pose proof (loads_drive _ (load_chunk entry source g) Hk _ Hok) as Hl.
  destruct (drive _ _ _) as [[[value|]|e|] l]; cbn [fst snd] in *; [|done|done|done].
  destruct Hl as (Hl & Hr1 & Hm1 & _). split_and!; [done..|]. intros paths [= <-]. by eapply loaded_inside.
Qed.
End run.

(** ** Host calls *)

Section calls.
Context (kb : KnowledgeBase) (pins : BTreeMap string string) (housing : option nat) (sizes : list nat) (nn : nat).
Context (Hhousing : ∀ d, housing = Some d → (d < length sizes)%nat).
Local Abbreviation ok := (fx_shape sizes nn).
Local Abbreviation device_ok := (λ d, d < length sizes)%nat.

Lemma safe_host_device name : safe ok (host_device name) device_ok.
Proof using Type.
  unfold host_device. intros x Hx. rewrite bind_gets. unfold lift, option_or.
  destruct (device_index name (fx_world x)) as [i|] eqn:Hi; simpl.
  - split; [done|]. destruct Hx as (Hl & _ & Hok). apply (ok_device_ids _ Hok) in Hi as (d & Hd%lookup_lt_Some & _).
    by rewrite <-length_memory_sizes, Hl in Hd.
  - destruct (parse_i32 name) as [id|]; simpl; [|done]. destruct (device_by_reference id _) as [i|] eqn:Hr; simpl; [|done].
    split; [done|]. by eapply device_by_reference_lt.
Qed.

Lemma safe_pin_device pin : safe ok (pin_device pins pin) device_ok.
Proof using Type. eapply safe_bind; [apply safe_lift_any|intros name _; apply safe_host_device]. Qed.

Lemma safe_indexed_device index : safe ok (indexed_device pins housing index) device_ok.
Proof using Hhousing.
  unfold indexed_device. destruct (_ =? _); [by apply safe_lift_ok_or|]. destruct (negb _); [apply safe_throw|apply safe_pin_device].
Qed.

Lemma safe_alter_host_device f d : same_identity f → safe ok (alter_host_device f d) any.
Proof using Type. intros Hf. apply (safe_modify_world _ _ (alter_device f d)). intros w. by apply world_shape_alter_device. Qed.

Lemma safe_memory_set name address v : safe ok (memory_set name address v) any.
Proof using Type.
  eapply safe_bind; [apply safe_host_device|intros d Hd]. eapply safe_bind; [by apply safe_get_device|intros dev _].
  eapply safe_bind; [apply safe_lift_any|intros _ _]. apply safe_alter_host_device, set_memory_identity. intros x. apply length_insert.
Qed.

Lemma safe_slot_set d slot field v : (d < length sizes)%nat → safe ok (slot_set d slot field v) any.
Proof using Type.
  intros Hd. eapply safe_bind; [by apply safe_get_device|intros dev _]. eapply safe_bind; [apply safe_lift_any|intros values _].
  destruct (negb _); [apply safe_throw|]. apply safe_alter_host_device, set_slots_identity.
Qed.

Lemma safe_logic_channel n : safe ok (lift (logic_channel n)) any.
Proof using Type. intros x Hx. unfold lift, logic_channel. by destruct (negb _). Qed.

(** A call of a program on its host never panics, and keeps the world well formed, with
    its devices, their memories and its networks. *)
Lemma safe_host_call call : safe ok (host_call kb pins housing call) any.
Proof using Hhousing.
  destruct call; cbn [host_call].
  - apply safe_bind with (P := any); [|intros ? _; by apply safe_ret]. eapply safe_bind; [apply safe_host_device|intros d Hd]. by apply safe_read_field.
  - apply safe_bind with (P := any); [|intros ? _; by apply safe_ret]. eapply safe_bind; [apply safe_host_device|intros d Hd]. by apply safe_write_field.
  - eapply safe_bind; [apply safe_host_device|intros d Hd]. apply safe_bind with (P := any); [|intros ? _; by apply safe_ret].
    eapply safe_bind; [by apply safe_get_device|intros ? _; apply safe_lift_any].
  - eapply safe_bind; [apply safe_host_device|intros d Hd]. eapply safe_bind; [by apply safe_slot_set|intros ? _; by apply safe_ret].
  - apply safe_bind with (P := any); [|intros ? _; by apply safe_ret]. eapply safe_bind; [apply safe_host_device|intros d Hd].
    eapply safe_bind; [by apply safe_get_device|intros ? _; apply safe_lift_any].
  - eapply safe_bind; [apply safe_memory_set|intros ? _; by apply safe_ret].
  - apply safe_bind with (P := any); [|intros ? _; by apply safe_ret]. eapply safe_bind; [apply safe_host_device|intros d Hd].
    eapply safe_bind; [by apply safe_get_device|intros ? _; by apply safe_ret].
  - apply safe_bind with (P := any); [|intros ? _; by apply safe_ret]. eapply safe_bind; [apply safe_logic_channel|intros channel _].
    eapply safe_bind; [apply safe_indexed_device|intros d Hd]. by apply safe_read_field.
  - apply safe_bind with (P := any); [|intros ? _; by apply safe_ret]. eapply safe_bind; [apply safe_logic_channel|intros channel _].
    eapply safe_bind; [apply safe_indexed_device|intros d Hd]. by apply safe_write_field.
  - apply safe_bind with (P := any); [|intros ? _; by apply safe_ret]. eapply safe_bind; [apply safe_pin_device|intros d Hd]. by apply safe_read_field.
  - apply safe_bind with (P := any); [|intros ? _; by apply safe_ret]. eapply safe_bind; [apply safe_pin_device|intros d Hd]. by apply safe_write_field.
Qed.
End calls.

(** ** A workspace of two files *)

#[local] Instance sample_files : FileSystem := {|
  canonicalize path := inr path;
  is_file path := existsb (String.eqb path) ["/w/main.lua"; "/w/lib.lua"; "/secret.lua"];
  is_dir path := String.eqb path "/w";
  fs_read path := if String.eqb path "/w/main.lua" then inr "M" else if String.eqb path "/w/lib.lua" then inr "L" else inr "S";
|}.

(** The entry requires [lib] twice; every other source returns nothing. *)
Definition sample_chunk (path source : string) (g : ()) : Chunk (V:=Z) (G:=()) :=
  if String.eqb source "M" then ChunkRequire "lib" () (λ _ _, ChunkRequire "lib" () (λ value _, ChunkReturn (Some value) ()))
  else ChunkReturn None ().

Definition sample_diagnose (text : message) (path : string) (_ : list string) : LuaDiagnostic :=
  {| lg_code := "lua-runtime-error"; lg_message := text; lg_source_path := path; lg_line := None |}.

(** Another content of what lies outside the directory of the entry. *)
Definition other_read (path : string) : string + string :=
  if path_starts_with path "/w" then fs_read path else inr "elsewhere".

Abbreviation sample_run := (run_modules (λ _, "") 1 sample_chunk (λ _, Some "/w") "/w/main.lua" [] default_run_limits () sample_diagnose).

Lemma module_run_confined_witness : sample_run = Ok (Some ["/w/lib.lua"]) ∧ sample_run ≠ Ok None.
Proof.
  split; [vm_compute; reflexivity|].
  refine (proj1 (module_run_confined (λ _, "") 1 sample_chunk (λ _, Some "/w") "/w/main.lua" [] other_read default_run_limits ()
                   sample_diagnose _ _ _)).
  - vm_compute. discriminate.
  - intros path []. reflexivity.
  - intros path [[= <-]|(root & [(entry & _ & [= <-])|(given & Hgiven & _)] & Hin)].
    + reflexivity.
    + unfold other_read. rewrite Hin. reflexivity.
    + inversion Hgiven.
Defined.
