(* ===== verification/LuaMock.v ===== *)
(** * The mock of Lua programs

    [crates/ic10-sim/src/lua_mock.rs]: a clock that only moves when it is told to, a
    random stream that is the same for the same seed, values that survive a reload, and
    the counts of the lifecycle.  The stream is a xorshift generator: its step is a
    permutation of the 64-bit words that keeps zero apart, and the numbers drawn from it lie
    between 0 and 1.  The random numbers of a processor ([rand], in [Exec]) are drawn the
    same way with other shifts, and share the lemmas. *)

From S2P Require Import Prelude BTree Text F64 Knowledge Cpu Exec.
Local Open Scope string_scope.
Local Open Scope Z_scope.

(** ** Errors *)

Definition LUA_STATEFUL_MOCK_PROFILE_ID : string := "stationeerslua-0.9.5.0-lua5.2-stateful-mock-v1".

(** Source: [crates/ic10-sim/src/lua_mock.rs] [LuaMockError] *)
Inductive LuaMockError := InvalidClockAdvance | Unsupported (capability : string).

(** Source: [crates/ic10-sim/src/lua_mock.rs] [LuaMockError::fmt] *)
Definition lua_mock_error_text (e : LuaMockError) : message :=
  match e with
  | InvalidClockAdvance => [PS "lua-mock-invalid-clock: advance must be finite and non-negative"]
  | Unsupported capability =>
      [PS "lua-mock-unsupported-api: `"; PS capability; PS "` is unavailable in profile `"; PS LUA_STATEFUL_MOCK_PROFILE_ID;
       PS "`; no external side effect was performed"]
  end.

(** ** The clock *)

(** Source: [crates/ic10-sim/src/lua_mock.rs] [VirtualClock] *)
Record VirtualClock := { now_seconds : f64 }.

(** Source: [crates/ic10-sim/src/lua_mock.rs] [VirtualClock::advance] *)
Definition clock_advance (seconds : f64) : M VirtualClock LuaMockError f64 := λ c,
  if negb (f_is_finite seconds) || f_lt seconds f_zero then (Err InvalidClockAdvance, c)
  else let now := f_add (now_seconds c) seconds in (Ok now, {| now_seconds := now |}).

(** Source: [crates/ic10-sim/src/lua_mock.rs] [VirtualClock::reset] *)
Definition clock_reset (c : VirtualClock) : VirtualClock := {| now_seconds := f_zero |}.

(** ** The random stream *)

(** Source: [crates/ic10-sim/src/lua_mock.rs] [DeterministicRandom] *)
Record DeterministicRandom := { dr_seed : Z; dr_state : Z }.

(** Source: [crates/ic10-sim/src/lua_mock.rs] [DeterministicRandom::new] *)
Definition new_random (seed : Z) : DeterministicRandom :=
  let seed := if seed =? 0 then 0x9e3779b97f4a7c15 else seed in {| dr_seed := seed; dr_state := seed |}.

(** The three shifts of a step. *)
Definition mock_xorshift (value : Z) : Z :=
  let value := Z.lxor value (Z.shiftr value 12) in
  let value := Z.lxor value (wrap_u 64 (Z.shiftl value 25)) in
  Z.lxor value (Z.shiftr value 27).

(** Source: [crates/ic10-sim/src/lua_mock.rs] [next_u64] *)
Definition next_u64 (r : DeterministicRandom) : Z * DeterministicRandom :=
  let value := mock_xorshift (dr_state r) in
  (wrap_u 64 (value * 0x2545f4914f6cdd1d), {| dr_seed := dr_seed r; dr_state := value |}).

(** Source: [crates/ic10-sim/src/lua_mock.rs] [next_unit] *)
Definition next_unit (r : DeterministicRandom) : f64 * DeterministicRandom :=
  let '(value, r) := next_u64 r in (f_div (f_of_Z (Z.shiftr value 11)) (f_of_Z (2 ^ 53)), r).

(** Source: [crates/ic10-sim/src/lua_mock.rs] [DeterministicRandom::reset] *)
Definition random_reset (r : DeterministicRandom) : DeterministicRandom := {| dr_seed := dr_seed r; dr_state := dr_seed r |}.

(** ** The mock *)

Section mock.
(** [serde_json::Value] *)
Context {Value : Type} `{Build}.

(** Source: [crates/ic10-sim/src/lua_mock.rs] [PersistedState] *)
Record PersistedState := { ps_values : BTreeMap string Value }.

(** Source: [crates/ic10-sim/src/lua_mock.rs] [PersistedState::get] *)
Definition persisted_get (key : string) (s : PersistedState) : option Value := bt_get key (ps_values s).
(** Source: [crates/ic10-sim/src/lua_mock.rs] [PersistedState::set] *)
Definition persisted_set (key : string) (value : Value) (s : PersistedState) : PersistedState :=
  {| ps_values := bt_insert key value (ps_values s) |}.
(** Source: [crates/ic10-sim/src/lua_mock.rs] [PersistedState::remove] *)
Definition persisted_remove (key : string) (s : PersistedState) : option Value * PersistedState :=
  (bt_get key (ps_values s), {| ps_values := bt_remove key (ps_values s) |}).
(** Source: [crates/ic10-sim/src/lua_mock.rs] [PersistedState::snapshot] *)
Definition persisted_snapshot (s : PersistedState) : BTreeMap string Value := ps_values s.

(** Source: [crates/ic10-sim/src/lua_mock.rs] [Lifecycle] *)
Record Lifecycle := { reloads : Z; power_cycles : Z }.

(** Source: [crates/ic10-sim/src/lua_mock.rs] [LuaStatefulMock] *)
Record LuaStatefulMock := {
  mo_state : PersistedState;
  mo_clock : VirtualClock;
  mo_random : DeterministicRandom;
  mo_lifecycle : Lifecycle;
}.

(** Source: [crates/ic10-sim/src/lua_mock.rs] [LuaStatefulMock::new] *)
Definition new_mock (seed : Z) (state : BTreeMap string Value) : LuaStatefulMock :=
  {| mo_state := {| ps_values := state |}; mo_clock := {| now_seconds := f_zero |}; mo_random := new_random seed;
     mo_lifecycle := {| reloads := 0; power_cycles := 0 |} |}.

Abbreviation MX := (M LuaStatefulMock LuaMockError).

Definition set_lifecycle (l : Lifecycle) (m : LuaStatefulMock) : LuaStatefulMock :=
  {| mo_state := mo_state m; mo_clock := mo_clock m; mo_random := mo_random m; mo_lifecycle := l |}.
Definition reset_services (m : LuaStatefulMock) : LuaStatefulMock :=
  {| mo_state := mo_state m; mo_clock := clock_reset (mo_clock m); mo_random := random_reset (mo_random m);
     mo_lifecycle := mo_lifecycle m |}.

(** Source: [crates/ic10-sim/src/lua_mock.rs] [reload] *)
Definition reload : MX () :=
  l ← gets mo_lifecycle;
  count ← lift (add_u64 (reloads l) 1);
  _ ← modify (set_lifecycle {| reloads := count; power_cycles := power_cycles l |});
  modify reset_services.

(** Source: [crates/ic10-sim/src/lua_mock.rs] [power_cycle] *)
Definition power_cycle : MX () :=
  l ← gets mo_lifecycle;
  count ← lift (add_u64 (power_cycles l) 1);
  _ ← modify (set_lifecycle {| reloads := reloads l; power_cycles := count |});
  modify reset_services.

(** Source: [crates/ic10-sim/src/lua_mock.rs] [unsupported] *)
Definition unsupported (capability : string) : LuaMockError := Unsupported capability.

(** What a program does with the mock. *)
Inductive MockCall :=
  | MockAdvance (seconds : f64)
  | MockNextU64
  | MockNextUnit
  | MockSet (key : string) (value : Value)
  | MockRemove (key : string)
  | MockReload
  | MockPowerCycle.

Definition mock_call (call : MockCall) : MX () := λ m,
  match call with
  | MockAdvance seconds =>
      let '(r, c) := clock_advance seconds (mo_clock m) in
      (_ ← r; Ok (), {| mo_state := mo_state m; mo_clock := c; mo_random := mo_random m; mo_lifecycle := mo_lifecycle m |})
  | MockNextU64 =>
      (Ok (), {| mo_state := mo_state m; mo_clock := mo_clock m; mo_random := (next_u64 (mo_random m)).2;
                 mo_lifecycle := mo_lifecycle m |})
  | MockNextUnit =>
      (Ok (), {| mo_state := mo_state m; mo_clock := mo_clock m; mo_random := (next_unit (mo_random m)).2;
                 mo_lifecycle := mo_lifecycle m |})
  | MockSet key value =>
      (Ok (), {| mo_state := persisted_set key value (mo_state m); mo_clock := mo_clock m; mo_random := mo_random m;
                 mo_lifecycle := mo_lifecycle m |})
  | MockRemove key =>
      (Ok (), {| mo_state := (persisted_remove key (mo_state m)).2; mo_clock := mo_clock m; mo_random := mo_random m;
                 mo_lifecycle := mo_lifecycle m |})
  | MockReload => reload m
  | MockPowerCycle => power_cycle m
  end.

(** Calls one after the other, whatever each returns. *)
Fixpoint mock_calls (calls : list MockCall) (m : LuaStatefulMock) : LuaStatefulMock :=
  match calls with [] => m | call :: calls => mock_calls calls (mock_call call m).2 end.
End mock.

(** The numbers of [n] draws. *)
Fixpoint drawn_units (n : nat) (r : DeterministicRandom) : list f64 :=
  match n with O => [] | S n => let '(x, r) := next_unit r in x :: drawn_units n r end.

(** ** A step permutes the words *)

Definition word (x : Z) : Prop := 0 ≤ x < 2 ^ 64.

Lemma word_bits x : 0 ≤ x → (∀ n, 64 ≤ n → Z.testbit x n = false) → word x.
Proof.
  intros Hx Hbits. split; [done|]. assert (x = x mod 2 ^ 64) as ->; [|apply Z.mod_pos_bound; lia].
  apply Z.bits_inj'. intros n Hn. destruct (Z.lt_ge_cases n 64); [by rewrite Z.mod_pow2_bits_low|].
  by rewrite Z.mod_pow2_bits_high, Hbits by lia.
Qed.

Lemma word_testbit x n : word x → 64 ≤ n → Z.testbit x n = false.
Proof. intros [H0 H1] Hn. rewrite <-(Z.mod_small x (2 ^ 64)) by done. apply Z.mod_pow2_bits_high. lia. Qed.

Definition shift_right (k x : Z) : Z := Z.lxor x (Z.shiftr x k).
Definition shift_left (k x : Z) : Z := Z.lxor x (wrap_u 64 (Z.shiftl x k)).

Lemma wrapped_bit z n : 0 ≤ n → Z.testbit (wrap_u 64 z) n = (n <? 64) && Z.testbit z n.
Proof.
  intros Hn. unfold wrap_u. destruct (Z.ltb_spec n 64); [by rewrite Z.mod_pow2_bits_low|by rewrite Z.mod_pow2_bits_high by lia].
Qed.

(** What a step of a generator does to a word: it stays one, two words have the exclusive
    or of their images, and no other word than zero goes to zero. *)
Record permutes (f : Z → Z) : Prop := {
  pe_word x : word x → word (f x);
  pe_linear x y : word x → word y → f (Z.lxor x y) = Z.lxor (f x) (f y);
  pe_kernel x : word x → f x = 0 → x = 0;
}.

Lemma word_lxor x y : word x → word y → word (Z.lxor x y).
Proof.
  intros Hx Hy. apply word_bits; [apply Z.lxor_nonneg; unfold word in *; lia|]. intros n Hn.
  by rewrite Z.lxor_spec, !word_testbit.
Qed.

Lemma permutes_right k : 0 < k → permutes (shift_right k).
Proof.
  intros Hk. split.
  - intros x Hx. apply word_lxor; [done|]. apply word_bits; [apply Z.shiftr_nonneg, Hx|]. intros n Hn.
    rewrite Z.shiftr_spec, word_testbit by (done || lia). done.
  - intros x y _ _. unfold shift_right. apply Z.bits_inj'. intros n Hn. rewrite !Z.lxor_spec, !Z.shiftr_spec, !Z.lxor_spec by lia.
    by destruct (Z.testbit x n), (Z.testbit y n), (Z.testbit x (n + k)), (Z.testbit y (n + k)).
  - intros x [Hx _] H%Z.lxor_eq. rewrite Z.shiftr_div_pow2 in H by lia. destruct (Z.eq_dec x 0) as [|Hne]; [done|].
    assert (x / 2 ^ k < x); [|lia]. apply Z.div_lt; [lia|]. apply Z.pow_gt_1; lia.
Qed.

Lemma permutes_left k : 0 < k → permutes (shift_left k).
Proof.
  intros Hk. split.
  - intros x Hx. apply word_lxor; [done|]. unfold wrap_u. apply Z.mod_pos_bound. lia.
  - intros x y _ _. unfold shift_left. apply Z.bits_inj'. intros n Hn. rewrite !Z.lxor_spec, !wrapped_bit, !Z.shiftl_spec, !Z.lxor_spec by lia.
    by destruct (n <? 64), (Z.testbit x n), (Z.testbit y n), (Z.testbit x (n - k)), (Z.testbit y (n - k)).
  - intros x Hx H%Z.lxor_eq. apply Z.bits_inj'. intros n Hn. rewrite Z.bits_0. revert n Hn. apply Zlt_0_ind. intros n IH Hn.
    rewrite H, wrapped_bit, Z.shiftl_spec by lia. destruct (n <? 64); [|done]. cbn [andb].
    destruct (Z.lt_ge_cases n k); [by apply Z.testbit_neg_r; lia|apply IH; lia].
Qed.

Lemma permutes_compose f g : permutes f → permutes g → permutes (λ x, f (g x)).
Proof.
  intros [F1 F2 F3] [G1 G2 G3]. split; [auto| |auto]. intros x y Hx Hy. by rewrite G2, F2 by auto.
Qed.

Lemma permutes_inj f x y : permutes f → word x → word y → f x = f y → x = y.
Proof.
  intros Hf Hx Hy Heq. apply Z.lxor_eq. apply (pe_kernel f Hf); [by apply word_lxor|]. rewrite (pe_linear f Hf) by done.
  rewrite Heq. apply Z.lxor_nilpotent.
Qed.

Lemma permutes_positive f x : permutes f → 0 < x < 2 ^ 64 → 0 < f x < 2 ^ 64.
Proof.
  intros Hf Hx. assert (word x) as Hw by (unfold word; lia). destruct (pe_word f Hf x Hw) as [H0 H1]. split; [|done].
  destruct (Z.eq_dec (f x) 0) as [He|]; [|lia]. apply (pe_kernel f Hf) in He; [lia|done].
Qed.

Lemma mock_permutes : permutes mock_xorshift.
Proof.
  apply (permutes_compose (shift_right 27) (λ x, shift_left 25 (shift_right 12 x))); [by apply permutes_right|].
  by apply (permutes_compose (shift_left 25)); [apply permutes_left|apply permutes_right].
Qed.

Lemma processor_permutes : permutes xorshift.
Proof.
  apply (permutes_compose (shift_left 17) (λ x, shift_right 7 (shift_left 13 x))); [by apply permutes_left|].
  by apply (permutes_compose (shift_right 7)); [apply permutes_right|apply permutes_left].
Qed.

(** ** The numbers lie between 0 and 1 *)

Definition in_unit (x : f64) : Prop := f_le f_zero x = true ∧ f_lt x f_one = true.

(** Dividing by [2 ^ 53] only lowers the exponent. *)
Lemma div_2_53 m e : -52 ≤ e ≤ 0 → Zpos (SpecFloat.digits2_pos m) = 53 →
  f_div (S754_finite false m e) (f_of_Z (2 ^ 53)) = S754_finite false m (e - 53).
Proof.
  intros He Hd. assert (f_of_Z (2 ^ 53) = S754_finite false 4503599627370496 1) as -> by (vm_compute; reflexivity).
  unfold f_div, SFdiv, SFdiv_core_binary. cbn [Zdigits2]. rewrite Hd.
  change (Z.pos (SpecFloat.digits2_pos 4503599627370496)) with 53.
  replace (SpecFloat.fexp PREC EMAX (53 + e - (53 + 1))) with (e - 54) by (unfold SpecFloat.fexp, emin, PREC, EMAX; lia).
  replace (Z.min (e - 54) (e - 1)) with (e - 54) by lia. replace (e - 1 - (e - 54)) with 53 by lia. cbv iota.
  assert (Z.div_eucl (Z.shiftl (Zpos m) 53) 4503599627370496 = (Zpos (xO m), 0)) as ->.
  { pose proof (Z_div_mod (Z.shiftl (Zpos m) 53) 4503599627370496 eq_refl) as Hq. destruct (Z.div_eucl _ _) as [q r].
    rewrite Z.shiftl_mul_pow2 in Hq by lia. destruct Hq as [Hq Hr]. f_equal; lia. }
  assert (new_location 4503599627370496 0 = loc_Exact) as -> by reflexivity.
  unfold binary_round_aux, shr_fexp. cbn [Zdigits2 SpecFloat.digits2_pos]. rewrite Pos2Z.inj_succ, Hd.
  replace (SpecFloat.fexp PREC EMAX (Z.succ 53 + (e - 54)) - (e - 54)) with 1 by (unfold SpecFloat.fexp, emin, PREC, EMAX; lia).
  cbn [SpecFloat.shr shr_record_of_loc iter_pos shr_1 orb loc_of_shr_record round_nearest_even shr_m xorb]. cbn [Zdigits2]. rewrite Hd.
  replace (SpecFloat.fexp PREC EMAX (53 + (e - 54 + 1)) - (e - 54 + 1)) with 0 by (unfold SpecFloat.fexp, emin, PREC, EMAX; lia).
  cbn [SpecFloat.shr shr_m shr_record_of_loc]. destruct (Z.leb_spec (e - 54 + 1) (EMAX - PREC)) as [_|Hle]; [|unfold EMAX, PREC in *; lia].
  f_equal. lia.
Qed.

Lemma digits_53 m : 2 ^ 52 ≤ Zpos m < 2 ^ 53 → Zpos (SpecFloat.digits2_pos m) = 53.
Proof.
  intros [Hlo Hhi]. pose proof (digits_bounds m) as [Hl Hh]. set (d := Zpos (SpecFloat.digits2_pos m)) in *.
  destruct (Z.lt_trichotomy d 53) as [?|[?|?]]; [|done|].
  - assert (2 ^ d ≤ 2 ^ 52) by (apply Z.pow_le_mono_r; lia). lia.
  - assert (2 ^ 53 ≤ 2 ^ (d - 1)) by (apply Z.pow_le_mono_r; lia). lia.
Qed.

Lemma unit_of_word n : 0 ≤ n < 2 ^ 53 → in_unit (f_div (f_of_Z n) (f_of_Z (2 ^ 53))).
Proof.
  destruct n as [|p|p]; [by intros _; vm_compute|intros [_ Hp]|lia]. destruct (f_of_pos_exact p Hp) as (m & e & -> & He & _ & Hm).
  rewrite div_2_53 by (done || by apply digits_53). split; [reflexivity|]. unfold f_lt, SFltb, SFcompare.
  assert (f_one = S754_finite false 4503599627370496 (-52)) as -> by (vm_compute; reflexivity).
  by assert ((e - 53 ?= -52) = Lt) as -> by (apply Z.compare_lt_iff; lia).
Qed.

Lemma shifted_word x : word x → 0 ≤ Z.shiftr x 11 < 2 ^ 53.
Proof.
  intros [H0 H1]. rewrite Z.shiftr_div_pow2 by lia. split; [apply Z.div_pos; lia|]. apply Z.div_lt_upper_bound; [lia|].
  change (2 ^ 11 * 2 ^ 53) with (2 ^ 64). done.
Qed.

Lemma wrapped_word x : word (wrap_u 64 x).
Proof. unfold wrap_u. apply Z.mod_pos_bound. lia. Qed.

Lemma next_unit_bounds r : in_unit (next_unit r).1.
Proof. apply unit_of_word, shifted_word, wrapped_word. Qed.

Lemma drawn_units_bounds n r : Forall in_unit (drawn_units n r).
Proof.
  revert r. induction n as [|n IH]; intros r; [constructor|]. cbn [drawn_units]. pose proof (next_unit_bounds r) as Hx.
  destruct (next_unit r) as [x r']. by constructor.
Qed.

(** [rand] draws a number between 0 and 1, and the stream of a processor that was not stuck
    at zero is not stuck after it. *)
Lemma exec_rand_bounds s : 0 < s < 2 ^ 64 →
  0 < xorshift s < 2 ^ 64 ∧ in_unit (f_div (f_of_Z (Z.shiftr (xorshift s) 11)) (f_of_Z (2 ^ 53))).
Proof.
  intros Hs. pose proof (permutes_positive _ s processor_permutes Hs) as H. split; [done|]. apply unit_of_word, shifted_word.
  unfold word. lia.
Qed.

(** ** What the mock keeps *)

(** The stream of a seed is somewhere past its start. *)
Definition stream_of (seed : Z) (r : DeterministicRandom) : Prop :=
  dr_seed r = dr_seed (new_random seed) ∧ 0 < dr_seed r < 2 ^ 64 ∧ 0 < dr_state r < 2 ^ 64.

Lemma new_random_stream seed : 0 ≤ seed < 2 ^ 64 → stream_of seed (new_random seed).
Proof. intros Hs. unfold stream_of, new_random. destruct (Z.eqb_spec seed 0); simpl; split_and!; lia. Qed.

Lemma stream_of_next seed r : stream_of seed r → stream_of seed (next_u64 r).2.
Proof.
  intros (Hs & Hp & Hr). split_and!; [done|apply Hp..| |]; apply (permutes_positive _ (dr_state r) mock_permutes Hr).
Qed.

Lemma next_unit_next r : (next_unit r).2 = (next_u64 r).2.
Proof. unfold next_unit. by destruct (next_u64 r). Qed.

Lemma stream_of_reset seed r : stream_of seed r → random_reset r = new_random seed ∧ stream_of seed (random_reset r).
Proof.
  intros (Hs & Hp & Hr). split.
  - unfold random_reset, new_random. unfold new_random in Hs. cbn [dr_seed] in Hs. by rewrite Hs.
  - by split_and!; try apply Hp.
Qed.

Section kept.
Context {Value : Type} `{Build}.

Lemma restarted (restart : M LuaStatefulMock LuaMockError ()) (m m' : LuaStatefulMock (Value:=Value)) :
  restart = reload ∨ restart = power_cycle → restart m = (Ok (), m') →
  mo_state m' = mo_state m ∧ mo_clock m' = {| now_seconds := f_zero |} ∧ mo_random m' = random_reset (mo_random m).
Proof.
  intros Hr Hrun. assert (∀ r l, (count ← lift (E:=LuaMockError) (add_u64 r 1); _ ← modify (set_lifecycle (l count)); modify reset_services) m
      = (Ok (), m') → mo_state m' = mo_state m ∧ mo_clock m' = {| now_seconds := f_zero |} ∧ mo_random m' = random_reset (mo_random m)) as Hcount.
  { intros r l Hc. unfold mbind, M_mbind, lift in Hc. destruct (add_u64 r 1) as [count|e|]; [|done..]. by injection Hc as <-. }
  destruct Hr as [-> | ->]; [eapply (Hcount (reloads (mo_lifecycle m)))|eapply (Hcount (power_cycles (mo_lifecycle m)))].
  - exact Hrun.
  - exact Hrun.
Qed.

Lemma failed_restart (restart : M LuaStatefulMock LuaMockError ()) (m : LuaStatefulMock (Value:=Value)) :
  restart = reload ∨ restart = power_cycle → (restart m).1 ≠ Ok () → (restart m).2 = m.
Proof.
  intros [-> | ->]; unfold reload, power_cycle, mbind, M_mbind, lift; cbn [gets];
    by destruct (add_u64 _ 1) as [count|e|].
Qed.

Lemma call_keeps_stream seed call (m : LuaStatefulMock (Value:=Value)) :
  stream_of seed (mo_random m) → stream_of seed (mo_random (mock_call call m).2).
Proof.
  intros Hm. assert (∀ restart, restart = reload ∨ restart = power_cycle → stream_of seed (mo_random (restart m).2)) as Hrestart.
  { intros restart Hr. destruct (restart m) as [[[]|e|] m'] eqn:Hrun.
    1: { cbn [snd]. apply (restarted _ _ _ Hr) in Hrun as (_ & _ & ->). by apply stream_of_reset. }
    all: pose proof (failed_restart restart m Hr) as Hf; rewrite Hrun in Hf; cbn [fst snd] in *; by rewrite Hf. }
  destruct call; cbn [mock_call]; [|by apply stream_of_next|cbn [snd mo_random]; rewrite next_unit_next; by apply stream_of_next|done..|
    apply Hrestart; by left|apply Hrestart; by right].
  by destruct (clock_advance seconds (mo_clock m)) as [r c].
Qed.

Lemma calls_keep_stream seed calls (m : LuaStatefulMock (Value:=Value)) :
  stream_of seed (mo_random m) → stream_of seed (mo_random (mock_calls calls m)).
Proof. revert m. induction calls as [|call calls IH]; intros m Hm; [done|]. apply IH. by apply call_keeps_stream. Qed.

End kept.

#[local] Instance release_mock : Build := {| overflow_checks := false |}.

Definition sample_calls : list (MockCall (Value:=Z)) :=
  [MockSet "boot" 1; MockAdvance f_one; MockNextU64; MockAdvance f_nan; MockNextUnit; MockReload; MockNextUnit].

