(* ===== verification/CommandLine.v ===== *)
(** * The command line

    [crates/ic10-runner/src/main.rs]: the commands of the [ic10] program with their
    arguments, the files they read and write, what they print and whether they succeed.
    The disk is a class, with the operations of [std::path] and [std::fs] the commands use;
    the embedded data, the JSON of serde and the construction of a Lua state are arguments.
    What the commands run is modelled elsewhere: builds in [Deploy], test files in [TestRun],
    the simulation in [Simulator]. *)

From S2P Require Import Prelude BTree Text F64 Knowledge Literals Journal Scenario World Program Compile Cpu Exec Behaviour Vm Lua.
From S2P Require Import Simulator Tick Control Load Schema Evaluator ScriptDriver Runner Deploy LuaSandbox TestRun.
Local Open Scope string_scope.
Local Open Scope Z_scope.

(** ** Arguments *)

(** The value of an option, and the arguments after it.
    Source: [crates/ic10-runner/src/main.rs] [required] *)
Definition required (arguments : list string) (option : string) : outcome message (string * list string) :=
  match arguments with
  | value :: rest => Ok (value, rest)
  | [] => Err [PS option; PS " requires a value"]
  end.

(** Source: [crates/ic10-runner/src/main.rs] [number] *)
Definition number (value : string) : outcome message Z :=
  ok_or (parse_u64 value) [PS "`"; PS value; PS "` is not a non-negative integer"].

(** Source: [crates/ic10-runner/src/main.rs] [BuildDestination] *)
Inductive BuildDestination := DestStdout | DestFile (path : string).

(** Source: [crates/ic10-runner/src/main.rs] [BuildCommandOptions] *)
Record BuildCommandOptions := {
  bc_source : string;
  bc_output : BuildDestination;
  bc_sidecars : bool;
  bc_quiet : bool;
  bc_build : BuildOptions;
}.

(** The variables of the loop over the arguments of a build.
    Source: [crates/ic10-runner/src/main.rs] [parse_build_options] lines 134-141 *)
Record BuildArguments := {
  ba_source : option string;
  ba_output : option string;
  ba_output_directory : option string;
  ba_stdout : bool;
  ba_sidecars : bool;
  ba_quiet : bool;
  ba_build : BuildOptions;
}.

Definition no_build_arguments : BuildArguments :=
  {| ba_source := None; ba_output := None; ba_output_directory := None; ba_stdout := false; ba_sidecars := true;
     ba_quiet := false; ba_build := default_build |}.

Definition set_ba_source (v : string) (a : BuildArguments) : BuildArguments :=
  {| ba_source := Some v; ba_output := ba_output a; ba_output_directory := ba_output_directory a; ba_stdout := ba_stdout a;
     ba_sidecars := ba_sidecars a; ba_quiet := ba_quiet a; ba_build := ba_build a |}.
Definition set_ba_output (v : string) (a : BuildArguments) : BuildArguments :=
  {| ba_source := ba_source a; ba_output := Some v; ba_output_directory := ba_output_directory a; ba_stdout := ba_stdout a;
     ba_sidecars := ba_sidecars a; ba_quiet := ba_quiet a; ba_build := ba_build a |}.
Definition set_ba_output_directory (v : string) (a : BuildArguments) : BuildArguments :=
  {| ba_source := ba_source a; ba_output := ba_output a; ba_output_directory := Some v; ba_stdout := ba_stdout a;
     ba_sidecars := ba_sidecars a; ba_quiet := ba_quiet a; ba_build := ba_build a |}.
Definition set_ba_stdout (a : BuildArguments) : BuildArguments :=
  {| ba_source := ba_source a; ba_output := ba_output a; ba_output_directory := ba_output_directory a; ba_stdout := true;
     ba_sidecars := ba_sidecars a; ba_quiet := ba_quiet a; ba_build := ba_build a |}.
Definition set_ba_no_sidecars (a : BuildArguments) : BuildArguments :=
  {| ba_source := ba_source a; ba_output := ba_output a; ba_output_directory := ba_output_directory a; ba_stdout := ba_stdout a;
     ba_sidecars := false; ba_quiet := ba_quiet a; ba_build := ba_build a |}.
Definition set_ba_quiet (a : BuildArguments) : BuildArguments :=
  {| ba_source := ba_source a; ba_output := ba_output a; ba_output_directory := ba_output_directory a; ba_stdout := ba_stdout a;
     ba_sidecars := ba_sidecars a; ba_quiet := true; ba_build := ba_build a |}.
Definition alter_ba_build (f : BuildOptions → BuildOptions) (a : BuildArguments) : BuildArguments :=
  {| ba_source := ba_source a; ba_output := ba_output a; ba_output_directory := ba_output_directory a; ba_stdout := ba_stdout a;
     ba_sidecars := ba_sidecars a; ba_quiet := ba_quiet a; ba_build := f (ba_build a) |}.
Definition set_bo_optimization (v : OptimizationLevel) (b : BuildOptions) : BuildOptions :=
  {| bo_optimization := v; bo_game_version := bo_game_version b; bo_source_path := bo_source_path b; bo_environment := bo_environment b |}.
Definition set_bo_game_version (v : string) (b : BuildOptions) : BuildOptions :=
  {| bo_optimization := bo_optimization b; bo_game_version := Some v; bo_source_path := bo_source_path b; bo_environment := bo_environment b |}.
Definition set_bo_source_path (v : string) (b : BuildOptions) : BuildOptions :=
  {| bo_optimization := bo_optimization b; bo_game_version := bo_game_version b; bo_source_path := Some v; bo_environment := bo_environment b |}.
Definition set_bo_environment (v : string) (b : BuildOptions) : BuildOptions :=
  {| bo_optimization := bo_optimization b; bo_game_version := bo_game_version b; bo_source_path := bo_source_path b; bo_environment := Some v |}.

Definition one_of (argument : string) (names : list string) : bool := existsb (String.eqb argument) names.

(** Source: [crates/ic10-runner/src/main.rs] [parse_build_options] lines 146-155 *)
Definition parse_level (value : string) : outcome message OptimizationLevel :=
  if String.eqb value "none" then Ok OptNone
  else if String.eqb value "readable" then Ok OptReadable
  else if String.eqb value "compact" then Ok OptCompact
  else Err [PS "unknown optimization level `"; PS value; PS "`; expected none, readable, or compact"].

(** What an option says with its value.
    Source: [crates/ic10-runner/src/main.rs] [parse_build_options] lines 144-177 *)
Definition build_value (option value : string) (a : BuildArguments) : outcome message BuildArguments :=
  if one_of option ["-O"; "--optimization"] then level ← parse_level value; Ok (alter_ba_build (set_bo_optimization level) a)
  else if String.eqb option "--game-version" then Ok (alter_ba_build (set_bo_game_version value) a)
  else if String.eqb option "--environment" then Ok (alter_ba_build (set_bo_environment value) a)
  else if one_of option ["-o"; "--output"] then Ok (if String.eqb value "-" then set_ba_stdout a else set_ba_output value a)
  else Ok (set_ba_output_directory value a).

(** The name an option with a value is reported by when the value is missing. *)
Definition build_option (argument : string) : option string :=
  if one_of argument ["-O"; "--optimization"] then Some "--optimization"
  else if String.eqb argument "--game-version" then Some "--game-version"
  else if String.eqb argument "--environment" then Some "--environment"
  else if one_of argument ["-o"; "--output"] then Some "--output"
  else if String.eqb argument "--output-dir" then Some "--output-dir"
  else None.

(** An argument that is an option without a value, or a path.
    Source: [crates/ic10-runner/src/main.rs] [parse_build_options] lines 178-189 *)
Definition build_flag (argument : string) (a : BuildArguments) : outcome message BuildArguments :=
  if String.eqb argument "--stdout" then Ok (set_ba_stdout a)
  else if String.eqb argument "--no-sidecars" then Ok (set_ba_no_sidecars a)
  else if one_of argument ["-q"; "--quiet"] then Ok (set_ba_quiet a)
  else if starts_with "-" argument then Err [PS "unknown build option `"; PS argument; PS "`"]
  else
    match ba_source a with
    | None => Ok (set_ba_source argument a)
    | Some _ => Err [PS "build accepts one source path; unexpected `"; PS argument; PS "`"]
    end.

(** Source: [crates/ic10-runner/src/main.rs] [parse_build_options] lines 142-192 *)
Fixpoint build_arguments (arguments : list string) (a : BuildArguments) : outcome message BuildArguments :=
  match arguments with
  | [] => Ok a
  | argument :: rest =>
      match build_option argument, rest with
      | Some _, value :: rest => a ← build_value argument value a; build_arguments rest a
      | Some name, [] => Err [PS name; PS " requires a value"]
      | None, _ => a ← build_flag argument a; build_arguments rest a
      end
  end.

(** ** The disk *)

(** What the commands ask of the disk, in one of its states [D]. *)
Class Disk (D : Type) := {
  parent_of : string → option string;
  file_name_of : string → option string;
  join_of : string → string → string;
  goes_up : string → bool;
  eq_of : string → string → bool;
  within : string → string → bool;
  is_absolute : string → bool;
  with_file_name : string → string → string;
  current_dir : D → string + string;
  resolve : D → string → string + string;
  exists_in : D → string → bool;
  is_file_in : D → string → bool;
  is_dir_in : D → string → bool;
  read_bytes : D → string → string + string;
  read_to_string : D → string → string + string;
  node_at : D → list string → option FsNode;
  (** the writes, which may fail and have changed something all the same *)
  write_to : string → string → D → (string + ()) * D;
  create_dir_all : string → D → (string + ()) * D;
}.

(** The path operations of [TestRun] in a state of the disk. *)
Definition files_of `{Disk D} (d : D) : Files :=
  {| path_parent := parent_of; path_file_name := file_name_of; TestRun.path_join := join_of; path_goes_up := goes_up;
     path_eq := eq_of; TestRun.path_starts_with := within; TestRun.canonicalize := resolve d |}.

(** The process: the disk, and what was printed. *)
Record Console (D : Type) := { co_disk : D; co_stdout : list message; co_stderr : list message }.
Arguments co_disk {D}. Arguments co_stdout {D}. Arguments co_stderr {D}.

Section commands.
Context {D : Type} `{Disk D}.

Abbreviation KX := (M (Console D) message).

Definition set_disk (d : D) (c : Console D) : Console D :=
  {| co_disk := d; co_stdout := co_stdout c; co_stderr := co_stderr c |}.
Definition print (text : message) : KX () :=
  modify (λ c, {| co_disk := co_disk c; co_stdout := co_stdout c ++ [text]; co_stderr := co_stderr c |})%list.
Definition eprint (text : message) : KX () :=
  modify (λ c, {| co_disk := co_disk c; co_stdout := co_stdout c; co_stderr := co_stderr c ++ [text] |})%list.
Definition println (text : message) : KX () := print (text ++ [PS NEWLINE])%list.
Definition eprintln (text : message) : KX () := eprint (text ++ [PS NEWLINE])%list.

(** A question to the disk, and an operation on it, with the text of an error. *)
Definition ask {A} (f : D → A) : KX A := gets (λ c, f (co_disk c)).
Definition ask_or {A} (f : D → string + A) (refused : string → message) : KX A := λ c,
  match f (co_disk c) with inr a => (Ok a, c) | inl error => (Err (refused error), c) end.
Definition act (f : D → (string + ()) * D) (refused : string → message) : KX () := λ c,
  let '(r, d) := f (co_disk c) in
  (match r with inr () => Ok () | inl error => Err (refused error) end, set_disk d c).

(** ** [ic10 build] *)

(** Source: [crates/ic10-runner/src/main.rs] [parse_build_options] *)
Definition parse_build_options (arguments : list string) : outcome message BuildCommandOptions :=
  a ← build_arguments arguments no_build_arguments;
  source ← ok_or (ba_source a) [PS "build requires one .ic10 source path"];
  if negb (ends_with ".ic10" source) then Err [PS "build source must end with .ic10: "; PS source]
  else if (1 <? Nat.b2n (ba_stdout a) + Nat.b2n (is_some (ba_output a)) + Nat.b2n (is_some (ba_output_directory a)))%nat
  then Err [PS "--stdout, --output, and --output-dir are mutually exclusive destinations"]
  else
    output ← if ba_stdout a then Ok DestStdout
             else
               match ba_output a with
               | Some path => Ok (DestFile path)
               | None =>
                   let directory :=
                     match ba_output_directory a with
                     | Some directory => directory
                     | None => join_of (default "." (parent_of source)) "build"
                     end in
                   name ← ok_or (file_name_of source) [PS "source has no file name: "; PS source];
                   Ok (DestFile (join_of directory name))
               end;
    Ok {| bc_source := source; bc_output := output;
          bc_sidecars := match output with DestStdout => false | DestFile _ => ba_sidecars a end;
          bc_quiet := ba_quiet a; bc_build := ba_build a |}.

(** Source: [crates/ic10-runner/src/main.rs] [absolute_output_path] *)
Definition absolute_output_path (path : string) : KX string :=
  absolute ← if is_absolute path then mret path
             else
               directory ← ask_or current_dir (λ error, [PS "could not resolve current directory: "; PS error]);
               mret (join_of directory path);
  known ← ask (λ d, exists_in d absolute);
  if known : bool then ask_or (λ d, resolve d absolute) (λ error, [PS "could not resolve "; PS absolute; PS ": "; PS error])
  else
    parent ← lift (ok_or (parent_of absolute) [PS "output has no parent: "; PS absolute]);
    _ ← act (create_dir_all parent) (λ error, [PS "could not create "; PS parent; PS ": "; PS error]);
    parent ← ask_or (λ d, resolve d parent) (λ error, [PS "could not resolve "; PS parent; PS ": "; PS error]);
    name ← lift (ok_or (file_name_of absolute) [PS "output has no file name: "; PS absolute]);
    mret (join_of parent name).

Definition write_file (path text : string) : KX () :=
  act (write_to path text) (λ error, [PS "could not write "; PS path; PS ": "; PS error]).

(** Source: [crates/ic10-runner/src/main.rs] [write_json_sidecar] *)
Definition write_json_sidecar (path json : string) : KX () := write_file path (json +:+ NEWLINE).

(** The JSON of the parts of an output. *)
Variables source_map_json metadata_json report_json : BuildOutput → string + string.

Definition json_of (json : string + string) : outcome message string :=
  match json with inr text => Ok text | inl error => Err [PS error] end.

(** Source: [crates/ic10-runner/src/main.rs] [write_build_output] *)
Definition write_build_output (path : string) (output : BuildOutput) (sidecars : bool) : KX () :=
  name ← if sidecars
         then name ← lift (ok_or (file_name_of path) [PS "output file name is not valid UTF-8: "; PS path]); mret (Some name)
         else mret None;
  _ ← write_file path (bu_code output);
  match name with
  | None => mret ()
  | Some name =>
      json ← lift (json_of (source_map_json output));
      _ ← write_json_sidecar (with_file_name path (name +:+ ".map.json")) json;
      json ← lift (json_of (metadata_json output));
      _ ← write_json_sidecar (with_file_name path (name +:+ ".metadata.json")) json;
      json ← lift (json_of (report_json output));
      write_json_sidecar (with_file_name path (name +:+ ".report.json")) json
  end.

Context `{Build}.
Variable sha256 : string → string.
(** [KnowledgeBase::load_embedded] *)
Variable load_embedded : string + KnowledgeBase.

Definition embedded : KX KnowledgeBase :=
  lift (match load_embedded with inr kb => Ok kb | inl error => Err [PS "invalid embedded game data: "; PS error] end).

(** Source: [crates/ic10-runner/src/main.rs] [build_usage] *)
Definition build_usage : string :=
  "ic10 build <source.ic10> [-O none|readable|compact] [--game-version VERSION] [--environment NAME] [--stdout | --output FILE | --output-dir DIR] [--no-sidecars] [--quiet]".

(** The output of a build goes where it is asked for.
    Source: [crates/ic10-runner/src/main.rs] [build_command] lines 105-130 *)
Definition deliver (parsed : BuildCommandOptions) (source_path : string) (output : BuildOutput) : KX bool :=
  match bc_output parsed with
  | DestStdout => _ ← print [PS (bu_code output)]; mret true
  | DestFile path =>
      output_path ← absolute_output_path path;
      if String.eqb output_path source_path
      then throw [PS "refusing to overwrite source "; PS source_path; PS " with a build artefact"]
      else
        _ ← write_build_output output_path output (bc_sidecars parsed);
        let report := bu_report output in
        _ ← when (negb (bc_quiet parsed))
              (println [PS "built "; PS output_path; PS " ("; PZ (Z.of_nat (br_generated_lines report)); PS " lines, ";
                        PZ (Z.of_nat (br_generated_bytes report)); PS " bytes, "; PZ (br_saved_lines report); PS " lines saved, ";
                        PZ (br_saved_bytes report); PS " bytes saved)"]);
        mret true
  end.

(** Source: [crates/ic10-runner/src/main.rs] [build_command] *)
Definition build_command (arguments : list string) : KX bool :=
  if existsb (λ argument, one_of argument ["-h"; "--help"]) arguments then _ ← println [PS build_usage]; mret true
  else
    parsed ← lift (parse_build_options arguments);
    source_path ← ask_or (λ d, resolve d (bc_source parsed))
      (λ error, [PS "could not resolve source "; PS (bc_source parsed); PS ": "; PS error]);
    source ← ask_or (λ d, read_to_string d source_path) (λ error, [PS "could not read "; PS source_path; PS ": "; PS error]);
    knowledge ← embedded;
    match build sha256 source (set_bo_source_path source_path (bc_build parsed)) knowledge with
    | Panic => panic
    | Err error =>
        _ ← for_each (λ diagnostic,
              eprintln [PS source_path; PS ":"; PZ (default 1 (bd_source_line diagnostic)); PS ":1: error["; PS (bd_code diagnostic);
                        PS "]: "; PS (bd_message diagnostic)]) (be_diagnostics error);
        mret false
    | Ok output => deliver parsed source_path output
    end.
End commands.
