(* ===== verification/Commands.v ===== *)
(** * Testing, checking and simulating from the command line

    [crates/ic10-runner/src/main.rs], the commands beside [build] ([CommandLine]): [test]
    runs test files and prints a report, [check] loads what it finds, [sim] runs a scenario
    for a number of ticks, and [execute] chooses between them. *)

From S2P Require Import Prelude BTree Text F64 Knowledge Literals Journal Scenario World Program Compile Cpu Exec Behaviour Vm Lua.
From S2P Require Import Simulator Tick Safety Control Load Schema Evaluator ScriptDriver Runner Deploy LuaSandbox TestRun CommandLine.
Local Open Scope string_scope.
Local Open Scope Z_scope.

(** ** Reports *)

Section reports.
Context `{FloatDisplay}.

Definition status_mark (status : Status) : string :=
  match status with Passed => "PASS" | Failed => "FAIL" | Invalid => "INVALID" end.

(** Source: [crates/ic10-runner/src/main.rs] [human] lines 743-770 *)
Definition human_failure (failure : Failure) : message :=
  ([PS "    tick "; match fa_tick failure with Some tick => PZ tick | None => PS "-" end; PS ": "] ++ fa_message failure
   ++ match fa_expression failure with Some expression => [PS ": `"; PS expression; PS "`"] | None => [] end
   ++ match fa_expected failure, fa_actual failure with
      | None, None => []
      | expected, actual =>
          [PS " (expected "] ++ default [PS "-"] expected ++ [PS ", actual "] ++ default [PS "-"] actual ++ [PS ")"]
      end
   ++ match fa_source failure with
      | Some source => [PS " at "; PS source; PS ":"; PZ (default 1 (fa_line failure))]
      | None => []
      end
   ++ [PS NEWLINE])%list.

(** Source: [crates/ic10-runner/src/main.rs] [human] lines 733-771 *)
Definition human_case (case : CaseResult) : message :=
  ([PS "  "; PS (status_mark (cr_status case)); PS " "; PS (cr_name case); PS " (tick "; PZ (cr_ticks case); PS ", ";
    PZ (cr_operations case); PS " ops)"; PS NEWLINE] ++ concat (human_failure <$> cr_failures case))%list.

(** Source: [crates/ic10-runner/src/main.rs] [human] *)
Definition human (summary : RunSummary) : message :=
  (concat ((λ file,
      match fi_error file with
      | Some error => [PS "INVALID "; PS (fi_path file); PS ": "] ++ error ++ [PS NEWLINE]
      | None => [PS (fi_path file); PS NEWLINE] ++ concat (human_case <$> fi_cases file)
      end) <$> su_files summary)
   ++ [PS NEWLINE; PZ (su_passed summary); PS " passed, "; PZ (su_failed summary); PS " failed, "; PZ (su_invalid summary);
       PS " invalid"; PS NEWLINE])%list.

Definition QUOTE : string := String (byte 34) "".
Definition APOSTROPHE : Ascii.ascii := byte 39.

(** Source: [crates/ic10-runner/src/main.rs] [xml] *)
Definition xml (value : string) : string :=
  replace_with APOSTROPHE "&apos;" (replace_with (byte 34) "&quot;" (replace_with (byte 62) "&gt;"
    (replace_with (byte 60) "&lt;" (replace_with (byte 38) "&amp;" value)))).

(** What stands for a character in the text of an element. *)
Definition entity (c : Ascii.ascii) : string :=
  if Ascii.eqb c (byte 38) then "&amp;"
  else if Ascii.eqb c (byte 60) then "&lt;"
  else if Ascii.eqb c (byte 62) then "&gt;"
  else if Ascii.eqb c (byte 34) then "&quot;"
  else if Ascii.eqb c APOSTROPHE then "&apos;"
  else String c "".

Lemma replace_with_app c by_ a b : replace_with c by_ (a +:+ b) = replace_with c by_ a +:+ replace_with c by_ b.
Proof.
  induction a as [|x a IH]; [done|]. change (String x a +:+ b) with (String x (a +:+ b)). cbn [replace_with]. rewrite IH.
  destruct (Ascii.eqb x c); [symmetry; apply string_app_assoc|done].
Qed.

Lemma xml_entity c : xml (String c "") = entity c.
Proof. destruct c as [[] [] [] [] [] [] [] []]; vm_compute; reflexivity. Qed.

(** The replacements one after the other are one pass over the text: nothing that stands
    for a character is replaced again. *)
Lemma xml_entities value : xml value = concat_strings (entity <$> String.list_ascii_of_string value).
Proof.
  induction value as [|c value IH]; [done|]. change (concat_strings (entity <$> String.list_ascii_of_string (String c value)))
    with (entity c +:+ concat_strings (entity <$> String.list_ascii_of_string value)).
  rewrite <-IH, <-xml_entity. change (String c value) with (String c "" +:+ value). unfold xml. by rewrite !replace_with_app.
Qed.

(** An attribute of an element. *)
Definition attribute (name value : string) : string := name +:+ ("=" +:+ (QUOTE +:+ (value +:+ QUOTE))).

Definition element (parts : list string) : string := concat_strings parts.

Definition count_status (status : Status) (cases : list CaseResult) : nat := length (filter (has_status status) cases).

Definition file_tests (file : FileResult) : nat := Nat.max (length (fi_cases file)) (Nat.b2n (is_some (fi_error file))).

(** Source: [crates/ic10-runner/src/main.rs] [junit] lines 812-841 *)
Definition junit_case (path : string) (case : CaseResult) : string :=
  let failures := (message_text ∘ fa_message) <$> cr_failures case in
  element ["    <testcase "; attribute "name" (xml (cr_name case)); " "; attribute "classname" (xml path); " ";
           attribute "time" "0"; ">"]
  +:+ ((match cr_status case with
        | Passed => ""
        | _ =>
            let tag := match cr_status case with Invalid => "error" | _ => "failure" end in
            element ["<"; tag; " "; attribute "message" (xml (default "failed" (head failures))); ">"; xml (join NEWLINE failures);
                     "</"; tag; ">"]
        end)
       +:+ ("</testcase>" +:+ NEWLINE)).

(** Source: [crates/ic10-runner/src/main.rs] [junit] lines 790-843 *)
Definition junit_file (file : FileResult) : string :=
  let path := fi_path file in
  let count n := show (Z.of_nat n) in
  element ["  <testsuite "; attribute "name" (xml path); " "; attribute "tests" (count (file_tests file)); " ";
           attribute "failures" (count (count_status Failed (fi_cases file))); " ";
           attribute "errors" (count (Nat.b2n (is_some (fi_error file)) + count_status Invalid (fi_cases file))%nat); " ";
           attribute "time" "0"; ">"; NEWLINE]
  +:+ (match fi_error file with
       | Some error =>
           element ["    <testcase "; attribute "name" "fixture"; " "; attribute "time" "0"; "><error ";
                    attribute "message" (xml (message_text error)); "/></testcase>"; NEWLINE]
       | None => ""
       end
       +:+ (concat_strings (junit_case path <$> fi_cases file) +:+ ("  </testsuite>" +:+ NEWLINE))).

(** Source: [crates/ic10-runner/src/main.rs] [junit] *)
Definition junit (summary : RunSummary) : string :=
  element ["<?xml "; attribute "version" "1.0"; " "; attribute "encoding" "UTF-8"; "?>"; NEWLINE;
           "<testsuites "; attribute "tests" (show (Z.of_nat (sum_list (file_tests <$> su_files summary)))); " ";
           attribute "failures" (show (su_failed summary)); " "; attribute "errors" (show (su_invalid summary)); " ";
           attribute "time" "0"; ">"; NEWLINE]
  +:+ (concat_strings (junit_file <$> su_files summary) +:+ ("</testsuites>" +:+ NEWLINE)).
End reports.

(** ** The simulation *)

Section simulation.
Context `{Libm} `{Build} `{LuaEngine} `{FloatDisplay}.

(** Ticks until the programs are finished or the limit is reached, with the operations
    that ran; [None] when the fuel is spent.
    Source: [crates/ic10-runner/src/main.rs] [sim_command] lines 653-659 *)
Fixpoint sim_ticks (fuel : nat) (max_ticks operations : Z) : M Simulator message (option Z) := λ s,
  match fuel with
  | O => (Ok None, s)
  | S fuel =>
      if negb (is_finished s) && (tick s <? max_ticks) then
        match step_world_tick s with
        | (Ok (Some events), s) =>
            match add_u64 operations (Z.of_nat (length events)) with
            | Ok operations => sim_ticks fuel max_ticks operations s
            | Err e => (Err e, s)
            | Panic => (Panic, s)
            end
        | (Ok None, s) => (Ok None, s)
        | (Err error, s) => (Err ([PS "tick "; PZ (tick s); PS ": "] ++ error)%list, s)
        | (Panic, s) => (Panic, s)
        end
      else (Ok (Some operations), s)
  end.

(** A tick for each that is left. *)
Definition sim_fuel (max_ticks : Z) : nat := S (Z.to_nat max_ticks).

(** The loop is left: the programs are finished, the limit is reached, or a tick reports
    an error. *)
Lemma sim_ticks_end sizes nn nc max_ticks : overflow_checks = false → max_ticks ≤ U64_MAX → ∀ fuel operations s,
  sim_ok sizes nn nc s → NoDup (sim_schedule s) → 0 ≤ scheduler_slot s → 0 ≤ tick s → budget s ≤ U32_MAX →
  (Z.to_nat (max_ticks - tick s) < fuel)%nat →
  let '(r, s') := sim_ticks fuel max_ticks operations s in
  r ≠ Panic ∧ r ≠ Ok None ∧ ∀ n, r = Ok (Some n) → is_finished s' = true ∨ max_ticks ≤ tick s'.
Proof.
  intros Hrelease Hmax. induction fuel as [|fuel IH]; intros operations s Hs Hnd Hslot Ht Hb Hfuel; [lia|]. cbn [sim_ticks].
  destruct (is_finished s) eqn:Hfin; [by split_and!; [..|left]|]. destruct (Z.ltb_spec (tick s) max_ticks) as [Hlt|Hge]; [|by split_and!; [..|right]].
  pose proof (safe_step_until_tick sizes nn nc Hrelease (tick_fuel s) (tick s) [] s Hs) as Hsafe.
  pose proof (step_until_tick_spec (tick_fuel s) (tick s) [] s Hnd Hslot ltac:(lia) Hb eq_refl) as Hspec.
  cbn [negb andb]. unfold step_world_tick. destruct (step_until_tick _ _ _ s) as [r s1]. destruct Hspec as [Hnone Hok]; [pose proof (capacity_fuel s); lia|].
  destruct r as [[events|]|e|]; [|done..].
  assert (∃ n, add_u64 (E:=message) operations (Z.of_nat (length events)) = Ok n) as [n ->].
  { unfold add_u64, on_overflow. rewrite Hrelease. destruct (_ <=? _); by eexists. }
  destruct (Hok _ eq_refl) as (Ht1 & Hs1 & _ & [Hk Hsc] & _). rewrite wrap_u_small in Ht1 by (unfold U64_MAX in *; lia).
  apply IH; [apply Hsafe|by rewrite Hsc|lia|lia|unfold budget in *; by rewrite Hk|lia].
Qed.

(** [sim] runs a scenario of IC10 programs to an end, and counts no tick beyond its limit. *)
Lemma sim_fuel_enough read_file sidecars resolve_path new_lua scenario kb s max_ticks :
  overflow_checks = false → kb_arities kb → ar_maximum_instructions_per_tick (la_architecture (kb_language kb)) ≤ U32_MAX →
  from_scenario read_file sidecars resolve_path new_lua scenario kb = Ok s →
  Forall (λ a, adapter_language a = LangIc10) (sim_schedule s) → max_ticks ≤ U64_MAX →
  let '(r, s') := sim_ticks (sim_fuel max_ticks) max_ticks 0 s in
  r ≠ Panic ∧ r ≠ Ok None ∧ ∀ n, r = Ok (Some n) → is_finished s' = true ∨ max_ticks ≤ tick s'.
Proof.
  intros Hrelease Hkb Hbudget Hs Hic10 Hmax. pose proof (loaded_simulator_ok _ _ _ _ _ _ Hkb _ Hs Hic10) as Hok.
  apply loaded_simulator_start in Hs as (Hk & Ht & Hslot & Hplan).
  eapply sim_ticks_end; [done|done|exact Hok|by eapply plan_NoDup|lia|lia|unfold budget; by rewrite Hk|unfold sim_fuel; lia].
Qed.
End simulation.

(** ** Commands *)

Section commands.
Context `{Libm} `{Build} `{LuaEngine} `{FloatDisplay} {D : Type} `{Disk D}.
Variable json_text : Json → string.
Variable case_to_json : TestCase → option Json.
Variable case_from_json : Json → option TestCase.
Variable state_to_vec : StateEnvelope → string + list Z.
Variable definitions_to_vec : list ScriptedDriver → string + list Z.
Variable state_from_slice : list Z → string + StateEnvelope.
Variable scenario_from_json : string → string + Scenario.
Variable test_from_json : string → string + ScenarioTest.
Variable sidecars : string → option (list BuildMapEntry) * option string.
Variable resolve_path : string → string → string.
(** A Lua state, with the library directories it may load from. *)
Variable new_lua : list string → string → string → string → string → World → BTreeMap string string → nat →
  outcome message LuaProgramRuntime.
Variable load_embedded : string + KnowledgeBase.
Variable run_module : string → list string → TestRun.LuaRunLimits → TestRun.LuaDiagnostic + LuaRunResult.
Variable late : string → nat → bool.
Variable summary_json : RunSummary → string + string.
Variable value_json : Json → string + string.
Variable parse_value : string → string + Json.
Variable utf8_error : string → string.
Variable compile_chunk : string → string → option MluaError.
Variable source_map_json : BuildOutput → string + string.
Variable metadata_json : BuildOutput → string + string.
Variable report_json : BuildOutput → string + string.
Variable sha256 : string → string.
(** The embedded compatibility report, and the version of the crate. *)
Variable conformance_json : string.
Variable package_version : string.

Abbreviation KX := (M (Console D) message).

(** The components of a path, and the disk for [LuaSandbox]. *)
Definition path_of (text : string) : list string := split_char (byte 47) text.
Definition sandbox_files (d : D) : FileSystem :=
  {| LuaSandbox.canonicalize := resolve d; is_file := is_file_in d; is_dir := is_dir_in d; fs_read := read_bytes d |}.

(** Source: [crates/ic10-runner/src/main.rs] [resolve_library_path] *)
Definition resolve_library_path (value : string) : KX string :=
  resolved ← ask_or (λ d, resolve d value) (λ error, [PS "could not resolve Lua library directory "; PS value; PS ": "; PS error]);
  directory ← ask (λ d, is_dir_in d resolved);
  if directory : bool then mret resolved else throw [PS "Lua library path is not a directory: "; PS resolved].

(** *** [ic10 test] *)

(** The variables of the loop over the arguments of a test run.
    Source: [crates/ic10-runner/src/main.rs] [test_command] lines 299-304 *)
Record TestArguments := {
  ta_paths : list string;
  ta_format : string;
  ta_output : option string;
  ta_filter : option string;
  ta_limits : RunLimits;
  ta_libraries : list string;
}.

Definition no_test_arguments : TestArguments :=
  {| ta_paths := []; ta_format := "human"; ta_output := None; ta_filter := None; ta_limits := run_limits_default; ta_libraries := [] |}.

Definition alter_limits (f : RunLimits → RunLimits) (a : TestArguments) : TestArguments :=
  {| ta_paths := ta_paths a; ta_format := ta_format a; ta_output := ta_output a; ta_filter := ta_filter a;
     ta_limits := f (ta_limits a); ta_libraries := ta_libraries a |}.

(** What an option says with its value.
    Source: [crates/ic10-runner/src/main.rs] [test_command] lines 308-340 *)
Definition test_value (option value : string) (a : TestArguments) : KX TestArguments :=
  if String.eqb option "--format" then
    mret {| ta_paths := ta_paths a; ta_format := value; ta_output := ta_output a; ta_filter := ta_filter a; ta_limits := ta_limits a;
            ta_libraries := ta_libraries a |}
  else if String.eqb option "--output" then
    mret {| ta_paths := ta_paths a; ta_format := ta_format a; ta_output := Some value; ta_filter := ta_filter a;
            ta_limits := ta_limits a; ta_libraries := ta_libraries a |}
  else if String.eqb option "--filter" then
    mret {| ta_paths := ta_paths a; ta_format := ta_format a; ta_output := ta_output a; ta_filter := Some value;
            ta_limits := ta_limits a; ta_libraries := ta_libraries a |}
  else if String.eqb option "--max-ticks" then
    n ← lift (number value);
    mret (alter_limits (λ l, {| rl_max_ticks := n; rl_max_operations := rl_max_operations l; Runner.rl_wall_time := Runner.rl_wall_time l |}) a)
  else if String.eqb option "--max-operations" then
    n ← lift (number value);
    mret (alter_limits (λ l, {| rl_max_ticks := rl_max_ticks l; rl_max_operations := n; Runner.rl_wall_time := Runner.rl_wall_time l |}) a)
  else if String.eqb option "--wall-time-ms" then
    n ← lift (number value);
    mret (alter_limits (λ l, {| rl_max_ticks := rl_max_ticks l; rl_max_operations := rl_max_operations l; Runner.rl_wall_time := n |}) a)
  else
    path ← resolve_library_path value;
    mret {| ta_paths := ta_paths a; ta_format := ta_format a; ta_output := ta_output a; ta_filter := ta_filter a;
            ta_limits := ta_limits a; ta_libraries := ta_libraries a ++ [path] |}%list.

Definition TEST_OPTIONS : list string :=
  ["--format"; "--output"; "--filter"; "--max-ticks"; "--max-operations"; "--wall-time-ms"; "--lua-library"].

(** Source: [crates/ic10-runner/src/main.rs] [test_command] lines 306-347 *)
Fixpoint test_arguments (arguments : list string) (a : TestArguments) : KX TestArguments :=
  match arguments with
  | [] => mret a
  | argument :: rest =>
      if one_of argument TEST_OPTIONS then
        match rest with
        | [] => throw [PS argument; PS " requires a value"]
        | value :: rest => a ← test_value argument value a; test_arguments rest a
        end
      else if starts_with "-" argument then throw [PS "unknown test option `"; PS argument; PS "`"]
      else
        test_arguments rest
          {| ta_paths := ta_paths a ++ [argument]; ta_format := ta_format a; ta_output := ta_output a; ta_filter := ta_filter a;
             ta_limits := ta_limits a; ta_libraries := ta_libraries a |}%list
  end.

(** [run_files] on the files of the disk. *)
Definition run_tests (kb : KnowledgeBase) (request : RunRequest) (d : D) : outcome message RunSummary :=
  ended (@run_files json_text case_to_json case_from_json _ _ _ _ (files_of d) state_to_vec definitions_to_vec state_from_slice
    (read_to_string d) scenario_from_json test_from_json sidecars resolve_path (new_lua (rq_lua_library_paths request)) kb run_module late
    (node_at d) request).

(** Source: [crates/ic10-runner/src/main.rs] [test_command] *)
Definition test_command (kb : KnowledgeBase) (arguments : list string) : KX bool :=
  a ← test_arguments arguments no_test_arguments;
  let paths := match ta_paths a with [] => ["."] | paths => paths end in
  summary ← (λ c, (run_tests kb {| rq_paths := path_of <$> paths; rq_name_filter := ta_filter a; rq_limits := ta_limits a;
                                   rq_lua_library_paths := ta_libraries a |} (co_disk c), c));
  rendered ← lift (
    if String.eqb (ta_format a) "human" then Ok (message_text (human summary))
    else if String.eqb (ta_format a) "json" then json ← json_of (summary_json summary); Ok (json +:+ NEWLINE)
    else if String.eqb (ta_format a) "junit" then Ok (junit summary)
    else Err [PS "unknown output format `"; PS (ta_format a); PS "`; expected human, json, or junit"]);
  _ ← match ta_output a with
      | Some path => write_file path rendered
      | None => print [PS rendered]
      end;
  mret ((su_failed summary =? 0) && (su_invalid summary =? 0)).

(** *** [ic10 check] *)

(** Source: [crates/ic10-runner/src/main.rs] [is_scenario_path] *)
Definition is_scenario_path (path : string) : bool := ends_with ".icsim" path.

(** The files below a path that can be checked, the entries of a directory by their names.
    Source: [crates/ic10-runner/src/main.rs] [collect_check_paths] *)
Fixpoint collect_check_paths (node : FsNode) (path : list string) (files : list (list string)) : outcome message (list (list string)) :=
  match node with
  | FsFile => Ok (files ++ [path])%list
  | FsOther error | FsDirectory (inl error) => Err [PS "could not read "; PS (path_text path); PS ": "; PS error]
  | FsDirectory (inr entries) =>
      let visits := map (λ '(name, child), (name, (is_directory child, collect_check_paths child (path ++ [name])%list))) entries in
      fold_outcome (λ files '(name, (directory, visit)),
        let child := path_text (path ++ [name])%list in
        if directory : bool then if ignored_directory name then Ok files else visit files
        else if ends_with ".ic10" child || is_scenario_path child || is_test_path child then Ok (files ++ [path ++ [name]])%list
        else Ok files) files (bt_collect visits)
  end.

(** Source: [crates/ic10-runner/src/main.rs] [check_command] lines 383-398 *)
Fixpoint check_arguments (arguments libraries paths : list string) : KX (list string * list string) :=
  match arguments with
  | [] => mret (libraries, paths)
  | argument :: rest =>
      if String.eqb argument "--lua-library" then
        match rest with
        | [] => throw [PS "--lua-library requires a value"]
        | value :: rest => path ← resolve_library_path value; check_arguments rest (libraries ++ [path])%list paths
        end
      else if starts_with "-" argument then throw [PS "unknown check option `"; PS argument; PS "`"]
      else check_arguments rest libraries (paths ++ [argument])%list
  end.

(** A line for the user, and that the file is not valid. *)
Definition refuse (text : message) : KX bool := _ ← eprintln text; mret false.

(** One of the checks of a module, whose failure does not end it. *)
Definition report_error {A} (path : string) (r : outcome message A) : KX bool :=
  match r with Ok _ => mret true | Err error => refuse ([PS path; PS ": "] ++ error)%list | Panic => panic end.

(** All of the checks, whatever one of them says. *)
Fixpoint every {A} (check : A → KX bool) (l : list A) : KX bool :=
  match l with [] => mret true | a :: l => one ← check a; rest ← every check l; mret (one && rest) end.

(** The entry and the roots of a case that runs a Lua module.
    Source: [crates/ic10-runner/src/main.rs] [check_command] lines 457-519 *)
Definition check_lua_case (path fixture_base workspace_root scenario : string) (model : Scenario) (case : TestCase) (execution : ExecutionSpec) :
    KX bool :=
  match execution with
  | LuaModule _ module_roots memory_limit_bytes max_output_bytes max_modules max_source_bytes max_recursion_depth =>
      program_id ← lift (expect (tc_program case));
      match find_first (λ program, String.eqb (ps_id program) program_id) (sc_programs model) with
      | None => refuse [PS path; PS ": unknown Lua program `"; PS program_id; PS "`"]
      | Some program =>
          if negb (is_lua (ps_language program)) then refuse [PS path; PS ": program `"; PS program_id; PS "` is not Lua"]
          else
            d ← ask id;
            roots ← every (λ root,
              report_error path (@resolve_lua_workspace_path (files_of d) workspace_root fixture_base root "Lua module root")) module_roots;
            match @resolve_lua_workspace_path (files_of d) fixture_base (default "." (parent_of scenario)) (ps_path program) "Lua entry program" with
            | Panic => panic
            | Err error => refuse ([PS path; PS ": "] ++ error)%list
            | Ok entry =>
                let limits := {| rl_max_instructions := tc_max_operations case; LuaSandbox.rl_wall_time := LuaSandbox.LUA_MAX_WALL_TIME;
                                 rl_memory_bytes := memory_limit_bytes; rl_max_output_bytes := max_output_bytes;
                                 rl_max_modules := max_modules; rl_max_source_bytes := max_source_bytes;
                                 rl_max_recursion_depth := max_recursion_depth |} in
                syntax ← match @check_syntax (sandbox_files d) utf8_error compile_chunk entry limits with
                         | Ok _ => mret true
                         | Err error => refuse (diagnostic_text error)
                         | Panic => panic
                         end;
                mret (roots && syntax)
            end
      end
  end.

(** The simulation of a scenario of the disk. *)
Definition simulator_of (kb : KnowledgeBase) (libraries : list string) (scenario : string) (d : D) : outcome message Simulator :=
  map_err (simulator_error_text (read_to_string d))
    (from_scenario_path (read_to_string d) scenario_from_json sidecars resolve_path (new_lua libraries) kb scenario).

(** A test file with its scenario and its cases.
    Source: [crates/ic10-runner/src/main.rs] [check_command] lines 416-535 *)
Definition check_test (kb : KnowledgeBase) (libraries : list string) (path : string) (fixture : ScenarioTest) : KX bool :=
  d ← ask id;
  let fixture_base := default "." (parent_of path) in
  let workspace_root := @lua_workspace_root (files_of d) fixture_base in
  match (if existsb has_execution (st_cases fixture)
         then @resolve_lua_workspace_path (files_of d) workspace_root fixture_base (st_scenario fixture) "scenario"
         else Ok (join_of fixture_base (st_scenario fixture))) with
  | Panic => panic
  | Err error => refuse ([PS path; PS ": "] ++ error)%list
  | Ok scenario =>
      match load_scenario (read_to_string d) scenario_from_json scenario with
      | Panic => panic
      | Err error => refuse ([PS scenario; PS ": "] ++ error)%list
      | Ok model =>
          valid ← every (λ case,
            match tc_execution case with
            | Some execution => check_lua_case path fixture_base workspace_root scenario model case execution
            | None => mret true
            end) (st_cases fixture);
          let needs_world := existsb (λ case, negb (has_execution case)) (st_cases fixture) in
          match (if needs_world then _ ← simulator_of kb libraries scenario d; Ok () else Ok ()) with
          | Panic => panic
          | Err error => refuse ([PS scenario; PS ": "] ++ error)%list
          | Ok _ => _ ← when valid (println [PS "ok "; PS path]); mret valid
          end
      end
  end.

(** A file by its name: whether it was checked, and whether it is valid.
    Source: [crates/ic10-runner/src/main.rs] [check_command] lines 412-569 *)
Definition check_path (kb : KnowledgeBase) (libraries : list string) (path : string) : KX (bool * bool) :=
  d ← ask id;
  if is_test_path path then
    valid ← match @load_fixture (files_of d) (read_to_string d) test_from_json path with
            | Ok fixture => check_test kb libraries path fixture
            | Err error => refuse (test_file_error_text (read_to_string d) test_from_json error)
            | Panic => panic
            end;
    mret (true, valid)
  else if is_scenario_path path then
    valid ← match simulator_of kb [] path d with
            | Ok _ => _ ← println [PS "ok "; PS path]; mret true
            | Err error => refuse ([PS path; PS ": "] ++ error)%list
            | Panic => panic
            end;
    mret (true, valid)
  else if ends_with ".ic10" path then
    valid ← match read_to_string d path with
            | inl error => refuse [PS path; PS ": "; PS error]
            | inr source =>
                let '(entries, metadata) := sidecars path in
                match compile path source kb entries metadata with
                | Ok _ => _ ← println [PS "ok "; PS path]; mret true
                | Err error => refuse [PS path; PS ": "; PS (join "; " (ce_diagnostics error))]
                | Panic => panic
                end
            end;
    mret (true, valid)
  else valid ← refuse [PS "unsupported or missing path: "; PS path]; mret (false, valid).

(** Files one after the other: how many were checked, and whether all are valid. *)
Fixpoint check_files (kb : KnowledgeBase) (libraries : list string) (files : list (list string)) : KX (nat * bool) :=
  match files with
  | [] => mret (0%nat, true)
  | path :: files =>
      one ← check_path kb libraries (path_text path);
      rest ← check_files kb libraries files;
      mret ((Nat.b2n one.1 + rest.1)%nat, one.2 && rest.2)
  end.

(** The files below the paths, in order and once each.
    Source: [crates/ic10-runner/src/main.rs] [check_command] lines 402-406 *)
Definition files_to_check (lookup : list string → option FsNode) (paths : list string) : outcome message (list (list string)) :=
  files ← fold_outcome (λ files path,
    match lookup (path_of path) with
    | Some node => collect_check_paths node (path_of path) files
    | None => Err [PS "path does not exist: "; PS path]
    end) [] paths;
  Ok (bt_keys (bt_collect ((λ path, (path, ())) <$> files))).

(** Source: [crates/ic10-runner/src/main.rs] [check_command] *)
Definition check_command (arguments : list string) : KX bool :=
  let missing := [PS "check requires at least one path"] in
  match arguments with
  | [] => throw missing
  | _ =>
      '(libraries, paths) ← check_arguments arguments [] [];
      match paths with
      | [] => throw missing
      | _ =>
          lookup ← ask node_at;
          files ← lift (files_to_check lookup paths);
          kb ← embedded load_embedded;
          '(checked, valid) ← check_files kb libraries files;
          if (checked =? 0)%nat then throw [PS "no scenario or test fixtures found"] else mret valid
      end
  end.

(** *** [ic10 sim] *)

(** The value after the first [--max-ticks].
    Source: [crates/ic10-runner/src/main.rs] [sim_command] lines 628-633 *)
Fixpoint max_ticks_of (arguments : list string) : option string :=
  match arguments with
  | name :: ((value :: _) as rest) => if String.eqb name "--max-ticks" then Some value else max_ticks_of rest
  | _ => None
  end.

(** Source: [crates/ic10-runner/src/main.rs] [sim_command] lines 635-647 *)
Fixpoint sim_libraries (arguments libraries : list string) : KX (list string) :=
  match arguments with
  | [] => mret libraries
  | argument :: rest =>
      if String.eqb argument "--lua-library" then
        match rest with
        | [] => throw [PS "--lua-library requires a value"]
        | value :: rest => path ← resolve_library_path value; sim_libraries rest (libraries ++ [path])%list
        end
      else sim_libraries rest libraries
  end.

(** The report of a simulation as JSON.
    Source: [crates/ic10-runner/src/main.rs] [sim_command] lines 661-667 *)
Definition sim_json (scenario : string) (operations : Z) (s : Simulator) : Json :=
  JObject [("schemaVersion", JNumber "1"); ("scenario", JString scenario); ("tick", JNumber (show (tick s)));
           ("operations", JNumber (show operations)); ("finished", JBool (is_finished s));
           ("cpus", JArray ((λ c,
              JObject [("id", JString (cpu_id c)); ("state", JString (cpu_state_debug (Cpu.state c)));
                       ("line", match current_line c with Some line => JNumber (show (line + 1)) | None => JNull end);
                       ("error", match Cpu.error c with Some text => JString (message_text text) | None => JNull end)]) <$> cpus s));
           ("compatibilityWarnings", JArray (JString <$> compatibility_warnings s))].

(** Source: [crates/ic10-runner/src/main.rs] [sim_command] *)
Definition sim_command (kb : KnowledgeBase) (arguments : list string) : KX bool :=
  scenario ← lift (ok_or (head arguments) [PS "sim requires a .icsim scenario"]);
  if is_obsolete_workspace_path scenario then throw (obsolete_text scenario)
  else
    max_ticks ← lift (match max_ticks_of arguments with Some value => number value | None => Ok 1000 end);
    libraries ← sim_libraries arguments [];
    s ← (λ c, (simulator_of kb libraries scenario (co_disk c), c));
    '(operations, s) ← lift (match sim_ticks (sim_fuel max_ticks) max_ticks 0 s with
                             | (Ok (Some operations), s) => Ok (operations, s)
                             | (Err error, _) => Err error
                             | (Ok None, _) | (Panic, _) => Panic
                             end);
    _ ← if one_of "--json" arguments then
          text ← lift (json_of (value_json (sim_json scenario operations s)));
          println [PS text]
        else
          println [PS scenario; PS ": "; PZ (tick s); PS " ticks, "; PZ operations; PS " operations, ";
                   PS (if is_finished s then "finished" else "bounded")];
    mret (is_finished s).

(** *** [ic10 compatibility] *)

(** [report["instructions"][..]["status"]] of the embedded report. *)
Definition member (name : string) (value : Json) : Json :=
  match value with JObject values => default JNull (snd <$> find_first (λ e, String.eqb e.1 name) values) | _ => JNull end.

Definition with_status (status : string) (entry : Json) : bool :=
  match member "status" entry with JString text => String.eqb text status | _ => false end.

(** Source: [crates/ic10-runner/src/main.rs] [compatibility_command] *)
Definition compatibility_command (arguments : list string) : KX bool :=
  if one_of "--json" arguments then
    _ ← print [PS conformance_json];
    _ ← when (negb (ends_with NEWLINE conformance_json)) (println []);
    mret true
  else
    report ← lift (match parse_value conformance_json with inr report => Ok report | inl error => Err [PS error] end);
    match member "instructions" report with
    | JObject instructions =>
        let count status := length (List.filter (λ e, with_status status e.2) instructions) in
        let unsupported := (length instructions - count "supported" - count "partial")%nat in
        let version := match member "gameVersion" report with JString text => text | _ => "unknown" end in
        _ ← println [PS "Stationeers "; PS version];
        _ ← println [PZ (Z.of_nat (count "supported")); PS " supported, "; PZ (Z.of_nat (count "partial")); PS " partial, ";
                     PZ (Z.of_nat unsupported); PS " unsupported"];
        mret true
    | _ => throw [PS "invalid embedded compatibility report"]
    end.

(** *** The program *)

(** Source: [crates/ic10-runner/src/main.rs] [usage] *)
Definition usage : string :=
  "Usage:" +:+ NEWLINE +:+ "  ic10 check [--lua-library DIR]... <paths...>" +:+ NEWLINE +:+ "  " +:+ build_usage +:+ NEWLINE
  +:+ "  ic10 test [--format human|json|junit] [--output FILE] [--filter NAME] [--max-ticks N] [--max-operations N] [--wall-time-ms N] [--lua-library DIR]... <paths...>"
  +:+ NEWLINE +:+ "  ic10 sim <scenario.icsim|scenario.icsim> [--max-ticks N] [--lua-library DIR]... [--json]" +:+ NEWLINE
  +:+ "  ic10 compatibility [--json]".

(** Source: [crates/ic10-runner/src/main.rs] [execute] *)
Definition execute_command (kb : KnowledgeBase) (arguments : list string) : KX bool :=
  match arguments with
  | [] => throw [PS usage]
  | command :: rest =>
      if String.eqb command "test" then test_command kb rest
      else if String.eqb command "check" then check_command rest
      else if String.eqb command "build" then build_command source_map_json metadata_json report_json sha256 load_embedded rest
      else if String.eqb command "sim" then sim_command kb rest
      else if String.eqb command "compatibility" then compatibility_command rest
      else if one_of command ["-h"; "--help"; "help"] then _ ← println [PS usage]; mret true
      else if one_of command ["-V"; "--version"] then _ ← println [PS "ic10 "; PS package_version]; mret true
      else throw [PS "unknown command `"; PS command; PS "`"; PS NEWLINE; PS NEWLINE; PS usage]
  end.

(** The exit code of the process, after the error was printed; a panic ends it with 101.
    Source: [crates/ic10-runner/src/main.rs] [main] *)
Definition main (kb : KnowledgeBase) (arguments : list string) (c : Console D) : Z * Console D :=
  match execute_command kb arguments c with
  | (Ok true, c) => (0, c)
  | (Ok false, c) => (1, c)
  | (Err error, c) => (2, (eprintln ([PS "ic10: "] ++ error)%list c).2)
  | (Panic, c) => (101, c)
  end.
End commands.
